(* ===== verification/_CoqProject ===== *)
-Q . S2P
Prelude.v
Bytes.v
Errors.v
Tlv.v
Crypto.v
Toy.v
Alg.v
Aead.v
Ad.v
Wire.v
Ratchet.v
PqRatchet.v
Session.v
SessionRun.v
Conversation.v
SessionFacts.v
Keys.v
Handshake.v
EndToEnd.v
Transparency.v
Consistency.v
SafetyNumber.v
PqSig.v
Storage.v
Sealed.v
Groups.v
GroupMessages.v
ServerError.v
Validation.v
RequestAuth.v
Caches.v
Realtime.v
ServerState.v
ToyServer.v
ServerFrame.v
ServerAuth.v
Messaging.v
Delivery.v
Relaying.v
InboxSocket.v
PrekeyServer.v
PrekeyFacts.v
ClientAuth.v
Accounts.v
IdentityLog.v
Android.v
TransparencyService.v
AndroidAuth.v
AndroidKeys.v
BundleFacts.v
AndroidSession.v
AndroidChat.v
RegistrationPow.v
Oprf.v
ToyDiscovery.v
Discovery.v
DiscoveryFacts.v
Contacts.v
DiscoveryTickets.v
AndroidDiscovery.v
DiscoveryRun.v
DiscoveryManifest.v
PrivateGroups.v
PrivateGroupFacts.v
PrivateGroupRun.v
Objects.v
ObjectFacts.v
ObjectRun.v
DisabledFeatures.v
Reaper.v
WebJs.v
WebTransparency.v
WebAuth.v
Wasm.v
WebKeys.v
WebChat.v
WebUploads.v
WebDiscovery.v
WebDiscoveryRun.v
