(* ===== verification/Prelude.v ===== *)
(** * pqmsg: a verification library of the post-quantum messenger

    The repository is a messenger with end-to-end encryption: a Rust core
    ([crates/pqmsg-core]) with handshake, sessions, sealed sender, groups and
    key transparency; a server ([crates/pqmsg-server]) that stores prekeys,
    relays messages it cannot read and logs identities; a contact discovery
    service ([crates/pqmsg-discovery]); and clients for the command line
    ([crates/pqmsg-cli]), Android ([crates/pqmsg-android]) and the web
    ([mobile/web/src], with the core compiled by [wasm_bindings.rs]). The clients
    use the core for keys and messages, sign their requests to the server, fetch
    bundles and transparency proofs from it, and get tickets from it that the
    discovery service accepts.

    ** How code is modelled

    Every definition is executable. Octets are [list Byte.byte], strings their
    UTF-8 octets, unsigned integers [N] and signed ones [Z] with the checks and
    the wrap-around of the code written out; a time is a number of nanoseconds.
    [Result] is [result] with [let?] for the question mark; a handler is a
    function from the server's state to a state and a result ([SM], [Handler],
    with the notation of [sm_scope]), a client operation a function of the random
    source ([Droid], [Web]). A [HashMap] is a [gmap], and where its iteration
    order shows, the order is a parameter ([HashIter]). A database table is a map
    or a [Table] of rows with the next identifier, a transaction restores the
    tables on failure. JavaScript's 32-bit operators, property order and thrown
    errors are written out in [WebJs] and [WebDiscovery].

    Third-party code is a class of operations with a class of laws that state its
    documented behaviour: [Primitives] (hash, HMAC, HKDF, X25519, AEAD, random
    source), [KemProvider], [Ed25519], [PqSignatureProvider], [Base64],
    [StorageCrypto], [Ristretto], [JsonText], [Rfc3339], [Uuid], [WebPlatform],
    [WebText], [NobleKeys], [WebJson], [NobleRistretto]. The files [Toy],
    [ToyServer], [ToyDiscovery] and the end of some others instantiate them with
    small concrete functions, at which the witnesses evaluate the theorems.

    ** The files

    Shared: [Prelude] (results, the state and error monad, tactics), [Bytes]
    (integers, UTF-8, decimal and hexadecimal), [Errors] ([error.rs]).

    The core: [Tlv] ([tlv.rs]); [Crypto] ([kdf.rs], [dh.rs], [kem.rs], the
    classes); [Alg] ([alg.rs]); [Aead] ([aead.rs]); [Ad] ([ad.rs]); [Wire]
    ([wire.rs]); [Ratchet], [PqRatchet] ([ratchet/]); [Session] with its facts in
    [SessionRun], [Conversation], [SessionFacts] ([session.rs]); [Keys] ([keys.rs]);
    [Handshake] ([handshake.rs]); [Transparency], [Consistency]
    ([key_transparency.rs]); [SafetyNumber]; [PqSig]; [Storage]; [Sealed];
    [Groups], [GroupMessages] ([groups.rs]). [EndToEnd] joins handshake and
    session as the command-line client does.

    The server: [ServerError], [Validation], [RequestAuth] ([auth.rs]), [Caches]
    and [Realtime] ([lib.rs]), [ServerState] (the state of [AppState] and the
    tables of [migrations/]), [ServerFrame] (what a handler can change). The
    handlers: [Messaging] and [InboxSocket] ([messaging.rs]), [PrekeyServer]
    ([prekeys.rs]), [Accounts] ([identity.rs]), [TransparencyService]
    ([transparency.rs]), [Contacts] ([invites.rs], [discovery.rs]),
    [PrivateGroups] ([private_groups.rs]), [Objects] ([profile.rs],
    [backups.rs]), [DisabledFeatures], and [Reaper], the background task of
    [ephemeral.rs]. Their theorems are in [ServerAuth], [Delivery], [Relaying],
    [PrekeyFacts], [IdentityLog], [BundleFacts], [PrivateGroupFacts],
    [PrivateGroupRun], [ObjectFacts] and [ObjectRun].

    The clients: [ClientAuth] and [RegistrationPow] (command line); [Android],
    [AndroidAuth], [AndroidKeys], [AndroidSession], [AndroidDiscovery] with
    [AndroidChat]; [WebJs], [WebTransparency], [WebAuth], [Wasm], [WebKeys],
    [WebDiscovery] with [WebChat], [WebUploads] and [WebDiscoveryRun].

    Contact discovery: [Oprf] (the group and what both sides share), [Discovery]
    (the service), [DiscoveryFacts], [DiscoveryTickets], [DiscoveryRun],
    [DiscoveryManifest].

    ** What is shown

    - Messages. Two sessions deliver every message at most once and unaltered,
      whatever is lost, repeated or reordered ([Conversation]); the handshake
      agrees on one key ([Handshake]); the Android and the web client keep these
      guarantees from the generation of keys on ([AndroidChat], [WebChat]), and
      the two libraries are the same session code ([web_session_equivalent]).
    - Encodings. Records, wire messages, sealed envelopes, certificates and group
      payloads are decoded to what was encoded, and what is accepted is canonical
      ([Tlv], [Wire], [Sealed], [Groups], [GroupMessages]).
    - Transparency. Accepted inclusion and consistency proofs are sound, the
      evaluation is that of RFC 6962, the server's log determines the keys it
      serves and its proofs are accepted, and the verifier written in JavaScript
      agrees with the compiled one ([Transparency], [Consistency], [IdentityLog],
      [TransparencyService], [WebTransparency]).
    - Requests. A transcript determines the request, what the clients sign the
      server verifies, accepted requests cannot be replayed in the window
      ([RequestAuth], [ServerAuth], [ClientAuth], [AndroidAuth], [WebAuth],
      [WebUploads]).
    - Delivery. Inboxes deliver each message once and in order and are drained in
      as many polls as they have pages; live inboxes keep the order; a message is
      stored once in the deduplication window; the reaper takes nothing away that
      can still be read ([Delivery], [InboxSocket], [Relaying], [Reaper]).
    - Stored data. One-time prekeys are handed out once, bundles are accepted,
      identities change by signed rotations only, group epochs are consecutive and
      retired credentials refused, every file, backup and avatar row has its
      octets ([PrekeyFacts], [BundleFacts], [IdentityLog], [PrivateGroupRun],
      [ObjectRun]).
    - Contact discovery. Users find each other exactly through handles both know;
      tickets are used at most three times; the tokens of the web client are those
      of the Android client ([DiscoveryRun], [DiscoveryFacts], [DiscoveryTickets],
      [WebDiscoveryRun]).
    - Defects, as theorems about the code as it is: the consistency proofs the
      server builds for most sizes are refused, a removed group member reads on, a
      forged message advances a chain, first messages with a one-time prekey are
      refused by two clients, and others.

    ** Bounds and fuel

    Recursion that is not structural takes fuel, and a lemma shows how much is
    enough. The decoder of records consumes at least four octets a turn and runs
    with the length of its input ([Tlv]); the tree loops of [Transparency] and
    [Consistency] with the number of leaves or the bits of the size; the search
    for a proof of work ends within 2^64 rounds ([pow_solver_terminates]); the
    loops of the web client within 31 or 32 turns ([web_evaluation_terminates]).
    The draw of a non-zero scalar is a retry without bound in the code: theorems
    that need the draw to succeed say so ([draws_ok]). Conversations of the
    clients are stated for 512 messages a side, the capacity of the cache of
    skipped keys.

    ** Not modelled

    User interfaces, HTTP and JSON at the boundary of the handlers, process
    start-up, the desktop shell, the apps around the client libraries and
    [pqmsg-ios], which writes a subset of the Android functions a second time. At
    the server: the Redis back ends, the push notifier, audit log and metrics,
    the directory and S3 back ends of the blob store, failures of the database;
    requests are served one after another, each with one reading of the clock.
    The bodies of handlers of switched-off features never run and are parameters
    of [DisabledFeatures]. The PKCS#11 calls of [hsm.rs], the back ends of ML-KEM
    and ML-DSA and zeroing of memory are left out. In the web client, the
    encryption of local state under a passphrase and the loader of the compiled
    library. *)

From Stdlib Require Import Strings.Byte.
From stdpp Require Export base decidable gmap list strings numbers option.

(** ** Results

    Rust's [Result<A, E>], and the [?] operator as [let?]. *)

Inductive result (E A : Type) : Type :=
| Ok (a : A)
| Err (e : E).
Arguments Ok {E A} a.
Arguments Err {E A} e.

Declare Scope res_scope.
Delimit Scope res_scope with res.
Open Scope res_scope.

Notation "'let?' x ':=' c 'in' k" :=
  (match c with Ok x => k | Err err => Err err end)
  (at level 10, x pattern, k at level 200) : res_scope.

(** [Option::ok_or]. *)
Definition ok_or {E A} (o : option A) (e : E) : result E A :=
  match o with Some a => Ok a | None => Err e end.

(** [Result::ok]. *)
Definition res_ok {E A} (r : result E A) : option A :=
  match r with Ok a => Some a | Err _ => None end.

(** [Option<Result<A, E>>::transpose]. *)
Definition res_transpose {E A} (o : option (result E A)) : result E (option A) :=
  match o with
  | None => Ok None
  | Some (Ok a) => Ok (Some a)
  | Some (Err e) => Err e
  end.

Definition is_ok {E A} (r : result E A) : bool :=
  match r with Ok _ => true | Err _ => false end.

(** ** Mutating methods

    A method on [&mut self] that returns a [Result] threads its state through
    the error path as well: what it wrote before returning [Err] stays
    written. *)

Definition SM (S E A : Type) : Type := S → S * result E A.

Definition sm_ret {S E A} (a : A) : SM S E A := λ s, (s, Ok a).
Definition sm_err {S E A} (e : E) : SM S E A := λ s, (s, Err e).
Definition sm_bind {S E A B} (c : SM S E A) (k : A → SM S E B) : SM S E B :=
  λ s, match c s with
       | (s', Ok a) => k a s'
       | (s', Err e) => (s', Err e)
       end.
Definition sm_get {S E} : SM S E S := λ s, (s, Ok s).
Definition sm_modify {S E} (f : S → S) : SM S E unit := λ s, (f s, Ok tt).
Definition sm_lift {S E A} (r : result E A) : SM S E A := λ s, (s, r).

Declare Scope sm_scope.
Delimit Scope sm_scope with sm.

Notation "x <- c ;; k" := (sm_bind c (λ x, k))
  (at level 100, c at next level, right associativity) : sm_scope.
Notation "c ;;; k" := (sm_bind c (λ _, k))
  (at level 100, right associativity) : sm_scope.

(** ** Tactics *)

(** Split a [let?] chain in a hypothesis that says it succeeded. *)
Ltac inv_ok H :=
  repeat match type of H with
  | context [match ?c with Ok _ => _ | Err _ => _ end] =>
      let E := fresh "E" in destruct c eqn:E; try discriminate H
  | context [if ?b then _ else _] =>
      let E := fresh "E" in destruct b eqn:E; try discriminate H
  | context [match ?o with Some _ => _ | None => _ end] =>
      let E := fresh "E" in destruct o eqn:E; try discriminate H
  | Ok _ = Ok _ => injection H as H
  end.

(** Boolean comparisons of the code, as the propositions they decide. *)
Ltac bool_to_prop :=
  repeat match goal with
  | H : (_ && _)%bool = true |- _ => apply andb_true_iff in H; destruct H
  | H : (_ || _)%bool = false |- _ => apply orb_false_iff in H; destruct H
  | H : negb _ = true |- _ => apply negb_true_iff in H
  | H : negb _ = false |- _ => apply negb_false_iff in H
  | H : N.ltb _ _ = true |- _ => apply N.ltb_lt in H
  | H : N.ltb _ _ = false |- _ => apply N.ltb_ge in H
  | H : N.leb _ _ = true |- _ => apply N.leb_le in H
  | H : N.leb _ _ = false |- _ => apply N.leb_gt in H
  | H : N.eqb _ _ = true |- _ => apply N.eqb_eq in H
  | H : N.eqb _ _ = false |- _ => apply N.eqb_neq in H
  | H : Nat.ltb _ _ = true |- _ => apply Nat.ltb_lt in H
  | H : Nat.ltb _ _ = false |- _ => apply Nat.ltb_ge in H
  | H : Nat.leb _ _ = true |- _ => apply Nat.leb_le in H
  | H : Nat.leb _ _ = false |- _ => apply Nat.leb_gt in H
  | H : Nat.eqb _ _ = true |- _ => apply Nat.eqb_eq in H
  | H : Nat.eqb _ _ = false |- _ => apply Nat.eqb_neq in H
  | H : bool_decide _ = true |- _ => apply bool_decide_eq_true in H
  | H : bool_decide _ = false |- _ => apply bool_decide_eq_false in H
  end.

Create HintDb pqmsg.
Create Rewrite HintDb pqmsg.

(** ** Generic lemmas *)

Lemma ok_or_Some {E A} (a : A) (e : E) : ok_or (Some a) e = Ok a.
Proof. reflexivity. Qed.

Lemma Ok_inj {E A} (a b : A) : @Ok E A a = Ok b → a = b.
Proof. by intros [= ->]. Qed.

Lemma app_inj_len {A} (a b c d : list A) :
  length a = length c → a ++ b = c ++ d → a = c ∧ b = d.
Proof. intros Hl H. by apply app_inj_1 in H. Qed.

Lemma take_app_len {A} (n : nat) (a b : list A) : n = length a → take n (a ++ b) = a.
Proof. intros ->. apply take_app_length. Qed.

Lemma drop_app_len {A} (n : nat) (a b : list A) : n = length a → drop n (a ++ b) = b.
Proof. intros ->. apply drop_app_length. Qed.

Lemma filter_all {A} (P : A → Prop) `{!∀ x, Decision (P x)} (l : list A) :
  (∀ x, x ∈ l → P x) → filter P l = l.
Proof.
  induction l as [|x l IH]; intros Hl; [done|].
  rewrite filter_cons_True by (apply Hl; left). f_equal. apply IH. intros y Hy. apply Hl. by right.
Qed.

(** Induction on the length of a list. *)
Lemma length_ind {A} (Q : list A → Prop) :
  (∀ l, (∀ l', length l' < length l → Q l') → Q l) → ∀ l, Q l.
Proof.
  intros H l. remember (length l) as n eqn:Hn. revert l Hn.
  induction (lt_wf n) as [n _ IH]. intros l ->. apply H. intros l' Hl'. by apply (IH (length l')).
Qed.

#[export] Hint Resolve app_inj_len take_app_len drop_app_len : pqmsg.
