(* ===== verification/Bytes.v ===== *)
(** * Bytes, machine integers and strings

    Octets are [Byte.byte]; a [u16], [u32] or [u64] is an [N] kept below its
    bound; [to_be_bytes] and [from_be_bytes] are [be_bytes] and [from_be].
    A Rust [&str] is its UTF-8 octets: [utf8_valid] is [str::from_utf8]'s test,
    [str_trim] is [str::trim]. *)

From Stdlib Require Import Strings.Byte.
From stdpp Require Import pretty.
From S2P Require Import Prelude.
Local Open Scope N_scope.

Abbreviation bytes := (list byte).

#[export] Instance byte_eq_decision : EqDecision byte := Byte.byte_eq_dec.

#[export] Instance byte_countable : Countable byte.
Proof.
  apply (inj_countable Byte.to_N Byte.of_N). intros b. apply Byte.of_to_N.
Defined.

(** ** Octets *)

Definition byte_of_N (n : N) : byte :=
  match Byte.of_N (n mod 256) with Some b => b | None => x00 end.

Lemma to_of_byte (n : N) : Byte.to_N (byte_of_N n) = n mod 256.
Proof.
  unfold byte_of_N. destruct (Byte.of_N (n mod 256)) eqn:E.
  - by apply Byte.to_of_N.
  - apply Byte.of_N_None_iff in E. pose proof (N.mod_lt n 256 ltac:(done)). lia.
Qed.

Lemma of_to_byte (b : byte) : byte_of_N (Byte.to_N b) = b.
Proof.
  unfold byte_of_N. pose proof (Byte.to_N_bounded b).
  rewrite N.mod_small by lia. by rewrite Byte.of_to_N.
Qed.

Lemma byte_bound (b : byte) : Byte.to_N b < 256.
Proof. pose proof (Byte.to_N_bounded b). lia. Qed.

Lemma to_N_inj (a b : byte) : Byte.to_N a = Byte.to_N b → a = b.
Proof. intros H. by rewrite <- (of_to_byte a), H, of_to_byte. Qed.

Definition byte_xor (a b : byte) : byte := byte_of_N (N.lxor (Byte.to_N a) (Byte.to_N b)).

Lemma lxor_byte_small (a b : N) : a < 256 → b < 256 → N.lxor a b < 256.
Proof.
  intros Ha Hb. destruct (N.eq_dec (N.lxor a b) 0) as [->|Hne]; [lia|].
  apply (N.log2_lt_pow2 _ 8); [lia|].
  eapply N.le_lt_trans; [apply N.log2_lxor|].
  apply N.max_lub_lt.
  - destruct (N.eq_dec a 0) as [->|]; [reflexivity|]. apply (N.log2_lt_pow2 _ 8); [lia|exact Ha].
  - destruct (N.eq_dec b 0) as [->|]; [reflexivity|]. apply (N.log2_lt_pow2 _ 8); [lia|exact Hb].
Qed.

Lemma to_byte_xor (a b : byte) :
  Byte.to_N (byte_xor a b) = N.lxor (Byte.to_N a) (Byte.to_N b).
Proof.
  unfold byte_xor. rewrite to_of_byte. apply N.mod_small.
  apply lxor_byte_small; apply byte_bound.
Qed.

Lemma byte_xor_cancel (a k : byte) : byte_xor (byte_xor a k) k = a.
Proof.
  apply to_N_inj. by rewrite !to_byte_xor, N.lxor_assoc, N.lxor_nilpotent, N.lxor_0_r.
Qed.

Lemma byte_xor_comm (a b : byte) : byte_xor a b = byte_xor b a.
Proof. unfold byte_xor. by rewrite N.lxor_comm. Qed.

Lemma byte_xor_assoc (a b c : byte) :
  byte_xor a (byte_xor b c) = byte_xor (byte_xor a b) c.
Proof. apply to_N_inj. by rewrite !to_byte_xor, N.lxor_assoc. Qed.

(** Exclusive or of two buffers, over the shorter of the two. *)
Definition bytes_xor (a b : bytes) : bytes := zip_with byte_xor a b.

Lemma length_bytes_xor (a b : bytes) :
  length (bytes_xor a b) = (length a `min` length b)%nat.
Proof. apply length_zip_with. Qed.

Lemma bytes_xor_cancel (a k : bytes) :
  (length a ≤ length k)%nat → bytes_xor (bytes_xor a k) k = a.
Proof.
  revert k. induction a as [|x a IH]; intros [|y k] H; simpl in *; try done; [lia|].
  by rewrite byte_xor_cancel, IH by lia.
Qed.

Lemma bytes_xor_comm (a b : bytes) : bytes_xor a b = bytes_xor b a.
Proof.
  revert b. induction a as [|x a IH]; intros [|y b]; simpl; [done..|].
  unfold bytes_xor in IH. by rewrite byte_xor_comm, IH.
Qed.

(** ** Big-endian integers *)

(** The [k] low-order octets of [n], most significant first. *)
Fixpoint be_bytes (k : nat) (n : N) : bytes :=
  match k with
  | O => []
  | S k => be_bytes k (n / 256) ++ [byte_of_N n]
  end.

Definition from_be (l : bytes) : N := foldl (λ acc b, acc * 256 + Byte.to_N b) 0 l.

Definition u16_be (n : N) : bytes := be_bytes 2 n.
Definition u32_be (n : N) : bytes := be_bytes 4 n.
Definition u64_be (n : N) : bytes := be_bytes 8 n.

Arguments u16_be n : simpl never.
Arguments u32_be n : simpl never.
Arguments u64_be n : simpl never.

Definition u16_max : N := 65535.
Definition u32_max : N := 4294967295.
Definition u64_max : N := 18446744073709551615.

Lemma length_be_bytes (k : nat) (n : N) : length (be_bytes k n) = k.
Proof.
  revert n. induction k as [|k IH]; intros n; [done|].
  simpl. rewrite length_app, IH. simpl. lia.
Qed.

Lemma from_be_app (a b : bytes) :
  from_be (a ++ b) = from_be a * 256 ^ N.of_nat (length b) + from_be b.
Proof.
  unfold from_be. rewrite foldl_app. generalize (foldl (λ acc c, acc * 256 + Byte.to_N c) 0 a) as x.
  induction b as [|c b IH] using rev_ind; intros x.
  - simpl. rewrite N.pow_0_r. lia.
  - rewrite !foldl_app, length_app. simpl.
    rewrite IH. replace (N.of_nat (length b + 1)) with (N.succ (N.of_nat (length b))) by lia.
    rewrite N.pow_succ_r'. lia.
Qed.

Lemma from_be_bytes (k : nat) (n : N) :
  n < 256 ^ N.of_nat k → from_be (be_bytes k n) = n.
Proof.
  revert n. induction k as [|k IH]; intros n Hn.
  - simpl in *. change (256 ^ N.of_nat 0) with 1 in Hn. unfold from_be. simpl. lia.
  - simpl. rewrite from_be_app. simpl length. rewrite IH.
    + change (from_be [byte_of_N n]) with (0 * 256 + Byte.to_N (byte_of_N n)).
      rewrite to_of_byte. change (256 ^ N.of_nat 1) with 256.
      pose proof (N.div_mod n 256 ltac:(done)). lia.
    + replace (N.of_nat (S k)) with (N.succ (N.of_nat k)) in Hn by lia.
      rewrite N.pow_succ_r' in Hn. apply N.Div0.div_lt_upper_bound. lia.
Qed.

Lemma from_be_bound (l : bytes) : from_be l < 256 ^ N.of_nat (length l).
Proof.
  induction l as [|b l IH] using rev_ind; [by vm_compute|].
  rewrite from_be_app, length_app. simpl.
  change (from_be [b]) with (0 * 256 + Byte.to_N b). pose proof (byte_bound b).
  change (256 ^ N.of_nat 1) with 256.
  replace (N.of_nat (length l + 1)) with (N.succ (N.of_nat (length l))) by lia.
  rewrite N.pow_succ_r'. lia.
Qed.

Lemma be_bytes_from_be (l : bytes) : be_bytes (length l) (from_be l) = l.
Proof.
  induction l as [|b l IH] using rev_ind; [done|].
  rewrite length_app, Nat.add_comm. simpl.
  rewrite from_be_app. simpl. change (from_be [b]) with (0 * 256 + Byte.to_N b).
  change (256 ^ N.of_nat 1) with 256. pose proof (byte_bound b).
  rewrite N.add_0_l.
  replace ((from_be l * 256 + Byte.to_N b) / 256) with (from_be l).
  - rewrite IH. f_equal. f_equal. apply to_N_inj. rewrite to_of_byte.
    rewrite N.add_comm, N.Div0.mod_add. by apply N.mod_small.
  - apply (N.div_unique _ _ _ (Byte.to_N b)); lia.
Qed.

Lemma be_bytes_inj (k : nat) (m n : N) :
  m < 256 ^ N.of_nat k → n < 256 ^ N.of_nat k → be_bytes k m = be_bytes k n → m = n.
Proof. intros Hm Hn H. by rewrite <- (from_be_bytes k m), H, from_be_bytes. Qed.

Lemma from_u16_be (n : N) : n ≤ u16_max → from_be (u16_be n) = n.
Proof. unfold u16_max. intros. apply from_be_bytes. change (256 ^ N.of_nat 2) with 65536. lia. Qed.

Lemma from_u32_be (n : N) : n ≤ u32_max → from_be (u32_be n) = n.
Proof. unfold u32_max. intros. apply from_be_bytes. change (256 ^ N.of_nat 4) with 4294967296. lia. Qed.

Lemma from_u64_be (n : N) : n ≤ u64_max → from_be (u64_be n) = n.
Proof.
  unfold u64_max. intros. apply from_be_bytes.
  change (256 ^ N.of_nat 8) with 18446744073709551616. lia.
Qed.

Lemma length_u16_be (n : N) : length (u16_be n) = 2%nat.
Proof. apply length_be_bytes. Qed.
Lemma length_u32_be (n : N) : length (u32_be n) = 4%nat.
Proof. apply length_be_bytes. Qed.
Lemma length_u64_be (n : N) : length (u64_be n) = 8%nat.
Proof. apply length_be_bytes. Qed.

#[export] Hint Rewrite length_u16_be length_u32_be length_u64_be length_be_bytes : pqmsg.
#[export] Hint Resolve from_u16_be from_u32_be from_u64_be : pqmsg.

Lemma u16_be_inj (m n : N) : m ≤ u16_max → n ≤ u16_max → Some (u16_be m) = Some (u16_be n) → m = n.
Proof. intros Hm Hn H. apply Some_inj in H. by rewrite <- (from_u16_be m), H, from_u16_be. Qed.

Lemma u32_be_inj (m n : N) : m ≤ u32_max → n ≤ u32_max → Some (u32_be m) = Some (u32_be n) → m = n.
Proof. intros Hm Hn H. apply Some_inj in H. by rewrite <- (from_u32_be m), H, from_u32_be. Qed.

(** ** Strings *)

Definition in_range (lo hi : N) (b : byte) : bool :=
  (lo <=? Byte.to_N b) && (Byte.to_N b <=? hi).

Definition utf8_cont : byte → bool := in_range 0x80 0xBF.

(** The second octet a three- or four-octet lead octet admits: no overlong
    form, no surrogate, nothing above U+10FFFF. *)
Definition utf8_second3 (b0 b1 : byte) : bool :=
  match Byte.to_N b0 with
  | 0xE0 => in_range 0xA0 0xBF b1
  | 0xED => in_range 0x80 0x9F b1
  | _ => utf8_cont b1
  end.

Definition utf8_second4 (b0 b1 : byte) : bool :=
  match Byte.to_N b0 with
  | 0xF0 => in_range 0x90 0xBF b1
  | 0xF4 => in_range 0x80 0x8F b1
  | _ => utf8_cont b1
  end.

Fixpoint utf8_valid (l : bytes) : bool :=
  match l with
  | [] => true
  | b0 :: r0 =>
      if in_range 0 0x7F b0 then utf8_valid r0
      else match r0 with
      | [] => false
      | b1 :: r1 =>
          if in_range 0xC2 0xDF b0 then utf8_cont b1 && utf8_valid r1
          else match r1 with
          | [] => false
          | b2 :: r2 =>
              if in_range 0xE0 0xEF b0
              then utf8_second3 b0 b1 && utf8_cont b2 && utf8_valid r2
              else match r2 with
              | [] => false
              | b3 :: r3 =>
                  in_range 0xF0 0xF4 b0 && utf8_second4 b0 b1 && utf8_cont b2 &&
                  utf8_cont b3 && utf8_valid r3
              end
          end
      end
  end.

(** [char::is_whitespace] on the octets of a character: U+0009..U+000D and
    U+0020 in one octet, U+0085 and U+00A0 in two, the rest in three. *)
Definition ws1 (b : byte) : bool := in_range 0x09 0x0D b || in_range 0x20 0x20 b.

Definition ws2 (b0 b1 : byte) : bool :=
  (Byte.to_N b0 =? 0xC2) && ((Byte.to_N b1 =? 0x85) || (Byte.to_N b1 =? 0xA0)).

Definition ws3 (b0 b1 b2 : byte) : bool :=
  match Byte.to_N b0, Byte.to_N b1 with
  | 0xE1, 0x9A => Byte.to_N b2 =? 0x80
  | 0xE2, 0x80 =>
      in_range 0x80 0x8A b2 || in_range 0xA8 0xA9 b2 || in_range 0xAF 0xAF b2
  | 0xE2, 0x81 => Byte.to_N b2 =? 0x9F
  | 0xE3, 0x80 => Byte.to_N b2 =? 0x80
  | _, _ => false
  end.

Fixpoint trim_start (l : bytes) : bytes :=
  match l with
  | b0 :: r0 =>
      if ws1 b0 then trim_start r0
      else match r0 with
      | b1 :: r1 =>
          if ws2 b0 b1 then trim_start r1
          else match r1 with
          | b2 :: r2 => if ws3 b0 b1 b2 then trim_start r2 else l
          | [] => l
          end
      | [] => l
      end
  | [] => []
  end.

(** [trim_start] on the reversed octets. *)
Fixpoint trim_end_rev (l : bytes) : bytes :=
  match l with
  | b0 :: r0 =>
      if ws1 b0 then trim_end_rev r0
      else match r0 with
      | b1 :: r1 =>
          if ws2 b1 b0 then trim_end_rev r1
          else match r1 with
          | b2 :: r2 => if ws3 b2 b1 b0 then trim_end_rev r2 else l
          | [] => l
          end
      | [] => l
      end
  | [] => []
  end.

Definition str_trim (l : bytes) : bytes := rev (trim_end_rev (rev (trim_start l))).

(** [str::to_ascii_lowercase]. *)
Definition ascii_lower (b : byte) : byte :=
  if in_range 0x41 0x5A b then byte_of_N (Byte.to_N b + 32) else b.

Definition to_ascii_lowercase (l : bytes) : bytes := map ascii_lower l.

(** [<=] on [&str]: the lexicographic order of the octets. *)
Fixpoint str_leb (a b : bytes) : bool :=
  match a, b with
  | [], _ => true
  | _ :: _, [] => false
  | x :: a, y :: b =>
      if Byte.to_N x =? Byte.to_N y then str_leb a b else Byte.to_N x <? Byte.to_N y
  end.

Lemma str_leb_total (a b : bytes) : str_leb a b = false → str_leb b a = true.
Proof.
  revert b. induction a as [|x a IH]; intros [|y b]; simpl; try done.
  rewrite (N.eqb_sym (Byte.to_N y)). destruct (Byte.to_N x =? Byte.to_N y) eqn:E; [apply IH|].
  intros H. bool_to_prop. apply N.ltb_lt. lia.
Qed.

Lemma str_leb_antisym (a b : bytes) : str_leb a b = true → str_leb b a = true → a = b.
Proof.
  revert b. induction a as [|x a IH]; intros [|y b]; simpl; try done.
  rewrite (N.eqb_sym (Byte.to_N y)). destruct (Byte.to_N x =? Byte.to_N y) eqn:E; bool_to_prop.
  - intros H1 H2. apply to_N_inj in E as ->. f_equal. by apply IH.
  - intros H1 H2. bool_to_prop. lia.
Qed.

Lemma str_leb_refl (a : bytes) : str_leb a a = true.
Proof. induction a as [|x a IH]; [done|]. simpl. by rewrite N.eqb_refl. Qed.

Lemma str_leb_trans (a b c : bytes) : str_leb a b = true → str_leb b c = true → str_leb a c = true.
Proof.
  revert b c. induction a as [|x a IH]; intros [|y b] [|z c]; simpl; try done.
  destruct (N.eqb_spec (Byte.to_N x) (Byte.to_N y)) as [->|Hxy].
  - destruct (N.eqb_spec (Byte.to_N y) (Byte.to_N z)); [apply IH|done].
  - destruct (N.eqb_spec (Byte.to_N y) (Byte.to_N z)) as [<-|Hyz]; intros H1 H2; bool_to_prop.
    + rewrite (proj2 (N.eqb_neq _ _) Hxy). by apply N.ltb_lt.
    + rewrite (proj2 (N.eqb_neq (Byte.to_N x) (Byte.to_N z))) by lia. apply N.ltb_lt. lia.
Qed.

(** A byte-string literal [b"..."] and the octets of a [&str] literal. *)
Definition lit (s : string) : bytes := String.list_byte_of_string s.

(** [{n}] of an unsigned integer in a format string. *)
Definition decimal (n : N) : bytes := lit (pretty n).

(** ASCII text is UTF-8 text. *)
Lemma utf8_valid_ascii (l : bytes) :
  Forall (λ b, Byte.to_N b < 128) l → utf8_valid l = true.
Proof.
  induction 1 as [|b l Hb Hl IH]; [done|].
  simpl. replace (in_range 0 0x7F b) with true; [done|].
  symmetry. apply andb_true_iff. split; apply N.leb_le; lia.
Qed.

Example trim_ex : str_trim (lit "  a b ") = lit "a b".
Proof. reflexivity. Qed.
