(* ===== verification/Errors.v ===== *)
(** * Errors of the core crate ([pqmsg-core/src/error.rs])

    [CoreError] with its payloads. Field names are the [&'static str]s of the
    source; [usize] payloads are [N]. *)

From S2P Require Import Prelude Bytes.

Inductive CoreError : Type :=
| InvalidLength (field : string) (expected actual : N)
| InvalidTlv (detail : string)
| UnknownCriticalTlv (ty : N)
| DuplicateTlv (ty : N)
| MissingField (field : string)
| InvalidUtf8 (field : string)
| SignatureVerificationFailed
| AeadOperation
| KdfOperation
| DhOperation
| KemOperation
| PqSigOperation (detail : string)
| UnsupportedAlgorithm (detail : string)
| MessageParsing (detail : string)
| MessageKeyUnavailable
| PqRatchetDisabled
| PolicyViolation (detail : string)
| InvalidSecurityProfile (detail : string)
| InvalidStorageFormat (detail : string)
| InvalidStorageBase64 (field : string)
| StorageDecryptionFailed
| HsmOperation (detail : string).

#[export] Instance CoreError_eq_decision : EqDecision CoreError.
Proof. solve_decision. Defined.

Abbreviation res := (result CoreError).

(** [value.len() as usize] in an error payload or a comparison. *)
Definition len (l : bytes) : N := N.of_nat (length l).

Lemma len_app (a b : bytes) : len (a ++ b) = (len a + len b)%N.
Proof. unfold len. rewrite length_app. lia. Qed.

(** The fixed-width parsers repeated in [wire.rs], [handshake.rs], [sealed.rs]
    and [groups.rs]: the length is checked, then the octets are read. *)
Definition parse_exact (n : nat) (input : bytes) (field : string) : res bytes :=
  if (length input =? n)%nat then Ok input
  else Err (InvalidLength field (N.of_nat n) (len input)).

Definition parse_uint (n : nat) (input : bytes) (field : string) : res N :=
  if (length input =? n)%nat then Ok (from_be input)
  else Err (InvalidLength field (N.of_nat n) (len input)).

Definition parse_u16 : bytes → string → res N := parse_uint 2.
Definition parse_u32 : bytes → string → res N := parse_uint 4.
Definition parse_32 : bytes → string → res bytes := parse_exact 32.
Definition parse_12 : bytes → string → res bytes := parse_exact 12.

Definition parse_utf8 (input : bytes) (field : string) : res bytes :=
  if utf8_valid input then Ok input else Err (InvalidUtf8 field).

Lemma parse_exact_ok (n : nat) (l : bytes) (f : string) :
  length l = n → parse_exact n l f = Ok l.
Proof. intros <-. unfold parse_exact. by rewrite Nat.eqb_refl. Qed.

Lemma parse_u16_ok (n : N) (f : string) :
  (n ≤ u16_max)%N → parse_u16 (u16_be n) f = Ok n.
Proof.
  intros. unfold parse_u16, parse_uint. rewrite length_u16_be. simpl.
  by rewrite from_u16_be.
Qed.

Lemma parse_u32_ok (n : N) (f : string) :
  (n ≤ u32_max)%N → parse_u32 (u32_be n) f = Ok n.
Proof.
  intros. unfold parse_u32, parse_uint. rewrite length_u32_be. simpl.
  by rewrite from_u32_be.
Qed.

Lemma parse_utf8_ok (l : bytes) (f : string) :
  utf8_valid l = true → parse_utf8 l f = Ok l.
Proof. intros H. unfold parse_utf8. by rewrite H. Qed.

Lemma parse_exact_inv (n : nat) (l l' : bytes) (f : string) :
  parse_exact n l f = Ok l' → l' = l ∧ length l = n.
Proof. unfold parse_exact. intros H. inv_ok H. bool_to_prop. by subst. Qed.

Lemma parse_uint_inv (k : nat) (l : bytes) (f : string) (n : N) :
  parse_uint k l f = Ok n → (n < 256 ^ N.of_nat k)%N.
Proof.
  unfold parse_uint. intros H. inv_ok H. bool_to_prop. subst. apply from_be_bound.
Qed.

Lemma parse_u16_inv (l : bytes) (f : string) (n : N) : parse_u16 l f = Ok n → (n ≤ u16_max)%N.
Proof.
  intros H%parse_uint_inv. change (256 ^ N.of_nat 2)%N with 65536%N in H. unfold u16_max. lia.
Qed.

Lemma parse_u32_inv (l : bytes) (f : string) (n : N) : parse_u32 l f = Ok n → (n ≤ u32_max)%N.
Proof.
  intros H%parse_uint_inv. change (256 ^ N.of_nat 4)%N with 4294967296%N in H. unfold u32_max. lia.
Qed.

#[export] Hint Resolve parse_exact_ok parse_u16_ok parse_u32_ok parse_utf8_ok : pqmsg.
