(* ===== verification/Tlv.v ===== *)
(** * Type-length-value records ([pqmsg-core/src/tlv.rs])

    Every transcript and message of the protocol is a sequence of records
    with a two-octet type and a two-octet length. The theorems say that
    [encode] and the decoder are inverse to each other in both directions:
    what the decoder accepts has exactly one reading, and two record lists
    never share an encoding. *)

From S2P Require Import Prelude Bytes Errors.
Local Open Scope N_scope.

Definition CRITICAL_BIT : N := 0x8000.

Definition MAX_TLV_VALUE_SIZE : N := u16_max.

Record TlvRecord := mkTlv { ty : N; value : bytes }.

#[export] Instance TlvRecord_eq_decision : EqDecision TlvRecord.
Proof. solve_decision. Defined.

Record DecodePolicy := {
  reject_unknown_critical : bool;
  reject_duplicates : bool;
}.

Definition DecodePolicy_default : DecodePolicy :=
  {| reject_unknown_critical := true; reject_duplicates := true |}.

Definition critical_type (base : N) : N := N.lor base CRITICAL_BIT.

Definition is_critical (t : N) : bool := N.land t CRITICAL_BIT =? CRITICAL_BIT.

Fixpoint encode (records : list TlvRecord) : res bytes :=
  match records with
  | [] => Ok []
  | record :: records =>
      if u16_max <? len (value record)
      then Err (InvalidLength "tlv.value" u16_max (len (value record)))
      else
        let? out := encode records in
        Ok (u16_be (ty record) ++ u16_be (len (value record)) ++ value record ++ out)
  end.

(** A record pushed only when the option is set. *)
Definition opt_record (t : N) (o : option bytes) : list TlvRecord :=
  match o with Some v => [mkTlv t v] | None => [] end.

(** The decoding loop on the input from the cursor on. Each round consumes a
    header, so [length input] rounds always suffice ([decode_loop_unfold]). *)
Fixpoint decode_loop (fuel : nat) (policy : DecodePolicy) (known_types : list N)
    (seen : gset N) (input : bytes) : res (list TlvRecord) :=
  match fuel with
  | O => Ok []
  | S fuel =>
      if (length input =? 0)%nat then Ok [] else
      if (length input <? 4)%nat then Err (InvalidTlv "truncated header") else
      let t := from_be (take 2 input) in
      let n := N.to_nat (from_be (take 2 (drop 2 input))) in
      let input := drop 4 input in
      if (length input <? n)%nat then Err (InvalidTlv "declared length exceeds input") else
      if reject_unknown_critical policy && negb (bool_decide (t ∈ known_types)) && is_critical t
      then Err (UnknownCriticalTlv t) else
      if reject_duplicates policy && bool_decide (t ∈ seen)
      then Err (DuplicateTlv t) else
      let seen := if reject_duplicates policy then {[t]} ∪ seen else seen in
      let? records := decode_loop fuel policy known_types seen (drop n input) in
      Ok (mkTlv t (take n input) :: records)
  end.

Definition decode_with_policy (input : bytes) (known_types : list N)
    (policy : DecodePolicy) : res (list TlvRecord) :=
  decode_loop (length input) policy known_types ∅ input.

Definition decode_strict (input : bytes) (known_types : list N) : res (list TlvRecord) :=
  decode_with_policy input known_types DecodePolicy_default.

Definition require (records : list TlvRecord) (t : N) (field : string) : res bytes :=
  match list_find (λ record, ty record = t) records with
  | Some (_, record) => Ok (value record)
  | None => Err (MissingField field)
  end.

(** Collecting into a [HashMap]: a later record replaces an earlier one. *)
Definition build_record_map (records : list TlvRecord) : gmap N bytes :=
  foldl (λ m r, <[ty r := value r]> m) ∅ records.

Definition require_from_map (m : gmap N bytes) (t : N) (field : string) : res bytes :=
  ok_or (m !! t) (MissingField field).

(** ** The decoding loop *)

Lemma decode_loop_fuel (pol : DecodePolicy) (known : list N) (f1 f2 : nat) (seen : gset N)
    (input : bytes) :
  (length input ≤ f1)%nat → (length input ≤ f2)%nat →
  decode_loop f1 pol known seen input = decode_loop f2 pol known seen input.
Proof.
  revert f2 seen input. induction f1 as [|f1 IH]; intros [|f2] seen input H1 H2; [done| | |].
  - simpl. replace (length input =? 0)%nat with true; [done|]. symmetry. apply Nat.eqb_eq. lia.
  - simpl. replace (length input =? 0)%nat with true; [done|]. symmetry. apply Nat.eqb_eq. lia.
  - simpl. destruct (length input =? 0)%nat; [done|].
    destruct (length input <? 4)%nat eqn:E4; [done|]. bool_to_prop.
    destruct (length (drop 4 input) <? _)%nat; [done|].
    destruct (reject_unknown_critical pol && _ && _); [done|].
    destruct (reject_duplicates pol && _); [done|].
    rewrite (IH f2); [done| |]; rewrite !length_drop; lia.
Qed.

(** One round of the loop, with enough fuel at every round. *)
Lemma decode_loop_unfold (pol : DecodePolicy) (known : list N) (fuel : nat) (seen : gset N)
    (input : bytes) :
  (length input ≤ fuel)%nat →
  decode_loop fuel pol known seen input =
    (if (length input =? 0)%nat then Ok [] else
     if (length input <? 4)%nat then Err (InvalidTlv "truncated header") else
     let t := from_be (take 2 input) in
     let n := N.to_nat (from_be (take 2 (drop 2 input))) in
     if (length (drop 4 input) <? n)%nat
     then Err (InvalidTlv "declared length exceeds input") else
     if reject_unknown_critical pol && negb (bool_decide (t ∈ known)) && is_critical t
     then Err (UnknownCriticalTlv t) else
     if reject_duplicates pol && bool_decide (t ∈ seen) then Err (DuplicateTlv t) else
     let? records :=
       decode_loop fuel pol known (if reject_duplicates pol then {[t]} ∪ seen else seen)
         (drop n (drop 4 input)) in
     Ok (mkTlv t (take n (drop 4 input)) :: records)).
Proof.
  intros Hf. rewrite (decode_loop_fuel pol known fuel (S fuel)) by lia. done.
Qed.

Lemma length_encode_cons (r : TlvRecord) (t n : bytes) (l : bytes) :
  length t = 2%nat → length n = 2%nat →
  length (t ++ n ++ value r ++ l) = (4 + length (value r) + length l)%nat.
Proof. intros H1 H2. rewrite !length_app, H1, H2. lia. Qed.

(** Reading one encoded record off the front of the input. *)
Lemma decode_loop_cons (pol : DecodePolicy) (known : list N) (fuel : nat) (seen : gset N)
    (r : TlvRecord) (rest : bytes) :
  ty r ≤ u16_max → len (value r) ≤ u16_max →
  (4 + length (value r) + length rest ≤ fuel)%nat →
  decode_loop fuel pol known seen
      (u16_be (ty r) ++ u16_be (len (value r)) ++ value r ++ rest) =
    (if reject_unknown_critical pol && negb (bool_decide (ty r ∈ known)) && is_critical (ty r)
     then Err (UnknownCriticalTlv (ty r)) else
     if reject_duplicates pol && bool_decide (ty r ∈ seen) then Err (DuplicateTlv (ty r)) else
     let? records :=
       decode_loop fuel pol known
         (if reject_duplicates pol then {[ty r]} ∪ seen else seen) rest in
     Ok (r :: records)).
Proof.
  intros Ht Hv Hf. destruct r as [t v]. simpl ty in *. simpl value in *.
  assert (Hlen : length (u16_be t ++ u16_be (len v) ++ v ++ rest)
                 = (4 + length v + length rest)%nat).
  { rewrite !length_app, !length_u16_be. lia. }
  rewrite decode_loop_unfold by lia. rewrite Hlen.
  assert (Hd4 : drop 4 (u16_be t ++ u16_be (len v) ++ v ++ rest) = v ++ rest).
  { rewrite app_assoc. apply drop_app_len. by rewrite length_app, !length_u16_be. }
  assert (Hd2 : drop 2 (u16_be t ++ u16_be (len v) ++ v ++ rest) = u16_be (len v) ++ v ++ rest).
  { apply drop_app_len. by rewrite length_u16_be. }
  rewrite Hd4, Hd2, (take_app_len 2 (u16_be t)), (take_app_len 2 (u16_be (len v)))
    by (by rewrite length_u16_be).
  rewrite (from_u16_be t Ht), (from_u16_be (len v) Hv).
  replace (N.to_nat (len v)) with (length v) by (unfold len; lia).
  replace (4 + length v + length rest =? 0)%nat with false by (symmetry; apply Nat.eqb_neq; lia).
  replace (4 + length v + length rest <? 4)%nat with false by (symmetry; apply Nat.ltb_ge; lia).
  cbv zeta.
  replace (length (v ++ rest) <? length v)%nat with false
    by (symmetry; apply Nat.ltb_ge; rewrite length_app; lia).
  by rewrite take_app_length, drop_app_length.
Qed.

(** ** Encoding *)

Definition record_wf (r : TlvRecord) : Prop := ty r ≤ u16_max.

Lemma encode_cons_ok (r : TlvRecord) (rs : list TlvRecord) (b : bytes) :
  encode (r :: rs) = Ok b →
  len (value r) ≤ u16_max ∧
  ∃ rest, encode rs = Ok rest ∧ b = u16_be (ty r) ++ u16_be (len (value r)) ++ value r ++ rest.
Proof.
  simpl. destruct (u16_max <? len (value r)) eqn:E; [done|]. bool_to_prop.
  destruct (encode rs) as [rest|]; [|done]. intros [= <-]. eauto.
Qed.

Lemma encode_ok (rs : list TlvRecord) :
  Forall (λ r, len (value r) ≤ u16_max) rs → ∃ b, encode rs = Ok b.
Proof.
  induction 1 as [|r rs Hr _ [b IH]]; [by exists []|].
  simpl. replace (u16_max <? len (value r)) with false by (symmetry; by apply N.ltb_ge).
  rewrite IH. eauto.
Qed.

Lemma encode_ok_inv (rs : list TlvRecord) (b : bytes) :
  encode rs = Ok b → Forall (λ r, len (value r) ≤ u16_max) rs.
Proof.
  revert b. induction rs as [|r rs IH]; intros b H; [constructor|].
  apply encode_cons_ok in H as (Hl & rest & Hr & _). constructor; eauto.
Qed.

(** Which record lists a policy lets through. *)
Definition policy_accepts (pol : DecodePolicy) (known : list N) (rs : list TlvRecord) : Prop :=
  (reject_unknown_critical pol = true →
     Forall (λ r, is_critical (ty r) = true → ty r ∈ known) rs) ∧
  (reject_duplicates pol = true → NoDup (ty <$> rs)).

Lemma decode_loop_encode (pol : DecodePolicy) (known : list N) (rs : list TlvRecord)
    (fuel : nat) (seen : gset N) (b : bytes) :
  Forall record_wf rs → policy_accepts pol known rs →
  (reject_duplicates pol = true → ∀ t, t ∈ (ty <$> rs) → t ∉ seen) →
  encode rs = Ok b → (length b ≤ fuel)%nat →
  decode_loop fuel pol known seen b = Ok rs.
Proof.
  intros Hwf. revert seen b.
  induction Hwf as [|r rs Hr Hrs IH]; intros seen b [Huc Hnd] Hseen He Hf.
  { injection He as <-. by rewrite decode_loop_unfold. }
  apply encode_cons_ok in He as (Hl & rest & He & ->).
  rewrite length_encode_cons in Hf by apply length_u16_be.
  rewrite decode_loop_cons by done.
  destruct (reject_unknown_critical pol && _ && _) eqn:E.
  { bool_to_prop. pose proof (Huc ltac:(done)) as Hall.
    apply Forall_cons_1 in Hall as [Hk _]. by apply Hk in H0. }
  destruct (reject_duplicates pol && _) eqn:E2.
  { bool_to_prop. exfalso. eapply Hseen; [done| |done]. simpl. left. }
  rewrite (IH _ rest); [done| | |done|lia].
  - split.
    + intros Hp. specialize (Huc Hp). by apply Forall_cons_1 in Huc as [_ ?].
    + intros Hp. specialize (Hnd Hp). simpl in Hnd. by apply list.NoDup_cons in Hnd as [_ ?].
  - intros Hp t Ht. rewrite Hp. specialize (Hnd Hp). simpl in Hnd.
    apply list.NoDup_cons in Hnd as [Hnotin _].
    assert (t ∉ seen) by (apply (Hseen Hp); simpl; by right). set_solver.
Qed.

(** The two header fields read off the front put back give the input. *)
Lemma u16_read_bound (l : bytes) : from_be (take 2 l) ≤ u16_max.
Proof.
  pose proof (from_be_bound (take 2 l)) as Hb. rewrite length_take in Hb.
  assert (256 ^ N.of_nat (2 `min` length l) ≤ 256 ^ 2) by (apply N.pow_le_mono_r; lia).
  change (256 ^ 2) with 65536 in *. unfold u16_max. lia.
Qed.

Lemma u16_read (l : bytes) : (2 ≤ length l)%nat → u16_be (from_be (take 2 l)) = take 2 l.
Proof.
  intros H. pose proof (be_bytes_from_be (take 2 l)) as Hb.
  by rewrite length_take, Nat.min_l in Hb by lia.
Qed.

Lemma header_split (input : bytes) :
  (4 ≤ length input)%nat →
  u16_be (from_be (take 2 input)) ++ u16_be (from_be (take 2 (drop 2 input))) ++ drop 4 input
    = input.
Proof.
  intros H. rewrite !u16_read by (rewrite ?length_drop; lia).
  change 4%nat with (2 + 2)%nat. by rewrite <- drop_drop, !take_drop.
Qed.

Lemma decode_loop_canonical (pol : DecodePolicy) (known : list N) (fuel : nat)
    (seen : gset N) (input : bytes) (rs : list TlvRecord) :
  (length input ≤ fuel)%nat →
  decode_loop fuel pol known seen input = Ok rs →
  encode rs = Ok input ∧ Forall record_wf rs ∧ policy_accepts pol known rs ∧
  (reject_duplicates pol = true → ∀ t, t ∈ (ty <$> rs) → t ∉ seen).
Proof.
  revert seen input rs. induction fuel as [|fuel IH]; intros seen input rs Hf.
  { simpl. intros [= <-]. destruct input; [|simpl in Hf; lia].
    repeat split; try done; intros; try constructor; set_solver. }
  simpl. destruct (length input =? 0)%nat eqn:E0.
  { bool_to_prop. apply length_zero_iff_nil in E0 as ->. intros [= <-].
    repeat split; try done; intros; try constructor; set_solver. }
  destruct (length input <? 4)%nat eqn:E4; [done|].
  destruct (length (drop 4 input) <? _)%nat eqn:En; [done|].
  destruct (reject_unknown_critical pol && _ && _) eqn:Euc; [done|].
  destruct (reject_duplicates pol && _) eqn:Edup; [done|].
  destruct (decode_loop fuel _ _ _ _) as [rs'|] eqn:Ed; [|done]. intros [= <-].
  bool_to_prop.
  apply IH in Ed as (He & Hwf & [Huc Hnd] & Hseen); [|rewrite !length_drop; lia].
  pose proof (u16_read_bound input) as Ht. pose proof (u16_read_bound (drop 2 input)) as Hn.
  pose proof (header_split input E4) as Hsplit.
  set (t := from_be (take 2 input)) in *. set (n := from_be (take 2 (drop 2 input))) in *.
  assert (Hlen : len (take (N.to_nat n) (drop 4 input)) = n).
  { unfold len. rewrite length_take, Nat.min_l by lia. lia. }
  repeat split.
  - simpl. rewrite Hlen. replace (u16_max <? n) with false by (symmetry; apply N.ltb_ge; lia).
    rewrite He. f_equal. by rewrite take_drop.
  - by constructor.
  - intros Hp. constructor; [|by apply Huc]. simpl. intros Hc.
    rewrite Hp in Euc. simpl in Euc. rewrite Hc, andb_true_r in Euc. by bool_to_prop.
  - intros Hp. simpl. constructor; [|by apply Hnd].
    intros Hin. rewrite Hp in Hseen. specialize (Hseen eq_refl t Hin). set_solver.
  - intros Hp t' Ht'. simpl in Ht'. rewrite Hp in Edup, Hseen. simpl in Edup. bool_to_prop.
    apply elem_of_cons in Ht' as [->|Ht']; [done|].
    specialize (Hseen eq_refl t' Ht'). set_solver.
Qed.

Lemma decode_encode (pol : DecodePolicy) (known : list N) (rs : list TlvRecord) (b : bytes) :
  Forall record_wf rs → policy_accepts pol known rs → encode rs = Ok b →
  decode_with_policy b known pol = Ok rs.
Proof. intros Hwf Hpol He. eapply decode_loop_encode; eauto. set_solver. Qed.

(** Without the policy every encoding still reads back, so [encode] is
    injective on records whose type fits its field. *)
Lemma encode_inj (rs1 rs2 : list TlvRecord) (b : bytes) :
  Forall record_wf rs1 → Forall record_wf rs2 → encode rs1 = Ok b → encode rs2 = Ok b → rs1 = rs2.
Proof.
  intros H1 H2 E1 E2.
  set (pol := {| reject_unknown_critical := false; reject_duplicates := false |}).
  assert (Ha : ∀ rs, policy_accepts pol [] rs) by (by split).
  pose proof (decode_encode pol [] rs1 b H1 (Ha _) E1) as D1.
  rewrite (decode_encode pol [] rs2 b H2 (Ha _) E2) in D1. by injection D1.
Qed.

(** ** Messages as record lists

    A message type lists its tags and its records; [tags_ok] is the evaluation
    of what the strict decoder asks of the tags, and [rec_find] the lookup the
    record map performs. *)

Fixpoint nodupb (l : list N) : bool :=
  match l with
  | [] => true
  | x :: l => negb (existsb (N.eqb x) l) && nodupb l
  end.

Definition tags_ok (known tags : list N) : bool :=
  forallb (λ t, (t <=? u16_max) && (negb (is_critical t) || existsb (N.eqb t) known)) tags &&
  nodupb tags.

Fixpoint rec_find (t : N) (rs : list TlvRecord) : option bytes :=
  match rs with
  | [] => None
  | r :: rs => if ty r =? t then Some (value r) else rec_find t rs
  end.

Lemma existsb_elem (x : N) (l : list N) : existsb (N.eqb x) l = true ↔ x ∈ l.
Proof.
  rewrite existsb_exists, list_elem_of_In. split.
  - intros (y & Hy & ->%N.eqb_eq). done.
  - intros H. exists x. by rewrite N.eqb_refl.
Qed.

Lemma nodupb_spec (l : list N) : nodupb l = true → NoDup l.
Proof.
  induction l as [|x l IH]; simpl; intros H; constructor; bool_to_prop; [|auto].
  rewrite <- existsb_elem. by rewrite H.
Qed.

Lemma tags_ok_spec (known : list N) (rs : list TlvRecord) :
  tags_ok known (ty <$> rs) = true →
  Forall record_wf rs ∧ policy_accepts DecodePolicy_default known rs.
Proof.
  unfold tags_ok. intros [Hf Hn]%andb_true_iff. rewrite forallb_forall in Hf.
  assert (Hr : ∀ r, r ∈ rs → record_wf r ∧ (is_critical (ty r) = true → ty r ∈ known)).
  { intros r Hin. specialize (Hf (ty r)). apply list_elem_of_In in Hin.
    specialize (Hf ltac:(by apply in_map)). bool_to_prop. split; [done|]. intros Hc.
    rewrite Hc in H0. simpl in H0. by apply existsb_elem. }
  repeat split.
  - apply Forall_forall. intros r Hin. by apply Hr, list_elem_of_In.
  - intros _. apply Forall_forall. intros r Hin. by apply Hr, list_elem_of_In.
  - intros _. by apply nodupb_spec.
Qed.

Lemma decode_strict_encode (known : list N) (rs : list TlvRecord) (b : bytes) :
  tags_ok known (ty <$> rs) = true → encode rs = Ok b → decode_strict b known = Ok rs.
Proof. intros [? ?]%tags_ok_spec ?. by apply decode_encode. Qed.

Lemma foldl_insert_notin (rs : list TlvRecord) (m : gmap N bytes) (t : N) :
  t ∉ (ty <$> rs) → foldl (λ m r, <[ty r := value r]> m) m rs !! t = m !! t.
Proof.
  revert m. induction rs as [|r rs IH]; intros m Hn; [done|]. simpl.
  simpl in Hn. apply not_elem_of_cons in Hn as [Hne Hn].
  rewrite IH by done. by apply lookup_insert_ne.
Qed.

Lemma build_record_map_find (known : list N) (rs : list TlvRecord) (t : N) :
  tags_ok known (ty <$> rs) = true → build_record_map rs !! t = rec_find t rs.
Proof.
  unfold tags_ok. intros [_ Hn]%andb_true_iff. apply nodupb_spec in Hn.
  unfold build_record_map. generalize (lookup_empty t : (∅ : gmap N bytes) !! t = None).
  generalize (∅ : gmap N bytes) as m. induction rs as [|r rs IH]; intros m Hm; [done|].
  simpl in *. apply list.NoDup_cons in Hn as [Hni Hn]. destruct (N.eqb_spec (ty r) t) as [<-|Hne].
  - rewrite foldl_insert_notin by done. apply lookup_insert_eq.
  - apply IH; [done|]. by rewrite lookup_insert_ne.
Qed.

(** The map a decoder builds only holds values that were on the wire, each no
    longer than a length field can say. *)
Lemma build_record_map_bound (known : list N) (input : bytes) (rs : list TlvRecord)
    (t : N) (v : bytes) :
  decode_strict input known = Ok rs → build_record_map rs !! t = Some v → len v ≤ u16_max.
Proof.
  intros Hd Hl. unfold decode_strict, decode_with_policy in Hd.
  apply decode_loop_canonical in Hd as (He & _); [|done]. apply encode_ok_inv in He.
  unfold build_record_map in Hl. revert Hl.
  assert (Hm : ∀ v, (∅ : gmap N bytes) !! t = Some v → len v ≤ u16_max)
    by (intros ?; by rewrite lookup_empty).
  revert Hm. generalize (∅ : gmap N bytes) as m.
  induction He as [|r rs Hr _ IH]; simpl; intros m Hm; [apply Hm|].
  apply IH. intros v'. destruct (decide (ty r = t)) as [<-|Hne].
  - rewrite lookup_insert_eq. by intros [= <-].
  - rewrite lookup_insert_ne by done. apply Hm.
Qed.

(** The first two octets of an encoding are the first record's type. *)
Lemma encode_first_tag (r : TlvRecord) (rs : list TlvRecord) (b : bytes) :
  record_wf r → encode (r :: rs) = Ok b → (4 ≤ length b)%nat ∧ from_be (take 2 b) = ty r.
Proof.
  intros Hr (_ & rest & _ & ->)%encode_cons_ok. split.
  - rewrite !length_app, !length_u16_be. lia.
  - rewrite take_app_len by (by rewrite length_u16_be). by apply from_u16_be.
Qed.

Lemma encode_length (rs : list TlvRecord) (b : bytes) :
  encode rs = Ok b → length b = sum_list_with (λ r, 4 + length (value r))%nat rs.
Proof.
  revert b. induction rs as [|r rs IH]; intros b H; [by injection H as <-|].
  apply encode_cons_ok in H as (_ & rest & He & ->). rewrite length_encode_cons by apply length_u16_be.
  rewrite (IH rest He). simpl. lia.
Qed.

Definition fits (v : bytes) : bool := len v <=? u16_max.

Arguments fits v : simpl never.

Lemma encode_fits (rs : list TlvRecord) :
  forallb (λ r, fits (value r)) rs = true → ∃ b, encode rs = Ok b.
Proof.
  intros H. apply encode_ok, Forall_forall. intros r Hr.
  rewrite forallb_forall in H. by apply N.leb_le, H.
Qed.

Lemma encode_fits_inv (rs : list TlvRecord) (b : bytes) :
  encode rs = Ok b → forallb (λ r, fits (value r)) rs = true.
Proof.
  intros H%encode_ok_inv. apply forallb_forall. rewrite Forall_forall in H.
  intros r Hr. by apply N.leb_le, H.
Qed.

Lemma fits_short (n : nat) (v : bytes) : length v = n → N.of_nat n ≤ u16_max → fits v = true.
Proof. intros Hl Hn. apply N.leb_le. unfold len. lia. Qed.

(** ** Properties *)

(** C36: the TLV codec has exactly one reading per input. For every policy and
    every list of known types, the decoder returns a record list precisely when
    that list encodes to the input, its types are two-octet values, no unknown
    type carries the critical bit (when the policy rejects those) and no type
    occurs twice (when the policy rejects duplicates). Decoding and encoding
    are therefore mutually inverse, and every other input is an error. *)
Theorem tlv_decode_iff (pol : DecodePolicy) (known : list N) (input : bytes)
    (rs : list TlvRecord) :
  decode_with_policy input known pol = Ok rs ↔
  encode rs = Ok input ∧ Forall record_wf rs ∧ policy_accepts pol known rs.
Proof.
  split.
  - intros H. by apply decode_loop_canonical in H as (? & ? & ? & _).
  - intros (? & ? & ?). by apply decode_encode.
Qed.
