(* ===== verification/Crypto.v ===== *)
(** * Cryptographic primitives and their thin wrappers

    The primitives come from third-party crates (hkdf, sha2, x25519-dalek,
    chacha20poly1305, aes, ctr, oqs, fips203) and are the fields of
    [Primitives]; [PrimitiveLaws] and [KemLaws] are the documented behaviour
    the core relies on: output lengths, domains, agreement of Diffie-Hellman,
    of authenticated encryption and of key encapsulation. Randomness drawn from
    [OsRng] is a generator state [rng] that every drawing operation threads.

    The definitions here are [kdf.rs], [dh.rs], the [KemProvider] trait of
    [kem.rs] and the length-checked secrets of [keys.rs]. *)

From Stdlib Require Import Strings.Byte.
From S2P Require Import Prelude Bytes Errors.
Local Open Scope nat_scope.

Class Primitives := {
  rng : Type;
  (** [RngCore::fill_bytes] on a buffer of the given length. *)
  rng_fill : nat → rng → bytes * rng;
  (** [Hkdf::<Sha256>::new(salt, ikm).expand(info, out)], [out] of the given length. *)
  hkdf : option bytes → bytes → bytes → nat → option bytes;
  sha256 : bytes → bytes;
  (** [StaticSecret::diffie_hellman] and [PublicKey::from(&secret)]. *)
  x25519 : bytes → bytes → bytes;
  x25519_base : bytes → bytes;
  (** [ChaCha20Poly1305::encrypt] and [decrypt]: key, nonce, aad, message. *)
  chacha_seal : bytes → bytes → bytes → bytes → option bytes;
  chacha_open : bytes → bytes → bytes → bytes → option bytes;
  (** The first octets of the [Ctr128BE<Aes256>] keystream of a key and IV. *)
  aes256_ctr : bytes → bytes → nat → bytes;
}.

Class PrimitiveLaws (P : Primitives) := {
  rng_fill_length : ∀ n g, length (rng_fill n g).1 = n;
  hkdf_length : ∀ salt ikm info n k, hkdf salt ikm info n = Some k → length k = n;
  (** HKDF fails only beyond 255 blocks of the hash. *)
  hkdf_defined : ∀ salt ikm info n, n ≤ 255 * 32 → is_Some (hkdf salt ikm info n);
  sha256_length : ∀ m, length (sha256 m) = 32;
  x25519_length : ∀ a p, length (x25519 a p) = 32;
  x25519_base_length : ∀ a, length (x25519_base a) = 32;
  x25519_comm : ∀ a b, length a = 32 → length b = 32 →
    x25519 a (x25519_base b) = x25519 b (x25519_base a);
  chacha_open_seal : ∀ k n aad m c,
    chacha_seal k n aad m = Some c → chacha_open k n aad c = Some m;
  (** The sealed message is the message's length plus a sixteen-octet tag. *)
  chacha_seal_length : ∀ k n aad m c,
    chacha_seal k n aad m = Some c → length c = length m + 16;
  (** Sealing fails only on messages far beyond what a record can carry. *)
  chacha_seal_defined : ∀ k n aad m, (len m ≤ u32_max)%N → is_Some (chacha_seal k n aad m);
  aes256_ctr_length : ∀ k iv n, length (aes256_ctr k iv n) = n;
}.

(** ** Key derivation ([kdf.rs]) *)

Section Kdf.
Context `{P : Primitives}.

Definition hkdf_sha256 (ikm : bytes) (salt : option bytes) (info : bytes) (output_len : nat)
    : res bytes :=
  ok_or (hkdf salt ikm info output_len) KdfOperation.

Definition hkdf_sha256_32 (ikm : bytes) (salt : option bytes) (info : bytes) : res bytes :=
  ok_or (hkdf salt ikm info 32) KdfOperation.

Context `{!PrimitiveLaws P}.

Lemma hkdf_sha256_ok (ikm : bytes) (salt : option bytes) (info : bytes) (n : nat) :
  n ≤ 255 * 32 → ∃ k, hkdf_sha256 ikm salt info n = Ok k ∧ length k = n.
Proof.
  intros Hn. unfold hkdf_sha256. destruct (hkdf_defined salt ikm info n Hn) as [k Hk].
  exists k. rewrite Hk. split; [done|]. by eapply hkdf_length.
Qed.

Lemma hkdf_sha256_32_ok (ikm : bytes) (salt : option bytes) (info : bytes) :
  ∃ k, hkdf_sha256_32 ikm salt info = Ok k ∧ length k = 32.
Proof. apply (hkdf_sha256_ok ikm salt info 32). lia. Qed.

Lemma hkdf_sha256_32_length (ikm : bytes) (salt : option bytes) (info k : bytes) :
  hkdf_sha256_32 ikm salt info = Ok k → length k = 32.
Proof.
  unfold hkdf_sha256_32. destruct (hkdf salt ikm info 32) eqn:E; [|done].
  intros [= <-]. by eapply hkdf_length.
Qed.
End Kdf.

(** ** Diffie-Hellman ([dh.rs]) *)

Record DhKeyPair := { public : bytes; secret : bytes }.

#[export] Instance DhKeyPair_eq_decision : EqDecision DhKeyPair.
Proof. solve_decision. Defined.

Section Dh.
Context `{P : Primitives}.

Definition generate_keypair (g : rng) : DhKeyPair * rng :=
  let '(s, g) := rng_fill 32 g in
  ({| public := x25519_base s; secret := s |}, g).

Definition diffie_hellman (secret remote_public : bytes) : bytes := x25519 secret remote_public.

(** A key pair as [generate_keypair] makes it. *)
Definition dh_keypair_wf (kp : DhKeyPair) : Prop :=
  length (secret kp) = 32 ∧ public kp = x25519_base (secret kp).

Context `{!PrimitiveLaws P}.

Lemma generate_keypair_wf (g : rng) : dh_keypair_wf (generate_keypair g).1.
Proof.
  unfold generate_keypair. pose proof (rng_fill_length 32 g) as H.
  destruct (rng_fill 32 g) as [s g']. by split.
Qed.

Lemma dh_keypair_public_length (kp : DhKeyPair) : dh_keypair_wf kp → length (public kp) = 32.
Proof. intros [_ ->]. apply x25519_base_length. Qed.

Lemma dh_agree (a b : DhKeyPair) :
  dh_keypair_wf a → dh_keypair_wf b →
  diffie_hellman (secret a) (public b) = diffie_hellman (secret b) (public a).
Proof. intros [Ha ->] [Hb ->]. by apply x25519_comm. Qed.
End Dh.

(** ** Key encapsulation: the [KemProvider] trait ([kem.rs]) *)

Record KemKeyPair := { kem_public_key : bytes; kem_secret_key : bytes }.

Record KemEncapsulation := { kem_ciphertext : bytes; kem_shared_secret : bytes }.

Record KemProvider `{P : Primitives} := {
  kem_keypair : rng → res KemKeyPair * rng;
  kem_encapsulate : bytes → rng → res KemEncapsulation * rng;
  kem_decapsulate : bytes → bytes → res bytes;
}.

(** What the core expects of a provider: [kem_pair pk sk] holds of the key pairs
    the provider generates, and decapsulating with the secret key of such a
    pair undoes encapsulation to its public key. *)
Class KemLaws `{P : Primitives} (K : KemProvider) := {
  kem_pair : bytes → bytes → Prop;
  kem_keypair_pair : ∀ g kp g',
    kem_keypair K g = (Ok kp, g') → kem_pair (kem_public_key kp) (kem_secret_key kp);
  kem_correct : ∀ pk sk g e g',
    kem_pair pk sk → kem_encapsulate K pk g = (Ok e, g') →
    kem_decapsulate K sk (kem_ciphertext e) = Ok (kem_shared_secret e);
}.

(** ** Ed25519 ([ed25519_dalek])

    Verification keys, parsed signatures, [VerifyingKey::from_bytes],
    [Signature::from_slice], [VerifyingKey::verify], and [SigningKey::sign] and
    [SigningKey::verifying_key] of a 32-octet secret, as octets. *)
Class Ed25519 := {
  ed_key : Type;
  ed_sig : Type;
  ed_key_from_bytes : bytes → option ed_key;
  ed_sig_from_slice : bytes → option ed_sig;
  ed_verify : ed_key → bytes → ed_sig → bool;
  ed_sign : bytes → bytes → bytes;
  ed_public : bytes → bytes;
}.

(** [ed_pair pk sk]: [pk] is the public key of the secret key [sk]. *)
Class Ed25519Laws (V : Ed25519) := {
  ed_pair : bytes → bytes → Prop;
  ed_pair_length : ∀ pk sk, ed_pair pk sk → length pk = 32 ∧ length sk = 32;
  ed_sign_length : ∀ sk m, length (ed_sign sk m) = 64;
  ed_public_pair : ∀ sk, length sk = 32 → ed_pair (ed_public sk) sk;
  ed_correct : ∀ pk sk m, ed_pair pk sk →
    ∃ k s, ed_key_from_bytes pk = Some k ∧ ed_sig_from_slice (ed_sign sk m) = Some s ∧
      ed_verify k m s = true;
}.

(** ** Base64 ([base64], the [STANDARD] engine)

    The engine pads, and accepts no other encoding than its own. *)
Class Base64 := {
  b64_encode : bytes → bytes;
  b64_decode : bytes → option bytes;
}.

(** The alphabet and the padding. *)
Definition b64_char (b : byte) : bool :=
  in_range 0x41 0x5A b || in_range 0x61 0x7A b || in_range 0x30 0x39 b
  || in_range 0x2B 0x2B b || in_range 0x2F 0x2F b || in_range 0x3D 0x3D b.

Class Base64Laws (B : Base64) := {
  b64_roundtrip : ∀ b, b64_decode (b64_encode b) = Some b;
  b64_canonical : ∀ v b, b64_decode v = Some b → v = b64_encode b;
  (** Four characters for every started group of three octets. *)
  b64_encode_length : ∀ b, length (b64_encode b) = 4 * ((length b + 2) / 3);
  b64_encode_letters : ∀ b, forallb b64_char (b64_encode b) = true;
}.

Lemma b64_encode_range `{!Base64Laws B} (b : bytes) : forallb (in_range 0x2B 0x7A) (b64_encode b) = true.
Proof.
  pose proof (b64_encode_letters b) as H. rewrite forallb_forall in *. intros x Hx%H. revert Hx. by destruct x.
Qed.

(** ** Length-checked secrets ([keys.rs]) *)

(** [SecretBytes::require_32]. *)
Definition require_32 (s : bytes) (field : string) : res bytes :=
  if (length s =? 32)%nat then Ok s else Err (InvalidLength field 32 (len s)).

Lemma require_32_ok (s : bytes) (field : string) : length s = 32 → require_32 s field = Ok s.
Proof. intros H. unfold require_32. by rewrite H. Qed.

#[export] Hint Resolve require_32_ok generate_keypair_wf dh_keypair_public_length : pqmsg.
