(* ===== verification/Toy.v ===== *)
(** * A concrete instance of the primitives

    Deterministic stand-ins that satisfy every law of [PrimitiveLaws] and
    [KemLaws], so that the hypotheses of the protocol theorems are known to be
    satisfiable and runs of the protocol can be evaluated. They have no
    security whatsoever and model no crate. *)

From Stdlib Require Import Strings.Byte.
From S2P Require Import Prelude Bytes Errors Crypto.
Local Open Scope nat_scope.

(** A small polynomial checksum. *)
Definition toy_sum (seed : N) (m : bytes) : N :=
  foldl (λ acc b, (acc * 31 + Byte.to_N b + 7) mod 65521)%N seed m.

(** [n] octets expanded from a seed. *)
Fixpoint toy_stream (n : nat) (seed : N) : bytes :=
  match n with
  | O => []
  | S n => byte_of_N (seed / 16) :: toy_stream n ((seed * 75 + 74) mod 65537)%N
  end.

Lemma length_toy_stream (n : nat) (seed : N) : length (toy_stream n seed) = n.
Proof. revert seed. induction n as [|n IH]; intros seed; [done|]. simpl. by rewrite IH. Qed.

Definition fix32 (l : bytes) : bytes := take 32 (l ++ replicate 32 x00).

Lemma length_fix32 (l : bytes) : length (fix32 l) = 32.
Proof. unfold fix32. rewrite length_take, length_app, length_replicate. lia. Qed.

Lemma fix32_32 (l : bytes) : length l = 32 → fix32 l = l.
Proof. intros H. unfold fix32. by apply take_app_len. Qed.

Definition toy_tag (k n aad m : bytes) : bytes :=
  toy_stream 16 (toy_sum (toy_sum (toy_sum (toy_sum 1 k) n) aad) m).

Lemma length_toy_tag (k n aad m : bytes) : length (toy_tag k n aad m) = 16.
Proof. apply length_toy_stream. Qed.

#[export] Instance Toy : Primitives := {|
  rng := N;
  rng_fill := λ n g, (toy_stream n (g * 7919 + 13), (g + 1)%N);
  hkdf := λ salt ikm info n,
    if (N.of_nat n <=? 8160)%N
    then Some (toy_stream n (toy_sum (toy_sum (toy_sum 3 (default [] salt)) ikm) info))
    else None;
  sha256 := λ m, toy_stream 32 (toy_sum 5 m);
  x25519 := λ a p, bytes_xor (fix32 a) (fix32 p);
  x25519_base := fix32;
  chacha_seal := λ k n aad m, Some (m ++ toy_tag k n aad m);
  chacha_open := λ k n aad c,
    let m := take (length c - 16) c in
    if decide (drop (length c - 16) c = toy_tag k n aad m) then Some m else None;
  aes256_ctr := λ k iv n, toy_stream n (toy_sum (toy_sum 9 k) iv);
|}.

#[export] Instance ToyLaws : PrimitiveLaws Toy.
Proof.
  split; cbn [rng_fill hkdf sha256 x25519 x25519_base chacha_seal chacha_open aes256_ctr Toy fst].
  - intros. apply length_toy_stream.
  - intros salt ikm info n k. destruct (N.of_nat n <=? 8160)%N; [|done].
    intros [= <-]. apply length_toy_stream.
  - intros salt ikm info n Hn. replace (N.of_nat n <=? 8160)%N with true; [eauto|].
    symmetry. apply N.leb_le. lia.
  - intros. apply length_toy_stream.
  - intros. by rewrite length_bytes_xor, !length_fix32.
  - intros. apply length_fix32.
  - intros a b Ha Hb. rewrite !(fix32_32 a), !(fix32_32 b) by done.
    apply bytes_xor_comm.
  - intros k n aad m c [= <-]. rewrite length_app, length_toy_tag, Nat.add_sub.
    rewrite take_app_length, drop_app_length. by rewrite decide_True.
  - intros k n aad m c [= <-]. by rewrite length_app, length_toy_tag.
  - eauto.
  - intros. apply length_toy_stream.
Qed.

(** A key encapsulation with identity public keys and one-octet randomness. *)
Definition ToyKem : KemProvider := {|
  kem_keypair := λ g : rng,
    (Ok {| kem_public_key := toy_stream 8 (g * 5 + 1); kem_secret_key := toy_stream 8 (g * 5 + 1) |},
     (g + 1)%N);
  kem_encapsulate := λ pk (g : rng),
    let r := toy_stream 4 (g * 11 + 2) in
    (Ok {| kem_ciphertext := r; kem_shared_secret := toy_stream 32 (toy_sum (toy_sum 2 pk) r) |},
     (g + 1)%N);
  kem_decapsulate := λ sk ct, Ok (toy_stream 32 (toy_sum (toy_sum 2 sk) ct));
|}.

#[export] Instance ToyKemLaws : KemLaws ToyKem.
Proof.
  apply (Build_KemLaws _ ToyKem eq).
  - intros g kp g' [= <- <-]. done.
  - intros pk sk g e g' <- H. cbv [kem_encapsulate ToyKem] in H.
    apply pair_equal_spec in H as [H _]. by apply Ok_inj in H as <-.
Defined.

(** Keys are seeds; a signature is 64 octets computed from the seed and the
    message. *)
Definition toy_sign (seed : N) (m : bytes) : bytes := toy_stream 64 (toy_sum seed m).

#[export] Instance ToyEd : Ed25519 := {|
  ed_key := N;
  ed_sig := bytes;
  ed_key_from_bytes := λ b, Some (toy_sum 4 b);
  ed_sig_from_slice := λ b, if length b =? 64 then Some b else None;
  ed_verify := λ seed m s, bool_decide (s = toy_sign seed m);
  ed_sign := λ sk m, toy_sign (toy_sum 4 sk) m;
  ed_public := λ sk, sk;
|}.

#[export] Instance ToyEdLaws : Ed25519Laws ToyEd.
Proof.
  apply (Build_Ed25519Laws ToyEd (λ pk sk, pk = sk ∧ length sk = 32)).
  - intros pk sk [-> ?]. done.
  - intros sk m. apply length_toy_stream.
  - done.
  - intros pk sk m [-> _]. eexists _, _. split; [reflexivity|]. split.
    + cbv [ed_sig_from_slice ed_sign ToyEd toy_sign]. by rewrite length_toy_stream.
    + by apply bool_decide_eq_true_2.
Defined.

Definition toy_server : @ed_key ToyEd := 21%N.

(** Base64 as the standard describes it: three octets are four letters, the
    last group is padded. Decoding accepts what encodes back to itself. *)
Definition b64_alphabet : bytes := lit "ABCDEFGHIJKLMNOPQRSTUVWXYZabcdefghijklmnopqrstuvwxyz0123456789+/".

Definition b64_letter (i : N) : byte := nth (N.to_nat i) b64_alphabet x00.

Fixpoint position (c : byte) (l : bytes) : N :=
  match l with
  | [] => 0
  | x :: l => if decide (x = c) then 0 else 1 + position c l
  end%N.

Definition b64_value (c : byte) : N := position c b64_alphabet.

Definition b64_group (v : N) : bytes :=
  [b64_letter (v / 262144); b64_letter (v / 4096 mod 64); b64_letter (v / 64 mod 64);
   b64_letter (v mod 64)]%N.

Fixpoint toy_b64_encode (l : bytes) : bytes :=
  match l with
  | [] => []
  | [a] => take 2 (b64_group (Byte.to_N a * 65536)) ++ lit "=="
  | [a; b] => take 3 (b64_group (Byte.to_N a * 65536 + Byte.to_N b * 256)) ++ lit "="
  | a :: b :: c :: r =>
      b64_group (Byte.to_N a * 65536 + Byte.to_N b * 256 + Byte.to_N c) ++ toy_b64_encode r
  end%N.

Definition b64_octets (a b c d : byte) : bytes :=
  let v := (b64_value a * 262144 + b64_value b * 4096 + b64_value c * 64 + b64_value d)%N in
  [byte_of_N (v / 65536); byte_of_N (v / 256); byte_of_N v].

Fixpoint b64_candidate (v : bytes) : bytes :=
  match v with
  | a :: b :: c :: d :: r =>
      if decide (c = x3d) then take 1 (b64_octets a b x41 x41)
      else if decide (d = x3d) then take 2 (b64_octets a b c x41)
      else b64_octets a b c d ++ b64_candidate r
  | _ => []
  end.

Definition toy_b64_decode (v : bytes) : option bytes :=
  let b := b64_candidate v in if decide (toy_b64_encode b = v) then Some b else None.

#[export] Instance ToyBase64 : Base64 := {|
  b64_encode := toy_b64_encode;
  b64_decode := toy_b64_decode;
|}.

Lemma b64_letter_value (i : N) : (i < 64)%N → b64_value (b64_letter i) = i ∧ b64_letter i ≠ x3d.
Proof.
  intros Hi. assert (Hall : Forall (λ n, b64_value (b64_letter (N.of_nat n)) = N.of_nat n ∧
                                     b64_letter (N.of_nat n) ≠ x3d) (seq 0 64)).
  { apply (bool_decide_unpack _). vm_compute. done. }
  rewrite list.Forall_forall in Hall. specialize (Hall (N.to_nat i)). rewrite N2Nat.id in Hall.
  apply Hall, elem_of_seq. lia.
Qed.

Lemma b64_value_letter (i : N) : (i < 64)%N → b64_value (b64_letter i) = i.
Proof. intros Hi. by apply b64_letter_value. Qed.

Lemma b64_letter_letters (i : N) : (i < 64)%N → b64_char (b64_letter i) = true.
Proof.
  intros Hi. assert (Hall : Forall (λ n, b64_char (b64_letter (N.of_nat n)) = true) (seq 0 64)).
  { apply (bool_decide_unpack _). vm_compute. done. }
  rewrite list.Forall_forall in Hall. specialize (Hall (N.to_nat i)). rewrite N2Nat.id in Hall.
  apply Hall, elem_of_seq. lia.
Qed.

Lemma byte_of_N_mod (n : N) (b : byte) : (n mod 256 = Byte.to_N b)%N → byte_of_N n = b.
Proof.
  intros E. rewrite <- (of_to_byte b). unfold byte_of_N. rewrite E.
  pose proof (Byte.to_N_bounded b). by rewrite (N.mod_small (Byte.to_N b)) by lia.
Qed.

Lemma b64_octets_group (a b c : byte) :
  let v := (Byte.to_N a * 65536 + Byte.to_N b * 256 + Byte.to_N c)%N in
  match b64_group v with
  | [w; x; y; z] => b64_octets w x y z = [a; b; c] ∧ y ≠ x3d ∧ z ≠ x3d
  | _ => False
  end.
Proof.
  intros v. pose proof (Byte.to_N_bounded a). pose proof (Byte.to_N_bounded b).
  pose proof (Byte.to_N_bounded c). unfold b64_group.
  assert (Hv : (v < 16777216)%N) by (unfold v; lia).
  assert (v / 262144 < 64)%N by (apply N.Div0.div_lt_upper_bound; lia).
  assert (v / 4096 mod 64 < 64)%N by (apply N.mod_lt; lia).
  assert (v / 64 mod 64 < 64)%N by (apply N.mod_lt; lia).
  assert (v mod 64 < 64)%N by (apply N.mod_lt; lia).
  split; [|split; by apply b64_letter_value]. unfold b64_octets.
  rewrite !b64_value_letter by done.
  assert (E1 : (v / 4096 = v / 64 / 64)%N) by (by rewrite N.Div0.div_div).
  assert (E2 : (v / 262144 = v / 64 / 64 / 64)%N) by (by rewrite !N.Div0.div_div).
  pose proof (N.div_mod v 64 ltac:(done)). pose proof (N.div_mod (v / 64) 64 ltac:(done)).
  pose proof (N.div_mod (v / 64 / 64) 64 ltac:(done)). rewrite E1, E2.
  replace (v / 64 / 64 / 64 * 262144 + v / 64 / 64 mod 64 * 4096 + v / 64 mod 64 * 64 + v mod 64)%N with v by lia.
  assert (F1 : (v / 65536 = Byte.to_N a)%N) by (symmetry; apply (N.div_unique _ _ _ (Byte.to_N b * 256 + Byte.to_N c)); unfold v; lia).
  assert (F2 : (v / 256 = Byte.to_N a * 256 + Byte.to_N b)%N) by (symmetry; apply (N.div_unique _ _ _ (Byte.to_N c)); unfold v; lia).
  rewrite F1, F2. f_equal; [|f_equal; [|f_equal]]; apply byte_of_N_mod; [apply N.mod_small; lia|..].
  - symmetry. apply (N.mod_unique _ _ (Byte.to_N a)); lia.
  - symmetry. apply (N.mod_unique _ _ (Byte.to_N a * 256 + Byte.to_N b)); unfold v; lia.
Qed.

#[export] Instance ToyBase64Laws : Base64Laws ToyBase64.
Proof.
  split; cbn [b64_encode b64_decode ToyBase64].
  - intros b. unfold toy_b64_decode.
    assert (Hc : b64_candidate (toy_b64_encode b) = b); [|by rewrite Hc, decide_True].
    induction b as [b IH] using length_ind.
    destruct b as [|x [|y [|z r]]]; [done|..].
    + pose proof (b64_octets_group x x00 x00) as (E & _ & _). rewrite !N.add_0_r in E. unfold b64_group in E.
      replace ((Byte.to_N x * 65536) / 64 mod 64)%N with 0%N in E.
      2: { replace (Byte.to_N x * 65536)%N with (Byte.to_N x * 16 * 64 * 64)%N by lia.
           by rewrite N.div_mul, N.Div0.mod_mul. }
      replace ((Byte.to_N x * 65536) mod 64)%N with 0%N in E.
      2: { replace (Byte.to_N x * 65536)%N with (Byte.to_N x * 1024 * 64)%N by lia. by rewrite N.Div0.mod_mul. }
      change (take 1 (b64_octets (b64_letter (Byte.to_N x * 65536 / 262144))
        (b64_letter (Byte.to_N x * 65536 / 4096 mod 64)) (b64_letter 0) (b64_letter 0)) = [x]). by rewrite E.
    + pose proof (b64_octets_group x y x00) as (E & Hy & _). rewrite !N.add_0_r in E, Hy. unfold b64_group in E.
      replace ((Byte.to_N x * 65536 + Byte.to_N y * 256) mod 64)%N with 0%N in E.
      2: { replace (Byte.to_N x * 65536 + Byte.to_N y * 256)%N
             with ((Byte.to_N x * 1024 + Byte.to_N y * 4) * 64)%N by lia. by rewrite N.Div0.mod_mul. }
      cbn [toy_b64_encode]. unfold b64_group. cbn [take Datatypes.app].
      change (lit "=") with [x3d]. cbn [Datatypes.app b64_candidate].
      rewrite decide_False by done. rewrite decide_True by done. change x41 with (b64_letter 0). by rewrite E.
    + pose proof (b64_octets_group x y z) as (E & Hy & Hz). cbn [toy_b64_encode]. unfold b64_group in *.
      cbn [Datatypes.app b64_candidate]. rewrite !decide_False by done. rewrite E, IH by (simpl; lia). done.
  - intros v b. unfold toy_b64_decode. case_decide; [|done]. by intros [= <-].
  - intros b. induction b as [b IH] using length_ind.
    destruct b as [|x [|y [|z r]]]; [done..|]. cbn [toy_b64_encode]. rewrite length_app, IH by (simpl; lia).
    simpl length. replace (S (S (S (length r))) + 2) with (length r + 2 + 1 * 3) by lia.
    rewrite Nat.div_add by lia. lia.
  - intros b. induction b as [b IH] using length_ind.
    assert (Hl : ∀ i, b64_char (b64_letter (i mod 64)) = true).
    { intros i. apply b64_letter_letters. apply N.mod_lt. done. }
    assert (Hg : ∀ v, (v < 16777216)%N → forallb b64_char (b64_group v) = true).
    { intros v Hv. unfold b64_group. cbn [forallb]. rewrite !Hl, b64_letter_letters; [done|].
      apply N.Div0.div_lt_upper_bound. lia. }
    assert (Ht : ∀ n v, (v < 16777216)%N → forallb b64_char (take n (b64_group v)) = true).
    { intros n v Hv. specialize (Hg v Hv). rewrite <- (take_drop n (b64_group v)), forallb_app in Hg.
      by apply andb_true_iff in Hg as [-> _]. }
    destruct b as [|x [|y [|z r]]]; [done|..]; cbn [toy_b64_encode]; rewrite forallb_app;
      pose proof (Byte.to_N_bounded x); try pose proof (Byte.to_N_bounded y); try pose proof (Byte.to_N_bounded z).
    + by rewrite Ht by lia.
    + by rewrite Ht by lia.
    + rewrite Hg by lia. apply IH. simpl. lia.
Qed.
