(* ===== verification/Alg.v ===== *)
(** * Algorithm registry and security profiles ([pqmsg-core/src/alg.rs])

    The identifiers of the algorithm suites, the three security profiles and
    the policy they enforce. The build's feature flags are the fields of
    [Features]. *)

From S2P Require Import Prelude Bytes Errors.
Local Open Scope N_scope.

Definition PROTOCOL_VERSION_V1 : N := 1.
Definition ALGORITHM_REGISTRY_V1 : N := 1.
Definition SUITE_ID_MLKEM768_X25519_HKDF_SHA256_CHACHA20POLY1305 : N := 1.
Definition SUITE_ID_KYBER768_X25519_HKDF_SHA256_CHACHA20POLY1305 : N := 2.

(** The constants of [wire.rs] that [alg.rs] refers to. *)
Definition WIRE_VERSION : N := 1.
Definition WIRE_VERSION_V2 : N := 2.
Definition DEFAULT_SUITE_ID : N := SUITE_ID_MLKEM768_X25519_HKDF_SHA256_CHACHA20POLY1305.

(** Cargo features of [pqmsg-core]. *)
Class Features := {
  feature_fips : bool;
  feature_classical_only : bool;
  feature_pq_oqs : bool;
  feature_pq_rust : bool;
}.

(** The two [compile_error!] guards of [kem.rs]: a backend is chosen, and fips
    excludes the classical-only build. *)
Definition features_compile (F : Features) : bool :=
  (feature_pq_oqs || feature_pq_rust || feature_classical_only) &&
  negb (feature_fips && feature_classical_only).

Inductive SecurityProfile := Research | HighAssurance | NssAligned.

#[export] Instance SecurityProfile_eq_decision : EqDecision SecurityProfile.
Proof. solve_decision. Defined.

Definition SecurityProfile_default : SecurityProfile := HighAssurance.

Record VersionedAlgorithmId := { registry_version : N; id : N }.

Inductive KemAlgorithm := MlKem768 | Kyber768Alias.
Inductive DhAlgorithm := X25519.
Inductive KdfAlgorithm := HkdfSha256.
Inductive AeadAlgorithm := ChaCha20Poly1305.
Inductive SignatureAlgorithm := External | HybridEd25519MlDsa65.

#[export] Instance KemAlgorithm_eq_decision : EqDecision KemAlgorithm.
Proof. solve_decision. Defined.
#[export] Instance DhAlgorithm_eq_decision : EqDecision DhAlgorithm.
Proof. solve_decision. Defined.
#[export] Instance KdfAlgorithm_eq_decision : EqDecision KdfAlgorithm.
Proof. solve_decision. Defined.
#[export] Instance AeadAlgorithm_eq_decision : EqDecision AeadAlgorithm.
Proof. solve_decision. Defined.
#[export] Instance SignatureAlgorithm_eq_decision : EqDecision SignatureAlgorithm.
Proof. solve_decision. Defined.

Definition KemAlgorithm_as_id (a : KemAlgorithm) : VersionedAlgorithmId :=
  match a with
  | MlKem768 => {| registry_version := ALGORITHM_REGISTRY_V1; id := 0x0001 |}
  | Kyber768Alias => {| registry_version := ALGORITHM_REGISTRY_V1; id := 0x0002 |}
  end.

Definition KemAlgorithm_from_id (i : VersionedAlgorithmId) : res KemAlgorithm :=
  if negb (registry_version i =? ALGORITHM_REGISTRY_V1)
  then Err (UnsupportedAlgorithm "kem.registry_version")
  else match id i with
  | 0x0001 => Ok MlKem768
  | 0x0002 => Ok Kyber768Alias
  | _ => Err (UnsupportedAlgorithm "kem.id")
  end.

Definition DhAlgorithm_as_id (a : DhAlgorithm) : VersionedAlgorithmId :=
  match a with X25519 => {| registry_version := ALGORITHM_REGISTRY_V1; id := 0x0101 |} end.

Definition KdfAlgorithm_as_id (a : KdfAlgorithm) : VersionedAlgorithmId :=
  match a with HkdfSha256 => {| registry_version := ALGORITHM_REGISTRY_V1; id := 0x0201 |} end.

Definition AeadAlgorithm_as_id (a : AeadAlgorithm) : VersionedAlgorithmId :=
  match a with ChaCha20Poly1305 => {| registry_version := ALGORITHM_REGISTRY_V1; id := 0x0301 |} end.

Definition SignatureAlgorithm_as_id (a : SignatureAlgorithm) : VersionedAlgorithmId :=
  match a with
  | External => {| registry_version := ALGORITHM_REGISTRY_V1; id := 0x0401 |}
  | HybridEd25519MlDsa65 => {| registry_version := ALGORITHM_REGISTRY_V1; id := 0x0402 |}
  end.

Record AlgorithmSuite := {
  suite_kem : KemAlgorithm;
  suite_dh : DhAlgorithm;
  suite_kdf : KdfAlgorithm;
  suite_aead : AeadAlgorithm;
  suite_signature : SignatureAlgorithm;
}.

#[export] Instance AlgorithmSuite_eq_decision : EqDecision AlgorithmSuite.
Proof. solve_decision. Defined.

Definition AlgorithmSuite_default : AlgorithmSuite :=
  {| suite_kem := MlKem768; suite_dh := X25519; suite_kdf := HkdfSha256;
     suite_aead := ChaCha20Poly1305; suite_signature := External |}.

Definition suite_id (s : AlgorithmSuite) : res N :=
  match suite_kem s, suite_dh s, suite_kdf s, suite_aead s with
  | MlKem768, X25519, HkdfSha256, ChaCha20Poly1305 =>
      Ok SUITE_ID_MLKEM768_X25519_HKDF_SHA256_CHACHA20POLY1305
  | Kyber768Alias, X25519, HkdfSha256, ChaCha20Poly1305 =>
      Ok SUITE_ID_KYBER768_X25519_HKDF_SHA256_CHACHA20POLY1305
  end.

Definition from_suite_id (i : N) : res AlgorithmSuite :=
  if i =? SUITE_ID_MLKEM768_X25519_HKDF_SHA256_CHACHA20POLY1305 then
    Ok {| suite_kem := MlKem768; suite_dh := X25519; suite_kdf := HkdfSha256;
          suite_aead := ChaCha20Poly1305; suite_signature := External |}
  else if i =? SUITE_ID_KYBER768_X25519_HKDF_SHA256_CHACHA20POLY1305 then
    Ok {| suite_kem := Kyber768Alias; suite_dh := X25519; suite_kdf := HkdfSha256;
          suite_aead := ChaCha20Poly1305; suite_signature := External |}
  else Err (UnsupportedAlgorithm "suite.id").

(** ** Profiles *)

Definition as_str (p : SecurityProfile) : bytes :=
  match p with
  | Research => lit "research"
  | HighAssurance => lit "high_assurance"
  | NssAligned => lit "nss_aligned"
  end.

Definition parse (v : bytes) : res SecurityProfile :=
  let s := to_ascii_lowercase (str_trim v) in
  if bool_decide (s = lit "research") then Ok Research
  else if bool_decide (s = lit "high_assurance") || bool_decide (s = lit "high-assurance")
  then Ok HighAssurance
  else if bool_decide (s = lit "nss_aligned") || bool_decide (s = lit "nss-aligned")
  then Ok NssAligned
  else Err (InvalidSecurityProfile "profile").

Record RuntimeCryptoProfile := {
  rt_protocol_version : N;
  rt_suite_id : N;
  rt_kem : KemAlgorithm;
  rt_dh : DhAlgorithm;
  rt_kdf : KdfAlgorithm;
  rt_aead : AeadAlgorithm;
  rt_signature : SignatureAlgorithm;
  pq_oqs_enabled : bool;
  fips_mode : bool;
  supported_wire_versions : list N;
}.

Definition default_supported_wire_versions : list N := [WIRE_VERSION_V2; WIRE_VERSION].

Section Policy.
Context `{F : Features}.

Definition is_fips_mode : bool := feature_fips.

Definition FIPS_APPROVED_SUITE_IDS : list N :=
  [SUITE_ID_MLKEM768_X25519_HKDF_SHA256_CHACHA20POLY1305].

Definition requires_tls (p : SecurityProfile) : bool :=
  match p with Research => false | _ => true end.

Definition requires_pq_backend (p : SecurityProfile) : bool :=
  if feature_classical_only then false
  else match p with Research => false | _ => true end.

Definition allows_suite_id (p : SecurityProfile) (i : N) : bool :=
  if is_fips_mode then existsb (N.eqb i) FIPS_APPROVED_SUITE_IDS
  else match p with
  | Research => is_ok (from_suite_id i)
  | HighAssurance =>
      (i =? SUITE_ID_MLKEM768_X25519_HKDF_SHA256_CHACHA20POLY1305) ||
      (i =? SUITE_ID_KYBER768_X25519_HKDF_SHA256_CHACHA20POLY1305)
  | NssAligned => i =? SUITE_ID_MLKEM768_X25519_HKDF_SHA256_CHACHA20POLY1305
  end.

Definition enforce_suite_id (p : SecurityProfile) (i : N) : res unit :=
  if allows_suite_id p i then Ok tt else Err (PolicyViolation "security_profile.suite_id").

Definition enforce_runtime_profile (p : SecurityProfile) (r : RuntimeCryptoProfile) : res unit :=
  if requires_pq_backend p && negb (pq_oqs_enabled r)
  then Err (PolicyViolation "security_profile.pq_backend")
  else enforce_suite_id p (rt_suite_id r).

Definition runtime_crypto_profile : res RuntimeCryptoProfile :=
  let suite := AlgorithmSuite_default in
  let? sid := suite_id suite in
  Ok {| rt_protocol_version := PROTOCOL_VERSION_V1;
        rt_suite_id := sid;
        rt_kem := suite_kem suite;
        rt_dh := suite_dh suite;
        rt_kdf := suite_kdf suite;
        rt_aead := suite_aead suite;
        rt_signature := suite_signature suite;
        pq_oqs_enabled := feature_pq_oqs || feature_pq_rust;
        fips_mode := is_fips_mode;
        supported_wire_versions := default_supported_wire_versions |}.

Definition enforce_runtime_security_profile (p : SecurityProfile) (i : option N)
    : res RuntimeCryptoProfile :=
  let? runtime := runtime_crypto_profile in
  let? _ := enforce_runtime_profile p runtime in
  match i with
  | Some i => let? _ := enforce_suite_id p i in Ok runtime
  | None => Ok runtime
  end.
End Policy.

Record CryptoAgilityRegistry := { reg_protocol_version : N; reg_registry_version : N }.

Definition CryptoAgilityRegistry_default : CryptoAgilityRegistry :=
  {| reg_protocol_version := PROTOCOL_VERSION_V1; reg_registry_version := ALGORITHM_REGISTRY_V1 |}.

Definition supports_suite (r : CryptoAgilityRegistry) (s : AlgorithmSuite) : bool :=
  (reg_protocol_version r =? PROTOCOL_VERSION_V1) &&
  (registry_version (KemAlgorithm_as_id (suite_kem s)) =? reg_registry_version r) &&
  bool_decide (suite_dh s = X25519) &&
  bool_decide (suite_kdf s = HkdfSha256) &&
  bool_decide (suite_aead s = ChaCha20Poly1305).

(** ** Lemmas *)

Lemma from_suite_id_ok (i : N) : is_ok (from_suite_id i) = ((i =? 1) || (i =? 2)).
Proof.
  unfold from_suite_id, SUITE_ID_MLKEM768_X25519_HKDF_SHA256_CHACHA20POLY1305,
    SUITE_ID_KYBER768_X25519_HKDF_SHA256_CHACHA20POLY1305.
  by destruct (i =? 1), (i =? 2).
Qed.

Lemma from_suite_id_known (i : N) (s : AlgorithmSuite) :
  from_suite_id i = Ok s → suite_id s = Ok i.
Proof.
  unfold from_suite_id. intros H. inv_ok H; bool_to_prop; subst; done.
Qed.

Lemma allows_suite_id_known `{F : Features} (p : SecurityProfile) (i : N) :
  allows_suite_id p i = true → ∃ s, from_suite_id i = Ok s ∧ suite_id s = Ok i.
Proof.
  intros H. assert (Hk : (i =? 1) || (i =? 2) = true).
  { unfold allows_suite_id in H. destruct is_fips_mode.
    - simpl in H. apply orb_true_iff. left. by rewrite orb_false_r in H.
    - destruct p; [by rewrite from_suite_id_ok in H|done|]. apply orb_true_iff. by left. }
  rewrite <- from_suite_id_ok in Hk. destruct (from_suite_id i) as [s|] eqn:E; [|done].
  exists s. split; [done|]. by apply from_suite_id_known.
Qed.

(** ** Properties *)

(** What the profile gate lets through, exactly.
    [enforce_runtime_security_profile] succeeds for a profile and an optional
    peer suite precisely when a post-quantum backend is compiled in or the
    profile does not need one (the research profile, or a classical-only
    build), and the peer suite, if given, is allowed by the profile. The suites
    allowed shrink with the profile's strictness, every allowed suite is one
    the registry knows, a fips build allows a single suite, and a fips build
    that compiles never fails the gate for want of a backend. *)
Theorem runtime_profile_gate (F : Features) (p : SecurityProfile) (i : option N) :
  (is_ok (enforce_runtime_security_profile p i) = true ↔
     (p = Research ∨ feature_classical_only = true ∨ feature_pq_oqs || feature_pq_rust = true) ∧
     (∀ s, i = Some s → allows_suite_id p s = true)) ∧
  (∀ s, allows_suite_id NssAligned s = true → allows_suite_id HighAssurance s = true) ∧
  (∀ s, allows_suite_id HighAssurance s = true → allows_suite_id Research s = true) ∧
  (∀ s, allows_suite_id p s = true → ∃ suite, from_suite_id s = Ok suite ∧ suite_id suite = Ok s) ∧
  (feature_fips = true → ∀ s, allows_suite_id p s = true → s = DEFAULT_SUITE_ID) ∧
  (feature_fips = true → features_compile F = true →
     is_ok (enforce_runtime_security_profile p None) = true).
Proof.
  assert (Hdef : allows_suite_id p DEFAULT_SUITE_ID = true)
    by (unfold allows_suite_id; by destruct is_fips_mode, p).
  repeat split.
  - unfold enforce_runtime_security_profile, enforce_runtime_profile, enforce_suite_id in *.
    simpl in *. unfold DEFAULT_SUITE_ID in Hdef. rewrite Hdef in H. unfold requires_pq_backend in H.
    destruct p, feature_classical_only, (feature_pq_oqs || feature_pq_rust); simpl in *; auto.
  - intros s ->. unfold enforce_runtime_security_profile, enforce_suite_id in H.
    destruct runtime_crypto_profile; [|done]. destruct (enforce_runtime_profile p a); [|done].
    by destruct (allows_suite_id p s).
  - intros [Hb Hs]. unfold enforce_runtime_security_profile, enforce_runtime_profile,
      enforce_suite_id, requires_pq_backend. simpl. unfold DEFAULT_SUITE_ID in Hdef. rewrite Hdef.
    destruct i as [s|]; [rewrite (Hs s eq_refl)|];
      destruct Hb as [-> | [-> | ->] ]; by repeat case_match.
  - intros s. unfold allows_suite_id. destruct is_fips_mode; [done|]. by intros ->.
  - intros s. unfold allows_suite_id. destruct is_fips_mode; [done|].
    by rewrite from_suite_id_ok.
  - apply allows_suite_id_known.
  - intros Hf s. unfold allows_suite_id, is_fips_mode. rewrite Hf. simpl.
    rewrite orb_false_r. by intros ->%N.eqb_eq.
  - intros Hf Hc. unfold features_compile in Hc. rewrite Hf in Hc.
    unfold enforce_runtime_security_profile, enforce_runtime_profile, enforce_suite_id,
      requires_pq_backend.
    unfold DEFAULT_SUITE_ID in Hdef. simpl. rewrite Hdef.
    destruct feature_classical_only, (feature_pq_oqs || feature_pq_rust), p; done.
Qed.
