(* ===== verification/Aead.v ===== *)
(** * Authenticated encryption and padding ([pqmsg-core/src/aead.rs])

    The envelope around ChaCha20-Poly1305 and the ISO 7816-4 padding that hides
    the length of a message up to a block. *)

From Stdlib Require Import Strings.Byte.
From S2P Require Import Prelude Bytes Errors Crypto.
Local Open Scope nat_scope.

Record CiphertextEnvelope := { nonce : bytes; ciphertext : bytes; aad : bytes }.

Section Envelope.
Context `{P : Primitives}.

(** The key is a [[u8; 32]], so [new_from_slice] cannot fail. *)
Definition encrypt (key plaintext aad nonce : bytes) : res CiphertextEnvelope :=
  let? ct := ok_or (chacha_seal key nonce aad plaintext) AeadOperation in
  Ok {| nonce := nonce; ciphertext := ct; aad := aad |}.

Definition encrypt_with_rng (key plaintext aad : bytes) (g : rng) : res CiphertextEnvelope * rng :=
  let '(nonce, g) := rng_fill 12 g in
  (encrypt key plaintext aad nonce, g).

Definition decrypt (key : bytes) (envelope : CiphertextEnvelope) : res bytes :=
  ok_or (chacha_open key (nonce envelope) (aad envelope) (ciphertext envelope)) AeadOperation.

Context `{!PrimitiveLaws P}.

Lemma encrypt_decrypt (key m ad n : bytes) (e : CiphertextEnvelope) :
  encrypt key m ad n = Ok e →
  nonce e = n ∧ aad e = ad ∧ length (ciphertext e) = length m + 16 ∧
  decrypt key {| nonce := n; ciphertext := ciphertext e; aad := ad |} = Ok m.
Proof.
  unfold encrypt, decrypt. destruct (chacha_seal key n ad m) as [c|] eqn:E; [|done].
  intros [= <-]. simpl. repeat split.
  - by eapply chacha_seal_length.
  - by rewrite (chacha_open_seal _ _ _ _ _ E).
Qed.

Lemma encrypt_defined (key m ad n : bytes) :
  (len m ≤ u32_max)%N → ∃ e, encrypt key m ad n = Ok e.
Proof.
  intros H. unfold encrypt. destruct (chacha_seal_defined key n ad m H) as [c ->]. eauto.
Qed.

(** The random-nonce form on a message the cipher accepts. *)
Lemma encrypt_with_rng_ok (key m ad : bytes) (g : rng) :
  (len m ≤ u32_max)%N →
  ∃ e g', encrypt_with_rng key m ad g = (Ok e, g') ∧
    length (nonce e) = 12 ∧ length (ciphertext e) = length m + 16 ∧
    decrypt key {| nonce := nonce e; ciphertext := ciphertext e; aad := ad |} = Ok m.
Proof.
  intros Hm. unfold encrypt_with_rng. pose proof (rng_fill_length 12 g) as Hn.
  destruct (rng_fill 12 g) as [n g']. simpl in Hn.
  destruct (encrypt_defined key m ad n Hm) as [e He].
  pose proof (encrypt_decrypt _ _ _ _ _ He) as (Hne & _ & ? & ?).
  exists e, g'. rewrite He, Hne. done.
Qed.

Lemma encrypt_with_rng_aad (key m ad : bytes) (g g' : rng) (e : CiphertextEnvelope) :
  encrypt_with_rng key m ad g = (Ok e, g') → aad e = ad.
Proof.
  unfold encrypt_with_rng, encrypt. destruct (rng_fill 12 g) as [n g1].
  destruct (chacha_seal key n ad m); [|done]. by intros [= <- _].
Qed.
End Envelope.

(** ** Padding *)

Definition PADDING_BLOCK_SIZE : nat := 256.

Definition PAD_DELIMITER : byte := x80.

(** The body of [pad_plaintext]; [resize] is [Vec::resize]. *)
Definition pad_blocks (plaintext : bytes) (block_size : nat) : bytes :=
  let padded_len := (length plaintext / block_size + 1) * block_size in
  resize padded_len x00 (plaintext ++ [PAD_DELIMITER]).

(** [None] is the panic of the assertion on the block size. *)
Definition pad_plaintext (plaintext : bytes) (block_size : nat) : option bytes :=
  if block_size =? 0 then None else Some (pad_blocks plaintext block_size).

(** The backward scan, on the reversed octets. *)
Fixpoint unpad_scan (rpadded : bytes) : res bytes :=
  match rpadded with
  | [] => Err (MessageParsing "no padding delimiter found")
  | b :: rest =>
      if bool_decide (b = x80) then Ok (rev rest)
      else if bool_decide (b = x00) then unpad_scan rest
      else Err (MessageParsing "invalid ISO 7816-4 padding")
  end.

Definition unpad_plaintext (padded : bytes) : res bytes := unpad_scan (rev padded).

Lemma pad_blocks_length (m : bytes) (b : nat) :
  0 < b → length (pad_blocks m b) = (length m / b + 1) * b.
Proof. intros. apply length_resize. Qed.

Lemma pad_room (m : bytes) (b : nat) : 0 < b → length m < (length m / b + 1) * b.
Proof.
  intros. pose proof (Nat.div_mod_eq (length m) b). pose proof (Nat.mod_upper_bound (length m) b).
  lia.
Qed.

Lemma pad_blocks_bound (m : bytes) (b : nat) :
  0 < b → length (pad_blocks m b) ≤ length m + b.
Proof.
  intros Hb. rewrite pad_blocks_length by done. pose proof (Nat.div_mod_eq (length m) b). lia.
Qed.

Lemma pad_blocks_shape (m : bytes) (b : nat) :
  0 < b →
  pad_blocks m b
  = m ++ [PAD_DELIMITER] ++ replicate ((length m / b + 1) * b - length m - 1) x00.
Proof.
  intros Hb. unfold pad_blocks. pose proof (pad_room m b Hb).
  rewrite resize_ge by (rewrite length_app; simpl; lia).
  rewrite <- app_assoc, length_app. simpl. do 2 f_equal. f_equal. lia.
Qed.

Lemma unpad_scan_zeros (k : nat) (l : bytes) : unpad_scan (replicate k x00 ++ l) = unpad_scan l.
Proof. induction k as [|k IH]; [done|]. simpl. done. Qed.

Lemma rev_replicate {A} (k : nat) (x : A) : rev (replicate k x) = replicate k x.
Proof. rewrite rev_alt. apply reverse_replicate. Qed.

Lemma unpad_shape (m : bytes) (k : nat) :
  unpad_plaintext (m ++ [PAD_DELIMITER] ++ replicate k x00) = Ok m.
Proof.
  unfold unpad_plaintext. rewrite !rev_app_distr, rev_replicate.
  rewrite <- app_assoc, unpad_scan_zeros. simpl. by rewrite rev_involutive.
Qed.

Lemma unpad_scan_inv (l m : bytes) :
  unpad_scan l = Ok m → ∃ k, l = replicate k x00 ++ [PAD_DELIMITER] ++ rev m.
Proof.
  revert m. induction l as [|b l IH]; intros m; [done|]. simpl.
  case_bool_decide as E1.
  - intros [= <-]. exists 0. simpl. by rewrite rev_involutive, E1.
  - case_bool_decide as E2; [|done]. intros [k ->]%IH. exists (S k). simpl. by rewrite E2.
Qed.

Lemma unpad_pad (m : bytes) (b : nat) : 0 < b → unpad_plaintext (pad_blocks m b) = Ok m.
Proof. intros Hb. rewrite pad_blocks_shape by done. apply unpad_shape. Qed.

Lemma pad_plaintext_some (m : bytes) (b : nat) : 0 < b → pad_plaintext m b = Some (pad_blocks m b).
Proof. intros. unfold pad_plaintext. by replace (b =? 0) with false by (symmetry; apply Nat.eqb_neq; lia). Qed.

(** ** Properties *)

(** Padding is undone by unpadding and hides everything but the block
    count. [pad_plaintext] panics exactly on the zero block size; otherwise its
    output is a whole number of blocks, longer than the message by at most one
    block, of a length that only depends on the number of full blocks of the
    message, and unpads to the message. The unpadder accepts exactly the octet
    strings of the form message, 0x80, zeros. *)
Theorem padding_spec (m : bytes) (b : nat) :
  (pad_plaintext m b = None ↔ b = 0) ∧
  (∀ p, pad_plaintext m b = Some p →
     unpad_plaintext p = Ok m ∧ Nat.divide b (length p) ∧
     length m < length p ≤ length m + b ∧
     ∀ m' p', length m' / b = length m / b → pad_plaintext m' b = Some p' → length p' = length p) ∧
  (∀ p, unpad_plaintext p = Ok m ↔ ∃ k, p = m ++ [PAD_DELIMITER] ++ replicate k x00).
Proof.
  split; [|split].
  - unfold pad_plaintext. destruct (Nat.eqb_spec b 0); split; congruence.
  - intros p Hp. destruct (Nat.eq_dec b 0) as [->|Hb]; [done|].
    rewrite pad_plaintext_some in Hp by lia. injection Hp as <-.
    rewrite pad_blocks_length by lia. split; [apply unpad_pad; lia|].
    split; [by apply Nat.divide_factor_r|]. split.
    + pose proof (pad_room m b ltac:(lia)). pose proof (Nat.div_mod_eq (length m) b). lia.
    + intros m' p' Hd. rewrite pad_plaintext_some by lia. intros [= <-].
      rewrite pad_blocks_length by lia. by rewrite Hd.
  - intros p. split; [|intros [k ->]; apply unpad_shape].
    intros [k Hk]%unpad_scan_inv. exists k. apply (f_equal (@rev _)) in Hk.
    rewrite rev_involutive, !rev_app_distr, rev_involutive in Hk.
    by rewrite rev_replicate, <- app_assoc in Hk.
Qed.
