(* ===== verification/Ad.v ===== *)
(** * Conversation context ([pqmsg-core/src/ad.rs])

    The associated data that binds a message to its sender and recipient. *)

From S2P Require Import Prelude Bytes Errors Tlv.
Local Open Scope N_scope.

Definition CONTEXT_VERSION : N := 1.
Definition TAG_CONTEXT_VERSION : N := critical_type 0x1201.
Definition TAG_SENDER_ID : N := critical_type 0x1202.
Definition TAG_RECIPIENT_ID : N := critical_type 0x1203.

Definition conversation_associated_data (sender_user_id recipient_user_id : bytes) : res bytes :=
  encode [ mkTlv TAG_CONTEXT_VERSION (u16_be CONTEXT_VERSION);
           mkTlv TAG_SENDER_ID sender_user_id;
           mkTlv TAG_RECIPIENT_ID recipient_user_id ].

(** The conversation context determines both ends, in their roles: two pairs
    of user ids with the same associated data are the same ordered pair, and the
    encoding fails exactly when an id exceeds the record limit. *)
Theorem conversation_ad_binds (s r s' r' : bytes) :
  (is_ok (conversation_associated_data s r) = true ↔ len s ≤ u16_max ∧ len r ≤ u16_max) ∧
  (∀ ad, conversation_associated_data s r = Ok ad → conversation_associated_data s' r' = Ok ad →
     s = s' ∧ r = r').
Proof.
  split.
  - split.
    + destruct (conversation_associated_data s r) as [b|] eqn:E; [|done]. intros _.
      apply encode_ok_inv in E.
      apply Forall_cons_1 in E as [_ [Hs [Hr _]%Forall_cons_1]%Forall_cons_1]. done.
    + intros [Hs Hr]. unfold conversation_associated_data.
      edestruct encode_ok as [b ->]; [|done]. repeat constructor; done.
  - intros ad E1 E2. assert (Hwf : ∀ a b c, Forall record_wf
      [mkTlv TAG_CONTEXT_VERSION a; mkTlv TAG_SENDER_ID b; mkTlv TAG_RECIPIENT_ID c])
      by (intros; repeat constructor; done).
    pose proof (encode_inj _ _ _ (Hwf _ _ _) (Hwf _ _ _) E1 E2) as H. by injection H.
Qed.
