(* ===== verification/Wire.v ===== *)
(** * Wire messages ([pqmsg-core/src/wire.rs])

    The two wire formats, the encrypted header of the second, the dispatch on
    the first tag, and the two negotiation lists. *)

From Stdlib Require Import Strings.Byte.
From S2P Require Import Prelude Bytes Errors Tlv Crypto Toy Alg.
Local Open Scope N_scope.

Definition TAG_VERSION : N := critical_type 0x1001.
Definition TAG_SUITE_ID : N := critical_type 0x1002.
Definition TAG_SENDER_DH_PUB : N := critical_type 0x1003.
Definition TAG_MSG_NUM : N := critical_type 0x1004.
Definition TAG_PREV_CHAIN_LEN : N := critical_type 0x1005.
Definition TAG_PQ_STEP_CT : N := critical_type 0x1006.
Definition TAG_AEAD_NONCE : N := critical_type 0x1007.
Definition TAG_CIPHERTEXT : N := critical_type 0x1008.
Definition TAG_PQ_TARGET_PUB_HASH : N := critical_type 0x1009.
Definition TAG_PQ_NEXT_PUB : N := critical_type 0x100A.

Definition TAG_V2_VERSION : N := critical_type 0x1101.
Definition TAG_V2_SUITE_ID : N := critical_type 0x1102.
Definition TAG_V2_ENCRYPTED_HEADER : N := critical_type 0x1103.
Definition TAG_V2_AEAD_NONCE : N := critical_type 0x1104.
Definition TAG_V2_CIPHERTEXT : N := critical_type 0x1105.

(** ** Version 1 *)

Record WireMessage := {
  w1_version : N;
  w1_suite_id : N;
  w1_sender_dh_pub : bytes;
  w1_msg_num : N;
  w1_prev_chain_len : N;
  w1_pq_step_ct : option bytes;
  w1_pq_target_pub_hash : option bytes;
  w1_pq_next_public_key : option bytes;
  w1_aead_nonce : bytes;
  w1_ciphertext : bytes;
}.

#[export] Instance WireMessage_eq_decision : EqDecision WireMessage.
Proof. solve_decision. Defined.

Definition WireMessage_records (m : WireMessage) : list TlvRecord :=
  [ mkTlv TAG_VERSION (u16_be (w1_version m));
    mkTlv TAG_SUITE_ID (u16_be (w1_suite_id m));
    mkTlv TAG_SENDER_DH_PUB (w1_sender_dh_pub m);
    mkTlv TAG_MSG_NUM (u32_be (w1_msg_num m));
    mkTlv TAG_PREV_CHAIN_LEN (u32_be (w1_prev_chain_len m)) ] ++
  opt_record TAG_PQ_STEP_CT (w1_pq_step_ct m) ++
  opt_record TAG_PQ_TARGET_PUB_HASH (w1_pq_target_pub_hash m) ++
  opt_record TAG_PQ_NEXT_PUB (w1_pq_next_public_key m) ++
  [ mkTlv TAG_AEAD_NONCE (w1_aead_nonce m);
    mkTlv TAG_CIPHERTEXT (w1_ciphertext m) ].

Definition WireMessage_encode (m : WireMessage) : res bytes := encode (WireMessage_records m).

Definition WireMessage_known_types : list N :=
  [TAG_VERSION; TAG_SUITE_ID; TAG_SENDER_DH_PUB; TAG_MSG_NUM; TAG_PREV_CHAIN_LEN; TAG_PQ_STEP_CT;
   TAG_PQ_TARGET_PUB_HASH; TAG_PQ_NEXT_PUB; TAG_AEAD_NONCE; TAG_CIPHERTEXT].

Definition WireMessage_decode (input : bytes) : res WireMessage :=
  let? records := decode_strict input WireMessage_known_types in
  let map := build_record_map records in
  let? v := require_from_map map TAG_VERSION "wire.version" in
  let? version := parse_u16 v "wire.version" in
  let? v := require_from_map map TAG_SUITE_ID "wire.suite_id" in
  let? suite_id := parse_u16 v "wire.suite_id" in
  let? v := require_from_map map TAG_SENDER_DH_PUB "wire.sender_dh_pub" in
  let? sender_dh_pub := parse_32 v "wire.sender_dh_pub" in
  let? v := require_from_map map TAG_MSG_NUM "wire.msg_num" in
  let? msg_num := parse_u32 v "wire.msg_num" in
  let? v := require_from_map map TAG_PREV_CHAIN_LEN "wire.prev_chain_len" in
  let? prev_chain_len := parse_u32 v "wire.prev_chain_len" in
  let pq_step_ct := map !! TAG_PQ_STEP_CT in
  let pq_target_pub_hash := map !! TAG_PQ_TARGET_PUB_HASH in
  let pq_next_public_key := map !! TAG_PQ_NEXT_PUB in
  let? v := require_from_map map TAG_AEAD_NONCE "wire.aead_nonce" in
  let? aead_nonce := parse_12 v "wire.aead_nonce" in
  let? ciphertext := require_from_map map TAG_CIPHERTEXT "wire.ciphertext" in
  Ok {| w1_version := version;
        w1_suite_id := suite_id;
        w1_sender_dh_pub := sender_dh_pub;
        w1_msg_num := msg_num;
        w1_prev_chain_len := prev_chain_len;
        w1_pq_step_ct := pq_step_ct;
        w1_pq_target_pub_hash := pq_target_pub_hash;
        w1_pq_next_public_key := pq_next_public_key;
        w1_aead_nonce := aead_nonce;
        w1_ciphertext := ciphertext |}.

(** ** The header of version 2 *)

Record HeaderPlaintext := {
  h_sender_dh_pub : bytes;
  h_msg_num : N;
  h_prev_chain_len : N;
  h_pq_step_ct : option bytes;
  h_pq_target_pub_hash : option bytes;
  h_pq_next_public_key : option bytes;
}.

#[export] Instance HeaderPlaintext_eq_decision : EqDecision HeaderPlaintext.
Proof. solve_decision. Defined.

Definition HeaderPlaintext_records (h : HeaderPlaintext) : list TlvRecord :=
  [ mkTlv TAG_SENDER_DH_PUB (h_sender_dh_pub h);
    mkTlv TAG_MSG_NUM (u32_be (h_msg_num h));
    mkTlv TAG_PREV_CHAIN_LEN (u32_be (h_prev_chain_len h)) ] ++
  opt_record TAG_PQ_STEP_CT (h_pq_step_ct h) ++
  opt_record TAG_PQ_TARGET_PUB_HASH (h_pq_target_pub_hash h) ++
  opt_record TAG_PQ_NEXT_PUB (h_pq_next_public_key h).

Definition HeaderPlaintext_encode (h : HeaderPlaintext) : res bytes :=
  encode (HeaderPlaintext_records h).

Definition HeaderPlaintext_known_types : list N :=
  [TAG_SENDER_DH_PUB; TAG_MSG_NUM; TAG_PREV_CHAIN_LEN; TAG_PQ_STEP_CT; TAG_PQ_TARGET_PUB_HASH;
   TAG_PQ_NEXT_PUB].

Definition HeaderPlaintext_decode (input : bytes) : res HeaderPlaintext :=
  let? records := decode_strict input HeaderPlaintext_known_types in
  let map := build_record_map records in
  let? v := require_from_map map TAG_SENDER_DH_PUB "header.sender_dh_pub" in
  let? sender_dh_pub := parse_32 v "header.sender_dh_pub" in
  let? v := require_from_map map TAG_MSG_NUM "header.msg_num" in
  let? msg_num := parse_u32 v "header.msg_num" in
  let? v := require_from_map map TAG_PREV_CHAIN_LEN "header.prev_chain_len" in
  let? prev_chain_len := parse_u32 v "header.prev_chain_len" in
  Ok {| h_sender_dh_pub := sender_dh_pub;
        h_msg_num := msg_num;
        h_prev_chain_len := prev_chain_len;
        h_pq_step_ct := map !! TAG_PQ_STEP_CT;
        h_pq_target_pub_hash := map !! TAG_PQ_TARGET_PUB_HASH;
        h_pq_next_public_key := map !! TAG_PQ_NEXT_PUB |}.

Definition HEADER_CTR_IV : bytes := replicate 16 x00.

Section HeaderEncryption.
Context `{P : Primitives}.

Definition encrypt_header (hk plaintext : bytes) : bytes :=
  bytes_xor plaintext (aes256_ctr hk HEADER_CTR_IV (length plaintext)).

Definition decrypt_header (hk ciphertext : bytes) : bytes := encrypt_header hk ciphertext.

Definition try_decrypt_header (hk ciphertext : bytes) : option HeaderPlaintext :=
  res_ok (HeaderPlaintext_decode (decrypt_header hk ciphertext)).
End HeaderEncryption.

(** ** Version 2 *)

Record WireMessageV2 := {
  w2_version : N;
  w2_suite_id : N;
  w2_encrypted_header : bytes;
  w2_aead_nonce : bytes;
  w2_ciphertext : bytes;
}.

#[export] Instance WireMessageV2_eq_decision : EqDecision WireMessageV2.
Proof. solve_decision. Defined.

Definition WireMessageV2_records (m : WireMessageV2) : list TlvRecord :=
  [ mkTlv TAG_V2_VERSION (u16_be (w2_version m));
    mkTlv TAG_V2_SUITE_ID (u16_be (w2_suite_id m));
    mkTlv TAG_V2_ENCRYPTED_HEADER (w2_encrypted_header m);
    mkTlv TAG_V2_AEAD_NONCE (w2_aead_nonce m);
    mkTlv TAG_V2_CIPHERTEXT (w2_ciphertext m) ].

Definition WireMessageV2_encode (m : WireMessageV2) : res bytes := encode (WireMessageV2_records m).

Definition WireMessageV2_known_types : list N :=
  [TAG_V2_VERSION; TAG_V2_SUITE_ID; TAG_V2_ENCRYPTED_HEADER; TAG_V2_AEAD_NONCE; TAG_V2_CIPHERTEXT].

Definition WireMessageV2_decode (input : bytes) : res WireMessageV2 :=
  let? records := decode_strict input WireMessageV2_known_types in
  let map := build_record_map records in
  let? v := require_from_map map TAG_V2_VERSION "wire_v2.version" in
  let? version := parse_u16 v "wire_v2.version" in
  let? v := require_from_map map TAG_V2_SUITE_ID "wire_v2.suite_id" in
  let? suite_id := parse_u16 v "wire_v2.suite_id" in
  let? encrypted_header := require_from_map map TAG_V2_ENCRYPTED_HEADER "wire_v2.encrypted_header" in
  let? v := require_from_map map TAG_V2_AEAD_NONCE "wire_v2.aead_nonce" in
  let? aead_nonce := parse_12 v "wire_v2.aead_nonce" in
  let? ciphertext := require_from_map map TAG_V2_CIPHERTEXT "wire_v2.ciphertext" in
  Ok {| w2_version := version;
        w2_suite_id := suite_id;
        w2_encrypted_header := encrypted_header;
        w2_aead_nonce := aead_nonce;
        w2_ciphertext := ciphertext |}.

(** ** Dispatch *)

Inductive DecodedWireMessage := V1 (m : WireMessage) | V2 (m : WireMessageV2).

Definition decoded_version (d : DecodedWireMessage) : N :=
  match d with V1 m => w1_version m | V2 m => w2_version m end.

Definition decoded_suite_id (d : DecodedWireMessage) : N :=
  match d with V1 m => w1_suite_id m | V2 m => w2_suite_id m end.

Definition decode_wire_message (input : bytes) : res DecodedWireMessage :=
  if len input <? 4 then Err (InvalidTlv "wire message too short") else
  let first_tag := from_be (take 2 input) in
  if first_tag =? TAG_VERSION then
    let? m := WireMessage_decode input in Ok (V1 m)
  else if first_tag =? TAG_V2_VERSION then
    let? m := WireMessageV2_decode input in Ok (V2 m)
  else Err (UnsupportedAlgorithm "wire.version_tag").

Section SuitePolicy.
Context `{F : Features}.

Definition WireMessage_validate_suite (m : WireMessage) (p : SecurityProfile) : res unit :=
  enforce_suite_id p (w1_suite_id m).

Definition WireMessageV2_validate_suite (m : WireMessageV2) (p : SecurityProfile) : res unit :=
  enforce_suite_id p (w2_suite_id m).

Definition decoded_validate_suite (d : DecodedWireMessage) (p : SecurityProfile) : res unit :=
  match d with
  | V1 m => WireMessage_validate_suite m p
  | V2 m => WireMessageV2_validate_suite m p
  end.

(** ** Negotiation *)

Definition SupportedSuites_for_profile (p : SecurityProfile) : list N :=
  List.filter (allows_suite_id p)
    [SUITE_ID_MLKEM768_X25519_HKDF_SHA256_CHACHA20POLY1305;
     SUITE_ID_KYBER768_X25519_HKDF_SHA256_CHACHA20POLY1305].
End SuitePolicy.

(** Both lists are a sequence of two-octet numbers. *)
Definition encode_u16_list (l : list N) : bytes := concat (map u16_be l).

(** [chunks_exact(2)] followed by [from_be_bytes]. *)
Fixpoint chunks_u16 (input : bytes) : list N :=
  match input with
  | b0 :: b1 :: rest => from_be [b0; b1] :: chunks_u16 rest
  | _ => []
  end.

(** The validation loop with its early return. *)
Fixpoint check_each (check : N → res unit) (l : list N) : res unit :=
  match l with
  | [] => Ok tt
  | x :: l => let? _ := check x in check_each check l
  end.

Definition SupportedSuites_encode (suite_ids : list N) : bytes := encode_u16_list suite_ids.

Definition SupportedSuites_decode (input : bytes) : res (list N) :=
  if negb (len input mod 2 =? 0) then Err (InvalidLength "supported_suites" 0 (len input)) else
  let suite_ids := chunks_u16 input in
  let? _ := check_each (λ i, let? _ := from_suite_id i in Ok tt) suite_ids in
  Ok suite_ids.

Definition SupportedSuites_negotiate (local remote : list N) : option N :=
  find (λ i, existsb (N.eqb i) remote) local.

Definition SupportedWireVersions_v1_only : list N := [WIRE_VERSION].
Definition SupportedWireVersions_v1_and_v2 : list N := [WIRE_VERSION_V2; WIRE_VERSION].

Definition SupportedWireVersions_encode (versions : list N) : bytes := encode_u16_list versions.

Definition SupportedWireVersions_decode (input : bytes) : res (list N) :=
  if negb (len input mod 2 =? 0) then Err (InvalidLength "supported_wire_versions" 0 (len input)) else
  let versions := chunks_u16 input in
  let? _ := check_each (λ v,
    if negb (v =? WIRE_VERSION) && negb (v =? WIRE_VERSION_V2)
    then Err (UnsupportedAlgorithm "wire.version") else Ok tt) versions in
  Ok versions.

Definition SupportedWireVersions_negotiate (local remote : list N) : option N :=
  find (λ v, existsb (N.eqb v) remote) local.

(** ** Well-formed messages

    The bounds of the Rust field types, and what a record can carry. *)

Definition opt_fits (o : option bytes) : bool := match o with Some v => fits v | None => true end.

Record WireMessage_wf (m : WireMessage) : Prop := {
  w1_wf_version : w1_version m ≤ u16_max;
  w1_wf_suite : w1_suite_id m ≤ u16_max;
  w1_wf_dh : length (w1_sender_dh_pub m) = 32%nat;
  w1_wf_num : w1_msg_num m ≤ u32_max;
  w1_wf_prev : w1_prev_chain_len m ≤ u32_max;
  w1_wf_nonce : length (w1_aead_nonce m) = 12%nat;
  w1_wf_fits : opt_fits (w1_pq_step_ct m) && opt_fits (w1_pq_target_pub_hash m) &&
               opt_fits (w1_pq_next_public_key m) && fits (w1_ciphertext m) = true;
}.

Record HeaderPlaintext_wf (h : HeaderPlaintext) : Prop := {
  h_wf_dh : length (h_sender_dh_pub h) = 32%nat;
  h_wf_num : h_msg_num h ≤ u32_max;
  h_wf_prev : h_prev_chain_len h ≤ u32_max;
  h_wf_fits : opt_fits (h_pq_step_ct h) && opt_fits (h_pq_target_pub_hash h) &&
              opt_fits (h_pq_next_public_key h) = true;
}.

Record WireMessageV2_wf (m : WireMessageV2) : Prop := {
  w2_wf_version : w2_version m ≤ u16_max;
  w2_wf_suite : w2_suite_id m ≤ u16_max;
  w2_wf_nonce : length (w2_aead_nonce m) = 12%nat;
  w2_wf_fits : fits (w2_encrypted_header m) && fits (w2_ciphertext m) = true;
}.

Definition decoded_wf (d : DecodedWireMessage) : Prop :=
  match d with V1 m => WireMessage_wf m | V2 m => WireMessageV2_wf m end.

Definition decoded_encode (d : DecodedWireMessage) : res bytes :=
  match d with V1 m => WireMessage_encode m | V2 m => WireMessageV2_encode m end.

(** ** Codecs *)

Lemma forallb_opt_record (f : TlvRecord → bool) (t : N) (o : option bytes) :
  forallb f (opt_record t o) = match o with Some v => f (mkTlv t v) | None => true end.
Proof. destruct o; simpl; [by rewrite andb_true_r|done]. Qed.

(** The record lists are accepted by the strict decoder, and each tag finds its
    field: by evaluation, for each shape of the optional fields. *)
Lemma WireMessage_tags (m : WireMessage) :
  tags_ok WireMessage_known_types (ty <$> WireMessage_records m) = true.
Proof. by destruct m as [? ? ? ? ? [] [] [] ? ?]. Qed.

Lemma HeaderPlaintext_tags (h : HeaderPlaintext) :
  tags_ok HeaderPlaintext_known_types (ty <$> HeaderPlaintext_records h) = true.
Proof. by destruct h as [? ? ? [] [] []]. Qed.

Lemma WireMessageV2_tags (m : WireMessageV2) :
  tags_ok WireMessageV2_known_types (ty <$> WireMessageV2_records m) = true.
Proof. by destruct m. Qed.

(** Decode an encoded record list field by field: the side condition [Ht] is
    the message's [tags_ok] lemma. *)
Ltac tlv_read Ht He :=
  rewrite (decode_strict_encode _ _ _ Ht He); cbv zeta; unfold require_from_map;
  rewrite !(build_record_map_find _ _ _ Ht).

Lemma WireMessage_find (m : WireMessage) (rs : list TlvRecord) :
  rs = WireMessage_records m →
  rec_find TAG_VERSION rs = Some (u16_be (w1_version m)) ∧
  rec_find TAG_SUITE_ID rs = Some (u16_be (w1_suite_id m)) ∧
  rec_find TAG_SENDER_DH_PUB rs = Some (w1_sender_dh_pub m) ∧
  rec_find TAG_MSG_NUM rs = Some (u32_be (w1_msg_num m)) ∧
  rec_find TAG_PREV_CHAIN_LEN rs = Some (u32_be (w1_prev_chain_len m)) ∧
  rec_find TAG_PQ_STEP_CT rs = w1_pq_step_ct m ∧
  rec_find TAG_PQ_TARGET_PUB_HASH rs = w1_pq_target_pub_hash m ∧
  rec_find TAG_PQ_NEXT_PUB rs = w1_pq_next_public_key m ∧
  rec_find TAG_AEAD_NONCE rs = Some (w1_aead_nonce m) ∧
  rec_find TAG_CIPHERTEXT rs = Some (w1_ciphertext m).
Proof. intros ->. by destruct m as [? ? ? ? ? [] [] [] ? ?]. Qed.

Lemma HeaderPlaintext_find (h : HeaderPlaintext) (rs : list TlvRecord) :
  rs = HeaderPlaintext_records h →
  rec_find TAG_SENDER_DH_PUB rs = Some (h_sender_dh_pub h) ∧
  rec_find TAG_MSG_NUM rs = Some (u32_be (h_msg_num h)) ∧
  rec_find TAG_PREV_CHAIN_LEN rs = Some (u32_be (h_prev_chain_len h)) ∧
  rec_find TAG_PQ_STEP_CT rs = h_pq_step_ct h ∧
  rec_find TAG_PQ_TARGET_PUB_HASH rs = h_pq_target_pub_hash h ∧
  rec_find TAG_PQ_NEXT_PUB rs = h_pq_next_public_key h.
Proof. intros ->. by destruct h as [? ? ? [] [] []]. Qed.

Lemma WireMessageV2_find (m : WireMessageV2) (rs : list TlvRecord) :
  rs = WireMessageV2_records m →
  rec_find TAG_V2_VERSION rs = Some (u16_be (w2_version m)) ∧
  rec_find TAG_V2_SUITE_ID rs = Some (u16_be (w2_suite_id m)) ∧
  rec_find TAG_V2_ENCRYPTED_HEADER rs = Some (w2_encrypted_header m) ∧
  rec_find TAG_V2_AEAD_NONCE rs = Some (w2_aead_nonce m) ∧
  rec_find TAG_V2_CIPHERTEXT rs = Some (w2_ciphertext m).
Proof. intros ->. by destruct m. Qed.

(** The fixed-width fields of a well-formed message parse back. *)
Ltac tlv_parse :=
  cbn [ok_or]; unfold parse_32, parse_12;
  rewrite ?parse_u16_ok, ?parse_u32_ok, ?parse_exact_ok by done.

Lemma WireMessage_decode_encode (m : WireMessage) (b : bytes) :
  WireMessage_wf m → WireMessage_encode m = Ok b → WireMessage_decode b = Ok m.
Proof.
  intros [] He. unfold WireMessage_decode. tlv_read (WireMessage_tags m) He.
  destruct (WireMessage_find m _ eq_refl) as (-> & -> & -> & -> & -> & -> & -> & -> & -> & ->).
  tlv_parse. by destruct m.
Qed.

Lemma HeaderPlaintext_decode_encode (h : HeaderPlaintext) (b : bytes) :
  HeaderPlaintext_wf h → HeaderPlaintext_encode h = Ok b → HeaderPlaintext_decode b = Ok h.
Proof.
  intros [] He. unfold HeaderPlaintext_decode. tlv_read (HeaderPlaintext_tags h) He.
  destruct (HeaderPlaintext_find h _ eq_refl) as (-> & -> & -> & -> & -> & ->).
  tlv_parse. by destruct h.
Qed.

Lemma WireMessageV2_decode_encode (m : WireMessageV2) (b : bytes) :
  WireMessageV2_wf m → WireMessageV2_encode m = Ok b → WireMessageV2_decode b = Ok m.
Proof.
  intros [] He. unfold WireMessageV2_decode. tlv_read (WireMessageV2_tags m) He.
  destruct (WireMessageV2_find m _ eq_refl) as (-> & -> & -> & -> & ->).
  tlv_parse. by destruct m.
Qed.

Lemma WireMessage_encode_ok (m : WireMessage) : WireMessage_wf m → ∃ b, WireMessage_encode m = Ok b.
Proof.
  intros []. apply encode_fits. unfold WireMessage_records.
  rewrite !forallb_app, !forallb_opt_record. simpl.
  rewrite (fits_short 32), (fits_short 12) by done. simpl.
  rewrite andb_true_r. by rewrite !andb_assoc.
Qed.

Lemma HeaderPlaintext_encode_ok (h : HeaderPlaintext) :
  HeaderPlaintext_wf h → ∃ b, HeaderPlaintext_encode h = Ok b.
Proof.
  intros []. apply encode_fits. unfold HeaderPlaintext_records.
  rewrite !forallb_app, !forallb_opt_record. simpl.
  rewrite (fits_short 32) by done. simpl. by rewrite !andb_assoc.
Qed.

Lemma WireMessageV2_encode_ok (m : WireMessageV2) :
  WireMessageV2_wf m → ∃ b, WireMessageV2_encode m = Ok b.
Proof.
  intros []. apply encode_fits. simpl.
  rewrite (fits_short 12 (w2_aead_nonce m)) by done. simpl. by rewrite andb_true_r.
Qed.

(** Encoding succeeds only on fields that fit their record. *)
Lemma WireMessage_encode_wf (m : WireMessage) (b : bytes) :
  WireMessage_encode m = Ok b →
  w1_version m ≤ u16_max → w1_suite_id m ≤ u16_max → length (w1_sender_dh_pub m) = 32%nat →
  w1_msg_num m ≤ u32_max → w1_prev_chain_len m ≤ u32_max → length (w1_aead_nonce m) = 12%nat →
  WireMessage_wf m.
Proof.
  intros He ? ? ? ? ? ?. split; try done. apply encode_fits_inv in He.
  unfold WireMessage_records in He. rewrite !forallb_app, !forallb_opt_record in He. simpl in He.
  rewrite (fits_short 32), (fits_short 12) in He by done. simpl in He.
  by rewrite !andb_true_r, !andb_assoc in He.
Qed.

Lemma HeaderPlaintext_encode_wf (h : HeaderPlaintext) (b : bytes) :
  HeaderPlaintext_encode h = Ok b →
  length (h_sender_dh_pub h) = 32%nat → h_msg_num h ≤ u32_max → h_prev_chain_len h ≤ u32_max →
  HeaderPlaintext_wf h.
Proof.
  intros He ? ? ?. split; try done. apply encode_fits_inv in He.
  unfold HeaderPlaintext_records in He. rewrite !forallb_app, !forallb_opt_record in He. simpl in He.
  rewrite (fits_short 32) in He by done. simpl in He. by rewrite !andb_assoc in He.
Qed.

Lemma WireMessageV2_encode_wf (m : WireMessageV2) (b : bytes) :
  WireMessageV2_encode m = Ok b →
  w2_version m ≤ u16_max → w2_suite_id m ≤ u16_max → length (w2_aead_nonce m) = 12%nat →
  WireMessageV2_wf m.
Proof.
  intros He ? ? ?. split; try done. apply encode_fits_inv in He. simpl in He.
  rewrite (fits_short 12 (w2_aead_nonce m)) in He by done. simpl in He.
  by rewrite andb_true_r in He.
Qed.

(** What a decoder returns is well formed: every field was parsed to its width
    and every variable-length field came out of a record. *)
Lemma require_bound (known : list N) (input : bytes) (rs : list TlvRecord) (t : N) (f : string)
    (v : bytes) :
  decode_strict input known = Ok rs →
  require_from_map (build_record_map rs) t f = Ok v → fits v = true.
Proof.
  unfold require_from_map. intros Hd H. destruct (build_record_map rs !! t) eqn:E; [|done].
  injection H as <-. apply N.leb_le. by eapply build_record_map_bound.
Qed.

Lemma opt_bound (known : list N) (input : bytes) (rs : list TlvRecord) (t : N) :
  decode_strict input known = Ok rs → opt_fits (build_record_map rs !! t) = true.
Proof.
  intros Hd. destruct (build_record_map rs !! t) eqn:E; [|done].
  apply N.leb_le. by eapply build_record_map_bound.
Qed.

#[local] Hint Resolve parse_u16_inv parse_u32_inv require_bound opt_bound : core.

Lemma parse_exact_length (n : nat) (l l' : bytes) (f : string) :
  parse_exact n l f = Ok l' → length l' = n.
Proof. by intros [-> ?]%parse_exact_inv. Qed.

#[local] Hint Resolve parse_exact_length : core.

Lemma WireMessage_decode_wf (input : bytes) (m : WireMessage) :
  WireMessage_decode input = Ok m → WireMessage_wf m.
Proof.
  unfold WireMessage_decode. intros H.
  destruct (decode_strict input WireMessage_known_types) as [rs|] eqn:Hd; [|done].
  inv_ok H. subst m. split; cbn; eauto.
  rewrite !(opt_bound _ _ _ _ Hd). simpl. eauto.
Qed.

Lemma HeaderPlaintext_decode_wf (input : bytes) (h : HeaderPlaintext) :
  HeaderPlaintext_decode input = Ok h → HeaderPlaintext_wf h.
Proof.
  unfold HeaderPlaintext_decode. intros H.
  destruct (decode_strict input HeaderPlaintext_known_types) as [rs|] eqn:Hd; [|done].
  inv_ok H. subst h. split; cbn; eauto. by rewrite !(opt_bound _ _ _ _ Hd).
Qed.

Lemma WireMessageV2_decode_wf (input : bytes) (m : WireMessageV2) :
  WireMessageV2_decode input = Ok m → WireMessageV2_wf m.
Proof.
  unfold WireMessageV2_decode. intros H.
  destruct (decode_strict input WireMessageV2_known_types) as [rs|] eqn:Hd; [|done].
  inv_ok H. subst m. split; cbn; eauto. apply andb_true_iff; eauto.
Qed.

Lemma decode_wire_message_wf (input : bytes) (d : DecodedWireMessage) :
  decode_wire_message input = Ok d → decoded_wf d.
Proof.
  unfold decode_wire_message. intros H. inv_ok H; subst d; simpl;
    eauto using WireMessage_decode_wf, WireMessageV2_decode_wf.
Qed.

Lemma decode_wire_message_encode (d : DecodedWireMessage) (b : bytes) :
  decoded_wf d → decoded_encode d = Ok b → decode_wire_message b = Ok d.
Proof.
  intros Hwf He. unfold decode_wire_message.
  assert (Hh : (4 ≤ length b)%nat ∧
    from_be (take 2 b) = match d with V1 _ => TAG_VERSION | V2 _ => TAG_V2_VERSION end).
  { destruct d as [m|m]; simpl in He.
    - by apply (encode_first_tag (mkTlv TAG_VERSION (u16_be (w1_version m))) _ b ltac:(done) He).
    - by apply (encode_first_tag (mkTlv TAG_V2_VERSION (u16_be (w2_version m))) _ b ltac:(done) He). }
  destruct Hh as [Hl ->].
  replace (len b <? 4) with false by (symmetry; apply N.ltb_ge; unfold len; lia).
  destruct d as [m|m]; simpl in *.
  - by rewrite (WireMessage_decode_encode m b).
  - by rewrite (WireMessageV2_decode_encode m b).
Qed.

Lemma decoded_encode_ok (d : DecodedWireMessage) : decoded_wf d → ∃ b, decoded_encode d = Ok b.
Proof. destruct d; [apply WireMessage_encode_ok|apply WireMessageV2_encode_ok]. Qed.

(** ** Header encryption *)

Section HeaderEncryptionLemmas.
Context `{P : Primitives} `{!PrimitiveLaws P}.

Lemma length_encrypt_header (hk p : bytes) : length (encrypt_header hk p) = length p.
Proof. unfold encrypt_header. rewrite length_bytes_xor, aes256_ctr_length. lia. Qed.

Lemma decrypt_encrypt_header (hk p : bytes) : decrypt_header hk (encrypt_header hk p) = p.
Proof.
  unfold decrypt_header. unfold encrypt_header at 1. rewrite length_encrypt_header.
  unfold encrypt_header. apply bytes_xor_cancel. by rewrite aes256_ctr_length.
Qed.

Lemma try_decrypt_encrypt_header (hk : bytes) (h : HeaderPlaintext) (b : bytes) :
  HeaderPlaintext_wf h → HeaderPlaintext_encode h = Ok b →
  try_decrypt_header hk (encrypt_header hk b) = Some h.
Proof.
  intros Hw He. unfold try_decrypt_header.
  by rewrite decrypt_encrypt_header, (HeaderPlaintext_decode_encode h b).
Qed.

(** Two headers under one key: the key stream cancels. *)
Lemma encrypt_header_xor (hk p q : bytes) :
  length p = length q →
  bytes_xor (encrypt_header hk p) (encrypt_header hk q) = bytes_xor p q.
Proof.
  unfold encrypt_header. intros H. rewrite H. generalize (aes256_ctr_length hk HEADER_CTR_IV (length q)).
  generalize (aes256_ctr hk HEADER_CTR_IV (length q)) as ks. revert p H.
  induction q as [|y q IH]; intros [|x p] H [|k ks] Hk; simpl in *; try done.
  unfold bytes_xor in IH. rewrite IH by lia. f_equal.
  apply to_N_inj. rewrite !to_byte_xor.
  rewrite (N.lxor_comm (Byte.to_N y)), N.lxor_assoc, <- (N.lxor_assoc (Byte.to_N k)).
  by rewrite N.lxor_nilpotent, N.lxor_0_l.
Qed.
End HeaderEncryptionLemmas.

(** ** Negotiation lists *)

Lemma chunks_encode (l : list N) :
  Forall (λ n, n ≤ u16_max) l → chunks_u16 (encode_u16_list l) = l.
Proof.
  unfold encode_u16_list. induction 1 as [|n l Hn _ IH]; [done|].
  cbn [map concat]. pose proof (length_u16_be n) as Hl. pose proof (from_u16_be n Hn) as Hf.
  destruct (u16_be n) as [|b0 [|b1 [|]]]; try done. simpl. by rewrite IH, <- Hf.
Qed.

Lemma chunks_bound (input : bytes) : Forall (λ n, n ≤ u16_max) (chunks_u16 input).
Proof.
  remember (length input) as k eqn:Hk. revert input Hk.
  induction k as [k IH] using lt_wf_ind. intros [|b0 [|b1 r]] ->; [constructor..|].
  constructor; [apply (u16_read_bound [b0; b1])|]. eapply IH; [|done]. simpl. lia.
Qed.

Lemma encode_chunks (input : bytes) :
  len input mod 2 = 0 → encode_u16_list (chunks_u16 input) = input.
Proof.
  unfold encode_u16_list.
  remember (length input) as k eqn:Hk. revert input Hk.
  induction k as [k IH] using lt_wf_ind. intros [|b0 [|b1 r]] -> He; [done..|].
  cbn [chunks_u16 map concat]. rewrite (IH (length r)); [|simpl; lia|done|].
  - pose proof (be_bytes_from_be [b0; b1]) as Hb. simpl length in Hb. unfold u16_be. by rewrite Hb.
  - unfold len in *. simpl length in He.
    replace (N.of_nat (S (S (length r)))) with (N.of_nat (length r) + 1 * 2) in He by lia.
    by rewrite N.Div0.mod_add in He.
Qed.

Lemma even_encode (l : list N) : len (encode_u16_list l) mod 2 = 0.
Proof.
  unfold encode_u16_list. induction l as [|n l IH]; [done|]. cbn [map concat].
  rewrite len_app. unfold len at 1. rewrite length_u16_be.
  change (N.of_nat 2) with (1 * 2). by rewrite N.add_comm, N.Div0.mod_add.
Qed.

Lemma check_each_ok (check : N → res unit) (l : list N) :
  check_each check l = Ok tt ↔ Forall (λ x, check x = Ok tt) l.
Proof.
  induction l as [|x l IH]; simpl; [by split|].
  split.
  - destruct (check x) as [[]|] eqn:E; [|done]. intros H%IH. by constructor.
  - intros [-> H]%Forall_cons_1. by apply IH.
Qed.

(** Both list decoders, for a check that only admits two-octet numbers. *)
Lemma capability_list_iff (check : N → res unit) (err : CoreError) (input : bytes) (l : list N) :
  (∀ x, check x = Ok tt → x ≤ u16_max) →
  (if negb (len input mod 2 =? 0) then Err err else
   let? _ := check_each check (chunks_u16 input) in Ok (chunks_u16 input)) = Ok l ↔
  encode_u16_list l = input ∧ Forall (λ x, check x = Ok tt) l.
Proof.
  intros Hb. split.
  - destruct (negb _) eqn:E; [done|]. bool_to_prop.
    destruct (check_each _ _) as [[]|] eqn:Ec; [|done]. intros [= <-].
    split; [by apply encode_chunks|]. by apply check_each_ok.
  - intros [<- Hl]. rewrite even_encode. simpl. rewrite chunks_encode.
    + apply check_each_ok in Hl. by rewrite Hl.
    + eapply Forall_impl; [|exact Hl]. apply Hb.
Qed.

Lemma Forall_iff_eq {A} (P Q : A → Prop) (l : list A) :
  (∀ x, P x ↔ Q x) → Forall P l ↔ Forall Q l.
Proof. intros H. split; intros Hl; (eapply Forall_impl; [|exact Hl]); apply H. Qed.

Lemma negotiate_some (local remote : list N) (v : N) :
  find (λ i, existsb (N.eqb i) remote) local = Some v ↔
  ∃ before after, local = before ++ v :: after ∧ v ∈ remote ∧ ∀ w, w ∈ before → w ∉ remote.
Proof.
  split.
  - induction local as [|x local IH]; simpl; [done|].
    destruct (existsb (N.eqb x) remote) eqn:E.
    + intros [= ->]. exists [], local. split_and!; [done|by apply existsb_elem|set_solver].
    + intros (bf & af & -> & Hv & Hb)%IH. exists (x :: bf), af. split_and!; [done..|].
      intros w [->|Hw]%elem_of_cons; [|auto]. rewrite <- existsb_elem. by rewrite E.
  - intros (bf & af & -> & Hv & Hb). induction bf as [|x bf IH]; simpl.
    + apply existsb_elem in Hv. by rewrite Hv.
    + destruct (existsb (N.eqb x) remote) eqn:E.
      * apply existsb_elem in E. exfalso. eapply Hb; [|done]. left.
      * apply IH. intros w Hw. apply Hb. by right.
Qed.

(** ** Properties *)

(** Every well-formed message of either version encodes, and the dispatching
    decoder reads the encoding back as the same message of the same version. *)
Theorem wire_roundtrip (d : DecodedWireMessage) (Hwf : decoded_wf d) :
  ∃ b, decoded_encode d = Ok b ∧ decode_wire_message b = Ok d.
Proof.
  destruct (decoded_encode_ok d Hwf) as [b Hb]. exists b.
  split; [done|]. by apply decode_wire_message_encode.
Qed.

Definition sample_v1 : WireMessage :=
  {| w1_version := 1; w1_suite_id := 1; w1_sender_dh_pub := replicate 32 x01; w1_msg_num := 7;
     w1_prev_chain_len := 2; w1_pq_step_ct := Some [x02]; w1_pq_target_pub_hash := None;
     w1_pq_next_public_key := Some [x03; x04]; w1_aead_nonce := replicate 12 x05;
     w1_ciphertext := [x06] |}.

Definition sample_header : HeaderPlaintext :=
  {| h_sender_dh_pub := replicate 32 x01; h_msg_num := 7; h_prev_chain_len := 2;
     h_pq_step_ct := None; h_pq_target_pub_hash := Some [x02]; h_pq_next_public_key := None |}.

Lemma wire_roundtrip_witness :
  ∃ b, decoded_encode (V1 sample_v1) = Ok b ∧ decode_wire_message b = Ok (V1 sample_v1).
Proof. apply (wire_roundtrip (V1 sample_v1)). split; vm_compute; congruence. Defined.

(** C37: whatever octets the dispatching decoder accepts, it returns a message
    whose fields have their declared widths, and that message has a canonical
    encoding that decodes to it again: decoding is the identity on its own
    canonical form, for adversarial input as well. *)
Theorem wire_decode_canonical (input : bytes) (d : DecodedWireMessage)
    (H : decode_wire_message input = Ok d) :
  decoded_wf d ∧ ∃ b, decoded_encode d = Ok b ∧ decode_wire_message b = Ok d.
Proof.
  assert (Hwf : decoded_wf d) by (by eapply decode_wire_message_wf).
  split; [done|]. destruct (decoded_encode_ok d Hwf) as [b Hb]. exists b.
  split; [done|]. by apply decode_wire_message_encode.
Qed.

Lemma wire_decode_canonical_witness :
  ∃ input d, decode_wire_message input = Ok d ∧ decoded_wf d.
Proof.
  destruct (decoded_encode (V1 sample_v1)) as [b|] eqn:E; [|vm_compute in E; congruence].
  exists b, (V1 sample_v1).
  assert (Hd : decode_wire_message b = Ok (V1 sample_v1)).
  { vm_compute in E. injection E as <-. vm_compute. reflexivity. }
  split; [exact Hd|]. apply (wire_decode_canonical b (V1 sample_v1) Hd).
Defined.

(** An encrypted header is read back by the holder of the key: for every
    well-formed header, its encoding exists, encryption keeps the length, and
    trial decryption under the same key returns exactly that header. *)
Theorem header_roundtrip (P : Primitives) (L : PrimitiveLaws P) (hk : bytes) (h : HeaderPlaintext)
    (Hwf : HeaderPlaintext_wf h) :
  ∃ b, HeaderPlaintext_encode h = Ok b ∧ length (encrypt_header hk b) = length b ∧
    try_decrypt_header hk (encrypt_header hk b) = Some h.
Proof.
  destruct (HeaderPlaintext_encode_ok h Hwf) as [b Hb]. exists b. split; [done|]. split.
  - apply length_encrypt_header.
  - by apply try_decrypt_encrypt_header.
Qed.

Lemma header_roundtrip_witness :
  ∃ b, HeaderPlaintext_encode sample_header = Ok b ∧
    length (encrypt_header (replicate 32 x07) b) = length b ∧
    try_decrypt_header (replicate 32 x07) (encrypt_header (replicate 32 x07) b) = Some sample_header.
Proof.
  apply (header_roundtrip Toy ToyLaws (replicate 32 x07) sample_header).
  repeat split; vm_compute; (reflexivity || discriminate).
Defined.

(** The capability lists of a prekey bundle have one reading: the octets
    decode to a list precisely when the list encodes to them and holds only
    registered suites (respectively wire versions 1 and 2). *)
Theorem capability_lists_iff (input : bytes) (l : list N) :
  (SupportedSuites_decode input = Ok l ↔
     SupportedSuites_encode l = input ∧ Forall (λ i, is_ok (from_suite_id i) = true) l) ∧
  (SupportedWireVersions_decode input = Ok l ↔
     SupportedWireVersions_encode l = input ∧
     Forall (λ v, v = WIRE_VERSION ∨ v = WIRE_VERSION_V2) l).
Proof.
  split.
  - unfold SupportedSuites_decode. cbv zeta. rewrite capability_list_iff.
    + unfold SupportedSuites_encode. f_equiv. apply Forall_iff_eq. intros x.
      by destruct (from_suite_id x).
    + intros x Hx. pose proof (from_suite_id_ok x) as Hk. destruct (from_suite_id x); [|done].
      symmetry in Hk. by apply orb_true_iff in Hk as [->%N.eqb_eq | ->%N.eqb_eq].
  - unfold SupportedWireVersions_decode. cbv zeta. rewrite capability_list_iff.
    + unfold SupportedWireVersions_encode. f_equiv. apply Forall_iff_eq. intros x.
      destruct (N.eqb_spec x WIRE_VERSION), (N.eqb_spec x WIRE_VERSION_V2); naive_solver.
    + intros x. destruct (N.eqb_spec x WIRE_VERSION); [by subst|].
      by destruct (N.eqb_spec x WIRE_VERSION_V2); [subst|].
Qed.

(** Negotiation picks the first local preference the peer also lists, and
    fails exactly when the lists have nothing in common; two peers that
    advertise the suites of their profiles agree on the same suite in both
    directions, and both profiles allow it. *)
Theorem negotiation_spec (F : Features) (local remote : list N) (p q : SecurityProfile) :
  (∀ v, SupportedSuites_negotiate local remote = Some v ↔
     ∃ before after, local = before ++ v :: after ∧ v ∈ remote ∧ ∀ w, w ∈ before → w ∉ remote) ∧
  (SupportedSuites_negotiate local remote = None ↔ ∀ v, v ∈ local → v ∉ remote) ∧
  (∃ s, SupportedSuites_negotiate (SupportedSuites_for_profile p) (SupportedSuites_for_profile q) = Some s ∧
        SupportedSuites_negotiate (SupportedSuites_for_profile q) (SupportedSuites_for_profile p) = Some s ∧
        allows_suite_id p s = true ∧ allows_suite_id q s = true).
Proof.
  split; [intros; apply negotiate_some|]. split; [split|].
  - intros H v Hv. rewrite <- existsb_elem. intros Hr.
    apply list_elem_of_In, (List.find_none _ _ H) in Hv. congruence.
  - intros H. destruct (SupportedSuites_negotiate local remote) as [v|] eqn:E; [|done].
    apply negotiate_some in E as (bf & af & -> & Hr & _). exfalso. eapply H; [|done]. set_solver.
  - exists DEFAULT_SUITE_ID. unfold SupportedSuites_for_profile, allows_suite_id.
    by destruct is_fips_mode, p, q.
Qed.

(** The negotiated wire version is the first local preference, not the highest
    common one, when a peer's list is in ascending order. *)
Lemma wire_version_first_preference :
  SupportedWireVersions_decode (SupportedWireVersions_encode [WIRE_VERSION; WIRE_VERSION_V2])
    = Ok [WIRE_VERSION; WIRE_VERSION_V2] ∧
  SupportedWireVersions_negotiate [WIRE_VERSION; WIRE_VERSION_V2] SupportedWireVersions_v1_and_v2
    = Some WIRE_VERSION ∧
  WIRE_VERSION_V2 ∈ [WIRE_VERSION; WIRE_VERSION_V2] ∧
  WIRE_VERSION_V2 ∈ SupportedWireVersions_v1_and_v2.
Proof. split_and!; [done..| |]; unfold SupportedWireVersions_v1_and_v2; set_solver. Qed.
