(* ===== verification/Ratchet.v ===== *)
(** * Symmetric chains and skipped keys ([pqmsg-core/src/ratchet/mod.rs])

    A chain derives one message key per step; keys of messages that have not
    arrived yet wait in a bounded first-in first-out cache. The cache keeps a
    queue and a map in step; it is shown to refine an association list. *)

From S2P Require Import Prelude Bytes Errors Crypto Toy.
Local Open Scope N_scope.

Definition INFO_CHAIN_STEP : bytes := lit "pqmsg-ratchet-chain-step".
Definition INFO_ROOT_STEP : bytes := lit "pqmsg-ratchet-root-step".

Definition MAX_SKIPPED_KEYS_UPPER_BOUND : N := 2048.

(** ** Chains *)

Record ChainState := mkChain { chain_key : bytes; next_msg_num : N }.

#[export] Instance ChainState_eq_decision : EqDecision ChainState.
Proof. solve_decision. Defined.

Definition ChainState_new (chain_key : bytes) : ChainState := mkChain chain_key 0.

Definition ChainState_reset (c : ChainState) (chain_key : bytes) : ChainState := mkChain chain_key 0.

Definition ChainState_from_parts (chain_key : bytes) (next_msg_num : N) : ChainState :=
  mkChain chain_key next_msg_num.

Record RootStepOutput := { rs_root_key : bytes; rs_chain_key : bytes; rs_header_key : bytes }.

Section Chain.
Context `{P : Primitives}.

Definition next_message_key : SM ChainState CoreError (N * bytes) :=
  λ c, match hkdf_sha256 (chain_key c) None INFO_CHAIN_STEP 64 with
       | Err e => (c, Err e)
       | Ok okm =>
           let message_key := take 32 okm in
           let next_chain_key := drop 32 okm in
           let msg_num := next_msg_num c in
           if msg_num =? u32_max
           then (c, Err (PolicyViolation "chain exhausted: message counter overflow"))
           else (mkChain next_chain_key (msg_num + 1), Ok (msg_num, message_key))
       end.

Definition kdf_root_step (root_key dh_output : bytes) : res RootStepOutput :=
  let? okm := hkdf_sha256 dh_output (Some root_key) INFO_ROOT_STEP 96 in
  Ok {| rs_root_key := take 32 okm;
        rs_chain_key := take 32 (drop 32 okm);
        rs_header_key := take 32 (drop 64 okm) |}.

Definition dh_root_step (root_key local_secret remote_public : bytes) : res RootStepOutput :=
  kdf_root_step root_key (diffie_hellman local_secret remote_public).

(** The keys of a chain as functions of its start: [chain_at ck n] is the chain
    key after [n] steps, [message_key_at ck n] the key of message [n]. *)
Definition chain_okm (ck : bytes) : bytes := default [] (hkdf None ck INFO_CHAIN_STEP 64).

Fixpoint chain_at (ck : bytes) (n : nat) : bytes :=
  match n with
  | O => ck
  | S n => drop 32 (chain_okm (chain_at ck n))
  end.

Definition message_key_at (ck : bytes) (n : nat) : bytes := take 32 (chain_okm (chain_at ck n)).

Context `{!PrimitiveLaws P}.

Lemma next_message_key_ok (c : ChainState) :
  next_msg_num c < u32_max →
  next_message_key c =
    (mkChain (drop 32 (chain_okm (chain_key c))) (next_msg_num c + 1),
     Ok (next_msg_num c, take 32 (chain_okm (chain_key c)))).
Proof.
  intros Hn. unfold next_message_key, hkdf_sha256, chain_okm.
  destruct (hkdf_defined None (chain_key c) INFO_CHAIN_STEP 64 ltac:(lia)) as [k Hk].
  rewrite Hk. simpl. by replace (next_msg_num c =? u32_max) with false
    by (symmetry; apply N.eqb_neq; lia).
Qed.

Lemma next_message_key_exhausted (c : ChainState) :
  next_msg_num c = u32_max →
  next_message_key c = (c, Err (PolicyViolation "chain exhausted: message counter overflow")).
Proof.
  intros Hn. unfold next_message_key, hkdf_sha256.
  destruct (hkdf_defined None (chain_key c) INFO_CHAIN_STEP 64 ltac:(lia)) as [k Hk].
  rewrite Hk. simpl. by rewrite Hn.
Qed.

Lemma length_chain_okm (ck : bytes) : length (chain_okm ck) = 64%nat.
Proof.
  unfold chain_okm. destruct (hkdf_defined None ck INFO_CHAIN_STEP 64 ltac:(lia)) as [k Hk].
  rewrite Hk. simpl. by eapply hkdf_length.
Qed.

Lemma length_message_key_at (ck : bytes) (n : nat) : length (message_key_at ck n) = 32%nat.
Proof. unfold message_key_at. rewrite length_take, length_chain_okm. lia. Qed.

Lemma length_chain_at (ck : bytes) (n : nat) :
  length ck = 32%nat → length (chain_at ck n) = 32%nat.
Proof. destruct n; [done|]. intros _. simpl. rewrite length_drop, length_chain_okm. lia. Qed.

Lemma kdf_root_step_ok (rk dh : bytes) :
  ∃ out, kdf_root_step rk dh = Ok out ∧ length (rs_root_key out) = 32%nat ∧
    length (rs_chain_key out) = 32%nat ∧ length (rs_header_key out) = 32%nat.
Proof.
  unfold kdf_root_step.
  destruct (hkdf_sha256_ok dh (Some rk) INFO_ROOT_STEP 96 ltac:(lia)) as (k & -> & Hk).
  eexists. split; [done|]. simpl. rewrite !length_take, !length_drop, Hk. lia.
Qed.

Lemma dh_root_step_ok (rk sk pk : bytes) :
  ∃ out, dh_root_step rk sk pk = Ok out ∧ length (rs_root_key out) = 32%nat ∧
    length (rs_chain_key out) = 32%nat ∧ length (rs_header_key out) = 32%nat.
Proof. apply kdf_root_step_ok. Qed.
End Chain.

(** ** The cache of skipped keys *)

Record SkippedKeyId := { sk_dh_pub : bytes; sk_msg_num : N }.

#[export] Instance SkippedKeyId_eq_decision : EqDecision SkippedKeyId.
Proof. solve_decision. Defined.

#[export] Instance SkippedKeyId_countable : Countable SkippedKeyId.
Proof.
  apply (inj_countable' (λ k, (sk_dh_pub k, sk_msg_num k))
           (λ p, {| sk_dh_pub := p.1; sk_msg_num := p.2 |})). by intros [].
Defined.

Record SkippedMessageKeys := mkSkipped {
  sk_max_entries : N;
  sk_order : list SkippedKeyId;
  sk_map : gmap SkippedKeyId bytes;
}.

Definition SkippedMessageKeys_new (max_entries : N) : SkippedMessageKeys :=
  mkSkipped (max_entries `min` MAX_SKIPPED_KEYS_UPPER_BOUND) [] ∅.

(** [order.pop_front()] and the removal of the evicted key. *)
Definition evict_front (s : SkippedMessageKeys) : SkippedMessageKeys :=
  match sk_order s with
  | [] => s
  | evicted :: rest => mkSkipped (sk_max_entries s) rest (delete evicted (sk_map s))
  end.

Definition skipped_insert (s : SkippedMessageKeys) (key_id : SkippedKeyId) (key : bytes)
    : SkippedMessageKeys :=
  if sk_max_entries s =? 0 then s else
  if bool_decide (is_Some (sk_map s !! key_id)) then s else
  let s := if sk_max_entries s <=? N.of_nat (length (sk_order s)) then evict_front s else s in
  mkSkipped (sk_max_entries s) (sk_order s ++ [key_id]) (<[key_id := key]> (sk_map s)).

Definition skipped_take (s : SkippedMessageKeys) (key_id : SkippedKeyId)
    : SkippedMessageKeys * option bytes :=
  let order :=
    match list_find (λ entry, entry = key_id) (sk_order s) with
    | Some (pos, _) => delete pos (sk_order s)
    | None => sk_order s
    end in
  (mkSkipped (sk_max_entries s) order (delete key_id (sk_map s)), sk_map s !! key_id).

Definition skipped_entries (s : SkippedMessageKeys) : list (SkippedKeyId * bytes) :=
  omap (λ key_id, (λ v, (key_id, v)) <$> sk_map s !! key_id) (sk_order s).

Definition skipped_from_entries (max_entries : N) (es : list (SkippedKeyId * bytes)) : SkippedMessageKeys :=
  foldl (λ state e, skipped_insert state e.1 e.2) (SkippedMessageKeys_new max_entries) es.

(** *** What the cache promises

    A list of identified keys, oldest first, of bounded length: inserting a key
    that is present (or into a cache of size zero) does nothing, inserting into
    a full cache drops the oldest, taking removes. *)

Abbreviation Cache := (list (SkippedKeyId * bytes)).

Definition cache_insert (max : N) (es : Cache) (k : SkippedKeyId) (v : bytes) : Cache :=
  if max =? 0 then es else
  if bool_decide (k ∈ es.*1) then es else
  (if max <=? N.of_nat (length es) then tail es else es) ++ [(k, v)].

Fixpoint cache_find (es : Cache) (k : SkippedKeyId) : option bytes :=
  match es with
  | [] => None
  | (k', v) :: es => if decide (k' = k) then Some v else cache_find es k
  end.

Definition cache_take (es : Cache) (k : SkippedKeyId) : Cache * option bytes :=
  (filter (λ e, e.1 ≠ k) es, cache_find es k).

(** Queue and map hold the same keys, each once, within the bound. *)
Record skipped_inv (s : SkippedMessageKeys) : Prop := {
  skipped_nodup : NoDup (sk_order s);
  skipped_dom : ∀ k, k ∈ sk_order s ↔ is_Some (sk_map s !! k);
  skipped_len : N.of_nat (length (sk_order s)) ≤ sk_max_entries s;
  skipped_max : sk_max_entries s ≤ MAX_SKIPPED_KEYS_UPPER_BOUND;
}.

(** *** The queue seen through the map *)

Definition pairs_of (m : gmap SkippedKeyId bytes) (ks : list SkippedKeyId) : Cache :=
  omap (λ k, (λ v, (k, v)) <$> m !! k) ks.

Lemma pairs_of_unfold (m : gmap SkippedKeyId bytes) (k : SkippedKeyId) (ks : list SkippedKeyId) :
  pairs_of m (k :: ks) =
    match m !! k with Some v => (k, v) :: pairs_of m ks | None => pairs_of m ks end.
Proof. unfold pairs_of. simpl. by destruct (m !! k). Qed.

Lemma pairs_of_cons (m : gmap SkippedKeyId bytes) (k : SkippedKeyId) (v : bytes)
    (ks : list SkippedKeyId) :
  m !! k = Some v → pairs_of m (k :: ks) = (k, v) :: pairs_of m ks.
Proof. intros H. by rewrite pairs_of_unfold, H. Qed.

Lemma pairs_of_ext (m1 m2 : gmap SkippedKeyId bytes) (ks : list SkippedKeyId) :
  (∀ k, k ∈ ks → m1 !! k = m2 !! k) → pairs_of m1 ks = pairs_of m2 ks.
Proof.
  induction ks as [|k ks IH]; intros H; [done|]. rewrite !pairs_of_unfold.
  rewrite (H k) by left. rewrite IH; [done|]. intros k' Hk'. apply H. by right.
Qed.

Lemma pairs_of_fst (m : gmap SkippedKeyId bytes) (ks : list SkippedKeyId) :
  (∀ k, k ∈ ks → is_Some (m !! k)) → (pairs_of m ks).*1 = ks.
Proof.
  induction ks as [|k ks IH]; intros H; [done|].
  destruct (H k ltac:(left)) as [v Hv]. rewrite (pairs_of_cons _ _ _ _ Hv). simpl.
  f_equal. apply IH. intros k' Hk'. apply H. by right.
Qed.

Lemma pairs_of_find (m : gmap SkippedKeyId bytes) (ks : list SkippedKeyId) (k : SkippedKeyId) :
  (∀ k', k' ∈ ks → is_Some (m !! k')) →
  cache_find (pairs_of m ks) k = if decide (k ∈ ks) then m !! k else None.
Proof.
  induction ks as [|k0 ks IH]; intros H; [done|].
  destruct (H k0 ltac:(left)) as [v Hv]. rewrite (pairs_of_cons _ _ _ _ Hv). simpl.
  rewrite IH by (intros k' Hk'; apply H; by right).
  destruct (decide (k0 = k)) as [->|Hne].
  - by rewrite decide_True by left.
  - by destruct (decide (k ∈ ks)), (decide (k ∈ k0 :: ks)); set_solver.
Qed.

Lemma skipped_entries_fst (s : SkippedMessageKeys) :
  skipped_inv s → (skipped_entries s).*1 = sk_order s.
Proof. intros H. apply pairs_of_fst. intros k. by apply skipped_dom. Qed.

Lemma skipped_entries_length (s : SkippedMessageKeys) :
  skipped_inv s → length (skipped_entries s) = length (sk_order s).
Proof. intros H. by rewrite <- (length_fmap fst), skipped_entries_fst. Qed.

(** Removing the first occurrence by position, in a queue without duplicates. *)
Lemma remove_position (ks : list SkippedKeyId) (k : SkippedKeyId) :
  NoDup ks →
  match list_find (λ entry, entry = k) ks with
  | Some (pos, _) => delete pos ks
  | None => ks
  end = filter (λ k', k' ≠ k) ks.
Proof.
  induction 1 as [|k0 ks Hn Hd IH]; [done|]. rewrite filter_cons. simpl.
  destruct (decide (k0 = k)) as [->|Hne].
  - rewrite decide_False by (intros Hf; by apply Hf). simpl. symmetry. clear IH Hd.
    apply filter_all. by intros x Hx ->.
  - rewrite decide_True by done. rewrite <- IH.
    destruct (list_find _ ks) as [[pos x]|]; done.
Qed.

(** *** Each operation preserves the invariant and refines its counterpart *)

Lemma skipped_new_inv (n : N) : skipped_inv (SkippedMessageKeys_new n).
Proof.
  split; simpl; [constructor| |lia|lia].
  intros k. rewrite lookup_empty. split; [set_solver|by intros []].
Qed.

Lemma evict_front_inv (s : SkippedMessageKeys) : skipped_inv s → skipped_inv (evict_front s).
Proof.
  intros [Hn Hd Hl Hm]. unfold evict_front. destruct (sk_order s) as [|e rest] eqn:E.
  { split; rewrite ?E; [constructor|done|done|done]. }
  apply list.NoDup_cons in Hn as [Hne Hn]. split; simpl; [done| |simpl in Hl; lia|done].
  intros k. destruct (decide (k = e)) as [->|Hke].
  - rewrite lookup_delete_eq. split; [done|by intros []].
  - rewrite lookup_delete_ne by done. rewrite <- Hd. set_solver.
Qed.

Lemma evict_front_entries (s : SkippedMessageKeys) :
  skipped_inv s → skipped_entries (evict_front s) = tail (skipped_entries s).
Proof.
  intros [Hn Hd Hl Hm]. unfold evict_front, skipped_entries.
  destruct (sk_order s) as [|e rest] eqn:E; [by rewrite E|].
  apply list.NoDup_cons in Hn as [Hne Hn].
  destruct (proj1 (Hd e) ltac:(left)) as [v Hv].
  change (pairs_of (delete e (sk_map s)) rest = tail (pairs_of (sk_map s) (e :: rest))).
  rewrite (pairs_of_cons _ _ _ _ Hv). simpl. apply pairs_of_ext.
  intros k Hk. apply lookup_delete_ne. by intros ->.
Qed.

(** The cache after making room, still without the new key. *)
Lemma make_room (s : SkippedMessageKeys) (k : SkippedKeyId) :
  skipped_inv s → sk_max_entries s ≠ 0 → sk_map s !! k = None →
  let s' := if sk_max_entries s <=? N.of_nat (length (sk_order s)) then evict_front s else s in
  skipped_inv s' ∧ sk_max_entries s' = sk_max_entries s ∧
  N.of_nat (length (sk_order s')) < sk_max_entries s ∧ sk_map s' !! k = None.
Proof.
  intros Hinv H0 Hk. pose proof (skipped_len s Hinv) as Hl. simpl.
  destruct (N.leb_spec (sk_max_entries s) (N.of_nat (length (sk_order s)))) as [Hle|Hlt]; [|done].
  split; [by apply evict_front_inv|]. unfold evict_front.
  destruct (sk_order s) as [|e rest]; simpl in *; [lia|]. split_and!; [done|lia|].
  destruct (decide (e = k)) as [->|Hne]; [apply lookup_delete_eq|].
  by rewrite lookup_delete_ne.
Qed.

Lemma skipped_insert_inv (s : SkippedMessageKeys) (k : SkippedKeyId) (v : bytes) :
  skipped_inv s → skipped_inv (skipped_insert s k v).
Proof.
  intros Hinv. unfold skipped_insert. destruct (N.eqb_spec (sk_max_entries s) 0) as [|H0]; [done|].
  case_bool_decide as Hk; [done|]. apply eq_None_not_Some in Hk.
  pose proof (make_room s k Hinv H0 Hk) as ([Hn Hd Hl Hm] & Hmax & Hlt & Hk').
  set (s' := if _ <=? _ then evict_front s else s) in *.
  assert (Hnk : k ∉ sk_order s') by (rewrite Hd, Hk'; by intros []).
  split; simpl; [| |rewrite length_app; simpl; lia|done].
  - apply list.NoDup_app. split_and!; [done|set_solver|apply NoDup_singleton].
  - intros k'. destruct (decide (k' = k)) as [->|Hne].
    + rewrite lookup_insert_eq. split; [eauto|]. set_solver.
    + rewrite lookup_insert_ne by done. rewrite <- Hd. set_solver.
Qed.

Lemma skipped_insert_entries (s : SkippedMessageKeys) (k : SkippedKeyId) (v : bytes) :
  skipped_inv s →
  skipped_entries (skipped_insert s k v) = cache_insert (sk_max_entries s) (skipped_entries s) k v.
Proof.
  intros Hinv. unfold skipped_insert, cache_insert.
  destruct (N.eqb_spec (sk_max_entries s) 0) as [|H0]; [done|].
  rewrite skipped_entries_fst, skipped_entries_length by done.
  rewrite (bool_decide_ext _ _ (skipped_dom s Hinv k)).
  case_bool_decide as Hk; [done|]. apply eq_None_not_Some in Hk.
  pose proof (make_room s k Hinv H0 Hk) as (Hinv' & _ & _ & Hk').
  set (s' := if _ <=? _ then evict_front s else s) in *.
  assert (Hnk : k ∉ sk_order s') by (rewrite (skipped_dom _ Hinv'), Hk'; by intros []).
  transitivity (skipped_entries s' ++ [(k, v)]).
  - unfold skipped_entries. simpl. rewrite omap_app. f_equal.
    + apply pairs_of_ext. intros k' Hin. apply lookup_insert_ne. by intros ->.
    + simpl. by rewrite lookup_insert_eq.
  - f_equal. unfold s'. destruct (_ <=? _); [by apply evict_front_entries|done].
Qed.

Lemma skipped_take_inv (s : SkippedMessageKeys) (k : SkippedKeyId) :
  skipped_inv s → skipped_inv (skipped_take s k).1.
Proof.
  intros [Hn Hd Hl Hm]. unfold skipped_take. rewrite remove_position by done.
  split; simpl; [by apply list.NoDup_filter| | |done].
  - intros k'. rewrite list_elem_of_filter, Hd. destruct (decide (k' = k)) as [->|Hne].
    + rewrite lookup_delete_eq. split; [by intros []|by intros []].
    + rewrite lookup_delete_ne by done. naive_solver.
  - pose proof (length_filter (λ k', k' ≠ k) (sk_order s)). lia.
Qed.

Lemma pairs_of_delete (m : gmap SkippedKeyId bytes) (ks : list SkippedKeyId) (k : SkippedKeyId) :
  pairs_of (delete k m) (filter (λ k', k' ≠ k) ks) = filter (λ e, e.1 ≠ k) (pairs_of m ks).
Proof.
  induction ks as [|k0 ks IH]; [done|]. rewrite (filter_cons _ k0), pairs_of_unfold.
  destruct (decide (k0 ≠ k)) as [Hne|He].
  - rewrite pairs_of_unfold, lookup_delete_ne by congruence.
    destruct (m !! k0); [|done]. by rewrite filter_cons_True, IH.
  - destruct (m !! k0); [|done]. by rewrite filter_cons_False.
Qed.

Lemma skipped_take_refines (s : SkippedMessageKeys) (k : SkippedKeyId) :
  skipped_inv s →
  (skipped_entries (skipped_take s k).1, (skipped_take s k).2) = cache_take (skipped_entries s) k.
Proof.
  intros Hinv. pose proof Hinv as [Hn Hd _ _]. unfold skipped_take, cache_take. f_equal.
  - simpl. rewrite remove_position by done. apply pairs_of_delete.
  - change (skipped_entries s) with (pairs_of (sk_map s) (sk_order s)).
    rewrite pairs_of_find by (intros k'; apply Hd). simpl.
    destruct (decide (k ∈ sk_order s)) as [|Hk]; [done|]. rewrite Hd in Hk.
    by apply eq_None_not_Some.
Qed.

(** A state that satisfies the invariant is determined by its bound and its
    entries. *)
Lemma skipped_lookup (s : SkippedMessageKeys) (k : SkippedKeyId) :
  skipped_inv s → sk_map s !! k = cache_find (skipped_entries s) k.
Proof.
  intros Hinv. apply (skipped_take_refines s k) in Hinv as H. by apply (f_equal snd) in H.
Qed.

Lemma skipped_ext (s1 s2 : SkippedMessageKeys) :
  skipped_inv s1 → skipped_inv s2 → sk_max_entries s1 = sk_max_entries s2 →
  skipped_entries s1 = skipped_entries s2 → s1 = s2.
Proof.
  intros H1 H2 Hm He.
  assert (Ho : sk_order s1 = sk_order s2) by (by rewrite <- !skipped_entries_fst, He).
  assert (Hmap : sk_map s1 = sk_map s2) by (apply map_eq; intros k; by rewrite !skipped_lookup, He).
  destruct s1, s2. simpl in *. by subst.
Qed.

Lemma skipped_insert_max (s : SkippedMessageKeys) (k : SkippedKeyId) (v : bytes) :
  sk_max_entries (skipped_insert s k v) = sk_max_entries s.
Proof.
  unfold skipped_insert. repeat case_match; try done.
  unfold evict_front. by destruct (sk_order s).
Qed.

Lemma cache_insert_fresh (max : N) (es : Cache) (k : SkippedKeyId) (v : bytes) :
  k ∉ es.*1 → N.of_nat (length es) < max → cache_insert max es k v = es ++ [(k, v)].
Proof.
  intros Hk Hl. unfold cache_insert.
  replace (max =? 0) with false by (symmetry; apply N.eqb_neq; lia).
  rewrite bool_decide_false by done.
  by replace (max <=? N.of_nat (length es)) with false by (symmetry; apply N.leb_gt; lia).
Qed.

(** Replaying distinct entries that fit into a state appends them. *)
Lemma foldl_insert (es : Cache) (s : SkippedMessageKeys) :
  skipped_inv s → NoDup (skipped_entries s ++ es).*1 →
  N.of_nat (length (skipped_entries s ++ es)) ≤ sk_max_entries s →
  let s' := foldl (λ state e, skipped_insert state e.1 e.2) s es in
  skipped_inv s' ∧ sk_max_entries s' = sk_max_entries s ∧
  skipped_entries s' = skipped_entries s ++ es.
Proof.
  revert s. induction es as [|[k v] es IH]; intros s Hinv Hnd Hl; simpl.
  { by rewrite app_nil_r. }
  assert (He : skipped_entries (skipped_insert s k v) = skipped_entries s ++ [(k, v)]).
  { rewrite skipped_insert_entries by done. apply cache_insert_fresh.
    - rewrite fmap_app in Hnd. apply list.NoDup_app in Hnd as (_ & Hd & _).
      intros Hk. eapply Hd; [exact Hk|]. left.
    - rewrite length_app in Hl. simpl in Hl. lia. }
  edestruct (IH (skipped_insert s k v)) as (? & Hm & He').
  - by apply skipped_insert_inv.
  - by rewrite He, <- app_assoc.
  - by rewrite He, <- app_assoc, skipped_insert_max.
  - rewrite Hm, He', He, <- app_assoc, skipped_insert_max. done.
Qed.

Lemma skipped_from_entries_roundtrip (s : SkippedMessageKeys) :
  skipped_inv s → skipped_from_entries (sk_max_entries s) (skipped_entries s) = s.
Proof.
  intros Hinv. unfold skipped_from_entries. pose proof Hinv as [Hn _ Hl Hm].
  destruct (foldl_insert (skipped_entries s) (SkippedMessageKeys_new (sk_max_entries s)))
    as (Hi & Hmax & He).
  - apply skipped_new_inv.
  - simpl. by rewrite skipped_entries_fst.
  - simpl. rewrite skipped_entries_length by done. lia.
  - apply skipped_ext; [done|done| |done]. rewrite Hmax. simpl. lia.
Qed.

(** ** Properties *)

Inductive CacheOp := OpInsert (k : SkippedKeyId) (v : bytes) | OpTake (k : SkippedKeyId).

(** A sequence of calls and the results of its [take] calls, on the two-part
    cache and on the association list. *)
Fixpoint run_skipped (ops : list CacheOp) (s : SkippedMessageKeys)
    : SkippedMessageKeys * list (option bytes) :=
  match ops with
  | [] => (s, [])
  | OpInsert k v :: ops => run_skipped ops (skipped_insert s k v)
  | OpTake k :: ops =>
      let '(s, o) := skipped_take s k in
      let '(s, os) := run_skipped ops s in (s, o :: os)
  end.

Fixpoint run_cache (max : N) (ops : list CacheOp) (es : Cache) : Cache * list (option bytes) :=
  match ops with
  | [] => (es, [])
  | OpInsert k v :: ops => run_cache max ops (cache_insert max es k v)
  | OpTake k :: ops =>
      let '(es, o) := cache_take es k in
      let '(es, os) := run_cache max ops es in (es, o :: os)
  end.

Lemma run_skipped_refines (ops : list CacheOp) (s : SkippedMessageKeys) :
  skipped_inv s →
  let '(s', os) := run_skipped ops s in
  skipped_inv s' ∧ sk_max_entries s' = sk_max_entries s ∧
  run_cache (sk_max_entries s) ops (skipped_entries s) = (skipped_entries s', os).
Proof.
  revert s. induction ops as [|[k v|k] ops IH]; intros s Hinv; cbn [run_skipped run_cache]; [done| |].
  - specialize (IH (skipped_insert s k v) (skipped_insert_inv s k v Hinv)).
    destruct (run_skipped ops _) as [s' os]. destruct IH as (? & Hm & Hr).
    rewrite skipped_insert_max in Hm, Hr. by rewrite <- skipped_insert_entries.
  - pose proof (skipped_take_inv s k Hinv) as Hinv'. pose proof (skipped_take_refines s k Hinv) as He.
    destruct (cache_take (skipped_entries s) k) as [es o] eqn:Ec.
    destruct (skipped_take s k) as [s1 o1] eqn:Es. cbn [fst snd] in *. injection He as <- <-.
    specialize (IH s1 Hinv'). destruct (run_skipped ops s1) as [s' os].
    destruct IH as (? & Hm & Hr).
    assert (Hmax : sk_max_entries s1 = sk_max_entries s)
      by (unfold skipped_take in Es; injection Es as <- _; done).
    rewrite Hmax in Hm, Hr. by rewrite Hr.
Qed.

(** C26: the cache of skipped keys refines a bounded first-in first-out
    association list. Any sequence of insertions and removals on a new cache
    returns the same keys as the list, leaves the same entries in the same
    order, never holds more than the requested number of keys (nor more than
    2048), and its queue and map hold the same identifiers, each once. *)
Theorem skipped_refinement (max : N) (ops : list CacheOp) :
  let '(s, os) := run_skipped ops (SkippedMessageKeys_new max) in
  run_cache (max `min` 2048) ops [] = (skipped_entries s, os) ∧
  N.of_nat (length (skipped_entries s)) ≤ max `min` 2048 ∧
  NoDup (sk_order s) ∧ ∀ k, k ∈ sk_order s ↔ is_Some (sk_map s !! k).
Proof.
  pose proof (run_skipped_refines ops _ (skipped_new_inv max)) as H.
  destruct (run_skipped ops _) as [s os]. destruct H as (Hinv & Hm & Hr).
  rewrite skipped_entries_length by done. destruct Hinv as [Hn Hd Hl _].
  rewrite Hm in Hl. done.
Qed.

(** Saving and reloading the cache loses nothing: after any sequence of
    operations, rebuilding the cache from its entries gives the same cache. *)
Theorem skipped_reload (max : N) (ops : list CacheOp) :
  let s := (run_skipped ops (SkippedMessageKeys_new max)).1 in
  skipped_from_entries (sk_max_entries s) (skipped_entries s) = s.
Proof.
  pose proof (run_skipped_refines ops _ (skipped_new_inv max)) as H.
  destruct (run_skipped ops _) as [s os]. destruct H as (Hinv & _). simpl.
  by apply skipped_from_entries_roundtrip.
Qed.

(** Repeated calls of [next_message_key] and their results. *)
Fixpoint chain_run `{P : Primitives} (n : nat) (c : ChainState)
    : ChainState * list (res (N * bytes)) :=
  match n with
  | O => (c, [])
  | S n =>
      let '(c, rs) := chain_run n c in
      let '(c, r) := next_message_key c in (c, rs ++ [r])
  end.

(** A chain numbers its messages consecutively and never reuses a number.
    The first [n] calls, for any [n] up to the counter's maximum, return
    messages 0 to n-1, message [i] with the [i]-th key of the chain; once the
    counter is at its maximum every further call fails and leaves the chain as
    it is. *)
Theorem chain_run_keys (P : Primitives) (L : PrimitiveLaws P) (ck : bytes) (n : nat) :
  (N.of_nat n ≤ u32_max →
     chain_run n (ChainState_new ck) =
       (mkChain (chain_at ck n) (N.of_nat n),
        (λ i, Ok (N.of_nat i, message_key_at ck i)) <$> seq 0 n)) ∧
  (∀ k, next_message_key (mkChain k u32_max) =
     (mkChain k u32_max, Err (PolicyViolation "chain exhausted: message counter overflow"))).
Proof.
  split; [|by intros k; apply next_message_key_exhausted].
  induction n as [|n IH]; intros Hn; [done|]. cbn [chain_run].
  rewrite IH by lia. rewrite next_message_key_ok by (simpl; lia). simpl next_msg_num.
  rewrite seq_S, fmap_app. simpl. do 2 f_equal. lia.
Qed.

Lemma chain_run_keys_witness :
  chain_run 3 (ChainState_new (lit "chain")) =
    (mkChain (chain_at (lit "chain") 3) 3,
     (λ i, Ok (N.of_nat i, message_key_at (lit "chain") i)) <$> seq 0 3).
Proof.
  apply (proj1 (chain_run_keys Toy ToyLaws (lit "chain") 3)). vm_compute. discriminate.
Defined.
