(* ===== verification/PqRatchet.v ===== *)
(** * The post-quantum ratchet ([pqmsg-core/src/ratchet/pq.rs])

    Every [interval] messages the sender encapsulates to the peer's last known
    public key, mixes the shared secret into the root key and rotates its own
    key pair, keeping the previous ones in a bounded history so that messages
    already under way can still be decapsulated. *)

From Stdlib Require Import Strings.Byte.
From S2P Require Import Prelude Bytes Errors Crypto Toy.
Local Open Scope N_scope.

Definition INFO_PQ_STEP : bytes := lit "pqmsg-ratchet-pq-step".

Definition DEFAULT_PQ_RATCHET_INTERVAL : N := 1.
Definition DEFAULT_PQ_RATCHET_KEY_HISTORY : N := 4.

Record PqLocalKeyRecord := mkPqRecord { rec_public_key : bytes; rec_secret_key : bytes }.

Record PqRatchetState := mkPqState {
  interval : N;
  local_public_key : bytes;
  local_secret_key : bytes;
  remote_public_key : bytes;
  local_key_history : list PqLocalKeyRecord;
  max_key_history : N;
  last_remote_update_msg_num : N;
}.

Record PqStepOutput := {
  step_ciphertext : bytes;
  step_root_key : bytes;
  step_target_public_key_hash : bytes;
  step_next_local_keypair : KemKeyPair;
}.

(** [msg_num + 1] cannot wrap: message numbers stop below [u32::MAX]. *)
Definition should_step (st : PqRatchetState) (msg_num : N) : bool :=
  (0 <? interval st) && ((msg_num + 1) mod interval st =? 0).

(** The key in use goes to the front of the history, which is then cut to its
    maximum length. *)
Definition commit_local_key_rotation (st : PqRatchetState) (next : KemKeyPair) : PqRatchetState :=
  {| interval := interval st;
     local_public_key := kem_public_key next;
     local_secret_key := kem_secret_key next;
     remote_public_key := remote_public_key st;
     local_key_history :=
       take (N.to_nat (max_key_history st))
         (mkPqRecord (local_public_key st) (local_secret_key st) :: local_key_history st);
     max_key_history := max_key_history st;
     last_remote_update_msg_num := last_remote_update_msg_num st |}.

Definition apply_remote_public_key_update (st : PqRatchetState) (next_remote_public_key : bytes)
    (msg_num : N) : PqRatchetState :=
  if last_remote_update_msg_num st <=? msg_num then
    {| interval := interval st;
       local_public_key := local_public_key st;
       local_secret_key := local_secret_key st;
       remote_public_key := next_remote_public_key;
       local_key_history := local_key_history st;
       max_key_history := max_key_history st;
       last_remote_update_msg_num := msg_num |}
  else st.

Definition reset_remote_update_tracking (st : PqRatchetState) : PqRatchetState :=
  {| interval := interval st;
     local_public_key := local_public_key st;
     local_secret_key := local_secret_key st;
     remote_public_key := remote_public_key st;
     local_key_history := local_key_history st;
     max_key_history := max_key_history st;
     last_remote_update_msg_num := 0 |}.

Section PqRatchet.
Context `{P : Primitives}.

Definition hash_public_key (public_key : bytes) : bytes := sha256 public_key.

Definition local_public_key_hash (st : PqRatchetState) : bytes :=
  hash_public_key (local_public_key st).

(** The loop over the history, newest first. *)
Fixpoint find_record (target : bytes) (history : list PqLocalKeyRecord) : res bytes :=
  match history with
  | [] => Err (MessageParsing "pq ratchet target key unavailable")
  | record :: history =>
      if bool_decide (hash_public_key (rec_public_key record) = target)
      then Ok (rec_secret_key record)
      else find_record target history
  end.

Definition select_local_secret_key (st : PqRatchetState) (target_public_key_hash : option bytes)
    : res bytes :=
  match target_public_key_hash with
  | None => Ok (local_secret_key st)
  | Some target =>
      if bool_decide (local_public_key_hash st = target)
      then Ok (local_secret_key st)
      else find_record target (local_key_history st)
  end.

Definition mix_root_with_pq (root_key ss_pq : bytes) : res bytes :=
  hkdf_sha256_32 ss_pq (Some root_key) INFO_PQ_STEP.

Definition sender_step (st : PqRatchetState) (kem : KemProvider) (root_key : bytes) (msg_num : N)
    (g : rng) : res (option PqStepOutput) * rng :=
  if negb (should_step st msg_num) then (Ok None, g) else
  match kem_encapsulate kem (remote_public_key st) g with
  | (Err e, g) => (Err e, g)
  | (Ok encapsulated, g) =>
      match mix_root_with_pq root_key (kem_shared_secret encapsulated) with
      | Err e => (Err e, g)
      | Ok next_root =>
          match kem_keypair kem g with
          | (Err e, g) => (Err e, g)
          | (Ok next_local_keypair, g) =>
              (Ok (Some {| step_ciphertext := kem_ciphertext encapsulated;
                           step_root_key := next_root;
                           step_target_public_key_hash := hash_public_key (remote_public_key st);
                           step_next_local_keypair := next_local_keypair |}), g)
          end
      end
  end.

(** The state is written only once everything that can fail has succeeded. *)
Definition receiver_step (kem : KemProvider) (root_key ciphertext : bytes)
    (target_public_key_hash next_remote_public_key : option bytes) (msg_num : N)
    : SM PqRatchetState CoreError bytes :=
  λ st,
    match select_local_secret_key st target_public_key_hash with
    | Err e => (st, Err e)
    | Ok secret_key =>
        match kem_decapsulate kem secret_key ciphertext with
        | Err e => (st, Err e)
        | Ok ss_pq =>
            match mix_root_with_pq root_key ss_pq with
            | Err e => (st, Err e)
            | Ok next_root =>
                let st := match next_remote_public_key with
                          | Some k => apply_remote_public_key_update st k msg_num
                          | None => st
                          end in
                (st, Ok next_root)
            end
        end
    end.

(** ** The keys a receiver can still use *)

(** The key pairs in the order they are tried. *)
Definition usable_keys (st : PqRatchetState) : list PqLocalKeyRecord :=
  mkPqRecord (local_public_key st) (local_secret_key st) :: local_key_history st.

Lemma select_find (st : PqRatchetState) (h : bytes) :
  select_local_secret_key st (Some h) = find_record h (usable_keys st).
Proof. unfold select_local_secret_key, usable_keys, local_public_key_hash. done. Qed.

Lemma find_record_some (h : bytes) (l : list PqLocalKeyRecord) (r : PqLocalKeyRecord) :
  r ∈ l → hash_public_key (rec_public_key r) = h →
  (∀ r', r' ∈ l → hash_public_key (rec_public_key r') = h → rec_secret_key r' = rec_secret_key r) →
  find_record h l = Ok (rec_secret_key r).
Proof.
  intros Hin Hh Hu. induction l as [|r0 l IH]; [set_solver|]. simpl.
  case_bool_decide as E; [by rewrite (Hu r0) by (set_solver || done)|].
  apply elem_of_cons in Hin as [->|Hin]; [done|]. apply IH; [done|]. intros r' Hr'.
  apply Hu. by right.
Qed.

Lemma find_record_none (h : bytes) (l : list PqLocalKeyRecord) :
  (∀ r, r ∈ l → hash_public_key (rec_public_key r) ≠ h) →
  find_record h l = Err (MessageParsing "pq ratchet target key unavailable").
Proof.
  induction l as [|r0 l IH]; intros Hn; [done|]. simpl.
  rewrite bool_decide_false by (apply Hn; left). apply IH. intros r Hr. apply Hn. by right.
Qed.

(** Rotating keeps the newest keys: after a rotation the usable keys are the
    new one and as many of the previous ones as the history admits. *)
Lemma usable_after_rotation (st : PqRatchetState) (kp : KemKeyPair) :
  usable_keys (commit_local_key_rotation st kp) =
    mkPqRecord (kem_public_key kp) (kem_secret_key kp) ::
    take (N.to_nat (max_key_history st)) (usable_keys st).
Proof. done. Qed.

(** A sequence of rotations, newest key last in the argument list. *)
Definition rotate_all (st : PqRatchetState) (kps : list KemKeyPair) : PqRatchetState :=
  foldl commit_local_key_rotation st kps.

Lemma rotate_all_max (kps : list KemKeyPair) (st : PqRatchetState) :
  max_key_history (rotate_all st kps) = max_key_history st.
Proof. revert st. induction kps as [|kp kps IH]; intros st; [done|]. simpl. by rewrite IH. Qed.

Lemma usable_after_rotations (st : PqRatchetState) (kps : list KemKeyPair) :
  (0 < length kps)%nat →
  usable_keys (rotate_all st kps) =
    take (S (N.to_nat (max_key_history st)))
      (reverse ((λ kp, mkPqRecord (kem_public_key kp) (kem_secret_key kp)) <$> kps) ++
       usable_keys st).
Proof.
  induction kps as [|kp kps IH] using rev_ind; [simpl; lia|]. intros _.
  unfold rotate_all. rewrite foldl_app. cbn [foldl]. rewrite usable_after_rotation.
  change (foldl commit_local_key_rotation st kps) with (rotate_all st kps).
  rewrite rotate_all_max, fmap_app, reverse_app. simpl. f_equal.
  destruct kps as [|kp' kps]; [done|]. rewrite IH by (simpl; lia).
  rewrite take_take. f_equal. lia.
Qed.
End PqRatchet.

(** ** Properties *)

(** A post-quantum step leaves both ends with the same root key. If the
    sender's step encapsulates to a public key whose pair is among the keys the
    receiver can still use, and no other usable key has that key's hash, then
    the receiver accepts the step, derives the very root key the sender
    derived, adopts the sender's next public key when the message is not older
    than the last update, and keeps its own keys. *)
Theorem pq_step_agreement (P : Primitives) (L : PrimitiveLaws P) (K : KemProvider)
    (KL : KemLaws K) (snd rcv : PqRatchetState) (root : bytes) (n : N) (g g' : rng)
    (out : PqStepOutput) (r : PqLocalKeyRecord)
    (Hstep : sender_step snd K root n g = (Ok (Some out), g'))
    (Hin : r ∈ usable_keys rcv)
    (Hpk : rec_public_key r = remote_public_key snd)
    (Hpair : kem_pair (rec_public_key r) (rec_secret_key r))
    (Huniq : ∀ r', r' ∈ usable_keys rcv →
       hash_public_key (rec_public_key r') = hash_public_key (rec_public_key r) →
       rec_secret_key r' = rec_secret_key r) :
  let next := kem_public_key (step_next_local_keypair out) in
  ∃ rcv', receiver_step K root (step_ciphertext out) (Some (step_target_public_key_hash out))
            (Some next) n rcv = (rcv', Ok (step_root_key out)) ∧
    usable_keys rcv' = usable_keys rcv ∧
    remote_public_key rcv' =
      if last_remote_update_msg_num rcv <=? n then next else remote_public_key rcv.
Proof.
  unfold sender_step in Hstep. destruct (negb (should_step snd n)); [done|].
  destruct (kem_encapsulate K (remote_public_key snd) g) as [[e|] g1] eqn:Ee; [|done].
  destruct (mix_root_with_pq root (kem_shared_secret e)) as [rk|] eqn:Em; [|done].
  destruct (kem_keypair K g1) as [[kp|] g2]; [|done]. injection Hstep as <- <-. simpl.
  rewrite Hpk in *. unfold receiver_step.
  rewrite select_find, (find_record_some _ _ r) by (rewrite ?Hpk; done).
  rewrite (kem_correct _ _ _ _ _ Hpair Ee), Em. eexists. split; [done|].
  unfold apply_remote_public_key_update. by destruct (last_remote_update_msg_num rcv <=? n).
Qed.

Definition toy_pq_state : PqRatchetState :=
  mkPqState 1 [x01] [x01] [x01] [] 4 0.

Lemma pq_step_agreement_witness :
  ∃ out g' rcv',
    sender_step toy_pq_state ToyKem [x07] 0 (0%N : @rng Toy) = (Ok (Some out), g') ∧
    receiver_step ToyKem [x07] (step_ciphertext out) (Some (step_target_public_key_hash out))
      (Some (kem_public_key (step_next_local_keypair out))) 0 toy_pq_state
      = (rcv', Ok (step_root_key out)).
Proof.
  destruct (sender_step toy_pq_state ToyKem [x07] 0 (0%N : @rng Toy)) as [[[out|]|] g'] eqn:E;
    [|vm_compute in E; congruence..].
  destruct (pq_step_agreement Toy ToyLaws ToyKem ToyKemLaws toy_pq_state toy_pq_state [x07] 0
              (0%N : @rng Toy) g' out (mkPqRecord [x01] [x01]) E) as (rcv' & H & _).
  - left.
  - reflexivity.
  - reflexivity.
  - intros r' Hr' _. apply elem_of_cons in Hr' as [->|Hr']; [done|]. by inversion Hr'.
  - exists out, g', rcv'. split; [reflexivity|exact H].
Defined.

(** How long a retired key stays usable, exactly. Let a key be in use and
    then rotated away [length kps] times. A step that targets it by hash finds
    its secret key as long as there were at most [max_key_history] rotations,
    and fails with the key reported unavailable after more, provided that no
    other usable key has the same hash. *)
Theorem pq_history_window (P : Primitives) (st : PqRatchetState) (kps : list KemKeyPair)
    (Hrot : (0 < length kps)%nat)
    (Huniq : ∀ r, r ∈ take (length kps) (usable_keys (rotate_all st kps)) →
       hash_public_key (rec_public_key r) ≠ hash_public_key (local_public_key st))
    (Hold : ∀ r, r ∈ local_key_history st →
       hash_public_key (rec_public_key r) ≠ hash_public_key (local_public_key st)) :
  select_local_secret_key (rotate_all st kps) (Some (hash_public_key (local_public_key st))) =
    if N.of_nat (length kps) <=? max_key_history st
    then Ok (local_secret_key st)
    else Err (MessageParsing "pq ratchet target key unavailable").
Proof.
  rewrite select_find, usable_after_rotations by done.
  rewrite usable_after_rotations in Huniq by done.
  set (news := reverse _) in *.
  assert (Hl : length news = length kps) by (unfold news; by rewrite length_reverse, length_fmap).
  destruct (N.leb_spec (N.of_nat (length kps)) (max_key_history st)) as [Hle|Hgt].
  - rewrite take_take, Nat.min_l, take_app_len in Huniq by lia.
    apply (find_record_some _ _ (mkPqRecord (local_public_key st) (local_secret_key st))).
    + rewrite take_app_ge by lia. apply elem_of_app. right.
      destruct (S (N.to_nat (max_key_history st)) - length news)%nat eqn:E; [lia|]. left.
    + done.
    + intros r Hr%elem_of_take Hh. destruct Hr as (i & Hi & _).
      apply list_elem_of_lookup_2, elem_of_app in Hi as [Hi|Hi]; [by apply Huniq in Hi|].
      apply elem_of_cons in Hi as [->|Hi]; [done|]. by apply Hold in Hi.
  - apply find_record_none. intros r Hr. apply Huniq.
    rewrite take_app_le in Hr |- * by lia. rewrite take_take. by rewrite Nat.min_r by lia.
Qed.

Lemma pq_history_window_witness :
  let kp i := {| kem_public_key := [byte_of_N i]; kem_secret_key := [byte_of_N i] |} in
  select_local_secret_key (P := Toy) (rotate_all toy_pq_state [kp 2; kp 3])
    (Some (hash_public_key [x01])) = Ok [x01] ∧
  select_local_secret_key (P := Toy) (rotate_all toy_pq_state [kp 2; kp 3; kp 4; kp 5; kp 6])
    (Some (hash_public_key [x01])) = Err (MessageParsing "pq ratchet target key unavailable").
Proof.
  intros kp. split.
  - apply (pq_history_window Toy toy_pq_state [kp 2; kp 3]); [simpl; lia| |by intros r Hr; inversion Hr].
    apply list.Forall_forall. repeat constructor; by vm_compute.
  - apply (pq_history_window Toy toy_pq_state [kp 2; kp 3; kp 4; kp 5; kp 6]);
      [simpl; lia| |by intros r Hr; inversion Hr].
    apply list.Forall_forall. repeat constructor; by vm_compute.
Defined.
