(* ===== verification/Session.v ===== *)
(** * Sessions ([pqmsg-core/src/session.rs])

    A session couples a sending and a receiving chain, the cache of skipped
    keys, a Diffie-Hellman ratchet triggered by a new remote key and the
    post-quantum ratchet. [encrypt] and [decrypt] mutate the session and draw
    randomness, so they are [SM] computations over the session and the
    generator: what was written before an error stays written. *)

From S2P Require Import Prelude Bytes Errors Tlv Crypto Alg Aead Wire Ratchet PqRatchet.
Local Open Scope N_scope.

Definition INFO_INITIATOR_SEND : bytes := lit "pqmsg-session-initiator-send".
Definition INFO_INITIATOR_RECV : bytes := lit "pqmsg-session-initiator-recv".
Definition INFO_INITIATOR_SEND_HK : bytes := lit "pqmsg-session-initiator-send-hk".
Definition INFO_INITIATOR_RECV_HK : bytes := lit "pqmsg-session-initiator-recv-hk".
Definition AD_TAG_PROTOCOL_VERSION : N := critical_type 0x1101.
Definition AD_TAG_SUITE_ID : N := critical_type 0x1102.
Definition AD_TAG_EXTERNAL_AD : N := critical_type 0x1103.
Definition AD_TAG_SENDER_DH_PUB : N := critical_type 0x1104.
Definition AD_TAG_MSG_NUM : N := critical_type 0x1105.
Definition AD_TAG_PREV_CHAIN_LEN : N := critical_type 0x1106.
Definition AD_TAG_PQ_STEP_CT : N := critical_type 0x1107.
Definition AD_TAG_PQ_TARGET_PUB_HASH : N := critical_type 0x1108.
Definition AD_TAG_PQ_NEXT_PUB : N := critical_type 0x1109.

Inductive SessionRole := Initiator | Responder.

(** ** Associated data of a message *)

Definition session_ad_records (version suite_id : N) (sender_dh_pub : bytes)
    (msg_num prev_chain_len : N) (pq_step_ct pq_target_pub_hash pq_next_public_key : option bytes)
    (external_ad : bytes) : list TlvRecord :=
  [ mkTlv AD_TAG_PROTOCOL_VERSION (u16_be version);
    mkTlv AD_TAG_SUITE_ID (u16_be suite_id);
    mkTlv AD_TAG_SENDER_DH_PUB sender_dh_pub;
    mkTlv AD_TAG_MSG_NUM (u32_be msg_num);
    mkTlv AD_TAG_PREV_CHAIN_LEN (u32_be prev_chain_len);
    mkTlv AD_TAG_EXTERNAL_AD external_ad ] ++
  opt_record AD_TAG_PQ_STEP_CT pq_step_ct ++
  opt_record AD_TAG_PQ_TARGET_PUB_HASH pq_target_pub_hash ++
  opt_record AD_TAG_PQ_NEXT_PUB pq_next_public_key.

Definition session_associated_data (version suite_id : N) (sender_dh_pub : bytes)
    (msg_num prev_chain_len : N) (pq_step_ct pq_target_pub_hash pq_next_public_key : option bytes)
    (external_ad : bytes) : res bytes :=
  encode (session_ad_records version suite_id sender_dh_pub msg_num prev_chain_len
            pq_step_ct pq_target_pub_hash pq_next_public_key external_ad).

(** ** Snapshots *)

Record PqLocalKeyRecordSnapshot := { snap_public_key : bytes; snap_secret_key : bytes }.

Record PqRatchetSnapshot := {
  snap_interval : N;
  snap_local_public_key : bytes;
  snap_local_secret_key : bytes;
  snap_remote_public_key : bytes;
  snap_local_key_history : list PqLocalKeyRecordSnapshot;
  snap_max_key_history : N;
  snap_last_remote_update_msg_num : N;
}.

Record SkippedMessageKeySnapshot := {
  snap_dh_pub : bytes; snap_msg_num : N; snap_message_key : bytes;
}.

Record SessionSnapshot := {
  snap_version : N;
  snap_suite_id : N;
  snap_negotiated_wire_version : N;
  snap_root_key : bytes;
  snap_sending_chain_key : bytes;
  snap_sending_next_msg_num : N;
  snap_receiving_chain_key : bytes;
  snap_receiving_next_msg_num : N;
  snap_local_dh_public : bytes;
  snap_local_dh_secret : bytes;
  snap_remote_dh_pub : bytes;
  snap_prev_chain_len : N;
  snap_max_skipped : N;
  snap_skipped : list SkippedMessageKeySnapshot;
  snap_pq_ratchet : option PqRatchetSnapshot;
  snap_sending_header_key : option bytes;
  snap_receiving_header_key : option bytes;
  snap_prev_receiving_header_key : option bytes;
}.

(** ** State *)

Record SessionState `{P : Primitives} := mkSession {
  s_version : N;
  s_suite_id : N;
  s_negotiated_wire_version : N;
  s_root_key : bytes;
  s_sending_chain : ChainState;
  s_receiving_chain : ChainState;
  s_local_dh : DhKeyPair;
  s_remote_dh_pub : bytes;
  s_prev_chain_len : N;
  s_skipped : SkippedMessageKeys;
  s_pq_state : option PqRatchetState;
  s_pq_kem : option KemProvider;
  s_sending_header_key : option bytes;
  s_receiving_header_key : option bytes;
  s_prev_receiving_header_key : option bytes;
}.

Section Session.
Context `{P : Primitives}.

Definition set_root_key (s : SessionState) (k : bytes) : SessionState :=
  mkSession _ (s_version s) (s_suite_id s) (s_negotiated_wire_version s) k
    (s_sending_chain s) (s_receiving_chain s) (s_local_dh s) (s_remote_dh_pub s)
    (s_prev_chain_len s) (s_skipped s) (s_pq_state s) (s_pq_kem s)
    (s_sending_header_key s) (s_receiving_header_key s) (s_prev_receiving_header_key s).

Definition set_sending_chain (s : SessionState) (c : ChainState) : SessionState :=
  mkSession _ (s_version s) (s_suite_id s) (s_negotiated_wire_version s) (s_root_key s)
    c (s_receiving_chain s) (s_local_dh s) (s_remote_dh_pub s)
    (s_prev_chain_len s) (s_skipped s) (s_pq_state s) (s_pq_kem s)
    (s_sending_header_key s) (s_receiving_header_key s) (s_prev_receiving_header_key s).

(** The two fields [skip_until] and the key lookup of [decrypt] write. *)
Definition set_receiving (s : SessionState) (c : ChainState) (sk : SkippedMessageKeys)
    : SessionState :=
  mkSession _ (s_version s) (s_suite_id s) (s_negotiated_wire_version s) (s_root_key s)
    (s_sending_chain s) c (s_local_dh s) (s_remote_dh_pub s)
    (s_prev_chain_len s) sk (s_pq_state s) (s_pq_kem s)
    (s_sending_header_key s) (s_receiving_header_key s) (s_prev_receiving_header_key s).

Definition set_pq (s : SessionState) (st : option PqRatchetState) (kem : option KemProvider)
    : SessionState :=
  mkSession _ (s_version s) (s_suite_id s) (s_negotiated_wire_version s) (s_root_key s)
    (s_sending_chain s) (s_receiving_chain s) (s_local_dh s) (s_remote_dh_pub s)
    (s_prev_chain_len s) (s_skipped s) st kem
    (s_sending_header_key s) (s_receiving_header_key s) (s_prev_receiving_header_key s).

(** ** Creation *)

Definition from_handshake_with_suite_and_wire_version (role : SessionRole)
    (handshake_root_key : bytes) (local_dh : DhKeyPair) (remote_dh_pub : bytes)
    (suite_id wire_version max_skipped : N) : res SessionState :=
  let '(send_info, recv_info) :=
    match role with
    | Initiator => (INFO_INITIATOR_SEND, INFO_INITIATOR_RECV)
    | Responder => (INFO_INITIATOR_RECV, INFO_INITIATOR_SEND)
    end in
  let? sending_chain_key := hkdf_sha256_32 handshake_root_key None send_info in
  let? receiving_chain_key := hkdf_sha256_32 handshake_root_key None recv_info in
  let? (sending_header_key, receiving_header_key) :=
    if WIRE_VERSION_V2 <=? wire_version then
      let '(send_hk_info, recv_hk_info) :=
        match role with
        | Initiator => (INFO_INITIATOR_SEND_HK, INFO_INITIATOR_RECV_HK)
        | Responder => (INFO_INITIATOR_RECV_HK, INFO_INITIATOR_SEND_HK)
        end in
      let? shk := hkdf_sha256_32 handshake_root_key None send_hk_info in
      let? rhk := hkdf_sha256_32 handshake_root_key None recv_hk_info in
      Ok (Some shk, Some rhk)
    else Ok (None, None) in
  Ok {| s_version := WIRE_VERSION;
        s_suite_id := suite_id;
        s_negotiated_wire_version := wire_version;
        s_root_key := handshake_root_key;
        s_sending_chain := ChainState_new sending_chain_key;
        s_receiving_chain := ChainState_new receiving_chain_key;
        s_local_dh := local_dh;
        s_remote_dh_pub := remote_dh_pub;
        s_prev_chain_len := 0;
        s_skipped := SkippedMessageKeys_new max_skipped;
        s_pq_state := None;
        s_pq_kem := None;
        s_sending_header_key := sending_header_key;
        s_receiving_header_key := receiving_header_key;
        s_prev_receiving_header_key := None |}.

Definition from_handshake_with_suite (role : SessionRole) (handshake_root_key : bytes)
    (local_dh : DhKeyPair) (remote_dh_pub : bytes) (suite_id max_skipped : N) : res SessionState :=
  from_handshake_with_suite_and_wire_version role handshake_root_key local_dh remote_dh_pub
    suite_id WIRE_VERSION max_skipped.

Definition from_handshake (role : SessionRole) (handshake_root_key : bytes)
    (local_dh : DhKeyPair) (remote_dh_pub : bytes) (max_skipped : N) : res SessionState :=
  from_handshake_with_suite role handshake_root_key local_dh remote_dh_pub DEFAULT_SUITE_ID
    max_skipped.

Definition enable_pq_ratchet (s : SessionState) (st : PqRatchetState) (kem : KemProvider)
    : SessionState :=
  set_pq s (Some st) (Some kem).

Definition from_handshake_with_suite_and_wire_version_with_pq_ratchet (role : SessionRole)
    (handshake_root_key : bytes) (local_dh : DhKeyPair) (remote_dh_pub : bytes)
    (suite_id wire_version max_skipped : N) (pq_ratchet : PqRatchetState) (pq_kem : KemProvider)
    : res SessionState :=
  let? session := from_handshake_with_suite_and_wire_version role handshake_root_key local_dh
                    remote_dh_pub suite_id wire_version max_skipped in
  Ok (enable_pq_ratchet session pq_ratchet pq_kem).

Definition from_handshake_with_suite_with_pq_ratchet (role : SessionRole)
    (handshake_root_key : bytes) (local_dh : DhKeyPair) (remote_dh_pub : bytes)
    (suite_id max_skipped : N) (pq_ratchet : PqRatchetState) (pq_kem : KemProvider)
    : res SessionState :=
  from_handshake_with_suite_and_wire_version_with_pq_ratchet role handshake_root_key local_dh
    remote_dh_pub suite_id WIRE_VERSION max_skipped pq_ratchet pq_kem.

Definition pq_ratchet_enabled (s : SessionState) : bool :=
  bool_decide (is_Some (s_pq_state s)) && match s_pq_kem s with Some _ => true | None => false end.

Definition pq_ratchet_interval (s : SessionState) : option N := interval <$> s_pq_state s.

(** ** Saving and restoring *)

Definition snapshot_pq (st : PqRatchetState) : PqRatchetSnapshot :=
  {| snap_interval := interval st;
     snap_local_public_key := local_public_key st;
     snap_local_secret_key := local_secret_key st;
     snap_remote_public_key := remote_public_key st;
     snap_local_key_history :=
       (λ r, {| snap_public_key := rec_public_key r; snap_secret_key := rec_secret_key r |})
         <$> local_key_history st;
     snap_max_key_history := max_key_history st;
     snap_last_remote_update_msg_num := last_remote_update_msg_num st |}.

Definition snapshot (s : SessionState) : SessionSnapshot :=
  {| snap_version := s_version s;
     snap_suite_id := s_suite_id s;
     snap_negotiated_wire_version := s_negotiated_wire_version s;
     snap_root_key := s_root_key s;
     snap_sending_chain_key := chain_key (s_sending_chain s);
     snap_sending_next_msg_num := next_msg_num (s_sending_chain s);
     snap_receiving_chain_key := chain_key (s_receiving_chain s);
     snap_receiving_next_msg_num := next_msg_num (s_receiving_chain s);
     snap_local_dh_public := public (s_local_dh s);
     snap_local_dh_secret := secret (s_local_dh s);
     snap_remote_dh_pub := s_remote_dh_pub s;
     snap_prev_chain_len := s_prev_chain_len s;
     snap_max_skipped := sk_max_entries (s_skipped s);
     snap_skipped :=
       (λ e, {| snap_dh_pub := sk_dh_pub e.1; snap_msg_num := sk_msg_num e.1;
                snap_message_key := e.2 |}) <$> skipped_entries (s_skipped s);
     snap_pq_ratchet := snapshot_pq <$> s_pq_state s;
     snap_sending_header_key := s_sending_header_key s;
     snap_receiving_header_key := s_receiving_header_key s;
     snap_prev_receiving_header_key := s_prev_receiving_header_key s |}.

Definition restore_pq (p : PqRatchetSnapshot) : PqRatchetState :=
  {| interval := snap_interval p;
     local_public_key := snap_local_public_key p;
     local_secret_key := snap_local_secret_key p;
     remote_public_key := snap_remote_public_key p;
     local_key_history :=
       (λ r, mkPqRecord (snap_public_key r) (snap_secret_key r)) <$> snap_local_key_history p;
     max_key_history := snap_max_key_history p;
     last_remote_update_msg_num := snap_last_remote_update_msg_num p |}.

Definition from_snapshot_with_kem (p : SessionSnapshot) (kem : option KemProvider) : SessionState :=
  let skipped :=
    (λ item, ({| sk_dh_pub := snap_dh_pub item; sk_msg_num := snap_msg_num item |},
              snap_message_key item)) <$> snap_skipped p in
  {| s_version := snap_version p;
     s_suite_id := snap_suite_id p;
     s_negotiated_wire_version := snap_negotiated_wire_version p;
     s_root_key := snap_root_key p;
     s_sending_chain :=
       ChainState_from_parts (snap_sending_chain_key p) (snap_sending_next_msg_num p);
     s_receiving_chain :=
       ChainState_from_parts (snap_receiving_chain_key p) (snap_receiving_next_msg_num p);
     s_local_dh := {| public := snap_local_dh_public p; secret := snap_local_dh_secret p |};
     s_remote_dh_pub := snap_remote_dh_pub p;
     s_prev_chain_len := snap_prev_chain_len p;
     s_skipped := skipped_from_entries (snap_max_skipped p) skipped;
     s_pq_state := restore_pq <$> snap_pq_ratchet p;
     s_pq_kem := kem;
     s_sending_header_key := snap_sending_header_key p;
     s_receiving_header_key := snap_receiving_header_key p;
     s_prev_receiving_header_key := snap_prev_receiving_header_key p |}.

Definition from_snapshot (p : SessionSnapshot) : SessionState := from_snapshot_with_kem p None.

(** ** Sending *)

(** A session operation: session and generator, and a result. *)
Definition Op (A : Type) : Type := SM (SessionState * rng) CoreError A.

Definition op_session : Op SessionState := λ w, (w, Ok w.1).

Definition op_sending_key : Op (N * bytes) :=
  λ '(s, g), let '(c, r) := next_message_key (s_sending_chain s) in
             ((set_sending_chain s c, g), r).

(** The post-quantum part of [encrypt]: the ciphertext, the hash of the key it
    targets and the sender's next public key, when a step is due. *)
Definition op_pq_send (msg_num : N) : Op (option bytes * option bytes * option bytes) :=
  λ '(s, g),
    match s_pq_state s, s_pq_kem s with
    | Some state, Some kem =>
        match sender_step state kem (s_root_key s) msg_num g with
        | (Err e, g) => ((s, g), Err e)
        | (Ok None, g) => ((s, g), Ok (None, None, None))
        | (Ok (Some step), g) =>
            let s := set_root_key s (step_root_key step) in
            let s := set_pq s (Some (commit_local_key_rotation state (step_next_local_keypair step)))
                       (s_pq_kem s) in
            ((s, g), Ok (Some (step_ciphertext step),
                         Some (step_target_public_key_hash step),
                         Some (kem_public_key (step_next_local_keypair step))))
        end
    | _, _ => ((s, g), Ok (None, None, None))
    end.

Definition op_seal (key plaintext ad : bytes) : Op CiphertextEnvelope :=
  λ '(s, g), let '(r, g) := encrypt_with_rng key plaintext ad g in ((s, g), r).

Local Open Scope sm_scope.

(** The rest of [encrypt], once the header fields are known: authenticate,
    pad, seal and serialise. *)
Definition op_emit (s : SessionState) (h : HeaderPlaintext) (message_key message ad : bytes)
    : Op bytes :=
  associated_data <- sm_lift (session_associated_data (s_version s) (s_suite_id s)
                       (h_sender_dh_pub h) (h_msg_num h) (h_prev_chain_len h) (h_pq_step_ct h)
                       (h_pq_target_pub_hash h) (h_pq_next_public_key h) ad) ;;
  let plaintext := if WIRE_VERSION_V2 <=? s_negotiated_wire_version s
                   then pad_blocks message PADDING_BLOCK_SIZE else message in
  envelope <- op_seal message_key plaintext associated_data ;;
  if WIRE_VERSION_V2 <=? s_negotiated_wire_version s then
    header_bytes <- sm_lift (HeaderPlaintext_encode h) ;;
    let header_bytes := match s_sending_header_key s with
                        | Some hk => encrypt_header hk header_bytes
                        | None => header_bytes
                        end in
    sm_lift (WireMessageV2_encode
      {| w2_version := WIRE_VERSION_V2;
         w2_suite_id := s_suite_id s;
         w2_encrypted_header := header_bytes;
         w2_aead_nonce := nonce envelope;
         w2_ciphertext := ciphertext envelope |})
  else
    sm_lift (WireMessage_encode
      {| w1_version := s_version s;
         w1_suite_id := s_suite_id s;
         w1_sender_dh_pub := h_sender_dh_pub h;
         w1_msg_num := h_msg_num h;
         w1_prev_chain_len := h_prev_chain_len h;
         w1_pq_step_ct := h_pq_step_ct h;
         w1_pq_target_pub_hash := h_pq_target_pub_hash h;
         w1_pq_next_public_key := h_pq_next_public_key h;
         w1_aead_nonce := nonce envelope;
         w1_ciphertext := ciphertext envelope |}).

Definition SessionState_encrypt (message ad : bytes) : Op bytes :=
  key <- op_sending_key ;;
  let '(msg_num, message_key) := key in
  pq <- op_pq_send msg_num ;;
  let '(pq_step_ct, pq_target_pub_hash, pq_next_public_key) := pq in
  s <- op_session ;;
  op_emit s
    {| h_sender_dh_pub := public (s_local_dh s);
       h_msg_num := msg_num;
       h_prev_chain_len := s_prev_chain_len s;
       h_pq_step_ct := pq_step_ct;
       h_pq_target_pub_hash := pq_target_pub_hash;
       h_pq_next_public_key := pq_next_public_key |} message_key message ad.

(** ** Receiving *)

(** The loop of [skip_until] on the chain and the cache. The counter grows by
    one per round, so the distance to the target bounds the rounds
    ([skip_loop_stop]). *)
Fixpoint skip_loop (fuel : nat) (dh_pub : bytes) (until_msg_num : N)
    (c : ChainState) (sk : SkippedMessageKeys) : ChainState * SkippedMessageKeys * res unit :=
  match fuel with
  | O => (c, sk, Ok tt)
  | S fuel =>
      if next_msg_num c <? until_msg_num then
        match next_message_key c with
        | (c, Err e) => (c, sk, Err e)
        | (c, Ok (msg_num, key)) =>
            skip_loop fuel dh_pub until_msg_num c
              (skipped_insert sk {| sk_dh_pub := dh_pub; sk_msg_num := msg_num |} key)
        end
      else (c, sk, Ok tt)
  end.

Definition skip_until (dh_pub : bytes) (until_msg_num : N) : Op unit :=
  λ '(s, g),
    let c := s_receiving_chain s in
    let '(c, sk, r) := skip_loop (N.to_nat (until_msg_num - next_msg_num c)) dh_pub until_msg_num
                         c (s_skipped s) in
    ((set_receiving s c sk, g), r).

Definition decrypt_v2_header (s : SessionState) (encrypted_header : bytes) : res HeaderPlaintext :=
  match s_receiving_header_key s ≫= λ hk, try_decrypt_header hk encrypted_header with
  | Some header => Ok header
  | None =>
      match s_prev_receiving_header_key s ≫= λ hk, try_decrypt_header hk encrypted_header with
      | Some header => Ok header
      | None => HeaderPlaintext_decode encrypted_header
      end
  end.

(** The first half of [apply_dh_ratchet]: the receiving side moves to the new
    remote key. *)
Definition ratchet_receiving (s : SessionState) (out : RootStepOutput) (new_remote_dh_pub : bytes)
    : SessionState :=
  mkSession _ (s_version s) (s_suite_id s) (s_negotiated_wire_version s)
    (rs_root_key out)
    (s_sending_chain s)
    (ChainState_reset (s_receiving_chain s) (rs_chain_key out))
    (s_local_dh s)
    new_remote_dh_pub
    (next_msg_num (s_sending_chain s))
    (s_skipped s)
    (reset_remote_update_tracking <$> s_pq_state s)
    (s_pq_kem s)
    (s_sending_header_key s)
    (Some (rs_header_key out))
    (s_receiving_header_key s).

Definition set_local_dh (s : SessionState) (kp : DhKeyPair) : SessionState :=
  mkSession _ (s_version s) (s_suite_id s) (s_negotiated_wire_version s) (s_root_key s)
    (s_sending_chain s) (s_receiving_chain s) kp (s_remote_dh_pub s)
    (s_prev_chain_len s) (s_skipped s) (s_pq_state s) (s_pq_kem s)
    (s_sending_header_key s) (s_receiving_header_key s) (s_prev_receiving_header_key s).

(** The second half: a fresh local key starts a new sending chain. *)
Definition ratchet_sending (s : SessionState) (out : RootStepOutput) : SessionState :=
  mkSession _ (s_version s) (s_suite_id s) (s_negotiated_wire_version s)
    (rs_root_key out)
    (ChainState_reset (s_sending_chain s) (rs_chain_key out))
    (s_receiving_chain s) (s_local_dh s) (s_remote_dh_pub s)
    (s_prev_chain_len s) (s_skipped s) (s_pq_state s) (s_pq_kem s)
    (Some (rs_header_key out))
    (s_receiving_header_key s) (s_prev_receiving_header_key s).

Definition apply_dh_ratchet (new_remote_dh_pub : bytes) : Op unit :=
  λ '(s, g),
    match dh_root_step (s_root_key s) (secret (s_local_dh s)) new_remote_dh_pub with
    | Err e => ((s, g), Err e)
    | Ok recv_step =>
        let s := ratchet_receiving s recv_step new_remote_dh_pub in
        let '(kp, g) := generate_keypair g in
        let s := set_local_dh s kp in
        match dh_root_step (s_root_key s) (secret (s_local_dh s)) (s_remote_dh_pub s) with
        | Err e => ((s, g), Err e)
        | Ok send_step => ((ratchet_sending s send_step, g), Ok tt)
        end
    end.

(** The fields of either wire version that [decrypt] goes on with. *)
Record Incoming := {
  in_version : N;
  in_suite_id : N;
  in_header : HeaderPlaintext;
  in_nonce : bytes;
  in_ciphertext : bytes;
  in_padded : bool;
}.

Definition extract_incoming (s : SessionState) (decoded : DecodedWireMessage) : res Incoming :=
  match decoded with
  | V1 wire =>
      Ok {| in_version := w1_version wire;
            in_suite_id := w1_suite_id wire;
            in_header :=
              {| h_sender_dh_pub := w1_sender_dh_pub wire;
                 h_msg_num := w1_msg_num wire;
                 h_prev_chain_len := w1_prev_chain_len wire;
                 h_pq_step_ct := w1_pq_step_ct wire;
                 h_pq_target_pub_hash := w1_pq_target_pub_hash wire;
                 h_pq_next_public_key := w1_pq_next_public_key wire |};
            in_nonce := w1_aead_nonce wire;
            in_ciphertext := w1_ciphertext wire;
            in_padded := false |}
  | V2 wire =>
      let? header := decrypt_v2_header s (w2_encrypted_header wire) in
      Ok {| in_version := WIRE_VERSION;
            in_suite_id := w2_suite_id wire;
            in_header := header;
            in_nonce := w2_aead_nonce wire;
            in_ciphertext := w2_ciphertext wire;
            in_padded := true |}
  end.

(** Follow the sender to a new ratchet key, if the message carries one. *)
Definition op_follow_ratchet (h : HeaderPlaintext) : Op unit :=
  s <- op_session ;;
  if bool_decide (h_sender_dh_pub h = s_remote_dh_pub s) then sm_ret tt else
  skip_until (s_remote_dh_pub s) (h_prev_chain_len h) ;;;
  apply_dh_ratchet (h_sender_dh_pub h).

Definition op_take_skipped (key_id : SkippedKeyId) : Op bytes :=
  λ '(s, g),
    let '(sk, o) := skipped_take (s_skipped s) key_id in
    ((set_receiving s (s_receiving_chain s) sk, g), ok_or o MessageKeyUnavailable).

Definition op_receiving_key : Op (N * bytes) :=
  λ '(s, g), let '(c, r) := next_message_key (s_receiving_chain s) in
             ((set_receiving s c (s_skipped s), g), r).

(** The message key: from the cache for an old number, else from the chain. *)
Definition op_message_key (h : HeaderPlaintext) : Op bytes :=
  s <- op_session ;;
  if h_msg_num h <? next_msg_num (s_receiving_chain s) then
    op_take_skipped {| sk_dh_pub := h_sender_dh_pub h; sk_msg_num := h_msg_num h |}
  else
    skip_until (h_sender_dh_pub h) (h_msg_num h) ;;;
    key <- op_receiving_key ;;
    sm_ret key.2.

Definition open_incoming (inc : Incoming) (message_key ad : bytes) : res bytes :=
  let h := in_header inc in
  let? aad := session_associated_data (in_version inc) (in_suite_id inc) (h_sender_dh_pub h)
                (h_msg_num h) (h_prev_chain_len h) (h_pq_step_ct h) (h_pq_target_pub_hash h)
                (h_pq_next_public_key h) ad in
  let? decrypted := decrypt message_key
                      {| nonce := in_nonce inc; ciphertext := in_ciphertext inc; aad := aad |} in
  if in_padded inc then unpad_plaintext decrypted else Ok decrypted.

(** The post-quantum part of [decrypt]. *)
Definition op_pq_receive (h : HeaderPlaintext) : Op unit :=
  λ '(s, g),
    match h_pq_step_ct h with
    | None => ((s, g), Ok tt)
    | Some ct =>
        match s_pq_state s, s_pq_kem s with
        | Some state, Some kem =>
            let '(state, r) := receiver_step kem (s_root_key s) ct (h_pq_target_pub_hash h)
                                 (h_pq_next_public_key h) (h_msg_num h) state in
            let s := set_pq s (Some state) (s_pq_kem s) in
            match r with
            | Ok root_key => ((set_root_key s root_key, g), Ok tt)
            | Err e => ((s, g), Err e)
            end
        | _, _ => ((s, g), Err PqRatchetDisabled)
        end
    end.

(** [decrypt] once the header is known. *)
Definition receive_incoming (inc : Incoming) (ad : bytes) : Op bytes :=
  op_follow_ratchet (in_header inc) ;;;
  message_key <- op_message_key (in_header inc) ;;
  plaintext <- sm_lift (open_incoming inc message_key ad) ;;
  op_pq_receive (in_header inc) ;;;
  sm_ret plaintext.

Definition SessionState_decrypt (wire_bytes ad : bytes) : Op bytes :=
  decoded <- sm_lift (decode_wire_message wire_bytes) ;;
  s <- op_session ;;
  inc <- sm_lift (extract_incoming s decoded) ;;
  if negb (in_suite_id inc =? s_suite_id s)
  then sm_err (UnsupportedAlgorithm "wire.suite_id")
  else receive_incoming inc ad.
End Session.
