(* ===== verification/SessionRun.v ===== *)
(** * Two sessions in conversation

    What [encrypt] produces and [decrypt] accepts between two sessions that
    start from the same handshake secret, for every interleaving of sends and
    deliveries: messages may be lost, reordered, duplicated and cross each
    other. The conversation is a step function on the pair of sessions and the
    packets in transit; its invariant relates each sending chain to the peer's
    receiving chain and cache. *)

From Stdlib Require Import Strings.Byte.
From S2P Require Import Prelude Bytes Errors Tlv Crypto Alg Aead Wire Ratchet PqRatchet Session Toy.
Local Open Scope N_scope.

Section Receiving.
Context `{P : Primitives} `{!PrimitiveLaws P}.

(** ** Skipping ahead *)

Lemma next_message_key_advance (c c' : ChainState) (r : N * bytes) :
  next_message_key c = (c', Ok r) → next_msg_num c' = next_msg_num c + 1.
Proof.
  unfold next_message_key. destruct (hkdf_sha256 _ _ _ _); [|done].
  destruct (_ =? _); [done|]. by intros [= <- _].
Qed.

(** Fuel beyond the distance to the target changes nothing. *)
Lemma skip_loop_fuel (f1 f2 : nat) (dh : bytes) (until : N) (c : ChainState)
    (sk : SkippedMessageKeys) :
  (N.to_nat (until - next_msg_num c) ≤ f1)%nat → (N.to_nat (until - next_msg_num c) ≤ f2)%nat →
  skip_loop f1 dh until c sk = skip_loop f2 dh until c sk.
Proof.
  revert f2 c sk. induction f1 as [|f1 IH]; intros [|f2] c sk H1 H2; [done| | |].
  - simpl. by replace (next_msg_num c <? until) with false by (symmetry; apply N.ltb_ge; lia).
  - simpl. by replace (next_msg_num c <? until) with false by (symmetry; apply N.ltb_ge; lia).
  - simpl. destruct (N.ltb_spec (next_msg_num c) until); [|done].
    destruct (next_message_key c) as [c' [[n key]|]] eqn:E; [|done].
    apply next_message_key_advance in E. apply IH; lia.
Qed.

(** The entries a run of skipped numbers adds. *)
Definition skipped_range (dh ck : bytes) (i k : nat) : list (SkippedKeyId * bytes) :=
  (λ j, ({| sk_dh_pub := dh; sk_msg_num := N.of_nat j |}, message_key_at ck j)) <$> seq i k.

Lemma skip_loop_run (dh ck : bytes) (k i fuel : nat) (sk : SkippedMessageKeys) :
  N.of_nat (i + k) ≤ u32_max → (k ≤ fuel)%nat →
  skip_loop fuel dh (N.of_nat (i + k)) (mkChain (chain_at ck i) (N.of_nat i)) sk =
    (mkChain (chain_at ck (i + k)) (N.of_nat (i + k)),
     foldl (λ st e, skipped_insert st e.1 e.2) sk (skipped_range dh ck i k), Ok tt).
Proof.
  revert i fuel sk. induction k as [|k IH]; intros i fuel sk Hu Hf.
  - rewrite Nat.add_0_r. simpl. destruct fuel; [done|]. simpl. by rewrite N.ltb_irrefl.
  - destruct fuel as [|fuel]; [lia|]. cbn [skip_loop next_msg_num].
    replace (N.of_nat i <? N.of_nat (i + S k)) with true by (symmetry; apply N.ltb_lt; lia).
    rewrite next_message_key_ok by (simpl; lia). cbn [chain_key next_msg_num].
    replace (N.of_nat i + 1) with (N.of_nat (S i)) by lia.
    change (drop 32 (chain_okm (chain_at ck i))) with (chain_at ck (S i)).
    replace (i + S k)%nat with (S i + k)%nat by lia. rewrite IH by lia. done.
Qed.
End Receiving.

Section Packets.
Context `{P : Primitives} `{!PrimitiveLaws P}.

(** ** Packets

    A message in transit with what it stands for. *)

Record Packet := mkPacket { pk_wire : bytes; pk_msg : bytes; pk_ad : bytes }.

(** The parts of a session a peer's packets are judged against. *)
Record Link := mkLink { lk_suite : N; lk_dh : bytes; lk_chain : bytes; lk_header : option bytes }.

(** Packet number [i] of a link: any session that holds the link's header key
    reads it as message [i] from the link's key, and message key [i] of the
    link's chain opens it to the message. Without [pq] it carries no
    post-quantum step. *)
Definition packet_ok (l : Link) (pq : bool) (i : nat) (p : Packet) : Prop :=
  ∃ d inc, decode_wire_message (pk_wire p) = Ok d ∧
    (∀ s, s_receiving_header_key s = lk_header l → extract_incoming s d = Ok inc) ∧
    in_suite_id inc = lk_suite l ∧
    h_sender_dh_pub (in_header inc) = lk_dh l ∧
    h_msg_num (in_header inc) = N.of_nat i ∧
    (pq = false → h_pq_step_ct (in_header inc) = None) ∧
    open_incoming inc (message_key_at (lk_chain l) i) (pk_ad p) = Ok (pk_msg p).

(** What a session needs to send packets of a link, having sent [n]. *)
Record sends (l : Link) (n : nat) (s : SessionState) : Prop := {
  snd_version : s_version s = WIRE_VERSION;
  snd_suite : s_suite_id s = lk_suite l;
  snd_suite_bound : s_suite_id s ≤ u16_max;
  snd_dh : public (s_local_dh s) = lk_dh l;
  snd_dh_length : length (lk_dh l) = 32%nat;
  snd_prev : s_prev_chain_len s ≤ u32_max;
  snd_chain : s_sending_chain s = mkChain (chain_at (lk_chain l) n) (N.of_nat n);
  snd_header : s_sending_header_key s = lk_header l;
  snd_v2 : WIRE_VERSION_V2 ≤ s_negotiated_wire_version s → is_Some (lk_header l);
}.

(** The cache of a receiver that has followed the chain to [r] and was given
    the packets [got]. *)
Definition undelivered (l : Link) (got : list nat) (r : nat) : list (SkippedKeyId * bytes) :=
  (λ j, ({| sk_dh_pub := lk_dh l; sk_msg_num := N.of_nat j |}, message_key_at (lk_chain l) j))
    <$> filter (λ j, j ∉ got) (seq 0 r).

Record receives (l : Link) (got : list nat) (s : SessionState) : Prop := {
  rcv_suite : s_suite_id s = lk_suite l;
  rcv_dh : s_remote_dh_pub s = lk_dh l;
  rcv_header : s_receiving_header_key s = lk_header l;
  rcv_skipped : skipped_inv (s_skipped s);
  rcv_chain : ∃ r, s_receiving_chain s = mkChain (chain_at (lk_chain l) r) (N.of_nat r) ∧
    (∀ i, i ∈ got → (i < r)%nat) ∧
    skipped_entries (s_skipped s) = undelivered l got r;
}.

(** The fields one direction depends on; the operations of the other direction
    leave them alone. *)
Definition send_view (s : SessionState) :=
  (s_version s, s_suite_id s, s_negotiated_wire_version s, s_local_dh s, s_prev_chain_len s,
   s_sending_chain s, s_sending_header_key s).

Definition recv_view (s : SessionState) :=
  (s_suite_id s, s_remote_dh_pub s, s_receiving_header_key s, s_skipped s, s_receiving_chain s).

Lemma sends_view (l : Link) (n : nat) (s s' : SessionState) :
  send_view s = send_view s' → sends l n s → sends l n s'.
Proof. destruct s, s'. unfold send_view. simpl. intros [=] []. simplify_eq/=. by split. Qed.

Lemma receives_view (l : Link) (got : list nat) (s s' : SessionState) :
  recv_view s = recv_view s' → receives l got s → receives l got s'.
Proof. destruct s, s'. unfold recv_view. simpl. intros [=] []. simplify_eq/=. by split. Qed.

(** ** Sending *)

Lemma op_pq_send_views (n : N) (s : SessionState) (g : rng) :
  let s' := (op_pq_send n (s, g)).1.1 in
  send_view s' = send_view s ∧ recv_view s' = recv_view s ∧
  (s_pq_state s = None →
     s_pq_state s' = None ∧ (op_pq_send n (s, g)).2 = Ok (None, None, None)).
Proof.
  unfold op_pq_send. destruct (s_pq_state s) eqn:E; [|done]. destruct (s_pq_kem s); [|done].
  by destruct (sender_step _ _ _ _ _) as [[[|]|] ?].
Qed.

Lemma op_emit_session (s s0 : SessionState) (h : HeaderPlaintext) (key m ad : bytes) (g : rng) :
  (op_emit s h key m ad (s0, g)).1.1 = s0.
Proof.
  unfold op_emit, sm_bind, sm_lift, op_seal.
  destruct (session_associated_data _ _ _ _ _ _ _ _ _); [|done].
  destruct (encrypt_with_rng _ _ _ _) as [[|] ?]; [|done].
  destruct (_ <=? _); [|done]. by destruct (HeaderPlaintext_encode h).
Qed.

(** One emitted message: the session is left as it is, and the wire reads back
    as the header and opens to the message under the same key. *)
Lemma op_emit_ok (s : SessionState) (h : HeaderPlaintext) (key m ad : bytes) (g : rng) :
  s_version s = WIRE_VERSION → s_suite_id s ≤ u16_max →
  length (h_sender_dh_pub h) = 32%nat → h_msg_num h ≤ u32_max → h_prev_chain_len h ≤ u32_max →
  (WIRE_VERSION_V2 ≤ s_negotiated_wire_version s → is_Some (s_sending_header_key s)) →
  ∃ g' r, op_emit s h key m ad (s, g) = ((s, g'), r) ∧
    ∀ w, r = Ok w → ∃ d inc, decode_wire_message w = Ok d ∧
      (∀ s', s_receiving_header_key s' = s_sending_header_key s → extract_incoming s' d = Ok inc) ∧
      in_suite_id inc = s_suite_id s ∧ in_header inc = h ∧ open_incoming inc key ad = Ok m.
Proof.
  intros Hv Hs Hdh Hn Hp Hhk. unfold op_emit, sm_bind, sm_lift. rewrite Hv.
  destruct (session_associated_data WIRE_VERSION _ _ _ _ _ _ _ _) as [aad|] eqn:Ead; [|by eexists _, _].
  unfold op_seal. set (pt := if _ <=? _ then _ else _).
  destruct (encrypt_with_rng key pt aad g) as [[e|] g'] eqn:Ee; [|by eexists _, _].
  unfold encrypt_with_rng in Ee. pose proof (rng_fill_length 12 g) as Hnl.
  destruct (rng_fill 12 g) as [nc g'']. injection Ee as Ee ->. simpl in Hnl.
  apply encrypt_decrypt in Ee as (Hnc & _ & _ & Hopen). rewrite <- Hnc in Hopen, Hnl.
  destruct (N.leb_spec WIRE_VERSION_V2 (s_negotiated_wire_version s)) as [H2|H2].
  - destruct (HeaderPlaintext_encode h) as [hb|] eqn:Eh; [|by eexists _, _].
    destruct (Hhk H2) as [hk Ehk]. rewrite Ehk.
    eexists g', _. split; [done|]. intros w Hw.
    eexists (V2 _), {| in_version := WIRE_VERSION; in_suite_id := s_suite_id s; in_header := h;
      in_nonce := nonce e; in_ciphertext := ciphertext e; in_padded := true |}.
    split; [|split_and!; [|done|done|]].
    + apply decode_wire_message_encode; [|exact Hw]. by eapply WireMessageV2_encode_wf.
    + intros s' Hs'. simpl. unfold decrypt_v2_header. rewrite Hs'. simpl.
      erewrite try_decrypt_encrypt_header; [done| |done]. by eapply HeaderPlaintext_encode_wf.
    + unfold open_incoming. simpl. rewrite Ead, Hopen. apply unpad_pad. unfold PADDING_BLOCK_SIZE. lia.
  - eexists g', _. split; [done|]. intros w Hw.
    eexists (V1 _), _. split.
    { apply decode_wire_message_encode; [|exact Hw]. by eapply WireMessage_encode_wf. }
    split_and!; [by intros s'|done|by destruct h|].
    unfold open_incoming. simpl. by rewrite Ead, Hopen.
Qed.

Lemma encrypt_sends (l : Link) (pq : bool) (n : nat) (s : SessionState) (g : rng) (m ad : bytes) :
  sends l n s → N.of_nat n < u32_max → (pq = false → s_pq_state s = None) →
  ∃ s' g' r, SessionState_encrypt m ad (s, g) = ((s', g'), r) ∧
    sends l (S n) s' ∧ recv_view s' = recv_view s ∧ (pq = false → s_pq_state s' = None) ∧
    ∀ w, r = Ok w → packet_ok l pq n (mkPacket w m ad).
Proof.
  intros Hs Hn Hpq. pose proof Hs as [Hv Hsu Hsb Hdh Hdl Hp Hc Hh H2].
  unfold SessionState_encrypt, op_sending_key. unfold sm_bind at 1. rewrite Hc.
  rewrite next_message_key_ok by (simpl; lia). cbn [chain_key next_msg_num].
  replace (N.of_nat n + 1) with (N.of_nat (S n)) by lia.
  change (drop 32 (chain_okm (chain_at (lk_chain l) n))) with (chain_at (lk_chain l) (S n)).
  change (take 32 (chain_okm (chain_at (lk_chain l) n))) with (message_key_at (lk_chain l) n).
  set (s1 := set_sending_chain s _).
  assert (Hs1 : sends l (S n) s1) by (by split).
  assert (Hr1 : recv_view s1 = recv_view s) by done.
  assert (Hpq1 : pq = false → s_pq_state s1 = None) by done. clearbody s1.
  unfold sm_bind at 1. pose proof (op_pq_send_views (N.of_nat n) s1 g) as (Hsv & Hrv & Hpv).
  destruct (op_pq_send (N.of_nat n) (s1, g)) as [[s2 g2] [[[ct th] nk]|e]]; simpl in Hsv, Hrv, Hpv;
    pose proof (sends_view l (S n) _ _ (eq_sym Hsv) Hs1) as Hs2.
  2:{ exists s2, g2, (Err e). split_and!; [done..|by rewrite Hrv|naive_solver|done]. }
  pose proof Hs2 as [Hv' Hsu' Hsb' Hdh' Hdl' Hp' Hc' Hh' H2'].
  unfold sm_bind, op_session. simpl.
  set (h := {| h_sender_dh_pub := _ |}).
  edestruct (op_emit_ok s2 h (message_key_at (lk_chain l) n) m ad g2) as (g3 & r & He & Hw);
    [done|done|simpl; by rewrite Hdh'|simpl; lia|done|by rewrite Hh'|].
  exists s2, g3, r. split_and!; [done|done|by rewrite Hrv|naive_solver|].
  intros w Hr. destruct (Hw w Hr) as (d & inc & Hd & Hx & Hsuite & Hhd & Ho).
  exists d, inc. rewrite Hhd. split_and!; simpl; [done| |congruence|done|done|naive_solver|done].
  intros s' Hs'. apply Hx. congruence.
Qed.

(** Fields no send writes. *)
Lemma encrypt_keeps (m ad : bytes) (s s' : SessionState) (g g' : rng) (r : res bytes) :
  SessionState_encrypt m ad (s, g) = ((s', g'), r) →
  s_negotiated_wire_version s' = s_negotiated_wire_version s ∧
  s_local_dh s' = s_local_dh s ∧ s_prev_chain_len s' = s_prev_chain_len s.
Proof.
  unfold SessionState_encrypt, op_sending_key. unfold sm_bind at 1.
  destruct (next_message_key _) as [c [[n key]|]]; [|by intros [= <- _ _]].
  unfold sm_bind at 1. pose proof (op_pq_send_views n (set_sending_chain s c) g) as (Hv & _ & _).
  unfold send_view in Hv.
  destruct (op_pq_send n _) as [[s2 g2] [[[ct th] nk]|]]; simpl in Hv;
    injection Hv as _ _ Hw Hl Hp _ _; [|by intros [= <- _ _]].
  unfold sm_bind, op_session. cbn [fst]. set (h := {| h_sender_dh_pub := _ |}).
  intros He. assert (s' = s2) as ->; [|done].
  apply (f_equal (λ x, x.1.1)) in He. rewrite op_emit_session in He. done.
Qed.
End Packets.

Section Progress.
Context `{P : Primitives} `{!PrimitiveLaws P}.

(** ** Sending succeeds

    Without a post-quantum step, on messages that leave room for a padding
    block and the tag in one record. *)

Definition MAX_MESSAGE : N := 65000.

Lemma seal_fits (s : SessionState) (key m aad : bytes) (g : rng) :
  len m ≤ MAX_MESSAGE →
  let pt := if WIRE_VERSION_V2 <=? s_negotiated_wire_version s
            then pad_blocks m PADDING_BLOCK_SIZE else m in
  ∃ e g', op_seal key pt aad (s, g) = ((s, g'), Ok e) ∧
    length (nonce e) = 12%nat ∧ fits (ciphertext e) = true.
Proof.
  intros Hm pt. assert (Hpt : (length pt ≤ length m + 256)%nat).
  { unfold pt. destruct (_ <=? _); [|lia]. rewrite pad_blocks_length by (unfold PADDING_BLOCK_SIZE; lia).
    unfold PADDING_BLOCK_SIZE. pose proof (Nat.div_mod_eq (length m) 256). lia. }
  unfold op_seal, len, MAX_MESSAGE in *.
  destruct (encrypt_with_rng_ok key pt aad g) as (e & g' & He & Hn & Hc & _).
  { unfold len, u32_max. lia. }
  exists e, g'. rewrite He. split_and!; [done|done|].
  apply N.leb_le. unfold len, u16_max. lia.
Qed.

Lemma session_ad_ok (v su n p : N) (dh ad : bytes) :
  length dh = 32%nat → len ad ≤ u16_max →
  ∃ aad, session_associated_data v su dh n p None None None ad = Ok aad.
Proof.
  intros Hd Ha. apply encode_fits. simpl. rewrite (fits_short 32 dh) by done. simpl.
  rewrite andb_true_r. by apply N.leb_le.
Qed.

Lemma op_emit_total (s : SessionState) (h : HeaderPlaintext) (key m ad : bytes) (g : rng) :
  s_version s = WIRE_VERSION → s_suite_id s ≤ u16_max →
  length (h_sender_dh_pub h) = 32%nat → h_msg_num h ≤ u32_max → h_prev_chain_len h ≤ u32_max →
  h_pq_step_ct h = None → h_pq_target_pub_hash h = None → h_pq_next_public_key h = None →
  len m ≤ MAX_MESSAGE → len ad ≤ u16_max →
  ∃ w, (op_emit s h key m ad (s, g)).2 = Ok w.
Proof.
  intros Hv Hs Hdh Hn Hp H1 H2 H3 Hm Ha. unfold op_emit, sm_bind, sm_lift. rewrite H1, H2, H3.
  destruct (session_ad_ok (s_version s) (s_suite_id s) (h_msg_num h) (h_prev_chain_len h)
              (h_sender_dh_pub h) ad Hdh Ha) as [aad ->].
  destruct (seal_fits s key m aad g Hm) as (e & g' & -> & Hnc & Hct).
  destruct (WIRE_VERSION_V2 <=? s_negotiated_wire_version s).
  - destruct (HeaderPlaintext_encode_ok h) as [hb Hb]; [split; try done; by rewrite H1, H2, H3|].
    rewrite Hb. apply encode_length in Hb. unfold HeaderPlaintext_records in Hb.
    rewrite H1, H2, H3 in Hb. simpl in Hb. rewrite Hdh in Hb.
    set (hb' := match s_sending_header_key s with Some hk => encrypt_header hk hb | None => hb end).
    assert (Hl : length hb' = 52%nat).
    { unfold hb'. destruct (s_sending_header_key s); [rewrite length_encrypt_header|]; lia. }
    destruct (WireMessageV2_encode_ok (Build_WireMessageV2 WIRE_VERSION_V2 (s_suite_id s) hb'
                (nonce e) (ciphertext e))) as [w Hw]; [|by exists w].
    split; try done. simpl. by rewrite (fits_short 52), Hct.
  - destruct (WireMessage_encode_ok (Build_WireMessage (s_version s) (s_suite_id s)
      (h_sender_dh_pub h) (h_msg_num h) (h_prev_chain_len h) None None None (nonce e)
      (ciphertext e))) as [w Hw]; [|by exists w].
    split; try done. simpl. by rewrite Hv.
Qed.

Lemma encrypt_total (l : Link) (n : nat) (s : SessionState) (g : rng) (m ad : bytes) :
  sends l n s → N.of_nat n < u32_max → s_pq_state s = None →
  len m ≤ MAX_MESSAGE → len ad ≤ u16_max →
  ∃ w, (SessionState_encrypt m ad (s, g)).2 = Ok w.
Proof.
  intros [Hv Hsu Hsb Hdh Hdl Hp Hc Hh H2] Hn Hpq Hm Ha.
  unfold SessionState_encrypt, op_sending_key. unfold sm_bind at 1. rewrite Hc.
  rewrite next_message_key_ok by (simpl; lia). cbn [chain_key next_msg_num].
  unfold sm_bind at 1, op_pq_send. cbn [s_pq_state set_sending_chain]. rewrite Hpq.
  unfold sm_bind at 1, op_session. cbn [fst].
  apply op_emit_total; simpl; [done|done|by rewrite Hdh|lia|done..].
Qed.
End Progress.

Section Delivery.
Context `{P : Primitives} `{!PrimitiveLaws P}.
Variable l : Link.

(** ** The cache under delivery *)

Definition key_id (j : nat) : SkippedKeyId :=
  {| sk_dh_pub := lk_dh l; sk_msg_num := N.of_nat j |}.

Definition entry (j : nat) : SkippedKeyId * bytes := (key_id j, message_key_at (lk_chain l) j).

Lemma key_id_inj (i j : nat) : key_id i = key_id j → i = j.
Proof. unfold key_id. intros [=]. lia. Qed.

Lemma entries_drop (js : list nat) (i : nat) :
  filter (λ e, e.1 ≠ key_id i) (entry <$> js) = entry <$> filter (λ j, j ≠ i) js.
Proof.
  induction js as [|j js IH]; [done|]. rewrite fmap_cons, !filter_cons, IH. simpl.
  destruct (decide (j ≠ i)) as [Hne|He].
  - by rewrite decide_True by (intros ?%key_id_inj; done).
  - rewrite decide_False; [done|]. intros Hk. apply He. by intros ->.
Qed.

Lemma entries_find (js : list nat) (i : nat) :
  cache_find (entry <$> js) (key_id i) =
    if decide (i ∈ js) then Some (message_key_at (lk_chain l) i) else None.
Proof.
  induction js as [|j js IH]; [done|]. cbn [fmap list_fmap cache_find entry].
  destruct (decide (key_id j = key_id i)) as [->%key_id_inj|Hne].
  - by rewrite decide_True by left.
  - change (list_fmap nat _ entry js) with (entry <$> js). rewrite IH.
    assert (j ≠ i) by congruence. destruct (decide (i ∈ js)), (decide (i ∈ j :: js)); set_solver.
Qed.

Lemma entries_nodup (js : list nat) : NoDup js → NoDup (entry <$> js).*1.
Proof.
  intros H. rewrite <- list_fmap_compose. apply NoDup_fmap_2; [|done].
  intros i j. apply key_id_inj.
Qed.

Lemma undelivered_entries (got : list nat) (r : nat) :
  undelivered l got r = entry <$> filter (λ j, j ∉ got) (seq 0 r).
Proof. done. Qed.

Lemma filter_filter_cons (js got : list nat) (i : nat) :
  filter (λ j, j ≠ i) (filter (λ j, j ∉ got) js) = filter (λ j, j ∉ i :: got) js.
Proof.
  rewrite list_filter_filter. apply list_filter_iff. intros j. set_solver.
Qed.

Lemma undelivered_extend (got : list nat) (r k : nat) :
  (∀ j, j ∈ got → (j < r)%nat) →
  undelivered l got r ++ skipped_range (lk_dh l) (lk_chain l) r k = undelivered l got (r + k).
Proof.
  intros Hg. rewrite !undelivered_entries. change (skipped_range _ _ r k) with (entry <$> seq r k).
  rewrite seq_app, list.filter_app, fmap_app. f_equal. simpl. f_equal. symmetry. apply filter_all.
  intros j Hj Hin. apply elem_of_seq in Hj. apply Hg in Hin. lia.
Qed.

Lemma undelivered_next (got : list nat) (i : nat) :
  (∀ j, j ∈ got → (j < i)%nat) → undelivered l (i :: got) (S i) = undelivered l got i.
Proof.
  intros Hg. rewrite !undelivered_entries, seq_S, list.filter_app. simpl.
  rewrite filter_cons_False, filter_nil, app_nil_r by set_solver. f_equal.
  rewrite <- filter_filter_cons. apply filter_all.
  intros j [_ Hj]%list_elem_of_filter ->. apply elem_of_seq in Hj. lia.
Qed.

Lemma undelivered_length (got : list nat) (r : nat) : (length (undelivered l got r) ≤ r)%nat.
Proof.
  rewrite undelivered_entries, length_fmap.
  pose proof (length_filter (λ j, j ∉ got) (seq 0 r)) as H. by rewrite length_seq in H.
Qed.

(** ** Receiving one packet *)

(** Everything but the receiving chain and the cache. *)
Definition other_view (s : SessionState) :=
  (send_view s, s_remote_dh_pub s, s_receiving_header_key s, s_root_key s, s_pq_state s,
   s_pq_kem s).

Lemma receives_set (got : list nat) (s : SessionState) (c : ChainState) (sk : SkippedMessageKeys)
    (r : nat) :
  s_suite_id s = lk_suite l → s_remote_dh_pub s = lk_dh l → s_receiving_header_key s = lk_header l →
  skipped_inv sk → c = mkChain (chain_at (lk_chain l) r) (N.of_nat r) →
  (∀ i, i ∈ got → (i < r)%nat) → skipped_entries sk = undelivered l got r →
  receives l got (set_receiving s c sk).
Proof. intros. split; eauto. Qed.

(** An old number: its key is in the cache unless it was delivered before. *)
Lemma take_skipped_receives (got : list nat) (s : SessionState) (g : rng) (i r : nat) :
  receives l got s → s_receiving_chain s = mkChain (chain_at (lk_chain l) r) (N.of_nat r) →
  (i < r)%nat →
  ∃ s', op_take_skipped (key_id i) (s, g) =
      ((s', g), if decide (i ∈ got) then Err MessageKeyUnavailable
                else Ok (message_key_at (lk_chain l) i)) ∧
    receives l (i :: got) s' ∧ other_view s' = other_view s ∧
    sk_max_entries (s_skipped s') = sk_max_entries (s_skipped s).
Proof.
  intros [Hsu Hdh Hh Hinv (r' & Hc & Hg & He)] Hr Hi. rewrite Hc in Hr.
  assert (r' = r) as -> by (injection Hr; lia).
  pose proof (skipped_take_refines _ (key_id i) Hinv) as Ht.
  pose proof (skipped_take_inv _ (key_id i) Hinv) as Hinv'.
  rewrite He, undelivered_entries in Ht. unfold cache_take in Ht.
  rewrite entries_drop, entries_find, filter_filter_cons in Ht.
  unfold op_take_skipped.
  assert (Hm : sk_max_entries (skipped_take (s_skipped s) (key_id i)).1
               = sk_max_entries (s_skipped s)) by done.
  destruct (skipped_take (s_skipped s) (key_id i)) as [sk o]. cbn [fst snd] in *.
  injection Ht as Ht Ho.
  eexists. split; [|split_and!].
  - f_equal. rewrite Ho. destruct (decide (i ∈ got)).
    + rewrite decide_False; [done|]. intros [? _]%list_elem_of_filter. done.
    + rewrite decide_True; [done|]. apply list_elem_of_filter. split; [done|].
      apply elem_of_seq. lia.
  - apply (receives_set _ _ _ _ r); try done.
    intros j [->|Hj]%elem_of_cons; [done|auto].
  - done.
  - done.
Qed.

(** A new number: the chain is followed, the keys in between are kept. *)
Lemma skip_receives (got : list nat) (s : SessionState) (g : rng) (i r : nat) :
  receives l got s → s_receiving_chain s = mkChain (chain_at (lk_chain l) r) (N.of_nat r) →
  (r ≤ i)%nat → N.of_nat i < u32_max → N.of_nat i < sk_max_entries (s_skipped s) →
  ∃ s', sm_bind (skip_until (lk_dh l) (N.of_nat i))
          (λ _, sm_bind op_receiving_key (λ key, sm_ret key.2)) (s, g) =
      ((s', g), Ok (message_key_at (lk_chain l) i)) ∧
    receives l (i :: got) s' ∧ other_view s' = other_view s ∧
    sk_max_entries (s_skipped s') = sk_max_entries (s_skipped s).
Proof.
  intros [Hsu Hdh Hh Hinv (r' & Hc & Hg & He)] Hr Hi Hu Hw. rewrite Hc in Hr.
  assert (r' = r) as -> by (injection Hr; lia). clear Hr.
  destruct (foldl_insert (skipped_range (lk_dh l) (lk_chain l) r (i - r)) (s_skipped s) Hinv)
    as (Hinv' & Hm' & He').
  { rewrite He, undelivered_extend by done. rewrite undelivered_entries.
    apply entries_nodup, list.NoDup_filter, NoDup_seq. }
  { rewrite He, undelivered_extend by done.
    pose proof (undelivered_length got (r + (i - r))). lia. }
  rewrite He, undelivered_extend in He' by done.
  replace (r + (i - r))%nat with i in He' by lia.
  unfold skip_until, sm_bind. rewrite Hc. cbn [next_msg_num].
  pose proof (skip_loop_run (lk_dh l) (lk_chain l) (i - r) r
                (N.to_nat (N.of_nat i - N.of_nat r)) (s_skipped s)) as Hloop.
  replace (r + (i - r))%nat with i in Hloop by lia. rewrite Hloop by lia. clear Hloop.
  unfold op_receiving_key. cbn [s_receiving_chain set_receiving].
  rewrite next_message_key_ok by (simpl; lia). cbn [chain_key next_msg_num].
  eexists. split; [done|]. split_and!; [|done|done].
  apply (receives_set _ _ _ _ (S i)); try done.
  - simpl. f_equal. lia.
  - intros j [->|Hj]%elem_of_cons; [lia|]. apply Hg in Hj. lia.
  - rewrite undelivered_next; [done|]. intros j Hj. apply Hg in Hj. lia.
Qed.

Lemma message_key_receives (got : list nat) (s : SessionState) (g : rng) (h : HeaderPlaintext)
    (i : nat) :
  receives l got s → h_sender_dh_pub h = lk_dh l → h_msg_num h = N.of_nat i →
  N.of_nat i < u32_max → N.of_nat i < sk_max_entries (s_skipped s) →
  ∃ s', op_message_key h (s, g) =
      ((s', g), if decide (i ∈ got) then Err MessageKeyUnavailable
                else Ok (message_key_at (lk_chain l) i)) ∧
    receives l (i :: got) s' ∧ other_view s' = other_view s ∧
    sk_max_entries (s_skipped s') = sk_max_entries (s_skipped s).
Proof.
  intros Hr Hdh Hn Hu Hw. pose proof Hr as [_ _ _ _ (r & Hc & Hg & _)].
  unfold op_message_key. unfold sm_bind at 1, op_session. cbn [fst].
  rewrite Hdh, Hn, Hc. cbn [next_msg_num].
  destruct (N.ltb_spec (N.of_nat i) (N.of_nat r)) as [Hlt|Hge].
  - apply (take_skipped_receives got s g i r); [done..|lia].
  - rewrite decide_False by (intros Hin%Hg; lia).
    apply (skip_receives got s g i r); [done..|lia|done|done].
Qed.

Lemma pq_receive_views (s : SessionState) (g : rng) (h : HeaderPlaintext) :
  let '((s', g'), r) := op_pq_receive h (s, g) in
  g' = g ∧ send_view s' = send_view s ∧ recv_view s' = recv_view s ∧
  (h_pq_step_ct h = None → s' = s ∧ r = Ok tt).
Proof.
  unfold op_pq_receive. destruct (h_pq_step_ct h); [|done].
  destruct (s_pq_state s); [|done]. destruct (s_pq_kem s); [|done].
  by destruct (receiver_step _ _ _ _ _ _ _) as [? [|]].
Qed.

Lemma decrypt_receives (pq : bool) (got : list nat) (s : SessionState) (g : rng) (i : nat)
    (p : Packet) :
  receives l got s → packet_ok l pq i p →
  N.of_nat i < u32_max → N.of_nat i < sk_max_entries (s_skipped s) →
  ∃ s' r, SessionState_decrypt (pk_wire p) (pk_ad p) (s, g) = ((s', g), r) ∧
    receives l (i :: got) s' ∧ send_view s' = send_view s ∧
    sk_max_entries (s_skipped s') = sk_max_entries (s_skipped s) ∧
    (pq = false → s_pq_state s' = s_pq_state s) ∧
    if decide (i ∈ got) then r = Err MessageKeyUnavailable
    else r = Ok (pk_msg p) ∨ (pq = true ∧ ∃ e, r = Err e).
Proof.
  intros Hr (d & inc & Hd & Hx & Hsu & Hdh & Hn & Hct & Ho) Hu Hw.
  pose proof Hr as [Hsuite Hrdh Hhk _ _].
  unfold SessionState_decrypt, sm_bind, sm_lift, op_session. rewrite Hd. cbn [fst].
  rewrite (Hx s Hhk), Hsu, Hsuite, N.eqb_refl. cbn [negb].
  unfold receive_incoming. unfold sm_bind at 1. unfold op_follow_ratchet, sm_bind at 1, op_session.
  cbn [fst]. rewrite Hdh, Hrdh, bool_decide_true by done. unfold sm_ret at 1.
  destruct (message_key_receives got s g (in_header inc) i) as (s1 & Hk & Hr1 & Hv1 & Hm1);
    [done..|]. unfold sm_bind at 1. rewrite Hk.
  assert (Hsv1 : send_view s1 = send_view s) by (unfold other_view in Hv1; congruence).
  assert (Hpq1 : s_pq_state s1 = s_pq_state s) by (unfold other_view in Hv1; congruence).
  destruct (decide (i ∈ got)).
  { by exists s1, (Err MessageKeyUnavailable). }
  unfold sm_bind at 1, sm_lift. rewrite Ho. unfold sm_bind.
  pose proof (pq_receive_views s1 g (in_header inc)) as Hq.
  destruct (op_pq_receive (in_header inc) (s1, g)) as [[s2 g2] r2].
  destruct Hq as (-> & Hsv2 & Hrv2 & Hno). unfold sm_ret.
  assert (Hr2 : receives l (i :: got) s2) by (by eapply receives_view).
  assert (Hm2 : sk_max_entries (s_skipped s2) = sk_max_entries (s_skipped s))
    by (injection Hrv2 as _ _ _ -> _; done).
  assert (Hp2 : pq = false → s_pq_state s2 = s_pq_state s).
  { intros Hf. destruct (Hno (Hct Hf)) as [-> _]. done. }
  destruct r2 as [[]|e].
  - exists s2, (Ok (pk_msg p)). split_and!; [done..|congruence|done|done|by left].
  - exists s2, (Err e). split_and!; [done..|congruence|done|done|right].
    destruct pq; [eauto|]. destruct (Hno (Hct eq_refl)) as [_ ?]. done.
Qed.
End Delivery.
