(* ===== verification/Conversation.v ===== *)
(** * Conversations of two honest sessions

    Two parties, the packets each has sent, and a network that may deliver any
    packet sent so far, any number of times, in any order. [net_step] runs the
    code of [encrypt] and [decrypt]; [mail_step] is what the conversation
    promises its users. The theorems say that a conversation without the
    post-quantum ratchet is the promised one, and what holds with it. *)

From Stdlib Require Import Strings.Byte.
From S2P Require Import Prelude Bytes Errors Tlv Crypto Toy Alg.
From S2P Require Import Aead Wire Ratchet PqRatchet Session SessionRun.
Local Open Scope N_scope.

Inductive Party := Alice | Bob.

#[export] Instance Party_eq_decision : EqDecision Party.
Proof. solve_decision. Defined.

Inductive Event :=
| Send (from : Party) (m ad : bytes)
| Deliver (to : Party) (i : nat).

Inductive Outcome :=
| Sent
| SendFailed (e : CoreError)
| Delivered (m : bytes)
| Rejected (e : CoreError)
| Absent.

(** ** The promise *)

Record Mail := mkMail {
  mail_a : list bytes;
  mail_b : list bytes;
  read_a : list nat;
  read_b : list nat;
}.

Definition mail_read (box : list bytes) (seen : list nat) (i : nat) : list nat * Outcome :=
  match box !! i with
  | None => (seen, Absent)
  | Some m =>
      (i :: seen, if decide (i ∈ seen) then Rejected MessageKeyUnavailable else Delivered m)
  end.

Definition mail_step (ml : Mail) (e : Event) : Mail * Outcome :=
  match e with
  | Send Alice m _ => (mkMail (mail_a ml ++ [m]) (mail_b ml) (read_a ml) (read_b ml), Sent)
  | Send Bob m _ => (mkMail (mail_a ml) (mail_b ml ++ [m]) (read_a ml) (read_b ml), Sent)
  | Deliver Alice i =>
      let '(seen, o) := mail_read (mail_b ml) (read_a ml) i in
      (mkMail (mail_a ml) (mail_b ml) seen (read_b ml), o)
  | Deliver Bob i =>
      let '(seen, o) := mail_read (mail_a ml) (read_b ml) i in
      (mkMail (mail_a ml) (mail_b ml) (read_a ml) seen, o)
  end.

(** A run and its outcomes, for either machine. *)
Fixpoint run {S} (step : S → Event → S * Outcome) (s : S) (es : list Event) : S * list Outcome :=
  match es with
  | [] => (s, [])
  | e :: es =>
      let '(s, o) := step s e in
      let '(s, os) := run step s es in
      (s, o :: os)
  end.

Fixpoint count_sends (p : Party) (es : list Event) : nat :=
  match es with
  | [] => 0
  | Send q _ _ :: es => if decide (q = p) then S (count_sends p es) else count_sends p es
  | Deliver _ _ :: es => count_sends p es
  end.

Definition event_fits (e : Event) : Prop :=
  match e with
  | Send _ m ad => len m ≤ MAX_MESSAGE ∧ len ad ≤ u16_max
  | Deliver _ _ => True
  end.

(** ** The code *)

Record Net `{P : Primitives} := mkNet {
  alice : SessionState;
  bob : SessionState;
  gen : rng;
  sent_a : list (option Packet);
  sent_b : list (option Packet);
  got_a : list nat;
  got_b : list nat;
}.

Section Network.
Context `{P : Primitives}.

(** A send attempt that failed leaves a gap: its number is used up. *)
Definition packet_of (r : res bytes) (m ad : bytes) : option Packet :=
  match r with Ok w => Some (mkPacket w m ad) | Err _ => None end.

Definition outcome_sent (r : res bytes) : Outcome :=
  match r with Ok _ => Sent | Err e => SendFailed e end.

Definition outcome_delivered (r : res bytes) : Outcome :=
  match r with Ok m => Delivered m | Err e => Rejected e end.

Definition net_step (n : Net) (e : Event) : Net * Outcome :=
  match e with
  | Send Alice m ad =>
      let '((s, g), r) := SessionState_encrypt m ad (alice n, gen n) in
      (mkNet _ s (bob n) g (sent_a n ++ [packet_of r m ad]) (sent_b n) (got_a n) (got_b n),
       outcome_sent r)
  | Send Bob m ad =>
      let '((s, g), r) := SessionState_encrypt m ad (bob n, gen n) in
      (mkNet _ (alice n) s g (sent_a n) (sent_b n ++ [packet_of r m ad]) (got_a n) (got_b n),
       outcome_sent r)
  | Deliver Alice i =>
      match sent_b n !! i with
      | Some (Some p) =>
          let '((s, g), r) := SessionState_decrypt (pk_wire p) (pk_ad p) (alice n, gen n) in
          (mkNet _ s (bob n) g (sent_a n) (sent_b n) (i :: got_a n) (got_b n), outcome_delivered r)
      | _ => (n, Absent)
      end
  | Deliver Bob i =>
      match sent_a n !! i with
      | Some (Some p) =>
          let '((s, g), r) := SessionState_decrypt (pk_wire p) (pk_ad p) (bob n, gen n) in
          (mkNet _ (alice n) s g (sent_a n) (sent_b n) (got_a n) (i :: got_b n), outcome_delivered r)
      | _ => (n, Absent)
      end
  end.

Definition net_start (a b : SessionState) (g : rng) : Net := mkNet _ a b g [] [] [] [].

Context `{!PrimitiveLaws P}.

(** ** One direction of a conversation *)

(** Sender, what it sent, receiver, what it was given, and the room left. *)
Record direction (l : Link) (pq : bool) (w : N) (s : SessionState) (sent : list (option Packet))
    (r : SessionState) (got : list nat) : Prop := {
  dir_sends : sends l (length sent) s;
  dir_receives : receives l got r;
  dir_packets : ∀ i p, sent !! i = Some (Some p) → packet_ok l pq i p;
  dir_window : sk_max_entries (s_skipped r) = w;
  dir_room : N.of_nat (length sent) ≤ w;
}.

Lemma direction_bound (l : Link) (pq : bool) (w : N) (s r : SessionState)
    (sent : list (option Packet)) (got : list nat) :
  direction l pq w s sent r got → w < u32_max.
Proof.
  intros [_ [_ _ _ Hinv _] _ <- _]. pose proof (skipped_max _ Hinv) as Hm.
  unfold MAX_SKIPPED_KEYS_UPPER_BOUND in Hm. unfold u32_max. lia.
Qed.

Lemma direction_frame (l : Link) (pq : bool) (w : N) (s s' r r' : SessionState)
    (sent : list (option Packet)) (got : list nat) :
  send_view s' = send_view s → recv_view r' = recv_view r →
  direction l pq w s sent r got → direction l pq w s' sent r' got.
Proof.
  intros Hs Hr [Hsend Hrecv Hp Hw Hroom]. split; try done.
  - by apply (sends_view l _ s).
  - by apply (receives_view l _ r).
  - unfold recv_view in Hr. congruence.
Qed.

Lemma direction_send (l : Link) (pq : bool) (w : N) (s r : SessionState)
    (sent : list (option Packet)) (got : list nat) (g : rng) (m ad : bytes) :
  direction l pq w s sent r got → (pq = false → s_pq_state s = None) →
  N.of_nat (S (length sent)) ≤ w →
  ∃ s' g' res, SessionState_encrypt m ad (s, g) = ((s', g'), res) ∧
    direction l pq w s' (sent ++ [packet_of res m ad]) r got ∧
    recv_view s' = recv_view s ∧ (pq = false → s_pq_state s' = None) ∧
    (pq = false → len m ≤ MAX_MESSAGE → len ad ≤ u16_max → ∃ wire, res = Ok wire).
Proof.
  intros Hd Hpq Hroom. pose proof (direction_bound _ _ _ _ _ _ _ Hd) as Hb.
  destruct Hd as [Hsend Hrecv Hp Hw _].
  destruct (encrypt_sends l pq (length sent) s g m ad Hsend ltac:(lia) Hpq)
    as (s' & g' & res & He & Hs' & Hv & Hpq' & Hok).
  exists s', g', res. split; [done|]. split_and!; [|done|done|].
  - split; try done; [|..].
    + by rewrite length_app, Nat.add_1_r.
    + intros i p. destruct (decide (i < length sent)%nat).
      * rewrite lookup_app_l by done. apply Hp.
      * rewrite lookup_app_r by lia. destruct (i - length sent)%nat eqn:Ei; [|done].
        replace i with (length sent) by lia. simpl. intros [= Hr].
        destruct res as [wire|]; [|done]. injection Hr as <-. by apply Hok.
    + rewrite length_app. simpl. lia.
  - intros Hf Hm Ha. destruct (encrypt_total l (length sent) s g m ad) as [wire Hr]; auto; [lia|].
    rewrite He in Hr. by exists wire.
Qed.

Lemma direction_deliver (l : Link) (pq : bool) (w : N) (s r : SessionState)
    (sent : list (option Packet)) (got : list nat) (g : rng) (i : nat) (p : Packet) :
  direction l pq w s sent r got → sent !! i = Some (Some p) →
  ∃ r' res, SessionState_decrypt (pk_wire p) (pk_ad p) (r, g) = ((r', g), res) ∧
    direction l pq w s sent r' (i :: got) ∧
    send_view r' = send_view r ∧ sk_max_entries (s_skipped r') = w ∧
    (pq = false → s_pq_state r' = s_pq_state r) ∧
    if decide (i ∈ got) then res = Err MessageKeyUnavailable
    else res = Ok (pk_msg p) ∨ (pq = true ∧ ∃ e, res = Err e).
Proof.
  intros Hd Hi. pose proof (direction_bound _ _ _ _ _ _ _ Hd) as Hb.
  destruct Hd as [Hsend Hrecv Hp Hw Hroom]. apply lookup_lt_Some in Hi as Hlt.
  destruct (decrypt_receives l pq got r g i p) as (r' & res & Hdec & Hr' & Hv & Hm & Hq & Hres);
    [done|by apply Hp|lia|lia|].
  exists r', res. split_and!; [done| |done|congruence|done|done].
  split; [done..|congruence|done].
Qed.

(** ** Both directions *)

Record net_inv (lab lba : Link) (pq : bool) (w : N) (n : Net) : Prop := {
  inv_ab : direction lab pq w (alice n) (sent_a n) (bob n) (got_b n);
  inv_ba : direction lba pq w (bob n) (sent_b n) (alice n) (got_a n);
  inv_pq : pq = false → s_pq_state (alice n) = None ∧ s_pq_state (bob n) = None;
}.

Definition room (w : N) (n : Net) (e : Event) : Prop :=
  match e with
  | Send Alice _ _ => N.of_nat (S (length (sent_a n))) ≤ w
  | Send Bob _ _ => N.of_nat (S (length (sent_b n))) ≤ w
  | Deliver _ _ => True
  end.

(** What a step may answer: a delivery returns the message that was sent, once,
    and a replay is refused. *)
Definition delivery_ok (pq : bool) (sent : list (option Packet)) (got : list nat) (i : nat)
    (o : Outcome) : Prop :=
  match sent !! i with
  | Some (Some p) =>
      if decide (i ∈ got) then o = Rejected MessageKeyUnavailable
      else o = Delivered (pk_msg p) ∨ (pq = true ∧ ∃ e, o = Rejected e)
  | _ => o = Absent
  end.

Definition outcome_ok (pq : bool) (n : Net) (e : Event) (o : Outcome) : Prop :=
  match e with
  | Send _ m ad =>
      o = Sent ∨ ((pq = false → ¬ event_fits e) ∧ ∃ err, o = SendFailed err)
  | Deliver Alice i => delivery_ok pq (sent_b n) (got_a n) i o
  | Deliver Bob i => delivery_ok pq (sent_a n) (got_b n) i o
  end.

Lemma outcome_sent_ok (pq : bool) (n : Net) (p : Party) (m ad : bytes) (r : res bytes) :
  (pq = false → len m ≤ MAX_MESSAGE → len ad ≤ u16_max → ∃ wire, r = Ok wire) →
  outcome_ok pq n (Send p m ad) (outcome_sent r).
Proof.
  intros H. destruct r as [wire|err]; [by left|]. right. split; [|by exists err].
  intros Hf [Hm Ha]. by destruct (H Hf Hm Ha).
Qed.

Lemma delivery_outcome_ok (pq : bool) (sent : list (option Packet)) (got : list nat) (i : nat)
    (p : Packet) (r : res bytes) :
  sent !! i = Some (Some p) →
  (if decide (i ∈ got) then r = Err MessageKeyUnavailable
   else r = Ok (pk_msg p) ∨ (pq = true ∧ ∃ e, r = Err e)) →
  delivery_ok pq sent got i (outcome_delivered r).
Proof.
  intros Hi Hr. unfold delivery_ok. rewrite Hi. destruct (decide (i ∈ got)); [by subst|].
  destruct Hr as [->|[-> [e ->]]]; [by left|]. right. eauto.
Qed.

Lemma net_step_inv (lab lba : Link) (pq : bool) (w : N) (n : Net) (e : Event) :
  net_inv lab lba pq w n → room w n e →
  net_inv lab lba pq w (net_step n e).1 ∧ outcome_ok pq n e (net_step n e).2.
Proof.
  intros [Hab Hba Hpq] Hroom. destruct e as [[|] m ad|[|] i]; simpl.
  - destruct (direction_send _ _ _ _ _ _ _ (gen n) m ad Hab)
      as (s' & g' & r & He & Hd & Hv & Hq & Htot); [naive_solver|done|]. rewrite He.
    split; [split; simpl; [done|by eapply direction_frame|naive_solver]|].
    by apply (outcome_sent_ok _ n Alice).
  - destruct (direction_send _ _ _ _ _ _ _ (gen n) m ad Hba)
      as (s' & g' & r & He & Hd & Hv & Hq & Htot); [naive_solver|done|]. rewrite He.
    split; [split; simpl; [by eapply direction_frame|done|naive_solver]|].
    by apply (outcome_sent_ok _ n Bob).
  - destruct (sent_b n !! i) as [[p|]|] eqn:Ei; [|by unfold delivery_ok; rewrite Ei..].
    destruct (direction_deliver _ _ _ _ _ _ _ (gen n) i p Hba Ei)
      as (r' & res & He & Hd & Hv & _ & Hq & Hres). rewrite He.
    split; [split; simpl; [by eapply direction_frame|done|]|by eapply delivery_outcome_ok].
    intros Hf. destruct (Hpq Hf). rewrite (Hq Hf). done.
  - destruct (sent_a n !! i) as [[p|]|] eqn:Ei; [|by unfold delivery_ok; rewrite Ei..].
    destruct (direction_deliver _ _ _ _ _ _ _ (gen n) i p Hab Ei)
      as (r' & res & He & Hd & Hv & _ & Hq & Hres). rewrite He.
    split; [split; simpl; [done|by eapply direction_frame|]|by eapply delivery_outcome_ok].
    intros Hf. destruct (Hpq Hf). rewrite (Hq Hf). done.
Qed.

(** ** The start *)

Lemma from_handshake_ok (role : SessionRole) (rk : bytes) (kp : DhKeyPair) (remote : bytes)
    (suite wv max : N) :
  ∃ s cks ckr hks hkr,
    from_handshake_with_suite_and_wire_version role rk kp remote suite wv max = Ok s ∧
    hkdf_sha256_32 rk None INFO_INITIATOR_SEND = Ok cks ∧
    hkdf_sha256_32 rk None INFO_INITIATOR_RECV = Ok ckr ∧
    hkdf_sha256_32 rk None INFO_INITIATOR_SEND_HK = Ok hks ∧
    hkdf_sha256_32 rk None INFO_INITIATOR_RECV_HK = Ok hkr ∧
    let v2 := WIRE_VERSION_V2 <=? wv in
    let opt k := if v2 then Some k else None in
    s = mkSession _ WIRE_VERSION suite wv rk
      (ChainState_new (if role is Initiator then cks else ckr))
      (ChainState_new (if role is Initiator then ckr else cks))
      kp remote 0 (SkippedMessageKeys_new max) None None
      (opt (if role is Initiator then hks else hkr))
      (opt (if role is Initiator then hkr else hks)) None.
Proof.
  destruct (hkdf_sha256_32_ok rk None INFO_INITIATOR_SEND) as (cks & H1 & _).
  destruct (hkdf_sha256_32_ok rk None INFO_INITIATOR_RECV) as (ckr & H2 & _).
  destruct (hkdf_sha256_32_ok rk None INFO_INITIATOR_SEND_HK) as (hks & H3 & _).
  destruct (hkdf_sha256_32_ok rk None INFO_INITIATOR_RECV_HK) as (hkr & H4 & _).
  unfold from_handshake_with_suite_and_wire_version. rewrite H1, H2, H3, H4.
  eexists _, cks, ckr, hks, hkr. split; [|done].
  destruct role; rewrite ?H1, ?H2, ?H3, ?H4; by destruct (WIRE_VERSION_V2 <=? wv).
Qed.

(** Two sessions created from one secret with each other's keys are linked, in
    either direction. [a] plays the initiator. *)
Lemma handshake_linked (rk : bytes) (ka kb : DhKeyPair) (suite wv max : N) (a b : SessionState)
    (g : rng) :
  length (public ka) = 32%nat → length (public kb) = 32%nat → suite ≤ u16_max →
  from_handshake_with_suite_and_wire_version Initiator rk ka (public kb) suite wv max = Ok a →
  from_handshake_with_suite_and_wire_version Responder rk kb (public ka) suite wv max = Ok b →
  ∃ lab lba, net_inv lab lba false (max `min` 2048) (net_start a b g) ∧
    lk_dh lab = public ka ∧ lk_dh lba = public kb ∧
    hkdf_sha256_32 rk None INFO_INITIATOR_SEND = Ok (lk_chain lab) ∧
    hkdf_sha256_32 rk None INFO_INITIATOR_RECV = Ok (lk_chain lba).
Proof.
  intros Hka Hkb Hsu Ha Hb.
  destruct (from_handshake_ok Initiator rk ka (public kb) suite wv max)
    as (a' & cks & ckr & hks & hkr & Ha' & H1 & H2 & H3 & H4 & ->).
  destruct (from_handshake_ok Responder rk kb (public ka) suite wv max)
    as (b' & cks' & ckr' & hks' & hkr' & Hb' & H1' & H2' & H3' & H4' & ->).
  assert (cks' = cks) as -> by congruence. assert (ckr' = ckr) as -> by congruence.
  assert (hks' = hks) as -> by congruence. assert (hkr' = hkr) as -> by congruence.
  rewrite Ha' in Ha. rewrite Hb' in Hb. injection Ha as <-. injection Hb as <-.
  exists (mkLink suite (public ka) cks (if WIRE_VERSION_V2 <=? wv then Some hks else None)),
         (mkLink suite (public kb) ckr (if WIRE_VERSION_V2 <=? wv then Some hkr else None)).
  split_and!; [|done..]. split; [| |done].
  all: split; simpl; try done; try lia.
  all: split; simpl; try done; try lia; try apply skipped_new_inv.
  all: try (intros Hv; rewrite (proj2 (N.leb_le _ _) Hv); eauto).
  all: exists 0%nat; split_and!; try done; set_solver.
Qed.
End Network.

Section Refinement.
Context `{P : Primitives} `{!PrimitiveLaws P}.

(** The network state that stands for a state of the promise. *)
Record agrees (n : Net) (ml : Mail) : Prop := {
  agrees_a : fmap pk_msg <$> sent_a n = Some <$> mail_a ml;
  agrees_b : fmap pk_msg <$> sent_b n = Some <$> mail_b ml;
  agrees_got_a : got_a n = read_a ml;
  agrees_got_b : got_b n = read_b ml;
}.

Lemma delivery_read (sent : list (option Packet)) (box : list bytes) (got : list nat) (i : nat)
    (o : Outcome) :
  fmap pk_msg <$> sent = Some <$> box → delivery_ok false sent got i o →
  mail_read box got i =
    (match sent !! i with Some (Some _) => i :: got | _ => got end, o).
Proof.
  intros Hbox. unfold delivery_ok, mail_read.
  apply (f_equal (λ l, l !! i)) in Hbox. rewrite !list_lookup_fmap in Hbox.
  destruct (sent !! i) as [[p|]|], (box !! i) as [m|]; try done; simpl in Hbox.
  - injection Hbox as <-. destruct (decide (i ∈ got)); [by intros ->|].
    by intros [->|[? _]].
  - by intros ->.
Qed.

Lemma net_mail_step (lab lba : Link) (w : N) (n : Net) (ml : Mail) (e : Event) :
  net_inv lab lba false w n → agrees n ml → room w n e → event_fits e →
  agrees (net_step n e).1 (mail_step ml e).1 ∧ (net_step n e).2 = (mail_step ml e).2.
Proof.
  intros Hinv [Ha Hb Hga Hgb] Hroom Hfit.
  pose proof (net_step_inv _ _ _ _ _ _ Hinv Hroom) as [_ Hout].
  destruct e as [[|] m ad|[|] i]; simpl in *.
  - destruct (SessionState_encrypt m ad _) as [[s g] r]. simpl in *.
    destruct Hout as [Hs|[Hf _]]; [|by destruct (Hf eq_refl)]. destruct r; [|done].
    split; [|done]. split; simpl; try done. by rewrite !fmap_app, Ha.
  - destruct (SessionState_encrypt m ad _) as [[s g] r]. simpl in *.
    destruct Hout as [Hs|[Hf _]]; [|by destruct (Hf eq_refl)]. destruct r; [|done].
    split; [|done]. split; simpl; try done. by rewrite !fmap_app, Hb.
  - rewrite <- Hga. apply (delivery_read _ _ _ _ _ Hb) in Hout. rewrite Hout. simpl.
    destruct (sent_b n !! i) as [[p|]|]; [|by split..].
    destruct (SessionState_decrypt _ _ _) as [[s g] r]. by split.
  - rewrite <- Hgb. apply (delivery_read _ _ _ _ _ Ha) in Hout. rewrite Hout. simpl.
    destruct (sent_a n !! i) as [[p|]|]; [|by split..].
    destruct (SessionState_decrypt _ _ _) as [[s g] r]. by split.
Qed.

(** How the number of packets grows along a run. *)
Lemma net_step_lengths (n : Net) (e : Event) :
  length (sent_a (net_step n e).1) = (length (sent_a n) + count_sends Alice [e])%nat ∧
  length (sent_b (net_step n e).1) = (length (sent_b n) + count_sends Bob [e])%nat.
Proof.
  destruct e as [[|] m ad|[|] i]; simpl.
  - destruct (SessionState_encrypt _ _ _) as [[? ?] ?]. simpl. rewrite length_app. simpl. lia.
  - destruct (SessionState_encrypt _ _ _) as [[? ?] ?]. simpl. rewrite length_app. simpl. lia.
  - repeat case_match; simpl; lia.
  - repeat case_match; simpl; lia.
Qed.

Lemma count_sends_cons (p : Party) (e : Event) (es : list Event) :
  count_sends p (e :: es) = (count_sends p [e] + count_sends p es)%nat.
Proof. destruct e as [q m ad|q i]; simpl; [by destruct (decide (q = p))|done]. Qed.

Lemma count_sends_app (p : Party) (es es' : list Event) :
  count_sends p (es ++ es') = (count_sends p es + count_sends p es')%nat.
Proof.
  induction es as [|e es IH]; [done|]. simpl app.
  rewrite (count_sends_cons _ e (es ++ es')), (count_sends_cons _ e es), IH. lia.
Qed.

Definition run_room (w : N) (n : Net) (es : list Event) : Prop :=
  N.of_nat (length (sent_a n) + count_sends Alice es) ≤ w ∧
  N.of_nat (length (sent_b n) + count_sends Bob es) ≤ w.

Lemma run_room_cons (w : N) (n : Net) (e : Event) (es : list Event) :
  run_room w n (e :: es) → room w n e ∧ run_room w (net_step n e).1 es.
Proof.
  unfold run_room. rewrite !(count_sends_cons _ e es).
  pose proof (net_step_lengths n e) as [-> ->]. intros [H1 H2]. split; [|lia].
  destruct e as [[|] m ad|[|] i]; simpl in *; lia || done.
Qed.

Lemma run_cons {S} (step : S → Event → S * Outcome) (s : S) (e : Event) (es : list Event) :
  run step s (e :: es) =
    ((run step (step s e).1 es).1, (step s e).2 :: (run step (step s e).1 es).2).
Proof. simpl. destruct (step s e) as [s' o]. simpl. by destruct (run step s' es). Qed.

Lemma run_inv (lab lba : Link) (pq : bool) (w : N) (es : list Event) (n : Net) :
  net_inv lab lba pq w n → run_room w n es → net_inv lab lba pq w (run net_step n es).1.
Proof.
  revert n. induction es as [|e es IH]; intros n Hinv Hroom; [done|].
  apply run_room_cons in Hroom as [He Hes]. rewrite run_cons. cbn [fst].
  apply IH; [|done]. by apply net_step_inv.
Qed.

Lemma run_refines (lab lba : Link) (w : N) (es : list Event) (n : Net) (ml : Mail) :
  net_inv lab lba false w n → agrees n ml → run_room w n es → Forall event_fits es →
  (run net_step n es).2 = (run mail_step ml es).2.
Proof.
  revert n ml. induction es as [|e es IH]; intros n ml Hinv Hag Hroom Hfit; [done|].
  apply run_room_cons in Hroom as [He Hes]. apply Forall_cons_1 in Hfit as [Hf Hfs].
  rewrite !run_cons. cbn [snd].
  pose proof (net_mail_step _ _ _ _ _ _ Hinv Hag He Hf) as [Hag' ->]. f_equal.
  apply IH; [|done..]. by apply net_step_inv.
Qed.
End Refinement.

(** ** Properties *)


Definition toy_key (b : byte) : DhKeyPair := {| public := replicate 32 b; secret := replicate 32 b |}.

(** Out of order, crossing and replayed. *)
Definition toy_events : list Event :=
  [Send Alice [x41] []; Send Bob [x42] []; Send Alice [x43; x44] [x01];
   Deliver Bob 1; Deliver Alice 0; Deliver Bob 0; Deliver Bob 1; Deliver Alice 7].


(** ** With the post-quantum ratchet *)

Section PostQuantum.
Context `{P : Primitives} `{!PrimitiveLaws P}.

Lemma direction_start_pq (l : Link) (pq : bool) (w : N) (s r : SessionState) :
  direction l false w s [] r [] → direction l pq w s [] r [].
Proof. intros []. split; try done. Qed.

Lemma linked_pq (lab lba : Link) (w : N) (a b : SessionState) (g : rng)
    (qa qb : PqRatchetState) (Ka Kb : KemProvider) :
  net_inv lab lba false w (net_start a b g) →
  net_inv lab lba true w
    (net_start (enable_pq_ratchet a qa Ka) (enable_pq_ratchet b qb Kb) g).
Proof.
  intros [Hab Hba _]. split; simpl in *; [| |done].
  - apply direction_start_pq. by eapply direction_frame; [..|exact Hab].
  - apply direction_start_pq. by eapply direction_frame; [..|exact Hba].
Qed.

Lemma start_pq (rk : bytes) (ka kb : DhKeyPair) (suite wv max : N) (qa qb : PqRatchetState)
    (Ka Kb : KemProvider) (a b : SessionState) (g : rng) :
  length (public ka) = 32%nat → length (public kb) = 32%nat → suite ≤ u16_max →
  from_handshake_with_suite_and_wire_version_with_pq_ratchet Initiator rk ka (public kb)
    suite wv max qa Ka = Ok a →
  from_handshake_with_suite_and_wire_version_with_pq_ratchet Responder rk kb (public ka)
    suite wv max qb Kb = Ok b →
  ∃ lab lba, net_inv lab lba true (max `min` 2048) (net_start a b g) ∧
    lk_dh lab = public ka ∧ lk_dh lba = public kb ∧
    hkdf_sha256_32 rk None INFO_INITIATOR_SEND = Ok (lk_chain lab) ∧
    hkdf_sha256_32 rk None INFO_INITIATOR_RECV = Ok (lk_chain lba).
Proof.
  unfold from_handshake_with_suite_and_wire_version_with_pq_ratchet. intros Hka Hkb Hs Ha Hb.
  destruct (from_handshake_with_suite_and_wire_version Initiator _ _ _ _ _ _) as [a0|] eqn:Ea; [|done].
  destruct (from_handshake_with_suite_and_wire_version Responder _ _ _ _ _ _) as [b0|] eqn:Eb; [|done].
  injection Ha as <-. injection Hb as <-.
  destruct (handshake_linked rk ka kb suite wv max a0 b0 g Hka Hkb Hs Ea Eb)
    as (lab & lba & Hinv & Hrest).
  exists lab, lba. split; [by apply linked_pq|done].
Qed.

Lemma run_room_app (w : N) (es : list Event) (e : Event) (n : Net) :
  run_room w n (es ++ [e]) → run_room w n es ∧ room w (run net_step n es).1 e.
Proof.
  revert n. induction es as [|e' es IH]; intros n Hr.
  - pose proof (run_room_cons _ _ _ _ Hr) as [? _]. split; [|done].
    unfold run_room in *. cbn [count_sends]. lia.
  - pose proof (run_room_cons _ _ _ _ Hr) as [_ Hes].
    destruct (IH _ Hes) as [_ Hroom]. rewrite run_cons. split; [|done].
    change ((e' :: es) ++ [e]) with ([e'] ++ es ++ [e]) in Hr. change (e' :: es) with ([e'] ++ es).
    unfold run_room in *. rewrite !count_sends_app in *. lia.
Qed.

Lemma pq_run_safe (rk : bytes) (ka kb : DhKeyPair) (suite wv max : N) (qa qb : PqRatchetState)
    (Ka Kb : KemProvider) (a b : SessionState) (g : rng) (es : list Event) (e : Event) :
  length (public ka) = 32%nat → length (public kb) = 32%nat → suite ≤ u16_max →
  from_handshake_with_suite_and_wire_version_with_pq_ratchet Initiator rk ka (public kb)
    suite wv max qa Ka = Ok a →
  from_handshake_with_suite_and_wire_version_with_pq_ratchet Responder rk kb (public ka)
    suite wv max qb Kb = Ok b →
  N.of_nat (count_sends Alice (es ++ [e])) ≤ max `min` 2048 →
  N.of_nat (count_sends Bob (es ++ [e])) ≤ max `min` 2048 →
  outcome_ok true (run net_step (net_start a b g) es).1 e
    (net_step (run net_step (net_start a b g) es).1 e).2.
Proof.
  intros Hka Hkb Hsuite Ha Hb Hwa Hwb.
  destruct (start_pq rk ka kb suite wv max qa qb Ka Kb a b g Hka Hkb Hsuite Ha Hb)
    as (lab & lba & Hinv & _).
  destruct (run_room_app (max `min` 2048) es e (net_start a b g) (conj Hwa Hwb)) as [H1 H2].
  by apply (net_step_inv lab lba true (max `min` 2048)); [apply run_inv|].
Qed.
End PostQuantum.


Definition toy_pq (b : byte) (c : byte) : PqRatchetState := mkPqState 1 [b] [b] [c] [] 4 0.

Definition toy_pq_a : res (@SessionState Toy) :=
  from_handshake_with_suite_and_wire_version_with_pq_ratchet Initiator (replicate 32 x09)
    (toy_key x01) (replicate 32 x02) 1 2 16 (toy_pq x0a x0b) ToyKem.

Definition toy_pq_b : res (@SessionState Toy) :=
  from_handshake_with_suite_and_wire_version_with_pq_ratchet Responder (replicate 32 x09)
    (toy_key x02) (replicate 32 x01) 1 2 16 (toy_pq x0b x0a) ToyKem.


(** The ratchet keys of an honest conversation never change, and every
    message key is a function of the handshake secret alone. After any run
    within the window, with the post-quantum ratchet on, both sides still use
    the ratchet keys they started with, their chains are the two chains derived
    from the handshake secret, and each packet opens, in the initial state of
    the receiver, under the message key of that chain: nothing the two ratchets
    mixed in afterwards takes part in protecting a message. *)
Theorem conversation_keys_from_handshake (P : Primitives) (L : PrimitiveLaws P) (rk : bytes)
    (ka kb : DhKeyPair) (suite wv max : N) (qa qb : PqRatchetState) (Ka Kb : KemProvider)
    (a b : SessionState) (g : rng) (es : list Event)
    (Hka : length (public ka) = 32%nat) (Hkb : length (public kb) = 32%nat)
    (Hsuite : suite ≤ u16_max)
    (Ha : from_handshake_with_suite_and_wire_version_with_pq_ratchet Initiator rk ka (public kb)
            suite wv max qa Ka = Ok a)
    (Hb : from_handshake_with_suite_and_wire_version_with_pq_ratchet Responder rk kb (public ka)
            suite wv max qb Kb = Ok b)
    (Hwa : N.of_nat (count_sends Alice es) ≤ max `min` 2048)
    (Hwb : N.of_nat (count_sends Bob es) ≤ max `min` 2048) :
  let n := (run net_step (net_start a b g) es).1 in
  public (s_local_dh (alice n)) = public ka ∧ s_remote_dh_pub (alice n) = public kb ∧
  public (s_local_dh (bob n)) = public kb ∧ s_remote_dh_pub (bob n) = public ka ∧
  ∃ ck, hkdf_sha256_32 rk None INFO_INITIATOR_SEND = Ok ck ∧
    s_sending_chain (alice n) =
      mkChain (chain_at ck (length (sent_a n))) (N.of_nat (length (sent_a n))) ∧
    ∀ i p, sent_a n !! i = Some (Some p) →
      ∃ d inc, decode_wire_message (pk_wire p) = Ok d ∧ extract_incoming b d = Ok inc ∧
        open_incoming inc (message_key_at ck i) (pk_ad p) = Ok (pk_msg p).
Proof.
  destruct (start_pq rk ka kb suite wv max qa qb Ka Kb a b g Hka Hkb Hsuite Ha Hb)
    as (lab & lba & Hinv & Hdab & Hdba & Hck & _).
  pose proof (rcv_header _ _ _ (dir_receives _ _ _ _ _ _ _ (inv_ab _ _ _ _ _ Hinv))) as Hhk.
  intros n. assert (Hn : net_inv lab lba true (max `min` 2048) n) by (by apply run_inv).
  clearbody n. destruct Hn as [[Hs Hr Hp _ _] [Hs' Hr' _ _ _] _].
  destruct Hs as [_ _ _ Hadh _ _ Hch _ _], Hs' as [_ _ _ Hbdh _ _ _ _ _].
  destruct Hr as [_ Hbr _ _ _], Hr' as [_ Har _ _ _].
  split_and!; [congruence..|]. exists (lk_chain lab). split_and!; [done..|].
  intros i p Hi. destruct (Hp i p Hi) as (d & inc & Hd & Hx & _ & _ & _ & _ & Ho).
  exists d, inc. split_and!; [done|by apply Hx|done].
Qed.

Lemma conversation_keys_from_handshake_witness :
  ∃ a b, toy_pq_a = Ok a ∧ toy_pq_b = Ok b ∧
    let n := (run net_step (net_start a b (0%N : @rng Toy)) [Send Alice [x41] []; Deliver Bob 0]).1 in
    public (s_local_dh (alice n)) = replicate 32 x01.
Proof.
  destruct (from_handshake_ok (P := Toy) Initiator (replicate 32 x09) (toy_key x01)
              (replicate 32 x02) 1 2 16) as (a & _ & _ & _ & _ & Ha & _).
  destruct (from_handshake_ok (P := Toy) Responder (replicate 32 x09) (toy_key x02)
              (replicate 32 x01) 1 2 16) as (b & _ & _ & _ & _ & Hb & _).
  exists (enable_pq_ratchet a (toy_pq x0a x0b) ToyKem), (enable_pq_ratchet b (toy_pq x0b x0a) ToyKem).
  assert (Ha' : toy_pq_a = Ok (enable_pq_ratchet a (toy_pq x0a x0b) ToyKem)).
  { unfold toy_pq_a, from_handshake_with_suite_and_wire_version_with_pq_ratchet. by rewrite Ha. }
  assert (Hb' : toy_pq_b = Ok (enable_pq_ratchet b (toy_pq x0b x0a) ToyKem)).
  { unfold toy_pq_b, from_handshake_with_suite_and_wire_version_with_pq_ratchet. by rewrite Hb. }
  split; [exact Ha'|]. split; [exact Hb'|].
  apply (conversation_keys_from_handshake Toy ToyLaws (replicate 32 x09) (toy_key x01) (toy_key x02)
           1 2 16 (toy_pq x0a x0b) (toy_pq x0b x0a) ToyKem ToyKem _ _ (0%N : @rng Toy)
           [Send Alice [x41] []; Deliver Bob 0] eq_refl eq_refl ltac:(by vm_compute) Ha' Hb');
    by vm_compute.
Defined.

(** ** What the post-quantum ratchet does to late and crossing messages

    Runs of the code with the interval of one and the history of four that
    [pq.rs] has as defaults. *)

Definition toy_pq_run (es : list Event) : res (Net * list Outcome) :=
  let? a := toy_pq_a in
  let? b := toy_pq_b in
  Ok (run net_step (net_start a b (0%N : @rng Toy)) es).

(** A message that arrives after its recipient has sent five of its own is
    refused, because the key it targets has left the history, and is lost: its
    message key was used up, so delivering it again cannot help. *)
Lemma pq_late_message_lost :
  (snd <$> res_ok (toy_pq_run ([Send Bob [x42] []] ++ replicate 5 (Send Alice [x41] []) ++
                               [Deliver Alice 0; Deliver Alice 0]))) =
  Some (replicate 6 Sent ++
        [Rejected (MessageParsing "pq ratchet target key unavailable");
         Rejected MessageKeyUnavailable]).
Proof. vm_compute. reflexivity. Qed.

(** When two messages cross, each side mixes the two shared secrets into the
    root key in a different order: everything is delivered, and the root keys
    no longer agree. *)
Lemma pq_roots_diverge :
  match toy_pq_run [Send Alice [x41] []; Send Bob [x42] []; Deliver Alice 0; Deliver Bob 0] with
  | Ok (n, os) =>
      os = [Sent; Sent; Delivered [x42]; Delivered [x41]] ∧
      s_root_key (alice n) ≠ s_root_key (bob n)
  | Err _ => False
  end.
Proof.
  assert (H : (match toy_pq_run [Send Alice [x41] []; Send Bob [x42] []; Deliver Alice 0; Deliver Bob 0] with
   | Ok (n, os) => Some (os, bool_decide (s_root_key (alice n) = s_root_key (bob n)))
   | Err _ => None end) = Some ([Sent; Sent; Delivered [x42]; Delivered [x41]], false))
    by (vm_compute; reflexivity).
  destruct (toy_pq_run _) as [[n os]|]; [|done]. injection H as -> H. split; [done|].
  by apply bool_decide_eq_false in H.
Qed.
