(* ===== verification/SessionFacts.v ===== *)
(** * Further properties of sessions

    Associated data, saving and restoring, the order of checks in [decrypt]
    and what it has already written when authentication fails, and the use of
    the header key. *)

From Stdlib Require Import Strings.Byte.
From S2P Require Import Prelude Bytes Errors Tlv Crypto Toy Alg.
From S2P Require Import Aead Wire Ratchet PqRatchet Session SessionRun Conversation.
Local Open Scope N_scope.

(** ** Associated data *)

Lemma session_ad_records_wf (v su n p : N) (dh ad : bytes) (ct th nk : option bytes) :
  Forall record_wf (session_ad_records v su dh n p ct th nk ad).
Proof. destruct ct, th, nk; repeat constructor; done. Qed.

(** Each tag finds its field among the records. *)
Lemma session_ad_find (v su n p : N) (dh ad : bytes) (ct th nk : option bytes)
    (rs : list TlvRecord) :
  rs = session_ad_records v su dh n p ct th nk ad →
  rec_find AD_TAG_PROTOCOL_VERSION rs = Some (u16_be v) ∧
  rec_find AD_TAG_SUITE_ID rs = Some (u16_be su) ∧
  rec_find AD_TAG_SENDER_DH_PUB rs = Some dh ∧
  rec_find AD_TAG_MSG_NUM rs = Some (u32_be n) ∧
  rec_find AD_TAG_PREV_CHAIN_LEN rs = Some (u32_be p) ∧
  rec_find AD_TAG_PQ_STEP_CT rs = ct ∧
  rec_find AD_TAG_PQ_TARGET_PUB_HASH rs = th ∧
  rec_find AD_TAG_PQ_NEXT_PUB rs = nk ∧
  rec_find AD_TAG_EXTERNAL_AD rs = Some ad.
Proof. intros ->. by destruct ct, th, nk. Qed.

(** The associated data of a message determines every field of its header
    and the caller's own associated data: two messages with equal associated
    data agree on version, suite, sender key, message number, previous chain
    length, all three post-quantum fields (and on whether each is present), and
    external data. *)
Theorem session_ad_binds (v v' su su' n n' p p' : N) (dh dh' ad ad' : bytes)
    (ct ct' th th' nk nk' : option bytes) (b : bytes)
    (Hv : v ≤ u16_max) (Hv' : v' ≤ u16_max) (Hsu : su ≤ u16_max) (Hsu' : su' ≤ u16_max)
    (Hn : n ≤ u32_max) (Hn' : n' ≤ u32_max) (Hp : p ≤ u32_max) (Hp' : p' ≤ u32_max)
    (H : session_associated_data v su dh n p ct th nk ad = Ok b)
    (H' : session_associated_data v' su' dh' n' p' ct' th' nk' ad' = Ok b) :
  v = v' ∧ su = su' ∧ dh = dh' ∧ n = n' ∧ p = p' ∧ ct = ct' ∧ th = th' ∧ nk = nk' ∧ ad = ad'.
Proof.
  pose proof (encode_inj _ _ _ (session_ad_records_wf _ _ _ _ _ _ _ _ _)
                (session_ad_records_wf _ _ _ _ _ _ _ _ _) H H') as He.
  destruct (session_ad_find v su n p dh ad ct th nk _ eq_refl)
    as (E1 & E2 & E3 & E4 & E5 & E6 & E7 & E8 & E9).
  destruct (session_ad_find v' su' n' p' dh' ad' ct' th' nk' _ eq_refl)
    as (F1 & F2 & F3 & F4 & F5 & F6 & F7 & F8 & F9).
  rewrite He in *. rewrite E1 in F1. rewrite E2 in F2. rewrite E4 in F4. rewrite E5 in F5.
  apply u16_be_inj in F1, F2; [|done..]. apply u32_be_inj in F4, F5; [|done..].
  split_and!; congruence.
Qed.

Lemma session_ad_binds_witness :
  ∃ b, session_associated_data 1 1 (replicate 32 x01) 3 0 (Some [x02]) None None [x05] = Ok b ∧
    ∀ n' ct', n' ≤ u32_max →
      session_associated_data 1 1 (replicate 32 x01) n' 0 ct' None None [x05] = Ok b →
      n' = 3 ∧ ct' = Some [x02].
Proof.
  destruct (session_associated_data 1 1 (replicate 32 x01) 3 0 (Some [x02]) None None [x05])
    as [b|] eqn:E; [|by vm_compute in E].
  exists b. split; [reflexivity|]. intros n' ct' Hn' H'.
  destruct (session_ad_binds 1 1 1 1 3 n' 0 0 (replicate 32 x01) (replicate 32 x01) [x05] [x05]
              (Some [x02]) ct' None None None None b) as (_ & _ & _ & <- & _ & <- & _);
    [by vm_compute..|exact Hn'|by vm_compute|by vm_compute|exact E|exact H'|done].
Defined.

(** ** Saving and restoring *)

Lemma restore_snapshot_pq (st : PqRatchetState) : restore_pq (snapshot_pq st) = st.
Proof.
  destruct st as [i lp ls rp hist mx lr]. unfold restore_pq, snapshot_pq. simpl. f_equal.
  rewrite <- list_fmap_compose. rewrite <- (list_fmap_id hist) at 2. apply list_fmap_ext.
  by intros ? [].
Qed.

Definition with_kem `{P : Primitives} (k : option KemProvider) (s : SessionState) : SessionState :=
  mkSession _ (s_version s) (s_suite_id s) (s_negotiated_wire_version s) (s_root_key s) (s_sending_chain s)
    (s_receiving_chain s) (s_local_dh s) (s_remote_dh_pub s) (s_prev_chain_len s) (s_skipped s) (s_pq_state s) k
    (s_sending_header_key s) (s_receiving_header_key s) (s_prev_receiving_header_key s).

(** What a restored session is, whichever provider it is given. *)
Lemma restore_snapshot `{P : Primitives} (s : SessionState) (k : option KemProvider) :
  skipped_inv (s_skipped s) → from_snapshot_with_kem (snapshot s) k = with_kem k s.
Proof.
  intros Hinv. unfold from_snapshot_with_kem, snapshot, with_kem. cbn -[skipped_from_entries].
  rewrite <- list_fmap_compose.
  replace (_ <$> skipped_entries (s_skipped s)) with (skipped_entries (s_skipped s)).
  2:{ rewrite <- (list_fmap_id (skipped_entries (s_skipped s))) at 1. apply list_fmap_ext.
      by intros ? [[] ?]. }
  rewrite skipped_from_entries_roundtrip by done.
  assert (Hq : restore_pq <$> (snapshot_pq <$> s_pq_state s) = s_pq_state s).
  { destruct (s_pq_state s); [|done]. simpl. by rewrite restore_snapshot_pq. }
  rewrite Hq. by destruct s as [? ? ? ? [] [] [] ? ? ? ? ? ? ? ?].
Qed.

(** Saving a session and restoring it with the same provider gives the same
    session back, skipped keys in their order and post-quantum history
    included, whenever the cache's queue and map agree (as they do after any
    sequence of operations). *)
Theorem session_reload (P : Primitives) (s : SessionState) (Hinv : skipped_inv (s_skipped s)) :
  from_snapshot_with_kem (snapshot s) (s_pq_kem s) = s.
Proof. rewrite restore_snapshot by done. by destruct s. Qed.

Lemma session_reload_witness :
  ∃ s, toy_pq_a = Ok s ∧ from_snapshot_with_kem (snapshot s) (s_pq_kem s) = s.
Proof.
  destruct (from_handshake_ok (P := Toy) Initiator (replicate 32 x09) (toy_key x01)
              (replicate 32 x02) 1 2 16) as (a & ? & ? & ? & ? & Ha & _ & _ & _ & _ & Ea).
  exists (enable_pq_ratchet a (toy_pq x0a x0b) ToyKem). split.
  - unfold toy_pq_a, from_handshake_with_suite_and_wire_version_with_pq_ratchet. by rewrite Ha.
  - apply (session_reload Toy). rewrite Ea. apply skipped_new_inv.
Defined.

(** ** The order of checks in [decrypt] *)

(** What is refused before the session is touched. A wire that does not
    decode, a version-2 wire whose header does not decode under any key, and a
    message of another suite are refused with the session and the generator as
    they were. *)
Theorem decrypt_early_rejection (P : Primitives) (s : SessionState) (g : rng) (w ad : bytes) :
  (∀ e, decode_wire_message w = Err e → SessionState_decrypt w ad (s, g) = ((s, g), Err e)) ∧
  (∀ d e, decode_wire_message w = Ok d → extract_incoming s d = Err e →
     SessionState_decrypt w ad (s, g) = ((s, g), Err e)) ∧
  (∀ d inc, decode_wire_message w = Ok d → extract_incoming s d = Ok inc →
     in_suite_id inc ≠ s_suite_id s →
     SessionState_decrypt w ad (s, g) = ((s, g), Err (UnsupportedAlgorithm "wire.suite_id"))).
Proof.
  unfold SessionState_decrypt, sm_bind, sm_lift, op_session. split_and!.
  - by intros e ->.
  - intros d e ->. cbn [fst]. by intros ->.
  - intros d inc ->. cbn [fst]. intros -> Hne.
    by rewrite (proj2 (N.eqb_neq _ _) Hne).
Qed.

Section Advance.
Context `{P : Primitives} `{!PrimitiveLaws P}.

Lemma chain_at_shift (ck : bytes) (k : nat) : chain_at (chain_at ck 1) k = chain_at ck (S k).
Proof. induction k as [|k IH]; [done|]. cbn [chain_at] in *. by rewrite IH. Qed.

(** Where the loop leaves the chain, from any chain. *)
Lemma skip_loop_chain (dh : bytes) (k fuel : nat) (ck : bytes) (m : N) (sk : SkippedMessageKeys) :
  m + N.of_nat k ≤ u32_max → (k ≤ fuel)%nat →
  ∃ sk', skip_loop fuel dh (m + N.of_nat k) (mkChain ck m) sk =
    (mkChain (chain_at ck k) (m + N.of_nat k), sk', Ok tt).
Proof.
  revert fuel ck m sk. induction k as [|k IH]; intros fuel ck m sk Hu Hf.
  - exists sk. replace (m + N.of_nat 0) with m by lia.
    destruct fuel; simpl; [done|]. by rewrite N.ltb_irrefl.
  - destruct fuel as [|fuel]; [lia|]. cbn [skip_loop next_msg_num].
    replace (m <? m + N.of_nat (S k)) with true by (symmetry; apply N.ltb_lt; lia).
    rewrite next_message_key_ok by (simpl; lia). cbn [chain_key next_msg_num].
    replace (m + N.of_nat (S k)) with (m + 1 + N.of_nat k) by lia.
    change (drop 32 (chain_okm ck)) with (chain_at ck 1).
    destruct (IH fuel (chain_at ck 1) (m + 1)
                (skipped_insert sk {| sk_dh_pub := dh; sk_msg_num := m |} (take 32 (chain_okm ck))))
      as [sk' Hsk]; [lia..|]. exists sk'. by rewrite Hsk, chain_at_shift.
Qed.

(** The receiving chain after the key of a new message number was taken. *)
Definition advanced (c : ChainState) (n : N) : ChainState :=
  let k := N.to_nat (n - next_msg_num c) in
  if n =? u32_max then mkChain (chain_at (chain_key c) k) n
  else mkChain (chain_at (chain_key c) (S k)) (n + 1).

Lemma op_message_key_advances (s : SessionState) (g : rng) (h : HeaderPlaintext) :
  next_msg_num (s_receiving_chain s) ≤ h_msg_num h → h_msg_num h ≤ u32_max →
  s_receiving_chain (op_message_key h (s, g)).1.1 = advanced (s_receiving_chain s) (h_msg_num h).
Proof.
  intros Hle Hu. unfold op_message_key, sm_bind, op_session, advanced. cbn [fst].
  destruct (s_receiving_chain s) as [ck m] eqn:Ec. cbn [next_msg_num chain_key] in *.
  rewrite (proj2 (N.ltb_ge _ _) Hle). unfold skip_until. rewrite Ec. cbn [next_msg_num].
  destruct (skip_loop_chain (h_sender_dh_pub h) (N.to_nat (h_msg_num h - m))
              (N.to_nat (h_msg_num h - m)) ck m (s_skipped s)) as [sk Hsk]; [lia..|].
  replace (m + N.of_nat (N.to_nat (h_msg_num h - m))) with (h_msg_num h) in Hsk by lia.
  rewrite Hsk. unfold op_receiving_key. cbn [s_receiving_chain set_receiving].
  destruct (N.eqb_spec (h_msg_num h) u32_max) as [Hm|Hm].
  - rewrite next_message_key_exhausted by done. done.
  - rewrite next_message_key_ok by (simpl; lia). done.
Qed.

Lemma decrypt_after_key (s : SessionState) (g : rng) (inc : Incoming) (ad : bytes) :
  h_sender_dh_pub (in_header inc) = s_remote_dh_pub s →
  s_receiving_chain (receive_incoming inc ad (s, g)).1.1 =
  s_receiving_chain (op_message_key (in_header inc) (s, g)).1.1.
Proof.
  intros Hdh. unfold receive_incoming. unfold sm_bind at 1, op_follow_ratchet, sm_bind at 1, op_session.
  cbn [fst]. rewrite Hdh, bool_decide_true by done. unfold sm_ret at 1. unfold sm_bind at 1.
  destruct (op_message_key (in_header inc) (s, g)) as [[s1 g1] [key|]]; [|done].
  unfold sm_bind at 1, sm_lift. destruct (open_incoming inc key ad); [|done].
  unfold sm_bind. pose proof (pq_receive_views s1 g1 (in_header inc)) as Hq.
  destruct (op_pq_receive (in_header inc) (s1, g1)) as [[s2 g2] [|]];
    destruct Hq as (_ & _ & Hv & _); unfold recv_view in Hv; simpl; congruence.
Qed.
End Advance.

(** The receiving chain follows the message number before the message is
    authenticated. For every session and every wire with the session's suite
    and remote key and a number not below the next expected one, whatever its
    ciphertext, the chain afterwards stands just past that number (at the
    counter's maximum, and so unusable, if the number is the maximum), also
    when decryption fails. *)
Theorem decrypt_advances_unauthenticated (P : Primitives) (L : PrimitiveLaws P) (s : SessionState)
    (g : rng) (w ad : bytes) (d : DecodedWireMessage) (inc : Incoming)
    (Hd : decode_wire_message w = Ok d) (Hx : extract_incoming s d = Ok inc)
    (Hsuite : in_suite_id inc = s_suite_id s)
    (Hdh : h_sender_dh_pub (in_header inc) = s_remote_dh_pub s)
    (Hn : next_msg_num (s_receiving_chain s) ≤ h_msg_num (in_header inc))
    (Hu : h_msg_num (in_header inc) ≤ u32_max) :
  s_receiving_chain (SessionState_decrypt w ad (s, g)).1.1 =
    advanced (s_receiving_chain s) (h_msg_num (in_header inc)).
Proof.
  unfold SessionState_decrypt, sm_bind, sm_lift, op_session. rewrite Hd. cbn [fst]. rewrite Hx.
  rewrite Hsuite, N.eqb_refl. cbn [negb]. rewrite decrypt_after_key by done.
  by apply op_message_key_advances.
Qed.

(** A wire nobody sealed: the peer's key and suite, the largest message number,
    an empty ciphertext. *)
Definition forged (dh : bytes) (n : N) : WireMessage :=
  {| w1_version := 1; w1_suite_id := 1; w1_sender_dh_pub := dh; w1_msg_num := n;
     w1_prev_chain_len := 0; w1_pq_step_ct := None; w1_pq_target_pub_hash := None;
     w1_pq_next_public_key := None; w1_aead_nonce := replicate 12 x00; w1_ciphertext := [] |}.

Lemma forged_decodes (n : N) :
  n ≤ u32_max → ∃ w, decode_wire_message w = Ok (V1 (forged (replicate 32 x01) n)).
Proof.
  intros Hn. assert (Hwf : WireMessage_wf (forged (replicate 32 x01) n)) by (by split).
  destruct (WireMessage_encode_ok _ Hwf) as [w Hw]. exists w.
  by apply (decode_wire_message_encode (V1 _)).
Qed.

Lemma decrypt_advances_unauthenticated_witness :
  ∃ b w, from_handshake (P := Toy) Responder (replicate 32 x09) (toy_key x02)
           (replicate 32 x01) 16 = Ok b ∧
    next_msg_num (s_receiving_chain (SessionState_decrypt w [] (b, (0%N : @rng Toy))).1.1) = u32_max.
Proof.
  destruct (from_handshake_ok (P := Toy) Responder (replicate 32 x09) (toy_key x02)
              (replicate 32 x01) 1 1 16) as (b & ? & ? & ? & ? & Hb & _ & _ & _ & _ & Eb).
  destruct (forged_decodes u32_max ltac:(by vm_compute)) as [w Hw]. exists b, w. split; [exact Hb|].
  rewrite (decrypt_advances_unauthenticated Toy ToyLaws b (0%N : @rng Toy) w [] _ _ Hw eq_refl);
    [reflexivity|rewrite ?Eb; by vm_compute..].
Defined.

(** ** The header key *)

Section HeaderKey.
Context `{P : Primitives} `{!PrimitiveLaws P}.

(** The header of an emitted version-2 message. *)
Lemma op_emit_header (s : SessionState) (h : HeaderPlaintext) (key m ad hk w : bytes) (g : rng) :
  WIRE_VERSION_V2 ≤ s_negotiated_wire_version s → s_sending_header_key s = Some hk →
  s_suite_id s ≤ u16_max → (op_emit s h key m ad (s, g)).2 = Ok w →
  ∃ wm hb, decode_wire_message w = Ok (V2 wm) ∧ HeaderPlaintext_encode h = Ok hb ∧
    w2_encrypted_header wm = encrypt_header hk hb.
Proof.
  intros H2 Hhk Hs. unfold op_emit, sm_bind, sm_lift. rewrite (proj2 (N.leb_le _ _) H2), Hhk.
  destruct (session_associated_data _ _ _ _ _ _ _ _ _) as [aad|]; [|done].
  unfold op_seal, encrypt_with_rng. pose proof (rng_fill_length 12 g) as Hn.
  destruct (rng_fill 12 g) as [nc g']. simpl in Hn.
  destruct (encrypt key _ aad nc) as [e|] eqn:Ee; [|done].
  apply encrypt_decrypt in Ee as (He & _).
  destruct (HeaderPlaintext_encode h) as [hb|]; [|done]. simpl. intros Hw.
  eexists _, hb. split; [apply (decode_wire_message_encode (V2 _)); [|exact Hw]|done].
  eapply WireMessageV2_encode_wf; [exact Hw|done|done|]. simpl. by rewrite He.
Qed.

(** The plain header of message [n] of a session without a post-quantum step. *)
Definition plain_header (s : SessionState) (n : N) : HeaderPlaintext :=
  {| h_sender_dh_pub := public (s_local_dh s); h_msg_num := n;
     h_prev_chain_len := s_prev_chain_len s; h_pq_step_ct := None;
     h_pq_target_pub_hash := None; h_pq_next_public_key := None |}.

Lemma encrypt_header_of (l : Link) (n : nat) (s : SessionState) (g : rng) (m ad hk w : bytes) :
  sends l n s → N.of_nat n < u32_max → s_pq_state s = None →
  WIRE_VERSION_V2 ≤ s_negotiated_wire_version s → lk_header l = Some hk →
  (SessionState_encrypt m ad (s, g)).2 = Ok w →
  ∃ wm hb, decode_wire_message w = Ok (V2 wm) ∧
    HeaderPlaintext_encode (plain_header s (N.of_nat n)) = Ok hb ∧
    w2_encrypted_header wm = encrypt_header hk hb.
Proof.
  intros [Hv Hsu Hsb Hdh Hdl Hp Hc Hh _] Hn Hpq H2 Hhk.
  unfold SessionState_encrypt, op_sending_key. unfold sm_bind at 1. rewrite Hc.
  rewrite next_message_key_ok by (simpl; lia). cbn [chain_key next_msg_num].
  unfold sm_bind at 1, op_pq_send. cbn [s_pq_state set_sending_chain]. rewrite Hpq.
  unfold sm_bind at 1, op_session. cbn [fst].
  intros Hw. by apply (op_emit_header _ _ _ _ _ hk) in Hw; [|done|by rewrite <- Hhk|done].
Qed.

Lemma plain_header_length (s : SessionState) (n : N) (hb : bytes) :
  HeaderPlaintext_encode (plain_header s n) = Ok hb →
  length hb = (20 + length (public (s_local_dh s)))%nat.
Proof. intros H%encode_length. simpl in H. rewrite H. lia. Qed.
End HeaderKey.

(** All headers of one sending epoch are encrypted with the same key stream.
    Two messages a version-2 session sends one after the other carry encrypted
    headers whose exclusive or is the exclusive or of the two plain headers,
    whatever the key. *)
Theorem header_keystream_reused (P : Primitives) (L : PrimitiveLaws P) (l : Link) (n : nat)
    (s s' : SessionState) (g g' : rng) (m1 ad1 m2 ad2 w1 w2 : bytes)
    (Hs : sends l n s) (Hn : N.of_nat (S n) < u32_max) (Hpq : s_pq_state s = None)
    (Hv2 : WIRE_VERSION_V2 ≤ s_negotiated_wire_version s)
    (H1 : SessionState_encrypt m1 ad1 (s, g) = ((s', g'), Ok w1))
    (H2 : (SessionState_encrypt m2 ad2 (s', g')).2 = Ok w2) :
  ∃ wm1 wm2 hb1 hb2,
    decode_wire_message w1 = Ok (V2 wm1) ∧ decode_wire_message w2 = Ok (V2 wm2) ∧
    HeaderPlaintext_encode (plain_header s (N.of_nat n)) = Ok hb1 ∧
    HeaderPlaintext_encode (plain_header s (N.of_nat (S n))) = Ok hb2 ∧
    bytes_xor (w2_encrypted_header wm1) (w2_encrypted_header wm2) = bytes_xor hb1 hb2.
Proof.
  destruct (snd_v2 _ _ _ Hs Hv2) as [hk Hhk].
  destruct (encrypt_header_of l n s g m1 ad1 hk w1) as (wm1 & hb1 & D1 & E1 & X1);
    [done|lia|done..|by rewrite H1|].
  destruct (encrypt_sends l false n s g m1 ad1 Hs ltac:(lia) (λ _, Hpq))
    as (s'' & g'' & r & He & Hs' & _ & Hpq' & _).
  rewrite H1 in He. injection He as <- <- <-.
  assert (Hsame : s_negotiated_wire_version s' = s_negotiated_wire_version s ∧
                  s_local_dh s' = s_local_dh s ∧ s_prev_chain_len s' = s_prev_chain_len s)
    by (exact (encrypt_keeps m1 ad1 s s' g g' _ H1)).
  destruct Hsame as (Hw & Hld & Hpc).
  destruct (encrypt_header_of l (S n) s' g' m2 ad2 hk w2) as (wm2 & hb2 & D2 & E2 & X2);
    [done|lia|by apply Hpq'|by rewrite Hw|done|done|].
  assert (Hpl : plain_header s' (N.of_nat (S n)) = plain_header s (N.of_nat (S n)))
    by (unfold plain_header; by rewrite Hld, Hpc).
  rewrite Hpl in E2. exists wm1, wm2, hb1, hb2. split_and!; [done..|].
  rewrite X1, X2. apply encrypt_header_xor.
  by rewrite (plain_header_length _ _ _ E1), (plain_header_length _ _ _ E2).
Qed.

Lemma header_keystream_reused_witness :
  ∃ (s s' : @SessionState Toy) (g g' : @rng Toy) w1 w2 wm1 wm2 hb1 hb2,
    SessionState_encrypt [x41] [] (s, g) = ((s', g'), Ok w1) ∧
    (SessionState_encrypt [x42] [] (s', g')).2 = Ok w2 ∧
    decode_wire_message w1 = Ok (V2 wm1) ∧ decode_wire_message w2 = Ok (V2 wm2) ∧
    bytes_xor (w2_encrypted_header wm1) (w2_encrypted_header wm2) = bytes_xor hb1 hb2.
Proof.
  destruct (from_handshake_ok (P := Toy) Initiator (replicate 32 x09) (toy_key x01)
              (replicate 32 x02) 1 2 16) as (a & ? & ? & ? & ? & Ha & _ & _ & _ & _ & Ea).
  destruct (from_handshake_ok (P := Toy) Responder (replicate 32 x09) (toy_key x02)
              (replicate 32 x01) 1 2 16) as (b & _ & _ & _ & _ & Hb & _).
  destruct (handshake_linked (replicate 32 x09) (toy_key x01) (toy_key x02) 1 2 16 a b
              (0%N : @rng Toy) eq_refl eq_refl ltac:(by vm_compute) Ha Hb) as (lab & lba & [Hab _ _] & _).
  pose proof (dir_sends _ _ _ _ _ _ _ Hab) as Hs. simpl in Hs.
  assert (Hpq : s_pq_state a = None) by (by rewrite Ea).
  assert (Hv : s_negotiated_wire_version a = 2) by (by rewrite Ea).
  destruct (encrypt_total lab 0 a (0%N : @rng Toy) [x41] []) as [w1 Hw1]; [done..|].
  destruct (SessionState_encrypt [x41] [] (a, (0%N : @rng Toy))) as [[s' g'] r] eqn:E1.
  simpl in Hw1. subst r.
  destruct (encrypt_sends lab false 0 a (0%N : @rng Toy) [x41] [] Hs ltac:(done) (λ _, Hpq))
    as (s'' & g'' & r & He & Hs' & _ & Hpq' & _).
  rewrite E1 in He. injection He as <- <- <-.
  destruct (encrypt_total lab 1 s' g' [x42] []) as [w2 Hw2]; [done|done|by apply Hpq'|done|done|].
  destruct (header_keystream_reused Toy ToyLaws lab 0 a s' (0%N : @rng Toy) g' [x41] [] [x42] []
              w1 w2 Hs ltac:(done) Hpq ltac:(by rewrite Hv) E1 Hw2)
    as (wm1 & wm2 & hb1 & hb2 & D1 & D2 & _ & _ & X).
  by exists a, s', (0%N : @rng Toy), g', w1, w2, wm1, wm2, hb1, hb2.
Defined.

(** ** Old epochs *)

(** A message under any key but the current remote one moves the session to a
    fresh receiving chain, so its key is never looked up among the skipped keys
    that were kept for its own epoch. *)
Lemma old_epoch_starts_new_chain (P : Primitives) (s s' : SessionState) (g g' : rng)
    (h : HeaderPlaintext) :
  h_sender_dh_pub h ≠ s_remote_dh_pub s → op_follow_ratchet h (s, g) = ((s', g'), Ok tt) →
  s_remote_dh_pub s' = h_sender_dh_pub h ∧ next_msg_num (s_receiving_chain s') = 0.
Proof.
  intros Hne. unfold op_follow_ratchet, sm_bind, op_session. cbn [fst].
  rewrite bool_decide_false by done.
  destruct (skip_until _ _ (s, g)) as [[s1 g1] [[]|]]; [|done]. unfold apply_dh_ratchet.
  destruct (dh_root_step _ _ _) as [o1|]; [|done]. destruct (generate_keypair g1) as [kp g2].
  destruct (dh_root_step _ _ _) as [o2|]; [|done]. by intros [= <- <-].
Qed.
