(* ===== verification/Keys.v ===== *)
(** * Key material ([pqmsg-core/src/keys.rs])

    Identity keys, one-time prekeys and the prekey bundle a user publishes.
    Strings are their UTF-8 octets. *)

From S2P Require Import Prelude Bytes Errors Crypto Alg.
Local Open Scope N_scope.

Record IdentityKeyPair := {
  ik_key_id : bytes;
  ik_public_key : bytes;
  ik_secret_key : bytes;
  ik_pq_sig_public_key : option bytes;
  ik_pq_sig_secret_key : option bytes;
}.

Record OneTimePreKey := {
  otpk_key_id : bytes;
  otpk_public_key : bytes;
  otpk_secret_key : bytes;
}.

Record KEMPreKey := {
  kpk_key_id : bytes;
  kpk_public_key : bytes;
  kpk_secret_key : bytes;
}.

Record PreKeyBundle := {
  pb_protocol_version : N;
  pb_suite : AlgorithmSuite;
  pb_owner_id : bytes;
  pb_identity_key : bytes;
  pb_signed_prekey : bytes;
  pb_pq_signed_prekey : bytes;
  pb_spk_signature : bytes;
  pb_pqspk_signature : bytes;
  pb_signature_public_key : bytes;
  pb_one_time_prekey : option bytes;
  pb_one_time_pq_prekey : option bytes;
  pb_pq_sig_public_key : option bytes;
  pb_pq_spk_signature : option bytes;
  pb_pq_pqspk_signature : option bytes;
}.

Definition IdentityKeyPair_require_secret_key (k : IdentityKeyPair) : res bytes :=
  require_32 (ik_secret_key k) "identity_key_pair.secret_key".

Definition OneTimePreKey_require_secret_key (k : OneTimePreKey) : res bytes :=
  require_32 (otpk_secret_key k) "one_time_prekey.secret_key".

Section Generate.
Context `{P : Primitives}.

Definition IdentityKeyPair_generate (key_id : bytes) (g : rng) : IdentityKeyPair * rng :=
  let '(kp, g) := generate_keypair g in
  ({| ik_key_id := key_id;
      ik_public_key := public kp;
      ik_secret_key := secret kp;
      ik_pq_sig_public_key := None;
      ik_pq_sig_secret_key := None |}, g).

Definition OneTimePreKey_generate (key_id : bytes) (g : rng) : OneTimePreKey * rng :=
  let '(kp, g) := generate_keypair g in
  ({| otpk_key_id := key_id; otpk_public_key := public kp; otpk_secret_key := secret kp |}, g).

(** The key pairs inside. *)
Definition ik_pair (k : IdentityKeyPair) : DhKeyPair :=
  {| public := ik_public_key k; secret := ik_secret_key k |}.

Definition otpk_pair (k : OneTimePreKey) : DhKeyPair :=
  {| public := otpk_public_key k; secret := otpk_secret_key k |}.

Context `{!PrimitiveLaws P}.

Lemma IdentityKeyPair_generate_wf (key_id : bytes) (g : rng) :
  dh_keypair_wf (ik_pair (IdentityKeyPair_generate key_id g).1).
Proof.
  unfold IdentityKeyPair_generate. pose proof (generate_keypair_wf g) as H.
  destruct (generate_keypair g) as [kp g']. by destruct kp.
Qed.

Lemma OneTimePreKey_generate_wf (key_id : bytes) (g : rng) :
  dh_keypair_wf (otpk_pair (OneTimePreKey_generate key_id g).1).
Proof.
  unfold OneTimePreKey_generate. pose proof (generate_keypair_wf g) as H.
  destruct (generate_keypair g) as [kp g']. by destruct kp.
Qed.
End Generate.

Definition PreKeyBundle_new (owner_id identity_key signed_prekey pq_signed_prekey spk_signature
    pqspk_signature signature_public_key : bytes) : PreKeyBundle :=
  {| pb_protocol_version := PROTOCOL_VERSION_V1;
     pb_suite := AlgorithmSuite_default;
     pb_owner_id := owner_id;
     pb_identity_key := identity_key;
     pb_signed_prekey := signed_prekey;
     pb_pq_signed_prekey := pq_signed_prekey;
     pb_spk_signature := spk_signature;
     pb_pqspk_signature := pqspk_signature;
     pb_signature_public_key := signature_public_key;
     pb_one_time_prekey := None;
     pb_one_time_pq_prekey := None;
     pb_pq_sig_public_key := None;
     pb_pq_spk_signature := None;
     pb_pq_pqspk_signature := None |}.
