(* ===== verification/Handshake.v ===== *)
(** * The PQXDH handshake ([pqmsg-core/src/handshake.rs])

    The initiator combines three or four Diffie-Hellman secrets with a key
    encapsulation into a session key and sends a first encrypted payload; the
    responder recomputes the key from the initial message. Signature
    verification and key encapsulation are parameters. *)

From Stdlib Require Import Strings.Byte.
From S2P Require Import Prelude Bytes Errors Tlv Crypto Toy Alg Aead Wire Keys.
Local Open Scope N_scope.

Definition INFO_SK : bytes := lit "pqmsg-pqxdh-v1".

Definition HS_AD_TAG_PROTOCOL_VERSION : N := critical_type 0x0001.
Definition HS_AD_TAG_SUITE_ID : N := critical_type 0x0002.
Definition HS_AD_TAG_INITIATOR_IDENTITY_KEY : N := critical_type 0x0003.
Definition HS_AD_TAG_RESPONDER_IDENTITY_KEY : N := critical_type 0x0004.
Definition HS_AD_TAG_INITIATOR_ID : N := critical_type 0x0005.
Definition HS_AD_TAG_RESPONDER_ID : N := critical_type 0x0006.
Definition HS_AD_TAG_INITIATOR_PQ_RATCHET_KEY : N := critical_type 0x0007.

Definition MSG_TAG_PROTOCOL_VERSION : N := critical_type 0x0101.
Definition MSG_TAG_SUITE_ID : N := critical_type 0x0109.
Definition MSG_TAG_SENDER_ID : N := critical_type 0x0102.
Definition MSG_TAG_RECIPIENT_ID : N := critical_type 0x0103.
Definition MSG_TAG_IK_A_PUB : N := critical_type 0x0104.
Definition MSG_TAG_EK_A_PUB : N := critical_type 0x0105.
Definition MSG_TAG_PQ_CT : N := critical_type 0x0106.
Definition MSG_TAG_NONCE : N := critical_type 0x0107.
Definition MSG_TAG_CIPHERTEXT : N := critical_type 0x0108.
Definition MSG_TAG_OTPK_ID : N := critical_type 0x010A.
Definition MSG_TAG_PQ_RATCHET_PUB_A : N := critical_type 0x010B.

Definition SIG_TAG_PROTOCOL_VERSION : N := critical_type 0x0201.
Definition SIG_TAG_LABEL : N := critical_type 0x0202.
Definition SIG_TAG_KEY_MATERIAL : N := critical_type 0x0203.

(** ** The initial message *)

Record InitialMessage := {
  im_protocol_version : N;
  im_suite_id : N;
  im_sender_id : bytes;
  im_recipient_id : bytes;
  im_ik_a_pub : bytes;
  im_ek_a_pub : bytes;
  im_pq_ct : bytes;
  im_pq_ratchet_pub_a : bytes;
  im_nonce : bytes;
  im_ciphertext : bytes;
  im_otpk_id : option bytes;
}.

Definition InitialMessage_records (m : InitialMessage) : list TlvRecord :=
  [ mkTlv MSG_TAG_PROTOCOL_VERSION (u16_be (im_protocol_version m));
    mkTlv MSG_TAG_SUITE_ID (u16_be (im_suite_id m));
    mkTlv MSG_TAG_SENDER_ID (im_sender_id m);
    mkTlv MSG_TAG_RECIPIENT_ID (im_recipient_id m);
    mkTlv MSG_TAG_IK_A_PUB (im_ik_a_pub m);
    mkTlv MSG_TAG_EK_A_PUB (im_ek_a_pub m);
    mkTlv MSG_TAG_PQ_CT (im_pq_ct m);
    mkTlv MSG_TAG_PQ_RATCHET_PUB_A (im_pq_ratchet_pub_a m);
    mkTlv MSG_TAG_NONCE (im_nonce m);
    mkTlv MSG_TAG_CIPHERTEXT (im_ciphertext m) ] ++
  opt_record MSG_TAG_OTPK_ID (im_otpk_id m).

Definition InitialMessage_encode (m : InitialMessage) : res bytes :=
  encode (InitialMessage_records m).

Definition InitialMessage_known_types : list N :=
  [MSG_TAG_PROTOCOL_VERSION; MSG_TAG_SUITE_ID; MSG_TAG_SENDER_ID; MSG_TAG_RECIPIENT_ID;
   MSG_TAG_IK_A_PUB; MSG_TAG_EK_A_PUB; MSG_TAG_PQ_CT; MSG_TAG_PQ_RATCHET_PUB_A; MSG_TAG_NONCE;
   MSG_TAG_CIPHERTEXT; MSG_TAG_OTPK_ID].

Definition InitialMessage_decode (input : bytes) : res InitialMessage :=
  let? records := decode_strict input InitialMessage_known_types in
  let map := build_record_map records in
  let? v := require_from_map map MSG_TAG_PROTOCOL_VERSION "protocol_version" in
  let? version := parse_u16 v "protocol_version" in
  let? v := require_from_map map MSG_TAG_SUITE_ID "suite_id" in
  let? suite_id := parse_u16 v "suite_id" in
  let? v := require_from_map map MSG_TAG_SENDER_ID "sender_id" in
  let? sender_id := parse_utf8 v "sender_id" in
  let? v := require_from_map map MSG_TAG_RECIPIENT_ID "recipient_id" in
  let? recipient_id := parse_utf8 v "recipient_id" in
  let? v := require_from_map map MSG_TAG_IK_A_PUB "ik_a_pub" in
  let? ik_a_pub := parse_32 v "ik_a_pub" in
  let? v := require_from_map map MSG_TAG_EK_A_PUB "ek_a_pub" in
  let? ek_a_pub := parse_32 v "ek_a_pub" in
  let? pq_ct := require_from_map map MSG_TAG_PQ_CT "pq_ct" in
  let? pq_ratchet_pub_a := require_from_map map MSG_TAG_PQ_RATCHET_PUB_A "pq_ratchet_pub_a" in
  let? v := require_from_map map MSG_TAG_NONCE "nonce" in
  let? nonce := parse_12 v "nonce" in
  let? ciphertext := require_from_map map MSG_TAG_CIPHERTEXT "ciphertext" in
  let? otpk_id := res_transpose ((λ v, parse_utf8 v "otpk_id") <$> map !! MSG_TAG_OTPK_ID) in
  Ok {| im_protocol_version := version;
        im_suite_id := suite_id;
        im_sender_id := sender_id;
        im_recipient_id := recipient_id;
        im_ik_a_pub := ik_a_pub;
        im_ek_a_pub := ek_a_pub;
        im_pq_ct := pq_ct;
        im_pq_ratchet_pub_a := pq_ratchet_pub_a;
        im_nonce := nonce;
        im_ciphertext := ciphertext;
        im_otpk_id := otpk_id |}.

(** ** Signed prekeys *)

Definition signature_message (protocol_version : N) (label key_material : bytes) : res bytes :=
  encode [ mkTlv SIG_TAG_PROTOCOL_VERSION (u16_be protocol_version);
           mkTlv SIG_TAG_LABEL label;
           mkTlv SIG_TAG_KEY_MATERIAL key_material ].

Definition signed_prekey_signature_message (protocol_version : N) (signed_prekey : bytes)
    : res bytes :=
  signature_message protocol_version (lit "SPK") signed_prekey.

Definition pq_signed_prekey_signature_message (protocol_version : N) (pq_signed_prekey : bytes)
    : res bytes :=
  signature_message protocol_version (lit "PQSPK") pq_signed_prekey.

(** [SignatureVerifier] and the [verify] of [PqSignatureProvider]: public key,
    message, signature. *)
Definition Verifier : Type := bytes → bytes → bytes → res unit.

Definition validate_prekey_bundle_signatures (bundle : PreKeyBundle) (verify : Verifier)
    : res unit :=
  let? spk_message :=
    signed_prekey_signature_message (pb_protocol_version bundle) (pb_signed_prekey bundle) in
  let? _ := verify (pb_signature_public_key bundle) spk_message (pb_spk_signature bundle) in
  let? pqspk_message :=
    pq_signed_prekey_signature_message (pb_protocol_version bundle) (pb_pq_signed_prekey bundle) in
  verify (pb_signature_public_key bundle) pqspk_message (pb_pqspk_signature bundle).

Definition validate_pq_prekey_bundle_signatures (bundle : PreKeyBundle) (pq_verify : Verifier)
    : res unit :=
  let? pq_pk := ok_or (pb_pq_sig_public_key bundle)
                  (MissingField "prekey_bundle.pq_sig_public_key") in
  let? pq_spk_sig := ok_or (pb_pq_spk_signature bundle)
                       (MissingField "prekey_bundle.pq_spk_signature") in
  let? pq_pqspk_sig := ok_or (pb_pq_pqspk_signature bundle)
                         (MissingField "prekey_bundle.pq_pqspk_signature") in
  let? spk_message :=
    signed_prekey_signature_message (pb_protocol_version bundle) (pb_signed_prekey bundle) in
  let? _ := pq_verify pq_pk spk_message pq_spk_sig in
  let? pqspk_message :=
    pq_signed_prekey_signature_message (pb_protocol_version bundle) (pb_pq_signed_prekey bundle) in
  pq_verify pq_pk pqspk_message pq_pqspk_sig.

Definition validate_hybrid_prekey_bundle_signatures (bundle : PreKeyBundle)
    (verify pq_verify : Verifier) : res unit :=
  let? _ := validate_prekey_bundle_signatures bundle verify in
  validate_pq_prekey_bundle_signatures bundle pq_verify.

(** ** Associated data *)

Definition associated_data_records (protocol_version suite_id : N)
    (initiator_identity_key responder_identity_key initiator_id responder_id
     initiator_pq_ratchet_key : bytes) : list TlvRecord :=
  [ mkTlv HS_AD_TAG_PROTOCOL_VERSION (u16_be protocol_version);
    mkTlv HS_AD_TAG_SUITE_ID (u16_be suite_id);
    mkTlv HS_AD_TAG_INITIATOR_IDENTITY_KEY initiator_identity_key;
    mkTlv HS_AD_TAG_RESPONDER_IDENTITY_KEY responder_identity_key;
    mkTlv HS_AD_TAG_INITIATOR_ID initiator_id;
    mkTlv HS_AD_TAG_RESPONDER_ID responder_id;
    mkTlv HS_AD_TAG_INITIATOR_PQ_RATCHET_KEY initiator_pq_ratchet_key ].

Definition associated_data (protocol_version suite_id : N)
    (initiator_identity_key responder_identity_key initiator_id responder_id
     initiator_pq_ratchet_key : bytes) : res bytes :=
  encode (associated_data_records protocol_version suite_id initiator_identity_key
            responder_identity_key initiator_id responder_id initiator_pq_ratchet_key).

(** ** The two sides *)

Record InitiatorOutput := { io_initial_message : InitialMessage; io_session_key : bytes }.
Record ResponderOutput := { ro_plaintext : bytes; ro_session_key : bytes }.

Section Handshake.
Context `{P : Primitives}.

(** The input of the key derivation: the Diffie-Hellman secrets, then the
    encapsulated one. *)
Definition handshake_ikm (dh1 dh2 dh3 : bytes) (dh4 : option bytes) (ss : bytes) : bytes :=
  dh1 ++ dh2 ++ dh3 ++ default [] dh4 ++ ss.

Definition alice_initiate (verify : Verifier) (kem : KemProvider) (alice_id bob_id : bytes)
    (alice_identity : IdentityKeyPair) (alice_pq_ratchet_public_key : bytes)
    (bob_bundle : PreKeyBundle) (payload : bytes) (g : rng) : res InitiatorOutput * rng :=
  if negb (pb_protocol_version bob_bundle =? PROTOCOL_VERSION_V1)
  then (Err (UnsupportedAlgorithm "protocol.version"), g) else
  match suite_id (pb_suite bob_bundle) with Err e => (Err e, g) | Ok suite_id =>
  match validate_prekey_bundle_signatures bob_bundle verify with Err e => (Err e, g) | Ok _ =>
  match IdentityKeyPair_require_secret_key alice_identity with Err e => (Err e, g) | Ok ik_secret =>
  let '(alice_ek, g) := generate_keypair g in
  match kem_encapsulate kem (pb_pq_signed_prekey bob_bundle) g with
  | (Err e, g) => (Err e, g)
  | (Ok kem_encapsulation, g) =>
  let dh1 := diffie_hellman ik_secret (pb_signed_prekey bob_bundle) in
  let dh2 := diffie_hellman (secret alice_ek) (pb_identity_key bob_bundle) in
  let dh3 := diffie_hellman (secret alice_ek) (pb_signed_prekey bob_bundle) in
  let dh4 := diffie_hellman (secret alice_ek) <$> pb_one_time_prekey bob_bundle in
  let ikm := handshake_ikm dh1 dh2 dh3 dh4 (kem_shared_secret kem_encapsulation) in
  match hkdf_sha256_32 ikm None INFO_SK with Err e => (Err e, g) | Ok session_key =>
  match associated_data (pb_protocol_version bob_bundle) suite_id (ik_public_key alice_identity)
          (pb_identity_key bob_bundle) alice_id bob_id alice_pq_ratchet_public_key with
  | Err e => (Err e, g)
  | Ok ad =>
  match encrypt_with_rng session_key payload ad g with
  | (Err e, g) => (Err e, g)
  | (Ok envelope, g) =>
  let otpk_id := (λ _, pb_owner_id bob_bundle) <$> pb_one_time_prekey bob_bundle in
  (Ok {| io_initial_message :=
           {| im_protocol_version := pb_protocol_version bob_bundle;
              im_suite_id := suite_id;
              im_sender_id := alice_id;
              im_recipient_id := bob_id;
              im_ik_a_pub := ik_public_key alice_identity;
              im_ek_a_pub := public alice_ek;
              im_pq_ct := kem_ciphertext kem_encapsulation;
              im_pq_ratchet_pub_a := alice_pq_ratchet_public_key;
              im_nonce := nonce envelope;
              im_ciphertext := ciphertext envelope;
              im_otpk_id := otpk_id |};
         io_session_key := session_key |}, g)
  end end end end end end end.

Definition bob_receive (kem : KemProvider) (bob_identity : IdentityKeyPair)
    (bob_signed_prekey : OneTimePreKey) (bob_pq_signed_prekey : KEMPreKey)
    (bob_one_time_prekey : option OneTimePreKey) (m : InitialMessage) : res ResponderOutput :=
  if negb (im_protocol_version m =? PROTOCOL_VERSION_V1)
  then Err (UnsupportedAlgorithm "protocol.version") else
  let? _ := from_suite_id (im_suite_id m) in
  let? identity_secret := IdentityKeyPair_require_secret_key bob_identity in
  let? spk_secret := OneTimePreKey_require_secret_key bob_signed_prekey in
  let? ss_pq := kem_decapsulate kem (kpk_secret_key bob_pq_signed_prekey) (im_pq_ct m) in
  let dh1 := diffie_hellman spk_secret (im_ik_a_pub m) in
  let dh2 := diffie_hellman identity_secret (im_ek_a_pub m) in
  let dh3 := diffie_hellman spk_secret (im_ek_a_pub m) in
  let? dh4 := match bob_one_time_prekey with
              | None => Ok None
              | Some otpk =>
                  let? otpk_secret := OneTimePreKey_require_secret_key otpk in
                  Ok (Some (diffie_hellman otpk_secret (im_ek_a_pub m)))
              end in
  let ikm := handshake_ikm dh1 dh2 dh3 dh4 ss_pq in
  let? session_key := hkdf_sha256_32 ikm None INFO_SK in
  let? ad := associated_data (im_protocol_version m) (im_suite_id m) (im_ik_a_pub m)
               (ik_public_key bob_identity) (im_sender_id m) (im_recipient_id m)
               (im_pq_ratchet_pub_a m) in
  let? plaintext := decrypt session_key
                      {| nonce := im_nonce m; ciphertext := im_ciphertext m; aad := ad |} in
  Ok {| ro_plaintext := plaintext; ro_session_key := session_key |}.
End Handshake.

(** ** The initial message on the wire *)

Record InitialMessage_wf (m : InitialMessage) : Prop := {
  im_wf_version : im_protocol_version m ≤ u16_max;
  im_wf_suite : im_suite_id m ≤ u16_max;
  im_wf_sender : utf8_valid (im_sender_id m) = true;
  im_wf_recipient : utf8_valid (im_recipient_id m) = true;
  im_wf_ik : length (im_ik_a_pub m) = 32%nat;
  im_wf_ek : length (im_ek_a_pub m) = 32%nat;
  im_wf_nonce : length (im_nonce m) = 12%nat;
  im_wf_otpk : match im_otpk_id m with Some i => utf8_valid i | None => true end = true;
  im_wf_fits : fits (im_sender_id m) && fits (im_recipient_id m) && fits (im_pq_ct m) &&
               fits (im_pq_ratchet_pub_a m) && fits (im_ciphertext m) && opt_fits (im_otpk_id m)
               = true;
}.

Lemma InitialMessage_tags (m : InitialMessage) :
  tags_ok InitialMessage_known_types (ty <$> InitialMessage_records m) = true.
Proof. by destruct m as [? ? ? ? ? ? ? ? ? ? []]. Qed.

Lemma InitialMessage_find (m : InitialMessage) (rs : list TlvRecord) :
  rs = InitialMessage_records m →
  rec_find MSG_TAG_PROTOCOL_VERSION rs = Some (u16_be (im_protocol_version m)) ∧
  rec_find MSG_TAG_SUITE_ID rs = Some (u16_be (im_suite_id m)) ∧
  rec_find MSG_TAG_SENDER_ID rs = Some (im_sender_id m) ∧
  rec_find MSG_TAG_RECIPIENT_ID rs = Some (im_recipient_id m) ∧
  rec_find MSG_TAG_IK_A_PUB rs = Some (im_ik_a_pub m) ∧
  rec_find MSG_TAG_EK_A_PUB rs = Some (im_ek_a_pub m) ∧
  rec_find MSG_TAG_PQ_CT rs = Some (im_pq_ct m) ∧
  rec_find MSG_TAG_PQ_RATCHET_PUB_A rs = Some (im_pq_ratchet_pub_a m) ∧
  rec_find MSG_TAG_NONCE rs = Some (im_nonce m) ∧
  rec_find MSG_TAG_CIPHERTEXT rs = Some (im_ciphertext m) ∧
  rec_find MSG_TAG_OTPK_ID rs = im_otpk_id m.
Proof. intros ->. by destruct m as [? ? ? ? ? ? ? ? ? ? []]. Qed.

Lemma InitialMessage_decode_encode (m : InitialMessage) (b : bytes) :
  InitialMessage_wf m → InitialMessage_encode m = Ok b → InitialMessage_decode b = Ok m.
Proof.
  intros [] He. unfold InitialMessage_decode. tlv_read (InitialMessage_tags m) He.
  destruct (InitialMessage_find m _ eq_refl)
    as (-> & -> & -> & -> & -> & -> & -> & -> & -> & -> & ->).
  tlv_parse. rewrite !parse_utf8_ok by done.
  destruct m as [? ? ? ? ? ? ? ? ? ? [o|]]; simpl in *; [by rewrite parse_utf8_ok|done].
Qed.

Lemma InitialMessage_encode_ok (m : InitialMessage) :
  InitialMessage_wf m → ∃ b, InitialMessage_encode m = Ok b.
Proof.
  intros []. apply encode_fits. unfold InitialMessage_records.
  rewrite !forallb_app, !forallb_opt_record. simpl.
  rewrite (fits_short 32 (im_ik_a_pub m)), (fits_short 32 (im_ek_a_pub m)),
    (fits_short 12 (im_nonce m)) by done. simpl.
  unfold opt_fits in *. rewrite !andb_true_r. by rewrite <- !andb_assoc in *.
Qed.

(** ** What is signed and what is authenticated *)

Lemma signature_message_inj (v v' : N) (l l' k k' b : bytes) :
  v ≤ u16_max → v' ≤ u16_max → signature_message v l k = Ok b → signature_message v' l' k' = Ok b →
  v = v' ∧ l = l' ∧ k = k'.
Proof.
  intros Hv Hv' H H'.
  assert (Hwf : ∀ a b c, Forall record_wf
    [mkTlv SIG_TAG_PROTOCOL_VERSION a; mkTlv SIG_TAG_LABEL b; mkTlv SIG_TAG_KEY_MATERIAL c])
    by (intros; repeat constructor; done).
  pose proof (encode_inj _ _ _ (Hwf _ _ _) (Hwf _ _ _) H H') as He.
  assert (E : ∀ t, rec_find t [mkTlv SIG_TAG_PROTOCOL_VERSION (u16_be v); mkTlv SIG_TAG_LABEL l;
      mkTlv SIG_TAG_KEY_MATERIAL k] = rec_find t [mkTlv SIG_TAG_PROTOCOL_VERSION (u16_be v');
      mkTlv SIG_TAG_LABEL l'; mkTlv SIG_TAG_KEY_MATERIAL k']) by (intros; by rewrite He).
  pose proof (E SIG_TAG_PROTOCOL_VERSION) as E1. pose proof (E SIG_TAG_LABEL) as E2.
  pose proof (E SIG_TAG_KEY_MATERIAL) as E3. simpl rec_find in E1, E2, E3.
  split_and!; [|congruence|congruence].
  apply Some_inj in E1. by rewrite <- (from_u16_be v Hv), E1, from_u16_be.
Qed.

Lemma associated_data_find (v su : N) (ia ib na nb pq : bytes) (rs : list TlvRecord) :
  rs = associated_data_records v su ia ib na nb pq →
  rec_find HS_AD_TAG_PROTOCOL_VERSION rs = Some (u16_be v) ∧
  rec_find HS_AD_TAG_SUITE_ID rs = Some (u16_be su) ∧
  rec_find HS_AD_TAG_INITIATOR_IDENTITY_KEY rs = Some ia ∧
  rec_find HS_AD_TAG_RESPONDER_IDENTITY_KEY rs = Some ib ∧
  rec_find HS_AD_TAG_INITIATOR_ID rs = Some na ∧
  rec_find HS_AD_TAG_RESPONDER_ID rs = Some nb ∧
  rec_find HS_AD_TAG_INITIATOR_PQ_RATCHET_KEY rs = Some pq.
Proof. by intros ->. Qed.

(** ** Agreement *)

(** A bundle made from the responder's keys. *)
Record bundle_of (ik : IdentityKeyPair) (spk : OneTimePreKey) (pqspk : KEMPreKey)
    (otpk : option OneTimePreKey) (bundle : PreKeyBundle) : Prop := {
  bo_version : pb_protocol_version bundle = PROTOCOL_VERSION_V1;
  bo_identity : pb_identity_key bundle = ik_public_key ik;
  bo_spk : pb_signed_prekey bundle = otpk_public_key spk;
  bo_pqspk : pb_pq_signed_prekey bundle = kpk_public_key pqspk;
  bo_otpk : pb_one_time_prekey bundle = otpk_public_key <$> otpk;
}.

Section Agreement.
Context `{P : Primitives} `{!PrimitiveLaws P}.

Lemma suite_id_known (s : AlgorithmSuite) :
  ∃ i s', suite_id s = Ok i ∧ i ≤ u16_max ∧ from_suite_id i = Ok s'.
Proof. destruct s as [[] [] [] [] sg]; eexists _, _; by vm_compute. Qed.

(** When every primitive succeeds, so does the initiator, and the message has
    the shape the source builds. *)
Lemma alice_initiate_ok (verify : Verifier) (K : KemProvider) (na nb pq payload : bytes)
    (ika : IdentityKeyPair) (bundle : PreKeyBundle) (g g1 g2 : rng) (ek : DhKeyPair)
    (e : KemEncapsulation) (i : N) :
  pb_protocol_version bundle = PROTOCOL_VERSION_V1 →
  suite_id (pb_suite bundle) = Ok i →
  validate_prekey_bundle_signatures bundle verify = Ok tt →
  length (ik_secret_key ika) = 32%nat → length (ik_public_key ika) = 32%nat →
  length (pb_identity_key bundle) = 32%nat →
  generate_keypair g = (ek, g1) →
  kem_encapsulate K (pb_pq_signed_prekey bundle) g1 = (Ok e, g2) →
  fits na && fits nb && fits pq = true → len payload ≤ u32_max →
  ∃ sk ad env g3,
    hkdf_sha256_32 (handshake_ikm
        (diffie_hellman (ik_secret_key ika) (pb_signed_prekey bundle))
        (diffie_hellman (secret ek) (pb_identity_key bundle))
        (diffie_hellman (secret ek) (pb_signed_prekey bundle))
        (diffie_hellman (secret ek) <$> pb_one_time_prekey bundle) (kem_shared_secret e))
      None INFO_SK = Ok sk ∧
    associated_data PROTOCOL_VERSION_V1 i (ik_public_key ika) (pb_identity_key bundle) na nb pq = Ok ad ∧
    length (nonce env) = 12%nat ∧ length (ciphertext env) = (length payload + 16)%nat ∧
    decrypt sk {| nonce := nonce env; ciphertext := ciphertext env; aad := ad |} = Ok payload ∧
    alice_initiate verify K na nb ika pq bundle payload g =
      (Ok {| io_initial_message := Build_InitialMessage PROTOCOL_VERSION_V1 i na nb (ik_public_key ika) (public ek)
               (kem_ciphertext e) pq (nonce env) (ciphertext env)
               ((λ _, pb_owner_id bundle) <$> pb_one_time_prekey bundle);
             io_session_key := sk |}, g3).
Proof.
  intros Hv Hsu Hval Hsk Hpk Hik Hg Hk Hf Hp.
  destruct (hkdf_sha256_32_ok (handshake_ikm
        (diffie_hellman (ik_secret_key ika) (pb_signed_prekey bundle))
        (diffie_hellman (secret ek) (pb_identity_key bundle))
        (diffie_hellman (secret ek) (pb_signed_prekey bundle))
        (diffie_hellman (secret ek) <$> pb_one_time_prekey bundle) (kem_shared_secret e))
      None INFO_SK) as (sk & Hkdf & _).
  assert (Had : ∃ ad, associated_data PROTOCOL_VERSION_V1 i (ik_public_key ika) (pb_identity_key bundle) na nb pq = Ok ad).
  { apply encode_fits. simpl.
    rewrite (fits_short 32 (ik_public_key ika)), (fits_short 32 (pb_identity_key bundle)) by done.
    simpl. rewrite andb_true_r. by rewrite <- !andb_assoc in Hf. }
  destruct Had as [ad Had].
  destruct (encrypt_with_rng_ok sk payload ad g2 Hp) as (env & g3 & Henc & Hn & Hc & Hdec).
  exists sk, ad, env, g3. split_and!; [done..|].
  unfold alice_initiate, IdentityKeyPair_require_secret_key.
  rewrite Hv, N.eqb_refl, Hsu, Hval, require_32_ok by done. cbn [negb].
  rewrite Hg, Hk, Hkdf. by rewrite Had, Henc.
Qed.

Lemma bob_receive_ok (K : KemProvider) (ikb : IdentityKeyPair) (spk : OneTimePreKey)
    (pqspk : KEMPreKey) (otpk : option OneTimePreKey) (m : InitialMessage) (ss sk ad payload : bytes) :
  im_protocol_version m = PROTOCOL_VERSION_V1 → is_ok (from_suite_id (im_suite_id m)) = true →
  dh_keypair_wf (ik_pair ikb) → dh_keypair_wf (otpk_pair spk) →
  (∀ o, otpk = Some o → dh_keypair_wf (otpk_pair o)) →
  kem_decapsulate K (kpk_secret_key pqspk) (im_pq_ct m) = Ok ss →
  hkdf_sha256_32 (handshake_ikm (diffie_hellman (otpk_secret_key spk) (im_ik_a_pub m))
      (diffie_hellman (ik_secret_key ikb) (im_ek_a_pub m))
      (diffie_hellman (otpk_secret_key spk) (im_ek_a_pub m))
      ((λ o, diffie_hellman (otpk_secret_key o) (im_ek_a_pub m)) <$> otpk) ss) None INFO_SK = Ok sk →
  associated_data (im_protocol_version m) (im_suite_id m) (im_ik_a_pub m) (ik_public_key ikb)
    (im_sender_id m) (im_recipient_id m) (im_pq_ratchet_pub_a m) = Ok ad →
  decrypt sk {| nonce := im_nonce m; ciphertext := im_ciphertext m; aad := ad |} = Ok payload →
  bob_receive K ikb spk pqspk otpk m = Ok {| ro_plaintext := payload; ro_session_key := sk |}.
Proof.
  intros Hv Hsu [Hik _] [Hspk _] Hot Hk Hkdf Had Hdec. unfold bob_receive.
  rewrite Hv, N.eqb_refl. cbn [negb]. rewrite <- Hv.
  destruct (from_suite_id (im_suite_id m)); [|done].
  unfold IdentityKeyPair_require_secret_key, OneTimePreKey_require_secret_key.
  rewrite !require_32_ok by done. rewrite Hk.
  destruct otpk as [o|].
  - destruct (Hot o eq_refl) as [Ho _]. rewrite require_32_ok by done.
    simpl in Hkdf. by rewrite Hkdf, Had, Hdec.
  - simpl in Hkdf. by rewrite Hkdf, Had, Hdec.
Qed.

Lemma handshake_agree (K : KemProvider) (KL : KemLaws K) (verify : Verifier) (na nb pq payload : bytes)
    (ika ikb : IdentityKeyPair) (spk : OneTimePreKey) (pqspk : KEMPreKey)
    (otpk : option OneTimePreKey) (bundle : PreKeyBundle) (g g2 : rng) (e : KemEncapsulation)
    (Hbundle : bundle_of ikb spk pqspk otpk bundle)
    (Hika : dh_keypair_wf (ik_pair ika)) (Hikb : dh_keypair_wf (ik_pair ikb))
    (Hspk : dh_keypair_wf (otpk_pair spk))
    (Hotpk : ∀ o, otpk = Some o → dh_keypair_wf (otpk_pair o))
    (Hpair : kem_pair (kpk_public_key pqspk) (kpk_secret_key pqspk))
    (Hval : validate_prekey_bundle_signatures bundle verify = Ok tt)
    (Hkem : kem_encapsulate K (kpk_public_key pqspk) (generate_keypair g).2 = (Ok e, g2))
    (Hutf : utf8_valid na && utf8_valid nb && utf8_valid (pb_owner_id bundle) = true)
    (Hfits : fits na && fits nb && fits pq && fits (kem_ciphertext e) && fits (pb_owner_id bundle)
             = true)
    (Hpay : len payload + 16 ≤ u16_max) :
  ∃ out g' b,
    alice_initiate verify K na nb ika pq bundle payload g = (Ok out, g') ∧
    InitialMessage_encode (io_initial_message out) = Ok b ∧
    InitialMessage_decode b = Ok (io_initial_message out) ∧
    bob_receive K ikb spk pqspk otpk (io_initial_message out) =
      Ok {| ro_plaintext := payload; ro_session_key := io_session_key out |}.
Proof.
  destruct Hbundle as [Hv Hbi Hbs Hbp Hbo].
  destruct (suite_id_known (pb_suite bundle)) as (i & s' & Hsu & Hib & Hfrom).
  pose proof (generate_keypair_wf g) as Hek. destruct (generate_keypair g) as [ek g1] eqn:Hg.
  apply andb_true_iff in Hutf as [[Hu1 Hu2]%andb_true_iff Hu3].
  apply andb_true_iff in Hfits as [[[[F1 F2]%andb_true_iff F3]%andb_true_iff F4]%andb_true_iff F5].
  destruct (alice_initiate_ok verify K na nb pq payload ika bundle g g1 g2 ek e i)
    as (sk & ad & env & g3 & Hkdf & Had & Hn & Hc & Hdec & Ha); try done.
  { apply Hika. } { by apply (dh_keypair_public_length _ Hika). }
  { rewrite Hbi. by apply (dh_keypair_public_length _ Hikb). } { by rewrite Hbp. }
  { by rewrite F1, F2, F3. } { unfold u32_max, u16_max in *. lia. }
  set (m := Build_InitialMessage _ _ _ _ _ _ _ _ _ _ _) in Ha.
  assert (Hwf : InitialMessage_wf m).
  { split; simpl; try done.
    - by apply (dh_keypair_public_length _ Hika).
    - by apply (dh_keypair_public_length _ Hek).
    - by destruct (pb_one_time_prekey bundle).
    - replace (fits (ciphertext env)) with true.
      + rewrite F1, F2, F3, F4. by destruct (pb_one_time_prekey bundle).
      + symmetry. apply N.leb_le. unfold len in *. lia. }
  destruct (InitialMessage_encode_ok m Hwf) as [b Hb].
  eexists _, g3, b. split_and!; [exact Ha|exact Hb|by apply InitialMessage_decode_encode|].
  eapply bob_receive_ok; try done; simpl.
  - by rewrite Hfrom.
  - by eapply kem_correct.
  - rewrite <- Hkdf. f_equal. unfold handshake_ikm.
    rewrite Hbs, Hbi, Hbo.
    pose proof (dh_agree (ik_pair ika) (otpk_pair spk) Hika Hspk) as E1.
    pose proof (dh_agree ek (ik_pair ikb) Hek Hikb) as E2.
    pose proof (dh_agree ek (otpk_pair spk) Hek Hspk) as E3. simpl in E1, E2, E3.
    rewrite E1, E2, E3. do 4 f_equal. destruct otpk as [o|]; [|done]. simpl.
    pose proof (dh_agree ek (otpk_pair o) Hek (Hotpk o eq_refl)) as E4. simpl in E4. by rewrite E4.
  - by rewrite <- Hbi.
Qed.
End Agreement.

(** ** Properties *)

(** C2: the handshake agrees. If the responder's bundle is made from its own
    well-formed keys (with or without a one-time prekey), the bundle's
    signatures verify, the key encapsulation is correct and succeeds, and ids,
    ciphertext and payload fit their records, then the initiator produces an
    initial message, the message survives encoding and decoding unchanged, and
    the responder, given the keys the bundle was made from, derives the same
    session key and recovers the initiator's payload. *)
Theorem handshake_agreement (P : Primitives) (L : PrimitiveLaws P) (K : KemProvider)
    (KL : KemLaws K) (verify : Verifier) (na nb pq payload : bytes)
    (ika ikb : IdentityKeyPair) (spk : OneTimePreKey) (pqspk : KEMPreKey)
    (otpk : option OneTimePreKey) (bundle : PreKeyBundle) (g g2 : rng) (e : KemEncapsulation)
    (Hbundle : bundle_of ikb spk pqspk otpk bundle)
    (Hika : dh_keypair_wf (ik_pair ika)) (Hikb : dh_keypair_wf (ik_pair ikb))
    (Hspk : dh_keypair_wf (otpk_pair spk))
    (Hotpk : ∀ o, otpk = Some o → dh_keypair_wf (otpk_pair o))
    (Hpair : kem_pair (kpk_public_key pqspk) (kpk_secret_key pqspk))
    (Hval : validate_prekey_bundle_signatures bundle verify = Ok tt)
    (Hkem : kem_encapsulate K (kpk_public_key pqspk) (generate_keypair g).2 = (Ok e, g2))
    (Hutf : utf8_valid na && utf8_valid nb && utf8_valid (pb_owner_id bundle) = true)
    (Hfits : fits na && fits nb && fits pq && fits (kem_ciphertext e) && fits (pb_owner_id bundle)
             = true)
    (Hpay : len payload + 16 ≤ u16_max) :
  ∃ out g' b,
    alice_initiate verify K na nb ika pq bundle payload g = (Ok out, g') ∧
    InitialMessage_encode (io_initial_message out) = Ok b ∧
    InitialMessage_decode b = Ok (io_initial_message out) ∧
    bob_receive K ikb spk pqspk otpk (io_initial_message out) =
      Ok {| ro_plaintext := payload; ro_session_key := io_session_key out |}.
Proof. by apply (handshake_agree K KL verify na nb pq payload ika ikb spk pqspk otpk bundle g g2 e). Qed.

Definition toy_ik (b : byte) : IdentityKeyPair :=
  {| ik_key_id := [b]; ik_public_key := replicate 32 b; ik_secret_key := replicate 32 b;
     ik_pq_sig_public_key := None; ik_pq_sig_secret_key := None |}.

Definition toy_otpk (b : byte) : OneTimePreKey :=
  {| otpk_key_id := [b]; otpk_public_key := replicate 32 b; otpk_secret_key := replicate 32 b |}.

Definition toy_kpk (b : byte) : KEMPreKey :=
  {| kpk_key_id := [b]; kpk_public_key := [b]; kpk_secret_key := [b] |}.

Definition toy_bundle : PreKeyBundle :=
  {| pb_protocol_version := 1; pb_suite := AlgorithmSuite_default; pb_owner_id := lit "bob";
     pb_identity_key := replicate 32 x02; pb_signed_prekey := replicate 32 x03;
     pb_pq_signed_prekey := [x04]; pb_spk_signature := []; pb_pqspk_signature := [];
     pb_signature_public_key := []; pb_one_time_prekey := Some (replicate 32 x05);
     pb_one_time_pq_prekey := None; pb_pq_sig_public_key := None; pb_pq_spk_signature := None;
     pb_pq_pqspk_signature := None |}.

Definition toy_verify : Verifier := λ _ _ _, Ok tt.

Lemma handshake_agreement_witness :
  ∃ out g' b,
    alice_initiate (P := Toy) toy_verify ToyKem (lit "alice") (lit "bob") (toy_ik x01) [x06]
      toy_bundle (lit "hi") (0%N : @rng Toy) = (Ok out, g') ∧
    InitialMessage_encode (io_initial_message out) = Ok b ∧
    InitialMessage_decode b = Ok (io_initial_message out) ∧
    bob_receive (P := Toy) ToyKem (toy_ik x02) (toy_otpk x03) (toy_kpk x04) (Some (toy_otpk x05))
      (io_initial_message out) =
      Ok {| ro_plaintext := lit "hi"; ro_session_key := io_session_key out |}.
Proof.
  eapply (handshake_agreement Toy ToyLaws ToyKem ToyKemLaws toy_verify (lit "alice") (lit "bob")
            [x06] (lit "hi") (toy_ik x01) (toy_ik x02) (toy_otpk x03) (toy_kpk x04)
            (Some (toy_otpk x05)) toy_bundle (0%N : @rng Toy)).
  - split; reflexivity.
  - split; reflexivity.
  - split; reflexivity.
  - split; reflexivity.
  - intros o [= <-]. split; reflexivity.
  - reflexivity.
  - vm_compute. reflexivity.
  - reflexivity.
  - vm_compute. reflexivity.
  - vm_compute. reflexivity.
  - vm_compute. discriminate.
Defined.

(** The handshake's associated data determines both identities in their
    roles: version, suite, both identity keys, both user ids and the
    initiator's post-quantum ratchet key are all recovered from it. *)
Theorem handshake_ad_binds (v v' su su' : N) (ia ia' ib ib' na na' nb nb' pq pq' b : bytes)
    (Hv : v ≤ u16_max) (Hv' : v' ≤ u16_max) (Hsu : su ≤ u16_max) (Hsu' : su' ≤ u16_max)
    (H : associated_data v su ia ib na nb pq = Ok b)
    (H' : associated_data v' su' ia' ib' na' nb' pq' = Ok b) :
  v = v' ∧ su = su' ∧ ia = ia' ∧ ib = ib' ∧ na = na' ∧ nb = nb' ∧ pq = pq'.
Proof.
  assert (Hwf : ∀ v su ia ib na nb pq, Forall record_wf (associated_data_records v su ia ib na nb pq))
    by (intros; repeat constructor; done).
  pose proof (encode_inj _ _ _ (Hwf _ _ _ _ _ _ _) (Hwf _ _ _ _ _ _ _) H H') as He.
  destruct (associated_data_find v su ia ib na nb pq _ eq_refl) as (E1 & E2 & E3 & E4 & E5 & E6 & E7).
  destruct (associated_data_find v' su' ia' ib' na' nb' pq' _ eq_refl)
    as (F1 & F2 & F3 & F4 & F5 & F6 & F7).
  rewrite He in *. rewrite E1 in F1. rewrite E2 in F2.
  apply u16_be_inj in F1, F2; [|done..]. split_and!; congruence.
Qed.

Lemma handshake_ad_binds_witness :
  ∃ b, associated_data 1 1 (replicate 32 x01) (replicate 32 x02) (lit "a") (lit "b") [] = Ok b ∧
    ∀ na nb, associated_data 1 1 (replicate 32 x01) (replicate 32 x02) na nb [] = Ok b →
      na = lit "a" ∧ nb = lit "b".
Proof.
  destruct (associated_data 1 1 (replicate 32 x01) (replicate 32 x02) (lit "a") (lit "b") [])
    as [b|] eqn:E; [|by vm_compute in E].
  exists b. split; [reflexivity|]. intros na nb H'.
  destruct (handshake_ad_binds 1 1 1 1 (replicate 32 x01) (replicate 32 x01) (replicate 32 x02)
              (replicate 32 x02) (lit "a") na (lit "b") nb [] [] b)
    as (_ & _ & _ & _ & <- & <- & _); [by vm_compute..|exact E|exact H'|done].
Defined.

(** What the prekey signatures vouch for. A bundle passes the hybrid check
    precisely when both verifiers accept, under the bundle's two signature
    keys, the signed-prekey message of exactly its signed prekey and the
    post-quantum message of exactly its post-quantum prekey; the two kinds of
    message never coincide, so a signature on one kind of key is never valid
    for the other, and each message determines version and key. *)
Theorem prekey_signatures_spec (bundle : PreKeyBundle) (verify pq_verify : Verifier) :
  (validate_hybrid_prekey_bundle_signatures bundle verify pq_verify = Ok tt ↔
     ∃ spk_message pqspk_message pk s1 s2,
       signed_prekey_signature_message (pb_protocol_version bundle) (pb_signed_prekey bundle)
         = Ok spk_message ∧
       pq_signed_prekey_signature_message (pb_protocol_version bundle) (pb_pq_signed_prekey bundle)
         = Ok pqspk_message ∧
       verify (pb_signature_public_key bundle) spk_message (pb_spk_signature bundle) = Ok tt ∧
       verify (pb_signature_public_key bundle) pqspk_message (pb_pqspk_signature bundle) = Ok tt ∧
       pb_pq_sig_public_key bundle = Some pk ∧ pb_pq_spk_signature bundle = Some s1 ∧
       pb_pq_pqspk_signature bundle = Some s2 ∧
       pq_verify pk spk_message s1 = Ok tt ∧ pq_verify pk pqspk_message s2 = Ok tt) ∧
  (∀ v v' k k' m m', v ≤ u16_max → v' ≤ u16_max →
     signed_prekey_signature_message v k = Ok m → pq_signed_prekey_signature_message v' k' = Ok m' →
     m ≠ m') ∧
  (∀ v v' k k' m, v ≤ u16_max → v' ≤ u16_max →
     signed_prekey_signature_message v k = Ok m → signed_prekey_signature_message v' k' = Ok m →
     v = v' ∧ k = k').
Proof.
  split; [split|split].
  - unfold validate_hybrid_prekey_bundle_signatures, validate_prekey_bundle_signatures,
      validate_pq_prekey_bundle_signatures. intros H.
    destruct (signed_prekey_signature_message _ _) as [m1|]; [|done].
    destruct (verify _ m1 _) as [[]|] eqn:V1; [|done].
    destruct (pq_signed_prekey_signature_message _ _) as [m2|]; [|done].
    destruct (verify _ m2 _) as [[]|] eqn:V2; [|done].
    destruct (pb_pq_sig_public_key bundle) as [pk|]; [|done].
    destruct (pb_pq_spk_signature bundle) as [s1|]; [|done].
    destruct (pb_pq_pqspk_signature bundle) as [s2|]; [|done]. simpl in H.
    destruct (pq_verify pk m1 s1) as [[]|] eqn:V3; [|done].
    exists m1, m2, pk, s1, s2. by rewrite V1, V2, V3.
  - intros (m1 & m2 & pk & s1 & s2 & E1 & E2 & V1 & V2 & E3 & E4 & E5 & V3 & V4).
    unfold validate_hybrid_prekey_bundle_signatures, validate_prekey_bundle_signatures,
      validate_pq_prekey_bundle_signatures.
    rewrite E1, V1, E2, V2, E3, E4, E5. simpl. by rewrite V3.
  - intros v v' k k' m m' Hv Hv' H H' ->.
    destruct (signature_message_inj _ _ _ _ _ _ _ Hv Hv' H H') as (_ & Hl & _). done.
  - intros v v' k k' m Hv Hv' H H'.
    by destruct (signature_message_inj _ _ _ _ _ _ _ Hv Hv' H H') as (-> & _ & ->).
Qed.
