(* ===== verification/EndToEnd.v ===== *)
(** * First contact, end to end

    How the command-line client ([pqmsg-cli/src/main.rs]) joins the handshake
    and the session: the initiator's session starts from its identity key and
    the responder's signed prekey, the responder's from its signed prekey and
    the initiator's identity key, both with the mandatory post-quantum ratchet
    and a window of 512 skipped keys. *)

From Stdlib Require Import Strings.Byte.
From S2P Require Import Prelude Bytes Errors Tlv Crypto Toy Alg Aead.
From S2P Require Import Wire Ratchet PqRatchet Session SessionRun Conversation Keys Handshake.
Local Open Scope N_scope.

Definition CLI_MAX_SKIPPED : N := 512.

Definition mandatory_pq_ratchet_state (local_pq_prekey : KEMPreKey) (remote_public_key : bytes)
    : PqRatchetState :=
  {| interval := DEFAULT_PQ_RATCHET_INTERVAL;
     local_public_key := kpk_public_key local_pq_prekey;
     local_secret_key := kpk_secret_key local_pq_prekey;
     remote_public_key := remote_public_key;
     local_key_history := [];
     max_key_history := DEFAULT_PQ_RATCHET_KEY_HISTORY;
     last_remote_update_msg_num := 0 |}.

Section FirstContact.
Context `{P : Primitives}.

(** The session the sender saves after [alice_initiate]. *)
Definition initiator_session (session_key : bytes) (identity : IdentityKeyPair)
    (local_pq_signed_prekey : KEMPreKey) (prekey_bundle : PreKeyBundle) (kem : KemProvider)
    : res SessionState :=
  let? sec := IdentityKeyPair_require_secret_key identity in
  let local_dh := {| public := ik_public_key identity; secret := sec |} in
  let? suite := suite_id (pb_suite prekey_bundle) in
  from_handshake_with_suite_with_pq_ratchet Initiator session_key local_dh
    (pb_signed_prekey prekey_bundle) suite CLI_MAX_SKIPPED
    (mandatory_pq_ratchet_state local_pq_signed_prekey (pb_pq_signed_prekey prekey_bundle)) kem.

(** The session the receiver saves after [bob_receive]. *)
Definition responder_start (kem : KemProvider) (spk : OneTimePreKey) (pqspk : KEMPreKey) (initial : InitialMessage)
    (responder : ResponderOutput) : res SessionState :=
  let? sec := OneTimePreKey_require_secret_key spk in
  let local_dh := {| public := otpk_public_key spk; secret := sec |} in
  from_handshake_with_suite_with_pq_ratchet Responder (ro_session_key responder)
    local_dh (im_ik_a_pub initial) (im_suite_id initial) CLI_MAX_SKIPPED
    (mandatory_pq_ratchet_state pqspk (im_pq_ratchet_pub_a initial)) kem.

(** What the receiver does with an initial message: the one-time prekey is
    always passed as absent. *)
Definition responder_session (kem : KemProvider) (identity : IdentityKeyPair) (spk : OneTimePreKey)
    (pqspk : KEMPreKey) (initial : InitialMessage) : res (bytes * SessionState) :=
  let? responder := bob_receive kem identity spk pqspk None initial in
  let? session := responder_start kem spk pqspk initial responder in
  Ok (ro_plaintext responder, session).

Context `{!PrimitiveLaws P}.

Lemma pq_session_ok (role : SessionRole) (rk : bytes) (kp : DhKeyPair) (remote : bytes)
    (suite max : N) (q : PqRatchetState) (K : KemProvider) :
  ∃ s, from_handshake_with_suite_with_pq_ratchet role rk kp remote suite max q K = Ok s.
Proof.
  unfold from_handshake_with_suite_with_pq_ratchet,
    from_handshake_with_suite_and_wire_version_with_pq_ratchet.
  destruct (from_handshake_ok role rk kp remote suite WIRE_VERSION max)
    as (s & ? & ? & ? & ? & -> & _). eauto.
Qed.

(** What an initiator's message says, whatever the verifier and the provider. *)
Lemma alice_initiate_message (verify : Verifier) (K : KemProvider) (na nb pq payload : bytes)
    (ika : IdentityKeyPair) (bundle : PreKeyBundle) (g g' : rng) (out : InitiatorOutput) :
  alice_initiate verify K na nb ika pq bundle payload g = (Ok out, g') →
  im_ik_a_pub (io_initial_message out) = ik_public_key ika ∧
  suite_id (pb_suite bundle) = Ok (im_suite_id (io_initial_message out)) ∧
  im_sender_id (io_initial_message out) = na ∧ im_recipient_id (io_initial_message out) = nb.
Proof.
  unfold alice_initiate. destruct (negb _); [done|].
  destruct (suite_id (pb_suite bundle)) as [i|]; [|done].
  destruct (validate_prekey_bundle_signatures _ _); [|done].
  destruct (IdentityKeyPair_require_secret_key ika); [|done].
  destruct (generate_keypair g) as [ek g1].
  destruct (kem_encapsulate K _ g1) as [[e|] g2]; [|done].
  destruct (hkdf_sha256_32 _ _ _) as [sk|]; [|done].
  destruct (associated_data _ _ _ _ _ _ _) as [ad|]; [|done].
  destruct (encrypt_with_rng sk payload ad g2) as [[env|] g3]; [|done].
  by intros [= <- <-].
Qed.

(** What first contact establishes, with or without a one-time prekey: both
    sides get a session, and the two sessions are linked in both directions. *)
Lemma contact_with (otpk : option OneTimePreKey) (K : KemProvider) (KL : KemLaws K) (verify : Verifier) (na nb payload : bytes)
    (ika ikb : IdentityKeyPair) (spk : OneTimePreKey) (pqa pqspk : KEMPreKey) (bundle : PreKeyBundle) (g g2 : rng)
    (e : KemEncapsulation)
    (Hbundle : bundle_of ikb spk pqspk otpk bundle)
    (Hika : dh_keypair_wf (ik_pair ika)) (Hikb : dh_keypair_wf (ik_pair ikb))
    (Hspk : dh_keypair_wf (otpk_pair spk))
    (Hotpk : ∀ o, otpk = Some o → dh_keypair_wf (otpk_pair o))
    (Hpair : kem_pair (kpk_public_key pqspk) (kpk_secret_key pqspk))
    (Hval : validate_prekey_bundle_signatures bundle verify = Ok tt)
    (Hkem : kem_encapsulate K (kpk_public_key pqspk) (generate_keypair g).2 = (Ok e, g2))
    (Hutf : utf8_valid na && utf8_valid nb && utf8_valid (pb_owner_id bundle) = true)
    (Hfits : fits na && fits nb && fits (kpk_public_key pqa) && fits (kem_ciphertext e) &&
             fits (pb_owner_id bundle) = true)
    (Hpay : len payload + 16 ≤ u16_max) :
  ∃ out g' wire a b responder,
    let m := io_initial_message out in
    alice_initiate verify K na nb ika (kpk_public_key pqa) bundle payload g = (Ok out, g') ∧
    InitialMessage_encode m = Ok wire ∧ InitialMessage_decode wire = Ok m ∧
    im_sender_id m = na ∧ im_recipient_id m = nb ∧ suite_id (pb_suite bundle) = Ok (im_suite_id m) ∧
    initiator_session (io_session_key out) ika pqa bundle K = Ok a ∧
    bob_receive K ikb spk pqspk otpk m = Ok responder ∧ ro_plaintext responder = payload ∧
    responder_start K spk pqspk m responder = Ok b ∧
    ∀ gen, ∃ lab lba, net_inv lab lba true CLI_MAX_SKIPPED (net_start a b gen).
Proof.
  destruct (handshake_agree K KL verify na nb (kpk_public_key pqa) payload ika ikb spk pqspk otpk
              bundle g g2 e) as (out & g' & wire & Ha & He & Hd & Hr); try done.
  destruct (alice_initiate_message _ _ _ _ _ _ _ _ _ _ _ Ha) as (Hik & Hsu & Hna & Hnb).
  destruct (suite_id_known (pb_suite bundle)) as (i & _ & Hsu' & Hib & _).
  assert (Hi : im_suite_id (io_initial_message out) = i) by congruence.
  set (m := io_initial_message out) in *.
  destruct (pq_session_ok Initiator (io_session_key out) (ik_pair ika) (pb_signed_prekey bundle)
              i CLI_MAX_SKIPPED (mandatory_pq_ratchet_state pqa (pb_pq_signed_prekey bundle)) K)
    as [a Hsa].
  destruct (pq_session_ok Responder (io_session_key out) (otpk_pair spk) (im_ik_a_pub m) i
              CLI_MAX_SKIPPED (mandatory_pq_ratchet_state pqspk (im_pq_ratchet_pub_a m)) K) as [b Hsb].
  eexists out, g', wire, a, b, _. cbv zeta. fold m. split_and!; [done..| |exact Hr|done| |].
  - unfold initiator_session, IdentityKeyPair_require_secret_key.
    rewrite require_32_ok by apply Hika. by rewrite Hsu'.
  - unfold responder_start, OneTimePreKey_require_secret_key. cbn [ro_session_key].
    rewrite require_32_ok by apply Hspk. rewrite Hi. unfold otpk_pair in Hsb. by rewrite Hsb.
  - intros gen. destruct Hbundle as [_ _ Hbs _ _]. rewrite Hbs in Hsa. rewrite Hik in Hsb.
    destruct (start_pq (io_session_key out) (ik_pair ika) (otpk_pair spk) i WIRE_VERSION CLI_MAX_SKIPPED
      (mandatory_pq_ratchet_state pqa (pb_pq_signed_prekey bundle)) (mandatory_pq_ratchet_state pqspk (im_pq_ratchet_pub_a m))
      K K a b gen)
      as (lab & lba & Hinv & _); [by apply dh_keypair_public_length..|done|exact Hsa|exact Hsb|].
    exists lab, lba. exact Hinv.
Qed.
(** Without a one-time prekey. *)
Lemma contact (K : KemProvider) (KL : KemLaws K) (verify : Verifier) (na nb payload : bytes)
    (ika ikb : IdentityKeyPair) (spk : OneTimePreKey) (pqa pqspk : KEMPreKey) (bundle : PreKeyBundle) (g g2 : rng)
    (e : KemEncapsulation)
    (Hbundle : bundle_of ikb spk pqspk None bundle)
    (Hika : dh_keypair_wf (ik_pair ika)) (Hikb : dh_keypair_wf (ik_pair ikb))
    (Hspk : dh_keypair_wf (otpk_pair spk))
    (Hpair : kem_pair (kpk_public_key pqspk) (kpk_secret_key pqspk))
    (Hval : validate_prekey_bundle_signatures bundle verify = Ok tt)
    (Hkem : kem_encapsulate K (kpk_public_key pqspk) (generate_keypair g).2 = (Ok e, g2))
    (Hutf : utf8_valid na && utf8_valid nb && utf8_valid (pb_owner_id bundle) = true)
    (Hfits : fits na && fits nb && fits (kpk_public_key pqa) && fits (kem_ciphertext e) &&
             fits (pb_owner_id bundle) = true)
    (Hpay : len payload + 16 ≤ u16_max) :
  ∃ out g' wire a b,
    let m := io_initial_message out in
    alice_initiate verify K na nb ika (kpk_public_key pqa) bundle payload g = (Ok out, g') ∧
    InitialMessage_encode m = Ok wire ∧ InitialMessage_decode wire = Ok m ∧
    im_sender_id m = na ∧ im_recipient_id m = nb ∧ suite_id (pb_suite bundle) = Ok (im_suite_id m) ∧
    initiator_session (io_session_key out) ika pqa bundle K = Ok a ∧
    responder_session K ikb spk pqspk m = Ok (payload, b) ∧
    ∀ gen, ∃ lab lba, net_inv lab lba true CLI_MAX_SKIPPED (net_start a b gen).
Proof.
  destruct (contact_with None K KL verify na nb payload ika ikb spk pqa pqspk bundle g g2 e)
    as (out & g' & wire & a & b & responder & Ha & He & Hd & Hna & Hnb & Hsu & Hsa & Hr & Hp & Hsb & Hinv); try done.
  exists out, g', wire, a, b. cbv zeta. split_and!; try done. unfold responder_session. by rewrite Hr, Hsb, Hp.
Qed.
End FirstContact.

(** First contact between two honest clients works end to end. If the
    recipient's published bundle is made from its keys and carries no one-time
    prekey, its signatures verify and the key encapsulation is correct, then
    the sender's initial message, after encoding and decoding, gives the
    recipient the sender's payload and a session; and from these two sessions
    on, after any run of up to 512 messages a side, delivered in any order and
    any number of times, the next delivery returns the message that was sent or
    an error, never another message, and never the same message twice. *)
Theorem first_contact (P : Primitives) (L : PrimitiveLaws P) (K : KemProvider) (KL : KemLaws K)
    (verify : Verifier) (na nb payload : bytes) (ika ikb : IdentityKeyPair) (spk : OneTimePreKey)
    (pqa pqspk : KEMPreKey) (bundle : PreKeyBundle) (g g2 : rng) (e : KemEncapsulation)
    (Hbundle : bundle_of ikb spk pqspk None bundle)
    (Hika : dh_keypair_wf (ik_pair ika)) (Hikb : dh_keypair_wf (ik_pair ikb))
    (Hspk : dh_keypair_wf (otpk_pair spk))
    (Hpair : kem_pair (kpk_public_key pqspk) (kpk_secret_key pqspk))
    (Hval : validate_prekey_bundle_signatures bundle verify = Ok tt)
    (Hkem : kem_encapsulate K (kpk_public_key pqspk) (generate_keypair g).2 = (Ok e, g2))
    (Hutf : utf8_valid na && utf8_valid nb && utf8_valid (pb_owner_id bundle) = true)
    (Hfits : fits na && fits nb && fits (kpk_public_key pqa) && fits (kem_ciphertext e) &&
             fits (pb_owner_id bundle) = true)
    (Hpay : len payload + 16 ≤ u16_max) :
  ∃ out g' wire m a b,
    alice_initiate verify K na nb ika (kpk_public_key pqa) bundle payload g = (Ok out, g') ∧
    InitialMessage_encode (io_initial_message out) = Ok wire ∧
    InitialMessage_decode wire = Ok m ∧
    initiator_session (io_session_key out) ika pqa bundle K = Ok a ∧
    responder_session K ikb spk pqspk m = Ok (payload, b) ∧
    ∀ gen es ev,
      N.of_nat (count_sends Alice (es ++ [ev])) ≤ 512 →
      N.of_nat (count_sends Bob (es ++ [ev])) ≤ 512 →
      let n := (run net_step (net_start a b gen) es).1 in
      outcome_ok true n ev (net_step n ev).2.
Proof.
  destruct (contact K KL verify na nb payload ika ikb spk pqa pqspk bundle g g2 e)
    as (out & g' & wire & a & b & Ha & He & Hd & _ & _ & _ & Hsa & Hsb & Hinv); try done.
  exists out, g', wire, (io_initial_message out), a, b. split_and!; [done..|].
  intros gen es ev Hwa Hwb. destruct (Hinv gen) as (lab & lba & Hnet).
  destruct (run_room_app CLI_MAX_SKIPPED es ev (net_start a b gen) (conj Hwa Hwb)) as [H1 H2].
  by apply (net_step_inv lab lba true CLI_MAX_SKIPPED); [apply run_inv|].
Qed.

Definition toy_bundle_plain : PreKeyBundle :=
  PreKeyBundle_new (lit "bob") (replicate 32 x02) (replicate 32 x03) [x04] [] [] [].

Lemma first_contact_witness :
  ∃ out g' m b,
    alice_initiate (P := Toy) toy_verify ToyKem (lit "alice") (lit "bob") (toy_ik x01) [x06]
      toy_bundle_plain (lit "hi") (0%N : @rng Toy) = (Ok out, g') ∧
    responder_session ToyKem (toy_ik x02) (toy_otpk x03) (toy_kpk x04) m = Ok (lit "hi", b).
Proof.
  edestruct (first_contact Toy ToyLaws ToyKem ToyKemLaws toy_verify (lit "alice") (lit "bob")
               (lit "hi") (toy_ik x01) (toy_ik x02) (toy_otpk x03) (toy_kpk x06) (toy_kpk x04)
               toy_bundle_plain (0%N : @rng Toy))
    as (out & g' & wire & m & a & b & Ha & _ & _ & _ & Hb & _).
  - split; reflexivity.
  - split; reflexivity.
  - split; reflexivity.
  - split; reflexivity.
  - reflexivity.
  - vm_compute. reflexivity.
  - reflexivity.
  - vm_compute. reflexivity.
  - vm_compute. reflexivity.
  - vm_compute. discriminate.
  - exists out, g', m, b. split; [exact Ha|exact Hb].
Defined.

(** With a one-time prekey in the bundle, as [bundle_to_core] puts it there when
    the server hands one out, the receiver of the client derives another key
    and refuses the message. *)
Lemma one_time_prekey_refused :
  match alice_initiate (P := Toy) toy_verify ToyKem (lit "alice") (lit "bob") (toy_ik x01) [x06]
          toy_bundle (lit "hi") (0%N : @rng Toy) with
  | (Ok out, _) =>
      match responder_session ToyKem (toy_ik x02) (toy_otpk x03) (toy_kpk x04)
              (io_initial_message out) with
      | Err err => err = AeadOperation
      | Ok _ => False
      end
  | (Err _, _) => False
  end.
Proof. vm_compute. reflexivity. Qed.
