(* ===== verification/Transparency.v ===== *)
(** * Key transparency ([pqmsg-core/src/key_transparency.rs])

    The log of identity keys is a Merkle tree over leaf hashes. The server
    builds roots, inclusion proofs and consistency proofs; clients check them
    against signed tree heads. [mth] is the recursive tree hash of RFC 6962,
    the reference the iterative builder is compared with. *)

From Stdlib Require Import Strings.Byte.
From S2P Require Import Prelude Bytes Errors Crypto Toy.
Local Open Scope nat_scope.

Definition LEAF_PREFIX : byte := x00.
Definition NODE_PREFIX : byte := x01.

Record TransparencyLeaf := mkLeaf {
  tl_user_id : bytes;
  tl_version : N;
  tl_identity_x25519_pub : bytes;
  tl_identity_sig_pub : bytes;
  tl_identity_pq_sig_pub : option bytes;
  tl_timestamp : N;
}.

Definition update_len_prefixed (b : bytes) : bytes := u32_be (len b) ++ b.

(** The octets [TransparencyLeaf::hash] feeds to the hasher, in order. *)
Definition leaf_preimage (l : TransparencyLeaf) : bytes :=
  [LEAF_PREFIX] ++ update_len_prefixed (tl_user_id l) ++ u64_be (tl_version l) ++
  tl_identity_x25519_pub l ++ update_len_prefixed (tl_identity_sig_pub l) ++
  match tl_identity_pq_sig_pub l with
  | Some value => [x01] ++ update_len_prefixed value
  | None => [x00]
  end ++ u64_be (tl_timestamp l).

Definition node_preimage (left right : bytes) : bytes := [NODE_PREFIX] ++ left ++ right.

Record SignedTreeHead := mkSth {
  sth_epoch : N;
  sth_tree_size : N;
  sth_root_hash : bytes;
  sth_signature : bytes;
}.

Definition signing_body (sth : SignedTreeHead) : bytes :=
  u64_be (sth_epoch sth) ++ u64_be (sth_tree_size sth) ++ sth_root_hash sth.

Record InclusionProof := mkInclusion {
  ip_leaf_index : N;
  ip_path : list (bytes * bool);
}.

Record ConsistencyProof := mkConsistency {
  cp_old_size : N;
  cp_new_size : N;
  cp_proof_hashes : list bytes;
}.

Section Log.
Context `{P : Primitives}.

Definition TransparencyLeaf_hash (l : TransparencyLeaf) : bytes := sha256 (leaf_preimage l).

Definition hash_node (left right : bytes) : bytes := sha256 (node_preimage left right).

Definition SignedTreeHead_verify `{V : Ed25519} (sth : SignedTreeHead) (server_pub_key : ed_key)
    : res unit :=
  let? sig := ok_or (ed_sig_from_slice (sth_signature sth)) SignatureVerificationFailed in
  if ed_verify server_pub_key (signing_body sth) sig then Ok tt
  else Err SignatureVerificationFailed.

Fixpoint walk_path (current : bytes) (path : list (bytes * bool)) : bytes :=
  match path with
  | [] => current
  | (sibling, is_left) :: path =>
      walk_path (if is_left : bool then hash_node sibling current else hash_node current sibling)
        path
  end.

Definition verify_inclusion_proof `{V : Ed25519} (leaf_hash : bytes)
    (proof : InclusionProof) (sth : SignedTreeHead) (server_pub_key : ed_key) : res unit :=
  let? _ := SignedTreeHead_verify sth server_pub_key in
  if negb (bool_decide (walk_path leaf_hash (ip_path proof) = sth_root_hash sth))
  then Err (PolicyViolation "key_transparency.inclusion_proof_invalid")
  else Ok tt.

(** ** Tree construction *)

(** One pass over [level.chunks(2)]: pairs are hashed, an odd node promoted. *)
Fixpoint parents (level : list bytes) : list bytes :=
  match level with
  | a :: b :: rest => hash_node a b :: parents rest
  | [a] => [a]
  | [] => []
  end.

(** [while level.len() > 1]; the number of leaves is fuel enough, since a pass
    shortens a level of two or more. *)
Fixpoint root_loop (fuel : nat) (level : list bytes) : list bytes :=
  match fuel with
  | O => level
  | S fuel => if 1 <? length level then root_loop fuel (parents level) else level
  end.

Definition build_tree_root (leaf_hashes : list bytes) : option bytes :=
  match leaf_hashes with
  | [] => None
  | _ => root_loop (length leaf_hashes) leaf_hashes !! 0
  end.

Fixpoint inclusion_loop (fuel : nat) (level : list bytes) (idx : nat)
    (path : list (bytes * bool)) : list (bytes * bool) :=
  match fuel with
  | O => path
  | S fuel =>
      if 1 <? length level then
        let sibling_idx := Nat.lxor idx 1 in
        let path :=
          match level !! sibling_idx with
          | Some sibling => path ++ [(sibling, sibling_idx <? idx)]
          | None => path
          end in
        inclusion_loop fuel (parents level) (idx / 2) path
      else path
  end.

Definition build_inclusion_proof (leaf_hashes : list bytes) (leaf_index : nat)
    : option InclusionProof :=
  if (length leaf_hashes <=? leaf_index) || bool_decide (leaf_hashes = []) then None
  else Some (mkInclusion (N.of_nat leaf_index)
         (inclusion_loop (length leaf_hashes) leaf_hashes leaf_index [])).

(** ** The reference tree hash (RFC 6962, section 2.1) *)

(** The largest power of two smaller than [n], for [n] at least two. *)
Definition rfc_split (n : nat) : nat := 2 ^ Nat.log2 (n - 1).

Fixpoint mth_fuel (fuel : nat) (l : list bytes) : bytes :=
  match fuel, l with
  | _, [] => []
  | _, [h] => h
  | O, _ => []
  | S fuel, _ =>
      let k := rfc_split (length l) in
      hash_node (mth_fuel fuel (take k l)) (mth_fuel fuel (drop k l))
  end.

Definition mth (l : list bytes) : bytes := mth_fuel (length l) l.
End Log.

(** ** The split point *)

Lemma rfc_split_bounds (n : nat) :
  2 ≤ n → 1 ≤ rfc_split n ∧ rfc_split n < n ∧ n ≤ 2 * rfc_split n.
Proof.
  intros Hn. unfold rfc_split. destruct (Nat.log2_spec (n - 1) ltac:(lia)) as [H1 H2].
  rewrite Nat.pow_succ_r' in H2. pose proof (Nat.pow_nonzero 2 (Nat.log2 (n - 1))). lia.
Qed.

Lemma rfc_split_unique (n j : nat) : 2 ^ j < n → n ≤ 2 * 2 ^ j → rfc_split n = 2 ^ j.
Proof.
  intros H1 H2. unfold rfc_split. f_equal. apply Nat.log2_unique; [lia|].
  rewrite Nat.pow_succ_r'. lia.
Qed.

Lemma halves_ne {A} (l : list A) :
  2 ≤ length l →
  take (rfc_split (length l)) l ≠ [] ∧ drop (rfc_split (length l)) l ≠ [].
Proof.
  intros H. pose proof (rfc_split_bounds (length l) H).
  split; intros E%(f_equal length); rewrite ?length_take, ?length_drop in E; simpl in E; lia.
Qed.

(** Induction along the splits of the tree. *)
Lemma split_ind {A} (Q : list A → Prop) :
  (∀ h, Q [h]) →
  (∀ l, 2 ≤ length l → Q (take (rfc_split (length l)) l) → Q (drop (rfc_split (length l)) l) → Q l) →
  ∀ l, l ≠ [] → Q l.
Proof.
  intros H1 H2 l. induction l as [l IH] using length_ind. intros Hl.
  destruct (decide (2 ≤ length l)) as [Hge|Hlt].
  - destruct (rfc_split_bounds (length l) Hge) as (? & ? & ?).
    apply H2; [done| |]; (apply IH; [rewrite ?length_take, ?length_drop; lia|by apply halves_ne]).
  - destruct l as [|a [|b l]]; [done|apply H1|simpl in *; lia].
Qed.

Section LogFacts.
Context `{P : Primitives}.

Lemma mth_fuel_enough (f : nat) (l : list bytes) : length l ≤ f → mth_fuel f l = mth l.
Proof.
  unfold mth. revert f. induction l as [l IH] using length_ind. intros f Hf.
  destruct l as [|a [|b l]]; [by destruct f|by destruct f|].
  destruct f as [|f]; [simpl in Hf; lia|].
  set (L := a :: b :: l) in *. assert (HL : 2 ≤ length L) by (simpl; lia).
  destruct (rfc_split_bounds (length L) HL) as (? & ? & ?).
  change (mth_fuel (S f) L) with (hash_node (mth_fuel f (take (rfc_split (length L)) L))
    (mth_fuel f (drop (rfc_split (length L)) L))).
  change (mth_fuel (length L) L) with (hash_node
    (mth_fuel (length (b :: l)) (take (rfc_split (length L)) L))
    (mth_fuel (length (b :: l)) (drop (rfc_split (length L)) L))).
  assert (Hbl : length (b :: l) = length L - 1) by (simpl; lia).
  pose proof (length_take_le L (rfc_split (length L)) ltac:(lia)) as Ht.
  pose proof (length_drop L (rfc_split (length L))) as Hd.
  f_equal; (etransitivity; [apply IH|symmetry; apply IH]); lia.
Qed.

Lemma mth_split (l : list bytes) :
  2 ≤ length l →
  mth l = hash_node (mth (take (rfc_split (length l)) l)) (mth (drop (rfc_split (length l)) l)).
Proof.
  intros H. pose proof (rfc_split_bounds (length l) H).
  rewrite <- (mth_fuel_enough (length l) (take _ _)) by (rewrite length_take; lia).
  rewrite <- (mth_fuel_enough (length l) (drop _ _)) by (rewrite length_drop; lia).
  rewrite <- (mth_fuel_enough (S (length l)) l) by lia.
  destruct l as [|a [|b l]]; simpl in H; [lia..|done].
Qed.

Lemma mth_singleton (h : bytes) : mth [h] = h.
Proof. done. Qed.

(** ** The iterative builder computes the reference hash *)

Lemma length_parents (l : list bytes) : length (parents l) = (length l + 1) / 2.
Proof.
  induction l as [l IH] using length_ind. destruct l as [|a [|b l]]; [done..|].
  cbn [parents length]. rewrite (IH l) by (simpl; lia).
  replace (S (S (length l)) + 1) with (length l + 1 + 1 * 2) by lia.
  rewrite Nat.div_add by lia. lia.
Qed.

Lemma parents_shorter (l : list bytes) : 2 ≤ length l → 1 ≤ length (parents l) < length l.
Proof.
  intros H. rewrite length_parents.
  pose proof (Nat.div_mod_eq (length l + 1) 2). pose proof (Nat.mod_upper_bound (length l + 1) 2). lia.
Qed.

Lemma parents_app (a b : list bytes) (j : nat) :
  length a = 2 * j → parents (a ++ b) = parents a ++ parents b.
Proof.
  revert a. induction j as [|j IH]; intros a Ha.
  - by destruct a.
  - destruct a as [|x [|y a]]; simpl in Ha; [lia..|]. simpl. f_equal. apply IH. lia.
Qed.

Lemma mth_parents (l : list bytes) : l ≠ [] → mth (parents l) = mth l.
Proof.
  revert l. apply split_ind; [done|]. intros l Hge IHt IHd.
  set (k := rfc_split (length l)) in *.
  destruct (rfc_split_bounds (length l) Hge) as (Hk1 & Hk2 & Hk3). fold k in Hk1, Hk2, Hk3.
  destruct (decide (length l = 2)) as [H2|H2].
  { destruct l as [|a [|b [|c l]]]; done. }
  assert (∃ j, k = 2 * 2 ^ j) as [j Hj].
  { unfold k, rfc_split in *. destruct (Nat.log2 (length l - 1)) as [|j] eqn:E.
    - simpl in Hk3. lia.
    - exists j. apply Nat.pow_succ_r'. }
  assert (Ht : length (take k l) = k) by (rewrite length_take; lia).
  assert (Hd : length (drop k l) = length l - k) by apply length_drop.
  assert (Hp : parents l = parents (take k l) ++ parents (drop k l)).
  { rewrite <- (take_drop k l) at 1. apply (parents_app _ _ (2 ^ j)). lia. }
  assert (Hpt : length (parents (take k l)) = 2 ^ j).
  { rewrite length_parents, Ht, Hj. rewrite Nat.add_comm, Nat.mul_comm, Nat.div_add by lia. done. }
  assert (Hs : rfc_split (length (parents l)) = 2 ^ j).
  { apply rfc_split_unique; rewrite length_parents.
    - apply (Nat.div_le_lower_bound _ _ (S (2 ^ j))); lia.
    - apply Nat.lt_succ_r, Nat.Div0.div_lt_upper_bound. lia. }
  rewrite (mth_split (parents l)).
  - rewrite Hs, Hp, take_app_len, drop_app_len by done.
    rewrite IHt, IHd by (by apply halves_ne).
    symmetry. by apply mth_split.
  - rewrite length_parents. apply Nat.div_le_lower_bound; lia.
Qed.

Lemma root_loop_mth (fuel : nat) (l : list bytes) :
  l ≠ [] → length l ≤ S fuel → root_loop fuel l = [mth l].
Proof.
  revert l. induction fuel as [|fuel IH]; intros l Hl Hf.
  - destruct l as [|a [|b l]]; simpl in Hf; done || lia.
  - cbn [root_loop]. destruct (1 <? length l) eqn:E; bool_to_prop.
    + pose proof (parents_shorter l ltac:(lia)). rewrite IH.
      * by rewrite mth_parents.
      * intros E'. rewrite E' in *. simpl in *. lia.
      * lia.
    + destruct l as [|a [|b l]]; simpl in E; done || lia.
Qed.

Lemma build_tree_root_mth (l : list bytes) : l ≠ [] → build_tree_root l = Some (mth l).
Proof.
  intros Hl. unfold build_tree_root. destruct l as [|a l]; [done|].
  by rewrite root_loop_mth by (done || simpl; lia).
Qed.

(** ** Inclusion proofs *)

Lemma lxor_1_even (q : nat) : Nat.lxor (2 * q) 1 = 2 * q + 1.
Proof.
  apply Nat.bits_inj. intros [|n]; rewrite Nat.lxor_spec.
  - by rewrite Nat.testbit_even_0, Nat.testbit_odd_0.
  - rewrite Nat.testbit_even_succ', Nat.testbit_odd_succ'.
    change 1 with (2 * 0 + 1). rewrite Nat.testbit_odd_succ', Nat.bits_0.
    by destruct (Nat.testbit q n).
Qed.

Lemma lxor_1_odd (q : nat) : Nat.lxor (2 * q + 1) 1 = 2 * q.
Proof. by rewrite <- lxor_1_even, Nat.lxor_assoc, Nat.lxor_nilpotent, Nat.lxor_0_r. Qed.

Lemma parents_lookup (level : list bytes) (q : nat) :
  parents level !! q =
    match level !! (2 * q), level !! (2 * q + 1) with
    | Some a, Some b => Some (hash_node a b)
    | r, _ => r
    end.
Proof.
  revert level. induction q as [|q IH]; intros [|a [|b level]]; try done.
  cbn [parents lookup list_lookup]. 
  replace (2 * S q) with (S (S (2 * q))) by lia. simpl plus. cbn [lookup list_lookup]. apply IH.
Qed.

(** The node above position [idx] is the one step of the proof's walk. *)
Lemma parents_step (level : list bytes) (idx : nat) (h : bytes) :
  level !! idx = Some h →
  parents level !! (idx / 2) =
    Some (match level !! Nat.lxor idx 1 with
          | Some s => if Nat.lxor idx 1 <? idx then hash_node s h else hash_node h s
          | None => h
          end).
Proof.
  intros Hh. rewrite parents_lookup. destruct (Nat.Even_or_Odd idx) as [[q ->]|[q ->]].
  - rewrite (Nat.mul_comm 2 q), Nat.div_mul, (Nat.mul_comm q 2) by lia.
    rewrite Hh, lxor_1_even. destruct (level !! (2 * q + 1)) as [s|]; [|done].
    by rewrite (proj2 (Nat.ltb_ge (2 * q + 1) (2 * q))) by lia.
  - replace ((2 * q + 1) / 2) with q by (apply (Nat.div_unique _ _ _ 1); lia).
    rewrite Hh, lxor_1_odd. destruct (lookup_lt_is_Some_2 level (2 * q)) as [s Hs].
    { apply lookup_lt_Some in Hh. lia. }
    rewrite Hs. by rewrite (proj2 (Nat.ltb_lt (2 * q) (2 * q + 1))) by lia.
Qed.

Lemma inclusion_loop_acc (fuel : nat) (level : list bytes) (idx : nat) (path : list (bytes * bool)) :
  inclusion_loop fuel level idx path = path ++ inclusion_loop fuel level idx [].
Proof.
  revert level idx path. induction fuel as [|fuel IH]; intros level idx path; simpl.
  - by rewrite app_nil_r.
  - destruct (1 <? length level); [|by rewrite app_nil_r].
    rewrite IH. rewrite (IH _ _ (match _ with Some _ => _ | None => [] end)).
    destruct (level !! Nat.lxor idx 1); [by rewrite app_assoc|done].
Qed.

Lemma inclusion_loop_walk (fuel : nat) (level : list bytes) (idx : nat) (h : bytes) :
  length level ≤ S fuel → level !! idx = Some h →
  walk_path h (inclusion_loop fuel level idx []) = mth level.
Proof.
  revert level idx h. induction fuel as [|fuel IH]; intros level idx h Hf Hh;
    pose proof (lookup_lt_Some _ _ _ Hh) as Hlt.
  - destruct level as [|a [|b level]]; simpl in Hf, Hlt; [lia| |lia].
    destruct idx; [|lia]. by injection Hh as ->.
  - cbn [inclusion_loop]. destruct (1 <? length level) eqn:E; bool_to_prop.
    + pose proof (parents_shorter level ltac:(lia)). apply parents_step in Hh.
      assert (Hne : level ≠ []) by (intros ->; simpl in *; lia).
      rewrite <- (mth_parents level Hne). rewrite inclusion_loop_acc.
      destruct (level !! Nat.lxor idx 1) as [s|]; simpl app; cbn [walk_path];
        (apply IH; [lia|exact Hh]).
    + destruct level as [|a [|b level]]; simpl in E, Hlt; [lia| |lia].
      destruct idx; [|lia]. by injection Hh as ->.
Qed.
End LogFacts.

(** ** What is hashed

    The octet strings the tree and a proof's walk feed to the hash; soundness
    assumes only that no two of these finitely many strings collide. *)

Section Inputs.
Context `{P : Primitives}.

Definition collision_free (Q : list bytes) : Prop :=
  ∀ a b, a ∈ Q → b ∈ Q → sha256 a = sha256 b → a = b.

Fixpoint mth_inputs_fuel (fuel : nat) (l : list bytes) : list bytes :=
  match fuel with
  | O => []
  | S fuel =>
      if 1 <? length l then
        let k := rfc_split (length l) in
        node_preimage (mth (take k l)) (mth (drop k l)) ::
          mth_inputs_fuel fuel (take k l) ++ mth_inputs_fuel fuel (drop k l)
      else []
  end.

Definition mth_inputs (l : list bytes) : list bytes := mth_inputs_fuel (length l) l.

Fixpoint path_inputs (current : bytes) (path : list (bytes * bool)) : list bytes :=
  match path with
  | [] => []
  | (sibling, is_left) :: path =>
      let pre := if is_left : bool then node_preimage sibling current
                 else node_preimage current sibling in
      pre :: path_inputs (sha256 pre) path
  end.

Lemma collision_free_incl (Q Q' : list bytes) :
  collision_free Q → Q' ⊆ Q → collision_free Q'.
Proof. intros H HQ a b Ha Hb. apply H; by apply HQ. Qed.

Lemma mth_inputs_fuel_enough (f : nat) (l : list bytes) :
  length l ≤ f → mth_inputs_fuel f l = mth_inputs l.
Proof.
  unfold mth_inputs. revert f. induction l as [l IH] using length_ind. intros f Hf.
  destruct (decide (2 ≤ length l)) as [Hge|Hlt].
  - destruct (rfc_split_bounds (length l) Hge) as (? & ? & ?).
    pose proof (length_take_le l (rfc_split (length l)) ltac:(lia)) as Ht.
    pose proof (length_drop l (rfc_split (length l))) as Hd.
    destruct f as [|f]; [lia|]. destruct (length l) as [|n] eqn:En; [lia|].
    cbn [mth_inputs_fuel]. rewrite En. destruct (1 <? S n); [|done].
    f_equal. f_equal; (etransitivity; [apply IH|symmetry; apply IH]); lia.
  - assert (E : (1 <? length l) = false) by (apply Nat.ltb_ge; lia).
    destruct f as [|f], (length l) as [|n] eqn:En; cbn [mth_inputs_fuel]; rewrite ?En, ?E; done.
Qed.

Lemma mth_inputs_split (l : list bytes) :
  2 ≤ length l →
  mth_inputs l =
    let k := rfc_split (length l) in
    node_preimage (mth (take k l)) (mth (drop k l)) ::
      mth_inputs (take k l) ++ mth_inputs (drop k l).
Proof.
  intros H. pose proof (rfc_split_bounds (length l) H). cbv zeta.
  rewrite <- (mth_inputs_fuel_enough (length l) (take _ _)) by (rewrite length_take; lia).
  rewrite <- (mth_inputs_fuel_enough (length l) (drop _ _)) by (rewrite length_drop; lia).
  rewrite <- (mth_inputs_fuel_enough (S (length l)) l) by lia.
  cbn [mth_inputs_fuel]. by rewrite (proj2 (Nat.ltb_lt 1 (length l))) by lia.
Qed.

Lemma walk_path_snoc (h : bytes) (path : list (bytes * bool)) (s : bytes) (b : bool) :
  walk_path h (path ++ [(s, b)]) =
    (if b then hash_node s (walk_path h path) else hash_node (walk_path h path) s).
Proof. revert h. induction path as [|[s' b'] path IH]; intros h; simpl; [done|apply IH]. Qed.

Lemma path_inputs_snoc (h : bytes) (path : list (bytes * bool)) (s : bytes) (b : bool) :
  path_inputs h (path ++ [(s, b)]) =
    path_inputs h path ++
      [if b then node_preimage s (walk_path h path) else node_preimage (walk_path h path) s].
Proof.
  revert h. induction path as [|[s' b'] path IH]; intros h; [done|].
  cbn [app path_inputs walk_path]. rewrite IH. destruct b'; done.
Qed.

Lemma node_preimage_inj (a b c d : bytes) :
  length a = length c → node_preimage a b = node_preimage c d → a = c ∧ b = d.
Proof. unfold node_preimage. simpl. intros Hl [= H]. by apply app_inj_len. Qed.

Context `{!PrimitiveLaws P}.

Lemma length_mth (l : list bytes) :
  l ≠ [] → Forall (λ h, length h = 32) l → length (mth l) = 32.
Proof.
  intros Hl HF. destruct (decide (2 ≤ length l)) as [Hge|Hlt].
  - rewrite mth_split by done. apply sha256_length.
  - destruct l as [|a [|b l]]; [done| |simpl in Hlt; lia]. by apply Forall_cons_1 in HF as [? _].
Qed.

Lemma length_walk_path (h : bytes) (path : list (bytes * bool)) :
  length h = 32 → length (walk_path h path) = 32.
Proof.
  destruct path as [|[s b] path _] using rev_ind; [done|]. intros _.
  rewrite walk_path_snoc. destruct b; apply sha256_length.
Qed.

(** A node hash that equals a tree hash is the tree's own top node. *)
Lemma mth_node_inv (Q l : list bytes) (a b : bytes) :
  let k := rfc_split (length l) in
  collision_free Q → node_preimage a b ∈ Q → mth_inputs l ⊆ Q → 2 ≤ length l →
  Forall (λ h, length h = 32) l → length a = 32 → hash_node a b = mth l →
  a = mth (take k l) ∧ b = mth (drop k l) ∧
  mth_inputs (take k l) ⊆ Q ∧ mth_inputs (drop k l) ⊆ Q.
Proof.
  intros k HQ Hab Ql Hge Fl Ha E. rewrite mth_split in E by done.
  rewrite mth_inputs_split in Ql by done. cbv zeta in Ql. fold k in E, Ql.
  apply list_subseteq_cons_iff in Ql as [Rl [Ql1 Ql2]%list_subseteq_app_iff_l].
  apply HQ in E; [|done..]. apply node_preimage_inj in E as [-> ->]; [done|].
  rewrite Ha, length_mth; [done|by apply halves_ne|by apply Forall_take].
Qed.
End Inputs.

(** ** Soundness of inclusion *)

Definition is_leaf_preimage (p : bytes) : Prop := head p = Some LEAF_PREFIX.

(** The fields have the widths of the source's types, and the variable ones a
    length that the prefix can hold. *)
Definition leaf_wf (l : TransparencyLeaf) : Prop :=
  (len (tl_user_id l) ≤ u32_max)%N ∧ (tl_version l ≤ u64_max)%N ∧
  length (tl_identity_x25519_pub l) = 32 ∧ (len (tl_identity_sig_pub l) ≤ u32_max)%N ∧
  (∀ k, tl_identity_pq_sig_pub l = Some k → (len k ≤ u32_max)%N) ∧ (tl_timestamp l ≤ u64_max)%N.

Lemma u64_inj (m n : N) : (m ≤ u64_max)%N → (n ≤ u64_max)%N → u64_be m = u64_be n → m = n.
Proof. intros Hm Hn H. by rewrite <- (from_u64_be m), H, from_u64_be. Qed.

Lemma update_len_prefixed_inj (a b x y : bytes) :
  (len a ≤ u32_max)%N → (len b ≤ u32_max)%N →
  update_len_prefixed a ++ x = update_len_prefixed b ++ y → a = b ∧ x = y.
Proof.
  unfold update_len_prefixed. intros Ha Hb H. rewrite <- !app_assoc in H.
  apply app_inj_len in H as [Hl H]; [|by autorewrite with pqmsg].
  apply app_inj_len; [|done]. apply (f_equal Some), u32_be_inj in Hl; [|done..].
  unfold len in Hl. lia.
Qed.

Lemma leaf_preimage_inj (l l' : TransparencyLeaf) :
  leaf_wf l → leaf_wf l' → leaf_preimage l = leaf_preimage l' → l = l'.
Proof.
  destruct l as [u v x s pq t], l' as [u' v' x' s' pq' t'].
  intros (Hu & Hv & Hx & Hs & Hpq & Ht) (Hu' & Hv' & Hx' & Hs' & Hpq' & Ht').
  unfold leaf_preimage. cbn [tl_user_id tl_version tl_identity_x25519_pub tl_identity_sig_pub
    tl_identity_pq_sig_pub tl_timestamp] in *. intros [_ H]%app_inj_len; [|done].
  apply update_len_prefixed_inj in H as [-> H]; [|done..].
  apply app_inj_len in H as [E H]; [|by autorewrite with pqmsg]. apply u64_inj in E as ->; [|done..].
  apply app_inj_len in H as [-> H]; [|by rewrite Hx].
  apply update_len_prefixed_inj in H as [-> H]; [|done..].
  destruct pq as [k|], pq' as [k'|]; rewrite <- ?app_assoc in H; try discriminate H;
    apply app_inj_len in H as [_ H]; try done.
  - apply update_len_prefixed_inj in H as [-> H]; [|by apply Hpq|by apply Hpq'].
    by apply u64_inj in H as ->.
  - by apply u64_inj in H as ->.
Qed.

Section Sound.
Context `{P : Primitives} `{!PrimitiveLaws P}.

Lemma leaf_node_distinct (Q : list bytes) (p a b : bytes) :
  collision_free Q → p ∈ Q → node_preimage a b ∈ Q → is_leaf_preimage p →
  sha256 p ≠ sha256 (node_preimage a b).
Proof. intros HQ Hp Hn Hl E%HQ; [|done..]. subst. done. Qed.

Lemma length_hashes (lp : list bytes) : Forall (λ h, length h = 32) (sha256 <$> lp).
Proof. apply list.Forall_fmap, Forall_true. intros x. apply sha256_length. Qed.

(** Whoever walks from the hash of a leaf preimage to the root started at one
    of the tree's own preimages. *)
Lemma walk_sound (Q : list bytes) (hp : bytes) (path : list (bytes * bool)) (lp : list bytes) :
  collision_free Q → hp ∈ Q → is_leaf_preimage hp → lp ≠ [] →
  lp ⊆ Q → Forall is_leaf_preimage lp → mth_inputs (sha256 <$> lp) ⊆ Q →
  path_inputs (sha256 hp) path ⊆ Q → Forall (λ s, length s.1 = 32) path →
  walk_path (sha256 hp) path = mth (sha256 <$> lp) → hp ∈ lp.
Proof.
  intros HQ Hhp Hhl. revert lp. induction path as [|[s b] path IH] using rev_ind;
    intros lp Hne Hlp Hll Hmi Hpi Hs E.
  - destruct (decide (2 ≤ length lp)) as [Hge|Hlt].
    + rewrite mth_split in E by (by rewrite length_fmap). exfalso. revert E.
      apply (leaf_node_distinct Q); try done. apply Hmi.
      rewrite mth_inputs_split by (by rewrite length_fmap). by left.
    + destruct lp as [|p [|p' lp]]; [done| |simpl in Hlt; lia].
      apply list_elem_of_singleton. apply HQ; [done| |done]. apply Hlp. by left.
  - rewrite walk_path_snoc in E. rewrite path_inputs_snoc in Hpi.
    apply list_subseteq_app_iff_l in Hpi as [Hpi Hlast].
    apply Forall_app in Hs as [Hs Hs1]. apply Forall_cons_1 in Hs1 as [Hs1 _]. simpl in Hs1.
    assert (Hlast' : (if b then node_preimage s (walk_path (sha256 hp) path)
                      else node_preimage (walk_path (sha256 hp) path) s) ∈ Q)
      by (apply Hlast; by left).
    destruct (decide (2 ≤ length lp)) as [Hge|Hlt].
    + assert (Hge' : 2 ≤ length (sha256 <$> lp)) by (by rewrite length_fmap).
      set (k := rfc_split (length lp)) in *.
      destruct b; apply (mth_node_inv Q) in E; try done; try apply length_hashes;
        try (apply length_walk_path, sha256_length); rewrite length_fmap in E; fold k in E;
        rewrite <- fmap_take, <- fmap_drop in E; destruct E as (E1 & E2 & HmiL & HmiR).
      * apply (subseteq_drop k), IH; try done;
          [by apply halves_ne|by etrans; [apply subseteq_drop|]|by apply Forall_drop].
      * apply (subseteq_take k), IH; try done;
          [by apply halves_ne|by etrans; [apply subseteq_take|]|by apply Forall_take].
    + destruct lp as [|p [|p' lp]]; [done| |simpl in Hlt; lia]. exfalso.
      assert (Hp : p ∈ Q) by (apply Hlp; by left). apply Forall_cons_1 in Hll as [Hpl _].
      symmetry in E. revert E. destruct b; by apply (leaf_node_distinct Q).
Qed.
End Sound.

(** ** Properties of the log *)

(** The root the server computes level by level, promoting an odd last
    node, is the tree hash of RFC 6962 over the same leaves; an empty log has
    no root. *)
Theorem tree_root_rfc6962 (P : Primitives) (leaf_hashes : list bytes) :
  build_tree_root leaf_hashes =
    match leaf_hashes with [] => None | _ => Some (mth leaf_hashes) end.
Proof. destruct leaf_hashes; [done|]. by apply build_tree_root_mth. Qed.

(** Inclusion proofs are complete, for every tree size: the proof the
    server builds for any leaf of the log is accepted against a signed head
    that carries the root of the log. *)
Theorem inclusion_complete (P : Primitives) (V : Ed25519) (pk : ed_key) (leaves : list bytes) (i : nat)
    (h : bytes) (sth : SignedTreeHead) :
  leaves !! i = Some h → build_tree_root leaves = Some (sth_root_hash sth) →
  SignedTreeHead_verify sth pk = Ok tt →
  ∃ proof, build_inclusion_proof leaves i = Some proof ∧ verify_inclusion_proof h proof sth pk = Ok tt.
Proof.
  intros Hi Hr Hv. pose proof (lookup_lt_Some _ _ _ Hi) as Hlt.
  assert (Hne : leaves ≠ []) by (intros ->; simpl in Hlt; lia).
  unfold build_inclusion_proof. rewrite (proj2 (Nat.leb_gt _ _) Hlt), (bool_decide_eq_false_2 _ Hne).
  eexists. split; [done|]. unfold verify_inclusion_proof. rewrite Hv. cbn [ip_path].
  rewrite inclusion_loop_walk by (done || lia). rewrite build_tree_root_mth in Hr by done.
  injection Hr as ->. by rewrite bool_decide_eq_true_2.
Qed.

(** C6: inclusion proofs are sound: whatever index and path a server sends, if
    the client accepts it for a leaf against a head whose root is that of the
    log, then the leaf is an entry of the log, field for field. The only
    assumption on the hash is that the strings hashed in the tree and along
    the path do not collide; leaves and inner nodes are told apart by their
    prefix. *)
Theorem inclusion_sound (P : Primitives) (L : PrimitiveLaws P) (V : Ed25519) (pk : ed_key)
    (leaves : list TransparencyLeaf) (leaf : TransparencyLeaf) (proof : InclusionProof)
    (sth : SignedTreeHead) :
  build_tree_root (TransparencyLeaf_hash <$> leaves) = Some (sth_root_hash sth) →
  Forall leaf_wf (leaf :: leaves) →
  Forall (λ s, length s.1 = 32) (ip_path proof) →
  collision_free ((leaf_preimage <$> leaf :: leaves) ++
    mth_inputs (TransparencyLeaf_hash <$> leaves) ++
    path_inputs (TransparencyLeaf_hash leaf) (ip_path proof)) →
  verify_inclusion_proof (TransparencyLeaf_hash leaf) proof sth pk = Ok tt →
  leaf ∈ leaves.
Proof.
  intros Hr Hwf Hp HQ Hv. unfold verify_inclusion_proof in Hv. inv_ok Hv. bool_to_prop.
  assert (Hne : leaves ≠ []) by (by intros ->).
  rewrite build_tree_root_mth in Hr by (by intros ?%fmap_nil_inv). injection Hr as Hr.
  assert (Hh : TransparencyLeaf_hash <$> leaves = sha256 <$> (leaf_preimage <$> leaves))
    by (by rewrite <- list_fmap_compose).
  rewrite Hh in HQ, Hr. apply Forall_cons_1 in Hwf as [Hl Hls].
  assert (Hin : leaf_preimage leaf ∈ leaf_preimage <$> leaves).
  { eapply (walk_sound _ _ (ip_path proof)); [exact HQ|..]; try done.
    - by left.
    - by intros ?%fmap_nil_inv.
    - intros x Hx. apply elem_of_app. left. by right.
    - apply list.Forall_fmap, Forall_true. done.
    - intros x Hx. apply elem_of_app. right. apply elem_of_app. by left.
    - intros x Hx. apply elem_of_app. right. apply elem_of_app. by right.
    - by etrans. }
  apply list_elem_of_fmap in Hin as (l' & Epre & Hl').
  apply leaf_preimage_inj in Epre as ->; [done..|].
  by eapply list.Forall_forall in Hls.
Qed.

(** ** A log of three entries *)

Definition sample_leaf (user : string) (v : N) : TransparencyLeaf :=
  mkLeaf (lit user) v (replicate 32 (byte_of_N v)) (lit "sig") (Some (lit "pq")) (1700000000 + v).

Definition sample_log : list TransparencyLeaf :=
  [sample_leaf "alice" 1; sample_leaf "bob" 1; sample_leaf "alice" 2].

Definition sample_sth (leaves : list bytes) (epoch : N) : SignedTreeHead :=
  let unsigned := mkSth epoch (N.of_nat (length leaves)) (default [] (build_tree_root leaves)) [] in
  mkSth epoch (N.of_nat (length leaves)) (default [] (build_tree_root leaves))
    (toy_sign toy_server (signing_body unsigned)).

Lemma collision_free_check `{P : Primitives} (Q : list bytes) :
  Forall (λ a, Forall (λ b, sha256 a = sha256 b → a = b) Q) Q → collision_free Q.
Proof.
  intros H a b Ha Hb. eapply list.Forall_forall in H; [|exact Ha]. simpl in H.
  by eapply list.Forall_forall in H.
Qed.

Lemma inclusion_complete_witness :
  let leaves := TransparencyLeaf_hash <$> sample_log in
  ∃ proof, build_inclusion_proof leaves 1 = Some proof ∧
    verify_inclusion_proof (TransparencyLeaf_hash (sample_leaf "bob" 1)) proof
      (sample_sth leaves 3) toy_server = Ok tt.
Proof.
  apply (inclusion_complete Toy ToyEd toy_server (TransparencyLeaf_hash <$> sample_log) 1
    (TransparencyLeaf_hash (sample_leaf "bob" 1)) (sample_sth (TransparencyLeaf_hash <$> sample_log) 3));
    vm_compute; reflexivity.
Defined.

Lemma inclusion_sound_witness :
  let leaves := TransparencyLeaf_hash <$> sample_log in
  ∃ proof, verify_inclusion_proof (TransparencyLeaf_hash (sample_leaf "alice" 2)) proof
    (sample_sth leaves 3) toy_server = Ok tt ∧ sample_leaf "alice" 2 ∈ sample_log.
Proof.
  set (leaves := TransparencyLeaf_hash <$> sample_log).
  set (proof := mkInclusion 2 [(hash_node (TransparencyLeaf_hash (sample_leaf "alice" 1))
    (TransparencyLeaf_hash (sample_leaf "bob" 1)), true)]).
  exists proof.
  assert (Hv : verify_inclusion_proof (TransparencyLeaf_hash (sample_leaf "alice" 2)) proof
    (sample_sth leaves 3) toy_server = Ok tt) by (vm_compute; reflexivity).
  split; [exact Hv|].
  apply (inclusion_sound Toy ToyLaws ToyEd toy_server sample_log (sample_leaf "alice" 2) proof
    (sample_sth leaves 3)).
  - vm_compute. reflexivity.
  - repeat constructor; try (intros k [= <-]); vm_compute; discriminate.
  - repeat constructor; reflexivity.
  - apply collision_free_check. apply (bool_decide_unpack _). vm_compute. exact I.
  - exact Hv.
Defined.
