(* ===== verification/Consistency.v ===== *)
(** * Consistency proofs of the transparency log ([key_transparency.rs])

    The client's check that the log only grew: the iterative evaluation of a
    consistency proof, compared with the recursive reading of RFC 6962
    (section 2.1.2), and the server's proof builder. *)

From S2P Require Import Prelude Bytes Errors Crypto Toy Transparency.
Local Open Scope N_scope.

Definition invalid_params {A} : res A :=
  Err (PolicyViolation "key_transparency.invalid_consistency_params").

Definition is_power_of_two (n : N) : bool := (0 <? n) && (n =? 2 ^ N.log2 n).

Definition is_odd (n : N) : bool := N.land n 1 =? 1.

(** [while (fn_idx & 1) == 1]: one turn per bit of [fn_idx] at most. *)
Fixpoint strip_ones (fuel : nat) (fn_idx sn_idx : N) : N * N :=
  match fuel with
  | O => (fn_idx, sn_idx)
  | S fuel =>
      if is_odd fn_idx then strip_ones fuel (N.shiftr fn_idx 1) (N.shiftr sn_idx 1)
      else (fn_idx, sn_idx)
  end.

(** [while fn_idx != 0 && (fn_idx & 1) == 0]. *)
Fixpoint strip_zeros (fuel : nat) (fn_idx sn_idx : N) : N * N :=
  match fuel with
  | O => (fn_idx, sn_idx)
  | S fuel =>
      if negb (fn_idx =? 0) && negb (is_odd fn_idx)
      then strip_zeros fuel (N.shiftr fn_idx 1) (N.shiftr sn_idx 1)
      else (fn_idx, sn_idx)
  end.

(** Turns enough for either loop: the number of bits of the index. *)
Definition bits (n : N) : nat := N.to_nat (N.size n).

Section Consistency.
Context `{P : Primitives}.

Definition eval_step (fn_idx sn_idx : N) (old_node new_node hash : bytes)
    : res (N * N * bytes * bytes) :=
  if sn_idx =? 0 then invalid_params
  else
    if is_odd fn_idx || (fn_idx =? sn_idx) then
      let '(fn_idx, sn_idx) := strip_zeros (bits fn_idx) fn_idx sn_idx in
      Ok (N.shiftr fn_idx 1, N.shiftr sn_idx 1, hash_node hash old_node, hash_node hash new_node)
    else
      Ok (N.shiftr fn_idx 1, N.shiftr sn_idx 1, old_node, hash_node new_node hash).

Fixpoint eval_loop (fn_idx sn_idx : N) (old_node new_node : bytes) (hashes : list bytes)
    : res (N * N * bytes * bytes) :=
  match hashes with
  | [] => Ok (fn_idx, sn_idx, old_node, new_node)
  | hash :: hashes =>
      match eval_step fn_idx sn_idx old_node new_node hash with
      | Ok (fn_idx, sn_idx, old_node, new_node) =>
          eval_loop fn_idx sn_idx old_node new_node hashes
      | Err e => Err e
      end
  end.

Definition evaluate_consistency_proof (old_size new_size : N) (old_root_hash : bytes)
    (proof_hashes : list bytes) : res (bytes * bytes) :=
  if (old_size =? 0) || (new_size <? old_size) then invalid_params
  else if old_size =? new_size then invalid_params
  else match proof_hashes with
  | [] => invalid_params
  | first :: rest =>
      let '(fn_idx, sn_idx) :=
        strip_ones (bits (old_size - 1)) (old_size - 1) (new_size - 1) in
      let '(node, hashes) :=
        if is_power_of_two old_size then (old_root_hash, proof_hashes) else (first, rest) in
      let? (fn_idx, sn_idx, old_node, new_node) := eval_loop fn_idx sn_idx node node hashes in
      if negb (sn_idx =? 0) then invalid_params else Ok (old_node, new_node)
  end.

Definition verify_consistency_proof `{V : Ed25519} (old_sth new_sth : SignedTreeHead)
    (proof : ConsistencyProof) (server_pub_key : ed_key) : res unit :=
  let? _ := SignedTreeHead_verify old_sth server_pub_key in
  let? _ := SignedTreeHead_verify new_sth server_pub_key in
  if sth_epoch new_sth <? sth_epoch old_sth
  then Err (PolicyViolation "key_transparency.epoch_regression")
  else if sth_tree_size new_sth <? sth_tree_size old_sth
  then Err (PolicyViolation "key_transparency.tree_shrunk")
  else if negb (cp_old_size proof =? sth_tree_size old_sth) ||
          negb (cp_new_size proof =? sth_tree_size new_sth)
  then Err (PolicyViolation "key_transparency.proof_size_mismatch")
  else if sth_tree_size old_sth =? sth_tree_size new_sth then
    if negb (bool_decide (sth_root_hash old_sth = sth_root_hash new_sth))
    then Err (PolicyViolation "key_transparency.root_hash_mismatch")
    else Ok tt
  else
    let? (old_root, new_root) :=
      evaluate_consistency_proof (sth_tree_size old_sth) (sth_tree_size new_sth)
        (sth_root_hash old_sth) (cp_proof_hashes proof) in
    if negb (bool_decide (old_root = sth_root_hash old_sth))
    then Err (PolicyViolation "key_transparency.old_root_mismatch")
    else if negb (bool_decide (new_root = sth_root_hash new_sth))
    then Err (PolicyViolation "key_transparency.new_root_mismatch")
    else Ok tt.

(** ** The server's builder *)

(** [usize::leading_zeros] on 64 bits. *)
Definition leading_zeros (n : N) : N := 64 - N.size n.

Definition largest_power_of_two_less_than (n : nat) : nat :=
  N.to_nat (N.shiftl 1 (64 - leading_zeros (N.of_nat n) - 2)).

(** The recursion is on slices that get shorter; the number of leaves is fuel
    enough. *)
Fixpoint build_consistency_proof_inner (fuel : nat) (leaf_hashes : list bytes) (old_size : nat)
    (is_known_subtree : bool) (proof_hashes : list bytes) : option (list bytes) :=
  let new_size := length leaf_hashes in
  if ((old_size =? 0) || (new_size <? old_size) || (new_size =? 0))%nat then None
  else if (old_size =? new_size)%nat then
    if negb is_known_subtree
    then root ← build_tree_root leaf_hashes; Some (proof_hashes ++ [root])
    else Some proof_hashes
  else match fuel with
  | O => None
  | S fuel =>
      let split := largest_power_of_two_less_than new_size in
      if (old_size <=? split)%nat then
        proof_hashes ← build_consistency_proof_inner fuel (take split leaf_hashes) old_size
          is_known_subtree proof_hashes;
        root ← build_tree_root (drop split leaf_hashes); Some (proof_hashes ++ [root])
      else
        proof_hashes ← build_consistency_proof_inner fuel (drop split leaf_hashes)
          (old_size - split) false proof_hashes;
        root ← build_tree_root (take split leaf_hashes); Some (proof_hashes ++ [root])
  end.

Definition build_consistency_proof (leaf_hashes : list bytes) (old_size : nat)
    : option ConsistencyProof :=
  let new_size := length leaf_hashes in
  if ((old_size =? 0) || (new_size <? old_size) || (new_size =? 0))%nat then None
  else if (old_size =? new_size)%nat
  then Some (mkConsistency (N.of_nat old_size) (N.of_nat new_size) [])
  else
    proof_hashes ← build_consistency_proof_inner new_size leaf_hashes old_size true [];
    Some (mkConsistency (N.of_nat old_size) (N.of_nat new_size) proof_hashes).

(** ** The reference evaluation (RFC 6962, section 2.1.2)

    [rfc_eval old new known root hashes] reads a proof along the splits of the
    new tree, last hash first: on the left of a split the hash is the right
    sibling of the new tree only, on the right it is the left sibling of both.
    The hashes are given last first. *)
Fixpoint rfc_eval (fuel : nat) (m n : nat) (known : bool) (root : bytes) (rhashes : list bytes)
    : option (bytes * bytes) :=
  if (m =? n)%nat then
    match known, rhashes with
    | true, [] => Some (root, root)
    | false, [h] => Some (h, h)
    | _, _ => None
    end
  else match fuel, rhashes with
  | S fuel, h :: rhashes =>
      let k := rfc_split n in
      if (m <=? k)%nat then
        '(o, w) ← rfc_eval fuel m k known root rhashes; Some (o, hash_node w h)
      else
        '(o, w) ← rfc_eval fuel (m - k) (n - k) false root rhashes;
        Some (hash_node h o, hash_node h w)
  | _, _ => None
  end.
End Consistency.

(** ** Index arithmetic *)

Lemma is_odd_even (a : N) : is_odd (2 * a) = false.
Proof.
  unfold is_odd. change 1 with (N.ones 1) at 1. rewrite N.land_ones. change (2 ^ 1) with 2.
  by rewrite N.mul_comm, N.Div0.mod_mul.
Qed.

Lemma is_odd_odd (a : N) : is_odd (2 * a + 1) = true.
Proof.
  unfold is_odd. change 1 with (N.ones 1) at 2. rewrite N.land_ones. change (2 ^ 1) with 2.
  by rewrite N.add_comm, N.mul_comm, N.Div0.mod_add.
Qed.

Lemma half_even (a : N) : N.shiftr (2 * a) 1 = a.
Proof. rewrite <- N.div2_spec, <- N.double_spec. apply N.div2_double. Qed.

Lemma half_odd (a : N) : N.shiftr (2 * a + 1) 1 = a.
Proof. rewrite <- N.div2_spec, <- N.succ_double_spec. apply N.div2_succ_double. Qed.

Lemma half_bit (a b : N) : b < 2 → N.shiftr (2 * a + b) 1 = a.
Proof.
  intros Hb. assert (b = 0 ∨ b = 1) as [-> | ->] by lia.
  - rewrite N.add_0_r. apply half_even.
  - apply half_odd.
Qed.

Lemma bits_ge (x : N) (j : nat) : 2 ^ N.of_nat j ≤ x + 1 → (j ≤ bits x)%nat.
Proof.
  intros H. unfold bits. pose proof (N.size_gt x) as Hs.
  assert (2 ^ N.of_nat j ≤ 2 ^ N.size x) as Hp by lia.
  apply N.pow_le_mono_r_iff in Hp; lia.
Qed.

Lemma pow2_S (j : nat) : 2 ^ N.of_nat (S j) = 2 * 2 ^ N.of_nat j.
Proof. rewrite Nat2N.inj_succ. apply N.pow_succ_r'. Qed.

Lemma pow2_of_nat (j : nat) : N.of_nat (2 ^ j) = 2 ^ N.of_nat j.
Proof. apply Nat2N.inj_pow. Qed.

Lemma strip_ones_low (fuel J : nat) (c d e : N) :
  (J ≤ fuel)%nat → e < 2 ^ N.of_nat J →
  strip_ones fuel (2 ^ N.of_nat J - 1 + 2 * c * 2 ^ N.of_nat J) (e + d * 2 ^ N.of_nat J) =
  (2 * c, d).
Proof.
  revert fuel e. induction J as [|J IH]; intros fuel e Hf He.
  - change (2 ^ N.of_nat 0) with 1 in *. replace (1 - 1 + 2 * c * 1) with (2 * c) by lia.
    replace (e + d * 1) with d by lia. destruct fuel; simpl; [done|]. by rewrite is_odd_even.
  - destruct fuel as [|fuel]; [lia|]. rewrite pow2_S in *. set (K := 2 ^ N.of_nat J) in *.
    assert (0 < K) by (apply N.neq_0_lt_0, N.pow_nonzero; lia).
    replace (2 * K - 1 + 2 * c * (2 * K)) with (2 * (K - 1 + 2 * c * K) + 1) by lia.
    cbn [strip_ones]. rewrite is_odd_odd, half_odd.
    pose proof (N.div_mod e 2 ltac:(done)). pose proof (N.mod_lt e 2 ltac:(done)).
    replace (e + d * (2 * K)) with (2 * (e / 2 + d * K) + e mod 2) by lia.
    rewrite half_bit by done. apply IH; [lia|]. apply N.Div0.div_lt_upper_bound. lia.
Qed.

Lemma strip_zeros_odd (fuel i : nat) (c : N) :
  (i ≤ fuel)%nat →
  strip_zeros fuel ((2 * c + 1) * 2 ^ N.of_nat i) ((2 * c + 1) * 2 ^ N.of_nat i) =
  (2 * c + 1, 2 * c + 1).
Proof.
  revert fuel. induction i as [|i IH]; intros fuel Hf.
  - change (2 ^ N.of_nat 0) with 1. rewrite N.mul_1_r. destruct fuel; simpl; [done|].
    by rewrite is_odd_odd, andb_false_r.
  - destruct fuel as [|fuel]; [lia|]. rewrite pow2_S. set (K := 2 ^ N.of_nat i) in *.
    assert (0 < K) by (apply N.neq_0_lt_0, N.pow_nonzero; lia).
    replace ((2 * c + 1) * (2 * K)) with (2 * ((2 * c + 1) * K)) by lia.
    cbn [strip_zeros]. rewrite is_odd_even, half_even.
    replace (2 * ((2 * c + 1) * K) =? 0) with false by (symmetry; apply N.eqb_neq; lia).
    apply IH. lia.
Qed.

Lemma strip_zeros_self (fuel : nat) (a s : N) :
  strip_zeros fuel (2 * a + 1) s = (2 * a + 1, s).
Proof. destruct fuel; simpl; [done|]. by rewrite is_odd_odd, andb_false_r. Qed.

Lemma is_power_of_two_pow (j : nat) : is_power_of_two (2 ^ N.of_nat j) = true.
Proof.
  unfold is_power_of_two. rewrite N.log2_pow2 by lia. rewrite N.eqb_refl, andb_true_r.
  apply N.ltb_lt, N.neq_0_lt_0, N.pow_nonzero. lia.
Qed.

Lemma is_power_of_two_between (j : nat) (m : N) :
  2 ^ N.of_nat j < m → m < 2 * 2 ^ N.of_nat j → is_power_of_two m = false.
Proof.
  intros H1 H2. unfold is_power_of_two. apply andb_false_iff. right. apply N.eqb_neq.
  replace (N.log2 m) with (N.of_nat j); [lia|].
  symmetry. apply N.log2_unique; [lia|]. rewrite N.pow_succ_r'. lia.
Qed.

(** ** The loop follows the splits *)

Section Equivalence.
Context `{P : Primitives}.

(** Where the loop starts: from the old root, or from the proof's first hash. *)
Definition eval_start (from_root : bool) (root : bytes) (hashes : list bytes)
    : option (bytes * list bytes) :=
  if from_root then Some (root, hashes)
  else match hashes with h :: hashes => Some (h, hashes) | [] => None end.

Lemma eval_start_app (b : bool) (root node : bytes) (l1 l2 rest : list bytes) :
  eval_start b root l1 = Some (node, rest) →
  eval_start b root (l1 ++ l2) = Some (node, rest ++ l2).
Proof. destruct b; simpl; [by intros [= <- <-]|]. destruct l1; [done|]. by intros [= <- <-]. Qed.

Lemma eval_loop_app (fn sn : N) (o w : bytes) (l1 l2 : list bytes) :
  eval_loop fn sn o w (l1 ++ l2) =
    match eval_loop fn sn o w l1 with
    | Ok (fn, sn, o, w) => eval_loop fn sn o w l2
    | Err e => Err e
    end.
Proof.
  revert fn sn o w. induction l1 as [|h l1 IH]; intros fn sn o w; simpl; [done|].
  destruct (eval_step fn sn o w h) as [[[[fn' sn'] o'] w']|e]; [apply IH|done].
Qed.

(** Running the loop on the hashes [hashes] from the stripped indices [fn],
    [sn] ends in the given indices with the nodes of the reference. *)
Definition loop_computes (m n : nat) (known : bool) (fn sn fn' sn' : N) : Prop :=
  ∀ fuel root rhashes o w,
    (n ≤ fuel)%nat → rfc_eval fuel m n known root rhashes = Some (o, w) →
    ∃ node rest,
      eval_start (known && is_power_of_two (N.of_nat m)) root (rev rhashes) = Some (node, rest) ∧
      eval_loop (strip_ones (bits fn) fn sn).1 (strip_ones (bits fn) fn sn).2 node node rest =
        Ok (fn', sn', o, w).

(** A proof of the left part of a split, extended by the right sibling. *)
Lemma loop_computes_left (m n : nat) (known : bool) (fn sn a d : N) :
  (0 < m)%nat → (m < n)%nat → (m ≤ rfc_split n)%nat → 2 * a < d →
  loop_computes m (rfc_split n) known fn sn (2 * a) d →
  loop_computes m n known fn sn a (N.shiftr d 1).
Proof.
  intros Hm Hmn Hk Had IH fuel root rhashes o w Hf H.
  pose proof (rfc_split_bounds n ltac:(lia)) as (? & ? & ?).
  destruct fuel as [|fuel]; [lia|]. destruct rhashes as [|h rhashes]; cbn [rfc_eval] in H;
    rewrite (proj2 (Nat.eqb_neq m n)) in H by lia; [done|].
  rewrite (proj2 (Nat.leb_le _ _) Hk) in H.
  destruct (rfc_eval fuel m (rfc_split n) known root rhashes) as [[o' w']|] eqn:E; simpl in H;
    [|done]. injection H as <- <-.
  destruct (IH fuel root rhashes o' w' ltac:(lia) E) as (node & rest & Hs & Hl).
  exists node, (rest ++ [h]). split; [by apply eval_start_app|].
  rewrite eval_loop_app, Hl. cbn [eval_loop]. unfold eval_step.
  rewrite is_odd_even, (proj2 (N.eqb_neq d 0)), (proj2 (N.eqb_neq (2 * a) d)) by lia.
  cbn [orb]. by rewrite half_even.
Qed.

(** A proof of the right part of a split, extended by the left sibling. *)
Lemma loop_computes_right (m n : nat) (known : bool) (fn sn f s f' s' : N) :
  (m < n)%nat → (rfc_split n < m)%nat → s ≠ 0 →
  is_odd f || (f =? s) = true → strip_zeros (bits f) f s = (f', s') →
  loop_computes (m - rfc_split n) (n - rfc_split n) false fn sn f s →
  loop_computes m n known fn sn (N.shiftr f' 1) (N.shiftr s' 1).
Proof.
  intros Hmn Hk Hs0 Hodd Hz IH fuel root rhashes o w Hf H.
  pose proof (rfc_split_bounds n ltac:(lia)) as (? & ? & Hn2).
  destruct fuel as [|fuel]; [lia|]. destruct rhashes as [|h rhashes]; cbn [rfc_eval] in H;
    rewrite (proj2 (Nat.eqb_neq m n)) in H by lia; [done|].
  rewrite (proj2 (Nat.leb_gt _ _) Hk) in H.
  destruct (rfc_eval fuel (m - rfc_split n) (n - rfc_split n) false root rhashes)
    as [[o' w']|] eqn:E; simpl in H; [|done]. injection H as <- <-.
  destruct (IH fuel root rhashes o' w' ltac:(lia) E) as (node & rest & Hs & Hl).
  exists node, (rest ++ [h]). split.
  - apply eval_start_app. unfold rfc_split in *.
    rewrite (is_power_of_two_between (Nat.log2 (n - 1))), andb_false_r; [done|..];
      rewrite <- pow2_of_nat; lia.
  - rewrite eval_loop_app, Hl. cbn [eval_loop]. unfold eval_step.
    by rewrite (proj2 (N.eqb_neq s 0) Hs0), Hodd, Hz.
Qed.

Lemma loop_computes_base (J : nat) (known : bool) (a d e : N) :
  e < 2 ^ N.of_nat J →
  loop_computes (2 ^ J) (2 ^ J) known
    (N.of_nat (2 ^ J) - 1 + 2 * a * 2 ^ N.of_nat J) (e + d * 2 ^ N.of_nat J) (2 * a) d.
Proof.
  intros He fuel root rhashes o w _ H. rewrite pow2_of_nat, is_power_of_two_pow, andb_true_r.
  rewrite strip_ones_low by (done || apply bits_ge; lia).
  assert (H' : match known, rhashes with
               | true, [] => Some (root, root) | false, [h] => Some (h, h) | _, _ => None
               end = Some (o, w)).
  { destruct fuel; cbn [rfc_eval] in H; by rewrite Nat.eqb_refl in H. }
  destruct known, rhashes as [|h [|h' rhashes]]; try done; injection H' as <- <-;
    by eexists _, [].
Qed.

(** A perfect subtree of [2 ^ J] leaves, on the left of the new tree's path. *)
Lemma loop_computes_perfect (J m : nat) (known : bool) (c d e : N) :
  (0 < m)%nat → (m ≤ 2 ^ J)%nat → (m = (2 ^ J)%nat → ∃ a, c = 2 * a) →
  c < d → e < 2 ^ N.of_nat J →
  loop_computes m (2 ^ J) known (N.of_nat m - 1 + c * 2 ^ N.of_nat J) (e + d * 2 ^ N.of_nat J) c d.
Proof.
  revert m known c d e. induction J as [|j IH]; intros m known c d e Hm HmJ Hc Hcd He.
  { assert (m = 2 ^ 0)%nat as -> by (simpl in *; lia).
    destruct (Hc eq_refl) as [a ->]. by apply loop_computes_base. }
  destruct (decide (m = 2 ^ S j)%nat) as [->|Hne].
  { destruct (Hc eq_refl) as [a ->]. by apply loop_computes_base. }
  assert (Hsp : rfc_split (2 ^ S j) = (2 ^ j)%nat).
  { pose proof (Nat.pow_nonzero 2 j). apply rfc_split_unique; rewrite Nat.pow_succ_r'; lia. }
  pose proof (pow2_of_nat j) as HK. rewrite pow2_S in *. rewrite Nat.pow_succ_r' in HmJ, Hne.
  set (K := 2 ^ N.of_nat j) in *.
  assert (0 < K) by (apply N.neq_0_lt_0, N.pow_nonzero; lia).
  pose proof (N.div_mod e K ltac:(lia)) as Hdm. pose proof (N.mod_lt e K ltac:(lia)) as Hlt.
  assert (Hb : e / K < 2) by (apply N.Div0.div_lt_upper_bound; lia).
  set (b := e / K) in *. set (r := e mod K) in *.
  replace (e + d * (2 * K)) with (r + (2 * d + b) * K) by lia.
  replace d with (N.shiftr (2 * d + b) 1) at 2 by (by apply half_bit).
  destruct (decide (m ≤ 2 ^ j)%nat) as [Hle|Hgt].
  - apply loop_computes_left; rewrite ?Hsp, ?Nat.pow_succ_r'; [lia..|].
    replace (c * (2 * K)) with (2 * c * K) by lia. apply IH; eauto; lia.
  - replace c with (N.shiftr (2 * c + 1) 1) at 2 by apply half_odd.
    eapply (loop_computes_right _ _ _ _ _ (2 * c + 1) (2 * d + b));
      rewrite ?Hsp, ?Nat.pow_succ_r'; [lia..| | |].
    + by rewrite is_odd_odd.
    + apply strip_zeros_self.
    + replace (2 * 2 ^ j - 2 ^ j)%nat with (2 ^ j)%nat by lia.
      replace (N.of_nat m - 1 + c * (2 * K)) with (N.of_nat (m - 2 ^ j) - 1 + (2 * c + 1) * K) by lia.
      apply IH; try lia.
Qed.

(** The subtree on the right edge of the new tree: both indices carry the same
    high bits [c]. *)
Lemma loop_computes_spine (n J m : nat) (known : bool) (c : N) :
  (0 < m)%nat → (m < n)%nat → (n ≤ 2 ^ J)%nat →
  ∃ i, loop_computes m n known (N.of_nat m - 1 + c * 2 ^ N.of_nat J)
         (N.of_nat n - 1 + c * 2 ^ N.of_nat J) (c * 2 ^ N.of_nat i) (c * 2 ^ N.of_nat i).
Proof.
  revert J m known c. induction (lt_wf n) as [n _ IH]. intros J m known c Hm Hmn HnJ.
  destruct (rfc_split_bounds n ltac:(lia)) as (Hk1 & Hk2 & Hk3).
  set (j := Nat.log2 (n - 1)). assert (Hsp : rfc_split n = (2 ^ j)%nat) by done.
  assert (∃ i, J = j + S i)%nat as [i ->].
  { assert (Hlt : (2 ^ j < 2 ^ J)%nat) by lia. apply Nat.pow_lt_mono_r_iff in Hlt; [|lia].
    exists (J - S j)%nat. lia. }
  exists i. pose proof (pow2_of_nat j) as HK. pose proof (pow2_of_nat i) as HI.
  rewrite Nat2N.inj_add, N.pow_add_r, pow2_S.
  set (K := 2 ^ N.of_nat j) in *. set (I := 2 ^ N.of_nat i) in *.
  assert (0 < I) by (apply N.neq_0_lt_0, N.pow_nonzero; lia).
  destruct (decide (m ≤ 2 ^ j)%nat) as [Hle|Hgt].
  - replace (c * I) with (N.shiftr (2 * (c * I) + 1) 1) at 2 by apply half_odd.
    apply loop_computes_left; rewrite ?Hsp; [lia..|].
    replace (N.of_nat n - 1 + c * (K * (2 * I)))
      with (N.of_nat n - 1 - K + (2 * (c * I) + 1) * K) by lia.
    replace (c * (K * (2 * I))) with (2 * (c * I) * K) by lia.
    apply loop_computes_perfect; eauto; lia.
  - destruct (IH (n - 2 ^ j)%nat ltac:(lia) j (m - 2 ^ j)%nat false (2 * (c * I) + 1)) as [i' Hi'];
      [lia..|]. fold K in Hi'.
    rewrite <- (half_odd (c * I)). eapply loop_computes_right; rewrite ?Hsp; [lia..| | | |].
    4:{ replace (N.of_nat n - 1 + c * (K * (2 * I)))
          with (N.of_nat (n - 2 ^ j) - 1 + (2 * (c * I) + 1) * K) by lia.
        replace (N.of_nat m - 1 + c * (K * (2 * I)))
          with (N.of_nat (m - 2 ^ j) - 1 + (2 * (c * I) + 1) * K) by lia.
        exact Hi'. }
    + pose proof (N.pow_nonzero 2 (N.of_nat i')). lia.
    + by rewrite N.eqb_refl, orb_true_r.
    + apply strip_zeros_odd, bits_ge. pose proof (N.pow_nonzero 2 (N.of_nat i')). nia.
Qed.

(** The number of hashes a proof has, which only the two sizes determine. *)
Fixpoint rfc_count (fuel m n : nat) (known : bool) : nat :=
  if (m =? n)%nat then (if known then 0 else 1)%nat
  else match fuel with
  | O => 0%nat
  | S fuel =>
      let k := rfc_split n in
      S (if (m <=? k)%nat then rfc_count fuel m k known
         else rfc_count fuel (m - k) (n - k) false)
  end.

Lemma rfc_eval_count (fuel m n : nat) (known : bool) (root : bytes) (rhashes : list bytes) :
  (0 < m)%nat → (m ≤ n)%nat → (n ≤ fuel)%nat →
  is_Some (rfc_eval fuel m n known root rhashes) ↔ length rhashes = rfc_count fuel m n known.
Proof.
  revert m n known rhashes. induction fuel as [|fuel IH]; intros m n known rhashes Hm Hmn Hf; [lia|].
  cbn [rfc_eval rfc_count]. destruct (m =? n)%nat eqn:E; bool_to_prop.
  { destruct known, rhashes as [|h [|h' rhashes]]; simpl; split; intros Hx;
      done || (by destruct Hx) || lia. }
  destruct (rfc_split_bounds n ltac:(lia)) as (? & ? & ?).
  destruct rhashes as [|h rhashes]; simpl length.
  { split; [by intros [? ?]|done]. }
  destruct (m <=? rfc_split n)%nat eqn:Ek; bool_to_prop.
  - rewrite Nat.succ_inj_wd, <- (IH m (rfc_split n) known rhashes) by lia.
    destruct (rfc_eval fuel m (rfc_split n) known root rhashes) as [[o w]|]; simpl; split;
      intros Hx; done || (by destruct Hx).
  - rewrite Nat.succ_inj_wd, <- (IH (m - rfc_split n) (n - rfc_split n) false rhashes)%nat by lia.
    destruct (rfc_eval fuel (m - rfc_split n) (n - rfc_split n) false root rhashes) as [[o w]|];
      simpl; split; intros Hx; done || (by destruct Hx).
Qed.

Lemma eval_loop_err (fn sn : N) (o w : bytes) (l : list bytes) (e : CoreError) :
  eval_loop fn sn o w l = Err e → Err e = @invalid_params (N * N * bytes * bytes).
Proof.
  revert fn sn o w. induction l as [|h l IH]; intros fn sn o w; simpl; [done|].
  unfold eval_step. destruct (sn =? 0); [by intros [= <-]|].
  destruct (is_odd fn || (fn =? sn)); [|apply IH].
  destruct (strip_zeros (bits fn) fn sn). apply IH.
Qed.

(** The tail of [evaluate_consistency_proof] once its guards have passed. *)
Definition eval_tail (m n : N) (node : bytes) (rest : list bytes) : res (bytes * bytes) :=
  let '(fn_idx, sn_idx) := strip_ones (bits (m - 1)) (m - 1) (n - 1) in
  let? (fn_idx, sn_idx, old_node, new_node) := eval_loop fn_idx sn_idx node node rest in
  if negb (sn_idx =? 0) then invalid_params else Ok (old_node, new_node).

Lemma evaluate_start (m n : N) (root : bytes) (hashes : list bytes) :
  0 < m → m < n →
  evaluate_consistency_proof m n root hashes =
    match hashes with
    | [] => invalid_params
    | _ => match eval_start (is_power_of_two m) root hashes with
           | Some (node, rest) => eval_tail m n node rest
           | None => invalid_params
           end
    end.
Proof.
  intros Hm Hn. unfold evaluate_consistency_proof, eval_tail.
  rewrite (proj2 (N.eqb_neq m 0)), (proj2 (N.ltb_ge n m)), (proj2 (N.eqb_neq m n)) by lia. simpl.
  destruct hashes as [|h hashes]; [done|].
  destruct (strip_ones (bits (m - 1)) (m - 1) (n - 1)). by destruct (is_power_of_two m).
Qed.

Lemma eval_tail_ok (m n : nat) (root : bytes) (hashes : list bytes) (o w : bytes) :
  (0 < m)%nat → (m < n)%nat → rfc_eval n m n true root (rev hashes) = Some (o, w) →
  ∃ node rest, eval_start (is_power_of_two (N.of_nat m)) root hashes = Some (node, rest) ∧
    eval_loop (strip_ones (bits (N.of_nat m - 1)) (N.of_nat m - 1) (N.of_nat n - 1)).1
      (strip_ones (bits (N.of_nat m - 1)) (N.of_nat m - 1) (N.of_nat n - 1)).2 node node rest =
      Ok (0, 0, o, w).
Proof.
  intros Hm Hmn H. destruct (loop_computes_spine n n m true 0 Hm Hmn) as [i Hi].
  { pose proof (Nat.pow_gt_lin_r 2 n). lia. }
  destruct (Hi n root (rev hashes) o w (le_n _) H) as (node & rest & Hs & Hl).
  rewrite rev_involutive in Hs. rewrite !N.mul_0_l, !N.add_0_r in Hl. by exists node, rest.
Qed.

Definition eval_from (m n : nat) (root : bytes) (hashes : list bytes) : res (bytes * bytes) :=
  match eval_start (is_power_of_two (N.of_nat m)) root hashes with
  | Some (node, rest) => eval_tail (N.of_nat m) (N.of_nat n) node rest
  | None => invalid_params
  end.

(** Hashes beyond the last one needed are refused, for the new index is used up. *)
Lemma eval_from_long (m n : nat) (root o w : bytes) (l1 l2 : list bytes) :
  (0 < m)%nat → (m < n)%nat → l2 ≠ [] → rfc_eval n m n true root (rev l1) = Some (o, w) →
  eval_from m n root (l1 ++ l2) = invalid_params.
Proof.
  intros Hm Hmn Hl2 (node & rest & Hs & Hl)%eval_tail_ok; [|done..].
  unfold eval_from, eval_tail. rewrite (eval_start_app _ _ _ _ _ _ Hs).
  destruct (strip_ones _ _ _) as [f s]. simpl in Hl. rewrite eval_loop_app, Hl.
  by destruct l2 as [|h l2].
Qed.

(** A proof cut short leaves the new index unfinished. *)
Lemma eval_from_short (m n : nat) (root o w : bytes) (l1 l2 : list bytes) :
  (0 < m)%nat → (m < n)%nat → l2 ≠ [] → rfc_eval n m n true root (rev (l1 ++ l2)) = Some (o, w) →
  eval_from m n root l1 = invalid_params.
Proof.
  intros Hm Hmn Hl2 (node & rest & Hs & Hl)%eval_tail_ok; [|done..].
  unfold eval_from, eval_tail.
  destruct (eval_start (is_power_of_two (N.of_nat m)) root l1) as [[node' rest']|] eqn:E; [|done].
  rewrite (eval_start_app _ _ _ _ l2 _ E) in Hs. injection Hs as -> <-.
  destruct (strip_ones _ _ _) as [f s]. simpl in Hl. rewrite eval_loop_app in Hl.
  destruct (eval_loop f s node node rest') as [[[[f' s'] o'] w']|e]; [|done].
  destruct l2 as [|h l2]; [done|]. simpl in Hl. unfold eval_step in Hl. by destruct (s' =? 0).
Qed.

(** The loop is the reference evaluation, and fails where the reference does. *)
Lemma evaluate_rfc (m n : nat) (root : bytes) (hashes : list bytes) :
  (0 < m)%nat → (m < n)%nat →
  evaluate_consistency_proof (N.of_nat m) (N.of_nat n) root hashes =
    match rfc_eval n m n true root (rev hashes) with
    | Some r => Ok r
    | None => invalid_params
    end.
Proof.
  intros Hm Hmn. rewrite evaluate_start by lia.
  pose proof (λ l, rfc_eval_count n m n true root (rev l) Hm ltac:(lia) (le_n _)) as Hcount.
  set (cnt := rfc_count n m n true) in *.
  destruct (decide (length hashes < cnt ∨ cnt < length hashes)%nat) as [Hlen|Hlen].
  - replace (rfc_eval n m n true root (rev hashes)) with (@None (bytes * bytes)).
    2:{ symmetry. apply eq_None_not_Some. intros Hx%Hcount. rewrite length_rev in Hx. lia. }
    destruct hashes as [|h0 hs] eqn:Eh; [done|]. rewrite <- Eh in *. clear Eh h0 hs.
    fold (eval_from m n root hashes). destruct Hlen as [Hlen|Hlen].
    + destruct (proj2 (Hcount (hashes ++ replicate (cnt - length hashes) []))) as [[o w] E].
      { rewrite length_rev, length_app, length_replicate. lia. }
      eapply eval_from_short in E; [done..|]. intros Hx%(f_equal length).
      rewrite length_replicate in Hx. simpl in Hx. lia.
    + destruct (proj2 (Hcount (take cnt hashes))) as [[o w] E].
      { rewrite length_rev, length_take. lia. }
      rewrite <- (take_drop cnt hashes). eapply eval_from_long in E; [done..|].
      intros Hx%(f_equal length). rewrite length_drop in Hx. simpl in Hx. lia.
  - destruct (proj2 (Hcount hashes)) as [[o w] E]; [rewrite length_rev; lia|]. rewrite E.
    destruct hashes as [|h0 hs] eqn:Eh.
    { destruct n; [lia|]. simpl in E. by rewrite (proj2 (Nat.eqb_neq m (S n))) in E by lia. }
    rewrite <- Eh in *. destruct (eval_tail_ok m n root hashes o w Hm Hmn E) as (node & rest & -> & Hl).
    unfold eval_tail. destruct (strip_ones _ _ _) as [f s]. simpl in Hl. by rewrite Hl.
Qed.
End Equivalence.

(** ** Proofs and what they establish *)

Section Proofs.
Context `{P : Primitives}.

(** [SUBPROOF] of RFC 6962. *)
Fixpoint rfc_proof (fuel : nat) (l : list bytes) (m : nat) (known : bool) : list bytes :=
  if (m =? length l)%nat then (if known then [] else [mth l])
  else match fuel with
  | O => []
  | S fuel =>
      let k := rfc_split (length l) in
      if (m <=? k)%nat then rfc_proof fuel (take k l) m known ++ [mth (drop k l)]
      else rfc_proof fuel (drop k l) (m - k) false ++ [mth (take k l)]
  end.

(** The strings hashed when a proof is evaluated. *)
Fixpoint rfc_inputs (fuel m n : nat) (known : bool) (root : bytes) (rhashes : list bytes)
    : list bytes :=
  if (m =? n)%nat then []
  else match fuel, rhashes with
  | S fuel, h :: rhashes =>
      let k := rfc_split n in
      if (m <=? k)%nat then
        match rfc_eval fuel m k known root rhashes with
        | Some (o, w) => node_preimage w h :: rfc_inputs fuel m k known root rhashes
        | None => []
        end
      else
        match rfc_eval fuel (m - k) (n - k) false root rhashes with
        | Some (o, w) =>
            node_preimage h o :: node_preimage h w ::
              rfc_inputs fuel (m - k) (n - k) false root rhashes
        | None => []
        end
  | _, _ => []
  end.

Lemma rfc_split_between (k m n : nat) :
  k = rfc_split n → (2 ≤ n)%nat → (k < m)%nat → (m ≤ n)%nat → rfc_split m = k.
Proof.
  intros -> Hn Hk Hm. pose proof (rfc_split_bounds n Hn).
  apply (rfc_split_unique m (Nat.log2 (n - 1))); fold (rfc_split n); lia.
Qed.

Lemma rfc_proof_eval (fuel : nat) (l : list bytes) (m : nat) (known : bool) (root : bytes) :
  (0 < m)%nat → (m ≤ length l)%nat → (length l ≤ fuel)%nat →
  (known = true → root = mth (take m l)) →
  rfc_eval fuel m (length l) known root (rev (rfc_proof fuel l m known)) =
    Some (mth (take m l), mth l).
Proof.
  revert l m known. induction fuel as [|fuel IH]; intros l m known Hm Hl Hf Hr; [lia|].
  cbn [rfc_eval rfc_proof]. destruct (m =? length l)%nat eqn:E; bool_to_prop.
  { subst m. rewrite firstn_all in *. destruct known; simpl; [by rewrite Hr|done]. }
  destruct (rfc_split_bounds (length l) ltac:(lia)) as (? & ? & ?).
  set (k := rfc_split (length l)) in *.
  destruct (m <=? k)%nat eqn:Ek; bool_to_prop; rewrite rev_app_distr; simpl.
  - specialize (IH (take k l) m known Hm). rewrite length_take_le in IH by lia.
    rewrite take_take, Nat.min_l in IH by lia. rewrite IH by (done || lia). simpl.
    f_equal. f_equal. symmetry. apply mth_split. lia.
  - specialize (IH (drop k l) (m - k)%nat false). rewrite length_drop in IH.
    rewrite IH by (done || lia). simpl. f_equal.
    rewrite (mth_split (take m l)), (mth_split l) by (rewrite ?length_take; lia).
    rewrite length_take_le by lia. rewrite (rfc_split_between k m (length l)) by (done || lia).
    rewrite take_take, Nat.min_l by lia. by rewrite skipn_firstn_comm.
Qed.

Lemma largest_power_pow2 (j : nat) :
  (j < 63)%nat → largest_power_of_two_less_than (2 ^ S j) = (2 ^ j)%nat.
Proof.
  intros Hj. unfold largest_power_of_two_less_than, leading_zeros. rewrite pow2_of_nat.
  assert (Hs : N.size (2 ^ N.of_nat (S j)) = N.of_nat (S (S j))).
  { rewrite N.size_log2 by (apply N.pow_nonzero; lia). rewrite N.log2_pow2 by lia. lia. }
  rewrite Hs, N.shiftl_1_l. replace (64 - (64 - N.of_nat (S (S j))) - 2) with (N.of_nat j) by lia.
  by rewrite <- pow2_of_nat, Nat2N.id.
Qed.

Lemma build_inner_unfold (fuel : nat) (l : list bytes) (m : nat) (known : bool)
    (acc : list bytes) :
  (0 < m)%nat → (m ≤ length l)%nat →
  build_consistency_proof_inner fuel l m known acc =
    if (m =? length l)%nat then Some (if known then acc else acc ++ [mth l])
    else match fuel with
    | O => None
    | S fuel =>
        let split := largest_power_of_two_less_than (length l) in
        if (m <=? split)%nat then
          acc ← build_consistency_proof_inner fuel (take split l) m known acc;
          root ← build_tree_root (drop split l); Some (acc ++ [root])
        else
          acc ← build_consistency_proof_inner fuel (drop split l) (m - split) false acc;
          root ← build_tree_root (take split l); Some (acc ++ [root])
    end.
Proof.
  intros Hm Hl. assert (l ≠ []) by (intros ->; simpl in *; lia).
  destruct fuel; cbn [build_consistency_proof_inner];
    rewrite (proj2 (Nat.eqb_neq m 0)), (proj2 (Nat.ltb_ge (length l) m)),
      (proj2 (Nat.eqb_neq (length l) 0)) by lia; cbn [orb];
    (destruct (m =? length l)%nat; [|done]); (destruct known; [done|]);
    by rewrite build_tree_root_mth.
Qed.

(** On a perfect tree the server's split point is the reference's, and so is
    the proof it builds. *)
Lemma build_inner_perfect (J fuel : nat) (l : list bytes) (m : nat) (known : bool)
    (acc : list bytes) :
  (J ≤ 63)%nat → length l = (2 ^ J)%nat → (0 < m)%nat → (m ≤ 2 ^ J)%nat → (2 ^ J ≤ fuel)%nat →
  build_consistency_proof_inner fuel l m known acc = Some (acc ++ rfc_proof fuel l m known).
Proof.
  revert fuel l m known acc. induction J as [|j IH]; intros fuel l m known acc HJ Hl Hm HmJ Hf;
    rewrite build_inner_unfold by lia.
  { assert (m = length l) as -> by (simpl in *; lia). rewrite Nat.eqb_refl.
    destruct fuel; cbn [rfc_proof]; rewrite Nat.eqb_refl; (destruct known; [by rewrite app_nil_r|done]). }
  pose proof (Nat.pow_nonzero 2 j ltac:(done)) as Hpos.
  destruct fuel as [|fuel]; [rewrite Nat.pow_succ_r' in Hf; lia|]. cbn [rfc_proof].
  destruct (m =? length l)%nat eqn:E; [destruct known; [by rewrite app_nil_r|done]|].
  bool_to_prop. rewrite Hl in E |- *. rewrite largest_power_pow2 by lia.
  assert (rfc_split (2 ^ S j) = 2 ^ j)%nat as ->
    by (apply rfc_split_unique; rewrite Nat.pow_succ_r'; lia).
  rewrite Nat.pow_succ_r' in Hl, Hf, HmJ, E.
  destruct (m <=? 2 ^ j)%nat eqn:Ek; bool_to_prop.
  - rewrite IH by (rewrite ?length_take; lia). simpl. rewrite build_tree_root_mth; simpl.
    + by rewrite app_assoc.
    + intros Hx%(f_equal length). rewrite length_drop in Hx. simpl in Hx. lia.
  - rewrite IH by (rewrite ?length_drop; lia). simpl. rewrite build_tree_root_mth; simpl.
    + by rewrite app_assoc.
    + intros Hx%(f_equal length). rewrite length_take in Hx. simpl in Hx. lia.
Qed.

Context `{!PrimitiveLaws P}.

Lemma mth_inj (Q : list bytes) (a b : list bytes) :
  collision_free Q → a ≠ [] → length a = length b →
  Forall (λ h, length h = 32%nat) a → Forall (λ h, length h = 32%nat) b →
  mth_inputs a ⊆ Q → mth_inputs b ⊆ Q → mth a = mth b → a = b.
Proof.
  intros HQ Ha. revert b. revert a Ha. refine (split_ind _ _ _).
  - intros h [|h' [|? b]] Hl _ _ _ _ E; simpl in Hl; try lia. by rewrite !mth_singleton in E; subst.
  - intros a Hge IHt IHd b Hl Fa Fb Qa Qb E.
    rewrite (mth_inputs_split a) in Qa by done. cbv zeta in Qa.
    apply list_subseteq_cons_iff in Qa as [Ra [Qa1 Qa2]%list_subseteq_app_iff_l].
    rewrite (mth_split a) in E by done. apply (mth_node_inv Q) in E; try done; [|lia|].
    2:{ apply length_mth; [by apply halves_ne|by apply Forall_take]. }
    rewrite <- Hl in E. set (k := rfc_split (length a)) in *. destruct E as (E1 & E2 & Qb1 & Qb2).
    rewrite <- (take_drop k a), <- (take_drop k b). f_equal.
    + apply IHt; try done; [by rewrite !length_take, Hl|by apply Forall_take..].
    + apply IHd; try done; [by rewrite !length_drop, Hl|by apply Forall_drop..].
Qed.

Lemma rfc_eval_length (fuel m n : nat) (known : bool) (root : bytes) (rhashes : list bytes)
    (o w : bytes) :
  length root = 32%nat → Forall (λ h, length h = 32%nat) rhashes →
  rfc_eval fuel m n known root rhashes = Some (o, w) → length o = 32%nat ∧ length w = 32%nat.
Proof.
  revert m n known rhashes o w. induction fuel as [|fuel IH]; intros m n known rhashes o w Hr Hh;
    cbn [rfc_eval]; destruct (m =? n)%nat;
    try (destruct known, rhashes as [|h [|h' rhashes]]; intros H; simplify_eq; [done|];
         by apply Forall_cons_1 in Hh as [? _]); [done|].
  destruct rhashes as [|h rhashes]; [done|]. apply Forall_cons_1 in Hh as [_ Hh].
  destruct (m <=? rfc_split n)%nat;
    match goal with |- context [rfc_eval ?f ?a ?b ?c ?d ?e] =>
      destruct (rfc_eval f a b c d e) as [[o' w']|] eqn:E; simpl; [|done] end;
    intros [= <- <-]; apply IH in E as [? ?]; try done; split; (done || apply sha256_length).
Qed.

(** A proof that evaluates to the hashes of two trees shows that the smaller is
    a prefix of the larger. *)
Lemma rfc_eval_sound (Q : list bytes) (fuel m : nat) (known : bool) (root : bytes)
    (rhashes old l : list bytes) :
  collision_free Q → (0 < m)%nat → length old = m → (m ≤ length l)%nat → (length l ≤ fuel)%nat →
  length root = 32%nat → Forall (λ h, length h = 32%nat) rhashes →
  Forall (λ h, length h = 32%nat) old → Forall (λ h, length h = 32%nat) l →
  mth_inputs old ⊆ Q → mth_inputs l ⊆ Q → rfc_inputs fuel m (length l) known root rhashes ⊆ Q →
  rfc_eval fuel m (length l) known root rhashes = Some (mth old, mth l) →
  take m l = old.
Proof.
  intros HQ. revert m known rhashes old l.
  induction fuel as [|fuel IH]; intros m known rhashes old l Hm Ho Hl Hf Hr Fh Fo Fl Qo Ql Qi H; [lia|].
  cbn [rfc_eval rfc_inputs] in H, Qi. destruct (m =? length l)%nat eqn:E; bool_to_prop.
  { assert (mth old = mth l) as E'
      by (destruct known, rhashes as [|h [|h' rhashes]]; simplify_eq; congruence).
    subst m. rewrite E. rewrite firstn_all. symmetry. apply (mth_inj Q); try done.
    intros ->. simpl in Hm. lia. }
  destruct rhashes as [|h rhashes]; [done|]. apply Forall_cons_1 in Fh as [Fh1 Fh].
  assert (Hge : (2 ≤ length l)%nat) by lia. destruct (rfc_split_bounds (length l) Hge) as (? & ? & ?).
  set (k := rfc_split (length l)) in *.
  assert (HtL : length (take k l) = k) by (rewrite length_take; lia).
  pose proof (length_drop l k) as HdL.
  destruct (m <=? k)%nat eqn:Ek; bool_to_prop.
  - destruct (rfc_eval fuel m k known root rhashes) as [[o w]|] eqn:Ee; [|done].
    cbn [mbind option_bind] in H. injection H as -> Ew.
    apply list_subseteq_cons_iff in Qi as [Ri Qi].
    apply (mth_node_inv Q) in Ew as (-> & _ & Ql1 & _); try done.
    2:{ by apply rfc_eval_length in Ee as [_ ?]. }
    rewrite <- HtL in Ee, Qi.
    apply (IH m known rhashes old (take k l)) in Ee; try done; [|lia..|by apply Forall_take].
    by rewrite take_take, Nat.min_l in Ee by lia.
  - destruct (rfc_eval fuel (m - k) (length l - k) false root rhashes) as [[o w]|] eqn:Ee; [|done].
    cbn [mbind option_bind] in H. injection H as Eo Ew.
    apply list_subseteq_cons_iff in Qi as [Ri1 [Ri2 Qi]%list_subseteq_cons_iff].
    apply (mth_node_inv Q) in Ew as (Eh & -> & Ql1 & Ql2); try done. fold k in Eh, Ql1, Ql2, Ee.
    apply (mth_node_inv Q) in Eo as (Eh' & -> & Qo1 & Qo2); try done; [|lia].
    rewrite (rfc_split_between k (length old) (length l)) in * by (done || lia).
    rewrite <- HdL in Ee, Qi.
    apply (IH (m - k)%nat false rhashes (drop k old) (drop k l)) in Ee; try done;
      [|rewrite ?length_drop; lia..|by apply Forall_drop|by apply Forall_drop].
    rewrite <- (take_drop k old), <- Ee.
    assert (take k old = take k l) as ->.
    { apply (mth_inj Q); try done; [|rewrite !length_take; lia|by apply Forall_take..|congruence].
      intros Hx%(f_equal length). rewrite length_take in Hx. simpl in Hx. lia. }
    rewrite take_take_drop. f_equal. lia.
Qed.
End Proofs.

(** ** Properties of consistency checks *)

(** C23: the index arithmetic of the verifier is the recursive reading of
    RFC 6962: on every pair of sizes it accepts the same proofs and computes
    the same pair of roots as the definition by splits of the new tree, and it
    refuses every other proof, too short or too long, with the same error. *)
Theorem consistency_evaluation_rfc6962 (P : Primitives) (old_size new_size : N) (root : bytes)
    (hashes : list bytes) :
  evaluate_consistency_proof old_size new_size root hashes =
    if (0 <? old_size) && (old_size <? new_size) then
      match rfc_eval (N.to_nat new_size) (N.to_nat old_size) (N.to_nat new_size) true root
              (rev hashes) with
      | Some roots => Ok roots
      | None => invalid_params
      end
    else invalid_params.
Proof.
  destruct (0 <? old_size) eqn:E0, (old_size <? new_size) eqn:E1; bool_to_prop; simpl.
  - rewrite <- evaluate_rfc by lia. by rewrite !N2Nat.id.
  - unfold evaluate_consistency_proof.
    destruct ((old_size =? 0) || (new_size <? old_size)) eqn:E2; [done|]. bool_to_prop.
    by rewrite (proj2 (N.eqb_eq old_size new_size)) by lia.
  - unfold evaluate_consistency_proof. by rewrite (proj2 (N.eqb_eq old_size 0)) by lia.
  - unfold evaluate_consistency_proof. by rewrite (proj2 (N.eqb_eq old_size 0)) by lia.
Qed.

Lemma verify_growing `{P : Primitives} `{V : Ed25519} (pk : ed_key) (old_sth new_sth : SignedTreeHead)
    (proof : ConsistencyProof) :
  SignedTreeHead_verify old_sth pk = Ok tt → SignedTreeHead_verify new_sth pk = Ok tt →
  sth_epoch old_sth ≤ sth_epoch new_sth → sth_tree_size old_sth < sth_tree_size new_sth →
  cp_old_size proof = sth_tree_size old_sth → cp_new_size proof = sth_tree_size new_sth →
  evaluate_consistency_proof (sth_tree_size old_sth) (sth_tree_size new_sth)
    (sth_root_hash old_sth) (cp_proof_hashes proof) =
    Ok (sth_root_hash old_sth, sth_root_hash new_sth) →
  verify_consistency_proof old_sth new_sth proof pk = Ok tt.
Proof.
  intros Ho Hn He Hs E1 E2 Hev. unfold verify_consistency_proof. rewrite Ho, Hn, E1, E2, Hev.
  rewrite (proj2 (N.ltb_ge _ _) He), (proj2 (N.ltb_ge (sth_tree_size new_sth) _)), !N.eqb_refl by lia.
  cbn [negb orb]. rewrite (proj2 (N.eqb_neq (sth_tree_size old_sth) _)) by lia.
  by rewrite !bool_decide_eq_true_2.
Qed.

Lemma evaluate_rfc_proof `{P : Primitives} (leaves : list bytes) (m : nat) :
  (0 < m)%nat → (m < length leaves)%nat →
  evaluate_consistency_proof (N.of_nat m) (N.of_nat (length leaves)) (mth (take m leaves))
    (rfc_proof (length leaves) leaves m true) = Ok (mth (take m leaves), mth leaves).
Proof.
  intros Hm Hl. rewrite evaluate_rfc by done. by rewrite rfc_proof_eval by (done || lia).
Qed.

Lemma rfc_count_one (J fuel : nat) : (2 ^ J ≤ fuel)%nat → rfc_count fuel 1 (2 ^ J) true = J.
Proof.
  revert fuel. induction J as [|J IH]; intros fuel Hf.
  - by destruct fuel.
  - pose proof (Nat.pow_nonzero 2 J ltac:(done)). rewrite Nat.pow_succ_r' in *.
    destruct fuel as [|fuel]; [lia|]. cbn [rfc_count].
    rewrite (proj2 (Nat.eqb_neq 1 (2 * 2 ^ J))) by lia.
    assert (rfc_split (2 * 2 ^ J) = 2 ^ J)%nat as -> by (apply rfc_split_unique; lia).
    rewrite (proj2 (Nat.leb_le 1 (2 ^ J))) by lia. f_equal. apply IH. lia.
Qed.

Lemma length_rfc_proof `{P : Primitives} (fuel : nat) (l : list bytes) (m : nat) (known : bool) :
  (0 < m)%nat → (m ≤ length l)%nat → (length l ≤ fuel)%nat →
  length (rfc_proof fuel l m known) = rfc_count fuel m (length l) known.
Proof.
  intros Hm Hl Hf. rewrite <- length_rev.
  apply (rfc_eval_count fuel m (length l) known (mth (take m l)) (rev (rfc_proof fuel l m known)));
    [done..|]. rewrite rfc_proof_eval by done. eauto.
Qed.

Lemma build_consistency_perfect `{P : Primitives} (J : nat) (leaves : list bytes) (m : nat) :
  (J ≤ 63)%nat → length leaves = (2 ^ J)%nat → (0 < m)%nat → (m < 2 ^ J)%nat →
  build_consistency_proof leaves m =
    Some (mkConsistency (N.of_nat m) (N.of_nat (length leaves))
            (rfc_proof (length leaves) leaves m true)).
Proof.
  intros HJ Hl Hm HmJ. unfold build_consistency_proof.
  rewrite (proj2 (Nat.eqb_neq m 0)), (proj2 (Nat.ltb_ge _ m)), (proj2 (Nat.eqb_neq (length _) 0)),
    (proj2 (Nat.eqb_neq m _)) by lia. cbn [orb].
  by rewrite (build_inner_perfect J) by (done || lia).
Qed.

Lemma build_consistency_from_one `{P : Primitives} (J : nat) (leaves : list bytes) :
  (J ≤ 61)%nat → (2 ^ S J < length leaves)%nat → (length leaves < 2 ^ S (S J))%nat →
  ∃ hashes, length hashes = S J ∧
    build_consistency_proof leaves 1 = Some (mkConsistency 1 (N.of_nat (length leaves)) hashes).
Proof.
  intros HJ Hlo Hhi. pose proof (Nat.pow_nonzero 2 J ltac:(done)).
  rewrite !Nat.pow_succ_r' in *. unfold build_consistency_proof.
  rewrite (proj2 (Nat.ltb_ge _ 1)), (proj2 (Nat.eqb_neq (length _) 0)),
    (proj2 (Nat.eqb_neq 1 (length _))) by lia. cbn [orb Nat.eqb].
  rewrite build_inner_unfold, (proj2 (Nat.eqb_neq 1 _)) by lia.
  destruct (length leaves) as [|n] eqn:En; [lia|]. cbv zeta.
  assert (largest_power_of_two_less_than (S n) = 2 ^ J)%nat as ->.
  { unfold largest_power_of_two_less_than, leading_zeros.
    assert (N.size (N.of_nat (S n)) = N.of_nat (S (S J))) as ->.
    { rewrite N.size_log2, (N.log2_unique _ (N.of_nat (S J))); [lia..| |lia].
      rewrite N.pow_succ_r', pow2_S, <- pow2_of_nat. lia. }
    rewrite N.shiftl_1_l. replace (64 - (64 - N.of_nat (S (S J))) - 2) with (N.of_nat J) by lia.
    by rewrite <- pow2_of_nat, Nat2N.id. }
  rewrite (proj2 (Nat.leb_le 1 (2 ^ J))) by lia.
  rewrite (build_inner_perfect J) by (rewrite ?length_take; lia). cbn [app mbind option_bind].
  rewrite build_tree_root_mth by (intros Hx%(f_equal length); rewrite length_drop in Hx; simpl in Hx; lia).
  eexists. split; [|done]. rewrite length_app, length_rfc_proof by (rewrite ?length_take; lia).
  rewrite length_take_le, rfc_count_one by lia. simpl. lia.
Qed.

(** The verifier accepts every honest proof of growth: for every log and
    every earlier size, two signed heads with the roots of the log and of its
    prefix, in epoch order, are accepted with the RFC 6962 proof. *)
Theorem consistency_complete (P : Primitives) (V : Ed25519) (pk : ed_key) (leaves : list bytes) (m : nat)
    (old_sth new_sth : SignedTreeHead) :
  (0 < m)%nat → (m < length leaves)%nat →
  SignedTreeHead_verify old_sth pk = Ok tt → SignedTreeHead_verify new_sth pk = Ok tt →
  sth_epoch old_sth ≤ sth_epoch new_sth →
  sth_tree_size old_sth = N.of_nat m → sth_tree_size new_sth = N.of_nat (length leaves) →
  build_tree_root (take m leaves) = Some (sth_root_hash old_sth) →
  build_tree_root leaves = Some (sth_root_hash new_sth) →
  verify_consistency_proof old_sth new_sth
    (mkConsistency (N.of_nat m) (N.of_nat (length leaves))
       (rfc_proof (length leaves) leaves m true)) pk = Ok tt.
Proof.
  intros Hm Hl Ho Hn He Hs1 Hs2 Hr1 Hr2.
  rewrite build_tree_root_mth in Hr1 by (intros Hx%(f_equal length); rewrite length_take in Hx; simpl in Hx; lia).
  rewrite build_tree_root_mth in Hr2 by (intros ->; simpl in Hl; lia).
  injection Hr1 as Hr1. injection Hr2 as Hr2.
  apply verify_growing; rewrite ?Hs1, ?Hs2; try done; [lia|].
  rewrite <- Hr1, <- Hr2. by apply evaluate_rfc_proof.
Qed.

(** The proofs the server builds are those of RFC 6962 whenever the new
    log has a power of two of entries, for every earlier size, so that by the
    verifier's completeness clients accept them. *)
Theorem consistency_builder_perfect (P : Primitives) (V : Ed25519) (pk : ed_key) (J : nat)
    (leaves : list bytes) (m : nat) (old_sth new_sth : SignedTreeHead) :
  (J ≤ 63)%nat → length leaves = (2 ^ J)%nat → (0 < m)%nat → (m < 2 ^ J)%nat →
  SignedTreeHead_verify old_sth pk = Ok tt → SignedTreeHead_verify new_sth pk = Ok tt →
  sth_epoch old_sth ≤ sth_epoch new_sth →
  sth_tree_size old_sth = N.of_nat m → sth_tree_size new_sth = N.of_nat (length leaves) →
  sth_root_hash old_sth = mth (take m leaves) → sth_root_hash new_sth = mth leaves →
  ∃ proof, build_consistency_proof leaves m = Some proof ∧
    verify_consistency_proof old_sth new_sth proof pk = Ok tt.
Proof.
  intros HJ Hl Hm HmJ Ho Hn He Hs1 Hs2 Hr1 Hr2. rewrite (build_consistency_perfect J) by done.
  eexists. split; [done|]. apply verify_growing; rewrite ?Hs1, ?Hs2; try done; [lia|].
  rewrite Hr1, Hr2. apply evaluate_rfc_proof; lia.
Qed.


(** What an accepted check says: the sizes and roots of the two heads are equal,
    or the proof evaluates to both roots. *)
Lemma verify_consistency_inv `{P : Primitives} `{V : Ed25519} (pk : ed_key) (old_sth new_sth : SignedTreeHead)
    (proof : ConsistencyProof) :
  verify_consistency_proof old_sth new_sth proof pk = Ok tt →
  (sth_tree_size old_sth = sth_tree_size new_sth ∧ sth_root_hash old_sth = sth_root_hash new_sth) ∨
  (sth_tree_size old_sth < sth_tree_size new_sth ∧
   evaluate_consistency_proof (sth_tree_size old_sth) (sth_tree_size new_sth)
     (sth_root_hash old_sth) (cp_proof_hashes proof) =
     Ok (sth_root_hash old_sth, sth_root_hash new_sth)).
Proof.
  unfold verify_consistency_proof. intros H.
  destruct (SignedTreeHead_verify old_sth pk); [|done]. destruct (SignedTreeHead_verify new_sth pk); [|done].
  destruct (sth_epoch new_sth <? sth_epoch old_sth); [done|].
  destruct (sth_tree_size new_sth <? sth_tree_size old_sth) eqn:Es; [done|].
  destruct (negb _ || negb _); [done|].
  destruct (sth_tree_size old_sth =? sth_tree_size new_sth) eqn:Ee.
  - left. destruct (bool_decide _) eqn:Er; [|done]. by bool_to_prop.
  - right. destruct (evaluate_consistency_proof _ _ _ _) as [[o n]|] eqn:Ev; [|done].
    destruct (bool_decide (o = _)) eqn:E1; [|done]. simpl in H.
    destruct (bool_decide (n = _)) eqn:E2; [|done]. bool_to_prop. subst. split; [lia|done].
Qed.

Lemma leaf_hashes_inj `{P : Primitives} (Q : list bytes) (a b : list TransparencyLeaf) :
  collision_free Q → leaf_preimage <$> a ⊆ Q → leaf_preimage <$> b ⊆ Q →
  Forall leaf_wf a → Forall leaf_wf b →
  TransparencyLeaf_hash <$> a = TransparencyLeaf_hash <$> b → a = b.
Proof.
  intros HQ. revert b. induction a as [|x a IH]; intros [|y b] Ha Hb Fa Fb E; try done.
  apply list_subseteq_cons_iff in Ha as [Hx Ha]. apply list_subseteq_cons_iff in Hb as [Hy Hb].
  apply Forall_cons_1 in Fa as [Fx Fa]. apply Forall_cons_1 in Fb as [Fy Fb].
  injection E as E1 E2. apply HQ, leaf_preimage_inj in E1 as ->; try done. f_equal. by apply IH.
Qed.

(** The same on leaf hashes. *)
Lemma verify_prefix_hashes `{P : Primitives} `{!PrimitiveLaws P} `{V : Ed25519} (pk : ed_key) (Q : list bytes)
    (ho hn : list bytes) (old_sth new_sth : SignedTreeHead) (proof : ConsistencyProof) :
  let m := length ho in
  let n := length hn in
  collision_free Q → ho ≠ [] →
  Forall (λ h, length h = 32%nat) ho → Forall (λ h, length h = 32%nat) hn →
  Forall (λ h, length h = 32%nat) (cp_proof_hashes proof) →
  mth_inputs ho ⊆ Q → mth_inputs hn ⊆ Q →
  rfc_inputs n m n true (sth_root_hash old_sth) (rev (cp_proof_hashes proof)) ⊆ Q →
  sth_root_hash old_sth = mth ho → sth_root_hash new_sth = mth hn →
  sth_tree_size old_sth = N.of_nat m → sth_tree_size new_sth = N.of_nat n →
  verify_consistency_proof old_sth new_sth proof pk = Ok tt →
  take m hn = ho.
Proof.
  intros m n HQ Hne Fo Fn Fh Q3 Q4 Q5 Hr1 Hr2 Hs1 Hs2 Hv.
  assert (Hpos : (0 < m)%nat) by (subst m; destruct ho; [done|simpl; lia]).
  apply verify_consistency_inv in Hv as [[Es Er]|[Es Ev]].
  - assert (Hmn : m = n) by lia. rewrite Hmn. unfold n. rewrite firstn_all. symmetry.
    apply (mth_inj Q); done || congruence.
  - rewrite Hs1, Hs2, evaluate_rfc in Ev by lia.
    destruct (rfc_eval n m n true _ _) as [r|] eqn:Er; [|done]. injection Ev as ->.
    apply (rfc_eval_sound Q n m true (sth_root_hash old_sth) (rev (cp_proof_hashes proof)));
      try done; try lia; [|by apply List.Forall_rev|by rewrite <- Hr1, <- Hr2].
    rewrite Hr1. by apply length_mth.
Qed.

(** C5: consistency proofs are sound: whatever hashes a server sends, if the
    client accepts the step from an old signed head to a new one, and the heads
    carry the sizes and roots of two logs, then the old log is a prefix of the
    new one, entry by entry; nothing was rewritten or dropped. As for
    inclusion, the hash is only assumed not to collide on the strings hashed. *)
Theorem consistency_sound (P : Primitives) (L : PrimitiveLaws P) (V : Ed25519) (pk : ed_key)
    (old_log new_log : list TransparencyLeaf) (old_sth new_sth : SignedTreeHead)
    (proof : ConsistencyProof) :
  let m := length old_log in
  let n := length new_log in
  build_tree_root (TransparencyLeaf_hash <$> old_log) = Some (sth_root_hash old_sth) →
  build_tree_root (TransparencyLeaf_hash <$> new_log) = Some (sth_root_hash new_sth) →
  sth_tree_size old_sth = N.of_nat m → sth_tree_size new_sth = N.of_nat n →
  Forall leaf_wf old_log → Forall leaf_wf new_log →
  Forall (λ h, length h = 32%nat) (cp_proof_hashes proof) →
  collision_free ((leaf_preimage <$> old_log) ++ (leaf_preimage <$> new_log) ++
    mth_inputs (TransparencyLeaf_hash <$> old_log) ++ mth_inputs (TransparencyLeaf_hash <$> new_log) ++
    rfc_inputs n m n true (sth_root_hash old_sth) (rev (cp_proof_hashes proof))) →
  verify_consistency_proof old_sth new_sth proof pk = Ok tt →
  old_log `prefix_of` new_log.
Proof.
  intros m n Hr1 Hr2 Hs1 Hs2 W1 W2 Fh HQ Hv.
  set (Q := _ ++ _) in HQ.
  assert (Hne : old_log ≠ []) by (by intros ->).
  rewrite build_tree_root_mth in Hr1 by (by intros ?%fmap_nil_inv).
  rewrite build_tree_root_mth in Hr2 by (by intros Hx; rewrite Hx in Hr2).
  injection Hr1 as Hr1. injection Hr2 as Hr2.
  assert (F : ∀ l, Forall (λ h, length h = 32%nat) (TransparencyLeaf_hash <$> l))
    by (intros l; apply list.Forall_fmap, Forall_true; intros; apply sha256_length).
  assert (HQ2 : leaf_preimage <$> new_log ⊆ Q) by (unfold Q; set_solver).
  assert (Hpre : take m (TransparencyLeaf_hash <$> new_log) = TransparencyLeaf_hash <$> old_log).
  { subst m n. rewrite <- (length_fmap TransparencyLeaf_hash old_log).
    apply (verify_prefix_hashes pk Q) with old_sth new_sth proof; rewrite ?length_fmap; try done;
      [by intros ?%fmap_nil_inv|unfold Q; set_solver..]. }
  exists (drop m new_log). rewrite <- (take_drop m new_log) at 1. f_equal.
  apply (leaf_hashes_inj Q); try done; [|unfold Q; set_solver|by apply Forall_take|by rewrite fmap_take].
  rewrite fmap_take. by etrans; [apply subseteq_take|].
Qed.

(** ** The sample log grows *)

Definition sample_log4 : list TransparencyLeaf := sample_log ++ [sample_leaf "carol" 1].

Lemma consistency_complete_witness :
  let leaves := TransparencyLeaf_hash <$> sample_log in
  verify_consistency_proof (sample_sth (take 2 leaves) 2) (sample_sth leaves 3)
    (mkConsistency (N.of_nat 2) (N.of_nat (length leaves)) (rfc_proof (length leaves) leaves 2 true))
    toy_server = Ok tt.
Proof.
  intros leaves.
  apply (consistency_complete Toy ToyEd toy_server leaves 2 (sample_sth (take 2 leaves) 2) (sample_sth leaves 3)).
  - apply Nat.ltb_lt. reflexivity.
  - apply Nat.ltb_lt. reflexivity.
  - vm_compute. reflexivity.
  - vm_compute. reflexivity.
  - discriminate.
  - reflexivity.
  - reflexivity.
  - vm_compute. reflexivity.
  - vm_compute. reflexivity.
Defined.

Lemma consistency_builder_perfect_witness :
  let leaves := TransparencyLeaf_hash <$> sample_log4 in
  ∃ proof, build_consistency_proof leaves 3 = Some proof ∧
    verify_consistency_proof (sample_sth (take 3 leaves) 3) (sample_sth leaves 4) proof toy_server = Ok tt.
Proof.
  intros leaves.
  apply (consistency_builder_perfect Toy ToyEd toy_server 2 leaves 3 (sample_sth (take 3 leaves) 3)
    (sample_sth leaves 4)).
  - apply Nat.leb_le. reflexivity.
  - reflexivity.
  - apply Nat.ltb_lt. reflexivity.
  - apply Nat.ltb_lt. reflexivity.
  - vm_compute. reflexivity.
  - vm_compute. reflexivity.
  - discriminate.
  - reflexivity.
  - reflexivity.
  - vm_compute. reflexivity.
  - vm_compute. reflexivity.
Defined.


Lemma consistency_sound_witness :
  let old_sth := sample_sth (TransparencyLeaf_hash <$> take 2 sample_log) 2 in
  let new_sth := sample_sth (TransparencyLeaf_hash <$> sample_log) 3 in
  ∃ proof, verify_consistency_proof old_sth new_sth proof toy_server = Ok tt ∧
    take 2 sample_log `prefix_of` sample_log.
Proof.
  set (old_sth := sample_sth (TransparencyLeaf_hash <$> take 2 sample_log) 2).
  set (new_sth := sample_sth (TransparencyLeaf_hash <$> sample_log) 3).
  set (proof := mkConsistency 2 3 [TransparencyLeaf_hash (sample_leaf "alice" 2)]).
  exists proof.
  assert (Hv : verify_consistency_proof old_sth new_sth proof toy_server = Ok tt)
    by (vm_compute; reflexivity).
  split; [exact Hv|].
  apply (consistency_sound Toy ToyLaws ToyEd toy_server (take 2 sample_log) sample_log old_sth new_sth proof).
  - vm_compute. reflexivity.
  - vm_compute. reflexivity.
  - reflexivity.
  - reflexivity.
  - repeat constructor; try (intros k [= <-]); vm_compute; discriminate.
  - repeat constructor; try (intros k [= <-]); vm_compute; discriminate.
  - repeat constructor; reflexivity.
  - apply collision_free_check. apply (bool_decide_unpack _). vm_compute. exact I.
  - exact Hv.
Defined.
