(* ===== verification/SafetyNumber.v ===== *)
(** * Safety numbers ([pqmsg-core/src/safety_number.rs])

    The sixty-digit code two people compare, and the payload of the QR code:
    iterated fingerprints of both parties in the order of their user ids. *)

From Stdlib Require Import Strings.Byte.
From S2P Require Import Prelude Bytes Errors Crypto Toy.
Local Open Scope N_scope.

Definition FINGERPRINT_VERSION : bytes := [x00; x01].
Definition HASH_ITERATIONS : N := 5200.

(** One party's data: user id, X25519 key, ML-DSA key. *)
Record Party := mkParty { p_user_id : bytes; p_x25519 : bytes; p_ml_dsa : bytes }.

(** The canonical order of the two parties. *)
Definition party_order (a b : Party) : Party * Party :=
  if str_leb (p_user_id a) (p_user_id b) then (a, b) else (b, a).

(** [chunks_exact(5)]: a shorter remainder is dropped. *)
Fixpoint chunks5 (data : bytes) : list bytes :=
  match data with
  | a :: b :: c :: d :: e :: rest => [a; b; c; d; e] :: chunks5 rest
  | _ => []
  end.

Definition ascii_digit (n : N) : byte := byte_of_N (48 + n mod 10).

(** [format!("{group:05}")] for a group below 100000. *)
Definition five_digits (g : N) : bytes :=
  [ascii_digit (g / 10000); ascii_digit (g / 1000); ascii_digit (g / 100);
   ascii_digit (g / 10); ascii_digit g].

(** [val = (val << 8) | b] over a chunk, then [% 100_000]. *)
Definition chunk_group (chunk : bytes) : N :=
  foldl (λ val b, N.lor (N.shiftl val 8) (Byte.to_N b)) 0 chunk mod 100000.

Fixpoint join_groups (first : bool) (gs : list N) : bytes :=
  match gs with
  | [] => []
  | g :: gs => (if first then [] else lit " ") ++ five_digits g ++ join_groups false gs
  end.

Definition encode_numeric (data : bytes) : bytes :=
  join_groups true (chunk_group <$> chunks5 data).

Section Safety.
Context `{P : Primitives}.

Definition fingerprint_seed (p : Party) : bytes :=
  FINGERPRINT_VERSION ++ p_user_id p ++ p_x25519 p ++ p_ml_dsa p.

(** The string hashed by one more iteration. *)
Definition fingerprint_input (hash : bytes) (p : Party) : bytes := hash ++ p_x25519 p ++ p_ml_dsa p.

(** The hash after the seed and [n] more iterations. *)
Fixpoint fingerprint_loop (n : nat) (p : Party) : bytes :=
  match n with
  | O => sha256 (fingerprint_seed p)
  | S n => sha256 (fingerprint_input (fingerprint_loop n p) p)
  end.

Definition iterated_fingerprint (p : Party) : bytes :=
  fingerprint_loop (N.to_nat (HASH_ITERATIONS - 1)) p.

Definition compute_safety_number (a b : Party) : bytes :=
  let '(first, second) := party_order a b in
  encode_numeric (take 30 (iterated_fingerprint first) ++ take 30 (iterated_fingerprint second)).

Definition safety_number_qr_payload (a b : Party) : bytes :=
  let '(first, second) := party_order a b in
  FINGERPRINT_VERSION ++ iterated_fingerprint first ++ iterated_fingerprint second.
End Safety.

(** ** The order of the parties *)

Lemma party_order_sym (a b : Party) :
  p_user_id a ≠ p_user_id b ∨ a = b → party_order a b = party_order b a.
Proof.
  intros [Hne| ->]; [|done]. unfold party_order.
  destruct (str_leb (p_user_id a) (p_user_id b)) eqn:E1,
    (str_leb (p_user_id b) (p_user_id a)) eqn:E2; try done.
  - exfalso. apply Hne. by apply str_leb_antisym.
  - apply str_leb_total in E1. congruence.
Qed.

(** ** The digits *)

Definition is_digit (b : byte) : Prop := 48 ≤ Byte.to_N b ∧ Byte.to_N b ≤ 57.

Lemma to_N_ascii_digit (n : N) : Byte.to_N (ascii_digit n) = 48 + n mod 10.
Proof.
  unfold ascii_digit. rewrite to_of_byte. apply N.mod_small.
  pose proof (N.mod_lt n 10 ltac:(done)). lia.
Qed.

(** A code of [n] groups has six characters per group but for the first space,
    the last of each six being the separator. *)
Definition code_char (i : nat) (c : byte) : Prop :=
  if (i mod 6 =? 5)%nat then c = x20 else is_digit c.

Lemma five_digits_chars (g : N) (i : nat) (c : byte) : five_digits g !! i = Some c → is_digit c.
Proof.
  assert (D : ∀ n, is_digit (ascii_digit n)).
  { intros n. unfold is_digit. rewrite to_N_ascii_digit.
    pose proof (N.mod_lt n 10 ltac:(done)). revert H. generalize (n mod 10). intros m Hm. lia. }
  unfold five_digits. do 5 (destruct i as [|i]; [intros [= <-]; apply D|]). done.
Qed.

Lemma length_join_groups (gs : list N) :
  length (join_groups false gs) = (6 * length gs)%nat.
Proof. induction gs as [|g gs IH]; [done|]. simpl. rewrite IH. lia. Qed.

Lemma join_groups_chars (gs : list N) (i : nat) (c : byte) :
  join_groups false gs !! i = Some c → code_char (i + 5) c.
Proof.
  revert i. induction gs as [|g gs IH]; intros i H; [done|].
  change (join_groups false (g :: gs)) with (x20 :: five_digits g ++ join_groups false gs) in H.
  destruct i as [|i]; [by injection H as <-|]. rewrite lookup_cons_ne_0 in H by done. simpl pred in H.
  destruct (decide (i < 5)%nat) as [Hi|Hi].
  - rewrite lookup_app_l in H by (simpl; lia). apply five_digits_chars in H. unfold code_char.
    replace ((S i + 5) mod 6)%nat with i; [by rewrite (proj2 (Nat.eqb_neq i 5)) by lia|].
    apply (Nat.mod_unique _ _ 1); lia.
  - rewrite lookup_app_r in H by (simpl; lia). simpl length in H.
    replace (S i + 5)%nat with ((i - 5) + 5 + 1 * 6)%nat by lia. unfold code_char.
    rewrite Nat.Div0.mod_add. by apply IH.
Qed.

Lemma join_groups_first (gs : list N) (i : nat) (c : byte) :
  join_groups true gs !! i = Some c → code_char i c.
Proof.
  destruct gs as [|g gs]; [done|]. cbn [join_groups app]. intros H.
  destruct (decide (i < 5)%nat) as [Hi|Hi].
  - rewrite lookup_app_l in H by (simpl; lia). apply five_digits_chars in H. unfold code_char.
    rewrite Nat.mod_small by lia. by rewrite (proj2 (Nat.eqb_neq i 5)) by lia.
  - rewrite lookup_app_r in H by (simpl; lia). simpl length in H.
    replace i with (i - 5 + 5)%nat by lia. by apply join_groups_chars in H.
Qed.

Lemma length_chunks5 (n : nat) (data : bytes) :
  length data = (5 * n)%nat → length (chunks5 data) = n.
Proof.
  revert data. induction n as [|n IH]; intros data H; [by destruct data|].
  do 5 (destruct data as [|? data]; [simpl in H; lia|]). simpl in *. f_equal. apply IH. lia.
Qed.

(** ** What a fingerprint binds *)

Section Binding.
Context `{P : Primitives} `{!PrimitiveLaws P}.

(** No two strings hashed at the same step of the two computations collide. *)
Definition steps_collision_free (p q : Party) : Prop :=
  (sha256 (fingerprint_seed p) = sha256 (fingerprint_seed q) →
     fingerprint_seed p = fingerprint_seed q) ∧
  ∀ n, (n < N.to_nat (HASH_ITERATIONS - 1))%nat →
    let i := fingerprint_input (fingerprint_loop n p) p in
    let j := fingerprint_input (fingerprint_loop n q) q in
    sha256 i = sha256 j → i = j.

Lemma length_fingerprint_loop (n : nat) (p : Party) : length (fingerprint_loop n p) = 32%nat.
Proof. destruct n; apply sha256_length. Qed.

Lemma fingerprint_loop_down (n : nat) (p q : Party) :
  steps_collision_free p q → (n < N.to_nat (HASH_ITERATIONS - 1))%nat →
  fingerprint_loop (S n) p = fingerprint_loop (S n) q →
  fingerprint_loop n p = fingerprint_loop n q ∧ p_x25519 p ++ p_ml_dsa p = p_x25519 q ++ p_ml_dsa q.
Proof.
  intros [_ H] Hn E%H; [|done]. apply app_inj_len in E; [done|]. by rewrite !length_fingerprint_loop.
Qed.

Lemma fingerprint_seed_eq (n : nat) (p q : Party) :
  steps_collision_free p q → (n ≤ N.to_nat (HASH_ITERATIONS - 1))%nat →
  fingerprint_loop n p = fingerprint_loop n q → fingerprint_seed p = fingerprint_seed q.
Proof.
  intros Hc. induction n as [|n IH]; intros Hn E; [by apply (proj1 Hc)|].
  apply IH; [lia|]. apply fingerprint_loop_down in E as [E _]; [done..|lia].
Qed.

Lemma iterated_fingerprint_inj (p q : Party) :
  steps_collision_free p q → length (p_x25519 p) = 32%nat → length (p_x25519 q) = 32%nat →
  iterated_fingerprint p = iterated_fingerprint q → p = q.
Proof.
  intros Hc Hp Hq E. unfold iterated_fingerprint in E.
  pose proof (fingerprint_seed_eq _ p q Hc (le_n _) E) as Es.
  assert (Hn : N.to_nat (HASH_ITERATIONS - 1) = S (N.to_nat (HASH_ITERATIONS - 2)))
    by (rewrite <- N2Nat.inj_succ; reflexivity).
  rewrite Hn in E. apply fingerprint_loop_down in E as [_ Ek]; [|done|lia].
  apply app_inj_len in Ek as [Ex Em]; [|by rewrite Hp].
  unfold fingerprint_seed in Es. apply app_inv_head in Es. rewrite Ex, Em in Es.
  apply app_inv_tail in Es. destruct p, q. simpl in *. by subst.
Qed.
End Binding.

(** Both people compute the same code, whoever of them starts: for two
    parties with different user ids the safety number and the QR payload do
    not depend on the order of the arguments. *)
Theorem safety_number_symmetric (P : Primitives) (a b : Party) :
  p_user_id a ≠ p_user_id b →
  compute_safety_number a b = compute_safety_number b a ∧
  safety_number_qr_payload a b = safety_number_qr_payload b a.
Proof.
  intros H. unfold compute_safety_number, safety_number_qr_payload.
  by rewrite (party_order_sym a b) by (by left).
Qed.

Lemma safety_number_symmetric_witness :
  let alice := mkParty (lit "alice") (replicate 32 x01) (lit "pqa") in
  let bob := mkParty (lit "bob") (replicate 32 x02) (lit "pqb") in
  compute_safety_number alice bob = compute_safety_number bob alice ∧
  safety_number_qr_payload alice bob = safety_number_qr_payload bob alice.
Proof. intros alice bob. apply (safety_number_symmetric Toy alice bob). discriminate. Defined.

(** The code has the advertised shape for every pair of parties: seventy-one
    characters, a space after every fifth digit, sixty decimal digits. *)
Theorem safety_number_format (P : Primitives) (L : PrimitiveLaws P) (a b : Party) :
  length (compute_safety_number a b) = 71%nat ∧
  ∀ i c, compute_safety_number a b !! i = Some c →
    if (i mod 6 =? 5)%nat then c = x20 else 48 ≤ Byte.to_N c ∧ Byte.to_N c ≤ 57.
Proof.
  unfold compute_safety_number. destruct (party_order a b) as [p q]. unfold encode_numeric.
  assert (Hl : length (chunk_group <$>
    chunks5 (take 30 (iterated_fingerprint p) ++ take 30 (iterated_fingerprint q))) = 12%nat).
  { rewrite length_fmap. apply length_chunks5. unfold iterated_fingerprint.
    by rewrite length_app, !length_take, !length_fingerprint_loop. }
  split; [|intros i c; apply join_groups_first].
  destruct (chunk_group <$> _) as [|g gs]; [done|]. simpl in Hl |- *. rewrite length_join_groups. lia.
Qed.

Lemma safety_number_format_witness :
  let alice := mkParty (lit "alice") (replicate 32 x01) (lit "pqa") in
  let bob := mkParty (lit "bob") (replicate 32 x02) (lit "pqb") in
  length (compute_safety_number alice bob) = 71%nat.
Proof. intros alice bob. apply (safety_number_format Toy ToyLaws alice bob). Defined.

(** A QR payload determines both parties: when two pairs have the same
    payload, the ordered pairs have the same user ids, X25519 keys and ML-DSA
    keys, although the seed hash concatenates the id and the keys without
    length prefixes. The hash is assumed not to collide on the strings the two
    computations hash at the same step. *)
Theorem qr_payload_binds (P : Primitives) (L : PrimitiveLaws P) (a b c d : Party) :
  Forall (λ p, length (p_x25519 p) = 32%nat) [a; b; c; d] →
  steps_collision_free (party_order a b).1 (party_order c d).1 →
  steps_collision_free (party_order a b).2 (party_order c d).2 →
  safety_number_qr_payload a b = safety_number_qr_payload c d →
  party_order a b = party_order c d.
Proof.
  rewrite !list.Forall_cons. intros (Ha & Hb & Hc & Hd & _) C1 C2.
  unfold safety_number_qr_payload.
  assert (∀ p q, length (p_x25519 p) = 32%nat → length (p_x25519 q) = 32%nat →
    length (p_x25519 (party_order p q).1) = 32%nat ∧ length (p_x25519 (party_order p q).2) = 32%nat)
    as Ho by (intros p q; unfold party_order; by destruct (str_leb _ _)).
  destruct (Ho a b Ha Hb) as [H1 H2], (Ho c d Hc Hd) as [H3 H4].
  destruct (party_order a b) as [p q], (party_order c d) as [r s]. cbn [fst snd] in *.
  intros E%app_inv_head. apply app_inj_len in E as [E1 E2].
  - by apply iterated_fingerprint_inj in E1 as ->; [apply iterated_fingerprint_inj in E2 as ->|..].
  - unfold iterated_fingerprint. by rewrite !length_fingerprint_loop.
Qed.

Lemma qr_payload_binds_witness :
  let alice := mkParty (lit "alice") (replicate 32 x01) (lit "pqa") in
  let bob := mkParty (lit "bob") (replicate 32 x02) (lit "pqb") in
  party_order alice bob = party_order bob alice.
Proof.
  intros alice bob. apply (qr_payload_binds Toy ToyLaws alice bob bob alice).
  - repeat constructor.
  - split; [done|]. intros n _ i j _. reflexivity.
  - split; [done|]. intros n _ i j _. reflexivity.
  - apply (f_equal (λ pq, let '(f, s) := pq in
      FINGERPRINT_VERSION ++ @iterated_fingerprint Toy f ++ @iterated_fingerprint Toy s)
      (eq_refl : party_order alice bob = party_order bob alice)).
Defined.
