(* ===== verification/PqSig.v ===== *)
(** * Hybrid signatures ([pqmsg-core/src/pq_sig.rs])

    The ML-DSA-65 backends are third-party code behind [PqSignatureProvider];
    modelled here are the trait and the encoding of a hybrid signature, an
    Ed25519 signature followed by a post-quantum one. *)

From Stdlib Require Import Strings.Byte.
From S2P Require Import Prelude Bytes Errors Crypto Toy.

Record PqSigKeyPair := { pqs_public_key : bytes; pqs_secret_key : bytes }.

Record PqSignatureProvider `{P : Primitives} := {
  pqs_keypair : rng → res PqSigKeyPair * rng;
  pqs_sign : bytes → bytes → rng → res bytes * rng;
  pqs_verify : bytes → bytes → bytes → res unit;
}.

(** What the core expects of a provider: signing with the secret key of a pair
    succeeds, the signature verifies under the public key and is not empty, and
    a generated pair is one. *)
Class PqSigLaws `{P : Primitives} (Q : PqSignatureProvider) := {
  pqs_pair : bytes → bytes → Prop;
  pqs_sign_defined : ∀ pk sk m g, pqs_pair pk sk → ∃ s g', pqs_sign Q sk m g = (Ok s, g');
  pqs_correct : ∀ pk sk m s g g', pqs_pair pk sk → pqs_sign Q sk m g = (Ok s, g') →
    pqs_verify Q pk m s = Ok tt ∧ s ≠ [];
  pqs_keypair_pair : ∀ g kp g', pqs_keypair Q g = (Ok kp, g') → pqs_pair (pqs_public_key kp) (pqs_secret_key kp);
}.

Record HybridSignature := mkHybrid { ed25519_sig : bytes; pq_sig : bytes }.

Definition HybridSignature_encode (h : HybridSignature) : bytes := ed25519_sig h ++ pq_sig h.

Definition HybridSignature_decode (input : bytes) : res HybridSignature :=
  if length input <=? 64 then Err (InvalidLength "hybrid_signature" 65 (len input))
  else Ok (mkHybrid (take 64 input) (drop 64 input)).

Lemma hybrid_decode_encode (e p : bytes) :
  length e = 64 → p ≠ [] →
  HybridSignature_decode (HybridSignature_encode (mkHybrid e p)) = Ok (mkHybrid e p).
Proof.
  intros He Hp. unfold HybridSignature_decode, HybridSignature_encode. simpl.
  assert (0 < length p) by (destruct p; [done|simpl; lia]).
  rewrite length_app, (proj2 (Nat.leb_gt _ _)) by lia.
  by rewrite take_app_len, drop_app_len by done.
Qed.

(** A hybrid signature has one reading: octets decode to a pair of signatures
    precisely when the pair encodes to them, the Ed25519 part has 64 octets and
    the post-quantum part is not empty. *)
Lemma hybrid_signature_iff (input : bytes) (h : HybridSignature) :
  HybridSignature_decode input = Ok h ↔
    HybridSignature_encode h = input ∧ length (ed25519_sig h) = 64 ∧ pq_sig h ≠ [].
Proof.
  split.
  - unfold HybridSignature_decode, HybridSignature_encode.
    intros H. destruct (length input <=? 64) eqn:E; [done|]. bool_to_prop. injection H as <-. simpl.
    rewrite take_drop, length_take. split; [done|]. split; [lia|].
    intros Hx%(f_equal length). rewrite length_drop in Hx. simpl in Hx. lia.
  - destruct h as [e p]. intros (<- & He & Hp). by apply hybrid_decode_encode.
Qed.

(** A concrete provider. *)
Definition ToyPqSig : PqSignatureProvider := {|
  pqs_keypair := λ g : @rng Toy, (Ok {| pqs_public_key := [x01]; pqs_secret_key := [x01] |}, g);
  pqs_sign := λ sk m (g : @rng Toy), (Ok (toy_stream 8 (toy_sum (toy_sum 6 sk) m)), g);
  pqs_verify := λ pk m s,
    if bool_decide (s = toy_stream 8 (toy_sum (toy_sum 6 pk) m)) then Ok tt
    else Err SignatureVerificationFailed;
|}.

#[export] Instance ToyPqSigLaws : PqSigLaws ToyPqSig.
Proof.
  apply (Build_PqSigLaws _ ToyPqSig eq); [by intros; eexists _, _| |by intros g kp g' [= <- _]].
  intros pk sk m s g g' <- H.
  cbv [pqs_sign ToyPqSig] in H. apply pair_equal_spec in H as [H _]. apply Ok_inj in H as <-.
  split; [|done]. cbv [pqs_verify ToyPqSig]. by rewrite bool_decide_eq_true_2.
Defined.
