(* ===== verification/Storage.v ===== *)
(** * Passphrase-wrapped secrets ([pqmsg-core/src/storage.rs])

    Secrets at rest are sealed with AES-256-GCM under a key Argon2id derives
    from the passphrase. Argon2id and AES-256-GCM are third-party crates: they are
    the fields of [StorageCrypto], and [StorageLaws] their documented behaviour;
    the base64 engine is the [Base64] of [Crypto]. *)

From Stdlib Require Import Strings.Byte.
From S2P Require Import Prelude Bytes Errors Crypto Toy.
Local Open Scope N_scope.

Definition WRAPPED_KIND : bytes := lit "pqmsg-sealed".
Definition WRAPPED_KDF : bytes := lit "argon2id".
Definition WRAPPED_AEAD : bytes := lit "aes-256-gcm".
Definition STORAGE_AAD : bytes := lit "pqmsg-storage-v1".
Definition WRAPPED_VERSION : N := 1.
Definition WRAPPED_SALT_BYTES : nat := 16.
Definition WRAPPED_NONCE_BYTES : nat := 12.
Definition WRAPPED_KEY_BYTES : nat := 32.

Record Argon2idParams := mkArgon { m_cost_kib : N; t_cost : N; p_cost : N }.

Definition Argon2idParams_default : Argon2idParams := mkArgon 65536 3 1.

Record WrappedSecret := mkWrapped {
  ws_kind : bytes;
  ws_version : N;
  ws_kdf : bytes;
  ws_aead : bytes;
  ws_kdf_params : Argon2idParams;
  ws_salt_b64 : bytes;
  ws_nonce_b64 : bytes;
  ws_ciphertext_b64 : bytes;
}.

Class StorageCrypto := {
  (** [Params::new(m, t, p, Some(n)).is_ok()]. *)
  argon2_params_valid : N → N → N → nat → bool;
  (** [Argon2::hash_password_into]: costs, output length, password, salt. *)
  argon2id : N → N → N → nat → bytes → bytes → option bytes;
  (** [Aes256Gcm::encrypt] and [decrypt]: key, nonce, aad, message. *)
  gcm_seal : bytes → bytes → bytes → bytes → option bytes;
  gcm_open : bytes → bytes → bytes → bytes → option bytes;
}.

Class StorageLaws (C : StorageCrypto) := {
  argon2id_length : ∀ m t p n pw salt k, argon2id m t p n pw salt = Some k → length k = n;
  gcm_open_seal : ∀ k n aad m c, gcm_seal k n aad m = Some c → gcm_open k n aad c = Some m;
  gcm_seal_length : ∀ k n aad m c,
    gcm_seal k n aad m = Some c → length c = (length m + 16)%nat;
}.

Section Storage.
Context `{P : Primitives} `{C : StorageCrypto} `{B : Base64}.

Definition derive_key (passphrase salt : bytes) (params : Argon2idParams) : res bytes :=
  if argon2_params_valid (m_cost_kib params) (t_cost params) (p_cost params) WRAPPED_KEY_BYTES
  then ok_or (argon2id (m_cost_kib params) (t_cost params) (p_cost params) WRAPPED_KEY_BYTES
         passphrase salt) KdfOperation
  else Err KdfOperation.

(** [Aes256Gcm::new_from_slice] accepts exactly keys of 32 octets. *)
Definition aes_gcm_new (key : bytes) : res bytes :=
  if (length key =? 32)%nat then Ok key else Err AeadOperation.

Definition wrap_bytes_with_params (passphrase plaintext : bytes) (params : Argon2idParams) (g : rng)
    : res WrappedSecret * rng :=
  let '(salt, g) := rng_fill WRAPPED_SALT_BYTES g in
  let '(nonce, g) := rng_fill WRAPPED_NONCE_BYTES g in
  (let? key := derive_key passphrase salt params in
   let? cipher := aes_gcm_new key in
   let? ciphertext := ok_or (gcm_seal cipher nonce STORAGE_AAD plaintext) AeadOperation in
   Ok {| ws_kind := WRAPPED_KIND; ws_version := WRAPPED_VERSION; ws_kdf := WRAPPED_KDF;
         ws_aead := WRAPPED_AEAD; ws_kdf_params := params; ws_salt_b64 := b64_encode salt;
         ws_nonce_b64 := b64_encode nonce; ws_ciphertext_b64 := b64_encode ciphertext |}, g).

Definition wrap_bytes (passphrase plaintext : bytes) (g : rng) : res WrappedSecret * rng :=
  wrap_bytes_with_params passphrase plaintext Argon2idParams_default g.

Definition decode_base64_exact (field : string) (value : bytes) (min_len max_len : N) : res bytes :=
  let? decoded := ok_or (b64_decode value) (InvalidStorageBase64 field) in
  if (len decoded <? min_len) || (max_len <? len decoded)
  then Err (InvalidLength field min_len (len decoded))
  else Ok decoded.

Definition MAX_WRAPPED : N := 2 ^ 30.

Definition unwrap_bytes (passphrase : bytes) (wrapped : WrappedSecret) : res bytes :=
  if negb (bool_decide (ws_kind wrapped = WRAPPED_KIND)) then Err (InvalidStorageFormat "kind")
  else if negb (ws_version wrapped =? WRAPPED_VERSION) then Err (InvalidStorageFormat "version")
  else if negb (bool_decide (ws_kdf wrapped = WRAPPED_KDF)) then Err (InvalidStorageFormat "kdf")
  else if negb (bool_decide (ws_aead wrapped = WRAPPED_AEAD)) then Err (InvalidStorageFormat "aead")
  else
    let? salt := decode_base64_exact "salt_b64" (ws_salt_b64 wrapped) 16 16 in
    let? nonce := decode_base64_exact "nonce_b64" (ws_nonce_b64 wrapped) 12 12 in
    let? ciphertext := decode_base64_exact "ciphertext_b64" (ws_ciphertext_b64 wrapped) 16 MAX_WRAPPED in
    let? key := derive_key passphrase salt (ws_kdf_params wrapped) in
    let? cipher := aes_gcm_new key in
    ok_or (gcm_open cipher nonce STORAGE_AAD ciphertext) StorageDecryptionFailed.

Context `{!PrimitiveLaws P} `{!StorageLaws C} `{!Base64Laws B}.

Lemma decode_base64_encoded (field : string) (b : bytes) (lo hi : N) :
  decode_base64_exact field (b64_encode b) lo hi =
    if (len b <? lo) || (hi <? len b) then Err (InvalidLength field lo (len b)) else Ok b.
Proof. unfold decode_base64_exact. by rewrite b64_roundtrip. Qed.

Lemma derive_key_length (pw salt k : bytes) (params : Argon2idParams) :
  derive_key pw salt params = Ok k → aes_gcm_new k = Ok k.
Proof.
  unfold derive_key, aes_gcm_new. destruct (argon2_params_valid _ _ _ _); [|done].
  destruct (argon2id _ _ _ _ _ _) eqn:E; [|done]. intros [= <-].
  by rewrite (argon2id_length _ _ _ _ _ _ _ E).
Qed.
End Storage.

(** A wrapped secret opens again under its passphrase, and under no other
    condition than its size: whatever was wrapped, with any cost parameters, is
    returned when it has at most 2^30 - 16 octets. Wrapping itself has no such
    bound; a longer secret is wrapped without an error and can then never be
    opened, for its ciphertext is refused by length. *)
Theorem storage_roundtrip (P : Primitives) (L : PrimitiveLaws P) (C : StorageCrypto)
    (S : StorageLaws C) (B : Base64) (BL : Base64Laws B) (passphrase plaintext : bytes) (params : Argon2idParams)
    (g g' : rng) (w : WrappedSecret) :
  wrap_bytes_with_params passphrase plaintext params g = (Ok w, g') →
  unwrap_bytes passphrase w =
    if len plaintext + 16 <=? MAX_WRAPPED then Ok plaintext
    else Err (InvalidLength "ciphertext_b64" 16 (len plaintext + 16)).
Proof.
  unfold wrap_bytes_with_params. pose proof (rng_fill_length WRAPPED_SALT_BYTES g) as Hs.
  destruct (rng_fill WRAPPED_SALT_BYTES g) as [salt g1].
  pose proof (rng_fill_length WRAPPED_NONCE_BYTES g1) as Hn.
  destruct (rng_fill WRAPPED_NONCE_BYTES g1) as [nonce g2]. simpl in Hs, Hn.
  destruct (derive_key passphrase salt params) as [k|] eqn:Ek; [|done].
  rewrite (derive_key_length _ _ _ _ Ek).
  destruct (gcm_seal k nonce STORAGE_AAD plaintext) as [c|] eqn:Ec; [|done]. intros [= <- <-].
  unfold unwrap_bytes.
  cbn [ws_kind ws_version ws_kdf ws_aead ws_kdf_params ws_salt_b64 ws_nonce_b64 ws_ciphertext_b64].
  rewrite !bool_decide_eq_true_2 by done. cbn [negb N.eqb WRAPPED_VERSION Pos.eqb].
  assert (Hs' : len salt = 16) by (unfold len; by rewrite Hs).
  assert (Hn' : len nonce = 12) by (unfold len; by rewrite Hn).
  assert (Hc : len c = len plaintext + 16) by (unfold len; rewrite (gcm_seal_length _ _ _ _ _ Ec); lia).
  rewrite !decode_base64_encoded, Hs', Hn', Hc.
  change ((16 <? 16) || (16 <? 16)) with false. change ((12 <? 12) || (12 <? 12)) with false.
  cbv beta iota. rewrite (proj2 (N.ltb_ge (len plaintext + 16) 16)) by lia. cbn [orb].
  rewrite N.ltb_antisym. destruct (len plaintext + 16 <=? MAX_WRAPPED); cbn [negb]; [|done].
  rewrite Ek, (derive_key_length _ _ _ _ Ek). by rewrite (gcm_open_seal _ _ _ _ _ Ec).
Qed.

(** ** A concrete instance *)

#[export] Instance ToyStorage : StorageCrypto := {|
  argon2_params_valid := λ m t p n, (8 * p <=? m) && (1 <=? t);
  argon2id := λ m t p n pw salt, Some (toy_stream n (toy_sum (toy_sum (m + t + p) pw) salt));
  gcm_seal := λ k n aad m, Some (m ++ toy_tag k n aad m);
  gcm_open := λ k n aad c,
    let m := take (length c - 16) c in
    if decide (drop (length c - 16) c = toy_tag k n aad m) then Some m else None;
|}.

#[export] Instance ToyStorageLaws : StorageLaws ToyStorage.
Proof.
  split; cbn [argon2id gcm_seal gcm_open ToyStorage].
  - intros m t p n pw salt k [= <-]. apply length_toy_stream.
  - intros k n aad m c. apply (@chacha_open_seal Toy _ k n aad m c).
  - intros k n aad m c [= <-]. by rewrite length_app, length_toy_tag.
Qed.

Lemma storage_roundtrip_witness :
  ∃ w g', wrap_bytes_with_params (lit "pass") (lit "secret") Argon2idParams_default (0 : @rng Toy) =
    (Ok w, g') ∧ unwrap_bytes (lit "pass") w = Ok (lit "secret").
Proof.
  destruct (wrap_bytes_with_params (lit "pass") (lit "secret") Argon2idParams_default (0 : @rng Toy))
    as [[w|e] g'] eqn:E; [|vm_compute in E; discriminate E].
  exists w, g'. split; [reflexivity|].
  exact (storage_roundtrip Toy ToyLaws ToyStorage ToyStorageLaws ToyBase64 ToyBase64Laws (lit "pass") (lit "secret")
    Argon2idParams_default (0 : @rng Toy) g' w E).
Defined.
