(* ===== verification/Sealed.v ===== *)
(** * Sealed sender ([pqmsg-core/src/sealed.rs])

    Envelopes that hide the sender from the server: the sender's ids and the
    payload are encrypted under a pairwise key; certified envelopes carry the
    sender's identity key encrypted to the recipient and a certificate signed
    by the server. [OsRng] is the threaded generator; a validity end plus the
    clock skew is added modulo 2^64, as a release build does. *)

From Stdlib Require Import Strings.Byte.
From S2P Require Import Prelude Bytes Errors Tlv Crypto Toy Alg Aead Wire.
Local Open Scope N_scope.

Definition SEALED_VERSION : N := 1.
Definition SEALED_CERTIFIED_VERSION : N := 2.
Definition INFO_SEALED_KEY : bytes := lit "pqmsg-sealed-sender-key-v1".
Definition INFO_SEALED_SENDER_HINT_KEY : bytes := lit "pqmsg-sealed-sender-hint-key-v1".
Definition SEALED_AD_TAG_VERSION : N := critical_type 0xA101.
Definition SEALED_AD_TAG_SUITE_ID : N := critical_type 0xA102.
Definition SEALED_AD_TAG_RECIPIENT_USER_ID : N := critical_type 0xA103.
Definition SEALED_AD_TAG_SENDER_HINT_EPHEMERAL_PUB : N := critical_type 0xA104.
Definition OUTER_TAG_VERSION : N := critical_type 0xA201.
Definition OUTER_TAG_SUITE_ID : N := critical_type 0xA202.
Definition OUTER_TAG_RECIPIENT_USER_ID : N := critical_type 0xA203.
Definition OUTER_TAG_AEAD_NONCE : N := critical_type 0xA204.
Definition OUTER_TAG_CIPHERTEXT : N := critical_type 0xA205.
Definition OUTER_TAG_SENDER_HINT_EPHEMERAL_PUB : N := critical_type 0xA206.
Definition OUTER_TAG_SENDER_HINT_NONCE : N := critical_type 0xA207.
Definition OUTER_TAG_SENDER_HINT_CIPHERTEXT : N := critical_type 0xA208.
Definition INNER_TAG_SENDER_USER_ID : N := critical_type 0xA301.
Definition INNER_TAG_SENDER_DEVICE_ID : N := critical_type 0xA302.
Definition INNER_TAG_PAYLOAD : N := critical_type 0xA303.
Definition INNER_TAG_SENDER_CERT : N := critical_type 0xA304.
Definition MAX_ID_LEN : N := 128.
Definition SENDER_CERT_VALIDITY_SECS : N := 86400.
Definition SENDER_CERT_CLOCK_SKEW_SECS : N := 300.
Definition CERT_TAG_SENDER_USER_ID : N := critical_type 0xA401.
Definition CERT_TAG_SENDER_DEVICE_ID : N := critical_type 0xA402.
Definition CERT_TAG_SENDER_IDENTITY_PUB : N := critical_type 0xA403.
Definition CERT_TAG_EXPIRES_AT : N := critical_type 0xA404.
Definition CERT_TAG_SERVER_SIGNATURE : N := critical_type 0xA405.

(** ** Field checks *)

Definition validate_id (field : string) (value : bytes) : res unit :=
  let trimmed := str_trim value in
  if (len trimmed =? 0) || (MAX_ID_LEN <? len trimmed)
  then Err (InvalidLength field MAX_ID_LEN (len trimmed))
  else Ok tt.

Definition decode_id (value : bytes) (field : string) : res bytes :=
  let? text := parse_utf8 value field in
  let? _ := validate_id field text in
  Ok text.

Definition sealed_decode_u16 (value : bytes) : res N := parse_uint 2 value "sealed.u16".
Definition decode_u64 (value : bytes) : res N := parse_uint 8 value "sealed.u64".

(** [u64] addition in a release build. *)
Definition u64_add (a b : N) : N := (a + b) mod 2 ^ 64.

(** ** Sender certificates *)

Record SenderCertificate := {
  sc_sender_user_id : bytes;
  sc_sender_device_id : bytes;
  sc_sender_identity_pub : bytes;
  sc_expires_at : N;
  sc_server_signature : bytes;
}.

Definition cert_body_records (c : SenderCertificate) : list TlvRecord :=
  [ mkTlv CERT_TAG_SENDER_USER_ID (sc_sender_user_id c);
    mkTlv CERT_TAG_SENDER_DEVICE_ID (sc_sender_device_id c);
    mkTlv CERT_TAG_SENDER_IDENTITY_PUB (sc_sender_identity_pub c);
    mkTlv CERT_TAG_EXPIRES_AT (u64_be (sc_expires_at c)) ].

Definition SenderCertificate_records (c : SenderCertificate) : list TlvRecord :=
  cert_body_records c ++ [ mkTlv CERT_TAG_SERVER_SIGNATURE (sc_server_signature c) ].

Definition SenderCertificate_encode (c : SenderCertificate) : res bytes :=
  encode (SenderCertificate_records c).

Definition SenderCertificate_known_types : list N :=
  [CERT_TAG_SENDER_USER_ID; CERT_TAG_SENDER_DEVICE_ID; CERT_TAG_SENDER_IDENTITY_PUB;
   CERT_TAG_EXPIRES_AT; CERT_TAG_SERVER_SIGNATURE].

Definition SenderCertificate_decode (input : bytes) : res SenderCertificate :=
  let? records := decode_strict input SenderCertificate_known_types in
  let map := build_record_map records in
  let? v := require_from_map map CERT_TAG_SENDER_USER_ID "cert.sender_user_id" in
  let? sender_user_id := decode_id v "cert.sender_user_id" in
  let? v := require_from_map map CERT_TAG_SENDER_DEVICE_ID "cert.sender_device_id" in
  let? sender_device_id := decode_id v "cert.sender_device_id" in
  let? v := require_from_map map CERT_TAG_SENDER_IDENTITY_PUB "cert.sender_identity_pub" in
  let? sender_identity_pub := parse_32 v "cert.sender_identity_pub" in
  let? v := require_from_map map CERT_TAG_EXPIRES_AT "cert.expires_at" in
  let? expires_at := decode_u64 v in
  let? server_signature := require_from_map map CERT_TAG_SERVER_SIGNATURE "cert.server_signature" in
  Ok {| sc_sender_user_id := sender_user_id; sc_sender_device_id := sender_device_id;
        sc_sender_identity_pub := sender_identity_pub; sc_expires_at := expires_at;
        sc_server_signature := server_signature |}.

Definition cert_signing_body (c : SenderCertificate) : res bytes := encode (cert_body_records c).

Definition validate_sender_certificate `{V : Ed25519} (cert : SenderCertificate)
    (server_pub_key : ed_key) (now_unix_secs : N) : res unit :=
  if u64_add (sc_expires_at cert) SENDER_CERT_CLOCK_SKEW_SECS <? now_unix_secs
  then Err (PolicyViolation "sender_cert.expired")
  else
    let? body := cert_signing_body cert in
    let? signature := ok_or (ed_sig_from_slice (sc_server_signature cert))
                        SignatureVerificationFailed in
    if ed_verify server_pub_key body signature then Ok tt else Err SignatureVerificationFailed.

(** ** Envelopes *)

Record SealedEnvelope := {
  se_version : N;
  se_suite_id : N;
  se_recipient_user_id : bytes;
  se_aead_nonce : bytes;
  se_ciphertext : bytes;
  se_sender_hint_ephemeral_pub : option bytes;
  se_sender_hint_nonce : option bytes;
  se_sender_hint_ciphertext : option bytes;
}.

Record OpenedSealedMessage := {
  om_sender_user_id : bytes;
  om_sender_device_id : bytes;
  om_payload : bytes;
}.

Definition SealedEnvelope_records (e : SealedEnvelope) : list TlvRecord :=
  [ mkTlv OUTER_TAG_VERSION (u16_be (se_version e));
    mkTlv OUTER_TAG_SUITE_ID (u16_be (se_suite_id e));
    mkTlv OUTER_TAG_RECIPIENT_USER_ID (se_recipient_user_id e);
    mkTlv OUTER_TAG_AEAD_NONCE (se_aead_nonce e);
    mkTlv OUTER_TAG_CIPHERTEXT (se_ciphertext e) ] ++
  opt_record OUTER_TAG_SENDER_HINT_EPHEMERAL_PUB (se_sender_hint_ephemeral_pub e) ++
  opt_record OUTER_TAG_SENDER_HINT_NONCE (se_sender_hint_nonce e) ++
  opt_record OUTER_TAG_SENDER_HINT_CIPHERTEXT (se_sender_hint_ciphertext e).

Definition SealedEnvelope_encode (e : SealedEnvelope) : res bytes :=
  encode (SealedEnvelope_records e).

Definition SealedEnvelope_known_types : list N :=
  [OUTER_TAG_VERSION; OUTER_TAG_SUITE_ID; OUTER_TAG_RECIPIENT_USER_ID; OUTER_TAG_AEAD_NONCE;
   OUTER_TAG_CIPHERTEXT; OUTER_TAG_SENDER_HINT_EPHEMERAL_PUB; OUTER_TAG_SENDER_HINT_NONCE;
   OUTER_TAG_SENDER_HINT_CIPHERTEXT].

Definition SealedEnvelope_decode (input : bytes) : res SealedEnvelope :=
  let? records := decode_strict input SealedEnvelope_known_types in
  let map := build_record_map records in
  let? v := require_from_map map OUTER_TAG_VERSION "sealed.version" in
  let? version := sealed_decode_u16 v in
  let? v := require_from_map map OUTER_TAG_SUITE_ID "sealed.suite_id" in
  let? suite_id := sealed_decode_u16 v in
  let? v := require_from_map map OUTER_TAG_RECIPIENT_USER_ID "sealed.recipient_user_id" in
  let? recipient_user_id := decode_id v "sealed.recipient_user_id" in
  let? v := require_from_map map OUTER_TAG_AEAD_NONCE "sealed.aead_nonce" in
  let? aead_nonce := parse_12 v "sealed.aead_nonce" in
  let? ciphertext := require_from_map map OUTER_TAG_CIPHERTEXT "sealed.ciphertext" in
  if len ciphertext =? 0 then Err (InvalidLength "sealed.ciphertext" 1 0)
  else
    let? ephemeral_pub := res_transpose ((λ v, parse_32 v "sealed.sender_hint_ephemeral_pub") <$>
                            map !! OUTER_TAG_SENDER_HINT_EPHEMERAL_PUB) in
    let? hint_nonce := res_transpose ((λ v, parse_12 v "sealed.sender_hint_nonce") <$>
                         map !! OUTER_TAG_SENDER_HINT_NONCE) in
    Ok {| se_version := version; se_suite_id := suite_id;
          se_recipient_user_id := recipient_user_id; se_aead_nonce := aead_nonce;
          se_ciphertext := ciphertext; se_sender_hint_ephemeral_pub := ephemeral_pub;
          se_sender_hint_nonce := hint_nonce;
          se_sender_hint_ciphertext := map !! OUTER_TAG_SENDER_HINT_CIPHERTEXT |}.

Definition sealed_associated_data (version suite_id : N) (recipient_user_id : bytes) : res bytes :=
  encode [ mkTlv SEALED_AD_TAG_VERSION (u16_be version);
           mkTlv SEALED_AD_TAG_SUITE_ID (u16_be suite_id);
           mkTlv SEALED_AD_TAG_RECIPIENT_USER_ID recipient_user_id ].

Definition sender_hint_associated_data (version suite_id : N)
    (recipient_user_id ephemeral_pub : bytes) : res bytes :=
  encode [ mkTlv SEALED_AD_TAG_VERSION (u16_be version);
           mkTlv SEALED_AD_TAG_SUITE_ID (u16_be suite_id);
           mkTlv SEALED_AD_TAG_RECIPIENT_USER_ID recipient_user_id;
           mkTlv SEALED_AD_TAG_SENDER_HINT_EPHEMERAL_PUB ephemeral_pub ].

(** The encrypted part: the sender's ids, the payload and, in certified
    envelopes, the encoded certificate. *)
Definition inner_records (sender_user_id sender_device_id payload : bytes) (cert : option bytes)
    : list TlvRecord :=
  [ mkTlv INNER_TAG_SENDER_USER_ID sender_user_id;
    mkTlv INNER_TAG_SENDER_DEVICE_ID sender_device_id;
    mkTlv INNER_TAG_PAYLOAD payload ] ++ opt_record INNER_TAG_SENDER_CERT cert.

Record OpenedCertifiedSealedMessage := {
  oc_sender_user_id : bytes;
  oc_sender_device_id : bytes;
  oc_payload : bytes;
  oc_sender_cert : option SenderCertificate;
}.

Section Sealed.
Context `{P : Primitives}.

Definition derive_sealed_sender_key (shared_secret : bytes) (suite_id : N) : res bytes :=
  hkdf_sha256_32 shared_secret None (INFO_SEALED_KEY ++ u16_be suite_id).

Definition derive_pairwise_sealed_sender_key (local_secret remote_public : bytes) (suite_id : N)
    : res bytes :=
  derive_sealed_sender_key (diffie_hellman local_secret remote_public) suite_id.

Definition derive_sealed_sender_hint_key (shared_secret : bytes) (suite_id : N) : res bytes :=
  hkdf_sha256_32 shared_secret None (INFO_SEALED_SENDER_HINT_KEY ++ u16_be suite_id).

(** The checks both sealing functions begin with. *)
Definition seal_checks (recipient_user_id sender_user_id sender_device_id payload : bytes)
    : res unit :=
  if len payload =? 0 then Err (InvalidLength "sealed.payload" 1 0)
  else
    let? _ := validate_id "sealed.recipient_user_id" recipient_user_id in
    let? _ := validate_id "sealed.sender_user_id" sender_user_id in
    validate_id "sealed.sender_device_id" sender_device_id.

Definition seal_message (key : bytes) (suite_id : N)
    (recipient_user_id sender_user_id sender_device_id payload : bytes) (g : rng)
    : res bytes * rng :=
  match (let? _ := seal_checks recipient_user_id sender_user_id sender_device_id payload in
         let? ad := sealed_associated_data SEALED_VERSION suite_id recipient_user_id in
         let? inner := encode (inner_records sender_user_id sender_device_id payload None) in
         Ok (ad, inner)) with
  | Err e => (Err e, g)
  | Ok (ad, inner) =>
      let '(r, g) := encrypt_with_rng key inner ad g in
      (let? envelope := r in
       SealedEnvelope_encode
         {| se_version := SEALED_VERSION; se_suite_id := suite_id;
            se_recipient_user_id := recipient_user_id; se_aead_nonce := nonce envelope;
            se_ciphertext := ciphertext envelope; se_sender_hint_ephemeral_pub := None;
            se_sender_hint_nonce := None; se_sender_hint_ciphertext := None |}, g)
  end.

(** The guards on a decoded envelope, for the versions the caller admits. *)
Definition check_envelope (versions : list N) (e : SealedEnvelope) (expected_suite_id : N)
    (expected_recipient_user_id : bytes) : res unit :=
  if negb (existsb (N.eqb (se_version e)) versions)
  then Err (UnsupportedAlgorithm "sealed.version")
  else if negb (se_suite_id e =? expected_suite_id)
  then Err (UnsupportedAlgorithm "sealed.suite_id")
  else if negb (bool_decide (se_recipient_user_id e = expected_recipient_user_id))
  then Err (PolicyViolation "sealed.recipient_mismatch")
  else Ok tt.

(** Decryption of the inner records under the envelope's associated data, and
    the three fields every envelope has. *)
Definition open_inner (key : bytes) (e : SealedEnvelope) (known_types : list N)
    : res (gmap N bytes * (bytes * bytes * bytes)) :=
  let? ad := sealed_associated_data (se_version e) (se_suite_id e) (se_recipient_user_id e) in
  let? inner := decrypt key {| nonce := se_aead_nonce e; ciphertext := se_ciphertext e; aad := ad |} in
  let? records := decode_strict inner known_types in
  let map := build_record_map records in
  let? v := require_from_map map INNER_TAG_SENDER_USER_ID "sealed.sender_user_id" in
  let? sender_user_id := decode_id v "sealed.sender_user_id" in
  let? v := require_from_map map INNER_TAG_SENDER_DEVICE_ID "sealed.sender_device_id" in
  let? sender_device_id := decode_id v "sealed.sender_device_id" in
  let? payload := require_from_map map INNER_TAG_PAYLOAD "sealed.payload" in
  if len payload =? 0 then Err (InvalidLength "sealed.payload" 1 0)
  else Ok (map, (sender_user_id, sender_device_id, payload)).

Definition open_message (key envelope_bytes : bytes) (expected_suite_id : N)
    (expected_recipient_user_id : bytes) : res OpenedSealedMessage :=
  let? _ := validate_id "sealed.expected_recipient_user_id" expected_recipient_user_id in
  let? envelope := SealedEnvelope_decode envelope_bytes in
  let? _ := check_envelope [SEALED_VERSION] envelope expected_suite_id expected_recipient_user_id in
  let? (_, (sender_user_id, sender_device_id, payload)) :=
    open_inner key envelope
      [INNER_TAG_SENDER_USER_ID; INNER_TAG_SENDER_DEVICE_ID; INNER_TAG_PAYLOAD] in
  Ok {| om_sender_user_id := sender_user_id; om_sender_device_id := sender_device_id;
        om_payload := payload |}.

Definition seal_message_with_cert (sender_local_secret recipient_identity_pub : bytes) (suite_id : N)
    (recipient_user_id sender_user_id sender_device_id payload : bytes)
    (sender_cert : SenderCertificate) (g : rng) : res bytes * rng :=
  match (let? _ := seal_checks recipient_user_id sender_user_id sender_device_id payload in
         let? cert_bytes := SenderCertificate_encode sender_cert in
         let? pairwise_key := derive_pairwise_sealed_sender_key sender_local_secret
                                recipient_identity_pub suite_id in
         let? ad := sealed_associated_data SEALED_CERTIFIED_VERSION suite_id recipient_user_id in
         let? inner := encode (inner_records sender_user_id sender_device_id payload
                                 (Some cert_bytes)) in
         Ok (pairwise_key, ad, inner)) with
  | Err e => (Err e, g)
  | Ok (pairwise_key, ad, inner) =>
      match encrypt_with_rng pairwise_key inner ad g with
      | (Err e, g) => (Err e, g)
      | (Ok envelope, g) =>
          let '(hint_keypair, g) := generate_keypair g in
          match (let? hint_key := derive_sealed_sender_hint_key
                   (diffie_hellman (secret hint_keypair) recipient_identity_pub) suite_id in
                 let? hint_ad := sender_hint_associated_data SEALED_CERTIFIED_VERSION suite_id
                                   recipient_user_id (public hint_keypair) in
                 Ok (hint_key, hint_ad)) with
          | Err e => (Err e, g)
          | Ok (hint_key, hint_ad) =>
              let '(r, g) := encrypt_with_rng hint_key (sc_sender_identity_pub sender_cert)
                               hint_ad g in
              (let? hint := r in
               SealedEnvelope_encode
                 {| se_version := SEALED_CERTIFIED_VERSION; se_suite_id := suite_id;
                    se_recipient_user_id := recipient_user_id; se_aead_nonce := nonce envelope;
                    se_ciphertext := ciphertext envelope;
                    se_sender_hint_ephemeral_pub := Some (public hint_keypair);
                    se_sender_hint_nonce := Some (nonce hint);
                    se_sender_hint_ciphertext := Some (ciphertext hint) |}, g)
          end
      end
  end.
End Sealed.

Section Opening.
Context `{P : Primitives} `{V : Ed25519}.

(** What is checked of the certificate inside an opened envelope. *)
Definition check_certificate (cert_bytes : bytes) (server_pub_key : option ed_key)
    (now_unix_secs : N) (sender_user_id sender_device_id : bytes)
    (expected_sender_identity_pub : option bytes) : res SenderCertificate :=
  let? cert := SenderCertificate_decode cert_bytes in
  let? _ := match server_pub_key with
            | Some server_key => validate_sender_certificate cert server_key now_unix_secs
            | None => Ok tt
            end in
  if negb (bool_decide (sc_sender_user_id cert = sender_user_id))
  then Err (PolicyViolation "sender_cert.user_id_mismatch")
  else if negb (bool_decide (sc_sender_device_id cert = sender_device_id))
  then Err (PolicyViolation "sender_cert.device_id_mismatch")
  else match expected_sender_identity_pub with
  | Some expected =>
      if negb (bool_decide (sc_sender_identity_pub cert = expected))
      then Err (PolicyViolation "sender_cert.identity_pub_mismatch")
      else Ok cert
  | None => Ok cert
  end.

Definition open_message_with_cert_inner (pairwise_key : bytes) (envelope : SealedEnvelope)
    (server_pub_key : option ed_key) (now_unix_secs : N)
    (expected_sender_identity_pub : option bytes) : res OpenedCertifiedSealedMessage :=
  let? (map, (sender_user_id, sender_device_id, payload)) :=
    open_inner pairwise_key envelope
      [INNER_TAG_SENDER_USER_ID; INNER_TAG_SENDER_DEVICE_ID; INNER_TAG_PAYLOAD;
       INNER_TAG_SENDER_CERT] in
  let? sender_cert :=
    match map !! INNER_TAG_SENDER_CERT with
    | Some cert_bytes =>
        let? cert := check_certificate cert_bytes server_pub_key now_unix_secs sender_user_id
                       sender_device_id expected_sender_identity_pub in
        Ok (Some cert)
    | None => Ok None
    end in
  Ok {| oc_sender_user_id := sender_user_id; oc_sender_device_id := sender_device_id;
        oc_payload := payload; oc_sender_cert := sender_cert |}.

(** The sender's identity key, read from the hint of a certified envelope. *)
Definition read_sender_hint (recipient_local_secret : bytes) (e : SealedEnvelope) : res bytes :=
  let? ephemeral_pub := ok_or (se_sender_hint_ephemeral_pub e)
                          (PolicyViolation "sealed.sender_hint_ephemeral_missing") in
  let? hint_nonce := ok_or (se_sender_hint_nonce e)
                       (PolicyViolation "sealed.sender_hint_nonce_missing") in
  let? hint_ciphertext := ok_or (se_sender_hint_ciphertext e)
                            (PolicyViolation "sealed.sender_hint_ciphertext_missing") in
  let? hint_key := derive_sealed_sender_hint_key
                     (diffie_hellman recipient_local_secret ephemeral_pub) (se_suite_id e) in
  let? hint_ad := sender_hint_associated_data (se_version e) (se_suite_id e)
                    (se_recipient_user_id e) ephemeral_pub in
  let? identity := decrypt hint_key
                     {| nonce := hint_nonce; ciphertext := hint_ciphertext; aad := hint_ad |} in
  parse_32 identity "sealed.sender_identity_pub".

Definition open_message_with_cert (recipient_local_secret envelope_bytes : bytes)
    (expected_suite_id : N) (expected_recipient_user_id : bytes) (server_pub_key : option ed_key)
    (now_unix_secs : N) (legacy_sender_identity_pub : option bytes)
    : res OpenedCertifiedSealedMessage :=
  let? _ := validate_id "sealed.expected_recipient_user_id" expected_recipient_user_id in
  let? envelope := SealedEnvelope_decode envelope_bytes in
  let? _ := check_envelope [SEALED_VERSION; SEALED_CERTIFIED_VERSION] envelope expected_suite_id
              expected_recipient_user_id in
  let? sender_identity_pub :=
    if se_version envelope =? SEALED_VERSION
    then ok_or legacy_sender_identity_pub (PolicyViolation "sealed.legacy_sender_identity_missing")
    else read_sender_hint recipient_local_secret envelope in
  let? pairwise_key := derive_pairwise_sealed_sender_key recipient_local_secret sender_identity_pub
                         (se_suite_id envelope) in
  open_message_with_cert_inner pairwise_key envelope server_pub_key now_unix_secs
    (Some sender_identity_pub).
End Opening.

(** ** Codecs *)

(** A [&str] that passes [validate_id] and fits a record. *)
Definition id_ok (v : bytes) : Prop :=
  utf8_valid v = true ∧ (∀ f, validate_id f v = Ok tt) ∧ fits v = true.

Lemma decode_id_ok (v : bytes) (f : string) : id_ok v → decode_id v f = Ok v.
Proof. intros (Hu & Hv & _). unfold decode_id, parse_utf8. by rewrite Hu, Hv. Qed.

Lemma parse_uint_u16 (n : N) (f : string) : n ≤ u16_max → parse_uint 2 (u16_be n) f = Ok n.
Proof. apply parse_u16_ok. Qed.

Lemma decode_u64_ok (n : N) : n ≤ u64_max → decode_u64 (u64_be n) = Ok n.
Proof.
  intros. unfold decode_u64, parse_uint. rewrite length_u64_be. simpl. by rewrite from_u64_be.
Qed.

Record SenderCertificate_wf (c : SenderCertificate) : Prop := {
  sc_wf_user : id_ok (sc_sender_user_id c);
  sc_wf_device : id_ok (sc_sender_device_id c);
  sc_wf_pub : length (sc_sender_identity_pub c) = 32%nat;
  sc_wf_expires : sc_expires_at c ≤ u64_max;
}.

Lemma SenderCertificate_tags (c : SenderCertificate) :
  tags_ok SenderCertificate_known_types (ty <$> SenderCertificate_records c) = true.
Proof. done. Qed.

Lemma SenderCertificate_find (c : SenderCertificate) (rs : list TlvRecord) :
  rs = SenderCertificate_records c →
  rec_find CERT_TAG_SENDER_USER_ID rs = Some (sc_sender_user_id c) ∧
  rec_find CERT_TAG_SENDER_DEVICE_ID rs = Some (sc_sender_device_id c) ∧
  rec_find CERT_TAG_SENDER_IDENTITY_PUB rs = Some (sc_sender_identity_pub c) ∧
  rec_find CERT_TAG_EXPIRES_AT rs = Some (u64_be (sc_expires_at c)) ∧
  rec_find CERT_TAG_SERVER_SIGNATURE rs = Some (sc_server_signature c).
Proof. by intros ->. Qed.

Lemma SenderCertificate_decode_encode (c : SenderCertificate) (b : bytes) :
  SenderCertificate_wf c → SenderCertificate_encode c = Ok b → SenderCertificate_decode b = Ok c.
Proof.
  intros [Hu Hd Hp He] Hb. unfold SenderCertificate_decode. tlv_read (SenderCertificate_tags c) Hb.
  destruct (SenderCertificate_find c _ eq_refl) as (-> & -> & -> & -> & ->). cbn [ok_or].
  rewrite !decode_id_ok by done. unfold parse_32. rewrite parse_exact_ok by done.
  rewrite decode_u64_ok by done. by destruct c.
Qed.

Record SealedEnvelope_wf (e : SealedEnvelope) : Prop := {
  se_wf_version : se_version e ≤ u16_max;
  se_wf_suite : se_suite_id e ≤ u16_max;
  se_wf_recipient : id_ok (se_recipient_user_id e);
  se_wf_nonce : length (se_aead_nonce e) = 12%nat;
  se_wf_ciphertext : se_ciphertext e ≠ [];
  se_wf_hint_pub : ∀ v, se_sender_hint_ephemeral_pub e = Some v → length v = 32%nat;
  se_wf_hint_nonce : ∀ v, se_sender_hint_nonce e = Some v → length v = 12%nat;
}.

Lemma SealedEnvelope_tags (e : SealedEnvelope) :
  tags_ok SealedEnvelope_known_types (ty <$> SealedEnvelope_records e) = true.
Proof. by destruct e as [? ? ? ? ? [] [] []]. Qed.

Lemma SealedEnvelope_find (e : SealedEnvelope) (rs : list TlvRecord) :
  rs = SealedEnvelope_records e →
  rec_find OUTER_TAG_VERSION rs = Some (u16_be (se_version e)) ∧
  rec_find OUTER_TAG_SUITE_ID rs = Some (u16_be (se_suite_id e)) ∧
  rec_find OUTER_TAG_RECIPIENT_USER_ID rs = Some (se_recipient_user_id e) ∧
  rec_find OUTER_TAG_AEAD_NONCE rs = Some (se_aead_nonce e) ∧
  rec_find OUTER_TAG_CIPHERTEXT rs = Some (se_ciphertext e) ∧
  rec_find OUTER_TAG_SENDER_HINT_EPHEMERAL_PUB rs = se_sender_hint_ephemeral_pub e ∧
  rec_find OUTER_TAG_SENDER_HINT_NONCE rs = se_sender_hint_nonce e ∧
  rec_find OUTER_TAG_SENDER_HINT_CIPHERTEXT rs = se_sender_hint_ciphertext e.
Proof. intros ->. by destruct e as [? ? ? ? ? [] [] []]. Qed.

Lemma len_nonempty (v : bytes) : v ≠ [] → (len v =? 0) = false.
Proof. intros H. apply N.eqb_neq. destruct v; [done|]. unfold len. simpl. lia. Qed.

Lemma SealedEnvelope_decode_encode (e : SealedEnvelope) (b : bytes) :
  SealedEnvelope_wf e → SealedEnvelope_encode e = Ok b → SealedEnvelope_decode b = Ok e.
Proof.
  intros [Hv Hs Hr Hn Hc Hp Hhn] Hb. unfold SealedEnvelope_decode.
  tlv_read (SealedEnvelope_tags e) Hb.
  destruct (SealedEnvelope_find e _ eq_refl) as (-> & -> & -> & -> & -> & -> & -> & ->).
  cbn [ok_or]. unfold sealed_decode_u16, parse_12, parse_32. rewrite !parse_uint_u16 by done.
  rewrite decode_id_ok, parse_exact_ok, len_nonempty by done.
  destruct e as [? ? ? ? ? [p|] [n|] c]; simpl in *;
    rewrite ?(parse_exact_ok _ p) by eauto; simpl; rewrite ?(parse_exact_ok _ n) by eauto; done.
Qed.

Lemma inner_tags (s d p : bytes) (c : option bytes) (known : list N) :
  known = [INNER_TAG_SENDER_USER_ID; INNER_TAG_SENDER_DEVICE_ID; INNER_TAG_PAYLOAD;
           INNER_TAG_SENDER_CERT] ∨
  known = [INNER_TAG_SENDER_USER_ID; INNER_TAG_SENDER_DEVICE_ID; INNER_TAG_PAYLOAD] ∧ c = None →
  tags_ok known (ty <$> inner_records s d p c) = true.
Proof. intros [-> | [-> ->]]; by try destruct c. Qed.

Lemma inner_find (s d p : bytes) (c : option bytes) (rs : list TlvRecord) :
  rs = inner_records s d p c →
  rec_find INNER_TAG_SENDER_USER_ID rs = Some s ∧
  rec_find INNER_TAG_SENDER_DEVICE_ID rs = Some d ∧
  rec_find INNER_TAG_PAYLOAD rs = Some p ∧ rec_find INNER_TAG_SENDER_CERT rs = c.
Proof. intros ->. by destruct c. Qed.

Lemma sealed_ad_ok (v su : N) (r : bytes) : id_ok r → ∃ ad, sealed_associated_data v su r = Ok ad.
Proof. intros (_ & _ & Hr). apply encode_fits. simpl. by rewrite Hr. Qed.

Lemma hint_ad_ok (v su : N) (r e : bytes) :
  id_ok r → length e = 32%nat → ∃ ad, sender_hint_associated_data v su r e = Ok ad.
Proof.
  intros (_ & _ & Hr) He. apply encode_fits. simpl. by rewrite Hr, (fits_short 32 e).
Qed.

Lemma seal_checks_ok (r s d p : bytes) :
  id_ok r → id_ok s → id_ok d → p ≠ [] → seal_checks r s d p = Ok tt.
Proof.
  intros (_ & Hr & _) (_ & Hs & _) (_ & Hd & _) Hp. unfold seal_checks.
  by rewrite len_nonempty, Hr, Hs, Hd.
Qed.

(** The octets the certificate record adds. *)
Definition cert_room (c : option bytes) : N := match c with Some b => 4 + len b | None => 0 end.

Lemma inner_encode_ok (s d p : bytes) (c : option bytes) :
  len s + len d + len p + cert_room c + 12 ≤ u16_max →
  ∃ inner, encode (inner_records s d p c) = Ok inner ∧
    len inner = len s + len d + len p + cert_room c + 12.
Proof.
  intros H. destruct (encode_fits (inner_records s d p c)) as [b Hb].
  - unfold inner_records. rewrite forallb_app, forallb_opt_record. simpl. unfold fits.
    rewrite !(proj2 (N.leb_le _ _)) by lia. simpl.
    destruct c as [c|]; simpl in *; [|done]. apply N.leb_le. lia.
  - exists b. split; [done|]. apply encode_length in Hb. unfold len, inner_records in *.
    rewrite Hb, sum_list_with_app. destruct c as [c|]; simpl; unfold len; lia.
Qed.

Lemma SealedEnvelope_encode_ok (e : SealedEnvelope) :
  SealedEnvelope_wf e → fits (se_ciphertext e) = true →
  opt_fits (se_sender_hint_ciphertext e) = true → ∃ b, SealedEnvelope_encode e = Ok b.
Proof.
  intros [_ _ (_ & _ & Hr) Hn _ Hp Hhn] Hc Hh. apply encode_fits. unfold SealedEnvelope_records.
  rewrite !forallb_app, !forallb_opt_record. simpl. rewrite Hr, (fits_short 12), Hc by done. simpl.
  destruct e as [? ? ? ? ? [q|] [n|] [c|]]; simpl in *;
    rewrite ?(fits_short 32 q), ?(fits_short 12 n) by (done || eauto); try rewrite Hh; done.
Qed.

Section SealedFacts.
Context `{P : Primitives}.

Lemma open_inner_ok (key inner ad s d p : bytes) (c : option bytes) (e : SealedEnvelope)
    (known : list N) :
  tags_ok known (ty <$> inner_records s d p c) = true →
  encode (inner_records s d p c) = Ok inner → id_ok s → id_ok d → p ≠ [] →
  sealed_associated_data (se_version e) (se_suite_id e) (se_recipient_user_id e) = Ok ad →
  decrypt key {| nonce := se_aead_nonce e; ciphertext := se_ciphertext e; aad := ad |} = Ok inner →
  open_inner key e known = Ok (build_record_map (inner_records s d p c), (s, d, p)).
Proof.
  intros Ht Hi Hs Hd Hp Ha Hdec. unfold open_inner. rewrite Ha, Hdec. tlv_read Ht Hi.
  destruct (inner_find s d p c _ eq_refl) as (-> & -> & -> & _). cbn [ok_or].
  by rewrite !decode_id_ok, len_nonempty by done.
Qed.

Lemma check_envelope_ok (vs : list N) (e : SealedEnvelope) :
  existsb (N.eqb (se_version e)) vs = true →
  check_envelope vs e (se_suite_id e) (se_recipient_user_id e) = Ok tt.
Proof.
  intros H. unfold check_envelope. rewrite H, N.eqb_refl, bool_decide_eq_true_2 by done. done.
Qed.

Context `{!PrimitiveLaws P}.

Lemma pairwise_key_ok (a b : bytes) (su : N) :
  ∃ k, derive_pairwise_sealed_sender_key a b su = Ok k.
Proof. destruct (hkdf_sha256_32_ok (diffie_hellman a b) None (INFO_SEALED_KEY ++ u16_be su)) as (k & ? & _). by exists k. Qed.

Lemma hint_key_ok (ss : bytes) (su : N) : ∃ k, derive_sealed_sender_hint_key ss su = Ok k.
Proof. destruct (hkdf_sha256_32_ok ss None (INFO_SEALED_SENDER_HINT_KEY ++ u16_be su)) as (k & ? & _). by exists k. Qed.

(** Both ends of a pair derive one key. *)
Lemma pairwise_key_agree (a b : DhKeyPair) (su : N) :
  dh_keypair_wf a → dh_keypair_wf b →
  derive_pairwise_sealed_sender_key (secret a) (public b) su =
  derive_pairwise_sealed_sender_key (secret b) (public a) su.
Proof. intros Ha Hb. unfold derive_pairwise_sealed_sender_key. by rewrite (dh_agree a b). Qed.
End SealedFacts.

(** A sealed message opens for its recipient and for nobody else's name:
    for ids the checks accept and a payload that fits a record, sealing
    succeeds, and opening with the same key, suite and recipient returns the
    sender's user and device ids and the payload; under another suite or
    another recipient's name the envelope is refused before decryption. *)
Theorem sealed_roundtrip (P : Primitives) (L : PrimitiveLaws P) (key r s d p : bytes) (suite : N)
    (g : rng) :
  id_ok r → id_ok s → id_ok d → p ≠ [] → suite ≤ u16_max →
  len s + len d + len p + 28 ≤ u16_max →
  ∃ b g', seal_message key suite r s d p g = (Ok b, g') ∧
    open_message key b suite r =
      Ok {| om_sender_user_id := s; om_sender_device_id := d; om_payload := p |} ∧
    (∀ suite', suite' ≠ suite → open_message key b suite' r = Err (UnsupportedAlgorithm "sealed.suite_id")) ∧
    (∀ r', r' ≠ r → validate_id "sealed.expected_recipient_user_id" r' = Ok tt →
       open_message key b suite r' = Err (PolicyViolation "sealed.recipient_mismatch")).
Proof.
  intros Hr Hs Hd Hp Hsu Hlen. unfold seal_message.
  rewrite seal_checks_ok by done. destruct (sealed_ad_ok SEALED_VERSION suite r Hr) as [ad Had].
  destruct (inner_encode_ok s d p None) as (inner & Hi & Hil); [simpl; lia|]. simpl in Hil.
  rewrite Had, Hi.
  destruct (encrypt_with_rng_ok key inner ad g) as (env & g' & -> & Hn & Hc & Hdec).
  { unfold u16_max, u32_max in *. lia. }
  set (e := {| se_version := SEALED_VERSION |}).
  assert (Hcf : len (ciphertext env) = len inner + 16) by (unfold len; rewrite Hc; lia).
  assert (Hwf : SealedEnvelope_wf e).
  { split; try done. intros Hx. simpl in Hx. rewrite Hx in Hcf. unfold len at 1 in Hcf. simpl in Hcf. lia. }
  destruct (SealedEnvelope_encode_ok e Hwf) as [b Hb]; [apply N.leb_le; simpl; lia|done|].
  exists b, g'. rewrite Hb. split; [done|].
  assert (Hopen : open_inner key e [INNER_TAG_SENDER_USER_ID; INNER_TAG_SENDER_DEVICE_ID;
    INNER_TAG_PAYLOAD] = Ok (build_record_map (inner_records s d p None), (s, d, p))).
  { by apply (open_inner_ok key inner ad). }
  unfold open_message. rewrite (SealedEnvelope_decode_encode e b Hwf Hb).
  split; [|split].
  - rewrite (proj1 (proj2 Hr)). unfold check_envelope. simpl se_version. simpl se_suite_id.
    simpl se_recipient_user_id. rewrite N.eqb_refl, bool_decide_eq_true_2 by done. simpl existsb.
    cbn [negb]. by rewrite Hopen.
  - intros suite' Hne. rewrite (proj1 (proj2 Hr)). unfold check_envelope. simpl.
    by rewrite (proj2 (N.eqb_neq suite suite')) by done.
  - intros r' Hne Hv. rewrite Hv. unfold check_envelope. simpl. rewrite N.eqb_refl.
    by rewrite bool_decide_eq_false_2 by done.
Qed.

Section Certified.
Context `{P : Primitives} `{!PrimitiveLaws P} `{V : Ed25519}.

(** The recipient recovers the sender's identity key from the hint. *)
Lemma read_sender_hint_ok (recipient eph : DhKeyPair) (e : SealedEnvelope)
    (key ad hn hc identity : bytes) :
  dh_keypair_wf recipient → dh_keypair_wf eph → length identity = 32%nat →
  se_sender_hint_ephemeral_pub e = Some (public eph) → se_sender_hint_nonce e = Some hn →
  se_sender_hint_ciphertext e = Some hc →
  derive_sealed_sender_hint_key (diffie_hellman (secret eph) (public recipient)) (se_suite_id e) =
    Ok key →
  sender_hint_associated_data (se_version e) (se_suite_id e) (se_recipient_user_id e) (public eph) =
    Ok ad →
  decrypt key {| nonce := hn; ciphertext := hc; aad := ad |} = Ok identity →
  read_sender_hint (secret recipient) e = Ok identity.
Proof.
  intros Hr He Hl E1 E2 E3 Hk Ha Hd. unfold read_sender_hint. rewrite E1, E2, E3. cbn [ok_or].
  rewrite (dh_agree recipient eph), Hk, Ha, Hd by done. by apply parse_exact_ok.
Qed.

Lemma check_certificate_ok (cert : SenderCertificate) (cb : bytes) (pk : ed_key) (now : N) :
  SenderCertificate_wf cert → SenderCertificate_encode cert = Ok cb →
  validate_sender_certificate cert pk now = Ok tt →
  check_certificate cb (Some pk) now (sc_sender_user_id cert) (sc_sender_device_id cert)
    (Some (sc_sender_identity_pub cert)) = Ok cert.
Proof.
  intros Hwf He Hv. unfold check_certificate. rewrite (SenderCertificate_decode_encode _ _ Hwf He), Hv.
  by rewrite !bool_decide_eq_true_2.
Qed.

(** What a successful check of the certificate establishes. *)
Lemma check_certificate_inv (cb s d identity : bytes) (pk : ed_key) (now : N)
    (cert : SenderCertificate) :
  check_certificate cb (Some pk) now s d (Some identity) = Ok cert →
  validate_sender_certificate cert pk now = Ok tt ∧ sc_sender_user_id cert = s ∧
  sc_sender_device_id cert = d ∧ sc_sender_identity_pub cert = identity.
Proof.
  unfold check_certificate. destruct (SenderCertificate_decode cb) as [c|]; [|done].
  destruct (validate_sender_certificate c pk now) as [[]|] eqn:Ev; [|done].
  destruct (bool_decide (sc_sender_user_id c = s)) eqn:E1; [|done].
  destruct (bool_decide (sc_sender_device_id c = d)) eqn:E2; [|done]. simpl.
  destruct (bool_decide (sc_sender_identity_pub c = identity)) eqn:E3; [|done].
  intros [= <-]. by bool_to_prop.
Qed.

Lemma open_with_cert_inner_ok (key inner ad s d p cb : bytes) (e : SealedEnvelope)
    (cert : SenderCertificate) (pk : ed_key) (now : N) :
  encode (inner_records s d p (Some cb)) = Ok inner → id_ok s → id_ok d → p ≠ [] →
  sealed_associated_data (se_version e) (se_suite_id e) (se_recipient_user_id e) = Ok ad →
  decrypt key {| nonce := se_aead_nonce e; ciphertext := se_ciphertext e; aad := ad |} = Ok inner →
  check_certificate cb (Some pk) now s d (Some (sc_sender_identity_pub cert)) = Ok cert →
  open_message_with_cert_inner key e (Some pk) now (Some (sc_sender_identity_pub cert)) =
    Ok {| oc_sender_user_id := s; oc_sender_device_id := d; oc_payload := p;
          oc_sender_cert := Some cert |}.
Proof.
  intros Hi Hs Hd Hp Ha Hdec Hc. unfold open_message_with_cert_inner.
  assert (Ht : tags_ok [INNER_TAG_SENDER_USER_ID; INNER_TAG_SENDER_DEVICE_ID; INNER_TAG_PAYLOAD;
    INNER_TAG_SENDER_CERT] (ty <$> inner_records s d p (Some cb)) = true) by done.
  rewrite (open_inner_ok key inner ad s d p (Some cb)) by done.
  rewrite (build_record_map_find _ _ _ Ht). change (rec_find _ _) with (Some cb). cbv beta iota. by rewrite Hc.
Qed.
(** The envelope a certified message travels in, and what its recipient can
    read from it. *)
Lemma seal_with_cert_ok (sender recipient : DhKeyPair) (cert : SenderCertificate) (suite : N)
    (r s d p cb : bytes) (g : rng) :
  dh_keypair_wf recipient → length (sc_sender_identity_pub cert) = 32%nat →
  SenderCertificate_encode cert = Ok cb → id_ok r → id_ok s → id_ok d → p ≠ [] → suite ≤ u16_max →
  len s + len d + len p + len cb + 32 ≤ u16_max →
  ∃ b g' e k inner ad,
    seal_message_with_cert (secret sender) (public recipient) suite r s d p cert g = (Ok b, g') ∧
    SealedEnvelope_decode b = Ok e ∧ se_version e = SEALED_CERTIFIED_VERSION ∧
    se_suite_id e = suite ∧ se_recipient_user_id e = r ∧
    read_sender_hint (secret recipient) e = Ok (sc_sender_identity_pub cert) ∧
    derive_pairwise_sealed_sender_key (secret sender) (public recipient) suite = Ok k ∧
    encode (inner_records s d p (Some cb)) = Ok inner ∧
    sealed_associated_data SEALED_CERTIFIED_VERSION suite r = Ok ad ∧
    decrypt k {| nonce := se_aead_nonce e; ciphertext := se_ciphertext e; aad := ad |} = Ok inner.
Proof.
  intros Hre Hpl Hcb Hr Hs Hd Hp Hsu Hlen.
  unfold seal_message_with_cert. rewrite seal_checks_ok, Hcb by done.
  destruct (pairwise_key_ok (secret sender) (public recipient) suite) as [k Hk]. rewrite Hk.
  destruct (sealed_ad_ok SEALED_CERTIFIED_VERSION suite r Hr) as [ad Had]. rewrite Had.
  destruct (inner_encode_ok s d p (Some cb)) as (inner & Hi & Hil); [simpl; lia|].
  simpl cert_room in Hil. rewrite Hi.
  destruct (encrypt_with_rng_ok k inner ad g) as (env & g1 & -> & Hn & Hc & Hdec).
  { unfold u16_max, u32_max in *. lia. }
  pose proof (generate_keypair_wf g1) as Hew. destruct (generate_keypair g1) as [eph g2].
  simpl in Hew. pose proof (dh_keypair_public_length eph Hew) as Hel.
  destruct (hint_key_ok (diffie_hellman (secret eph) (public recipient)) suite) as [hk Hhk].
  destruct (hint_ad_ok SEALED_CERTIFIED_VERSION suite r (public eph) Hr Hel) as [had Hhad].
  rewrite Hhk, Hhad.
  destruct (encrypt_with_rng_ok hk (sc_sender_identity_pub cert) had g2)
    as (henv & g3 & -> & Hhn & Hhc & Hhdec).
  { unfold len. rewrite Hpl. done. }
  set (e := {| se_version := SEALED_CERTIFIED_VERSION |}).
  assert (Hcf : len (ciphertext env) = len inner + 16) by (unfold len; rewrite Hc; lia).
  assert (Hewf : SealedEnvelope_wf e).
  { split; try done; [|by intros v [= <-]..].
    intros Hx. simpl in Hx. rewrite Hx in Hcf. unfold len at 1 in Hcf. simpl in Hcf. lia. }
  destruct (SealedEnvelope_encode_ok e Hewf) as [b Hb].
  { apply N.leb_le. simpl. lia. }
  { simpl. apply (fits_short 48); [|done]. by rewrite Hhc, Hpl. }
  exists b, g3, e, k, inner, ad. rewrite Hb, (SealedEnvelope_decode_encode e b Hewf Hb).
  repeat split; try done. by apply (read_sender_hint_ok recipient eph e hk had (nonce henv)
    (ciphertext henv) (sc_sender_identity_pub cert)).
Qed.
End Certified.

(** C38: a certified message opens for its recipient without anyone telling who
    sent it: the recipient recovers the sender's identity key from the hint,
    derives the sender's pairwise key from it, and obtains the ids, the payload
    and the certificate, checked against the server's key and the clock. *)
Theorem certified_roundtrip (P : Primitives) (L : PrimitiveLaws P) (V : Ed25519)
    (sender recipient : DhKeyPair) (cert : SenderCertificate) (pk : ed_key) (now suite : N)
    (r p cb : bytes) (legacy : option bytes) (g : rng) :
  let s := sc_sender_user_id cert in
  let d := sc_sender_device_id cert in
  dh_keypair_wf sender → dh_keypair_wf recipient →
  SenderCertificate_wf cert → SenderCertificate_encode cert = Ok cb →
  sc_sender_identity_pub cert = public sender →
  validate_sender_certificate cert pk now = Ok tt →
  id_ok r → p ≠ [] → suite ≤ u16_max → len s + len d + len p + len cb + 32 ≤ u16_max →
  ∃ b g', seal_message_with_cert (secret sender) (public recipient) suite r s d p cert g = (Ok b, g') ∧
    open_message_with_cert (secret recipient) b suite r (Some pk) now legacy =
      Ok {| oc_sender_user_id := s; oc_sender_device_id := d; oc_payload := p;
            oc_sender_cert := Some cert |}.
Proof.
  intros s d Hse Hre Hwf Hcb Hpub Hval Hr Hp Hsu Hlen. pose proof Hwf as [Hs Hd Hpl _].
  destruct (seal_with_cert_ok sender recipient cert suite r s d p cb g)
    as (b & g' & e & k & inner & ad & Hb & He & Ev & Es & Er & Hh & Hk & Hi & Ha & Hdec); try done.
  exists b, g'. split; [done|]. unfold open_message_with_cert.
  rewrite (proj1 (proj2 Hr)), He. unfold check_envelope.
  rewrite Ev, Es, Er, N.eqb_refl, bool_decide_eq_true_2 by done.
  change (SEALED_CERTIFIED_VERSION =? SEALED_VERSION) with false. cbn [existsb negb orb].
  rewrite Hh, Hpub, <- (pairwise_key_agree sender recipient), Hk, <- Hpub by done.
  apply (open_with_cert_inner_ok k inner ad s d p cb); rewrite ?Ev, ?Es, ?Er; try done.
  by apply check_certificate_ok.
Qed.

(** C27: a certificate that comes out of an opened envelope can be relied on:
    with the server's key given, the returned certificate is unexpired up to
    the clock skew, its body carries a signature of that key, it names the
    user and the device the message claims to be from, and its identity key is
    the one the message was decrypted with. *)
Theorem certificate_sound (P : Primitives) (V : Ed25519) (recipient b r : bytes) (suite now : N)
    (pk : ed_key) (legacy : option bytes) (m : OpenedCertifiedSealedMessage)
    (cert : SenderCertificate) :
  open_message_with_cert recipient b suite r (Some pk) now legacy = Ok m →
  oc_sender_cert m = Some cert →
  now ≤ u64_add (sc_expires_at cert) SENDER_CERT_CLOCK_SKEW_SECS ∧
  (∃ body sig, cert_signing_body cert = Ok body ∧
     ed_sig_from_slice (sc_server_signature cert) = Some sig ∧ ed_verify pk body sig = true) ∧
  sc_sender_user_id cert = oc_sender_user_id m ∧ sc_sender_device_id cert = oc_sender_device_id m ∧
  ∃ e key known map, SealedEnvelope_decode b = Ok e ∧
    derive_pairwise_sealed_sender_key recipient (sc_sender_identity_pub cert) suite = Ok key ∧
    open_inner key e known =
      Ok (map, (oc_sender_user_id m, oc_sender_device_id m, oc_payload m)).
Proof.
  unfold open_message_with_cert. intros H Hcert.
  destruct (validate_id _ _); [|done]. destruct (SealedEnvelope_decode b) as [e|] eqn:Ee; [|done].
  destruct (check_envelope _ e suite r) eqn:Ec; [|done].
  destruct (if se_version e =? SEALED_VERSION
            then ok_or legacy (PolicyViolation "sealed.legacy_sender_identity_missing")
            else read_sender_hint recipient e) as [identity|]; [|done].
  destruct (derive_pairwise_sealed_sender_key _ _ _) as [key|] eqn:Ek; [|done].
  unfold open_message_with_cert_inner in H.
  destruct (open_inner key e _) as [[map [[s d] p]]|] eqn:Eo; [|done].
  destruct (map !! INNER_TAG_SENDER_CERT) as [cb|]; [|by injection H as <-].
  destruct (check_certificate _ _ _ _ _ _) as [c|] eqn:Ecc; [|done].
  injection H as <-. simpl in Hcert. injection Hcert as ->.
  apply check_certificate_inv in Ecc as (Hv & -> & -> & ->).
  assert (se_suite_id e = suite) as <-.
  { unfold check_envelope in Ec. inv_ok Ec. by bool_to_prop. }
  unfold validate_sender_certificate in Hv. inv_ok Hv. bool_to_prop.
  split; [done|]. split.
  - destruct (ed_sig_from_slice _) as [sig|]; [|done]. simplify_eq/=. by eexists _, _.
  - split; [done|]. split; [done|]. by eexists e, key, _, map.
Qed.

(** ** Sample messages *)

Lemma id_ok_check (v : bytes) :
  utf8_valid v && (negb (len (str_trim v) =? 0)) && (len (str_trim v) <=? MAX_ID_LEN) && fits v = true →
  id_ok v.
Proof.
  intros H. bool_to_prop. split; [done|]. split; [|done]. intros f. unfold validate_id.
  rewrite (proj2 (N.eqb_neq _ _)), (proj2 (N.ltb_ge _ _)) by done. done.
Qed.

Lemma sealed_roundtrip_witness :
  ∃ b g', seal_message (replicate 32 x05) 1 (lit "bob") (lit "alice") (lit "phone") (lit "hello")
      (0 : @rng Toy) = (Ok b, g') ∧
    open_message (replicate 32 x05) b 1 (lit "bob") =
      Ok {| om_sender_user_id := lit "alice"; om_sender_device_id := lit "phone";
            om_payload := lit "hello" |}.
Proof.
  destruct (sealed_roundtrip Toy ToyLaws (replicate 32 x05) (lit "bob") (lit "alice") (lit "phone")
    (lit "hello") 1 (0 : @rng Toy)) as (b & g' & H1 & H2 & _).
  - apply id_ok_check. vm_compute. reflexivity.
  - apply id_ok_check. vm_compute. reflexivity.
  - apply id_ok_check. vm_compute. reflexivity.
  - discriminate.
  - discriminate.
  - discriminate.
  - exists b, g'. split; [exact H1|exact H2].
Defined.

Definition toy_sender : DhKeyPair := (generate_keypair (3 : @rng Toy)).1.
Definition toy_recipient : DhKeyPair := (generate_keypair (4 : @rng Toy)).1.

Definition toy_cert : SenderCertificate :=
  let body := {| sc_sender_user_id := lit "alice"; sc_sender_device_id := lit "phone";
                 sc_sender_identity_pub := public toy_sender; sc_expires_at := 2000;
                 sc_server_signature := [] |} in
  {| sc_sender_user_id := lit "alice"; sc_sender_device_id := lit "phone";
     sc_sender_identity_pub := public toy_sender; sc_expires_at := 2000;
     sc_server_signature :=
       match cert_signing_body body with Ok b => toy_sign toy_server b | Err _ => [] end |}.

Definition toy_cert_bytes : bytes :=
  match SenderCertificate_encode toy_cert with Ok b => b | Err _ => [] end.

Lemma certified_roundtrip_witness :
  ∃ b g', seal_message_with_cert (secret toy_sender) (public toy_recipient) 1 (lit "bob") (lit "alice")
      (lit "phone") (lit "hello") toy_cert (7 : @rng Toy) = (Ok b, g') ∧
    open_message_with_cert (secret toy_recipient) b 1 (lit "bob") (Some toy_server) 1900 None =
      Ok {| oc_sender_user_id := lit "alice"; oc_sender_device_id := lit "phone";
            oc_payload := lit "hello"; oc_sender_cert := Some toy_cert |}.
Proof.
  apply (certified_roundtrip Toy ToyLaws ToyEd toy_sender toy_recipient toy_cert toy_server 1900 1
    (lit "bob") (lit "hello") toy_cert_bytes None (7 : @rng Toy)).
  - apply generate_keypair_wf.
  - apply generate_keypair_wf.
  - split; [apply id_ok_check; vm_compute; reflexivity|apply id_ok_check; vm_compute; reflexivity|
      vm_compute; reflexivity|vm_compute; discriminate].
  - vm_compute. reflexivity.
  - reflexivity.
  - vm_compute. reflexivity.
  - apply id_ok_check. vm_compute. reflexivity.
  - discriminate.
  - discriminate.
  - vm_compute. discriminate.
Defined.

Lemma certificate_sound_witness :
  ∃ b m, open_message_with_cert (secret toy_recipient) b 1 (lit "bob") (Some toy_server) 1900 None =
      Ok m ∧ oc_sender_cert m = Some toy_cert ∧
    1900 ≤ u64_add (sc_expires_at toy_cert) SENDER_CERT_CLOCK_SKEW_SECS.
Proof.
  set (m := {| oc_sender_user_id := lit "alice"; oc_sender_device_id := lit "phone";
               oc_payload := lit "hello"; oc_sender_cert := Some toy_cert |}).
  destruct (seal_message_with_cert (secret toy_sender) (public toy_recipient) 1 (lit "bob")
    (lit "alice") (lit "phone") (lit "hello") toy_cert (7 : @rng Toy)) as [[b|e] g'] eqn:E;
    [|vm_compute in E; discriminate E].
  assert (Ho : open_message_with_cert (secret toy_recipient) b 1 (lit "bob") (Some toy_server) 1900
    None = Ok m).
  { vm_compute in E. injection E as <- _. vm_compute. reflexivity. }
  exists b, m. split; [exact Ho|]. split; [reflexivity|].
  apply (certificate_sound Toy ToyEd (secret toy_recipient) b (lit "bob") 1 1900 toy_server None m
    toy_cert Ho eq_refl).
Defined.

(** A validity end within the clock skew of the largest [u64] wraps around: the
    certificate that should never expire counts as expired at every moment from
    five minutes after the epoch on. *)
Lemma expiry_wraps `{V : Ed25519} (cert : SenderCertificate) (pk : ed_key) (now : N) :
  sc_expires_at cert = u64_max → 300 ≤ now →
  validate_sender_certificate cert pk now = Err (PolicyViolation "sender_cert.expired").
Proof.
  intros E Hnow. unfold validate_sender_certificate. rewrite E.
  change (u64_add u64_max SENDER_CERT_CLOCK_SKEW_SECS) with 299.
  by rewrite (proj2 (N.ltb_lt 299 now)) by lia.
Qed.
