(* ===== verification/Groups.v ===== *)
(** * Private groups ([pqmsg-core/src/groups.rs]): state and snapshots

    The group state with its members, roles and epoch, the operations that
    change it, its payload codec and the encrypted snapshot a new member
    restores the state from. Group messages, credentials and invites are in
    the next file. *)

From Stdlib Require Import Strings.Byte.
From stdpp Require Import sorting.
From S2P Require Import Prelude Bytes Errors Tlv Crypto Toy Alg Aead Wire.
Local Open Scope N_scope.

Definition GROUP_ID_BYTES : nat := 16.
Definition ROOT_SECRET_BYTES : nat := 32.
Definition MEMBER_CREDENTIAL_SECRET_BYTES : nat := 32.
Definition SNAPSHOT_AAD_LABEL : bytes := lit "pqmsg-private-group-snapshot-v1".

Definition TLV_OWNER_USER_ID : N := critical_type 0x3001.
Definition TLV_GROUP_TITLE : N := critical_type 0x3002.
Definition TLV_GROUP_DESCRIPTION : N := 0x3003.
Definition TLV_GROUP_AVATAR_HASH : N := 0x3004.
Definition TLV_GROUP_TIMER_SECONDS : N := 0x3005.
Definition TLV_GROUP_CREATED_AT : N := critical_type 0x3006.
Definition TLV_GROUP_UPDATED_AT : N := critical_type 0x3007.
Definition TLV_GROUP_MEMBERS : N := critical_type 0x3008.

Definition KNOWN_GROUP_PAYLOAD_TYPES : list N :=
  [TLV_OWNER_USER_ID; TLV_GROUP_TITLE; TLV_GROUP_DESCRIPTION; TLV_GROUP_AVATAR_HASH;
   TLV_GROUP_TIMER_SECONDS; TLV_GROUP_CREATED_AT; TLV_GROUP_UPDATED_AT; TLV_GROUP_MEMBERS].

Record PrivateGroupAttributes := {
  ga_title : bytes;
  ga_description : option bytes;
  ga_avatar_hash_sha256 : option bytes;
  ga_disappearing_message_timer_seconds : option N;
}.

#[export] Instance PrivateGroupAttributes_eq_decision : EqDecision PrivateGroupAttributes.
Proof. solve_decision. Defined.

Inductive PrivateGroupRole := Owner | Admin | Member.

#[export] Instance PrivateGroupRole_eq_decision : EqDecision PrivateGroupRole.
Proof. solve_decision. Defined.

Definition role_to_byte (r : PrivateGroupRole) : byte :=
  match r with Owner => x01 | Admin => x02 | Member => x03 end.

Definition role_from_byte (b : byte) : res PrivateGroupRole :=
  match b with
  | x01 => Ok Owner
  | x02 => Ok Admin
  | x03 => Ok Member
  | _ => Err (MessageParsing "invalid private group role")
  end.

Record PrivateGroupMember := mkMember { gm_user_id : bytes; gm_role : PrivateGroupRole }.

#[export] Instance PrivateGroupMember_eq_decision : EqDecision PrivateGroupMember.
Proof. solve_decision. Defined.

Record PrivateGroupState := mkGroup {
  gs_group_id : bytes;
  gs_epoch : N;
  gs_root_secret : bytes;
  gs_attributes : PrivateGroupAttributes;
  gs_members : list PrivateGroupMember;
  gs_created_at : N;
  gs_updated_at : N;
}.

Record PrivateGroupEncryptedSnapshot := {
  sn_group_id : bytes;
  sn_epoch : N;
  sn_state_commitment_sha256 : bytes;
  sn_ciphertext : CiphertextEnvelope;
}.

Record PrivateGroupInvitePackage := {
  ip_group_id : bytes;
  ip_epoch : N;
  ip_root_secret : bytes;
  ip_snapshot : PrivateGroupEncryptedSnapshot;
}.

(** ** Validation *)

Definition is_blank (s : bytes) : bool := len (str_trim s) =? 0.

Definition is_ascii_hexdigit (b : byte) : bool :=
  in_range 0x30 0x39 b || in_range 0x41 0x46 b || in_range 0x61 0x66 b.

Definition validate_group_attributes (a : PrivateGroupAttributes) : res unit :=
  if is_blank (ga_title a) then Err (PolicyViolation "private group title cannot be blank")
  else match ga_avatar_hash_sha256 a with
  | Some hash =>
      let normalized := str_trim hash in
      if negb ((len normalized =? 64) && forallb is_ascii_hexdigit normalized)
      then Err (PolicyViolation "private group avatar hash must be a 64-character hex SHA-256")
      else Ok tt
  | None => Ok tt
  end.

Definition validate_user_id (user_id : bytes) : res unit :=
  if is_blank user_id then Err (PolicyViolation "private group member user_id cannot be blank")
  else Ok tt.

(** ** Members *)

Definition role_rank (r : PrivateGroupRole) : N :=
  match r with Owner => 0 | Admin => 1 | Member => 2 end.

(** [BTreeMap::entry(k).and_modify(f).or_insert(v)], the map being the list of
    its entries in key order. *)
Fixpoint btree_upsert (k : bytes) (f : PrivateGroupRole → PrivateGroupRole) (v : PrivateGroupRole)
    (m : list PrivateGroupMember) : list PrivateGroupMember :=
  match m with
  | [] => [mkMember k v]
  | e :: m' =>
      if bool_decide (gm_user_id e = k) then mkMember k (f (gm_role e)) :: m'
      else if str_leb k (gm_user_id e) then mkMember k v :: m
      else e :: btree_upsert k f v m'
  end.

Fixpoint normalize_loop (owner_user_id : bytes) (members : list PrivateGroupMember)
    (by_user : list PrivateGroupMember) : res (list PrivateGroupMember) :=
  match members with
  | [] => Ok by_user
  | m :: members =>
      let? _ := validate_user_id (gm_user_id m) in
      let next_role := if bool_decide (gm_user_id m = owner_user_id) then Owner else gm_role m in
      normalize_loop owner_user_id members
        (btree_upsert (gm_user_id m)
           (λ existing, if role_rank next_role <? role_rank existing then next_role else existing)
           next_role by_user)
  end.

Definition normalize_members (owner_user_id : bytes) (initial_members : list PrivateGroupMember)
    : res (list PrivateGroupMember) :=
  let? _ := validate_user_id owner_user_id in
  normalize_loop owner_user_id initial_members [mkMember owner_user_id Owner].

(** [Iterator::find] by user id. *)
Fixpoint find_member (user_id : bytes) (l : list PrivateGroupMember) : option PrivateGroupMember :=
  match l with
  | [] => None
  | m :: l => if bool_decide (gm_user_id m = user_id) then Some m else find_member user_id l
  end.

Fixpoint find_owner (l : list PrivateGroupMember) : option PrivateGroupMember :=
  match l with
  | [] => None
  | m :: l => if bool_decide (gm_role m = Owner) then Some m else find_owner l
  end.

Definition owner_user_id (s : PrivateGroupState) : bytes :=
  match find_owner (gs_members s) with Some m => gm_user_id m | None => [] end.

Definition is_member (user_id : bytes) (l : list PrivateGroupMember) : bool :=
  existsb (λ m, bool_decide (gm_user_id m = user_id)) l.

(** ** Operations on the state *)

Definition set_members (l : list PrivateGroupMember) (s : PrivateGroupState) : PrivateGroupState :=
  mkGroup (gs_group_id s) (gs_epoch s) (gs_root_secret s) (gs_attributes s) l (gs_created_at s)
    (gs_updated_at s).

(** [u64::saturating_add]. *)
Definition saturating_succ (n : N) : N := N.min (n + 1) u64_max.

Definition bump_epoch (updated_at : N) (s : PrivateGroupState) : PrivateGroupState :=
  mkGroup (gs_group_id s) (saturating_succ (gs_epoch s)) (gs_root_secret s) (gs_attributes s)
    (gs_members s) (gs_created_at s) updated_at.

(** [existing.role = next_role] through [iter_mut().find]. *)
Fixpoint set_role (user_id : bytes) (r : PrivateGroupRole) (l : list PrivateGroupMember)
    : list PrivateGroupMember :=
  match l with
  | [] => []
  | m :: l =>
      if bool_decide (gm_user_id m = user_id) then mkMember (gm_user_id m) r :: l
      else m :: set_role user_id r l
  end.

(** [sort_by] on the user id, which is stable: an element goes before the later
    ones that are not smaller. *)
Fixpoint sort_insert (m : PrivateGroupMember) (l : list PrivateGroupMember)
    : list PrivateGroupMember :=
  match l with
  | [] => [m]
  | x :: l' => if str_leb (gm_user_id m) (gm_user_id x) then m :: l else x :: sort_insert m l'
  end.

Definition sort_members (l : list PrivateGroupMember) : list PrivateGroupMember :=
  foldr sort_insert [] l.

Definition add_member (user_id : bytes) (role : PrivateGroupRole) (updated_at : N)
    : SM PrivateGroupState CoreError bool := λ s,
  match validate_user_id user_id with
  | Err e => (s, Err e)
  | Ok _ =>
      let next_role := if bool_decide (user_id = owner_user_id s) then Owner else role in
      match find_member user_id (gs_members s) with
      | Some existing =>
          if bool_decide (gm_role existing = next_role) then (s, Ok false)
          else (bump_epoch updated_at (set_members (set_role user_id next_role (gs_members s)) s),
                Ok true)
      | None =>
          (bump_epoch updated_at
             (set_members (sort_members (gs_members s ++ [mkMember user_id next_role])) s), Ok true)
      end
  end.

Definition remove_member (user_id : bytes) (updated_at : N)
    : SM PrivateGroupState CoreError bool := λ s,
  if bool_decide (user_id = owner_user_id s)
  then (s, Err (PolicyViolation "private group owner cannot be removed"))
  else
    let retained := filter (λ m, gm_user_id m ≠ user_id) (gs_members s) in
    if (length retained =? length (gs_members s))%nat then (set_members retained s, Ok false)
    else (bump_epoch updated_at (set_members retained s), Ok true).

Definition update_attributes (attributes : PrivateGroupAttributes) (updated_at : N)
    : SM PrivateGroupState CoreError bool := λ s,
  match validate_group_attributes attributes with
  | Err e => (s, Err e)
  | Ok _ =>
      if bool_decide (gs_attributes s = attributes) then (s, Ok false)
      else (bump_epoch updated_at
              (mkGroup (gs_group_id s) (gs_epoch s) (gs_root_secret s) attributes (gs_members s)
                 (gs_created_at s) (gs_updated_at s)), Ok true)
  end.

(** ** The payload codec *)

Definition decode_utf8_field (v : bytes) : res bytes := parse_utf8 v "private_group_field".

Definition decode_u64_field (v : bytes) : res N := parse_uint 8 v "private_group_u64".

Definition decode_u32_field (v : bytes) : res N := parse_uint 4 v "private_group_u32".

(** The loop of [encode_members]. *)
Fixpoint encode_member_entries (members : list PrivateGroupMember) : res bytes :=
  match members with
  | [] => Ok []
  | m :: members =>
      let? _ := validate_user_id (gm_user_id m) in
      if u16_max <? len (gm_user_id m)
      then Err (InvalidLength "private_group.member.user_id" u16_max (len (gm_user_id m)))
      else
        let? rest := encode_member_entries members in
        Ok (u16_be (len (gm_user_id m)) ++ gm_user_id m ++ [role_to_byte (gm_role m)] ++ rest)
  end.

Definition encode_members (members : list PrivateGroupMember) : res bytes :=
  let count := N.of_nat (length members) in
  if u16_max <? count then Err (InvalidLength "private_group.members" u16_max count)
  else
    let? entries := encode_member_entries members in
    Ok (u16_be count ++ entries).

(** The loop of [decode_members] on the input from the cursor on: the members
    read and what is left of the input. *)
Fixpoint decode_member_entries (count : nat) (input : bytes)
    : res (list PrivateGroupMember * bytes) :=
  match count with
  | O => Ok ([], input)
  | S count =>
      if (length input <? 3)%nat
      then Err (MessageParsing "private group member entry truncated")
      else
        let user_id_len := N.to_nat (from_be (take 2 input)) in
        let input := drop 2 input in
        if (length input <? user_id_len + 1)%nat
        then Err (MessageParsing "private group member user_id truncated")
        else
          let? user_id := decode_utf8_field (take user_id_len input) in
          let input := drop user_id_len input in
          let? role := role_from_byte (nth 0 input x00) in
          let? (members, rest) := decode_member_entries count (drop 1 input) in
          Ok (mkMember user_id role :: members, rest)
  end.

Definition decode_members (input : bytes) : res (list PrivateGroupMember) :=
  if (length input <? 2)%nat then Err (MessageParsing "private group members payload truncated")
  else
    let? (members, rest) :=
      decode_member_entries (N.to_nat (from_be (take 2 input))) (drop 2 input) in
    if negb (length rest =? 0)%nat
    then Err (MessageParsing "private group members payload has trailing bytes")
    else Ok members.

Definition group_payload_records (s : PrivateGroupState) (members : bytes) : list TlvRecord :=
  [ mkTlv TLV_OWNER_USER_ID (owner_user_id s);
    mkTlv TLV_GROUP_TITLE (ga_title (gs_attributes s));
    mkTlv TLV_GROUP_CREATED_AT (u64_be (gs_created_at s));
    mkTlv TLV_GROUP_UPDATED_AT (u64_be (gs_updated_at s));
    mkTlv TLV_GROUP_MEMBERS members ] ++
  opt_record TLV_GROUP_DESCRIPTION (ga_description (gs_attributes s)) ++
  opt_record TLV_GROUP_AVATAR_HASH (ga_avatar_hash_sha256 (gs_attributes s)) ++
  opt_record TLV_GROUP_TIMER_SECONDS
    (u32_be <$> ga_disappearing_message_timer_seconds (gs_attributes s)).

Definition encode_group_payload (s : PrivateGroupState) : res bytes :=
  let? members := encode_members (gs_members s) in
  encode (group_payload_records s members).

(** [records.iter().find(|record| record.ty == t)]. *)
Definition payload_record (records : list TlvRecord) (t : N) : option bytes :=
  (λ p, value p.2) <$> list_find (λ record, ty record = t) records.

Definition decode_group_payload (group_id : bytes) (epoch : N) (root_secret payload : bytes)
    : res PrivateGroupState :=
  let? records := decode_strict payload KNOWN_GROUP_PAYLOAD_TYPES in
  let? v := require records TLV_OWNER_USER_ID "group.owner_user_id" in
  let? owner_user_id := decode_utf8_field v in
  let? v := require records TLV_GROUP_TITLE "group.title" in
  let? title := decode_utf8_field v in
  let? v := require records TLV_GROUP_CREATED_AT "group.created_at_unix_seconds" in
  let? created_at := decode_u64_field v in
  let? v := require records TLV_GROUP_UPDATED_AT "group.updated_at_unix_seconds" in
  let? updated_at := decode_u64_field v in
  let? description := res_transpose (decode_utf8_field <$> payload_record records TLV_GROUP_DESCRIPTION) in
  let? avatar_hash := res_transpose (decode_utf8_field <$> payload_record records TLV_GROUP_AVATAR_HASH) in
  let? timer := res_transpose (decode_u32_field <$> payload_record records TLV_GROUP_TIMER_SECONDS) in
  let? v := require records TLV_GROUP_MEMBERS "group.members" in
  let? members := decode_members v in
  let? normalized_members := normalize_members owner_user_id members in
  let attributes := {| ga_title := title; ga_description := description;
                       ga_avatar_hash_sha256 := avatar_hash;
                       ga_disappearing_message_timer_seconds := timer |} in
  let? _ := validate_group_attributes attributes in
  Ok (mkGroup group_id epoch root_secret attributes normalized_members created_at updated_at).

(** ** Creation, snapshots and invites *)

Definition hex_digit (n : N) : byte := byte_of_N (if n <? 10 then 0x30 + n else 0x57 + n).

Definition hex_encode (input : bytes) : bytes :=
  b ← input; [hex_digit (N.shiftr (Byte.to_N b) 4); hex_digit (N.land (Byte.to_N b) 0x0f)].

Definition snapshot_aad (group_id : bytes) (epoch : N) : bytes :=
  SNAPSHOT_AAD_LABEL ++ lit ":" ++ group_id ++ lit ":" ++ decimal epoch.

Section Snapshots.
Context `{P : Primitives}.

Definition new_with_rng (owner_user_id : bytes) (attributes : PrivateGroupAttributes)
    (initial_members : list PrivateGroupMember) (created_at : N) (g : rng)
    : res PrivateGroupState * rng :=
  match (let? _ := validate_group_attributes attributes in
         normalize_members owner_user_id initial_members) with
  | Err e => (Err e, g)
  | Ok members =>
      let '(group_id_bytes, g) := rng_fill GROUP_ID_BYTES g in
      let '(root_secret, g) := rng_fill ROOT_SECRET_BYTES g in
      (Ok (mkGroup (hex_encode group_id_bytes) 1 root_secret attributes members created_at
             created_at), g)
  end.

Definition derive_snapshot_key (root_secret group_id : bytes) (epoch : N) : res bytes :=
  hkdf_sha256_32 root_secret None
    (SNAPSHOT_AAD_LABEL ++ lit ":key:" ++ group_id ++ lit ":" ++ decimal epoch).

Definition sha256_bytes (input : bytes) : bytes := sha256 input.

Definition encrypted_snapshot_with_rng (s : PrivateGroupState) (g : rng)
    : res PrivateGroupEncryptedSnapshot * rng :=
  match (let? payload := encode_group_payload s in
         let? key := derive_snapshot_key (gs_root_secret s) (gs_group_id s) (gs_epoch s) in
         Ok (payload, key)) with
  | Err e => (Err e, g)
  | Ok (payload, key) =>
      let '(r, g) := encrypt_with_rng key (pad_blocks payload PADDING_BLOCK_SIZE)
                       (snapshot_aad (gs_group_id s) (gs_epoch s)) g in
      (let? ciphertext := r in
       Ok {| sn_group_id := gs_group_id s; sn_epoch := gs_epoch s;
             sn_state_commitment_sha256 := sha256_bytes payload; sn_ciphertext := ciphertext |}, g)
  end.

Definition export_invite_package_with_rng (s : PrivateGroupState) (g : rng)
    : res PrivateGroupInvitePackage * rng :=
  let '(r, g) := encrypted_snapshot_with_rng s g in
  (let? snapshot := r in
   Ok {| ip_group_id := gs_group_id s; ip_epoch := gs_epoch s;
         ip_root_secret := gs_root_secret s; ip_snapshot := snapshot |}, g).

Definition restore_from_invite_package (package : PrivateGroupInvitePackage)
    : res PrivateGroupState :=
  let snapshot := ip_snapshot package in
  if negb (bool_decide (sn_group_id snapshot = ip_group_id package))
  then Err (PolicyViolation "private group invite package group_id mismatch")
  else if negb (sn_epoch snapshot =? ip_epoch package)
  then Err (PolicyViolation "private group invite package epoch mismatch")
  else
    let? key := derive_snapshot_key (ip_root_secret package) (ip_group_id package)
                  (ip_epoch package) in
    if negb (bool_decide (aad (sn_ciphertext snapshot) =
                          snapshot_aad (ip_group_id package) (ip_epoch package)))
    then Err (PolicyViolation "private group snapshot aad mismatch")
    else
      let? decrypted := decrypt key (sn_ciphertext snapshot) in
      let? payload := unpad_plaintext decrypted in
      if negb (bool_decide (sha256_bytes payload = sn_state_commitment_sha256 snapshot))
      then Err (PolicyViolation "private group snapshot commitment mismatch")
      else decode_group_payload (ip_group_id package) (ip_epoch package) (ip_root_secret package)
             payload.
End Snapshots.

(** ** Sorted member lists *)

Definition member_lt (a b : PrivateGroupMember) : Prop :=
  str_leb (gm_user_id b) (gm_user_id a) = false.

(** In increasing order of user ids, so without repetition. *)
Abbreviation members_sorted := (StronglySorted member_lt).

#[export] Instance member_lt_trans : Transitive member_lt.
Proof.
  intros a b c Hab Hbc. unfold member_lt in *.
  destruct (str_leb (gm_user_id c) (gm_user_id a)) eqn:E; [|done].
  apply str_leb_total in Hbc. by rewrite (str_leb_trans _ _ _ Hbc E) in Hab.
Qed.

Lemma member_lt_ne (a b : PrivateGroupMember) : member_lt a b → gm_user_id a ≠ gm_user_id b.
Proof. unfold member_lt. intros H E. by rewrite E, str_leb_refl in H. Qed.

Lemma member_lt_of_le (a b : PrivateGroupMember) :
  str_leb (gm_user_id a) (gm_user_id b) = true → gm_user_id a ≠ gm_user_id b → member_lt a b.
Proof.
  intros H Hne. unfold member_lt. destruct (str_leb (gm_user_id b) (gm_user_id a)) eqn:E; [|done].
  by destruct Hne; apply str_leb_antisym.
Qed.

Lemma members_sorted_inj (l : list PrivateGroupMember) (a b : PrivateGroupMember) :
  members_sorted l → a ∈ l → b ∈ l → gm_user_id a = gm_user_id b → a = b.
Proof.
  induction 1 as [|m l _ IH Hm]; [by intros ?%not_elem_of_nil|]. rewrite list.Forall_forall in Hm.
  intros [->|Ha]%elem_of_cons [->|Hb]%elem_of_cons E; [done| | |by apply IH].
  - by destruct (member_lt_ne _ _ (Hm b Hb)).
  - by destruct (member_lt_ne _ _ (Hm a Ha)).
Qed.

Lemma members_sorted_NoDup (l : list PrivateGroupMember) : members_sorted l → NoDup l.
Proof.
  induction 1 as [|m l _ IH Hm]; constructor; [|done]. rewrite list.Forall_forall in Hm.
  intros Hin. by destruct (member_lt_ne _ _ (Hm m Hin)).
Qed.

(** A sorted list is determined by its elements. *)
Lemma members_sorted_ext (l k : list PrivateGroupMember) :
  members_sorted l → members_sorted k → (∀ m, m ∈ l ↔ m ∈ k) → l = k.
Proof.
  intros Hl Hk H.
  apply (StronglySorted_unique_strong member_lt); [|done|done|].
  - intros a b _ _ Hab Hba. exfalso. unfold member_lt in *. apply str_leb_total in Hab. congruence.
  - apply NoDup_Permutation; auto using members_sorted_NoDup.
Qed.

Lemma find_member_elem (l : list PrivateGroupMember) (k : bytes) (m : PrivateGroupMember) :
  find_member k l = Some m → m ∈ l ∧ gm_user_id m = k.
Proof.
  induction l as [|x l IH]; [done|]. simpl. case_bool_decide as E.
  - intros [= <-]. split; [left|done].
  - intros [? ?]%IH. split; [by right|done].
Qed.

Lemma find_member_none (l : list PrivateGroupMember) (k : bytes) :
  find_member k l = None ↔ ∀ m, m ∈ l → gm_user_id m ≠ k.
Proof.
  induction l as [|x l IH]; simpl; [split; [by intros _ m ?%not_elem_of_nil|done]|].
  case_bool_decide as E.
  - split; [done|]. intros H. by destruct (H x); [left|].
  - rewrite IH. setoid_rewrite elem_of_cons. naive_solver.
Qed.

Lemma find_member_iff (l : list PrivateGroupMember) (m : PrivateGroupMember) :
  members_sorted l → find_member (gm_user_id m) l = Some m ↔ m ∈ l.
Proof.
  intros Hl. split; [by intros [? _]%find_member_elem|]. intros Hm.
  destruct (find_member (gm_user_id m) l) as [x|] eqn:E.
  - apply find_member_elem in E as [Hx Hid]. f_equal. by eapply members_sorted_inj.
  - rewrite find_member_none in E. by destruct (E m Hm).
Qed.

Lemma find_owner_elem (l : list PrivateGroupMember) (m : PrivateGroupMember) :
  find_owner l = Some m → m ∈ l ∧ gm_role m = Owner.
Proof.
  induction l as [|x l IH]; [done|]. simpl. case_bool_decide as E.
  - intros [= <-]. split; [left|done].
  - intros [? ?]%IH. split; [by right|done].
Qed.

Lemma find_owner_some (l : list PrivateGroupMember) (m : PrivateGroupMember) :
  m ∈ l → gm_role m = Owner → is_Some (find_owner l).
Proof.
  induction l as [|x l IH]; [by intros ?%not_elem_of_nil|]. simpl. case_bool_decide; [eauto|].
  intros [->|?]%elem_of_cons ?; [done|auto].
Qed.

Lemma is_member_iff (l : list PrivateGroupMember) (k : bytes) :
  is_member k l = true ↔ ∃ m, m ∈ l ∧ gm_user_id m = k.
Proof.
  unfold is_member. rewrite existsb_exists. setoid_rewrite list_elem_of_In.
  split; intros (m & ? & H); exists m; (split; [done|]); by apply bool_decide_eq_true in H || apply bool_decide_eq_true.
Qed.

(** *** The operations on lists *)

(** What an upsert writes at its key. *)
Definition upserted (k : bytes) (f : PrivateGroupRole → PrivateGroupRole) (v : PrivateGroupRole)
    (l : list PrivateGroupMember) : PrivateGroupMember :=
  mkMember k (match find_member k l with Some e => f (gm_role e) | None => v end).

Lemma btree_upsert_elem (k : bytes) (f : PrivateGroupRole → PrivateGroupRole) (v : PrivateGroupRole)
    (l : list PrivateGroupMember) (m : PrivateGroupMember) :
  members_sorted l →
  m ∈ btree_upsert k f v l ↔ (m ∈ l ∧ gm_user_id m ≠ k) ∨ m = upserted k f v l.
Proof.
  unfold upserted. induction 1 as [|x l Hl IH Hx]; simpl.
  - rewrite list_elem_of_singleton. set_solver.
  - rewrite list.Forall_forall in Hx. case_bool_decide as E.
    + rewrite !elem_of_cons. split; [intros [-> |Hm]|intros [[[-> |Hm] ?]| ->]]; [by right| |done|by right|by left].
      left. split; [by right|]. rewrite <- E. apply not_eq_sym, member_lt_ne. by apply Hx.
    + destruct (str_leb k (gm_user_id x)) eqn:Hk.
      * assert (Hn : ∀ y, y ∈ x :: l → gm_user_id y ≠ k).
        { intros y [->|Hy]%elem_of_cons; [done|]. intros <-. specialize (Hx y Hy).
          unfold member_lt in Hx. congruence. }
        rewrite (proj2 (find_member_none l k)) by (intros y Hy; apply Hn; by right).
        rewrite elem_of_cons. naive_solver.
      * rewrite !elem_of_cons, IH. naive_solver.
Qed.

Lemma btree_upsert_sorted (k : bytes) (f : PrivateGroupRole → PrivateGroupRole)
    (v : PrivateGroupRole) (l : list PrivateGroupMember) :
  members_sorted l → members_sorted (btree_upsert k f v l).
Proof.
  induction 1 as [|x l Hl IH Hx]; simpl; [repeat constructor|].
  case_bool_decide as E; [|destruct (str_leb k (gm_user_id x)) eqn:Hk].
  - subst k. constructor; [done|]. eapply list.Forall_impl; [exact Hx|done].
  - constructor; [by constructor|].
    assert (Hkx : member_lt (mkMember k v) x) by (by apply member_lt_of_le; [|apply not_eq_sym]).
    constructor; [done|]. eapply list.Forall_impl; [exact Hx|]. intros y Hy. by transitivity x.
  - constructor; [done|]. apply list.Forall_forall. intros y.
    rewrite btree_upsert_elem by done. intros [[Hy _]| ->].
    + rewrite list.Forall_forall in Hx. by apply Hx.
    + exact Hk.
Qed.

Lemma set_role_elem (k : bytes) (r : PrivateGroupRole) (l : list PrivateGroupMember)
    (m : PrivateGroupMember) :
  members_sorted l → is_Some (find_member k l) →
  m ∈ set_role k r l ↔ (m ∈ l ∧ gm_user_id m ≠ k) ∨ m = mkMember k r.
Proof.
  induction 1 as [|x l Hl IH Hx]; simpl; [by intros [? ?]|].
  case_bool_decide as E; intros Hs.
  - subst k. rewrite !elem_of_cons. rewrite list.Forall_forall in Hx.
    split; [intros [-> |Hm]|intros [[[-> |Hm] ?]| ->]]; [by right| |done|by right|by left].
    left. split; [by right|]. by apply not_eq_sym, member_lt_ne, Hx.
  - rewrite !elem_of_cons, IH by done. naive_solver.
Qed.

Lemma set_role_lower (x : PrivateGroupMember) (k : bytes) (r : PrivateGroupRole)
    (l : list PrivateGroupMember) :
  Forall (member_lt x) l → Forall (member_lt x) (set_role k r l).
Proof. induction 1; simpl; [constructor|]. by case_bool_decide; constructor. Qed.

Lemma set_role_sorted (k : bytes) (r : PrivateGroupRole) (l : list PrivateGroupMember) :
  members_sorted l → members_sorted (set_role k r l).
Proof.
  induction 1 as [|x l Hl IH Hx]; simpl; [constructor|]. case_bool_decide as E.
  - constructor; [done|]. eapply list.Forall_impl; [exact Hx|done].
  - constructor; [done|]. by apply set_role_lower.
Qed.

Lemma sort_insert_elem (x m : PrivateGroupMember) (l : list PrivateGroupMember) :
  m ∈ sort_insert x l ↔ m = x ∨ m ∈ l.
Proof.
  induction l as [|y l IH]; simpl; [by rewrite elem_of_cons|].
  destruct (str_leb _ _); rewrite !elem_of_cons, ?IH, ?elem_of_cons; naive_solver.
Qed.

Lemma sort_insert_sorted (x : PrivateGroupMember) (l : list PrivateGroupMember) :
  members_sorted l → find_member (gm_user_id x) l = None → members_sorted (sort_insert x l).
Proof.
  induction 1 as [|y l Hl IH Hy]; simpl; intros Hn; [repeat constructor|].
  case_bool_decide as E; [done|].
  destruct (str_leb (gm_user_id x) (gm_user_id y)) eqn:Hxy.
  - assert (Hlt : member_lt x y) by (by apply member_lt_of_le; [|apply not_eq_sym]).
    constructor; [by constructor|]. constructor; [done|]. eapply list.Forall_impl; [exact Hy|].
    intros z Hz. by transitivity y.
  - constructor; [auto|]. apply list.Forall_forall. intros z [-> |Hz]%sort_insert_elem; [done|].
    rewrite list.Forall_forall in Hy. by apply Hy.
Qed.

Lemma sort_members_elem (l : list PrivateGroupMember) (m : PrivateGroupMember) :
  m ∈ sort_members l ↔ m ∈ l.
Proof.
  induction l as [|x l IH]; [done|]. simpl. rewrite sort_insert_elem, elem_of_cons, IH. done.
Qed.

Lemma sort_members_sorted (l : list PrivateGroupMember) :
  NoDup (gm_user_id <$> l) → members_sorted (sort_members l).
Proof.
  induction l as [|x l IH]; simpl; [constructor|]. intros [Hx Hl]%list.NoDup_cons.
  apply sort_insert_sorted; [auto|]. apply find_member_none. intros m Hm E. rewrite sort_members_elem in Hm.
  destruct Hx.
  rewrite <- E. by apply (list_elem_of_fmap_2 gm_user_id).
Qed.

(** What normalization makes of the entries [src]: sorted, every id of [src]
    present, every member from [src] with its role unless it is the owner. *)
Definition normalized (owner : bytes) (src l : list PrivateGroupMember) : Prop :=
  members_sorted l ∧ mkMember owner Owner ∈ l ∧
  (∀ m, m ∈ l → ∃ m', m' ∈ src ∧ gm_user_id m' = gm_user_id m ∧
     (gm_user_id m ≠ owner → gm_role m = gm_role m')) ∧
  (∀ m', m' ∈ src → ∃ m, m ∈ l ∧ gm_user_id m = gm_user_id m').

Lemma upserted_role (owner : bytes) (src l : list PrivateGroupMember) (x m : PrivateGroupMember)
    (next : PrivateGroupRole) :
  normalized owner src l →
  next = (if bool_decide (gm_user_id x = owner) then Owner else gm_role x) →
  m = upserted (gm_user_id x) (λ r, if role_rank next <? role_rank r then next else r) next l →
  (gm_user_id x ≠ owner → ∃ m', m' ∈ src ++ [x] ∧ gm_user_id m' = gm_user_id x ∧ gm_role m = gm_role m') ∧
  (gm_user_id x = owner → gm_role m = Owner).
Proof.
  intros (Hs & Ho & Hfrom & _) -> ->. unfold upserted. simpl. split; intros Hx.
  - rewrite bool_decide_eq_false_2 by done.
    destruct (find_member (gm_user_id x) l) as [e|] eqn:Hf.
    + apply find_member_elem in Hf as [He Hide]. destruct (role_rank (gm_role x) <? _).
      * exists x. split; [apply elem_of_app; right; by left|done].
      * destruct (Hfrom e He) as (m' & Hm' & Hid & Hr). exists m'.
        split; [apply elem_of_app; by left|]. split; [congruence|]. apply Hr. congruence.
    + exists x. split; [apply elem_of_app; right; by left|done].
  - rewrite bool_decide_eq_true_2, Hx by done.
    apply find_member_iff in Ho; [|done]. simpl in Ho. rewrite Ho. simpl. done.
Qed.

Lemma normalize_step (owner : bytes) (src l : list PrivateGroupMember) (x : PrivateGroupMember)
    (next : PrivateGroupRole) :
  normalized owner src l →
  next = (if bool_decide (gm_user_id x = owner) then Owner else gm_role x) →
  normalized owner (src ++ [x])
    (btree_upsert (gm_user_id x) (λ r, if role_rank next <? role_rank r then next else r) next l).
Proof.
  intros Hn Hnext. pose proof (upserted_role owner src l x _ next Hn Hnext eq_refl) as [Hr1 Hr2].
  destruct Hn as (Hs & Ho & Hfrom & Hto).
  split; [by apply btree_upsert_sorted|].
  setoid_rewrite btree_upsert_elem; [|done..]. split; [|split].
  - destruct (decide (gm_user_id x = owner)) as [E|E]; [right|left; split; [done|simpl; congruence]].
    specialize (Hr2 E). unfold upserted in *. simpl in *. by rewrite E in *; rewrite Hr2.
  - intros m [[Hm _]| ->].
    + destruct (Hfrom m Hm) as (m' & ? & ?). exists m'. split; [apply elem_of_app; by left|done].
    + simpl. destruct (decide (gm_user_id x = owner)) as [E|E].
      * exists x. split; [apply elem_of_app; right; by left|done].
      * destruct (Hr1 E) as (m' & ? & ? & ?). by exists m'.
  - intros m' [Hm'|Hx]%elem_of_app.
    + destruct (Hto m' Hm') as (m & Hm & Hid). destruct (decide (gm_user_id m = gm_user_id x)) as [E|E].
      * eexists. split; [by right|]. simpl. congruence.
      * exists m. split; [by left|done].
    + apply list_elem_of_singleton in Hx as ->. eexists. split; [by right|done].
Qed.

Lemma normalize_loop_spec (owner : bytes) (ms src by_user l : list PrivateGroupMember) :
  normalized owner src by_user → normalize_loop owner ms by_user = Ok l →
  normalized owner (src ++ ms) l ∧ Forall (λ m, validate_user_id (gm_user_id m) = Ok tt) ms.
Proof.
  revert src by_user. induction ms as [|x ms IH]; intros src by_user Hs H; simpl in H.
  { injection H as <-. rewrite app_nil_r. split; [done|constructor]. }
  destruct (validate_user_id (gm_user_id x)) as [[]|] eqn:Hv; [|done].
  destruct (IH (src ++ [x]) _ (normalize_step owner src by_user x _ Hs eq_refl) H) as [Hl Hall].
  rewrite <- app_assoc in Hl. split; [done|by constructor].
Qed.

Lemma normalize_loop_ok (owner : bytes) (ms by_user : list PrivateGroupMember) :
  Forall (λ m, validate_user_id (gm_user_id m) = Ok tt) ms →
  ∃ l, normalize_loop owner ms by_user = Ok l.
Proof.
  intros H. revert by_user. induction H as [|x ms Hx _ IH]; intros by_user; simpl; [eauto|].
  rewrite Hx. apply IH.
Qed.

Lemma normalize_members_spec (owner : bytes) (ms l : list PrivateGroupMember) :
  normalize_members owner ms = Ok l →
  normalized owner (mkMember owner Owner :: ms) l ∧
  Forall (λ m, validate_user_id (gm_user_id m) = Ok tt) (mkMember owner Owner :: ms).
Proof.
  unfold normalize_members. destruct (validate_user_id owner) as [[]|] eqn:Hv; [|done].
  assert (Hn : normalized owner [mkMember owner Owner] [mkMember owner Owner]).
  { split; [repeat constructor|]. split; [by left|]. split; intros m Hm; by exists m. }
  intros [Hl Hall]%(normalize_loop_spec owner ms _ _ _ Hn). split; [done|by constructor].
Qed.

(** Normalization leaves a sorted list with its owner alone. *)
Lemma normalize_members_id (owner : bytes) (ms : list PrivateGroupMember) :
  members_sorted ms → mkMember owner Owner ∈ ms →
  Forall (λ m, validate_user_id (gm_user_id m) = Ok tt) ms → normalize_members owner ms = Ok ms.
Proof.
  intros Hs Ho Hv. assert (Hv' := Hv). rewrite list.Forall_forall in Hv'.
  destruct (normalize_loop_ok owner ms [mkMember owner Owner] Hv) as [l Hl].
  assert (Hn : normalize_members owner ms = Ok l).
  { unfold normalize_members. by rewrite (Hv' _ Ho : validate_user_id owner = _). }
  rewrite Hn. f_equal. apply normalize_members_spec in Hn as [(Hls & Hlo & Hfrom & Hto) _].
  assert (Hsub : ∀ m, m ∈ l → m ∈ ms).
  { intros m Hm. destruct (decide (gm_user_id m = owner)) as [E|E].
    - by rewrite (members_sorted_inj l m _ Hls Hm Hlo E).
    - destruct (Hfrom m Hm) as (m' & [-> |Hm']%elem_of_cons & Hid & Hr); [by destruct E|].
      specialize (Hr E). destruct m, m'. simpl in *. by subst. }
  apply members_sorted_ext; [done..|]. intros m. split; [by apply Hsub|]. intros Hm.
  destruct (Hto m) as (m' & Hm' & Hid); [by right|].
  by rewrite <- (members_sorted_inj ms m' m Hs (Hsub _ Hm') Hm Hid).
Qed.

(** ** The state invariant *)

Record group_wf (s : PrivateGroupState) : Prop := {
  gw_sorted : members_sorted (gs_members s);
  gw_ids : Forall (λ m, validate_user_id (gm_user_id m) = Ok tt) (gs_members s);
  gw_owner : mkMember (owner_user_id s) Owner ∈ gs_members s;
  gw_attributes : validate_group_attributes (gs_attributes s) = Ok tt;
}.

Lemma owner_user_id_elem (s : PrivateGroupState) :
  is_Some (find_owner (gs_members s)) → mkMember (owner_user_id s) Owner ∈ gs_members s.
Proof.
  unfold owner_user_id. intros [m Hm]. rewrite Hm. apply find_owner_elem in Hm as [Hin Hr].
  by rewrite <- Hr; destruct m.
Qed.

(** What is fixed at creation. *)
Definition same_group (s s' : PrivateGroupState) : Prop :=
  gs_group_id s' = gs_group_id s ∧ gs_root_secret s' = gs_root_secret s ∧
  gs_created_at s' = gs_created_at s.

(** The operations a client issues on a state it holds. *)
Inductive GroupOp :=
| OpAddMember (user_id : bytes) (role : PrivateGroupRole) (updated_at : N)
| OpRemoveMember (user_id : bytes) (updated_at : N)
| OpUpdateAttributes (attributes : PrivateGroupAttributes) (updated_at : N).

Definition group_op (op : GroupOp) : SM PrivateGroupState CoreError bool :=
  match op with
  | OpAddMember u r t => add_member u r t
  | OpRemoveMember u t => remove_member u t
  | OpUpdateAttributes a t => update_attributes a t
  end.

(** A run, counting the operations that reported a change. *)
Fixpoint group_run (ops : list GroupOp) (s : PrivateGroupState) : PrivateGroupState * N :=
  match ops with
  | [] => (s, 0)
  | op :: ops =>
      let '(s, r) := group_op op s in
      let '(s, n) := group_run ops s in
      (s, match r with Ok true => n + 1 | _ => n end)
  end.

(** Membership and roles after adding a member. *)
Lemma add_member_elem (u : bytes) (r : PrivateGroupRole) (t : N) (s s' : PrivateGroupState)
    (b : bool) :
  group_wf s → add_member u r t s = (s', Ok b) →
  ∀ m, m ∈ gs_members s' ↔
    (m ∈ gs_members s ∧ gm_user_id m ≠ u) ∨
    m = mkMember u (if bool_decide (u = owner_user_id s) then Owner else r).
Proof.
  intros [Hs _ _ _] H m. unfold add_member in H. destruct (validate_user_id u) as [[]|]; [|done].
  set (nr := if bool_decide _ then _ else _) in *.
  destruct (find_member u (gs_members s)) as [e|] eqn:Hf.
  - case_bool_decide as Hr; injection H as <- <-; simpl.
    + apply find_member_elem in Hf as [He Hid]. assert (He' : mkMember u nr = e).
      { destruct e. simpl in *. by subst. }
      rewrite He'. split; [|by intros [[? _]| ->]]. intros Hm.
      destruct (decide (gm_user_id m = u)) as [E|E]; [right|by left].
      eapply members_sorted_inj; eauto. congruence.
    + by apply set_role_elem; [|eexists].
  - injection H as <- <-. simpl. rewrite sort_members_elem, elem_of_app, list_elem_of_singleton.
    rewrite find_member_none in Hf. split; intros [?|?]; auto; naive_solver.
Qed.

Lemma add_member_sorted (u : bytes) (r : PrivateGroupRole) (t : N) (s : PrivateGroupState) :
  members_sorted (gs_members s) → members_sorted (gs_members (add_member u r t s).1).
Proof.
  intros Hs. unfold add_member. destruct (validate_user_id u) as [[]|]; [|done].
  destruct (find_member u (gs_members s)) eqn:Hf.
  - case_bool_decide; [done|]. by apply set_role_sorted.
  - apply sort_members_sorted. rewrite fmap_app. simpl. apply list.NoDup_app. split; [|split].
    + clear Hf. induction Hs as [|x l _ IH Hx]; constructor; [|done].
      intros (y & Hy & Hin)%list_elem_of_fmap. rewrite list.Forall_forall in Hx.
      by destruct (member_lt_ne _ _ (Hx y Hin)).
    + intros k (y & -> & Hin)%list_elem_of_fmap Hk%list_elem_of_singleton.
      rewrite find_member_none in Hf. by destruct (Hf y Hin).
    + apply NoDup_singleton.
Qed.

(** An operation keeps the group's identity and counts its change in the epoch. *)
Definition op_frame (s s' : PrivateGroupState) (r : res bool) : Prop :=
  same_group s s' ∧
  gs_epoch s' = match r with Ok true => saturating_succ (gs_epoch s) | _ => gs_epoch s end ∧
  (r ≠ Ok true → gs_members s' = gs_members s ∧ gs_attributes s' = gs_attributes s ∧
     gs_updated_at s' = gs_updated_at s).

Lemma filter_same_length (u : bytes) (l : list PrivateGroupMember) :
  length (filter (λ m, gm_user_id m ≠ u) l) = length l → filter (λ m, gm_user_id m ≠ u) l = l.
Proof.
  induction l as [|x l IH]; [done|]. rewrite filter_cons. destruct (decide _); simpl; intros H.
  - f_equal. apply IH. lia.
  - pose proof (length_filter (λ m, gm_user_id m ≠ u) l). lia.
Qed.

Lemma group_op_frame (op : GroupOp) (s : PrivateGroupState) :
  op_frame s (group_op op s).1 (group_op op s).2.
Proof.
  destruct op; simpl.
  - unfold add_member. destruct (validate_user_id user_id) as [[]|]; [|done].
    destruct (find_member _ _); [|done]. by case_bool_decide.
  - unfold remove_member. case_bool_decide; [done|].
    destruct (_ =? _)%nat eqn:E; [|done]. split; [done|]. split; [done|]. intros _. simpl.
    bool_to_prop. by rewrite filter_same_length.
  - unfold update_attributes. destruct (validate_group_attributes attributes); [|done].
    by case_bool_decide.
Qed.

Lemma find_owner_stays (s : PrivateGroupState) (l : list PrivateGroupMember) :
  mkMember (owner_user_id s) Owner ∈ l → is_Some (find_owner l).
Proof. intros H. by apply (find_owner_some l _ H). Qed.

Lemma add_member_wf (u : bytes) (r : PrivateGroupRole) (t : N) (s : PrivateGroupState) :
  group_wf s → group_wf (add_member u r t s).1.
Proof.
  intros Hwf. destruct (add_member u r t s) as [s' [b|e]] eqn:H.
  - pose proof (add_member_elem u r t s s' b Hwf H) as Hel.
    pose proof (add_member_sorted u r t s (gw_sorted s Hwf)) as Hs. rewrite H in Hs. simpl in *.
    assert (Hu : validate_user_id u = Ok tt).
    { unfold add_member in H. by destruct (validate_user_id u) as [[]|]. }
    assert (Ha : gs_attributes s' = gs_attributes s).
    { unfold add_member in H. rewrite Hu in H. destruct (find_member _ _) as [e|];
        [destruct (bool_decide (gm_role e = _))|]; by injection H as <- <-. }
    split; [done| | |by rewrite Ha; apply gw_attributes].
    + apply list.Forall_forall. intros m [[Hm _]| ->]%Hel; [|done].
      pose proof (gw_ids s Hwf) as Hi. rewrite list.Forall_forall in Hi. auto.
    + apply owner_user_id_elem, (find_owner_stays s), Hel.
      destruct (decide (owner_user_id s = u)) as [<-|E]; [|left; split; [by apply gw_owner|done]].
      right. by rewrite bool_decide_eq_true_2.
  - unfold add_member in H. destruct (validate_user_id u) as [[]|]; [|by injection H as <- _].
    destruct (find_member _ _) as [x|]; [destruct (bool_decide (gm_role x = _))|]; done.
Qed.

Lemma remove_member_elem (u : bytes) (t : N) (s : PrivateGroupState) (m : PrivateGroupMember) :
  u ≠ owner_user_id s →
  m ∈ gs_members (remove_member u t s).1 ↔ m ∈ gs_members s ∧ gm_user_id m ≠ u.
Proof.
  intros Hu. unfold remove_member. rewrite bool_decide_eq_false_2 by done.
  destruct (_ =? _)%nat; simpl; rewrite list_elem_of_filter; naive_solver.
Qed.

Lemma filter_sorted (u : bytes) (l : list PrivateGroupMember) :
  members_sorted l → members_sorted (filter (λ m, gm_user_id m ≠ u) l).
Proof.
  induction 1 as [|x l _ IH Hx]; [constructor|]. rewrite filter_cons. destruct (decide _); [|done].
  constructor; [done|]. apply list.Forall_forall. intros y [_ Hy]%list_elem_of_filter.
  rewrite list.Forall_forall in Hx. auto.
Qed.

Lemma remove_member_wf (u : bytes) (t : N) (s : PrivateGroupState) :
  group_wf s → group_wf (remove_member u t s).1.
Proof.
  intros Hwf. destruct (decide (u = owner_user_id s)) as [E|E].
  { unfold remove_member. by rewrite bool_decide_eq_true_2. }
  pose proof (λ m, remove_member_elem u t s m E) as Hel.
  assert (Hm : gs_members (remove_member u t s).1 = filter (λ m, gm_user_id m ≠ u) (gs_members s)
    ∧ gs_attributes (remove_member u t s).1 = gs_attributes s).
  { unfold remove_member. rewrite bool_decide_eq_false_2 by done. by destruct (_ =? _)%nat. }
  destruct Hm as [Hm Ha]. split.
  - rewrite Hm. by apply filter_sorted, gw_sorted.
  - apply list.Forall_forall. intros m [Hin _]%Hel.
    pose proof (gw_ids s Hwf) as Hi. rewrite list.Forall_forall in Hi. auto.
  - apply owner_user_id_elem, (find_owner_stays s), Hel. split; [by apply gw_owner|done].
  - rewrite Ha. by apply gw_attributes.
Qed.

Lemma update_attributes_wf (a : PrivateGroupAttributes) (t : N) (s : PrivateGroupState) :
  group_wf s → group_wf (update_attributes a t s).1.
Proof.
  intros Hwf. unfold update_attributes. destruct (validate_group_attributes a) as [[]|] eqn:Hv; [|done].
  case_bool_decide; [done|]. destruct Hwf. by split.
Qed.

Lemma group_op_wf (op : GroupOp) (s : PrivateGroupState) : group_wf s → group_wf (group_op op s).1.
Proof. destruct op; [apply add_member_wf|apply remove_member_wf|apply update_attributes_wf]. Qed.

Lemma group_run_facts (ops : list GroupOp) (s : PrivateGroupState) :
  group_wf s → gs_epoch s ≤ u64_max →
  group_wf (group_run ops s).1 ∧ same_group s (group_run ops s).1 ∧
  gs_epoch (group_run ops s).1 = N.min (gs_epoch s + (group_run ops s).2) u64_max.
Proof.
  revert s. induction ops as [|op ops IH]; intros s Hwf He; simpl.
  { split; [done|]. split; [done|]. lia. }
  pose proof (group_op_wf op s Hwf) as Hwf'. pose proof (group_op_frame op s) as (Hg & Hep & _).
  destruct (group_op op s) as [s1 r]. simpl in *.
  assert (He1 : gs_epoch s1 ≤ u64_max).
  { rewrite Hep. destruct r as [[]|]; [|done..]. unfold saturating_succ. lia. }
  destruct (IH s1 Hwf' He1) as (H1 & (G1 & G2 & G3) & H3). destruct (group_run ops s1) as [s2 n].
  simpl in *. split; [done|]. split; [destruct Hg as (? & ? & ?); repeat split; congruence|].
  rewrite H3, Hep. destruct r as [[]|]; [|done..]. unfold saturating_succ. lia.
Qed.

(** ** States of a group *)

(** The states a client can hold: a new group, a state restored from an invite
    package, or the state after an operation. *)
Inductive group_reachable `{P : Primitives} : PrivateGroupState → Prop :=
| reach_new owner attributes members created g s g' :
    new_with_rng owner attributes members created g = (Ok s, g') → group_reachable s
| reach_restored package s :
    restore_from_invite_package package = Ok s → group_reachable s
| reach_op op s : group_reachable s → group_reachable (group_op op s).1.

Lemma normalized_wf (owner : bytes) (ms : list PrivateGroupMember) (s : PrivateGroupState) :
  normalize_members owner ms = Ok (gs_members s) →
  validate_group_attributes (gs_attributes s) = Ok tt → group_wf s.
Proof.
  intros [(Hs & Ho & Hfrom & _) Hv]%normalize_members_spec Ha. rewrite list.Forall_forall in Hv.
  split; [done| | |done].
  - apply list.Forall_forall. intros m Hm. destruct (Hfrom m Hm) as (m' & Hm' & <- & _). auto.
  - apply owner_user_id_elem. by apply (find_owner_some _ _ Ho).
Qed.

Lemma decode_group_payload_wf (id : bytes) (ep : N) (root payload : bytes) (s : PrivateGroupState) :
  decode_group_payload id ep root payload = Ok s → group_wf s.
Proof.
  unfold decode_group_payload. intros H. inv_ok H. subst s. eapply normalized_wf; simpl; eauto.
  match goal with H : validate_group_attributes _ = Ok ?u |- _ => by destruct u end.
Qed.

Section GroupStates.
Context `{P : Primitives}.

Lemma new_with_rng_ok (owner : bytes) (a : PrivateGroupAttributes) (ms : list PrivateGroupMember)
    (t : N) (g g' : rng) (s : PrivateGroupState) :
  new_with_rng owner a ms t g = (Ok s, g') →
  normalize_members owner ms = Ok (gs_members s) ∧
  validate_group_attributes (gs_attributes s) = Ok tt ∧ gs_epoch s = 1.
Proof.
  unfold new_with_rng. destruct (validate_group_attributes a) as [[]|] eqn:Ha; [|done].
  destruct (normalize_members owner ms) eqn:Hn; [|done].
  destruct (rng_fill GROUP_ID_BYTES g), (rng_fill ROOT_SECRET_BYTES _). by intros [= <- _].
Qed.

Lemma restore_wf (package : PrivateGroupInvitePackage) (s : PrivateGroupState) :
  restore_from_invite_package package = Ok s → group_wf s.
Proof.
  unfold restore_from_invite_package. intros H. cbv zeta in H.
  destruct (negb _); [done|]. destruct (negb _); [done|].
  destruct (derive_snapshot_key _ _ _); [|done]. destruct (negb _); [done|].
  destruct (decrypt _ _); [|done]. destruct (unpad_plaintext _); [|done].
  destruct (negb _); [done|]. by apply decode_group_payload_wf in H.
Qed.
End GroupStates.

(** Every state a client can hold is well formed, whatever invite package it was
    restored from and whatever operations were asked for: the members are in
    increasing order of their ids without repetition, no id is blank, the title
    and avatar are valid, and the group has an owner, the member the owner
    checks are about. *)
Theorem group_reachable_wf (P : Primitives) (s : PrivateGroupState) :
  group_reachable s → group_wf s.
Proof.
  induction 1 as [owner a ms t g s g' H|package s H|op s _ IH].
  - apply new_with_rng_ok in H as (? & ? & _). by eapply normalized_wf.
  - by apply restore_wf in H.
  - by apply group_op_wf.
Qed.

(** *** Ownership *)

(** The founder is the one owner. *)
Definition sole_owner (founder : bytes) (s : PrivateGroupState) : Prop :=
  ∀ m, m ∈ gs_members s → gm_role m = Owner ↔ gm_user_id m = founder.

Definition grants_no_ownership (founder : bytes) (op : GroupOp) : Prop :=
  match op with OpAddMember u r _ => r = Owner → u = founder | _ => True end.

Lemma sole_owner_id (founder : bytes) (s : PrivateGroupState) :
  group_wf s → sole_owner founder s → owner_user_id s = founder.
Proof. intros Hwf H. by apply (H _ (gw_owner s Hwf)). Qed.

Lemma group_op_sole_owner (founder : bytes) (op : GroupOp) (s : PrivateGroupState) :
  group_wf s → sole_owner founder s → grants_no_ownership founder op →
  sole_owner founder (group_op op s).1.
Proof.
  intros Hwf Hso Hop. pose proof (sole_owner_id _ _ Hwf Hso) as Hid. destruct op; simpl in *.
  - destruct (add_member user_id role updated_at s) as [s' [b|e]] eqn:H.
    + intros m Hm. apply (add_member_elem _ _ _ _ _ _ Hwf H) in Hm as [[Hm _]| ->]; [by apply Hso|].
      simpl. rewrite Hid. case_bool_decide; [done|]. naive_solver.
    + unfold add_member in H. destruct (validate_user_id user_id) as [[]|]; [|by injection H as <- _].
      destruct (find_member _ _) as [x|]; [destruct (bool_decide (gm_role x = _))|]; done.
  - intros m Hm. destruct (decide (user_id = owner_user_id s)) as [E|E].
    + unfold remove_member in Hm. rewrite bool_decide_eq_true_2 in Hm by done. by apply Hso.
    + apply remove_member_elem in Hm as [Hm _]; [|done]. by apply Hso.
  - unfold update_attributes. destruct (validate_group_attributes attributes); [|done].
    by case_bool_decide.
Qed.

Lemma group_run_sole_owner (founder : bytes) (ops : list GroupOp) (s : PrivateGroupState) :
  group_wf s → sole_owner founder s → Forall (grants_no_ownership founder) ops →
  sole_owner founder (group_run ops s).1.
Proof.
  intros Hwf Hso H. revert s Hwf Hso. induction H as [|op ops Hop _ IH]; intros s Hwf Hso; [done|].
  simpl. pose proof (group_op_wf op s Hwf). pose proof (group_op_sole_owner founder op s Hwf Hso Hop).
  destruct (group_op op s) as [s1 r]. simpl in *. specialize (IH s1).
  destruct (group_run ops s1) as [s2 n]. auto.
Qed.

Lemma new_sole_owner `{P : Primitives} (founder : bytes) (a : PrivateGroupAttributes)
    (ms : list PrivateGroupMember) (t : N) (g g' : rng) (s : PrivateGroupState) :
  new_with_rng founder a ms t g = (Ok s, g') →
  Forall (λ m, gm_role m = Owner → gm_user_id m = founder) ms → sole_owner founder s.
Proof.
  intros [Hn _]%new_with_rng_ok Hms m Hm. rewrite list.Forall_forall in Hms.
  apply normalize_members_spec in Hn as [(Hs & Ho & Hfrom & _) _]. split.
  - intros Hr. destruct (decide (gm_user_id m = founder)) as [|E]; [done|].
    destruct (Hfrom m Hm) as (m' & [-> |Hm']%elem_of_cons & Hid & Hrole); [done|].
    rewrite <- Hid. apply Hms; [done|]. by rewrite <- Hrole.
  - intros Hid. by rewrite (members_sorted_inj _ _ _ Hs Hm Ho).
Qed.

(** C29: a group evolves by counted epochs under one founder. After any run of
    operations on a new group the group id, the root secret and the creation
    time are the ones drawn at creation, and the epoch is one plus the number
    of operations that reported a change, up to the largest [u64]. If nobody
    but the founder was given the owner role, at creation or later, then the
    founder is still a member and is the only owner, whatever was added,
    demoted or removed. *)
Theorem group_run_spec (P : Primitives) (founder : bytes) (a : PrivateGroupAttributes)
    (ms : list PrivateGroupMember) (t : N) (g g' : rng) (s0 : PrivateGroupState)
    (ops : list GroupOp) :
  new_with_rng founder a ms t g = (Ok s0, g') →
  same_group s0 (group_run ops s0).1 ∧
  gs_epoch (group_run ops s0).1 = N.min (1 + (group_run ops s0).2) u64_max ∧
  (Forall (λ m, gm_role m = Owner → gm_user_id m = founder) ms →
   Forall (grants_no_ownership founder) ops →
   mkMember founder Owner ∈ gs_members (group_run ops s0).1 ∧
   sole_owner founder (group_run ops s0).1).
Proof.
  intros H. pose proof (new_with_rng_ok _ _ _ _ _ _ _ H) as (Hn & Ha & He).
  pose proof (normalized_wf _ _ _ Hn Ha) as Hwf.
  destruct (group_run_facts ops s0 Hwf) as (Hwf' & Hg & Hep); [rewrite He; done|].
  rewrite He in Hep. split; [done|]. split; [done|]. intros Hms Hops.
  pose proof (group_run_sole_owner founder ops s0 Hwf (new_sole_owner _ _ _ _ _ _ _ H Hms) Hops) as Hso.
  split; [|done]. rewrite <- (sole_owner_id _ _ Hwf' Hso). by apply gw_owner.
Qed.

Definition sample_attributes : PrivateGroupAttributes :=
  {| ga_title := lit "team"; ga_description := None; ga_avatar_hash_sha256 := None;
     ga_disappearing_message_timer_seconds := Some 3600 |}.

Definition sample_group : PrivateGroupState :=
  match (new_with_rng (lit "bob") sample_attributes [mkMember (lit "carol") Member] 7
           (0 : @rng Toy)).1 with
  | Ok s => s
  | Err _ => mkGroup [] 0 [] sample_attributes [] 0 0
  end.

Lemma group_run_spec_witness :
  gs_epoch (group_run [OpAddMember (lit "alice") Admin 8; OpRemoveMember (lit "carol") 9;
                       OpRemoveMember (lit "bob") 9] sample_group).1 = 3 ∧
  mkMember (lit "bob") Owner ∈
    gs_members (group_run [OpAddMember (lit "alice") Admin 8; OpRemoveMember (lit "carol") 9;
                           OpRemoveMember (lit "bob") 9] sample_group).1.
Proof.
  destruct (group_run_spec Toy (lit "bob") sample_attributes [mkMember (lit "carol") Member] 7
              (0 : @rng Toy) (2 : @rng Toy) sample_group
              [OpAddMember (lit "alice") Admin 8; OpRemoveMember (lit "carol") 9;
               OpRemoveMember (lit "bob") 9]) as (_ & He & Ho).
  - vm_compute. reflexivity.
  - split; [rewrite He; vm_compute; reflexivity|]. apply Ho.
    + by repeat constructor.
    + by repeat constructor.
Defined.

(** Given the owner role, a member whose id comes earlier takes the place of the
    founder in the owner checks, and the founder can be removed. *)
Lemma second_owner_removes_founder :
  group_run [OpAddMember (lit "alice") Owner 8; OpRemoveMember (lit "bob") 9] sample_group =
  (mkGroup (gs_group_id sample_group) 3 (gs_root_secret sample_group) sample_attributes
     [mkMember (lit "alice") Owner; mkMember (lit "carol") Member] 7 9, 2).
Proof. vm_compute. reflexivity. Qed.

(** ** The snapshot round trip *)

Lemma role_from_to_byte (r : PrivateGroupRole) : role_from_byte (role_to_byte r) = Ok r.
Proof. by destruct r. Qed.

(** The octets a member list takes. *)
Definition members_size (ms : list PrivateGroupMember) : nat :=
  sum_list_with (λ m, 3 + length (gm_user_id m))%nat ms.

Lemma members_size_cons (m : PrivateGroupMember) (ms : list PrivateGroupMember) :
  members_size (m :: ms) = (3 + length (gm_user_id m) + members_size ms)%nat.
Proof. done. Qed.

Lemma encode_member_entries_ok (ms : list PrivateGroupMember) :
  Forall (λ m, validate_user_id (gm_user_id m) = Ok tt) ms →
  N.of_nat (members_size ms) ≤ u16_max →
  ∃ b, encode_member_entries ms = Ok b ∧ length b = members_size ms.
Proof.
  induction 1 as [|m ms Hm _ IH]; intros Hsz; [by exists []|]. rewrite members_size_cons in *.
  destruct IH as (b & Hb & Hl); [lia|].
  cbn [encode_member_entries]. rewrite Hm, Hb.
  rewrite (proj2 (N.ltb_ge _ _)) by (unfold len; lia). eexists. split; [reflexivity|].
  rewrite !length_app, length_u16_be, Hl. simpl. lia.
Qed.

Lemma decode_member_entries_encode (ms : list PrivateGroupMember) (b rest : bytes) :
  Forall (λ m, utf8_valid (gm_user_id m) = true) ms → encode_member_entries ms = Ok b →
  decode_member_entries (length ms) (b ++ rest) = Ok (ms, rest).
Proof.
  intros Hu. revert b. induction Hu as [|m ms Hm _ IH]; intros b H;
    cbn [encode_member_entries decode_member_entries length] in *.
  { by injection H as <-. }
  destruct (validate_user_id _); [|done]. destruct (u16_max <? len (gm_user_id m)) eqn:Hl; [done|].
  destruct (encode_member_entries ms) as [e|]; [|done]. bool_to_prop. apply Ok_inj in H as <-.
  rewrite <- !app_assoc.
  rewrite (proj2 (Nat.ltb_ge _ _)) by (rewrite !length_app, length_u16_be; simpl; lia).
  rewrite take_app_len, drop_app_len by (by rewrite length_u16_be). rewrite from_u16_be by done.
  replace (N.to_nat (len (gm_user_id m))) with (length (gm_user_id m)) by (unfold len; lia).
  rewrite (proj2 (Nat.ltb_ge _ _)) by (rewrite !length_app; simpl; lia).
  rewrite take_app_length, drop_app_length. unfold decode_utf8_field. rewrite parse_utf8_ok by done.
  cbn [app nth drop]. rewrite role_from_to_byte, drop_0, IH by done. by destruct m.
Qed.

Lemma encode_members_ok (ms : list PrivateGroupMember) :
  Forall (λ m, validate_user_id (gm_user_id m) = Ok tt) ms →
  Forall (λ m, utf8_valid (gm_user_id m) = true) ms →
  N.of_nat (2 + members_size ms) ≤ u16_max →
  ∃ b, encode_members ms = Ok b ∧ fits b = true ∧ decode_members b = Ok ms.
Proof.
  intros Hv Hu Hsz. assert (Hc : (length ms ≤ members_size ms)%nat).
  { clear. induction ms; [done|]. rewrite members_size_cons. simpl. lia. }
  destruct (encode_member_entries_ok ms Hv) as (b & Hb & Hl); [lia|].
  unfold encode_members. rewrite (proj2 (N.ltb_ge _ _)), Hb by lia.
  eexists. split; [reflexivity|].
  split; [apply N.leb_le; unfold len; rewrite length_app, length_u16_be; lia|].
  unfold decode_members. rewrite (proj2 (Nat.ltb_ge _ _)) by (rewrite length_app, length_u16_be; lia).
  rewrite take_app_len, drop_app_len by (by rewrite length_u16_be).
  rewrite from_u16_be, Nat2N.id by lia. rewrite <- (app_nil_r b).
  by rewrite decode_member_entries_encode.
Qed.

(** The state's strings are UTF-8 and its fields fit their records. *)
Record group_encodable (s : PrivateGroupState) : Prop := {
  ge_ids : Forall (λ m, utf8_valid (gm_user_id m) = true) (gs_members s);
  ge_size : N.of_nat (2 + members_size (gs_members s)) ≤ u16_max;
  ge_title : utf8_valid (ga_title (gs_attributes s)) = true ∧ fits (ga_title (gs_attributes s)) = true;
  ge_description : ∀ v, ga_description (gs_attributes s) = Some v →
    utf8_valid v = true ∧ fits v = true;
  ge_avatar : ∀ v, ga_avatar_hash_sha256 (gs_attributes s) = Some v →
    utf8_valid v = true ∧ fits v = true;
  ge_timer : ∀ n, ga_disappearing_message_timer_seconds (gs_attributes s) = Some n → n ≤ u32_max;
  ge_times : gs_created_at s ≤ u64_max ∧ gs_updated_at s ≤ u64_max;
}.

Lemma group_payload_tags (s : PrivateGroupState) (ms : bytes) :
  tags_ok KNOWN_GROUP_PAYLOAD_TYPES (ty <$> group_payload_records s ms) = true.
Proof. by destruct s as [? ? ? [? [] [] []] ? ? ?]. Qed.

Lemma require_find (records : list TlvRecord) (t : N) (f : string) :
  require records t f = ok_or (rec_find t records) (MissingField f) ∧
  payload_record records t = rec_find t records.
Proof.
  unfold require, payload_record. induction records as [|r rs IH]; [done|]. simpl.
  destruct (N.eqb_spec (ty r) t) as [E|E].
  - by rewrite decide_True.
  - rewrite decide_False by done. by destruct (list_find _ rs) as [[]|].
Qed.

Lemma group_payload_find (s : PrivateGroupState) (ms : bytes) (rs : list TlvRecord) :
  rs = group_payload_records s ms →
  rec_find TLV_OWNER_USER_ID rs = Some (owner_user_id s) ∧
  rec_find TLV_GROUP_TITLE rs = Some (ga_title (gs_attributes s)) ∧
  rec_find TLV_GROUP_CREATED_AT rs = Some (u64_be (gs_created_at s)) ∧
  rec_find TLV_GROUP_UPDATED_AT rs = Some (u64_be (gs_updated_at s)) ∧
  rec_find TLV_GROUP_MEMBERS rs = Some ms ∧
  rec_find TLV_GROUP_DESCRIPTION rs = ga_description (gs_attributes s) ∧
  rec_find TLV_GROUP_AVATAR_HASH rs = ga_avatar_hash_sha256 (gs_attributes s) ∧
  rec_find TLV_GROUP_TIMER_SECONDS rs =
    u32_be <$> ga_disappearing_message_timer_seconds (gs_attributes s).
Proof. intros ->. by destruct s as [? ? ? [? [] [] []] ? ? ?]. Qed.

Lemma transpose_utf8 (o : option bytes) :
  (∀ v, o = Some v → utf8_valid v = true ∧ fits v = true) →
  res_transpose (decode_utf8_field <$> o) = Ok o.
Proof.
  intros H. destruct o as [v|]; [|done]. simpl. unfold decode_utf8_field.
  by rewrite parse_utf8_ok by (by apply H).
Qed.

Lemma transpose_u32 (o : option N) :
  (∀ n, o = Some n → n ≤ u32_max) → res_transpose (decode_u32_field <$> (u32_be <$> o)) = Ok o.
Proof.
  intros H. destruct o as [n|]; [|done].
  change (res_transpose (Some (decode_u32_field (u32_be n))) = Ok (Some n)).
  by rewrite (parse_u32_ok n "private_group_u32" (H n eq_refl) : decode_u32_field _ = _).
Qed.

Lemma decode_u64_field_ok (n : N) : n ≤ u64_max → decode_u64_field (u64_be n) = Ok n.
Proof.
  intros. unfold decode_u64_field, parse_uint. rewrite length_u64_be. simpl. by rewrite from_u64_be.
Qed.

Lemma group_payload_fits (s : PrivateGroupState) (mb : bytes) :
  group_encodable s → fits (owner_user_id s) = true → fits mb = true →
  ∃ b, encode (group_payload_records s mb) = Ok b ∧ len b ≤ 8 * 65539.
Proof.
  intros [_ _ [_ Ht] Hd Ha _ _] Ho Hm.
  destruct (encode_fits (group_payload_records s mb)) as [b Hb].
  { unfold group_payload_records. rewrite !forallb_app, !forallb_opt_record. simpl.
    rewrite Ho, Ht, Hm. destruct s as [? ? ? [? [d|] [a|] [t|]] ? ? ?]; simpl in *;
      rewrite ?(proj2 (Hd _ eq_refl)), ?(proj2 (Ha _ eq_refl)); done. }
  exists b. split; [done|]. pose proof (encode_fits_inv _ _ Hb) as Hf. apply encode_length in Hb.
  unfold len. rewrite Hb. clear Hb.
  assert (Hl : (length (group_payload_records s mb) ≤ 8)%nat)
    by (destruct s as [? ? ? [? [] [] []] ? ? ?]; simpl; lia).
  assert (Hsum : ∀ rs : list TlvRecord, forallb (λ r, fits (value r)) rs = true →
    N.of_nat (sum_list_with (λ r, 4 + length (value r))%nat rs) ≤ N.of_nat (length rs) * 65539).
  { induction rs as [|r rs IH]; simpl; [lia|]. intros [Hr Hrs]%andb_true_iff. specialize (IH Hrs).
    apply N.leb_le in Hr. unfold len, u16_max in Hr. simpl in IH. lia. }
  specialize (Hsum _ Hf). lia.
Qed.

Lemma owner_id_encodable (s : PrivateGroupState) :
  group_wf s → group_encodable s →
  utf8_valid (owner_user_id s) = true ∧ fits (owner_user_id s) = true.
Proof.
  intros [_ _ Ho _] [Hu Hsz _ _ _ _ _]. rewrite list.Forall_forall in Hu.
  split; [by apply (Hu _ Ho)|]. apply N.leb_le. unfold len.
  apply list_elem_of_split in Ho as (l1 & l2 & Hl). rewrite Hl in Hsz. unfold members_size in Hsz.
  rewrite sum_list_with_app in Hsz. simpl in Hsz. lia.
Qed.

Lemma group_payload_roundtrip (s : PrivateGroupState) :
  group_wf s → group_encodable s →
  ∃ b, encode_group_payload s = Ok b ∧ len b ≤ 8 * 65539 ∧
    decode_group_payload (gs_group_id s) (gs_epoch s) (gs_root_secret s) b = Ok s.
Proof.
  intros Hwf He. destruct (owner_id_encodable s Hwf He) as [Hou Hof].
  destruct (encode_members_ok (gs_members s) (gw_ids s Hwf) (ge_ids s He) (ge_size s He))
    as (mb & Hmb & Hmf & Hmd).
  destruct (group_payload_fits s mb He Hof Hmf) as (b & Hb & Hlen).
  exists b. unfold encode_group_payload. rewrite Hmb. split; [done|]. split; [done|].
  unfold decode_group_payload. rewrite (decode_strict_encode _ _ _ (group_payload_tags s mb) Hb).
  rewrite !(λ t f, proj1 (require_find (group_payload_records s mb) t f)),
    !(λ t, proj2 (require_find (group_payload_records s mb) t EmptyString)).
  destruct (group_payload_find s mb _ eq_refl) as (-> & -> & -> & -> & -> & -> & -> & ->).
  cbn [ok_or]. unfold decode_utf8_field at 1 2. rewrite !parse_utf8_ok by (done || apply (ge_title s He)).
  rewrite !decode_u64_field_ok by apply (ge_times s He).
  rewrite !transpose_utf8 by apply He. rewrite transpose_u32, Hmd by apply He.
  rewrite normalize_members_id by apply Hwf.
  pose proof (gw_attributes s Hwf) as Ha. destruct s as [? ? ? [] ? ? ?]. simpl in *. by rewrite Ha.
Qed.

(** Exporting succeeds and the package restores the state. *)
Lemma export_restore `{P : Primitives} `{!PrimitiveLaws P} (s : PrivateGroupState) (g : rng) :
  group_wf s → group_encodable s →
  ∃ package g', export_invite_package_with_rng s g = (Ok package, g') ∧
    restore_from_invite_package package = Ok s ∧
    ip_group_id package = gs_group_id s ∧ ip_epoch package = gs_epoch s ∧
    sn_group_id (ip_snapshot package) = gs_group_id s ∧ sn_epoch (ip_snapshot package) = gs_epoch s.
Proof.
  intros Hwf He. destruct (group_payload_roundtrip s Hwf He) as (b & Hb & Hlen & Hd).
  unfold export_invite_package_with_rng, encrypted_snapshot_with_rng. rewrite Hb.
  destruct (hkdf_sha256_32_ok (gs_root_secret s) None
    (SNAPSHOT_AAD_LABEL ++ lit ":key:" ++ gs_group_id s ++ lit ":" ++ decimal (gs_epoch s)))
    as (k & Hk & _).
  assert (Hk' : derive_snapshot_key (gs_root_secret s) (gs_group_id s) (gs_epoch s) = Ok k) by done.
  rewrite Hk'.
  destruct (encrypt_with_rng_ok k (pad_blocks b PADDING_BLOCK_SIZE)
    (snapshot_aad (gs_group_id s) (gs_epoch s)) g) as (env & g' & Henc & _ & _ & Hdec).
  { pose proof (pad_blocks_bound b PADDING_BLOCK_SIZE ltac:(unfold PADDING_BLOCK_SIZE; lia)) as Hp.
    unfold len, u32_max, PADDING_BLOCK_SIZE in *. lia. }
  pose proof (encrypt_with_rng_aad _ _ _ _ _ _ Henc) as Haad. rewrite Henc.
  eexists _, g'. split; [reflexivity|]. unfold restore_from_invite_package. simpl.
  split; [|done]. rewrite !bool_decide_eq_true_2, N.eqb_refl, Hk' by done. simpl.
  destruct env as [n c ad]. simpl in *. subst ad. rewrite Hdec. unfold PADDING_BLOCK_SIZE.
  by rewrite unpad_pad, bool_decide_eq_true_2 by (done || lia).
Qed.

(** A snapshot restores the state it was taken of. For a well-formed state
    whose strings are UTF-8 and whose member list takes at most 65535 octets,
    exporting an invite package succeeds and restoring from it gives back the
    very same state. A package whose outer epoch or group id was replaced is
    refused before anything is decrypted. *)
Theorem snapshot_roundtrip (P : Primitives) (L : PrimitiveLaws P) (s : PrivateGroupState) (g : rng) :
  group_wf s → group_encodable s →
  ∃ package g', export_invite_package_with_rng s g = (Ok package, g') ∧
    restore_from_invite_package package = Ok s ∧
    (∀ epoch, epoch ≠ gs_epoch s →
       restore_from_invite_package
         {| ip_group_id := ip_group_id package; ip_epoch := epoch;
            ip_root_secret := ip_root_secret package; ip_snapshot := ip_snapshot package |}
       = Err (PolicyViolation "private group invite package epoch mismatch")) ∧
    (∀ id, id ≠ gs_group_id s →
       restore_from_invite_package
         {| ip_group_id := id; ip_epoch := ip_epoch package;
            ip_root_secret := ip_root_secret package; ip_snapshot := ip_snapshot package |}
       = Err (PolicyViolation "private group invite package group_id mismatch")).
Proof.
  intros Hwf He. destruct (export_restore s g Hwf He) as (p & g' & Hp & Hr & Hid & Hep & Hsid & Hsep).
  exists p, g'. split; [done|]. split; [done|]. unfold restore_from_invite_package. simpl.
  split; intros x Hne.
  - by rewrite bool_decide_eq_true_2, (proj2 (N.eqb_neq _ _)) by congruence.
  - by rewrite bool_decide_eq_false_2 by congruence.
Qed.

Lemma sample_group_wf : group_wf sample_group.
Proof.
  apply (normalized_wf (lit "bob") [mkMember (lit "carol") Member]); vm_compute; reflexivity.
Qed.

Lemma snapshot_roundtrip_witness :
  ∃ package g', export_invite_package_with_rng sample_group (3 : @rng Toy) = (Ok package, g') ∧
    restore_from_invite_package package = Ok sample_group.
Proof.
  destruct (snapshot_roundtrip Toy ToyLaws sample_group (3 : @rng Toy)) as (package & g' & H1 & H2 & _).
  - exact sample_group_wf.
  - split.
    + by repeat constructor.
    + vm_compute. discriminate.
    + split; vm_compute; reflexivity.
    + intros v Hv. vm_compute in Hv. discriminate Hv.
    + intros v Hv. vm_compute in Hv. discriminate Hv.
    + intros n Hn. vm_compute in Hn. injection Hn as <-. vm_compute. discriminate.
    + split; vm_compute; discriminate.
  - exists package, g'. split; [exact H1|exact H2].
Defined.
