(* ===== verification/GroupMessages.v ===== *)
(** * Private groups: messages, credentials and invites ([pqmsg-core/src/groups.rs])

    Messages of a group epoch with their hybrid signature, the per-epoch member
    credentials, the join packages and epoch transitions built from them, and
    invites carried by a link. [serde_json] is the pair of conversions
    [JoinJson]. *)

From Stdlib Require Import Strings.Byte.
From S2P Require Import Prelude Bytes Errors Tlv Crypto Toy Alg Aead Wire PqSig Groups.
Local Open Scope N_scope.

Definition MEMBER_CREDENTIAL_HANDLE_LABEL : bytes := lit "pqmsg-private-group-member-handle-v1".
Definition MEMBER_CREDENTIAL_COMMITMENT_LABEL : bytes :=
  lit "pqmsg-private-group-member-commitment-v1".
Definition MEMBER_CREDENTIAL_FETCH_KEY_LABEL : bytes :=
  lit "pqmsg-private-group-member-fetch-key-v1".
Definition MEMBER_CREDENTIAL_PUBLISH_KEY_LABEL : bytes :=
  lit "pqmsg-private-group-member-publish-key-v1".
Definition GROUP_MESSAGE_KEY_LABEL : bytes := lit "pqmsg-private-group-message-key-v1".
Definition GROUP_INVITE_LINK_KEY_LABEL : bytes := lit "pqmsg-private-group-link-invite-v1".
Definition GROUP_MESSAGE_AAD_LABEL : bytes := lit "pqmsg-private-group-message-aad-v1".
Definition GROUP_MESSAGE_SIGNATURE_LABEL : bytes := lit "pqmsg-private-group-message-signature-v1".

Definition TLV_GROUP_MESSAGE_LABEL : N := critical_type 0x3010.
Definition TLV_GROUP_MESSAGE_GROUP_ID : N := critical_type 0x3011.
Definition TLV_GROUP_MESSAGE_EPOCH : N := critical_type 0x3012.
Definition TLV_GROUP_MESSAGE_SENDER_USER_ID : N := critical_type 0x3013.
Definition TLV_GROUP_MESSAGE_SENT_AT : N := critical_type 0x3014.
Definition TLV_GROUP_MESSAGE_NONCE : N := critical_type 0x3015.
Definition TLV_GROUP_MESSAGE_CIPHERTEXT : N := critical_type 0x3016.
Definition TLV_GROUP_MESSAGE_AAD : N := critical_type 0x3017.

Record PrivateGroupEncryptedMessage := {
  em_group_id : bytes;
  em_epoch : N;
  em_sender_user_id : bytes;
  em_sent_at_unix_ms : N;
  em_ciphertext : CiphertextEnvelope;
  em_sender_hybrid_signature : bytes;
}.

Record PrivateGroupDecryptedMessage := {
  dm_group_id : bytes;
  dm_epoch : N;
  dm_sender_user_id : bytes;
  dm_sent_at_unix_ms : N;
  dm_body : bytes;
}.

Record PrivateGroupMemberCredential := {
  mc_group_id : bytes;
  mc_epoch : N;
  mc_member_user_id : bytes;
  mc_role : PrivateGroupRole;
  mc_credential_secret : bytes;
}.

Record PrivateGroupJoinPackage := {
  jp_invite : PrivateGroupInvitePackage;
  jp_member_credential : PrivateGroupMemberCredential;
}.

Record PrivateGroupLinkInviteEnvelope := {
  le_group_id : bytes;
  le_epoch : N;
  le_invite_commitment_sha256 : bytes;
  le_ciphertext : CiphertextEnvelope;
}.

Record PrivateGroupLinkInviteMaterial := {
  lm_invite_secret : bytes;
  lm_envelope : PrivateGroupLinkInviteEnvelope;
}.

Record PrivateGroupEpochTransition := {
  et_next_state : PrivateGroupState;
  et_member_credentials : list PrivateGroupMemberCredential;
  et_added_member_join_package : option PrivateGroupJoinPackage;
}.

(** ** Messages *)

Definition message_aad (group_id : bytes) (epoch : N) (sender_user_id : bytes) (sent_at : N)
    : bytes :=
  GROUP_MESSAGE_AAD_LABEL ++ group_id ++ u64_be epoch ++ sender_user_id ++ u64_be sent_at.

Definition message_signature_records (m : PrivateGroupEncryptedMessage) : list TlvRecord :=
  [ mkTlv TLV_GROUP_MESSAGE_LABEL GROUP_MESSAGE_SIGNATURE_LABEL;
    mkTlv TLV_GROUP_MESSAGE_GROUP_ID (em_group_id m);
    mkTlv TLV_GROUP_MESSAGE_EPOCH (u64_be (em_epoch m));
    mkTlv TLV_GROUP_MESSAGE_SENDER_USER_ID (em_sender_user_id m);
    mkTlv TLV_GROUP_MESSAGE_SENT_AT (u64_be (em_sent_at_unix_ms m));
    mkTlv TLV_GROUP_MESSAGE_NONCE (nonce (em_ciphertext m));
    mkTlv TLV_GROUP_MESSAGE_CIPHERTEXT (ciphertext (em_ciphertext m));
    mkTlv TLV_GROUP_MESSAGE_AAD (aad (em_ciphertext m)) ].

Definition encode_message_signature_payload (m : PrivateGroupEncryptedMessage) : res bytes :=
  encode (message_signature_records m).

Definition validate_private_group_message_membership (s : PrivateGroupState)
    (m : PrivateGroupEncryptedMessage) : res unit :=
  if negb (bool_decide (em_group_id m = gs_group_id s))
  then Err (PolicyViolation "private group message group_id mismatch")
  else if negb (em_epoch m =? gs_epoch s)
  then Err (PolicyViolation "private group message epoch mismatch")
  else if negb (is_member (em_sender_user_id m) (gs_members s))
  then Err (PolicyViolation "private group message sender is not a member of the current epoch")
  else Ok tt.

(** The signing key is its 32 octets. *)
Definition decode_ed25519_signing_key (field : string) (secret_key : bytes) : res bytes :=
  parse_exact 32 secret_key field.

Definition decode_ed25519_verifying_key `{V : Ed25519} (field : string) (public_key : bytes)
    : res ed_key :=
  let? public_key := parse_exact 32 public_key field in
  ok_or (ed_key_from_bytes public_key) SignatureVerificationFailed.

Section Messages.
Context `{P : Primitives} `{V : Ed25519}.

Definition derive_message_key (root_secret group_id : bytes) (epoch : N) : res bytes :=
  hkdf_sha256_32 root_secret None
    (GROUP_MESSAGE_KEY_LABEL ++ lit ":" ++ group_id ++ lit ":" ++ decimal epoch).

Definition encrypt_message_with_rng (s : PrivateGroupState)
    (sender_user_id sender_identity_sig_secret sender_identity_pq_sig_secret body : bytes)
    (sent_at : N) (pq_provider : PqSignatureProvider) (g : rng)
    : res PrivateGroupEncryptedMessage * rng :=
  match (let? _ := validate_user_id sender_user_id in
         if is_blank body then Err (PolicyViolation "private group message body cannot be blank")
         else if negb (is_member sender_user_id (gs_members s))
         then Err (PolicyViolation "private group sender is not a member of the current epoch")
         else
           let? signing_key := decode_ed25519_signing_key
                                 "private_group.sender_identity_sig_secret"
                                 sender_identity_sig_secret in
           let? key := derive_message_key (gs_root_secret s) (gs_group_id s) (gs_epoch s) in
           Ok (signing_key, key)) with
  | Err e => (Err e, g)
  | Ok (signing_key, key) =>
      let ad := message_aad (gs_group_id s) (gs_epoch s) sender_user_id sent_at in
      match encrypt_with_rng key (pad_blocks body PADDING_BLOCK_SIZE) ad g with
      | (Err e, g) => (Err e, g)
      | (Ok ciphertext, g) =>
          let message signature :=
            {| em_group_id := gs_group_id s; em_epoch := gs_epoch s;
               em_sender_user_id := sender_user_id; em_sent_at_unix_ms := sent_at;
               em_ciphertext := ciphertext; em_sender_hybrid_signature := signature |} in
          match encode_message_signature_payload (message []) with
          | Err e => (Err e, g)
          | Ok transcript =>
              let ed25519_sig := ed_sign signing_key transcript in
              let '(r, g) := pqs_sign pq_provider sender_identity_pq_sig_secret transcript g in
              (let? pq_sig := r in
               Ok (message (HybridSignature_encode (mkHybrid ed25519_sig pq_sig))), g)
          end
      end
  end.

Definition decrypt_message (s : PrivateGroupState) (m : PrivateGroupEncryptedMessage)
    (sender_identity_sig_pub sender_identity_pq_sig_pub : bytes)
    (pq_provider : PqSignatureProvider) : res PrivateGroupDecryptedMessage :=
  let? _ := validate_private_group_message_membership s m in
  let expected_aad := message_aad (em_group_id m) (em_epoch m) (em_sender_user_id m)
                        (em_sent_at_unix_ms m) in
  if negb (bool_decide (aad (em_ciphertext m) = expected_aad))
  then Err (PolicyViolation "private group message aad mismatch")
  else
    let? transcript := encode_message_signature_payload m in
    let? hybrid := HybridSignature_decode (em_sender_hybrid_signature m) in
    let? verifying_key := decode_ed25519_verifying_key "private_group.sender_identity_sig_pub"
                            sender_identity_sig_pub in
    let? signature := ok_or (ed_sig_from_slice (ed25519_sig hybrid))
                        (InvalidLength "private_group.sender_identity_sig" 64
                           (len (ed25519_sig hybrid))) in
    if negb (ed_verify verifying_key transcript signature) then Err SignatureVerificationFailed
    else
      let? _ := pqs_verify pq_provider sender_identity_pq_sig_pub transcript (pq_sig hybrid) in
      let? key := derive_message_key (gs_root_secret s) (gs_group_id s) (gs_epoch s) in
      let? decrypted := decrypt key (em_ciphertext m) in
      let? unpadded := unpad_plaintext decrypted in
      let? body := parse_utf8 unpadded "private_group.message.body" in
      if is_blank body then Err (PolicyViolation "private group message body cannot be blank")
      else Ok {| dm_group_id := em_group_id m; dm_epoch := em_epoch m;
                 dm_sender_user_id := em_sender_user_id m;
                 dm_sent_at_unix_ms := em_sent_at_unix_ms m; dm_body := body |}.
End Messages.

(** ** Credentials *)

Section Credentials.
Context `{P : Primitives}.

Definition membership_handle_sha256 (c : PrivateGroupMemberCredential) : bytes :=
  sha256 (MEMBER_CREDENTIAL_HANDLE_LABEL ++ mc_group_id c ++ u64_be (mc_epoch c) ++
          [role_to_byte (mc_role c)] ++ mc_credential_secret c).

Definition member_commitment_sha256 (c : PrivateGroupMemberCredential) : bytes :=
  sha256 (MEMBER_CREDENTIAL_COMMITMENT_LABEL ++ mc_group_id c ++ u64_be (mc_epoch c) ++
          mc_member_user_id c ++ [role_to_byte (mc_role c)] ++ mc_credential_secret c).

Definition credential_info (label : bytes) (c : PrivateGroupMemberCredential) : bytes :=
  label ++ lit ":" ++ mc_group_id c ++ lit ":" ++ decimal (mc_epoch c) ++ lit ":" ++
  mc_member_user_id c.

Definition state_fetch_key (c : PrivateGroupMemberCredential) : res bytes :=
  hkdf_sha256_32 (mc_credential_secret c) None (credential_info MEMBER_CREDENTIAL_FETCH_KEY_LABEL c).

Definition state_publish_key (c : PrivateGroupMemberCredential) : res (option bytes) :=
  match mc_role c with
  | Member => Ok None
  | _ =>
      let? k := hkdf_sha256_32 (mc_credential_secret c) None
                  (credential_info MEMBER_CREDENTIAL_PUBLISH_KEY_LABEL c) in
      Ok (Some k)
  end.

Definition issue_member_credential_with_rng (s : PrivateGroupState) (member_user_id : bytes)
    (role : PrivateGroupRole) (g : rng) : res PrivateGroupMemberCredential * rng :=
  match validate_user_id member_user_id with
  | Err e => (Err e, g)
  | Ok _ =>
      let normalized_role :=
        if bool_decide (member_user_id = owner_user_id s) then Owner else role in
      let '(credential_secret, g) := rng_fill MEMBER_CREDENTIAL_SECRET_BYTES g in
      (Ok {| mc_group_id := gs_group_id s; mc_epoch := gs_epoch s;
             mc_member_user_id := member_user_id; mc_role := normalized_role;
             mc_credential_secret := credential_secret |}, g)
  end.

(** The [map] and [collect] over the members. *)
Fixpoint issue_credentials (s : PrivateGroupState) (members : list PrivateGroupMember) (g : rng)
    : res (list PrivateGroupMemberCredential) * rng :=
  match members with
  | [] => (Ok [], g)
  | m :: members =>
      match issue_member_credential_with_rng s (gm_user_id m) (gm_role m) g with
      | (Err e, g) => (Err e, g)
      | (Ok c, g) =>
          let '(r, g) := issue_credentials s members g in
          (let? cs := r in Ok (c :: cs), g)
      end
  end.

Definition issue_member_credentials_for_all_members_with_rng (s : PrivateGroupState) (g : rng)
    : res (list PrivateGroupMemberCredential) * rng :=
  issue_credentials s (gs_members s) g.

(** ** Join packages and epoch transitions *)

Definition export_join_package_for_member_credential_with_rng (s : PrivateGroupState)
    (c : PrivateGroupMemberCredential) (g : rng) : res PrivateGroupJoinPackage * rng :=
  if negb (bool_decide (mc_group_id c = gs_group_id s))
  then (Err (PolicyViolation "private group join package credential group_id mismatch"), g)
  else if negb (mc_epoch c =? gs_epoch s)
  then (Err (PolicyViolation "private group join package credential epoch mismatch"), g)
  else match find_member (mc_member_user_id c) (gs_members s) with
  | None => (Err (PolicyViolation "private group join package member missing from state"), g)
  | Some member =>
      if negb (bool_decide (gm_role member = mc_role c))
      then (Err (PolicyViolation "private group join package credential role mismatch"), g)
      else
        let '(r, g) := export_invite_package_with_rng s g in
        (let? invite := r in Ok {| jp_invite := invite; jp_member_credential := c |}, g)
  end.

Definition export_join_package_for_member_with_rng (s : PrivateGroupState) (member_user_id : bytes)
    (g : rng) : res PrivateGroupJoinPackage * rng :=
  match find_member member_user_id (gs_members s) with
  | None => (Err (PolicyViolation "private group join package member missing from state"), g)
  | Some member =>
      match issue_member_credential_with_rng s member_user_id (gm_role member) g with
      | (Err e, g) => (Err e, g)
      | (Ok c, g) => export_join_package_for_member_credential_with_rng s c g
      end
  end.

Fixpoint find_credential (user_id : bytes) (cs : list PrivateGroupMemberCredential)
    : option PrivateGroupMemberCredential :=
  match cs with
  | [] => None
  | c :: cs => if bool_decide (mc_member_user_id c = user_id) then Some c else find_credential user_id cs
  end.

Definition prepare_add_member_transition_with_rng (s : PrivateGroupState) (user_id : bytes)
    (role : PrivateGroupRole) (updated_at : N) (g : rng) : res PrivateGroupEpochTransition * rng :=
  match add_member user_id role updated_at s with
  | (_, Err e) => (Err e, g)
  | (_, Ok false) =>
      (Err (PolicyViolation "private group member already has requested role"), g)
  | (next_state, Ok true) =>
      match issue_member_credentials_for_all_members_with_rng next_state g with
      | (Err e, g) => (Err e, g)
      | (Ok cs, g) =>
          match find_credential user_id cs with
          | None =>
              (Err (PolicyViolation
                      "private group added member credential missing from transition"), g)
          | Some c =>
              let '(r, g) := export_join_package_for_member_credential_with_rng next_state c g in
              (let? package := r in
               Ok {| et_next_state := next_state; et_member_credentials := cs;
                     et_added_member_join_package := Some package |}, g)
          end
      end
  end.

Definition prepare_remove_member_transition_with_rng (s : PrivateGroupState) (user_id : bytes)
    (updated_at : N) (g : rng) : res PrivateGroupEpochTransition * rng :=
  match remove_member user_id updated_at s with
  | (_, Err e) => (Err e, g)
  | (_, Ok false) => (Err (PolicyViolation "private group member is not present"), g)
  | (next_state, Ok true) =>
      let '(r, g) := issue_member_credentials_for_all_members_with_rng next_state g in
      (let? cs := r in
       Ok {| et_next_state := next_state; et_member_credentials := cs;
             et_added_member_join_package := None |}, g)
  end.

Definition restore_state_and_credential (p : PrivateGroupJoinPackage)
    : res (PrivateGroupState * PrivateGroupMemberCredential) :=
  let c := jp_member_credential p in
  if negb (bool_decide (ip_group_id (jp_invite p) = mc_group_id c))
  then Err (PolicyViolation "private group join package group_id mismatch")
  else if negb (ip_epoch (jp_invite p) =? mc_epoch c)
  then Err (PolicyViolation "private group join package epoch mismatch")
  else
    let? s := restore_from_invite_package (jp_invite p) in
    let? member := ok_or (find_member (mc_member_user_id c) (gs_members s))
                     (PolicyViolation "private group join package member missing from state") in
    if negb (bool_decide (gm_role member = mc_role c))
    then Err (PolicyViolation "private group join package role mismatch")
    else Ok (s, c).
End Credentials.

(** ** Invites carried by a link *)

(** [serde_json::to_vec] and [from_slice] at [PrivateGroupJoinPackage]. *)
Class JoinJson := {
  json_to_vec : PrivateGroupJoinPackage → option bytes;
  json_from_slice : bytes → option PrivateGroupJoinPackage;
}.

Definition link_invite_aad (group_id : bytes) (epoch : N) : bytes :=
  GROUP_INVITE_LINK_KEY_LABEL ++ group_id ++ u64_be epoch.

Section Links.
Context `{P : Primitives} `{J : JoinJson}.

Definition derive_link_invite_key (invite_secret group_id : bytes) (epoch : N) : res bytes :=
  hkdf_sha256_32 invite_secret None
    (GROUP_INVITE_LINK_KEY_LABEL ++ lit ":" ++ group_id ++ lit ":" ++ decimal epoch).

Definition encrypt_for_share_link_with_rng (p : PrivateGroupJoinPackage) (g : rng)
    : res PrivateGroupLinkInviteMaterial * rng :=
  let group_id := ip_group_id (jp_invite p) in
  let epoch := ip_epoch (jp_invite p) in
  match json_to_vec p with
  | None => (Err (MessageParsing "failed to serialize private group join package"), g)
  | Some plaintext =>
      let '(invite_secret, g) := rng_fill ROOT_SECRET_BYTES g in
      match derive_link_invite_key invite_secret group_id epoch with
      | Err e => (Err e, g)
      | Ok key =>
          let '(r, g) := encrypt_with_rng key plaintext (link_invite_aad group_id epoch) g in
          (let? ciphertext := r in
           Ok {| lm_invite_secret := invite_secret;
                 lm_envelope := {| le_group_id := group_id; le_epoch := epoch;
                                   le_invite_commitment_sha256 := sha256_bytes invite_secret;
                                   le_ciphertext := ciphertext |} |}, g)
      end
  end.

Definition open_join_package (e : PrivateGroupLinkInviteEnvelope) (invite_secret : bytes)
    : res PrivateGroupJoinPackage :=
  if negb (bool_decide (sha256_bytes invite_secret = le_invite_commitment_sha256 e))
  then Err (PolicyViolation "private group invite secret commitment mismatch")
  else
    let? key := derive_link_invite_key invite_secret (le_group_id e) (le_epoch e) in
    if negb (bool_decide (aad (le_ciphertext e) = link_invite_aad (le_group_id e) (le_epoch e)))
    then Err (PolicyViolation "private group invite envelope aad mismatch")
    else
      let? plaintext := decrypt key (le_ciphertext e) in
      let? p := ok_or (json_from_slice plaintext)
                  (MessageParsing "failed to decode private group join package") in
      if negb (bool_decide (ip_group_id (jp_invite p) = le_group_id e))
      then Err (PolicyViolation "private group link invite group_id mismatch")
      else if negb (ip_epoch (jp_invite p) =? le_epoch e)
      then Err (PolicyViolation "private group link invite epoch mismatch")
      else
        let? _ := restore_state_and_credential p in
        Ok p.
End Links.

(** ** Messages: sending and receiving *)

(** The sizes that keep a message's transcript within its records. *)
Definition message_fits (group_id user_id body : bytes) : Prop :=
  len group_id + len user_id + 128 ≤ u16_max ∧ len body + 512 ≤ u16_max.

Lemma len_message_aad (id u : bytes) (e t : N) : len (message_aad id e u t) = len id + len u + 50.
Proof. unfold message_aad. rewrite !len_app. unfold len. rewrite !length_u64_be. simpl. lia. Qed.

Lemma pad_body_size (body : bytes) :
  len (pad_blocks body PADDING_BLOCK_SIZE) ≤ len body + 256.
Proof.
  pose proof (pad_blocks_bound body PADDING_BLOCK_SIZE ltac:(unfold PADDING_BLOCK_SIZE; lia)).
  unfold len, PADDING_BLOCK_SIZE in *. lia.
Qed.

Lemma message_transcript_ok (id u body : bytes) (e t : N) (env : CiphertextEnvelope) (sg : bytes) :
  message_fits id u body → length (nonce env) = 12%nat →
  length (ciphertext env) = (length (pad_blocks body PADDING_BLOCK_SIZE) + 16)%nat →
  aad env = message_aad id e u t →
  ∃ b, encode_message_signature_payload
         {| em_group_id := id; em_epoch := e; em_sender_user_id := u; em_sent_at_unix_ms := t;
            em_ciphertext := env; em_sender_hybrid_signature := sg |} = Ok b.
Proof.
  intros [H1 H2] Hn Hc Ha. pose proof (pad_body_size body) as Hp. apply encode_fits. simpl.
  rewrite Ha, (fits_short 12 (nonce _)) by done. unfold fits. rewrite len_message_aad.
  assert (len (ciphertext env) ≤ u16_max) by (unfold len in *; rewrite Hc; lia).
  by rewrite !(proj2 (N.leb_le _ _)) by lia.
Qed.

Lemma message_signature_wf (m : PrivateGroupEncryptedMessage) :
  Forall record_wf (message_signature_records m).
Proof. repeat constructor; vm_compute; discriminate. Qed.

(** Messages with one transcript agree in everything that is signed. *)
Lemma message_transcript_inj (m m' : PrivateGroupEncryptedMessage) (b : bytes) :
  encode_message_signature_payload m = Ok b → encode_message_signature_payload m' = Ok b →
  em_group_id m' = em_group_id m ∧ u64_be (em_epoch m') = u64_be (em_epoch m) ∧
  em_sender_user_id m' = em_sender_user_id m ∧
  u64_be (em_sent_at_unix_ms m') = u64_be (em_sent_at_unix_ms m) ∧
  em_ciphertext m' = em_ciphertext m.
Proof.
  intros H1 H2.
  pose proof (encode_inj _ _ _ (message_signature_wf m) (message_signature_wf m') H1 H2) as H.
  assert (Hf : ∀ t, rec_find t (message_signature_records m') =
                    rec_find t (message_signature_records m)) by congruence.
  assert (Hv : ∀ (t : N) (v v' : bytes), rec_find t (message_signature_records m') = Some v' →
    rec_find t (message_signature_records m) = Some v → v' = v) by congruence.
  split; [by apply (Hv TLV_GROUP_MESSAGE_GROUP_ID)|].
  split; [by apply (Hv TLV_GROUP_MESSAGE_EPOCH)|].
  split; [by apply (Hv TLV_GROUP_MESSAGE_SENDER_USER_ID)|].
  split; [by apply (Hv TLV_GROUP_MESSAGE_SENT_AT)|].
  assert (nonce (em_ciphertext m') = nonce (em_ciphertext m)) by (by apply (Hv TLV_GROUP_MESSAGE_NONCE)).
  assert (ciphertext (em_ciphertext m') = ciphertext (em_ciphertext m))
    by (by apply (Hv TLV_GROUP_MESSAGE_CIPHERTEXT)).
  assert (aad (em_ciphertext m') = aad (em_ciphertext m)) by (by apply (Hv TLV_GROUP_MESSAGE_AAD)).
  destruct (em_ciphertext m), (em_ciphertext m'). simpl in *. by subst.
Qed.

Lemma message_membership_inv (s : PrivateGroupState) (m : PrivateGroupEncryptedMessage) :
  validate_private_group_message_membership s m = Ok tt →
  em_group_id m = gs_group_id s ∧ em_epoch m = gs_epoch s ∧
  is_member (em_sender_user_id m) (gs_members s) = true.
Proof.
  unfold validate_private_group_message_membership. intros H. inv_ok H. by bool_to_prop.
Qed.

Lemma verifying_key_inv `{V : Ed25519} (f : string) (pk : bytes) (k : ed_key) :
  decode_ed25519_verifying_key f pk = Ok k → ed_key_from_bytes pk = Some k.
Proof.
  unfold decode_ed25519_verifying_key. intros H. destruct (parse_exact 32 pk f) eqn:E; [|done].
  apply parse_exact_inv in E as [-> _]. destruct (ed_key_from_bytes pk); [|done]. by injection H as ->.
Qed.

Section MessageFacts.
Context `{P : Primitives} `{!PrimitiveLaws P} `{V : Ed25519} `{!Ed25519Laws V}.
Context (Q : PqSignatureProvider) `{!PqSigLaws Q}.

Lemma message_key_ok (root id : bytes) (e : N) : ∃ k, derive_message_key root id e = Ok k.
Proof.
  destruct (hkdf_sha256_32_ok root None
    (GROUP_MESSAGE_KEY_LABEL ++ lit ":" ++ id ++ lit ":" ++ decimal e)) as (k & ? & _). by exists k.
Qed.

(** A message encrypted for its epoch, and that both signatures verify. *)
Lemma encrypt_message_ok (s : PrivateGroupState) (u sk pqsk pk pqpk body : bytes) (t : N) (g : rng) :
  validate_user_id u = Ok tt → is_blank body = false → is_member u (gs_members s) = true →
  message_fits (gs_group_id s) u body → ed_pair pk sk → pqs_pair pqpk pqsk →
  ∃ m g' key transcript h k sig,
    encrypt_message_with_rng s u sk pqsk body t Q g = (Ok m, g') ∧
    em_group_id m = gs_group_id s ∧ em_epoch m = gs_epoch s ∧ em_sender_user_id m = u ∧
    em_sent_at_unix_ms m = t ∧ aad (em_ciphertext m) = message_aad (gs_group_id s) (gs_epoch s) u t ∧
    encode_message_signature_payload m = Ok transcript ∧
    HybridSignature_decode (em_sender_hybrid_signature m) = Ok h ∧
    ed_key_from_bytes pk = Some k ∧ ed_sig_from_slice (ed25519_sig h) = Some sig ∧
    ed_verify k transcript sig = true ∧ pqs_verify Q pqpk transcript (pq_sig h) = Ok tt ∧
    derive_message_key (gs_root_secret s) (gs_group_id s) (gs_epoch s) = Ok key ∧
    decrypt key (em_ciphertext m) = Ok (pad_blocks body PADDING_BLOCK_SIZE).
Proof.
  intros Hu Hb Hm [Hf1 Hf2] Hed Hpq. unfold encrypt_message_with_rng.
  destruct (message_key_ok (gs_root_secret s) (gs_group_id s) (gs_epoch s)) as [key Hkey].
  destruct (ed_pair_length pk sk Hed) as [_ Hskl].
  unfold decode_ed25519_signing_key. rewrite Hu, Hb, Hm, parse_exact_ok, Hkey by done. simpl negb. cbv iota.
  pose proof (pad_body_size body) as Hp.
  destruct (encrypt_with_rng_ok key (pad_blocks body PADDING_BLOCK_SIZE)
    (message_aad (gs_group_id s) (gs_epoch s) u t) g) as (env & g1 & Henc & Hn & Hc & Hdec).
  { unfold u16_max, u32_max in *. lia. }
  pose proof (encrypt_with_rng_aad _ _ _ _ _ _ Henc) as Haad. rewrite Henc. cbv zeta.
  destruct (message_transcript_ok (gs_group_id s) u body (gs_epoch s) t env []) as [tr Htr]; [done..|].
  rewrite Htr. destruct (pqs_sign_defined pqpk pqsk tr g1 Hpq) as (ps & g2 & Hps). rewrite Hps.
  destruct (pqs_correct _ _ _ _ _ _ Hpq Hps) as [Hpv Hpne].
  destruct (ed_correct pk sk tr Hed) as (k & sg & Hk & Hsg & Hver).
  eexists _, g2, key, tr, (mkHybrid (ed_sign sk tr) ps), k, sg. split; [reflexivity|]. simpl.
  repeat (split; [done|]). split; [by apply hybrid_decode_encode; [apply ed_sign_length|]|].
  repeat (split; [done|]). by destruct env; simpl in *; subst.
Qed.

(** What the checks of the receiver come to. *)
Lemma decrypt_message_ok (s : PrivateGroupState) (m : PrivateGroupEncryptedMessage)
    (pk pqpk body transcript key : bytes) (h : HybridSignature) (k : ed_key) (sg : ed_sig) :
  em_group_id m = gs_group_id s → em_epoch m = gs_epoch s →
  is_member (em_sender_user_id m) (gs_members s) = true →
  aad (em_ciphertext m) = message_aad (em_group_id m) (em_epoch m) (em_sender_user_id m)
                            (em_sent_at_unix_ms m) →
  encode_message_signature_payload m = Ok transcript →
  HybridSignature_decode (em_sender_hybrid_signature m) = Ok h → length pk = 32%nat →
  ed_key_from_bytes pk = Some k → ed_sig_from_slice (ed25519_sig h) = Some sg →
  ed_verify k transcript sg = true → pqs_verify Q pqpk transcript (pq_sig h) = Ok tt →
  derive_message_key (gs_root_secret s) (gs_group_id s) (gs_epoch s) = Ok key →
  decrypt key (em_ciphertext m) = Ok (pad_blocks body PADDING_BLOCK_SIZE) →
  utf8_valid body = true → is_blank body = false →
  decrypt_message s m pk pqpk Q =
    Ok {| dm_group_id := em_group_id m; dm_epoch := em_epoch m;
          dm_sender_user_id := em_sender_user_id m; dm_sent_at_unix_ms := em_sent_at_unix_ms m;
          dm_body := body |}.
Proof.
  intros H1 H2 H3 H4 H5 H6 H7 H8 H9 H10 H11 H12 H13 H14 H15.
  unfold decrypt_message, validate_private_group_message_membership, decode_ed25519_verifying_key.
  rewrite H4, !bool_decide_eq_true_2, H2, N.eqb_refl, H3, H5, H6 by done. simpl negb. cbv iota.
  rewrite parse_exact_ok, H8 by done. simpl ok_or. cbv iota. rewrite H9. simpl ok_or. cbv iota.
  rewrite H10, H11, H12, H13. unfold PADDING_BLOCK_SIZE.
  rewrite unpad_pad, parse_utf8_ok, H15 by (done || lia). done.
Qed.

Lemma message_roundtrip (s s' : PrivateGroupState) (u sk pqsk pk pqpk body : bytes) (t : N)
    (g : rng) :
  validate_user_id u = Ok tt → is_blank body = false → utf8_valid body = true →
  message_fits (gs_group_id s) u body → ed_pair pk sk → pqs_pair pqpk pqsk →
  is_member u (gs_members s) = true → is_member u (gs_members s') = true →
  gs_group_id s' = gs_group_id s → gs_epoch s' = gs_epoch s →
  gs_root_secret s' = gs_root_secret s →
  ∃ m g', encrypt_message_with_rng s u sk pqsk body t Q g = (Ok m, g') ∧
    decrypt_message s' m pk pqpk Q =
      Ok {| dm_group_id := gs_group_id s; dm_epoch := gs_epoch s; dm_sender_user_id := u;
            dm_sent_at_unix_ms := t; dm_body := body |}.
Proof.
  intros Hu Hb Hut Hf Hed Hpq Hm Hm' Hid Hep Hroot.
  destruct (encrypt_message_ok s u sk pqsk pk pqpk body t g) as
    (m & g' & key & tr & h & k & sg & Henc & E1 & E2 & E3 & E4 & E5 & Htr & Hh & Hk & Hsg & Hv & Hpv & Hkey & Hdec);
    [done..|].
  exists m, g'. split; [done|].
  rewrite (decrypt_message_ok s' m pk pqpk body tr key h k sg);
    rewrite ?E1, ?E2, ?E3, ?E4, ?Hid, ?Hep, ?Hroot; try done.
  by destruct (ed_pair_length pk sk Hed).
Qed.
End MessageFacts.

(** A group message reaches the members of its epoch. A member who sends a
    body that is not blank, to a group whose id, user id and body fit the
    records, gets a message, and every state of the same group, epoch and root
    secret in which the sender is a member decrypts it, checks both signatures
    and returns the group, epoch, sender, time and body sent. A state at any
    other epoch refuses it. *)
Theorem group_message_roundtrip (P : Primitives) (L : PrimitiveLaws P) (V : Ed25519)
    (VL : Ed25519Laws V) (Q : PqSignatureProvider) (QL : PqSigLaws Q) (s s' : PrivateGroupState)
    (u sk pqsk pk pqpk body : bytes) (t : N) (g : rng) :
  validate_user_id u = Ok tt → is_blank body = false → utf8_valid body = true →
  message_fits (gs_group_id s) u body → ed_pair pk sk → pqs_pair pqpk pqsk →
  is_member u (gs_members s) = true → is_member u (gs_members s') = true →
  gs_group_id s' = gs_group_id s → gs_root_secret s' = gs_root_secret s →
  ∃ m g', encrypt_message_with_rng s u sk pqsk body t Q g = (Ok m, g') ∧
    decrypt_message s' m pk pqpk Q =
      if gs_epoch s =? gs_epoch s'
      then Ok {| dm_group_id := gs_group_id s; dm_epoch := gs_epoch s; dm_sender_user_id := u;
                 dm_sent_at_unix_ms := t; dm_body := body |}
      else Err (PolicyViolation "private group message epoch mismatch").
Proof.
  intros Hu Hb Hut Hf Hed Hpq Hm Hm' Hid Hroot. destruct (N.eqb_spec (gs_epoch s) (gs_epoch s')).
  - by apply (message_roundtrip Q).
  - destruct (encrypt_message_ok Q s u sk pqsk pk pqpk body t g) as
      (m & g' & key & tr & h & k & sg & Henc & E1 & E2 & _); [done..|].
    exists m, g'. split; [done|]. unfold decrypt_message, validate_private_group_message_membership.
    by rewrite bool_decide_eq_true_2, (proj2 (N.eqb_neq _ _)) by congruence.
Qed.

(** C28: what a decrypted group message vouches for. If a state accepts a
    message, the message is of its group and its current epoch, its sender is
    a member, the body is not blank, and both the Ed25519 and the post-quantum
    signature verify, under the keys given for the sender, over a transcript
    that no message with another group, epoch, sender, time, nonce, ciphertext
    or associated data has. *)
Theorem group_message_authentic (P : Primitives) (V : Ed25519) (Q : PqSignatureProvider)
    (s : PrivateGroupState) (m : PrivateGroupEncryptedMessage) (pk pqpk : bytes)
    (d : PrivateGroupDecryptedMessage) :
  decrypt_message s m pk pqpk Q = Ok d →
  dm_group_id d = gs_group_id s ∧ dm_epoch d = gs_epoch s ∧
  is_member (dm_sender_user_id d) (gs_members s) = true ∧ is_blank (dm_body d) = false ∧
  dm_sender_user_id d = em_sender_user_id m ∧ dm_sent_at_unix_ms d = em_sent_at_unix_ms m ∧
  ∃ transcript h k sg,
    encode_message_signature_payload m = Ok transcript ∧
    HybridSignature_decode (em_sender_hybrid_signature m) = Ok h ∧
    ed_key_from_bytes pk = Some k ∧ ed_sig_from_slice (ed25519_sig h) = Some sg ∧
    ed_verify k transcript sg = true ∧ pqs_verify Q pqpk transcript (pq_sig h) = Ok tt ∧
    ∀ m', encode_message_signature_payload m' = Ok transcript →
      em_group_id m' = em_group_id m ∧ u64_be (em_epoch m') = u64_be (em_epoch m) ∧
      em_sender_user_id m' = em_sender_user_id m ∧
      u64_be (em_sent_at_unix_ms m') = u64_be (em_sent_at_unix_ms m) ∧
      em_ciphertext m' = em_ciphertext m.
Proof.
  unfold decrypt_message. intros H. inv_ok H. subst d. simpl. bool_to_prop.
  match goal with H : validate_private_group_message_membership _ _ = Ok ?u |- _ =>
    destruct u; apply message_membership_inv in H as (? & ? & ?) end.
  match goal with H : decode_ed25519_verifying_key _ _ = Ok _ |- _ =>
    apply verifying_key_inv in H end.
  match goal with H : pqs_verify _ _ _ _ = Ok ?u |- _ => destruct u end.
  match goal with H : ok_or (ed_sig_from_slice ?x) _ = Ok _ |- _ =>
    destruct (ed_sig_from_slice x) eqn:?; [|done]; apply Ok_inj in H as -> end.
  repeat (split; [done|]). eexists _, _, _, _. repeat (split; [eassumption || reflexivity|]).
  intros m' Hm'. by apply (message_transcript_inj m m' _ ltac:(eassumption) Hm').
Qed.

(** *** Samples *)

Definition sample_key : bytes := toy_stream 32 77.

Definition sample_message : res PrivateGroupEncryptedMessage :=
  (encrypt_message_with_rng sample_group (lit "carol") sample_key [x05] (lit "hi") 99 ToyPqSig
     (4 : @rng Toy)).1.

Lemma sample_pairs :
  @ed_pair ToyEd ToyEdLaws sample_key sample_key ∧ @pqs_pair Toy ToyPqSig ToyPqSigLaws [x05] [x05].
Proof. split; [split; [reflexivity|apply length_toy_stream]|reflexivity]. Qed.

Lemma group_message_roundtrip_witness :
  ∃ m g', encrypt_message_with_rng sample_group (lit "carol") sample_key [x05] (lit "hi") 99 ToyPqSig
            (4 : @rng Toy) = (Ok m, g') ∧
    decrypt_message sample_group m sample_key [x05] ToyPqSig =
      Ok {| dm_group_id := gs_group_id sample_group; dm_epoch := 1;
            dm_sender_user_id := lit "carol"; dm_sent_at_unix_ms := 99; dm_body := lit "hi" |}.
Proof.
  apply (group_message_roundtrip Toy ToyLaws ToyEd ToyEdLaws ToyPqSig ToyPqSigLaws sample_group
           sample_group (lit "carol") sample_key [x05] sample_key [x05] (lit "hi") 99 (4 : @rng Toy)).
  - reflexivity.
  - reflexivity.
  - reflexivity.
  - split; vm_compute; discriminate.
  - apply sample_pairs.
  - apply sample_pairs.
  - reflexivity.
  - reflexivity.
  - reflexivity.
  - reflexivity.
Defined.

Lemma group_message_authentic_witness :
  ∃ m d, sample_message = Ok m ∧ decrypt_message sample_group m sample_key [x05] ToyPqSig = Ok d ∧
    is_member (dm_sender_user_id d) (gs_members sample_group) = true.
Proof.
  destruct sample_message as [m|e] eqn:Em; [|vm_compute in Em; discriminate Em].
  destruct (decrypt_message sample_group m sample_key [x05] ToyPqSig) as [d|e] eqn:Ed.
  - exists m, d. split; [reflexivity|]. split; [exact Ed|].
    apply (group_message_authentic Toy ToyEd ToyPqSig sample_group m sample_key [x05] d Ed).
  - vm_compute in Em. injection Em as <-. vm_compute in Ed. discriminate Ed.
Defined.

(** ** Removal *)

Lemma remove_member_true (u : bytes) (t : N) (s s' : PrivateGroupState) :
  remove_member u t s = (s', Ok true) →
  gs_group_id s' = gs_group_id s ∧ gs_root_secret s' = gs_root_secret s ∧
  gs_epoch s' = saturating_succ (gs_epoch s) ∧
  (∀ m, m ∈ gs_members s' ↔ m ∈ gs_members s ∧ gm_user_id m ≠ u) ∧
  is_member u (gs_members s) = true.
Proof.
  intros H. unfold remove_member in H. case_bool_decide; [done|].
  destruct (_ =? _)%nat eqn:E; [done|]. injection H as <-. simpl.
  split; [done|]. split; [done|]. split; [done|]. split.
  - intros m. rewrite list_elem_of_filter. naive_solver.
  - bool_to_prop. destruct (is_member u (gs_members s)) eqn:Em; [done|]. destruct E.
    f_equal. apply filter_all. intros m Hm Hid.
    assert (is_member u (gs_members s) = true) by (apply is_member_iff; by exists m). congruence.
Qed.

(** C40: removal moves the group to the next epoch but not to a new secret. After
    a member is removed, the states of the other members refuse whatever it
    sends; but a message that a remaining member sends at the new epoch is
    decrypted by the state the removed member held, with only its epoch number
    advanced. *)
Theorem removed_member_still_reads (P : Primitives) (L : PrimitiveLaws P) (V : Ed25519)
    (VL : Ed25519Laws V) (Q : PqSignatureProvider) (QL : PqSigLaws Q) (s : PrivateGroupState)
    (removed u sk pqsk pk pqpk body : bytes) (t sent : N) (g g1 g2 : rng)
    (tr : PrivateGroupEpochTransition) :
  prepare_remove_member_transition_with_rng s removed t g = (Ok tr, g1) →
  validate_user_id u = Ok tt → is_blank body = false → utf8_valid body = true →
  message_fits (gs_group_id s) u body → ed_pair pk sk → pqs_pair pqpk pqsk →
  is_member u (gs_members (et_next_state tr)) = true →
  (∀ m, em_sender_user_id m = removed → em_group_id m = gs_group_id s →
     em_epoch m = gs_epoch (et_next_state tr) →
     decrypt_message (et_next_state tr) m pk pqpk Q =
     Err (PolicyViolation "private group message sender is not a member of the current epoch")) ∧
  ∃ m g3, encrypt_message_with_rng (et_next_state tr) u sk pqsk body sent Q g2 = (Ok m, g3) ∧
    decrypt_message (bump_epoch t s) m pk pqpk Q =
      Ok {| dm_group_id := gs_group_id s; dm_epoch := gs_epoch (et_next_state tr);
            dm_sender_user_id := u; dm_sent_at_unix_ms := sent; dm_body := body |}.
Proof.
  unfold prepare_remove_member_transition_with_rng. intros H Hu Hb Hut Hf Hed Hpq Hm.
  destruct (remove_member removed t s) as [s' [[]|]] eqn:Hr; [|done..].
  destruct (issue_member_credentials_for_all_members_with_rng s' g) as [[cs|] g']; [|done].
  injection H as <- _. simpl in *. apply remove_member_true in Hr as (Hid & Hroot & Hep & Hel & _).
  split.
  - intros m Hs Hg He. unfold decrypt_message, validate_private_group_message_membership.
    rewrite bool_decide_eq_true_2, He, N.eqb_refl by congruence. simpl.
    destruct (is_member (em_sender_user_id m) (gs_members s')) eqn:E; [|done].
    apply is_member_iff in E as (x & [_ Hx]%Hel & Hxid). congruence.
  - rewrite <- Hid. apply (message_roundtrip Q); try done.
    + by rewrite Hid.
    + apply is_member_iff in Hm as (x & [Hx _]%Hel & Hxid). apply is_member_iff. by exists x.
Qed.

Lemma removed_member_still_reads_witness :
  ∃ tr g1, prepare_remove_member_transition_with_rng sample_group (lit "carol") 9 (5 : @rng Toy) =
             (Ok tr, g1) ∧
  ∃ m g3, encrypt_message_with_rng (et_next_state tr) (lit "bob") sample_key [x05] (lit "hi") 99
            ToyPqSig (6 : @rng Toy) = (Ok m, g3) ∧
    decrypt_message (bump_epoch 9 sample_group) m sample_key [x05] ToyPqSig =
      Ok {| dm_group_id := gs_group_id sample_group; dm_epoch := gs_epoch (et_next_state tr);
            dm_sender_user_id := lit "bob"; dm_sent_at_unix_ms := 99; dm_body := lit "hi" |}.
Proof.
  destruct (prepare_remove_member_transition_with_rng sample_group (lit "carol") 9 (5 : @rng Toy))
    as [[tr|e] g1] eqn:E; [|vm_compute in E; discriminate E].
  exists tr, g1. split; [reflexivity|].
  assert (Hm : is_member (lit "bob") (gs_members (et_next_state tr)) = true).
  { vm_compute in E. injection E as <- _. reflexivity. }
  apply (removed_member_still_reads Toy ToyLaws ToyEd ToyEdLaws ToyPqSig ToyPqSigLaws sample_group
           (lit "carol") (lit "bob") sample_key [x05] sample_key [x05] (lit "hi") 9 99
           (5 : @rng Toy) g1 (6 : @rng Toy) tr E).
  - reflexivity.
  - reflexivity.
  - reflexivity.
  - split; vm_compute; discriminate.
  - apply sample_pairs.
  - apply sample_pairs.
  - exact Hm.
Defined.

(** ** Joining *)

Section Joining.
Context `{P : Primitives} `{!PrimitiveLaws P}.

Lemma issue_credentials_ok (s : PrivateGroupState) (ms : list PrivateGroupMember) (g : rng) :
  Forall (λ m, validate_user_id (gm_user_id m) = Ok tt) ms →
  ∃ cs g', issue_credentials s ms g = (Ok cs, g') ∧
    ∀ u m, find_member u ms = Some m → ∃ c, find_credential u cs = Some c ∧
      mc_group_id c = gs_group_id s ∧ mc_epoch c = gs_epoch s ∧ mc_member_user_id c = u ∧
      mc_role c = (if bool_decide (u = owner_user_id s) then Owner else gm_role m) ∧
      length (mc_credential_secret c) = MEMBER_CREDENTIAL_SECRET_BYTES.
Proof.
  intros H. revert g. induction H as [|x ms Hx _ IH]; intros g; simpl; [by exists [], g|].
  unfold issue_member_credential_with_rng. rewrite Hx.
  pose proof (rng_fill_length MEMBER_CREDENTIAL_SECRET_BYTES g) as Hl.
  destruct (rng_fill MEMBER_CREDENTIAL_SECRET_BYTES g) as [sec g1].
  destruct (IH g1) as (cs & g2 & -> & Hcs). eexists _, g2. split; [reflexivity|].
  intros u m. simpl. case_bool_decide as E; [|apply Hcs]. intros [= <-]. eexists. by rewrite <- E.
Qed.

(** A well-formed state gives a member its role. *)
Lemma member_role (s : PrivateGroupState) (u : bytes) (m : PrivateGroupMember) :
  group_wf s → find_member u (gs_members s) = Some m →
  (if bool_decide (u = owner_user_id s) then Owner else gm_role m) = gm_role m.
Proof.
  intros Hwf [Hm Hid]%find_member_elem. case_bool_decide as E; [|done].
  rewrite (members_sorted_inj _ m _ (gw_sorted s Hwf) Hm (gw_owner s Hwf)); [done|]. simpl. congruence.
Qed.

Lemma join_package_ok (s : PrivateGroupState) (c : PrivateGroupMemberCredential)
    (m : PrivateGroupMember) (g : rng) :
  group_wf s → group_encodable s → mc_group_id c = gs_group_id s → mc_epoch c = gs_epoch s →
  find_member (mc_member_user_id c) (gs_members s) = Some m → mc_role c = gm_role m →
  ∃ p g', export_join_package_for_member_credential_with_rng s c g = (Ok p, g') ∧
    jp_member_credential p = c ∧ restore_state_and_credential p = Ok (s, c) ∧
    ip_group_id (jp_invite p) = gs_group_id s ∧ ip_epoch (jp_invite p) = gs_epoch s.
Proof.
  intros Hwf He Hid Hep Hm Hr. unfold export_join_package_for_member_credential_with_rng.
  rewrite bool_decide_eq_true_2, Hep, N.eqb_refl, Hm, bool_decide_eq_true_2 by done. simpl.
  destruct (export_restore s g Hwf He) as (inv & g' & -> & Hres & Hiid & Hiep & _).
  eexists _, g'. split; [reflexivity|]. split; [done|]. split; [|done].
  unfold restore_state_and_credential. simpl.
  rewrite bool_decide_eq_true_2, Hiep, Hep, N.eqb_refl, Hres, Hm by congruence. simpl.
  by rewrite bool_decide_eq_true_2.
Qed.

Lemma link_invite_ok `{J : JoinJson} (p : PrivateGroupJoinPackage) (json : bytes) (g : rng)
    (x : PrivateGroupState * PrivateGroupMemberCredential) :
  restore_state_and_credential p = Ok x → json_to_vec p = Some json →
  json_from_slice json = Some p → len json ≤ u32_max →
  ∃ link g', encrypt_for_share_link_with_rng p g = (Ok link, g') ∧
    open_join_package (lm_envelope link) (lm_invite_secret link) = Ok p ∧
    ∀ secret', sha256 secret' ≠ sha256 (lm_invite_secret link) →
      open_join_package (lm_envelope link) secret' =
      Err (PolicyViolation "private group invite secret commitment mismatch").
Proof.
  intros Hr Hto Hfrom Hlen. unfold encrypt_for_share_link_with_rng. cbv zeta. rewrite Hto.
  destruct (rng_fill ROOT_SECRET_BYTES g) as [sec g1].
  set (id := ip_group_id (jp_invite p)). set (ep := ip_epoch (jp_invite p)).
  destruct (hkdf_sha256_32_ok sec None
    (GROUP_INVITE_LINK_KEY_LABEL ++ lit ":" ++ id ++ lit ":" ++ decimal ep)) as (k & Hk & _).
  assert (Hk' : derive_link_invite_key sec id ep = Ok k) by done. rewrite Hk'.
  destruct (encrypt_with_rng_ok k json (link_invite_aad id ep) g1 Hlen)
    as (env & g2 & Henc & _ & _ & Hdec).
  pose proof (encrypt_with_rng_aad _ _ _ _ _ _ Henc) as Haad. rewrite Henc.
  eexists _, g2. split; [reflexivity|]. unfold open_join_package. simpl. split.
  - rewrite !bool_decide_eq_true_2, Hk' by done. simpl. destruct env as [n c ad]. simpl in *. subst ad.
    rewrite Hdec, Hfrom. simpl. by rewrite bool_decide_eq_true_2, N.eqb_refl, Hr by done.
  - intros sec' Hne. by rewrite bool_decide_eq_false_2.
Qed.
End Joining.

(** An invited member ends with the state of the group it was added to. When
    adding a user changes a well-formed group whose new state fits its
    records, the transition succeeds, its next state is the state after the
    addition, and its join package restores that state and a credential of the
    new epoch with the role the state gives the user. Sent through a link, the
    package comes back out under the link's secret, provided [serde_json]
    reads back what it wrote; a secret with another hash is refused. *)
Theorem invite_link_roundtrip (P : Primitives) (L : PrimitiveLaws P) (J : JoinJson)
    (s s' : PrivateGroupState) (u : bytes) (r : PrivateGroupRole) (t : N) (g : rng) :
  group_wf s → add_member u r t s = (s', Ok true) → group_encodable s' →
  ∃ tr p g', prepare_add_member_transition_with_rng s u r t g = (Ok tr, g') ∧
    et_next_state tr = s' ∧ et_added_member_join_package tr = Some p ∧
    restore_state_and_credential p = Ok (s', jp_member_credential p) ∧
    mc_member_user_id (jp_member_credential p) = u ∧
    mc_epoch (jp_member_credential p) = saturating_succ (gs_epoch s) ∧
    find_member u (gs_members s') = Some (mkMember u (mc_role (jp_member_credential p))) ∧
    (∀ json g1, json_to_vec p = Some json → json_from_slice json = Some p → len json ≤ u32_max →
       ∃ link g2, encrypt_for_share_link_with_rng p g1 = (Ok link, g2) ∧
         open_join_package (lm_envelope link) (lm_invite_secret link) = Ok p ∧
         ∀ secret', sha256 secret' ≠ sha256 (lm_invite_secret link) →
           open_join_package (lm_envelope link) secret' =
           Err (PolicyViolation "private group invite secret commitment mismatch")).
Proof.
  intros Hwf Ha He. pose proof (add_member_wf u r t s Hwf) as Hwf'. rewrite Ha in Hwf'. simpl in Hwf'.
  pose proof (add_member_elem u r t s s' true Hwf Ha) as Hel.
  pose proof (group_op_frame (OpAddMember u r t) s) as (_ & Hep & _). simpl in Hep.
  rewrite Ha in Hep. simpl in Hep.
  destruct (find_member u (gs_members s')) as [m|] eqn:Hm.
  2:{ rewrite find_member_none in Hm. edestruct Hm; [apply Hel; by right|done]. }
  unfold prepare_add_member_transition_with_rng, issue_member_credentials_for_all_members_with_rng.
  rewrite Ha. destruct (issue_credentials_ok s' (gs_members s') g (gw_ids s' Hwf')) as (cs & g1 & -> & Hcs).
  destruct (Hcs u m Hm) as (c & -> & Hcid & Hcep & Hcu & Hcr & _).
  rewrite (member_role s' u m Hwf' Hm) in Hcr. rewrite <- Hcu in Hm.
  destruct (join_package_ok s' c m g1 Hwf' He Hcid Hcep Hm Hcr) as (p & g2 & -> & Hpc & Hpr & _).
  eexists _, p, g2. split; [reflexivity|]. rewrite Hpc. split; [done|]. split; [done|].
  split; [done|]. split; [done|]. split; [congruence|]. split.
  - apply find_member_elem in Hm as [_ Hid]. f_equal. destruct m. simpl in *. congruence.
  - intros json g3 H1 H2 H3. by eapply link_invite_ok.
Qed.

Definition sample_added : PrivateGroupState := (add_member (lit "alice") Admin 8 sample_group).1.

Definition sample_transition : option PrivateGroupJoinPackage :=
  match (prepare_add_member_transition_with_rng sample_group (lit "alice") Admin 8 (5 : @rng Toy)).1 with
  | Ok tr => et_added_member_join_package tr
  | Err _ => None
  end.

(** A serializer for the one package of the sample. *)
Definition SampleJson : JoinJson :=
  {| json_to_vec := λ _, Some (lit "{}"); json_from_slice := λ _, sample_transition |}.

Lemma invite_link_roundtrip_witness :
  ∃ p link g2, sample_transition = Some p ∧
    @encrypt_for_share_link_with_rng Toy SampleJson p (9 : @rng Toy) = (Ok link, g2) ∧
    @open_join_package Toy SampleJson (lm_envelope link) (lm_invite_secret link) = Ok p ∧
    restore_state_and_credential p = Ok (sample_added, jp_member_credential p).
Proof.
  destruct (invite_link_roundtrip Toy ToyLaws SampleJson sample_group sample_added (lit "alice") Admin
              8 (5 : @rng Toy)) as (tr & p & g' & Htr & _ & Hp & Hr & _ & _ & _ & Hl).
  - exact sample_group_wf.
  - vm_compute. reflexivity.
  - split.
    + by repeat constructor.
    + vm_compute. discriminate.
    + split; vm_compute; reflexivity.
    + intros v Hv. vm_compute in Hv. discriminate Hv.
    + intros v Hv. vm_compute in Hv. discriminate Hv.
    + intros n Hn. vm_compute in Hn. injection Hn as <-. vm_compute. discriminate.
    + split; vm_compute; discriminate.
  - assert (Hs : sample_transition = Some p).
    { unfold sample_transition. rewrite Htr. exact Hp. }
    destruct (Hl (lit "{}") (9 : @rng Toy)) as (link & g2 & H1 & H2 & _).
    + reflexivity.
    + exact Hs.
    + vm_compute. discriminate.
    + exists p, link, g2. split; [exact Hs|]. split; [exact H1|]. split; [exact H2|exact Hr].
Defined.
