(* ===== verification/ServerError.v ===== *)
(** * The server's errors and limits ([pqmsg-server/src/error.rs], [lib.rs])

    [AppError] with its constructors, the constants of the crate root, and the
    machine integers of the database columns: an [i64] is a [Z], its
    big-endian octets are those of its two's complement. *)

From Stdlib Require Import Strings.Byte.
From stdpp Require Import pretty.
From S2P Require Import Prelude Bytes Errors Tlv.
Local Open Scope N_scope.

Inductive StatusCode : Type :=
| BAD_REQUEST
| NOT_FOUND
| TOO_MANY_REQUESTS
| CONFLICT
| FORBIDDEN
| INTERNAL_SERVER_ERROR.

Record AppError := mkAppError { status : StatusCode; title : bytes; detail : bytes }.

#[export] Instance StatusCode_eq_decision : EqDecision StatusCode.
Proof. solve_decision. Defined.
#[export] Instance AppError_eq_decision : EqDecision AppError.
Proof. solve_decision. Defined.

Definition bad_request (detail : bytes) : AppError :=
  mkAppError BAD_REQUEST (lit "Bad Request") detail.

Definition not_found (detail : bytes) : AppError :=
  mkAppError NOT_FOUND (lit "Not Found") detail.

Definition rate_limited (detail : bytes) : AppError :=
  mkAppError TOO_MANY_REQUESTS (lit "Too Many Requests") detail.

Definition conflict (detail : bytes) : AppError :=
  mkAppError CONFLICT (lit "Conflict") detail.

Definition forbidden (detail : bytes) : AppError :=
  mkAppError FORBIDDEN (lit "Forbidden") detail.

Definition internal (detail : bytes) : AppError :=
  mkAppError INTERNAL_SERVER_ERROR (lit "Internal Server Error") detail.

(** [From<sqlx::Error>]. *)
Definition database_error : AppError := internal (lit "internal database error").

Abbreviation app := (result AppError).

(** [Result::map_err]. *)
Definition map_err {E F A : Type} (r : result E A) (f : F) : result F A :=
  match r with Ok a => Ok a | Err _ => Err f end.

(** ** Constants of [lib.rs] *)

Definition MAX_USER_ID_LEN : N := 128.
Definition MAX_DEVICE_ID_LEN : N := 128.
Definition X25519_KEY_LEN : N := 32.
Definition SIG_PUB_KEY_LEN : N := 32.
Definition SIG_LEN : N := 64.
Definition PQ_SIG_PUB_KEY_LEN : N := 1952.
Definition PQ_SIG_LEN : N := 3309.
Definition MIN_PQ_KEY_LEN : N := 32.
Definition MAX_PQ_KEY_LEN : N := 4096.
Definition MAX_ONE_TIME_KEYS : N := 256.
Definition MAX_MESSAGE_BYTES : N := 1000000.
Definition MAX_INBOX_PAGE : nat := 200.
Definition MAX_PUSH_TOKEN_LEN : N := 4096.
Definition MAX_CONTACT_ALIAS_LEN : N := 128.
Definition MAX_PROFILE_DISPLAY_NAME_LEN : N := 128.
Definition MAX_USERNAME_LEN : N := 32.
Definition MAX_MIME_TYPE_LEN : N := 128.
Definition MAX_FILE_ID_LEN : N := 128.
Definition SHA256_HEX_LEN : N := 64.
Definition MAX_DISCOVERY_HASHES : N := 4096.
Definition MAX_GROUP_MEMBERS : N := 512.
Definition SEALED_DELIVERY_TOKEN_LEN : N := 12.
Definition MAX_ROTATION_CHALLENGE_ID_LEN : N := 128.
Definition ROTATION_CHALLENGE_BYTES : nat := 32.
Definition ROTATION_CHALLENGE_TTL_MINUTES : Z := 10.
Definition MAX_IDENTITY_LOG_ITEMS : nat := 128.
Definition AUTH_MAX_NONCE_LEN : N := 96.
Definition MAX_REQUEST_ID_LEN : N := 128.
Definition AUTH_MAX_CLOCK_SKEW_SECONDS : Z := 300.
Definition AUTH_REPLAY_WINDOW_SECONDS : N := 600.
Definition AUTH_REPLAY_MAX_ENTRIES : N := 100000.
Definition RELAY_DEDUP_TTL_SECONDS : Z := 900.
Definition PREKEY_LOW_WATERMARK : Z := 4.
Definition PREKEY_REPLENISH_TARGET : Z := 16.
Definition MAX_DELETE_MESSAGE_IDS : N := 512.
Definition MAX_POW_NONCE_LEN : N := 128.
Definition SIGNED_PREKEY_MAX_AGE_SECONDS : Z := 7 * 24 * 3600.

(** ** 64-bit signed integers *)

Definition i64_min : Z := - 2 ^ 63.
Definition i64_max : Z := 2 ^ 63 - 1.
Definition is_i64 (z : Z) : Prop := (i64_min ≤ z ≤ i64_max)%Z.

(** [i64::to_be_bytes]. *)
Definition i64_be (z : Z) : bytes := u64_be (Z.to_N (z mod 2 ^ 64)).

Lemma length_i64_be (z : Z) : length (i64_be z) = 8%nat.
Proof. apply length_u64_be. Qed.

Lemma i64_be_inj (a b : Z) : is_i64 a → is_i64 b → i64_be a = i64_be b → a = b.
Proof.
  unfold is_i64, i64_min, i64_max, i64_be. intros Ha Hb H.
  assert (Hm : ∀ z, (0 ≤ z mod 2 ^ 64 < 2 ^ 64)%Z) by (intros; by apply Z.mod_pos_bound).
  pose proof (Hm a). pose proof (Hm b).
  apply (f_equal from_be) in H. rewrite !from_u64_be in H by (unfold u64_max; lia).
  apply (f_equal Z.of_N) in H. rewrite !Z2N.id in H by lia.
  assert (Hz : ((a - b) mod 2 ^ 64 = 0)%Z) by (rewrite Zminus_mod, H, Z.sub_diag; done).
  apply Z.mod_divide in Hz as [k Hk]; [|done].
  assert (k = 0)%Z by lia. lia.
Qed.

(** [str::parse::<i64>]: an optional sign, then at least one decimal digit, in
    range. *)
Definition digit_value (b : byte) : option Z :=
  if in_range 0x30 0x39 b then Some (Z.of_N (Byte.to_N b) - 48)%Z else None.

Fixpoint digits_value (acc : Z) (l : bytes) : option Z :=
  match l with
  | [] => Some acc
  | b :: l => match digit_value b with
              | Some d => digits_value (acc * 10 + d) l
              | None => None
              end
  end.

Definition parse_i64 (l : bytes) : option Z :=
  let '(sign, digits) :=
    match l with
    | b :: r => if in_range 0x2D 0x2D b then ((-1)%Z, r)
                else if in_range 0x2B 0x2B b then (1%Z, r) else (1%Z, l)
    | [] => (1%Z, l)
    end in
  if (length digits =? 0)%nat then None else
  match digits_value 0 digits with
  | Some v =>
      let v := (sign * v)%Z in
      if (i64_min <=? v)%Z && (v <=? i64_max)%Z then Some v else None
  | None => None
  end.

Example parse_i64_ex :
  parse_i64 (lit "-9223372036854775808") = Some i64_min ∧
  parse_i64 (lit "9223372036854775808") = None ∧
  parse_i64 (lit "+17") = Some 17%Z ∧ parse_i64 (lit "1_7") = None.
Proof. done. Qed.

Lemma parse_i64_range (l : bytes) (z : Z) : parse_i64 l = Some z → is_i64 z.
Proof.
  unfold parse_i64, is_i64. destruct (match l with [] => _ | _ :: _ => _ end) as [sign digits].
  destruct (length digits =? 0)%nat; [done|]. destruct (digits_value 0 digits) as [v|]; [|done].
  destruct ((i64_min <=? sign * v)%Z && (sign * v <=? i64_max)%Z) eqn:E; [|done].
  intros [= <-]. apply andb_true_iff in E as [E1 E2]. lia.
Qed.

(** The digits of [i64::to_string], which [parse_i64] reads back. *)
Lemma pretty_digits (x : N) (t : string) :
  ∃ ds, lit (pretty_N_go x t) = ds ++ lit t ∧ forallb (in_range 0x30 0x39) ds = true ∧
    (∀ acc, digits_value acc ds = Some (acc * 10 ^ Z.of_nat (length ds) + Z.of_N x)%Z) ∧
    (x < 10 ^ N.of_nat (length ds) ∧ (0 < x → 10 ^ N.of_nat (length ds) ≤ 10 * x)).
Proof.
  revert t. induction x as [x IH] using (well_founded_induction N.lt_wf_0). intros t.
  destruct (decide (x = 0)) as [->|Hx].
  { exists []. split; [done|]. split; [done|]. split; [intros; simpl; f_equal; lia|]. simpl. lia. }
  rewrite pretty_N_go_step by lia.
  pose proof (N.div_mod x 10 ltac:(done)) as Hdm. pose proof (N.mod_lt x 10 ltac:(done)) as Hm.
  destruct (IH (x / 10) ltac:(apply N.div_lt; lia) (String (pretty_N_char (x mod 10)) t)) as (ds & E & Hd & Hv & Hl).
  set (c := Ascii.byte_of_ascii (pretty_N_char (x mod 10))).
  assert (Hc : in_range 0x30 0x39 c = true ∧ digit_value c = Some (Z.of_N (x mod 10))).
  { unfold c. clearbody c. clear -Hm. generalize dependent (x mod 10). intros n Hn.
    assert (Hn' : n = 0 ∨ n = 1 ∨ n = 2 ∨ n = 3 ∨ n = 4 ∨ n = 5 ∨ n = 6 ∨ n = 7 ∨ n = 8 ∨ n = 9) by lia.
    destruct_or! Hn'; subst n; done. }
  exists (ds ++ [c]). split_and!.
  - rewrite E. rewrite <- app_assoc. done.
  - rewrite forallb_app, Hd. simpl. by rewrite (proj1 Hc).
  - intros acc.
    assert (Happ : ∀ l a, digits_value a (l ++ [c]) =
      match digits_value a l with Some v => digits_value v [c] | None => None end).
    { induction l as [|b l IHl]; intros a; cbn [Datatypes.app digits_value]; [done|].
      destruct (digit_value b); [apply IHl|done]. }
    rewrite Happ, Hv. cbn [digits_value]. rewrite (proj2 Hc), length_app. simpl length.
    rewrite Nat2Z.inj_add, Z.pow_add_r by lia. f_equal. change (10 ^ Z.of_nat 1)%Z with 10%Z. lia.
  - rewrite length_app, Nat2N.inj_add, N.pow_add_r. change (10 ^ N.of_nat (length [c])) with 10. lia.
  - intros _. rewrite length_app, Nat2N.inj_add, N.pow_add_r. change (10 ^ N.of_nat (length [c])) with 10.
    destruct Hl as [_ Hl]. destruct (decide (x / 10 = 0)) as [E0|E0]; [|].
    2: { specialize (Hl ltac:(lia)). clear -Hl Hdm. revert Hl Hdm.
         generalize (10 ^ N.of_nat (length ds)) (x / 10) (x mod 10). intros; lia. }
    rewrite E0 in *.
    destruct ds as [|b ds]; [simpl; lia|]. exfalso.
    clear -E E0. simpl in E. unfold lit in E. injection E as E1 E2.
    apply (f_equal length) in E2. rewrite length_app in E2. simpl in E2. lia.
Qed.

Lemma decimal_spec (n : N) :
  forallb (in_range 0x30 0x39) (decimal n) = true ∧ digits_value 0 (decimal n) = Some (Z.of_N n) ∧
  0 < len (decimal n) ∧ (0 < n → 10 ^ len (decimal n) ≤ 10 * n).
Proof.
  unfold decimal, pretty, pretty_N. case_decide as Hn; [subst; done|].
  destruct (pretty_digits n "") as (ds & E & Hd & Hv & H1 & H2). rewrite E, app_nil_r.
  split; [done|]. split; [rewrite Hv; f_equal; lia|]. unfold len.
  destruct (decide (length ds = 0%nat)) as [E0|]; [|split; [lia|done]].
  rewrite E0 in H1. change (10 ^ N.of_nat 0) with 1 in H1. lia.
Qed.

Lemma parse_i64_decimal (n : N) : (Z.of_N n ≤ i64_max)%Z → parse_i64 (decimal n) = Some (Z.of_N n).
Proof.
  intros Hn. destruct (decimal_spec n) as (Hd & Hv & Hl & _). unfold parse_i64.
  destruct (decimal n) as [|b r] eqn:E; [done|]. simpl in Hd. apply andb_true_iff in Hd as [Hb _].
  assert (Hr : in_range 0x2D 0x2D b = false ∧ in_range 0x2B 0x2B b = false).
  { unfold in_range in *. bool_to_prop. split; apply andb_false_iff; right; apply N.leb_gt; lia. }
  destruct Hr as [-> ->]. cbn [length Nat.eqb]. rewrite Hv, Z.mul_1_l.
  rewrite (proj2 (Z.leb_le _ _)), (proj2 (Z.leb_le _ _)); [done|lia|unfold i64_min, i64_max in *; lia].
Qed.

(** ** Time

    A UTC instant is its nanoseconds since the epoch, and the RFC 3339 strings
    the database compares are the instants they denote: all are written by the
    server in UTC with fixed-width fields up to the seconds and a fraction that
    sorts after its own prefixes, so their order as strings is that of the
    instants. *)

Definition NANOS : Z := 1000000000.

(** [DateTime::timestamp], rounded towards the past. *)
Definition timestamp (t : Z) : Z := (t / NANOS)%Z.

Lemma timestamp_bounds (t : Z) : (timestamp t * NANOS ≤ t < timestamp t * NANOS + NANOS)%Z.
Proof. unfold timestamp, NANOS. pose proof (Z.div_mod t 1000000000). pose proof (Z.mod_pos_bound t 1000000000). lia. Qed.

(** [TimeDelta::num_seconds], rounded towards zero. *)
Definition num_seconds (d : Z) : Z := Z.quot d NANOS.
