(* ===== verification/Validation.v ===== *)
(** * Request validation ([pqmsg-server/src/validation.rs])

    The checks every handler applies to what a request carries, and the
    normal forms they produce: sorted lists without duplicates, usernames,
    MIME types, hexadecimal digests, base64 fields of bounded length, and the
    signature checks over the prekey transcripts of the core. *)

From Stdlib Require Import Strings.Byte.
From stdpp Require Import sorting.
From S2P Require Import Prelude Bytes Errors Tlv Crypto Toy Alg Keys PqSig Handshake ServerError.
Local Open Scope N_scope.

(** ** Sorting and deduplication

    [sort_unstable] on a total order whose equal elements are identical has one
    result; [dedup] drops an element equal to its predecessor. *)

Fixpoint insert_sorted {A} (leb : A → A → bool) (x : A) (l : list A) : list A :=
  match l with
  | [] => [x]
  | y :: l' => if leb x y then x :: l else y :: insert_sorted leb x l'
  end.

Definition sort_unstable {A} (leb : A → A → bool) (l : list A) : list A :=
  foldr (insert_sorted leb) [] l.

Fixpoint dedup {A} `{EqDecision A} (l : list A) : list A :=
  match l with
  | [] => []
  | x :: l' => match l' with
               | [] => [x]
               | y :: _ => if decide (x = y) then dedup l' else x :: dedup l'
               end
  end.

(** ** Identifiers and counts *)

Definition is_prekey_inventory_low (remaining_x remaining_pq : Z) : bool :=
  (remaining_x <=? PREKEY_LOW_WATERMARK)%Z || (remaining_pq <=? PREKEY_LOW_WATERMARK)%Z.

Definition validate_id (field value : bytes) : app unit :=
  let n := len (str_trim value) in
  if (n =? 0) || (MAX_USER_ID_LEN <? n) || (MAX_DEVICE_ID_LEN <? n)
  then Err (bad_request (field ++ lit " must be 1..128 non-whitespace characters"))
  else Ok tt.

(** The loop of [normalize_group_members]. *)
Fixpoint trimmed_members (raw_members : list bytes) : app (list bytes) :=
  match raw_members with
  | [] => Ok []
  | member :: raw_members =>
      let? _ := validate_id (lit "member_user_ids[]") member in
      let? members := trimmed_members raw_members in
      Ok (str_trim member :: members)
  end.

Definition normalize_group_members (raw_members : list bytes) : app (list bytes) :=
  let? members := trimmed_members raw_members in
  let members := dedup (sort_unstable str_leb members) in
  if MAX_GROUP_MEMBERS <? N.of_nat (length members)
  then Err (bad_request (lit "member_user_ids cannot exceed 512"))
  else Ok members.

Definition normalize_message_ids (message_ids : list Z) : list Z :=
  dedup (sort_unstable Z.leb message_ids).

Definition validate_rotation_challenge_id (value : bytes) : app unit :=
  let trimmed := str_trim value in
  if (len trimmed =? 0) || (MAX_ROTATION_CHALLENGE_ID_LEN <? len trimmed)
  then Err (bad_request (lit "challenge_id must be 1..128 characters"))
  else Ok tt.

Definition validate_one_time_count (field : bytes) (count : N) : app unit :=
  if MAX_ONE_TIME_KEYS <? count
  then Err (bad_request (field ++ lit " cannot contain more than 256 items"))
  else Ok tt.

(** ** Octet classes *)

Definition is_ascii_lowercase (b : byte) : bool := in_range 0x61 0x7A b.
Definition is_ascii_digit (b : byte) : bool := in_range 0x30 0x39 b.
Definition is_ascii_alphanumeric (b : byte) : bool :=
  in_range 0x41 0x5A b || is_ascii_lowercase b || is_ascii_digit b.
Definition is_ascii_hexdigit (b : byte) : bool :=
  is_ascii_digit b || in_range 0x41 0x46 b || in_range 0x61 0x66 b.
Definition is_char (c b : byte) : bool := bool_decide (b = c).

(** ** Push tokens *)

Inductive PushProvider : Type := Fcm | Apns.

Definition PushProvider_parse (raw : bytes) : option PushProvider :=
  let s := to_ascii_lowercase (str_trim raw) in
  if bool_decide (s = lit "fcm") then Some Fcm
  else if bool_decide (s = lit "apns") then Some Apns
  else None.

Definition PushProvider_as_str (p : PushProvider) : bytes :=
  match p with Fcm => lit "fcm" | Apns => lit "apns" end.

Record RegisterPushTokenRequest := {
  rpt_device_id : bytes;
  rpt_fcm_token : option bytes;
  rpt_token : option bytes;
  rpt_provider : option bytes;
}.

Definition resolve_push_token_payload (request : RegisterPushTokenRequest)
    : app (PushProvider * bytes) :=
  let? provider :=
    match rpt_provider request with
    | Some raw => ok_or (PushProvider_parse raw)
                    (bad_request (lit "provider must be one of: fcm, apns"))
    | None => Ok Fcm
    end in
  let? token :=
    ok_or (match rpt_token request with Some t => Some t | None => rpt_fcm_token request end)
      (bad_request (lit "push token is required")) in
  Ok (provider, token).

Definition validate_push_token (provider : PushProvider) (value : bytes) : app bytes :=
  let trimmed := str_trim value in
  if (len trimmed =? 0) || (MAX_PUSH_TOKEN_LEN <? len trimmed)
  then Err (bad_request (lit "token must be 1..=4096 characters"))
  else match provider with
       | Fcm => Ok trimmed
       | Apns =>
           if negb (forallb is_ascii_hexdigit trimmed)
           then Err (bad_request (lit "apns token must contain only hexadecimal characters"))
           else if (len trimmed <? 64) || (512 <? len trimmed)
           then Err (bad_request (lit "apns token must be 64..=512 hexadecimal characters"))
           else Ok trimmed
       end.

(** ** Files, MIME types and profile fields *)

Definition validate_file_id (value : bytes) : app unit :=
  let trimmed := str_trim value in
  if (len trimmed =? 0) || (MAX_FILE_ID_LEN <? len trimmed)
  then Err (bad_request (lit "file_id must be 1..=128 characters"))
  else if negb (forallb (λ b, is_ascii_alphanumeric b || is_char x2d b || is_char x5f b) trimmed)
  then Err (bad_request (lit "file_id must contain only [A-Za-z0-9_-]"))
  else Ok tt.

Definition validate_mime_type (field value : bytes) : app bytes :=
  let trimmed := str_trim value in
  if (len trimmed =? 0) || (MAX_MIME_TYPE_LEN <? len trimmed)
  then Err (bad_request (field ++ lit " must be 1..=128 characters"))
  else if negb (forallb (λ b, is_ascii_alphanumeric b || is_char x2f b || is_char x2d b
                              || is_char x2b b || is_char x2e b) trimmed)
  then Err (bad_request (field ++ lit " contains invalid characters"))
  else if negb (existsb (is_char x2f) trimmed)
  then Err (bad_request (field ++ lit " must include type/subtype"))
  else Ok (to_ascii_lowercase trimmed).

Definition validate_optional_mime_type (field : bytes) (value : option bytes) : app (option bytes) :=
  match value with
  | None => Ok None
  | Some raw =>
      let trimmed := str_trim raw in
      if len trimmed =? 0 then Ok None
      else let? m := validate_mime_type field trimmed in Ok (Some m)
  end.

Definition validate_optional_profile_display_name (value : option bytes) : app (option bytes) :=
  match value with
  | None => Ok None
  | Some raw =>
      let trimmed := str_trim raw in
      if len trimmed =? 0 then Ok None
      else if MAX_PROFILE_DISPLAY_NAME_LEN <? len trimmed
      then Err (bad_request (lit "display_name must be <= 128 characters"))
      else Ok (Some trimmed)
  end.

Definition validate_optional_contact_alias (value : option bytes) : app (option bytes) :=
  match value with
  | None => Ok None
  | Some alias =>
      let trimmed := str_trim alias in
      if len trimmed =? 0 then Ok None
      else if MAX_CONTACT_ALIAS_LEN <? len trimmed
      then Err (bad_request (lit "alias must be <= 128 characters"))
      else Ok (Some trimmed)
  end.

(** ** Usernames *)

(** [str::trim_start_matches] of one ASCII character. *)
Fixpoint trim_start_char (c : byte) (l : bytes) : bytes :=
  match l with
  | b :: l' => if is_char c b then trim_start_char c l' else l
  | [] => []
  end.

Definition is_valid_core (b : byte) : bool := is_ascii_lowercase b || is_ascii_digit b.
Definition is_valid_punct (b : byte) : bool := is_char x2e b || is_char x5f b.

(** The loop over the octets with [previous_was_punct]. *)
Fixpoint username_loop (previous_was_punct : bool) (l : bytes) : app unit :=
  match l with
  | [] => Ok tt
  | b :: l =>
      if is_valid_core b then username_loop false l
      else if negb (is_valid_punct b)
      then Err (bad_request
        (lit "username must contain only lowercase letters, digits, '.' or '_'"))
      else if previous_was_punct
      then Err (bad_request (lit "username cannot contain consecutive punctuation"))
      else username_loop true l
  end.

Definition validate_username (value : bytes) : app bytes :=
  let normalized := to_ascii_lowercase (trim_start_char x40 (str_trim value)) in
  if (len normalized <? 3) || (MAX_USERNAME_LEN <? len normalized)
  then Err (bad_request (lit "username must be 3..=32 characters"))
  else if negb (is_valid_core (default x00 (head normalized)))
          || negb (is_valid_core (default x00 (list.last normalized)))
  then Err (bad_request (lit "username must start and end with a letter or digit"))
  else let? _ := username_loop false normalized in Ok normalized.

Definition validate_optional_username (value : option bytes) : app (option bytes) :=
  match value with
  | None => Ok None
  | Some raw =>
      let trimmed := str_trim raw in
      if len trimmed =? 0 then Ok None
      else let? u := validate_username trimmed in Ok (Some u)
  end.

Definition validate_presence_status (value : bytes) : app bytes :=
  let normalized := to_ascii_lowercase (str_trim value) in
  if bool_decide (normalized ∈ [lit "offline"; lit "online"; lit "away"; lit "busy"])
  then Ok normalized
  else Err (bad_request (lit "status must be one of offline|online|away|busy")).

(** ** Digests *)

Definition validate_sha256_hex (field value : bytes) : app bytes :=
  let normalized := to_ascii_lowercase (str_trim value) in
  if negb (len normalized =? SHA256_HEX_LEN)
  then Err (bad_request (field ++ lit " value must be 64 hex characters"))
  else if negb (forallb is_ascii_hexdigit normalized)
  then Err (bad_request (field ++ lit " value must be lowercase hex"))
  else Ok normalized.

Fixpoint validated_hashes (field : bytes) (values : list bytes) : app (list bytes) :=
  match values with
  | [] => Ok []
  | value :: values =>
      let? h := validate_sha256_hex field value in
      let? hashes := validated_hashes field values in
      Ok (h :: hashes)
  end.

Definition normalize_sha256_hashes (field : bytes) (values : list bytes) : app (list bytes) :=
  if MAX_DISCOVERY_HASHES <? N.of_nat (length values)
  then Err (bad_request (field ++ lit " cannot exceed 4096 items"))
  else
    let? hashes := validated_hashes field values in
    Ok (dedup (sort_unstable str_leb hashes)).

Definition validate_optional_fingerprint_sha256 (value : option bytes) : app (option bytes) :=
  match value with
  | None => Ok None
  | Some raw =>
      let? normalized := validate_sha256_hex (lit "verified_fingerprint_sha256") raw in
      Ok (Some normalized)
  end.

(** ** Base64 fields *)

Section Base64Fields.
Context `{B : Base64}.

Definition decode_base64_range (field value : bytes) (min_len max_len : N) : app bytes :=
  if len value =? 0 then Err (bad_request (field ++ lit " cannot be empty"))
  else
    let max_encoded := (max_len + 2) / 3 * 4 + 8 in
    if max_encoded <? len value then Err (bad_request (field ++ lit " is too large"))
    else
      let? decoded := ok_or (b64_decode value) (bad_request (field ++ lit " is not valid base64")) in
      if (len decoded <? min_len) || (max_len <? len decoded)
      then Err (bad_request (field ++ lit " decoded length must be between "
                               ++ decimal min_len ++ lit " and " ++ decimal max_len))
      else Ok decoded.

Definition decode_base64_exact (field value : bytes) (expected_len : N) : app bytes :=
  decode_base64_range field value expected_len expected_len.

Definition decode_base64_max (field value : bytes) (max_len : N) : app bytes :=
  decode_base64_range field value 1 max_len.

(** A field decodes precisely when it is the encoding of octets within the
    bounds: the size check ahead of the decoder refuses nothing more. *)
Lemma decode_base64_range_iff `{!Base64Laws B} (field value decoded : bytes) (lo hi : N) :
  1 ≤ lo →
  decode_base64_range field value lo hi = Ok decoded ↔
    value = b64_encode decoded ∧ lo ≤ len decoded ≤ hi.
Proof.
  intros Hlo. unfold decode_base64_range. split.
  - intros H. destruct (len value =? 0); [done|]. destruct (_ <? len value); [done|].
    destruct (b64_decode value) as [d|] eqn:Ed; [|done]. simpl in H.
    destruct (len d <? lo) eqn:E1; [done|]. destruct (hi <? len d) eqn:E2; [done|].
    apply Ok_inj in H as <-. bool_to_prop. split; [by apply b64_canonical|lia].
  - intros [-> Hl]. rewrite b64_roundtrip. simpl.
    assert (Hn : len (b64_encode decoded) = 4 * ((len decoded + 2) / 3)).
    { unfold len. rewrite b64_encode_length, Nat2N.inj_mul, Nat2N.inj_div, Nat2N.inj_add. lia. }
    rewrite Hn.
    pose proof (N.Div0.div_le_mono (len decoded + 2) (hi + 2) 3 ltac:(lia)).
    assert (1 ≤ (len decoded + 2) / 3) by (apply N.div_le_lower_bound; lia).
    rewrite (proj2 (N.eqb_neq _ _)), (proj2 (N.ltb_ge _ _)) by lia.
    rewrite (proj2 (N.ltb_ge _ _)), (proj2 (N.ltb_ge hi _)) by lia. done.
Qed.

Lemma decode_base64_exact_iff `{!Base64Laws B} (field value decoded : bytes) (n : N) :
  1 ≤ n →
  decode_base64_exact field value n = Ok decoded ↔ value = b64_encode decoded ∧ len decoded = n.
Proof.
  intros Hn. unfold decode_base64_exact. rewrite decode_base64_range_iff by done.
  split; intros [-> Hl]; (split; [done|lia]).
Qed.
End Base64Fields.

(** ** Signatures

    [VerifyingKey::from_bytes] takes exactly 32 octets and
    [Signature::from_bytes] exactly 64, which the conversions to arrays
    enforce. [MlDsa65::new] may find no backend. *)

Section Signatures.
Context `{P : Primitives} `{V : Ed25519}.

Definition validate_ed25519_public_key (identity_sig_pub : bytes) : app unit :=
  if negb (len identity_sig_pub =? SIG_PUB_KEY_LEN)
  then Err (bad_request (lit "identity_sig_pub must be 32 bytes"))
  else
    let? _ := ok_or (ed_key_from_bytes identity_sig_pub)
      (bad_request (lit "identity_sig_pub is not a valid Ed25519 public key")) in
    Ok tt.

Definition verify_ed25519_signature (public_key signature message field : bytes) : app unit :=
  if negb (len public_key =? SIG_PUB_KEY_LEN)
  then Err (bad_request (lit "identity_sig_pub must be 32 bytes"))
  else
    let? verifier := ok_or (ed_key_from_bytes public_key)
      (bad_request (lit "identity_sig_pub is not a valid Ed25519 public key")) in
    let? signature := ok_or (if len signature =? SIG_LEN then ed_sig_from_slice signature else None)
      (bad_request (field ++ lit " must be 64 bytes")) in
    if ed_verify verifier message signature then Ok tt
    else Err (bad_request (field ++ lit " verification failed")).

Definition validate_ml_dsa_public_key (identity_pq_sig_pub : bytes) : app unit :=
  if negb (len identity_pq_sig_pub =? PQ_SIG_PUB_KEY_LEN)
  then Err (bad_request (lit "identity_pq_sig_pub must be 1952 bytes"))
  else Ok tt.

Context (MlDsa65_new : option PqSignatureProvider).

Definition verify_ml_dsa_signature (public_key signature message field : bytes) : app unit :=
  let? _ := validate_ml_dsa_public_key public_key in
  if negb (len signature =? PQ_SIG_LEN)
  then Err (bad_request (field ++ lit " must be 3309 bytes"))
  else
    let? provider := ok_or MlDsa65_new (internal (lit "pq signature backend unavailable")) in
    map_err (pqs_verify provider public_key message signature)
      (bad_request (field ++ lit " verification failed")).

Definition verify_hybrid_prekey_signatures
    (identity_sig_pub identity_pq_sig_pub signed_prekey_x25519_pub sig_over_spk
     pq_signed_prekey_pub_mlkem768 sig_over_pqspk pq_sig_over_spk pq_sig_over_pqspk : bytes)
    : app unit :=
  if negb (len identity_sig_pub =? SIG_PUB_KEY_LEN)
  then Err (bad_request (lit "identity_sig_pub must be 32 bytes"))
  else
    let? verifier := ok_or (ed_key_from_bytes identity_sig_pub)
      (bad_request (lit "identity_sig_pub is not a valid Ed25519 public key")) in
    if negb (len signed_prekey_x25519_pub =? X25519_KEY_LEN)
    then Err (bad_request (lit "signed_prekey_x25519_pub must be 32 bytes"))
    else
    let? spk_signature :=
      ok_or (if len sig_over_spk =? SIG_LEN then ed_sig_from_slice sig_over_spk else None)
        (bad_request (lit "sig_over_spk must be 64 bytes")) in
    let? spk_message :=
      map_err (signed_prekey_signature_message PROTOCOL_VERSION_V1 signed_prekey_x25519_pub)
        (bad_request (lit "failed to build SPK signature transcript")) in
    if negb (ed_verify verifier spk_message spk_signature)
    then Err (bad_request (lit "sig_over_spk verification failed"))
    else
    let? pq_signature :=
      ok_or (if len sig_over_pqspk =? SIG_LEN then ed_sig_from_slice sig_over_pqspk else None)
        (bad_request (lit "sig_over_pqspk must be 64 bytes")) in
    let? pq_message :=
      map_err (pq_signed_prekey_signature_message PROTOCOL_VERSION_V1 pq_signed_prekey_pub_mlkem768)
        (bad_request (lit "failed to build PQSPK signature transcript")) in
    if negb (ed_verify verifier pq_message pq_signature)
    then Err (bad_request (lit "sig_over_pqspk verification failed"))
    else
    let? _ := validate_ml_dsa_public_key identity_pq_sig_pub in
    if negb (len pq_sig_over_spk =? PQ_SIG_LEN)
    then Err (bad_request (lit "pq_sig_over_spk must be 3309 bytes"))
    else if negb (len pq_sig_over_pqspk =? PQ_SIG_LEN)
    then Err (bad_request (lit "pq_sig_over_pqspk must be 3309 bytes"))
    else
    let? pq_verifier :=
      ok_or MlDsa65_new (internal (lit "failed to initialize ML-DSA verifier")) in
    let? _ := map_err (pqs_verify pq_verifier identity_pq_sig_pub spk_message pq_sig_over_spk)
      (bad_request (lit "pq_sig_over_spk verification failed")) in
    map_err (pqs_verify pq_verifier identity_pq_sig_pub pq_message pq_sig_over_pqspk)
      (bad_request (lit "pq_sig_over_pqspk verification failed")).
End Signatures.

(** ** Transcripts and fingerprints *)

Definition ROTATE_SIG_TAG_USER_ID : N := critical_type 0x3101.
Definition ROTATE_SIG_TAG_CHALLENGE_ID : N := critical_type 0x3102.
Definition ROTATE_SIG_TAG_CHALLENGE_NONCE : N := critical_type 0x3103.
Definition ROTATE_SIG_TAG_NEW_IDENTITY_X25519 : N := critical_type 0x3104.
Definition ROTATE_SIG_TAG_NEW_IDENTITY_SIG : N := critical_type 0x3105.
Definition ROTATE_SIG_TAG_NEW_DEVICE_ID : N := critical_type 0x3106.
Definition ROTATE_SIG_TAG_NEW_IDENTITY_PQ_SIG : N := critical_type 0x3107.

Definition rotation_signature_message
    (user_id challenge_id challenge_nonce new_identity_x25519 new_identity_sig
     new_identity_pq_sig new_device_id : bytes) : app bytes :=
  map_err (encode
    [mkTlv ROTATE_SIG_TAG_USER_ID user_id;
     mkTlv ROTATE_SIG_TAG_CHALLENGE_ID challenge_id;
     mkTlv ROTATE_SIG_TAG_CHALLENGE_NONCE challenge_nonce;
     mkTlv ROTATE_SIG_TAG_NEW_IDENTITY_X25519 new_identity_x25519;
     mkTlv ROTATE_SIG_TAG_NEW_IDENTITY_SIG new_identity_sig;
     mkTlv ROTATE_SIG_TAG_NEW_IDENTITY_PQ_SIG new_identity_pq_sig;
     mkTlv ROTATE_SIG_TAG_NEW_DEVICE_ID new_device_id])
    (internal (lit "rotation signature transcript encoding failed")).

(** The [hex] crate's lower-case encoding. *)
Class Hex := { hex_lower : bytes → bytes }.

Section Digests.
Context `{P : Primitives} `{X : Hex}.

Definition hash_string_list_sha256 (values : list bytes) : bytes := sha256 (concat values).

Definition identity_fingerprint_sha256 (identity_key : bytes) (identity_pq_sig_pub : option bytes)
    : bytes :=
  hex_lower (sha256 (identity_key ++ default [] identity_pq_sig_pub)).
End Digests.

(** ** Normal forms *)

Section Sorting.
Context {A : Type} `{EqDecision A}.

Lemma dedup_cons2 (y z : A) (l : list A) :
  dedup (y :: z :: l) = if decide (y = z) then dedup (z :: l) else y :: dedup (z :: l).
Proof. done. Qed.

Lemma elem_of_dedup (x : A) (l : list A) : x ∈ dedup l ↔ x ∈ l.
Proof.
  induction l as [|y [|z l] IH]; [done|done|]. rewrite dedup_cons2.
  destruct (decide (y = z)) as [->|Hne]; rewrite ?elem_of_cons, IH, ?elem_of_cons; tauto.
Qed.

Context (leb : A → A → bool).

Definition le_of (a b : A) : Prop := leb a b = true.
Definition lt_of (a b : A) : Prop := leb a b = true ∧ a ≠ b.

Lemma elem_of_insert_sorted (x y : A) (l : list A) :
  y ∈ insert_sorted leb x l ↔ y = x ∨ y ∈ l.
Proof.
  induction l as [|z l IH]; simpl; [set_solver|].
  destruct (leb x z); [set_solver|]. rewrite !elem_of_cons, IH. tauto.
Qed.

Lemma insert_sorted_perm (x : A) (l : list A) : insert_sorted leb x l ≡ₚ x :: l.
Proof. induction l as [|y l IH]; [done|]. simpl. case_match; [done|]. rewrite IH. constructor. Qed.

Lemma sort_unstable_perm (l : list A) : sort_unstable leb l ≡ₚ l.
Proof. induction l as [|x l IH]; [done|]. cbn [sort_unstable foldr]. by rewrite insert_sorted_perm, IH. Qed.

Lemma elem_of_sort_unstable (x : A) (l : list A) : x ∈ sort_unstable leb l ↔ x ∈ l.
Proof.
  induction l as [|y l IH]; [done|]. cbn [sort_unstable foldr].
  rewrite elem_of_insert_sorted, elem_of_cons. by rewrite <- IH.
Qed.

Context (Htotal : ∀ a b, leb a b = false → leb b a = true).
Context (Hanti : ∀ a b, leb a b = true → leb b a = true → a = b).
Context (Htrans : ∀ a b c, leb a b = true → leb b c = true → leb a c = true).

Lemma insert_sorted_sorted (x : A) (l : list A) :
  StronglySorted le_of l → StronglySorted le_of (insert_sorted leb x l).
Proof.
  induction 1 as [|y l Hl IH Hy]; simpl; [by repeat constructor|].
  destruct (leb x y) eqn:E.
  - constructor; [by constructor|]. constructor; [done|].
    eapply list.Forall_impl; [exact Hy|]. intros z Hz. by eapply Htrans.
  - constructor; [done|]. apply list.Forall_forall. intros z [->|Hz]%elem_of_insert_sorted.
    + by apply Htotal.
    + rewrite list.Forall_forall in Hy. by apply Hy.
Qed.

Lemma sort_unstable_sorted (l : list A) : StronglySorted le_of (sort_unstable leb l).
Proof. induction l; [constructor|]. by apply insert_sorted_sorted. Qed.

Lemma dedup_sorted (l : list A) : StronglySorted le_of l → StronglySorted lt_of (dedup l).
Proof.
  induction 1 as [|y l Hl IH Hy]; [constructor|]. destruct l as [|z l]; [by repeat constructor|].
  rewrite dedup_cons2. destruct (decide (y = z)) as [->|Hne]; [done|].
  rewrite list.Forall_forall in Hy.
  constructor; [done|]. apply list.Forall_forall. intros x Hx.
  rewrite elem_of_dedup in Hx. split; [by apply Hy|].
  intros ->. apply elem_of_cons in Hx as [->|Hx]; [done|].
  apply Hne, Hanti; [apply Hy; left|].
  apply StronglySorted_inv in Hl as [_ Hz]. rewrite list.Forall_forall in Hz. by apply Hz.
Qed.

(** A strictly sorted list is determined by its elements. *)
Lemma lt_sorted_ext (l k : list A) :
  StronglySorted lt_of l → StronglySorted lt_of k → (∀ x, x ∈ l ↔ x ∈ k) → l = k.
Proof.
  intros Hl. revert k. induction Hl as [|x l Hl IH Hx]; intros k Hk Helem.
  - destruct k as [|y k]; [done|]. exfalso. by eapply (not_elem_of_nil y), Helem, list_elem_of_here.
  - destruct Hk as [|y k Hk Hy]; [exfalso; by eapply (not_elem_of_nil x), Helem, list_elem_of_here|].
    rewrite list.Forall_forall in Hx, Hy.
    assert (x = y) as <-.
    { assert (x ∈ y :: k) as [->|Hxk]%elem_of_cons by (apply Helem; left); [done|].
      assert (y ∈ x :: l) as [->|Hyl]%elem_of_cons by (apply Helem; left); [done|].
      apply Hanti; [apply (Hx y Hyl)|apply (Hy x Hxk)]. }
    f_equal. apply IH; [done|]. intros z. specialize (Helem z). rewrite !elem_of_cons in Helem.
    split; intros Hz.
    + destruct (proj1 Helem (or_intror Hz)) as [->|]; [|done]. by destruct (Hx x Hz).
    + destruct (proj2 Helem (or_intror Hz)) as [->|]; [|done]. by destruct (Hy x Hz).
Qed.
End Sorting.

(** The normal form of a list of message ids or of strings is the strictly
    increasing list of its elements. *)
Lemma normalize_message_ids_spec (ids : list Z) :
  StronglySorted (lt_of Z.leb) (normalize_message_ids ids) ∧
  ∀ id, id ∈ normalize_message_ids ids ↔ id ∈ ids.
Proof.
  unfold normalize_message_ids. split.
  - apply dedup_sorted; [lia|]. apply sort_unstable_sorted; lia.
  - intros id. rewrite elem_of_dedup, elem_of_sort_unstable. done.
Qed.

Lemma normalize_strings_spec (l : list bytes) :
  StronglySorted (lt_of str_leb) (dedup (sort_unstable str_leb l)) ∧
  ∀ s, s ∈ dedup (sort_unstable str_leb l) ↔ s ∈ l.
Proof.
  split.
  - apply dedup_sorted; [exact str_leb_antisym|].
    apply sort_unstable_sorted; [exact str_leb_total|exact str_leb_trans].
  - intros s. by rewrite elem_of_dedup, elem_of_sort_unstable.
Qed.

(** ** The grammar of usernames *)

(** Letters and digits, with single dots or underscores between them. *)
Inductive handle : bytes → Prop :=
| handle_one c : is_valid_core c = true → handle [c]
| handle_core c l : is_valid_core c = true → handle l → handle (c :: l)
| handle_punct c p l : is_valid_core c = true → is_valid_punct p = true → handle l →
    handle (c :: p :: l).

Lemma core_not_punct (b : byte) : is_valid_punct b = true → is_valid_core b = false.
Proof. by destruct b. Qed.

Lemma handle_head (l : bytes) : handle l → ∃ c r, l = c :: r ∧ is_valid_core c = true.
Proof. destruct 1; eauto. Qed.

Lemma handle_snoc (l : bytes) (c : byte) :
  handle l → is_valid_core c = true → handle (l ++ [c]).
Proof.
  intros Hl Hc. induction Hl; simpl.
  - by apply handle_core, handle_one.
  - by apply handle_core.
  - by apply handle_punct.
Qed.

Lemma handle_snoc_punct (l : bytes) (p c : byte) :
  handle l → is_valid_punct p = true → is_valid_core c = true → handle (l ++ [p; c]).
Proof.
  intros Hl Hp Hc. induction Hl; simpl.
  - by apply handle_punct, handle_one.
  - by apply handle_core.
  - by apply handle_punct.
Qed.

Lemma handle_rev (l : bytes) : handle l → handle (rev l).
Proof.
  induction 1 as [c Hc|c l Hc _ IH|c p l Hc Hp _ IH]; simpl; [by apply handle_one| |].
  - by apply handle_snoc.
  - rewrite <- app_assoc. by apply handle_snoc_punct.
Qed.

Lemma handle_last (l : bytes) : handle l → is_valid_core (default x00 (list.last l)) = true.
Proof.
  induction 1 as [c Hc|c l Hc Hl IH|c p l Hc Hp Hl IH]; [done| |];
    destruct (handle_head l Hl) as (x & r & -> & _); exact IH.
Qed.

Lemma username_loop_handle (l : bytes) :
  is_valid_core (default x00 (head l)) = true → is_valid_core (default x00 (list.last l)) = true →
  username_loop false l = Ok tt ↔ handle l.
Proof.
  intros Hh Hl. split.
  - revert Hh Hl. induction l as [l IH] using length_ind. intros Hh Hlast Hl.
    destruct l as [|x [|y l]]; [done|by apply handle_one|]. simpl in Hh.
    cbn [username_loop] in Hl. rewrite Hh in Hl. destruct (is_valid_core y) eqn:Ey.
    { apply handle_core; [done|]. apply IH; [simpl; lia|done|done|]. simpl. by rewrite Ey. }
    destruct (is_valid_punct y) eqn:Ep; [|done]. simpl in Hl.
    destruct l as [|z l]; [simpl in Hlast; congruence|].
    cbn [username_loop] in Hl. destruct (is_valid_core z) eqn:Ez; [|by destruct (is_valid_punct z)].
    apply handle_punct; [done..|]. apply IH; [simpl; lia|done|done|]. simpl. by rewrite Ez.
  - intros H. clear Hh Hl. induction H as [c Hc|c l Hc _ IH|c p l Hc Hp H IH]; simpl; rewrite Hc; [done..|].
    rewrite (core_not_punct p Hp), Hp. simpl.
    destruct (handle_head l H) as (x & r & -> & Hx). simpl in *. by rewrite Hx in *.
Qed.

(** Text without blanks at its ends, below U+0080, is its own trimming. *)
Definition plain (b : byte) : bool := (Byte.to_N b <? 0x80) && negb (ws1 b).

Lemma plain_ws (a b c : byte) : plain a = true →
  ws1 a = false ∧ ws2 a b = false ∧ ws2 b a = false ∧ ws3 a b c = false ∧ ws3 c b a = false.
Proof.
  unfold plain, ws2, ws3. destruct (ws1 a); [by rewrite andb_false_r|].
  intros H. bool_to_prop. split; [done|].
  assert (H1 : (Byte.to_N a =? 0xC2) = false) by (apply N.eqb_neq; lia).
  assert (H2 : (Byte.to_N a =? 0x85) || (Byte.to_N a =? 0xA0) = false)
    by (apply orb_false_iff; split; apply N.eqb_neq; lia).
  rewrite H1, H2, andb_false_r. clear H1 H2.
  split; [done|]. split; [done|]. unfold in_range.
  assert (Ha : ∀ lo hi, 0x80 ≤ lo → (lo <=? Byte.to_N a) && (Byte.to_N a <=? hi) = false).
  { intros lo hi Hlo. apply andb_false_iff. left. apply N.leb_gt. lia. }
  assert (He : ∀ k, 0x80 ≤ k → (Byte.to_N a =? k) = false) by (intros; apply N.eqb_neq; lia).
  assert (Hb : Byte.to_N a < 0x80) by done.
  split.
  - revert Hb. generalize (Byte.to_N a) as n. intros n Hn.
    assert (n ≠ 0xE1 ∧ n ≠ 0xE2 ∧ n ≠ 0xE3) as (? & ? & ?) by lia.
    repeat case_match; try done.
  - repeat case_match; try done; by rewrite ?Ha, ?He by lia.
Qed.

Lemma str_trim_plain (l : bytes) :
  plain (default x00 (head l)) = true → plain (default x00 (head (rev l))) = true → str_trim l = l.
Proof.
  assert (Hs : ∀ l, plain (default x00 (head l)) = true → trim_start l = l).
  { intros [|a [|b [|c r]]] Ha; [done|..]; simpl in Ha;
      destruct (plain_ws a x00 x00 Ha) as (H1 & _); cbn [trim_start]; rewrite H1; try done;
      destruct (plain_ws a b x00 Ha) as (_ & H2 & _); rewrite H2; try done.
    by destruct (plain_ws a b c Ha) as (_ & _ & _ & -> & _). }
  assert (He : ∀ l, plain (default x00 (head l)) = true → trim_end_rev l = l).
  { intros [|a [|b [|c r]]] Ha; [done|..]; simpl in Ha;
      destruct (plain_ws a x00 x00 Ha) as (H1 & _); cbn [trim_end_rev]; rewrite H1; try done;
      destruct (plain_ws a b x00 Ha) as (_ & _ & H2 & _); rewrite H2; try done.
    by destruct (plain_ws a b c Ha) as (_ & _ & _ & _ & ->). }
  intros Hh Hl. unfold str_trim. by rewrite (Hs l Hh), (He _ Hl), rev_involutive.
Qed.

Lemma core_plain (b : byte) : is_valid_core b = true → plain b = true.
Proof. by destruct b. Qed.

Lemma handle_lower (l : bytes) : handle l → to_ascii_lowercase l = l.
Proof.
  assert (Hc : ∀ c, is_valid_core c = true ∨ is_valid_punct c = true → ascii_lower c = c).
  { intros c [H|H]; revert H; by destruct c. }
  induction 1 as [c H|c l H _ IH|c p l H Hp _ IH]; cbn [to_ascii_lowercase map];
    rewrite ?Hc by auto; [done|f_equal; exact IH|do 2 f_equal; exact IH].
Qed.

(** The form [validate_username] gives a name before it checks it. *)
Definition username_form (value : bytes) : bytes :=
  to_ascii_lowercase (trim_start_char x40 (str_trim value)).

Lemma handle_username_form (l : bytes) : handle l → username_form l = l.
Proof.
  intros H. unfold username_form.
  destruct (handle_head l H) as (c & r & -> & Hc).
  destruct (handle_head _ (handle_rev _ H)) as (d & r' & Er & Hd).
  rewrite str_trim_plain; [|by apply core_plain|rewrite Er; by apply core_plain].
  cbn [trim_start_char]. replace (is_char x40 c) with false; [by apply handle_lower|].
  symmetry. apply bool_decide_eq_false. intros ->. done.
Qed.

(** The accepted usernames. A name is accepted precisely when its trimmed,
    lower-case form without leading [@] signs has three to 32 characters,
    letters and digits with single dots or underscores between them, and that
    form is what is returned; so an accepted name is its own normal form, and
    two spellings of one account are looked up under one key. *)
Theorem username_grammar (value name : bytes) :
  (validate_username value = Ok name ↔
     name = username_form value ∧ handle name ∧ 3 ≤ len name ≤ MAX_USERNAME_LEN) ∧
  (validate_username value = Ok name → validate_username name = Ok name).
Proof.
  assert (Hiff : ∀ v n, validate_username v = Ok n ↔
     n = username_form v ∧ handle n ∧ 3 ≤ len n ≤ MAX_USERNAME_LEN).
  { intros v n. unfold validate_username. fold (username_form v). split.
    - intros H. destruct (len (username_form v) <? 3) eqn:E1; [done|].
      destruct (MAX_USERNAME_LEN <? len (username_form v)) eqn:E2; [done|]. cbn [orb] in H.
      destruct (is_valid_core (default x00 (head (username_form v)))) eqn:E3; [|done].
      destruct (is_valid_core (default x00 (list.last (username_form v)))) eqn:E4; [|done].
      cbn [negb orb] in H. destruct (username_loop false (username_form v)) as [[]|] eqn:E5; [|done].
      apply Ok_inj in H as <-. bool_to_prop. split; [done|]. split; [|lia].
      by apply username_loop_handle.
    - intros (-> & Hh & Hl). pose proof (handle_last _ Hh) as Hlast.
      destruct (handle_head _ Hh) as (c & r & Ec & Hc).
      rewrite (proj2 (N.ltb_ge _ _)), (proj2 (N.ltb_ge MAX_USERNAME_LEN _)) by lia.
      assert (Hhead : is_valid_core (default x00 (head (username_form v))) = true) by by rewrite Ec.
      rewrite Hhead, Hlast. cbn [negb orb].
      by rewrite (proj2 (username_loop_handle _ Hhead Hlast) Hh). }
  split; [apply Hiff|]. intros (_ & Hh & Hl)%Hiff. apply Hiff.
  by rewrite handle_username_form.
Qed.

Example username_ex :
  validate_username (lit " @@Alice.B_2 ") = Ok (lit "alice.b_2") ∧
  is_ok (validate_username (lit "alice._b")) = false ∧ is_ok (validate_username (lit "alice_")) = false.
Proof. done. Qed.
