(* ===== verification/RequestAuth.v ===== *)
(** * Request authentication ([pqmsg-server/src/auth.rs])

    A request carries a user, a device, a timestamp, a nonce and an Ed25519
    signature in its headers. The signature covers a transcript of the five
    and of what the endpoint takes from the request: one function of the source
    per endpoint, modelled one by one. *)

From Stdlib Require Import Strings.Byte.
From S2P Require Import Prelude Bytes Errors Tlv Crypto Toy ServerError Validation.
Local Open Scope N_scope.

(** ** Record types ([lib.rs]) *)

Definition AUTH_TAG_ENDPOINT : N := critical_type 0x3201.
Definition AUTH_TAG_USER_ID : N := critical_type 0x3202.
Definition AUTH_TAG_DEVICE_ID : N := critical_type 0x3203.
Definition AUTH_TAG_TIMESTAMP : N := critical_type 0x3204.
Definition AUTH_TAG_NONCE : N := critical_type 0x3205.
Definition AUTH_TAG_RECIPIENT_ID : N := critical_type 0x3206.
Definition AUTH_TAG_SINCE : N := critical_type 0x3207.
Definition AUTH_TAG_MESSAGE_BLOB : N := critical_type 0x3208.
Definition AUTH_TAG_PREKEY_SPK_HASH : N := critical_type 0x3209.
Definition AUTH_TAG_PREKEY_PQSPK_HASH : N := critical_type 0x320A.
Definition AUTH_TAG_ROTATE_NEW_X25519_HASH : N := critical_type 0x320B.
Definition AUTH_TAG_ROTATE_NEW_SIG_HASH : N := critical_type 0x320C.
Definition AUTH_TAG_ROTATE_CHALLENGE_ID : N := critical_type 0x320D.
Definition AUTH_TAG_ROTATE_SIG_CURRENT_HASH : N := critical_type 0x320E.
Definition AUTH_TAG_ROTATE_SIG_NEW_HASH : N := critical_type 0x320F.
Definition AUTH_TAG_PUSH_DEVICE_ID : N := critical_type 0x3210.
Definition AUTH_TAG_PUSH_TOKEN_HASH : N := critical_type 0x3211.
Definition AUTH_TAG_LINK_DEVICE_ID : N := critical_type 0x3212.
Definition AUTH_TAG_REVOKE_DEVICE_ID : N := critical_type 0x3213.
Definition AUTH_TAG_DELETE_IDS_HASH : N := critical_type 0x3214.
Definition AUTH_TAG_DELETE_BEFORE_ID : N := critical_type 0x3215.
Definition AUTH_TAG_DISCOVERY_PHONE_HASHES_HASH : N := critical_type 0x3216.
Definition AUTH_TAG_DISCOVERY_EMAIL_HASHES_HASH : N := critical_type 0x3217.
Definition AUTH_TAG_DISCOVERY_QUERY_HASHES_HASH : N := critical_type 0x3218.
Definition AUTH_TAG_CONTACT_USER_ID : N := critical_type 0x3219.
Definition AUTH_TAG_CONTACT_ALIAS_HASH : N := critical_type 0x321A.
Definition AUTH_TAG_CONTACT_VERIFIED_FLAG : N := critical_type 0x321B.
Definition AUTH_TAG_CONTACT_FINGERPRINT : N := critical_type 0x321C.
Definition AUTH_TAG_GROUP_ID : N := critical_type 0x321D.
Definition AUTH_TAG_GROUP_MEMBER_USER_ID : N := critical_type 0x321E.
Definition AUTH_TAG_GROUP_MEMBERS_HASH : N := critical_type 0x321F.
Definition AUTH_TAG_GROUP_SENDER_USER_ID : N := critical_type 0x3220.
Definition AUTH_TAG_FILE_ID : N := critical_type 0x3222.
Definition AUTH_TAG_FILE_RECIPIENT_ID : N := critical_type 0x3223.
Definition AUTH_TAG_FILE_BLOB_HASH : N := critical_type 0x3224.
Definition AUTH_TAG_FILE_MIME_HASH : N := critical_type 0x3225.
Definition AUTH_TAG_PROFILE_DISPLAY_NAME_HASH : N := critical_type 0x3226.
Definition AUTH_TAG_PROFILE_AVATAR_HASH : N := critical_type 0x3227.
Definition AUTH_TAG_PROFILE_AVATAR_MIME_HASH : N := critical_type 0x3228.
Definition AUTH_TAG_PRESENCE_STATUS : N := critical_type 0x3229.
Definition AUTH_TAG_TYPING_PEER_ID : N := critical_type 0x322A.
Definition AUTH_TAG_TYPING_STATE_FLAG : N := critical_type 0x322B.
Definition AUTH_TAG_GROUP_RECIPIENTS_HASH : N := critical_type 0x322C.
Definition AUTH_TAG_PROFILE_USERNAME_HASH : N := critical_type 0x322D.
Definition AUTH_TAG_PROFILE_USERNAME_LOOKUP_ENABLED : N := critical_type 0x322E.
Definition AUTH_TAG_ROTATE_NEW_PQ_SIG_HASH : N := critical_type 0x3230.
Definition AUTH_TAG_ROTATE_PQ_SIG_CURRENT_HASH : N := critical_type 0x3231.
Definition AUTH_TAG_ROTATE_PQ_SIG_NEW_HASH : N := critical_type 0x3232.
Definition AUTH_TAG_DISCOVERY_PURPOSE : N := critical_type 0x3233.

Definition AUTH_HEADER_USER : bytes := lit "x-pqmsg-auth-user".
Definition AUTH_HEADER_DEVICE : bytes := lit "x-pqmsg-auth-device".
Definition AUTH_HEADER_TIMESTAMP : bytes := lit "x-pqmsg-auth-timestamp".
Definition AUTH_HEADER_NONCE : bytes := lit "x-pqmsg-auth-nonce".
Definition AUTH_HEADER_SIGNATURE : bytes := lit "x-pqmsg-auth-signature".
Definition REQUEST_ID_HEADER : bytes := lit "x-request-id".

(** ** Headers *)

Record RequestAuth := mkAuth {
  ra_user_id : bytes;
  ra_device_id : bytes;
  ra_timestamp : Z;
  ra_nonce : bytes;
  ra_signature : bytes;
}.

(** [HeaderMap::get], the first value of a name. *)
Abbreviation HeaderMap := (gmap bytes bytes).

(** [HeaderValue::to_str]: visible ASCII and tabs. *)
Definition header_to_str (value : bytes) : option bytes :=
  if forallb (λ b, in_range 0x20 0x7E b || in_range 0x09 0x09 b) value then Some value else None.

Definition require_header_value (headers : HeaderMap) (name : bytes) (max_len : N) : app bytes :=
  let? value := ok_or (headers !! name)
    (bad_request (lit "missing header '" ++ name ++ lit "'")) in
  let? value := ok_or (header_to_str value)
    (bad_request (lit "header '" ++ name ++ lit "' must be ASCII")) in
  let trimmed := str_trim value in
  if (len trimmed =? 0) || (max_len <? len trimmed)
  then Err (bad_request (lit "header '" ++ name ++ lit "' must be 1..=" ++ decimal max_len
                           ++ lit " characters"))
  else Ok trimmed.

Definition parse_request_auth `{B : Base64} (headers : HeaderMap) : app RequestAuth :=
  let? user_id := require_header_value headers AUTH_HEADER_USER MAX_USER_ID_LEN in
  let? device_id := require_header_value headers AUTH_HEADER_DEVICE MAX_DEVICE_ID_LEN in
  let? _ := validate_id (lit "auth.user_id") user_id in
  let? _ := validate_id (lit "auth.device_id") device_id in
  let? timestamp_raw := require_header_value headers AUTH_HEADER_TIMESTAMP 32 in
  let? timestamp := ok_or (parse_i64 timestamp_raw)
    (bad_request (lit "x-pqmsg-auth-timestamp must be an integer")) in
  let? nonce := require_header_value headers AUTH_HEADER_NONCE AUTH_MAX_NONCE_LEN in
  let? signature_b64 := require_header_value headers AUTH_HEADER_SIGNATURE 256 in
  let? signature := decode_base64_exact AUTH_HEADER_SIGNATURE signature_b64 SIG_LEN in
  Ok (mkAuth user_id device_id timestamp nonce signature).

Definition request_id_from_header (headers : HeaderMap) : option bytes :=
  value ← headers !! REQUEST_ID_HEADER;
  s ← header_to_str value;
  let value := str_trim s in
  if (len value =? 0) || (MAX_REQUEST_ID_LEN <? len value) then None else Some value.

(** ** Transcripts *)

Definition auth_common_records (auth : RequestAuth) (endpoint : bytes) : list TlvRecord :=
  [mkTlv AUTH_TAG_ENDPOINT endpoint;
   mkTlv AUTH_TAG_USER_ID (ra_user_id auth);
   mkTlv AUTH_TAG_DEVICE_ID (ra_device_id auth);
   mkTlv AUTH_TAG_TIMESTAMP (i64_be (ra_timestamp auth));
   mkTlv AUTH_TAG_NONCE (ra_nonce auth)].

(** The common records, those of the endpoint, and the error every transcript
    function returns when a value does not fit a record. *)
Definition auth_transcript (auth : RequestAuth) (endpoint : bytes) (records : list TlvRecord)
    : app bytes :=
  map_err (encode (auth_common_records auth endpoint ++ records))
    (internal (lit "failed to encode " ++ endpoint ++ lit " auth transcript")).

Record DeleteInboxRequest := {
  di_message_ids : list Z;
  di_delete_before_id : option Z;
}.

Record PublishPrekeysRequest := {
  pp_signed_prekey_x25519_pub : bytes;
  pp_sig_over_spk : bytes;
  pp_pq_signed_prekey_pub_mlkem768 : bytes;
  pp_sig_over_pqspk : bytes;
  pp_pq_sig_over_spk : bytes;
  pp_pq_sig_over_pqspk : bytes;
  pp_one_time_prekeys_x25519 : list bytes;
  pp_one_time_prekeys_mlkem768 : list bytes;
}.

Record RotateInitRequest := {
  ri_new_identity_x25519_pub : bytes;
  ri_new_identity_sig_pub : bytes;
  ri_new_identity_pq_sig_pub : bytes;
  ri_new_device_id : bytes;
}.

Record RotateConfirmRequest := {
  rc_challenge_id : bytes;
  rc_sig_by_current_identity : bytes;
  rc_sig_by_new_identity : bytes;
  rc_pq_sig_by_current_identity : bytes;
  rc_pq_sig_by_new_identity : bytes;
}.

Section Transcripts.
Context `{P : Primitives}.
Implicit Type auth : RequestAuth.

Definition flag (b : bool) : bytes := [if b then x01 else x00].

Definition relay_auth_message auth (recipient_user_id message_blob : bytes) : app bytes :=
  auth_transcript auth (lit "relay")
    [mkTlv AUTH_TAG_RECIPIENT_ID recipient_user_id; mkTlv AUTH_TAG_MESSAGE_BLOB message_blob].

Definition inbox_auth_message auth (user_id : bytes) (since : Z) : app bytes :=
  auth_transcript auth (lit "inbox")
    [mkTlv AUTH_TAG_RECIPIENT_ID user_id; mkTlv AUTH_TAG_SINCE (i64_be since)].

Definition sealed_inbox_auth_message auth (user_id : bytes) (since : Z) : app bytes :=
  auth_transcript auth (lit "sealed-inbox")
    [mkTlv AUTH_TAG_RECIPIENT_ID user_id; mkTlv AUTH_TAG_SINCE (i64_be since)].

Definition sender_certificate_auth_message auth (user_id : bytes) : app bytes :=
  auth_transcript auth (lit "sender-certificate") [mkTlv AUTH_TAG_RECIPIENT_ID user_id].

Definition contact_discovery_ticket_auth_message auth (user_id purpose : bytes) : app bytes :=
  auth_transcript auth (lit "contact-discovery-ticket")
    [mkTlv AUTH_TAG_RECIPIENT_ID user_id; mkTlv AUTH_TAG_DISCOVERY_PURPOSE purpose].

Definition inbox_delete_auth_message auth (user_id : bytes) (request : DeleteInboxRequest)
    : app bytes :=
  let normalized_ids := normalize_message_ids (di_message_ids request) in
  auth_transcript auth (lit "inbox-delete")
    ([mkTlv AUTH_TAG_RECIPIENT_ID user_id;
      mkTlv AUTH_TAG_DELETE_IDS_HASH (sha256 (concat (map i64_be normalized_ids)))]
     ++ opt_record AUTH_TAG_DELETE_BEFORE_ID (i64_be <$> di_delete_before_id request)).

Definition ws_inbox_auth_message auth (user_id : bytes) (since : Z) : app bytes :=
  auth_transcript auth (lit "ws-inbox")
    [mkTlv AUTH_TAG_RECIPIENT_ID user_id; mkTlv AUTH_TAG_SINCE (i64_be since)].

Definition list_devices_auth_message auth (user_id : bytes) : app bytes :=
  auth_transcript auth (lit "devices-list") [mkTlv AUTH_TAG_RECIPIENT_ID user_id].

Definition link_device_auth_message auth (user_id new_device_id : bytes) : app bytes :=
  auth_transcript auth (lit "devices-link")
    [mkTlv AUTH_TAG_RECIPIENT_ID user_id; mkTlv AUTH_TAG_LINK_DEVICE_ID new_device_id].

Definition revoke_device_auth_message auth (user_id target_device_id : bytes) : app bytes :=
  auth_transcript auth (lit "devices-revoke")
    [mkTlv AUTH_TAG_RECIPIENT_ID user_id; mkTlv AUTH_TAG_REVOKE_DEVICE_ID target_device_id].

Definition retire_current_device_auth_message auth (user_id : bytes) : app bytes :=
  auth_transcript auth (lit "devices-retire")
    [mkTlv AUTH_TAG_RECIPIENT_ID user_id; mkTlv AUTH_TAG_REVOKE_DEVICE_ID (ra_device_id auth)].

Definition delete_account_auth_message auth (user_id : bytes) : app bytes :=
  auth_transcript auth (lit "account-delete") [mkTlv AUTH_TAG_RECIPIENT_ID user_id].

Definition discovery_handles_auth_message auth (user_id : bytes)
    (phone_hashes email_hashes : list bytes) : app bytes :=
  auth_transcript auth (lit "discovery-handles")
    [mkTlv AUTH_TAG_RECIPIENT_ID user_id;
     mkTlv AUTH_TAG_DISCOVERY_PHONE_HASHES_HASH (hash_string_list_sha256 phone_hashes);
     mkTlv AUTH_TAG_DISCOVERY_EMAIL_HASHES_HASH (hash_string_list_sha256 email_hashes)].

Definition discovery_match_auth_message auth (user_id : bytes) (query_hashes : list bytes)
    : app bytes :=
  auth_transcript auth (lit "discovery-match")
    [mkTlv AUTH_TAG_RECIPIENT_ID user_id;
     mkTlv AUTH_TAG_DISCOVERY_QUERY_HASHES_HASH (hash_string_list_sha256 query_hashes)].

Definition contacts_list_auth_message auth (user_id : bytes) : app bytes :=
  auth_transcript auth (lit "contacts-list") [mkTlv AUTH_TAG_RECIPIENT_ID user_id].

Definition contact_invite_create_auth_message auth (user_id : bytes) : app bytes :=
  auth_transcript auth (lit "contact-invite-create") [mkTlv AUTH_TAG_RECIPIENT_ID user_id].

Definition contacts_upsert_auth_message auth (user_id contact_user_id : bytes)
    (alias : option bytes) (verified_by_qr : bool) (verified_fingerprint_sha256 : option bytes)
    : app bytes :=
  auth_transcript auth (lit "contacts-upsert")
    ([mkTlv AUTH_TAG_RECIPIENT_ID user_id;
      mkTlv AUTH_TAG_CONTACT_USER_ID contact_user_id;
      mkTlv AUTH_TAG_CONTACT_ALIAS_HASH (sha256 (default [] alias));
      mkTlv AUTH_TAG_CONTACT_VERIFIED_FLAG (flag verified_by_qr)]
     ++ opt_record AUTH_TAG_CONTACT_FINGERPRINT verified_fingerprint_sha256).

Definition contacts_remove_auth_message auth (user_id contact_user_id : bytes) : app bytes :=
  auth_transcript auth (lit "contacts-remove")
    [mkTlv AUTH_TAG_RECIPIENT_ID user_id; mkTlv AUTH_TAG_CONTACT_USER_ID contact_user_id].

Definition group_create_auth_message auth (group_id : bytes) (member_user_ids : list bytes)
    : app bytes :=
  auth_transcript auth (lit "groups-create")
    [mkTlv AUTH_TAG_GROUP_ID group_id;
     mkTlv AUTH_TAG_GROUP_MEMBERS_HASH (hash_string_list_sha256 member_user_ids)].

Definition user_groups_list_auth_message auth (user_id : bytes) : app bytes :=
  auth_transcript auth (lit "groups-list") [mkTlv AUTH_TAG_RECIPIENT_ID user_id].

Definition group_members_list_auth_message auth (group_id : bytes) : app bytes :=
  auth_transcript auth (lit "groups-members-list") [mkTlv AUTH_TAG_GROUP_ID group_id].

Definition group_members_add_auth_message auth (group_id member_user_id : bytes) : app bytes :=
  auth_transcript auth (lit "groups-members-add")
    [mkTlv AUTH_TAG_GROUP_ID group_id; mkTlv AUTH_TAG_GROUP_MEMBER_USER_ID member_user_id].

Definition group_members_remove_auth_message auth (group_id member_user_id : bytes) : app bytes :=
  auth_transcript auth (lit "groups-members-remove")
    [mkTlv AUTH_TAG_GROUP_ID group_id; mkTlv AUTH_TAG_GROUP_MEMBER_USER_ID member_user_id].

(** [sort_by] is stable, as insertion is. *)
Definition hash_group_recipients_sha256 (recipients : list (bytes * bytes)) : bytes :=
  let normalized := map (λ '(recipient_user_id, message_blob),
    (recipient_user_id, sha256 message_blob)) recipients in
  let normalized := sort_unstable (λ left right, str_leb left.1 right.1) normalized in
  sha256 (concat (map (λ '(recipient_user_id, message_hash),
    recipient_user_id ++ [x00] ++ message_hash ++ [x01]) normalized)).

Definition group_relay_auth_message auth (group_id sender_user_id : bytes)
    (recipients : list (bytes * bytes)) : app bytes :=
  auth_transcript auth (lit "groups-relay")
    [mkTlv AUTH_TAG_GROUP_ID group_id;
     mkTlv AUTH_TAG_GROUP_SENDER_USER_ID sender_user_id;
     mkTlv AUTH_TAG_GROUP_RECIPIENTS_HASH (hash_group_recipients_sha256 recipients)].

Definition identity_log_auth_message auth (user_id : bytes) : app bytes :=
  auth_transcript auth (lit "identity-log") [mkTlv AUTH_TAG_RECIPIENT_ID user_id].

Definition prekeys_status_auth_message auth (user_id : bytes) : app bytes :=
  auth_transcript auth (lit "prekeys-status") [mkTlv AUTH_TAG_RECIPIENT_ID user_id].

Definition prekeys_auth_message auth (request : PublishPrekeysRequest) : app bytes :=
  auth_transcript auth (lit "prekeys")
    [mkTlv AUTH_TAG_PREKEY_SPK_HASH (sha256 (pp_signed_prekey_x25519_pub request));
     mkTlv AUTH_TAG_PREKEY_PQSPK_HASH (sha256 (pp_pq_signed_prekey_pub_mlkem768 request))].

Definition push_token_auth_message auth (device_id push_token : bytes) : app bytes :=
  auth_transcript auth (lit "push-token")
    [mkTlv AUTH_TAG_RECIPIENT_ID (ra_user_id auth);
     mkTlv AUTH_TAG_PUSH_DEVICE_ID device_id;
     mkTlv AUTH_TAG_PUSH_TOKEN_HASH (sha256 push_token)].

Definition file_upload_auth_message auth (recipient_user_id file_blob mime_type : bytes)
    : app bytes :=
  auth_transcript auth (lit "files-upload")
    [mkTlv AUTH_TAG_FILE_RECIPIENT_ID recipient_user_id;
     mkTlv AUTH_TAG_FILE_BLOB_HASH (sha256 file_blob);
     mkTlv AUTH_TAG_FILE_MIME_HASH (sha256 mime_type)].

Definition file_download_auth_message auth (file_id : bytes) : app bytes :=
  auth_transcript auth (lit "files-download") [mkTlv AUTH_TAG_FILE_ID file_id].

Definition profile_upsert_auth_message auth (user_id : bytes)
    (display_name username : option bytes) (username_lookup_enabled : bool)
    (avatar_mime avatar_blob : option bytes) : app bytes :=
  auth_transcript auth (lit "profile-upsert")
    [mkTlv AUTH_TAG_RECIPIENT_ID user_id;
     mkTlv AUTH_TAG_PROFILE_DISPLAY_NAME_HASH (sha256 (default [] display_name));
     mkTlv AUTH_TAG_PROFILE_USERNAME_HASH (sha256 (default [] username));
     mkTlv AUTH_TAG_PROFILE_USERNAME_LOOKUP_ENABLED (flag username_lookup_enabled);
     mkTlv AUTH_TAG_PROFILE_AVATAR_HASH (sha256 (default [] avatar_blob));
     mkTlv AUTH_TAG_PROFILE_AVATAR_MIME_HASH (sha256 (default [] avatar_mime))].

Definition profile_get_auth_message auth (user_id : bytes) : app bytes :=
  auth_transcript auth (lit "profile-get") [mkTlv AUTH_TAG_RECIPIENT_ID user_id].

Definition presence_update_auth_message auth (user_id status : bytes) : app bytes :=
  auth_transcript auth (lit "presence-update")
    [mkTlv AUTH_TAG_RECIPIENT_ID user_id; mkTlv AUTH_TAG_PRESENCE_STATUS status].

Definition presence_get_auth_message auth (user_id : bytes) : app bytes :=
  auth_transcript auth (lit "presence-get") [mkTlv AUTH_TAG_RECIPIENT_ID user_id].

Definition typing_update_auth_message auth (peer_user_id : bytes) (is_typing : bool) : app bytes :=
  auth_transcript auth (lit "typing-update")
    [mkTlv AUTH_TAG_TYPING_PEER_ID peer_user_id; mkTlv AUTH_TAG_TYPING_STATE_FLAG (flag is_typing)].

Definition typing_get_auth_message auth (user_id : bytes) : app bytes :=
  auth_transcript auth (lit "typing-get") [mkTlv AUTH_TAG_RECIPIENT_ID user_id].

Definition rotate_init_auth_message auth (request : RotateInitRequest) : app bytes :=
  auth_transcript auth (lit "rotate-init")
    [mkTlv AUTH_TAG_ROTATE_NEW_X25519_HASH (sha256 (ri_new_identity_x25519_pub request));
     mkTlv AUTH_TAG_ROTATE_NEW_SIG_HASH (sha256 (ri_new_identity_sig_pub request));
     mkTlv AUTH_TAG_ROTATE_NEW_PQ_SIG_HASH (sha256 (ri_new_identity_pq_sig_pub request))].

Definition rotate_confirm_auth_message auth (request : RotateConfirmRequest) : app bytes :=
  auth_transcript auth (lit "rotate-confirm")
    [mkTlv AUTH_TAG_ROTATE_CHALLENGE_ID (rc_challenge_id request);
     mkTlv AUTH_TAG_ROTATE_SIG_CURRENT_HASH (sha256 (rc_sig_by_current_identity request));
     mkTlv AUTH_TAG_ROTATE_SIG_NEW_HASH (sha256 (rc_sig_by_new_identity request));
     mkTlv AUTH_TAG_ROTATE_PQ_SIG_CURRENT_HASH (sha256 (rc_pq_sig_by_current_identity request));
     mkTlv AUTH_TAG_ROTATE_PQ_SIG_NEW_HASH (sha256 (rc_pq_sig_by_new_identity request))].
End Transcripts.

(** ** What a signature covers *)

(** The requests that are authenticated, with what each endpoint passes to its
    transcript function. *)
Inductive AuthRequest : Type :=
| ReqRelay (recipient_user_id message_blob : bytes)
| ReqInbox (user_id : bytes) (since : Z)
| ReqSealedInbox (user_id : bytes) (since : Z)
| ReqSenderCertificate (user_id : bytes)
| ReqDiscoveryTicket (user_id purpose : bytes)
| ReqInboxDelete (user_id : bytes) (request : DeleteInboxRequest)
| ReqWsInbox (user_id : bytes) (since : Z)
| ReqListDevices (user_id : bytes)
| ReqLinkDevice (user_id new_device_id : bytes)
| ReqRevokeDevice (user_id target_device_id : bytes)
| ReqRetireDevice (user_id : bytes)
| ReqDeleteAccount (user_id : bytes)
| ReqDiscoveryHandles (user_id : bytes) (phone_hashes email_hashes : list bytes)
| ReqDiscoveryMatch (user_id : bytes) (query_hashes : list bytes)
| ReqContactsList (user_id : bytes)
| ReqContactInvite (user_id : bytes)
| ReqContactsUpsert (user_id contact_user_id : bytes) (alias : option bytes)
    (verified_by_qr : bool) (fingerprint : option bytes)
| ReqContactsRemove (user_id contact_user_id : bytes)
| ReqGroupCreate (group_id : bytes) (member_user_ids : list bytes)
| ReqUserGroups (user_id : bytes)
| ReqGroupMembers (group_id : bytes)
| ReqGroupAdd (group_id member_user_id : bytes)
| ReqGroupRemove (group_id member_user_id : bytes)
| ReqGroupRelay (group_id sender_user_id : bytes) (recipients : list (bytes * bytes))
| ReqIdentityLog (user_id : bytes)
| ReqPrekeysStatus (user_id : bytes)
| ReqPrekeys (request : PublishPrekeysRequest)
| ReqPushToken (device_id push_token : bytes)
| ReqFileUpload (recipient_user_id file_blob mime_type : bytes)
| ReqFileDownload (file_id : bytes)
| ReqProfileUpsert (user_id : bytes) (display_name username : option bytes)
    (username_lookup_enabled : bool) (avatar_mime avatar_blob : option bytes)
| ReqProfileGet (user_id : bytes)
| ReqPresenceUpdate (user_id status : bytes)
| ReqPresenceGet (user_id : bytes)
| ReqTypingUpdate (peer_user_id : bytes) (is_typing : bool)
| ReqTypingGet (user_id : bytes)
| ReqRotateInit (request : RotateInitRequest)
| ReqRotateConfirm (request : RotateConfirmRequest).

Section Binding.
Context `{P : Primitives}.

Definition request_transcript (auth : RequestAuth) (r : AuthRequest) : app bytes :=
  match r with
  | ReqRelay a b => relay_auth_message auth a b
  | ReqInbox u s => inbox_auth_message auth u s
  | ReqSealedInbox u s => sealed_inbox_auth_message auth u s
  | ReqSenderCertificate u => sender_certificate_auth_message auth u
  | ReqDiscoveryTicket u p => contact_discovery_ticket_auth_message auth u p
  | ReqInboxDelete u q => inbox_delete_auth_message auth u q
  | ReqWsInbox u s => ws_inbox_auth_message auth u s
  | ReqListDevices u => list_devices_auth_message auth u
  | ReqLinkDevice u d => link_device_auth_message auth u d
  | ReqRevokeDevice u d => revoke_device_auth_message auth u d
  | ReqRetireDevice u => retire_current_device_auth_message auth u
  | ReqDeleteAccount u => delete_account_auth_message auth u
  | ReqDiscoveryHandles u p e => discovery_handles_auth_message auth u p e
  | ReqDiscoveryMatch u q => discovery_match_auth_message auth u q
  | ReqContactsList u => contacts_list_auth_message auth u
  | ReqContactInvite u => contact_invite_create_auth_message auth u
  | ReqContactsUpsert u c a v f => contacts_upsert_auth_message auth u c a v f
  | ReqContactsRemove u c => contacts_remove_auth_message auth u c
  | ReqGroupCreate g m => group_create_auth_message auth g m
  | ReqUserGroups u => user_groups_list_auth_message auth u
  | ReqGroupMembers g => group_members_list_auth_message auth g
  | ReqGroupAdd g m => group_members_add_auth_message auth g m
  | ReqGroupRemove g m => group_members_remove_auth_message auth g m
  | ReqGroupRelay g s l => group_relay_auth_message auth g s l
  | ReqIdentityLog u => identity_log_auth_message auth u
  | ReqPrekeysStatus u => prekeys_status_auth_message auth u
  | ReqPrekeys q => prekeys_auth_message auth q
  | ReqPushToken d t => push_token_auth_message auth d t
  | ReqFileUpload u b m => file_upload_auth_message auth u b m
  | ReqFileDownload f => file_download_auth_message auth f
  | ReqProfileUpsert u d n e m a => profile_upsert_auth_message auth u d n e m a
  | ReqProfileGet u => profile_get_auth_message auth u
  | ReqPresenceUpdate u s => presence_update_auth_message auth u s
  | ReqPresenceGet u => presence_get_auth_message auth u
  | ReqTypingUpdate p t => typing_update_auth_message auth p t
  | ReqTypingGet u => typing_get_auth_message auth u
  | ReqRotateInit q => rotate_init_auth_message auth q
  | ReqRotateConfirm q => rotate_confirm_auth_message auth q
  end.

(** The integers of a request are [i64]s. *)
Definition request_wf (r : AuthRequest) : Prop :=
  match r with
  | ReqInbox _ s | ReqSealedInbox _ s | ReqWsInbox _ s => is_i64 s
  | ReqInboxDelete _ q => match di_delete_before_id q with Some z => is_i64 z | None => True end
  | _ => True
  end.

(** Agreement on what is signed: identifiers, flags and cursors are equal, and
    so are the digests of what is only covered by its digest. *)
Definition same_signed (r r' : AuthRequest) : Prop :=
  match r, r' with
  | ReqRelay a b, ReqRelay a' b' => a = a' ∧ b = b'
  | ReqInbox u s, ReqInbox u' s' => u = u' ∧ s = s'
  | ReqSealedInbox u s, ReqSealedInbox u' s' => u = u' ∧ s = s'
  | ReqSenderCertificate u, ReqSenderCertificate u' => u = u'
  | ReqDiscoveryTicket u p, ReqDiscoveryTicket u' p' => u = u' ∧ p = p'
  | ReqInboxDelete u q, ReqInboxDelete u' q' =>
      u = u' ∧ di_delete_before_id q = di_delete_before_id q' ∧
      sha256 (concat (map i64_be (normalize_message_ids (di_message_ids q)))) =
      sha256 (concat (map i64_be (normalize_message_ids (di_message_ids q'))))
  | ReqWsInbox u s, ReqWsInbox u' s' => u = u' ∧ s = s'
  | ReqListDevices u, ReqListDevices u' => u = u'
  | ReqLinkDevice u d, ReqLinkDevice u' d' => u = u' ∧ d = d'
  | ReqRevokeDevice u d, ReqRevokeDevice u' d' => u = u' ∧ d = d'
  | ReqRetireDevice u, ReqRetireDevice u' => u = u'
  | ReqDeleteAccount u, ReqDeleteAccount u' => u = u'
  | ReqDiscoveryHandles u p e, ReqDiscoveryHandles u' p' e' =>
      u = u' ∧ sha256 (concat p) = sha256 (concat p') ∧ sha256 (concat e) = sha256 (concat e')
  | ReqDiscoveryMatch u q, ReqDiscoveryMatch u' q' =>
      u = u' ∧ sha256 (concat q) = sha256 (concat q')
  | ReqContactsList u, ReqContactsList u' => u = u'
  | ReqContactInvite u, ReqContactInvite u' => u = u'
  | ReqContactsUpsert u c a v f, ReqContactsUpsert u' c' a' v' f' =>
      u = u' ∧ c = c' ∧ sha256 (default [] a) = sha256 (default [] a') ∧ v = v' ∧ f = f'
  | ReqContactsRemove u c, ReqContactsRemove u' c' => u = u' ∧ c = c'
  | ReqGroupCreate g m, ReqGroupCreate g' m' =>
      g = g' ∧ sha256 (concat m) = sha256 (concat m')
  | ReqUserGroups u, ReqUserGroups u' => u = u'
  | ReqGroupMembers g, ReqGroupMembers g' => g = g'
  | ReqGroupAdd g m, ReqGroupAdd g' m' => g = g' ∧ m = m'
  | ReqGroupRemove g m, ReqGroupRemove g' m' => g = g' ∧ m = m'
  | ReqGroupRelay g s l, ReqGroupRelay g' s' l' =>
      g = g' ∧ s = s' ∧ hash_group_recipients_sha256 l = hash_group_recipients_sha256 l'
  | ReqIdentityLog u, ReqIdentityLog u' => u = u'
  | ReqPrekeysStatus u, ReqPrekeysStatus u' => u = u'
  | ReqPrekeys q, ReqPrekeys q' =>
      sha256 (pp_signed_prekey_x25519_pub q) = sha256 (pp_signed_prekey_x25519_pub q') ∧
      sha256 (pp_pq_signed_prekey_pub_mlkem768 q) = sha256 (pp_pq_signed_prekey_pub_mlkem768 q')
  | ReqPushToken d t, ReqPushToken d' t' => d = d' ∧ sha256 t = sha256 t'
  | ReqFileUpload u b m, ReqFileUpload u' b' m' =>
      u = u' ∧ sha256 b = sha256 b' ∧ sha256 m = sha256 m'
  | ReqFileDownload f, ReqFileDownload f' => f = f'
  | ReqProfileUpsert u d n e m a, ReqProfileUpsert u' d' n' e' m' a' =>
      u = u' ∧ e = e' ∧ sha256 (default [] d) = sha256 (default [] d') ∧
      sha256 (default [] n) = sha256 (default [] n') ∧
      sha256 (default [] m) = sha256 (default [] m') ∧
      sha256 (default [] a) = sha256 (default [] a')
  | ReqProfileGet u, ReqProfileGet u' => u = u'
  | ReqPresenceUpdate u s, ReqPresenceUpdate u' s' => u = u' ∧ s = s'
  | ReqPresenceGet u, ReqPresenceGet u' => u = u'
  | ReqTypingUpdate p t, ReqTypingUpdate p' t' => p = p' ∧ t = t'
  | ReqTypingGet u, ReqTypingGet u' => u = u'
  | ReqRotateInit q, ReqRotateInit q' =>
      sha256 (ri_new_identity_x25519_pub q) = sha256 (ri_new_identity_x25519_pub q') ∧
      sha256 (ri_new_identity_sig_pub q) = sha256 (ri_new_identity_sig_pub q') ∧
      sha256 (ri_new_identity_pq_sig_pub q) = sha256 (ri_new_identity_pq_sig_pub q')
  | ReqRotateConfirm q, ReqRotateConfirm q' =>
      rc_challenge_id q = rc_challenge_id q' ∧
      sha256 (rc_sig_by_current_identity q) = sha256 (rc_sig_by_current_identity q') ∧
      sha256 (rc_sig_by_new_identity q) = sha256 (rc_sig_by_new_identity q') ∧
      sha256 (rc_pq_sig_by_current_identity q) = sha256 (rc_pq_sig_by_current_identity q') ∧
      sha256 (rc_pq_sig_by_new_identity q) = sha256 (rc_pq_sig_by_new_identity q')
  | _, _ => False
  end.

(** ** Reading a transcript back *)

Lemma auth_transcript_inj (a a' : RequestAuth) (e e' : bytes) (rs rs' : list TlvRecord) (m : bytes) :
  is_i64 (ra_timestamp a) → is_i64 (ra_timestamp a') →
  auth_transcript a e rs = Ok m → auth_transcript a' e' rs' = Ok m →
  forallb (λ r, ty r <=? u16_max) rs = true → forallb (λ r, ty r <=? u16_max) rs' = true →
  e = e' ∧ rs = rs' ∧ ra_user_id a = ra_user_id a' ∧ ra_device_id a = ra_device_id a' ∧
  ra_timestamp a = ra_timestamp a' ∧ ra_nonce a = ra_nonce a'.
Proof.
  intros Ht Ht' H H' Hw Hw'.
  assert (Hwf : ∀ a e rs, forallb (λ r, ty r <=? u16_max) rs = true →
    Forall record_wf (auth_common_records a e ++ rs)).
  { intros b f l Hl. apply list.Forall_app. split; [by repeat constructor|].
    apply list.Forall_forall. intros r Hr. apply forallb_forall with (x := r) in Hl; [|by apply list_elem_of_In].
    by apply N.leb_le in Hl. }
  unfold auth_transcript, map_err in H, H'.
  destruct (encode (auth_common_records a e ++ rs)) as [b|] eqn:E; [|done].
  destruct (encode (auth_common_records a' e' ++ rs')) as [b'|] eqn:E'; [|done].
  apply Ok_inj in H as ->. apply Ok_inj in H' as ->.
  pose proof (encode_inj _ _ _ (Hwf a e rs Hw) (Hwf a' e' rs' Hw') E E') as Heq.
  unfold auth_common_records in Heq. cbn [Datatypes.app] in Heq.
  split_and!; try congruence. apply i64_be_inj; [done..|congruence].
Qed.

(** The name and the records of a request's transcript. *)
Definition endpoint_name (r : AuthRequest) : bytes :=
  match r with
  | ReqRelay _ _ => lit "relay" | ReqInbox _ _ => lit "inbox"
  | ReqSealedInbox _ _ => lit "sealed-inbox" | ReqSenderCertificate _ => lit "sender-certificate"
  | ReqDiscoveryTicket _ _ => lit "contact-discovery-ticket"
  | ReqInboxDelete _ _ => lit "inbox-delete" | ReqWsInbox _ _ => lit "ws-inbox"
  | ReqListDevices _ => lit "devices-list" | ReqLinkDevice _ _ => lit "devices-link"
  | ReqRevokeDevice _ _ => lit "devices-revoke" | ReqRetireDevice _ => lit "devices-retire"
  | ReqDeleteAccount _ => lit "account-delete"
  | ReqDiscoveryHandles _ _ _ => lit "discovery-handles"
  | ReqDiscoveryMatch _ _ => lit "discovery-match" | ReqContactsList _ => lit "contacts-list"
  | ReqContactInvite _ => lit "contact-invite-create"
  | ReqContactsUpsert _ _ _ _ _ => lit "contacts-upsert"
  | ReqContactsRemove _ _ => lit "contacts-remove" | ReqGroupCreate _ _ => lit "groups-create"
  | ReqUserGroups _ => lit "groups-list" | ReqGroupMembers _ => lit "groups-members-list"
  | ReqGroupAdd _ _ => lit "groups-members-add" | ReqGroupRemove _ _ => lit "groups-members-remove"
  | ReqGroupRelay _ _ _ => lit "groups-relay" | ReqIdentityLog _ => lit "identity-log"
  | ReqPrekeysStatus _ => lit "prekeys-status" | ReqPrekeys _ => lit "prekeys"
  | ReqPushToken _ _ => lit "push-token" | ReqFileUpload _ _ _ => lit "files-upload"
  | ReqFileDownload _ => lit "files-download" | ReqProfileUpsert _ _ _ _ _ _ => lit "profile-upsert"
  | ReqProfileGet _ => lit "profile-get" | ReqPresenceUpdate _ _ => lit "presence-update"
  | ReqPresenceGet _ => lit "presence-get" | ReqTypingUpdate _ _ => lit "typing-update"
  | ReqTypingGet _ => lit "typing-get" | ReqRotateInit _ => lit "rotate-init"
  | ReqRotateConfirm _ => lit "rotate-confirm"
  end.

Lemma request_transcript_records (auth : RequestAuth) (r : AuthRequest) :
  ∃ rs, request_transcript auth r = auth_transcript auth (endpoint_name r) rs ∧
        forallb (λ r, ty r <=? u16_max) rs = true.
Proof.
  destruct r; cbn [request_transcript endpoint_name];
    try (eexists; split; [reflexivity|reflexivity]).
  - eexists. split; [reflexivity|]. by destruct (di_delete_before_id request).
  - eexists. split; [reflexivity|]. by destruct fingerprint.
Qed.

Lemma request_transcript_inj (a a' : RequestAuth) (r r' : AuthRequest) (m : bytes) :
  is_i64 (ra_timestamp a) → is_i64 (ra_timestamp a') →
  request_transcript a r = Ok m → request_transcript a' r' = Ok m →
  endpoint_name r = endpoint_name r' ∧ ra_user_id a = ra_user_id a' ∧
  ra_device_id a = ra_device_id a' ∧ ra_timestamp a = ra_timestamp a' ∧ ra_nonce a = ra_nonce a'.
Proof.
  intros Ht Ht' H H'.
  destruct (request_transcript_records a r) as (rs & E & Hw).
  destruct (request_transcript_records a' r') as (rs' & E' & Hw').
  rewrite E in H. rewrite E' in H'.
  destruct (auth_transcript_inj _ _ _ _ _ _ _ Ht Ht' H H' Hw Hw') as (? & _ & ? & ? & ? & ?).
  done.
Qed.

Lemma flag_inj (x y : bool) : flag x = flag y → x = y.
Proof. by destruct x, y. Qed.

Lemma opt_record_wf (rs : list TlvRecord) (t : N) (o : option bytes) :
  forallb (λ r, ty r <=? u16_max) rs = true → (t <=? u16_max) = true →
  forallb (λ r, ty r <=? u16_max) (rs ++ opt_record t o) = true.
Proof. intros Hrs Ht. rewrite forallb_app, Hrs. destruct o; simpl; by rewrite ?Ht. Qed.

(** The fields of two records lists known to be equal. *)
Local Ltac fields :=
  repeat apply conj;
  solve [ congruence | apply flag_inj; congruence | apply i64_be_inj; [done..|congruence]
        | f_equal; apply i64_be_inj; [done..|congruence] ].

Lemma same_endpoint_signed (a a' : RequestAuth) (r r' : AuthRequest) (m : bytes) :
  is_i64 (ra_timestamp a) → is_i64 (ra_timestamp a') → request_wf r → request_wf r' →
  endpoint_name r = endpoint_name r' →
  request_transcript a r = Ok m → request_transcript a' r' = Ok m → same_signed r r'.
Proof.
  intros Ht Ht' Hr Hr' Hn.
  destruct r, r'; try (vm_compute in Hn; discriminate Hn); clear Hn; intros H H';
    cbn [request_transcript] in H, H';
    apply (auth_transcript_inj _ _ _ _ _ _ _ Ht Ht' H) in H' as (_ & Heq & _);
    try reflexivity; try (by apply opt_record_wf);
    cbn [same_signed request_wf] in *; unfold hash_string_list_sha256 in *; try fields.
  - destruct (di_delete_before_id request), (di_delete_before_id request0);
      cbn [fmap option_fmap option_map opt_record Datatypes.app] in Heq; try discriminate Heq; fields.
  - destruct fingerprint, fingerprint0; cbn [opt_record Datatypes.app] in Heq;
      try discriminate Heq; fields.
Qed.
End Binding.

(** C12: What an authenticated request signs. Two requests with one transcript,
    of any two of the 38 endpoints, are for the same endpoint and carry the same
    user, device, timestamp and nonce, and they agree on every identifier, flag
    and cursor and on the digest of every hashed part: a signature made for one
    request authenticates no other. *)
Theorem auth_transcript_binds (P : Primitives) (auth auth' : RequestAuth) (r r' : AuthRequest)
    (m : bytes) :
  is_i64 (ra_timestamp auth) → is_i64 (ra_timestamp auth') → request_wf r → request_wf r' →
  request_transcript auth r = Ok m → request_transcript auth' r' = Ok m →
  ra_user_id auth = ra_user_id auth' ∧ ra_device_id auth = ra_device_id auth' ∧
  ra_timestamp auth = ra_timestamp auth' ∧ ra_nonce auth = ra_nonce auth' ∧ same_signed r r'.
Proof.
  intros Ht Ht' Hr Hr' H H'.
  destruct (request_transcript_inj _ _ _ _ _ Ht Ht' H H') as (Hn & ? & ? & ? & ?).
  split_and!; [done..|]. by eapply (same_endpoint_signed auth auth').
Qed.

Lemma auth_transcript_binds_witness :
  let a := mkAuth (lit "alice") (lit "d1") 1700000000 (lit "n-1") [] in
  let r := ReqInboxDelete (lit "alice") {| di_message_ids := [3; 1; 3]%Z; di_delete_before_id := Some 7%Z |} in
  let r' := ReqInboxDelete (lit "alice") {| di_message_ids := [1; 3]%Z; di_delete_before_id := Some 7%Z |} in
  @same_signed Toy r r'.
Proof.
  intros a r r'.
  destruct (@request_transcript Toy a r) as [m|] eqn:E; [|vm_compute in E; discriminate E].
  assert (E' : @request_transcript Toy a r' = Ok m) by (rewrite <- E; reflexivity).
  exact (proj2 (proj2 (proj2 (proj2 (auth_transcript_binds Toy a a r r' m
    ltac:(vm_compute; split; discriminate) ltac:(vm_compute; split; discriminate)
    ltac:(vm_compute; split; discriminate) ltac:(vm_compute; split; discriminate) E E'))))).
Defined.

(** ** What is not covered *)

(** The one-time prekeys of an upload are outside its transcript: replacing them
    leaves the signed message unchanged. *)
Lemma one_time_prekeys_unsigned (P : Primitives) (auth : RequestAuth) (q : PublishPrekeysRequest)
    (x pq : list bytes) :
  prekeys_auth_message auth q =
  prekeys_auth_message auth
    {| pp_signed_prekey_x25519_pub := pp_signed_prekey_x25519_pub q;
       pp_sig_over_spk := pp_sig_over_spk q;
       pp_pq_signed_prekey_pub_mlkem768 := pp_pq_signed_prekey_pub_mlkem768 q;
       pp_sig_over_pqspk := pp_sig_over_pqspk q;
       pp_pq_sig_over_spk := pp_pq_sig_over_spk q;
       pp_pq_sig_over_pqspk := pp_pq_sig_over_pqspk q;
       pp_one_time_prekeys_x25519 := x;
       pp_one_time_prekeys_mlkem768 := pq |}.
Proof. done. Qed.

(** Member lists are hashed without separators: a group of [bob] and [carol]
    has the transcript of a group with the one member [bobcarol]. *)
Lemma group_create_ambiguous (P : Primitives) (auth : RequestAuth) (g a b : bytes) :
  group_create_auth_message auth g [a; b] = group_create_auth_message auth g [a ++ b].
Proof.
  unfold group_create_auth_message, hash_string_list_sha256. simpl. by rewrite !app_nil_r.
Qed.

(** The size of a direct message. The relay transcript carries the message
    itself in a record, whose length field has two octets, so a message of more
    than 65,535 octets has no transcript: although the endpoint admits a million
    octets, such a request is answered with an internal error whoever signs it. *)
Theorem relay_message_size (auth : RequestAuth) (recipient blob : bytes) :
  len (ra_user_id auth) ≤ u16_max → len (ra_device_id auth) ≤ u16_max →
  len (ra_nonce auth) ≤ u16_max → len recipient ≤ u16_max →
  is_ok (relay_auth_message auth recipient blob) = (len blob <=? u16_max).
Proof.
  intros Hu Hd Hn Hr. unfold relay_auth_message, auth_transcript, map_err.
  destruct (len blob <=? u16_max) eqn:E.
  - destruct (encode_ok (auth_common_records auth (lit "relay") ++
      [mkTlv AUTH_TAG_RECIPIENT_ID recipient; mkTlv AUTH_TAG_MESSAGE_BLOB blob])) as [b ->]; [|done].
    bool_to_prop. repeat constructor; simpl; try done; unfold len in *; by rewrite ?length_i64_be.
  - destruct (encode _) as [b|] eqn:Eb; [|done]. apply encode_ok_inv in Eb.
    rewrite list.Forall_forall in Eb. bool_to_prop.
    specialize (Eb (mkTlv AUTH_TAG_MESSAGE_BLOB blob)). cbn [value] in Eb.
    exfalso. apply (N.lt_irrefl u16_max). eapply N.lt_le_trans; [exact E|]. apply Eb. set_solver.
Qed.

Lemma relay_message_size_witness :
  is_ok (relay_auth_message (mkAuth (lit "a") (lit "d") 0 (lit "n") []) (lit "b")
    (replicate (N.to_nat 65536) x00)) = false.
Proof.
  rewrite (relay_message_size (mkAuth (lit "a") (lit "d") 0 (lit "n") []) (lit "b")
    (replicate (N.to_nat 65536) x00)); [|done..].
  unfold len. by rewrite length_replicate, N2Nat.id.
Defined.
