(* ===== verification/Caches.v ===== *)
(** * In-memory state of the server ([pqmsg-server/src/lib.rs], [handlers/util.rs])

    The replay cache, the rate limiter and the circuit breaker of the push
    providers, and the proof of work a registration carries. An [Instant] is
    its nanoseconds from a fixed start, and [duration_since] saturates at zero.
    The iteration order of a [HashMap] is unspecified: it is a parameter. *)

From Stdlib Require Import Strings.Byte Floats.SpecFloat.
From stdpp Require Import sorting.
From S2P Require Import Prelude Bytes Errors ServerError Validation.
Local Open Scope N_scope.

(** [HashMap::iter]. *)
Class HashIter := { hm_iter : ∀ {A : Type}, gmap bytes A → list (bytes * A) }.

Class HashIterLaws (H : HashIter) := {
  hm_iter_perm : ∀ {A : Type} (m : gmap bytes A), hm_iter m ≡ₚ map_to_list m;
}.

#[export] Instance MapOrder : HashIter := {| hm_iter := λ A m, map_to_list m |}.

#[export] Instance MapOrderLaws : HashIterLaws MapOrder.
Proof. by split. Qed.

(** [Iterator::min_by_key], the first of the minimal elements. *)
Fixpoint min_by_key {A : Type} (f : A → N) (l : list A) : option A :=
  match l with
  | [] => None
  | x :: l => match min_by_key f l with
              | Some y => if f x <=? f y then Some x else Some y
              | None => Some x
              end
  end.

Lemma min_by_key_None {A} (f : A → N) (l : list A) : min_by_key f l = None → l = [].
Proof. destruct l as [|x l]; [done|]. simpl. by destruct (min_by_key f l); [destruct (_ <=? _)|]. Qed.

Lemma min_by_key_Some {A} (f : A → N) (l : list A) (x : A) :
  min_by_key f l = Some x → x ∈ l ∧ ∀ y, y ∈ l → f x ≤ f y.
Proof.
  revert x. induction l as [|z l IH]; intros x; [done|]. simpl.
  destruct (min_by_key f l) as [y|] eqn:E.
  - destruct (IH y eq_refl) as [Hy Hmin].
    destruct (f z <=? f y) eqn:Ez; intros [= <-]; bool_to_prop.
    + split; [left|]. intros w [->|Hw]%elem_of_cons; [lia|]. etrans; [exact Ez|]. by apply Hmin.
    + split; [by right|]. intros w [->|Hw]%elem_of_cons; [lia|by apply Hmin].
  - apply min_by_key_None in E as ->. intros [= <-]. split; [left|].
    intros w Hw. apply list_elem_of_singleton in Hw as ->. lia.
Qed.

(** ** The replay cache *)

Record AuthReplayCache := mkReplay {
  arc_max_entries : N;
  arc_ttl : N;
  arc_inner : gmap bytes N;
}.

Definition AuthReplayCache_new (max_entries ttl : N) : AuthReplayCache :=
  mkReplay max_entries ttl ∅.

Section Replay.
Context `{H : HashIter}.

Definition observe_in_memory (key : bytes) (now : N) (c : AuthReplayCache) : AuthReplayCache * bool :=
  let m := filter (λ '(_, seen), now - seen ≤ arc_ttl c) (arc_inner c) in
  match m !! key with
  | Some _ => (mkReplay (arc_max_entries c) (arc_ttl c) m, false)
  | None =>
      let m' :=
        if arc_max_entries c <=? N.of_nat (size m) then
          match min_by_key snd (hm_iter m) with
          | Some (evict_key, _) => delete evict_key m
          | None => m
          end
        else m in
      (mkReplay (arc_max_entries c) (arc_ttl c) (<[key := now]> m'), true)
  end.

(** [observe] without a Redis backend. *)
Definition observe (user_id nonce : bytes) (now : N) (c : AuthReplayCache) : AuthReplayCache * bool :=
  observe_in_memory (user_id ++ lit ":" ++ nonce) now c.

(** The observations the cache let through, oldest first. *)
Fixpoint observe_run (run : list (N * bytes)) (c : AuthReplayCache) : AuthReplayCache * list (N * bytes) :=
  match run with
  | [] => (c, [])
  | (now, key) :: run =>
      let '(c, ok) := observe_in_memory key now c in
      let '(c, log) := observe_run run c in
      (c, if ok then (now, key) :: log else log)
  end.
End Replay.

(** ** The rate limiter

    Tokens are [f64]s: the operations are those of IEEE 754 binary64 with
    rounding to nearest even, which [SpecFloat] specifies. *)

Abbreviation f64 := spec_float.

Definition f64_add : f64 → f64 → f64 := SFadd 53 1024.
Definition f64_sub : f64 → f64 → f64 := SFsub 53 1024.
Definition f64_mul : f64 → f64 → f64 := SFmul 53 1024.
Definition f64_div : f64 → f64 → f64 := SFdiv 53 1024.

(** [as f64] of an unsigned integer. *)
Definition f64_of_N (n : N) : f64 := binary_normalize 53 1024 (Z.of_N n) 0 false.

(** [f64::min]: a NaN yields to the other operand. *)
Definition f64_min (a b : f64) : f64 :=
  match SFcompare a b with
  | Some Gt => b
  | Some _ => a
  | None => match a with S754_nan => b | _ => a end
  end.

(** [Duration::as_secs_f64]. *)
Definition as_secs_f64 (d : N) : f64 :=
  f64_add (f64_of_N (d / 1000000000)) (f64_div (f64_of_N (d mod 1000000000)) (f64_of_N 1000000000)).

Record BucketState := mkBucket { tokens : f64; last_refill : N }.

Record RateLimiter := mkLimiter {
  rl_capacity : f64;
  rl_refill_per_second : f64;
  rl_max_entries : N;
  rl_bucket_ttl : N;
  rl_inner : gmap bytes BucketState;
}.

Definition RateLimiter_new (capacity refill_per_second : f64) (max_entries bucket_ttl : N)
    : RateLimiter :=
  mkLimiter capacity refill_per_second max_entries bucket_ttl ∅.

Section Limiter.
Context `{H : HashIter}.

Definition allow_in_memory (key : bytes) (now : N) (l : RateLimiter) : RateLimiter * bool :=
  let map := filter (λ '(_, bucket), now - last_refill bucket ≤ rl_bucket_ttl l) (rl_inner l) in
  let map :=
    if negb (bool_decide (is_Some (map !! key))) && (rl_max_entries l <=? N.of_nat (size map)) then
      match min_by_key (λ '(_, bucket), last_refill bucket) (hm_iter map) with
      | Some (evict_key, _) => delete evict_key map
      | None => map
      end
    else map in
  let bucket := default (mkBucket (rl_capacity l) now) (map !! key) in
  let elapsed := as_secs_f64 (now - last_refill bucket) in
  let t := f64_min (f64_add (tokens bucket) (f64_mul elapsed (rl_refill_per_second l)))
             (rl_capacity l) in
  let allowed := SFleb (f64_of_N 1) t in
  let t := if allowed then f64_sub t (f64_of_N 1) else t in
  (mkLimiter (rl_capacity l) (rl_refill_per_second l) (rl_max_entries l) (rl_bucket_ttl l)
     (<[key := mkBucket t now]> map), allowed).
End Limiter.

Example rate_limiter_ex :
  let step '(l, out) now := let '(l, ok) := allow_in_memory (lit "k") now l in (l, out ++ [ok]) in
  (foldl step (RateLimiter_new (f64_of_N 2) (f64_of_N 1) 10 60000000000, [])
     [0; 0; 0; 500000000; 1000000000; 1000000000]).2 = [true; true; false; false; true; false].
Proof. vm_compute. reflexivity. Qed.

(** ** The circuit breaker *)

Definition CIRCUIT_FAILURE_THRESHOLD : N := 5.
Definition CIRCUIT_COOLDOWN_SECS : N := 30.

Record CircuitBreakerState := mkCircuit { consecutive_failures : N; opened_at : option N }.

Definition CircuitBreakerState_new : CircuitBreakerState := mkCircuit 0 None.

(** [Duration::as_secs]. *)
Definition as_secs (d : N) : N := d / 1000000000.

Definition is_open (now : N) (s : CircuitBreakerState) : bool :=
  match opened_at s with
  | Some opened_at => as_secs (now - opened_at) <? CIRCUIT_COOLDOWN_SECS
  | None => false
  end.

Definition record_success (s : CircuitBreakerState) : CircuitBreakerState := mkCircuit 0 None.

Definition record_failure (now : N) (s : CircuitBreakerState) : CircuitBreakerState :=
  let failures := consecutive_failures s + 1 in
  mkCircuit failures
    (if CIRCUIT_FAILURE_THRESHOLD <=? failures then Some now else opened_at s).

(** ** Proof of work *)

Definition has_leading_zero_bits (l : bytes) (bits : N) : bool :=
  if bits =? 0 then true
  else
    let full_bytes := N.to_nat (bits / 8) in
    let remaining_bits := bits mod 8 in
    if (length l <? full_bytes)%nat then false
    else if existsb (λ b, negb (Byte.to_N b =? 0)) (take full_bytes l) then false
    else if remaining_bits =? 0 then true
    else match l !! full_bytes with
         | None => false
         | Some b =>
             let mask := N.land (N.shiftl 0xFF (8 - remaining_bits)) 0xFF in
             N.land (Byte.to_N b) mask =? 0
         end.

(** ** Properties of the proof of work *)

Lemma from_be_zero (l : bytes) :
  existsb (λ b, negb (Byte.to_N b =? 0)) l = false ↔ from_be l = 0.
Proof.
  induction l as [|b l IH] using rev_ind; [done|].
  rewrite existsb_app, from_be_app. cbn [existsb length]. rewrite orb_false_r, orb_false_iff, IH.
  change (from_be [b]) with (0 * 256 + Byte.to_N b). rewrite negb_false_iff, N.eqb_eq.
  change (256 ^ N.of_nat 1) with 256. lia.
Qed.

Lemma masked_zero (b : byte) (k : N) :
  0 < k < 8 → (N.land (Byte.to_N b) (N.land (N.shiftl 0xFF (8 - k)) 0xFF) =? 0)
    = (Byte.to_N b <? 2 ^ (8 - k)).
Proof.
  intros Hk. assert (k = 1 ∨ k = 2 ∨ k = 3 ∨ k = 4 ∨ k = 5 ∨ k = 6 ∨ k = 7) as Hc by lia.
  repeat destruct Hc as [->|Hc]; [..|subst k]; by destruct b.
Qed.

(** The proof of work. A digest has the demanded number of leading zero bits
    precisely when, read as a big-endian number of its width, it is below
    two to the power of the bits that remain; a digest with fewer bits than
    demanded never passes. *)
Theorem leading_zero_bits_spec (l : bytes) (bits : N) :
  has_leading_zero_bits l bits =
    (bits <=? 8 * len l) && (from_be l <? 2 ^ (8 * len l - bits)).
Proof.
  pose proof (from_be_bound l) as Hb. unfold has_leading_zero_bits, len.
  assert (Hp : ∀ n, 256 ^ n = 2 ^ (8 * n)) by (intros; by rewrite N.pow_mul_r).
  rewrite Hp in Hb. destruct (N.eqb_spec bits 0) as [->|Hnz].
  { rewrite N.sub_0_r. symmetry. by apply andb_true_iff; rewrite N.leb_le, N.ltb_lt; split; [lia|]. }
  pose proof (N.div_mod bits 8 ltac:(lia)) as Hdm. pose proof (N.mod_lt bits 8 ltac:(lia)) as Hm.
  set (q := bits / 8) in *. set (k := bits mod 8) in *.
  destruct (Nat.ltb_spec (length l) (N.to_nat q)) as [Hlt|Hge].
  { symmetry. apply andb_false_iff. left. apply N.leb_gt. lia. }
  assert (Hf : from_be l = from_be (take (N.to_nat q) l) * 2 ^ (8 * N.of_nat (length l - N.to_nat q))
                           + from_be (drop (N.to_nat q) l))
    by (rewrite <- length_drop, <- Hp, <- from_be_app; by rewrite take_drop).
  rewrite Hf. clear Hf Hb.
  pose proof (from_be_zero (take (N.to_nat q) l)) as Hz.
  pose proof (from_be_bound (drop (N.to_nat q) l)) as Hd. rewrite Hp, length_drop in Hd.
  set (h := from_be (take (N.to_nat q) l)) in *.
  destruct (existsb _ _) eqn:Ex.
  { assert (h ≠ 0) as Hh by (intros Hh; by apply Hz in Hh). symmetry.
    destruct (bits <=? _) eqn:Eb; [|done]. bool_to_prop. apply N.ltb_ge.
    assert (2 ^ (8 * N.of_nat (length l) - bits) ≤ 2 ^ (8 * N.of_nat (length l - N.to_nat q)))
      by (apply N.pow_le_mono_r; lia). nia. }
  assert (h = 0) as -> by (by apply Hz). rewrite N.mul_0_l, N.add_0_l. clear Hz Ex.
  destruct (N.eqb_spec k 0) as [Hk|Hk].
  { symmetry. apply andb_true_iff. rewrite N.leb_le, N.ltb_lt. split; [lia|].
    replace (8 * N.of_nat (length l) - bits) with (8 * N.of_nat (length l - N.to_nat q)) by lia. done. }
  destruct (l !! N.to_nat q) as [b|] eqn:El.
  2:{ apply lookup_ge_None in El. symmetry. apply andb_false_iff. left. apply N.leb_gt. lia. }
  rewrite masked_zero by lia. pose proof (lookup_lt_Some _ _ _ El) as Hlt.
  rewrite (drop_S _ _ _ El) in *. change (b :: drop (S (N.to_nat q)) l) with ([b] ++ drop (S (N.to_nat q)) l) in *.
  rewrite from_be_app in *. change (from_be [b]) with (0 * 256 + Byte.to_N b) in *.
  rewrite N.mul_0_l, N.add_0_l, Hp in *.
  pose proof (from_be_bound (drop (S (N.to_nat q)) l)) as Hr. rewrite Hp in Hr.
  rewrite length_drop in *.
  replace (bits <=? 8 * N.of_nat (length l)) with true by (symmetry; apply N.leb_le; lia). simpl.
  set (w := 8 * N.of_nat (length l - S (N.to_nat q))) in *.
  replace (8 * N.of_nat (length l) - bits) with (8 - k + w) by lia.
  rewrite N.pow_add_r. apply eq_true_iff_eq. rewrite !N.ltb_lt.
  generalize dependent (2 ^ w). generalize (2 ^ (8 - k)). intros. nia.
Qed.

(** ** Properties of the replay cache *)

Section ReplayFacts.
Context `{H : HashIter} `{!HashIterLaws H}.

(** How many of the accepted observations were made at or after an instant. *)
Definition since_count (t : N) (log : list (N * bytes)) : N :=
  N.of_nat (length (filter (λ e, t ≤ e.1) log)).

(** The cache against the observations it has accepted: every entry is one of
    them, and one that is not yet due is still there unless more than the
    maximum were accepted since. *)
Record replay_inv (c : AuthReplayCache) (log : list (N * bytes)) (now : N) : Prop := {
  ri_sound : ∀ k s, arc_inner c !! k = Some s → (s, k) ∈ log;
  ri_past : ∀ e, e ∈ log → e.1 ≤ now;
  ri_complete : ∀ s k, (s, k) ∈ log → now - s ≤ arc_ttl c →
    arc_inner c !! k = Some s ∨ arc_max_entries c < since_count s log;
}.

Lemma since_count_snoc (t u : N) (k : bytes) (log : list (N * bytes)) :
  since_count t (log ++ [(u, k)]) = since_count t log + (if t <=? u then 1 else 0).
Proof.
  unfold since_count. rewrite list.filter_app, length_app, list.filter_cons, list.filter_nil. cbn [fst].
  destruct (N.leb_spec t u); [rewrite decide_True by done|rewrite decide_False by lia]; simpl; lia.
Qed.

(** A map whose entries are accepted observations from [t] on is no larger than
    their number. *)
Lemma size_since_count (m : gmap bytes N) (log : list (N * bytes)) (t : N) :
  (∀ k s, m !! k = Some s → (s, k) ∈ log ∧ t ≤ s) → N.of_nat (size m) ≤ since_count t log.
Proof.
  intros Hm. unfold since_count. rewrite <- length_map_to_list.
  rewrite <- (length_fmap (λ e : bytes * N, (e.2, e.1))).
  assert (Hsub : (λ e : bytes * N, (e.2, e.1)) <$> map_to_list m ⊆+ filter (λ e, t ≤ e.1) log).
  { apply NoDup_submseteq.
    - apply NoDup_fmap_2_strong; [|apply NoDup_map_to_list]. by intros [] [] _ _ [= -> ->].
    - intros [s k] ([k' s'] & [= -> ->] & Hin%elem_of_map_to_list)%list_elem_of_fmap.
      apply list_elem_of_filter. destruct (Hm _ _ Hin). done. }
  apply submseteq_length in Hsub. lia.
Qed.

Lemma replay_retained (c : AuthReplayCache) (log : list (N * bytes)) (now now' : N) :
  replay_inv c log now → now ≤ now' →
  let m := filter (λ '(_, seen), now' - seen ≤ arc_ttl c) (arc_inner c) in
  replay_inv (mkReplay (arc_max_entries c) (arc_ttl c) m) log now'.
Proof.
  intros [Hs Hp Hc] Hnow m. split; cbn [arc_inner arc_ttl arc_max_entries].
  - intros k s [Hk _]%map_lookup_filter_Some. by apply Hs.
  - intros e He. specialize (Hp e He). lia.
  - intros s k Hin Hdue. destruct (Hc s k Hin ltac:(lia)) as [Hk|Hk]; [left|by right].
    by apply map_lookup_filter_Some.
Qed.

(** Making room removes at most one entry, and then an oldest of a full map. *)
Lemma replay_make_room (m : gmap bytes N) (max : N) (k : bytes) (s : N) :
  let m' :=
    if max <=? N.of_nat (size m) then
      match min_by_key snd (hm_iter m) with
      | Some (evict_key, _) => delete evict_key m
      | None => m
      end
    else m in
  (m' !! k = Some s → m !! k = Some s) ∧
  (m !! k = Some s → m' !! k = Some s ∨
     max ≤ N.of_nat (size m) ∧ ∀ k' s', m !! k' = Some s' → s ≤ s').
Proof.
  destruct (N.leb_spec max (N.of_nat (size m))) as [Hfull|]; [|simpl; tauto].
  destruct (min_by_key snd (hm_iter m)) as [[ek es]|] eqn:E; [|simpl; tauto].
  apply min_by_key_Some in E as [Hin Hmin]. rewrite hm_iter_perm, elem_of_map_to_list in Hin.
  split.
  - by intros [_ Hk]%lookup_delete_Some.
  - intros Hk. destruct (decide (ek = k)) as [->|Hne]; [right|left; by rewrite lookup_delete_ne].
    split; [done|]. rewrite Hin in Hk. injection Hk as <-. intros k' s' Hk'.
    apply (Hmin (k', s')). by rewrite hm_iter_perm, elem_of_map_to_list.
Qed.

Lemma observe_preserves (c c' : AuthReplayCache) (log : list (N * bytes)) (now now' : N)
    (key : bytes) (ok : bool) :
  replay_inv c log now → now ≤ now' → observe_in_memory key now' c = (c', ok) →
  arc_max_entries c' = arc_max_entries c ∧ arc_ttl c' = arc_ttl c ∧
  replay_inv c' (if ok then log ++ [(now', key)] else log) now' ∧
  (ok = true → ∀ s, (s, key) ∈ log → now' - s ≤ arc_ttl c → arc_max_entries c < since_count s log).
Proof.
  intros Hinv Hnow. pose proof (replay_retained _ _ _ now' Hinv Hnow) as [Hs Hp Hc].
  cbn [arc_inner arc_ttl arc_max_entries] in Hs, Hc. unfold observe_in_memory.
  set (m := filter (λ '(_, seen), now' - seen ≤ arc_ttl c) (arc_inner c)) in *.
  destruct (m !! key) as [s0|] eqn:Ek.
  { intros [= <- <-]. split_and!; [done..| |done]. by split. }
  intros [= <- <-]. split_and!; [done..| |].
  2:{ intros _ s Hin Hdue. destruct (Hc s key Hin Hdue) as [Hk|]; [congruence|done]. }
  pose proof (λ k s, replay_make_room m (arc_max_entries c) k s) as Hroom. cbv zeta in Hroom.
  set (m' := if arc_max_entries c <=? N.of_nat (size m) then _ else m) in *.
  split; cbn [arc_inner arc_ttl arc_max_entries].
  - intros k s [[<- <-]|[Hne Hk]]%lookup_insert_Some; apply elem_of_app; [right; by left|].
    left. apply Hs. by apply (Hroom k s).
  - intros e [He|He%list_elem_of_singleton]%elem_of_app; [by apply Hp|by subst].
  - intros s k [Hin|Hin]%elem_of_app Hdue.
    2:{ apply list_elem_of_singleton in Hin as [= -> ->]. left. by rewrite lookup_insert_eq. }
    rewrite since_count_snoc. destruct (Hc s k Hin Hdue) as [Hk|Hk]; [|right; lia].
    destruct (proj2 (Hroom k s) Hk) as [Hk'|[Hfull Hmin]].
    + left. rewrite lookup_insert_ne; [done|congruence].
    + right. pose proof (Hp _ Hin) as Hle. simpl in Hle. rewrite (proj2 (N.leb_le s now')) by done.
      assert (N.of_nat (size m) ≤ since_count s log); [|lia].
      apply size_since_count. intros k' s' Hk'. split; [by apply Hs|by eapply Hmin].
Qed.

(** Every accepted observation of a run either has no accepted predecessor with
    its key that is not yet due, or follows more than the maximum of them. *)
Lemma observe_run_spec (run : list (N * bytes)) (c : AuthReplayCache) (log : list (N * bytes)) (now : N) :
  replay_inv c log now → StronglySorted N.le (now :: run.*1) →
  let accepted := log ++ (observe_run run c).2 in
  ∀ a b d s t k, accepted = a ++ [(s, k)] ++ b ++ [(t, k)] ++ d → (length a + length b + 1 ≥ length log)%nat →
    t - s ≤ arc_ttl c → arc_max_entries c < since_count s (a ++ [(s, k)] ++ b).
Proof.
  revert c log now. induction run as [|[now' key] run IH]; intros c log now Hinv Hsorted; simpl.
  - rewrite app_nil_r. intros a b d s t k -> Hlen. rewrite !length_app in Hlen. simpl in Hlen.
    rewrite length_app in Hlen. simpl in Hlen. lia.
  - apply StronglySorted_inv in Hsorted as [Hsorted Hle]. simpl in Hle.
    apply list.Forall_cons in Hle as [Hnow _].
    destruct (observe_in_memory key now' c) as [c' ok] eqn:E.
    destruct (observe_preserves _ _ _ _ _ _ _ Hinv Hnow E) as (Hmax & Httl & Hinv' & Hok).
    specialize (IH c' _ now' Hinv' Hsorted). destruct (observe_run run c') as [c'' l] eqn:Er.
    rewrite Hmax, Httl in IH. simpl in IH. destruct ok; [|exact IH].
    rewrite <- app_assoc in IH. simpl in IH.
    intros a b d s t k Heq Hlen Hdue.
    destruct (decide (length a + length b + 1 = length log)%nat) as [Hl|Hl].
    + assert (log = a ++ [(s, k)] ++ b ∧ (now', key) = (t, k)) as [-> [= -> ->]].
      { assert (Heq' : log ++ (now', key) :: l = (a ++ (s, k) :: b) ++ (t, k) :: d)
          by (rewrite <- app_assoc; exact Heq).
        apply app_inj_len in Heq' as [Hlog Hl']; [|rewrite length_app; simpl; lia].
        by injection Hl' as -> ->. }
      apply Hok; [done| |done]. set_solver.
    + apply (IH a b d s t k Heq); [|done]. rewrite length_app. simpl. lia.
Qed.
End ReplayFacts.

(** ** Properties of the circuit breaker *)

(** The state after a history of outcomes, oldest first. *)
Definition circuit_after (history : list (N * bool)) : CircuitBreakerState :=
  foldl (λ s '(now, ok), if (ok : bool) then record_success s else record_failure now s)
    CircuitBreakerState_new history.

(** The failures since the last success, newest first. *)
Fixpoint failures_since (newest_first : list (N * bool)) : list N :=
  match newest_first with
  | (now, false) :: l => now :: failures_since l
  | _ => []
  end.

Lemma circuit_after_spec (history : list (N * bool)) :
  let f := failures_since (rev history) in
  circuit_after history =
    mkCircuit (N.of_nat (length f))
      (if CIRCUIT_FAILURE_THRESHOLD <=? N.of_nat (length f) then head f else None).
Proof.
  induction history as [|[now ok] history IH] using rev_ind; [done|].
  rewrite rev_unit. unfold circuit_after in *. rewrite foldl_snoc, IH. cbn zeta.
  destruct ok; [done|]. cbn [failures_since]. set (f := failures_since (rev history)).
  unfold record_failure, CIRCUIT_FAILURE_THRESHOLD. cbn [consecutive_failures opened_at length head].
  replace (N.of_nat (S (length f))) with (N.of_nat (length f) + 1) by lia. f_equal.
  destruct (5 <=? N.of_nat (length f) + 1) eqn:E; [done|]. bool_to_prop.
  by rewrite (proj2 (N.leb_gt _ _)) by lia.
Qed.

(** A push provider is skipped precisely when its last five attempts failed and
    the latest of them is less than thirty seconds old: a success closes the
    circuit at once, and after the pause a single failure opens it again. *)
Lemma circuit_open_iff (history : list (N * bool)) (now : N) :
  is_open now (circuit_after history) = true ↔
    ∃ t rest, failures_since (rev history) = t :: rest ∧ (5 ≤ S (length rest))%nat ∧
      as_secs (now - t) < CIRCUIT_COOLDOWN_SECS.
Proof.
  rewrite circuit_after_spec. unfold is_open, CIRCUIT_FAILURE_THRESHOLD. cbn zeta. cbn [opened_at].
  destruct (failures_since (rev history)) as [|t rest]; [naive_solver|]. cbn [length head].
  destruct (5 <=? N.of_nat (S (length rest))) eqn:E; bool_to_prop.
  - rewrite N.ltb_lt. split; [intros; exists t, rest; split_and!; [done|lia|done]|].
    by intros (? & ? & [= -> ->] & _ & ?).
  - split; [done|]. intros (? & ? & [= -> ->] & ? & _). lia.
Qed.

(** ** Properties of the rate limiter *)

Lemma allow_in_memory_size `{H : HashIter} `{!HashIterLaws H} (key : bytes) (now : N) (l : RateLimiter) :
  N.of_nat (size (rl_inner l)) ≤ N.max 1 (rl_max_entries l) →
  let l' := (allow_in_memory key now l).1 in
  rl_max_entries l' = rl_max_entries l ∧
  N.of_nat (size (rl_inner l')) ≤ N.max 1 (rl_max_entries l).
Proof.
  intros Hsize l'. unfold allow_in_memory in l'.
  set (m := filter (λ '(_, bucket), now - last_refill bucket ≤ rl_bucket_ttl l) (rl_inner l)) in l'.
  assert (Hm : (size m ≤ size (rl_inner l))%nat) by (apply map_subseteq_size, map_filter_subseteq).
  split; [done|]. subst l'. cbn [fst rl_inner].
  set (m' := if negb _ && _ then _ else m).
  assert (Hm' : m' !! key = None → N.of_nat (size m') + 1 ≤ N.max 1 (rl_max_entries l)).
  { intros Hk. destruct (m !! key) as [b|] eqn:Eb.
    - subst m'. rewrite bool_decide_true in Hk by done. cbn in Hk. congruence.
    - subst m'. rewrite bool_decide_false by (by intros [? ?]). cbn [negb andb].
      destruct (rl_max_entries l <=? N.of_nat (size m)) eqn:E; bool_to_prop; [|lia].
      destruct (min_by_key _ (hm_iter m)) as [[ek eb]|] eqn:Em.
      + apply min_by_key_Some in Em as [Hin _]. rewrite hm_iter_perm, elem_of_map_to_list in Hin.
        rewrite map_size_delete, Hin. simpl. lia.
      + apply min_by_key_None in Em. pose proof (hm_iter_perm m) as Hp. rewrite Em in Hp.
        apply Permutation_nil_l in Hp. symmetry in Hp. apply map_to_list_empty_iff in Hp.
        rewrite Hp, map_size_empty in *. lia. }
  assert (Hle : (size m' ≤ size m)%nat).
  { subst m'. destruct (negb _ && _); [|done]. destruct (min_by_key _ _) as [[]|]; [|done].
    apply map_subseteq_size, delete_subseteq. }
  rewrite map_size_insert. destruct (m' !! key); simpl; [lia|]. specialize (Hm' eq_refl). lia.
Qed.

(** The limiter's table stays bounded whatever keys are presented, in any order
    and at any time. *)
Lemma rate_limiter_bounded `{H : HashIter} `{!HashIterLaws H} (calls : list (bytes * N))
    (l : RateLimiter) :
  N.of_nat (size (rl_inner l)) ≤ N.max 1 (rl_max_entries l) →
  N.of_nat (size (rl_inner (foldl (λ l '(k, now), (allow_in_memory k now l).1) l calls)))
    ≤ N.max 1 (rl_max_entries l).
Proof.
  revert l. induction calls as [|[k now] calls IH]; intros l Hl; [done|]. simpl.
  destruct (allow_in_memory_size k now l Hl) as [Hmax Hsize]. rewrite <- Hmax.
  apply IH. by rewrite Hmax.
Qed.
