(* ===== verification/Realtime.v ===== *)
(** * Realtime delivery ([RealtimeHub], [SealedRealtimeHub] of [lib.rs])

    The two hubs differ only in the type of the items they carry. A subscriber
    is a bounded channel: the hub holds the sending end and a socket task the
    receiving end, so the channels are a store both refer to by subscriber
    number. Without a Redis client, [publish] is [dispatch_local]. *)

From Stdlib Require Import Strings.Byte.
From S2P Require Import Prelude Bytes Errors ServerError.
Local Open Scope N_scope.

Definition SUBSCRIBER_CHANNEL_CAPACITY : nat := 256.

Definition inbox_stream_key (user_id device_id : bytes) : bytes :=
  user_id ++ lit ":" ++ device_id.

(** A bounded [mpsc] channel: what was sent and not yet received, and whether
    the receiving end is still held. *)
Record Channel (item : Type) := mkChannel { ch_queue : list item; ch_receiver : bool }.
Arguments mkChannel {item}.
Arguments ch_queue {item}.
Arguments ch_receiver {item}.

Record Hub (item : Type) := mkHub {
  hub_inner : gmap bytes (list N);
  hub_next_id : N;
  hub_channels : gmap N (Channel item);
}.
Arguments mkHub {item}.
Arguments hub_inner {item}.
Arguments hub_next_id {item}.
Arguments hub_channels {item}.

Section Hub.
Context {item : Type}.
Implicit Type h : Hub item.

Definition Hub_new : Hub item := mkHub ∅ 1 ∅.

Definition subscribe (user_id device_id : bytes) h : Hub item * N :=
  let subscriber_id := hub_next_id h in
  let key := inbox_stream_key user_id device_id in
  (mkHub (<[key := default [] (hub_inner h !! key) ++ [subscriber_id]]> (hub_inner h))
     (subscriber_id + 1)
     (<[subscriber_id := mkChannel [] true]> (hub_channels h)), subscriber_id).

(** The entry of a key whose subscribers are gone is removed. *)
Definition set_subscribers (key : bytes) (subscribers : list N) h : Hub item :=
  mkHub (match subscribers with
         | [] => delete key (hub_inner h)
         | _ => <[key := subscribers]> (hub_inner h)
         end) (hub_next_id h) (hub_channels h).

Definition unsubscribe (user_id device_id : bytes) (subscriber_id : N) h : Hub item :=
  let key := inbox_stream_key user_id device_id in
  match hub_inner h !! key with
  | None => h
  | Some subscribers => set_subscribers key (filter (λ id, id ≠ subscriber_id) subscribers) h
  end.

(** [try_send]: fails when the channel is full or its receiver is gone. *)
Definition try_send (id : N) (message : item) (channels : gmap N (Channel item))
    : option (gmap N (Channel item)) :=
  match channels !! id with
  | Some c =>
      if ch_receiver c && (length (ch_queue c) <? SUBSCRIBER_CHANNEL_CAPACITY)%nat
      then Some (<[id := mkChannel (ch_queue c ++ [message]) true]> channels)
      else None
  | None => None
  end.

(** [subscribers.retain(|s| s.sender.try_send(message.clone()).is_ok())]. *)
Fixpoint send_all (message : item) (subscribers : list N) (channels : gmap N (Channel item))
    : list N * gmap N (Channel item) :=
  match subscribers with
  | [] => ([], channels)
  | id :: subscribers =>
      match try_send id message channels with
      | Some channels =>
          let '(kept, channels) := send_all message subscribers channels in (id :: kept, channels)
      | None => send_all message subscribers channels
      end
  end.

Definition dispatch_local (user_id device_id : bytes) (message : item) h : Hub item :=
  let key := inbox_stream_key user_id device_id in
  match hub_inner h !! key with
  | None => h
  | Some subscribers =>
      let '(kept, channels) := send_all message subscribers (hub_channels h) in
      set_subscribers key kept (mkHub (hub_inner h) (hub_next_id h) channels)
  end.

Definition publish (user_id device_id : bytes) (message : item) h : Hub item :=
  dispatch_local user_id device_id message h.

(** [receiver.recv] when something is waiting. *)
Definition recv (id : N) h : option item * Hub item :=
  match hub_channels h !! id with
  | Some c =>
      match ch_queue c with
      | x :: q => (Some x, mkHub (hub_inner h) (hub_next_id h)
                             (<[id := mkChannel q (ch_receiver c)]> (hub_channels h)))
      | [] => (None, h)
      end
  | None => (None, h)
  end.

(** A task that returns drops its receiver. *)
Definition drop_receiver (id : N) h : Hub item :=
  mkHub (hub_inner h) (hub_next_id h)
    (alter (λ c, mkChannel (ch_queue c) false) id (hub_channels h)).
End Hub.

(** The key of a stream joins the two identifiers with a colon, which both may
    contain: two devices of different users can share a stream. *)
Lemma inbox_stream_key_collides :
  inbox_stream_key (lit "alice:phone") (lit "x") = inbox_stream_key (lit "alice") (lit "phone:x").
Proof. reflexivity. Qed.
