(* ===== verification/ServerState.v ===== *)
(** * The server's state ([AppState] of [lib.rs], the tables of [migrations/])

    The database is one record of tables: a table with a primary key is a map,
    one with an auto-increment key the list of its rows in the order of their
    identifiers together with the next identifier. A handler is a computation
    on [AppState] that returns a response or an [AppError]; what it wrote before
    an error stays written, except inside a transaction. Requests are executed
    one after the other, each at one instant of the two clocks the state
    carries, and the database itself does not fail. *)

From Stdlib Require Import Strings.Byte.
From S2P Require Import Prelude Bytes Errors Tlv Crypto Alg ServerError Validation RequestAuth Caches Realtime.
Local Open Scope N_scope.

(** ** Tables *)

Record UserRow := mkUser {
  u_identity_x25519_pub : bytes;
  u_identity_sig_pub : bytes;
  u_identity_pq_sig_pub : option bytes;
  u_device_id : bytes;
  u_sealed_delivery_token : option bytes;
  u_created_at : Z;
  u_updated_at : Z;
}.

Record DeviceRow := mkDevice {
  d_active : bool;
  d_linked_at : Z;
  d_revoked_at : option Z;
}.

Record PrekeyRow := mkPrekey {
  pk_signed_prekey_x25519_pub : bytes;
  pk_sig_over_spk : bytes;
  pk_pq_signed_prekey_pub_mlkem768 : bytes;
  pk_sig_over_pqspk : bytes;
  pk_pq_sig_over_spk : option bytes;
  pk_pq_sig_over_pqspk : option bytes;
  pk_updated_at : Z;
}.

Record OneTimeRow := mkOneTime {
  ot_id : Z;
  ot_user_id : bytes;
  ot_device_id : bytes;
  ot_prekey : bytes;
  ot_consumed : bool;
  ot_created_at : Z;
}.

Record RelayRow := mkRelay {
  rm_message_id : Z;
  rm_recipient_user_id : bytes;
  rm_recipient_device_id : bytes;
  rm_sender_user_id : bytes;
  rm_device_id : bytes;
  rm_message_blob : bytes;
  rm_received_at : Z;
}.

Record SealedRow := mkSealed {
  sm_message_id : Z;
  sm_recipient_user_id : bytes;
  sm_recipient_device_id : bytes;
  sm_sender_user_id : option bytes;
  sm_sender_identity_x25519_pub : option bytes;
  sm_message_blob : bytes;
  sm_received_at : Z;
}.

Record TicketRow := mkTicket {
  tk_user_id : bytes;
  tk_device_id : bytes;
  tk_since : Z;
  tk_issued_at : Z;
  tk_expires_at : Z;
}.

Record EventRow := mkEvent {
  ev_id : Z;
  ev_user_id : bytes;
  ev_version : Z;
  ev_identity_x25519_pub : bytes;
  ev_identity_sig_pub : bytes;
  ev_identity_pq_sig_pub : option bytes;
  ev_device_id : bytes;
  ev_event_type : bytes;
  ev_changed_at : Z;
}.

Record ChallengeRow := mkChallenge {
  cg_user_id : bytes;
  cg_nonce : bytes;
  cg_new_identity_x25519_pub : bytes;
  cg_new_identity_sig_pub : bytes;
  cg_new_identity_pq_sig_pub : option bytes;
  cg_new_device_id : bytes;
  cg_created_at : Z;
  cg_expires_at : Z;
  cg_consumed : bool;
}.

Record ContactRow := mkContact {
  ct_alias : option bytes;
  ct_verified_by_qr : bool;
  ct_verified_fingerprint_sha256 : option bytes;
  ct_created_at : Z;
  ct_updated_at : Z;
}.

Record InviteRow := mkInvite {
  iv_user_id : bytes;
  iv_purpose : bytes;
  iv_created_at : Z;
  iv_expires_at : Z;
}.

Record ProfileRow := mkProfile {
  pf_display_name : option bytes;
  pf_username : option bytes;
  pf_username_normalized : option bytes;
  pf_username_lookup_enabled : bool;
  pf_avatar_mime : option bytes;
  pf_avatar_blob : option bytes;
  pf_avatar_object_key : option bytes;
  pf_updated_at : Z;
}.

(** The tables of private groups: encrypted states by group and epoch, member
    credentials by handle, invites by token, and messages. *)
Record GroupStateRow := mkGroupState {
  gs_state_commitment_sha256 : bytes;
  gs_ciphertext_nonce_base64 : bytes;
  gs_ciphertext_base64 : bytes;
  gs_ciphertext_aad_base64 : bytes;
  gs_published_by_membership_handle_sha256 : bytes;
  gs_published_at : Z;
}.

Record GroupCredentialRow := mkGroupCredential {
  gc_group_id : bytes;
  gc_epoch : Z;
  gc_member_commitment_sha256 : bytes;
  gc_fetch_key_sha256 : bytes;
  gc_publish_key_sha256 : option bytes;
  gc_created_at : Z;
  gc_revoked_at : option Z;
}.

Record GroupInviteRow := mkGroupInvite {
  gi_group_id : bytes;
  gi_epoch : Z;
  gi_invite_commitment_sha256 : bytes;
  gi_invite_ciphertext_nonce_base64 : bytes;
  gi_invite_ciphertext_base64 : bytes;
  gi_invite_ciphertext_aad_base64 : bytes;
  gi_created_by_membership_handle_sha256 : bytes;
  gi_created_at : Z;
  gi_expires_at : Z;
  gi_revoked_at : option Z;
}.

Record GroupMessageRow := mkGroupMessage {
  gr_message_id : Z;
  gr_group_id : bytes;
  gr_epoch : Z;
  gr_sent_at_unix_ms : Z;
  gr_ciphertext_nonce_base64 : bytes;
  gr_ciphertext_base64 : bytes;
  gr_ciphertext_aad_base64 : bytes;
  gr_sender_hybrid_signature_base64 : bytes;
  gr_received_at : Z;
}.

(** Rows in the order of an auto-increment key, and the next key. *)
Record Table (R : Type) := mkTable { rows : list R; next_id : Z }.
Arguments mkTable {R}.
Arguments rows {R}.
Arguments next_id {R}.

Definition empty_table {R} : Table R := mkTable [] 1.

(** [INSERT ... RETURNING]: the row is made from its identifier. *)
Definition insert_row {R} (mk : Z → R) (t : Table R) : Table R * Z :=
  (mkTable (rows t ++ [mk (next_id t)]) (next_id t + 1), next_id t).

(** [DELETE ... WHERE]. *)
Definition delete_rows {R} (p : R → bool) (t : Table R) : Table R :=
  mkTable (filter (λ r, p r = false) (rows t)) (next_id t).

(** [UPDATE ... WHERE]. *)
Definition update_rows {R} (p : R → bool) (f : R → R) (t : Table R) : Table R :=
  mkTable (map (λ r, if p r then f r else r) (rows t)) (next_id t).

Record PrivateGroupTables := mkPrivateGroups {
  private_group_states : gmap (bytes * Z) GroupStateRow;
  private_group_member_credentials : gmap bytes GroupCredentialRow;
  private_group_invites : gmap bytes GroupInviteRow;
  private_group_messages : Table GroupMessageRow;
}.

Definition empty_private_groups : PrivateGroupTables := mkPrivateGroups ∅ ∅ ∅ empty_table.

(** What points into the blob store: files by their id, the backup of a user. *)
Record FileRow := mkFile {
  fi_owner_user_id : bytes;
  fi_owner_device_id : bytes;
  fi_recipient_user_id : bytes;
  fi_mime_type : bytes;
  fi_object_key : option bytes;
  fi_file_blob : bytes;
  fi_byte_len : Z;
  fi_created_at : Z;
}.

Record BackupRow := mkBackup {
  bk_backup_id : bytes;
  bk_device_id : bytes;
  bk_backup_version : Z;
  bk_blob_object_key : bytes;
  bk_byte_len : Z;
  bk_recovery_hint : option bytes;
  bk_created_at : Z;
  bk_updated_at : Z;
}.

Record ObjectTables := mkObjects {
  encrypted_files : gmap bytes FileRow;
  encrypted_backups : gmap bytes BackupRow;
}.

Definition empty_objects : ObjectTables := mkObjects ∅ ∅.

Record Db := mkDb {
  users : gmap bytes UserRow;
  user_devices : gmap (bytes * bytes) DeviceRow;
  prekeys : gmap (bytes * bytes) PrekeyRow;
  one_time_prekeys_x25519 : Table OneTimeRow;
  one_time_prekeys_mlkem768 : Table OneTimeRow;
  relay_messages : Table RelayRow;
  sealed_relay_messages : Table SealedRow;
  inbox_cursors : gmap (bytes * bytes) Z;
  sealed_inbox_cursors : gmap (bytes * bytes) Z;
  ws_inbox_tickets : gmap bytes TicketRow;
  relay_dedup : gmap bytes Z;
  identity_events : Table EventRow;
  identity_rotation_challenges : gmap bytes ChallengeRow;
  push_tokens : gmap (bytes * bytes * bytes) (bytes * Z);
  contacts : gmap (bytes * bytes) ContactRow;
  contact_invites : gmap bytes InviteRow;
  user_profiles : gmap bytes ProfileRow;
  private_groups : PrivateGroupTables;
  stored_objects : ObjectTables;
}.

Definition empty_db : Db :=
  mkDb ∅ ∅ ∅ empty_table empty_table empty_table empty_table ∅ ∅ ∅ ∅ empty_table ∅ ∅ ∅ ∅ ∅ empty_private_groups empty_objects.

(** Replacing one table. *)
Definition set_users t (d : Db) : Db :=
  mkDb t (user_devices d) (prekeys d) (one_time_prekeys_x25519 d) (one_time_prekeys_mlkem768 d)
    (relay_messages d) (sealed_relay_messages d) (inbox_cursors d) (sealed_inbox_cursors d)
    (ws_inbox_tickets d) (relay_dedup d) (identity_events d) (identity_rotation_challenges d)
    (push_tokens d) (contacts d) (contact_invites d) (user_profiles d) (private_groups d) (stored_objects d).
Definition set_user_devices t (d : Db) : Db :=
  mkDb (users d) t (prekeys d) (one_time_prekeys_x25519 d) (one_time_prekeys_mlkem768 d)
    (relay_messages d) (sealed_relay_messages d) (inbox_cursors d) (sealed_inbox_cursors d)
    (ws_inbox_tickets d) (relay_dedup d) (identity_events d) (identity_rotation_challenges d)
    (push_tokens d) (contacts d) (contact_invites d) (user_profiles d) (private_groups d) (stored_objects d).
Definition set_prekeys t (d : Db) : Db :=
  mkDb (users d) (user_devices d) t (one_time_prekeys_x25519 d) (one_time_prekeys_mlkem768 d)
    (relay_messages d) (sealed_relay_messages d) (inbox_cursors d) (sealed_inbox_cursors d)
    (ws_inbox_tickets d) (relay_dedup d) (identity_events d) (identity_rotation_challenges d)
    (push_tokens d) (contacts d) (contact_invites d) (user_profiles d) (private_groups d) (stored_objects d).
Definition set_one_time_prekeys_x25519 t (d : Db) : Db :=
  mkDb (users d) (user_devices d) (prekeys d) t (one_time_prekeys_mlkem768 d) (relay_messages d)
    (sealed_relay_messages d) (inbox_cursors d) (sealed_inbox_cursors d) (ws_inbox_tickets d)
    (relay_dedup d) (identity_events d) (identity_rotation_challenges d) (push_tokens d)
    (contacts d) (contact_invites d) (user_profiles d) (private_groups d) (stored_objects d).
Definition set_one_time_prekeys_mlkem768 t (d : Db) : Db :=
  mkDb (users d) (user_devices d) (prekeys d) (one_time_prekeys_x25519 d) t (relay_messages d)
    (sealed_relay_messages d) (inbox_cursors d) (sealed_inbox_cursors d) (ws_inbox_tickets d)
    (relay_dedup d) (identity_events d) (identity_rotation_challenges d) (push_tokens d)
    (contacts d) (contact_invites d) (user_profiles d) (private_groups d) (stored_objects d).
Definition set_relay_messages t (d : Db) : Db :=
  mkDb (users d) (user_devices d) (prekeys d) (one_time_prekeys_x25519 d)
    (one_time_prekeys_mlkem768 d) t (sealed_relay_messages d) (inbox_cursors d)
    (sealed_inbox_cursors d) (ws_inbox_tickets d) (relay_dedup d) (identity_events d)
    (identity_rotation_challenges d) (push_tokens d) (contacts d) (contact_invites d)
    (user_profiles d) (private_groups d) (stored_objects d).
Definition set_sealed_relay_messages t (d : Db) : Db :=
  mkDb (users d) (user_devices d) (prekeys d) (one_time_prekeys_x25519 d)
    (one_time_prekeys_mlkem768 d) (relay_messages d) t (inbox_cursors d)
    (sealed_inbox_cursors d) (ws_inbox_tickets d) (relay_dedup d) (identity_events d)
    (identity_rotation_challenges d) (push_tokens d) (contacts d) (contact_invites d)
    (user_profiles d) (private_groups d) (stored_objects d).
Definition set_inbox_cursors t (d : Db) : Db :=
  mkDb (users d) (user_devices d) (prekeys d) (one_time_prekeys_x25519 d)
    (one_time_prekeys_mlkem768 d) (relay_messages d) (sealed_relay_messages d) t
    (sealed_inbox_cursors d) (ws_inbox_tickets d) (relay_dedup d) (identity_events d)
    (identity_rotation_challenges d) (push_tokens d) (contacts d) (contact_invites d)
    (user_profiles d) (private_groups d) (stored_objects d).
Definition set_sealed_inbox_cursors t (d : Db) : Db :=
  mkDb (users d) (user_devices d) (prekeys d) (one_time_prekeys_x25519 d)
    (one_time_prekeys_mlkem768 d) (relay_messages d) (sealed_relay_messages d)
    (inbox_cursors d) t (ws_inbox_tickets d) (relay_dedup d) (identity_events d)
    (identity_rotation_challenges d) (push_tokens d) (contacts d) (contact_invites d)
    (user_profiles d) (private_groups d) (stored_objects d).
Definition set_ws_inbox_tickets t (d : Db) : Db :=
  mkDb (users d) (user_devices d) (prekeys d) (one_time_prekeys_x25519 d)
    (one_time_prekeys_mlkem768 d) (relay_messages d) (sealed_relay_messages d)
    (inbox_cursors d) (sealed_inbox_cursors d) t (relay_dedup d) (identity_events d)
    (identity_rotation_challenges d) (push_tokens d) (contacts d) (contact_invites d)
    (user_profiles d) (private_groups d) (stored_objects d).
Definition set_relay_dedup t (d : Db) : Db :=
  mkDb (users d) (user_devices d) (prekeys d) (one_time_prekeys_x25519 d)
    (one_time_prekeys_mlkem768 d) (relay_messages d) (sealed_relay_messages d)
    (inbox_cursors d) (sealed_inbox_cursors d) (ws_inbox_tickets d) t (identity_events d)
    (identity_rotation_challenges d) (push_tokens d) (contacts d) (contact_invites d)
    (user_profiles d) (private_groups d) (stored_objects d).
Definition set_identity_events t (d : Db) : Db :=
  mkDb (users d) (user_devices d) (prekeys d) (one_time_prekeys_x25519 d)
    (one_time_prekeys_mlkem768 d) (relay_messages d) (sealed_relay_messages d)
    (inbox_cursors d) (sealed_inbox_cursors d) (ws_inbox_tickets d) (relay_dedup d) t
    (identity_rotation_challenges d) (push_tokens d) (contacts d) (contact_invites d)
    (user_profiles d) (private_groups d) (stored_objects d).
Definition set_identity_rotation_challenges t (d : Db) : Db :=
  mkDb (users d) (user_devices d) (prekeys d) (one_time_prekeys_x25519 d)
    (one_time_prekeys_mlkem768 d) (relay_messages d) (sealed_relay_messages d)
    (inbox_cursors d) (sealed_inbox_cursors d) (ws_inbox_tickets d) (relay_dedup d)
    (identity_events d) t (push_tokens d) (contacts d) (contact_invites d) (user_profiles d) (private_groups d) (stored_objects d).
Definition set_push_tokens t (d : Db) : Db :=
  mkDb (users d) (user_devices d) (prekeys d) (one_time_prekeys_x25519 d)
    (one_time_prekeys_mlkem768 d) (relay_messages d) (sealed_relay_messages d)
    (inbox_cursors d) (sealed_inbox_cursors d) (ws_inbox_tickets d) (relay_dedup d)
    (identity_events d) (identity_rotation_challenges d) t (contacts d) (contact_invites d)
    (user_profiles d) (private_groups d) (stored_objects d).
Definition set_contacts t (d : Db) : Db :=
  mkDb (users d) (user_devices d) (prekeys d) (one_time_prekeys_x25519 d)
    (one_time_prekeys_mlkem768 d) (relay_messages d) (sealed_relay_messages d)
    (inbox_cursors d) (sealed_inbox_cursors d) (ws_inbox_tickets d) (relay_dedup d)
    (identity_events d) (identity_rotation_challenges d) (push_tokens d) t
    (contact_invites d) (user_profiles d) (private_groups d) (stored_objects d).
Definition set_contact_invites t (d : Db) : Db :=
  mkDb (users d) (user_devices d) (prekeys d) (one_time_prekeys_x25519 d)
    (one_time_prekeys_mlkem768 d) (relay_messages d) (sealed_relay_messages d)
    (inbox_cursors d) (sealed_inbox_cursors d) (ws_inbox_tickets d) (relay_dedup d)
    (identity_events d) (identity_rotation_challenges d) (push_tokens d) (contacts d) t
    (user_profiles d) (private_groups d) (stored_objects d).
Definition set_user_profiles t (d : Db) : Db :=
  mkDb (users d) (user_devices d) (prekeys d) (one_time_prekeys_x25519 d)
    (one_time_prekeys_mlkem768 d) (relay_messages d) (sealed_relay_messages d)
    (inbox_cursors d) (sealed_inbox_cursors d) (ws_inbox_tickets d) (relay_dedup d)
    (identity_events d) (identity_rotation_challenges d) (push_tokens d) (contacts d)
    (contact_invites d) t (private_groups d) (stored_objects d).
Definition set_private_groups t (d : Db) : Db :=
  mkDb (users d) (user_devices d) (prekeys d) (one_time_prekeys_x25519 d)
    (one_time_prekeys_mlkem768 d) (relay_messages d) (sealed_relay_messages d)
    (inbox_cursors d) (sealed_inbox_cursors d) (ws_inbox_tickets d) (relay_dedup d)
    (identity_events d) (identity_rotation_challenges d) (push_tokens d) (contacts d)
    (contact_invites d) (user_profiles d) t (stored_objects d).
Definition set_stored_objects t (d : Db) : Db :=
  mkDb (users d) (user_devices d) (prekeys d) (one_time_prekeys_x25519 d)
    (one_time_prekeys_mlkem768 d) (relay_messages d) (sealed_relay_messages d)
    (inbox_cursors d) (sealed_inbox_cursors d) (ws_inbox_tickets d) (relay_dedup d)
    (identity_events d) (identity_rotation_challenges d) (push_tokens d) (contacts d)
    (contact_invites d) (user_profiles d) (private_groups d) t.

(** ** Policies *)

Record DosHardeningPolicy := mkPolicy {
  registration_pow_bits : N;
  prekey_publish_min_interval_seconds : Z;
  prekey_bundle_reserve_count : Z;
  pq_ratchet_interval : N;
}.

(** [DEFAULT_PQ_RATCHET_INTERVAL] of the core's ratchet. *)
Definition for_security_profile (default_pq_ratchet_interval : N) (profile : SecurityProfile)
    : DosHardeningPolicy :=
  match profile with
  | Research => mkPolicy 0 0 0 default_pq_ratchet_interval
  | HighAssurance | NssAligned => mkPolicy 18 30 2 default_pq_ratchet_interval
  end.

Inductive DeploymentMode : Type := Development | Pilot | Production.

Definition DeploymentMode_parse (value : bytes) : option DeploymentMode :=
  let s := to_ascii_lowercase (str_trim value) in
  if bool_decide (s ∈ [lit "development"; lit "dev"]) then Some Development
  else if bool_decide (s ∈ [lit "pilot"; lit "enterprise_pilot"; lit "enterprise-pilot"])
  then Some Pilot
  else if bool_decide (s ∈ [lit "production"; lit "prod"]) then Some Production
  else None.

Definition DeploymentMode_as_str (m : DeploymentMode) : bytes :=
  match m with
  | Development => lit "development" | Pilot => lit "pilot" | Production => lit "production"
  end.

(** ** Items of the inbox streams ([types.rs]) *)

Record InboxItem := mkItem {
  ii_message_id : Z;
  ii_sender_user_id : bytes;
  ii_message_bytes_base64 : bytes;
  ii_received_at : Z;
}.

Record SealedInboxItem := mkSealedItem {
  si_message_id : Z;
  si_sender_identity_x25519_pub : option bytes;
  si_message_bytes_base64 : bytes;
  si_received_at : Z;
}.

(** [Uuid::new_v4] as a string, from the operating system's generator. *)
Class Uuid `{P : Primitives} := { uuid_v4 : rng → bytes * rng }.

(** ** The application state *)

Record AppState `{P : Primitives} := mkState {
  st_db : Db;
  st_rate_limiter : RateLimiter;
  st_auth_replay : AuthReplayCache;
  st_realtime_hub : Hub InboxItem;
  st_sealed_realtime_hub : Hub SealedInboxItem;
  st_security_profile : SecurityProfile;
  st_deployment_mode : DeploymentMode;
  st_dos_policy : DosHardeningPolicy;
  st_trusted_proxies : list bytes;
  st_blob_store : gmap bytes bytes;
  st_sender_certificate_signing_key : bytes;
  st_authenticated_direct_messaging_supported : bool;
  (** [Utc::now()], [Instant::now()] and [OsRng]. *)
  st_utc : Z;
  st_instant : N;
  st_rng : rng;
}.

(** [i64] subtraction and [abs] without overflow checks. *)
Definition i64_wrap (z : Z) : Z := ((z + 2 ^ 63) mod 2 ^ 64 - 2 ^ 63)%Z.
Definition i64_sub (a b : Z) : Z := i64_wrap (a - b).
Definition i64_abs (a : Z) : Z := i64_wrap (Z.abs a).

Section State.
Context `{P : Primitives} `{V : Ed25519} `{B : Base64} `{X : Hex} `{I : HashIter} `{U : !Uuid}.

Definition Handler (A : Type) : Type := SM AppState AppError A.

Definition set_db (d : Db) (s : AppState) : AppState :=
  mkState _ d (st_rate_limiter s) (st_auth_replay s) (st_realtime_hub s) (st_sealed_realtime_hub s)
    (st_security_profile s) (st_deployment_mode s) (st_dos_policy s) (st_trusted_proxies s)
    (st_blob_store s) (st_sender_certificate_signing_key s)
    (st_authenticated_direct_messaging_supported s) (st_utc s) (st_instant s) (st_rng s).

Definition set_rate_limiter (l : RateLimiter) (s : AppState) : AppState :=
  mkState _ (st_db s) l (st_auth_replay s) (st_realtime_hub s) (st_sealed_realtime_hub s)
    (st_security_profile s) (st_deployment_mode s) (st_dos_policy s) (st_trusted_proxies s)
    (st_blob_store s) (st_sender_certificate_signing_key s)
    (st_authenticated_direct_messaging_supported s) (st_utc s) (st_instant s) (st_rng s).

Definition set_auth_replay (c : AuthReplayCache) (s : AppState) : AppState :=
  mkState _ (st_db s) (st_rate_limiter s) c (st_realtime_hub s) (st_sealed_realtime_hub s)
    (st_security_profile s) (st_deployment_mode s) (st_dos_policy s) (st_trusted_proxies s)
    (st_blob_store s) (st_sender_certificate_signing_key s)
    (st_authenticated_direct_messaging_supported s) (st_utc s) (st_instant s) (st_rng s).

Definition set_hub (h : Hub InboxItem) (s : AppState) : AppState :=
  mkState _ (st_db s) (st_rate_limiter s) (st_auth_replay s) h (st_sealed_realtime_hub s)
    (st_security_profile s) (st_deployment_mode s) (st_dos_policy s) (st_trusted_proxies s)
    (st_blob_store s) (st_sender_certificate_signing_key s)
    (st_authenticated_direct_messaging_supported s) (st_utc s) (st_instant s) (st_rng s).

Definition set_sealed_hub (h : Hub SealedInboxItem) (s : AppState) : AppState :=
  mkState _ (st_db s) (st_rate_limiter s) (st_auth_replay s) (st_realtime_hub s) h
    (st_security_profile s) (st_deployment_mode s) (st_dos_policy s) (st_trusted_proxies s)
    (st_blob_store s) (st_sender_certificate_signing_key s)
    (st_authenticated_direct_messaging_supported s) (st_utc s) (st_instant s) (st_rng s).

Definition set_blob_store (b : gmap bytes bytes) (s : AppState) : AppState :=
  mkState _ (st_db s) (st_rate_limiter s) (st_auth_replay s) (st_realtime_hub s)
    (st_sealed_realtime_hub s) (st_security_profile s) (st_deployment_mode s) (st_dos_policy s)
    (st_trusted_proxies s) b (st_sender_certificate_signing_key s)
    (st_authenticated_direct_messaging_supported s) (st_utc s) (st_instant s) (st_rng s).

Definition set_clock (utc : Z) (instant : N) (s : AppState) : AppState :=
  mkState _ (st_db s) (st_rate_limiter s) (st_auth_replay s) (st_realtime_hub s)
    (st_sealed_realtime_hub s) (st_security_profile s) (st_deployment_mode s) (st_dos_policy s)
    (st_trusted_proxies s) (st_blob_store s) (st_sender_certificate_signing_key s)
    (st_authenticated_direct_messaging_supported s) utc instant (st_rng s).

Definition set_rng (g : rng) (s : AppState) : AppState :=
  mkState _ (st_db s) (st_rate_limiter s) (st_auth_replay s) (st_realtime_hub s)
    (st_sealed_realtime_hub s) (st_security_profile s) (st_deployment_mode s) (st_dos_policy s)
    (st_trusted_proxies s) (st_blob_store s) (st_sender_certificate_signing_key s)
    (st_authenticated_direct_messaging_supported s) (st_utc s) (st_instant s) g.

(** ** Reading and writing *)

Local Open Scope sm_scope.

Definition gets {A} (f : AppState → A) : Handler A := λ s, (s, Ok (f s)).
Definition query {A} (f : Db → A) : Handler A := gets (λ s, f (st_db s)).
Definition execute (f : Db → Db) : Handler unit := sm_modify (λ s, set_db (f (st_db s)) s).
Definition fail {A} (e : AppError) : Handler A := sm_err e.
Definition lift {A} (r : app A) : Handler A := sm_lift r.
(** [if c { return Err(e) }]. *)
Definition reject_if (c : bool) (e : AppError) : Handler unit := if c then fail e else sm_ret tt.

(** [fill_bytes] of [OsRng] on a buffer of the given length. *)
Definition os_rng (n : nat) : Handler bytes :=
  λ s, let '(b, g) := rng_fill n (st_rng s) in (set_rng g s, Ok b).

Definition new_uuid : Handler bytes :=
  λ s, let '(u, g) := uuid_v4 (st_rng s) in (set_rng g s, Ok u).

(** A transaction: the tables are those before it when the body fails. *)
Definition transaction {A} (body : Handler A) : Handler A :=
  λ s, match body s with
       | (s', Ok a) => (s', Ok a)
       | (s', Err e) => (set_db (st_db s) s', Err e)
       end.

(** ** Shared helpers ([handlers/util.rs], [db.rs], [auth.rs]) *)

Definition check_rate_limit (key : bytes) : Handler unit :=
  λ s, let '(l, ok) := allow_in_memory key (st_instant s) (st_rate_limiter s) in
       (set_rate_limiter l s, if ok then Ok tt else Err (rate_limited (lit "rate limit exceeded"))).

Definition ensure_user_exists (user_id : bytes) : Handler unit :=
  row <- query (λ d, users d !! user_id);;
  match row with
  | None => fail (not_found (lit "user '" ++ user_id ++ lit "' not found"))
  | Some _ => sm_ret tt
  end.

(** [ORDER BY linked_at ASC, device_id ASC]. *)
Definition device_leb (a b : bytes * DeviceRow) : bool :=
  (d_linked_at a.2 <? d_linked_at b.2)%Z
  || ((d_linked_at a.2 =? d_linked_at b.2)%Z && str_leb a.1 b.1).

(** The rows of [user_devices] with [user_id = $1 AND active = 1], in order. *)
Definition active_devices (user_id : bytes) (d : Db) : list (bytes * DeviceRow) :=
  sort_unstable device_leb
    (omap (λ '((u, dev), row),
             if bool_decide (u = user_id) && d_active row then Some (dev, row) else None)
       (map_to_list (user_devices d))).

Definition load_active_device_ids (user_id : bytes) : Handler (list bytes) :=
  query (λ d, (active_devices user_id d).*1).

(** [observe] of the replay cache at the current instant. *)
Definition observe_nonce (user_id nonce : bytes) : Handler bool :=
  λ s, let '(c, ok) := observe user_id nonce (st_instant s) (st_auth_replay s) in
       (set_auth_replay c s, Ok ok).

Definition verify_request_auth_any (auth : RequestAuth) (messages : list bytes) : Handler unit :=
  now <- gets st_utc;;
  reject_if (AUTH_MAX_CLOCK_SKEW_SECONDS <? i64_abs (i64_sub (timestamp now) (ra_timestamp auth)))%Z
    (bad_request (lit "request timestamp outside allowed skew"));;;
  fresh <- observe_nonce (ra_user_id auth) (ra_nonce auth);;
  reject_if (negb fresh) (conflict (lit "request nonce replayed"));;;
  user_row <- query (λ d, users d !! ra_user_id auth);;
  match user_row with
  | None => fail (not_found (lit "auth user not found"))
  | Some user_row =>
      device <- query (λ d, user_devices d !! (ra_user_id auth, ra_device_id auth));;
      reject_if (negb (match device with Some row => d_active row | None => false end))
        (bad_request (lit "auth device mismatch for user or device revoked"));;;
      reject_if (negb (existsb (λ message,
          is_ok (verify_ed25519_signature (u_identity_sig_pub user_row) (ra_signature auth) message
                   AUTH_HEADER_SIGNATURE)) messages))
        (bad_request (lit "x-pqmsg-auth-signature verification failed"))
  end.

Definition verify_request_auth (auth : RequestAuth) (message : bytes) : Handler unit :=
  verify_request_auth_any auth [message].
End State.
