(* ===== verification/ToyServer.v ===== *)
(** * A concrete server state

    The parameters of the server instantiated with executable functions, and a
    small server to run: two users, one with two devices, signing with the toy
    signature scheme. The examples of the server files use it. *)

From Stdlib Require Import Strings.Byte.
From S2P Require Import Prelude Bytes Errors Tlv Crypto Toy Alg PqSig ServerError Validation RequestAuth Caches Realtime ServerState.
Local Open Scope N_scope.

(** Two letters for every octet. *)
Definition hex_digit (n : N) : bytes := [byte_of_N (if n <? 10 then 48 + n else 87 + n)].

#[export] Instance ToyHex : Hex :=
  {| hex_lower := λ l, mjoin (map (λ b, hex_digit (Byte.to_N b / 16) ++ hex_digit (Byte.to_N b mod 16)) l) |}.

#[export] Instance ToyUuid : @Uuid Toy :=
  {| uuid_v4 := λ g : @rng Toy, (lit "uuid-" ++ decimal g, g + 1) |}.

(** The public and the secret key of a user are the same 32 octets. *)
Definition toy_key (seed : N) : bytes := toy_stream 32 seed.

Definition toy_user (seed : N) : UserRow :=
  mkUser (toy_key (seed + 1)) (toy_key seed) None (lit "d1") None 0 0.

Definition toy_db : Db :=
  set_users {[ lit "alice" := toy_user 101; lit "bob" := toy_user 202 ]}
    (set_user_devices
       {[ (lit "alice", lit "d1") := mkDevice true 10 None;
          (lit "bob", lit "d1") := mkDevice true 20 None;
          (lit "bob", lit "d2") := mkDevice true 15 None ]} empty_db).

(** The server with the research profile and the default limits of [main.rs]. *)
Definition toy_state (utc : Z) (instant : N) (d : Db) : @AppState Toy :=
  mkState Toy d (RateLimiter_new (f64_of_N 60) (f64_of_N 1) 20000 (600 * 1000000000))
    (AuthReplayCache_new AUTH_REPLAY_MAX_ENTRIES (AUTH_REPLAY_WINDOW_SECONDS * 1000000000))
    Hub_new Hub_new Research Development (for_security_profile 50 Research) [] ∅ (toy_key 7) true
    utc instant 0.

(** A request of [user] on [device], signed with the key of [seed]. *)
Definition toy_auth (user device : bytes) (seed : N) (ts : Z) (nonce : bytes)
    (message : RequestAuth → app bytes) : RequestAuth :=
  let unsigned := mkAuth user device ts nonce [] in
  match message unsigned with
  | Ok m => mkAuth user device ts nonce (ed_sign (toy_key seed) m)
  | Err _ => unsigned
  end.

(** The headers of such a request. *)
Definition toy_headers (user device : bytes) (seed : N) (ts : Z) (nonce : bytes)
    (message : RequestAuth → app bytes) : HeaderMap :=
  {[ AUTH_HEADER_USER := user; AUTH_HEADER_DEVICE := device;
     AUTH_HEADER_TIMESTAMP := decimal (Z.to_N ts); AUTH_HEADER_NONCE := nonce;
     AUTH_HEADER_SIGNATURE := b64_encode (ra_signature (toy_auth user device seed ts nonce message)) ]}.

(** A signature scheme with the lengths of ML-DSA-65, and an identity key for
    it. *)
Definition ToyMlDsa : PqSignatureProvider := {|
  pqs_keypair := λ g : @rng Toy, (Ok {| pqs_public_key := toy_stream 1952 1; pqs_secret_key := toy_stream 1952 1 |}, g);
  pqs_sign := λ sk m (g : @rng Toy), (Ok (toy_stream 3309 (toy_sum (toy_sum 6 sk) m)), g);
  pqs_verify := λ pk m s,
    if bool_decide (s = toy_stream 3309 (toy_sum (toy_sum 6 pk) m)) then Ok tt
    else Err SignatureVerificationFailed;
|}.

Definition toy_pq_key (seed : N) : bytes := toy_stream 1952 seed.

Definition toy_pq_sign (seed : N) (m : bytes) : bytes :=
  toy_stream 3309 (toy_sum (toy_sum 6 (toy_pq_key seed)) m).

(** Alice with a post-quantum identity key. *)
Definition toy_pq_db : Db :=
  set_users (<[lit "alice" := mkUser (toy_key 102) (toy_key 101) (Some (toy_pq_key 103)) (lit "d1") None 0 0]>
               (users toy_db)) toy_db.
