(* ===== verification/ServerFrame.v ===== *)
(** * Running handlers

    Inversion of the sequencing of a handler, and what a handler changes: the
    lemmas that bound the effect of a handler by a relation on states, composed
    along its code by the hint database [steps]. *)

From stdpp Require Import sorting.
From S2P Require Import Prelude Bytes Errors Tlv Crypto Alg ServerError Validation RequestAuth Caches Realtime ServerState.
Local Open Scope N_scope.

(** ** Rows *)

(** Rows with increasing identifiers are told apart by them. *)
Lemma sorted_ids_inj {A} (id : A → Z) (l : list A) (r r' : A) :
  StronglySorted Z.lt (map id l) → r ∈ l → r' ∈ l → id r = id r' → r = r'.
Proof.
  induction l as [|x l IH]; intros Hs Hr Hr' He; [by apply elem_of_nil in Hr|].
  apply StronglySorted_inv in Hs as [Hs Hx]. rewrite list.Forall_forall in Hx.
  assert (Hlt : ∀ y, y ∈ l → (id x < id y)%Z) by (intros y Hy; apply Hx; by apply list_elem_of_fmap_2).
  apply elem_of_cons in Hr as [->|Hr], Hr' as [->|Hr']; [done| | |by apply IH].
  - specialize (Hlt _ Hr'). lia.
  - specialize (Hlt _ Hr). lia.
Qed.

(** ** Sequencing *)

Lemma sm_bind_inv {S E A B} (c : SM S E A) (k : A → SM S E B) (s s' : S) (r : result E B) :
  sm_bind c k s = (s', r) →
  (∃ s1 a, c s = (s1, Ok a) ∧ k a s1 = (s', r)) ∨ (∃ e, c s = (s', Err e) ∧ r = Err e).
Proof.
  unfold sm_bind. destruct (c s) as [s1 [a|e]]; intros Hk; [left; eauto|]. right.
  injection Hk as <- <-. eauto.
Qed.

Lemma sm_bind_ok_inv {S E A B} (c : SM S E A) (k : A → SM S E B) (s s' : S) (b : B) :
  sm_bind c k s = (s', Ok b) → ∃ s1 a, c s = (s1, Ok a) ∧ k a s1 = (s', Ok b).
Proof. intros [?|(e & _ & [=])]%sm_bind_inv. done. Qed.

Lemma sm_bind_ok {S E A B} (c : SM S E A) (k : A → SM S E B) (s s1 : S) (a : A) :
  c s = (s1, Ok a) → sm_bind c k s = k a s1.
Proof. intros Hc. unfold sm_bind. by rewrite Hc. Qed.

Lemma sm_bind_err {S E A B} (c : SM S E A) (k : A → SM S E B) (s s1 : S) (e : E) :
  c s = (s1, Err e) → sm_bind c k s = (s1, Err e).
Proof. intros Hc. unfold sm_bind. by rewrite Hc. Qed.

Lemma ok_or_ok {E A} (o : option A) (e : E) (a : A) : ok_or o e = Ok a → o = Some a.
Proof. by destruct o as [x|]; intros [= ->]. Qed.

(** The value of a successful result. *)
Definition ok_val {E A} (r : result E A) : is_ok r = true → A :=
  match r with Ok a => λ _, a | Err _ => λ H, match diff_false_true H with end end.

Lemma ok_val_spec {E A} (r : result E A) (H : is_ok r = true) : r = Ok (ok_val r H).
Proof. by destruct r. Qed.

Lemma pair_ok {S E A} (p : S * result E A) (a : A) : p.2 = Ok a → p = (p.1, Ok a).
Proof. destruct p as [s r]. simpl. by intros ->. Qed.

Section Frame.
Context `{P : Primitives} `{V : Ed25519} `{B : Base64} `{I : HashIter} `{U : !Uuid}.

Lemma gets_inv {A} (f : AppState → A) (s s' : AppState) (r : app A) :
  gets f s = (s', r) → s' = s ∧ r = Ok (f s).
Proof. unfold gets. by intros [= <- <-]. Qed.

Lemma query_inv {A} (f : Db → A) (s s' : AppState) (r : app A) :
  query f s = (s', r) → s' = s ∧ r = Ok (f (st_db s)).
Proof. apply (gets_inv (λ s, f (st_db s))). Qed.

Lemma lift_inv {A} (x : app A) (s s' : AppState) (r : app A) :
  lift x s = (s', r) → s' = s ∧ x = r.
Proof. unfold lift, sm_lift. by intros [= <- <-]. Qed.

Lemma reject_if_inv (c : bool) (e : AppError) (s s' : AppState) (r : app unit) :
  reject_if c e s = (s', r) → s' = s ∧ r = if c then Err e else Ok tt.
Proof. unfold reject_if, fail, sm_err, sm_ret. by destruct c; intros [= <- <-]. Qed.

Lemma reject_if_ok (c : bool) (e : AppError) (s s' : AppState) (u : unit) :
  reject_if c e s = (s', Ok u) → s' = s ∧ c = false.
Proof. intros [-> E]%reject_if_inv. by destruct c. Qed.

Lemma negb_bool_decide_false (Q : Prop) `{!Decision Q} : negb (bool_decide Q) = false → Q.
Proof. by case_bool_decide. Qed.

Lemma transaction_ok {A} (body : Handler A) (s s' : AppState) (a : A) :
  transaction body s = (s', Ok a) → body s = (s', Ok a).
Proof. unfold transaction. by destruct (body s) as [s1 [a1|e]]. Qed.

Lemma transaction_err {A} (body : Handler A) (s s' : AppState) (e : AppError) :
  transaction body s = (s', Err e) → st_db s' = st_db s.
Proof. unfold transaction. destruct (body s) as [s1 [a1|e1]]; [done|]. by intros [= <- <-]. Qed.

Lemma execute_inv (f : Db → Db) (s s' : AppState) (r : app unit) :
  execute f s = (s', r) → s' = set_db (f (st_db s)) s ∧ r = Ok tt.
Proof. unfold execute, sm_modify. by intros [= <- <-]. Qed.

Lemma ensure_user_exists_inv (user_id : bytes) (s s' : AppState) (r : app unit) :
  ensure_user_exists user_id s = (s', r) → s' = s ∧ (r = Ok tt ↔ is_Some (users (st_db s) !! user_id)).
Proof.
  unfold ensure_user_exists, query, gets, sm_bind, fail, sm_err, sm_ret.
  destruct (users (st_db s) !! user_id); intros [= <- <-]; (split; [done|]); split; try done.
Qed.

(** ** Active devices *)

Lemma active_devices_perm (user_id : bytes) (d : Db) :
  active_devices user_id d ≡ₚ
  omap (λ '((u, dev), row), if bool_decide (u = user_id) && d_active row then Some (dev, row) else None)
    (map_to_list (user_devices d)).
Proof. apply sort_unstable_perm. Qed.

Lemma elem_of_active_devices (user_id dev : bytes) (d : Db) :
  dev ∈ (active_devices user_id d).*1 ↔
  ∃ row, user_devices d !! (user_id, dev) = Some row ∧ d_active row = true.
Proof.
  rewrite active_devices_perm. split.
  - intros ([dev' row] & Hdev & ([[u dev''] row'] & Hin & E)%list_elem_of_omap)%list_elem_of_fmap.
    simpl in Hdev. subst dev'. apply elem_of_map_to_list in Hin. destruct (bool_decide_reflect (u = user_id)) as [->|]; [|done].
    simpl in E. destruct (d_active row') eqn:Ea; [|done]. injection E as -> ->. eauto.
  - intros (row & Hl & Ha). apply list_elem_of_fmap. exists (dev, row). split; [done|].
    apply list_elem_of_omap. exists ((user_id, dev), row). split; [by apply elem_of_map_to_list|].
    by rewrite bool_decide_eq_true_2, Ha.
Qed.

Lemma NoDup_active_devices (user_id : bytes) (d : Db) : NoDup (active_devices user_id d).*1.
Proof.
  rewrite active_devices_perm. pose proof (NoDup_fst_map_to_list (user_devices d)) as Hnd.
  induction (map_to_list (user_devices d)) as [|[[u dev] row] l IH]; [constructor|].
  cbn [omap list_omap]. rewrite fmap_cons in Hnd. apply list.NoDup_cons in Hnd as [Hnew Hnd].
  specialize (IH Hnd). case_bool_decide as Hu; [|done]. subst u. simpl.
  destruct (d_active row); [|done]. rewrite fmap_cons. apply list.NoDup_cons. split; [|done].
  intros ([dev' row'] & Hdev & ([[u dev''] row''] & Hin & E)%list_elem_of_omap)%list_elem_of_fmap.
  simpl in Hdev. subst dev'. apply Hnew. destruct (bool_decide_reflect (u = user_id)) as [->|]; [|done]. simpl in E.
  destruct (d_active row''); [|done].
  injection E as -> ->. apply list_elem_of_fmap. by exists (user_id, dev, row').
Qed.

(** ** Effects *)

Definition steps (R : relation AppState) {A} (c : Handler A) : Prop := ∀ s, R s (c s).1.

Section Steps.
Context (R : relation AppState) `{!PreOrder R}.

Lemma steps_same {A} (c : Handler A) : (∀ s, (c s).1 = s) → steps R c.
Proof. intros Hc s. by rewrite Hc. Qed.

Lemma steps_ret {A} (a : A) : steps R (sm_ret a).
Proof. by apply steps_same. Qed.

Lemma steps_fail {A} (e : AppError) : steps R (fail (A := A) e).
Proof. by apply steps_same. Qed.

Lemma steps_lift {A} (r : app A) : steps R (lift r).
Proof. by apply steps_same. Qed.

Lemma steps_gets {A} (f : AppState → A) : steps R (gets f).
Proof. by apply steps_same. Qed.

Lemma steps_query {A} (f : Db → A) : steps R (query f).
Proof. by apply steps_same. Qed.

Lemma steps_reject_if (c : bool) (e : AppError) : steps R (reject_if c e).
Proof. apply steps_same. by destruct c. Qed.

Lemma steps_ensure_user_exists (user_id : bytes) : steps R (ensure_user_exists user_id).
Proof.
  apply steps_same. intros s. unfold ensure_user_exists, query, gets, sm_bind, fail, sm_err, sm_ret.
  by case_match.
Qed.

Lemma steps_load_active_device_ids (user_id : bytes) : steps R (load_active_device_ids user_id).
Proof. apply steps_query. Qed.

Lemma steps_bind {A C} (c : Handler A) (k : A → Handler C) :
  steps R c → (∀ a, steps R (k a)) → steps R (sm_bind c k).
Proof.
  intros Hc Hk s. unfold sm_bind. specialize (Hc s). destruct (c s) as [s1 [a|e]]; simpl in *; [|done].
  etrans; [exact Hc|apply Hk].
Qed.

Lemma steps_bind_lift {A C} (r : app A) (k : A → Handler C) :
  (∀ a, r = Ok a → steps R (k a)) → steps R (sm_bind (lift r) k).
Proof. intros Hk s. unfold sm_bind, lift, sm_lift. destruct r as [a|e]; [by apply Hk|done]. Qed.

Lemma steps_execute (f : Db → Db) :
  (∀ s, R s (set_db (f (st_db s)) s)) → steps R (execute f).
Proof. intros Hf s. apply Hf. Qed.

Lemma steps_run {A} (c : Handler A) (s s' : AppState) (r : app A) :
  steps R c → c s = (s', r) → R s s'.
Proof. intros Hc E. specialize (Hc s). by rewrite E in Hc. Qed.
End Steps.

(** The effect of the runs that end in an error. *)
Definition fails_within (R : relation AppState) {A} (c : Handler A) : Prop :=
  ∀ s s' e, c s = (s', Err e) → R s s'.

Lemma fails_within_bind (R : relation AppState) `{!PreOrder R} {A C} (c : Handler A) (k : A → Handler C) :
  steps R c → (∀ a, fails_within R (k a)) → fails_within R (sm_bind c k).
Proof.
  intros Hc Hk s s' e [(s1 & a & E1 & E2)|(e' & E & [= ->])]%sm_bind_inv.
  - etrans; [by eapply steps_run|by eapply Hk].
  - by eapply steps_run.
Qed.

Lemma fails_within_steps (R : relation AppState) {A} (c : Handler A) : steps R c → fails_within R c.
Proof. intros Hc s s' e. by apply steps_run. Qed.

(** Everything but the rate limiter, the replay cache and the generator is
    unchanged. *)
Definition quiet : relation AppState := λ s s',
  ∃ g l c, s' = set_rng g (set_rate_limiter l (set_auth_replay c s)).

#[export] Instance quiet_preorder : PreOrder quiet.
Proof.
  split.
  - intros []. by eexists _, _, _.
  - intros ? ? ? (g1 & l1 & c1 & ->) (g2 & l2 & c2 & ->). by eexists g2, l2, c2.
Qed.

Lemma quiet_db s s' : quiet s s' → st_db s' = st_db s.
Proof. by intros (? & ? & ? & ->). Qed.
Lemma quiet_utc s s' : quiet s s' → st_utc s' = st_utc s.
Proof. by intros (? & ? & ? & ->). Qed.
Lemma quiet_policy s s' : quiet s s' → st_dos_policy s' = st_dos_policy s.
Proof. by intros (? & ? & ? & ->). Qed.
Lemma quiet_hub s s' : quiet s s' → st_realtime_hub s' = st_realtime_hub s.
Proof. by intros (? & ? & ? & ->). Qed.
Lemma quiet_sealed_hub s s' : quiet s s' → st_sealed_realtime_hub s' = st_sealed_realtime_hub s.
Proof. by intros (? & ? & ? & ->). Qed.

(** A relation that does not look at what [quiet] lets change. *)
Class Coarse (R : relation AppState) : Prop := coarse : ∀ s s', quiet s s' → R s s'.

#[export] Instance quiet_coarse : Coarse quiet.
Proof. by intros s s'. Qed.

(** The effect on the tables only. *)
Definition on_db (R : relation Db) : relation AppState := λ s s', R (st_db s) (st_db s').

#[export] Instance on_db_preorder (R : relation Db) : PreOrder R → PreOrder (on_db R).
Proof.
  intros [Hr Ht]. split; [intros s; apply Hr|]. intros s1 s2 s3 H1 H2. eapply Ht; [exact H1|exact H2].
Qed.

#[export] Instance on_db_coarse (R : relation Db) : Reflexive R → Coarse (on_db R).
Proof. intros HR s s' Hq. unfold on_db. by rewrite (quiet_db _ _ Hq). Qed.

Lemma steps_quiet (R : relation AppState) `{!Coarse R} {A} (c : Handler A) : steps quiet c → steps R c.
Proof. intros Hc s. by apply coarse. Qed.

Lemma quiet_set_rate_limiter l s : quiet s (set_rate_limiter l s).
Proof. exists (st_rng s), l, (st_auth_replay s). by destruct s. Qed.
Lemma quiet_set_auth_replay c s : quiet s (set_auth_replay c s).
Proof. exists (st_rng s), (st_rate_limiter s), c. by destruct s. Qed.
Lemma quiet_set_rng g s : quiet s (set_rng g s).
Proof. exists g, (st_rate_limiter s), (st_auth_replay s). by destruct s. Qed.

Lemma quiet_check_rate_limit (key : bytes) : steps quiet (check_rate_limit key).
Proof. intros s. unfold check_rate_limit. destruct (allow_in_memory _ _ _). apply quiet_set_rate_limiter. Qed.

Lemma quiet_os_rng (n : nat) : steps quiet (os_rng n).
Proof. intros s. unfold os_rng. destruct (rng_fill n _). apply quiet_set_rng. Qed.

Lemma quiet_new_uuid : steps quiet new_uuid.
Proof. intros s. unfold new_uuid. destruct (uuid_v4 _). apply quiet_set_rng. Qed.

Lemma quiet_observe_nonce (user_id nonce : bytes) : steps quiet (observe_nonce user_id nonce).
Proof. intros s. unfold observe_nonce. destruct (observe _ _ _ _). apply quiet_set_auth_replay. Qed.

Lemma quiet_verify_request_auth_any (auth : RequestAuth) (messages : list bytes) :
  steps quiet (verify_request_auth_any auth messages).
Proof.
  unfold verify_request_auth_any.
  repeat first
    [ apply steps_bind; [apply _| |intros ?]
    | apply steps_gets, _ | apply steps_query, _ | apply steps_reject_if, _ | apply steps_fail, _
    | apply quiet_observe_nonce | case_match ].
Qed.

Lemma quiet_verify_request_auth (auth : RequestAuth) (message : bytes) :
  steps quiet (verify_request_auth auth message).
Proof. apply quiet_verify_request_auth_any. Qed.

(** A relation that holds of a transaction that is rolled back. *)
Class Rollback (R : relation AppState) : Prop := rollback : ∀ s s', R s s' → R s (set_db (st_db s) s').

#[export] Instance on_db_rollback (R : relation Db) : Reflexive R → Rollback (on_db R).
Proof. intros HR s s' _. unfold on_db. simpl. done. Qed.

Lemma steps_transaction (R : relation AppState) `{!Rollback R} {A} (body : Handler A) :
  steps R body → steps R (transaction body).
Proof.
  intros Hb s. unfold transaction. specialize (Hb s). destruct (body s) as [s' [a|e]]; simpl in *; [done|].
  by apply rollback.
Qed.
End Frame.

Create HintDb steps discriminated.
#[export] Hint Resolve steps_ret steps_fail steps_lift steps_gets steps_query steps_reject_if
  steps_ensure_user_exists steps_load_active_device_ids quiet_check_rate_limit quiet_os_rng quiet_new_uuid
  quiet_observe_nonce quiet_verify_request_auth_any quiet_verify_request_auth : steps.

(** One step of the composition: sequencing, branching, or a known part. *)
Ltac step1 :=
  first
    [ apply steps_bind; [apply _| |intros ?]
    | solve [auto with steps typeclass_instances]
    | apply steps_quiet; [apply _|solve [auto with steps typeclass_instances]]
    | apply steps_transaction; [apply _|]
    | apply steps_execute; intros ?
    | case_match ].
Ltac steps := repeat step1.

(** Inversion of a successful run, one sequencing step. *)
Ltac run_ok H s1 a Ha :=
  apply sm_bind_ok_inv in H; destruct H as (s1 & a & Ha & H).

(** The same, resolving the steps that only read or refuse; [Ha] says what the
    step established. *)
Ltac run1 H Ha :=
  let s1 := fresh "s" in let a := fresh "a" in
  apply sm_bind_ok_inv in H; destruct H as (s1 & a & Ha & H);
  lazymatch type of a with unit => destruct a | _ => idtac end;
  lazymatch type of Ha with
  | lift _ _ = _ => apply lift_inv in Ha; destruct Ha as [-> Ha]
  | reject_if _ _ _ = _ => apply reject_if_ok in Ha; destruct Ha as [-> Ha];
      try apply negb_bool_decide_false in Ha
  | ensure_user_exists _ _ = _ => apply ensure_user_exists_inv in Ha; destruct Ha as [-> Ha]
  | load_active_device_ids _ _ = _ => apply query_inv in Ha; destruct Ha as [-> Ha]; injection Ha as ->
  | query _ _ = _ => apply query_inv in Ha; destruct Ha as [-> Ha]; injection Ha as ->
  | gets _ _ = _ => apply gets_inv in Ha; destruct Ha as [-> Ha]; injection Ha as ->
  | execute _ _ = _ => apply execute_inv in Ha; destruct Ha as [-> _]
  | check_rate_limit _ _ = _ => apply (steps_run _ _ _ _ _ (quiet_check_rate_limit _)) in Ha
  | _ => idtac
  end.
