(* ===== verification/ServerAuth.v ===== *)
(** * Authentication and replay at the server ([auth.rs])

    When [verify_request_auth_any] accepts a request, what it changes, and that
    an accepted request is not accepted again: the replay cache of [lib.rs] is
    large enough for the clock skew the check tolerates, up to the two limits
    the theorem states. *)

From stdpp Require Import sorting.
From S2P Require Import Prelude Bytes Errors Tlv Crypto Toy ServerError Validation RequestAuth Caches Realtime ServerState ToyServer ServerFrame.
Local Open Scope N_scope.

(** ** The verdict *)

Section Verdict.
Context `{P : Primitives} `{V : Ed25519} `{I : HashIter}.

Definition skew_ok (now ts : Z) : bool :=
  negb (AUTH_MAX_CLOCK_SKEW_SECONDS <? i64_abs (i64_sub (timestamp now) ts))%Z.

(** The parts of the check that look at the database. *)
Definition known_signer (auth : RequestAuth) (messages : list bytes) (d : Db) : Prop :=
  ∃ row dev, users d !! ra_user_id auth = Some row ∧
    user_devices d !! (ra_user_id auth, ra_device_id auth) = Some dev ∧ d_active dev = true ∧
    ∃ m, m ∈ messages ∧
      verify_ed25519_signature (u_identity_sig_pub row) (ra_signature auth) m AUTH_HEADER_SIGNATURE = Ok tt.

(** A branch that returns an error. *)
Local Ltac refused :=
  cbv beta iota; split; [done|]; split; [done|];
  intros; repeat match goal with
                 | H : _ ∧ _ |- _ => destruct H
                 | H : ∃ _, _ |- _ => destruct H
                 end; congruence.

Lemma verify_request_auth_any_spec (auth : RequestAuth) (messages : list bytes) (s : AppState) :
  let '(c, fresh) := observe (ra_user_id auth) (ra_nonce auth) (st_instant s) (st_auth_replay s) in
  let '(s', r) := verify_request_auth_any auth messages s in
  s' = (if skew_ok (st_utc s) (ra_timestamp auth) then set_auth_replay c s else s) ∧
  (r = Ok tt ↔ skew_ok (st_utc s) (ra_timestamp auth) = true ∧ fresh = true ∧
     known_signer auth messages (st_db s)).
Proof.
  unfold verify_request_auth_any, skew_ok, observe_nonce, reject_if, query, gets, sm_bind, fail, sm_err, sm_ret.
  destruct (observe _ _ _ _) as [c fresh] eqn:Eo.
  destruct (AUTH_MAX_CLOCK_SKEW_SECONDS <? _)%Z; cbn [negb]; [refused|].
  cbv beta iota. rewrite Eo.
  destruct fresh; cbn [negb]; [|refused]. cbv beta iota. cbn [st_db set_auth_replay].
  unfold known_signer. destruct (users (st_db s) !! ra_user_id auth) as [row|]; [|refused].
  cbv beta iota. cbn [st_db set_auth_replay].
  destruct (user_devices (st_db s) !! _) as [dev|]; [|refused].
  destruct (d_active dev) eqn:Ed; cbn [negb]; [|refused]. cbv beta iota.
  destruct (existsb _ messages) eqn:Ee; cbn [negb].
  - apply existsb_exists in Ee as (m & Hm%list_elem_of_In & Hv).
    split; [done|]. split; [|done]. intros _. split_and!; [done..|].
    exists row, dev. split_and!; [done..|]. exists m. split; [done|].
    by destruct (verify_ed25519_signature _ _ m _) as [[]|].
  - split; [done|]. split; [done|]. intros (_ & _ & row' & dev' & [= <-] & [= <-] & _ & m & Hm & Hv).
    exfalso. apply not_true_iff_false in Ee. apply Ee, existsb_exists. exists m.
    rewrite Hv. split; [by apply list_elem_of_In|done].
Qed.
Lemma verify_request_auth_signed (auth : RequestAuth) (message : bytes) (s s' : AppState) :
  verify_request_auth auth message s = (s', Ok tt) → known_signer auth [message] (st_db s).
Proof.
  intros E. pose proof (verify_request_auth_any_spec auth [message] s) as Hspec.
  destruct (observe _ _ _ _) as [c fresh]. unfold verify_request_auth in E. rewrite E in Hspec.
  by destruct Hspec as [_ (_ & _ & Hk)%proj1].
Qed.
End Verdict.

(** ** Histories of authenticated requests *)

Record Attempt := mkAttempt {
  at_utc : Z;
  at_instant : N;
  at_auth : RequestAuth;
  at_accepted : bool;
}.

Section History.
Context `{P : Primitives} `{V : Ed25519} `{I : HashIter}.

(** A sequence of requests as the server sees them. Between two of them
    everything but the replay cache may change: users register, devices are
    revoked, clocks advance. *)
Inductive auth_history : AuthReplayCache → list Attempt → Prop :=
| history_nil c : auth_history c []
| history_cons s s' auth messages r l :
    verify_request_auth_any auth messages s = (s', r) →
    auth_history (st_auth_replay s') l →
    auth_history (st_auth_replay s) (mkAttempt (st_utc s) (st_instant s) auth (is_ok r) :: l).

Definition attempt_entry (a : Attempt) : N * bytes :=
  (at_instant a, ra_user_id (at_auth a) ++ lit ":" ++ ra_nonce (at_auth a)).

Context `{!HashIterLaws I}.

Lemma attempt_preserves (s s' : AppState) (auth : RequestAuth) (messages : list bytes) (r : app unit)
    (log : list (N * bytes)) (now : N) :
  verify_request_auth_any auth messages s = (s', r) →
  replay_inv (st_auth_replay s) log now → now ≤ st_instant s →
  let a := mkAttempt (st_utc s) (st_instant s) auth (is_ok r) in
  arc_max_entries (st_auth_replay s') = arc_max_entries (st_auth_replay s) ∧
  arc_ttl (st_auth_replay s') = arc_ttl (st_auth_replay s) ∧
  ∃ log', log' `sublist_of` [attempt_entry a] ∧
    replay_inv (st_auth_replay s') (log ++ log') (st_instant s) ∧
    (is_ok r = true → log' = [attempt_entry a] ∧
       skew_ok (st_utc s) (ra_timestamp auth) = true ∧
       ∀ t, (t, (attempt_entry a).2) ∈ log → st_instant s - t ≤ arc_ttl (st_auth_replay s) →
         arc_max_entries (st_auth_replay s) < since_count t log).
Proof.
  intros Hv Hinv Hnow a. pose proof (verify_request_auth_any_spec auth messages s) as Hspec.
  rewrite Hv in Hspec. unfold observe in Hspec.
  destruct (observe_in_memory _ _ _) as [c fresh] eqn:Eo. destruct Hspec as [-> Hr].
  destruct (observe_preserves _ _ _ _ _ _ _ Hinv Hnow Eo) as (Hmax & Httl & Hinv' & Hfresh).
  destruct (skew_ok (st_utc s) (ra_timestamp auth)) eqn:Es; cbn [st_auth_replay set_auth_replay].
  - split_and!; [done..|]. destruct fresh.
    + exists [attempt_entry a]. split_and!; [done..|]. intros _. split_and!; [done..|].
      intros t Ht. by apply Hfresh.
    + exists []. split_and!; [apply sublist_nil_l|by rewrite app_nil_r|].
      intros Hok. destruct r as [[]|]; [|done]. by destruct (proj1 Hr eq_refl) as (_ & ? & _).
  - split_and!; [done..|]. exists []. split_and!; [apply sublist_nil_l| |].
    + rewrite app_nil_r. destruct Hinv as [Hs Hp Hc]. split; [done| |].
      * intros e He. specialize (Hp e He). lia.
      * intros t k Hin Hdue. apply Hc; [done|lia].
    + intros Hok. destruct r as [[]|]; [|done]. by destruct (proj1 Hr eq_refl) as (? & _).
Qed.

Lemma history_inv (l rest : list Attempt) (c : AuthReplayCache) (log : list (N * bytes)) (now : N) :
  auth_history c (l ++ rest) → replay_inv c log now →
  StronglySorted N.le (now :: (at_instant <$> l)) →
  ∃ c' log', auth_history c' rest ∧
    arc_max_entries c' = arc_max_entries c ∧ arc_ttl c' = arc_ttl c ∧
    log' `sublist_of` (attempt_entry <$> l) ∧
    replay_inv c' (log ++ log') (default now (at_instant <$> list.last l)).
Proof.
  revert c log now. induction l as [|a l IH]; intros c log now Hh Hinv Hs.
  { exists c, []. rewrite app_nil_r. split_and!; try done. }
  inversion Hh as [|s s' auth messages r l' Hv Hrest Heq1 Heq2]; subst.
  apply StronglySorted_inv in Hs as [Hs Hle]. apply list.Forall_cons in Hle as [Hnow _].
  cbn [at_instant] in Hnow.
  destruct (attempt_preserves _ _ _ _ _ _ _ Hv Hinv Hnow) as (Hmax & Httl & log1 & Hsub1 & Hinv1 & _).
  destruct (IH _ _ _ Hrest Hinv1 Hs) as (c' & log2 & Hh' & Hmax' & Httl' & Hsub2 & Hinv2).
  exists c', (log1 ++ log2). rewrite Hmax', Httl', app_assoc. split_and!; try done.
  - rewrite fmap_cons. by apply (sublist_app _ [_]).
  - destruct l as [|b l]; [exact Hinv2|].
    change (list.last (?x :: b :: l)) with (list.last (b :: l)).
    destruct (list.last (b :: l)) eqn:El; [exact Hinv2|].
    by apply last_None in El.
Qed.

(** The verdict on one attempt of a history that is accepted. *)
Lemma history_accepted (l rest : list Attempt) (a : Attempt) (c : AuthReplayCache)
    (log : list (N * bytes)) (now : N) :
  auth_history c (l ++ a :: rest) → replay_inv c log now →
  StronglySorted N.le (now :: (at_instant <$> l ++ [a])) → at_accepted a = true →
  skew_ok (at_utc a) (ra_timestamp (at_auth a)) = true ∧
  ∃ c' log', auth_history c' rest ∧
    arc_max_entries c' = arc_max_entries c ∧ arc_ttl c' = arc_ttl c ∧
    log' `sublist_of` (attempt_entry <$> l) ∧
    replay_inv c' (log ++ log' ++ [attempt_entry a]) (at_instant a) ∧
    ∀ t, (t, (attempt_entry a).2) ∈ log ++ log' → at_instant a - t ≤ arc_ttl c →
      arc_max_entries c < since_count t (log ++ log').
Proof.
  intros Hh Hinv Hs Ha. rewrite fmap_app in Hs. pose proof Hs as Hs'.
  rewrite app_comm_cons in Hs. apply StronglySorted_app in Hs as (Hle & Hl & _).
  destruct (history_inv _ _ _ _ _ Hh Hinv Hl) as (c' & log' & Hh' & Hmax & Httl & Hsub & Hinv').
  inversion Hh' as [|s s' auth messages r l' Hv Hrest Heq1 Heq2]; subst. cbn [at_accepted] in Ha.
  assert (Hnow : default now (at_instant <$> list.last l) ≤ st_instant s).
  { apply Hle; [|set_solver]. rewrite <- fmap_last.
    destruct (list.last (at_instant <$> l)) eqn:El; simpl; [|set_solver].
    apply last_Some_elem_of in El. set_solver. }
  destruct (attempt_preserves _ _ _ _ _ _ _ Hv Hinv' Hnow) as (Hmax' & Httl' & log2 & _ & Hinv2 & Hok).
  destruct (Hok Ha) as (-> & Hskew & Hdup). split; [done|].
  exists (st_auth_replay s'), log'. rewrite app_assoc. split_and!; try done; try congruence.
  rewrite <- Hmax, <- Httl. exact Hdup.
Qed.

Lemma since_count_attempts (t : N) (log : list (N * bytes)) (l : list Attempt) :
  log `sublist_of` (attempt_entry <$> l) →
  since_count t log ≤ N.of_nat (length (filter (λ x, t ≤ at_instant x) l)).
Proof.
  unfold since_count. revert log. induction l as [|x l IH]; intros log Hsub.
  { apply sublist_nil_r in Hsub as ->. done. }
  rewrite fmap_cons in Hsub. rewrite list.filter_cons.
  apply sublist_cons_r in Hsub as [Hsub|(log' & -> & Hsub)]; specialize (IH _ Hsub).
  - case_decide; simpl; lia.
  - rewrite list.filter_cons. cbn [attempt_entry fst]. case_decide; simpl; lia.
Qed.

(** ** Clock skew *)

Lemma skew_ok_bound (now ts : Z) :
  (AUTH_MAX_CLOCK_SKEW_SECONDS < timestamp now < 2 ^ 62)%Z → is_i64 ts →
  skew_ok now ts = true →
  (Z.abs (timestamp now - ts) ≤ AUTH_MAX_CLOCK_SKEW_SECONDS ∨ timestamp now - ts = 2 ^ 63)%Z.
Proof.
  unfold skew_ok, i64_abs, i64_sub, i64_wrap, AUTH_MAX_CLOCK_SKEW_SECONDS, is_i64, i64_min, i64_max.
  intros Hn Ht H. bool_to_prop. apply Z.ltb_ge in H.
  set (d := (timestamp now - ts)%Z) in *. change (2 ^ 62)%Z with 4611686018427387904%Z in *.
  change (2 ^ 63)%Z with 9223372036854775808%Z in *. change (2 ^ 64)%Z with 18446744073709551616%Z in *.
  destruct (decide (d < 9223372036854775808)%Z) as [Hd|Hd].
  - rewrite (Z.mod_small (d + _)) in H by lia.
    replace (d + 9223372036854775808 - 9223372036854775808)%Z with d in H by lia.
    rewrite Z.mod_small in H by lia. left. lia.
  - right. destruct (decide (d = 9223372036854775808)%Z) as [|Hne]; [done|]. exfalso.
    assert (Hw : ((d + 9223372036854775808) mod 18446744073709551616 = d - 9223372036854775808)%Z).
    { symmetry. apply (Z.mod_unique _ _ 1); lia. }
    rewrite Hw in H. rewrite Z.mod_small in H by lia. lia.
Qed.
End History.

(** C11: An accepted request is not accepted again. Take any history of
    authenticated requests, with registrations and revocations in between,
    against the replay cache the server starts with. If two accepted requests
    carry the same user, nonce and timestamp, then either more than 100,000
    requests were made since the first, or the second came between 600 and
    601 seconds after it: the nonce is remembered for 600 seconds, while the
    skew check, which compares whole seconds, tolerates a timestamp for almost
    601. *)
Theorem replay_refused (P : Primitives) (V : Ed25519) (I : HashIter) (IL : HashIterLaws I)
    (l1 l2 l3 : list Attempt) (a b : Attempt) :
  let c := AuthReplayCache_new AUTH_REPLAY_MAX_ENTRIES (AUTH_REPLAY_WINDOW_SECONDS * 1000000000) in
  auth_history c (l1 ++ a :: l2 ++ b :: l3) →
  StronglySorted N.le (at_instant <$> l1 ++ a :: l2 ++ [b]) →
  at_accepted a = true → at_accepted b = true →
  ra_user_id (at_auth a) = ra_user_id (at_auth b) → ra_nonce (at_auth a) = ra_nonce (at_auth b) →
  ra_timestamp (at_auth a) = ra_timestamp (at_auth b) → is_i64 (ra_timestamp (at_auth a)) →
  (AUTH_MAX_CLOCK_SKEW_SECONDS < timestamp (at_utc a) < 2 ^ 62)%Z →
  (AUTH_MAX_CLOCK_SKEW_SECONDS < timestamp (at_utc b) < 2 ^ 62)%Z →
  (at_utc b - at_utc a = Z.of_N (at_instant b) - Z.of_N (at_instant a))%Z →
  AUTH_REPLAY_MAX_ENTRIES < N.of_nat (length (filter (λ x, at_instant a ≤ at_instant x) (l1 ++ a :: l2))) ∨
  (600 * NANOS < at_utc b - at_utc a < 601 * NANOS)%Z.
Proof.
  intros c Hh Hs Ha Hb Hu Hn Hts Hi Hua Hub Hstep.
  assert (Hinv : replay_inv c [] 0) by (split; [done|set_solver|set_solver]).
  change (a :: l2 ++ [b]) with ([a] ++ l2 ++ [b]) in Hs. rewrite app_assoc, fmap_app in Hs.
  pose proof Hs as (Hle & Hs1 & Hs2)%StronglySorted_app.
  assert (Hs1' : StronglySorted N.le (0 :: (at_instant <$> l1 ++ [a]))).
  { constructor; [done|]. apply list.Forall_forall. intros. lia. }
  destruct (history_accepted _ _ _ _ _ _ Hh Hinv Hs1' Ha) as (Hka & c1 & log1 & Hh1 & Hm1 & Ht1 & Hsub1 & Hinv1 & _).
  assert (Hs2' : StronglySorted N.le (at_instant a :: (at_instant <$> l2 ++ [b]))).
  { constructor; [done|]. apply list.Forall_forall. intros x Hx. apply Hle; set_solver. }
  destruct (history_accepted _ _ _ _ _ _ Hh1 Hinv1 Hs2' Hb) as (Hkb & _ & log2 & _ & _ & _ & Hsub2 & _ & Hdup).
  rewrite Hm1, Ht1 in Hdup. specialize (Hdup (at_instant a)).
  assert (Hin : (at_instant a, (attempt_entry b).2) ∈ ([] ++ log1 ++ [attempt_entry a]) ++ log2).
  { unfold attempt_entry at 1. cbn [snd]. rewrite <- Hu, <- Hn. fold (attempt_entry a). set_solver. }
  specialize (Hdup Hin). change (arc_ttl c) with 600000000000 in Hdup.
  assert (Hab : at_instant a ≤ at_instant b) by (apply Hle; set_solver).
  destruct (decide (at_instant b - at_instant a ≤ 600000000000)) as [Hg|Hg].
  - left. eapply N.lt_le_trans; [apply (Hdup Hg)|]. apply since_count_attempts.
    rewrite fmap_app, fmap_cons, app_nil_l, <- app_assoc. apply sublist_app; [done|].
    by apply (sublist_app _ [_]).
  - right. rewrite <- Hts in Hkb. pose proof (timestamp_bounds (at_utc a)). pose proof (timestamp_bounds (at_utc b)).
    destruct (skew_ok_bound _ _ Hua Hi Hka) as [Hba|Hba], (skew_ok_bound _ _ Hub Hi Hkb) as [Hbb|Hbb].
    all: unfold AUTH_MAX_CLOCK_SKEW_SECONDS, NANOS in *; lia.
Qed.

Lemma replay_refused_witness :
  let ts := 1000%Z in
  let auth := toy_auth (lit "alice") (lit "d1") 101 ts (lit "n1") (λ a, inbox_auth_message a (lit "alice") 0) in
  let msg := match inbox_auth_message auth (lit "alice") 0 with Ok m => m | Err _ => [] end in
  let s1 := toy_state 700000000000 1000000000 toy_db in
  let s2 := set_clock 1300999500000 601999500000 (verify_request_auth auth msg s1).1 in
  (verify_request_auth auth msg s1).2 = Ok tt ∧ (verify_request_auth auth msg s2).2 = Ok tt ∧
  (AUTH_REPLAY_MAX_ENTRIES < 1 ∨ (600 * NANOS < 1300999500000 - 700000000000 < 601 * NANOS)%Z).
Proof.
  intros ts auth msg s1 s2.
  assert (E1 : (verify_request_auth auth msg s1).2 = Ok tt) by (vm_compute; reflexivity).
  assert (E2 : (verify_request_auth auth msg s2).2 = Ok tt) by (vm_compute; reflexivity).
  split; [exact E1|]. split; [exact E2|].
  pose (a := mkAttempt 700000000000 1000000000 auth true).
  pose (b := mkAttempt 1300999500000 601999500000 auth true).
  assert (Hh : auth_history (st_auth_replay s1) [a; b]).
  { destruct (verify_request_auth auth msg s1) as [s1' r1] eqn:F1.
    destruct (verify_request_auth auth msg s2) as [s2' r2] eqn:F2. simpl in E1, E2. subst r1 r2.
    refine (history_cons s1 s1' auth [msg] (Ok tt) [b] F1 _).
    refine (history_cons s2 s2' auth [msg] (Ok tt) [] F2 _). constructor. }
  destruct (replay_refused Toy ToyEd MapOrder MapOrderLaws [] [] [] a b Hh) as [H|H];
    [repeat constructor; vm_compute; discriminate|done..|vm_compute; split; discriminate| | |done|left|right].
  - vm_compute; split; reflexivity.
  - vm_compute; split; reflexivity.
  - exact H.
  - exact H.
Defined.
