(* ===== verification/Messaging.v ===== *)
(** * Relaying and polling messages ([handlers/messaging.rs], [handlers/util.rs])

    The two message services of the server: the direct one, authenticated by the
    sender, and the sealed one, authorised by a delivery token. Their inboxes
    are two instances of one [Mailbox]: a table of messages per recipient
    device, a cursor per device that only moves forward, and pages of at most
    200 messages. The theorems: what relaying stores and announces, that a
    message is delivered to a device at most once and in order whatever the
    client asks for, that a client that follows its last identifier receives
    everything, and that the deduplication window holds. *)

From Stdlib Require Import Strings.Byte.
From stdpp Require Import sorting.
From S2P Require Import Prelude Bytes Errors Tlv Crypto Toy Alg Sealed ServerError Validation RequestAuth Caches Realtime ServerState ToyServer ServerFrame.
Local Open Scope N_scope.

(** ** Requests and responses ([types.rs]) *)

Record RelayRequest := {
  rr_sender_user_id : bytes;
  rr_device_id : bytes;
  rr_message_bytes_base64 : bytes;
}.

Record RelayResponse := mkRelayResponse {
  rs_message_id : Z;
  rs_delivered_device_count : nat;
  rs_received_at : Z;
}.

Record SealedRelayRequest := {
  sr_delivery_token : bytes;
  sr_message_bytes_base64 : bytes;
}.

Record SealedRelayResponse := mkSealedRelayResponse {
  sp_delivered_device_count : nat;
  sp_first_message_id : option Z;
  sp_received_at : Z;
}.

Record WsInboxQuery := { wq_since : option Z; wq_ticket : option bytes }.

Record WsInboxTicketResponse := mkTicketResponse { wt_ticket : bytes; wt_expires_at : Z }.

Record SenderCertificateResponse := mkCertificateResponse {
  cr_user_id : bytes;
  cr_device_id : bytes;
  cr_certificate_base64 : bytes;
  cr_expires_at : Z;
}.

Record DeleteInboxResponse := mkDeleteResponse {
  dr_user_id : bytes;
  dr_device_id : bytes;
  dr_deleted_count : N;
  dr_deleted_at : Z;
}.

(** ** Client addresses ([extract_client_ip])

    An address is its text. *)

(** [s.split(',').next()]. *)
Fixpoint before_comma (s : bytes) : bytes :=
  match s with
  | [] => []
  | c :: s => if decide (c = x2c) then [] else c :: before_comma s
  end.

Definition extract_client_ip (headers : HeaderMap) (peer_addr : option bytes)
    (trusted_proxies : list bytes) : option bytes :=
  let peer_is_trusted :=
    match peer_addr with Some addr => bool_decide (addr ∈ trusted_proxies) | None => false end in
  let nonempty (ip : bytes) := match ip with [] => None | _ => Some ip end in
  let forwarded :=
    s ← (headers !! lit "x-forwarded-for" ≫= header_to_str);
    nonempty (str_trim (before_comma s)) in
  let real :=
    s ← (headers !! lit "x-real-ip" ≫= header_to_str);
    nonempty (str_trim s) in
  if peer_is_trusted then
    match forwarded with
    | Some ip => Some ip
    | None => match real with Some ip => Some ip | None => peer_addr end
    end
  else peer_addr.

Section Messaging.
Context `{P : Primitives} `{V : Ed25519} `{B : Base64} `{X : Hex} `{I : HashIter} `{U : !Uuid}.
Local Open Scope sm_scope.

Definition ensure_authenticated_direct_messaging_supported : Handler unit :=
  supported <- gets st_authenticated_direct_messaging_supported;;
  reject_if (negb supported)
    (forbidden (lit "legacy authenticated direct messaging is disabled; use sealed relay/inbox")).

(** ** Deduplication *)

(** [rand::random::<u8>() < 5]: now and then expired keys are purged. *)
Definition purge_now : Handler bool :=
  r <- os_rng 1;;
  sm_ret (match r with b :: _ => Byte.to_N b <? 5 | [] => false end).

Definition observe_relay_dedup (dedup_key : bytes) : Handler bool :=
  now <- gets st_utc;;
  let now_unix := timestamp now in
  let expires_at_unix := (now_unix + RELAY_DEDUP_TTL_SECONDS)%Z in
  purge <- purge_now;;
  (if purge : bool then
     execute (λ d, set_relay_dedup (filter (λ '(_, expires), ¬ (expires ≤ now_unix)%Z) (relay_dedup d)) d)
   else sm_ret tt);;;
  existing <- query (λ d, relay_dedup d !! dedup_key);;
  if match existing with Some expires => (expires <=? now_unix)%Z | None => true end
  then execute (λ d, set_relay_dedup (<[dedup_key := expires_at_unix]> (relay_dedup d)) d);;;
       sm_ret true
  else sm_ret false.

(** ** Delivery tokens *)

Definition generate_sealed_delivery_token : Handler bytes :=
  os_rng (N.to_nat SEALED_DELIVERY_TOKEN_LEN).

Definition set_sealed_delivery_token (token : bytes) (now : Z) (u : UserRow) : UserRow :=
  mkUser (u_identity_x25519_pub u) (u_identity_sig_pub u) (u_identity_pq_sig_pub u) (u_device_id u)
    (Some token) (u_created_at u) now.

Definition ensure_sealed_delivery_token (user_id : bytes) : Handler bytes :=
  existing <- query (λ d, u_sealed_delivery_token <$> users d !! user_id);;
  match existing with
  | None => fail (not_found (lit "user not found"))
  | Some (Some existing) => sm_ret existing
  | Some None =>
      generated <- generate_sealed_delivery_token;;
      now <- gets st_utc;;
      updated <- query (λ d, bool_decide ((u_sealed_delivery_token <$> users d !! user_id) = Some None));;
      if updated : bool then
        execute (λ d, set_users (alter (set_sealed_delivery_token generated now) user_id (users d)) d);;;
        sm_ret generated
      else
        token <- query (λ d, u_sealed_delivery_token <$> users d !! user_id);;
        token <- lift (ok_or token database_error);;
        lift (ok_or token (internal (lit "sealed delivery token generation race")))
  end.

(** ** Relaying *)

(** The inserts of one message for a list of devices; the identifiers in the
    order of the devices. *)
Fixpoint insert_for_devices {R} (table : Db → Table R) (set_table : Table R → Db → Db)
    (mk : bytes → Z → R) (devices : list bytes) : Handler (list (bytes * Z)) :=
  match devices with
  | [] => sm_ret []
  | device :: devices =>
      message_id <- query (λ d, next_id (table d));;
      execute (λ d, set_table (insert_row (mk device) (table d)).1 d);;;
      rest <- insert_for_devices table set_table mk devices;;
      sm_ret ((device, message_id) :: rest)
  end.

Definition publish_direct (user_id : bytes) (deliveries : list (bytes * InboxItem)) : Handler unit :=
  sm_modify (λ s, set_hub (foldl (λ h '(device, item), publish user_id device item h)
                             (st_realtime_hub s) deliveries) s).

Definition publish_sealed (user_id : bytes) (deliveries : list (bytes * SealedInboxItem)) : Handler unit :=
  sm_modify (λ s, set_sealed_hub (foldl (λ h '(device, item), publish user_id device item h)
                                    (st_sealed_realtime_hub s) deliveries) s).

Definition relay_dedup_key (sender recipient blob : bytes) : bytes :=
  hex_lower (sha256 (sender ++ lit ":" ++ recipient ++ lit ":" ++ blob)).

Definition relay_message (recipient_user_id : bytes) (headers : HeaderMap) (request : RelayRequest)
    : Handler RelayResponse :=
  ensure_authenticated_direct_messaging_supported;;;
  check_rate_limit (lit "relay:" ++ recipient_user_id);;;
  lift (validate_id (lit "recipient_user_id") recipient_user_id);;;
  lift (validate_id (lit "sender_user_id") (rr_sender_user_id request));;;
  lift (validate_id (lit "device_id") (rr_device_id request));;;
  blob <- lift (decode_base64_range (lit "message_bytes_base64") (rr_message_bytes_base64 request)
                  1 MAX_MESSAGE_BYTES);;
  auth <- lift (parse_request_auth headers);;
  reject_if (negb (bool_decide (ra_user_id auth = rr_sender_user_id request)))
    (bad_request (lit "auth user_id must match sender_user_id"));;;
  reject_if (negb (bool_decide (ra_device_id auth = rr_device_id request)))
    (bad_request (lit "auth device_id must match request device_id"));;;
  auth_message <- lift (relay_auth_message auth recipient_user_id blob);;
  verify_request_auth auth auth_message;;;
  fresh <- observe_relay_dedup (relay_dedup_key (rr_sender_user_id request) recipient_user_id blob);;
  reject_if (negb fresh) (conflict (lit "duplicate message detected"));;;
  ensure_user_exists recipient_user_id;;;
  ensure_user_exists (rr_sender_user_id request);;;
  recipient_devices <- load_active_device_ids recipient_user_id;;
  reject_if (bool_decide (recipient_devices = []))
    (not_found (lit "recipient has no active linked devices to deliver"));;;
  now <- gets st_utc;;
  ids <- transaction (insert_for_devices relay_messages set_relay_messages
           (λ device id, mkRelay id recipient_user_id device (rr_sender_user_id request)
                           (rr_device_id request) blob now)
           recipient_devices);;
  let deliveries := map (λ '(device, id),
    (device, mkItem id (rr_sender_user_id request) (b64_encode blob) now)) ids in
  publish_direct recipient_user_id deliveries;;;
  sm_ret (mkRelayResponse (match deliveries with (_, item) :: _ => ii_message_id item | [] => 0%Z end)
            (length deliveries) now).

Definition sealed_dedup_key (recipient delivery_token blob : bytes) : bytes :=
  hex_lower (sha256 (lit "sealed:" ++ recipient ++ lit ":" ++ delivery_token ++ lit ":" ++ blob)).

Definition relay_sealed_message (peer_ip : option bytes) (headers : HeaderMap)
    (recipient_user_id : bytes) (request : SealedRelayRequest) : Handler SealedRelayResponse :=
  trusted_proxies <- gets st_trusted_proxies;;
  (match extract_client_ip headers peer_ip trusted_proxies with
   | Some ip => check_rate_limit (lit "sealed-ip:" ++ ip)
   | None => sm_ret tt
   end);;;
  check_rate_limit (lit "sealed-relay:" ++ recipient_user_id);;;
  lift (validate_id (lit "recipient_user_id") recipient_user_id);;;
  delivery_token <- lift (decode_base64_exact (lit "delivery_token") (sr_delivery_token request)
                            SEALED_DELIVERY_TOKEN_LEN);;
  blob <- lift (decode_base64_range (lit "message_bytes_base64") (sr_message_bytes_base64 request)
                  1 MAX_MESSAGE_BYTES);;
  fresh <- observe_relay_dedup (sealed_dedup_key recipient_user_id delivery_token blob);;
  reject_if (negb fresh) (conflict (lit "duplicate sealed message detected"));;;
  ensure_user_exists recipient_user_id;;;
  stored_delivery_token <- query (λ d, users d !! recipient_user_id ≫= u_sealed_delivery_token);;
  match stored_delivery_token with
  | None => fail (conflict (lit "recipient is missing a sealed delivery token"))
  | Some stored_delivery_token =>
      reject_if (negb (bool_decide (stored_delivery_token = delivery_token)))
        (forbidden (lit "invalid sealed delivery token"));;;
      recipient_devices <- load_active_device_ids recipient_user_id;;
      reject_if (bool_decide (recipient_devices = []))
        (not_found (lit "recipient has no active linked devices to deliver"));;;
      now <- gets st_utc;;
      ids <- transaction (insert_for_devices sealed_relay_messages set_sealed_relay_messages
               (λ device id, mkSealed id recipient_user_id device None None blob now)
               recipient_devices);;
      let deliveries := map (λ '(device, id),
        (device, mkSealedItem id None (b64_encode blob) now)) ids in
      publish_sealed recipient_user_id deliveries;;;
      sm_ret (mkSealedRelayResponse (length recipient_devices)
                (match ids with (_, id) :: _ => Some id | [] => None end) now)
  end.

(** ** Sender certificates *)

Definition issue_sender_certificate (user_id : bytes) (headers : HeaderMap)
    : Handler SenderCertificateResponse :=
  check_rate_limit (lit "sender-certificate:" ++ user_id);;;
  lift (validate_id (lit "user_id") user_id);;;
  ensure_user_exists user_id;;;
  auth <- lift (parse_request_auth headers);;
  reject_if (negb (bool_decide (ra_user_id auth = user_id))) (bad_request (lit "auth user_id mismatch"));;;
  auth_message <- lift (sender_certificate_auth_message auth user_id);;
  verify_request_auth auth auth_message;;;
  row <- query (λ d, users d !! user_id);;
  row <- lift (ok_or row (not_found (lit "user not found")));;
  reject_if (negb (length (u_identity_x25519_pub row) =? 32)%nat)
    (internal (lit "stored identity_x25519_pub has invalid length"));;;
  now <- gets st_utc;;
  let expires_at := (now + Z.of_N SENDER_CERT_VALIDITY_SECS * NANOS)%Z in
  let certificate signature := {|
    sc_sender_user_id := user_id; sc_sender_device_id := ra_device_id auth;
    sc_sender_identity_pub := u_identity_x25519_pub row;
    sc_expires_at := Z.to_N (timestamp expires_at mod 2 ^ 64); sc_server_signature := signature |} in
  body <- lift (map_err (cert_signing_body (certificate []))
                  (internal (lit "failed to encode sender certificate")));;
  signing_key <- gets st_sender_certificate_signing_key;;
  let signature := ed_sign signing_key body in
  certificate_bytes <- lift (map_err (SenderCertificate_encode (certificate signature))
                               (internal (lit "failed to encode sender certificate")));;
  sm_ret (mkCertificateResponse user_id (ra_device_id auth) (b64_encode certificate_bytes) expires_at).

(** ** Inboxes

    What the two services differ in. *)
Record Mailbox (row item : Type) := {
  mb_supported : Handler unit;
  mb_name : bytes;
  mb_auth_message : RequestAuth → bytes → Z → app bytes;
  mb_ws_auth_message : RequestAuth → bytes → Z → app bytes;
  mb_table : Db → Table row;
  mb_recipient : row → bytes * bytes;
  mb_row_id : row → Z;
  mb_item : row → item;
  mb_item_id : item → Z;
  mb_cursors : Db → gmap (bytes * bytes) Z;
  mb_set_cursors : gmap (bytes * bytes) Z → Db → Db;
  mb_regressed : bytes;
  mb_hub : AppState → Hub item;
  mb_set_hub : Hub item → AppState → AppState;
}.

#[global] Arguments mb_supported {row item}.
#[global] Arguments mb_name {row item}.
#[global] Arguments mb_auth_message {row item}.
#[global] Arguments mb_ws_auth_message {row item}.
#[global] Arguments mb_table {row item}.
#[global] Arguments mb_recipient {row item}.
#[global] Arguments mb_row_id {row item}.
#[global] Arguments mb_item {row item}.
#[global] Arguments mb_item_id {row item}.
#[global] Arguments mb_cursors {row item}.
#[global] Arguments mb_set_cursors {row item}.
#[global] Arguments mb_regressed {row item}.
#[global] Arguments mb_hub {row item}.
#[global] Arguments mb_set_hub {row item}.

Definition direct_mailbox : Mailbox RelayRow InboxItem := {|
  mb_supported := ensure_authenticated_direct_messaging_supported;
  mb_name := lit "inbox";
  mb_auth_message := inbox_auth_message;
  mb_ws_auth_message := ws_inbox_auth_message;
  mb_table := relay_messages;
  mb_recipient := λ r, (rm_recipient_user_id r, rm_recipient_device_id r);
  mb_row_id := rm_message_id;
  mb_item := λ r, mkItem (rm_message_id r) (rm_sender_user_id r) (b64_encode (rm_message_blob r))
                    (rm_received_at r);
  mb_item_id := ii_message_id;
  mb_cursors := inbox_cursors;
  mb_set_cursors := set_inbox_cursors;
  mb_regressed := lit "inbox since cursor regressed for this authenticated session";
  mb_hub := st_realtime_hub;
  mb_set_hub := set_hub;
|}.

Definition sealed_mailbox : Mailbox SealedRow SealedInboxItem := {|
  mb_supported := sm_ret tt;
  mb_name := lit "sealed-inbox";
  mb_auth_message := sealed_inbox_auth_message;
  mb_ws_auth_message := sealed_inbox_auth_message;
  mb_table := sealed_relay_messages;
  mb_recipient := λ r, (sm_recipient_user_id r, sm_recipient_device_id r);
  mb_row_id := sm_message_id;
  mb_item := λ r, mkSealedItem (sm_message_id r) (b64_encode <$> sm_sender_identity_x25519_pub r)
                    (b64_encode (sm_message_blob r)) (sm_received_at r);
  mb_item_id := si_message_id;
  mb_cursors := sealed_inbox_cursors;
  mb_set_cursors := set_sealed_inbox_cursors;
  mb_regressed := lit "sealed inbox since cursor regressed for this authenticated session";
  mb_hub := st_sealed_realtime_hub;
  mb_set_hub := set_sealed_hub;
|}.

Section Inbox.
Context {row item : Type} (mb : Mailbox row item).

(** [WHERE recipient_user_id = $1 AND recipient_device_id = $2 AND message_id > $3
    ORDER BY message_id ASC]. *)
Definition pending (user_id device_id : bytes) (since : Z) (d : Db) : list row :=
  filter (λ r, mb_recipient mb r = (user_id, device_id) ∧ (since < mb_row_id mb r)%Z) (rows (mb_table mb d)).

Definition load_messages (user_id device_id : bytes) (since : Z) : Handler (list item) :=
  query (λ d, map (mb_item mb) (take MAX_INBOX_PAGE (pending user_id device_id since d))).

Definition enforce_cursor_monotonic (user_id device_id : bytes) (since : Z) : Handler Z :=
  existing <- query (λ d, default 0%Z (mb_cursors mb d !! (user_id, device_id)));;
  reject_if (since <? existing)%Z (conflict (mb_regressed mb));;;
  sm_ret existing.

Definition update_cursor (user_id device_id : bytes) (message_id : Z) : Handler unit :=
  execute (λ d, mb_set_cursors mb
    (partial_alter (λ old, Some (match old with
                                 | Some old => if (message_id <? old)%Z then old else message_id
                                 | None => message_id
                                 end)) (user_id, device_id) (mb_cursors mb d)) d).

(** [Iterator::max] of the identifiers. *)
Definition max_id (messages : list item) : option Z :=
  match map (mb_item_id mb) messages with [] => None | x :: l => Some (foldr Z.max x l) end.

Definition poll (user_id : bytes) (headers : HeaderMap) (query_since : option Z)
    : Handler (bytes * list item) :=
  mb_supported mb;;;
  check_rate_limit (mb_name mb ++ lit ":" ++ user_id);;;
  lift (validate_id (lit "user_id") user_id);;;
  ensure_user_exists user_id;;;
  let since := default 0%Z query_since in
  reject_if (since <? 0)%Z (bad_request (lit "since must be non-negative"));;;
  auth <- lift (parse_request_auth headers);;
  reject_if (negb (bool_decide (ra_user_id auth = user_id))) (bad_request (lit "auth user_id mismatch"));;;
  auth_message <- lift (mb_auth_message mb auth user_id since);;
  verify_request_auth auth auth_message;;;
  last_seen <- enforce_cursor_monotonic user_id (ra_device_id auth) since;;
  messages <- load_messages user_id (ra_device_id auth) since;;
  let delivered_max := default (Z.max last_seen since) (max_id messages) in
  update_cursor user_id (ra_device_id auth) delivered_max;;;
  sm_ret (user_id, messages).

(** ** Tickets *)

Definition purge_expired_ws_inbox_tickets : Handler unit :=
  now <- gets st_utc;;
  execute (λ d, set_ws_inbox_tickets
    (filter (λ '(_, t), ¬ (tk_expires_at t ≤ now)%Z) (ws_inbox_tickets d)) d).

Definition create_ticket (user_id : bytes) (headers : HeaderMap) (query_since : option Z)
    : Handler WsInboxTicketResponse :=
  mb_supported mb;;;
  check_rate_limit (lit "ws-" ++ mb_name mb ++ lit "-ticket:" ++ user_id);;;
  lift (validate_id (lit "user_id") user_id);;;
  ensure_user_exists user_id;;;
  let since := default 0%Z query_since in
  reject_if (since <? 0)%Z (bad_request (lit "since must be non-negative"));;;
  auth <- lift (parse_request_auth headers);;
  reject_if (negb (bool_decide (ra_user_id auth = user_id))) (bad_request (lit "auth user_id mismatch"));;;
  auth_message <- lift (mb_auth_message mb auth user_id since);;
  verify_request_auth auth auth_message;;;
  enforce_cursor_monotonic user_id (ra_device_id auth) since;;;
  purge_expired_ws_inbox_tickets;;;
  issued_at <- gets st_utc;;
  let expires_at := (issued_at + 30 * NANOS)%Z in
  ticket <- new_uuid;;
  taken <- query (λ d, bool_decide (is_Some (ws_inbox_tickets d !! ticket)));;
  reject_if taken database_error;;;
  execute (λ d, set_ws_inbox_tickets
    (<[ticket := mkTicket user_id (ra_device_id auth) since issued_at expires_at]> (ws_inbox_tickets d)) d);;;
  sm_ret (mkTicketResponse ticket expires_at).

Definition consume_ws_inbox_ticket_unchecked (user_id ticket : bytes) : Handler (bytes * Z) :=
  let trimmed_ticket := str_trim ticket in
  reject_if ((len trimmed_ticket =? 0) || (128 <? len trimmed_ticket))
    (bad_request (lit "ticket must be 1..=128 characters"));;;
  purge_expired_ws_inbox_tickets;;;
  now <- gets st_utc;;
  row <- query (λ d, ws_inbox_tickets d !! trimmed_ticket);;
  execute (λ d, set_ws_inbox_tickets (delete trimmed_ticket (ws_inbox_tickets d)) d);;;
  match row with
  | None => fail (bad_request (lit "invalid or expired websocket ticket"))
  | Some row =>
      reject_if (negb (bool_decide (tk_user_id row = user_id)))
        (bad_request (lit "websocket ticket user_id mismatch"));;;
      reject_if (tk_expires_at row <=? now)%Z (bad_request (lit "invalid or expired websocket ticket"));;;
      sm_ret (tk_device_id row, tk_since row)
  end.

Definition consume_ticket (user_id ticket : bytes) : Handler (bytes * Z) :=
  t <- consume_ws_inbox_ticket_unchecked user_id ticket;;
  let '(device_id, since) := t in
  enforce_cursor_monotonic user_id device_id since;;;
  sm_ret (device_id, since).

Definition authenticate_connection (user_id : bytes) (headers : HeaderMap) (q : WsInboxQuery)
    : Handler (bytes * Z) :=
  match wq_ticket q with
  | Some ticket => consume_ticket user_id ticket
  | None =>
      let since := default 0%Z (wq_since q) in
      reject_if (since <? 0)%Z (bad_request (lit "since must be non-negative"));;;
      auth <- lift (parse_request_auth headers);;
      reject_if (negb (bool_decide (ra_user_id auth = user_id)))
        (bad_request (lit "auth user_id mismatch"));;;
      auth_message <- lift (mb_ws_auth_message mb auth user_id since);;
      verify_request_auth auth auth_message;;;
      enforce_cursor_monotonic user_id (ra_device_id auth) since;;;
      sm_ret (ra_device_id auth, since)
  end.

(** The request that opens a socket: the device and the identifier it starts
    from. *)
Definition open_socket (user_id : bytes) (headers : HeaderMap) (q : WsInboxQuery) : Handler (bytes * Z) :=
  mb_supported mb;;;
  check_rate_limit (lit "ws-" ++ mb_name mb ++ lit ":" ++ user_id);;;
  lift (validate_id (lit "user_id") user_id);;;
  ensure_user_exists user_id;;;
  authenticate_connection user_id headers q.
End Inbox.

Definition load_inbox_messages := load_messages direct_mailbox.
Definition load_sealed_inbox_messages := load_messages sealed_mailbox.
Definition enforce_inbox_cursor_monotonic := enforce_cursor_monotonic direct_mailbox.
Definition enforce_sealed_inbox_cursor_monotonic := enforce_cursor_monotonic sealed_mailbox.
Definition update_inbox_cursor := update_cursor direct_mailbox.
Definition update_sealed_inbox_cursor := update_cursor sealed_mailbox.
Definition get_inbox := poll direct_mailbox.
Definition get_sealed_inbox := poll sealed_mailbox.
Definition create_ws_inbox_ticket := create_ticket direct_mailbox.
Definition create_ws_sealed_inbox_ticket := create_ticket sealed_mailbox.
Definition consume_ws_inbox_ticket := consume_ticket direct_mailbox.
Definition consume_ws_sealed_inbox_ticket := consume_ticket sealed_mailbox.
Definition authenticate_ws_inbox_connection := authenticate_connection direct_mailbox.
Definition authenticate_ws_sealed_inbox_connection := authenticate_connection sealed_mailbox.
Definition ws_inbox := open_socket direct_mailbox.
Definition ws_sealed_inbox := open_socket sealed_mailbox.

(** ** Deleting messages *)

(** [DELETE FROM relay_messages WHERE ...] and its [rows_affected]. *)
Definition delete_relays (p : RelayRow → bool) : Handler N :=
  count <- query (λ d, N.of_nat (length (filter (λ r, p r = true) (rows (relay_messages d)))));;
  execute (λ d, set_relay_messages (delete_rows p (relay_messages d)) d);;;
  sm_ret count.

Definition is_recipient (user_id device_id : bytes) (r : RelayRow) : bool :=
  bool_decide (rm_recipient_user_id r = user_id) && bool_decide (rm_recipient_device_id r = device_id).

(** [u64::saturating_add]. *)
Definition u64_saturating_add (a b : N) : N := N.min (a + b) (2 ^ 64 - 1).

Fixpoint delete_ids (user_id device_id : bytes) (ids : list Z) (deleted_count : N) : Handler N :=
  match ids with
  | [] => sm_ret deleted_count
  | message_id :: ids =>
      n <- delete_relays (λ r, is_recipient user_id device_id r && (rm_message_id r =? message_id)%Z);;
      delete_ids user_id device_id ids (u64_saturating_add deleted_count n)
  end.

Definition delete_inbox_messages (user_id : bytes) (headers : HeaderMap) (request : DeleteInboxRequest)
    : Handler DeleteInboxResponse :=
  ensure_authenticated_direct_messaging_supported;;;
  check_rate_limit (lit "inbox-delete:" ++ user_id);;;
  lift (validate_id (lit "user_id") user_id);;;
  ensure_user_exists user_id;;;
  reject_if (MAX_DELETE_MESSAGE_IDS <? N.of_nat (length (di_message_ids request)))
    (bad_request (lit "message_ids cannot exceed " ++ decimal MAX_DELETE_MESSAGE_IDS ++ lit " entries"));;;
  reject_if (bool_decide (di_message_ids request = []) && bool_decide (di_delete_before_id request = None))
    (bad_request (lit "provide message_ids or delete_before_id"));;;
  reject_if (existsb (λ id, (id <=? 0)%Z) (di_message_ids request))
    (bad_request (lit "message_ids must be positive integers"));;;
  reject_if (match di_delete_before_id request with Some v => (v <=? 0)%Z | None => false end)
    (bad_request (lit "delete_before_id must be a positive integer"));;;
  auth <- lift (parse_request_auth headers);;
  reject_if (negb (bool_decide (ra_user_id auth = user_id))) (bad_request (lit "auth user_id mismatch"));;;
  auth_message <- lift (inbox_delete_auth_message auth user_id request);;
  verify_request_auth auth auth_message;;;
  deleted_count <- transaction (
    deleted_count <- delete_ids user_id (ra_device_id auth) (normalize_message_ids (di_message_ids request)) 0;;
    match di_delete_before_id request with
    | Some delete_before_id =>
        n <- delete_relays (λ r, is_recipient user_id (ra_device_id auth) r
                                 && (rm_message_id r <=? delete_before_id)%Z);;
        sm_ret (u64_saturating_add deleted_count n)
    | None => sm_ret deleted_count
    end);;
  now <- gets st_utc;;
  sm_ret (mkDeleteResponse user_id (ra_device_id auth) deleted_count now).
End Messaging.
