(* ===== verification/Delivery.v ===== *)
(** * Delivery of relayed messages

    Facts about [Messaging]: what each handler does to the two message tables
    and cursors, at-most-once delivery for any client, exactly-once in-order
    delivery for a client that follows its last identifier, draining in
    pages, the effect of a relay and the deduplication window. *)

From Stdlib Require Import Strings.Byte.
From stdpp Require Import sorting.
From S2P Require Import Prelude Bytes Errors Tlv Crypto Toy Alg Sealed ServerError Validation RequestAuth Caches Realtime ServerState ToyServer ServerFrame Messaging.
Local Open Scope N_scope.

(** ** Tables with increasing identifiers *)

Record table_wf {R} (id : R → Z) (t : Table R) : Prop := {
  wf_sorted : StronglySorted Z.lt (map id (rows t));
  wf_bound : ∀ r, r ∈ rows t → (id r < next_id t)%Z;
}.

(** What requests may do to a table: drop rows of [D], and add rows with new
    identifiers. *)
Definition table_evolves {R} (id : R → Z) (D : R → bool) (t t' : Table R) : Prop :=
  ∃ kept new, kept `sublist_of` rows t ∧
    filter (λ r, D r = false) kept = filter (λ r, D r = false) (rows t) ∧ rows t' = kept ++ new ∧
    StronglySorted Z.lt (map id new) ∧ (next_id t ≤ next_id t')%Z ∧
    ∀ r, r ∈ new → (next_id t ≤ id r < next_id t')%Z.

Lemma sublist_filter_mono {A} (Q : A → Prop) `{!∀ x, Decision (Q x)} (k l : list A) :
  k `sublist_of` l → filter Q k `sublist_of` filter Q l.
Proof.
  induction 1 as [|x k l Hs IH|x k l Hs IH]; [done|..]; rewrite !list.filter_cons; case_decide;
    try constructor; done.
Qed.

Lemma list_filter_none {A} (Q : A → Prop) `{!∀ x, Decision (Q x)} (l : list A) :
  (∀ x, x ∈ l → ¬ Q x) → filter Q l = [].
Proof.
  induction l as [|x l IH]; intros HQ; [done|]. rewrite list.filter_cons_False by set_solver.
  apply IH. set_solver.
Qed.

Lemma sublist_app_eq {A} (a b c d : list A) :
  a `sublist_of` b → c `sublist_of` d → a ++ c = b ++ d → a = b ∧ c = d.
Proof.
  intros Ha%sublist_length Hc%sublist_length E. apply app_inj_1; [|done].
  apply (f_equal length) in E. rewrite !length_app in E. lia.
Qed.

Lemma StronglySorted_sublist {A} (R : relation A) (k l : list A) :
  k `sublist_of` l → StronglySorted R l → StronglySorted R k.
Proof.
  induction 1 as [|x k l Hs IH|x k l Hs IH]; [done|..]; intros [Hl Hx]%StronglySorted_inv.
  - constructor; [by apply IH|]. apply list.Forall_forall. intros y Hy.
    rewrite list.Forall_forall in Hx. apply Hx. by eapply elem_of_sublist.
  - by apply IH.
Qed.

Lemma list_snoc_or_nil {A} (l : list A) : l = [] ∨ ∃ k x, l = k ++ [x].
Proof. induction l as [|x k _] using rev_ind; [by left|right; eauto]. Qed.

Section Tables.
Context {R : Type} (id : R → Z).

#[global] Instance table_evolves_preorder (D : R → bool) : PreOrder (table_evolves id D).
Proof.
  split.
  - intros t. exists (rows t), []. rewrite app_nil_r. split_and!; [done..|constructor|lia|set_solver].
  - intros t1 t2 t3 (k1 & n1 & Hk1 & F1 & E1 & Hs1 & Hle1 & Hn1) (k2 & n2 & Hk2 & F2 & E2 & Hs2 & Hle2 & Hn2).
    rewrite E1 in Hk2, F2. apply sublist_app_r in Hk2 as (k & n & -> & Hk & Hn).
    rewrite !list.filter_app in F2. apply sublist_app_eq in F2 as [F2 _]; [|by apply sublist_filter_mono..].
    assert (Hin : ∀ r, r ∈ n → r ∈ n1) by (intros r Hr; by eapply elem_of_sublist).
    exists k, (n ++ n2). rewrite E2, <- app_assoc. split_and!; [by etrans|congruence|done| |lia|].
    + rewrite map_app. apply StronglySorted_app_2; [|eapply StronglySorted_sublist; [|exact Hs1]|done].
      * intros x y (r & -> & Hr%Hin)%list_elem_of_fmap (r' & -> & Hr')%list_elem_of_fmap.
        destruct (Hn2 _ Hr'), (Hn1 _ Hr). lia.
      * by apply fmap_sublist.
    + intros r [Hr%Hin|Hr]%elem_of_app; [destruct (Hn1 _ Hr)|destruct (Hn2 _ Hr)]; lia.
Qed.

Lemma table_evolves_mono (D D' : R → bool) (t t' : Table R) :
  (∀ r, D r = true → D' r = true) → table_evolves id D t t' → table_evolves id D' t t'.
Proof.
  intros HD (k & n & Hk & F & Hrest). exists k, n. split; [done|]. split; [|done].
  assert (Hff : ∀ l : list R, filter (λ r, D' r = false) l = filter (λ r, D' r = false) (filter (λ r, D r = false) l)).
  { intros l. rewrite list_filter_filter. apply list_filter_iff. intros r. specialize (HD r).
    destruct (D r), (D' r); naive_solver. }
  by rewrite (Hff k), (Hff (rows t)), F.
Qed.

Lemma table_evolves_wf (D : R → bool) (t t' : Table R) :
  table_evolves id D t t' → table_wf id t → table_wf id t'.
Proof.
  intros (k & n & Hk & _ & E & Hs & Hle & Hn) [Hsort Hb]. split; rewrite E.
  - rewrite map_app. apply StronglySorted_app_2; [|eapply StronglySorted_sublist; [|exact Hsort]|done].
    + intros x y (r & -> & Hr)%list_elem_of_fmap (r' & -> & Hr')%list_elem_of_fmap.
      assert (Hr1 : r ∈ rows t) by (by eapply elem_of_sublist).
      specialize (Hb _ Hr1). destruct (Hn _ Hr'). lia.
    + by apply fmap_sublist.
  - intros r [Hr|Hr]%elem_of_app; [|by destruct (Hn _ Hr)].
    assert (Hr1 : r ∈ rows t) by (by eapply elem_of_sublist). specialize (Hb _ Hr1). lia.
Qed.

Lemma delete_rows_evolves (D p : R → bool) (t : Table R) :
  (∀ r, p r = true → D r = true) → table_evolves id D t (delete_rows p t).
Proof.
  intros Hp. exists (rows (delete_rows p t)), []. rewrite app_nil_r.
  split_and!; [apply sublist_filter| |done|constructor|simpl; lia|set_solver].
  unfold delete_rows. cbn [rows]. rewrite list_filter_filter. apply list_filter_iff. intros r.
  specialize (Hp r). destruct (p r), (D r); naive_solver.
Qed.
End Tables.

(** ** Mailboxes *)

Section Mailboxes.
Context `{P : Primitives} `{V : Ed25519} `{B : Base64} `{X : Hex} `{I : HashIter} `{U : !Uuid}.

(** What the theorems use of the two mailboxes. *)
Class MailboxLaws {row item} (mb : Mailbox row item) : Prop := {
  mb_item_of_row : ∀ r, mb_item_id mb (mb_item mb r) = mb_row_id mb r;
  mb_cursors_set : ∀ c d, mb_cursors mb (mb_set_cursors mb c d) = c;
  mb_table_set : ∀ c d, mb_table mb (mb_set_cursors mb c d) = mb_table mb d;
  mb_supported_same : ∀ s, (mb_supported mb s).1 = s;
  mb_hub_set : ∀ h s, mb_hub mb (mb_set_hub mb h s) = h;
  mb_hub_db : ∀ h s, st_db (mb_set_hub mb h s) = st_db s;
}.

Lemma direct_supported_same s : (ensure_authenticated_direct_messaging_supported s).1 = s.
Proof.
  unfold ensure_authenticated_direct_messaging_supported, gets, sm_bind, reject_if, fail, sm_err, sm_ret.
  by case_match.
Qed.

#[global] Instance direct_mailbox_laws : MailboxLaws direct_mailbox.
Proof. split; try done. apply direct_supported_same. Qed.

#[global] Instance sealed_mailbox_laws : MailboxLaws sealed_mailbox.
Proof. by split. Qed.

Section Mailbox.
Context {row item : Type} (mb : Mailbox row item) `{!MailboxLaws mb}.

Definition cursor_of (key : bytes * bytes) (d : Db) : Z := default 0%Z (mb_cursors mb d !! key).

Definition mailbox_wf (d : Db) : Prop := table_wf (mb_row_id mb) (mb_table mb d).

(** What a request may do to a mailbox: only the devices of [D] lose messages. *)
Definition mailbox_evolves (D : bytes * bytes → bool) (d d' : Db) : Prop :=
  table_evolves (mb_row_id mb) (λ r, D (mb_recipient mb r)) (mb_table mb d) (mb_table mb d') ∧
  ∀ k c, mb_cursors mb d !! k = Some c → ∃ c', mb_cursors mb d' !! k = Some c' ∧ (c ≤ c')%Z.

#[global] Instance mailbox_evolves_preorder D : PreOrder (mailbox_evolves D).
Proof.
  split.
  - intros d. split; [done|]. intros k c Hc. exists c. split; [done|lia].
  - intros d1 d2 d3 [Ht1 Hc1] [Ht2 Hc2]. split; [by etrans|]. intros k c Hc.
    destruct (Hc1 _ _ Hc) as (c' & Hc' & ?), (Hc2 _ _ Hc') as (c'' & ? & ?). exists c''. split; [done|lia].
Qed.

Lemma mailbox_evolves_cursor D (d d' : Db) (k : bytes * bytes) (c : Z) :
  mailbox_evolves D d d' → mb_cursors mb d !! k = Some c → (c ≤ cursor_of k d')%Z.
Proof. intros [_ Hc] Hk. destruct (Hc _ _ Hk) as (c' & Hc' & ?). unfold cursor_of. by rewrite Hc'. Qed.

Lemma update_cursor_evolves D (d : Db) (k : bytes * bytes) (m : Z) :
  mailbox_evolves D d (mb_set_cursors mb (partial_alter (λ old, Some (match old with
      | Some old => if (m <? old)%Z then old else m
      | None => m
      end)) k (mb_cursors mb d)) d).
Proof.
  split; [by rewrite mb_table_set|]. intros k' c Hc. rewrite mb_cursors_set.
  destruct (decide (k = k')) as [->|Hne].
  - rewrite lookup_partial_alter_eq, Hc. eexists. split; [done|]. destruct (Z.ltb_spec m c); lia.
  - rewrite lookup_partial_alter_ne by done. exists c. split; [done|lia].
Qed.

(** ** A successful poll *)

Lemma max_id_spec (l : list item) (ids : list Z) (x : Z) :
  map (mb_item_id mb) l = ids ++ [x] → StronglySorted Z.lt (ids ++ [x]) → max_id mb l = Some x.
Proof.
  unfold max_id. intros -> Hs. destruct ids as [|y ids]; [done|]. simpl. f_equal.
  simpl in Hs. apply StronglySorted_inv in Hs as [Hs Hy]. rewrite list.Forall_forall in Hy.
  assert (Hyx : (y < x)%Z) by (apply Hy; set_solver).
  apply StronglySorted_app in Hs as (Hlt & _ & _). clear Hy.
  induction ids as [|z ids IH]; simpl; [lia|]. rewrite IH by (intros; apply Hlt; set_solver).
  assert (z < x)%Z by (apply Hlt; set_solver). lia.
Qed.

Definition page (user_id device_id : bytes) (since : Z) (d : Db) : list item :=
  map (mb_item mb) (take MAX_INBOX_PAGE (pending mb user_id device_id since d)).

Lemma pending_sorted (user_id device_id : bytes) (since : Z) (d : Db) :
  mailbox_wf d → StronglySorted Z.lt (map (mb_row_id mb) (pending mb user_id device_id since d)).
Proof.
  intros [Hs _]. eapply StronglySorted_sublist; [|exact Hs]. apply fmap_sublist, sublist_filter.
Qed.

Lemma page_ids (user_id device_id : bytes) (since : Z) (d : Db) :
  map (mb_item_id mb) (page user_id device_id since d) =
  map (mb_row_id mb) (take MAX_INBOX_PAGE (pending mb user_id device_id since d)).
Proof. unfold page. rewrite map_map. apply map_ext. intros r. apply mb_item_of_row. Qed.

Lemma page_sorted (user_id device_id : bytes) (since : Z) (d : Db) :
  mailbox_wf d → StronglySorted Z.lt (map (mb_item_id mb) (page user_id device_id since d)).
Proof.
  intros Hwf. rewrite page_ids. eapply StronglySorted_sublist; [|apply pending_sorted, Hwf].
  apply fmap_sublist, sublist_take.
Qed.

Lemma page_above (user_id device_id : bytes) (since : Z) (d : Db) (x : Z) :
  x ∈ map (mb_item_id mb) (page user_id device_id since d) → (since < x)%Z.
Proof.
  rewrite page_ids. intros (r & -> & Hr)%list_elem_of_fmap.
  apply elem_of_take in Hr as (i & Hr & _). apply list_elem_of_lookup_2 in Hr.
  by apply list_elem_of_filter in Hr as [[_ ?] _].
Qed.

(** The cursor a poll leaves: the last identifier of the page, or the one asked
    for. *)
Definition next_since (since : Z) (messages : list item) : Z := default since (max_id mb messages).

Lemma next_since_spec (user_id device_id : bytes) (since : Z) (d : Db) :
  mailbox_wf d →
  let p := page user_id device_id since d in
  (since ≤ next_since since p)%Z ∧ (∀ x, x ∈ map (mb_item_id mb) p → x ≤ next_since since p)%Z ∧
  next_since since p = default since (list.last (map (mb_item_id mb) p)).
Proof.
  intros Hwf p. unfold next_since. pose proof (page_sorted user_id device_id since d Hwf) as Hs.
  pose proof (page_above user_id device_id since d) as Ha. fold p in Hs, Ha.
  destruct (list_snoc_or_nil (map (mb_item_id mb) p)) as [E|(ids & x & E)]; rewrite E in Hs, Ha |- *.
  { destruct p; [|done]. simpl. split_and!; [lia|set_solver|done]. }
  rewrite (max_id_spec p ids x E Hs), last_snoc. simpl.
  assert (since < x)%Z by (apply Ha; set_solver). split_and!; [lia| |done].
  intros y [Hy| ->%list_elem_of_singleton]%elem_of_app; [|lia].
  apply StronglySorted_app in Hs as (Hlt & _). assert (y < x)%Z by (apply Hlt; set_solver). lia.
Qed.

Lemma supported_run (s s1 : AppState) (r : app unit) : mb_supported mb s = (s1, r) → s1 = s.
Proof. intros E. pose proof (mb_supported_same s) as H. by rewrite E in H. Qed.

Lemma poll_ok (user_id : bytes) (headers : HeaderMap) (q : option Z) (s s' : AppState)
    (resp : bytes * list item) :
  poll mb user_id headers q s = (s', Ok resp) →
  let since := default 0%Z q in
  ∃ auth, parse_request_auth headers = Ok auth ∧ ra_user_id auth = user_id ∧
    (cursor_of (user_id, ra_device_id auth) (st_db s) ≤ since)%Z ∧ (0 ≤ since)%Z ∧
    resp = (user_id, page user_id (ra_device_id auth) since (st_db s)) ∧
    st_db s' = mb_set_cursors mb (partial_alter (λ old, Some (match old with
      | Some old => if (next_since since resp.2 <? old)%Z then old else next_since since resp.2
      | None => next_since since resp.2
      end)) (user_id, ra_device_id auth) (mb_cursors mb (st_db s))) (st_db s).
Proof.
  intros H since. unfold poll in H.
  run_ok H s0 u0 H0. apply supported_run in H0 as ->.
  run_ok H s1 u1 H1. apply (steps_run _ _ _ _ _ (quiet_check_rate_limit _)) in H1.
  run_ok H s2 u2 H2. apply lift_inv in H2 as [-> _].
  run_ok H s3 u3 H3. apply ensure_user_exists_inv in H3 as [-> _]. fold since in H.
  run_ok H s4 u4 H4. apply reject_if_inv in H4 as [-> Hneg].
  run_ok H s5 auth H5. apply lift_inv in H5 as [-> Hauth]. exists auth.
  run_ok H s6 u6 H6. apply reject_if_inv in H6 as [-> Hu].
  run_ok H s7 m H7. apply lift_inv in H7 as [-> _].
  run_ok H s8 u8 H8. apply (steps_run _ _ _ _ _ (quiet_verify_request_auth _ _)) in H8.
  assert (Hq : quiet s s8) by (by etrans). apply quiet_db in Hq.
  run_ok H s9 seen H9. unfold enforce_cursor_monotonic in H9.
  run_ok H9 s10 old H10. apply query_inv in H10 as [-> [= ->]].
  run_ok H9 s11 u11 H11. apply reject_if_inv in H11 as [-> Hcur].
  injection H9 as <- <-.
  run_ok H s12 msgs H12. apply query_inv in H12 as [-> [= ->]].
  run_ok H s13 u13 H13. apply execute_inv in H13 as [-> _]. injection H as <- <-.
  rewrite Hq in *. fold (page user_id (ra_device_id auth) since (st_db s)) in *.
  fold (cursor_of (user_id, ra_device_id auth) (st_db s)) in *.
  destruct (Z.ltb_spec since 0); [done|].
  destruct (Z.ltb_spec since (cursor_of (user_id, ra_device_id auth) (st_db s))); [done|].
  case_bool_decide as Hid; [|done]. split_and!; [done..|].
  unfold next_since. cbn [snd]. rewrite Z.max_r by lia. done.
Qed.
End Mailbox.

(** ** What the handlers do to the mailboxes *)

Lemma set_db_set_db (d d' : Db) (s : AppState) : set_db d (set_db d' s) = set_db d s.
Proof. done. Qed.

Lemma set_db_same (s : AppState) : set_db (st_db s) s = s.
Proof. by destruct s. Qed.

Section Inserts.
Context {R : Type} (table : Db → Table R) (set_table : Table R → Db → Db).
Context (Hget : ∀ t d, table (set_table t d) = t) (Hset : ∀ t t' d, set_table t (set_table t' d) = set_table t d)
  (Hsame : ∀ d, set_table (table d) d = d).

Lemma insert_for_devices_run (mk : bytes → Z → R) (devices : list bytes) (s : AppState) :
  let t := table (st_db s) in
  let ids := seqZ (next_id t) (Z.of_nat (length devices)) in
  insert_for_devices table set_table mk devices s =
  (set_db (set_table (mkTable (rows t ++ zip_with mk devices ids) (next_id t + Z.of_nat (length devices))%Z)
             (st_db s)) s, Ok (zip devices ids)).
Proof.
  revert s. induction devices as [|device devices IH]; intros s t ids.
  - simpl. rewrite app_nil_r, Z.add_0_r. replace (mkTable (rows t) (next_id t)) with t by (by destruct t).
    unfold t. rewrite Hsame, set_db_same. done.
  - assert (Hids : ids = next_id t :: seqZ (next_id t + 1) (Z.of_nat (length devices))).
    { unfold ids. rewrite seqZ_cons by (simpl; lia). do 2 f_equal; simpl; lia. }
    rewrite Hids. cbn [insert_for_devices zip_with].
    erewrite sm_bind_ok by reflexivity. erewrite sm_bind_ok by reflexivity.
    erewrite sm_bind_ok by apply IH. cbn [st_db set_db]. rewrite Hget, Hset. unfold sm_ret.
    cbn [insert_row fst rows next_id]. fold t. rewrite set_db_set_db, <- app_assoc. 
    replace (next_id t + 1 + Z.of_nat (length devices))%Z with (next_id t + Z.of_nat (length (device :: devices)))%Z
      by (cbn [length]; lia). done.
Qed.
End Inserts.

Lemma inserts_evolve {R} (id : R → Z) (D : R → bool) (mk : bytes → Z → R) (devices : list bytes) (t : Table R) :
  (∀ device i, id (mk device i) = i) →
  table_evolves id D t (mkTable (rows t ++ zip_with mk devices (seqZ (next_id t) (Z.of_nat (length devices))))
                        (next_id t + Z.of_nat (length devices))).
Proof.
  intros Hmk. set (ids := seqZ _ _).
  assert (Hlen : length ids = length devices) by (unfold ids; rewrite length_seqZ; lia).
  assert (Hmap : map id (zip_with mk devices ids) = ids).
  { clearbody ids. revert ids Hlen. induction devices as [|dev devices IH]; intros [|i ids] Hl; try done.
    simpl in *. rewrite Hmk, IH by lia. done. }
  exists (rows t), (zip_with mk devices ids). cbn [rows next_id]. split_and!; [done|done|done| |lia|].
  - rewrite Hmap. unfold ids. generalize (length devices), (next_id t). clear. intros n. induction n as [|n IH].
    { intros m. constructor. }
    intros m. rewrite seqZ_cons by lia. constructor.
    + replace (Z.pred (Z.of_nat (S n))) with (Z.of_nat n) by lia. apply IH.
    + apply list.Forall_forall. intros x Hx%elem_of_seqZ. lia.
  - intros r Hr. assert (Hi : id r ∈ ids) by (rewrite <- Hmap; by apply list_elem_of_fmap_2).
    unfold ids in Hi. apply elem_of_seqZ in Hi. lia.
Qed.

(** Both mailboxes. *)
Definition service_evolves (D : bytes * bytes → bool) (d d' : Db) : Prop :=
  mailbox_evolves direct_mailbox D d d' ∧ mailbox_evolves sealed_mailbox D d d'.

Section Effects.
Context (D : bytes * bytes → bool).

#[global] Instance service_evolves_preorder : PreOrder (service_evolves D).
Proof. split; [intros d; by split|]. intros d1 d2 d3 [] []. split; by etrans. Qed.

Lemma service_evolves_same (d d' : Db) :
  relay_messages d' = relay_messages d → sealed_relay_messages d' = sealed_relay_messages d →
  inbox_cursors d' = inbox_cursors d → sealed_inbox_cursors d' = sealed_inbox_cursors d →
  service_evolves D d d'.
Proof.
  unfold service_evolves, mailbox_evolves. cbn [mb_table mb_cursors direct_mailbox sealed_mailbox].
  intros -> -> -> ->. split; (split; [done|]; intros k c Hc; exists c; split; [done|lia]).
Qed.

Lemma evolves_direct_table (t : Table RelayRow) (d : Db) :
  table_evolves rm_message_id (λ r, D (rm_recipient_user_id r, rm_recipient_device_id r)) (relay_messages d) t → service_evolves D d (set_relay_messages t d).
Proof.
  intros Ht. split; (split; [try done; exact Ht|]); intros k c Hc; exists c; split; (done || lia).
Qed.

Lemma evolves_sealed_table (t : Table SealedRow) (d : Db) :
  table_evolves sm_message_id (λ r, D (sm_recipient_user_id r, sm_recipient_device_id r)) (sealed_relay_messages d) t → service_evolves D d (set_sealed_relay_messages t d).
Proof.
  intros Ht. split; (split; [try done; exact Ht|]); intros k c Hc; exists c; split; (done || lia).
Qed.

Lemma steps_update_cursor (user_id device_id : bytes) (m : Z) :
  steps (on_db (service_evolves D)) (update_cursor direct_mailbox user_id device_id m) ∧
  steps (on_db (service_evolves D)) (update_cursor sealed_mailbox user_id device_id m).
Proof.
  split; intros s; (split; [|]); unfold on_db;
    first [apply (update_cursor_evolves direct_mailbox) | apply (update_cursor_evolves sealed_mailbox)
          | split; [done|]; intros k c Hc; exists c; split; (done || lia)].
Qed.

Lemma steps_supported {row item} (mb : Mailbox row item) `{!MailboxLaws mb} (R : relation AppState) `{!PreOrder R} :
  steps R (mb_supported mb).
Proof. apply steps_same; [done|]. apply mb_supported_same. Qed.

Lemma steps_direct_supported (R : relation AppState) `{!PreOrder R} :
  steps R ensure_authenticated_direct_messaging_supported.
Proof. apply (steps_supported direct_mailbox), _. Qed.

(** An update of another table. *)
Local Ltac other := apply service_evolves_same; reflexivity.
Local Ltac evolve :=
  repeat first [ step1 | apply steps_supported; apply _ | apply steps_direct_supported; apply _
               | apply steps_update_cursor | solve [other] ].

Lemma observe_relay_dedup_evolves (key : bytes) : steps (on_db (service_evolves D)) (observe_relay_dedup key).
Proof. unfold observe_relay_dedup, purge_now. evolve. Qed.

Lemma relay_inserts_evolve (recipient sender device blob : bytes) (now : Z) (devices : list bytes) :
  steps (on_db (service_evolves D)) (insert_for_devices relay_messages set_relay_messages
    (λ dev id, mkRelay id recipient dev sender device blob now) devices).
Proof.
  intros s. rewrite insert_for_devices_run; [|done|done|by intros []]. unfold on_db. simpl.
  by apply evolves_direct_table, inserts_evolve.
Qed.

Lemma sealed_inserts_evolve (recipient blob : bytes) (now : Z) (devices : list bytes) :
  steps (on_db (service_evolves D)) (insert_for_devices sealed_relay_messages set_sealed_relay_messages
    (λ dev id, mkSealed id recipient dev None None blob now) devices).
Proof.
  intros s. rewrite insert_for_devices_run; [|done|done|by intros []]. unfold on_db. simpl.
  by apply evolves_sealed_table, inserts_evolve.
Qed.

Lemma publish_direct_evolves (user_id : bytes) l : steps (on_db (service_evolves D)) (publish_direct user_id l).
Proof. intros s. by split. Qed.

Lemma publish_sealed_evolves (user_id : bytes) l : steps (on_db (service_evolves D)) (publish_sealed user_id l).
Proof. intros s. by split. Qed.

Lemma relay_message_evolves (recipient : bytes) (headers : HeaderMap) (request : RelayRequest) :
  steps (on_db (service_evolves D)) (relay_message recipient headers request).
Proof.
  unfold relay_message. evolve; auto using observe_relay_dedup_evolves, relay_inserts_evolve, publish_direct_evolves.
Qed.

Lemma relay_sealed_message_evolves (peer : option bytes) (headers : HeaderMap) (recipient : bytes)
    (request : SealedRelayRequest) :
  steps (on_db (service_evolves D)) (relay_sealed_message peer headers recipient request).
Proof.
  unfold relay_sealed_message. evolve; auto using observe_relay_dedup_evolves, sealed_inserts_evolve, publish_sealed_evolves.
Qed.

Lemma purge_tickets_evolves : steps (on_db (service_evolves D)) purge_expired_ws_inbox_tickets.
Proof. unfold purge_expired_ws_inbox_tickets. evolve. Qed.

Section EitherMailbox.
Context {row item : Type} (mb : Mailbox row item) `{!MailboxLaws mb}.
Context (Hupd : ∀ u d m, steps (on_db (service_evolves D)) (update_cursor mb u d m)).

Lemma enforce_cursor_evolves (u d : bytes) (since : Z) :
  steps (on_db (service_evolves D)) (enforce_cursor_monotonic mb u d since).
Proof. unfold enforce_cursor_monotonic. evolve. Qed.

Lemma poll_evolves (u : bytes) (headers : HeaderMap) (q : option Z) :
  steps (on_db (service_evolves D)) (poll mb u headers q).
Proof. unfold poll. evolve; auto using enforce_cursor_evolves. apply steps_query, _. Qed.

Lemma create_ticket_evolves (u : bytes) (headers : HeaderMap) (q : option Z) :
  steps (on_db (service_evolves D)) (create_ticket mb u headers q).
Proof. unfold create_ticket. evolve; auto using enforce_cursor_evolves, purge_tickets_evolves. Qed.

Lemma open_socket_evolves (u : bytes) (headers : HeaderMap) (q : WsInboxQuery) :
  steps (on_db (service_evolves D)) (open_socket mb u headers q).
Proof.
  unfold open_socket, authenticate_connection, consume_ticket, consume_ws_inbox_ticket_unchecked.
  evolve; auto using enforce_cursor_evolves, purge_tickets_evolves.
Qed.
End EitherMailbox.

(** A deletion only removes messages of the device that asks for it. *)
Lemma delete_inbox_messages_evolves (u : bytes) (headers : HeaderMap) (request : DeleteInboxRequest) :
  (∀ auth, parse_request_auth headers = Ok auth → D (u, ra_device_id auth) = true) →
  steps (on_db (service_evolves D)) (delete_inbox_messages u headers request).
Proof.
  intros HD.
  assert (Hdel : ∀ dev q, D (u, dev) = true →
    steps (on_db (service_evolves D)) (delete_relays (λ r, is_recipient u dev r && q r))).
  { intros dev q Hd. unfold delete_relays. evolve. apply evolves_direct_table, delete_rows_evolves.
    unfold is_recipient. intros r [[Hu Hv]%andb_true_iff _]%andb_true_iff.
    apply bool_decide_eq_true in Hu, Hv. by rewrite Hu, Hv. }
  assert (Hids : ∀ ids dev n, D (u, dev) = true →
    steps (on_db (service_evolves D)) (delete_ids u dev ids n)).
  { induction ids; intros; cbn [delete_ids]; [evolve|]. apply steps_bind; [apply _|by apply Hdel|by intros; apply IHids]. }
  unfold delete_inbox_messages. do 8 (apply steps_bind; [apply _|solve [evolve]|intros ?]).
  apply steps_bind_lift; [apply _|]. intros auth Hauth%HD.
  do 3 (apply steps_bind; [apply _|solve [evolve]|intros ?]).
  apply steps_bind; [apply _| |intros ?; evolve].
  apply steps_transaction; [apply _|]. apply steps_bind; [apply _|by apply Hids|intros ?].
  case_match; [|evolve]. apply steps_bind; [apply _|by apply Hdel|intros ?; evolve].
Qed.

Lemma issue_sender_certificate_evolves (u : bytes) (headers : HeaderMap) :
  steps (on_db (service_evolves D)) (issue_sender_certificate u headers).
Proof. unfold issue_sender_certificate. evolve. Qed.

End Effects.

(** ** Calls *)

(** The requests of this service. *)
Inductive MessagingCall : Type :=
| CallRelay (recipient : bytes) (headers : HeaderMap) (request : RelayRequest)
| CallSealedRelay (peer : option bytes) (headers : HeaderMap) (recipient : bytes) (request : SealedRelayRequest)
| CallInbox (user : bytes) (headers : HeaderMap) (since : option Z)
| CallSealedInbox (user : bytes) (headers : HeaderMap) (since : option Z)
| CallTicket (user : bytes) (headers : HeaderMap) (since : option Z)
| CallSealedTicket (user : bytes) (headers : HeaderMap) (since : option Z)
| CallSocket (user : bytes) (headers : HeaderMap) (q : WsInboxQuery)
| CallSealedSocket (user : bytes) (headers : HeaderMap) (q : WsInboxQuery)
| CallDelete (user : bytes) (headers : HeaderMap) (request : DeleteInboxRequest)
| CallCertificate (user : bytes) (headers : HeaderMap).

(** The state after a request, whatever it answers. *)
Definition after_call (c : MessagingCall) (s : AppState) : AppState :=
  match c with
  | CallRelay r h q => (relay_message r h q s).1
  | CallSealedRelay p h r q => (relay_sealed_message p h r q s).1
  | CallInbox u h q => (get_inbox u h q s).1
  | CallSealedInbox u h q => (get_sealed_inbox u h q s).1
  | CallTicket u h q => (create_ws_inbox_ticket u h q s).1
  | CallSealedTicket u h q => (create_ws_sealed_inbox_ticket u h q s).1
  | CallSocket u h q => (ws_inbox u h q s).1
  | CallSealedSocket u h q => (ws_sealed_inbox u h q s).1
  | CallDelete u h q => (delete_inbox_messages u h q s).1
  | CallCertificate u h => (issue_sender_certificate u h s).1
  end.

(** The device whose messages a request may remove. *)
Definition call_deletes (c : MessagingCall) (key : bytes * bytes) : bool :=
  match c with
  | CallDelete u h _ =>
      match parse_request_auth h with
      | Ok auth => bool_decide (key = (u, ra_device_id auth))
      | Err _ => false
      end
  | _ => false
  end.

Lemma after_call_evolves (c : MessagingCall) (s : AppState) :
  service_evolves (call_deletes c) (st_db s) (st_db (after_call c s)).
Proof.
  destruct c.
  9: { apply delete_inbox_messages_evolves. intros auth E. simpl. rewrite E. by apply bool_decide_eq_true_2. }
  all: first [ apply relay_message_evolves | apply relay_sealed_message_evolves
             | apply issue_sender_certificate_evolves | apply poll_evolves | apply create_ticket_evolves
             | apply open_socket_evolves ]; try apply _.
  all: intros; apply steps_update_cursor.
Qed.

(** A mailbox of the service: only the calls above touch it. *)
Class Served {row item} (mb : Mailbox row item) : Prop := {
  served_laws : MailboxLaws mb;
  served_evolves : ∀ D d d', service_evolves D d d' → mailbox_evolves mb D d d';
}.

#[global] Instance direct_served : Served direct_mailbox.
Proof. split; [apply _|]. by intros D d d' []. Qed.
#[global] Instance sealed_served : Served sealed_mailbox.
Proof. split; [apply _|]. by intros D d d' []. Qed.

Section Runs.
Context {row item : Type} (mb : Mailbox row item) `{HS : !Served mb}.
#[local] Instance mb_laws : MailboxLaws mb := served_laws.

Lemma after_call_mailbox (c : MessagingCall) (s : AppState) :
  mailbox_evolves mb (call_deletes c) (st_db s) (st_db (after_call c s)).
Proof. apply served_evolves, after_call_evolves. Qed.

(** A run of the server as this mailbox sees it, with the pages it delivered:
    polls of any device at any identifier, any other request of the service,
    and steps that leave the mailbox alone. *)
Inductive mailbox_run : AppState → list (bytes * bytes * list item) → AppState → Prop :=
| run_start s : mailbox_run s [] s
| run_poll s l s1 s2 user headers q auth messages :
    mailbox_run s l s1 → parse_request_auth headers = Ok auth →
    poll mb user headers q s1 = (s2, Ok (user, messages)) →
    mailbox_run s (l ++ [(user, ra_device_id auth, messages)]) s2
| run_call s l s1 c : mailbox_run s l s1 → mailbox_run s l (after_call c s1)
| run_other s l s1 s2 :
    mailbox_run s l s1 → mb_table mb (st_db s2) = mb_table mb (st_db s1) →
    mb_cursors mb (st_db s2) = mb_cursors mb (st_db s1) → mailbox_run s l s2.

(** The identifiers delivered to a device, in order. *)
Definition delivered (key : bytes * bytes) (l : list (bytes * bytes * list item)) : list Z :=
  concat (map (λ e, map (mb_item_id mb) e.2) (filter (λ e, e.1 = key) l)).

Lemma delivered_snoc (key k : bytes * bytes) (l : list (bytes * bytes * list item)) (p : list item) :
  delivered key (l ++ [(k, p)]) = delivered key l ++ (if decide (k = key) then map (mb_item_id mb) p else []).
Proof.
  unfold delivered. rewrite list.filter_app, map_app, concat_app, list.filter_cons, list.filter_nil. cbn [fst].
  case_decide; simpl; [by rewrite app_nil_r|done].
Qed.

Lemma mailbox_run_inv (s0 s : AppState) (l : list (bytes * bytes * list item)) :
  mailbox_run s0 l s → mailbox_wf mb (st_db s0) →
  mailbox_wf mb (st_db s) ∧
  ∀ key, StronglySorted Z.lt (delivered key l) ∧
    (delivered key l ≠ [] → is_Some (mb_cursors mb (st_db s) !! key)) ∧
    ∀ x, x ∈ delivered key l → (x ≤ cursor_of mb key (st_db s))%Z.
Proof.
  induction 1 as [s|s l s1 s2 user headers q auth messages Hrun IH Hauth Hpoll|s l s1 c Hrun IH
                 |s l s1 s2 Hrun IH Ht Hc]; intros Hwf.
  - split; [done|]. intros key. split_and!; [constructor|done|set_solver].
  - destruct (IH Hwf) as [Hwf1 Hd]. pose proof Hpoll as Hp. apply poll_ok in Hp; [|apply _].
    destruct Hp as (auth' & Hauth' & _ & Hcur & _ & Hresp & Hdb).
    assert (auth' = auth) as -> by congruence. cbn [snd] in Hdb. injection Hresp as ->.
    set (since := default 0%Z q) in *. set (k := (user, ra_device_id auth)) in *.
    destruct (next_since_spec mb user (ra_device_id auth) since (st_db s1) Hwf1) as (Hge & Hup & _).
    set (p := page mb user (ra_device_id auth) since (st_db s1)) in *.
    split. { unfold mailbox_wf. by rewrite Hdb, mb_table_set. }
    intros key. destruct (Hd key) as (Hs & Hsome & Hle). rewrite delivered_snoc. unfold cursor_of.
    rewrite Hdb, mb_cursors_set. destruct (decide (k = key)) as [<-|Hne]; fold k.
    + rewrite lookup_partial_alter_eq.
      assert (Hlow : ∀ x, x ∈ delivered k l → (x ≤ since)%Z).
      { intros x Hx. specialize (Hle x Hx). lia. }
      split_and!; [|done|].
      * apply StronglySorted_app_2; [|done|by apply page_sorted; [apply _|]].
        intros x y Hx Hy. specialize (Hlow x Hx). apply page_above in Hy; [lia|apply _].
      * simpl. intros x [Hx|Hx]%elem_of_app; [specialize (Hlow x Hx)|specialize (Hup x Hx)];
          repeat case_match; (apply Z.ltb_lt in H || idtac); lia.
    + rewrite app_nil_r, lookup_partial_alter_ne by done. done.
  - destruct (IH Hwf) as [Hwf1 Hd]. pose proof (after_call_mailbox c s1) as Hev. split.
    { eapply table_evolves_wf; [apply Hev|done]. }
    intros key. destruct (Hd key) as (Hs & Hsome & Hle). split_and!; [done| |].
    + intros Hne. destruct (Hsome Hne) as [z Hz]. destruct Hev as [_ Hev].
      destruct (Hev _ _ Hz) as (z' & -> & _). done.
    + intros x Hx. assert (Hne : delivered key l ≠ []) by (intros E; rewrite E in Hx; set_solver).
      destruct (Hsome Hne) as [z Hz]. pose proof (mailbox_evolves_cursor _ _ _ _ _ _ Hev Hz).
      specialize (Hle x Hx). unfold cursor_of in Hle. rewrite Hz in Hle. simpl in Hle. lia.
  - destruct (IH Hwf) as [Hwf1 Hd]. unfold mailbox_wf, cursor_of. rewrite Ht, Hc. done.
Qed.

(** ** A client that follows its last identifier *)

Section Follow.
Context (user dev : bytes).

Lemma pending_next (since : Z) (d : Db) :
  mailbox_wf mb d →
  pending mb user dev (next_since mb since (page mb user dev since d)) d =
  drop MAX_INBOX_PAGE (pending mb user dev since d).
Proof.
  intros Hwf. pose proof (pending_sorted mb user dev since d Hwf) as Hs.
  destruct (next_since_spec mb user dev since d Hwf) as (Hge & _ & Hnext).
  rewrite (page_ids mb) in Hnext. set (l := pending mb user dev since d) in *.
  set (x := next_since _ _ _) in *.
  assert (Hl : pending mb user dev x d = filter (λ r, (x < mb_row_id mb r)%Z) l).
  { unfold l, pending. rewrite list_filter_filter. apply list_filter_iff. naive_solver lia. }
  rewrite Hl, <- (take_drop MAX_INBOX_PAGE l) at 1. rewrite <- (take_drop MAX_INBOX_PAGE l), map_app in Hs.
  apply StronglySorted_app in Hs as (Hlt & Hs & _). rewrite list.filter_app.
  destruct (list_snoc_or_nil (take MAX_INBOX_PAGE l)) as [E|(a & r & E)].
  { assert (l = []) as -> by (by destruct l). done. }
  rewrite E in Hlt, Hs, Hnext |- *. rewrite map_app, last_app in Hnext. simpl in Hnext.
  rewrite map_app in Hs. apply StronglySorted_app in Hs as (Ha & _).
  rewrite list_filter_none, filter_all; [done|..].
  - intros y Hy. rewrite Hnext. apply Hlt; [|by apply list_elem_of_fmap_2]. rewrite map_app. set_solver.
  - intros y [Hy| ->%list_elem_of_singleton]%elem_of_app; [|lia].
    assert (mb_row_id mb y < mb_row_id mb r)%Z; [|lia].
    apply Ha; [by apply list_elem_of_fmap_2|simpl; set_solver].
Qed.

(** Requests other than deletions of this device only append to its inbox. *)
Lemma pending_evolves (D : bytes * bytes → bool) (since : Z) (d d' : Db) :
  mailbox_evolves mb D d d' → D (user, dev) = false →
  ∃ new, (∀ r, r ∈ new → mb_recipient mb r = (user, dev) ∧ (mb_table mb d).(next_id) ≤ mb_row_id mb r)%Z ∧
    ∀ since, pending mb user dev since d' =
      pending mb user dev since d ++ filter (λ r, (since < mb_row_id mb r)%Z) new.
Proof.
  intros [(k & n & _ & F & E & _ & _ & Hn) _] HD.
  exists (filter (λ r, mb_recipient mb r = (user, dev)) n). split.
  { intros r [Hr Hin]%list_elem_of_filter. split; [done|]. by destruct (Hn _ Hin). }
  intros x. unfold pending. rewrite E, list.filter_app, list_filter_filter. f_equal.
  - assert (Hff : ∀ l : list row,
      filter (λ r, mb_recipient mb r = (user, dev) ∧ (x < mb_row_id mb r)%Z) l =
      filter (λ r, mb_recipient mb r = (user, dev) ∧ (x < mb_row_id mb r)%Z)
        (filter (λ r, D (mb_recipient mb r) = false) l)).
    { intros l. rewrite list_filter_filter. apply list_filter_iff. intros r. split; [|naive_solver].
      intros [Hr ?]. by rewrite Hr. }
    by rewrite (Hff k), (Hff (rows _)), F.
  - apply list_filter_iff. naive_solver.
Qed.

Inductive follows (s0 : AppState) (since0 : Z) : list (list item) → AppState → Z → Prop :=
| follow_start : follows s0 since0 [] s0 since0
| follow_poll l s1 since1 s2 headers auth messages :
    follows s0 since0 l s1 since1 → parse_request_auth headers = Ok auth → ra_device_id auth = dev →
    poll mb user headers (Some since1) s1 = (s2, Ok (user, messages)) →
    follows s0 since0 (l ++ [messages]) s2 (next_since mb since1 messages)
| follow_call l s1 since1 c :
    follows s0 since0 l s1 since1 → call_deletes c (user, dev) = false →
    follows s0 since0 l (after_call c s1) since1
| follow_other l s1 since1 s2 :
    follows s0 since0 l s1 since1 → mb_table mb (st_db s2) = mb_table mb (st_db s1) →
    follows s0 since0 l s2 since1.

Lemma poll_page (headers : HeaderMap) (auth : RequestAuth) (since : Z) (s s' : AppState) (messages : list item) :
  parse_request_auth headers = Ok auth → ra_device_id auth = dev →
  poll mb user headers (Some since) s = (s', Ok (user, messages)) →
  messages = page mb user dev since (st_db s) ∧ mb_table mb (st_db s') = mb_table mb (st_db s).
Proof.
  intros Hauth Hdev Hp. apply poll_ok in Hp as (auth' & Hauth' & _ & _ & _ & Hresp & Hdb); [|apply _].
  assert (auth' = auth) as -> by congruence. rewrite Hdev in Hresp. injection Hresp as ->.
  split; [done|]. by rewrite Hdb, mb_table_set.
Qed.

Lemma pending_table (since : Z) (d d' : Db) :
  mb_table mb d' = mb_table mb d → pending mb user dev since d' = pending mb user dev since d.
Proof. unfold pending. by intros ->. Qed.

Lemma follows_inv (s0 s : AppState) (since0 since : Z) (l : list (list item)) :
  follows s0 since0 l s since → mailbox_wf mb (st_db s0) →
  mailbox_wf mb (st_db s) ∧ (since0 ≤ since)%Z ∧
  (since = since0 ∨ (since < next_id (mb_table mb (st_db s)))%Z) ∧
  map (mb_item mb) (pending mb user dev since0 (st_db s)) =
    concat l ++ map (mb_item mb) (pending mb user dev since (st_db s)).
Proof.
  intros Hf Hwf0. induction Hf as [|l s1 since1 s2 headers auth messages Hf IH Hauth Hdev Hp
    |l s1 since1 c Hf IH Hc|l s1 since1 s2 Hf IH Ht].
  - split_and!; [done|lia|by left|done].
  - destruct IH as (Hwf & Hge & Hb & IH).
    destruct (poll_page _ _ _ _ _ _ Hauth Hdev Hp) as [-> Ht].
    pose proof (next_since_spec mb user dev since1 (st_db s1) Hwf) as (Hge' & _ & Hnext).
    unfold mailbox_wf. rewrite !(pending_table _ _ _ Ht), Ht. split_and!; [done|lia| |].
    + rewrite (page_ids mb) in Hnext. rewrite Hnext. destruct (list.last _) as [x|] eqn:El; [right|exact Hb].
      apply last_Some_elem_of, list_elem_of_fmap in El as (r & -> & (i & Hr & _)%elem_of_take).
      apply list_elem_of_lookup_2, list_elem_of_filter in Hr as [_ Hr]. by apply Hwf.
    + rewrite IH, concat_app, pending_next by done. simpl. rewrite app_nil_r, <- app_assoc.
      f_equal. unfold page. by rewrite <- map_app, take_drop.
  - destruct IH as (Hwf & Hge & Hb & IH). pose proof (after_call_mailbox c s1) as Hev.
    destruct (pending_evolves _ since0 _ _ Hev Hc) as (new & Hnew & Hpend).
    split_and!; [eapply table_evolves_wf; [apply Hev|done]|done| |].
    + destruct Hev as [(k & n & _ & _ & _ & _ & Hle & _) _]. destruct Hb; [by left|right; lia].
    + rewrite !Hpend, !map_app, IH, <- app_assoc. do 3 f_equal. destruct Hb as [->|Hb]; [done|].
      rewrite !filter_all; [done|..]; intros r Hr%Hnew; lia.
  - destruct IH as (Hwf & Hge & Hb & IH). unfold mailbox_wf. by rewrite !(pending_table _ _ _ Ht), Ht.
Qed.

(** ** Draining *)

(** A request that gets past the checks before the cursor. *)
Record admitted (headers : HeaderMap) (since : Z) (s : AppState) (auth : RequestAuth) : Prop := {
  ad_supported : mb_supported mb s = (s, Ok tt);
  ad_rate : (check_rate_limit (mb_name mb ++ lit ":" ++ user) s).2 = Ok tt;
  ad_id : validate_id (lit "user_id") user = Ok tt;
  ad_exists : is_Some (users (st_db s) !! user);
  ad_since : (0 ≤ since)%Z;
  ad_auth : parse_request_auth headers = Ok auth;
  ad_user : ra_user_id auth = user;
  ad_device : ra_device_id auth = dev;
  ad_signed : ∃ m, mb_auth_message mb auth user since = Ok m ∧
    (verify_request_auth auth m (check_rate_limit (mb_name mb ++ lit ":" ++ user) s).1).2 = Ok tt;
}.

Lemma poll_admitted (headers : HeaderMap) (since : Z) (s : AppState) (auth : RequestAuth) :
  admitted headers since s auth → (cursor_of mb (user, dev) (st_db s) ≤ since)%Z →
  (poll mb user headers (Some since) s).2 = Ok (user, page mb user dev since (st_db s)).
Proof.
  intros [Hsup Hrate Hid Hex Hsince Hauth Huser Hdev (m & Hm & Hsig)] Hcur.
  set (key := mb_name mb ++ lit ":" ++ user) in *.
  destruct (check_rate_limit key s) as [s1 r1] eqn:E1. simpl in Hrate, Hsig. subst r1.
  assert (Hq1 : quiet s s1) by exact (steps_run _ _ _ _ _ (quiet_check_rate_limit _) E1).
  destruct (verify_request_auth auth m s1) as [s2 r2] eqn:E2. simpl in Hsig. subst r2.
  assert (Hq2 : quiet s1 s2) by exact (steps_run _ _ _ _ _ (quiet_verify_request_auth _ _) E2).
  unfold poll. rewrite (sm_bind_ok _ _ _ _ _ Hsup). fold key. rewrite (sm_bind_ok _ _ _ _ _ E1).
  unfold lift at 1, sm_lift at 1. rewrite Hid.
  erewrite sm_bind_ok by reflexivity.
  assert (Hex1 : ensure_user_exists user s1 = (s1, Ok tt)).
  { unfold ensure_user_exists, query, gets, sm_bind, sm_ret. rewrite (quiet_db _ _ Hq1).
    by destruct Hex as [? ->]. }
  rewrite (sm_bind_ok _ _ _ _ _ Hex1). cbv zeta. change (default 0%Z (Some since)) with since.
  rewrite (proj2 (Z.ltb_ge _ _)) by done. unfold reject_if at 1. erewrite sm_bind_ok by reflexivity.
  unfold lift at 1, sm_lift at 1. rewrite Hauth. erewrite sm_bind_ok by reflexivity.
  rewrite bool_decide_eq_true_2 by done. unfold reject_if at 1. erewrite sm_bind_ok by reflexivity.
  unfold lift at 1, sm_lift at 1. rewrite Hm. erewrite sm_bind_ok by reflexivity.
  rewrite (sm_bind_ok _ _ _ _ _ E2), Hdev.
  assert (Hdb : st_db s2 = st_db s) by (rewrite (quiet_db _ _ Hq2); by apply quiet_db).
  assert (Henf : enforce_cursor_monotonic mb user dev since s2 = (s2, Ok (cursor_of mb (user, dev) (st_db s)))).
  { unfold enforce_cursor_monotonic. erewrite sm_bind_ok by reflexivity. rewrite Hdb.
    fold (cursor_of mb (user, dev) (st_db s)). rewrite (proj2 (Z.ltb_ge _ _)) by done. done. }
  rewrite (sm_bind_ok _ _ _ _ _ Henf). erewrite sm_bind_ok by reflexivity.
  erewrite sm_bind_ok by reflexivity. unfold sm_ret, page. cbn [snd]. by rewrite Hdb.
Qed.

(** Polls that follow the last identifier, with their answers; in between,
    steps that leave the mailbox alone. *)
Inductive polls (s0 : AppState) (since0 : Z) : list (app (bytes * list item)) → AppState → Z → Prop :=
| polls_start : polls s0 since0 [] s0 since0
| polls_poll l s1 since1 s2 headers auth r :
    polls s0 since0 l s1 since1 → admitted headers since1 s1 auth →
    poll mb user headers (Some since1) s1 = (s2, r) →
    polls s0 since0 (l ++ [r]) s2 (next_since mb since1 (match r with Ok (_, p) => p | Err _ => [] end))
| polls_other l s1 since1 s2 :
    polls s0 since0 l s1 since1 → mb_table mb (st_db s2) = mb_table mb (st_db s1) →
    mb_cursors mb (st_db s2) = mb_cursors mb (st_db s1) → polls s0 since0 l s2 since1.

Lemma poll_cursor (headers : HeaderMap) (auth : RequestAuth) (since : Z) (s s' : AppState) (messages : list item) :
  parse_request_auth headers = Ok auth → ra_device_id auth = dev → mailbox_wf mb (st_db s) →
  poll mb user headers (Some since) s = (s', Ok (user, messages)) →
  (cursor_of mb (user, dev) (st_db s') ≤ next_since mb since messages)%Z.
Proof.
  intros Hauth Hdev Hwf Hp. apply poll_ok in Hp as (auth' & Hauth' & _ & Hcur & _ & Hresp & Hdb); [|apply _].
  assert (auth' = auth) as -> by congruence. rewrite Hdev in *. injection Hresp as ->.
  destruct (next_since_spec mb user dev since (st_db s) Hwf) as (Hge & _).
  unfold cursor_of in *. rewrite Hdb, mb_cursors_set, lookup_partial_alter_eq. simpl in *.
  destruct (mb_cursors mb (st_db s) !! (user, dev)); simpl in *; [|lia].
  destruct (Z.ltb_spec (next_since mb since (page mb user dev since (st_db s))) z); lia.
Qed.

Lemma polls_inv (s0 s : AppState) (since0 since : Z) (l : list (app (bytes * list item))) :
  polls s0 since0 l s since → mailbox_wf mb (st_db s0) → (cursor_of mb (user, dev) (st_db s0) ≤ since0)%Z →
  let todo := pending mb user dev since0 (st_db s0) in
  l = map (λ i, Ok (user, map (mb_item mb) (take MAX_INBOX_PAGE (drop (i * MAX_INBOX_PAGE) todo))))
        (seq 0 (length l)) ∧
  pending mb user dev since (st_db s) = drop (length l * MAX_INBOX_PAGE) todo ∧
  mailbox_wf mb (st_db s) ∧ (cursor_of mb (user, dev) (st_db s) ≤ since)%Z.
Proof.
  intros Hf Hwf0 Hc0 todo. induction Hf as [|l s1 since1 s2 headers auth r Hf IH Had Hp
    |l s1 since1 s2 Hf IH Ht Hc].
  - done.
  - destruct IH as (Hl & Hpend & Hwf & Hcur).
    pose proof (poll_admitted _ _ _ _ Had Hcur) as Hr. rewrite Hp in Hr. simpl in Hr. subst r.
    pose proof (ad_auth _ _ _ _ Had) as Hauth. pose proof (ad_device _ _ _ _ Had) as Hdev.
    destruct (poll_page _ _ _ _ _ _ Hauth Hdev Hp) as [_ Ht]. split_and!.
    + rewrite length_app, Nat.add_1_r, seq_S, map_app, <- Hl. simpl. unfold page. by rewrite Hpend.
    + rewrite (pending_table _ _ _ Ht), pending_next by done. rewrite Hpend, drop_drop, length_app.
      f_equal. unfold MAX_INBOX_PAGE. simpl. lia.
    + unfold mailbox_wf. by rewrite Ht.
    + by eapply poll_cursor.
  - destruct IH as (Hl & Hpend & Hwf & Hcur). unfold mailbox_wf, cursor_of.
    rewrite (pending_table _ _ _ Ht), Ht, Hc. done.
Qed.
End Follow.
End Runs.
End Mailboxes.

(** ** A toy inbox

    Two messages for Bob's first device and one for the second. *)
Definition toy_message (id : Z) (dev : bytes) : RelayRow :=
  mkRelay id (lit "bob") dev (lit "alice") (lit "d1") (lit "hello") 900.

Definition toy_inbox : @AppState Toy :=
  toy_state 1000000000000 0
    (set_relay_messages (mkTable [toy_message 1 (lit "d1"); toy_message 2 (lit "d2"); toy_message 3 (lit "d1")] 4)
       toy_db).

Lemma toy_inbox_wf : mailbox_wf direct_mailbox (st_db toy_inbox).
Proof.
  split.
  - repeat constructor.
  - intros r Hr. repeat (apply elem_of_cons in Hr as [->|Hr]; [done|]). by apply elem_of_nil in Hr.
Qed.

Definition bob_headers (nonce : bytes) (since : Z) : HeaderMap :=
  toy_headers (lit "bob") (lit "d1") 202 1000 nonce (λ a, inbox_auth_message a (lit "bob") since).

Definition bob_auth (nonce : bytes) (since : Z) : RequestAuth :=
  toy_auth (lit "bob") (lit "d1") 202 1000 nonce (λ a, inbox_auth_message a (lit "bob") since).

Definition toy_items (ids : list Z) : list InboxItem :=
  map (λ id, mkItem id (lit "alice") (b64_encode (lit "hello")) 900) ids.

(** ** Theorems *)

(** A device receives a message at most once, and in the order of the
    identifiers, whatever it asks for. In every run of the server, with polls
    of any device from any starting identifier and any other request of the
    service in between, the identifiers a device receives over all its polls
    are strictly increasing. *)
Theorem inbox_at_most_once (P : Primitives) (V : Ed25519) (B : Base64) (X : Hex) (I : HashIter) (U : Uuid)
    (row item : Type) (mb : Mailbox row item) (HS : Served mb)
    (s0 s : AppState) (l : list (bytes * bytes * list item)) (key : bytes * bytes) :
  mailbox_wf mb (st_db s0) → mailbox_run mb s0 l s → StronglySorted Z.lt (delivered mb key l).
Proof. intros Hwf Hrun. by apply (mailbox_run_inv mb _ _ _ Hrun Hwf). Qed.

Lemma inbox_at_most_once_witness :
  let r1 := get_inbox (lit "bob") (bob_headers (lit "n1") 0) None toy_inbox in
  let r2 := get_inbox (lit "bob") (bob_headers (lit "n2") 3) (Some 3%Z) r1.1 in
  r1.2 = Ok (lit "bob", toy_items [1; 3]%Z) ∧ r2.2 = Ok (lit "bob", []) ∧
  StronglySorted Z.lt (delivered direct_mailbox (lit "bob", lit "d1")
    [(lit "bob", lit "d1", toy_items [1; 3]%Z); (lit "bob", lit "d1", [])]).
Proof.
  intros r1 r2.
  assert (E1 : r1.2 = Ok (lit "bob", toy_items [1; 3]%Z)) by (vm_compute; reflexivity).
  assert (E2 : r2.2 = Ok (lit "bob", [])) by (vm_compute; reflexivity).
  split; [exact E1|]. split; [exact E2|].
  pose proof (pair_ok r1 _ E1) as H1. pose proof (pair_ok r2 _ E2) as H2.
  unfold r1 at 1, get_inbox at 1 in H1. unfold r2 at 1, get_inbox at 1 in H2.
  apply (inbox_at_most_once Toy ToyEd ToyBase64 ToyHex MapOrder ToyUuid RelayRow InboxItem direct_mailbox
    direct_served toy_inbox r2.1 _ _ toy_inbox_wf).
  clear E1 E2. clearbody r1 r2.
  assert (A1 : parse_request_auth (bob_headers (lit "n1") 0) = Ok (bob_auth (lit "n1") 0)) by (vm_compute; reflexivity).
  assert (A2 : parse_request_auth (bob_headers (lit "n2") 3) = Ok (bob_auth (lit "n2") 3)) by (vm_compute; reflexivity).
  exact (run_poll direct_mailbox toy_inbox _ _ _ _ _ _ _ _
    (run_poll direct_mailbox toy_inbox _ _ _ _ _ _ _ _ (run_start direct_mailbox toy_inbox) A1 H1) A2 H2).
Defined.



(** C20: Polling drains the inbox. When a device's requests get past the rate
    limit and the authentication, every poll succeeds, the [i]-th answer is
    the [i]-th block of 200 of the messages that were pending at the start,
    and after [n] polls what is pending is what follows the first [200 * n]:
    nothing once [200 * n] reaches their number. *)
Theorem inbox_drains (P : Primitives) (V : Ed25519) (B : Base64) (X : Hex) (I : HashIter) (U : Uuid)
    (row item : Type) (mb : Mailbox row item) (HS : Served mb) (user dev : bytes)
    (s0 s : AppState) (since0 since : Z) (answers : list (app (bytes * list item))) :
  mailbox_wf mb (st_db s0) → (cursor_of mb (user, dev) (st_db s0) ≤ since0)%Z →
  polls mb user dev s0 since0 answers s since →
  let todo := pending mb user dev since0 (st_db s0) in
  answers = map (λ i, Ok (user, map (mb_item mb) (take MAX_INBOX_PAGE (drop (i * MAX_INBOX_PAGE) todo))))
              (seq 0 (length answers)) ∧
  pending mb user dev since (st_db s) = drop (length answers * MAX_INBOX_PAGE) todo ∧
  ((length todo ≤ length answers * MAX_INBOX_PAGE)%nat → pending mb user dev since (st_db s) = []).
Proof.
  intros Hwf Hc Hp todo. destruct (polls_inv mb user dev _ _ _ _ _ Hp Hwf Hc) as (Ha & Hpend & _).
  fold todo in Ha, Hpend. split_and!; [done|done|]. intros Hlen. rewrite Hpend. by apply drop_ge.
Qed.

Lemma inbox_drains_witness :
  let r1 := get_inbox (lit "bob") (bob_headers (lit "n1") 0) (Some 0%Z) toy_inbox in
  pending direct_mailbox (lit "bob") (lit "d1") 3 (st_db r1.1) = [].
Proof.
  intros r1.
  assert (Ha : admitted direct_mailbox (lit "bob") (lit "d1") (bob_headers (lit "n1") 0) 0 toy_inbox (bob_auth (lit "n1") 0)).
  { split; [reflexivity|vm_compute; reflexivity|vm_compute; reflexivity
      |apply (bool_decide_unpack _); vm_compute; exact I|done|vm_compute; reflexivity|reflexivity|reflexivity|].
    exists (match inbox_auth_message (bob_auth (lit "n1") 0) (lit "bob") 0 with Ok m => m | Err _ => [] end).
    split; vm_compute; reflexivity. }
  assert (E1 : r1.2 = Ok (lit "bob", toy_items [1; 3]%Z)) by (vm_compute; reflexivity).
  pose proof (pair_ok r1 _ E1) as H1. unfold r1 at 1, get_inbox at 1 in H1. clear E1. clearbody r1.
  refine (proj2 (proj2 (inbox_drains Toy ToyEd ToyBase64 ToyHex MapOrder ToyUuid RelayRow InboxItem direct_mailbox
    direct_served (lit "bob") (lit "d1") toy_inbox r1.1 0 3 _ toy_inbox_wf _
    (polls_poll direct_mailbox (lit "bob") (lit "d1") toy_inbox 0 [] toy_inbox 0 r1.1 _ _ _
       (polls_start direct_mailbox (lit "bob") (lit "d1") toy_inbox 0) Ha H1))) _).
  - vm_compute. discriminate.
  - vm_compute. lia.
Defined.
