(* ===== verification/Relaying.v ===== *)
(** * Relaying messages: what is stored, and the deduplication window

    The functional specification of [relay_message] and [relay_sealed_message]
    ([handlers/messaging.rs]) on every outcome, and what [relay_dedup] promises:
    the same message from the same sender is not stored twice within 900
    seconds. *)

From Stdlib Require Import Strings.Byte.
From stdpp Require Import sorting.
From S2P Require Import Prelude Bytes Errors Tlv Crypto Toy Alg Sealed ServerError Validation RequestAuth Caches Realtime ServerState ToyServer ServerFrame ServerAuth Messaging Delivery.
Local Open Scope N_scope.
Section Relays.
Context `{P : Primitives} `{V : Ed25519} `{B : Base64} `{X : Hex} `{I : HashIter} `{U : !Uuid}.

(** Only the deduplication table and what [quiet] lets change. *)
Definition dedup_step : relation AppState := λ s s',
  ∃ m, quiet (set_db (set_relay_dedup m (st_db s)) s) s'.

#[global] Instance dedup_step_preorder : PreOrder dedup_step.
Proof.
  split.
  - intros s. exists (relay_dedup (st_db s)). destruct s as [[] ]. by eexists _, _, _.
  - intros s1 s2 s3 (m1 & g1 & l1 & c1 & ->) (m2 & g2 & l2 & c2 & ->). exists m2, g2, l2, c2. by destruct s1 as [[] ].
Qed.

#[global] Instance dedup_step_coarse : Coarse dedup_step.
Proof.
  intros s s' (g & l & c & ->). exists (relay_dedup (st_db s)), g, l, c. by destruct s as [[] ].
Qed.

Lemma steps_observe_relay_dedup (key : bytes) : steps dedup_step (observe_relay_dedup key).
Proof.
  unfold observe_relay_dedup, purge_now. steps; by eexists _.
Qed.

Lemma dedup_step_db s s' : dedup_step s s' → ∃ m, st_db s' = set_relay_dedup m (st_db s).
Proof. intros (m & g & l & c & ->). by exists m. Qed.
Lemma dedup_step_utc s s' : dedup_step s s' → st_utc s' = st_utc s.
Proof. by intros (m & g & l & c & ->). Qed.
Lemma dedup_step_hub s s' : dedup_step s s' → st_realtime_hub s' = st_realtime_hub s.
Proof. by intros (m & g & l & c & ->). Qed.
Lemma dedup_step_sealed_hub s s' : dedup_step s s' → st_sealed_realtime_hub s' = st_sealed_realtime_hub s.
Proof. by intros (m & g & l & c & ->). Qed.

(** The state after the inserts and announcements of a relay. *)
Definition relayed_row (recipient : bytes) (request : RelayRequest) (blob : bytes) (now : Z)
    (device : bytes) (id : Z) : RelayRow :=
  mkRelay id recipient device (rr_sender_user_id request) (rr_device_id request) blob now.

Definition announce (recipient : bytes) (request : RelayRequest) (blob : bytes) (now : Z)
    (h : Hub InboxItem) (e : bytes * Z) : Hub InboxItem :=
  publish recipient e.1 (mkItem e.2 (rr_sender_user_id request) (b64_encode blob) now) h.

Lemma foldl_announce (recipient : bytes) (request : RelayRequest) (blob : bytes) (now : Z)
    (l : list (bytes * Z)) (h : Hub InboxItem) :
  foldl (λ h '(device, item), publish recipient device item h) h
    (map (λ '(device, id), (device, mkItem id (rr_sender_user_id request) (b64_encode blob) now)) l) =
  foldl (announce recipient request blob now) h l.
Proof. revert h. induction l as [|[device id] l IH]; intros h; [done|]. apply IH. Qed.

Lemma relay_tail (recipient blob : bytes) (request : RelayRequest) (devices : list bytes) (now : Z) (s : AppState) :
  let t := relay_messages (st_db s) in
  let ids := seqZ (next_id t) (Z.of_nat (length devices)) in
  (transaction (insert_for_devices relay_messages set_relay_messages
     (relayed_row recipient request blob now) devices)) s =
  (set_db (set_relay_messages (mkTable (rows t ++ zip_with (relayed_row recipient request blob now) devices ids)
             (next_id t + Z.of_nat (length devices))) (st_db s)) s, Ok (zip devices ids)).
Proof.
  intros t ids. unfold transaction. rewrite insert_for_devices_run; [done..|by intros []].
Qed.
End Relays.

(** Relaying a message, on every outcome. An accepted relay carries a
    signature of an active device of the sender over the recipient and the
    message; it appends one row for each active device of the recipient, with
    consecutive new identifiers in the order of the devices, announces exactly
    these to the live sockets, and returns the first identifier and their
    number. A refused one stores and announces nothing. *)
Theorem relay_message_spec (P : Primitives) (V : Ed25519) (B : Base64) (X : Hex) (I : HashIter)
    (recipient : bytes) (headers : HeaderMap) (request : RelayRequest) (s : AppState) :
  let t := relay_messages (st_db s) in
  let devices := (active_devices recipient (st_db s)).*1 in
  let ids := seqZ (next_id t) (Z.of_nat (length devices)) in
  match relay_message recipient headers request s with
  | (s', Ok resp) =>
      ∃ auth blob m,
        decode_base64_range (lit "message_bytes_base64") (rr_message_bytes_base64 request) 1 MAX_MESSAGE_BYTES
          = Ok blob ∧
        ra_user_id auth = rr_sender_user_id request ∧ ra_device_id auth = rr_device_id request ∧
        relay_auth_message auth recipient blob = Ok m ∧ known_signer auth [m] (st_db s) ∧
        devices ≠ [] ∧ NoDup devices ∧
        rows (relay_messages (st_db s')) =
          rows t ++ zip_with (relayed_row recipient request blob (st_utc s)) devices ids ∧
        next_id (relay_messages (st_db s')) = (next_id t + Z.of_nat (length devices))%Z ∧
        st_realtime_hub s' =
          foldl (announce recipient request blob (st_utc s)) (st_realtime_hub s) (zip devices ids) ∧
        resp = mkRelayResponse (next_id t) (length devices) (st_utc s)
  | (s', Err _) =>
      relay_messages (st_db s') = t ∧ st_realtime_hub s' = st_realtime_hub s
  end.
Proof.
  intros t devices ids. destruct (relay_message recipient headers request s) as [s' [resp|e]] eqn:H.
  - unfold relay_message in H. run1 H H0. apply (steps_run quiet) in H0; [|apply steps_direct_supported, _].
    run1 H H1. run1 H H2. run1 H H3. run1 H H4. run1 H Hblob. run1 H Hauth. run1 H Huser. run1 H Hdev. run1 H Hm.
    run1 H H5. pose proof H5 as Hsig%verify_request_auth_signed.
    apply (steps_run quiet) in H5; [|auto with steps].
    run1 H H6. apply (steps_run dedup_step) in H6; [|apply steps_observe_relay_dedup].
    assert (Hq : dedup_step s s3) by (etrans; [apply coarse; by etrans; [|etrans]|done]).
    run1 H H7. run1 H H8. run1 H H9. run1 H H10. run1 H Hne. run1 H H11. run1 H H12.
    pose proof (relay_tail recipient a request ((active_devices recipient (st_db s3)).*1) (st_utc s3) s3) as Htail.
    unfold relayed_row in Htail at 1. rewrite Htail in H12. clear Htail. injection H12 as <- <-.
    run1 H H13. injection H13 as <-. injection H as <- <-. apply bool_decide_eq_false in Hne.
    destruct (dedup_step_db _ _ Hq) as [m Hdb]. rewrite (dedup_step_utc _ _ Hq).
    assert (Hact : (active_devices recipient (st_db s3)).*1 = devices) by (by rewrite Hdb).
    assert (Ht : relay_messages (st_db s3) = t) by (by rewrite Hdb).
    assert (Hdb1 : st_db s1 = st_db s) by (by apply quiet_db; etrans).
    rewrite Hact in Hne |- *. cbn [st_db set_db set_hub st_realtime_hub relay_messages set_relay_messages rows next_id].
    rewrite Ht. fold ids. exists a0, a, a1.
    rewrite Hdb1 in Hsig. split_and!; try done.
    + apply NoDup_active_devices.
    + by rewrite (dedup_step_hub _ _ Hq), foldl_announce.
    + f_equal; [|rewrite length_map, length_zip_with; unfold ids; rewrite length_seqZ; lia].
      unfold ids. destruct devices as [|dev devices']; [done|]. rewrite seqZ_cons by (simpl; lia). done.
  - assert (Hf : fails_within dedup_step (relay_message recipient headers request)).
    { unfold relay_message.
      do 18 (apply fails_within_bind;
        [apply _|solve [apply steps_observe_relay_dedup | apply steps_direct_supported, _ | steps]|intros ?]).
      intros s1 s2 e' [(s3 & l & _ & [(? & ? & _ & [=])|(? & [=] & _)]%sm_bind_inv)|(? & Ht & _)]%sm_bind_inv.
      unfold transaction in Ht. rewrite insert_for_devices_run in Ht; [done..|by intros []]. }
    apply Hf in H. destruct (dedup_step_db _ _ H) as [m ->]. by rewrite (dedup_step_hub _ _ H).
Qed.

(** ** Sealed messages *)

Section SealedRelays.
Context `{P : Primitives} `{V : Ed25519} `{B : Base64} `{X : Hex} `{I : HashIter}.

Definition sealed_row (recipient blob : bytes) (now : Z) (device : bytes) (id : Z) : SealedRow :=
  mkSealed id recipient device None None blob now.

Definition announce_sealed (recipient blob : bytes) (now : Z) (h : Hub SealedInboxItem) (e : bytes * Z)
    : Hub SealedInboxItem :=
  publish recipient e.1 (mkSealedItem e.2 None (b64_encode blob) now) h.

Lemma foldl_announce_sealed (recipient blob : bytes) (now : Z) (l : list (bytes * Z)) (h : Hub SealedInboxItem) :
  foldl (λ h '(device, item), publish recipient device item h) h
    (map (λ '(device, id), (device, mkSealedItem id None (b64_encode blob) now)) l) =
  foldl (announce_sealed recipient blob now) h l.
Proof. revert h. induction l as [|[device id] l IH]; intros h; [done|]. apply IH. Qed.

Lemma sealed_tail (recipient blob : bytes) (devices : list bytes) (now : Z) (s : AppState) :
  let t := sealed_relay_messages (st_db s) in
  let ids := seqZ (next_id t) (Z.of_nat (length devices)) in
  (transaction (insert_for_devices sealed_relay_messages set_sealed_relay_messages
     (sealed_row recipient blob now) devices)) s =
  (set_db (set_sealed_relay_messages (mkTable (rows t ++ zip_with (sealed_row recipient blob now) devices ids)
             (next_id t + Z.of_nat (length devices))) (st_db s)) s, Ok (zip devices ids)).
Proof.
  intros t ids. unfold transaction. rewrite insert_for_devices_run; [done..|by intros []].
Qed.

Lemma relay_sealed_fails (peer : option bytes) (headers : HeaderMap) (recipient : bytes)
    (request : SealedRelayRequest) :
  fails_within dedup_step (relay_sealed_message peer headers recipient request).
Proof.
  unfold relay_sealed_message.
  do 9 (apply fails_within_bind; [apply _|solve [apply steps_observe_relay_dedup | steps]|intros ?]).
  apply fails_within_bind; [apply _|steps|intros [token|]]; [|apply fails_within_steps; steps].
  do 4 (apply fails_within_bind; [apply _|solve [steps]|intros ?]).
  intros s1 s2 e' [(s3 & l & _ & [(? & ? & _ & [=])|(? & [=] & _)]%sm_bind_inv)|(? & Ht & _)]%sm_bind_inv.
  unfold transaction in Ht. rewrite insert_for_devices_run in Ht; [done..|by intros []].
Qed.
End SealedRelays.

(** Relaying a sealed message, on every outcome. It is accepted only with
    the recipient's delivery token, and appends one row for each active device
    of the recipient, in order and with consecutive new identifiers; no row and
    no announcement carries anything about the sender. A refused one stores and
    announces nothing. *)
Theorem relay_sealed_message_spec (P : Primitives) (V : Ed25519) (B : Base64) (X : Hex) (I : HashIter)
    (peer : option bytes) (headers : HeaderMap) (recipient : bytes) (request : SealedRelayRequest)
    (s : AppState) :
  let t := sealed_relay_messages (st_db s) in
  let devices := (active_devices recipient (st_db s)).*1 in
  let ids := seqZ (next_id t) (Z.of_nat (length devices)) in
  match relay_sealed_message peer headers recipient request s with
  | (s', Ok resp) =>
      ∃ token blob,
        decode_base64_exact (lit "delivery_token") (sr_delivery_token request) SEALED_DELIVERY_TOKEN_LEN
          = Ok token ∧
        decode_base64_range (lit "message_bytes_base64") (sr_message_bytes_base64 request) 1 MAX_MESSAGE_BYTES
          = Ok blob ∧
        (users (st_db s) !! recipient ≫= u_sealed_delivery_token) = Some token ∧
        devices ≠ [] ∧ NoDup devices ∧
        rows (sealed_relay_messages (st_db s')) =
          rows t ++ zip_with (sealed_row recipient blob (st_utc s)) devices ids ∧
        next_id (sealed_relay_messages (st_db s')) = (next_id t + Z.of_nat (length devices))%Z ∧
        st_sealed_realtime_hub s' =
          foldl (announce_sealed recipient blob (st_utc s)) (st_sealed_realtime_hub s) (zip devices ids) ∧
        resp = mkSealedRelayResponse (length devices) (Some (next_id t)) (st_utc s)
  | (s', Err _) =>
      sealed_relay_messages (st_db s') = t ∧ st_sealed_realtime_hub s' = st_sealed_realtime_hub s
  end.
Proof.
  intros t devices ids. destruct (relay_sealed_message peer headers recipient request s) as [s' [resp|e]] eqn:H.
  - unfold relay_sealed_message in H. run1 H H0. run1 H H1.
    apply (steps_run quiet) in H1; [|case_match; auto with steps typeclass_instances].
    run1 H H2. run1 H H3. run1 H Htok. run1 H Hblob. run1 H H4.
    apply (steps_run dedup_step) in H4; [|apply steps_observe_relay_dedup].
    assert (Hq : dedup_step s s2) by (etrans; [apply coarse; by etrans|done]).
    run1 H H5. run1 H H6. run1 H H7. destruct (users (st_db s2) !! recipient ≫= _) as [stored|] eqn:Hst; [|done].
    run1 H H8. run1 H H9. run1 H Hne. run1 H H10. run1 H H12. subst stored.
    pose proof (sealed_tail recipient a0 ((active_devices recipient (st_db s2)).*1) (st_utc s2) s2) as Htail.
    unfold sealed_row in Htail at 1. rewrite Htail in H12. clear Htail. injection H12 as <- <-.
    run1 H H13. injection H13 as <-. injection H as <- <-. apply bool_decide_eq_false in Hne.
    destruct (dedup_step_db _ _ Hq) as [m Hdb]. rewrite (dedup_step_utc _ _ Hq).
    assert (Hact : (active_devices recipient (st_db s2)).*1 = devices) by (by rewrite Hdb).
    assert (Ht : sealed_relay_messages (st_db s2) = t) by (by rewrite Hdb).
    rewrite Hact in Hne |- *.
    cbn [st_db set_db set_sealed_hub st_sealed_realtime_hub sealed_relay_messages set_sealed_relay_messages
      rows next_id]. rewrite Ht. fold ids. exists a, a0. rewrite Hdb in Hst.
    split_and!; try done; [apply NoDup_active_devices|by rewrite (dedup_step_sealed_hub _ _ Hq), foldl_announce_sealed|].
    f_equal. unfold ids. destruct devices as [|dev devices']; [done|]. rewrite seqZ_cons by (simpl; lia). done.
  - apply relay_sealed_fails in H. destruct (dedup_step_db _ _ H) as [m ->].
    by rewrite (dedup_step_sealed_hub _ _ H).
Qed.

(** ** The deduplication window *)

Section Window.
Context `{P : Primitives} `{V : Ed25519} `{B : Base64} `{X : Hex} `{I : HashIter} `{U : !Uuid}.

(** Keys that have not expired are kept. *)
Definition dedup_keeps : relation AppState := λ s s',
  st_utc s' = st_utc s ∧
  ∀ k e, relay_dedup (st_db s) !! k = Some e → (timestamp (st_utc s) < e)%Z →
    relay_dedup (st_db s') !! k = Some e.

#[global] Instance dedup_keeps_preorder : PreOrder dedup_keeps.
Proof.
  split; [by split|]. intros s1 s2 s3 [E1 H1] [E2 H2]. split; [congruence|].
  intros k e Hk Hlt. apply H2; [by apply H1|by rewrite E1].
Qed.

#[global] Instance dedup_keeps_coarse : Coarse dedup_keeps.
Proof. intros s s' Hq. split; [by apply quiet_utc|]. by rewrite (quiet_db _ _ Hq). Qed.

#[global] Instance dedup_keeps_rollback : Rollback dedup_keeps.
Proof. by intros s s' [E H]. Qed.

Lemma purge_now_run (s : AppState) : ∃ s1 b, purge_now s = (s1, Ok b) ∧ quiet s s1.
Proof.
  unfold purge_now, os_rng, sm_bind, sm_ret. destruct (rng_fill 1 (st_rng s)) as [l g].
  eexists _, _. split; [reflexivity|]. apply quiet_set_rng.
Qed.

Lemma observe_relay_dedup_spec (key : bytes) (s s' : AppState) (r : app bool) :
  observe_relay_dedup key s = (s', r) →
  let now := timestamp (st_utc s) in
  dedup_keeps s s' ∧ ∃ fresh, r = Ok fresh ∧
    (fresh = true → relay_dedup (st_db s') !! key = Some (now + RELAY_DEDUP_TTL_SECONDS)%Z) ∧
    ∀ e, relay_dedup (st_db s) !! key = Some e → (now < e)%Z → fresh = false.
Proof.
  intros H now. unfold observe_relay_dedup in H. erewrite sm_bind_ok in H by reflexivity. fold now in H.
  destruct (purge_now_run s) as (s1 & b & E1 & Hq). rewrite (sm_bind_ok _ _ _ _ _ E1) in H.
  set (s2 := if b then set_db (set_relay_dedup (filter (λ '(_, expires), ¬ (expires ≤ now)%Z)
                                (relay_dedup (st_db s1))) (st_db s1)) s1 else s1).
  assert (Hk2 : dedup_keeps s s2).
  { destruct (coarse (R := dedup_keeps) _ _ Hq) as [Eu Hk]. unfold s2. destruct b; [|done].
    split; [done|]. intros k e He Hlt. simpl. apply map_lookup_filter_Some. split; [by apply Hk|lia]. }
  erewrite (sm_bind_ok _ _ _ s2) in H by (unfold s2; destruct b; reflexivity).
  erewrite sm_bind_ok in H by reflexivity. destruct Hk2 as [Eu Hk2].
  destruct (relay_dedup (st_db s2) !! key) as [old|] eqn:Eold; [destruct (Z.leb_spec old now)|];
    injection H as <- <-; (split; [split; [done|]; intros k e He Hlt; fold now in Hlt; specialize (Hk2 k e He Hlt)|]).
  - simpl. rewrite lookup_insert_ne; [done|]. intros ->. assert (old = e) as -> by congruence. lia.
  - exists true. split_and!; [done|intros _; apply lookup_insert_eq|].
    intros e He Hlt. specialize (Hk2 key e He Hlt). assert (old = e) as -> by congruence. lia.
  - done.
  - by exists false.
  - simpl. rewrite lookup_insert_ne; [done|]. intros ->. congruence.
  - exists true. split_and!; [done|intros _; apply lookup_insert_eq|].
    intros e He Hlt. specialize (Hk2 key e He Hlt). congruence.
Qed.

Lemma observe_relay_dedup_keeps (key : bytes) : steps dedup_keeps (observe_relay_dedup key).
Proof.
  intros s. destruct (observe_relay_dedup key s) as [s' r] eqn:E. by apply observe_relay_dedup_spec in E as [? _].
Qed.

(** A step that does not write the table. *)
Local Ltac kept := by split.
Local Ltac keeps :=
  repeat first [ solve [apply observe_relay_dedup_keeps] | step1 | apply steps_supported; apply _
               | apply steps_direct_supported; apply _ | solve [kept] ].

Lemma inserts_keep {R} (table : Db → Table R) (set_table : Table R → Db → Db) (mk : bytes → Z → R)
    (devices : list bytes) :
  (∀ t d, relay_dedup (set_table t d) = relay_dedup d) →
  steps dedup_keeps (insert_for_devices table set_table mk devices).
Proof.
  intros Hset. induction devices as [|dev devices IH]; cbn [insert_for_devices]; keeps; auto.
  split; [done|]. simpl. by rewrite Hset.
Qed.

Lemma after_call_keeps (c : MessagingCall) (s : AppState) : dedup_keeps s (after_call c s).
Proof.
  assert (Hdel : ∀ u ids dev n, steps dedup_keeps (delete_ids u dev ids n)).
  { induction ids; intros; cbn [delete_ids]; keeps; auto. }
  assert (Hpub : ∀ u l, steps dedup_keeps (publish_direct u l)) by (intros u l s1; kept).
  assert (Hpub' : ∀ u l, steps dedup_keeps (publish_sealed u l)) by (intros u l s1; kept).
  destruct c; cbn [after_call]; revert s;
    match goal with |- ∀ s, dedup_keeps s (?c s).1 => change (steps dedup_keeps c) end;
    unfold relay_message, relay_sealed_message, get_inbox, get_sealed_inbox, poll, create_ws_inbox_ticket,
      create_ws_sealed_inbox_ticket, create_ticket, ws_inbox, ws_sealed_inbox, open_socket,
      authenticate_connection, consume_ticket, consume_ws_inbox_ticket_unchecked, purge_expired_ws_inbox_tickets,
      enforce_cursor_monotonic, load_messages, update_cursor, delete_inbox_messages, delete_relays,
      issue_sender_certificate;
    keeps; auto using inserts_keep.
Qed.

(** Requests of the service, and steps that leave the table alone while time
    passes. *)
Inductive service_history : AppState → AppState → Prop :=
| history_refl s : service_history s s
| history_call s s1 c : service_history s s1 → service_history s (after_call c s1)
| history_other s s1 s2 :
    service_history s s1 → relay_dedup (st_db s2) = relay_dedup (st_db s1) → (st_utc s1 ≤ st_utc s2)%Z →
    service_history s s2.

Lemma history_clock (s : AppState) (utc : Z) (instant : N) :
  (st_utc s ≤ utc)%Z → service_history s (set_clock utc instant s).
Proof. intros Hu. by apply (history_other s s); [constructor|..]. Qed.

Lemma timestamp_mono (t t' : Z) : (t ≤ t')%Z → (timestamp t ≤ timestamp t')%Z.
Proof. unfold timestamp, NANOS. apply Z.div_le_mono. lia. Qed.

Lemma history_keeps (s s' : AppState) (k : bytes) (e : Z) :
  service_history s s' → relay_dedup (st_db s) !! k = Some e → (timestamp (st_utc s') < e)%Z →
  relay_dedup (st_db s') !! k = Some e ∧ (st_utc s ≤ st_utc s')%Z.
Proof.
  intros Hh Hk. induction Hh as [s|s s1 c Hh IH|s s1 s2 Hh IH Hd Hu]; intros Hlt.
  - split; [done|lia].
  - destruct (after_call_keeps c s1) as [Eu Hkeep]. rewrite Eu in Hlt |- *.
    destruct (IH Hk Hlt). split; [by apply Hkeep|done].
  - pose proof (timestamp_mono _ _ Hu). destruct (IH Hk ltac:(lia)). rewrite Hd. split; [done|lia].
Qed.

(** An accepted relay leaves its key; a relay whose key has not expired is
    refused. *)
Lemma relay_ok_key (recipient : bytes) (headers : HeaderMap) (request : RelayRequest) (s s' : AppState)
    (resp : RelayResponse) :
  relay_message recipient headers request s = (s', Ok resp) →
  ∃ blob, decode_base64_range (lit "message_bytes_base64") (rr_message_bytes_base64 request) 1 MAX_MESSAGE_BYTES
            = Ok blob ∧
    let key := relay_dedup_key (rr_sender_user_id request) recipient blob in
    (∀ e, relay_dedup (st_db s) !! key = Some e → (e ≤ timestamp (st_utc s))%Z) ∧
    relay_dedup (st_db s') !! key = Some (timestamp (st_utc s) + RELAY_DEDUP_TTL_SECONDS)%Z ∧
    st_utc s' = st_utc s.
Proof.
  unfold relay_message. intros H. run1 H H0. apply (steps_run quiet) in H0; [|apply steps_direct_supported, _].
  run1 H H1. run1 H H2. run1 H H3. run1 H H4. run1 H Hblob. run1 H Hauth. run1 H Huser. run1 H Hdev. run1 H Hm.
  run1 H H5. apply (steps_run quiet) in H5; [|auto with steps].
  assert (Hq : quiet s s2) by (by etrans; [|etrans]).
  run1 H H6. apply observe_relay_dedup_spec in H6 as [[Hu _] (fresh & [= ->] & Hnew & Hold)].
  rewrite (quiet_db _ _ Hq), (quiet_utc _ _ Hq) in *. exists a. split; [done|].
  run1 H H7. apply negb_false_iff in H7. subst fresh.
  run1 H H8. run1 H H9. run1 H H10. run1 H H11. run1 H H12. run1 H H13.
  unfold transaction in H13. rewrite insert_for_devices_run in H13; [|done|done|by intros []].
  injection H13 as <- <-. run1 H H14. injection H14 as <-. injection H as <- <-.
  split_and!; [|by apply Hnew|].
  - intros e He. specialize (Hold e He). destruct (Z.le_gt_cases e (timestamp (st_utc s))); [done|].
    specialize (Hold ltac:(lia)). done.
  - exact Hu.
Qed.
End Window.

(** C22: The same message of the same sender to the same recipient is not stored
    twice within 900 seconds, whatever requests of the service run in between.
    The seconds are those of the clock, rounded down. *)
Theorem relay_dedup_window (P : Primitives) (V : Ed25519) (B : Base64) (X : Hex) (I : HashIter) (U : Uuid)
    (recipient : bytes) (headers headers' : HeaderMap) (request request' : RelayRequest)
    (s1 s1' s2 : AppState) (resp : RelayResponse) :
  relay_message recipient headers request s1 = (s1', Ok resp) →
  service_history s1' s2 →
  rr_sender_user_id request' = rr_sender_user_id request →
  rr_message_bytes_base64 request' = rr_message_bytes_base64 request →
  (timestamp (st_utc s2) < timestamp (st_utc s1) + RELAY_DEDUP_TTL_SECONDS)%Z →
  is_ok (relay_message recipient headers' request' s2).2 = false.
Proof.
  intros H1 Hh Hs Hb Hlt. destruct (relay_message recipient headers' request' s2) as [s2' [resp'|e]] eqn:H2; [|done].
  apply relay_ok_key in H1 as (blob & Hblob & _ & Hkey & Hu).
  apply relay_ok_key in H2 as (blob' & Hblob' & Hold & _). rewrite Hb in Hblob'.
  assert (blob' = blob) as -> by congruence. rewrite Hs in Hold.
  destruct (history_keeps _ _ _ _ Hh Hkey Hlt) as [Hk _]. specialize (Hold _ Hk). lia.
Qed.

(** Alice sends a message to both devices of Bob, and again 14 minutes later. *)
Definition toy_relay : RelayRequest :=
  {| rr_sender_user_id := lit "alice"; rr_device_id := lit "d1";
     rr_message_bytes_base64 := b64_encode (lit "hi there") |}.

Definition toy_relay_headers (ts : Z) (nonce : bytes) : HeaderMap :=
  toy_headers (lit "alice") (lit "d1") 101 ts nonce (λ a, relay_auth_message a (lit "bob") (lit "hi there")).

Lemma relay_dedup_window_witness :
  let s1 := toy_state 1000000000000 0 toy_db in
  let h1 := toy_relay_headers 1000 (lit "n1") in
  let r1 := relay_message (lit "bob") h1 toy_relay s1 in
  let s2 := set_clock 1840000000000 840000000000 r1.1 in
  let h2 := toy_relay_headers 1840 (lit "n2") in
  r1.2 = Ok (mkRelayResponse 1 2 1000000000000) ∧ is_ok (relay_message (lit "bob") h2 toy_relay s2).2 = false.
Proof.
  intros s1 h1 r1 s2 h2.
  assert (E : r1.2 = Ok (mkRelayResponse 1 2 1000000000000)) by (vm_compute; reflexivity).
  split; [exact E|].
  refine (relay_dedup_window Toy ToyEd ToyBase64 ToyHex MapOrder ToyUuid (lit "bob") h1 h2 toy_relay toy_relay
    s1 r1.1 s2 (mkRelayResponse 1 2 1000000000000) (pair_ok r1 _ E) (history_clock r1.1 _ _ _) eq_refl eq_refl _).
  - vm_compute. discriminate.
  - vm_compute. reflexivity.
Defined.
