(* ===== verification/InboxSocket.v ===== *)
(** * Live inboxes ([handle_ws_inbox_socket], [handle_ws_sealed_inbox_socket])

    A socket is a state machine next to the server: it subscribes to the hub,
    sends the first page of the backlog, and then reacts to what the client
    sends, to announcements and to a timer. A send may fail, which an event
    says. The database does not fail and envelopes serialise, so the branches
    for these errors are not reached. *)

From Stdlib Require Import Strings.Byte.
From stdpp Require Import sorting.
From S2P Require Import Prelude Bytes Errors Tlv Crypto Toy Alg Sealed ServerError Validation RequestAuth Caches Realtime ServerState ToyServer ServerFrame Messaging Delivery.
Local Open Scope N_scope.

(** What the server sends: the envelopes "sync" and "relay", and control
    frames. *)
Inductive Frame (item : Type) : Type :=
| FrameSync (messages : list item)
| FrameRelay (message : item)
| FramePing
| FramePong (payload : bytes)
| FrameClose.
Arguments FrameSync {item}.
Arguments FrameRelay {item}.
Arguments FramePing {item}.
Arguments FramePong {item}.
Arguments FrameClose {item}.

(** What [client_stream.next()] yields. *)
Inductive Inbound : Type :=
| InClose | InPing (payload : bytes) | InPong | InOther | InError | InEnd.

(** The branches of the [select!], each with the outcome of the send it makes. *)
Inductive SocketEvent : Type :=
| EvInbound (m : Inbound) (sent : bool)
| EvReceive (sent : bool)
| EvTick (sent : bool).

Record Socket (item : Type) := mkSocket {
  sk_subscriber : N;
  sk_last_message_id : Z;
  sk_last_activity : N;
  sk_open : bool;
  (** The frames handed to the client, oldest first. *)
  sk_sent : list (Frame item);
}.
Arguments mkSocket {item}.
Arguments sk_subscriber {item}.
Arguments sk_last_message_id {item}.
Arguments sk_last_activity {item}.
Arguments sk_open {item}.
Arguments sk_sent {item}.

Definition IDLE_TIMEOUT : N := 90 * 1000000000.

Section Sockets.
Context `{P : Primitives} `{V : Ed25519} `{B : Base64} `{X : Hex} `{I : HashIter} `{U : !Uuid}.
Context {row item : Type} (mb : Mailbox row item) (user_id device_id : bytes).
Implicit Type s : AppState.
Implicit Type k : Socket item.

(** [sender.send]: the frame is delivered, or the send fails. *)
Definition with_sent (f : Frame item) (ok : bool) k : Socket item :=
  mkSocket (sk_subscriber k) (sk_last_message_id k) (sk_last_activity k) (sk_open k)
    (if ok then sk_sent k ++ [f] else sk_sent k).

Definition with_activity (now : N) k : Socket item :=
  mkSocket (sk_subscriber k) (sk_last_message_id k) now (sk_open k) (sk_sent k).

Definition with_last (last : Z) k : Socket item :=
  mkSocket (sk_subscriber k) last (sk_last_activity k) (sk_open k) (sk_sent k).

(** [unsubscribe] and return, which drops the receiver. *)
Definition leave s k : AppState * Socket item :=
  (mb_set_hub mb (drop_receiver (sk_subscriber k)
                    (unsubscribe user_id device_id (sk_subscriber k) (mb_hub mb s))) s,
   mkSocket (sk_subscriber k) (sk_last_message_id k) (sk_last_activity k) false (sk_sent k)).

(** Up to the loop. *)
Definition socket_start (since : Z) (sent : bool) s : AppState * Socket item :=
  let '(h, subscriber_id) := subscribe user_id device_id (mb_hub mb s) in
  let s := mb_set_hub mb h s in
  let backlog_messages := map (mb_item mb) (take MAX_INBOX_PAGE (pending mb user_id device_id since (st_db s))) in
  let last_message_id := default since (max_id mb backlog_messages) in
  let k := mkSocket subscriber_id last_message_id (st_instant s) true [] in
  let k := match backlog_messages with [] => k | _ => with_sent (FrameSync backlog_messages) sent k end in
  match backlog_messages, sent with
  | _ :: _, false => leave s k
  | _, _ => ((update_cursor mb user_id device_id last_message_id s).1, k)
  end.

(** The sending half of the channel is held by the hub. *)
Definition sender_alive (id : N) (h : Hub item) : bool :=
  existsb (λ e : bytes * list N, existsb (N.eqb id) e.2) (map_to_list (hub_inner h)).

(** One turn of the loop; a branch that is not ready changes nothing. *)
Definition socket_step (e : SocketEvent) (s : AppState) (k : Socket item) : AppState * Socket item :=
  if sk_open k then
    match e with
    | EvInbound InClose _ | EvInbound InError _ | EvInbound InEnd _ => leave s k
    | EvInbound (InPing payload) sent =>
        let k := with_sent (FramePong payload) sent (with_activity (st_instant s) k) in
        if sent then (s, k) else leave s k
    | EvInbound InPong _ | EvInbound InOther _ => (s, with_activity (st_instant s) k)
    | EvReceive sent =>
        match recv (sk_subscriber k) (mb_hub mb s) with
        | (None, _) => if sender_alive (sk_subscriber k) (mb_hub mb s) then (s, k) else leave s k
        | (Some message, h) =>
            let s := mb_set_hub mb h s in
            if (mb_item_id mb message <=? sk_last_message_id k)%Z then (s, k)
            else
              let last_message_id := mb_item_id mb message in
              let k := with_sent (FrameRelay message) sent (with_last last_message_id k) in
              if sent then
                ((update_cursor mb user_id device_id last_message_id s).1,
                 with_activity (st_instant s) k)
              else leave s k
        end
    | EvTick sent =>
        if IDLE_TIMEOUT <? st_instant s - sk_last_activity k
        then leave s (with_sent FrameClose sent k)
        else
          let k := with_sent FramePing sent k in
          if sent then (s, k) else leave s k
    end
  else (s, k).

(** ** What the client receives *)

Definition frame_ids (f : Frame item) : list Z :=
  match f with
  | FrameSync messages => map (mb_item_id mb) messages
  | FrameRelay message => [mb_item_id mb message]
  | _ => []
  end.

Definition sent_ids k : list Z := concat (map frame_ids (sk_sent k)).

Lemma sent_ids_with (f : Frame item) (ok : bool) k :
  sent_ids (with_sent f ok k) = if ok then sent_ids k ++ frame_ids f else sent_ids k.
Proof.
  unfold sent_ids, with_sent. cbn [sk_sent]. destruct ok; [|done].
  rewrite map_app, concat_app. simpl. by rewrite app_nil_r.
Qed.

(** The server next to the socket: any step that only moves cursors forward. *)
Definition cursors_grow (d d' : Db) : Prop :=
  ∀ key c, mb_cursors mb d !! key = Some c → ∃ c', mb_cursors mb d' !! key = Some c' ∧ (c ≤ c')%Z.

Inductive socket_run (since : Z) : AppState → Socket item → Prop :=
| socket_started sent s : mailbox_wf mb (st_db s) →
    socket_run since (socket_start since sent s).1 (socket_start since sent s).2
| socket_event e s k : socket_run since s k →
    socket_run since (socket_step e s k).1 (socket_step e s k).2
| socket_server s s' k : socket_run since s k → cursors_grow (st_db s) (st_db s') → socket_run since s' k.

(** What holds along every run: identifiers increase up to the last one, and an
    open socket has moved the cursor past all of them. *)
Record socket_inv (since : Z) (s : AppState) (k : Socket item) : Prop := {
  si_sorted : StronglySorted Z.lt (sent_ids k);
  si_above : ∀ x, x ∈ sent_ids k → (since < x ≤ sk_last_message_id k)%Z;
  si_since : (since ≤ sk_last_message_id k)%Z;
  si_cursor : sk_open k = true → ∃ c, mb_cursors mb (st_db s) !! (user_id, device_id) = Some c ∧
    (sk_last_message_id k ≤ c)%Z;
}.

Context `{HL : !MailboxLaws mb}.

Lemma leave_db s k : st_db (leave s k).1 = st_db s.
Proof. apply mb_hub_db. Qed.

Lemma update_cursor_run (m : Z) s :
  ∃ c, mb_cursors mb (st_db (update_cursor mb user_id device_id m s).1) !! (user_id, device_id) = Some c ∧
    (m ≤ c)%Z.
Proof.
  unfold update_cursor, execute, sm_modify. cbn [fst st_db set_db]. rewrite mb_cursors_set, lookup_partial_alter_eq.
  eexists. split; [reflexivity|]. case_match; [|lia]. destruct (Z.ltb_spec m z); lia.
Qed.

Lemma inv_leave since s k : socket_inv since s k → socket_inv since (leave s k).1 (leave s k).2.
Proof. by intros [Hs Ha Hg _]. Qed.

Lemma inv_control since s k (f : Frame item) (ok : bool) :
  frame_ids f = [] → socket_inv since s k → socket_inv since s (with_sent f ok k).
Proof.
  intros Hf [Hs Ha Hg Hc].
  assert (E : sent_ids (with_sent f ok k) = sent_ids k).
  { rewrite sent_ids_with, Hf, app_nil_r. by destruct ok. }
  split; rewrite ?E; done.
Qed.

Lemma inv_activity since s k (now : N) : socket_inv since s k → socket_inv since s (with_activity now k).
Proof. by intros [Hs Ha Hg Hc]. Qed.

Lemma inv_db since s s' k :
  mb_cursors mb (st_db s') = mb_cursors mb (st_db s) → socket_inv since s k → socket_inv since s' k.
Proof. intros E [Hs Ha Hg Hc]. split; [done..|]. by rewrite E. Qed.

Lemma inv_start since (sent : bool) s :
  mailbox_wf mb (st_db s) →
  socket_inv since (socket_start since sent s).1 (socket_start since sent s).2.
Proof.
  intros Hwf. unfold socket_start. destruct (subscribe user_id device_id (mb_hub mb s)) as [h id].
  rewrite mb_hub_db. fold (page mb user_id device_id since (st_db s)).
  pose proof (page_sorted mb user_id device_id since (st_db s) Hwf) as Hsort.
  pose proof (page_above mb user_id device_id since (st_db s)) as Habove.
  destruct (next_since_spec mb user_id device_id since (st_db s) Hwf) as (Hge & Hup & _).
  fold (next_since mb since (page mb user_id device_id since (st_db s))).
  set (p := page mb user_id device_id since (st_db s)) in *. set (last := next_since mb since p) in *.
  set (k0 := mkSocket id last _ true []).
  assert (H0 : ∀ k, sk_last_message_id k = last → sent_ids k = [] ∨ sent_ids k = map (mb_item_id mb) p →
    StronglySorted Z.lt (sent_ids k) ∧ (∀ x, x ∈ sent_ids k → (since < x ≤ sk_last_message_id k)%Z) ∧
    (since ≤ sk_last_message_id k)%Z).
  { intros k -> [->| ->]; split_and!; try done; [constructor|set_solver|].
    intros x Hx. split; [by apply Habove|by apply Hup]. }
  assert (Hk : ∀ b, sent_ids (with_sent (FrameSync p) b k0) = [] ∨ sent_ids (with_sent (FrameSync p) b k0) = map (mb_item_id mb) p).
  { intros b. rewrite sent_ids_with. destruct b; [by right|by left]. }
  destruct p as [|m p'] eqn:Ep; [|destruct sent]; cbn [fst snd].
  - destruct (H0 k0 eq_refl ltac:(by left)) as (?&?&?). split; [done..|]. intros _. apply update_cursor_run.
  - destruct (H0 (with_sent (FrameSync (m :: p')) true k0) eq_refl (Hk true)) as (?&?&?). split; [done..|]. intros _. apply update_cursor_run.
  - destruct (H0 (with_sent (FrameSync (m :: p')) false k0) eq_refl (Hk false)) as (?&?&?). by split.
Qed.

Lemma inv_relay since s k (message : item) (sent : bool) :
  socket_inv since s k → (sk_last_message_id k < mb_item_id mb message)%Z →
  let k' := with_sent (FrameRelay message) sent (with_last (mb_item_id mb message) k) in
  StronglySorted Z.lt (sent_ids k') ∧ (∀ x, x ∈ sent_ids k' → (since < x ≤ sk_last_message_id k')%Z) ∧
  (since ≤ sk_last_message_id k')%Z.
Proof.
  intros [Hs Ha Hg Hc] Hlt k'. unfold k'. rewrite sent_ids_with. cbn [sk_last_message_id with_sent with_last frame_ids].
  change (sent_ids (with_last (mb_item_id mb message) k)) with (sent_ids k). destruct sent.
  - split_and!; [|intros x [Hx%Ha| ->%list_elem_of_singleton]%elem_of_app; lia|lia].
    apply StronglySorted_app_2; [|done|repeat constructor].
    intros x y Hx%Ha ->%list_elem_of_singleton. lia.
  - split_and!; [done|intros x Hx%Ha; lia|lia].
Qed.

Lemma inv_step since e s k :
  socket_inv since s k → socket_inv since (socket_step e s k).1 (socket_step e s k).2.
Proof.
  intros Hinv. unfold socket_step. destruct (sk_open k) eqn:Eo; [|done].
  destruct e as [m sent|sent|sent].
  - destruct m; try by apply inv_leave.
    + destruct sent; [|apply inv_leave]; by apply inv_control, inv_activity.
    + by apply inv_activity.
    + by apply inv_activity.
  - destruct (recv (sk_subscriber k) (mb_hub mb s)) as [[message|] h]; [|case_match; [done|by apply inv_leave]].
    assert (Hinv' : socket_inv since (mb_set_hub mb h s) k) by (eapply inv_db; [|done]; by rewrite mb_hub_db).
    destruct (Z.leb_spec (mb_item_id mb message) (sk_last_message_id k)); [done|].
    destruct (inv_relay since _ k message sent Hinv' ltac:(lia)) as (Hs & Ha & Hg). destruct sent.
    + apply inv_activity. split; [done..|]. intros _. apply update_cursor_run.
    + by split.
  - case_match; [by apply inv_leave, inv_control|]. destruct sent; [|apply inv_leave]; by apply inv_control.
Qed.

Lemma socket_run_inv since s k : socket_run since s k → socket_inv since s k.
Proof.
  induction 1 as [sent s Hwf|e s k Hrun IH|s s' k Hrun IH Hgrow].
  - by apply inv_start.
  - by apply inv_step.
  - destruct IH as [Hs Ha Hg Hc]. split; [done..|]. intros Ho. destruct (Hc Ho) as (c & Hc' & Hle).
    destruct (Hgrow _ _ Hc') as (c' & ? & ?). exists c'. split; [done|lia].
Qed.
End Sockets.

Definition handle_ws_inbox_socket `{P : Primitives} `{B : Base64} (user_id device_id : bytes) (since : Z)
    (sent : bool) : AppState → AppState * Socket InboxItem :=
  socket_start direct_mailbox user_id device_id since sent.
Definition handle_ws_sealed_inbox_socket `{P : Primitives} `{B : Base64} (user_id device_id : bytes) (since : Z)
    (sent : bool) : AppState → AppState * Socket SealedInboxItem :=
  socket_start sealed_mailbox user_id device_id since sent.



(** A backlog of more than one page: the socket sends the first 200 messages and
    moves the cursor there; the first live message then moves it past the rest,
    which neither the socket nor any poll delivers. *)
Definition backlog_state : @AppState Toy :=
  toy_state 1000000000000 0
    (set_relay_messages (mkTable (map (λ i, toy_message i (lit "d1")) (seqZ 1 201)) 202) toy_db).

Lemma socket_skips_backlog :
  let r0 := handle_ws_inbox_socket (lit "bob") (lit "d1") 0 true backlog_state in
  let headers := toy_headers (lit "alice") (lit "d1") 101 1000 (lit "n5")
                   (λ a, relay_auth_message a (lit "bob") (lit "live")) in
  let s1 := (relay_message (lit "bob") headers {| rr_sender_user_id := lit "alice"; rr_device_id := lit "d1";
               rr_message_bytes_base64 := b64_encode (lit "live") |} r0.1).1 in
  let r1 := socket_step direct_mailbox (lit "bob") (lit "d1") (EvReceive true) s1 r0.2 in
  sent_ids direct_mailbox r1.2 = seqZ 1 200 ++ [203%Z] ∧
  201%Z ∈ map rm_message_id (rows (relay_messages (st_db r1.1))) ∧
  (get_inbox (lit "bob") (bob_headers (lit "n6") 200) (Some 200%Z) r1.1).2 =
    Err (conflict (lit "inbox since cursor regressed for this authenticated session")).
Proof.
  intros r0 headers s1 r1. split; [vm_compute; reflexivity|]. split.
  - apply (bool_decide_unpack _). vm_compute. exact I.
  - vm_compute. reflexivity.
Qed.
