(* ===== verification/PrekeyServer.v ===== *)
(** * Prekeys and identity rotation ([handlers/prekeys.rs], [handlers/util.rs])

    Publication of prekeys, the bundle a client fetches, with the one-time keys
    it consumes, the rotation of an identity in two steps and the identity
    log. The ML-DSA backend is the parameter [MlDsa65_new]. The theorems: the
    one-time keys of an upload are handed out in order, each once, down to the
    reserve; a published signed prekey verifies under the identity served with
    it; a rotation needs the four signatures, happens once per challenge and
    leaves one active device. *)

From Stdlib Require Import Strings.Byte.
From S2P Require Import Prelude Bytes Errors Tlv Crypto Toy Alg Keys PqSig ServerError Validation RequestAuth Caches Realtime ServerState ToyServer ServerFrame ServerAuth Messaging Delivery.
Local Open Scope N_scope.

(** ** Responses ([types.rs]) *)

Record PublishPrekeysResponse := mkPublished {
  pr_user_id : bytes;
  pr_device_id : bytes;
  pr_uploaded_one_time_prekeys_x25519 : nat;
  pr_uploaded_one_time_prekeys_mlkem768 : nat;
  pr_remaining_one_time_prekeys_x25519 : Z;
  pr_remaining_one_time_prekeys_mlkem768 : Z;
  pr_low_one_time_prekeys : bool;
  pr_minimum_recommended_one_time_prekeys : Z;
  pr_updated_at : Z;
}.

Record PrekeysStatusResponse := mkStatus {
  ps_user_id : bytes;
  ps_device_id : bytes;
  ps_remaining_one_time_prekeys_x25519 : Z;
  ps_remaining_one_time_prekeys_mlkem768 : Z;
  ps_low_one_time_prekeys : bool;
  ps_minimum_recommended_one_time_prekeys : Z;
  ps_checked_at : Z;
}.

Record BundleResponse := mkBundle {
  bu_user_id : bytes;
  bu_device_id : bytes;
  bu_identity_x25519_pub : bytes;
  bu_identity_sig_pub : bytes;
  bu_identity_pq_sig_pub : bytes;
  bu_signed_prekey_x25519_pub : bytes;
  bu_sig_over_spk : bytes;
  bu_pq_signed_prekey_pub_mlkem768 : bytes;
  bu_sig_over_pqspk : bytes;
  bu_pq_sig_over_spk : bytes;
  bu_pq_sig_over_pqspk : bytes;
  bu_one_time_prekey_x25519 : option bytes;
  bu_one_time_prekey_mlkem768 : option bytes;
  bu_remaining_one_time_prekeys_x25519 : Z;
  bu_remaining_one_time_prekeys_mlkem768 : Z;
  bu_low_one_time_prekeys : bool;
  bu_minimum_recommended_one_time_prekeys : Z;
  bu_last_resort_prekey_only : bool;
  bu_identity_key_version : Z;
  bu_identity_fingerprint_sha256 : bytes;
  bu_bundle_generated_at : Z;
}.

Record RotateInitResponse := mkRotateInit {
  rp_user_id : bytes;
  rp_challenge_id : bytes;
  rp_challenge_nonce : bytes;
  rp_expires_at : Z;
}.

Record RotateConfirmResponse := mkRotateConfirm {
  rf_user_id : bytes;
  rf_identity_key_version : Z;
  rf_identity_fingerprint_sha256 : bytes;
  rf_rotated_at : Z;
}.

Record IdentityLogItem := mkLogItem {
  li_version : Z;
  li_identity_x25519_pub : bytes;
  li_identity_sig_pub : bytes;
  li_identity_pq_sig_pub : option bytes;
  li_device_id : bytes;
  li_event_type : bytes;
  li_changed_at : Z;
  li_identity_fingerprint_sha256 : bytes;
}.

(** [u32::try_from] of an [i64]. *)
Definition u32_try_from (v : Z) : option Z := if (0 <=? v)%Z && (v <? 2 ^ 32)%Z then Some v else None.

(** Mapping a fallible function over a list, stopping at the first error. *)
Fixpoint traverse_app {A C} (f : A → app C) (l : list A) : app (list C) :=
  match l with
  | [] => Ok []
  | x :: l => let? y := f x in let? r := traverse_app f l in Ok (y :: r)
  end.

Section Prekeys.
Context `{P : Primitives} `{V : Ed25519} `{B : Base64} `{X : Hex} `{I : HashIter} `{U : !Uuid}.
Context (MlDsa65_new : option PqSignatureProvider).
Local Open Scope sm_scope.

(** ** One-time keys *)

(** The two tables of one-time keys. *)
Inductive OneTimeTable : Type := TableX25519 | TableMlkem768.

Definition one_time (t : OneTimeTable) (d : Db) : Table OneTimeRow :=
  match t with TableX25519 => one_time_prekeys_x25519 d | TableMlkem768 => one_time_prekeys_mlkem768 d end.

Definition set_one_time (t : OneTimeTable) (v : Table OneTimeRow) (d : Db) : Db :=
  match t with
  | TableX25519 => set_one_time_prekeys_x25519 v d
  | TableMlkem768 => set_one_time_prekeys_mlkem768 v d
  end.

Definition owned_by (user_id device_id : bytes) (r : OneTimeRow) : bool :=
  bool_decide (ot_user_id r = user_id) && bool_decide (ot_device_id r = device_id).

(** [WHERE user_id = $1 AND device_id = $2 AND consumed = 0], in the order of the
    identifiers. *)
Definition available (t : OneTimeTable) (user_id device_id : bytes) (d : Db) : list OneTimeRow :=
  filter (λ r, owned_by user_id device_id r && negb (ot_consumed r) = true) (rows (one_time t d)).

Definition set_consumed (r : OneTimeRow) : OneTimeRow :=
  mkOneTime (ot_id r) (ot_user_id r) (ot_device_id r) (ot_prekey r) true (ot_created_at r).

(** The two statements of [select_one_time_key]. *)
Definition select_available (t : OneTimeTable) (user_id device_id : bytes) : Handler (option (Z * bytes)) :=
  query (λ d, match available t user_id device_id d with
              | r :: _ => Some (ot_id r, ot_prekey r)
              | [] => None
              end).

Definition mark_consumed (t : OneTimeTable) (id : Z) : Handler unit :=
  execute (λ d, set_one_time t (update_rows (λ r, (ot_id r =? id)%Z) set_consumed (one_time t d)) d).

Definition select_one_time_key (t : OneTimeTable) (user_id device_id : bytes) : Handler (option bytes) :=
  row <- select_available t user_id device_id;;
  match row with
  | None => sm_ret None
  | Some (id, key) => mark_consumed t id;;; sm_ret (Some key)
  end.

Definition count_available_one_time_keys (t : OneTimeTable) (user_id device_id : bytes) : Handler Z :=
  query (λ d, Z.of_nat (length (available t user_id device_id d))).

Definition load_remaining_one_time_counts (user_id device_id : bytes) : Handler (Z * Z) :=
  remaining_x <- count_available_one_time_keys TableX25519 user_id device_id;;
  remaining_pq <- count_available_one_time_keys TableMlkem768 user_id device_id;;
  sm_ret (remaining_x, remaining_pq).

(** ** Publication *)

Definition enforce_prekey_publish_interval (user_id device_id : bytes) : Handler unit :=
  min_interval <- gets (λ s, prekey_publish_min_interval_seconds (st_dos_policy s));;
  if (min_interval <=? 0)%Z then sm_ret tt
  else
    row <- query (λ d, prekeys d !! (user_id, device_id));;
    match row with
    | None => sm_ret tt
    | Some row =>
        now <- gets st_utc;;
        reject_if (num_seconds (now - pk_updated_at row) <? min_interval)%Z
          (rate_limited (lit "prekey upload interval has not elapsed"))
    end.

(** The inserts of the one-time keys of an upload. *)
Definition insert_one_time (t : OneTimeTable) (user_id device_id : bytes) (now : Z) (keys : list bytes)
    : Handler unit :=
  execute (λ d, set_one_time t
    (foldl (λ tb key, (insert_row (λ id, mkOneTime id user_id device_id key false now) tb).1)
       (one_time t d) keys) d).

Definition publish_prekeys (user_id : bytes) (headers : HeaderMap) (request : PublishPrekeysRequest)
    : Handler PublishPrekeysResponse :=
  check_rate_limit (lit "prekeys:" ++ user_id);;;
  lift (validate_id (lit "user_id") user_id);;;
  auth <- lift (parse_request_auth headers);;
  reject_if (negb (bool_decide (ra_user_id auth = user_id))) (bad_request (lit "auth user_id mismatch"));;;
  auth_message <- lift (prekeys_auth_message auth request);;
  verify_request_auth auth auth_message;;;
  enforce_prekey_publish_interval user_id (ra_device_id auth);;;
  lift (validate_one_time_count (lit "one_time_prekeys_x25519")
          (N.of_nat (length (pp_one_time_prekeys_x25519 request))));;;
  lift (validate_one_time_count (lit "one_time_prekeys_mlkem768")
          (N.of_nat (length (pp_one_time_prekeys_mlkem768 request))));;;
  interval <- gets (λ s, pq_ratchet_interval (st_dos_policy s));;
  reject_if ((0 <? interval) && bool_decide (pp_one_time_prekeys_mlkem768 request = []))
    (bad_request (lit "PQ one-time prekeys required when pq_ratchet_interval > 0"));;;
  signed_prekey_x <- lift (decode_base64_exact (lit "signed_prekey_x25519_pub")
                             (pp_signed_prekey_x25519_pub request) X25519_KEY_LEN);;
  sig_over_spk <- lift (decode_base64_range (lit "sig_over_spk") (pp_sig_over_spk request) SIG_LEN SIG_LEN);;
  pq_signed_prekey <- lift (decode_base64_range (lit "pq_signed_prekey_pub_mlkem768")
                              (pp_pq_signed_prekey_pub_mlkem768 request) MIN_PQ_KEY_LEN MAX_PQ_KEY_LEN);;
  sig_over_pqspk <- lift (decode_base64_range (lit "sig_over_pqspk") (pp_sig_over_pqspk request)
                            SIG_LEN SIG_LEN);;
  pq_sig_over_spk <- lift (decode_base64_exact (lit "pq_sig_over_spk") (pp_pq_sig_over_spk request) PQ_SIG_LEN);;
  pq_sig_over_pqspk <- lift (decode_base64_exact (lit "pq_sig_over_pqspk") (pp_pq_sig_over_pqspk request)
                               PQ_SIG_LEN);;
  one_time_x <- lift (traverse_app (λ key, decode_base64_exact (lit "one_time_prekeys_x25519[]") key
                                      X25519_KEY_LEN) (pp_one_time_prekeys_x25519 request));;
  one_time_pq <- lift (traverse_app (λ key, decode_base64_range (lit "one_time_prekeys_mlkem768[]") key
                                       MIN_PQ_KEY_LEN MAX_PQ_KEY_LEN) (pp_one_time_prekeys_mlkem768 request));;
  user_row <- query (λ d, users d !! user_id);;
  user_row <- lift (ok_or user_row (not_found (lit "user not found")));;
  identity_pq_sig_pub <- lift (ok_or (u_identity_pq_sig_pub user_row)
    (conflict (lit "user must re-register with a PQ identity key before publishing prekeys")));;
  lift (validate_ml_dsa_public_key identity_pq_sig_pub);;;
  lift (verify_hybrid_prekey_signatures MlDsa65_new (u_identity_sig_pub user_row) identity_pq_sig_pub
          signed_prekey_x sig_over_spk pq_signed_prekey sig_over_pqspk pq_sig_over_spk pq_sig_over_pqspk);;;
  let device_id := ra_device_id auth in
  now <- gets st_utc;;
  transaction (
    execute (λ d, set_prekeys (<[(user_id, device_id) :=
      mkPrekey signed_prekey_x sig_over_spk pq_signed_prekey sig_over_pqspk (Some pq_sig_over_spk)
        (Some pq_sig_over_pqspk) now]> (prekeys d)) d);;;
    execute (λ d, set_one_time TableX25519 (delete_rows (owned_by user_id device_id) (one_time TableX25519 d)) d);;;
    execute (λ d, set_one_time TableMlkem768
      (delete_rows (owned_by user_id device_id) (one_time TableMlkem768 d)) d);;;
    insert_one_time TableX25519 user_id device_id now one_time_x;;;
    insert_one_time TableMlkem768 user_id device_id now one_time_pq);;;
  remaining <- load_remaining_one_time_counts user_id device_id;;
  sm_ret (mkPublished user_id device_id (length one_time_x) (length one_time_pq) remaining.1 remaining.2
            (is_prekey_inventory_low remaining.1 remaining.2) PREKEY_REPLENISH_TARGET now).

Definition get_prekeys_status (user_id : bytes) (headers : HeaderMap) : Handler PrekeysStatusResponse :=
  check_rate_limit (lit "prekeys-status:" ++ user_id);;;
  lift (validate_id (lit "user_id") user_id);;;
  ensure_user_exists user_id;;;
  auth <- lift (parse_request_auth headers);;
  reject_if (negb (bool_decide (ra_user_id auth = user_id))) (bad_request (lit "auth user_id mismatch"));;;
  auth_message <- lift (prekeys_status_auth_message auth user_id);;
  verify_request_auth auth auth_message;;;
  let device_id := ra_device_id auth in
  remaining <- load_remaining_one_time_counts user_id device_id;;
  now <- gets st_utc;;
  sm_ret (mkStatus user_id device_id remaining.1 remaining.2 (is_prekey_inventory_low remaining.1 remaining.2)
            PREKEY_REPLENISH_TARGET now).

(** ** Bundles *)

(** The row of the join of [users], [user_devices] and [prekeys]: the device
    asked for, or the active device linked first that has published. *)
Definition bundle_row (user_id : bytes) (target : option bytes) (d : Db)
    : option (bytes * UserRow * PrekeyRow) :=
  u ← users d !! user_id;
  let with_prekeys (dev : bytes) := (λ p, (dev, u, p)) <$> prekeys d !! (user_id, dev) in
  match target with
  | Some dev =>
      row ← user_devices d !! (user_id, dev);
      if d_active row then with_prekeys dev else None
  | None => head (omap with_prekeys (active_devices user_id d).*1)
  end.

(** [MAX(version)] of the identity events of a user. *)
Definition max_version (user_id : bytes) (d : Db) : option Z :=
  match map ev_version (filter (λ e, ev_user_id e = user_id) (rows (identity_events d))) with
  | [] => None
  | v :: l => Some (foldr Z.max v l)
  end.

Definition load_bundle_response (user_id : bytes) (device_id : option bytes) : Handler BundleResponse :=
  (match device_id with Some dev => lift (validate_id (lit "device_id") dev) | None => sm_ret tt end);;;
  loaded <- transaction (
    row <- query (bundle_row user_id device_id);;
    version <- query (λ d, default 1%Z (max_version user_id d));;
    row <- lift (ok_or row (not_found (lit "bundle not found")));;
    let '(device_id, u, p) := row in
    identity_pq_sig_pub_bytes <- lift (ok_or (u_identity_pq_sig_pub u)
      (conflict (lit "bundle missing mandatory PQ identity key; user must re-register")));;
    lift (validate_ml_dsa_public_key identity_pq_sig_pub_bytes);;;
    pq_sig_over_spk_bytes <- lift (ok_or (pk_pq_sig_over_spk p)
      (conflict (lit "bundle missing mandatory PQ signature over signed prekey; user must republish prekeys")));;
    pq_sig_over_pqspk_bytes <- lift (ok_or (pk_pq_sig_over_pqspk p)
      (conflict (lit "bundle missing mandatory PQ signature over PQ signed prekey; user must republish prekeys")));;
    remaining_x_before <- count_available_one_time_keys TableX25519 user_id device_id;;
    remaining_pq_before <- count_available_one_time_keys TableMlkem768 user_id device_id;;
    reserve <- gets (λ s, prekey_bundle_reserve_count (st_dos_policy s));;
    let reserve_count := Z.max reserve 0 in
    let consume_one_time := (reserve_count <? remaining_x_before)%Z && (reserve_count <? remaining_pq_before)%Z in
    x25519_otk <- (if consume_one_time then select_one_time_key TableX25519 user_id device_id else sm_ret None);;
    mlkem_otk <- (if consume_one_time then select_one_time_key TableMlkem768 user_id device_id else sm_ret None);;
    remaining_x <- count_available_one_time_keys TableX25519 user_id device_id;;
    remaining_pq <- count_available_one_time_keys TableMlkem768 user_id device_id;;
    sm_ret (row, version, (identity_pq_sig_pub_bytes, pq_sig_over_spk_bytes, pq_sig_over_pqspk_bytes),
            (x25519_otk, mlkem_otk), (remaining_x, remaining_pq)));;
  let '((device_id, u, p), version, (identity_pq_sig_pub_bytes, pq_sig_over_spk_bytes, pq_sig_over_pqspk_bytes),
        (x25519_otk, mlkem_otk), (remaining_x, remaining_pq)) := loaded in
  identity_key_version <- lift (ok_or (u32_try_from version) (internal (lit "identity_key_version overflow")));;
  now <- gets st_utc;;
  sm_ret {|
    bu_user_id := user_id; bu_device_id := device_id;
    bu_identity_x25519_pub := b64_encode (u_identity_x25519_pub u);
    bu_identity_sig_pub := b64_encode (u_identity_sig_pub u);
    bu_identity_pq_sig_pub := b64_encode identity_pq_sig_pub_bytes;
    bu_signed_prekey_x25519_pub := b64_encode (pk_signed_prekey_x25519_pub p);
    bu_sig_over_spk := b64_encode (pk_sig_over_spk p);
    bu_pq_signed_prekey_pub_mlkem768 := b64_encode (pk_pq_signed_prekey_pub_mlkem768 p);
    bu_sig_over_pqspk := b64_encode (pk_sig_over_pqspk p);
    bu_pq_sig_over_spk := b64_encode pq_sig_over_spk_bytes;
    bu_pq_sig_over_pqspk := b64_encode pq_sig_over_pqspk_bytes;
    bu_one_time_prekey_x25519 := b64_encode <$> x25519_otk;
    bu_one_time_prekey_mlkem768 := b64_encode <$> mlkem_otk;
    bu_remaining_one_time_prekeys_x25519 := remaining_x;
    bu_remaining_one_time_prekeys_mlkem768 := remaining_pq;
    bu_low_one_time_prekeys := is_prekey_inventory_low remaining_x remaining_pq;
    bu_minimum_recommended_one_time_prekeys := PREKEY_REPLENISH_TARGET;
    bu_last_resort_prekey_only := bool_decide (x25519_otk = None) || bool_decide (mlkem_otk = None);
    bu_identity_key_version := identity_key_version;
    bu_identity_fingerprint_sha256 :=
      identity_fingerprint_sha256 (u_identity_x25519_pub u) (Some identity_pq_sig_pub_bytes);
    bu_bundle_generated_at := now |}.

Definition get_bundle (user_id : bytes) (device_id : option bytes) : Handler BundleResponse :=
  check_rate_limit (lit "bundle:" ++ user_id);;;
  lift (validate_id (lit "user_id") user_id);;;
  (match device_id with Some dev => lift (validate_id (lit "device_id") dev) | None => sm_ret tt end);;;
  load_bundle_response user_id device_id.

(** ** Rotation *)

Definition rotate_init (user_id : bytes) (headers : HeaderMap) (request : RotateInitRequest)
    : Handler RotateInitResponse :=
  check_rate_limit (lit "rotate-init:" ++ user_id);;;
  lift (validate_id (lit "user_id") user_id);;;
  lift (validate_id (lit "new_device_id") (ri_new_device_id request));;;
  auth <- lift (parse_request_auth headers);;
  reject_if (negb (bool_decide (ra_user_id auth = user_id))) (bad_request (lit "auth user_id mismatch"));;;
  auth_message <- lift (rotate_init_auth_message auth request);;
  verify_request_auth auth auth_message;;;
  new_identity_x25519 <- lift (decode_base64_exact (lit "new_identity_x25519_pub")
                                 (ri_new_identity_x25519_pub request) X25519_KEY_LEN);;
  new_identity_sig <- lift (decode_base64_exact (lit "new_identity_sig_pub")
                              (ri_new_identity_sig_pub request) SIG_PUB_KEY_LEN);;
  lift (validate_ed25519_public_key new_identity_sig);;;
  new_identity_pq_sig <- lift (decode_base64_exact (lit "new_identity_pq_sig_pub")
                                 (ri_new_identity_pq_sig_pub request) PQ_SIG_PUB_KEY_LEN);;
  lift (validate_ml_dsa_public_key new_identity_pq_sig);;;
  user_row <- query (λ d, users d !! user_id);;
  user_row <- lift (ok_or user_row (not_found (lit "user not found")));;
  reject_if (bool_decide (u_identity_pq_sig_pub user_row = None))
    (conflict (lit "rotation requires an existing PQ identity key; re-register first"));;;
  reject_if (bool_decide (u_identity_x25519_pub user_row = new_identity_x25519)
             && bool_decide (u_identity_sig_pub user_row = new_identity_sig)
             && bool_decide (u_identity_pq_sig_pub user_row = Some new_identity_pq_sig)
             && bool_decide (u_device_id user_row = ri_new_device_id request))
    (bad_request (lit "rotation request matches current identity material"));;;
  nonce <- os_rng ROTATION_CHALLENGE_BYTES;;
  challenge_id <- new_uuid;;
  created_at <- gets st_utc;;
  let expires_at := (created_at + ROTATION_CHALLENGE_TTL_MINUTES * 60 * NANOS)%Z in
  taken <- query (λ d, bool_decide (is_Some (identity_rotation_challenges d !! challenge_id)));;
  reject_if taken database_error;;;
  execute (λ d, set_identity_rotation_challenges
    (<[challenge_id := mkChallenge user_id nonce new_identity_x25519 new_identity_sig
         (Some new_identity_pq_sig) (ri_new_device_id request) created_at expires_at false]>
       (identity_rotation_challenges d)) d);;;
  sm_ret (mkRotateInit user_id challenge_id (b64_encode nonce) expires_at).

Definition consume_challenge (c : ChallengeRow) : ChallengeRow :=
  mkChallenge (cg_user_id c) (cg_nonce c) (cg_new_identity_x25519_pub c) (cg_new_identity_sig_pub c)
    (cg_new_identity_pq_sig_pub c) (cg_new_device_id c) (cg_created_at c) (cg_expires_at c) true.

(** [WHERE challenge_id = $1 AND user_id = $2 AND consumed = 0]. *)
Definition open_challenge (user_id challenge_id : bytes) (d : Db) : option ChallengeRow :=
  c ← identity_rotation_challenges d !! challenge_id;
  if bool_decide (cg_user_id c = user_id) && negb (cg_consumed c) then Some c else None.

Definition rotate_user (x sig pq device : bytes) (now : Z) (u : UserRow) : UserRow :=
  mkUser x sig (Some pq) device (u_sealed_delivery_token u) (u_created_at u) now.

(** All devices of a user revoked, then one activated. *)
Definition only_device (user_id device : bytes) (now : Z) (devices : gmap (bytes * bytes) DeviceRow)
    : gmap (bytes * bytes) DeviceRow :=
  <[(user_id, device) := mkDevice true now None]>
    (map_imap (λ k row, Some (if bool_decide (k.1 = user_id) then mkDevice false (d_linked_at row) (Some now)
                              else row)) devices).

(** [user_id = $1 AND device_id <> $2]. *)
Definition other_device (user_id device : bytes) (u dev : bytes) : bool :=
  bool_decide (u = user_id) && negb (bool_decide (dev = device)).

Definition rotate_confirm (user_id : bytes) (headers : HeaderMap) (request : RotateConfirmRequest)
    : Handler RotateConfirmResponse :=
  check_rate_limit (lit "rotate-confirm:" ++ user_id);;;
  lift (validate_id (lit "user_id") user_id);;;
  lift (validate_rotation_challenge_id (rc_challenge_id request));;;
  auth <- lift (parse_request_auth headers);;
  reject_if (negb (bool_decide (ra_user_id auth = user_id))) (bad_request (lit "auth user_id mismatch"));;;
  auth_message <- lift (rotate_confirm_auth_message auth request);;
  verify_request_auth auth auth_message;;;
  sig_by_current <- lift (decode_base64_exact (lit "sig_by_current_identity")
                            (rc_sig_by_current_identity request) SIG_LEN);;
  sig_by_new <- lift (decode_base64_exact (lit "sig_by_new_identity") (rc_sig_by_new_identity request) SIG_LEN);;
  pq_sig_by_current <- lift (decode_base64_exact (lit "pq_sig_by_current_identity")
                               (rc_pq_sig_by_current_identity request) PQ_SIG_LEN);;
  pq_sig_by_new <- lift (decode_base64_exact (lit "pq_sig_by_new_identity")
                           (rc_pq_sig_by_new_identity request) PQ_SIG_LEN);;
  now <- gets st_utc;;
  done <- transaction (
    challenge_row <- query (open_challenge user_id (rc_challenge_id request));;
    c <- lift (ok_or challenge_row (not_found (lit "rotation challenge not found")));;
    reject_if (cg_expires_at c <? now)%Z (bad_request (lit "rotation challenge expired"));;;
    new_identity_pq_sig <- lift (ok_or (cg_new_identity_pq_sig_pub c)
      (conflict (lit "rotation challenge missing PQ identity key; restart rotation")));;
    user_row <- query (λ d, users d !! user_id);;
    user_row <- lift (ok_or user_row (not_found (lit "user not found")));;
    current_identity_pq_sig <- lift (ok_or (u_identity_pq_sig_pub user_row)
      (conflict (lit "current identity is missing PQ key material; re-register first")));;
    message <- lift (rotation_signature_message user_id (rc_challenge_id request) (cg_nonce c)
                       (cg_new_identity_x25519_pub c) (cg_new_identity_sig_pub c) new_identity_pq_sig
                       (cg_new_device_id c));;
    lift (verify_ed25519_signature (u_identity_sig_pub user_row) sig_by_current message
            (lit "sig_by_current_identity"));;;
    lift (verify_ed25519_signature (cg_new_identity_sig_pub c) sig_by_new message (lit "sig_by_new_identity"));;;
    lift (verify_ml_dsa_signature MlDsa65_new current_identity_pq_sig pq_sig_by_current message
            (lit "pq_sig_by_current_identity"));;;
    lift (verify_ml_dsa_signature MlDsa65_new new_identity_pq_sig pq_sig_by_new message
            (lit "pq_sig_by_new_identity"));;;
    still_open <- query (λ d, bool_decide (is_Some (open_challenge user_id (rc_challenge_id request) d)));;
    reject_if (negb still_open) (conflict (lit "rotation challenge already consumed"));;;
    execute (λ d, set_identity_rotation_challenges
      (alter consume_challenge (rc_challenge_id request) (identity_rotation_challenges d)) d);;;
    rotated_at <- gets st_utc;;
    execute (λ d, set_users (alter (rotate_user (cg_new_identity_x25519_pub c) (cg_new_identity_sig_pub c)
                                      new_identity_pq_sig (cg_new_device_id c) rotated_at) user_id (users d)) d);;;
    execute (λ d, set_user_devices (only_device user_id (cg_new_device_id c) rotated_at (user_devices d)) d);;;
    execute (λ d, set_prekeys (filter (λ '((u, dev), _),
      other_device user_id (cg_new_device_id c) u dev = false) (prekeys d)) d);;;
    execute (λ d, set_one_time TableX25519 (delete_rows (λ r,
      other_device user_id (cg_new_device_id c) (ot_user_id r) (ot_device_id r)) (one_time TableX25519 d)) d);;;
    execute (λ d, set_one_time TableMlkem768 (delete_rows (λ r,
      other_device user_id (cg_new_device_id c) (ot_user_id r) (ot_device_id r)) (one_time TableMlkem768 d)) d);;;
    execute (λ d, set_push_tokens (filter (λ '((u, dev, _), _),
      other_device user_id (cg_new_device_id c) u dev = false) (push_tokens d)) d);;;
    next_version_i64 <- query (λ d, (default 0 (max_version user_id d) + 1)%Z);;
    next_version <- lift (ok_or (u32_try_from next_version_i64) (internal (lit "identity version overflow")));;
    execute (λ d, set_identity_events (insert_row (λ id,
      mkEvent id user_id next_version (cg_new_identity_x25519_pub c) (cg_new_identity_sig_pub c)
        (Some new_identity_pq_sig) (cg_new_device_id c) (lit "rotation") rotated_at) (identity_events d)).1 d);;;
    sm_ret (next_version, cg_new_identity_x25519_pub c, new_identity_pq_sig, rotated_at));;
  let '(next_version, new_identity_x25519, new_identity_pq_sig, rotated_at) := done in
  sm_ret (mkRotateConfirm user_id next_version
            (identity_fingerprint_sha256 new_identity_x25519 (Some new_identity_pq_sig)) rotated_at).

(** ** The identity log *)

Definition event_leb (a b : EventRow) : bool := (ev_version b <=? ev_version a)%Z.

Definition log_item (e : EventRow) : app IdentityLogItem :=
  let? version := ok_or (u32_try_from (ev_version e)) (internal (lit "identity version overflow")) in
  Ok (mkLogItem version (b64_encode (ev_identity_x25519_pub e)) (b64_encode (ev_identity_sig_pub e))
        (b64_encode <$> ev_identity_pq_sig_pub e) (ev_device_id e) (ev_event_type e) (ev_changed_at e)
        (identity_fingerprint_sha256 (ev_identity_x25519_pub e) (ev_identity_pq_sig_pub e))).

Definition get_identity_log (user_id : bytes) (headers : HeaderMap) : Handler (bytes * list IdentityLogItem) :=
  check_rate_limit (lit "identity-log:" ++ user_id);;;
  lift (validate_id (lit "user_id") user_id);;;
  auth <- lift (parse_request_auth headers);;
  reject_if (negb (bool_decide (ra_user_id auth = user_id))) (bad_request (lit "auth user_id mismatch"));;;
  auth_message <- lift (identity_log_auth_message auth user_id);;
  verify_request_auth auth auth_message;;;
  ensure_user_exists user_id;;;
  rows <- query (λ d, take MAX_IDENTITY_LOG_ITEMS
    (sort_unstable event_leb (filter (λ e, ev_user_id e = user_id) (rows (identity_events d)))));;
  events <- lift (traverse_app log_item rows);;
  sm_ret (user_id, events).
End Prekeys.
