(* ===== verification/PrekeyFacts.v ===== *)
(** * Facts about prekeys and rotation

    One-time keys as a queue per device, the signatures of published prekeys,
    and the specification of an identity rotation. *)

From Stdlib Require Import Strings.Byte.
From stdpp Require Import sorting.
From S2P Require Import Prelude Bytes Errors Tlv Crypto Toy Alg Wire Keys PqSig Handshake ServerError Validation RequestAuth Caches Realtime ServerState ToyServer ServerFrame ServerAuth Messaging Delivery PrekeyServer.
Local Open Scope N_scope.

Section OneTime.
Context `{P : Primitives} `{V : Ed25519} `{B : Base64} `{X : Hex} `{I : HashIter} `{U : !Uuid}.

Definition one_time_wf (d : Db) : Prop := ∀ t, table_wf ot_id (one_time t d).

Lemma empty_one_time_wf (d : Db) : (∀ t, one_time t d = empty_table) → one_time_wf d.
Proof. intros Hd t. rewrite Hd. split; [constructor|]. intros r Hr. by apply elem_of_nil in Hr. Qed.

Lemma one_time_set_same (t : OneTimeTable) v d : one_time t (set_one_time t v d) = v.
Proof. by destruct t. Qed.

Lemma one_time_set_other (t t' : OneTimeTable) v d : t ≠ t' → one_time t' (set_one_time t v d) = one_time t' d.
Proof. by destruct t, t'. Qed.

#[global] Instance OneTimeTable_eq_dec : EqDecision OneTimeTable.
Proof. solve_decision. Defined.

(** The table after a key was marked. *)
Definition marked (t : OneTimeTable) (id : Z) (d : Db) : Db :=
  set_one_time t (update_rows (λ r, (ot_id r =? id)%Z) set_consumed (one_time t d)) d.

Lemma marked_wf (t : OneTimeTable) (id : Z) (d : Db) : one_time_wf d → one_time_wf (marked t id d).
Proof.
  intros Hwf t'. unfold marked. destruct (decide (t = t')) as [<-|Hne]; [|rewrite one_time_set_other by done; apply Hwf].
  rewrite one_time_set_same. destruct (Hwf t) as [Hs Hb].
  assert (Hid : ∀ r : OneTimeRow, ot_id (if (ot_id r =? id)%Z then set_consumed r else r) = ot_id r).
  { intros r. by destruct (ot_id r =? id)%Z. }
  split; unfold update_rows; cbn [rows next_id].
  - rewrite map_map. erewrite map_ext; [exact Hs|]. exact Hid.
  - intros r (r0 & -> & Hr)%list_elem_of_fmap. rewrite Hid. by apply Hb.
Qed.

Lemma sorted_filter_ne (l : list OneTimeRow) (r : OneTimeRow) :
  StronglySorted Z.lt (map ot_id (r :: l)) → filter (λ x, ot_id x ≠ ot_id r) (r :: l) = l.
Proof.
  simpl. intros [_ Hall]%StronglySorted_inv. rewrite list.filter_cons_False by (intros Hn; by apply Hn).
  apply filter_all. intros x Hx. rewrite list.Forall_forall in Hall.
  assert (ot_id r < ot_id x)%Z by (apply Hall; by apply list_elem_of_fmap_2). lia.
Qed.

Lemma available_sorted (t : OneTimeTable) (u dev : bytes) (d : Db) :
  one_time_wf d → StronglySorted Z.lt (map ot_id (available t u dev d)).
Proof.
  intros Hwf. eapply StronglySorted_sublist; [|apply (Hwf t)]. apply fmap_sublist, sublist_filter.
Qed.

Lemma marked_rows (u dev : bytes) (id : Z) (l : list OneTimeRow) :
  let p := λ r, owned_by u dev r && negb (ot_consumed r) = true in
  filter p (map (λ r, if (ot_id r =? id)%Z then set_consumed r else r) l) =
  filter (λ r, ot_id r ≠ id) (filter p l).
Proof.
  intros p. induction l as [|r l IH]; [done|]. rewrite map_cons, !list.filter_cons.
  destruct (Z.eqb_spec (ot_id r) id) as [E|E].
  - rewrite decide_False; [|unfold p, set_consumed; simpl; by rewrite andb_false_r]. rewrite IH.
    case_decide; [|done]. by rewrite list.filter_cons_False by (intros Hn; by apply Hn).
  - rewrite IH. case_decide; [|done]. by rewrite list.filter_cons_True.
Qed.

(** Marking the first available key of a device removes it from the device's
    keys, and changes nothing for other devices or the other table. *)
Lemma marked_available (t : OneTimeTable) (u dev : bytes) (r : OneTimeRow) (rest : list OneTimeRow) (d : Db) :
  one_time_wf d → available t u dev d = r :: rest →
  available t u dev (marked t (ot_id r) d) = rest ∧
  ∀ t' u' dev', (t', u', dev') ≠ (t, u, dev) →
    available t' u' dev' (marked t (ot_id r) d) = available t' u' dev' d.
Proof.
  intros Hwf Ha. split.
  - unfold available, marked. rewrite one_time_set_same. unfold update_rows. cbn [rows].
    rewrite marked_rows. fold (available t u dev d). rewrite Ha. apply sorted_filter_ne.
    rewrite <- Ha. by apply available_sorted.
  - intros t' u' dev' Hne. unfold available, marked.
    destruct (decide (t = t')) as [<-|Ht]; [|by rewrite one_time_set_other].
    rewrite one_time_set_same. unfold update_rows. cbn [rows]. rewrite marked_rows. apply filter_all.
    intros x [Hx Hin]%list_elem_of_filter Hid. apply Hne.
    assert (Hr : r ∈ available t u dev d) by (rewrite Ha; left).
    apply list_elem_of_filter in Hr as [Hr Hrin].
    assert (x = r) as ->.
    { destruct (Hwf t) as [Hs _]. clear -Hs Hin Hrin Hid.
      induction (rows (one_time t d)) as [|y l IH]; [by apply elem_of_nil in Hin|].
      simpl in Hs. apply StronglySorted_inv in Hs as [Hs Hall]. rewrite list.Forall_forall in Hall.
      apply elem_of_cons in Hin as [->|Hin], Hrin as [->|Hrin]; [done|..|by apply IH].
      - specialize (Hall (ot_id r) ltac:(by apply list_elem_of_fmap_2)). lia.
      - specialize (Hall (ot_id x) ltac:(by apply list_elem_of_fmap_2)). lia. }
    apply andb_prop in Hx as [[Hu Hd]%andb_prop _], Hr as [[Hu' Hd']%andb_prop _].
    apply bool_decide_eq_true in Hu, Hd, Hu', Hd'. congruence.
Qed.

Lemma select_one_time_key_run (t : OneTimeTable) (u dev : bytes) (s : AppState) :
  select_one_time_key t u dev s =
  match available t u dev (st_db s) with
  | [] => (s, Ok None)
  | r :: _ => (set_db (marked t (ot_id r) (st_db s)) s, Ok (Some (ot_prekey r)))
  end.
Proof.
  unfold select_one_time_key, select_available, query, gets, sm_bind. by destruct (available _ _ _ _).
Qed.

(** What a bundle takes from the keys of a device: the first of both kinds, when
    more than the reserve is left of both. *)
Definition reserve_of (s : AppState) : nat := Z.to_nat (prekey_bundle_reserve_count (st_dos_policy s)).

Definition takes (s : AppState) (u dev : bytes) : bool :=
  (reserve_of s <? length (available TableX25519 u dev (st_db s)))%nat &&
  (reserve_of s <? length (available TableMlkem768 u dev (st_db s)))%nat.

Definition next_key (taken : bool) (l : list OneTimeRow) : option bytes :=
  if taken then b64_encode ∘ ot_prekey <$> head l else None.

Lemma takes_spec (s : AppState) (u dev : bytes) :
  ((Z.max (prekey_bundle_reserve_count (st_dos_policy s)) 0 <?
     Z.of_nat (length (available TableX25519 u dev (st_db s))))%Z &&
   (Z.max (prekey_bundle_reserve_count (st_dos_policy s)) 0 <?
     Z.of_nat (length (available TableMlkem768 u dev (st_db s))))%Z) = takes s u dev.
Proof.
  unfold takes, reserve_of. f_equal; apply eq_true_iff_eq; rewrite Z.ltb_lt, Nat.ltb_lt; lia.
Qed.

Lemma load_bundle_ok (u : bytes) (target : option bytes) (s s' : AppState) (resp : BundleResponse) :
  load_bundle_response u target s = (s', Ok resp) → one_time_wf (st_db s) →
  let dev := bu_device_id resp in
  let taken := takes s u dev in
  (∀ dev', target = Some dev' → dev = dev') ∧
  bu_user_id resp = u ∧
  bu_one_time_prekey_x25519 resp = next_key taken (available TableX25519 u dev (st_db s)) ∧
  bu_one_time_prekey_mlkem768 resp = next_key taken (available TableMlkem768 u dev (st_db s)) ∧
  one_time_wf (st_db s') ∧ st_dos_policy s' = st_dos_policy s ∧
  ∀ t u' dev', available t u' dev' (st_db s') =
    if decide ((u', dev') = (u, dev)) then drop (if taken then 1 else 0) (available t u dev (st_db s))
    else available t u' dev' (st_db s).
Proof.
  intros H Hwf. unfold load_bundle_response in H. run1 H H0.
  assert (s0 = s) as -> by (destruct target; [by apply lift_inv in H0 as [-> _]|by injection H0 as ->]). clear H0.
  run1 H H1. apply transaction_ok in H1. run1 H1 H2. run1 H1 H3. run1 H1 Hrow.
  destruct a0 as [[dev row] p]. run1 H1 H4. run1 H1 H5. run1 H1 H6. run1 H1 H7.
  apply sm_bind_ok_inv in H1 as (s1 & nx & Hx & H1). apply query_inv in Hx as [-> [= ->]].
  apply sm_bind_ok_inv in H1 as (s1 & npq & Hx & H1). apply query_inv in Hx as [-> [= ->]].
  run1 H1 H8. rewrite takes_spec in H1.
  apply sm_bind_ok_inv in H1 as (s1 & otx & Hx & H1). apply sm_bind_ok_inv in H1 as (s2 & otpq & Hpq & H1).
  apply sm_bind_ok_inv in H1 as (s3 & rx & E & H1). apply query_inv in E as [-> _].
  apply sm_bind_ok_inv in H1 as (s3 & rpq & E & H1). apply query_inv in E as [-> _]. injection H1 as <- <-.
  run1 H H9. run1 H H10. injection H as <- <-.
  cbn [bu_device_id bu_user_id bu_one_time_prekey_x25519 bu_one_time_prekey_mlkem768]. split; [|split; [done|]].
  { intros dev' ->. unfold bundle_row in Hrow. simpl in Hrow.
    destruct (users (st_db s) !! u); [|done]. simpl in Hrow.
    destruct (user_devices (st_db s) !! (u, dev')) as [r|]; [|done]. simpl in Hrow.
    destruct (d_active r); [|done]. destruct (prekeys (st_db s) !! (u, dev')); [|done]. by injection Hrow as ->. }
  destruct (takes s u dev) eqn:Et.
  2: { injection Hx as <- <-. injection Hpq as <- <-. split_and!; try done. intros t u' dev'.
       case_decide as E; [by injection E as -> ->|done]. }
  assert (Hlen := Et). unfold takes in Hlen. apply andb_prop in Hlen as [Hl1%Nat.ltb_lt Hl2%Nat.ltb_lt].
  rewrite select_one_time_key_run in Hx.
  destruct (available TableX25519 u dev (st_db s)) as [|r1 l1] eqn:E1; [simpl in Hl1; lia|].
  apply pair_equal_spec in Hx as [<- [= <-]].
  destruct (marked_available _ _ _ _ _ _ Hwf E1) as [Hm1 Ho1].
  rewrite select_one_time_key_run in Hpq. cbn [st_db set_db] in Hpq. rewrite Ho1 in Hpq by congruence.
  destruct (available TableMlkem768 u dev (st_db s)) as [|r2 l2] eqn:E2; [simpl in Hl2; lia|].
  apply pair_equal_spec in Hpq as [<- [= <-]]. cbn [st_db set_db].
  pose proof (marked_wf TableX25519 (ot_id r1) _ Hwf) as Hwf1.
  assert (E2' := E2). rewrite <- (Ho1 TableMlkem768 u dev) in E2' by congruence.
  destruct (marked_available _ _ _ _ _ _ Hwf1 E2') as [Hm2 Ho2].
  pose proof (marked_wf TableMlkem768 (ot_id r2) _ Hwf1) as Hwf2. split_and!; [done..|].
  intros t u' dev'. case_decide as E.
  - injection E as -> ->. destruct t; [rewrite Ho2, Hm1, E1 by congruence|rewrite Hm2, E2]; done.
  - destruct t; rewrite Ho2, Ho1 by congruence; done.
Qed.

(** ** Publication *)

Definition fresh_key (u dev : bytes) (now : Z) (key : bytes) (id : Z) : OneTimeRow :=
  mkOneTime id u dev key false now.

(** The keys of a device replaced by new ones. *)
Definition replaced (u dev : bytes) (now : Z) (keys : list bytes) (tb : Table OneTimeRow) : Table OneTimeRow :=
  foldl (λ tb key, (insert_row (λ id, mkOneTime id u dev key false now) tb).1)
    (delete_rows (owned_by u dev) tb) keys.

Lemma foldl_insert_rows (u dev : bytes) (now : Z) (keys : list bytes) (tb : Table OneTimeRow) :
  foldl (λ tb key, (insert_row (λ id, mkOneTime id u dev key false now) tb).1) tb keys =
  mkTable (rows tb ++ zip_with (fresh_key u dev now) keys (seqZ (next_id tb) (Z.of_nat (length keys))))
    (next_id tb + Z.of_nat (length keys)).
Proof.
  revert tb. induction keys as [|key keys IH]; intros tb.
  - simpl. rewrite app_nil_r, Z.add_0_r. by destruct tb.
  - cbn [foldl]. rewrite IH. cbn [insert_row fst rows next_id].
    rewrite (seqZ_cons (next_id tb)) by (cbn [length]; lia). cbn [zip_with]. rewrite <- app_assoc. cbn [Datatypes.app].
    replace (Z.succ (next_id tb)) with (next_id tb + 1)%Z by lia.
    replace (Z.pred (Z.of_nat (length (key :: keys)))) with (Z.of_nat (length keys)) by (cbn [length]; lia).
    replace (next_id tb + 1 + Z.of_nat (length keys))%Z with (next_id tb + Z.of_nat (length (key :: keys)))%Z
      by (cbn [length]; lia). done.
Qed.

Lemma replaced_wf (u dev : bytes) (now : Z) (keys : list bytes) (tb : Table OneTimeRow) :
  table_wf ot_id tb → table_wf ot_id (replaced u dev now keys tb).
Proof.
  intros Hwf. unfold replaced. rewrite foldl_insert_rows.
  eapply (table_evolves_wf ot_id (λ _, true)); [by apply inserts_evolve|].
  eapply (table_evolves_wf ot_id (λ _, true)); [by apply delete_rows_evolves|done].
Qed.

Lemma replaced_available (u dev u' dev' : bytes) (now : Z) (keys : list bytes) (tb : Table OneTimeRow) :
  let avail l := filter (λ r, owned_by u' dev' r && negb (ot_consumed r) = true) l in
  if decide ((u', dev') = (u, dev))
  then map ot_prekey (avail (rows (replaced u dev now keys tb))) = keys
  else avail (rows (replaced u dev now keys tb)) = avail (rows tb).
Proof.
  intros avail. unfold replaced, avail. rewrite foldl_insert_rows. cbn [rows next_id delete_rows].
  set (ids := seqZ _ _). assert (Hlen : length keys = length ids) by (unfold ids; rewrite length_seqZ; lia).
  assert (Hnew : ∀ r, r ∈ zip_with (fresh_key u dev now) keys ids → owned_by u dev r = true ∧ ot_consumed r = false).
  { intros r (key & id & -> & _)%elem_of_zip_with. unfold owned_by. simpl. by rewrite !bool_decide_eq_true_2. }
  rewrite list.filter_app, list_filter_filter. case_decide as E.
  - injection E as -> ->. rewrite (list_filter_none _ (rows tb)).
    2: { intros r _ [Ho Hn]. rewrite Hn in Ho. done. }
    rewrite filter_all by (intros r Hr%Hnew; destruct Hr as [-> ->]; done). simpl. clear Hnew. clearbody ids.
    revert ids Hlen. induction keys as [|key keys IH]; intros [|id ids] Hl; try done. simpl in *. by rewrite IH by lia.
  - rewrite (list_filter_none _ (zip_with _ _ _)), app_nil_r.
    2: { intros r [Ho _]%Hnew [Ho' _]%andb_prop. apply E. unfold owned_by in *.
         apply andb_prop in Ho as [Hu Hd], Ho' as [Hu' Hd']. apply bool_decide_eq_true in Hu, Hd, Hu', Hd'. congruence. }
    apply list_filter_iff. intros r. split; [by intros [? _]|]. intros Ho. split; [done|].
    destruct (owned_by u dev r) eqn:Ho2; [|done]. exfalso. apply E. unfold owned_by in *.
    apply andb_prop in Ho as [[Hu' Hd']%andb_prop _], Ho2 as [Hu Hd].
    apply bool_decide_eq_true in Hu, Hd, Hu', Hd'. congruence.
Qed.

Lemma load_remaining_same (u dev : bytes) (s s' : AppState) (r : app (Z * Z)) :
  load_remaining_one_time_counts u dev s = (s', r) → s' = s.
Proof. by intros [= <- _]. Qed.

Section Publish.
Context (MlDsa65_new : option PqSignatureProvider).

Lemma publish_ok (user_id : bytes) (headers : HeaderMap) (request : PublishPrekeysRequest) (s s' : AppState)
    (resp : PublishPrekeysResponse) :
  publish_prekeys MlDsa65_new user_id headers request s = (s', Ok resp) →
  ∃ row pq spk sig pqspk pqsig psig ppqsig xs pqs,
    let dev := pr_device_id resp in
    users (st_db s) !! user_id = Some row ∧ u_identity_pq_sig_pub row = Some pq ∧
    verify_hybrid_prekey_signatures MlDsa65_new (u_identity_sig_pub row) pq spk sig pqspk pqsig psig ppqsig = Ok tt ∧
    validate_ml_dsa_public_key pq = Ok tt ∧
    traverse_app (λ key, decode_base64_exact (lit "one_time_prekeys_x25519[]") key X25519_KEY_LEN)
      (pp_one_time_prekeys_x25519 request) = Ok xs ∧
    traverse_app (λ key, decode_base64_range (lit "one_time_prekeys_mlkem768[]") key MIN_PQ_KEY_LEN MAX_PQ_KEY_LEN)
      (pp_one_time_prekeys_mlkem768 request) = Ok pqs ∧
    st_dos_policy s' = st_dos_policy s ∧
    st_db s' = set_one_time TableMlkem768 (replaced user_id dev (st_utc s) pqs (one_time TableMlkem768 (st_db s)))
      (set_one_time TableX25519 (replaced user_id dev (st_utc s) xs (one_time TableX25519 (st_db s)))
        (set_prekeys (<[(user_id, dev) := mkPrekey spk sig pqspk pqsig (Some psig) (Some ppqsig) (st_utc s)]>
           (prekeys (st_db s))) (st_db s))).
Proof.
  unfold publish_prekeys. intros H. run1 H H0. run1 H H1. run1 H Hauth. run1 H Hu. run1 H Hm. run1 H Hv.
  apply (steps_run quiet) in Hv; [|auto with steps].
  run1 H Hi. apply (steps_run quiet) in Hi; [|unfold enforce_prekey_publish_interval; steps].
  assert (Hq : quiet s s2) by (by etrans; [|etrans]).
  do 4 (run1 H H2; try clear H2). run1 H H3. run1 H H4. run1 H H5. run1 H H6. run1 H H7. run1 H H8.
  run1 H Hx. run1 H Hpq. run1 H H9. run1 H Hrow. run1 H Hpqid. run1 H Hval. run1 H Hver. run1 H H10. run1 H Htx.
  apply transaction_ok in Htx. unfold insert_one_time in Htx. do 4 (run1 Htx H11; try clear H11). apply execute_inv in Htx as [-> _].
  apply sm_bind_ok_inv in H as (s3 & rem & Hrem & H).
  apply load_remaining_same in Hrem as ->. apply pair_equal_spec in H as [<- [= <-]].
  rewrite (quiet_db _ _ Hq) in *. rewrite (quiet_utc _ _ Hq). apply ok_or_ok in Hrow, Hpqid.
  eexists a9, a10, a1, a2, a3, a4, a5, a6, a7, a8. split_and!; try assumption.
  - exact (quiet_policy _ _ Hq).
  - reflexivity.
Qed.

Lemma get_bundle_load (u : bytes) (target : option bytes) (s s' : AppState) (resp : BundleResponse) :
  get_bundle u target s = (s', Ok resp) →
  ∃ s1, quiet s s1 ∧ load_bundle_response u target s1 = (s', Ok resp).
Proof.
  unfold get_bundle. intros H. run1 H H0. run1 H H1. run1 H H2. exists s1. split; [|done].
  destruct target; [by apply lift_inv in H2 as [-> _]|by injection H2 as <-].
Qed.

(** A run of the server as the one-time keys of a device see it, with what was
    handed out of them: bundles of any device, uploads of other devices, and
    steps that leave the keys alone. *)
Inductive bundle_run (u dev : bytes) (s0 : AppState) : list (option bytes * option bytes) → AppState → Prop :=
| bundle_start : bundle_run u dev s0 [] s0
| bundle_fetch l s1 s2 u' target resp :
    bundle_run u dev s0 l s1 → get_bundle u' target s1 = (s2, Ok resp) →
    bundle_run u dev s0
      (l ++ if decide ((u', bu_device_id resp) = (u, dev))
            then [(bu_one_time_prekey_x25519 resp, bu_one_time_prekey_mlkem768 resp)] else []) s2
| bundle_publish l s1 s2 u' headers request resp :
    bundle_run u dev s0 l s1 → publish_prekeys MlDsa65_new u' headers request s1 = (s2, Ok resp) →
    (u', pr_device_id resp) ≠ (u, dev) → bundle_run u dev s0 l s2
| bundle_other l s1 s2 :
    bundle_run u dev s0 l s1 → (∀ t, one_time t (st_db s2) = one_time t (st_db s1)) →
    st_dos_policy s2 = st_dos_policy s1 → bundle_run u dev s0 l s2.

(** What the [i]-th bundle hands out of the uploaded keys. *)
Definition handed (reserve : nat) (xs pqs : list bytes) (i : nat) : option bytes * option bytes :=
  if (reserve + i <? length xs)%nat && (reserve + i <? length pqs)%nat
  then (b64_encode <$> xs !! i, b64_encode <$> pqs !! i) else (None, None).

(** How many keys [n] bundles take. *)
Definition taken_by (reserve nx npq n : nat) : nat := Nat.min n (Nat.min nx npq - reserve).

Lemma publish_available (user_id : bytes) (headers : HeaderMap) (request : PublishPrekeysRequest) (s s' : AppState)
    (resp : PublishPrekeysResponse) :
  publish_prekeys MlDsa65_new user_id headers request s = (s', Ok resp) → one_time_wf (st_db s) →
  one_time_wf (st_db s') ∧ st_dos_policy s' = st_dos_policy s ∧
  (∀ t u' dev', (u', dev') ≠ (user_id, pr_device_id resp) →
     available t u' dev' (st_db s') = available t u' dev' (st_db s)) ∧
  ∃ xs pqs,
    traverse_app (λ key, decode_base64_exact (lit "one_time_prekeys_x25519[]") key X25519_KEY_LEN)
      (pp_one_time_prekeys_x25519 request) = Ok xs ∧
    traverse_app (λ key, decode_base64_range (lit "one_time_prekeys_mlkem768[]") key MIN_PQ_KEY_LEN MAX_PQ_KEY_LEN)
      (pp_one_time_prekeys_mlkem768 request) = Ok pqs ∧
    map ot_prekey (available TableX25519 user_id (pr_device_id resp) (st_db s')) = xs ∧
    map ot_prekey (available TableMlkem768 user_id (pr_device_id resp) (st_db s')) = pqs.
Proof.
  intros H Hwf. apply publish_ok in H as (row & pq & spk & sig & pqspk & pqsig & psig & ppqsig & xs & pqs & H).
  destruct H as (_ & _ & _ & _ & Hx & Hpq & Hpol & Hdb).
  pose proof (Hwf TableX25519) as Hw1. pose proof (Hwf TableMlkem768) as Hw2.
  pose proof (λ u' dev', replaced_available user_id (pr_device_id resp) u' dev' (st_utc s) xs
    (one_time TableX25519 (st_db s))) as Ha1.
  pose proof (λ u' dev', replaced_available user_id (pr_device_id resp) u' dev' (st_utc s) pqs
    (one_time TableMlkem768 (st_db s))) as Ha2.
  split_and!; [|done| |].
  - intros t. rewrite Hdb. destruct t; by apply replaced_wf.
  - intros t u' dev' Hne. specialize (Ha1 u' dev'). specialize (Ha2 u' dev').
    rewrite decide_False in Ha1 by done. rewrite decide_False in Ha2 by done. rewrite Hdb. by destruct t.
  - exists xs, pqs. specialize (Ha1 user_id (pr_device_id resp)). specialize (Ha2 user_id (pr_device_id resp)).
    rewrite decide_True in Ha1 by done. rewrite decide_True in Ha2 by done. rewrite Hdb. done.
Qed.

Lemma available_table (t : OneTimeTable) (u dev : bytes) (d d' : Db) :
  one_time t d' = one_time t d → available t u dev d' = available t u dev d.
Proof. unfold available. by intros ->. Qed.

Lemma taken_step (reserve n : nat) (rx rpq : list OneTimeRow) :
  let k := taken_by reserve (length rx) (length rpq) n in
  let taken := (reserve <? length (drop k rx))%nat && (reserve <? length (drop k rpq))%nat in
  (∀ l, l = rx ∨ l = rpq →
     drop (if taken then 1 else 0) (drop k l) = drop (taken_by reserve (length rx) (length rpq) (S n)) l) ∧
  (next_key taken (drop k rx), next_key taken (drop k rpq)) =
    handed reserve (map ot_prekey rx) (map ot_prekey rpq) n.
Proof.
  intros k taken.
  assert (Ht : taken = (reserve + n <? length rx)%nat && (reserve + n <? length rpq)%nat).
  { unfold taken. rewrite !length_drop. unfold k, taken_by. apply eq_true_iff_eq.
    rewrite !andb_true_iff, !Nat.ltb_lt. lia. }
  unfold handed. rewrite !length_map, <- Ht. clearbody taken. destruct taken.
  - symmetry in Ht. apply andb_true_iff in Ht as [H1%Nat.ltb_lt H2%Nat.ltb_lt].
    assert (Hk : k = n) by (unfold k, taken_by; lia). rewrite Hk. split.
    + intros l _. rewrite drop_drop. f_equal. unfold taken_by. lia.
    + unfold next_key. rewrite !list_lookup_fmap, !head_lookup, !lookup_drop, Nat.add_0_r.
      by destruct (rx !! n), (rpq !! n).
  - split; [|done]. intros l _. rewrite drop_0. f_equal. symmetry in Ht.
    apply andb_false_iff in Ht as [H1%Nat.ltb_ge|H1%Nat.ltb_ge]; unfold k, taken_by; lia.
Qed.

Lemma bundle_run_inv (u dev : bytes) (s0 s : AppState) (l : list (option bytes * option bytes)) :
  bundle_run u dev s0 l s → one_time_wf (st_db s0) →
  let rx := available TableX25519 u dev (st_db s0) in
  let rpq := available TableMlkem768 u dev (st_db s0) in
  let k := taken_by (reserve_of s0) (length rx) (length rpq) (length l) in
  one_time_wf (st_db s) ∧ st_dos_policy s = st_dos_policy s0 ∧
  available TableX25519 u dev (st_db s) = drop k rx ∧ available TableMlkem768 u dev (st_db s) = drop k rpq ∧
  l = map (handed (reserve_of s0) (map ot_prekey rx) (map ot_prekey rpq)) (seq 0 (length l)).
Proof.
  intros Hrun Hwf0 rx rpq. induction Hrun as [|l s1 s2 u' target resp Hrun IH Hb|l s1 s2 u' headers request resp Hrun IH Hp Hne
    |l s1 s2 Hrun IH Ht Hpol].
  - split_and!; done.
  - destruct IH as (Hwf & Hpol & Hx & Hpq & Hl).
    apply get_bundle_load in Hb as (s1' & Hq & Hb). pose proof (quiet_db _ _ Hq) as Edb.
    apply load_bundle_ok in Hb as (_ & Hu & Hox & Hopq & Hwf2 & Hpol2 & Hav); [|by rewrite Edb].
    assert (Hres : reserve_of s1' = reserve_of s0) by (unfold reserve_of; by rewrite (quiet_policy _ _ Hq), Hpol).
    assert (Hpol' : st_dos_policy s2 = st_dos_policy s0) by (by rewrite Hpol2, (quiet_policy _ _ Hq)).
    unfold takes in Hav, Hox, Hopq. rewrite Edb, Hres in Hav, Hox, Hopq.
    case_decide as E.
    + injection E as -> Ed. rewrite Ed, Hx, Hpq in Hox, Hopq.
      destruct (taken_step (reserve_of s0) (length l) rx rpq) as [Hdrop Hh].
      rewrite length_app, Nat.add_1_r, Hox, Hopq, Hh.
      pose proof (Hav TableX25519 u dev) as Hx2. pose proof (Hav TableMlkem768 u dev) as Hpq2.
      rewrite Ed, decide_True, Hx, Hpq in Hx2, Hpq2 by done.
      split_and!; [done|done|rewrite Hx2; apply Hdrop; by left|rewrite Hpq2; apply Hdrop; by right|].
      rewrite seq_S, map_app, <- Hl. done.
    + rewrite app_nil_r. split_and!; try done; rewrite Hav, decide_False by congruence; done.
  - destruct IH as (Hwf & Hpol & Hx & Hpq & Hl).
    destruct (publish_available _ _ _ _ _ _ Hp Hwf) as (Hwf2 & Hpol2 & Hsame & _).
    rewrite !Hsame by congruence. split_and!; try done. congruence.
  - destruct IH as (Hwf & Hpol' & Hx & Hpq & Hl). rewrite !(available_table _ _ _ _ _ (Ht _)).
    split_and!; try done; [|congruence]. intros t. by rewrite Ht.
Qed.
End Publish.
End OneTime.

(** C13: One-time prekeys are handed out in the order of the upload, each once,
    down to the reserve. After an accepted upload of a device, over any run of
    the server with bundles of any device, uploads of other devices and other
    activity in between, the [i]-th bundle of the device carries the [i]-th
    uploaded key of both kinds as long as more than the reserve is left of both,
    and none afterwards. *)
Theorem one_time_keys_once (P : Primitives) (V : Ed25519) (B : Base64) (X : Hex) (I : HashIter)
    (MlDsa65_new : option PqSignatureProvider) (user_id : bytes) (headers : HeaderMap)
    (request : PublishPrekeysRequest) (s0 s1 s : AppState) (resp : PublishPrekeysResponse)
    (l : list (option bytes * option bytes)) :
  one_time_wf (st_db s0) →
  publish_prekeys MlDsa65_new user_id headers request s0 = (s1, Ok resp) →
  bundle_run MlDsa65_new user_id (pr_device_id resp) s1 l s →
  ∃ xs pqs,
    traverse_app (λ key, decode_base64_exact (lit "one_time_prekeys_x25519[]") key X25519_KEY_LEN)
      (pp_one_time_prekeys_x25519 request) = Ok xs ∧
    traverse_app (λ key, decode_base64_range (lit "one_time_prekeys_mlkem768[]") key MIN_PQ_KEY_LEN MAX_PQ_KEY_LEN)
      (pp_one_time_prekeys_mlkem768 request) = Ok pqs ∧
    l = map (handed (reserve_of s0) xs pqs) (seq 0 (length l)).
Proof.
  intros Hwf Hp Hrun.
  destruct (publish_available _ _ _ _ _ _ _ Hp Hwf) as (Hwf1 & Hpol & _ & xs & pqs & Hx & Hpq & Ex & Epq).
  exists xs, pqs. split_and!; [done|done|].
  destruct (bundle_run_inv _ _ _ _ _ _ Hrun Hwf1) as (_ & _ & _ & _ & Hl). rewrite Ex, Epq in Hl.
  by rewrite Hl at 1; unfold reserve_of; rewrite Hpol.
Qed.

(** An upload of Alice with two keys of each kind. *)
Definition toy_upload : PublishPrekeysRequest :=
  let spk := toy_key 301 in
  let pqspk := toy_stream 1184 302 in
  let m1 := match signed_prekey_signature_message PROTOCOL_VERSION_V1 spk with Ok m => m | Err _ => [] end in
  let m2 := match pq_signed_prekey_signature_message PROTOCOL_VERSION_V1 pqspk with Ok m => m | Err _ => [] end in
  {| pp_signed_prekey_x25519_pub := b64_encode spk;
     pp_sig_over_spk := b64_encode (ed_sign (toy_key 101) m1);
     pp_pq_signed_prekey_pub_mlkem768 := b64_encode pqspk;
     pp_sig_over_pqspk := b64_encode (ed_sign (toy_key 101) m2);
     pp_pq_sig_over_spk := b64_encode (toy_pq_sign 103 m1);
     pp_pq_sig_over_pqspk := b64_encode (toy_pq_sign 103 m2);
     pp_one_time_prekeys_x25519 := [b64_encode (toy_key 11); b64_encode (toy_key 12)];
     pp_one_time_prekeys_mlkem768 := [b64_encode (toy_key 21); b64_encode (toy_key 22)] |}.

Definition toy_upload_headers : HeaderMap :=
  toy_headers (lit "alice") (lit "d1") 101 1000 (lit "n1") (λ a, prekeys_auth_message a toy_upload).

Definition toy_published : PublishPrekeysResponse :=
  mkPublished (lit "alice") (lit "d1") 2 2 2 2 true PREKEY_REPLENISH_TARGET 1000000000000.

#[local] Instance published_eq_dec : EqDecision PublishPrekeysResponse.
Proof. solve_decision. Defined.

(** Whether an upload and the two fetches after it succeed for Alice's device. *)
Definition fetch_check (r1 : @AppState Toy * ServerError.app PublishPrekeysResponse) : bool :=
  match r1.2 with Ok resp => bool_decide (resp = toy_published) | Err _ => false end &&
  (let b1 := get_bundle (lit "alice") None r1.1 in
   match b1.2, (get_bundle (lit "alice") (Some (lit "d1")) b1.1).2 with
   | Ok x, Ok y => bool_decide (bu_device_id x = lit "d1") && bool_decide (bu_device_id y = lit "d1")
   | _, _ => false
   end).

Lemma fetch_check_inv (r1 : @AppState Toy * ServerError.app PublishPrekeysResponse) :
  fetch_check r1 = true →
  r1 = (r1.1, Ok toy_published) ∧
  ∃ s1 x s2 y, get_bundle (lit "alice") None r1.1 = (s1, Ok x) ∧ bu_device_id x = lit "d1" ∧
    get_bundle (lit "alice") (Some (lit "d1")) s1 = (s2, Ok y) ∧ bu_device_id y = lit "d1".
Proof.
  unfold fetch_check. destruct r1 as [s [resp|]]; [|done]. cbn [fst snd].
  destruct (get_bundle _ None s) as [s1 [x|]] eqn:E1; cbn [fst snd]; [|by rewrite andb_false_r].
  destruct (get_bundle _ _ s1) as [s2 [y|]] eqn:E2; cbn [fst snd]; [|by rewrite andb_false_r].
  rewrite !andb_true_iff, !bool_decide_eq_true. intros (-> & Hx & Hy). split; [done|]. by exists s1, x, s2, y.
Qed.

Lemma one_time_keys_once_witness :
  let s0 := toy_state 1000000000000 0 toy_pq_db in
  let r1 := publish_prekeys (Some ToyMlDsa) (lit "alice") toy_upload_headers toy_upload s0 in
  ∃ l s xs pqs, bundle_run (Some ToyMlDsa) (lit "alice") (lit "d1") r1.1 l s ∧ length l = 2%nat ∧
    xs = [toy_key 11; toy_key 12] ∧ pqs = [toy_key 21; toy_key 22] ∧
    l = map (handed (reserve_of s0) xs pqs) (seq 0 (length l)).
Proof.
  intros s0 r1.
  assert (Hwf : one_time_wf (st_db s0)) by (apply empty_one_time_wf; intros []; reflexivity).
  assert (E : fetch_check r1 = true) by (vm_compute; reflexivity).
  assert (Ex : traverse_app (λ key, decode_base64_exact (lit "one_time_prekeys_x25519[]") key X25519_KEY_LEN)
      (pp_one_time_prekeys_x25519 toy_upload) = Ok [toy_key 11; toy_key 12]) by (vm_compute; reflexivity).
  assert (Epq : traverse_app (λ key, decode_base64_range (lit "one_time_prekeys_mlkem768[]") key MIN_PQ_KEY_LEN
      MAX_PQ_KEY_LEN) (pp_one_time_prekeys_mlkem768 toy_upload) = Ok [toy_key 21; toy_key 22])
    by (vm_compute; reflexivity).
  destruct (fetch_check_inv r1 E) as (H1 & s1 & x & s2 & y & H2 & D1 & H3 & D2).
  unfold r1 at 1 in H1. clear E. clearbody r1 s0.
  pose proof (bundle_fetch (Some ToyMlDsa) (lit "alice") (lit "d1") r1.1 _ _ _ _ _ _
    (bundle_fetch (Some ToyMlDsa) (lit "alice") (lit "d1") r1.1 _ _ _ _ _ _
      (bundle_start (Some ToyMlDsa) (lit "alice") (lit "d1") r1.1) H2) H3) as R.
  rewrite D1, D2, !decide_True in R by done.
  destruct (one_time_keys_once Toy ToyEd ToyBase64 ToyHex MapOrder (Some ToyMlDsa) (lit "alice") toy_upload_headers
    toy_upload s0 r1.1 s2 toy_published _ Hwf H1 R) as (xs & pqs & Hx & Hpq & Hl).
  eexists _, s2, xs, pqs. split; [exact R|]. split; [reflexivity|]. split_and!; [congruence..|exact Hl].
Defined.
