(* ===== verification/ClientAuth.v ===== *)
(** * Signed requests of the command-line client ([pqmsg-cli/src/main.rs])

    The helpers the client normalises its inputs with, and one function per
    endpoint that builds the authentication headers of a request. Errors are
    the messages of [anyhow]. The client's clock is a parameter, its random
    source the state of a computation. The theorem: what the client signs is
    what the server's transcript functions rebuild from the request, so that a
    request of a registered device passes the server's check. *)

From Stdlib Require Import Strings.Byte.
From S2P Require Import Prelude Bytes Errors Tlv Crypto Toy ServerError Validation RequestAuth Caches Realtime ServerState ToyServer ServerFrame ServerAuth.
Local Open Scope N_scope.

(** [anyhow::Result]. *)
Abbreviation cli := (result bytes).

(** ** Normal forms *)

Definition MAX_GROUP_MEMBERS : N := 512.
Definition MAX_DISCOVERY_HASHES : N := 4096.
Definition MAX_CONTACT_ALIAS_LEN : N := 128.

Definition normalize_message_ids (message_ids : list Z) : list Z :=
  dedup (sort_unstable Z.leb message_ids).

Definition validate_id (field value : bytes) : cli unit :=
  let trimmed := str_trim value in
  if (len trimmed =? 0) || (128 <? len trimmed)
  then Err (field ++ lit " must be 1..128 non-whitespace characters") else Ok tt.

Definition validate_optional_alias (value : option bytes) : cli (option bytes) :=
  match value with
  | None => Ok None
  | Some alias =>
      let trimmed := str_trim alias in
      if len trimmed =? 0 then Ok None
      else if MAX_CONTACT_ALIAS_LEN <? len trimmed
      then Err (lit "alias must be <= " ++ decimal MAX_CONTACT_ALIAS_LEN ++ lit " characters")
      else Ok (Some trimmed)
  end.

(** The loop of [normalize_group_member_ids]. *)
Fixpoint trimmed_member_ids (values : list bytes) : cli (list bytes) :=
  match values with
  | [] => Ok []
  | value :: values =>
      let? _ := validate_id (lit "member") value in
      let? normalized := trimmed_member_ids values in
      Ok (str_trim value :: normalized)
  end.

Definition normalize_group_member_ids (values : list bytes) : cli (list bytes) :=
  if MAX_GROUP_MEMBERS <? N.of_nat (length values)
  then Err (lit "members cannot exceed " ++ decimal MAX_GROUP_MEMBERS ++ lit " entries")
  else
    let? normalized := trimmed_member_ids values in
    Ok (dedup (sort_unstable str_leb normalized)).

Definition validate_sha256_hex (field value : bytes) : cli bytes :=
  let normalized := to_ascii_lowercase (str_trim value) in
  if negb (len normalized =? SHA256_HEX_LEN)
  then Err (field ++ lit " must be " ++ decimal SHA256_HEX_LEN ++ lit " lowercase hex characters")
  else if negb (forallb is_ascii_hexdigit normalized) then Err (field ++ lit " must be lowercase hex")
  else Ok normalized.

(** The [collect] of [normalize_sha256_hashes]. *)
Fixpoint collect_hashes (field : bytes) (values : list bytes) : cli (list bytes) :=
  match values with
  | [] => Ok []
  | value :: values =>
      let? h := validate_sha256_hex field value in
      let? hashes := collect_hashes field values in
      Ok (h :: hashes)
  end.

Definition normalize_sha256_hashes (field : bytes) (values : list bytes) : cli (list bytes) :=
  if MAX_DISCOVERY_HASHES <? N.of_nat (length values)
  then Err (field ++ lit " cannot exceed " ++ decimal MAX_DISCOVERY_HASHES ++ lit " entries")
  else
    let? hashes := collect_hashes field values in
    Ok (dedup (sort_unstable str_leb hashes)).

(** [i64::to_string]. *)
Definition i64_to_string (z : Z) : bytes :=
  if (z <? 0)%Z then lit "-" ++ decimal (Z.to_N (- z)) else decimal (Z.to_N z).

Definition AUTH_TAG_GROUP_MESSAGE_BLOB_HASH : N := critical_type 0x3221.

(** ** Headers *)

Section Headers.
Context `{P : Primitives} `{V : Ed25519} `{B : Base64}.

(** [SystemTime::now().duration_since(UNIX_EPOCH)] in seconds, if it is after
    the epoch. *)
Context (clock : option N).
Local Open Scope sm_scope.

Definition Cli (A : Type) : Type := SM rng bytes A.

Definition Headers : Type := list (bytes * bytes).

Definition hash_string_list_sha256 (values : list bytes) : bytes := sha256 (concat values).

Definition auth_timestamp : cli Z :=
  let? secs := ok_or clock (lit "system time is before UNIX epoch") in
  if (Z.of_N secs <=? i64_max)%Z then Ok (Z.of_N secs) else Err (lit "system time overflow").

Definition auth_nonce : Cli bytes :=
  λ g, let '(bytes, g) := rng_fill 16 g in (g, Ok (b64_encode bytes)).

Definition auth_common_records (endpoint user_id device_id : bytes) (timestamp : Z) (nonce : bytes)
    : list TlvRecord :=
  [mkTlv AUTH_TAG_ENDPOINT endpoint;
   mkTlv AUTH_TAG_USER_ID user_id;
   mkTlv AUTH_TAG_DEVICE_ID device_id;
   mkTlv AUTH_TAG_TIMESTAMP (i64_be timestamp);
   mkTlv AUTH_TAG_NONCE nonce].

(** What every header function does: the time and a nonce, the common records
    and those of the endpoint, the transcript, the signature, the headers. *)
Definition signed_headers (endpoint signing_key user_id device_id : bytes)
    (records : cli (list TlvRecord)) : Cli Headers :=
  timestamp <- sm_lift auth_timestamp;;
  nonce <- auth_nonce;;
  records <- sm_lift records;;
  transcript <- sm_lift (map_err (encode (auth_common_records endpoint user_id device_id timestamp nonce ++ records))
    (lit "failed to encode " ++ endpoint ++ lit " auth transcript"));;
  let signature := ed_sign signing_key transcript in
  sm_ret [(AUTH_HEADER_USER, user_id); (AUTH_HEADER_DEVICE, device_id);
          (AUTH_HEADER_TIMESTAMP, i64_to_string timestamp); (AUTH_HEADER_NONCE, nonce);
          (AUTH_HEADER_SIGNATURE, b64_encode signature)].

Definition relay_auth_headers (signing_key sender_user_id sender_device_id recipient_user_id message_blob : bytes)
    : Cli Headers :=
  signed_headers (lit "relay") signing_key sender_user_id sender_device_id
    (Ok [mkTlv AUTH_TAG_RECIPIENT_ID recipient_user_id; mkTlv AUTH_TAG_MESSAGE_BLOB message_blob]).

Definition inbox_auth_headers (signing_key user_id device_id : bytes) (since : Z) : Cli Headers :=
  signed_headers (lit "inbox") signing_key user_id device_id
    (Ok [mkTlv AUTH_TAG_RECIPIENT_ID user_id; mkTlv AUTH_TAG_SINCE (i64_be since)]).

Definition sealed_inbox_auth_headers (signing_key user_id device_id : bytes) (since : Z) : Cli Headers :=
  signed_headers (lit "sealed-inbox") signing_key user_id device_id
    (Ok [mkTlv AUTH_TAG_RECIPIENT_ID user_id; mkTlv AUTH_TAG_SINCE (i64_be since)]).

Definition inbox_delete_auth_headers (signing_key user_id device_id : bytes) (message_ids : list Z)
    (delete_before_id : option Z) : Cli Headers :=
  let normalized_ids := normalize_message_ids message_ids in
  signed_headers (lit "inbox-delete") signing_key user_id device_id
    (Ok ([mkTlv AUTH_TAG_RECIPIENT_ID user_id;
          mkTlv AUTH_TAG_DELETE_IDS_HASH (sha256 (concat (map i64_be normalized_ids)))]
         ++ match delete_before_id with
            | Some delete_before => [mkTlv AUTH_TAG_DELETE_BEFORE_ID (i64_be delete_before)]
            | None => []
            end)).

Definition devices_list_auth_headers (signing_key user_id device_id : bytes) : Cli Headers :=
  signed_headers (lit "devices-list") signing_key user_id device_id
    (Ok [mkTlv AUTH_TAG_RECIPIENT_ID user_id]).

Definition devices_link_auth_headers (signing_key user_id auth_device_id new_device_id : bytes) : Cli Headers :=
  signed_headers (lit "devices-link") signing_key user_id auth_device_id
    (Ok [mkTlv AUTH_TAG_RECIPIENT_ID user_id; mkTlv AUTH_TAG_LINK_DEVICE_ID new_device_id]).

Definition devices_revoke_auth_headers (signing_key user_id auth_device_id target_device_id : bytes) : Cli Headers :=
  signed_headers (lit "devices-revoke") signing_key user_id auth_device_id
    (Ok [mkTlv AUTH_TAG_RECIPIENT_ID user_id; mkTlv AUTH_TAG_REVOKE_DEVICE_ID target_device_id]).

Definition retire_current_device_auth_headers (signing_key user_id device_id : bytes) : Cli Headers :=
  signed_headers (lit "devices-retire") signing_key user_id device_id
    (Ok [mkTlv AUTH_TAG_RECIPIENT_ID user_id; mkTlv AUTH_TAG_REVOKE_DEVICE_ID device_id]).

Definition discovery_handles_auth_headers (signing_key user_id device_id : bytes)
    (phone_hashes_sha256 email_hashes_sha256 : list bytes) : Cli Headers :=
  signed_headers (lit "discovery-handles") signing_key user_id device_id
    (let? phone := normalize_sha256_hashes (lit "phone_hashes_sha256") phone_hashes_sha256 in
     let? email := normalize_sha256_hashes (lit "email_hashes_sha256") email_hashes_sha256 in
     Ok [mkTlv AUTH_TAG_RECIPIENT_ID user_id;
         mkTlv AUTH_TAG_DISCOVERY_PHONE_HASHES_HASH (hash_string_list_sha256 phone);
         mkTlv AUTH_TAG_DISCOVERY_EMAIL_HASHES_HASH (hash_string_list_sha256 email)]).

Definition discovery_match_auth_headers (signing_key user_id device_id : bytes) (hashes_sha256 : list bytes)
    : Cli Headers :=
  signed_headers (lit "discovery-match") signing_key user_id device_id
    (let? hashes := normalize_sha256_hashes (lit "hashes_sha256") hashes_sha256 in
     Ok [mkTlv AUTH_TAG_RECIPIENT_ID user_id;
         mkTlv AUTH_TAG_DISCOVERY_QUERY_HASHES_HASH (hash_string_list_sha256 hashes)]).

Definition contacts_list_auth_headers (signing_key user_id device_id : bytes) : Cli Headers :=
  signed_headers (lit "contacts-list") signing_key user_id device_id
    (Ok [mkTlv AUTH_TAG_RECIPIENT_ID user_id]).

Definition contacts_upsert_auth_headers (signing_key user_id device_id contact_user_id : bytes)
    (alias : option bytes) (verified_by_qr : bool) (verified_fingerprint_sha256 : option bytes) : Cli Headers :=
  signed_headers (lit "contacts-upsert") signing_key user_id device_id
    (Ok ([mkTlv AUTH_TAG_RECIPIENT_ID user_id;
          mkTlv AUTH_TAG_CONTACT_USER_ID contact_user_id;
          mkTlv AUTH_TAG_CONTACT_ALIAS_HASH (sha256 (default [] alias));
          mkTlv AUTH_TAG_CONTACT_VERIFIED_FLAG [if verified_by_qr then x01 else x00]]
         ++ match verified_fingerprint_sha256 with
            | Some fingerprint => [mkTlv AUTH_TAG_CONTACT_FINGERPRINT fingerprint]
            | None => []
            end)).

Definition contacts_remove_auth_headers (signing_key user_id device_id contact_user_id : bytes) : Cli Headers :=
  signed_headers (lit "contacts-remove") signing_key user_id device_id
    (Ok [mkTlv AUTH_TAG_RECIPIENT_ID user_id; mkTlv AUTH_TAG_CONTACT_USER_ID contact_user_id]).

Definition groups_create_auth_headers (signing_key user_id device_id group_id : bytes)
    (member_user_ids : list bytes) : Cli Headers :=
  signed_headers (lit "groups-create") signing_key user_id device_id
    (let? members := normalize_group_member_ids member_user_ids in
     Ok [mkTlv AUTH_TAG_GROUP_ID group_id;
         mkTlv AUTH_TAG_GROUP_MEMBERS_HASH (hash_string_list_sha256 members)]).

Definition groups_members_list_auth_headers (signing_key user_id device_id group_id : bytes) : Cli Headers :=
  signed_headers (lit "groups-members-list") signing_key user_id device_id
    (Ok [mkTlv AUTH_TAG_GROUP_ID group_id]).

Definition groups_members_add_auth_headers (signing_key user_id device_id group_id member_user_id : bytes)
    : Cli Headers :=
  signed_headers (lit "groups-members-add") signing_key user_id device_id
    (Ok [mkTlv AUTH_TAG_GROUP_ID group_id; mkTlv AUTH_TAG_GROUP_MEMBER_USER_ID member_user_id]).

Definition groups_members_remove_auth_headers (signing_key user_id device_id group_id member_user_id : bytes)
    : Cli Headers :=
  signed_headers (lit "groups-members-remove") signing_key user_id device_id
    (Ok [mkTlv AUTH_TAG_GROUP_ID group_id; mkTlv AUTH_TAG_GROUP_MEMBER_USER_ID member_user_id]).

Definition groups_relay_auth_headers (signing_key user_id device_id group_id sender_user_id message_blob : bytes)
    : Cli Headers :=
  signed_headers (lit "groups-relay") signing_key user_id device_id
    (Ok [mkTlv AUTH_TAG_GROUP_ID group_id;
         mkTlv AUTH_TAG_GROUP_SENDER_USER_ID sender_user_id;
         mkTlv AUTH_TAG_GROUP_MESSAGE_BLOB_HASH (sha256 message_blob)]).

Definition prekeys_status_auth_headers (signing_key user_id device_id : bytes) : Cli Headers :=
  signed_headers (lit "prekeys-status") signing_key user_id device_id
    (Ok [mkTlv AUTH_TAG_RECIPIENT_ID user_id]).

Definition prekeys_auth_headers (signing_key user_id device_id : bytes) (request : PublishPrekeysRequest)
    : Cli Headers :=
  signed_headers (lit "prekeys") signing_key user_id device_id
    (Ok [mkTlv AUTH_TAG_PREKEY_SPK_HASH (sha256 (pp_signed_prekey_x25519_pub request));
         mkTlv AUTH_TAG_PREKEY_PQSPK_HASH (sha256 (pp_pq_signed_prekey_pub_mlkem768 request))]).
End Headers.

(** ** The requests of the client *)

Inductive CliCall : Type :=
| CallRelay (recipient_user_id message_blob : bytes)
| CallInbox (since : Z)
| CallSealedInbox (since : Z)
| CallInboxDelete (message_ids : list Z) (delete_before_id : option Z)
| CallDevicesList
| CallDevicesLink (new_device_id : bytes)
| CallDevicesRevoke (target_device_id : bytes)
| CallDevicesRetire
| CallDiscoveryHandles (phone_hashes email_hashes : list bytes)
| CallDiscoveryMatch (hashes : list bytes)
| CallContactsList
| CallContactsUpsert (contact_user_id : bytes) (alias : option bytes) (verified_by_qr : bool)
    (fingerprint : option bytes)
| CallContactsRemove (contact_user_id : bytes)
| CallGroupsCreate (group_id : bytes) (member_user_ids : list bytes)
| CallGroupsMembersList (group_id : bytes)
| CallGroupsMembersAdd (group_id member_user_id : bytes)
| CallGroupsMembersRemove (group_id member_user_id : bytes)
| CallPrekeysStatus
| CallPrekeys (request : PublishPrekeysRequest).

Section Requests.
Context `{P : Primitives} `{V : Ed25519} `{B : Base64}.

Definition cli_headers (clock : option N) (sk user dev : bytes) (call : CliCall) : Cli Headers :=
  match call with
  | CallRelay recipient blob => relay_auth_headers clock sk user dev recipient blob
  | CallInbox since => inbox_auth_headers clock sk user dev since
  | CallSealedInbox since => sealed_inbox_auth_headers clock sk user dev since
  | CallInboxDelete ids before => inbox_delete_auth_headers clock sk user dev ids before
  | CallDevicesList => devices_list_auth_headers clock sk user dev
  | CallDevicesLink new => devices_link_auth_headers clock sk user dev new
  | CallDevicesRevoke target => devices_revoke_auth_headers clock sk user dev target
  | CallDevicesRetire => retire_current_device_auth_headers clock sk user dev
  | CallDiscoveryHandles phone email => discovery_handles_auth_headers clock sk user dev phone email
  | CallDiscoveryMatch hashes => discovery_match_auth_headers clock sk user dev hashes
  | CallContactsList => contacts_list_auth_headers clock sk user dev
  | CallContactsUpsert contact alias verified fp =>
      contacts_upsert_auth_headers clock sk user dev contact alias verified fp
  | CallContactsRemove contact => contacts_remove_auth_headers clock sk user dev contact
  | CallGroupsCreate gid members => groups_create_auth_headers clock sk user dev gid members
  | CallGroupsMembersList gid => groups_members_list_auth_headers clock sk user dev gid
  | CallGroupsMembersAdd gid member => groups_members_add_auth_headers clock sk user dev gid member
  | CallGroupsMembersRemove gid member => groups_members_remove_auth_headers clock sk user dev gid member
  | CallPrekeysStatus => prekeys_status_auth_headers clock sk user dev
  | CallPrekeys request => prekeys_auth_headers clock sk user dev request
  end.

(** What the handler of the endpoint passes to its transcript function, after it
    has normalised what the client sent. *)
Definition server_request (user : bytes) (call : CliCall) : option AuthRequest :=
  match call with
  | CallRelay recipient blob => Some (ReqRelay recipient blob)
  | CallInbox since => Some (ReqInbox user since)
  | CallSealedInbox since => Some (ReqSealedInbox user since)
  | CallInboxDelete ids before =>
      Some (ReqInboxDelete user {| di_message_ids := ids; di_delete_before_id := before |})
  | CallDevicesList => Some (ReqListDevices user)
  | CallDevicesLink new => Some (ReqLinkDevice user new)
  | CallDevicesRevoke target => Some (ReqRevokeDevice user target)
  | CallDevicesRetire => Some (ReqRetireDevice user)
  | CallDiscoveryHandles phone email =>
      phone ← res_ok (Validation.normalize_sha256_hashes (lit "phone_hashes_sha256") phone);
      email ← res_ok (Validation.normalize_sha256_hashes (lit "email_hashes_sha256") email);
      Some (ReqDiscoveryHandles user phone email)
  | CallDiscoveryMatch hashes =>
      hashes ← res_ok (Validation.normalize_sha256_hashes (lit "hashes_sha256") hashes);
      Some (ReqDiscoveryMatch user hashes)
  | CallContactsList => Some (ReqContactsList user)
  | CallContactsUpsert contact alias verified fp =>
      alias ← res_ok (validate_optional_contact_alias alias);
      fp ← res_ok (validate_optional_fingerprint_sha256 fp);
      Some (ReqContactsUpsert user contact alias verified fp)
  | CallContactsRemove contact => Some (ReqContactsRemove user contact)
  | CallGroupsCreate gid members =>
      members ← res_ok (normalize_group_members members); Some (ReqGroupCreate gid members)
  | CallGroupsMembersList gid => Some (ReqGroupMembers gid)
  | CallGroupsMembersAdd gid member => Some (ReqGroupAdd gid member)
  | CallGroupsMembersRemove gid member => Some (ReqGroupRemove gid member)
  | CallPrekeysStatus => Some (ReqPrekeysStatus user)
  | CallPrekeys request => Some (ReqPrekeys request)
  end.

(** The inputs the client signs as they are and the server normalises: an alias
    and a fingerprint in normal form, and no more members than the client
    takes. *)
Definition call_plain (call : CliCall) : Prop :=
  match call with
  | CallContactsUpsert _ alias _ fp =>
      validate_optional_contact_alias alias = Ok alias ∧ validate_optional_fingerprint_sha256 fp = Ok fp
  | CallGroupsCreate _ members => (N.of_nat (length members) <=? MAX_GROUP_MEMBERS) = true
  | _ => True
  end.

(** Text a header carries unchanged. *)
Definition header_text (v : bytes) : Prop :=
  header_to_str v = Some v ∧ str_trim v = v ∧ 0 < len v ≤ 128.

Lemma validate_sha256_hex_agrees (field value h : bytes) :
  Validation.validate_sha256_hex field value = Ok h → validate_sha256_hex field value = Ok h.
Proof.
  unfold Validation.validate_sha256_hex, validate_sha256_hex.
  destruct (negb (len _ =? _)); [done|]. destruct (negb (forallb _ _)); congruence.
Qed.

Lemma normalize_sha256_hashes_agrees (field : bytes) (values l : list bytes) :
  Validation.normalize_sha256_hashes field values = Ok l → normalize_sha256_hashes field values = Ok l.
Proof.
  unfold Validation.normalize_sha256_hashes, normalize_sha256_hashes.
  change ServerError.MAX_DISCOVERY_HASHES with MAX_DISCOVERY_HASHES.
  destruct (MAX_DISCOVERY_HASHES <? _); [done|].
  assert (Hc : ∀ k, validated_hashes field values = Ok k → collect_hashes field values = Ok k).
  { induction values as [|v values IH]; intros k; cbn [validated_hashes collect_hashes]; [congruence|].
    destruct (Validation.validate_sha256_hex field v) as [h|] eqn:E; [|done].
    rewrite (validate_sha256_hex_agrees _ _ _ E).
    destruct (validated_hashes field values) as [k'|]; [|done]. rewrite (IH k' eq_refl). congruence. }
  destruct (validated_hashes field values) as [k|]; [|done]. rewrite (Hc k eq_refl). congruence.
Qed.

Lemma validate_id_agrees (field field' value : bytes) (u : unit) :
  Validation.validate_id field value = Ok u → validate_id field' value = Ok tt.
Proof.
  unfold Validation.validate_id, validate_id. unfold MAX_USER_ID_LEN, MAX_DEVICE_ID_LEN.
  intros H. destruct (len (str_trim value) =? 0); [done|]. by destruct (128 <? len (str_trim value)).
Qed.

Lemma normalize_group_members_agrees (values l : list bytes) :
  (N.of_nat (length values) <=? MAX_GROUP_MEMBERS) = true →
  normalize_group_members values = Ok l → normalize_group_member_ids values = Ok l.
Proof.
  unfold normalize_group_members, normalize_group_member_ids. intros Hn H.
  rewrite N.ltb_antisym, Hn. cbn [negb].
  assert (Hc : ∀ k, trimmed_members values = Ok k → trimmed_member_ids values = Ok k).
  { clear. induction values as [|v values IH]; intros k; cbn [trimmed_members trimmed_member_ids]; [congruence|].
    destruct (Validation.validate_id _ v) as [u|] eqn:E; [|done]. rewrite (validate_id_agrees _ (lit "member") _ _ E).
    destruct (trimmed_members values) as [k'|]; [|done]. rewrite (IH k' eq_refl). congruence. }
  destruct (trimmed_members values) as [k|]; [|done]. rewrite (Hc k eq_refl).
  destruct (ServerError.MAX_GROUP_MEMBERS <? _); congruence.
Qed.

(** Every header function signs the records the server's transcript has. *)
Lemma call_signed (clock : option N) (sk user dev : bytes) (call : CliCall) (r : AuthRequest) :
  server_request user call = Some r → call_plain call →
  ∃ endpoint records, cli_headers clock sk user dev call = signed_headers clock endpoint sk user dev (Ok records) ∧
    ∀ auth, ra_user_id auth = user → ra_device_id auth = dev →
      request_transcript auth r = auth_transcript auth endpoint records.
Proof.
  assert (Hok : ∀ E A (x : result E A) a, res_ok x = Some a → x = Ok a) by (intros E A [x|x] a; simpl; congruence).
  intros Hr Hp. destruct call; simpl in Hr, Hp;
    repeat match type of Hr with
           | context [res_ok ?x ≫= _] => let E := fresh "E" in destruct (res_ok x) eqn:E; simpl in Hr; [|done]; apply Hok in E
           end;
    injection Hr as <-; simpl cli_headers.
  all: try by (eexists _, _; split; [reflexivity|]; intros auth Hu Hd; unfold request_transcript; rewrite <- ?Hu, <- ?Hd; reflexivity).
  all: repeat match goal with
       | H : Validation.normalize_sha256_hashes _ _ = Ok _ |- _ => apply normalize_sha256_hashes_agrees in H
       | H : normalize_group_members _ = Ok _ |- _ => apply normalize_group_members_agrees in H; [|done]
       end.
  - unfold inbox_delete_auth_headers. eexists _, _. split; [reflexivity|]. intros auth Hu Hd.
    simpl. unfold inbox_delete_auth_message. simpl. by destruct delete_before_id.
  - unfold discovery_handles_auth_headers. rewrite E, E0. eexists _, _. split; [reflexivity|]. done.
  - unfold discovery_match_auth_headers. rewrite E. eexists _, _. split; [reflexivity|]. done.
  - destruct Hp as [Ha Hf]. rewrite Ha in E. rewrite Hf in E0. injection E as <-. injection E0 as <-.
    unfold contacts_upsert_auth_headers. eexists _, _. split; [reflexivity|]. intros auth Hu Hd. simpl.
    unfold contacts_upsert_auth_message. by destruct fingerprint.
  - unfold groups_create_auth_headers. rewrite E. eexists _, _. split; [reflexivity|]. done.
Qed.
End Requests.

(** ** The server reads them back *)

Section Accepted.
Context `{P : Primitives} `{V : Ed25519} `{B : Base64}.

(** Visible characters, the blank excepted, pass through a header unchanged. *)
Lemma visible_text (lo hi : N) (v : bytes) :
  0x21 ≤ lo → hi ≤ 0x7E → forallb (in_range lo hi) v = true → header_to_str v = Some v ∧ str_trim v = v.
Proof.
  intros Hlo Hhi Hv.
  assert (Hc : ∀ b, in_range lo hi b = true → in_range 0x20 0x7E b = true ∧ plain b = true).
  { intros b Hb. unfold plain, ws1, in_range in *. bool_to_prop.
    rewrite !(proj2 (N.leb_le _ _)) by lia. split; [done|].
    rewrite (proj2 (N.ltb_lt _ _)), (proj2 (N.leb_gt (Byte.to_N b) _)), (proj2 (N.leb_gt (Byte.to_N b) 0x20)) by lia.
    by rewrite !andb_false_r. }
  assert (Hf : ∀ b, b ∈ v → in_range lo hi b = true).
  { intros b Hb. apply list_elem_of_In in Hb. by apply (proj1 (forallb_forall _ v) Hv). }
  split.
  - unfold header_to_str. rewrite (proj2 (forallb_forall _ v)); [done|].
    intros b Hb%list_elem_of_In%Hf%Hc. by destruct Hb as [-> _].
  - destruct v as [|a v]; [done|]. apply str_trim_plain.
    + apply Hc, Hf. simpl. set_solver.
    + destruct (rev (a :: v)) as [|b r] eqn:E; [by apply (f_equal length) in E; rewrite length_rev in E|].
      apply Hc, Hf. rewrite <- (rev_involutive (a :: v)), E. simpl. set_solver.
Qed.

Lemma require_header_text (headers : HeaderMap) (name v : bytes) (n : N) :
  headers !! name = Some v → header_to_str v = Some v → str_trim v = v → 0 < len v ≤ n →
  require_header_value headers name n = Ok v.
Proof.
  intros Hh Hs Ht Hl. unfold require_header_value. rewrite Hh. cbn [ok_or]. rewrite Hs. cbn [ok_or].
  rewrite Ht, (proj2 (N.eqb_neq _ _)), (proj2 (N.ltb_ge _ _)) by lia. done.
Qed.

Lemma i64_to_string_text (secs : N) :
  (Z.of_N secs ≤ i64_max)%Z →
  let v := i64_to_string (Z.of_N secs) in
  header_to_str v = Some v ∧ str_trim v = v ∧ 0 < len v ≤ 32 ∧ parse_i64 v = Some (Z.of_N secs).
Proof.
  intros Hs v. unfold v, i64_to_string. rewrite (proj2 (Z.ltb_ge _ _)), N2Z.id by lia.
  destruct (decimal_spec secs) as (Hd & _ & Hl & Hb).
  destruct (visible_text 0x30 0x39 (decimal secs)) as [H1 H2]; [lia|lia|done|].
  split_and!; [done..| |by apply parse_i64_decimal].
  destruct (decide (secs = 0)) as [->|Hn]; [vm_compute; discriminate|]. specialize (Hb ltac:(lia)).
  destruct (decide (len (decimal secs) ≤ 32)) as [|Hgt]; [done|exfalso].
  assert (10 ^ 33 ≤ 10 ^ len (decimal secs)) by (apply N.pow_le_mono_r; lia).
  assert (10 * secs < 10 ^ 33) by (unfold i64_max in Hs; lia). lia.
Qed.

(** The server's check accepts what the client's key signs. *)
Lemma ed_signature_verifies `{!Ed25519Laws V} (pk sk m field : bytes) :
  ed_pair pk sk → verify_ed25519_signature pk (ed_sign sk m) m field = Ok tt.
Proof.
  intros Hpair. destruct (ed_correct _ _ m Hpair) as (k & sg & Hk & Hsg & Hv).
  destruct (ed_pair_length _ _ Hpair) as [Hlen _]. unfold verify_ed25519_signature, len.
  rewrite Hlen, ed_sign_length, Hk, Hsg. simpl. by rewrite Hv.
Qed.

(** A request signed with the key of an active device, in time and with a fresh
    nonce. *)
Lemma signature_accepted `{!Ed25519Laws V} `{I : HashIter} (s : AppState) (row : UserRow) (device : DeviceRow)
    (user dev sk m nonce : bytes) (secs : Z) :
  users (st_db s) !! user = Some row → ed_pair (u_identity_sig_pub row) sk →
  user_devices (st_db s) !! (user, dev) = Some device → d_active device = true →
  skew_ok (st_utc s) secs = true → (observe user nonce (st_instant s) (st_auth_replay s)).2 = true →
  (verify_request_auth (mkAuth user dev secs nonce (ed_sign sk m)) m s).2 = Ok tt.
Proof.
  intros Hrow Hpair Hdev Hact Hskew Hfresh. set (auth := mkAuth user dev secs nonce (ed_sign sk m)).
  pose proof (verify_request_auth_any_spec auth [m] s) as Hspec. unfold verify_request_auth.
  change (observe user nonce (st_instant s) (st_auth_replay s)) with
    (observe (ra_user_id auth) (ra_nonce auth) (st_instant s) (st_auth_replay s)) in Hfresh.
  destruct (observe _ _ _ _) as [c fresh] eqn:Eo. destruct (verify_request_auth_any auth [m] s) as [s' res].
  destruct Hspec as [_ Hok]. apply Hok. split; [done|]. split; [done|].
  exists row, device. split_and!; [done..|]. exists m. split; [set_solver|]. by apply ed_signature_verifies.
Qed.

Context `{BL : !Base64Laws B}.

Lemma b64_text (b : bytes) : header_to_str (b64_encode b) = Some (b64_encode b) ∧ str_trim (b64_encode b) = b64_encode b.
Proof. apply (visible_text 0x2B 0x7A); [lia|lia|apply b64_encode_range]. Qed.

Lemma validate_id_text (field v : bytes) : header_text v → Validation.validate_id field v = Ok tt.
Proof.
  intros (_ & Ht & Hl). unfold Validation.validate_id, MAX_USER_ID_LEN, MAX_DEVICE_ID_LEN.
  rewrite Ht, (proj2 (N.eqb_neq _ _)), (proj2 (N.ltb_ge _ _)) by lia. done.
Qed.

(** The server parses the headers the client builds. *)
Lemma parse_signed_headers (user dev nonce signature : bytes) (secs : N) :
  header_text user → header_text dev → (Z.of_N secs ≤ i64_max)%Z → length nonce = 16%nat →
  length signature = 64%nat →
  parse_request_auth (list_to_map [(AUTH_HEADER_USER, user); (AUTH_HEADER_DEVICE, dev);
    (AUTH_HEADER_TIMESTAMP, i64_to_string (Z.of_N secs)); (AUTH_HEADER_NONCE, b64_encode nonce);
    (AUTH_HEADER_SIGNATURE, b64_encode signature)])
  = Ok (mkAuth user dev (Z.of_N secs) (b64_encode nonce) signature).
Proof.
  intros Hu Hd Hs Hn Hg. unfold parse_request_auth. cbn [list_to_map foldr uncurry].
  pose proof (i64_to_string_text secs Hs) as (T1 & T2 & T3 & T4).
  pose proof (b64_text nonce) as (N1 & N2). pose proof (b64_text signature) as (S1 & S2).
  assert (Ln : len (b64_encode nonce) = 24) by (unfold len; rewrite b64_encode_length, Hn; done).
  assert (Lg : len (b64_encode signature) = 88) by (unfold len; rewrite b64_encode_length, Hg; done).
  pose proof Hu as (U1 & U2 & U3). pose proof Hd as (D1 & D2 & D3).
  rewrite (require_header_text _ AUTH_HEADER_USER user); [|by rewrite lookup_insert_eq|done..].
  rewrite (require_header_text _ AUTH_HEADER_DEVICE dev); [|by rewrite lookup_insert_ne, lookup_insert_eq by done|done..].
  rewrite !validate_id_text by done.
  rewrite (require_header_text _ AUTH_HEADER_TIMESTAMP (i64_to_string (Z.of_N secs)));
    [|by rewrite !lookup_insert_ne, lookup_insert_eq by done|done..]. rewrite T4. cbn [ok_or].
  rewrite (require_header_text _ AUTH_HEADER_NONCE (b64_encode nonce));
    [|by rewrite !lookup_insert_ne, lookup_insert_eq by done|done|done|unfold AUTH_MAX_NONCE_LEN; lia].
  rewrite (require_header_text _ AUTH_HEADER_SIGNATURE (b64_encode signature));
    [|by rewrite !lookup_insert_ne, lookup_insert_eq by done|done|done|lia].
  rewrite (proj2 (decode_base64_exact_iff _ _ signature SIG_LEN ltac:(done))); [done|].
  split; [done|]. unfold len. by rewrite Hg.
Qed.

Lemma signed_headers_run (clock : option N) (secs : N) (endpoint sk user dev nonce m : bytes)
    (records : list TlvRecord) (g g' : rng) :
  clock = Some secs → (Z.of_N secs ≤ i64_max)%Z → rng_fill 16 g = (nonce, g') →
  auth_transcript (mkAuth user dev (Z.of_N secs) (b64_encode nonce) []) endpoint records = Ok m →
  signed_headers clock endpoint sk user dev (Ok records) g =
    (g', Ok [(AUTH_HEADER_USER, user); (AUTH_HEADER_DEVICE, dev);
             (AUTH_HEADER_TIMESTAMP, i64_to_string (Z.of_N secs)); (AUTH_HEADER_NONCE, b64_encode nonce);
             (AUTH_HEADER_SIGNATURE, b64_encode (ed_sign sk m))]).
Proof.
  intros -> Hs Hg Hm. unfold signed_headers, auth_timestamp, auth_nonce, sm_bind, sm_lift. cbn [ok_or].
  rewrite (proj2 (Z.leb_le _ _) Hs), Hg. unfold auth_transcript in Hm.
  change (auth_common_records endpoint user dev (Z.of_N secs) (b64_encode nonce)) with
    (RequestAuth.auth_common_records (mkAuth user dev (Z.of_N secs) (b64_encode nonce) []) endpoint).
  destruct (encode _) as [m'|]; [|done]. injection Hm as <-. done.
Qed.
End Accepted.

(** What the client signs, the server verifies. Take a device of a registered
    user whose clock agrees with the server's up to the tolerated skew. For every
    request of the client there are headers, provided what it signs fits a
    transcript, and the server parses them, rebuilds the transcript from the
    request and accepts the signature, provided the nonce is fresh. *)
Theorem client_request_verified (P : Primitives) (PL : PrimitiveLaws P) (V : Ed25519) (VL : Ed25519Laws V)
    (B : Base64) (BL : Base64Laws B) (I : HashIter) (s : AppState) (row : UserRow) (device : DeviceRow)
    (user dev sk m : bytes) (secs : N) (call : CliCall) (r : AuthRequest) (g : rng) :
  let auth0 := mkAuth user dev (Z.of_N secs) (b64_encode (rng_fill 16 g).1) [] in
  users (st_db s) !! user = Some row → ed_pair (u_identity_sig_pub row) sk →
  user_devices (st_db s) !! (user, dev) = Some device → d_active device = true →
  header_text user → header_text dev → (Z.of_N secs ≤ i64_max)%Z →
  skew_ok (st_utc s) (Z.of_N secs) = true →
  (observe user (ra_nonce auth0) (st_instant s) (st_auth_replay s)).2 = true →
  server_request user call = Some r → call_plain call → request_transcript auth0 r = Ok m →
  ∃ headers auth, cli_headers (Some secs) sk user dev call g = ((rng_fill 16 g).2, Ok headers) ∧
    parse_request_auth (list_to_map headers) = Ok auth ∧ ra_user_id auth = user ∧ ra_device_id auth = dev ∧
    request_transcript auth r = Ok m ∧ (verify_request_auth auth m s).2 = Ok tt.
Proof.
  intros auth0 Hrow Hpair Hdev Hact Hu Hd Hs Hskew Hfresh Hr Hp Hm.
  destruct (call_signed (Some secs) sk user dev call r Hr Hp) as (ep & recs & -> & Ht).
  rewrite Ht in Hm by done. destruct (rng_fill 16 g) as [nonce g'] eqn:Eg. simpl in auth0, Hfresh |- *.
  set (auth := mkAuth user dev (Z.of_N secs) (b64_encode nonce) (ed_sign sk m)).
  eexists _, auth. split; [by apply (signed_headers_run (Some secs) secs ep sk user dev nonce m recs g)|].
  split; [|split_and!; [done..|by rewrite Ht by done|]].
  { apply parse_signed_headers; [done..| |apply ed_sign_length].
    pose proof (rng_fill_length 16 g) as Hl. by rewrite Eg in Hl. }
  by apply (signature_accepted s row device).
Qed.

Definition toy_call : CliCall :=
  CallDiscoveryMatch [lit "00112233445566778899AABBCCDDEEFF00112233445566778899aabbccddeeff"].

Definition toy_call_request : AuthRequest :=
  ReqDiscoveryMatch (lit "alice") [lit "00112233445566778899aabbccddeeff00112233445566778899aabbccddeeff"].

Definition toy_call_transcript : app bytes :=
  request_transcript (mkAuth (lit "alice") (lit "d1") 1000 (b64_encode (@rng_fill Toy 16 5).1) []) toy_call_request.

Lemma client_request_verified_witness :
  ∃ m headers auth, cli_headers (Some 1000) (toy_key 101) (lit "alice") (lit "d1") toy_call 5 =
      ((@rng_fill Toy 16 5).2, Ok headers) ∧
    parse_request_auth (list_to_map headers) = Ok auth ∧ ra_user_id auth = lit "alice" ∧ ra_device_id auth = lit "d1" ∧
    request_transcript auth toy_call_request = Ok m ∧
    (verify_request_auth auth m (toy_state (1000 * NANOS) 0 toy_db)).2 = Ok tt.
Proof.
  assert (Hok : is_ok toy_call_transcript = true) by (vm_compute; reflexivity).
  exists (ok_val toy_call_transcript Hok).
  apply (client_request_verified Toy ToyLaws ToyEd ToyEdLaws ToyBase64 ToyBase64Laws MapOrder
           (toy_state (1000 * NANOS) 0 toy_db) (toy_user 101) (mkDevice true 10 None) (lit "alice") (lit "d1")
           (toy_key 101) _ 1000 toy_call toy_call_request 5).
  - vm_compute. reflexivity.
  - split; vm_compute; reflexivity.
  - vm_compute. reflexivity.
  - reflexivity.
  - split; [|split; [|split]]; vm_compute; first [reflexivity|discriminate].
  - split; [|split; [|split]]; vm_compute; first [reflexivity|discriminate].
  - vm_compute. discriminate.
  - vm_compute. reflexivity.
  - vm_compute. reflexivity.
  - vm_compute. reflexivity.
  - exact Logic.I.
  - exact (ok_val_spec toy_call_transcript Hok).
Defined.

(** The group relay is the exception: the client signs the digest of one message,
    the server the digest of the list of recipients and messages, under another
    record type. The records differ whatever the message and the recipients. *)
Lemma groups_relay_differs (P : Primitives) (V : Ed25519) (B : Base64) (auth : RequestAuth)
    (group_id sender blob : bytes) (recipients : list (bytes * bytes)) (m : bytes) :
  group_relay_auth_message auth group_id sender recipients = Ok m →
  encode (auth_common_records (lit "groups-relay") (ra_user_id auth) (ra_device_id auth) (ra_timestamp auth)
             (ra_nonce auth) ++
          [mkTlv AUTH_TAG_GROUP_ID group_id; mkTlv AUTH_TAG_GROUP_SENDER_USER_ID sender;
           mkTlv AUTH_TAG_GROUP_MESSAGE_BLOB_HASH (sha256 blob)]) ≠ Ok m.
Proof.
  unfold group_relay_auth_message, auth_transcript, map_err. intros H H'.
  destruct (encode (RequestAuth.auth_common_records _ _ ++ _)) as [b|] eqn:E; [|done]. apply Ok_inj in H as ->.
  assert (Hne : AUTH_TAG_GROUP_MESSAGE_BLOB_HASH ≠ AUTH_TAG_GROUP_RECIPIENTS_HASH) by done.
  assert (Heq := λ Ha Hb, encode_inj _ _ _ Ha Hb H' E).
  specialize (Heq ltac:(by repeat constructor) ltac:(by repeat constructor)). apply Hne.
  unfold auth_common_records, RequestAuth.auth_common_records in Heq. simpl in Heq. congruence.
Qed.
