(* ===== verification/Accounts.v ===== *)
(** * Accounts and devices ([handlers/identity.rs], [handlers/util.rs])

    Registration with its proof of work, the devices of an account, deletion
    and the reset of development servers. Deleting a user deletes, through the
    foreign keys of the schema, every row that refers to the user. *)

From Stdlib Require Import Strings.Byte.
From S2P Require Import Prelude Bytes Errors Tlv Crypto Toy Alg PqSig ServerError Validation RequestAuth Caches Realtime ServerState ToyServer ServerFrame ServerAuth Messaging PrekeyServer.
Local Open Scope N_scope.

(** ** Requests and responses ([types.rs]) *)

Record RegisterUserRequest := mkRegister {
  rg_user_id : bytes;
  rg_identity_x25519_pub : bytes;
  rg_identity_sig_pub : bytes;
  rg_identity_pq_sig_pub : bytes;
  rg_device_id : bytes;
  rg_pow_nonce : option bytes;
}.

Record RegisterUserResponse := mkRegistered {
  ru_user_id : bytes;
  ru_device_id : bytes;
  ru_registered_at : Z;
}.

Record LinkDeviceResponse := mkLinked {
  ld_user_id : bytes;
  ld_linked_device_id : bytes;
  ld_linked_at : Z;
}.

Record RevokeDeviceResponse := mkRevoked {
  rv_user_id : bytes;
  rv_revoked_device_id : bytes;
  rv_revoked_at : Z;
}.

Record RetireCurrentDeviceResponse := mkRetired {
  rt_user_id : bytes;
  rt_retired_device_id : bytes;
  rt_retired_at : Z;
  rt_remaining_active_devices : nat;
}.

Record DeleteAccountResponse := mkDeleted {
  da_user_id : bytes;
  da_deleted_device_id : bytes;
  da_deleted_at : Z;
}.

Record DeviceRecord := mkDeviceRecord {
  dv_device_id : bytes;
  dv_active : bool;
  dv_linked_at : Z;
  dv_revoked_at : option Z;
}.

(** [\[...\].join(&\[0u8\]\[..\])]. *)
Fixpoint join_nul (parts : list bytes) : bytes :=
  match parts with
  | [] => []
  | [p] => p
  | p :: parts => p ++ [x00] ++ join_nul parts
  end.

Section Accounts.
Context `{P : Primitives} `{V : Ed25519} `{B : Base64} `{X : Hex} `{I : HashIter} `{U : !Uuid}.
Local Open Scope sm_scope.

(** ** Proof of work *)

Definition registration_pow_message (request : RegisterUserRequest) (nonce : bytes) : bytes :=
  join_nul [lit "register"; rg_user_id request; rg_device_id request; rg_identity_x25519_pub request;
            rg_identity_sig_pub request; rg_identity_pq_sig_pub request; nonce].

Definition validate_pow_nonce (value : bytes) : app unit :=
  let trimmed := str_trim value in
  if (len trimmed =? 0) || (MAX_POW_NONCE_LEN <? len trimmed)
  then Err (bad_request (lit "pow_nonce must be 1..=128 characters"))
  else if negb (forallb (λ b, is_ascii_alphanumeric b || is_char x2d b || is_char x5f b) trimmed)
  then Err (bad_request (lit "pow_nonce must contain only [A-Za-z0-9_-]"))
  else Ok tt.

Definition enforce_registration_pow (bits : N) (request : RegisterUserRequest) : app unit :=
  if bits =? 0 then Ok tt
  else if 32 <? bits
  then Err (internal (lit "registration_pow_bits must be <= 32 for SHA-256 proof checks"))
  else
    let? nonce := ok_or (rg_pow_nonce request) (bad_request (lit "pow_nonce is required for registration")) in
    let? _ := validate_pow_nonce nonce in
    let digest := sha256 (registration_pow_message request nonce) in
    if negb (has_leading_zero_bits digest bits)
    then Err (bad_request (lit "invalid registration proof-of-work"))
    else Ok tt.

(** ** Registration *)

(** [INSERT ... ON CONFLICT (user_id, device_id) DO UPDATE SET active = 1,
    revoked_at = NULL]. *)
Definition activate_device (user_id device_id : bytes) (linked_at : Z) (d : Db) : Db :=
  let row := match user_devices d !! (user_id, device_id) with
             | Some old => mkDevice true (d_linked_at old) None
             | None => mkDevice true linked_at None
             end in
  set_user_devices (<[(user_id, device_id) := row]> (user_devices d)) d.

(** [INSERT ... ON CONFLICT (user_id, version) DO NOTHING] with version 1. *)
Definition insert_initial_event (user_id x sig pq device_id : bytes) (now : Z) (d : Db) : Db :=
  if existsb (λ e, bool_decide (ev_user_id e = user_id) && (ev_version e =? 1)%Z) (rows (identity_events d))
  then d
  else set_identity_events (insert_row (λ id,
         mkEvent id user_id 1 x sig (Some pq) device_id (lit "initial") now) (identity_events d)).1 d.

(** The two updates of an account that registers again: a post-quantum key where
    there was none, a delivery token where there was none. *)
Definition fill_pq_key (pq token : bytes) (now : Z) (u : UserRow) : UserRow :=
  mkUser (u_identity_x25519_pub u) (u_identity_sig_pub u) (Some pq) (u_device_id u)
    (Some (default token (u_sealed_delivery_token u))) (u_created_at u) now.

Definition fill_token (token : bytes) (now : Z) (u : UserRow) : UserRow :=
  mkUser (u_identity_x25519_pub u) (u_identity_sig_pub u) (u_identity_pq_sig_pub u) (u_device_id u)
    (Some token) (u_created_at u) now.

Definition register_user (request : RegisterUserRequest) : Handler RegisterUserResponse :=
  check_rate_limit (lit "register:" ++ rg_user_id request);;;
  lift (validate_id (lit "user_id") (rg_user_id request));;;
  lift (validate_id (lit "device_id") (rg_device_id request));;;
  bits <- gets (λ s, registration_pow_bits (st_dos_policy s));;
  lift (enforce_registration_pow bits request);;;
  identity_x25519 <- lift (decode_base64_exact (lit "identity_x25519_pub") (rg_identity_x25519_pub request)
                             X25519_KEY_LEN);;
  identity_sig <- lift (decode_base64_range (lit "identity_sig_pub") (rg_identity_sig_pub request)
                          SIG_PUB_KEY_LEN SIG_PUB_KEY_LEN);;
  lift (validate_ed25519_public_key identity_sig);;;
  identity_pq_sig <- lift (decode_base64_exact (lit "identity_pq_sig_pub") (rg_identity_pq_sig_pub request)
                             PQ_SIG_PUB_KEY_LEN);;
  lift (validate_ml_dsa_public_key identity_pq_sig);;;
  now <- gets st_utc;;
  sealed_delivery_token <- generate_sealed_delivery_token;;
  existing <- query (λ d, users d !! rg_user_id request);;
  match existing with
  | None =>
      execute (λ d, set_users (<[rg_user_id request :=
        mkUser identity_x25519 identity_sig (Some identity_pq_sig) (rg_device_id request)
          (Some sealed_delivery_token) now now]> (users d)) d);;;
      execute (activate_device (rg_user_id request) (rg_device_id request) now);;;
      execute (insert_initial_event (rg_user_id request) identity_x25519 identity_sig identity_pq_sig
                 (rg_device_id request) now);;;
      sm_ret (mkRegistered (rg_user_id request) (rg_device_id request) now)
  | Some existing =>
      reject_if (negb (bool_decide (u_identity_x25519_pub existing = identity_x25519))
                 || negb (bool_decide (u_identity_sig_pub existing = identity_sig))
                 || negb (bool_decide (u_device_id existing = rg_device_id request))
                 || match u_identity_pq_sig_pub existing with
                    | Some existing_key => negb (bool_decide (existing_key = identity_pq_sig))
                    | None => false
                    end)
        (conflict (lit "user_id is already registered with an immutable identity"));;;
      (if bool_decide (u_identity_pq_sig_pub existing = None) then
         execute (λ d, set_users (alter (fill_pq_key identity_pq_sig sealed_delivery_token now)
                                    (rg_user_id request) (users d)) d)
       else if bool_decide (u_sealed_delivery_token existing = None) then
         execute (λ d, set_users (alter (fill_token sealed_delivery_token now) (rg_user_id request) (users d)) d)
       else sm_ret tt);;;
      execute (activate_device (rg_user_id request) (u_device_id existing) (u_created_at existing));;;
      sm_ret (mkRegistered (rg_user_id request) (u_device_id existing) (u_created_at existing))
  end.

(** ** Deletion *)

(** [DELETE FROM users WHERE user_id = $1] and what [ON DELETE CASCADE] adds,
    after the deletions of [delete_user_owned_state]. *)
Definition delete_user_owned_state (user_id : bytes) (d : Db) : Db :=
  let mine (u : bytes) := bool_decide (u = user_id) in
  mkDb (delete user_id (users d))
    (filter (λ '((u, _), _), mine u = false) (user_devices d))
    (filter (λ '((u, _), _), mine u = false) (prekeys d))
    (delete_rows (λ r, mine (ot_user_id r)) (one_time_prekeys_x25519 d))
    (delete_rows (λ r, mine (ot_user_id r)) (one_time_prekeys_mlkem768 d))
    (delete_rows (λ r, mine (rm_recipient_user_id r) || mine (rm_sender_user_id r)) (relay_messages d))
    (delete_rows (λ r, mine (sm_recipient_user_id r)
                       || match sm_sender_user_id r with Some u => mine u | None => false end)
       (sealed_relay_messages d))
    (filter (λ '((u, _), _), mine u = false) (inbox_cursors d))
    (filter (λ '((u, _), _), mine u = false) (sealed_inbox_cursors d))
    (filter (λ '(_, t), mine (tk_user_id t) = false) (ws_inbox_tickets d))
    (relay_dedup d)
    (delete_rows (λ e, mine (ev_user_id e)) (identity_events d))
    (filter (λ '(_, c), mine (cg_user_id c) = false) (identity_rotation_challenges d))
    (filter (λ '((u, _, _), _), mine u = false) (push_tokens d))
    (filter (λ '((u, c), _), mine u || mine c = false) (contacts d))
    (filter (λ '(_, i), mine (iv_user_id i) = false) (contact_invites d))
    (delete user_id (user_profiles d)) (private_groups d)
    (mkObjects (filter (λ '(_, f), mine (fi_owner_user_id f) || mine (fi_recipient_user_id f) = false)
                  (encrypted_files (stored_objects d)))
               (delete user_id (encrypted_backups (stored_objects d)))).

Definition reset_dev_user_identity (user_id : bytes) : Handler unit :=
  check_rate_limit (lit "dev-reset:" ++ user_id);;;
  lift (validate_id (lit "user_id") user_id);;;
  mode <- gets st_deployment_mode;;
  profile <- gets st_security_profile;;
  reject_if (match mode, profile with Development, Research => false | _, _ => true end)
    (forbidden (lit "development-only user reset is disabled outside research development mode"));;;
  transaction (execute (delete_user_owned_state user_id)).

Definition delete_account (user_id : bytes) (headers : HeaderMap) : Handler DeleteAccountResponse :=
  check_rate_limit (lit "account-delete:" ++ user_id);;;
  lift (validate_id (lit "user_id") user_id);;;
  auth <- lift (parse_request_auth headers);;
  reject_if (negb (bool_decide (ra_user_id auth = user_id))) (bad_request (lit "auth user_id mismatch"));;;
  auth_message <- lift (delete_account_auth_message auth user_id);;
  verify_request_auth auth auth_message;;;
  ensure_user_exists user_id;;;
  deleted_at <- gets st_utc;;
  transaction (execute (delete_user_owned_state user_id));;;
  sm_ret (mkDeleted user_id (ra_device_id auth) deleted_at).

(** ** Devices *)

Definition list_devices (user_id : bytes) (headers : HeaderMap) : Handler (bytes * list DeviceRecord) :=
  check_rate_limit (lit "devices-list:" ++ user_id);;;
  lift (validate_id (lit "user_id") user_id);;;
  auth <- lift (parse_request_auth headers);;
  reject_if (negb (bool_decide (ra_user_id auth = user_id))) (bad_request (lit "auth user_id mismatch"));;;
  auth_message <- lift (list_devices_auth_message auth user_id);;
  verify_request_auth auth auth_message;;;
  ensure_user_exists user_id;;;
  rows <- query (λ d, sort_unstable device_leb
    (omap (λ '((u, dev), row), if bool_decide (u = user_id) then Some (dev, row) else None)
       (map_to_list (user_devices d))));;
  sm_ret (user_id, map (λ '(dev, row), mkDeviceRecord dev (d_active row) (d_linked_at row) (d_revoked_at row)) rows).

Definition link_device (user_id : bytes) (headers : HeaderMap) (new_device_id : bytes) : Handler LinkDeviceResponse :=
  check_rate_limit (lit "devices-link:" ++ user_id);;;
  lift (validate_id (lit "user_id") user_id);;;
  lift (validate_id (lit "new_device_id") new_device_id);;;
  auth <- lift (parse_request_auth headers);;
  reject_if (negb (bool_decide (ra_user_id auth = user_id))) (bad_request (lit "auth user_id mismatch"));;;
  reject_if (bool_decide (ra_device_id auth = new_device_id))
    (bad_request (lit "new_device_id must differ from authenticated device_id"));;;
  auth_message <- lift (link_device_auth_message auth user_id new_device_id);;
  verify_request_auth auth auth_message;;;
  ensure_user_exists user_id;;;
  now <- gets st_utc;;
  execute (activate_device user_id new_device_id now);;;
  row <- query (λ d, user_devices d !! (user_id, new_device_id));;
  row <- lift (ok_or row database_error);;
  sm_ret (mkLinked user_id new_device_id (d_linked_at row)).

(** [UPDATE user_devices SET active = 0, revoked_at = $3 WHERE ... AND active = 1],
    and whether a row was changed. *)
Definition retire_device_row (user_id device_id : bytes) (retired_at : Z) : Handler bool :=
  row <- query (λ d, user_devices d !! (user_id, device_id));;
  match row with
  | Some row =>
      if d_active row then
        execute (λ d, set_user_devices (<[(user_id, device_id) := mkDevice false (d_linked_at row) (Some retired_at)]>
                                          (user_devices d)) d);;;
        sm_ret true
      else sm_ret false
  | None => sm_ret false
  end.

Definition touch_user (now : Z) (u : UserRow) : UserRow :=
  mkUser (u_identity_x25519_pub u) (u_identity_sig_pub u) (u_identity_pq_sig_pub u) (u_device_id u)
    (u_sealed_delivery_token u) (u_created_at u) now.

Definition replace_primary (retired replacement : bytes) (u : UserRow) : UserRow :=
  if bool_decide (u_device_id u = retired)
  then mkUser (u_identity_x25519_pub u) (u_identity_sig_pub u) (u_identity_pq_sig_pub u) replacement
         (u_sealed_delivery_token u) (u_created_at u) (u_updated_at u)
  else u.

Definition update_user_primary_device_after_retire (user_id retired_device_id : bytes) (retired_at : Z)
    : Handler nat :=
  remaining <- query (λ d, (active_devices user_id d).*1);;
  execute (λ d, set_users (alter (touch_user retired_at) user_id (users d)) d);;;
  match remaining with
  | replacement :: _ =>
      execute (λ d, set_users (alter (replace_primary retired_device_id replacement) user_id (users d)) d);;;
      sm_ret (length remaining)
  | [] => sm_ret 0%nat
  end.

Definition cleanup_retired_device_state (user_id device_id : bytes) (d : Db) : Db :=
  let mine (u dev : bytes) := bool_decide (u = user_id) && bool_decide (dev = device_id) in
  let d := set_prekeys (delete (user_id, device_id) (prekeys d)) d in
  let d := set_one_time TableX25519 (delete_rows (owned_by user_id device_id) (one_time TableX25519 d)) d in
  let d := set_one_time TableMlkem768 (delete_rows (owned_by user_id device_id) (one_time TableMlkem768 d)) d in
  let d := set_relay_messages (delete_rows (λ r, mine (rm_recipient_user_id r) (rm_recipient_device_id r))
                                 (relay_messages d)) d in
  let d := set_sealed_relay_messages (delete_rows (λ r, mine (sm_recipient_user_id r) (sm_recipient_device_id r))
                                        (sealed_relay_messages d)) d in
  let d := set_push_tokens (filter (λ '((u, dev, _), _), mine u dev = false) (push_tokens d)) d in
  let d := set_inbox_cursors (delete (user_id, device_id) (inbox_cursors d)) d in
  set_sealed_inbox_cursors (delete (user_id, device_id) (sealed_inbox_cursors d)) d.

Definition revoke_device (user_id target_device_id : bytes) (headers : HeaderMap) : Handler RevokeDeviceResponse :=
  check_rate_limit (lit "devices-revoke:" ++ user_id);;;
  lift (validate_id (lit "user_id") user_id);;;
  lift (validate_id (lit "target_device_id") target_device_id);;;
  auth <- lift (parse_request_auth headers);;
  reject_if (negb (bool_decide (ra_user_id auth = user_id))) (bad_request (lit "auth user_id mismatch"));;;
  reject_if (bool_decide (ra_device_id auth = target_device_id))
    (bad_request (lit "cannot revoke currently authenticated device"));;;
  auth_message <- lift (revoke_device_auth_message auth user_id target_device_id);;
  verify_request_auth auth auth_message;;;
  ensure_user_exists user_id;;;
  target_row <- query (λ d, user_devices d !! (user_id, target_device_id));;
  target_row <- lift (ok_or target_row (not_found (lit "target device not found")));;
  reject_if (negb (d_active target_row)) (conflict (lit "target device is already revoked"));;;
  revoked_at <- gets st_utc;;
  transaction (
    updated <- retire_device_row user_id target_device_id revoked_at;;
    reject_if (negb updated) (conflict (lit "target device is already revoked"));;;
    update_user_primary_device_after_retire user_id target_device_id revoked_at;;;
    execute (cleanup_retired_device_state user_id target_device_id));;;
  sm_ret (mkRevoked user_id target_device_id revoked_at).

Definition retire_current_device (user_id : bytes) (headers : HeaderMap) : Handler RetireCurrentDeviceResponse :=
  check_rate_limit (lit "devices-retire:" ++ user_id);;;
  lift (validate_id (lit "user_id") user_id);;;
  auth <- lift (parse_request_auth headers);;
  reject_if (negb (bool_decide (ra_user_id auth = user_id))) (bad_request (lit "auth user_id mismatch"));;;
  auth_message <- lift (retire_current_device_auth_message auth user_id);;
  verify_request_auth auth auth_message;;;
  ensure_user_exists user_id;;;
  retired_at <- gets st_utc;;
  remaining <- transaction (
    updated <- retire_device_row user_id (ra_device_id auth) retired_at;;
    reject_if (negb updated) (conflict (lit "current device is already revoked"));;;
    remaining <- update_user_primary_device_after_retire user_id (ra_device_id auth) retired_at;;
    execute (cleanup_retired_device_state user_id (ra_device_id auth));;;
    sm_ret remaining);;
  sm_ret (mkRetired user_id (ra_device_id auth) retired_at remaining).
End Accounts.
