(* ===== verification/IdentityLog.v ===== *)
(** * The identity log of the server

    All modelled requests as one step function of the server, and the
    invariant that ties the identity of a user to its log: the events of a user
    are numbered from one without gaps, the last one holds the keys the server
    serves, and no event outlives its user. *)

From Stdlib Require Import Strings.Byte.
From S2P Require Import Prelude Bytes Errors Tlv Crypto Toy Alg PqSig ServerError Validation RequestAuth Caches Realtime ServerState ToyServer ServerFrame ServerAuth Messaging Delivery PrekeyServer PrekeyFacts Accounts.
Local Open Scope N_scope.

(** ** The server as a whole *)

Inductive ServerCall : Type :=
| CallMessaging (c : MessagingCall)
| CallPublish (user : bytes) (headers : HeaderMap) (request : PublishPrekeysRequest)
| CallStatus (user : bytes) (headers : HeaderMap)
| CallBundle (user : bytes) (device : option bytes)
| CallRotateInit (user : bytes) (headers : HeaderMap) (request : RotateInitRequest)
| CallRotateConfirm (user : bytes) (headers : HeaderMap) (request : RotateConfirmRequest)
| CallIdentityLog (user : bytes) (headers : HeaderMap)
| CallRegister (request : RegisterUserRequest)
| CallReset (user : bytes)
| CallDeleteAccount (user : bytes) (headers : HeaderMap)
| CallListDevices (user : bytes) (headers : HeaderMap)
| CallLinkDevice (user : bytes) (headers : HeaderMap) (device : bytes)
| CallRevokeDevice (user device : bytes) (headers : HeaderMap)
| CallRetireDevice (user : bytes) (headers : HeaderMap).

Section Server.
Context `{P : Primitives} `{V : Ed25519} `{B : Base64} `{X : Hex} `{I : HashIter} `{U : !Uuid}.
Context (MlDsa65_new : option PqSignatureProvider).

(** The state after a request, whatever it answers. *)
Definition serve (c : ServerCall) (s : AppState) : AppState :=
  match c with
  | CallMessaging c => after_call c s
  | CallPublish u h q => (publish_prekeys MlDsa65_new u h q s).1
  | CallStatus u h => (get_prekeys_status u h s).1
  | CallBundle u dev => (get_bundle u dev s).1
  | CallRotateInit u h q => (rotate_init u h q s).1
  | CallRotateConfirm u h q => (rotate_confirm MlDsa65_new u h q s).1
  | CallIdentityLog u h => (get_identity_log u h s).1
  | CallRegister q => (register_user q s).1
  | CallReset u => (reset_dev_user_identity u s).1
  | CallDeleteAccount u h => (delete_account u h s).1
  | CallListDevices u h => (list_devices u h s).1
  | CallLinkDevice u h dev => (link_device u h dev s).1
  | CallRevokeDevice u dev h => (revoke_device u dev h s).1
  | CallRetireDevice u h => (retire_current_device u h s).1
  end.

(** A run from an empty database: requests, and readings of a clock that shows
    times after 1970. *)
Inductive server_run : AppState → Prop :=
| run_empty s : st_db s = empty_db → (0 ≤ st_utc s)%Z → server_run s
| run_serve s c : server_run s → server_run (serve c s)
| run_tick s utc instant : server_run s → (0 ≤ utc)%Z → server_run (set_clock utc instant s).

(** ** Identities and their events *)

Definition identity_of (row : UserRow) : bytes * bytes := (u_identity_x25519_pub row, u_identity_sig_pub row).
Definition identity_at (u : bytes) (d : Db) : option (bytes * bytes) := identity_of <$> users d !! u.

Definition event_identity (e : EventRow) : bytes * bytes := (ev_identity_x25519_pub e, ev_identity_sig_pub e).
Definition events_of (u : bytes) (d : Db) : list EventRow :=
  filter (λ e, ev_user_id e = u) (rows (identity_events d)).

(** The events of a user are numbered from one, the last is the user's identity
    and every event has a user; the keys of events and of open rotations have
    their length, the times are after 1970. *)
Record log_wf (d : Db) : Prop := {
  log_versions : ∀ u, map ev_version (events_of u d) = map Z.of_nat (seq 1 (length (events_of u d)));
  log_current : ∀ u k, identity_at u d = Some k → event_identity <$> list.last (events_of u d) = Some k;
  log_owner : ∀ e, e ∈ rows (identity_events d) → is_Some (identity_at (ev_user_id e) d);
  log_fields : ∀ e, e ∈ rows (identity_events d) →
    length (ev_identity_x25519_pub e) = 32%nat ∧ (0 ≤ ev_changed_at e)%Z ∧ (0 ≤ ev_id e)%Z;
  log_next : (0 ≤ next_id (identity_events d))%Z;
  log_challenges : map_Forall (λ _ c, length (cg_new_identity_x25519_pub c) = 32%nat)
                     (identity_rotation_challenges d);
}.

Lemma empty_log_wf : log_wf empty_db.
Proof.
  split; [done|intros u k; unfold identity_at; simpl; by rewrite lookup_empty|intros e He|intros e He|done|];
    [by apply elem_of_nil in He..|]. apply map_Forall_empty.
Qed.

(** The version of the next event. *)
Lemma max_version_events (u : bytes) (d : Db) :
  log_wf d → default 0%Z (max_version u d) = Z.of_nat (length (events_of u d)).
Proof.
  intros Hwf. unfold max_version. fold (events_of u d). rewrite (log_versions _ Hwf).
  destruct (length (events_of u d)) as [|n]; [done|]. cbn [seq map default].
  enough (H : ∀ n m a, (a ≤ m)%nat → foldr Z.max (Z.of_nat a) (map Z.of_nat (seq (S m) n)) =
                      if decide (n = 0)%nat then Z.of_nat a else Z.of_nat (m + n)).
  { change 1%Z with (Z.of_nat 1). rewrite H by lia. unfold Datatypes.id. case_decide; lia. }
  clear. induction n as [|n IH]; intros m a Ha; [done|]. cbn [seq map foldr].
  rewrite IH by lia. repeat case_decide; lia.
Qed.

(** An event appended for a user whose identity becomes the one of the event. *)
Lemma log_append (d d' : Db) (u x sig device ty : bytes) (pq : option bytes) (v t : Z) :
  log_wf d →
  identity_events d' = (insert_row (λ id, mkEvent id u v x sig pq device ty t) (identity_events d)).1 →
  v = (default 0 (max_version u d) + 1)%Z →
  (∀ w, identity_at w d' = if decide (w = u) then Some (x, sig) else identity_at w d) →
  length x = 32%nat → (0 ≤ t)%Z →
  map_Forall (λ _ c, length (cg_new_identity_x25519_pub c) = 32%nat) (identity_rotation_challenges d') →
  log_wf d'.
Proof.
  intros Hwf He Hv Hid Hx Ht Hch. rewrite max_version_events in Hv by done.
  assert (Hev : ∀ w, events_of w d' = events_of w d ++
    if decide (w = u) then [mkEvent (next_id (identity_events d)) u v x sig pq device ty t] else []).
  { intros w. unfold events_of. rewrite He. cbn [insert_row fst rows].
    rewrite list.filter_app, list.filter_cons, list.filter_nil. cbn [ev_user_id]. repeat case_decide; congruence. }
  assert (Hrows : ∀ e, e ∈ rows (identity_events d') →
    e ∈ rows (identity_events d) ∨ e = mkEvent (next_id (identity_events d)) u v x sig pq device ty t).
  { intros e. rewrite He. cbn [insert_row fst rows]. rewrite elem_of_app, list_elem_of_singleton. tauto. }
  pose proof (log_next _ Hwf). split; try done.
  - intros w. rewrite Hev. case_decide as Hw; [|rewrite app_nil_r; apply Hwf]. subst w.
    rewrite map_app, (log_versions _ Hwf), length_app, seq_app, map_app. simpl. do 2 f_equal. lia.
  - intros w k. rewrite Hid, Hev. case_decide as Hw; [|rewrite app_nil_r; apply Hwf].
    intros [= <-]. by rewrite last_snoc.
  - intros e [Hin| ->]%Hrows; rewrite Hid; case_decide; simpl in *; try done. by apply Hwf.
  - intros e [Hin| ->]%Hrows; [by apply Hwf|done].
  - rewrite He. simpl. lia.
Qed.

Lemma log_delete (u : bytes) (d : Db) : log_wf d → log_wf (delete_user_owned_state u d).
Proof.
  intros Hwf. set (d' := delete_user_owned_state u d).
  assert (Hid : ∀ w, identity_at w d' = if decide (w = u) then None else identity_at w d).
  { intros w. unfold identity_at, d'. cbn [delete_user_owned_state users].
    case_decide as Hw; [subst; by rewrite lookup_delete_eq|by rewrite lookup_delete_ne]. }
  assert (Hev : ∀ w, events_of w d' = if decide (w = u) then [] else events_of w d).
  { intros w. unfold events_of, d'. cbn [delete_user_owned_state identity_events delete_rows rows].
    induction (rows (identity_events d)) as [|e l IH]; [by case_decide|].
    rewrite (list.filter_cons _ e l). case_bool_decide; rewrite decide_False + rewrite decide_True; try done;
      rewrite !list.filter_cons, IH; repeat case_decide; congruence. }
  assert (Hrows : ∀ e, e ∈ rows (identity_events d') → e ∈ rows (identity_events d) ∧ ev_user_id e ≠ u).
  { intros e. unfold d'. cbn [delete_user_owned_state identity_events delete_rows rows].
    rewrite list_elem_of_filter. case_bool_decide; by intros [? ?]. }
  split.
  - intros w. rewrite Hev. case_decide; [done|apply Hwf].
  - intros w k. rewrite Hid, Hev. case_decide; [done|apply Hwf].
  - intros e [Hin Hne]%Hrows. rewrite Hid, decide_False by done. by apply Hwf.
  - intros e [Hin _]%Hrows. by apply Hwf.
  - apply (log_next _ Hwf).
  - intros i c Hc. apply map_lookup_filter_Some in Hc as [Hc _]. exact (log_challenges _ Hwf i c Hc).
Qed.

(** ** Requests that leave identities alone *)

Definition keeps (s s' : AppState) : Prop :=
  st_utc s' = st_utc s ∧ identity_events (st_db s') = identity_events (st_db s) ∧
  (∀ u, identity_at u (st_db s') = identity_at u (st_db s)) ∧
  identity_rotation_challenges (st_db s') = identity_rotation_challenges (st_db s).

(** What every request does. *)
Definition preserves (s s' : AppState) : Prop :=
  st_utc s' = st_utc s ∧ ((0 ≤ st_utc s)%Z → log_wf (st_db s) → log_wf (st_db s')).

#[local] Instance keeps_preorder : PreOrder keeps.
Proof.
  split; [by split|]. intros s1 s2 s3 (T1 & E1 & H1 & C1) (T2 & E2 & H2 & C2).
  split_and!; congruence.
Qed.
#[local] Instance keeps_coarse : Coarse keeps.
Proof. by intros s s' (? & ? & ? & ->). Qed.
#[local] Instance keeps_rollback : Rollback keeps.
Proof. intros s s' (T & _). by split_and!. Qed.

#[local] Instance preserves_preorder : PreOrder preserves.
Proof.
  split; [by split|]. intros s1 s2 s3 [T1 H1] [T2 H2]. split; [congruence|]. rewrite T1 in H2. auto.
Qed.
#[local] Instance preserves_coarse : Coarse preserves.
Proof. by intros s s' (? & ? & ? & ->). Qed.

Lemma keeps_preserves (s s' : AppState) : keeps s s' → preserves s s'.
Proof.
  intros (T & E & H & C). split; [done|]. intros _ Hwf. unfold events_of in *.
  destruct Hwf as [Hv Hc Ho Hf Hn Hch]. unfold events_of in *.
  split; unfold events_of; rewrite ?E, ?C; try done; [intros u k|intros e He]; rewrite H; auto.
Qed.

Lemma keeps_users (s : AppState) (f : Db → Db) :
  identity_events (f (st_db s)) = identity_events (st_db s) → users (f (st_db s)) = users (st_db s) →
  identity_rotation_challenges (f (st_db s)) = identity_rotation_challenges (st_db s) →
  keeps s (set_db (f (st_db s)) s).
Proof. intros He Hu Hc. split_and!; try done. intros u. unfold identity_at. simpl. by rewrite Hu. Qed.

(** An update of a user's row that leaves the keys. *)
Lemma keeps_alter_user (f : UserRow → UserRow) (u : bytes) (s : AppState) :
  (∀ row, identity_of (f row) = identity_of row) →
  keeps s (set_db (set_users (alter f u (users (st_db s))) (st_db s)) s).
Proof.
  intros Hf. split_and!; try done. intros v. unfold identity_at. simpl.
  destruct (decide (u = v)) as [->|]; [|by rewrite lookup_alter_ne].
  rewrite lookup_alter_eq. destruct (users (st_db s) !! v); simpl; [by rewrite Hf|done].
Qed.

Lemma replace_primary_identity (a b : bytes) (u : UserRow) : identity_of (replace_primary a b u) = identity_of u.
Proof. unfold replace_primary. by case_bool_decide. Qed.

(** *** Messaging *)

(** The part of the database that belongs to accounts. *)
Definition account_part (d : Db) :=
  (users d, user_devices d, prekeys d, one_time_prekeys_x25519 d, one_time_prekeys_mlkem768 d, identity_events d,
   identity_rotation_challenges d).

Definition untouched (s s' : AppState) : Prop :=
  st_utc s' = st_utc s ∧ account_part (st_db s') = account_part (st_db s).

#[local] Instance untouched_preorder : PreOrder untouched.
Proof. split; [by split|]. intros s1 s2 s3 [T1 E1] [T2 E2]. split; congruence. Qed.
#[local] Instance untouched_coarse : Coarse untouched.
Proof. by intros s s' (? & ? & ? & ->). Qed.
#[local] Instance untouched_rollback : Rollback untouched.
Proof. intros s s' (T & _). by split. Qed.

Local Ltac alone1 :=
  first [ step1 | apply steps_supported; apply _ | apply steps_direct_supported; apply _ | solve [split; reflexivity] ].
Local Ltac alone := repeat alone1.

Lemma untouched_observe_relay_dedup (key : bytes) : steps untouched (observe_relay_dedup key).
Proof. unfold observe_relay_dedup, purge_now. alone. Qed.

Lemma untouched_insert_for_devices {R : Type} (get : Db → Table R) (set : Table R → Db → Db) (mk : bytes → Z → R)
    (devices : list bytes) :
  (∀ t s, untouched s (set_db (set t (st_db s)) s)) → steps untouched (insert_for_devices get set mk devices).
Proof. intros Hset. induction devices; cbn [insert_for_devices]; alone. Qed.

Lemma untouched_update_cursor (user_id device_id : bytes) (m : Z) :
  steps untouched (update_cursor direct_mailbox user_id device_id m) ∧
  steps untouched (update_cursor sealed_mailbox user_id device_id m).
Proof. split; unfold update_cursor; alone. Qed.

Lemma untouched_publish_direct (u : bytes) l : steps untouched (publish_direct u l).
Proof. intros s. by split_and!. Qed.
Lemma untouched_publish_sealed (u : bytes) l : steps untouched (publish_sealed u l).
Proof. intros s. by split_and!. Qed.

Section EitherMailbox.
Context {row item : Type} (mb : Mailbox row item) `{!MailboxLaws mb}.
Context (Hupd : ∀ u d m, steps untouched (update_cursor mb u d m)).

Lemma untouched_poll (u : bytes) (headers : HeaderMap) (q : option Z) : steps untouched (poll mb u headers q).
Proof. unfold poll, enforce_cursor_monotonic, load_messages. alone; auto. Qed.

Lemma untouched_create_ticket (u : bytes) (headers : HeaderMap) (q : option Z) :
  steps untouched (create_ticket mb u headers q).
Proof. unfold create_ticket, enforce_cursor_monotonic, purge_expired_ws_inbox_tickets. alone. Qed.

Lemma untouched_open_socket (u : bytes) (headers : HeaderMap) (q : WsInboxQuery) :
  steps untouched (open_socket mb u headers q).
Proof.
  unfold open_socket, authenticate_connection, consume_ticket, consume_ws_inbox_ticket_unchecked,
    enforce_cursor_monotonic, purge_expired_ws_inbox_tickets. alone.
Qed.
End EitherMailbox.

Lemma untouched_delete_inbox (u : bytes) (headers : HeaderMap) (request : DeleteInboxRequest) :
  steps untouched (delete_inbox_messages u headers request).
Proof.
  assert (Hids : ∀ ids dev n, steps untouched (delete_ids u dev ids n)).
  { induction ids; intros; cbn [delete_ids]; unfold delete_relays; alone; apply IHids. }
  unfold delete_inbox_messages, delete_relays. alone; apply Hids.
Qed.

Lemma untouched_messaging (c : MessagingCall) (s : AppState) : untouched s (after_call c s).
Proof.
  destruct c; cbn [after_call];
    try (apply untouched_poll || apply untouched_create_ticket || apply untouched_open_socket);
    try apply _; try (intros; apply untouched_update_cursor).
  - revert s. unfold relay_message. alone; auto using untouched_observe_relay_dedup, untouched_publish_direct.
    apply untouched_insert_for_devices. intros. done.
  - revert s. unfold relay_sealed_message. alone; auto using untouched_observe_relay_dedup, untouched_publish_sealed.
    apply untouched_insert_for_devices. intros. done.
  - apply untouched_delete_inbox.
  - revert s. unfold issue_sender_certificate. alone.
Qed.

Lemma untouched_keeps (s s' : AppState) : untouched s s' → keeps s s'.
Proof. intros [T [= Hu _ _ _ _ He Hc]]. split_and!; try done. intros u. unfold identity_at. by rewrite Hu. Qed.

Lemma keeps_messaging (c : MessagingCall) (s : AppState) : keeps s (after_call c s).
Proof. apply untouched_keeps, untouched_messaging. Qed.

Local Ltac kept1 :=
  first [ step1 | apply steps_supported; apply _ | apply steps_direct_supported; apply _
        | solve [apply keeps_users; reflexivity]
        | solve [apply keeps_alter_user; (apply replace_primary_identity || done)] ].
Local Ltac kept := repeat kept1.

Lemma keeps_publish (u : bytes) (headers : HeaderMap) (request : PublishPrekeysRequest) :
  steps keeps (publish_prekeys MlDsa65_new u headers request).
Proof.
  unfold publish_prekeys, enforce_prekey_publish_interval, insert_one_time, load_remaining_one_time_counts,
    count_available_one_time_keys. kept.
Qed.

Lemma keeps_bundle (u : bytes) (device : option bytes) : steps keeps (get_bundle u device).
Proof.
  unfold get_bundle, load_bundle_response, select_one_time_key, select_available, mark_consumed,
    count_available_one_time_keys. kept.
Qed.

Lemma keeps_retire (u dev : bytes) (t : Z) :
  steps keeps (retire_device_row u dev t) ∧ steps keeps (update_user_primary_device_after_retire u dev t).
Proof. split; [unfold retire_device_row|unfold update_user_primary_device_after_retire]; kept. Qed.

Lemma keeps_devices (u dev : bytes) (headers : HeaderMap) :
  steps keeps (list_devices u headers) ∧ steps keeps (link_device u headers dev) ∧
  steps keeps (revoke_device u dev headers) ∧ steps keeps (retire_current_device u headers).
Proof.
  split_and!; [unfold list_devices|unfold link_device|unfold revoke_device|unfold retire_current_device];
    kept; apply keeps_retire.
Qed.

(** ** Requests that change identities *)

Local Ltac preserve1 :=
  first [ step1 | apply keeps_preserves; solve [apply keeps_users; reflexivity]
        | apply keeps_preserves; solve [apply keeps_alter_user; done] ].

Lemma preserves_transaction {A} (body : Handler A) :
  steps (λ s s', st_utc s' = st_utc s) body →
  (∀ s s' a, body s = (s', Ok a) → (0 ≤ st_utc s)%Z → log_wf (st_db s) → log_wf (st_db s')) →
  steps preserves (transaction body).
Proof.
  intros Ht Hok s. unfold transaction. specialize (Ht s). destruct (body s) as [s' [a|e]] eqn:E; [|by split].
  split; [done|]. by apply (Hok _ _ a).
Qed.

Lemma decode_exact_len (field value decoded : bytes) (n : N) :
  decode_base64_exact field value n = Ok decoded → len decoded = n.
Proof.
  unfold decode_base64_exact, decode_base64_range. intros H. destruct (len value =? 0); [done|].
  destruct (_ <? len value); [done|]. destruct (b64_decode value) as [x|]; [|done]. simpl in H.
  destruct (len x <? n) eqn:E1; [done|]. destruct (n <? len x) eqn:E2; [done|].
  apply Ok_inj in H as <-. bool_to_prop. lia.
Qed.

Lemma preserves_delete (u : bytes) : steps preserves (transaction (execute (delete_user_owned_state u))).
Proof. apply preserves_transaction; [done|]. intros s s' a [-> _]%execute_inv _. apply log_delete. Qed.

Lemma preserves_new_user (u x sig pq dev token : bytes) (s : AppState) :
  users (st_db s) !! u = None → len x = X25519_KEY_LEN →
  preserves s (set_db (insert_initial_event u x sig pq dev (st_utc s)
    (activate_device u dev (st_utc s)
      (set_users (<[u := mkUser x sig (Some pq) dev (Some token) (st_utc s) (st_utc s)]> (users (st_db s)))
         (st_db s)))) s).
Proof.
  intros Hu Hx. split; [done|]. intros Ht Hwf. cbn [st_db set_db].
  assert (Hnone : ∀ e, e ∈ rows (identity_events (st_db s)) → ev_user_id e ≠ u).
  { intros e He <-. destruct (log_owner _ Hwf e He) as [k Hk]. unfold identity_at in Hk. by rewrite Hu in Hk. }
  assert (Hev : events_of u (st_db s) = []).
  { destruct (events_of u (st_db s)) as [|e l] eqn:E; [done|].
    assert (He : e ∈ events_of u (st_db s)) by (rewrite E; left).
    apply list_elem_of_filter in He as [Heu He]. by destruct (Hnone e He). }
  unfold insert_initial_event. cbn [activate_device set_user_devices set_users identity_events].
  destruct (existsb _ _) eqn:Ee.
  { apply existsb_exists in Ee as (e & He%list_elem_of_In & [Hue _]%andb_true_iff). apply bool_decide_eq_true in Hue.
    by destruct (Hnone e He). }
  eapply log_append; [exact Hwf|reflexivity| | |by apply (inj N.of_nat)|done|apply (log_challenges _ Hwf)].
  - by rewrite max_version_events, Hev.
  - intros w. unfold identity_at. simpl. case_decide; [subst; by rewrite lookup_insert_eq|by rewrite lookup_insert_ne].
Qed.

Lemma preserves_register (request : RegisterUserRequest) : steps preserves (register_user request).
Proof.
  unfold register_user. do 5 (apply steps_bind; [apply _|solve [step1]|intros ?]).
  apply steps_bind_lift; [apply _|]. intros x Hx%decode_exact_len.
  do 4 (apply steps_bind; [apply _|solve [step1]|intros ?]).
  intros s. unfold sm_bind at 1. unfold gets at 1. unfold generate_sealed_delivery_token.
  pose proof (quiet_os_rng (N.to_nat SEALED_DELIVERY_TOKEN_LEN) s) as Hq. unfold sm_bind at 1.
  destruct (os_rng _ s) as [s1 [token|e]]; [|by apply coarse]. cbn [fst] in Hq.
  rewrite <- (quiet_utc _ _ Hq). etrans; [by apply coarse|].
  unfold sm_bind at 1. unfold query at 1. unfold gets at 1. destruct (users _ !! _) eqn:Eu.
  - eapply (steps_run preserves); [|apply surjective_pairing]. repeat preserve1.
  - exact (preserves_new_user _ _ _ _ _ token s1 Eu Hx).
Qed.

Lemma preserves_rotate_init (u : bytes) (headers : HeaderMap) (request : RotateInitRequest) :
  steps preserves (rotate_init u headers request).
Proof.
  unfold rotate_init. do 7 (apply steps_bind; [apply _|solve [steps]|intros ?]).
  apply steps_bind_lift; [apply _|]. intros x Hx%decode_exact_len. repeat preserve1.
  split; [done|]. intros _ [Hv Hc Ho Hf Hn Hch]. split; try done. cbn [st_db set_db identity_rotation_challenges].
  apply map_Forall_insert_2; [|done]. by apply (inj N.of_nat).
Qed.

(** *** Confirming a rotation *)

(** What a confirmed rotation writes. *)
Definition rotated (u challenge_id : bytes) (c : ChallengeRow) (pq : bytes) (version now : Z) (d : Db) : Db :=
  let device := cg_new_device_id c in
  let d := set_identity_rotation_challenges
             (alter consume_challenge challenge_id (identity_rotation_challenges d)) d in
  let d := set_users (alter (rotate_user (cg_new_identity_x25519_pub c) (cg_new_identity_sig_pub c) pq device now)
                        u (users d)) d in
  let d := set_user_devices (only_device u device now (user_devices d)) d in
  let d := set_prekeys (filter (λ '((v, dev), _), other_device u device v dev = false) (prekeys d)) d in
  let d := set_one_time TableX25519 (delete_rows (λ r,
             other_device u device (ot_user_id r) (ot_device_id r)) (one_time TableX25519 d)) d in
  let d := set_one_time TableMlkem768 (delete_rows (λ r,
             other_device u device (ot_user_id r) (ot_device_id r)) (one_time TableMlkem768 d)) d in
  let d := set_push_tokens (filter (λ '((v, dev, _), _), other_device u device v dev = false) (push_tokens d)) d in
  set_identity_events (insert_row (λ id,
    mkEvent id u version (cg_new_identity_x25519_pub c) (cg_new_identity_sig_pub c) (Some pq) device
      (lit "rotation") now) (identity_events d)).1 d.

(** The message of a rotation is signed by the old and the new identity, with
    both algorithms. *)
Definition rotation_signed (u : bytes) (request : RotateConfirmRequest) (row : UserRow) (c : ChallengeRow)
    (pq : bytes) : Prop :=
  ∃ pq_current message s1 s2 q1 q2,
    u_identity_pq_sig_pub row = Some pq_current ∧
    decode_base64_exact (lit "sig_by_current_identity") (rc_sig_by_current_identity request) SIG_LEN = Ok s1 ∧
    decode_base64_exact (lit "sig_by_new_identity") (rc_sig_by_new_identity request) SIG_LEN = Ok s2 ∧
    decode_base64_exact (lit "pq_sig_by_current_identity") (rc_pq_sig_by_current_identity request) PQ_SIG_LEN = Ok q1 ∧
    decode_base64_exact (lit "pq_sig_by_new_identity") (rc_pq_sig_by_new_identity request) PQ_SIG_LEN = Ok q2 ∧
    rotation_signature_message u (rc_challenge_id request) (cg_nonce c) (cg_new_identity_x25519_pub c)
      (cg_new_identity_sig_pub c) pq (cg_new_device_id c) = Ok message ∧
    verify_ed25519_signature (u_identity_sig_pub row) s1 message (lit "sig_by_current_identity") = Ok tt ∧
    verify_ed25519_signature (cg_new_identity_sig_pub c) s2 message (lit "sig_by_new_identity") = Ok tt ∧
    verify_ml_dsa_signature MlDsa65_new pq_current q1 message (lit "pq_sig_by_current_identity") = Ok tt ∧
    verify_ml_dsa_signature MlDsa65_new pq q2 message (lit "pq_sig_by_new_identity") = Ok tt.

Lemma execute_bind {A} (f : Db → Db) (k : unit → Handler A) (d : Db) (s : AppState) :
  sm_bind (execute f) k (set_db d s) = k tt (set_db (f d) s).
Proof. done. Qed.

Lemma rotate_confirm_ok (u : bytes) (headers : HeaderMap) (request : RotateConfirmRequest) (s s' : AppState)
    (resp : RotateConfirmResponse) :
  rotate_confirm MlDsa65_new u headers request s = (s', Ok resp) →
  ∃ row c pq version,
    users (st_db s) !! u = Some row ∧
    open_challenge u (rc_challenge_id request) (st_db s) = Some c ∧ (st_utc s ≤ cg_expires_at c)%Z ∧
    cg_new_identity_pq_sig_pub c = Some pq ∧ rotation_signed u request row c pq ∧
    version = (default 0 (max_version u (st_db s)) + 1)%Z ∧ st_utc s' = st_utc s ∧
    st_db s' = rotated u (rc_challenge_id request) c pq version (st_utc s) (st_db s).
Proof.
  intros H. unfold rotate_confirm in H. run1 H Hrate. do 5 (run1 H Hx; clear Hx). run_ok H t ok Hv.
  apply (steps_run _ _ _ _ _ (quiet_verify_request_auth _ _)) in Hv.
  assert (Hq : quiet s t) by (etrans; [exact Hrate|exact Hv]). clear Hrate Hv.
  rewrite <- (quiet_utc _ _ Hq), <- (quiet_db _ _ Hq). clear Hq.
  run1 H Hs1. run1 H Hs2. run1 H Hq1. run1 H Hq2. run1 H Hnow. run_ok H t2 out Ht.
  assert (t2 = s') as -> by (destruct out as [[[? ?] ?] ?]; by injection H). clear H.
  apply transaction_ok in Ht. run1 Ht Hc. run1 Ht Hc. apply ok_or_ok in Hc.
  run1 Ht Hexp. run1 Ht Hpq. apply ok_or_ok in Hpq. run1 Ht Hrow. run1 Ht Hrow. apply ok_or_ok in Hrow.
  run1 Ht Hcur. apply ok_or_ok in Hcur. run1 Ht Hmsg.
  run1 Ht Hv1. run1 Ht Hv2. run1 Ht Hv3. run1 Ht Hv4. run1 Ht Hopen. run1 Ht Hopen.
  rewrite <- (set_db_same t), execute_bind in Ht. run1 Ht Hstep. rewrite !execute_bind in Ht.
  run1 Ht Hver. run1 Ht Hver. apply ok_or_ok in Hver. rewrite execute_bind in Ht.
  apply pair_equal_spec in Ht as [<- _].
  unfold u32_try_from in Hver. case_match; [|done]. injection Hver as <-.
  eexists _, _, _, _. split_and!; [exact Hrow|exact Hc| |exact Hpq| |reflexivity|done|reflexivity].
  - bool_to_prop. lia.
  - do 6 eexists. split_and!; eassumption.
Qed.

Lemma fails_transaction {A} (body : Handler A) :
  steps (λ s s', st_utc s' = st_utc s) body → fails_within untouched (transaction body).
Proof.
  intros Hb s s' e E. pose proof (transaction_err _ _ _ _ E) as Hd. unfold transaction in E.
  specialize (Hb s). destruct (body s) as [s1 [a|e1]]; [done|]. injection E as <- _.
  split; [done|by rewrite Hd].
Qed.

#[local] Instance same_utc_preorder : PreOrder (λ s s' : AppState, st_utc s' = st_utc s).
Proof. split; [done|]. intros s1 s2 s3 H1 H2. congruence. Qed.

#[local] Instance same_utc_coarse : Coarse (λ s s' : AppState, st_utc s' = st_utc s).
Proof. by intros s s' (? & ? & ? & ->). Qed.

Lemma rotate_confirm_err (u : bytes) (headers : HeaderMap) (request : RotateConfirmRequest) :
  fails_within untouched (rotate_confirm MlDsa65_new u headers request).
Proof.
  unfold rotate_confirm. do 12 (apply fails_within_bind; [apply _|solve [steps]|intros ?]).
  intros s s' e [(s1 & out & E1 & E2)|(e' & E & _)]%sm_bind_inv.
  { by destruct out as [[[? ?] ?] ?]. }
  revert E. apply fails_transaction. steps; done.
Qed.

Lemma rotated_identity (u id : bytes) (c : ChallengeRow) (pq : bytes) (version now : Z) (d : Db) (w : bytes) :
  is_Some (users d !! u) →
  identity_at w (rotated u id c pq version now d) =
    if decide (w = u) then Some (cg_new_identity_x25519_pub c, cg_new_identity_sig_pub c) else identity_at w d.
Proof.
  intros [row Hrow]. unfold identity_at, rotated.
  cbn [users set_identity_events set_push_tokens set_one_time set_one_time_prekeys_x25519
       set_one_time_prekeys_mlkem768 set_prekeys set_user_devices set_users set_identity_rotation_challenges].
  case_decide as Hw; [|by rewrite lookup_alter_ne by congruence]. subst w. by rewrite lookup_alter_eq, Hrow.
Qed.

Lemma preserves_rotate_confirm (u : bytes) (headers : HeaderMap) (request : RotateConfirmRequest) :
  steps preserves (rotate_confirm MlDsa65_new u headers request).
Proof.
  intros s. destruct (rotate_confirm _ _ _ _ s) as [s' [resp|e]] eqn:E; cbn [fst].
  2: { by apply keeps_preserves, untouched_keeps, (rotate_confirm_err u headers request s s' e). }
  apply rotate_confirm_ok in E as (row & c & pq & v & Hrow & Hc & _ & _ & _ & Hv & Ht & Hd).
  split; [done|]. intros Hpos Hwf. rewrite Hd.
  unfold open_challenge in Hc. apply bind_Some in Hc as (c' & Hc & E). case_match; [|done]. injection E as ->.
  eapply log_append; [exact Hwf|reflexivity|exact Hv|..|done|].
  - intros w. by apply rotated_identity.
  - exact (log_challenges _ Hwf _ _ Hc).
  - intros i k Hk. change (alter consume_challenge (rc_challenge_id request) (identity_rotation_challenges (st_db s)) !! i = Some k) in Hk.
    apply lookup_alter_Some in Hk as [(_ & k' & Hk & ->)|[_ Hk]]; exact (log_challenges _ Hwf _ _ Hk).
Qed.

(** The requests that may touch identities. *)
Definition identity_call (c : ServerCall) : bool :=
  match c with
  | CallRotateInit _ _ _ | CallRotateConfirm _ _ _ | CallRegister _ | CallReset _ | CallDeleteAccount _ _ => true
  | _ => false
  end.

Lemma serve_keeps (c : ServerCall) (s : AppState) : identity_call c = false → keeps s (serve c s).
Proof.
  destruct c; try done; intros _; cbn [serve].
  - apply keeps_messaging.
  - apply keeps_publish.
  - revert s. unfold get_prekeys_status, load_remaining_one_time_counts, count_available_one_time_keys. kept.
  - apply keeps_bundle.
  - revert s. unfold get_identity_log. kept.
  - apply (keeps_devices user []).
  - apply keeps_devices.
  - apply keeps_devices.
  - apply (keeps_devices user []).
Qed.

Lemma serve_preserves (c : ServerCall) (s : AppState) : preserves s (serve c s).
Proof.
  destruct (identity_call c) eqn:Hc; [|by apply keeps_preserves, serve_keeps]. destruct c; try done; cbn [serve].
  - apply preserves_rotate_init.
  - apply preserves_rotate_confirm.
  - apply preserves_register.
  - revert s. unfold reset_dev_user_identity. steps; apply preserves_delete.
  - revert s. unfold delete_account. steps; apply preserves_delete.
Qed.

Lemma server_run_wf (s : AppState) : server_run s → (0 ≤ st_utc s)%Z ∧ log_wf (st_db s).
Proof.
  induction 1 as [s Hd Ht|s c _ [Ht Hwf]|s utc instant _ [_ Hwf] Ht]; [split; [done|]|split|done].
  - rewrite Hd. apply empty_log_wf.
  - by destruct (serve_preserves c s) as [-> _].
  - by apply (serve_preserves c s).
Qed.

(** *** The identity of a user *)

Definition identities_stay (d d' : Db) : Prop :=
  ∀ u k, identity_at u d = Some k → identity_at u d' = Some k.
Definition identities_stay_or_go (d d' : Db) : Prop :=
  ∀ u, identity_at u d' = identity_at u d ∨ identity_at u d' = None.

#[local] Instance identities_stay_preorder : PreOrder identities_stay.
Proof. split; [by intros d u k|]. intros d1 d2 d3 H1 H2 u k Hk. auto. Qed.
#[local] Instance identities_stay_or_go_preorder : PreOrder identities_stay_or_go.
Proof.
  split; [intros d u; by left|]. intros d1 d2 d3 H1 H2 u.
  destruct (H2 u) as [E| ->]; [rewrite E; apply H1|by right].
Qed.

Lemma keeps_stay (s s' : AppState) : keeps s s' → on_db identities_stay s s'.
Proof. intros (_ & _ & H & _) u k. by rewrite H. Qed.

Lemma register_stays (request : RegisterUserRequest) : steps (on_db identities_stay) (register_user request).
Proof.
  unfold register_user, generate_sealed_delivery_token.
  do 12 (apply steps_bind; [apply _|solve [steps]|intros ?]).
  intros s. unfold sm_bind at 1. unfold query at 1. unfold gets at 1. destruct (users _ !! _) eqn:Eu.
  - eapply (steps_run (on_db identities_stay)); [|apply surjective_pairing].
    repeat first [step1|apply keeps_stay; solve [apply keeps_users; reflexivity]
                 |apply keeps_stay; solve [apply keeps_alter_user; done]].
  - intros u k Hk. unfold identity_at in *. cbn -[insert_initial_event]. unfold insert_initial_event.
    destruct (existsb _ _); cbn; (rewrite lookup_insert_ne; [done|]; intros <-; by rewrite Eu in Hk).
Qed.

Lemma rotate_init_stays (u : bytes) (headers : HeaderMap) (request : RotateInitRequest) :
  steps (on_db identities_stay) (rotate_init u headers request).
Proof. unfold rotate_init. steps. by intros v k. Qed.

Lemma deletes_go (u : bytes) : steps (on_db identities_stay_or_go) (transaction (execute (delete_user_owned_state u))).
Proof.
  apply steps_transaction; [apply _|]. intros s w. unfold identity_at. cbn.
  destruct (decide (w = u)) as [->|]; [right; by rewrite lookup_delete_eq|left; by rewrite lookup_delete_ne].
Qed.

(** The requests that do not confirm a rotation. *)
Lemma serve_identity (c : ServerCall) (s : AppState) (u : bytes) (k k' : bytes * bytes) :
  identity_at u (st_db s) = Some k → identity_at u (st_db (serve c s)) = Some k' →
  k' = k ∨ ∃ v headers request, c = CallRotateConfirm v headers request.
Proof.
  intros Hk Hk'. destruct (identity_call c) eqn:Hc.
  2: { apply (keeps_stay _ _ (serve_keeps c s Hc)) in Hk. left. congruence. }
  destruct c; try (right; by eauto); try done; left; cbn [serve] in Hk'.
  - apply (rotate_init_stays user headers request) in Hk. congruence.
  - apply (register_stays request) in Hk. congruence.
  - assert (Hs : steps (on_db identities_stay_or_go) (reset_dev_user_identity user)).
    { unfold reset_dev_user_identity. steps; apply deletes_go. }
    destruct (Hs s u) as [E|E]; congruence.
  - assert (Hs : steps (on_db identities_stay_or_go) (delete_account user headers)).
    { unfold delete_account. steps; apply deletes_go. }
    destruct (Hs s u) as [E|E]; congruence.
Qed.
End Server.



(** Alice registers and rotates her identity. *)
Definition toy_registration : RegisterUserRequest :=
  mkRegister (lit "alice") (b64_encode (toy_key 102)) (b64_encode (toy_key 101)) (b64_encode (toy_pq_key 103))
    (lit "d1") (Some (lit "0")).

Definition toy_rotation : RotateInitRequest := {|
  ri_new_identity_x25519_pub := b64_encode (toy_key 112); ri_new_identity_sig_pub := b64_encode (toy_key 111);
  ri_new_identity_pq_sig_pub := b64_encode (toy_pq_key 113); ri_new_device_id := lit "d2" |}.

Definition toy_confirmation (challenge_id nonce : bytes) : RotateConfirmRequest :=
  let m := match rotation_signature_message (lit "alice") challenge_id nonce (toy_key 112) (toy_key 111)
                   (toy_pq_key 113) (lit "d2") with Ok m => m | Err _ => [] end in
  {| rc_challenge_id := challenge_id;
     rc_sig_by_current_identity := b64_encode (ed_sign (toy_key 101) m);
     rc_sig_by_new_identity := b64_encode (ed_sign (toy_key 111) m);
     rc_pq_sig_by_current_identity := b64_encode (toy_pq_sign 103 m);
     rc_pq_sig_by_new_identity := b64_encode (toy_pq_sign 113 m) |}.

Definition toy_registered : @AppState Toy :=
  serve (Some ToyMlDsa) (CallRegister toy_registration) (toy_state 1000000000000 0 empty_db).

Definition toy_rotating : @AppState Toy :=
  serve (Some ToyMlDsa) (CallRotateInit (lit "alice")
    (toy_headers (lit "alice") (lit "d1") 101 1000 (lit "n1") (λ a, rotate_init_auth_message a toy_rotation))
    toy_rotation) toy_registered.

Definition toy_confirm_call (s : @AppState Toy) : ServerCall :=
  match map_to_list (identity_rotation_challenges (st_db s)) with
  | (id, c) :: _ =>
      CallRotateConfirm (lit "alice")
        (toy_headers (lit "alice") (lit "d1") 101 1000 (lit "n2")
           (λ a, rotate_confirm_auth_message a (toy_confirmation id (cg_nonce c))))
        (toy_confirmation id (cg_nonce c))
  | [] => CallBundle [] None
  end.

Definition toy_rotated : @AppState Toy := serve (Some ToyMlDsa) (toy_confirm_call toy_rotating) toy_rotating.

Lemma toy_rotated_run : server_run (Some ToyMlDsa) toy_rotated.
Proof.
  assert (H0 : server_run (Some ToyMlDsa) (toy_state 1000000000000 0 empty_db)) by (by apply run_empty).
  exact (run_serve _ _ _ (run_serve _ _ _ (run_serve _ _ (CallRegister toy_registration) H0))).
Qed.

(** What the examples observe of Alice before and after the confirmation. *)
Definition rotation_check (s s' : @AppState Toy) : bool :=
  bool_decide (identity_at (lit "alice") (st_db s) = Some (toy_key 102, toy_key 101)) &&
  bool_decide (identity_at (lit "alice") (st_db s') = Some (toy_key 112, toy_key 111)) &&
  bool_decide (map ev_version (events_of (lit "alice") (st_db s')) = [1; 2]%Z) &&
  bool_decide (length (rows (identity_events (st_db s'))) = 2%nat) &&
  bool_decide (st_sender_certificate_signing_key s' = toy_key 7) &&
  is_ok (check_rate_limit (lit "transparency-proof:" ++ lit "alice") s').2.

Lemma rotation_check_inv (s s' : @AppState Toy) :
  rotation_check s s' = true →
  identity_at (lit "alice") (st_db s) = Some (toy_key 102, toy_key 101) ∧
  identity_at (lit "alice") (st_db s') = Some (toy_key 112, toy_key 111) ∧
  map ev_version (events_of (lit "alice") (st_db s')) = [1; 2]%Z ∧
  length (rows (identity_events (st_db s'))) = 2%nat ∧
  st_sender_certificate_signing_key s' = toy_key 7 ∧
  (check_rate_limit (lit "transparency-proof:" ++ lit "alice") s').2 = Ok tt.
Proof.
  unfold rotation_check. rewrite !andb_true_iff, !bool_decide_eq_true.
  intros [[[[[H1 H2] H3] H4] H5] H6]. split_and!; [done..|].
  by destruct (check_rate_limit _ s').2 as [[]|].
Qed.

Lemma toy_rotation_check : rotation_check toy_rotating toy_rotated = true.
Proof. vm_compute. reflexivity. Qed.


