(* ===== verification/Android.v ===== *)
(** * The Android client library ([pqmsg-android/src/lib.rs])

    What the library keeps in a key file, the payloads it builds for the server
    and what it makes of the server's answers: key generation, registration,
    publication of prekeys, rotation, a second device, and the check of a
    transparency proof. The documents [serde_json] reads and writes are the
    records themselves; the clock is a parameter, the random source the state
    of a computation. *)

From Stdlib Require Import Strings.Byte.
From S2P Require Import Prelude Bytes Errors Tlv Crypto Toy Alg Keys Handshake PqSig Transparency Consistency SafetyNumber ServerError Validation RequestAuth ClientAuth.
Local Open Scope N_scope.

(** ** Errors *)

Inductive PqmsgAndroidError : Type :=
| InvalidInput (reason : bytes)
| OperationFailed (reason : bytes).

Abbreviation droid := (result PqmsgAndroidError).

Definition invalid_input (message : bytes) : PqmsgAndroidError := InvalidInput message.
Definition operation_failed (message : bytes) : PqmsgAndroidError := OperationFailed message.

(** [format!("{:04x}")] of a [u16]. *)
Definition hex4 (n : N) : bytes :=
  map (λ i, byte_of_N (let d := n / 16 ^ i mod 16 in if d <? 10 then 48 + d else 87 + d)) [3; 2; 1; 0].

(** The [Display] of [CoreError]. *)
Definition CoreError_to_string (e : CoreError) : bytes :=
  match e with
  | InvalidLength field expected actual =>
      lit "invalid length for " ++ lit field ++ lit ": expected " ++ decimal expected ++ lit ", got " ++ decimal actual
  | InvalidTlv detail => lit "invalid TLV: " ++ lit detail
  | UnknownCriticalTlv ty => lit "unknown critical TLV type: 0x" ++ hex4 ty
  | DuplicateTlv ty => lit "duplicate TLV type: 0x" ++ hex4 ty
  | MissingField field => lit "missing required field: " ++ lit field
  | InvalidUtf8 field => lit "invalid UTF-8 field: " ++ lit field
  | SignatureVerificationFailed => lit "signature verification failed"
  | AeadOperation => lit "AEAD operation failed"
  | KdfOperation => lit "KDF operation failed"
  | DhOperation => lit "DH operation failed"
  | KemOperation => lit "KEM operation failed"
  | PqSigOperation detail => lit "PQ signature operation failed: " ++ lit detail
  | UnsupportedAlgorithm detail => lit "unsupported algorithm: " ++ lit detail
  | MessageParsing detail => lit "message parsing failed: " ++ lit detail
  | MessageKeyUnavailable => lit "message key unavailable"
  | PqRatchetDisabled => lit "pq ratchet is not enabled"
  | PolicyViolation detail => lit "security policy violation: " ++ lit detail
  | InvalidSecurityProfile detail => lit "invalid security profile: " ++ lit detail
  | InvalidStorageFormat detail => lit "invalid storage format: " ++ lit detail
  | InvalidStorageBase64 field => lit "invalid storage base64 field: " ++ lit field
  | StorageDecryptionFailed => lit "storage decryption failed"
  | HsmOperation detail => lit "HSM operation failed: " ++ lit detail
  end.

(** [?] on a result of the core. *)
Definition core {A} (r : res A) : droid A :=
  match r with Ok a => Ok a | Err e => Err (operation_failed (CoreError_to_string e)) end.

(** Mapping a fallible function over a list, stopping at the first error. *)
Fixpoint traverse_droid {A C} (f : A → droid C) (l : list A) : droid (list C) :=
  match l with
  | [] => Ok []
  | x :: l => let? y := f x in let? r := traverse_droid f l in Ok (y :: r)
  end.

(** [Option::map] and [transpose]. *)
Definition opt_droid {A C} (f : A → droid C) (o : option A) : droid (option C) :=
  match o with None => Ok None | Some a => let? c := f a in Ok (Some c) end.

Lemma traverse_droid_ok {A C} (f : A → droid C) (g : A → C) (l : list A) :
  (∀ a, a ∈ l → f a = Ok (g a)) → traverse_droid f l = Ok (map g l).
Proof.
  induction l as [|a l IH]; intros H; [done|]. simpl. rewrite H by (by left).
  rewrite IH by (intros; apply H; by right). done.
Qed.

(** ** Records *)

Inductive Suite : Type := SuiteMlKem768 | SuiteKyber768.

Record OneTimeKeyRecord := mkOneTimeKey { ok_key_id : bytes; ok_public_b64 : bytes; ok_secret_b64 : bytes }.

Record UserKeysFile := mkKeys {
  uk_version : N;
  uk_user_id : bytes;
  uk_device_id : bytes;
  uk_suite : Suite;
  uk_identity_x25519_pub_b64 : bytes;
  uk_identity_x25519_secret_b64 : bytes;
  uk_identity_sig_pub_b64 : bytes;
  uk_identity_sig_secret_b64 : bytes;
  uk_identity_pq_sig_pub_b64 : bytes;
  uk_identity_pq_sig_secret_b64 : bytes;
  uk_signed_prekey_x25519_pub_b64 : bytes;
  uk_signed_prekey_x25519_secret_b64 : bytes;
  uk_pq_signed_prekey_pub_b64 : bytes;
  uk_pq_signed_prekey_secret_b64 : bytes;
  uk_one_time_prekeys_x25519 : list OneTimeKeyRecord;
  uk_one_time_prekeys_mlkem768 : list OneTimeKeyRecord;
}.

Record UserProfile := mkProfile { up_user_id : bytes; up_device_id : bytes; up_suite : Suite }.

Record RegisterPayload := mkRegisterPayload {
  rp_user_id : bytes;
  rp_identity_x25519_pub : bytes;
  rp_identity_sig_pub : bytes;
  rp_identity_pq_sig_pub : bytes;
  rp_device_id : bytes;
}.

Record TransparencyLeafRecord := mkLeafRecord {
  lr_user_id : bytes;
  lr_version : N;
  lr_identity_x25519_pub : bytes;
  lr_identity_sig_pub : bytes;
  lr_identity_pq_sig_pub : option bytes;
  lr_timestamp : N;
}.

Record TransparencyPathItem := mkPathItem { pi_hash : bytes; pi_is_left : bool }.

Record TransparencyInclusionProofRecord := mkInclusionRecord {
  ir_leaf_index : N;
  ir_path : list TransparencyPathItem;
}.

Record TransparencyConsistencyProofRecord := mkConsistencyRecord {
  cr_old_size : N;
  cr_new_size : N;
  cr_proof_hashes : list bytes;
}.

Record TransparencySignedTreeHeadRecord := mkSthRecord {
  sr_epoch : N;
  sr_tree_size : N;
  sr_root_hash : bytes;
  sr_signature : bytes;
}.

Record TransparencyProofDocument := mkDocument {
  pd_leaf : TransparencyLeafRecord;
  pd_inclusion_proof : TransparencyInclusionProofRecord;
  pd_signed_tree_head : TransparencySignedTreeHeadRecord;
  pd_consistency_proof : option TransparencyConsistencyProofRecord;
}.

Record TransparencyVerificationResult := mkVerification {
  vr_verified : bool;
  vr_consistency_verified : bool;
  vr_leaf_user_id : bytes;
  vr_leaf_version : N;
  vr_tree_size : N;
  vr_epoch : N;
}.

Section Android.
Context `{P : Primitives} `{V : Ed25519} `{B : Base64}.

Definition decode_b64 (field : string) (value : bytes) : droid bytes :=
  ok_or (b64_decode value) (invalid_input (lit "invalid base64 for field '" ++ lit field ++ lit "'")).

Definition decode_b64_32 (field : string) (value : bytes) : droid bytes :=
  let? bytes := decode_b64 field value in
  if negb (len bytes =? 32)
  then Err (invalid_input (lit "field '" ++ lit field ++ lit "' must decode to 32 bytes (got "
                           ++ decimal (len bytes) ++ lit ")"))
  else Ok bytes.

(** ** Transparency proofs *)

Definition parse_transparency_leaf (record : TransparencyLeafRecord) : droid TransparencyLeaf :=
  let? x := decode_b64_32 "transparency.leaf.identity_x25519_pub" (lr_identity_x25519_pub record) in
  let? sig := decode_b64 "transparency.leaf.identity_sig_pub" (lr_identity_sig_pub record) in
  let? pq := opt_droid (decode_b64 "transparency.leaf.identity_pq_sig_pub") (lr_identity_pq_sig_pub record) in
  Ok (mkLeaf (lr_user_id record) (lr_version record) x sig pq (lr_timestamp record)).

Definition parse_transparency_sth (record : TransparencySignedTreeHeadRecord) : droid SignedTreeHead :=
  let? root := decode_b64_32 "transparency.signed_tree_head.root_hash" (sr_root_hash record) in
  let? signature := decode_b64 "transparency.signed_tree_head.signature" (sr_signature record) in
  Ok (mkSth (sr_epoch record) (sr_tree_size record) root signature).

Definition verify_transparency_proof (document : TransparencyProofDocument) (server_pub_key_b64 : bytes)
    (previous_sth : option TransparencySignedTreeHeadRecord) : droid TransparencyVerificationResult :=
  let? leaf := parse_transparency_leaf (pd_leaf document) in
  let? path := traverse_droid (λ item,
      let? hash := decode_b64_32 "transparency.inclusion_proof.path.hash" (pi_hash item) in
      Ok (hash, pi_is_left item)) (ir_path (pd_inclusion_proof document)) in
  let inclusion_proof := mkInclusion (ir_leaf_index (pd_inclusion_proof document)) path in
  let? sth := parse_transparency_sth (pd_signed_tree_head document) in
  let? server_pub_key_bytes := decode_b64_32 "transparency.server_pub_key" server_pub_key_b64 in
  let? server_pub_key := ok_or (ed_key_from_bytes server_pub_key_bytes)
    (operation_failed (lit "invalid transparency server public key")) in
  let? _ := core (verify_inclusion_proof (TransparencyLeaf_hash leaf) inclusion_proof sth server_pub_key) in
  let? consistency_verified :=
    match previous_sth with
    | None => Ok false
    | Some previous_sth_record =>
        let? previous_sth := parse_transparency_sth previous_sth_record in
        match pd_consistency_proof document with
        | None => Ok false
        | Some consistency_record =>
            let? hashes := traverse_droid (decode_b64_32 "transparency.consistency_proof.hash")
                             (cr_proof_hashes consistency_record) in
            let proof := mkConsistency (cr_old_size consistency_record) (cr_new_size consistency_record) hashes in
            let? _ := core (verify_consistency_proof previous_sth sth proof server_pub_key) in
            Ok true
        end
    end in
  Ok (mkVerification true consistency_verified (tl_user_id leaf) (tl_version leaf) (sth_tree_size sth)
        (sth_epoch sth)).
End Android.
