(* ===== verification/TransparencyService.v ===== *)
(** * The transparency log of the server ([handlers/transparency.rs])

    The handler that proves what the server says about a user's identity, and
    its composition with the client of [Android]: the answer to a request, in any
    state the server reaches, is accepted by the client and shows the identity
    the server serves. *)

From Stdlib Require Import Strings.Byte.
From S2P Require Import Prelude Bytes Errors Tlv Crypto Toy Alg PqSig Transparency Consistency ServerError Validation RequestAuth Caches Realtime ServerState ToyServer ServerFrame Messaging PrekeyServer Accounts IdentityLog Android.
Local Open Scope N_scope.

Record TransparencyProofResponse := mkProofResponse {
  tp_user_id : bytes;
  tp_leaf : TransparencyLeafRecord;
  tp_inclusion_proof : TransparencyInclusionProofRecord;
  tp_signed_tree_head : TransparencySignedTreeHeadRecord;
  tp_consistency_proof : option TransparencyConsistencyProofRecord;
}.

(** [u64::try_from] of an [i64]. *)
Definition u64_try_from (v : Z) : option N := if (0 <=? v)%Z then Some (Z.to_N v) else None.

(** The variables of the loop over the events. *)
Record LogScan := mkScan {
  ls_leaf_hashes : list bytes;
  ls_latest_leaf_for_user : option TransparencyLeafRecord;
  ls_latest_leaf_index : option nat;
  ls_last_event_id : N;
}.

Section Service.
Context `{P : Primitives} `{V : Ed25519} `{B : Base64} `{I : HashIter}.

(** The leaf of an event and its identifier. *)
Definition event_leaf (row : EventRow) : app (N * TransparencyLeaf) :=
  let? event_id := ok_or (u64_try_from (ev_id row)) (internal (lit "identity event id overflow")) in
  let? version := ok_or (u64_try_from (ev_version row)) (internal (lit "identity version overflow")) in
  let? timestamp := ok_or (u64_try_from (timestamp (ev_changed_at row)))
    (internal (lit "identity event timestamp before unix epoch")) in
  let? identity_x25519_pub :=
    if (length (ev_identity_x25519_pub row) =? 32)%nat then Ok (ev_identity_x25519_pub row)
    else Err (internal (lit "invalid identity_events.identity_x25519_pub")) in
  Ok (event_id, mkLeaf (ev_user_id row) version identity_x25519_pub (ev_identity_sig_pub row)
                  (ev_identity_pq_sig_pub row) timestamp).

Definition leaf_record (leaf : TransparencyLeaf) : TransparencyLeafRecord :=
  mkLeafRecord (tl_user_id leaf) (tl_version leaf) (b64_encode (tl_identity_x25519_pub leaf))
    (b64_encode (tl_identity_sig_pub leaf)) (b64_encode <$> tl_identity_pq_sig_pub leaf) (tl_timestamp leaf).

Fixpoint scan_events (user_id : bytes) (idx : nat) (rows : list EventRow) (acc : LogScan) : app LogScan :=
  match rows with
  | [] => Ok acc
  | row :: rows =>
      let? (event_id, leaf) := event_leaf row in
      let mine := bool_decide (ev_user_id row = user_id) in
      scan_events user_id (S idx) rows
        (mkScan (ls_leaf_hashes acc ++ [TransparencyLeaf_hash leaf])
           (if mine then Some (leaf_record leaf) else ls_latest_leaf_for_user acc)
           (if mine then Some idx else ls_latest_leaf_index acc) event_id)
  end.

Definition consistency_record (proof : ConsistencyProof) : TransparencyConsistencyProofRecord :=
  mkConsistencyRecord (cp_old_size proof) (cp_new_size proof) (map b64_encode (cp_proof_hashes proof)).

Local Open Scope sm_scope.

Definition get_transparency_proof (user_id : bytes) (previous_tree_size : option N)
    : Handler TransparencyProofResponse :=
  check_rate_limit (lit "transparency-proof:" ++ user_id);;;
  lift (validate_id (lit "user_id") user_id);;;
  ensure_user_exists user_id;;;
  rows <- query (λ d, rows (identity_events d));;
  reject_if (bool_decide (rows = [])) (not_found (lit "transparency log is empty"));;;
  scan <- lift (scan_events user_id 0 rows (mkScan [] None None 0));;
  let leaf_hashes := ls_leaf_hashes scan in
  latest_leaf_index <- lift (ok_or (ls_latest_leaf_index scan)
                               (not_found (lit "no transparency leaf for user")));;
  latest_leaf_for_user <- lift (ok_or (ls_latest_leaf_for_user scan)
                                  (not_found (lit "no transparency leaf for user")));;
  root_hash <- lift (ok_or (build_tree_root leaf_hashes) (internal (lit "failed to build tree root")));;
  let tree_size := N.of_nat (length leaf_hashes) in
  let epoch := N.max (ls_last_event_id scan) tree_size in
  signing_key <- gets st_sender_certificate_signing_key;;
  let signature := ed_sign signing_key (signing_body (mkSth epoch tree_size root_hash [])) in
  inclusion_proof <- lift (ok_or (build_inclusion_proof leaf_hashes latest_leaf_index)
                             (internal (lit "failed to build inclusion proof")));;
  consistency_proof <- (match previous_tree_size with
    | None => sm_ret None
    | Some previous_tree_size =>
        proof <- lift (ok_or (build_consistency_proof leaf_hashes (N.to_nat previous_tree_size))
          (bad_request (lit "previous_tree_size must be in 1..=current tree size")));;
        sm_ret (Some (consistency_record proof))
    end);;
  sm_ret (mkProofResponse user_id latest_leaf_for_user
    (mkInclusionRecord (ip_leaf_index inclusion_proof)
       (map (λ '(hash, is_left), mkPathItem (b64_encode hash) is_left) (ip_path inclusion_proof)))
    (mkSthRecord epoch tree_size (b64_encode root_hash) (b64_encode signature))
    consistency_proof).

(** What the client reads of the answer. *)
Definition document_of (r : TransparencyProofResponse) : TransparencyProofDocument :=
  mkDocument (tp_leaf r) (tp_inclusion_proof r) (tp_signed_tree_head r) (tp_consistency_proof r).

(** ** The loop over the events *)

Definition leaf_of_event (e : EventRow) : TransparencyLeaf :=
  mkLeaf (ev_user_id e) (Z.to_N (ev_version e)) (ev_identity_x25519_pub e) (ev_identity_sig_pub e)
    (ev_identity_pq_sig_pub e) (Z.to_N (timestamp (ev_changed_at e))).

(** An event the loop accepts. *)
Definition event_ok (e : EventRow) : Prop :=
  (0 ≤ ev_id e)%Z ∧ (0 ≤ ev_version e)%Z ∧ (0 ≤ ev_changed_at e)%Z ∧ length (ev_identity_x25519_pub e) = 32%nat.

Lemma event_leaf_ok (e : EventRow) : event_ok e → event_leaf e = Ok (Z.to_N (ev_id e), leaf_of_event e).
Proof.
  intros (Hi & Hv & Ht & Hx). unfold event_leaf, u64_try_from.
  assert (0 ≤ timestamp (ev_changed_at e))%Z by (by apply Z.div_pos).
  rewrite !(proj2 (Z.leb_le _ _)) by done. cbn [ok_or]. by rewrite Hx.
Qed.

(** The variables after a prefix of the events: the hashes in order, and the last
    event of the user with its place. *)
Definition scan_ok (user_id : bytes) (l : list EventRow) (acc : LogScan) : Prop :=
  ls_leaf_hashes acc = map (λ e, TransparencyLeaf_hash (leaf_of_event e)) l ∧
  match list.last (filter (λ e, ev_user_id e = user_id) l) with
  | None => ls_latest_leaf_index acc = None ∧ ls_latest_leaf_for_user acc = None
  | Some e => ls_latest_leaf_for_user acc = Some (leaf_record (leaf_of_event e)) ∧
      ∃ i, ls_latest_leaf_index acc = Some i ∧ l !! i = Some e
  end.

Lemma scan_events_ok (user_id : bytes) (rest pre : list EventRow) (acc : LogScan) :
  scan_ok user_id pre acc → Forall event_ok rest →
  ∃ acc', scan_events user_id (length pre) rest acc = Ok acc' ∧ scan_ok user_id (pre ++ rest) acc'.
Proof.
  revert pre acc. induction rest as [|e rest IH]; intros pre acc Hacc Hok.
  { exists acc. by rewrite app_nil_r. }
  apply list.Forall_cons in Hok as [He Hok]. cbn [scan_events]. rewrite event_leaf_ok by done.
  destruct Hacc as [Hh Hl].
  set (acc1 := mkScan _ _ _ _). destruct (IH (pre ++ [e]) acc1) as (acc' & Hs & Hacc'); [|done|].
  - split; [subst acc1; cbn [ls_leaf_hashes]; by rewrite Hh, map_app|].
    rewrite list.filter_app, list.filter_cons, list.filter_nil. subst acc1. cbn [ls_latest_leaf_for_user ls_latest_leaf_index].
    case_decide as Hu.
    + rewrite last_snoc, bool_decide_eq_true_2 by done. split; [done|]. eexists. split; [done|].
      by rewrite lookup_app_r, Nat.sub_diag by lia.
    + rewrite app_nil_r, bool_decide_eq_false_2 by done. destruct (list.last _); [|done].
      destruct Hl as (? & i & ? & Hi). split; [done|]. exists i. split; [done|]. by apply lookup_app_l_Some.
  - exists acc'. rewrite length_app in Hs. cbn [length] in Hs. rewrite Nat.add_1_r in Hs.
    by rewrite <- app_assoc in Hacc'.
Qed.

(** ** Proofs on the wire *)

Context `{!PrimitiveLaws P} `{!Ed25519Laws V} `{!Base64Laws B}.

Lemma decode_b64_encode (field : string) (b : bytes) : decode_b64 field (b64_encode b) = Ok b.
Proof. unfold decode_b64. by rewrite b64_roundtrip. Qed.

Lemma decode_b64_32_encode (field : string) (b : bytes) : length b = 32%nat → decode_b64_32 field (b64_encode b) = Ok b.
Proof. intros Hb. unfold decode_b64_32. rewrite decode_b64_encode. unfold len. by rewrite Hb. Qed.

Lemma parse_leaf_record (leaf : TransparencyLeaf) :
  length (tl_identity_x25519_pub leaf) = 32%nat → parse_transparency_leaf (leaf_record leaf) = Ok leaf.
Proof.
  intros Hx. unfold parse_transparency_leaf, leaf_record. cbn [lr_identity_x25519_pub lr_identity_sig_pub lr_identity_pq_sig_pub].
  rewrite decode_b64_32_encode, decode_b64_encode by done.
  destruct leaf as [u v x sg [pq|] t]; cbn; [rewrite decode_b64_encode|]; done.
Qed.

Lemma length_parents_32 (level : list bytes) :
  Forall (λ h, length h = 32%nat) level → Forall (λ h, length h = 32%nat) (parents level).
Proof.
  induction level as [level IH] using length_ind. intros HF. destruct level as [|a [|b level]]; [done..|].
  cbn [parents]. apply list.Forall_cons in HF as [_ HF]. apply list.Forall_cons in HF as [_ HF].
  constructor; [apply sha256_length|]. apply IH; [simpl; lia|done].
Qed.

Lemma inclusion_path_32 (fuel : nat) (level : list bytes) (idx : nat) (path : list (bytes * bool)) :
  Forall (λ h, length h = 32%nat) level → Forall (λ s, length s.1 = 32%nat) path →
  Forall (λ s, length s.1 = 32%nat) (inclusion_loop fuel level idx path).
Proof.
  revert level idx path. induction fuel as [|fuel IH]; intros level idx path Hl Hp; [done|]. cbn [inclusion_loop].
  destruct (1 <? length level)%nat; [|done]. apply IH; [by apply length_parents_32|].
  destruct (level !! Nat.lxor idx 1) as [h|] eqn:E; [|done]. apply list.Forall_app. split; [done|].
  constructor; [|done]. cbn. rewrite list.Forall_forall in Hl. by apply Hl, (list_elem_of_lookup_2 _ _ _ E).
Qed.

(** A signed head of the server, read back and verified. *)
Lemma parse_sth_record (sk : bytes) (epoch size : N) (root : bytes) :
  length root = 32%nat → length sk = 32%nat →
  let signature := ed_sign sk (signing_body (mkSth epoch size root [])) in
  let sth := mkSth epoch size root signature in
  parse_transparency_sth (mkSthRecord epoch size (b64_encode root) (b64_encode signature)) = Ok sth ∧
  ∃ k, ed_key_from_bytes (ed_public sk) = Some k ∧ SignedTreeHead_verify sth k = Ok tt.
Proof.
  intros Hr Hsk signature sth. split.
  - unfold parse_transparency_sth. cbn [sr_root_hash sr_signature]. by rewrite decode_b64_32_encode, decode_b64_encode.
  - destruct (ed_correct _ _ (signing_body (mkSth epoch size root [])) (ed_public_pair sk Hsk)) as (k & sg & Hk & Hsg & Hv).
    exists k. split; [done|]. unfold SignedTreeHead_verify. cbn [sth_signature sth]. fold signature in Hsg. rewrite Hsg.
    cbn [ok_or]. change (signing_body sth) with (signing_body (mkSth epoch size root [])). by rewrite Hv.
Qed.

(** *** The answer is accepted *)

Lemma verify_served (leaves : list bytes) (i : nat) (leaf : TransparencyLeaf) (root sk : bytes) (epoch : N)
    (proof : InclusionProof) :
  leaves !! i = Some (TransparencyLeaf_hash leaf) → Forall (λ h, length h = 32%nat) leaves →
  length (tl_identity_x25519_pub leaf) = 32%nat → length sk = 32%nat →
  build_tree_root leaves = Some root → build_inclusion_proof leaves i = Some proof →
  let size := N.of_nat (length leaves) in
  verify_transparency_proof
    (mkDocument (leaf_record leaf)
       (mkInclusionRecord (ip_leaf_index proof)
          (map (λ '(hash, is_left), mkPathItem (b64_encode hash) is_left) (ip_path proof)))
       (mkSthRecord epoch size (b64_encode root)
          (b64_encode (ed_sign sk (signing_body (mkSth epoch size root []))))) None)
    (b64_encode (ed_public sk)) None =
  Ok (mkVerification true false (tl_user_id leaf) (tl_version leaf) size epoch).
Proof.
  intros Hi HF Hx Hsk Hroot Hproof size.
  assert (Hne : leaves ≠ []) by (by intros ->).
  assert (Hr : length root = 32%nat).
  { rewrite build_tree_root_mth in Hroot by done. injection Hroot as <-. by apply length_mth. }
  assert (Hpath : Forall (λ s, length s.1 = 32%nat) (ip_path proof)).
  { unfold build_inclusion_proof in Hproof. case_match; [done|]. injection Hproof as <-. by apply inclusion_path_32. }
  destruct (parse_sth_record sk epoch size root Hr Hsk) as (Hsth & key & Hkey & Hver).
  unfold verify_transparency_proof. cbn [pd_leaf pd_inclusion_proof pd_signed_tree_head pd_consistency_proof ir_path ir_leaf_index].
  rewrite parse_leaf_record by done.
  rewrite (traverse_droid_ok _ (λ item, (default [] (b64_decode (pi_hash item)), pi_is_left item))).
  2: { intros item ([h b] & <- & Hin)%list_elem_of_In%in_map_iff. apply list_elem_of_In in Hin.
       rewrite list.Forall_forall in Hpath. apply Hpath in Hin. cbn [pi_hash pi_is_left].
       by rewrite decode_b64_32_encode, b64_roundtrip. }
  assert (Hmap : ∀ l : list (bytes * bool), map (λ item, (default [] (b64_decode (pi_hash item)), pi_is_left item))
    (map (λ '(hash, is_left), mkPathItem (b64_encode hash) is_left) l) = l).
  { induction l as [|[h b] l IH]; [done|]. cbn [map pi_hash pi_is_left]. by rewrite IH, b64_roundtrip. }
  rewrite Hmap.
  rewrite Hsth, decode_b64_32_encode by (by destruct (ed_pair_length _ _ (ed_public_pair sk Hsk))). rewrite Hkey. cbn [ok_or].
  destruct (inclusion_complete P V key leaves i _ (mkSth epoch size root (ed_sign sk (signing_body (mkSth epoch size root []))))
    Hi Hroot Hver) as (proof' & Hp & Hincl).
  rewrite Hproof in Hp. injection Hp as <-. destruct proof as [j path]. cbn [ip_leaf_index ip_path]. by rewrite Hincl.
Qed.

Lemma last_version (u : bytes) (d : Db) (e : EventRow) :
  log_wf d → list.last (events_of u d) = Some e → ev_version e = Z.of_nat (length (events_of u d)).
Proof.
  intros Hwf He. pose proof (log_versions _ Hwf u) as Hv. destruct (events_of u d) as [|e' l _] using rev_ind; [done|].
  rewrite last_snoc in He. injection He as ->. rewrite length_app in *. cbn [length] in *.
  rewrite seq_app, !map_app in Hv. apply app_inj_tail in Hv as [_ Hv]. rewrite Hv. lia.
Qed.

Lemma log_events_ok (d : Db) : log_wf d → Forall event_ok (rows (identity_events d)).
Proof.
  intros Hwf. apply list.Forall_forall. intros e He. destruct (log_fields _ Hwf e He) as (Hx & Ht & Hi).
  split; [done|]. split; [|done]. pose proof (log_versions _ Hwf (ev_user_id e)) as Hv.
  assert (Hin : ev_version e ∈ map ev_version (events_of (ev_user_id e) d))
    by (apply list_elem_of_fmap_2, list_elem_of_filter; done).
  rewrite Hv in Hin. apply list_elem_of_In, in_map_iff in Hin as (n & <- & _). lia.
Qed.

(** The hashes of the log. *)
Definition log_hashes (d : Db) : list bytes :=
  map (λ e, TransparencyLeaf_hash (leaf_of_event e)) (rows (identity_events d)).

Lemma log_hashes_32 (d : Db) : Forall (λ h, length h = 32%nat) (log_hashes d).
Proof.
  apply list.Forall_forall. intros h Hh. apply list_elem_of_In, in_map_iff in Hh as (? & <- & _). apply sha256_length.
Qed.

Lemma log_scanned (u : bytes) (d : Db) (k : bytes * bytes) :
  log_wf d → identity_at u d = Some k →
  ∃ acc e i, scan_events u 0 (rows (identity_events d)) (mkScan [] None None 0) = Ok acc ∧
    ls_leaf_hashes acc = log_hashes d ∧ ls_latest_leaf_for_user acc = Some (leaf_record (leaf_of_event e)) ∧
    ls_latest_leaf_index acc = Some i ∧ log_hashes d !! i = Some (TransparencyLeaf_hash (leaf_of_event e)) ∧
    ev_user_id e = u ∧ event_identity e = k ∧ ev_version e = Z.of_nat (length (events_of u d)) ∧
    length (ev_identity_x25519_pub e) = 32%nat.
Proof.
  intros Hwf Hk. pose proof (log_current _ Hwf u k Hk) as Hcur.
  destruct (list.last (events_of u d)) as [e|] eqn:Elast; [|done]. injection Hcur as Hke.
  destruct (scan_events_ok u (rows (identity_events d)) [] (mkScan [] None None 0)) as (acc & Hscan & Hacc);
    [done|by apply log_events_ok|].
  rewrite app_nil_l in Hacc. destruct Hacc as [Hhash Hlat].
  change (filter (λ e0, ev_user_id e0 = u) (rows (identity_events d))) with (events_of u d) in Hlat.
  rewrite Elast in Hlat. destruct Hlat as (Hleaf & i & Hidx & Hi).
  assert (Hin : e ∈ events_of u d) by (by apply last_Some_elem_of).
  apply list_elem_of_filter in Hin as [Heu Hin].
  exists acc, e, i. split_and!; [done..| |done|done|by apply last_version|by apply (log_fields _ Hwf)].
  unfold log_hashes. by rewrite list_lookup_fmap, Hi.
Qed.

Lemma transparency_run (u : bytes) (s s1 : AppState) (acc : LogScan) (e : EventRow) (i : nat) (root : bytes)
    (proof : InclusionProof) :
  let sk := st_sender_certificate_signing_key s1 in
  let size := N.of_nat (length (log_hashes (st_db s1))) in
  let epoch := N.max (ls_last_event_id acc) size in
  check_rate_limit (lit "transparency-proof:" ++ u) s = (s1, Ok tt) → validate_id (lit "user_id") u = Ok tt →
  is_Some (users (st_db s1) !! u) → log_hashes (st_db s1) ≠ [] →
  scan_events u 0 (rows (identity_events (st_db s1))) (mkScan [] None None 0) = Ok acc →
  ls_leaf_hashes acc = log_hashes (st_db s1) → ls_latest_leaf_for_user acc = Some (leaf_record (leaf_of_event e)) →
  ls_latest_leaf_index acc = Some i → build_tree_root (log_hashes (st_db s1)) = Some root →
  build_inclusion_proof (log_hashes (st_db s1)) i = Some proof →
  get_transparency_proof u None s = (s1, Ok (mkProofResponse u (leaf_record (leaf_of_event e))
    (mkInclusionRecord (ip_leaf_index proof)
       (map (λ '(hash, is_left), mkPathItem (b64_encode hash) is_left) (ip_path proof)))
    (mkSthRecord epoch size (b64_encode root) (b64_encode (ed_sign sk (signing_body (mkSth epoch size root [])))))
    None)).
Proof.
  intros sk size epoch Hrate Hid [row Hu] Hne Hscan Hh Hleaf Hidx Hroot Hproof. unfold get_transparency_proof.
  rewrite (sm_bind_ok _ _ _ _ _ Hrate), Hid. unfold ensure_user_exists, query, gets, lift, sm_lift, sm_bind, sm_ret, reject_if.
  rewrite Hu, bool_decide_eq_false_2 by (intros E; apply Hne; unfold log_hashes; by rewrite E).
  unfold sm_ret. rewrite Hscan, Hidx, Hleaf. cbn [ok_or]. rewrite Hh, Hroot. cbn [ok_or]. by rewrite Hproof.
Qed.
End Service.


