(* ===== verification/AndroidAuth.v ===== *)
(** * Signed requests of the Android client ([pqmsg-android/src/lib.rs])

    One function per endpoint builds the authentication headers of a request
    from the key file. The theorem: what the client signs is what the server's
    transcript functions rebuild from the request, so that a request of a
    registered device passes the server's check. *)

From Stdlib Require Import Strings.Byte.
From S2P Require Import Prelude Bytes Errors Tlv Crypto Toy ServerError Validation RequestAuth Caches Realtime ServerState ToyServer ServerFrame ServerAuth ClientAuth Android.
Local Open Scope N_scope.

Record RequestAuthHeaders := mkAuthHeaders {
  ah_user : bytes;
  ah_device : bytes;
  ah_timestamp : bytes;
  ah_nonce : bytes;
  ah_signature : bytes;
}.

Record GroupRelayAuthRecipient := mkRecipient { gr_recipient_user_id : bytes; gr_message_bytes_base64 : bytes }.

(** ** Normal forms *)

Definition normalize_contact_alias_for_auth (alias : bytes) : bytes := str_trim alias.

Definition normalize_fingerprint_sha256_for_auth (fingerprint_sha256 : option bytes) : droid (option bytes) :=
  match fingerprint_sha256 with
  | None => Ok None
  | Some fingerprint_sha256 =>
      let normalized := to_ascii_lowercase (str_trim fingerprint_sha256) in
      if len normalized =? 0 then Ok None
      else if negb (len normalized =? 64)
      then Err (invalid_input (lit "verified_fingerprint_sha256 must be 64 lowercase hex characters"))
      else if negb (forallb is_ascii_hexdigit normalized)
      then Err (invalid_input (lit "verified_fingerprint_sha256 must be 64 lowercase hex characters"))
      else Ok (Some normalized)
  end.

Definition normalize_group_members_for_auth (member_user_ids : list bytes) : list bytes :=
  dedup (sort_unstable str_leb (map str_trim member_user_ids)).

Definition normalize_presence_status_for_auth (status : bytes) : droid bytes :=
  let normalized := to_ascii_lowercase (str_trim status) in
  if bool_decide (normalized ∈ [lit "offline"; lit "online"; lit "away"; lit "busy"])
  then Ok normalized
  else Err (invalid_input (lit "status must be one of offline|online|away|busy")).

Section AndroidHeaders.
Context `{P : Primitives} `{V : Ed25519} `{B : Base64}.

(** [SystemTime::now().duration_since(UNIX_EPOCH)] in seconds, if it is after
    the epoch. *)
Context (clock : option N).
Local Open Scope sm_scope.

Definition Droid (A : Type) : Type := SM rng PqmsgAndroidError A.

Definition auth_timestamp : droid Z :=
  let? secs := ok_or clock (operation_failed (lit "system time is before UNIX epoch")) in
  if (Z.of_N secs <=? i64_max)%Z then Ok (Z.of_N secs) else Err (operation_failed (lit "system time overflow")).

Definition auth_nonce : Droid bytes :=
  λ g, let '(bytes, g) := rng_fill 16 g in (g, Ok (b64_encode bytes)).

Definition auth_common_records (endpoint user_id device_id : bytes) (timestamp : Z) (nonce : bytes)
    : list TlvRecord :=
  [mkTlv AUTH_TAG_ENDPOINT endpoint;
   mkTlv AUTH_TAG_USER_ID user_id;
   mkTlv AUTH_TAG_DEVICE_ID device_id;
   mkTlv AUTH_TAG_TIMESTAMP (i64_be timestamp);
   mkTlv AUTH_TAG_NONCE nonce].

Definition hash_string_list_sha256 (values : list bytes) : bytes := sha256 (concat values).

Definition hash_group_recipients_sha256 (recipients : list GroupRelayAuthRecipient) : droid bytes :=
  let? normalized := traverse_droid (λ recipient,
    let? blob := decode_b64 "message_bytes_base64" (gr_message_bytes_base64 recipient) in
    Ok (gr_recipient_user_id recipient, sha256 blob)) recipients in
  let normalized := sort_unstable (λ left right, str_leb left.1 right.1) normalized in
  Ok (sha256 (concat (map (λ '(recipient_user_id, message_hash),
    recipient_user_id ++ [x00] ++ message_hash ++ [x01]) normalized))).

Definition decode_signing_key_b64 (field : string) (value : bytes) : droid bytes :=
  let? bytes := decode_b64 field value in
  if (length bytes =? 32)%nat then Ok bytes
  else Err (invalid_input (lit "field '" ++ lit field ++ lit "' must decode to 32 bytes (got "
                           ++ decimal (len bytes) ++ lit ")")).

Definition auth_signing_key_for_user (keys : UserKeysFile) : droid bytes :=
  decode_signing_key_b64 "identity_sig_secret_b64" (uk_identity_sig_secret_b64 keys).

(** The first check of most functions. *)
Definition require_user (field : string) (user_id : bytes) (keys : UserKeysFile) : droid unit :=
  if bool_decide (uk_user_id keys = user_id) then Ok tt
  else Err (invalid_input (lit field ++ lit " '" ++ user_id ++ lit "' does not match keys user '"
                           ++ uk_user_id keys ++ lit "'")).

(** The end of every function: the time and a nonce, the common records and those
    of the endpoint, the transcript, the signature, the headers. *)
Definition signed_request (endpoint signing_key user_id device_id : bytes) (records : droid (list TlvRecord))
    : Droid RequestAuthHeaders :=
  timestamp <- sm_lift auth_timestamp;;
  nonce <- auth_nonce;;
  records <- sm_lift records;;
  transcript <- sm_lift (map_err (encode (auth_common_records endpoint user_id device_id timestamp nonce ++ records))
    (operation_failed (lit "failed to encode " ++ endpoint ++ lit " auth transcript")));;
  let signature := ed_sign signing_key transcript in
  sm_ret (mkAuthHeaders user_id device_id (i64_to_string timestamp) nonce (b64_encode signature)).

(** A request of the user of the keys. *)
Definition own_request (field : string) (endpoint user_id : bytes) (keys : UserKeysFile) (check : droid unit)
    (records : droid (list TlvRecord)) : Droid RequestAuthHeaders :=
  sm_lift (require_user field user_id keys);;;
  sm_lift check;;;
  signing_key <- sm_lift (auth_signing_key_for_user keys);;
  signed_request endpoint signing_key user_id (uk_device_id keys) records.

(** A request in the name of the keys' user, without naming it. *)
Definition keys_request (endpoint : bytes) (keys : UserKeysFile) (records : droid (list TlvRecord))
    : Droid RequestAuthHeaders :=
  signing_key <- sm_lift (auth_signing_key_for_user keys);;
  signed_request endpoint signing_key (uk_user_id keys) (uk_device_id keys) records.

Definition build_rotate_init_auth_headers (keys : UserKeysFile)
    (user_id new_identity_x25519_pub new_identity_sig_pub new_identity_pq_sig_pub : bytes) : Droid RequestAuthHeaders :=
  own_request "user_id" (lit "rotate-init") user_id keys (Ok tt)
    (Ok [mkTlv AUTH_TAG_ROTATE_NEW_X25519_HASH (sha256 new_identity_x25519_pub);
         mkTlv AUTH_TAG_ROTATE_NEW_SIG_HASH (sha256 new_identity_sig_pub);
         mkTlv AUTH_TAG_ROTATE_NEW_PQ_SIG_HASH (sha256 new_identity_pq_sig_pub)]).

Definition build_rotate_confirm_auth_headers (keys : UserKeysFile) (user_id challenge_id sig_by_current_identity
    sig_by_new_identity pq_sig_by_current_identity pq_sig_by_new_identity : bytes) : Droid RequestAuthHeaders :=
  own_request "user_id" (lit "rotate-confirm") user_id keys (Ok tt)
    (Ok [mkTlv AUTH_TAG_ROTATE_CHALLENGE_ID challenge_id;
         mkTlv AUTH_TAG_ROTATE_SIG_CURRENT_HASH (sha256 sig_by_current_identity);
         mkTlv AUTH_TAG_ROTATE_SIG_NEW_HASH (sha256 sig_by_new_identity);
         mkTlv AUTH_TAG_ROTATE_PQ_SIG_CURRENT_HASH (sha256 pq_sig_by_current_identity);
         mkTlv AUTH_TAG_ROTATE_PQ_SIG_NEW_HASH (sha256 pq_sig_by_new_identity)]).

Definition build_identity_log_auth_headers (keys : UserKeysFile) (user_id : bytes) : Droid RequestAuthHeaders :=
  own_request "user_id" (lit "identity-log") user_id keys (Ok tt) (Ok [mkTlv AUTH_TAG_RECIPIENT_ID user_id]).

Definition build_relay_auth_headers (keys : UserKeysFile) (sender_user_id recipient_user_id message_bytes_base64 : bytes)
    : Droid RequestAuthHeaders :=
  sm_lift (require_user "sender_user_id" sender_user_id keys);;;
  signing_key <- sm_lift (auth_signing_key_for_user keys);;
  message_blob <- sm_lift (decode_b64 "message_bytes_base64" message_bytes_base64);;
  signed_request (lit "relay") signing_key sender_user_id (uk_device_id keys)
    (Ok [mkTlv AUTH_TAG_RECIPIENT_ID recipient_user_id; mkTlv AUTH_TAG_MESSAGE_BLOB message_blob]).

Definition build_inbox_auth_headers (keys : UserKeysFile) (user_id : bytes) (since : Z) : Droid RequestAuthHeaders :=
  own_request "user_id" (lit "inbox") user_id keys (Ok tt)
    (Ok [mkTlv AUTH_TAG_RECIPIENT_ID user_id; mkTlv AUTH_TAG_SINCE (i64_be since)]).

Definition build_sealed_inbox_auth_headers (keys : UserKeysFile) (user_id : bytes) (since : Z)
    : Droid RequestAuthHeaders :=
  own_request "user_id" (lit "sealed-inbox") user_id keys (Ok tt)
    (Ok [mkTlv AUTH_TAG_RECIPIENT_ID user_id; mkTlv AUTH_TAG_SINCE (i64_be since)]).

Definition build_sender_certificate_auth_headers (keys : UserKeysFile) (user_id : bytes) : Droid RequestAuthHeaders :=
  own_request "user_id" (lit "sender-certificate") user_id keys (Ok tt) (Ok [mkTlv AUTH_TAG_RECIPIENT_ID user_id]).

Definition discovery_purpose (purpose : bytes) : droid bytes :=
  let p := to_ascii_lowercase (str_trim purpose) in
  if bool_decide (p = lit "upload") then Ok (lit "upload")
  else if bool_decide (p = lit "match") then Ok (lit "match")
  else Err (invalid_input (lit "contact discovery ticket purpose must be 'upload' or 'match'")).

Definition build_contact_discovery_ticket_auth_headers (keys : UserKeysFile) (user_id purpose : bytes)
    : Droid RequestAuthHeaders :=
  sm_lift (require_user "user_id" user_id keys);;;
  purpose <- sm_lift (discovery_purpose purpose);;
  signing_key <- sm_lift (auth_signing_key_for_user keys);;
  signed_request (lit "contact-discovery-ticket") signing_key user_id (uk_device_id keys)
    (Ok [mkTlv AUTH_TAG_RECIPIENT_ID user_id; mkTlv AUTH_TAG_DISCOVERY_PURPOSE purpose]).

Definition build_contacts_list_auth_headers (keys : UserKeysFile) (user_id : bytes) : Droid RequestAuthHeaders :=
  own_request "user_id" (lit "contacts-list") user_id keys (Ok tt) (Ok [mkTlv AUTH_TAG_RECIPIENT_ID user_id]).

Definition build_contact_invite_create_auth_headers (keys : UserKeysFile) (user_id : bytes) : Droid RequestAuthHeaders :=
  own_request "user_id" (lit "contact-invite-create") user_id keys (Ok tt) (Ok [mkTlv AUTH_TAG_RECIPIENT_ID user_id]).

Definition build_contacts_upsert_auth_headers (keys : UserKeysFile) (user_id contact_user_id alias : bytes)
    (verified_by_qr : bool) (verified_fingerprint_sha256 : option bytes) : Droid RequestAuthHeaders :=
  own_request "user_id" (lit "contacts-upsert") user_id keys (Ok tt)
    (let alias := normalize_contact_alias_for_auth alias in
     let? fingerprint := normalize_fingerprint_sha256_for_auth verified_fingerprint_sha256 in
     Ok ([mkTlv AUTH_TAG_RECIPIENT_ID user_id;
          mkTlv AUTH_TAG_CONTACT_USER_ID contact_user_id;
          mkTlv AUTH_TAG_CONTACT_ALIAS_HASH (sha256 alias);
          mkTlv AUTH_TAG_CONTACT_VERIFIED_FLAG [if verified_by_qr then x01 else x00]]
         ++ match fingerprint with
            | Some fingerprint => [mkTlv AUTH_TAG_CONTACT_FINGERPRINT fingerprint]
            | None => []
            end)).

Definition build_contacts_remove_auth_headers (keys : UserKeysFile) (user_id contact_user_id : bytes)
    : Droid RequestAuthHeaders :=
  own_request "user_id" (lit "contacts-remove") user_id keys (Ok tt)
    (Ok [mkTlv AUTH_TAG_RECIPIENT_ID user_id; mkTlv AUTH_TAG_CONTACT_USER_ID contact_user_id]).

Definition build_group_create_auth_headers (keys : UserKeysFile) (group_id : bytes) (member_user_ids : list bytes)
    : Droid RequestAuthHeaders :=
  keys_request (lit "groups-create") keys
    (let normalized_members := normalize_group_members_for_auth member_user_ids in
     Ok [mkTlv AUTH_TAG_GROUP_ID group_id;
         mkTlv AUTH_TAG_GROUP_MEMBERS_HASH (hash_string_list_sha256 normalized_members)]).

Definition build_user_groups_list_auth_headers (keys : UserKeysFile) (user_id : bytes) : Droid RequestAuthHeaders :=
  own_request "user_id" (lit "groups-list") user_id keys (Ok tt) (Ok [mkTlv AUTH_TAG_RECIPIENT_ID user_id]).

Definition build_group_members_list_auth_headers (keys : UserKeysFile) (group_id : bytes) : Droid RequestAuthHeaders :=
  keys_request (lit "groups-members-list") keys (Ok [mkTlv AUTH_TAG_GROUP_ID group_id]).

Definition build_group_members_add_auth_headers (keys : UserKeysFile) (group_id member_user_id : bytes)
    : Droid RequestAuthHeaders :=
  keys_request (lit "groups-members-add") keys
    (Ok [mkTlv AUTH_TAG_GROUP_ID group_id; mkTlv AUTH_TAG_GROUP_MEMBER_USER_ID member_user_id]).

Definition build_group_members_remove_auth_headers (keys : UserKeysFile) (group_id member_user_id : bytes)
    : Droid RequestAuthHeaders :=
  keys_request (lit "groups-members-remove") keys
    (Ok [mkTlv AUTH_TAG_GROUP_ID group_id; mkTlv AUTH_TAG_GROUP_MEMBER_USER_ID member_user_id]).

Definition build_group_relay_auth_headers (keys : UserKeysFile) (group_id sender_user_id : bytes)
    (recipients : list GroupRelayAuthRecipient) : Droid RequestAuthHeaders :=
  own_request "sender_user_id" (lit "groups-relay") sender_user_id keys (Ok tt)
    (let? recipients_hash := hash_group_recipients_sha256 recipients in
     Ok [mkTlv AUTH_TAG_GROUP_ID group_id;
         mkTlv AUTH_TAG_GROUP_SENDER_USER_ID sender_user_id;
         mkTlv AUTH_TAG_GROUP_RECIPIENTS_HASH recipients_hash]).

Definition build_profile_get_auth_headers (keys : UserKeysFile) (user_id : bytes) : Droid RequestAuthHeaders :=
  keys_request (lit "profile-get") keys (Ok [mkTlv AUTH_TAG_RECIPIENT_ID user_id]).

Definition build_profile_upsert_auth_headers (keys : UserKeysFile) (user_id display_name username : bytes)
    (username_lookup_enabled : bool) (avatar_mime avatar_blob : bytes) : Droid RequestAuthHeaders :=
  keys_request (lit "profile-upsert") keys
    (let normalized_username := to_ascii_lowercase (trim_start_char x40 (str_trim username)) in
     Ok [mkTlv AUTH_TAG_RECIPIENT_ID user_id;
         mkTlv AUTH_TAG_PROFILE_DISPLAY_NAME_HASH (sha256 (str_trim display_name));
         mkTlv AUTH_TAG_PROFILE_USERNAME_HASH (sha256 normalized_username);
         mkTlv AUTH_TAG_PROFILE_USERNAME_LOOKUP_ENABLED [if username_lookup_enabled then x01 else x00];
         mkTlv AUTH_TAG_PROFILE_AVATAR_HASH (sha256 avatar_blob);
         mkTlv AUTH_TAG_PROFILE_AVATAR_MIME_HASH (sha256 (str_trim avatar_mime))]).

Definition build_presence_update_auth_headers (keys : UserKeysFile) (user_id status : bytes) : Droid RequestAuthHeaders :=
  own_request "user_id" (lit "presence-update") user_id keys (Ok tt)
    (let? status := normalize_presence_status_for_auth status in
     Ok [mkTlv AUTH_TAG_RECIPIENT_ID user_id; mkTlv AUTH_TAG_PRESENCE_STATUS status]).

Definition build_presence_get_auth_headers (keys : UserKeysFile) (user_id : bytes) : Droid RequestAuthHeaders :=
  keys_request (lit "presence-get") keys (Ok [mkTlv AUTH_TAG_RECIPIENT_ID user_id]).

Definition build_typing_update_auth_headers (keys : UserKeysFile) (peer_user_id : bytes) (is_typing : bool)
    : Droid RequestAuthHeaders :=
  keys_request (lit "typing-update") keys
    (Ok [mkTlv AUTH_TAG_TYPING_PEER_ID peer_user_id;
         mkTlv AUTH_TAG_TYPING_STATE_FLAG [if is_typing then x01 else x00]]).

Definition build_typing_get_auth_headers (keys : UserKeysFile) (user_id : bytes) : Droid RequestAuthHeaders :=
  own_request "user_id" (lit "typing-get") user_id keys (Ok tt) (Ok [mkTlv AUTH_TAG_RECIPIENT_ID user_id]).

Definition build_list_devices_auth_headers (keys : UserKeysFile) (user_id : bytes) : Droid RequestAuthHeaders :=
  own_request "user_id" (lit "devices-list") user_id keys (Ok tt) (Ok [mkTlv AUTH_TAG_RECIPIENT_ID user_id]).

Definition build_link_device_auth_headers (keys : UserKeysFile) (user_id new_device_id : bytes)
    : Droid RequestAuthHeaders :=
  own_request "user_id" (lit "devices-link") user_id keys
    (if len (str_trim new_device_id) =? 0 then Err (invalid_input (lit "new_device_id must not be empty"))
     else if bool_decide (uk_device_id keys = new_device_id)
     then Err (invalid_input (lit "new_device_id must differ from the authenticated device_id")) else Ok tt)
    (Ok [mkTlv AUTH_TAG_RECIPIENT_ID user_id; mkTlv AUTH_TAG_LINK_DEVICE_ID new_device_id]).

Definition build_revoke_device_auth_headers (keys : UserKeysFile) (user_id target_device_id : bytes)
    : Droid RequestAuthHeaders :=
  own_request "user_id" (lit "devices-revoke") user_id keys
    (if len (str_trim target_device_id) =? 0 then Err (invalid_input (lit "target_device_id must not be empty"))
     else if bool_decide (uk_device_id keys = target_device_id)
     then Err (invalid_input (lit "target_device_id must differ from the authenticated device_id")) else Ok tt)
    (Ok [mkTlv AUTH_TAG_RECIPIENT_ID user_id; mkTlv AUTH_TAG_REVOKE_DEVICE_ID target_device_id]).

Definition build_prekeys_status_auth_headers (keys : UserKeysFile) (user_id : bytes) : Droid RequestAuthHeaders :=
  own_request "user_id" (lit "prekeys-status") user_id keys (Ok tt) (Ok [mkTlv AUTH_TAG_RECIPIENT_ID user_id]).

Definition build_prekeys_auth_headers (keys : UserKeysFile) (user_id : bytes) : Droid RequestAuthHeaders :=
  own_request "user_id" (lit "prekeys") user_id keys (Ok tt)
    (Ok [mkTlv AUTH_TAG_PREKEY_SPK_HASH (sha256 (uk_signed_prekey_x25519_pub_b64 keys));
         mkTlv AUTH_TAG_PREKEY_PQSPK_HASH (sha256 (uk_pq_signed_prekey_pub_b64 keys))]).

Definition build_push_token_auth_headers (keys : UserKeysFile) (user_id fcm_token : bytes) : Droid RequestAuthHeaders :=
  own_request "user_id" (lit "push-token") user_id keys
    (if len (str_trim fcm_token) =? 0 then Err (invalid_input (lit "fcm_token must not be empty")) else Ok tt)
    (Ok [mkTlv AUTH_TAG_RECIPIENT_ID user_id;
         mkTlv AUTH_TAG_PUSH_DEVICE_ID (uk_device_id keys);
         mkTlv AUTH_TAG_PUSH_TOKEN_HASH (sha256 fcm_token)]).

Definition build_retire_device_auth_headers (keys : UserKeysFile) (user_id : bytes) : Droid RequestAuthHeaders :=
  own_request "user_id" (lit "devices-retire") user_id keys (Ok tt)
    (Ok [mkTlv AUTH_TAG_RECIPIENT_ID user_id; mkTlv AUTH_TAG_REVOKE_DEVICE_ID (uk_device_id keys)]).

Definition build_delete_account_auth_headers (keys : UserKeysFile) (user_id : bytes) : Droid RequestAuthHeaders :=
  own_request "user_id" (lit "account-delete") user_id keys (Ok tt) (Ok [mkTlv AUTH_TAG_RECIPIENT_ID user_id]).

(** The signature covers the message only: neither the time nor the nonce. *)
Definition build_format_string_auth_headers (keys : UserKeysFile) (message : bytes) : Droid RequestAuthHeaders :=
  signing_key <- sm_lift (auth_signing_key_for_user keys);;
  timestamp <- sm_lift auth_timestamp;;
  nonce <- auth_nonce;;
  let signature := ed_sign signing_key message in
  sm_ret (mkAuthHeaders (uk_user_id keys) (uk_device_id keys) (i64_to_string timestamp) nonce (b64_encode signature)).

Definition build_send_receipt_auth_headers (keys : UserKeysFile) (user_id : bytes) (message_id : Z) (receipt_type : bytes)
    : Droid RequestAuthHeaders :=
  sm_lift (require_user "user_id" user_id keys);;;
  build_format_string_auth_headers keys
    (lit "receipt:" ++ user_id ++ lit ":" ++ uk_device_id keys ++ lit ":" ++ i64_to_string message_id ++ lit ":"
       ++ receipt_type).

Definition build_get_receipts_auth_headers (keys : UserKeysFile) (user_id : bytes) (since_id : Z)
    : Droid RequestAuthHeaders :=
  sm_lift (require_user "user_id" user_id keys);;;
  build_format_string_auth_headers keys
    (lit "get-receipts:" ++ user_id ++ lit ":" ++ uk_device_id keys ++ lit ":" ++ i64_to_string since_id).
End AndroidHeaders.

(** ** The requests of the client *)

(** A profile is always uploaded without an avatar. *)
Inductive DroidCall : Type :=
| DroidRotateInit (request : RotateInitRequest)
| DroidRotateConfirm (request : RotateConfirmRequest)
| DroidIdentityLog
| DroidRelay (recipient_user_id message_bytes_base64 : bytes)
| DroidInbox (since : Z)
| DroidSealedInbox (since : Z)
| DroidSenderCertificate
| DroidDiscoveryTicket (purpose : bytes)
| DroidContactsList
| DroidContactInvite
| DroidContactsUpsert (contact_user_id alias : bytes) (verified_by_qr : bool) (fingerprint : option bytes)
| DroidContactsRemove (contact_user_id : bytes)
| DroidGroupCreate (group_id : bytes) (member_user_ids : list bytes)
| DroidUserGroups
| DroidGroupMembers (group_id : bytes)
| DroidGroupAdd (group_id member_user_id : bytes)
| DroidGroupRemove (group_id member_user_id : bytes)
| DroidGroupRelay (group_id : bytes) (recipients : list GroupRelayAuthRecipient)
| DroidProfileGet (user_id : bytes)
| DroidProfileUpsert (user_id display_name username : bytes) (username_lookup_enabled : bool)
| DroidPresenceUpdate (status : bytes)
| DroidPresenceGet (user_id : bytes)
| DroidTypingUpdate (peer_user_id : bytes) (is_typing : bool)
| DroidTypingGet
| DroidListDevices
| DroidLinkDevice (new_device_id : bytes)
| DroidRevokeDevice (target_device_id : bytes)
| DroidPrekeysStatus
| DroidPrekeys (request : PublishPrekeysRequest)
| DroidPushToken (fcm_token : bytes)
| DroidRetireDevice
| DroidDeleteAccount.

(** [ContactDiscoveryTicketPurpose::parse] of the server, as its [as_str]. *)
Definition ContactDiscoveryTicketPurpose_parse (raw : bytes) : app bytes :=
  let p := to_ascii_lowercase (str_trim raw) in
  if bool_decide (p = lit "upload") then Ok (lit "upload")
  else if bool_decide (p = lit "match") then Ok (lit "match")
  else Err (bad_request (lit "contact discovery ticket purpose must be 'upload' or 'match'")).

Section AndroidRequests.
Context `{P : Primitives} `{V : Ed25519} `{B : Base64}.

Definition droid_headers (clock : option N) (keys : UserKeysFile) (call : DroidCall) : Droid RequestAuthHeaders :=
  let user := uk_user_id keys in
  match call with
  | DroidRotateInit q => build_rotate_init_auth_headers clock keys user (ri_new_identity_x25519_pub q)
      (ri_new_identity_sig_pub q) (ri_new_identity_pq_sig_pub q)
  | DroidRotateConfirm q => build_rotate_confirm_auth_headers clock keys user (rc_challenge_id q)
      (rc_sig_by_current_identity q) (rc_sig_by_new_identity q) (rc_pq_sig_by_current_identity q)
      (rc_pq_sig_by_new_identity q)
  | DroidIdentityLog => build_identity_log_auth_headers clock keys user
  | DroidRelay recipient b64 => build_relay_auth_headers clock keys user recipient b64
  | DroidInbox since => build_inbox_auth_headers clock keys user since
  | DroidSealedInbox since => build_sealed_inbox_auth_headers clock keys user since
  | DroidSenderCertificate => build_sender_certificate_auth_headers clock keys user
  | DroidDiscoveryTicket purpose => build_contact_discovery_ticket_auth_headers clock keys user purpose
  | DroidContactsList => build_contacts_list_auth_headers clock keys user
  | DroidContactInvite => build_contact_invite_create_auth_headers clock keys user
  | DroidContactsUpsert contact alias verified fp =>
      build_contacts_upsert_auth_headers clock keys user contact alias verified fp
  | DroidContactsRemove contact => build_contacts_remove_auth_headers clock keys user contact
  | DroidGroupCreate gid members => build_group_create_auth_headers clock keys gid members
  | DroidUserGroups => build_user_groups_list_auth_headers clock keys user
  | DroidGroupMembers gid => build_group_members_list_auth_headers clock keys gid
  | DroidGroupAdd gid member => build_group_members_add_auth_headers clock keys gid member
  | DroidGroupRemove gid member => build_group_members_remove_auth_headers clock keys gid member
  | DroidGroupRelay gid recipients => build_group_relay_auth_headers clock keys gid user recipients
  | DroidProfileGet u => build_profile_get_auth_headers clock keys u
  | DroidProfileUpsert u name username lookup =>
      build_profile_upsert_auth_headers clock keys u name username lookup [] []
  | DroidPresenceUpdate status => build_presence_update_auth_headers clock keys user status
  | DroidPresenceGet u => build_presence_get_auth_headers clock keys u
  | DroidTypingUpdate peer typing => build_typing_update_auth_headers clock keys peer typing
  | DroidTypingGet => build_typing_get_auth_headers clock keys user
  | DroidListDevices => build_list_devices_auth_headers clock keys user
  | DroidLinkDevice dev => build_link_device_auth_headers clock keys user dev
  | DroidRevokeDevice dev => build_revoke_device_auth_headers clock keys user dev
  | DroidPrekeysStatus => build_prekeys_status_auth_headers clock keys user
  | DroidPrekeys _ => build_prekeys_auth_headers clock keys user
  | DroidPushToken token => build_push_token_auth_headers clock keys user token
  | DroidRetireDevice => build_retire_device_auth_headers clock keys user
  | DroidDeleteAccount => build_delete_account_auth_headers clock keys user
  end.

Fixpoint relay_recipients (recipients : list GroupRelayAuthRecipient) : app (list (bytes * bytes)) :=
  match recipients with
  | [] => Ok []
  | r :: recipients =>
      let? blob := decode_base64_max (lit "message_bytes_base64") (gr_message_bytes_base64 r) MAX_MESSAGE_BYTES in
      let? rest := relay_recipients recipients in
      Ok ((gr_recipient_user_id r, blob) :: rest)
  end.

(** What the handler of the endpoint passes to its transcript function, after it
    has decoded and normalised what the client sent. *)
Definition droid_request (keys : UserKeysFile) (call : DroidCall) : option AuthRequest :=
  let user := uk_user_id keys in
  match call with
  | DroidRotateInit q => Some (ReqRotateInit q)
  | DroidRotateConfirm q => Some (ReqRotateConfirm q)
  | DroidIdentityLog => Some (ReqIdentityLog user)
  | DroidRelay recipient b64 =>
      blob ← res_ok (decode_base64_range (lit "message_bytes_base64") b64 1 MAX_MESSAGE_BYTES);
      Some (ReqRelay recipient blob)
  | DroidInbox since => Some (ReqInbox user since)
  | DroidSealedInbox since => Some (ReqSealedInbox user since)
  | DroidSenderCertificate => Some (ReqSenderCertificate user)
  | DroidDiscoveryTicket purpose =>
      purpose ← res_ok (ContactDiscoveryTicketPurpose_parse purpose); Some (ReqDiscoveryTicket user purpose)
  | DroidContactsList => Some (ReqContactsList user)
  | DroidContactInvite => Some (ReqContactInvite user)
  | DroidContactsUpsert contact alias verified fp =>
      alias ← res_ok (validate_optional_contact_alias (Some alias));
      fp ← res_ok (validate_optional_fingerprint_sha256 fp);
      Some (ReqContactsUpsert user contact alias verified fp)
  | DroidContactsRemove contact => Some (ReqContactsRemove user contact)
  | DroidGroupCreate gid members =>
      members ← res_ok (normalize_group_members members); Some (ReqGroupCreate gid members)
  | DroidUserGroups => Some (ReqUserGroups user)
  | DroidGroupMembers gid => Some (ReqGroupMembers gid)
  | DroidGroupAdd gid member => Some (ReqGroupAdd gid member)
  | DroidGroupRemove gid member => Some (ReqGroupRemove gid member)
  | DroidGroupRelay gid recipients =>
      recipients ← res_ok (relay_recipients recipients); Some (ReqGroupRelay gid user recipients)
  | DroidProfileGet u => Some (ReqProfileGet u)
  | DroidProfileUpsert u name username lookup =>
      name ← res_ok (validate_optional_profile_display_name (Some name));
      username ← res_ok (validate_optional_username (Some username));
      Some (ReqProfileUpsert u name username (bool_decide (is_Some username) && lookup) None None)
  | DroidPresenceUpdate status => status ← res_ok (validate_presence_status status); Some (ReqPresenceUpdate user status)
  | DroidPresenceGet u => Some (ReqPresenceGet u)
  | DroidTypingUpdate peer typing => Some (ReqTypingUpdate peer typing)
  | DroidTypingGet => Some (ReqTypingGet user)
  | DroidListDevices => Some (ReqListDevices user)
  | DroidLinkDevice dev => Some (ReqLinkDevice user dev)
  | DroidRevokeDevice dev => Some (ReqRevokeDevice user dev)
  | DroidPrekeysStatus => Some (ReqPrekeysStatus user)
  | DroidPrekeys q => Some (ReqPrekeys q)
  | DroidPushToken token =>
      token ← res_ok (validate_push_token Fcm token); Some (ReqPushToken (uk_device_id keys) token)
  | DroidRetireDevice => Some (ReqRetireDevice user)
  | DroidDeleteAccount => Some (ReqDeleteAccount user)
  end.

(** What the client refuses, or signs as it is where the server normalises: the
    devices to link and to revoke, an upload that is not the one of the key
    file, a token or a username with blanks around it, a lookup without a
    username. *)
Definition droid_plain (keys : UserKeysFile) (call : DroidCall) : Prop :=
  match call with
  | DroidLinkDevice dev | DroidRevokeDevice dev => (len (str_trim dev) =? 0) = false ∧ uk_device_id keys ≠ dev
  | DroidPrekeys q =>
      pp_signed_prekey_x25519_pub q = uk_signed_prekey_x25519_pub_b64 keys ∧
      pp_pq_signed_prekey_pub_mlkem768 q = uk_pq_signed_prekey_pub_b64 keys
  | DroidPushToken token => str_trim token = token
  | DroidProfileUpsert _ _ username lookup =>
      str_trim username = username ∧ (lookup && (len username =? 0)) = false
  | _ => True
  end.

(** ** Client and server agree *)

Lemma decode_base64_range_decodes (field value blob : bytes) (lo hi : N) (f : string) :
  decode_base64_range field value lo hi = Ok blob → decode_b64 f value = Ok blob.
Proof.
  unfold decode_base64_range, decode_b64. intros H. destruct (len value =? 0); [done|].
  destruct (_ <? len value); [done|]. destruct (b64_decode value) as [x|]; [|done]. simpl in *.
  destruct (_ || _); congruence.
Qed.

Lemma relay_recipients_agree (recipients : list GroupRelayAuthRecipient) (l : list (bytes * bytes)) :
  relay_recipients recipients = Ok l →
  hash_group_recipients_sha256 recipients = Ok (RequestAuth.hash_group_recipients_sha256 l).
Proof.
  intros H. unfold hash_group_recipients_sha256, RequestAuth.hash_group_recipients_sha256.
  assert (Ht : traverse_droid (λ recipient,
      let? blob := decode_b64 "message_bytes_base64" (gr_message_bytes_base64 recipient) in
      Ok (gr_recipient_user_id recipient, sha256 blob)) recipients
    = Ok (map (λ '(recipient_user_id, message_blob), (recipient_user_id, sha256 message_blob)) l)).
  { revert l H. induction recipients as [|r recipients IH]; intros l H; cbn [relay_recipients] in H; [by apply Ok_inj in H as <-|].
    destruct (decode_base64_max _ _ _) as [blob|] eqn:E; [|done]. destruct (relay_recipients recipients) as [l'|]; [|done].
    apply Ok_inj in H as <-. cbn [traverse_droid map]. unfold decode_base64_max in E.
    rewrite (decode_base64_range_decodes _ _ _ _ _ "message_bytes_base64" E). by rewrite (IH l' eq_refl). }
  by rewrite Ht.
Qed.

Lemma trimmed_members_map (values l : list bytes) : trimmed_members values = Ok l → l = map str_trim values.
Proof.
  revert l. induction values as [|v values IH]; intros l H; cbn [trimmed_members] in H; [by apply Ok_inj in H as <-|].
  destruct (Validation.validate_id _ v); [|done]. destruct (trimmed_members values) as [l'|]; [|done].
  apply Ok_inj in H as <-. by rewrite (IH l' eq_refl).
Qed.

Lemma alias_agrees (alias : bytes) (r : option bytes) :
  validate_optional_contact_alias (Some alias) = Ok r → default [] r = normalize_contact_alias_for_auth alias.
Proof.
  unfold validate_optional_contact_alias, normalize_contact_alias_for_auth. intros H.
  destruct (len (str_trim alias) =? 0) eqn:E; [|destruct (_ <? _); [done|]; by apply Ok_inj in H as <-].
  apply Ok_inj in H as <-. bool_to_prop. unfold len in E. by destruct (str_trim alias).
Qed.

Lemma display_name_agrees (name : bytes) (r : option bytes) :
  validate_optional_profile_display_name (Some name) = Ok r → default [] r = str_trim name.
Proof.
  unfold validate_optional_profile_display_name. intros H.
  destruct (len (str_trim name) =? 0) eqn:E; [|destruct (_ <? _); [done|]; by apply Ok_inj in H as <-].
  apply Ok_inj in H as <-. bool_to_prop. unfold len in E. by destruct (str_trim name).
Qed.

Lemma username_agrees (username : bytes) (r : option bytes) :
  str_trim username = username → validate_optional_username (Some username) = Ok r →
  default [] r = to_ascii_lowercase (trim_start_char x40 (str_trim username)) ∧
  bool_decide (is_Some r) = negb (len username =? 0).
Proof.
  intros Ht H. unfold validate_optional_username in H. rewrite Ht in H |- *.
  destruct (len username =? 0) eqn:E.
  - apply Ok_inj in H as <-. bool_to_prop. unfold len in E. by destruct username.
  - destruct (validate_username username) as [n|] eqn:En; [|done]. apply Ok_inj in H as <-. split; [|by apply bool_decide_eq_true_2].
    unfold validate_username in En. rewrite Ht in En. destruct (_ || _); [done|]. destruct (_ || _); [done|].
    destruct (username_loop _ _); [|done]. by apply Ok_inj in En as <-.
Qed.

Lemma fingerprint_agrees (fp r : option bytes) :
  validate_optional_fingerprint_sha256 fp = Ok r → normalize_fingerprint_sha256_for_auth fp = Ok r.
Proof.
  destruct fp as [fp|]; cbn [validate_optional_fingerprint_sha256 normalize_fingerprint_sha256_for_auth]; [|congruence].
  unfold Validation.validate_sha256_hex. change SHA256_HEX_LEN with 64. intros H.
  destruct (negb (len _ =? 64)) eqn:E; [done|]. apply negb_false_iff in E. rewrite (proj2 (N.eqb_neq _ _)) by (bool_to_prop; lia).
  destruct (negb (forallb _ _)); congruence.
Qed.

Lemma presence_agrees (status r : bytes) :
  validate_presence_status status = Ok r → normalize_presence_status_for_auth status = Ok r.
Proof. unfold validate_presence_status, normalize_presence_status_for_auth. intros H. case_bool_decide; congruence. Qed.

Lemma purpose_agrees (purpose r : bytes) :
  ContactDiscoveryTicketPurpose_parse purpose = Ok r → discovery_purpose purpose = Ok r.
Proof. unfold ContactDiscoveryTicketPurpose_parse, discovery_purpose. intros H. repeat case_bool_decide; congruence. Qed.

Context `{BL : !Base64Laws B}.

(** The keys of a device: the signing key is there. *)
Definition keys_sign (keys : UserKeysFile) (sk : bytes) : Prop :=
  uk_identity_sig_secret_b64 keys = b64_encode sk ∧ length sk = 32%nat.

Lemma signing_key_ok (keys : UserKeysFile) (sk : bytes) : keys_sign keys sk → auth_signing_key_for_user keys = Ok sk.
Proof.
  intros [Hk Hl]. unfold auth_signing_key_for_user, decode_signing_key_b64, decode_b64.
  rewrite Hk, b64_roundtrip. cbn [ok_or]. by rewrite Hl.
Qed.

Lemma require_own_user (field : string) (keys : UserKeysFile) : require_user field (uk_user_id keys) keys = Ok tt.
Proof. unfold require_user. by rewrite bool_decide_eq_true_2. Qed.

Lemma own_request_signed (clock : option N) (field : string) (endpoint sk : bytes) (keys : UserKeysFile)
    (check : droid unit) (records : droid (list TlvRecord)) :
  keys_sign keys sk → check = Ok tt →
  own_request clock field endpoint (uk_user_id keys) keys check records =
    signed_request clock endpoint sk (uk_user_id keys) (uk_device_id keys) records.
Proof. intros Hk ->. unfold own_request. by rewrite require_own_user, (signing_key_ok keys sk Hk). Qed.

Lemma keys_request_signed (clock : option N) (endpoint sk : bytes) (keys : UserKeysFile)
    (records : droid (list TlvRecord)) :
  keys_sign keys sk →
  keys_request clock endpoint keys records =
    signed_request clock endpoint sk (uk_user_id keys) (uk_device_id keys) records.
Proof. intros Hk. unfold keys_request. by rewrite (signing_key_ok keys sk Hk). Qed.

(** The function of an endpoint signs [records] under [endpoint], and these are the
    records of the server's transcript. *)
Definition signs (clock : option N) (keys : UserKeysFile) (sk : bytes) (call : DroidCall) (r : AuthRequest) : Prop :=
  ∃ endpoint records,
    droid_headers clock keys call = signed_request clock endpoint sk (uk_user_id keys) (uk_device_id keys) (Ok records) ∧
    ∀ auth, ra_user_id auth = uk_user_id keys → ra_device_id auth = uk_device_id keys →
      request_transcript auth r = auth_transcript auth endpoint records.

Lemma own_signs (clock : option N) (keys : UserKeysFile) (sk : bytes) (call : DroidCall) (r : AuthRequest)
    (field : string) (endpoint : bytes) (check : droid unit) (records : list TlvRecord) :
  keys_sign keys sk → check = Ok tt →
  droid_headers clock keys call = own_request clock field endpoint (uk_user_id keys) keys check (Ok records) →
  (∀ auth, ra_user_id auth = uk_user_id keys → ra_device_id auth = uk_device_id keys →
      request_transcript auth r = auth_transcript auth endpoint records) →
  signs clock keys sk call r.
Proof. intros Hk Hc Hh Ht. exists endpoint, records. rewrite Hh. split; [by apply own_request_signed|done]. Qed.

Lemma keys_signs (clock : option N) (keys : UserKeysFile) (sk : bytes) (call : DroidCall) (r : AuthRequest)
    (endpoint : bytes) (records : list TlvRecord) :
  keys_sign keys sk →
  droid_headers clock keys call = keys_request clock endpoint keys (Ok records) →
  (∀ auth, ra_user_id auth = uk_user_id keys → ra_device_id auth = uk_device_id keys →
      request_transcript auth r = auth_transcript auth endpoint records) →
  signs clock keys sk call r.
Proof. intros Hk Hh Ht. exists endpoint, records. rewrite Hh. split; [by apply keys_request_signed|done]. Qed.

(** The cases that need no argument: the definition of the function shows its
    endpoint and its records. *)
Ltac same_transcript := let auth := fresh in let Hu := fresh in let Hd := fresh in
  intros auth Hu Hd; cbn [request_transcript]; rewrite <- ?Hu, <- ?Hd; reflexivity.

Ltac head_of t := lazymatch t with ?f _ => head_of f | _ => t end.

Ltac own_or_keys clock keys sk Hk :=
  lazymatch goal with
  | |- signs _ _ _ ?call ?r =>
      let h := eval cbn [droid_headers] in (droid_headers clock keys call) in
      let f := head_of h in
      let b := eval cbv beta delta [f] in h in
      lazymatch b with
      | own_request _ ?field ?endpoint _ _ ?check (Ok ?records) =>
          refine (own_signs clock keys sk call r field endpoint check records Hk _ _ _);
          [reflexivity|reflexivity|same_transcript]
      | keys_request _ ?endpoint _ (Ok ?records) =>
          refine (keys_signs clock keys sk call r endpoint records Hk _ _); [reflexivity|same_transcript]
      end
  end.

(** Every function signs the records the server's transcript has. *)
Lemma droid_signed (clock : option N) (keys : UserKeysFile) (sk : bytes) (call : DroidCall) (r : AuthRequest) :
  keys_sign keys sk → droid_request keys call = Some r → droid_plain keys call → signs clock keys sk call r.
Proof.
  assert (Hok : ∀ E A (x : result E A) a, res_ok x = Some a → x = Ok a) by (intros E A [x|x] a; simpl; congruence).
  intros Hk Hr Hp. destruct call; cbn [droid_request droid_plain] in Hr, Hp;
    repeat match type of Hr with
           | context [res_ok ?x ≫= _] => let E := fresh "E" in destruct (res_ok x) eqn:E; cbn [mbind option_bind] in Hr; [|done]; apply Hok in E
           end;
    injection Hr as <-.
  all: try (own_or_keys clock keys sk Hk).
  - exists (lit "relay"). eexists. split; [|intros auth Hu Hd; reflexivity]. cbn [droid_headers]. unfold build_relay_auth_headers.
    by rewrite require_own_user, (signing_key_ok keys sk Hk), (decode_base64_range_decodes _ _ _ _ _ "message_bytes_base64" E).
  - exists (lit "contact-discovery-ticket"). eexists. split; [|intros auth Hu Hd; reflexivity]. cbn [droid_headers].
    unfold build_contact_discovery_ticket_auth_headers.
    by rewrite require_own_user, (signing_key_ok keys sk Hk), (purpose_agrees _ _ E).
  - eapply own_signs; [exact Hk|reflexivity| |].
    { cbn [droid_headers]. unfold build_contacts_upsert_auth_headers. by rewrite (fingerprint_agrees _ _ E0). }
    intros auth Hu Hd. cbn [request_transcript]. unfold contacts_upsert_auth_message. rewrite (alias_agrees _ _ E), <- Hu.
    by destruct o0.
  - unfold normalize_group_members in E. destruct (trimmed_members member_user_ids) as [m|] eqn:Em; [|done].
    apply trimmed_members_map in Em as ->. destruct (_ <? _); [done|]. apply Ok_inj in E as <-.
    by eapply keys_signs; [exact Hk|reflexivity|].
  - eapply own_signs; [exact Hk|reflexivity| |intros auth Hu Hd; reflexivity].
    cbn [droid_headers]. unfold build_group_relay_auth_headers. by rewrite (relay_recipients_agree _ _ E).
  - destruct Hp as [Ht Hl]. destruct (username_agrees _ _ Ht E0) as [Hn Hs].
    eapply keys_signs; [exact Hk|reflexivity|]. intros auth Hu Hd. cbn [request_transcript].
    unfold profile_upsert_auth_message. rewrite (display_name_agrees _ _ E), Hn, Hs. unfold flag.
    replace (negb (len username =? 0) && username_lookup_enabled) with username_lookup_enabled
      by (by destruct username_lookup_enabled, (len username =? 0)). done.
  - eapply own_signs; [exact Hk|reflexivity| |intros auth Hu Hd; reflexivity].
    cbn [droid_headers]. unfold build_presence_update_auth_headers. by rewrite (presence_agrees _ _ E).
  - destruct Hp as [H1 H2]. eapply own_signs; [exact Hk| |reflexivity|intros auth Hu Hd; reflexivity].
    by rewrite H1, bool_decide_eq_false_2.
  - destruct Hp as [H1 H2]. eapply own_signs; [exact Hk| |reflexivity|intros auth Hu Hd; reflexivity].
    by rewrite H1, bool_decide_eq_false_2.
  - destruct Hp as [H1 H2]. eapply own_signs; [exact Hk|reflexivity|reflexivity|].
    intros auth Hu Hd. cbn [request_transcript]. unfold prekeys_auth_message. by rewrite H1, H2.
  - unfold validate_push_token in E. destruct (_ || _) eqn:Et; [done|]. apply Ok_inj in E as <-. rewrite Hp in Et |- *.
    apply orb_false_iff in Et as [Et _].
    eapply own_signs; [exact Hk| |reflexivity|intros auth Hu Hd; cbn [request_transcript]; unfold push_token_auth_message; by rewrite Hu].
    by rewrite Hp, Et.
Qed.
End AndroidRequests.

(** ** The server reads them back *)

(** The headers of a request as the app sends them. *)
Definition header_map (h : RequestAuthHeaders) : HeaderMap :=
  list_to_map [(AUTH_HEADER_USER, ah_user h); (AUTH_HEADER_DEVICE, ah_device h);
               (AUTH_HEADER_TIMESTAMP, ah_timestamp h); (AUTH_HEADER_NONCE, ah_nonce h);
               (AUTH_HEADER_SIGNATURE, ah_signature h)].

Lemma signed_request_run `{P : Primitives} `{V : Ed25519} `{B : Base64} (secs : N) (endpoint sk user dev nonce m : bytes)
    (records : list TlvRecord) (g g' : rng) :
  (Z.of_N secs ≤ i64_max)%Z → rng_fill 16 g = (nonce, g') →
  auth_transcript (mkAuth user dev (Z.of_N secs) (b64_encode nonce) []) endpoint records = Ok m →
  signed_request (Some secs) endpoint sk user dev (Ok records) g =
    (g', Ok (mkAuthHeaders user dev (i64_to_string (Z.of_N secs)) (b64_encode nonce) (b64_encode (ed_sign sk m)))).
Proof.
  intros Hs Hg Hm. unfold signed_request, auth_timestamp, auth_nonce, sm_bind, sm_lift. cbn [ok_or].
  rewrite (proj2 (Z.leb_le _ _) Hs), Hg. unfold auth_transcript in Hm.
  change (auth_common_records endpoint user dev (Z.of_N secs) (b64_encode nonce)) with
    (RequestAuth.auth_common_records (mkAuth user dev (Z.of_N secs) (b64_encode nonce) []) endpoint).
  destruct (encode _) as [m'|]; [|done]. injection Hm as <-. done.
Qed.

(** What the Android client signs, the server verifies, at each of its 32
    authenticated endpoints. Take the key file of an active device whose clock
    agrees with the server's up to the tolerated skew. If the server, after its
    own decoding and normalisation, would read the request as [r], and the
    transcript of [r] fits its encoding, then the client builds headers, the
    server parses them, rebuilds the very transcript that was signed and accepts
    the signature, provided the nonce is fresh. *)
Theorem android_request_verified (P : Primitives) (PL : PrimitiveLaws P) (V : Ed25519) (VL : Ed25519Laws V)
    (B : Base64) (BL : Base64Laws B) (I : HashIter) (s : AppState) (row : UserRow) (device : DeviceRow)
    (keys : UserKeysFile) (sk m : bytes) (secs : N) (call : DroidCall) (r : AuthRequest) (g : rng) :
  let user := uk_user_id keys in
  let dev := uk_device_id keys in
  let auth0 := mkAuth user dev (Z.of_N secs) (b64_encode (rng_fill 16 g).1) [] in
  users (st_db s) !! user = Some row → keys_sign keys sk → ed_pair (u_identity_sig_pub row) sk →
  user_devices (st_db s) !! (user, dev) = Some device → d_active device = true →
  header_text user → header_text dev → (Z.of_N secs ≤ i64_max)%Z →
  skew_ok (st_utc s) (Z.of_N secs) = true →
  (observe user (ra_nonce auth0) (st_instant s) (st_auth_replay s)).2 = true →
  droid_request keys call = Some r → droid_plain keys call → request_transcript auth0 r = Ok m →
  ∃ headers auth, droid_headers (Some secs) keys call g = ((rng_fill 16 g).2, Ok headers) ∧
    parse_request_auth (header_map headers) = Ok auth ∧ ra_user_id auth = user ∧ ra_device_id auth = dev ∧
    request_transcript auth r = Ok m ∧ (verify_request_auth auth m s).2 = Ok tt.
Proof.
  intros user dev auth0 Hrow Hks Hpair Hdev Hact Hu Hd Hs Hskew Hfresh Hr Hp Hm.
  destruct (droid_signed (Some secs) keys sk call r Hks Hr Hp) as (ep & recs & -> & Ht).
  rewrite Ht in Hm by done. destruct (rng_fill 16 g) as [nonce g'] eqn:Eg. simpl in auth0, Hfresh |- *.
  set (auth := mkAuth user dev (Z.of_N secs) (b64_encode nonce) (ed_sign sk m)).
  eexists _, auth. split; [by apply (signed_request_run secs ep sk user dev nonce m recs g)|].
  split; [|split_and!; [done..|by rewrite Ht by done|by apply (signature_accepted s row device)]].
  apply parse_signed_headers; [done..| |apply ed_sign_length].
  pose proof (rng_fill_length 16 g) as Hl. by rewrite Eg in Hl.
Qed.

Definition toy_keys : UserKeysFile :=
  mkKeys 1 (lit "alice") (lit "d1") SuiteMlKem768 (b64_encode (toy_key 102)) (b64_encode (toy_key 102))
    (b64_encode (toy_key 101)) (b64_encode (toy_key 101)) [] [] [] [] [] [] [] [].

Definition toy_droid_call : DroidCall :=
  DroidContactsUpsert (lit "bob") (lit " Bobby ") true
    (Some (lit "00112233445566778899AABBCCDDEEFF00112233445566778899aabbccddeeff")).

Definition toy_droid_request : AuthRequest :=
  ReqContactsUpsert (lit "alice") (lit "bob") (Some (lit "Bobby")) true
    (Some (lit "00112233445566778899aabbccddeeff00112233445566778899aabbccddeeff")).

Definition toy_droid_transcript : app bytes :=
  request_transcript (mkAuth (lit "alice") (lit "d1") 1000 (b64_encode (@rng_fill Toy 16 5).1) []) toy_droid_request.

Lemma android_request_verified_witness :
  ∃ m headers auth, droid_headers (Some 1000) toy_keys toy_droid_call 5 = ((@rng_fill Toy 16 5).2, Ok headers) ∧
    parse_request_auth (header_map headers) = Ok auth ∧ ra_user_id auth = lit "alice" ∧ ra_device_id auth = lit "d1" ∧
    request_transcript auth toy_droid_request = Ok m ∧
    (verify_request_auth auth m (toy_state (1000 * NANOS) 0 toy_db)).2 = Ok tt.
Proof.
  assert (Hok : is_ok toy_droid_transcript = true) by (vm_compute; reflexivity).
  exists (ok_val toy_droid_transcript Hok).
  apply (android_request_verified Toy ToyLaws ToyEd ToyEdLaws ToyBase64 ToyBase64Laws MapOrder
           (toy_state (1000 * NANOS) 0 toy_db) (toy_user 101) (mkDevice true 10 None) toy_keys
           (toy_key 101) _ 1000 toy_droid_call toy_droid_request 5).
  - vm_compute. reflexivity.
  - split; vm_compute; reflexivity.
  - split; vm_compute; reflexivity.
  - vm_compute. reflexivity.
  - reflexivity.
  - split; [|split; [|split]]; vm_compute; first [reflexivity|discriminate].
  - split; [|split; [|split]]; vm_compute; first [reflexivity|discriminate].
  - vm_compute. discriminate.
  - vm_compute. reflexivity.
  - vm_compute. reflexivity.
  - vm_compute. reflexivity.
  - exact Logic.I.
  - exact (ok_val_spec toy_droid_transcript Hok).
Defined.
