(* ===== verification/AndroidKeys.v ===== *)
(** * Keys of the Android client ([pqmsg-android/src/lib.rs])

    Generation of a key file, its prekeys, the payloads of registration,
    publication and rotation, a second device, and the bundle of a peer. The
    backends of ML-KEM and ML-DSA are parameters. *)

From Stdlib Require Import Strings.Byte.
From S2P Require Import Prelude Bytes Errors Tlv Crypto Toy Alg Keys Handshake PqSig SafetyNumber Storage ServerError Validation RequestAuth ServerFrame PrekeyServer ClientAuth Android AndroidAuth.
Local Open Scope N_scope.

Definition MAX_ONE_TIME_PREKEYS : N := 256.
Definition SECONDARY_DEVICE_PACKAGE_VERSION : N := 1.

Record ServerBundle := mkServerBundle {
  sb_user_id : bytes;
  sb_identity_x25519_pub : bytes;
  sb_identity_sig_pub : bytes;
  sb_identity_pq_sig_pub : bytes;
  sb_signed_prekey_x25519_pub : bytes;
  sb_sig_over_spk : bytes;
  sb_pq_signed_prekey_pub_mlkem768 : bytes;
  sb_sig_over_pqspk : bytes;
  sb_pq_sig_over_spk : bytes;
  sb_pq_sig_over_pqspk : bytes;
  sb_one_time_prekey_x25519 : option bytes;
  sb_one_time_prekey_mlkem768 : option bytes;
}.

Record SecondaryDeviceOnboardingPayload := mkOnboarding {
  so_version : N;
  so_server_url : bytes;
  so_keys_json : bytes;
  so_exported_at_unix : Z;
}.

Record SecondaryDeviceOnboardingPackage := mkPackage {
  sp_server_url : bytes;
  sp_user_id : bytes;
  sp_device_id : bytes;
  sp_suite : Suite;
  sp_exported_at_unix : Z;
  sp_keys_json : bytes;
}.

Definition suite_to_kem_algorithm (suite : Suite) : KemAlgorithm :=
  match suite with SuiteMlKem768 => MlKem768 | SuiteKyber768 => Kyber768Alias end.

Definition suite_from_suite_id (suite_id : N) : droid Suite :=
  if suite_id =? SUITE_ID_MLKEM768_X25519_HKDF_SHA256_CHACHA20POLY1305 then Ok SuiteMlKem768
  else if suite_id =? SUITE_ID_KYBER768_X25519_HKDF_SHA256_CHACHA20POLY1305 then Ok SuiteKyber768
  else Err (operation_failed (lit "unsupported suite_id '" ++ decimal suite_id ++ lit "'")).

Definition suite_id_for_user_keys (suite : Suite) : N :=
  match suite with
  | SuiteMlKem768 => SUITE_ID_MLKEM768_X25519_HKDF_SHA256_CHACHA20POLY1305
  | SuiteKyber768 => SUITE_ID_KYBER768_X25519_HKDF_SHA256_CHACHA20POLY1305
  end.

Definition core_suite (suite : Suite) : AlgorithmSuite :=
  {| suite_kem := suite_to_kem_algorithm suite;
     suite_dh := suite_dh AlgorithmSuite_default;
     suite_kdf := suite_kdf AlgorithmSuite_default;
     suite_aead := suite_aead AlgorithmSuite_default;
     suite_signature := suite_signature AlgorithmSuite_default |}.

Definition suite_id_from_suite (suite : Suite) : droid N := core (suite_id (core_suite suite)).

Section Verifier.
Context `{V : Ed25519}.

(** [Ed25519SignatureVerifier]. *)
Definition Ed25519SignatureVerifier : Verifier := λ public_key message signature,
  if negb (length public_key =? 32)%nat then Err (InvalidLength "signature.public_key" 32 (len public_key))
  else if negb (length signature =? 64)%nat then Err (InvalidLength "signature.signature" 64 (len signature))
  else
    let? verifier := ok_or (ed_key_from_bytes public_key) SignatureVerificationFailed in
    let? signature := ok_or (ed_sig_from_slice signature) SignatureVerificationFailed in
    if ed_verify verifier message signature then Ok tt else Err SignatureVerificationFailed.
End Verifier.

Section AndroidKeys.
Context `{P : Primitives} `{V : Ed25519} `{B : Base64}.
Context (MlKem768_new : KemAlgorithm → option KemProvider) (MlDsa65_new : option PqSignatureProvider).
Context (clock : option N).
Local Open Scope sm_scope.

(** A computation of the core with the random source. *)
Definition droid_core {A} (c : rng → res A * rng) : Droid A := λ g, let '(r, g) := c g in (g, core r).
Definition droid_rng {A} (c : rng → A * rng) : Droid A := λ g, let '(a, g) := c g in (g, Ok a).

Definition build_kem_for_suite (suite : Suite) : droid KemProvider :=
  ok_or (MlKem768_new (suite_to_kem_algorithm suite)) (operation_failed (lit "post-quantum backend is disabled")).

Definition build_pq_signature_provider : droid PqSignatureProvider :=
  ok_or MlDsa65_new (operation_failed (lit "pq signature backend is disabled")).

(** [SigningKey::generate]: 32 octets. *)
Definition generate_signing_key : Droid bytes := droid_rng (rng_fill 32).

Definition build_signature_payload (signing_key message : bytes) : bytes := b64_encode (ed_sign signing_key message).

Definition build_pq_signature_payload (secret_key message : bytes) : Droid bytes :=
  provider <- sm_lift build_pq_signature_provider;;
  signature <- droid_core (pqs_sign provider secret_key message);;
  sm_ret (b64_encode signature).

(** The loop that makes [n] one-time keys of each kind, from [idx] on. *)
Fixpoint one_time_loop (kem : KemProvider) (name_x name_pq : N → bytes) (idx : N) (n : nat)
    : Droid (list OneTimeKeyRecord * list OneTimeKeyRecord) :=
  match n with
  | O => sm_ret ([], [])
  | S n =>
      key <- droid_rng (OneTimePreKey_generate (name_x idx));;
      pq_key <- droid_core (kem_keypair kem);;
      rest <- one_time_loop kem name_x name_pq (idx + 1) n;;
      sm_ret (mkOneTimeKey (otpk_key_id key) (b64_encode (otpk_public_key key)) (b64_encode (otpk_secret_key key))
                :: rest.1,
              mkOneTimeKey (name_pq idx) (b64_encode (kem_public_key pq_key)) (b64_encode (kem_secret_key pq_key))
                :: rest.2)
  end.

Definition count_check (one_time_count : N) : droid unit :=
  if (one_time_count =? 0) || (MAX_ONE_TIME_PREKEYS <? one_time_count)
  then Err (invalid_input (lit "one_time_count must be in 1..=" ++ decimal MAX_ONE_TIME_PREKEYS))
  else Ok tt.

Definition refresh_one_time_prekeys (keys : UserKeysFile) (one_time_count : N) : Droid UserKeysFile :=
  sm_lift (count_check one_time_count);;;
  kem <- sm_lift (build_kem_for_suite (uk_suite keys));;
  timestamp <- sm_lift (auth_timestamp clock);;
  let name (kind : bytes) (idx : N) := uk_user_id keys ++ kind ++ i64_to_string timestamp ++ lit "-" ++ decimal idx in
  one_time <- one_time_loop kem (name (lit "-otk-x-")) (name (lit "-otk-pq-")) 0 (N.to_nat one_time_count);;
  sm_ret (mkKeys (uk_version keys) (uk_user_id keys) (uk_device_id keys) (uk_suite keys)
    (uk_identity_x25519_pub_b64 keys) (uk_identity_x25519_secret_b64 keys)
    (uk_identity_sig_pub_b64 keys) (uk_identity_sig_secret_b64 keys)
    (uk_identity_pq_sig_pub_b64 keys) (uk_identity_pq_sig_secret_b64 keys)
    (uk_signed_prekey_x25519_pub_b64 keys) (uk_signed_prekey_x25519_secret_b64 keys)
    (uk_pq_signed_prekey_pub_b64 keys) (uk_pq_signed_prekey_secret_b64 keys) one_time.1 one_time.2).

Definition generate_identity_keys (user_id device_id : bytes) (suite : Suite) (one_time_count : N) : Droid UserKeysFile :=
  sm_lift (if len (str_trim user_id) =? 0 then Err (invalid_input (lit "user_id must not be empty")) else Ok tt);;;
  sm_lift (if len (str_trim device_id) =? 0 then Err (invalid_input (lit "device_id must not be empty")) else Ok tt);;;
  sm_lift (count_check one_time_count);;;
  identity <- droid_rng (IdentityKeyPair_generate (user_id ++ lit "-ik"));;
  signed_prekey <- droid_rng (OneTimePreKey_generate (user_id ++ lit "-spk"));;
  identity_sig <- generate_signing_key;;
  provider <- sm_lift build_pq_signature_provider;;
  pq_identity_sig <- droid_core (pqs_keypair provider);;
  kem <- sm_lift (build_kem_for_suite suite);;
  pq_signed_prekey <- droid_core (kem_keypair kem);;
  one_time <- one_time_loop kem (λ idx, user_id ++ lit "-otk-x-" ++ decimal idx)
                (λ idx, user_id ++ lit "-otk-pq-" ++ decimal idx) 0 (N.to_nat one_time_count);;
  sm_ret (mkKeys 1 user_id device_id suite
    (b64_encode (ik_public_key identity)) (b64_encode (ik_secret_key identity))
    (b64_encode (ed_public identity_sig)) (b64_encode identity_sig)
    (b64_encode (pqs_public_key pq_identity_sig)) (b64_encode (pqs_secret_key pq_identity_sig))
    (b64_encode (otpk_public_key signed_prekey)) (b64_encode (otpk_secret_key signed_prekey))
    (b64_encode (kem_public_key pq_signed_prekey)) (b64_encode (kem_secret_key pq_signed_prekey))
    one_time.1 one_time.2).

Definition verify_identity_sig_keypair (keys : UserKeysFile) : droid bool :=
  let? signing := decode_signing_key_b64 "identity_sig_secret_b64" (uk_identity_sig_secret_b64 keys) in
  Ok (bool_decide (b64_encode (ed_public signing) = uk_identity_sig_pub_b64 keys)).

(** The check of two functions that use the signing key. *)
Definition require_sig_pair (signing_key : bytes) (keys : UserKeysFile) : droid unit :=
  if negb (bool_decide (b64_encode (ed_public signing_key) = uk_identity_sig_pub_b64 keys))
  then Err (invalid_input (lit "identity_sig_pub_b64 does not match identity_sig_secret_b64")) else Ok tt.

Definition rebind_keys_to_new_device (keys : UserKeysFile) (new_device_id : bytes) (one_time_count : N)
    : Droid UserKeysFile :=
  let normalized_device_id := str_trim new_device_id in
  sm_lift (if len normalized_device_id =? 0 then Err (invalid_input (lit "new_device_id must not be empty"))
           else if bool_decide (normalized_device_id = uk_device_id keys)
           then Err (invalid_input (lit "new_device_id must differ from the current device_id")) else Ok tt);;;
  signing_key <- sm_lift (decode_signing_key_b64 "identity_sig_secret_b64" (uk_identity_sig_secret_b64 keys));;
  sm_lift (require_sig_pair signing_key keys);;;
  timestamp <- sm_lift (auth_timestamp clock);;
  signed_prekey <- droid_rng (OneTimePreKey_generate (uk_user_id keys ++ lit "-spk-" ++ i64_to_string timestamp));;
  kem <- sm_lift (build_kem_for_suite (uk_suite keys));;
  pq_signed_prekey <- droid_core (kem_keypair kem);;
  refresh_one_time_prekeys
    (mkKeys (uk_version keys) (uk_user_id keys) normalized_device_id (uk_suite keys)
       (uk_identity_x25519_pub_b64 keys) (uk_identity_x25519_secret_b64 keys)
       (uk_identity_sig_pub_b64 keys) (uk_identity_sig_secret_b64 keys)
       (uk_identity_pq_sig_pub_b64 keys) (uk_identity_pq_sig_secret_b64 keys)
       (b64_encode (otpk_public_key signed_prekey)) (b64_encode (otpk_secret_key signed_prekey))
       (b64_encode (kem_public_key pq_signed_prekey)) (b64_encode (kem_secret_key pq_signed_prekey))
       (uk_one_time_prekeys_x25519 keys) (uk_one_time_prekeys_mlkem768 keys)) one_time_count.

Definition replenish_one_time_prekeys (keys : UserKeysFile) (one_time_count : N) : Droid UserKeysFile :=
  refresh_one_time_prekeys keys one_time_count.

Definition load_user_profile (keys : UserKeysFile) : UserProfile :=
  mkProfile (uk_user_id keys) (uk_device_id keys) (uk_suite keys).

(** ** Payloads *)

Definition build_register_payload (keys : UserKeysFile) : RegisterPayload :=
  mkRegisterPayload (uk_user_id keys) (uk_identity_x25519_pub_b64 keys) (uk_identity_sig_pub_b64 keys)
    (uk_identity_pq_sig_pub_b64 keys) (uk_device_id keys).

Definition build_publish_prekeys_payload (keys : UserKeysFile) : Droid PublishPrekeysRequest :=
  spk_pub <- sm_lift (decode_b64_32 "signed_prekey_x25519_pub_b64" (uk_signed_prekey_x25519_pub_b64 keys));;
  pq_spk_pub <- sm_lift (decode_b64 "pq_signed_prekey_pub_b64" (uk_pq_signed_prekey_pub_b64 keys));;
  signing_key <- sm_lift (decode_signing_key_b64 "identity_sig_secret_b64" (uk_identity_sig_secret_b64 keys));;
  pq_sig_secret_key <- sm_lift (decode_b64 "identity_pq_sig_secret_b64" (uk_identity_pq_sig_secret_b64 keys));;
  sm_lift (require_sig_pair signing_key keys);;;
  spk_msg <- sm_lift (core (signed_prekey_signature_message 1 spk_pub));;
  pq_msg <- sm_lift (core (pq_signed_prekey_signature_message 1 pq_spk_pub));;
  pq_sig_over_spk <- build_pq_signature_payload pq_sig_secret_key spk_msg;;
  pq_sig_over_pqspk <- build_pq_signature_payload pq_sig_secret_key pq_msg;;
  sm_ret {| pp_signed_prekey_x25519_pub := uk_signed_prekey_x25519_pub_b64 keys;
            pp_sig_over_spk := build_signature_payload signing_key spk_msg;
            pp_pq_signed_prekey_pub_mlkem768 := uk_pq_signed_prekey_pub_b64 keys;
            pp_sig_over_pqspk := build_signature_payload signing_key pq_msg;
            pp_pq_sig_over_spk := pq_sig_over_spk;
            pp_pq_sig_over_pqspk := pq_sig_over_pqspk;
            pp_one_time_prekeys_x25519 := map ok_public_b64 (uk_one_time_prekeys_x25519 keys);
            pp_one_time_prekeys_mlkem768 := map ok_public_b64 (uk_one_time_prekeys_mlkem768 keys) |}.

Definition build_rotate_init_payload (keys : UserKeysFile) : RotateInitRequest :=
  {| ri_new_identity_x25519_pub := uk_identity_x25519_pub_b64 keys;
     ri_new_identity_sig_pub := uk_identity_sig_pub_b64 keys;
     ri_new_identity_pq_sig_pub := uk_identity_pq_sig_pub_b64 keys;
     ri_new_device_id := uk_device_id keys |}.

Definition rotation_message (user_id challenge_id challenge_nonce new_identity_x25519 new_identity_sig
    new_identity_pq_sig new_device_id : bytes) : droid bytes :=
  map_err (encode
    [mkTlv ROTATE_SIG_TAG_USER_ID user_id;
     mkTlv ROTATE_SIG_TAG_CHALLENGE_ID challenge_id;
     mkTlv ROTATE_SIG_TAG_CHALLENGE_NONCE challenge_nonce;
     mkTlv ROTATE_SIG_TAG_NEW_IDENTITY_X25519 new_identity_x25519;
     mkTlv ROTATE_SIG_TAG_NEW_IDENTITY_SIG new_identity_sig;
     mkTlv ROTATE_SIG_TAG_NEW_IDENTITY_PQ_SIG new_identity_pq_sig;
     mkTlv ROTATE_SIG_TAG_NEW_DEVICE_ID new_device_id])
    (operation_failed (lit "failed to encode rotation signature transcript")).

Definition keys_user_check (which : string) (user_id : bytes) (keys : UserKeysFile) : droid unit :=
  if bool_decide (uk_user_id keys = user_id) then Ok tt
  else Err (invalid_input (lit "user_id '" ++ user_id ++ lit "' does not match " ++ lit which ++ lit " keys user '"
                           ++ uk_user_id keys ++ lit "'")).

Definition build_rotate_confirm_payload (current_keys new_keys : UserKeysFile)
    (user_id challenge_id challenge_nonce_base64 : bytes) : Droid RotateConfirmRequest :=
  sm_lift (keys_user_check "current" user_id current_keys);;;
  sm_lift (keys_user_check "new" user_id new_keys);;;
  current_signing_key <- sm_lift (auth_signing_key_for_user current_keys);;
  new_signing_key <- sm_lift (auth_signing_key_for_user new_keys);;
  current_pq_signing_key <- sm_lift (decode_b64 "identity_pq_sig_secret_b64" (uk_identity_pq_sig_secret_b64 current_keys));;
  new_pq_signing_key <- sm_lift (decode_b64 "identity_pq_sig_secret_b64" (uk_identity_pq_sig_secret_b64 new_keys));;
  challenge_nonce <- sm_lift (decode_b64 "challenge_nonce_base64" challenge_nonce_base64);;
  new_identity_x25519 <- sm_lift (decode_b64 "identity_x25519_pub_b64" (uk_identity_x25519_pub_b64 new_keys));;
  new_identity_sig <- sm_lift (decode_b64 "identity_sig_pub_b64" (uk_identity_sig_pub_b64 new_keys));;
  new_identity_pq_sig <- sm_lift (decode_b64 "identity_pq_sig_pub_b64" (uk_identity_pq_sig_pub_b64 new_keys));;
  message <- sm_lift (rotation_message user_id challenge_id challenge_nonce new_identity_x25519 new_identity_sig
                        new_identity_pq_sig (uk_device_id new_keys));;
  pq_sig_by_current <- build_pq_signature_payload current_pq_signing_key message;;
  pq_sig_by_new <- build_pq_signature_payload new_pq_signing_key message;;
  sm_ret {| rc_challenge_id := challenge_id;
            rc_sig_by_current_identity := b64_encode (ed_sign current_signing_key message);
            rc_sig_by_new_identity := b64_encode (ed_sign new_signing_key message);
            rc_pq_sig_by_current_identity := pq_sig_by_current;
            rc_pq_sig_by_new_identity := pq_sig_by_new |}.

(** ** Keys for the core *)

Definition to_identity_keypair (keys : UserKeysFile) : droid IdentityKeyPair :=
  let? pub := decode_b64_32 "identity_x25519_pub_b64" (uk_identity_x25519_pub_b64 keys) in
  let? sec := decode_b64 "identity_x25519_secret_b64" (uk_identity_x25519_secret_b64 keys) in
  let? pq_pub := decode_b64 "identity_pq_sig_pub_b64" (uk_identity_pq_sig_pub_b64 keys) in
  let? pq_sec := decode_b64 "identity_pq_sig_secret_b64" (uk_identity_pq_sig_secret_b64 keys) in
  Ok {| ik_key_id := uk_user_id keys ++ lit "-ik"; ik_public_key := pub; ik_secret_key := sec;
        ik_pq_sig_public_key := Some pq_pub; ik_pq_sig_secret_key := Some pq_sec |}.

Definition to_signed_prekey (keys : UserKeysFile) : droid OneTimePreKey :=
  let? pub := decode_b64_32 "signed_prekey_x25519_pub_b64" (uk_signed_prekey_x25519_pub_b64 keys) in
  let? sec := decode_b64 "signed_prekey_x25519_secret_b64" (uk_signed_prekey_x25519_secret_b64 keys) in
  Ok {| otpk_key_id := uk_user_id keys ++ lit "-spk"; otpk_public_key := pub; otpk_secret_key := sec |}.

Definition to_pq_signed_prekey (keys : UserKeysFile) : droid KEMPreKey :=
  let? pub := decode_b64 "pq_signed_prekey_pub_b64" (uk_pq_signed_prekey_pub_b64 keys) in
  let? sec := decode_b64 "pq_signed_prekey_secret_b64" (uk_pq_signed_prekey_secret_b64 keys) in
  Ok {| kpk_key_id := uk_user_id keys ++ lit "-pqspk"; kpk_public_key := pub; kpk_secret_key := sec |}.

(** What [parse_bundle_json] reads of the server's bundle. *)
Definition parse_bundle_json (bundle : BundleResponse) : ServerBundle :=
  mkServerBundle (bu_user_id bundle) (bu_identity_x25519_pub bundle) (bu_identity_sig_pub bundle)
    (bu_identity_pq_sig_pub bundle) (bu_signed_prekey_x25519_pub bundle) (bu_sig_over_spk bundle)
    (bu_pq_signed_prekey_pub_mlkem768 bundle) (bu_sig_over_pqspk bundle) (bu_pq_sig_over_spk bundle)
    (bu_pq_sig_over_pqspk bundle) (bu_one_time_prekey_x25519 bundle) (bu_one_time_prekey_mlkem768 bundle).

Definition bundle_to_core (bundle : ServerBundle) (suite : Suite) : droid PreKeyBundle :=
  let? identity := decode_b64_32 "identity_x25519_pub" (sb_identity_x25519_pub bundle) in
  let? spk := decode_b64_32 "signed_prekey_x25519_pub" (sb_signed_prekey_x25519_pub bundle) in
  let? pqspk := decode_b64 "pq_signed_prekey_pub_mlkem768" (sb_pq_signed_prekey_pub_mlkem768 bundle) in
  let? sig_spk := decode_b64 "sig_over_spk" (sb_sig_over_spk bundle) in
  let? sig_pqspk := decode_b64 "sig_over_pqspk" (sb_sig_over_pqspk bundle) in
  let? sig_pub := decode_b64 "identity_sig_pub" (sb_identity_sig_pub bundle) in
  let? pq_pub := decode_b64 "identity_pq_sig_pub" (sb_identity_pq_sig_pub bundle) in
  let? pq_sig_spk := decode_b64 "pq_sig_over_spk" (sb_pq_sig_over_spk bundle) in
  let? pq_sig_pqspk := decode_b64 "pq_sig_over_pqspk" (sb_pq_sig_over_pqspk bundle) in
  let? otk := opt_droid (decode_b64_32 "one_time_prekey_x25519") (sb_one_time_prekey_x25519 bundle) in
  let? pq_otk := opt_droid (decode_b64 "one_time_prekey_mlkem768") (sb_one_time_prekey_mlkem768 bundle) in
  Ok {| pb_protocol_version := PROTOCOL_VERSION_V1;
        pb_suite := core_suite suite;
        pb_owner_id := sb_user_id bundle;
        pb_identity_key := identity;
        pb_signed_prekey := spk;
        pb_pq_signed_prekey := pqspk;
        pb_spk_signature := sig_spk;
        pb_pqspk_signature := sig_pqspk;
        pb_signature_public_key := sig_pub;
        pb_one_time_prekey := otk;
        pb_one_time_pq_prekey := pq_otk;
        pb_pq_sig_public_key := Some pq_pub;
        pb_pq_spk_signature := Some pq_sig_spk;
        pb_pq_pqspk_signature := Some pq_sig_pqspk |}.

Definition compute_safety_number_with_peer (keys : UserKeysFile)
    (peer_user_id peer_identity_x25519_pub_b64 peer_identity_pq_sig_pub_b64 : bytes) : droid bytes :=
  let? local_identity_x25519 := decode_b64_32 "identity_x25519_pub_b64" (uk_identity_x25519_pub_b64 keys) in
  let? peer_identity_x25519 := decode_b64_32 "peer_identity_x25519_pub_b64" peer_identity_x25519_pub_b64 in
  let? local_identity_pq_sig := decode_b64 "identity_pq_sig_pub_b64" (uk_identity_pq_sig_pub_b64 keys) in
  let? peer_identity_pq_sig := decode_b64 "peer_identity_pq_sig_pub_b64" peer_identity_pq_sig_pub_b64 in
  Ok (compute_safety_number (mkParty (uk_user_id keys) local_identity_x25519 local_identity_pq_sig)
        (mkParty peer_user_id peer_identity_x25519 peer_identity_pq_sig)).
End AndroidKeys.

(** ** Trimming twice *)

Definition starts_ws (l : bytes) : bool :=
  match l with b0 :: _ => ws1 b0 | [] => false end
  || match l with b0 :: b1 :: _ => ws2 b0 b1 | _ => false end
  || match l with b0 :: b1 :: b2 :: _ => ws3 b0 b1 b2 | _ => false end.

(** The same on reversed octets. *)
Definition ends_ws_rev (l : bytes) : bool :=
  match l with b0 :: _ => ws1 b0 | [] => false end
  || match l with b0 :: b1 :: _ => ws2 b1 b0 | _ => false end
  || match l with b0 :: b1 :: b2 :: _ => ws3 b2 b1 b0 | _ => false end.

Lemma trim_start_same (l : bytes) : starts_ws l = false → trim_start l = l.
Proof.
  unfold starts_ws. destruct l as [|a [|b [|c l]]]; cbn [trim_start]; intros H; try done;
    apply orb_false_iff in H as [[H1 H2]%orb_false_iff H3]; by rewrite H1, ?H2, ?H3.
Qed.

Lemma trim_end_same (l : bytes) : ends_ws_rev l = false → trim_end_rev l = l.
Proof.
  unfold ends_ws_rev. destruct l as [|a [|b [|c l]]]; cbn [trim_end_rev]; intros H; try done;
    apply orb_false_iff in H as [[H1 H2]%orb_false_iff H3]; by rewrite H1, ?H2, ?H3.
Qed.

Lemma trim_start_no_ws (l : bytes) : starts_ws (trim_start l) = false.
Proof.
  induction l as [l IH] using length_ind. destruct l as [|a l]; [done|]. cbn [trim_start].
  destruct (ws1 a) eqn:E1; [apply IH; simpl; lia|]. destruct l as [|b l]; [unfold starts_ws; by rewrite E1|].
  destruct (ws2 a b) eqn:E2; [apply IH; simpl; lia|]. destruct l as [|c l]; [unfold starts_ws; by rewrite E1, E2|].
  destruct (ws3 a b c) eqn:E3; [apply IH; simpl; lia|]. unfold starts_ws. by rewrite E1, E2, E3.
Qed.

Lemma trim_end_no_ws (l : bytes) : ends_ws_rev (trim_end_rev l) = false ∧ ∃ k, l = k ++ trim_end_rev l.
Proof.
  induction l as [l IH] using length_ind. destruct l as [|a l]; [split; [done|by exists []]|]. cbn [trim_end_rev].
  destruct (ws1 a) eqn:E1.
  { destruct (IH l ltac:(simpl; lia)) as (H & k & Hk). split; [done|]. exists (a :: k). simpl. by rewrite <- Hk. }
  destruct l as [|b l]; [split; [unfold ends_ws_rev; by rewrite E1|by exists []]|]. destruct (ws2 b a) eqn:E2.
  { destruct (IH l ltac:(simpl; lia)) as (H & k & Hk). split; [done|]. exists (a :: b :: k). simpl. by rewrite <- Hk. }
  destruct l as [|c l]; [split; [unfold ends_ws_rev; by rewrite E1, E2|by exists []]|]. destruct (ws3 c b a) eqn:E3.
  { destruct (IH l ltac:(simpl; lia)) as (H & k & Hk). split; [done|]. exists (a :: b :: c :: k). simpl. by rewrite <- Hk. }
  split; [unfold ends_ws_rev; by rewrite E1, E2, E3|by exists []].
Qed.

Lemma starts_ws_prefix (a b : bytes) : starts_ws (a ++ b) = false → starts_ws a = false.
Proof.
  unfold starts_ws. destruct a as [|x [|y [|z a]]]; cbn [Datatypes.app]; intros H; try done;
    apply orb_false_iff in H as [[H1 H2]%orb_false_iff H3]; by rewrite H1, ?H2, ?H3.
Qed.

Lemma str_trim_idem (l : bytes) : str_trim (str_trim l) = str_trim l.
Proof.
  unfold str_trim. set (m := trim_start l). destruct (trim_end_no_ws (rev m)) as (He & k & Hk).
  set (t := trim_end_rev (rev m)) in *. rewrite trim_start_same.
  - by rewrite rev_involutive, trim_end_same.
  - apply (starts_ws_prefix _ (rev k)). rewrite <- rev_app_distr, <- Hk, rev_involutive. apply trim_start_no_ws.
Qed.

(** ** A second device *)

Section Onboarding.
Context `{P : Primitives} `{V : Ed25519} `{B : Base64} `{C : !StorageCrypto}.
Context (MlKem768_new : KemAlgorithm → option KemProvider) (clock : option N).
Local Open Scope sm_scope.

(** [serde_json] on the two documents; an error is its text. *)
Context (keys_to_json : UserKeysFile → bytes) (keys_from_json : bytes → result bytes UserKeysFile).
Context (payload_to_json : SecondaryDeviceOnboardingPayload → bytes)
  (payload_from_json : bytes → result bytes SecondaryDeviceOnboardingPayload).

Definition json_err {A} (r : result bytes A) : droid A := match r with Ok a => Ok a | Err e => Err (invalid_input e) end.

Definition prepare_secondary_device_package (keys : UserKeysFile) (new_device_id server_url : bytes)
    (one_time_count : N) (package_passphrase : bytes) : Droid WrappedSecret :=
  rebound <- rebind_keys_to_new_device MlKem768_new clock keys new_device_id one_time_count;;
  let normalized_server_url := str_trim server_url in
  sm_lift (if len normalized_server_url =? 0 then Err (invalid_input (lit "server_url must not be empty")) else Ok tt);;;
  sm_lift (if len (str_trim package_passphrase) =? 0
           then Err (invalid_input (lit "package_passphrase must not be empty")) else Ok tt);;;
  exported_at_unix <- sm_lift (auth_timestamp clock);;
  let payload := mkOnboarding SECONDARY_DEVICE_PACKAGE_VERSION normalized_server_url (keys_to_json rebound)
                   exported_at_unix in
  droid_core (wrap_bytes package_passphrase (payload_to_json payload)).

Definition open_secondary_device_package (wrapped : WrappedSecret) (package_passphrase : bytes)
    : droid SecondaryDeviceOnboardingPackage :=
  if len (str_trim package_passphrase) =? 0 then Err (invalid_input (lit "package_passphrase must not be empty"))
  else
    let? plaintext := core (unwrap_bytes package_passphrase wrapped) in
    let? payload := json_err (payload_from_json plaintext) in
    if negb (so_version payload =? SECONDARY_DEVICE_PACKAGE_VERSION)
    then Err (invalid_input (lit "unsupported onboarding package version '" ++ decimal (so_version payload) ++ lit "'"))
    else
      let normalized_server_url := str_trim (so_server_url payload) in
      if len normalized_server_url =? 0
      then Err (invalid_input (lit "onboarding package server_url must not be empty"))
      else
        let? keys := json_err (keys_from_json (so_keys_json payload)) in
        Ok (mkPackage normalized_server_url (uk_user_id keys) (uk_device_id keys) (uk_suite keys)
              (so_exported_at_unix payload) (so_keys_json payload)).
End Onboarding.

(** ** Runs of the client's computations *)

Lemma sm_lift_ok {S E A} (r : result E A) (s s' : S) (a : A) : sm_lift r s = (s', Ok a) → s' = s ∧ r = Ok a.
Proof. by intros [= <- ->]. Qed.

Lemma droid_rng_ok `{P : Primitives} {A} (c : rng → A * rng) (g g' : rng) (a : A) :
  droid_rng c g = (g', Ok a) → c g = (a, g').
Proof. unfold droid_rng. destruct (c g). by intros [= <- <-]. Qed.

Lemma droid_core_ok `{P : Primitives} {A} (c : rng → res A * rng) (g g' : rng) (a : A) :
  droid_core c g = (g', Ok a) → c g = (Ok a, g').
Proof. unfold droid_core. destruct (c g) as [[x|e] g1]; [|done]. by intros [= <- <-]. Qed.

(** Takes the first step off a run that ends in a value. *)
Ltac drun H Ha :=
  let g1 := fresh "g" in let a := fresh "a" in
  apply sm_bind_ok_inv in H; destruct H as (g1 & a & Ha & H);
  lazymatch type of a with unit => destruct a | _ => idtac end;
  lazymatch type of Ha with
  | sm_lift _ _ = _ => apply sm_lift_ok in Ha; destruct Ha as [-> Ha]
  | droid_rng _ _ = _ => apply droid_rng_ok in Ha
  | droid_core _ _ = _ => apply droid_core_ok in Ha
  | _ => idtac
  end.

Section Runs.
Context `{P : Primitives} `{V : Ed25519} `{B : Base64}.
Context (MlKem768_new : KemAlgorithm → option KemProvider) (clock : option N).

(** [keys] with other prekeys, for the device [device]. *)
Definition rebound_from (keys rebound : UserKeysFile) (device : bytes) : Prop :=
  uk_version rebound = uk_version keys ∧ uk_user_id rebound = uk_user_id keys ∧ uk_device_id rebound = device ∧
  uk_suite rebound = uk_suite keys ∧
  uk_identity_x25519_pub_b64 rebound = uk_identity_x25519_pub_b64 keys ∧
  uk_identity_x25519_secret_b64 rebound = uk_identity_x25519_secret_b64 keys ∧
  uk_identity_sig_pub_b64 rebound = uk_identity_sig_pub_b64 keys ∧
  uk_identity_sig_secret_b64 rebound = uk_identity_sig_secret_b64 keys ∧
  uk_identity_pq_sig_pub_b64 rebound = uk_identity_pq_sig_pub_b64 keys ∧
  uk_identity_pq_sig_secret_b64 rebound = uk_identity_pq_sig_secret_b64 keys.

Lemma one_time_loop_length (kem : KemProvider) (nx np : N → bytes) (n : nat) : ∀ (idx : N) (g g' : rng) xs ys,
  one_time_loop kem nx np idx n g = (g', Ok (xs, ys)) → length xs = n ∧ length ys = n.
Proof.
  induction n as [|n IH]; intros idx g g' xs ys; cbn [one_time_loop]; [by intros [= _ <- <-]|].
  intros H. drun H Hk. drun H Hp. drun H Hr. destruct a1 as [xs' ys']. apply IH in Hr as [Hx Hy].
  injection H as _ <- <-. simpl. by rewrite Hx, Hy.
Qed.

Lemma refresh_ok (keys keys' : UserKeysFile) (count : N) (g g' : rng) :
  refresh_one_time_prekeys MlKem768_new clock keys count g = (g', Ok keys') →
  rebound_from keys keys' (uk_device_id keys) ∧
  N.of_nat (length (uk_one_time_prekeys_x25519 keys')) = count ∧
  N.of_nat (length (uk_one_time_prekeys_mlkem768 keys')) = count ∧
  1 ≤ count ≤ 256.
Proof.
  unfold refresh_one_time_prekeys. intros H. drun H Hc. drun H Hk. drun H Ht. drun H Ho. destruct a1 as [xs ys].
  apply one_time_loop_length in Ho as [Hx Hy]. injection H as _ <-. split; [done|]. cbn.
  unfold count_check, MAX_ONE_TIME_PREKEYS in Hc.
  destruct ((count =? 0) || (256 <? count)) eqn:Ec; [done|]. apply orb_false_iff in Ec as [?%N.eqb_neq ?%N.ltb_ge].
  lia.
Qed.

Lemma rebind_ok (keys keys' : UserKeysFile) (device : bytes) (count : N) (g g' : rng) :
  rebind_keys_to_new_device MlKem768_new clock keys device count g = (g', Ok keys') →
  rebound_from keys keys' (str_trim device) ∧ str_trim device ≠ uk_device_id keys ∧
  N.of_nat (length (uk_one_time_prekeys_x25519 keys')) = count ∧
  N.of_nat (length (uk_one_time_prekeys_mlkem768 keys')) = count.
Proof.
  unfold rebind_keys_to_new_device. intros H. drun H Hd. drun H Hk. drun H Hp. drun H Ht. drun H Hs. drun H Hm. drun H Hq.
  apply refresh_ok in H as (Hr & Hx & Hy & _). split; [exact Hr|]. split; [|done].
  destruct (len (str_trim device) =? 0); [done|]. by case_bool_decide.
Qed.
End Runs.

(** ** Theorems *)

(** A package for a second device that [prepare_secondary_device_package]
    made is opened by [open_secondary_device_package] with the same passphrase
    (unless it exceeds the size the container allows): it names the server, the
    user, the new device and the suite, and holds a key file with the same
    identity, for the new device and with the asked number of fresh one-time
    keys. *)
Theorem secondary_device_roundtrip (P : Primitives) (L : PrimitiveLaws P) (V : Ed25519) (B : Base64) (BL : Base64Laws B)
    (C : StorageCrypto) (S : StorageLaws C) (MlKem768_new : KemAlgorithm → option KemProvider) (clock : option N)
    (keys_to_json : UserKeysFile → bytes) (keys_from_json : bytes → result bytes UserKeysFile)
    (payload_to_json : SecondaryDeviceOnboardingPayload → bytes)
    (payload_from_json : bytes → result bytes SecondaryDeviceOnboardingPayload)
    (keys : UserKeysFile) (device url passphrase : bytes) (count : N) (g g' : rng) (w : WrappedSecret) :
  (∀ k, keys_from_json (keys_to_json k) = Ok k) →
  (∀ p, payload_from_json (payload_to_json p) = Ok p) →
  prepare_secondary_device_package MlKem768_new clock keys_to_json payload_to_json keys device url count passphrase g
    = (g', Ok w) →
  ∃ rebound time,
    rebound_from keys rebound (str_trim device) ∧
    N.of_nat (length (uk_one_time_prekeys_x25519 rebound)) = count ∧
    N.of_nat (length (uk_one_time_prekeys_mlkem768 rebound)) = count ∧
    let size := len (payload_to_json (mkOnboarding 1 (str_trim url) (keys_to_json rebound) time)) + 16 in
    open_secondary_device_package keys_from_json payload_from_json w passphrase =
      if size <=? MAX_WRAPPED
      then Ok (mkPackage (str_trim url) (uk_user_id keys) (str_trim device) (uk_suite keys) time (keys_to_json rebound))
      else Err (operation_failed (CoreError_to_string (InvalidLength "ciphertext_b64" 16 size))).
Proof.
  intros Hkj Hpj H. unfold prepare_secondary_device_package in H. drun H Hr. drun H Hu. drun H Hp. drun H Ht.
  apply droid_core_ok in H. apply rebind_ok in Hr as (Hr & _ & Hx & Hy). exists a, a0. do 3 (split; [done|]).
  unfold open_secondary_device_package. destruct (len (str_trim passphrase) =? 0); [done|].
  unfold wrap_bytes in H. rewrite (storage_roundtrip P L C S B BL _ _ _ _ _ _ H).
  destruct (_ <=? MAX_WRAPPED); [|done]. cbn [core map_err]. rewrite Hpj. cbn -[str_trim].
  rewrite str_trim_idem. destruct (len (str_trim url) =? 0); [done|]. rewrite Hkj. cbn -[str_trim].
  by destruct Hr as (_ & -> & -> & -> & _).
Qed.

(** ** A concrete instance *)

Fixpoint positive_octets (p : positive) : bytes :=
  match p with xH => [] | xO p => x00 :: positive_octets p | xI p => x01 :: positive_octets p end.

Fixpoint octets_positive (l : bytes) : positive :=
  match l with [] => xH | x00 :: l => xO (octets_positive l) | _ :: l => xI (octets_positive l) end.

Definition freeze {A} `{Countable A} (a : A) : bytes := positive_octets (countable.encode a).
Definition thaw {A} `{Countable A} (l : bytes) : option A := countable.decode (octets_positive l).

Lemma thaw_freeze {A} `{Countable A} (a : A) : thaw (freeze a) = Some a.
Proof.
  unfold thaw, freeze. assert (∀ p, octets_positive (positive_octets p) = p) as -> by (intros p; by induction p; simpl; f_equal).
  apply countable.decode_encode.
Qed.

(** Fields one after the other, each octet marked and each field closed. *)
Fixpoint frame (f : bytes) : bytes := match f with [] => [x00] | b :: f => x01 :: b :: frame f end.
Definition frames (l : list bytes) : bytes := concat (map frame l).

Fixpoint unframes (cur : bytes) (l : bytes) : list bytes :=
  match l with
  | x00 :: l => rev cur :: unframes [] l
  | _ :: b :: l => unframes (b :: cur) l
  | _ => []
  end.

Lemma unframes_frames (l : list bytes) : unframes [] (frames l) = l.
Proof.
  assert (∀ f cur k, unframes cur (frame f ++ k) = (rev cur ++ f) :: unframes [] k) as Hf.
  { induction f as [|b f IH]; intros cur k; simpl; [by rewrite app_nil_r|]. rewrite IH. simpl.
    by rewrite <- app_assoc. }
  induction l as [|f l IH]; [done|]. unfold frames in *. simpl. by rewrite Hf, IH.
Qed.

Definition toy_one_time (l : list OneTimeKeyRecord) : bytes :=
  frames (map (λ r, frames [ok_key_id r; ok_public_b64 r; ok_secret_b64 r]) l).

Definition toy_read_one_time (l : bytes) : list OneTimeKeyRecord :=
  omap (λ r, match unframes [] r with [a; b; c] => Some (mkOneTimeKey a b c) | _ => None end) (unframes [] l).

Definition toy_keys_json (k : UserKeysFile) : bytes :=
  frames
    [freeze (uk_version k); uk_user_id k; uk_device_id k;
     match uk_suite k with SuiteMlKem768 => [x00] | SuiteKyber768 => [] end;
     uk_identity_x25519_pub_b64 k; uk_identity_x25519_secret_b64 k; uk_identity_sig_pub_b64 k;
     uk_identity_sig_secret_b64 k; uk_identity_pq_sig_pub_b64 k; uk_identity_pq_sig_secret_b64 k;
     uk_signed_prekey_x25519_pub_b64 k; uk_signed_prekey_x25519_secret_b64 k; uk_pq_signed_prekey_pub_b64 k;
     uk_pq_signed_prekey_secret_b64 k; toy_one_time (uk_one_time_prekeys_x25519 k);
     toy_one_time (uk_one_time_prekeys_mlkem768 k)].

Definition toy_read_keys (l : bytes) : result bytes UserKeysFile :=
  match unframes [] l with
  | [v; u; d; s; a; b; c; e; f; h; i; j; m; n; x; y] =>
      Ok (mkKeys (default 0 (thaw v)) u d (match s with [] => SuiteKyber768 | _ => SuiteMlKem768 end)
            a b c e f h i j m n (toy_read_one_time x) (toy_read_one_time y))
  | _ => Err (lit "syntax")
  end.

Lemma toy_read_one_time_spec (l : list OneTimeKeyRecord) : toy_read_one_time (toy_one_time l) = l.
Proof.
  unfold toy_read_one_time, toy_one_time. rewrite unframes_frames. induction l as [|[a b c] l IH]; [done|].
  cbn [map omap list_omap]. rewrite unframes_frames. cbn. f_equal. exact IH.
Qed.

Lemma toy_read_keys_spec (k : UserKeysFile) : toy_read_keys (toy_keys_json k) = Ok k.
Proof.
  destruct k as [v u d s]. unfold toy_read_keys, toy_keys_json. rewrite unframes_frames. cbn -[thaw freeze toy_one_time toy_read_one_time].
  rewrite thaw_freeze, !toy_read_one_time_spec. by destruct s.
Qed.

Definition toy_payload_json (p : SecondaryDeviceOnboardingPayload) : bytes :=
  frames [freeze (so_version p); so_server_url p; so_keys_json p; freeze (so_exported_at_unix p)].

Definition toy_read_payload (l : bytes) : result bytes SecondaryDeviceOnboardingPayload :=
  match unframes [] l with
  | [v; u; k; t] => Ok (mkOnboarding (default 0 (thaw v)) u k (default 0%Z (thaw t)))
  | _ => Err (lit "syntax")
  end.

Lemma toy_read_payload_spec (p : SecondaryDeviceOnboardingPayload) : toy_read_payload (toy_payload_json p) = Ok p.
Proof.
  destruct p. unfold toy_read_payload, toy_payload_json. rewrite unframes_frames. cbn -[thaw freeze]. by rewrite !thaw_freeze.
Qed.

Definition toy_package : rng * droid WrappedSecret :=
  prepare_secondary_device_package (λ _, Some ToyKem) (Some 100) toy_keys_json toy_payload_json toy_keys
    (lit " d2 ") (lit "https://x ") 1 (lit "pw") (0 : @rng Toy).

Lemma toy_package_made : ∃ g w, toy_package = (g, Ok w).
Proof. vm_compute. by do 2 eexists. Qed.

Lemma secondary_device_roundtrip_witness :
  ∃ w g rebound time, toy_package = (g, Ok w) ∧ rebound_from toy_keys rebound (lit "d2") ∧
    let size := len (toy_payload_json (mkOnboarding 1 (lit "https://x") (toy_keys_json rebound) time)) + 16 in
    open_secondary_device_package toy_read_keys toy_read_payload w (lit "pw") =
      if size <=? MAX_WRAPPED
      then Ok (mkPackage (lit "https://x") (lit "alice") (lit "d2") SuiteMlKem768 time (toy_keys_json rebound))
      else Err (operation_failed (CoreError_to_string (InvalidLength "ciphertext_b64" 16 size))).
Proof.
  destruct toy_package_made as (g & w & E).
  destruct (secondary_device_roundtrip Toy ToyLaws ToyEd ToyBase64 ToyBase64Laws ToyStorage ToyStorageLaws
    (λ _, Some ToyKem) (Some 100) toy_keys_json toy_read_keys toy_payload_json toy_read_payload toy_keys
    (lit " d2 ") (lit "https://x ") (lit "pw") 1 (0 : @rng Toy) g w toy_read_keys_spec toy_read_payload_spec E)
    as (rebound & time & H1 & _ & _ & H2).
  exists w, g, rebound, time. split; [exact E|]. split; [exact H1|exact H2].
Defined.
