(* ===== verification/BundleFacts.v ===== *)
(** * Bundles the clients accept

    The prekeys the server stores are signed by the identity it serves them
    with, in every state reached by requests that do not rotate an identity onto
    a device with prekeys; so a client accepts every bundle. A rotation that
    keeps the device keeps prekeys the old identity signed, and its bundles are
    refused. *)

From Stdlib Require Import Strings.Byte.
From S2P Require Import Prelude Bytes Errors Tlv Crypto Toy Alg Keys PqSig Handshake ServerError Validation RequestAuth Caches Realtime ServerState ToyServer ServerFrame ServerAuth Messaging Delivery PrekeyServer PrekeyFacts Accounts IdentityLog Android TransparencyService AndroidAuth AndroidKeys.
Local Open Scope N_scope.

Section Bundles.
Context `{P : Primitives} `{V : Ed25519} `{B : Base64} `{X : Hex} `{I : HashIter} `{U : !Uuid}.
Context (MlDsa65_new : option PqSignatureProvider).

(** The row [p] of user [u] verifies under the keys the server serves with it. *)
Definition prekey_signed (d : Db) (u : bytes) (p : PrekeyRow) : Prop :=
  ∃ row pq s1 s2, users d !! u = Some row ∧ u_identity_pq_sig_pub row = Some pq ∧
    pk_pq_sig_over_spk p = Some s1 ∧ pk_pq_sig_over_pqspk p = Some s2 ∧
    verify_hybrid_prekey_signatures MlDsa65_new (u_identity_sig_pub row) pq (pk_signed_prekey_x25519_pub p)
      (pk_sig_over_spk p) (pk_pq_signed_prekey_pub_mlkem768 p) (pk_sig_over_pqspk p) s1 s2 = Ok tt.

Record signed_wf (d : Db) : Prop := {
  signed_prekeys : ∀ u dev p, prekeys d !! (u, dev) = Some p → prekey_signed d u p;
  one_time_lengths : ∀ r, r ∈ rows (one_time_prekeys_x25519 d) → length (ot_prekey r) = 32%nat;
}.

Lemma empty_signed_wf : signed_wf empty_db.
Proof. split; [done|]. intros r Hr. by apply elem_of_nil in Hr. Qed.

Definition signing_keys (row : UserRow) : bytes * option bytes := (u_identity_sig_pub row, u_identity_pq_sig_pub row).

Definition keeps_signed (d d' : Db) : Prop := signed_wf d → signed_wf d'.

(** Prekeys and one-time keys may go, the identities of their owners stay. *)
Lemma signed_shrink (d d' : Db) :
  (∀ u dev p, prekeys d' !! (u, dev) = Some p →
     prekeys d !! (u, dev) = Some p ∧ signing_keys <$> users d' !! u = signing_keys <$> users d !! u) →
  (∀ r, r ∈ rows (one_time_prekeys_x25519 d') →
     ∃ r0, r0 ∈ rows (one_time_prekeys_x25519 d) ∧ ot_prekey r0 = ot_prekey r) →
  keeps_signed d d'.
Proof.
  intros Hp Ho [Hs Hl]. split.
  - intros u dev p [H Hk]%Hp. destruct (Hs _ _ _ H) as (row & pq & s1 & s2 & Hrow & Hpq & H1 & H2 & Hv).
    rewrite Hrow in Hk. simpl in Hk. apply fmap_Some in Hk as (row' & Hrow' & Hk). injection Hk as Hk1 Hk2.
    exists row', pq, s1, s2. split_and!; congruence.
  - intros r (r0 & H & <-)%Ho. by apply Hl.
Qed.

#[local] Instance keeps_signed_preorder : PreOrder keeps_signed.
Proof. unfold keeps_signed. split; [intros d; exact (λ H, H)|intros d1 d2 d3; auto]. Qed.

Lemma signed_same_users (d d' : Db) :
  users d' = users d → (∀ k p, prekeys d' !! k = Some p → prekeys d !! k = Some p) →
  (∀ r, r ∈ rows (one_time_prekeys_x25519 d') →
     ∃ r0, r0 ∈ rows (one_time_prekeys_x25519 d) ∧ ot_prekey r0 = ot_prekey r) →
  keeps_signed d d'.
Proof. intros Hu Hp Ho. apply signed_shrink; [|done]. intros u dev p Hk. rewrite Hu. split; [by apply Hp|done]. Qed.

Lemma signed_same_keys (d d' : Db) :
  prekeys d' = prekeys d → one_time_prekeys_x25519 d' = one_time_prekeys_x25519 d →
  (∀ u, signing_keys <$> users d' !! u = signing_keys <$> users d !! u) → keeps_signed d d'.
Proof. intros Hp Ho Hu. apply signed_shrink; [|rewrite Ho; eauto]. intros u dev p. rewrite Hp. by split. Qed.

Lemma signed_alter_user (f : UserRow → UserRow) (u : bytes) (d : Db) :
  (∀ row, signing_keys (f row) = signing_keys row) → keeps_signed d (set_users (alter f u (users d)) d).
Proof.
  intros Hf. apply signed_same_keys; [done..|]. intros v. cbn [users set_users].
  destruct (decide (u = v)) as [->|]; [|by rewrite lookup_alter_ne].
  rewrite lookup_alter_eq. destruct (users d !! v); simpl; [by rewrite Hf|done].
Qed.

Lemma untouched_signed (s s' : AppState) : untouched s s' → on_db keeps_signed s s'.
Proof. intros [_ [= Hu _ Hp Ho _ _ _]]. apply signed_same_keys; [done..|]. intros u. by rewrite Hu. Qed.

Lemma marked_signed (t : OneTimeTable) (id : Z) (d : Db) : keeps_signed d (marked t id d).
Proof.
  apply signed_same_users; [by destruct t|by destruct t|]. destruct t; [|by eauto]. intros r.
  unfold marked, update_rows. cbn. intros (r0 & -> & H)%list_elem_of_fmap. exists r0. split; [done|].
  by destruct (ot_id r0 =? id)%Z.
Qed.

Lemma bundle_signed (u : bytes) (device : option bytes) : steps (on_db keeps_signed) (get_bundle u device).
Proof.
  unfold get_bundle, load_bundle_response, select_one_time_key, select_available, mark_consumed,
    count_available_one_time_keys. steps; apply marked_signed.
Qed.

Lemma cleanup_signed (u dev : bytes) (d : Db) : keeps_signed d (cleanup_retired_device_state u dev d).
Proof.
  apply signed_same_users; [done|..].
  - intros k p. cbn. by intros [_ H]%lookup_delete_Some.
  - intros r. cbn. rewrite list_elem_of_filter. intros [_ H]. eauto.
Qed.

Lemma replace_primary_keys (a b : bytes) (row : UserRow) :
  signing_keys (replace_primary a b row) = signing_keys row.
Proof. unfold replace_primary. by case_bool_decide. Qed.

Local Ltac signed_leaf :=
  first [ apply marked_signed | apply cleanup_signed | by apply signed_same_keys
        | apply signed_alter_user; (apply replace_primary_keys || done) ].

Lemma devices_signed (u dev : bytes) (headers : HeaderMap) :
  steps (on_db keeps_signed) (list_devices u headers) ∧ steps (on_db keeps_signed) (link_device u headers dev) ∧
  steps (on_db keeps_signed) (revoke_device u dev headers) ∧
  steps (on_db keeps_signed) (retire_current_device u headers).
Proof.
  split_and!; [unfold list_devices|unfold link_device|unfold revoke_device|unfold retire_current_device]; steps;
    signed_leaf.
Qed.

(** ** The requests that write prekeys or identities *)

Lemma replaced_prekeys (u dev : bytes) (now : Z) (keys : list bytes) (tb : Table OneTimeRow) (r : OneTimeRow) :
  r ∈ rows (replaced u dev now keys tb) → r ∈ rows tb ∨ ot_prekey r ∈ keys.
Proof.
  unfold replaced. rewrite foldl_insert_rows. cbn [rows delete_rows]. rewrite elem_of_app, list_elem_of_filter.
  intros [[_ H]|(key & id & -> & Hk & _)%elem_of_zip_with]; [by left|by right].
Qed.

Lemma traverse_lengths (field : bytes) (n : N) (l xs : list bytes) (k : bytes) :
  traverse_app (λ key, decode_base64_exact field key n) l = Ok xs → k ∈ xs → len k = n.
Proof.
  revert xs. induction l as [|x l IH]; intros xs; cbn [traverse_app]; [intros [= <-] H; by apply elem_of_nil in H|].
  destruct (decode_base64_exact field x n) as [y|] eqn:E; [|done].
  destruct (traverse_app _ l) as [ys|]; [|done]. intros [= <-] [->|H]%elem_of_cons; [|by eapply IH].
  by apply decode_exact_len in E.
Qed.

Lemma publish_signed (u : bytes) (headers : HeaderMap) (request : PublishPrekeysRequest) (s : AppState) :
  on_db keeps_signed s (publish_prekeys MlDsa65_new u headers request s).1.
Proof.
  destruct (publish_prekeys _ _ _ _ s) as [s' [resp|e]] eqn:E; cbn [fst].
  - apply publish_ok in E as (row & pq & spk & sig & pqspk & pqsig & psig & ppqsig & xs & pqs & Hrow & Hpq & Hv & _ & Hxs
      & _ & _ & Hd). intros [Hs Hl]. unfold on_db in *. rewrite Hd. split.
    + intros v dev p. cbn. destruct (decide ((u, pr_device_id resp) = (v, dev))) as [[= <- <-]|Hne].
      * rewrite lookup_insert_eq. intros [= <-]. by exists row, pq, psig, ppqsig.
      * rewrite lookup_insert_ne by done. apply Hs.
    + intros r. cbn. intros [H|H]%replaced_prekeys; [by apply Hl|].
      apply (traverse_lengths _ _ _ _ _ Hxs) in H. by apply (inj N.of_nat).
  - revert E. unfold publish_prekeys, enforce_prekey_publish_interval.
    revert s s' e. change (fails_within (on_db keeps_signed)
      (publish_prekeys MlDsa65_new u headers request)).
    unfold publish_prekeys, enforce_prekey_publish_interval.
    repeat (apply fails_within_bind; [apply _|solve [steps]|intros ?]).
    intros s s' e [(s1 & out & E1 & E2)|(e' & E & _)]%sm_bind_inv; [done|].
    apply transaction_err in E. unfold on_db. by rewrite E.
Qed.

(** A user's row replaced while the user has no prekeys. *)
Lemma new_keys_signed (u : bytes) (d d' : Db) :
  (∀ v, v ≠ u → users d' !! v = users d !! v) →
  (∀ v dev p, prekeys d' !! (v, dev) = Some p → v ≠ u ∧ prekeys d !! (v, dev) = Some p) →
  (∀ r, r ∈ rows (one_time_prekeys_x25519 d') → r ∈ rows (one_time_prekeys_x25519 d)) → keeps_signed d d'.
Proof.
  intros Hu Hp Ho. apply signed_shrink; [|eauto]. intros v dev p [Hne H]%Hp. by rewrite Hu.
Qed.

(** A user without a post-quantum key has published nothing. *)
Lemma first_keys_signed (u : bytes) (d d' : Db) :
  (∀ row, users d !! u = Some row → u_identity_pq_sig_pub row = None) →
  (∀ v, v ≠ u → users d' !! v = users d !! v) → prekeys d' = prekeys d →
  one_time_prekeys_x25519 d' = one_time_prekeys_x25519 d → keeps_signed d d'.
Proof.
  intros Hnone Hu Hp Ho Hwf. pose proof Hwf as Hwf'. revert Hwf'.
  apply (new_keys_signed u); [done| |by rewrite Ho]. rewrite Hp. intros v dev p H. split; [|done]. intros ->.
  destruct (signed_prekeys _ Hwf _ _ _ H) as (row & pq & _ & _ & Hrow & Hpq & _). by rewrite (Hnone _ Hrow) in Hpq.
Qed.

Lemma register_signed (request : RegisterUserRequest) : steps (on_db keeps_signed) (register_user request).
Proof.
  unfold register_user, generate_sealed_delivery_token.
  do 12 (apply steps_bind; [apply _|solve [steps]|intros ?]).
  intros s. unfold sm_bind at 1. unfold query at 1. unfold gets at 1. destruct (users _ !! _) as [row|] eqn:Eu.
  - unfold reject_if. destruct (_ || _); [by apply reflexivity|].
    destruct (bool_decide (u_identity_pq_sig_pub row = None)) eqn:Epq.
    + apply bool_decide_eq_true in Epq. apply (first_keys_signed (rg_user_id request)); try done.
      * intros r. rewrite Eu. by intros [= <-].
      * intros v Hv. cbn. by rewrite lookup_alter_ne.
    + eapply (steps_run (on_db keeps_signed)); [|apply surjective_pairing]. steps; signed_leaf.
  - cbn -[insert_initial_event]. unfold insert_initial_event.
    apply (first_keys_signed (rg_user_id request)); [by rewrite Eu| |by destruct (existsb _ _)..].
    intros v Hv. destruct (existsb _ _); cbn; by rewrite lookup_insert_ne.
Qed.

Lemma delete_signed (u : bytes) : steps (on_db keeps_signed) (transaction (execute (delete_user_owned_state u))).
Proof.
  apply steps_transaction; [apply _|]. intros s. apply (new_keys_signed u); cbn.
  - intros v Hv. by rewrite lookup_delete_ne.
  - intros v dev p [H Hm]%map_lookup_filter_Some. by apply bool_decide_eq_false in Hm.
  - intros r [_ H]%list_elem_of_filter. done.
Qed.

(** A rotation onto a device without prekeys. *)
Definition rotates_fresh (c : ServerCall) (s : AppState) : Prop :=
  match c with
  | CallRotateConfirm u _ request =>
      ∀ ch, open_challenge u (rc_challenge_id request) (st_db s) = Some ch →
        prekeys (st_db s) !! (u, cg_new_device_id ch) = None
  | _ => True
  end.

Lemma rotate_confirm_signed (u : bytes) (headers : HeaderMap) (request : RotateConfirmRequest) (s : AppState) :
  rotates_fresh (CallRotateConfirm u headers request) s →
  on_db keeps_signed s (rotate_confirm MlDsa65_new u headers request s).1.
Proof.
  intros Hfresh. destruct (rotate_confirm _ _ _ _ s) as [s' [resp|e]] eqn:E; cbn [fst].
  - apply rotate_confirm_ok in E as (row & c & pq & version & Hrow & Hc & _ & _ & _ & _ & _ & Hd).
    unfold on_db. rewrite Hd. specialize (Hfresh _ Hc). apply (new_keys_signed u); cbn.
    + intros v Hv. by rewrite lookup_alter_ne.
    + intros v dev p [H Hm]%map_lookup_filter_Some. split; [|done]. intros ->. unfold other_device in Hm.
      rewrite bool_decide_eq_true_2 in Hm by done. apply negb_false_iff, bool_decide_eq_true in Hm as ->. congruence.
    + intros r [_ H]%list_elem_of_filter. done.
  - apply untouched_signed. exact (rotate_confirm_err _ _ _ _ _ _ _ E).
Qed.

Lemma serve_signed (c : ServerCall) (s : AppState) :
  rotates_fresh c s → on_db keeps_signed s (serve MlDsa65_new c s).
Proof.
  destruct c; intros Hf; cbn [serve].
  - apply untouched_signed, untouched_messaging.
  - apply publish_signed.
  - revert s Hf. unfold get_prekeys_status, load_remaining_one_time_counts, count_available_one_time_keys.
    intros s _. revert s. steps.
  - apply bundle_signed.
  - clear Hf. revert s. unfold rotate_init. steps. by apply signed_same_keys.
  - by apply rotate_confirm_signed.
  - clear Hf. revert s. unfold get_identity_log. steps.
  - apply register_signed.
  - clear Hf. revert s. unfold reset_dev_user_identity. steps; apply delete_signed.
  - clear Hf. revert s. unfold delete_account. steps; apply delete_signed.
  - apply (devices_signed user []).
  - apply devices_signed.
  - apply devices_signed.
  - apply (devices_signed user []).
Qed.

(** Runs of the server in which rotations go to devices without prekeys. *)
Inductive fresh_run : AppState → Prop :=
| fresh_empty s : st_db s = empty_db → (0 ≤ st_utc s)%Z → fresh_run s
| fresh_serve s c : fresh_run s → rotates_fresh c s → fresh_run (serve MlDsa65_new c s)
| fresh_tick s utc instant : fresh_run s → (0 ≤ utc)%Z → fresh_run (set_clock utc instant s).

Lemma fresh_server_run (s : AppState) : fresh_run s → server_run MlDsa65_new s.
Proof. induction 1; [by apply run_empty|by apply run_serve|by apply run_tick]. Qed.

Lemma fresh_run_signed (s : AppState) : fresh_run s → signed_wf (st_db s).
Proof.
  induction 1 as [s Hd _|s c _ IH Hf|s utc instant _ IH _]; [rewrite Hd; apply empty_signed_wf| |done].
  by apply serve_signed.
Qed.

(** ** What a bundle holds *)

Lemma bundle_row_rows (u : bytes) (target : option bytes) (d : Db) dev row p :
  bundle_row u target d = Some (dev, row, p) → users d !! u = Some row ∧ prekeys d !! (u, dev) = Some p.
Proof.
  unfold bundle_row. intros (row' & Hu & H)%bind_Some. destruct target as [t|].
  - apply bind_Some in H as (r & _ & H). destruct (d_active r); [|done].
    apply fmap_Some in H as (p' & Hp & [= -> -> ->]). done.
  - apply head_Some_elem_of, list_elem_of_omap in H as (x & _ & H). apply fmap_Some in H as (p' & Hp & [= -> -> ->]). done.
Qed.

Lemma load_bundle_fields (u : bytes) (target : option bytes) (s s' : AppState) (resp : BundleResponse) :
  load_bundle_response u target s = (s', Ok resp) →
  ∃ row p pq s1 s2 ox opq,
    users (st_db s) !! u = Some row ∧ prekeys (st_db s) !! (u, bu_device_id resp) = Some p ∧
    u_identity_pq_sig_pub row = Some pq ∧ pk_pq_sig_over_spk p = Some s1 ∧ pk_pq_sig_over_pqspk p = Some s2 ∧
    (∀ k, ox = Some k → ∃ r, r ∈ rows (one_time_prekeys_x25519 (st_db s)) ∧ ot_prekey r = k) ∧
    parse_bundle_json resp = mkServerBundle u (b64_encode (u_identity_x25519_pub row))
      (b64_encode (u_identity_sig_pub row)) (b64_encode pq) (b64_encode (pk_signed_prekey_x25519_pub p))
      (b64_encode (pk_sig_over_spk p)) (b64_encode (pk_pq_signed_prekey_pub_mlkem768 p))
      (b64_encode (pk_sig_over_pqspk p)) (b64_encode s1) (b64_encode s2) (b64_encode <$> ox) (b64_encode <$> opq).
Proof.
  intros H. unfold load_bundle_response in H. run1 H H0.
  assert (s0 = s) as -> by (destruct target; [by apply lift_inv in H0 as [-> _]|by injection H0 as ->]). clear H0.
  run1 H H1. apply transaction_ok in H1. run1 H1 H2. run1 H1 H3. run1 H1 Hrow. apply ok_or_ok in Hrow.
  destruct a0 as [[dev row] p]. run1 H1 H4. run1 H1 H5. run1 H1 H6. run1 H1 H7. apply ok_or_ok in H4, H6, H7.
  apply sm_bind_ok_inv in H1 as (t1 & nx & Hx & H1). apply query_inv in Hx as [-> [= ->]].
  apply sm_bind_ok_inv in H1 as (t1 & npq & Hx & H1). apply query_inv in Hx as [-> [= ->]].
  run1 H1 H8. rewrite takes_spec in H1.
  apply sm_bind_ok_inv in H1 as (t1 & otx & Hx & H1). apply sm_bind_ok_inv in H1 as (t2 & otpq & Hpq & H1).
  apply sm_bind_ok_inv in H1 as (t3 & rx & E & H1). apply query_inv in E as [-> _].
  apply sm_bind_ok_inv in H1 as (t3 & rpq & E & H1). apply query_inv in E as [-> _]. injection H1 as <- <-.
  run1 H H9. run1 H H10. injection H as <- <-. apply bundle_row_rows in Hrow as [Hu Hp].
  eexists row, p, _, _, _, otx, otpq. split_and!; [done|done|exact H4|exact H6|exact H7| |done].
  intros k ->. destruct (takes s u dev); [|by injection Hx]. rewrite select_one_time_key_run in Hx.
  destruct (available TableX25519 u dev (st_db s)) as [|r l] eqn:E; [by injection Hx|].
  apply pair_equal_spec in Hx as [_ [= <-]]. exists r. split; [|done].
  assert (Hr : r ∈ available TableX25519 u dev (st_db s)) by (rewrite E; left).
  by apply list_elem_of_filter in Hr as [_ Hr].
Qed.

(** The bundle of octets in base64. *)
Lemma bundle_decodes (BL : Base64Laws B) (u x sig pq spk sspk pqspk spq s1 s2 : bytes) (ox opq : option bytes)
    (suite : Suite) :
  length x = 32%nat → length spk = 32%nat → (∀ k, ox = Some k → length k = 32%nat) →
  bundle_to_core (mkServerBundle u (b64_encode x) (b64_encode sig) (b64_encode pq) (b64_encode spk) (b64_encode sspk)
    (b64_encode pqspk) (b64_encode spq) (b64_encode s1) (b64_encode s2) (b64_encode <$> ox) (b64_encode <$> opq)) suite =
  Ok {| pb_protocol_version := PROTOCOL_VERSION_V1; pb_suite := core_suite suite; pb_owner_id := u;
        pb_identity_key := x; pb_signed_prekey := spk; pb_pq_signed_prekey := pqspk; pb_spk_signature := sspk;
        pb_pqspk_signature := spq; pb_signature_public_key := sig; pb_one_time_prekey := ox;
        pb_one_time_pq_prekey := opq; pb_pq_sig_public_key := Some pq; pb_pq_spk_signature := Some s1;
        pb_pq_pqspk_signature := Some s2 |}.
Proof.
  intros Hx Hs Ho. unfold bundle_to_core.
  cbn [sb_user_id sb_identity_x25519_pub sb_identity_sig_pub sb_identity_pq_sig_pub sb_signed_prekey_x25519_pub
    sb_sig_over_spk sb_pq_signed_prekey_pub_mlkem768 sb_sig_over_pqspk sb_pq_sig_over_spk sb_pq_sig_over_pqspk
    sb_one_time_prekey_x25519 sb_one_time_prekey_mlkem768].
  rewrite !decode_b64_32_encode, !decode_b64_encode by done.
  assert (opt_droid (decode_b64_32 "one_time_prekey_x25519") (b64_encode <$> ox) = Ok ox) as ->.
  { destruct ox as [k|]; [|done]. cbn [opt_droid fmap option_fmap option_map]. by rewrite decode_b64_32_encode by auto. }
  destruct opq; [|done]. cbn [opt_droid fmap option_fmap option_map]. by rewrite decode_b64_encode.
Qed.

(** The server's check of an upload is the client's check of a bundle. *)
Lemma upload_check_client (Q : PqSignatureProvider) (key pq spk sig pqspk pqsig s1 s2 : bytes) :
  MlDsa65_new = Some Q →
  verify_hybrid_prekey_signatures MlDsa65_new key pq spk sig pqspk pqsig s1 s2 = Ok tt →
  length spk = 32%nat ∧
  ∃ m1 m2, signed_prekey_signature_message PROTOCOL_VERSION_V1 spk = Ok m1 ∧
    pq_signed_prekey_signature_message PROTOCOL_VERSION_V1 pqspk = Ok m2 ∧
    Ed25519SignatureVerifier key m1 sig = Ok tt ∧ Ed25519SignatureVerifier key m2 pqsig = Ok tt ∧
    pqs_verify Q pq m1 s1 = Ok tt ∧ pqs_verify Q pq m2 s2 = Ok tt.
Proof.
  intros HQ H. unfold verify_hybrid_prekey_signatures in H. rewrite HQ in H.
  destruct (len key =? SIG_PUB_KEY_LEN) eqn:Ek; [|done]. cbn [negb] in H.
  destruct (ed_key_from_bytes key) as [vk|] eqn:Evk; [|done]. cbn [ok_or] in H.
  destruct (len spk =? X25519_KEY_LEN) eqn:Es; [|done]. cbn [negb] in H.
  destruct (len sig =? SIG_LEN) eqn:Eg; [|done]. destruct (ed_sig_from_slice sig) as [g1|] eqn:Eg1; [|done].
  cbn [ok_or] in H. destruct (signed_prekey_signature_message _ spk) as [m1|]; [|done]. cbn [map_err] in H.
  destruct (ed_verify vk m1 g1) eqn:Ev1; [|done]. cbn [negb] in H.
  destruct (len pqsig =? SIG_LEN) eqn:Eh; [|done]. destruct (ed_sig_from_slice pqsig) as [g2|] eqn:Eg2; [|done].
  cbn [ok_or] in H. destruct (pq_signed_prekey_signature_message _ pqspk) as [m2|]; [|done]. cbn [map_err] in H.
  destruct (ed_verify vk m2 g2) eqn:Ev2; [|done]. cbn [negb] in H.
  destruct (validate_ml_dsa_public_key pq); [|done]. destruct (len s1 =? PQ_SIG_LEN); [|done].
  destruct (len s2 =? PQ_SIG_LEN); [|done]. cbn in H.
  destruct (pqs_verify Q pq m1 s1) as [[]|] eqn:Q1; [|done]. cbn in H.
  destruct (pqs_verify Q pq m2 s2) as [[]|] eqn:Q2; [|done].
  apply N.eqb_eq in Ek, Es, Eg, Eh. unfold len in *. split; [by apply (inj N.of_nat)|].
  assert (length key = 32%nat ∧ length sig = 64%nat ∧ length pqsig = 64%nat) as (Hk & Hs & Hp)
    by (by split_and!; apply (inj N.of_nat)).
  exists m1, m2. unfold Ed25519SignatureVerifier. rewrite Hk, Hs, Hp, Evk, Eg1, Eg2. cbn.
  by rewrite Ev1, Ev2.
Qed.
End Bundles.

(** C14: In every state the server reaches from an empty database by requests whose
    rotations go to devices without prekeys, a client accepts every bundle the
    server hands out: the fields decode, both signatures over both prekeys verify
    under the identity of the bundle, and that identity is the one the server
    holds for the user. *)
Theorem served_bundle_accepted (P : Primitives) (V : Ed25519) (B : Base64) (BL : Base64Laws B) (X : Hex) (I : HashIter)
    (U : Uuid) (Q : PqSignatureProvider) (s s' : AppState) (u : bytes) (target : option bytes) (resp : BundleResponse)
    (suite : Suite) :
  fresh_run (Some Q) s → get_bundle u target s = (s', Ok resp) →
  ∃ row bundle, users (st_db s) !! u = Some row ∧
    bundle_to_core (parse_bundle_json resp) suite = Ok bundle ∧
    validate_hybrid_prekey_bundle_signatures bundle Ed25519SignatureVerifier (pqs_verify Q) = Ok tt ∧
    pb_owner_id bundle = u ∧ pb_identity_key bundle = u_identity_x25519_pub row ∧
    pb_signature_public_key bundle = u_identity_sig_pub row ∧ pb_pq_sig_public_key bundle = u_identity_pq_sig_pub row ∧
    pb_suite bundle = core_suite suite.
Proof.
  intros Hrun H. destruct (fresh_run_signed _ _ Hrun) as [Hs Hl].
  destruct (server_run_wf _ _ (fresh_server_run _ _ Hrun)) as [_ Hlog].
  apply get_bundle_load in H as (t & Hq & H). apply load_bundle_fields in H as (row & p & pq & s1 & s2 & ox & opq & Hu & Hp & Hpq
    & H1 & H2 & Hox & ->). rewrite (quiet_db _ _ Hq) in *.
  destruct (Hs _ _ _ Hp) as (row' & pq' & s1' & s2' & Hu' & Hpq' & H1' & H2' & Hv). simplify_eq.
  destruct (upload_check_client _ Q _ _ _ _ _ _ _ _ eq_refl Hv) as (Hlen & m1 & m2 & Em1 & Em2 & V1 & V2 & V3 & V4).
  assert (Hx : length (u_identity_x25519_pub row) = 32%nat).
  { pose proof (log_current _ Hlog u (identity_of row)) as Hc. unfold identity_at in Hc. rewrite Hu in Hc.
    specialize (Hc eq_refl). apply fmap_Some in Hc as (e & He & [= -> _]).
    apply last_Some_elem_of, list_elem_of_filter in He as [_ He]. by apply (log_fields _ Hlog). }
  eexists row, _. split; [done|]. split.
  { apply bundle_decodes; [done..|]. intros k Hk. destruct (Hox k Hk) as (r & Hr & <-). by apply Hl. }
  split; [|done]. apply (proj1 (prekey_signatures_spec _ _ _)). eexists m1, m2, _, _, _. by split_and!.
Qed.

(** Alice publishes the prekeys of her device. *)
Definition toy_published_state : @AppState Toy :=
  serve (Some ToyMlDsa) (CallPublish (lit "alice") toy_upload_headers toy_upload) toy_registered.

Lemma toy_published_run : fresh_run (Some ToyMlDsa) toy_published_state.
Proof.
  assert (H0 : fresh_run (Some ToyMlDsa) (toy_state 1000000000000 0 empty_db)) by (by apply fresh_empty).
  apply fresh_serve; [|done]. by apply fresh_serve.
Qed.

Definition toy_bundle : @AppState Toy * ServerError.app BundleResponse := get_bundle (lit "alice") None toy_published_state.

Lemma toy_bundle_served : ∃ s' resp, toy_bundle = (s', Ok resp).
Proof.
  assert (H : is_ok toy_bundle.2 = true) by (vm_compute; reflexivity). destruct toy_bundle as [s' [resp|]]; [|done]. eauto.
Qed.

Lemma served_bundle_accepted_witness :
  ∃ resp bundle, toy_bundle.2 = Ok resp ∧ bundle_to_core (parse_bundle_json resp) SuiteMlKem768 = Ok bundle ∧
    validate_hybrid_prekey_bundle_signatures bundle Ed25519SignatureVerifier (pqs_verify ToyMlDsa) = Ok tt ∧
    pb_owner_id bundle = lit "alice".
Proof.
  destruct toy_bundle_served as (s' & resp & E).
  destruct (served_bundle_accepted Toy ToyEd ToyBase64 ToyBase64Laws ToyHex MapOrder ToyUuid ToyMlDsa toy_published_state
    s' (lit "alice") None resp SuiteMlKem768 toy_published_run E) as (row & bundle & _ & H1 & H2 & H3 & _).
  exists resp, bundle. split; [exact (f_equal snd E)|]. split; [exact H1|]. split; [exact H2|exact H3].
Defined.

(** ** Rotation without a change of the device *)

(** Alice, with prekeys published, rotates and names the device she has. *)
Definition stale_rotation : RotateInitRequest := {|
  ri_new_identity_x25519_pub := b64_encode (toy_key 112); ri_new_identity_sig_pub := b64_encode (toy_key 111);
  ri_new_identity_pq_sig_pub := b64_encode (toy_pq_key 113); ri_new_device_id := lit "d1" |}.

Definition stale_confirmation (challenge_id nonce : bytes) : RotateConfirmRequest :=
  let m := match rotation_signature_message (lit "alice") challenge_id nonce (toy_key 112) (toy_key 111)
                   (toy_pq_key 113) (lit "d1") with Ok m => m | Err _ => [] end in
  {| rc_challenge_id := challenge_id;
     rc_sig_by_current_identity := b64_encode (ed_sign (toy_key 101) m);
     rc_sig_by_new_identity := b64_encode (ed_sign (toy_key 111) m);
     rc_pq_sig_by_current_identity := b64_encode (toy_pq_sign 103 m);
     rc_pq_sig_by_new_identity := b64_encode (toy_pq_sign 113 m) |}.

Definition stale_rotating : @AppState Toy :=
  serve (Some ToyMlDsa) (CallRotateInit (lit "alice")
    (toy_headers (lit "alice") (lit "d1") 101 1000 (lit "n2") (λ a, rotate_init_auth_message a stale_rotation))
    stale_rotation) toy_published_state.

Definition stale_confirm_call (s : @AppState Toy) : ServerCall :=
  match map_to_list (identity_rotation_challenges (st_db s)) with
  | (id, c) :: _ =>
      CallRotateConfirm (lit "alice")
        (toy_headers (lit "alice") (lit "d1") 101 1000 (lit "n3")
           (λ a, rotate_confirm_auth_message a (stale_confirmation id (cg_nonce c))))
        (stale_confirmation id (cg_nonce c))
  | [] => CallBundle [] None
  end.

Definition stale_rotated : @AppState Toy := serve (Some ToyMlDsa) (stale_confirm_call stale_rotating) stale_rotating.

(** Whether the bundle of Alice decodes, under her new identity key, and is
    refused for its signatures. *)
Definition refused_check (s : @AppState Toy) : bool :=
  bool_decide (identity_at (lit "alice") (st_db s) = Some (toy_key 112, toy_key 111)) &&
  match (get_bundle (lit "alice") None s).2 with
  | Ok resp =>
      match bundle_to_core (parse_bundle_json resp) SuiteMlKem768 with
      | Ok bundle =>
          bool_decide (pb_identity_key bundle = toy_key 112) &&
          match validate_hybrid_prekey_bundle_signatures bundle Ed25519SignatureVerifier (pqs_verify ToyMlDsa) with
          | Err SignatureVerificationFailed => true
          | _ => false
          end
      | Err _ => false
      end
  | Err _ => false
  end.

Lemma refused_check_inv (s : @AppState Toy) :
  refused_check s = true →
  identity_at (lit "alice") (st_db s) = Some (toy_key 112, toy_key 111) ∧
  ∃ s' resp bundle, get_bundle (lit "alice") None s = (s', Ok resp) ∧
    bundle_to_core (parse_bundle_json resp) SuiteMlKem768 = Ok bundle ∧
    pb_identity_key bundle = toy_key 112 ∧
    validate_hybrid_prekey_bundle_signatures bundle Ed25519SignatureVerifier (pqs_verify ToyMlDsa) =
      Err SignatureVerificationFailed.
Proof.
  unfold refused_check. destruct (get_bundle _ _ s) as [s' [resp|]]; cbn [snd];
    rewrite andb_true_iff, bool_decide_eq_true; intros [H1 H2]; [|done]. split; [done|].
  destruct (bundle_to_core _ _) as [bundle|] eqn:Eb; [|done].
  apply andb_true_iff in H2 as [Hk%bool_decide_eq_true Hv]. exists s', resp, bundle. split_and!; [done..|].
  by destruct (validate_hybrid_prekey_bundle_signatures _ _ _) as [|[]].
Qed.

(** A rotation that keeps the device leaves the prekeys the old identity
    signed: in a state the server reaches this way, the bundle it hands out for
    the user joins the new identity to the old signatures, and a client refuses
    it. *)
Theorem stale_bundle_refused :
  server_run (Some ToyMlDsa) stale_rotated ∧
  identity_at (lit "alice") (st_db stale_rotated) = Some (toy_key 112, toy_key 111) ∧
  ∃ s' resp bundle, get_bundle (lit "alice") None stale_rotated = (s', Ok resp) ∧
    bundle_to_core (parse_bundle_json resp) SuiteMlKem768 = Ok bundle ∧
    pb_identity_key bundle = toy_key 112 ∧
    validate_hybrid_prekey_bundle_signatures bundle Ed25519SignatureVerifier (pqs_verify ToyMlDsa) =
      Err SignatureVerificationFailed.
Proof.
  split.
  { apply run_serve, run_serve, fresh_server_run, toy_published_run. }
  apply refused_check_inv. vm_compute. reflexivity.
Qed.
