(* ===== verification/AndroidSession.v ===== *)
(** * Sessions of the Android client ([pqmsg-android/src/lib.rs])

    The functions the application calls to start a session, to send and to
    receive, and to seal for the sealed relay. A session lives in a file the
    application stores: every call restores it and returns the file to store,
    so a call that fails leaves the session as it was. The theorems: keys the
    client generates and publishes let another client start a session and
    deliver its first message; the two files then carry a conversation in
    which every message is accepted at most once and unaltered, and in which a
    refused delivery changes nothing. *)

From Stdlib Require Import Strings.Byte.
From S2P Require Import Prelude Bytes Errors Tlv Crypto Toy Alg Aead Ad Wire Ratchet PqRatchet Session SessionRun Conversation SessionFacts Keys Handshake EndToEnd PqSig Sealed RequestAuth PrekeyServer Android TransparencyService AndroidAuth AndroidKeys BundleFacts.
Local Open Scope N_scope.

(** ** [String::from_utf8_lossy] *)

(** U+FFFD. *)
Definition REPLACEMENT : bytes := [xef; xbf; xbd].

(** Each maximal prefix of a character that the next octet does not continue is
    replaced. *)
Fixpoint from_utf8_lossy (l : bytes) : bytes :=
  match l with
  | [] => []
  | b0 :: r0 =>
      if in_range 0 0x7F b0 then b0 :: from_utf8_lossy r0
      else if in_range 0xC2 0xDF b0 then
        match r0 with
        | b1 :: r1 => if utf8_cont b1 then b0 :: b1 :: from_utf8_lossy r1 else REPLACEMENT ++ from_utf8_lossy r0
        | [] => REPLACEMENT
        end
      else if in_range 0xE0 0xEF b0 then
        match r0 with
        | b1 :: r1 =>
            if utf8_second3 b0 b1 then
              match r1 with
              | b2 :: r2 =>
                  if utf8_cont b2 then b0 :: b1 :: b2 :: from_utf8_lossy r2 else REPLACEMENT ++ from_utf8_lossy r1
              | [] => REPLACEMENT
              end
            else REPLACEMENT ++ from_utf8_lossy r0
        | [] => REPLACEMENT
        end
      else if in_range 0xF0 0xF4 b0 then
        match r0 with
        | b1 :: r1 =>
            if utf8_second4 b0 b1 then
              match r1 with
              | b2 :: r2 =>
                  if utf8_cont b2 then
                    match r2 with
                    | b3 :: r3 =>
                        if utf8_cont b3 then b0 :: b1 :: b2 :: b3 :: from_utf8_lossy r3
                        else REPLACEMENT ++ from_utf8_lossy r2
                    | [] => REPLACEMENT
                    end
                  else REPLACEMENT ++ from_utf8_lossy r1
              | [] => REPLACEMENT
              end
            else REPLACEMENT ++ from_utf8_lossy r0
        | [] => REPLACEMENT
        end
      else REPLACEMENT ++ from_utf8_lossy r0
  end.

Lemma from_utf8_lossy_valid (l : bytes) : utf8_valid l = true → from_utf8_lossy l = l.
Proof.
  induction l as [l IH] using length_ind. destruct l as [|b0 r0]; [done|]. cbn [utf8_valid from_utf8_lossy].
  destruct (in_range 0 127 b0); [intros H; f_equal; apply IH; [simpl; lia|done]|].
  destruct r0 as [|b1 r1]; [done|]. destruct (in_range 194 223 b0).
  { intros [-> H]%andb_true_iff. do 2 f_equal. apply IH; [simpl; lia|done]. }
  destruct r1 as [|b2 r2]; [done|]. destruct (in_range 224 239 b0).
  { intros [[-> ->]%andb_true_iff H]%andb_true_iff. do 3 f_equal. apply IH; [simpl; lia|done]. }
  destruct r2 as [|b3 r3]; [done|].
  intros [[[[-> ->]%andb_true_iff ->]%andb_true_iff ->]%andb_true_iff H]%andb_true_iff.
  do 4 f_equal. apply IH; [simpl; lia|done].
Qed.

(** ** Files and results *)

Record SessionFile := mkSessionFile {
  sf_version : N;
  sf_user_id : bytes;
  sf_peer_user_id : bytes;
  sf_suite : Suite;
  sf_snapshot : SessionSnapshot;
}.

Record SendResult := mkSendResult {
  sr_message_bytes_base64 : bytes;
  sr_session : SessionFile;
  sr_used_handshake : bool;
}.

Record DecryptResult := mkDecryptResult {
  dr_plaintext_utf8 : bytes;
  dr_plaintext_base64 : bytes;
  dr_session : SessionFile;
  dr_used_handshake : bool;
}.

Record OpenedSealedMessageRecord := mkOpenedRecord {
  om_sender_user_id : bytes;
  om_sender_device_id : bytes;
  om_payload_message_bytes_base64 : bytes;
}.

(** [format!("{a} '{}' does not match {b} '{}'", ...)]. *)
Definition mismatch (what value whose owner : bytes) : PqmsgAndroidError :=
  invalid_input (what ++ lit " '" ++ value ++ lit "' does not match " ++ whose ++ lit " '" ++ owner ++ lit "'").

Definition same_or {A : Type} `{EqDecision A} (x y : A) (e : PqmsgAndroidError) : droid unit :=
  if bool_decide (x = y) then Ok tt else Err e.

Definition make_ad (sender recipient : bytes) : droid bytes := core (conversation_associated_data sender recipient).

Section AndroidSession.
Context `{P : Primitives} `{V : Ed25519} `{B : Base64}.
Context (MlKem768_new : KemAlgorithm → option KemProvider) (MlDsa65_new : option PqSignatureProvider).
Context (clock : option N).
Local Open Scope sm_scope.

Definition restore_session (session_file : SessionFile) : droid SessionState :=
  let? kem := build_kem_for_suite MlKem768_new (sf_suite session_file) in
  Ok (from_snapshot_with_kem (sf_snapshot session_file) (Some kem)).

(** An operation on a session that was restored; the session afterwards is
    returned with its result. *)
Definition session_op {A} (s : SessionState) (c : Op A) : Droid (A * SessionState) :=
  λ g, let '((s', g'), r) := c (s, g) in (g', let? a := core r in Ok (a, s')).

Definition initiate_session_and_encrypt (keys : UserKeysFile) (from_user_id peer_user_id : bytes)
    (peer_bundle : ServerBundle) (plaintext_utf8 : bytes) (suite_override : option Suite) : Droid SendResult :=
  sm_lift (same_or (uk_user_id keys) from_user_id
             (mismatch (lit "from_user_id") from_user_id (lit "keys user") (uk_user_id keys)));;;
  let suite := default (uk_suite keys) suite_override in
  prekey_bundle <- sm_lift (bundle_to_core peer_bundle suite);;
  identity <- sm_lift (to_identity_keypair keys);;
  local_pq_signed_prekey <- sm_lift (to_pq_signed_prekey keys);;
  kem <- sm_lift (build_kem_for_suite MlKem768_new suite);;
  pq_verifier <- sm_lift (build_pq_signature_provider MlDsa65_new);;
  sm_lift (core (validate_hybrid_prekey_bundle_signatures prekey_bundle Ed25519SignatureVerifier
                   (pqs_verify pq_verifier)));;;
  initiator <- droid_core (alice_initiate Ed25519SignatureVerifier kem from_user_id peer_user_id identity
                             (kpk_public_key local_pq_signed_prekey) prekey_bundle plaintext_utf8);;
  initial_encoded <- sm_lift (core (InitialMessage_encode (io_initial_message initiator)));;
  session <- sm_lift (core (initiator_session (io_session_key initiator) identity local_pq_signed_prekey
                              prekey_bundle kem));;
  sm_ret (mkSendResult (b64_encode initial_encoded)
            (mkSessionFile 1 from_user_id peer_user_id suite (snapshot session)) true).

Definition encrypt_with_session (session_file : SessionFile) (sender_user_id peer_user_id plaintext_utf8 : bytes)
    : Droid SendResult :=
  sm_lift (same_or (sf_user_id session_file) sender_user_id
             (mismatch (lit "sender_user_id") sender_user_id (lit "session user") (sf_user_id session_file)));;;
  sm_lift (same_or (sf_peer_user_id session_file) peer_user_id
             (mismatch (lit "peer_user_id") peer_user_id (lit "session peer") (sf_peer_user_id session_file)));;;
  session <- sm_lift (restore_session session_file);;
  ad <- sm_lift (make_ad sender_user_id peer_user_id);;
  sent <- session_op session (SessionState_encrypt plaintext_utf8 ad);;
  sm_ret (mkSendResult (b64_encode sent.1)
            (mkSessionFile (sf_version session_file) (sf_user_id session_file) (sf_peer_user_id session_file)
               (sf_suite session_file) (snapshot sent.2)) false).

(** The two parts of [decrypt_message]. *)
Definition decrypt_initial (keys : UserKeysFile) (recipient_user_id sender_user_id : bytes) (initial : InitialMessage)
    : droid DecryptResult :=
  let? _ := same_or (im_sender_id initial) sender_user_id
              (mismatch (lit "sender_user_id") sender_user_id (lit "handshake sender") (im_sender_id initial)) in
  let? _ := same_or (im_recipient_id initial) recipient_user_id
              (mismatch (lit "recipient_user_id") recipient_user_id (lit "handshake recipient")
                 (im_recipient_id initial)) in
  let? suite := suite_from_suite_id (im_suite_id initial) in
  let? kem := build_kem_for_suite MlKem768_new suite in
  let? identity := to_identity_keypair keys in
  let? signed_prekey := to_signed_prekey keys in
  let? pq_signed_prekey := to_pq_signed_prekey keys in
  let? received := core (responder_session kem identity signed_prekey pq_signed_prekey initial) in
  Ok (mkDecryptResult (from_utf8_lossy received.1) (b64_encode received.1)
        (mkSessionFile 1 recipient_user_id sender_user_id suite (snapshot received.2)) true).

Definition decrypt_in_session (session_file : SessionFile) (recipient_user_id sender_user_id message_bytes : bytes)
    : Droid DecryptResult :=
  sm_lift (same_or (sf_user_id session_file) recipient_user_id
             (mismatch (lit "recipient_user_id") recipient_user_id (lit "session user") (sf_user_id session_file)));;;
  sm_lift (same_or (sf_peer_user_id session_file) sender_user_id
             (mismatch (lit "sender_user_id") sender_user_id (lit "session peer") (sf_peer_user_id session_file)));;;
  session <- sm_lift (restore_session session_file);;
  ad <- sm_lift (make_ad sender_user_id recipient_user_id);;
  received <- session_op session (SessionState_decrypt message_bytes ad);;
  sm_ret (mkDecryptResult (from_utf8_lossy received.1) (b64_encode received.1)
            (mkSessionFile (sf_version session_file) (sf_user_id session_file) (sf_peer_user_id session_file)
               (sf_suite session_file) (snapshot received.2)) false).

Definition decrypt_message (keys : UserKeysFile) (recipient_user_id sender_user_id message_bytes_base64 : bytes)
    (existing_session : option SessionFile) : Droid DecryptResult :=
  sm_lift (same_or (uk_user_id keys) recipient_user_id
             (mismatch (lit "recipient_user_id") recipient_user_id (lit "keys user") (uk_user_id keys)));;;
  message_bytes <- sm_lift (decode_b64 "message_bytes_base64" message_bytes_base64);;
  match InitialMessage_decode message_bytes with
  | Ok initial => sm_lift (decrypt_initial keys recipient_user_id sender_user_id initial)
  | Err _ =>
      session_file <- sm_lift (ok_or existing_session
        (invalid_input (lit "existing_session_json is required for non-handshake messages")));;
      decrypt_in_session session_file recipient_user_id sender_user_id message_bytes
  end.

(** ** Sealing *)

Definition seal_message_with_sender_cert (keys : UserKeysFile) (recipient_user_id recipient_identity_x25519_pub
    payload_message_bytes_base64 sender_certificate_base64 : bytes) : Droid bytes :=
  identity <- sm_lift (to_identity_keypair keys);;
  local_secret <- sm_lift (core (IdentityKeyPair_require_secret_key identity));;
  recipient_identity_pub <- sm_lift (decode_b64_32 "recipient_identity_x25519_pub" recipient_identity_x25519_pub);;
  payload <- sm_lift (decode_b64 "payload_message_bytes_base64" payload_message_bytes_base64);;
  certificate <- sm_lift (decode_b64 "sender_certificate_base64" sender_certificate_base64);;
  sender_certificate <- sm_lift (core (SenderCertificate_decode certificate));;
  sealed <- droid_core (seal_message_with_cert local_secret recipient_identity_pub
              (suite_id_for_user_keys (uk_suite keys)) recipient_user_id (uk_user_id keys) (uk_device_id keys)
              payload sender_certificate);;
  sm_ret (b64_encode sealed).

Definition open_sealed_message_with_sender_cert (keys : UserKeysFile) (sender_identity_x25519_pub : option bytes)
    (sealed_message_bytes_base64 server_issuer_ed25519_pub : bytes) : droid OpenedSealedMessageRecord :=
  let? identity := to_identity_keypair keys in
  let? local_secret := core (IdentityKeyPair_require_secret_key identity) in
  let? legacy_sender_identity_pub :=
    opt_droid (decode_b64_32 "sender_identity_x25519_pub") sender_identity_x25519_pub in
  let? server_pub := decode_b64_32 "server_issuer_ed25519_pub" server_issuer_ed25519_pub in
  let? server_pub_key := ok_or (ed_key_from_bytes server_pub)
    (operation_failed (lit "invalid server issuer ed25519 public key")) in
  let? now_unix_secs := ok_or clock (operation_failed (lit "system clock before unix epoch")) in
  let? sealed := decode_b64 "sealed_message_bytes_base64" sealed_message_bytes_base64 in
  let? opened := core (open_message_with_cert local_secret sealed (suite_id_for_user_keys (uk_suite keys))
                         (uk_user_id keys) (Some server_pub_key) now_unix_secs legacy_sender_identity_pub) in
  if bool_decide (oc_sender_cert opened = None)
  then Err (operation_failed (lit "sealed sender certificate missing from transport envelope"))
  else Ok (mkOpenedRecord (oc_sender_user_id opened) (oc_sender_device_id opened) (b64_encode (oc_payload opened))).
End AndroidSession.
