(* ===== verification/AndroidChat.v ===== *)
(** * Conversations of the Android client

    Two applications that store the session files the library returns, and a
    network that may deliver any message sent so far, any number of times and
    in any order. *)

From Stdlib Require Import Strings.Byte.
From S2P Require Import Prelude Bytes Errors Tlv Crypto Toy Alg Aead Ad Wire Ratchet PqRatchet Session SessionRun Conversation SessionFacts Keys Handshake EndToEnd PqSig Sealed RequestAuth PrekeyServer Android TransparencyService AndroidAuth AndroidKeys BundleFacts AndroidSession.
Local Open Scope N_scope.

(** ** The machine *)

Inductive ChatEvent :=
| ChatSend (from : Party) (text : bytes)
| ChatDeliver (to : Party) (i : nat).

Inductive ChatOutcome :=
| ChatSent
| ChatShown (text : bytes)
| ChatRefused (e : PqmsgAndroidError)
| ChatAbsent.

(** A message on its way: what the application relayed, and what the user wrote. *)
Record Chat `{P : Primitives} := mkChat {
  file_a : SessionFile;
  file_b : SessionFile;
  chat_gen : rng;
  out_a : list (bytes * bytes);
  out_b : list (bytes * bytes);
  shown_a : list nat;
  shown_b : list nat;
}.

Section Machine.
Context `{P : Primitives} `{V : Ed25519} `{B : Base64}.
Context (MlKem768_new : KemAlgorithm → option KemProvider).
Context (keys_a keys_b : UserKeysFile) (na nb : bytes).

Definition chat_step (c : Chat) (e : ChatEvent) : Chat * ChatOutcome :=
  match e with
  | ChatSend Alice text =>
      match encrypt_with_session MlKem768_new (file_a c) na nb text (chat_gen c) with
      | (g, Ok r) =>
          (mkChat _ (sr_session r) (file_b c) g (out_a c ++ [(sr_message_bytes_base64 r, text)]) (out_b c)
             (shown_a c) (shown_b c), ChatSent)
      | (g, Err e) => (mkChat _ (file_a c) (file_b c) g (out_a c) (out_b c) (shown_a c) (shown_b c), ChatRefused e)
      end
  | ChatSend Bob text =>
      match encrypt_with_session MlKem768_new (file_b c) nb na text (chat_gen c) with
      | (g, Ok r) =>
          (mkChat _ (file_a c) (sr_session r) g (out_a c) (out_b c ++ [(sr_message_bytes_base64 r, text)])
             (shown_a c) (shown_b c), ChatSent)
      | (g, Err e) => (mkChat _ (file_a c) (file_b c) g (out_a c) (out_b c) (shown_a c) (shown_b c), ChatRefused e)
      end
  | ChatDeliver Alice i =>
      match out_b c !! i with
      | None => (c, ChatAbsent)
      | Some (wire, _) =>
          match decrypt_message MlKem768_new keys_a na nb wire (Some (file_a c)) (chat_gen c) with
          | (g, Ok r) =>
              (mkChat _ (dr_session r) (file_b c) g (out_a c) (out_b c) (i :: shown_a c) (shown_b c),
               ChatShown (dr_plaintext_utf8 r))
          | (g, Err e) => (mkChat _ (file_a c) (file_b c) g (out_a c) (out_b c) (shown_a c) (shown_b c), ChatRefused e)
          end
      end
  | ChatDeliver Bob i =>
      match out_a c !! i with
      | None => (c, ChatAbsent)
      | Some (wire, _) =>
          match decrypt_message MlKem768_new keys_b nb na wire (Some (file_b c)) (chat_gen c) with
          | (g, Ok r) =>
              (mkChat _ (file_a c) (dr_session r) g (out_a c) (out_b c) (shown_a c) (i :: shown_b c),
               ChatShown (dr_plaintext_utf8 r))
          | (g, Err e) => (mkChat _ (file_a c) (file_b c) g (out_a c) (out_b c) (shown_a c) (shown_b c), ChatRefused e)
          end
      end
  end.

Definition chat_start (a b : SessionFile) (g : rng) : Chat := mkChat _ a b g [] [] [] [].
Definition chat_run (c : Chat) (es : list ChatEvent) : Chat := foldl (λ c e, (chat_step c e).1) c es.

(** What the users see of a delivery: the text that was written, at most once. *)
Definition shown_ok (out : list (bytes * bytes)) (shown : list nat) (i : nat) (o : ChatOutcome) : Prop :=
  match out !! i with
  | Some (_, text) => if decide (i ∈ shown) then ∃ e, o = ChatRefused e
                      else o = ChatShown (from_utf8_lossy text) ∨ ∃ e, o = ChatRefused e
  | None => o = ChatAbsent
  end.

Definition chat_ok (c : Chat) (e : ChatEvent) (o : ChatOutcome) : Prop :=
  match e with
  | ChatSend _ _ => o = ChatSent ∨ ∃ e, o = ChatRefused e
  | ChatDeliver Alice i => shown_ok (out_b c) (shown_a c) i o
  | ChatDeliver Bob i => shown_ok (out_a c) (shown_b c) i o
  end.

(** The library's session behind a file. *)
Record file_holds (f : SessionFile) (user peer : bytes) (s : SessionState) : Prop := {
  fh_user : sf_user_id f = user;
  fh_peer : sf_peer_user_id f = peer;
  fh_kem : ∃ K, build_kem_for_suite MlKem768_new (sf_suite f) = Ok K;
  fh_snapshot : sf_snapshot f = snapshot s;
}.

(** A relayed message and the packet it carries. *)
Definition carries (ad : bytes) (m : bytes * bytes) (p : option Packet) : Prop :=
  ∃ w, m.1 = b64_encode w ∧ p = Some (mkPacket w m.2 ad).

Record chat_inv (lab lba : Link) (w : N) (ad_ab ad_ba : bytes) (c : Chat) (a b : SessionState)
    (sa sb : list (option Packet)) : Prop := {
  ci_a : file_holds (file_a c) na nb a;
  ci_b : file_holds (file_b c) nb na b;
  ci_out_a : Forall2 (carries ad_ab) (out_a c) sa;
  ci_out_b : Forall2 (carries ad_ba) (out_b c) sb;
  ci_ab : direction lab true w a sa b (shown_b c);
  ci_ba : direction lba true w b sb a (shown_a c);
}.

Context `{!PrimitiveLaws P} `{!Base64Laws B}.
Context (ad_ab ad_ba : bytes).
Context (Had_ab : conversation_associated_data na nb = Ok ad_ab).
Context (Had_ba : conversation_associated_data nb na = Ok ad_ba).
Context (Hka : uk_user_id keys_a = na) (Hkb : uk_user_id keys_b = nb).

(** ** A message of a session is no initial message *)

Lemma decode_strict_first (input : bytes) (known : list N) (rs : list TlvRecord) :
  (4 ≤ length input)%nat → decode_strict input known = Ok rs → is_critical (from_be (take 2 input)) = true →
  from_be (take 2 input) ∈ known.
Proof.
  intros Hl H Hc. unfold decode_strict, decode_with_policy in H.
  destruct (length input) as [|k] eqn:E; [lia|]. cbn [decode_loop] in H. rewrite E in H.
  change (S k =? 0)%nat with false in H. rewrite (proj2 (Nat.ltb_ge _ _) Hl) in H.
  destruct (_ <? _)%nat; [done|]. rewrite Hc in H. case_bool_decide as Hin; [done|]. done.
Qed.

Lemma wire_not_initial (w : bytes) (d : DecodedWireMessage) :
  decode_wire_message w = Ok d → ∃ e, InitialMessage_decode w = Err e.
Proof.
  intros H. unfold decode_wire_message in H. destruct (len w <? 4) eqn:El; [done|]. apply N.ltb_ge in El.
  unfold InitialMessage_decode. destruct (decode_strict w InitialMessage_known_types) as [rs|e] eqn:E; [|by eexists].
  exfalso. assert (Ht : from_be (take 2 w) = TAG_VERSION ∨ from_be (take 2 w) = TAG_V2_VERSION).
  { destruct (N.eqb_spec (from_be (take 2 w)) TAG_VERSION); [by left|].
    destruct (N.eqb_spec (from_be (take 2 w)) TAG_V2_VERSION); [by right|done]. }
  apply decode_strict_first in E; [|unfold len in El; lia|by destruct Ht as [-> | ->]].
  destruct Ht as [Ht|Ht]; rewrite Ht in E; revert E; apply (bool_decide_unpack (¬ _)); vm_compute; done.
Qed.

(** ** Restored sessions *)

Lemma restored_file (f : SessionFile) (user peer : bytes) (s : SessionState) :
  file_holds f user peer s → skipped_inv (s_skipped s) →
  ∃ K, restore_session MlKem768_new f = Ok (with_kem (Some K) s).
Proof.
  intros [_ _ [K HK] Hs] Hinv. exists K. unfold restore_session. by rewrite HK, Hs, restore_snapshot.
Qed.

(** The file after an operation. *)
Definition stored (f : SessionFile) (s : SessionState) : SessionFile :=
  mkSessionFile (sf_version f) (sf_user_id f) (sf_peer_user_id f) (sf_suite f) (snapshot s).

Lemma stored_holds (f : SessionFile) (user peer : bytes) (s s' : SessionState) :
  file_holds f user peer s → file_holds (stored f s') user peer s'.
Proof. by intros []. Qed.

Lemma same_or_refl {A} `{EqDecision A} (x y : A) (e : PqmsgAndroidError) : x = y → same_or x y e = Ok tt.
Proof. intros ->. unfold same_or. by rewrite bool_decide_eq_true_2. Qed.

Lemma encrypt_run (f : SessionFile) (user peer text ad : bytes) (s s0 : SessionState) (g : rng) :
  file_holds f user peer s0 → restore_session MlKem768_new f = Ok s →
  conversation_associated_data user peer = Ok ad →
  encrypt_with_session MlKem768_new f user peer text g =
    let '((s', g'), r) := SessionState_encrypt text ad (s, g) in
    (g', let? w := core r in Ok (mkSendResult (b64_encode w) (stored f s') false)).
Proof.
  intros [Hu Hp _ _] Hr Had. unfold encrypt_with_session, sm_bind, sm_lift, make_ad, session_op, sm_ret.
  rewrite !same_or_refl, Hr, Had by done. cbn [core].
  destruct (SessionState_encrypt text ad (s, g)) as [[s' g'] [w|e]]; done.
Qed.

Lemma decrypt_run (f : SessionFile) (keys : UserKeysFile) (user peer w ad : bytes) (s s0 : SessionState) (g : rng)
    (d : DecodedWireMessage) :
  uk_user_id keys = user → file_holds f user peer s0 → restore_session MlKem768_new f = Ok s →
  conversation_associated_data peer user = Ok ad → decode_wire_message w = Ok d →
  decrypt_message MlKem768_new keys user peer (b64_encode w) (Some f) g =
    let '((s', g'), r) := SessionState_decrypt w ad (s, g) in
    (g', let? m := core r in Ok (mkDecryptResult (from_utf8_lossy m) (b64_encode m) (stored f s') false)).
Proof.
  intros Hk [Hu Hp _ _] Hr Had Hd. destruct (wire_not_initial w d Hd) as [e He].
  unfold decrypt_message, decrypt_in_session, sm_bind, sm_lift, make_ad, session_op, sm_ret.
  rewrite !same_or_refl, decode_b64_encode, He by done. cbn [ok_or]. rewrite !same_or_refl, Hr, Had by done.
  cbn [core]. destruct (SessionState_decrypt w ad (s, g)) as [[s' g'] [m|e']]; done.
Qed.

(** ** Every step *)

Definition chat_room (w : N) (c : Chat) (e : ChatEvent) : Prop :=
  match e with
  | ChatSend Alice _ => N.of_nat (S (length (out_a c))) ≤ w
  | ChatSend Bob _ => N.of_nat (S (length (out_b c))) ≤ w
  | ChatDeliver _ _ => True
  end.

Lemma carries_lookup (ad : bytes) (out : list (bytes * bytes)) (sent : list (option Packet)) (i : nat) :
  Forall2 (carries ad) out sent →
  match out !! i with
  | Some (wire, text) => ∃ w, wire = b64_encode w ∧ sent !! i = Some (Some (mkPacket w text ad))
  | None => sent !! i = None
  end.
Proof.
  intros H. destruct (out !! i) as [[wire text]|] eqn:E.
  - destruct (list.Forall2_lookup_l _ _ _ _ _ H E) as (p & Hp & w & Hw & ->). by exists w.
  - apply lookup_ge_None in E. apply lookup_ge_None. by rewrite <- (list.Forall2_length _ _ _ H).
Qed.

Lemma session_send (l : Link) (w : N) (f : SessionFile) (user peer text ad : bytes) (s r : SessionState)
    (sent : list (option Packet)) (got : list nat) (g : rng) :
  file_holds f user peer s → skipped_inv (s_skipped s) → direction l true w s sent r got →
  conversation_associated_data user peer = Ok ad → N.of_nat (S (length sent)) ≤ w →
  ∃ g' res, encrypt_with_session MlKem768_new f user peer text g = (g', res) ∧
    match res with
    | Ok out => ∃ s' wire, sr_message_bytes_base64 out = b64_encode wire ∧ file_holds (sr_session out) user peer s' ∧
        direction l true w s' (sent ++ [Some (mkPacket wire text ad)]) r got ∧ recv_view s' = recv_view s
    | Err _ => True
    end.
Proof.
  intros Hf Hsk Hd Had Hroom. destruct (restored_file _ _ _ _ Hf Hsk) as [K HK].
  rewrite (encrypt_run _ _ _ text ad _ _ g Hf HK Had).
  destruct (direction_send l true w (with_kem (Some K) s) r sent got g text ad)
    as (s' & g' & res & He & Hd' & Hv & _); [by eapply direction_frame; [| |exact Hd]|done|done|].
  rewrite He. eexists g', _. split; [done|]. destruct res as [wire|e]; [|done].
  exists s', wire. split_and!; [done|by eapply stored_holds|done|done].
Qed.

Lemma session_deliver (l : Link) (w : N) (f : SessionFile) (keys : UserKeysFile) (user peer text ad wire : bytes)
    (s r : SessionState) (sent : list (option Packet)) (got : list nat) (i : nat) (g : rng) :
  uk_user_id keys = user → file_holds f user peer r → skipped_inv (s_skipped r) → direction l true w s sent r got →
  conversation_associated_data peer user = Ok ad → sent !! i = Some (Some (mkPacket wire text ad)) →
  ∃ g' res, decrypt_message MlKem768_new keys user peer (b64_encode wire) (Some f) g = (g', res) ∧
    match res with
    | Ok out => (i ∉ got) ∧ dr_plaintext_utf8 out = from_utf8_lossy text ∧
        ∃ r', file_holds (dr_session out) user peer r' ∧ direction l true w s sent r' (i :: got) ∧
          send_view r' = send_view r
    | Err _ => True
    end.
Proof.
  intros Hk Hf Hsk Hd Had Hi. destruct (restored_file _ _ _ _ Hf Hsk) as [K HK].
  destruct (dir_packets _ _ _ _ _ _ _ Hd _ _ Hi) as (d & inc & Hdec & _).
  rewrite (decrypt_run _ _ _ _ wire ad _ _ g d Hk Hf HK Had Hdec).
  destruct (direction_deliver l true w s (with_kem (Some K) r) sent got g i _
    ltac:(by eapply direction_frame; [| |exact Hd]) Hi) as (r' & res & He & Hd' & Hv & _ & _ & Hres).
  cbn [pk_wire pk_ad] in He. rewrite He. eexists g, _. split; [done|]. destruct res as [m|e]; [|done].
  case_decide as Hg; [done|]. split; [done|]. destruct Hres as [[= ->]|(_ & e & ?)]; [|done].
  split; [done|]. exists r'. split_and!; [by eapply stored_holds|done|done].
Qed.

Lemma chat_step_inv (lab lba : Link) (w : N) (c : Chat) (e : ChatEvent) (a b : SessionState)
    (sa sb : list (option Packet)) :
  chat_inv lab lba w ad_ab ad_ba c a b sa sb → chat_room w c e →
  (∃ a b sa sb, chat_inv lab lba w ad_ab ad_ba (chat_step c e).1 a b sa sb) ∧ chat_ok c e (chat_step c e).2.
Proof.
  intros Hinv Hroom. pose proof Hinv as [Ha Hb Hoa Hob Hab Hba].
  assert (Ska : skipped_inv (s_skipped a)) by (by destruct Hba as [_ [] _ _ _]).
  assert (Skb : skipped_inv (s_skipped b)) by (by destruct Hab as [_ [] _ _ _]).
  destruct e as [[|] text|[|] i]; cbn [chat_step chat_ok].
  - destruct (session_send lab w (file_a c) na nb text ad_ab a b sa (shown_b c) (chat_gen c))
      as (g' & res & -> & Hres); [done..|by rewrite <- (list.Forall2_length _ _ _ Hoa)|].
    destruct res as [out|err]; [|by split; [exists a, b, sa, sb|right; eexists]].
    destruct Hres as (s' & wire & Hw & Hf & Hd & Hv). split; [|by left].
    exists s', b, (sa ++ [Some (mkPacket wire text ad_ab)]), sb. split; cbn; try done.
    + apply Forall2_app; [done|]. constructor; [by exists wire|constructor].
    + by eapply direction_frame; [| |exact Hba].
  - destruct (session_send lba w (file_b c) nb na text ad_ba b a sb (shown_a c) (chat_gen c))
      as (g' & res & -> & Hres); [done..|by rewrite <- (list.Forall2_length _ _ _ Hob)|].
    destruct res as [out|err]; [|by split; [exists a, b, sa, sb|right; eexists]].
    destruct Hres as (s' & wire & Hw & Hf & Hd & Hv). split; [|by left].
    exists a, s', sa, (sb ++ [Some (mkPacket wire text ad_ba)]). split; cbn; try done.
    + apply Forall2_app; [done|]. constructor; [by exists wire|constructor].
    + by eapply direction_frame; [| |exact Hab].
  - unfold shown_ok. pose proof (carries_lookup _ _ _ i Hob) as Hl.
    destruct (out_b c !! i) as [[wire64 text]|]; [|by split; [exists a, b, sa, sb|]].
    destruct Hl as (wire & -> & Hi).
    destruct (session_deliver lba w (file_a c) keys_a na nb text ad_ba wire b a sb (shown_a c) i (chat_gen c))
      as (g' & res & -> & Hres); [done..|].
    destruct res as [out|err]; [|by split; [exists a, b, sa, sb|case_decide; [eexists|right; eexists]]].
    destruct Hres as (Hg & Ht & r' & Hf & Hd & Hv). cbn [fst snd]. rewrite decide_False, Ht by done. split; [|by left].
    exists r', b, sa, sb. split; cbn; try done. by eapply direction_frame; [| |exact Hab].
  - unfold shown_ok. pose proof (carries_lookup _ _ _ i Hoa) as Hl.
    destruct (out_a c !! i) as [[wire64 text]|]; [|by split; [exists a, b, sa, sb|]].
    destruct Hl as (wire & -> & Hi).
    destruct (session_deliver lab w (file_b c) keys_b nb na text ad_ab wire a b sa (shown_b c) i (chat_gen c))
      as (g' & res & -> & Hres); [done..|].
    destruct res as [out|err]; [|by split; [exists a, b, sa, sb|case_decide; [eexists|right; eexists]]].
    destruct Hres as (Hg & Ht & r' & Hf & Hd & Hv). cbn [fst snd]. rewrite decide_False, Ht by done. split; [|by left].
    exists a, r', sa, sb. split; cbn; try done. by eapply direction_frame; [| |exact Hba].
Qed.

(** ** Runs *)

Fixpoint chat_sends (p : Party) (es : list ChatEvent) : nat :=
  match es with
  | [] => 0
  | ChatSend q _ :: es => if decide (q = p) then S (chat_sends p es) else chat_sends p es
  | ChatDeliver _ _ :: es => chat_sends p es
  end.

Lemma chat_sends_app (p : Party) (es es' : list ChatEvent) :
  chat_sends p (es ++ es') = (chat_sends p es + chat_sends p es')%nat.
Proof. induction es as [|[q t|q i] es IH]; simpl; [done|destruct (decide (q = p)); rewrite IH; lia|done]. Qed.

Lemma chat_step_out (c : Chat) (e : ChatEvent) :
  (length (out_a (chat_step c e).1) ≤ length (out_a c) + chat_sends Alice [e])%nat ∧
  (length (out_b (chat_step c e).1) ≤ length (out_b c) + chat_sends Bob [e])%nat.
Proof.
  destruct e as [[|] t|[|] i]; cbn [chat_step].
  - destruct (encrypt_with_session _ _ _ _ _ _) as [g [r|err]]; cbn; rewrite ?length_app; simpl; lia.
  - destruct (encrypt_with_session _ _ _ _ _ _) as [g [r|err]]; cbn; rewrite ?length_app; simpl; lia.
  - destruct (out_b c !! i) as [[? ?]|]; [destruct (decrypt_message _ _ _ _ _ _ _) as [g [r|err]]|]; cbn; lia.
  - destruct (out_a c !! i) as [[? ?]|]; [destruct (decrypt_message _ _ _ _ _ _ _) as [g [r|err]]|]; cbn; lia.
Qed.

Lemma chat_run_inv (lab lba : Link) (w : N) (es : list ChatEvent) (c : Chat) :
  (∃ a b sa sb, chat_inv lab lba w ad_ab ad_ba c a b sa sb) →
  N.of_nat (length (out_a c) + chat_sends Alice es) ≤ w → N.of_nat (length (out_b c) + chat_sends Bob es) ≤ w →
  (∃ a b sa sb, chat_inv lab lba w ad_ab ad_ba (chat_run c es) a b sa sb) ∧
  (length (out_a (chat_run c es)) ≤ length (out_a c) + chat_sends Alice es)%nat ∧
  (length (out_b (chat_run c es)) ≤ length (out_b c) + chat_sends Bob es)%nat.
Proof.
  revert c. induction es as [|e es IH]; intros c Hinv Ha Hb; [split; [done|simpl; lia]|].
  change (e :: es) with ([e] ++ es) in Ha, Hb |- *. rewrite !chat_sends_app in *.
  destruct (chat_step_out c e) as [Hla Hlb]. destruct Hinv as (a & b & sa & sb & Hinv).
  destruct (chat_step_inv lab lba w c e a b sa sb Hinv) as [Hinv' _].
  { destruct e as [[|] t|[|] i]; unfold chat_room; simpl chat_sends in *; done || lia. }
  destruct (IH (chat_step c e).1 Hinv') as (H & H1 & H2); [lia..|]. split; [exact H|].
  change (chat_run c ([e] ++ es)) with (chat_run (chat_step c e).1 es). lia.
Qed.

Lemma chat_run_ok (lab lba : Link) (w : N) (es : list ChatEvent) (e : ChatEvent) (c : Chat) :
  (∃ a b sa sb, chat_inv lab lba w ad_ab ad_ba c a b sa sb) → out_a c = [] → out_b c = [] →
  N.of_nat (chat_sends Alice (es ++ [e])) ≤ w → N.of_nat (chat_sends Bob (es ++ [e])) ≤ w →
  chat_ok (chat_run c es) e (chat_step (chat_run c es) e).2.
Proof.
  intros Hinv Ea Eb. rewrite !chat_sends_app. intros Ha Hb.
  destruct (chat_run_inv lab lba w es c Hinv) as ((a & b & sa & sb & H) & Hla & Hlb); [rewrite ?Ea, ?Eb; simpl; lia..|].
  rewrite Ea in Hla. rewrite Eb in Hlb. simpl in Hla, Hlb.
  apply (chat_step_inv lab lba w _ e a b sa sb H). destruct e as [[|] t|[|] i]; unfold chat_room; simpl chat_sends in *; done || lia.
Qed.
End Machine.

(** ** Keys the client generates *)

Record KeyMaterial := mkMaterial {
  km_identity : DhKeyPair;
  km_signed_prekey : DhKeyPair;
  km_signing : bytes;
  km_pq_signing : PqSigKeyPair;
  km_kem : KemKeyPair;
}.

Section Material.
Context `{P : Primitives} `{L : !PrimitiveLaws P} `{V : Ed25519} `{VL : !Ed25519Laws V} `{B : Base64} `{BL : !Base64Laws B}.
Context (MlKem768_new : KemAlgorithm → option KemProvider) (K : KemProvider) (KL : KemLaws K).
Context (Q : PqSignatureProvider) (QL : PqSigLaws Q).

(** A key file and the keys in it. *)
Record holds_keys (keys : UserKeysFile) (k : KeyMaterial) : Prop := {
  hk_ik : uk_identity_x25519_pub_b64 keys = b64_encode (public (km_identity k)) ∧
          uk_identity_x25519_secret_b64 keys = b64_encode (secret (km_identity k));
  hk_spk : uk_signed_prekey_x25519_pub_b64 keys = b64_encode (public (km_signed_prekey k)) ∧
           uk_signed_prekey_x25519_secret_b64 keys = b64_encode (secret (km_signed_prekey k));
  hk_sig : uk_identity_sig_pub_b64 keys = b64_encode (ed_public (km_signing k)) ∧
           uk_identity_sig_secret_b64 keys = b64_encode (km_signing k);
  hk_pq : uk_identity_pq_sig_pub_b64 keys = b64_encode (pqs_public_key (km_pq_signing k)) ∧
          uk_identity_pq_sig_secret_b64 keys = b64_encode (pqs_secret_key (km_pq_signing k));
  hk_kem : uk_pq_signed_prekey_pub_b64 keys = b64_encode (kem_public_key (km_kem k)) ∧
           uk_pq_signed_prekey_secret_b64 keys = b64_encode (kem_secret_key (km_kem k));
  hk_ik_wf : dh_keypair_wf (km_identity k);
  hk_spk_wf : dh_keypair_wf (km_signed_prekey k);
  hk_sig_wf : length (km_signing k) = 32%nat;
  hk_pq_wf : pqs_pair (pqs_public_key (km_pq_signing k)) (pqs_secret_key (km_pq_signing k));
  hk_kem_wf : kem_pair (kem_public_key (km_kem k)) (kem_secret_key (km_kem k));
}.

Lemma generated_keys (user device : bytes) (suite : Suite) (count : N) (keys : UserKeysFile) (g g' : rng) :
  MlKem768_new (suite_to_kem_algorithm suite) = Some K →
  generate_identity_keys MlKem768_new (Some Q) user device suite count g = (g', Ok keys) →
  uk_user_id keys = user ∧ uk_device_id keys = device ∧ uk_suite keys = suite ∧
  ∃ k, holds_keys keys k ∧ ∃ g1 g2, kem_keypair K g1 = (Ok (km_kem k), g2).
Proof.
  intros HK H. unfold generate_identity_keys in H. drun H H1. drun H H2. drun H H3. drun H Hik. drun H Hspk.
  unfold generate_signing_key in H. drun H Hsig. drun H Hp. injection Hp as <-. drun H Hpq. drun H Hkem.
  unfold build_kem_for_suite in Hkem. rewrite HK in Hkem. injection Hkem as <-. drun H Hkp. drun H Ho.
  injection H as _ <-. split_and!; [done..|].
  pose proof (IdentityKeyPair_generate_wf (user ++ lit "-ik") g) as W1. rewrite Hik in W1. cbn [fst] in W1.
  pose proof (OneTimePreKey_generate_wf (user ++ lit "-spk") g0) as W2. rewrite Hspk in W2. cbn [fst] in W2.
  pose proof (rng_fill_length 32 g1) as W3. rewrite Hsig in W3.
  exists (mkMaterial (ik_pair a) (otpk_pair a0) a1 a2 a3). split; [|by eexists _, _]. split; cbn; try done.
  - by eapply pqs_keypair_pair.
  - by eapply kem_keypair_pair.
Qed.

(** The keys as the core sees them. *)
Definition core_identity (keys : UserKeysFile) (k : KeyMaterial) : IdentityKeyPair :=
  {| ik_key_id := uk_user_id keys ++ lit "-ik"; ik_public_key := public (km_identity k);
     ik_secret_key := secret (km_identity k); ik_pq_sig_public_key := Some (pqs_public_key (km_pq_signing k));
     ik_pq_sig_secret_key := Some (pqs_secret_key (km_pq_signing k)) |}.
Definition core_spk (keys : UserKeysFile) (k : KeyMaterial) : OneTimePreKey :=
  {| otpk_key_id := uk_user_id keys ++ lit "-spk"; otpk_public_key := public (km_signed_prekey k);
     otpk_secret_key := secret (km_signed_prekey k) |}.
Definition core_pqspk (keys : UserKeysFile) (k : KeyMaterial) : KEMPreKey :=
  {| kpk_key_id := uk_user_id keys ++ lit "-pqspk"; kpk_public_key := kem_public_key (km_kem k);
     kpk_secret_key := kem_secret_key (km_kem k) |}.

Lemma core_keys (keys : UserKeysFile) (k : KeyMaterial) :
  holds_keys keys k →
  to_identity_keypair keys = Ok (core_identity keys k) ∧ to_signed_prekey keys = Ok (core_spk keys k) ∧
  to_pq_signed_prekey keys = Ok (core_pqspk keys k).
Proof.
  intros [[I1 I2] [S1 S2] _ [Q1 Q2] [K1 K2] WI WS _ _ _].
  unfold to_identity_keypair, to_signed_prekey, to_pq_signed_prekey. rewrite I1, I2, S1, S2, Q1, Q2, K1, K2.
  rewrite !decode_b64_32_encode, !decode_b64_encode by (by apply dh_keypair_public_length). done.
Qed.

(** ** Publication *)

(** The bundle a server makes of an upload of [keys], with the one-time keys it
    hands out. *)
Definition published_bundle_with (keys : UserKeysFile) (pub : PublishPrekeysRequest) (otk pq_otk : option bytes)
    : ServerBundle :=
  mkServerBundle (uk_user_id keys) (uk_identity_x25519_pub_b64 keys) (uk_identity_sig_pub_b64 keys)
    (uk_identity_pq_sig_pub_b64 keys) (pp_signed_prekey_x25519_pub pub) (pp_sig_over_spk pub)
    (pp_pq_signed_prekey_pub_mlkem768 pub) (pp_sig_over_pqspk pub) (pp_pq_sig_over_spk pub)
    (pp_pq_sig_over_pqspk pub) otk pq_otk.

Definition published_bundle (keys : UserKeysFile) (pub : PublishPrekeysRequest) : ServerBundle :=
  published_bundle_with keys pub None None.

Lemma ed_verifier_accepts (sk m : bytes) :
  length sk = 32%nat → Ed25519SignatureVerifier (ed_public sk) m (ed_sign sk m) = Ok tt.
Proof.
  intros Hl. pose proof (ed_public_pair sk Hl) as Hp. destruct (ed_correct _ _ m Hp) as (vk & s & Hk & Hs & Hv).
  unfold Ed25519SignatureVerifier. rewrite (proj1 (ed_pair_length _ _ Hp)), ed_sign_length, Hk, Hs. cbn. by rewrite Hv.
Qed.

Lemma published_accepted_with (otpk : option OneTimePreKey) (opq : option bytes) (keys : UserKeysFile) (k : KeyMaterial) (pub : PublishPrekeysRequest) (g g' : rng) (suite : Suite) :
  (∀ o, otpk = Some o → dh_keypair_wf (otpk_pair o)) →
  holds_keys keys k → build_publish_prekeys_payload (Some Q) keys g = (g', Ok pub) →
  ∃ bundle, bundle_to_core (published_bundle_with keys pub (b64_encode <$> (otpk_public_key <$> otpk)) (b64_encode <$> opq)) suite = Ok bundle ∧
    bundle_of (core_identity keys k) (core_spk keys k) (core_pqspk keys k) otpk bundle ∧
    pb_owner_id bundle = uk_user_id keys ∧ pb_suite bundle = core_suite suite ∧
    validate_hybrid_prekey_bundle_signatures bundle Ed25519SignatureVerifier (pqs_verify Q) = Ok tt.
Proof.
  intros Ho Hk H. pose proof Hk as [[I1 I2] [S1 S2] [G1 G2] [Q1 Q2] [K1 K2] WI WS WG WQ _].
  unfold build_publish_prekeys_payload, build_pq_signature_payload in H.
  rewrite S1, K1, G2, Q2 in H. rewrite decode_b64_32_encode, !decode_b64_encode in H by (by apply dh_keypair_public_length).
  unfold decode_signing_key_b64 in H. rewrite decode_b64_encode, WG in H. cbn [Nat.eqb] in H.
  drun H H1. injection H1 as <-. drun H H2. injection H2 as <-. drun H H3. injection H3 as <-. drun H H4.
  injection H4 as <-. drun H H5. drun H Hm1. drun H Hm2. drun H Hq1. drun H Hq2. injection H as _ <-.
  drun Hq1 Hp1. injection Hp1 as <-. drun Hq1 Hs1. injection Hq1 as -> <-.
  drun Hq2 Hp2. injection Hp2 as <-. drun Hq2 Hs2. injection Hq2 as -> <-.
  unfold core in Hm1, Hm2. destruct (signed_prekey_signature_message _ _) as [m1|] eqn:E1; [|done]. injection Hm1 as <-.
  destruct (pq_signed_prekey_signature_message _ _) as [m2|] eqn:E2; [|done]. injection Hm2 as <-.
  destruct (pqs_correct _ _ _ _ _ _ WQ Hs1) as [V1 _]. destruct (pqs_correct _ _ _ _ _ _ WQ Hs2) as [V2 _].
  unfold published_bundle_with, build_signature_payload. cbn. rewrite I1, G1, Q1.
  eexists. split; [apply (bundle_decodes BL _ _ _ _ _ _ _ _ _ _ (otpk_public_key <$> otpk) opq); [by apply dh_keypair_public_length..|]|].
  { intros key Hkey. destruct otpk as [o|]; [|done]. injection Hkey as <-. by apply (dh_keypair_public_length (otpk_pair o)), Ho. }
  split_and!; [by split|done|done|]. apply (proj1 (prekey_signatures_spec _ _ _)).
  eexists m1, m2, _, _, _. split_and!; cbn; try done; by apply ed_verifier_accepts.
Qed.

Lemma published_accepted (keys : UserKeysFile) (k : KeyMaterial) (pub : PublishPrekeysRequest) (g g' : rng) (suite : Suite) :
  holds_keys keys k → build_publish_prekeys_payload (Some Q) keys g = (g', Ok pub) →
  ∃ bundle, bundle_to_core (published_bundle keys pub) suite = Ok bundle ∧
    bundle_of (core_identity keys k) (core_spk keys k) (core_pqspk keys k) None bundle ∧
    pb_owner_id bundle = uk_user_id keys ∧ pb_suite bundle = core_suite suite ∧
    validate_hybrid_prekey_bundle_signatures bundle Ed25519SignatureVerifier (pqs_verify Q) = Ok tt.
Proof. by apply (published_accepted_with None None). Qed.
End Material.

(** ** The theorem *)

Lemma suite_of_core (suite : Suite) (i : N) : suite_id (core_suite suite) = Ok i → suite_from_suite_id i = Ok suite.
Proof. destruct suite; vm_compute; by intros [= <-]. Qed.

Lemma conversation_ad_ok (s r : bytes) :
  fits s = true → fits r = true → ∃ ad, conversation_associated_data s r = Ok ad.
Proof.
  intros Hs Hr. unfold conversation_associated_data. apply encode_fits. cbn. by rewrite Hs, Hr.
Qed.

(** What first contact gives both applications. *)
Record contact_made `{P : Primitives} `{V : Ed25519} `{B : Base64} (MlKem768_new : KemAlgorithm → option KemProvider)
    (kb : UserKeysFile) (na nb text : bytes) (send : SendResult) (received : DecryptResult) : Prop := {
  cm_received : ∀ g, decrypt_message MlKem768_new kb nb na (sr_message_bytes_base64 send) None g = (g, Ok received);
  cm_text : dr_plaintext_utf8 received = from_utf8_lossy text;
  cm_linked : ∀ gen ad_ab ad_ba, ∃ lab lba a b, chat_inv MlKem768_new na nb lab lba CLI_MAX_SKIPPED ad_ab ad_ba
    (chat_start (sr_session send) (dr_session received) gen) a b [] [];
}.

Section Contact.
Context `{P : Primitives} `{L : !PrimitiveLaws P} `{V : Ed25519} `{VL : !Ed25519Laws V} `{B : Base64} `{BL : !Base64Laws B}.
Context (MlKem768_new : KemAlgorithm → option KemProvider) (K : KemProvider) (KL : KemLaws K).
Context (Q : PqSignatureProvider) (QL : PqSigLaws Q).

Lemma android_contact (suite : Suite) (ka kb : UserKeysFile) (a b : KeyMaterial) (pub : PublishPrekeysRequest)
    (na nb text : bytes) (gp gp' g : rng) :
  MlKem768_new (suite_to_kem_algorithm suite) = Some K →
  (∀ pk sk g, kem_pair pk sk → ∃ e g', kem_encapsulate K pk g = (Ok e, g') ∧ fits (kem_ciphertext e) = true) →
  fits (kem_public_key (km_kem a)) = true →
  uk_user_id ka = na → uk_user_id kb = nb → uk_suite ka = suite → holds_keys K KL Q QL ka a → holds_keys K KL Q QL kb b →
  build_publish_prekeys_payload (Some Q) kb gp = (gp', Ok pub) →
  utf8_valid na && utf8_valid nb = true → fits na && fits nb = true → len text + 16 ≤ u16_max →
  ∃ g' send received,
    initiate_session_and_encrypt MlKem768_new (Some Q) ka na nb (published_bundle kb pub) text None g = (g', Ok send) ∧
    contact_made MlKem768_new kb na nb text send received.
Proof.
  intros HK Hkem Fa Hna Hnb Hsu Ha Hb Hpub Hutf Hfits Htext.
  apply andb_true_iff in Hutf as [U1 U2]. apply andb_true_iff in Hfits as [F1 F2].
  destruct (published_accepted _ _ _ _ kb b pub gp gp' suite Hb Hpub) as (bundle & Hbun & Hof & Hown & Hbs & Hval).
  destruct (core_keys _ _ _ _ _ _ Ha) as (Ia & Sa & Ka). destruct (core_keys _ _ _ _ _ _ Hb) as (Ib & Sb & Kb).
  pose proof Ha as [_ _ _ _ _ WIa WSa _ _ WKa]. pose proof Hb as [_ _ _ _ _ WIb WSb _ _ WKb].
  destruct (Hkem _ _ (generate_keypair g).2 WKb) as (e & g2 & He & Fe).
  assert (Hval1 : validate_prekey_bundle_signatures bundle Ed25519SignatureVerifier = Ok tt).
  { unfold validate_hybrid_prekey_bundle_signatures in Hval.
    by destruct (validate_prekey_bundle_signatures _ _) as [[]|]. }
  destruct (contact K KL Ed25519SignatureVerifier na nb text (core_identity ka a) (core_identity kb b) (core_spk kb b)
    (core_pqspk ka a) (core_pqspk kb b) bundle g g2 e) as (out & g' & wire & sa & sb & Hal & Hen & Hde & Hs & Hr & Hsid & Hia
    & Hrb & Hlink); try done.
  { rewrite U1, U2, Hown, Hnb. by rewrite U2. }
  { rewrite F1, F2, Hown, Hnb, F2, Fe. cbn [core_pqspk kpk_public_key]. by rewrite Fa. }
  assert (HKok : build_kem_for_suite MlKem768_new suite = Ok K) by (unfold build_kem_for_suite; by rewrite HK).
  rewrite Hbs in Hsid. apply suite_of_core in Hsid.
  eexists g', _, _. split; [|split].
  - unfold initiate_session_and_encrypt, sm_bind, sm_lift. rewrite same_or_refl by done. cbn [default].
    rewrite Hsu, Hbun, Ia, Ka, HKok. cbn [build_pq_signature_provider ok_or]. rewrite Hval. cbn [core]. unfold droid_core. rewrite Hal. cbn [core]. rewrite Hen, Hia. done.
  - intros g0. cbn [sr_message_bytes_base64]. unfold decrypt_message, sm_bind, sm_lift. rewrite same_or_refl by done.
    rewrite decode_b64_encode, Hde. unfold decrypt_initial. rewrite !same_or_refl, Hsid, HKok, Ib, Sb, Kb by done.
    rewrite Hrb. cbn [core fst snd]. reflexivity.
  - done.
  - intros gen ad_ab ad_ba. destruct (Hlink gen) as (lab & lba & [Hab Hba _]).
    exists lab, lba, sa, sb. split; try done; try constructor; try done; cbn; by exists K.
Qed.
End Contact.


Definition toy_gen_keys (user device : bytes) (g : @rng Toy) : @rng Toy * droid UserKeysFile :=
  generate_identity_keys (λ _, Some ToyKem) (Some ToyPqSig) user device SuiteMlKem768 1 g.

Lemma toy_generated : ∃ ga gb gp ka kb pub,
  toy_gen_keys (lit "alice") (lit "d1") 0 = (ga, Ok ka) ∧ toy_gen_keys (lit "bob") (lit "d2") 50 = (gb, Ok kb) ∧
  build_publish_prekeys_payload (P := Toy) (Some ToyPqSig) kb (60 : @rng Toy) = (gp, Ok pub).
Proof.
  destruct (toy_gen_keys (lit "alice") (lit "d1") 0) as [ga [ka|e]] eqn:Ea; [|by vm_compute in Ea].
  assert (H : match (toy_gen_keys (lit "bob") (lit "d2") 50).2 with
              | Ok kb => is_ok (build_publish_prekeys_payload (P := Toy) (Some ToyPqSig) kb (60 : @rng Toy)).2
              | Err _ => false end = true) by (vm_compute; reflexivity).
  destruct (toy_gen_keys (lit "bob") (lit "d2") 50) as [gb [kb|e]]; [|done]. cbn [snd] in H.
  destruct (build_publish_prekeys_payload _ kb _) as [gp [pub|e]] eqn:Ep; [|done].
  exists ga, gb, gp, ka, kb, pub. split; [done|]. split; [done|exact Ep].
Qed.

