(* ===== verification/RegistrationPow.v ===== *)
(** * The proof of work of a registration ([pqmsg-cli/src/main.rs])

    The client searches a nonce, counting from zero, and registers with it. The
    client has copies of the server's [registration_pow_message] and
    [has_leading_zero_bits]; those of [Accounts] and [Caches] stand for both. The
    theorem: the search ends, with the first nonce that passes the server's
    check, or with an error when no counter of 64 bits does. *)

From Stdlib Require Import Strings.Byte.
From S2P Require Import Prelude Bytes Errors Crypto Toy ServerError Validation Caches RequestAuth PrekeyServer ClientAuth Accounts Android AndroidAuth.
Local Open Scope N_scope.

Definition MAX_REGISTRATION_POW_BITS : N := 26.

(** [format!("{counter:x}")] of a [u64]: sixteen digits at most. *)
Definition hex_digit (d : N) : byte := byte_of_N (if d <? 10 then 0x30 + d else 0x57 + d).

Fixpoint lower_hex (fuel : nat) (n : N) (acc : bytes) : bytes :=
  match fuel with
  | O => acc
  | S fuel =>
      let acc := hex_digit (n mod 16) :: acc in
      if n / 16 =? 0 then acc else lower_hex fuel (n / 16) acc
  end.

Definition format_hex (counter : N) : bytes := lower_hex 16 counter [].

Section Solver.
Context `{P : Primitives}.

(** The loop. [None]: [fuel] rounds were not enough. *)
Fixpoint solve_loop (fuel : nat) (request : RegisterUserRequest) (bits counter : N) : option (cli bytes) :=
  match fuel with
  | O => None
  | S fuel =>
      let nonce := format_hex counter in
      let digest := sha256 (registration_pow_message request nonce) in
      if has_leading_zero_bits digest bits then Some (Ok nonce)
      else if counter =? u64_max then Some (Err (lit "registration pow nonce space exhausted"))
      else solve_loop fuel request bits (counter + 1)
  end.

Definition solve_registration_pow (fuel : nat) (request : RegisterUserRequest) (bits : N) : option (cli bytes) :=
  if bits =? 0 then Some (Ok (lit "0"))
  else if MAX_REGISTRATION_POW_BITS <? bits
  then Some (Err (lit "server requested registration pow bits=" ++ decimal bits ++ lit "; max supported by cli is "
                  ++ decimal MAX_REGISTRATION_POW_BITS))
  else solve_loop fuel request bits 0.

(** The request [register_user] posts. *)
Definition registration_request (fuel : nat) (user_id device_id identity_x25519_pub_b64 identity_sig_pub_b64 : bytes)
    (identity_pq_sig_pub_b64 : option bytes) (registration_pow_bits : N) : option (cli RegisterUserRequest) :=
  match identity_pq_sig_pub_b64 with
  | None => Some (Err (lit "keys file is missing identity_pq_sig_pub_b64; regenerate keys"))
  | Some pq =>
      let request := mkRegister user_id identity_x25519_pub_b64 identity_sig_pub_b64 pq device_id in
      if 0 <? registration_pow_bits then
        match solve_registration_pow fuel (request None) registration_pow_bits with
        | Some (Ok nonce) => Some (Ok (request (Some nonce)))
        | Some (Err e) => Some (Err e)
        | None => None
        end
      else Some (Ok (request None))
  end.

(** ** The nonces *)

Lemma hex_digit_alphanumeric (n : N) : is_ascii_alphanumeric (hex_digit (n mod 16)) = true.
Proof.
  assert (H : n mod 16 < 16) by (apply N.mod_lt; done). revert H. generalize (n mod 16). intros d Hd.
  assert (Hall : forallb (λ d, is_ascii_alphanumeric (hex_digit (N.of_nat d))) (seq 0 16) = true) by reflexivity.
  rewrite forallb_forall in Hall. specialize (Hall (N.to_nat d)). rewrite N2Nat.id in Hall. apply Hall.
  apply in_seq. lia.
Qed.

Lemma lower_hex_spec (fuel : nat) (n : N) (acc : bytes) :
  forallb is_ascii_alphanumeric acc = true →
  forallb is_ascii_alphanumeric (lower_hex fuel n acc) = true ∧
  (length (lower_hex fuel n acc) ≤ fuel + length acc)%nat ∧
  ((0 < fuel)%nat → lower_hex fuel n acc ≠ []).
Proof.
  revert n acc. induction fuel as [|fuel IH]; intros n acc Ha; [cbn [lower_hex]; split_and!; [done|lia|lia]|].
  cbn [lower_hex]. assert (Hd : forallb is_ascii_alphanumeric (hex_digit (n mod 16) :: acc) = true).
  { cbn [forallb]. by rewrite hex_digit_alphanumeric. }
  destruct (n / 16 =? 0); [split_and!; [done|simpl; lia|done]|].
  destruct (IH (n / 16) _ Hd) as (H1 & H2 & H3). split_and!; [done|simpl in *; lia|]. intros _.
  destruct fuel; [done|]. apply H3. lia.
Qed.

Lemma alphanumeric_plain (b : byte) : is_ascii_alphanumeric b = true → plain b = true.
Proof. by destruct b. Qed.

Lemma alphanumeric_head_plain (l : bytes) : forallb is_ascii_alphanumeric l = true → l ≠ [] → plain (default x00 (head l)) = true.
Proof. destruct l as [|b l]; [done|]. cbn. intros [H _]%andb_true_iff _. by apply alphanumeric_plain. Qed.

Lemma nonce_valid (counter : N) : validate_pow_nonce (format_hex counter) = Ok tt.
Proof.
  destruct (lower_hex_spec 16 counter [] eq_refl) as (Ha & Hl & Hne). fold (format_hex counter) in *.
  specialize (Hne ltac:(lia)). simpl in Hl. set (v := format_hex counter) in *. clearbody v.
  assert (Hr : forallb is_ascii_alphanumeric (rev v) = true).
  { apply forallb_forall. intros b Hb. rewrite forallb_forall in Ha. apply Ha. by apply in_rev. }
  assert (Hrne : rev v ≠ []) by (intros E; apply Hne; by rewrite <- (rev_involutive v), E).
  unfold validate_pow_nonce. rewrite str_trim_plain by (by apply alphanumeric_head_plain).
  destruct v as [|b v]; [done|]. unfold MAX_POW_NONCE_LEN.
  replace (len (b :: v) =? 0) with false by (symmetry; apply N.eqb_neq; unfold len; simpl; lia).
  replace (128 <? len (b :: v)) with false by (symmetry; apply N.ltb_ge; unfold len; lia). cbn [orb].
  rewrite (proj2 (forallb_forall _ _)); [done|]. intros x Hx. rewrite forallb_forall in Ha. by rewrite (Ha x Hx).
Qed.

(** ** The search *)

Definition passes (request : RegisterUserRequest) (bits counter : N) : bool :=
  has_leading_zero_bits (sha256 (registration_pow_message request (format_hex counter))) bits.

Lemma solve_loop_ends (fuel : nat) (request : RegisterUserRequest) (bits counter : N) :
  counter ≤ u64_max → u64_max - counter < N.of_nat fuel →
  (∃ c, counter ≤ c ≤ u64_max ∧ passes request bits c = true ∧ (∀ c', counter ≤ c' < c → passes request bits c' = false) ∧
     solve_loop fuel request bits counter = Some (Ok (format_hex c))) ∨
  ((∀ c, counter ≤ c ≤ u64_max → passes request bits c = false) ∧
   solve_loop fuel request bits counter = Some (Err (lit "registration pow nonce space exhausted"))).
Proof.
  revert counter. induction fuel as [|fuel IH]; intros counter Hc Hf; [lia|]. cbn [solve_loop].
  fold (passes request bits counter). destruct (passes request bits counter) eqn:Ep.
  { left. exists counter. split_and!; [lia|lia|done|intros; lia|done]. }
  destruct (N.eqb_spec counter u64_max) as [E|E].
  { right. split; [|done]. intros c Hcc. replace c with counter by lia. done. }
  destruct (IH (counter + 1)) as [(c & Hcc & Hp & Hfirst & Hs)|[Hnone Hs]]; [lia..| |].
  - left. exists c. split_and!; [lia|lia|done| |done]. intros c' Hc'.
    destruct (N.eq_dec c' counter) as [->|]; [done|]. apply Hfirst. lia.
  - right. split; [|done]. intros c Hcc. destruct (N.eq_dec c counter) as [->|]; [done|]. apply Hnone. lia.
Qed.
End Solver.

(** C35: The search for the proof of work of a registration ends after at most 2^64
    rounds, for every request and every number of bits the client supports: it
    returns the nonce of the least counter whose digest has the zero bits, and
    the server's check accepts the request with that nonce; or it fails, and then
    no counter of 64 bits would have passed. *)
Theorem pow_solver_terminates (P : Primitives) (user device x sig pq : bytes) (bits : N) (fuel : nat) :
  2 ^ 64 ≤ N.of_nat fuel → 0 < bits ≤ MAX_REGISTRATION_POW_BITS →
  let request := mkRegister user x sig pq device in
  (∃ c, c < 2 ^ 64 ∧ (∀ c', c' < c → passes (request None) bits c' = false) ∧
     registration_request fuel user device x sig (Some pq) bits = Some (Ok (request (Some (format_hex c)))) ∧
     enforce_registration_pow bits (request (Some (format_hex c))) = Ok tt) ∨
  ((∀ c, c < 2 ^ 64 → passes (request None) bits c = false) ∧
   ∃ e, registration_request fuel user device x sig (Some pq) bits = Some (Err e)).
Proof.
  intros Hf [Hb1 Hb2] request. unfold registration_request, solve_registration_pow. fold request.
  unfold MAX_REGISTRATION_POW_BITS in *.
  rewrite (proj2 (N.ltb_lt _ _) Hb1), (proj2 (N.eqb_neq bits 0)), (proj2 (N.ltb_ge _ _) Hb2) by lia.
  destruct (solve_loop_ends fuel (request None) bits 0) as [(c & Hc & Hp & Hfirst & ->)|[Hnone ->]];
    [unfold u64_max; lia..| |].
  - left. exists c. split_and!; [unfold u64_max in Hc; lia|intros; apply Hfirst; lia|done|].
    unfold enforce_registration_pow. rewrite (proj2 (N.eqb_neq bits 0)), (proj2 (N.ltb_ge 32 bits)) by lia.
    cbn [rg_pow_nonce request ok_or]. rewrite nonce_valid. unfold passes in Hp.
    change (registration_pow_message (request (Some (format_hex c)))) with (registration_pow_message (request None)).
    by rewrite Hp.
  - right. split; [intros; apply Hnone; unfold u64_max; lia|by eexists].
Qed.

(** The first counter passes. *)
Lemma pow_solver_terminates_witness :
  let fuel := N.to_nat (2 ^ 64) in
  let request := mkRegister (lit "alice") [x41] [x42] [x43] (lit "d1") in
  registration_request (P := Toy) fuel (lit "alice") (lit "d1") [x41] [x42] (Some [x43]) 1 =
    Some (Ok (request (Some (lit "0")))) ∧
  enforce_registration_pow (P := Toy) 1 (request (Some (lit "0"))) = Ok tt.
Proof.
  intros fuel request. assert (Hf : 2 ^ 64 ≤ N.of_nat fuel) by (unfold fuel; rewrite N2Nat.id; reflexivity). clearbody fuel.
  assert (Hb : 0 < 1 ≤ MAX_REGISTRATION_POW_BITS) by (split; [reflexivity|discriminate]).
  assert (H0 : passes (P := Toy) (request None) 1 0 = true) by (vm_compute; reflexivity).
  pose proof (pow_solver_terminates Toy (lit "alice") (lit "d1") [x41] [x42] [x43] 1 fuel Hf Hb) as H.
  cbv zeta in H. fold request in H. destruct H as [(c & _ & Hc & H1 & H2)|(Hn & _)].
  - destruct c as [|p]; [split; [exact H1|exact H2]|]. rewrite (Hc 0 eq_refl) in H0. discriminate H0.
  - rewrite (Hn 0 eq_refl) in H0. discriminate H0.
Defined.
