(* ===== verification/Oprf.v ===== *)
(** * What contact discovery is built on ([pqmsg-discovery], [pqmsg-android])

    The group of [curve25519_dalek::ristretto] with its scalars, the documents
    of [serde_json] and the timestamps of [chrono], as classes whose laws state
    what the two crates document; and the pieces of code the discovery service
    and its client have in common: the sampling of a scalar, the challenge of
    an evaluation proof and lower-case hexadecimal. *)

From Stdlib Require Import Strings.Byte.
From S2P Require Import Prelude Bytes Errors Crypto Toy ServerError Validation.
Local Open Scope N_scope.

(** ** The Ristretto group

    [point_mul] is [RistrettoPoint * Scalar]; a [CompressedRistretto] is its
    octets. *)
Class Ristretto := {
  scalar : Type;
  point : Type;
  scalar_eq_decision :: EqDecision scalar;
  point_eq_decision :: EqDecision point;
  scalar_zero : scalar;
  scalar_add : scalar → scalar → scalar;
  scalar_mul : scalar → scalar → scalar;
  scalar_invert : scalar → scalar;
  scalar_to_bytes : scalar → bytes;
  from_bytes_mod_order : bytes → scalar;
  from_bytes_mod_order_wide : bytes → scalar;
  RISTRETTO_BASEPOINT_POINT : point;
  point_add : point → point → point;
  point_mul : point → scalar → point;
  compress : point → bytes;
  decompress : bytes → option point;
  (** [RistrettoPoint::from_uniform_bytes] of 64 octets, and [Sha512]. *)
  from_uniform_bytes : bytes → point;
  sha512 : bytes → bytes;
}.

Class RistrettoLaws (R : Ristretto) := {
  mul_mul : ∀ p a b, point_mul (point_mul p a) b = point_mul p (scalar_mul b a);
  scalar_mul_comm : ∀ a b, scalar_mul a b = scalar_mul b a;
  mul_add : ∀ p a b, point_mul p (scalar_add a b) = point_add (point_mul p a) (point_mul p b);
  mul_invert : ∀ p a, a ≠ scalar_zero → point_mul (point_mul p a) (scalar_invert a) = p;
  compress_length : ∀ p, length (compress p) = 32%nat;
  decompress_compress : ∀ p, decompress (compress p) = Some p;
  scalar_to_bytes_length : ∀ s, length (scalar_to_bytes s) = 32%nat;
  scalar_from_to : ∀ s, from_bytes_mod_order (scalar_to_bytes s) = s;
}.

(** ** JSON

    A document as [serde_json] writes and reads it: the members of an object in
    their order, duplicates included. The text is a parameter. *)
#[warnings="-register-all"]
Inductive Json : Type :=
| JNull
| JNumber (z : Z)
| JString (s : bytes)
| JObject (members : list (bytes * Json)).

Class JsonText := {
  json_to_vec : Json → bytes;
  json_from_slice : bytes → option Json;
}.

(** A bound on the compact text of a document: quotes, backslashes and control
    characters take at most the six octets of an escape, everything else is
    written as it is. *)
Definition char_size (b : byte) : N :=
  if (Byte.to_N b <? 0x20) || is_char x22 b || is_char x5c b then 6 else 1.

Definition text_size (s : bytes) : N := foldr (λ b n, char_size b + n) 2 s.

Fixpoint json_size (j : Json) : N :=
  match j with
  | JNull => 4
  | JNumber z => 2 + len (decimal (Z.abs_N z))
  | JString s => text_size s
  | JObject l => 2 + foldr (λ '(k, v) n, 2 + text_size k + json_size v + n) 0 l
  end.

Class JsonLaws (J : JsonText) := {
  json_roundtrip : ∀ j, json_from_slice (json_to_vec j) = Some j;
  json_text_size : ∀ j, len (json_to_vec j) ≤ json_size j;
}.

(** The member a derived [Deserialize] reads: absent and duplicated fields are
    errors, other members are ignored. *)
Definition member (name : string) (members : list (bytes * Json)) : option Json :=
  match filter (λ '(k, _), k = lit name) members with
  | [(_, v)] => Some v
  | _ => None
  end.

Definition members_of (j : Json) : option (list (bytes * Json)) :=
  match j with JObject l => Some l | _ => None end.

Definition json_string (j : Json) : option bytes := match j with JString s => Some s | _ => None end.

Definition json_u8 (j : Json) : option N :=
  match j with
  | JNumber z => if ((0 <=? z) && (z <=? 255))%Z then Some (Z.to_N z) else None
  | _ => None
  end.

Definition json_i64 (j : Json) : option Z :=
  match j with
  | JNumber z => if ((i64_min <=? z) && (z <=? i64_max))%Z then Some z else None
  | _ => None
  end.

Definition string_member (name : string) (l : list (bytes * Json)) : option bytes := member name l ≫= json_string.
Definition u8_member (name : string) (l : list (bytes * Json)) : option N := member name l ≫= json_u8.
Definition i64_member (name : string) (l : list (bytes * Json)) : option Z := member name l ≫= json_i64.

(** An [Option<T>] field: [null] or absent is [None]. *)
Definition optional_member {A} (f : Json → option A) (name : string) (l : list (bytes * Json)) : option (option A) :=
  match filter (λ '(k, _), k = lit name) l with
  | [] => Some None
  | [(_, JNull)] => Some None
  | [(_, v)] => Some <$> f v
  | _ => None
  end.

Definition json_option {A} (f : A → Json) (o : option A) : Json := match o with None => JNull | Some a => f a end.

(** [BTreeMap<String, String>]: an object with its keys in order; reading keeps
    the last of equal keys. *)
Definition key_leb (a b : bytes * bytes) : bool := str_leb a.1 b.1.

Definition btree_iter (m : gmap bytes bytes) : list (bytes * bytes) := sort_unstable key_leb (map_to_list m).

Definition btree_json (m : gmap bytes bytes) : Json := JObject (map (λ '(k, v), (k, JString v)) (btree_iter m)).

Fixpoint btree_members (l : list (bytes * Json)) (acc : gmap bytes bytes) : option (gmap bytes bytes) :=
  match l with
  | [] => Some acc
  | (k, JString v) :: l => btree_members l (<[k := v]> acc)
  | _ :: _ => None
  end.

Definition json_btree (j : Json) : option (gmap bytes bytes) := members_of j ≫= λ l, btree_members l ∅.

(** [a.key.cmp(&b.key).then_with(rest)], as a comparison. *)
Definition then_with {A K} `{EqDecision K} (key : A → K) (kleb : K → K → bool) (rest : A → A → bool) (a b : A) : bool :=
  if decide (key a = key b) then rest a b else kleb (key a) (key b).

(** ** Timestamps

    [DateTime<Utc>::to_rfc3339] and [DateTime::parse_from_rfc3339] with
    [with_timezone(&Utc)], for instants with a year of four digits. *)
Class Rfc3339 := {
  to_rfc3339 : Z → bytes;
  parse_from_rfc3339 : bytes → option Z;
}.

Definition YEAR_10000 : Z := 253402300800 * NANOS.

Class Rfc3339Laws (T : Rfc3339) := {
  rfc3339_roundtrip : ∀ t, (0 ≤ t < YEAR_10000)%Z → parse_from_rfc3339 (to_rfc3339 t) = Some t;
  (** Date, time, nine digits of a fraction and the offset. *)
  rfc3339_length : ∀ t, (0 ≤ t < YEAR_10000)%Z → len (to_rfc3339 t) ≤ 35;
}.

(** ** Hexadecimal *)

(** [format!("{byte:02x}")] of every octet. *)
Definition hex_char (d : N) : byte := byte_of_N (if d <? 10 then 0x30 + d else 0x57 + d).

Definition format_02x (b : byte) : bytes := [hex_char (Byte.to_N b / 16); hex_char (Byte.to_N b mod 16)].

Definition bytes_to_hex (l : bytes) : bytes := concat (map format_02x l).

(** [char::to_digit(16)]. *)
Definition to_digit_16 (b : byte) : option N :=
  if in_range 0x30 0x39 b then Some (Byte.to_N b - 0x30)
  else if in_range 0x61 0x66 b then Some (Byte.to_N b - 0x57)
  else if in_range 0x41 0x46 b then Some (Byte.to_N b - 0x37)
  else None.

Section Shared.
Context `{P : Primitives} `{R : Ristretto}.

(** The loop of [random_nonzero_scalar]: [None] when [fuel] draws were zero. *)
Fixpoint random_nonzero_scalar (fuel : nat) (g : rng) : option (scalar * rng) :=
  match fuel with
  | O => None
  | S fuel =>
      let '(wide, g) := rng_fill 64 g in
      let candidate := from_bytes_mod_order_wide wide in
      if bool_decide (candidate = scalar_zero) then random_nonzero_scalar fuel g else Some (candidate, g)
  end.

Definition discovery_evaluation_challenge
    (public_key blinded_point evaluated_point commitment_base commitment_blinded : point) : scalar :=
  from_bytes_mod_order (sha256 (lit "pqmsg-discovery-dleq-proof-v1" ++ compress RISTRETTO_BASEPOINT_POINT
    ++ compress public_key ++ compress blinded_point ++ compress evaluated_point
    ++ compress commitment_base ++ compress commitment_blinded)).

(** The [n]-th draw of the loop. *)
Fixpoint draw (n : nat) (g : rng) : scalar :=
  let '(wide, g) := rng_fill 64 g in
  match n with O => from_bytes_mod_order_wide wide | S n => draw n g end.

(** The loop returns as soon as one draw within the fuel is not zero, and what
    it returns is not zero. *)
Lemma random_nonzero_scalar_returns (fuel n : nat) (g : rng) :
  (n < fuel)%nat → draw n g ≠ scalar_zero → ∃ s g', random_nonzero_scalar fuel g = Some (s, g') ∧ s ≠ scalar_zero.
Proof.
  revert n g. induction fuel as [|fuel IH]; intros n g Hn Hd; [lia|].
  cbn [random_nonzero_scalar]. destruct n as [|n]; cbn [draw] in Hd; destruct (rng_fill 64 g) as [wide g'].
  - rewrite bool_decide_eq_false_2 by done. by eexists _, _.
  - case_bool_decide as Hz; [|by eexists _, _]. apply (IH n); [lia|done].
Qed.

Lemma random_nonzero_scalar_nonzero (fuel : nat) (g g' : rng) (s : scalar) :
  random_nonzero_scalar fuel g = Some (s, g') → s ≠ scalar_zero.
Proof.
  revert g. induction fuel as [|fuel IH]; intros g; [done|]. cbn [random_nonzero_scalar].
  destruct (rng_fill 64 g) as [wide g'']. case_bool_decide as Hz; [apply IH|]. by intros [= <- _].
Qed.
End Shared.

(** ** Facts on orders *)

Section ThenWith.
Context {A K : Type} `{EqDecision K} (key : A → K) (kleb : K → K → bool) (rest : A → A → bool).
Context (Htotal : ∀ a b, kleb a b = false → kleb b a = true).
Context (Hanti : ∀ a b, kleb a b = true → kleb b a = true → a = b).
Context (Htrans : ∀ a b c, kleb a b = true → kleb b c = true → kleb a c = true).

Lemma then_with_total : (∀ a b, rest a b = false → rest b a = true) →
  ∀ a b, then_with key kleb rest a b = false → then_with key kleb rest b a = true.
Proof. intros Hr a b. unfold then_with. repeat case_decide; try congruence; eauto. Qed.

Lemma then_with_antisym (a b : A) :
  then_with key kleb rest a b = true → then_with key kleb rest b a = true →
  key a = key b ∧ rest a b = true ∧ rest b a = true.
Proof.
  unfold then_with. repeat case_decide; try congruence; [done|]. intros H1 H2. by pose proof (Hanti _ _ H1 H2).
Qed.

Lemma then_with_trans : (∀ a b c, rest a b = true → rest b c = true → rest a c = true) →
  ∀ a b c, then_with key kleb rest a b = true → then_with key kleb rest b c = true → then_with key kleb rest a c = true.
Proof.
  intros Hr a b c. unfold then_with.
  destruct (decide (key a = key b)) as [Eab|Nab], (decide (key b = key c)) as [Ebc|Nbc], (decide (key a = key c)) as [Eac|Nac];
    try congruence; eauto.
  intros H1 H2. exfalso. apply Nab, Hanti; [done|]. by rewrite Eac.
Qed.
End ThenWith.

(** ** Facts on hexadecimal *)

Lemma length_bytes_to_hex (l : bytes) : length (bytes_to_hex l) = (2 * length l)%nat.
Proof. induction l as [|b l IH]; [done|]. cbn [bytes_to_hex map concat]. rewrite length_app. unfold bytes_to_hex in IH. rewrite IH. simpl. lia. Qed.

Lemma format_02x_digits (b : byte) : forallb (λ c, is_ascii_hexdigit c && plain c) (format_02x b) = true.
Proof. by destruct b. Qed.

Lemma format_02x_lower (b : byte) : to_ascii_lowercase (format_02x b) = format_02x b.
Proof. by destruct b. Qed.

Lemma bytes_to_hex_digits (l : bytes) : forallb (λ c, is_ascii_hexdigit c && plain c) (bytes_to_hex l) = true.
Proof. induction l as [|b l IH]; [done|]. cbn [bytes_to_hex map concat]. by rewrite forallb_app, format_02x_digits. Qed.

Lemma bytes_to_hex_lower (l : bytes) : to_ascii_lowercase (bytes_to_hex l) = bytes_to_hex l.
Proof.
  induction l as [|b l IH]; [done|]. cbn [bytes_to_hex map concat]. unfold to_ascii_lowercase, bytes_to_hex in *.
  rewrite map_app, IH. f_equal. apply format_02x_lower.
Qed.

(** Hexadecimal is its own trimming. *)
Lemma forallb_head {A} (f : A → bool) (d : A) (l : list A) : l ≠ [] → forallb f l = true → f (default d (head l)) = true.
Proof. destruct l; [done|]. simpl. intros _ H. by apply andb_true_iff in H as [-> _]. Qed.

Lemma str_trim_all_plain (l : bytes) : forallb plain l = true → str_trim l = l.
Proof.
  intros H. destruct (decide (l = [])) as [->|Hl]; [done|]. apply str_trim_plain.
  - by apply forallb_head.
  - apply forallb_head; [by intros E%(f_equal (@rev _)); rewrite rev_involutive in E|].
    apply forallb_forall. intros x Hx. rewrite forallb_forall in H. apply H. by apply in_rev.
Qed.

Lemma str_trim_hex (l : bytes) : str_trim (bytes_to_hex l) = bytes_to_hex l.
Proof.
  apply str_trim_all_plain. pose proof (bytes_to_hex_digits l) as H. rewrite forallb_forall in *.
  intros x Hx. by apply H, andb_true_iff in Hx as [_ ->].
Qed.

Lemma hex_is_digits (l : bytes) : forallb is_ascii_hexdigit (bytes_to_hex l) = true.
Proof.
  pose proof (bytes_to_hex_digits l) as H. rewrite forallb_forall in *. intros x Hx.
  by apply H, andb_true_iff in Hx as [-> _].
Qed.
