(* ===== verification/ToyDiscovery.v ===== *)
(** * Concrete instances for contact discovery

    A group with seven elements, a prefix code for JSON documents and decimal
    timestamps: they satisfy the laws of [Oprf], so that the hypotheses of the
    discovery theorems are known to be satisfiable and runs of the protocol can
    be evaluated. They model no crate. *)

From Stdlib Require Import Strings.Byte.
From S2P Require Import Prelude Bytes Errors Crypto Toy ServerError Validation Caches ServerState Oprf.
Local Open Scope N_scope.

(** ** The integers modulo seven *)

Inductive Z7 : Type := e0 | e1 | e2 | e3 | e4 | e5 | e6.

#[export] Instance Z7_eq_decision : EqDecision Z7.
Proof. solve_decision. Defined.

Definition z7_N (a : Z7) : N :=
  match a with e0 => 0 | e1 => 1 | e2 => 2 | e3 => 3 | e4 => 4 | e5 => 5 | e6 => 6 end.

Definition z7 (n : N) : Z7 :=
  match n mod 7 with 0 => e0 | 1 => e1 | 2 => e2 | 3 => e3 | 4 => e4 | 5 => e5 | _ => e6 end.

Definition z7_bytes (a : Z7) : bytes := byte_of_N (z7_N a) :: replicate 31 x00.

Definition z7_of_bytes (b : bytes) : option Z7 := list_find (λ a, b = z7_bytes a) [e0; e1; e2; e3; e4; e5; e6] ≫= λ p, Some p.2.

#[export] Instance ToyRistretto : Ristretto := {|
  scalar := Z7;
  point := Z7;
  scalar_eq_decision := _;
  point_eq_decision := _;
  scalar_zero := e0;
  scalar_add := λ a b, z7 (z7_N a + z7_N b);
  scalar_mul := λ a b, z7 (z7_N a * z7_N b);
  scalar_invert := λ a, z7 (z7_N a ^ 5);
  scalar_to_bytes := z7_bytes;
  from_bytes_mod_order := λ b, z7 (Byte.to_N (default x00 (head b)));
  from_bytes_mod_order_wide := λ b, z7 (toy_sum 1 b);
  RISTRETTO_BASEPOINT_POINT := e1;
  point_add := λ a b, z7 (z7_N a + z7_N b);
  point_mul := λ p a, z7 (z7_N p * z7_N a);
  compress := z7_bytes;
  decompress := z7_of_bytes;
  from_uniform_bytes := λ b, z7 (toy_sum 2 b);
  sha512 := λ m, toy_stream 64 (toy_sum 8 m);
|}.

#[export] Instance ToyRistrettoLaws : RistrettoLaws ToyRistretto.
Proof.
  split; simpl.
  - by intros [] [] [].
  - by intros [] [].
  - by intros [] [] [].
  - intros p a Ha. by destruct p, a.
  - by intros [].
  - by intros [].
  - by intros [].
  - by intros [].
Qed.

(** ** Documents *)

Fixpoint enc_str (s : bytes) : bytes :=
  match s with
  | [] => [x22]
  | b :: s => if is_char x22 b || is_char x5c b then x5c :: b :: enc_str s else b :: enc_str s
  end.

Fixpoint dec_str (l : bytes) : option (bytes * bytes) :=
  match l with
  | [] => None
  | x22 :: r => Some ([], r)
  | x5c :: b :: r => '(s, r) ← dec_str r; Some (b :: s, r)
  | b :: r => '(s, r) ← dec_str r; Some (b :: s, r)
  end.

Lemma dec_enc_str (s r : bytes) : dec_str (enc_str s ++ r) = Some (s, r).
Proof.
  induction s as [|b s IH]; [done|]. cbn [enc_str].
  destruct (is_char x22 b || is_char x5c b) eqn:E; cbn [Datatypes.app].
  - cbn [dec_str]. by rewrite IH.
  - destruct b; try discriminate E; cbn [dec_str]; by rewrite IH.
Qed.

Lemma len_enc_str (s : bytes) : len (enc_str s) + 1 ≤ text_size s.
Proof.
  induction s as [|b s IH]; [done|]. cbn [enc_str text_size foldr]. fold (text_size s). unfold char_size.
  destruct (is_char x22 b || is_char x5c b) eqn:E.
  - rewrite <- orb_assoc, E, orb_true_r. unfold len in *. cbn [length]. lia.
  - rewrite <- orb_assoc, E, orb_false_r. destruct (_ <? _); unfold len in *; cbn [length]; lia.
Qed.

(** The octets up to the first zero. *)
Fixpoint until_zero (l : bytes) : bytes * bytes :=
  match l with
  | [] => ([], [])
  | x00 :: r => ([], r)
  | b :: r => let '(s, r) := until_zero r in (b :: s, r)
  end.

Lemma until_zero_digits (s r : bytes) : forallb (in_range 0x30 0x39) s = true → until_zero (s ++ x00 :: r) = (s, r).
Proof.
  induction s as [|b s IH]; [done|]. simpl. intros H. apply andb_true_iff in H as [Hb Hs].
  rewrite (IH Hs). by destruct b.
Qed.

Fixpoint enc (j : Json) : bytes :=
  match j with
  | JNull => [x00]
  | JNumber z => (if (0 <=? z)%Z then x01 else x02) :: decimal (Z.abs_N z) ++ [x00]
  | JString s => x03 :: enc_str s
  | JObject l => x04 :: foldr (λ '(k, v) r, x01 :: enc_str k ++ enc v ++ r) [x00] l
  end.

Fixpoint dec_members (dec : bytes → option (Json * bytes)) (n : nat) (r : bytes) : option (list (bytes * Json) * bytes) :=
  match n with
  | O => None
  | S n =>
      match r with
      | x00 :: r => Some ([], r)
      | x01 :: r =>
          '(k, r) ← dec_str r;
          '(v, r) ← dec r;
          '(l, r) ← dec_members dec n r;
          Some ((k, v) :: l, r)
      | _ => None
      end
  end.

Fixpoint dec (fuel : nat) (l : bytes) : option (Json * bytes) :=
  match fuel with
  | O => None
  | S fuel =>
      match l with
      | x00 :: r => Some (JNull, r)
      | x01 :: r => let '(d, r) := until_zero r in z ← digits_value 0 d; Some (JNumber z, r)
      | x02 :: r => let '(d, r) := until_zero r in z ← digits_value 0 d; Some (JNumber (- z), r)
      | x03 :: r => '(s, r) ← dec_str r; Some (JString s, r)
      | x04 :: r => '(l, r) ← dec_members (dec fuel) (S fuel) r; Some (JObject l, r)
      | _ => None
      end
  end.

(** Induction over the documents of an object. *)
Lemma json_ind_nested (Q : Json → Prop) :
  Q JNull → (∀ z, Q (JNumber z)) → (∀ s, Q (JString s)) →
  (∀ l, Forall (λ kv : bytes * Json, Q kv.2) l → Q (JObject l)) → ∀ j, Q j.
Proof.
  intros H1 H2 H3 H4. fix IH 1. intros [|z|s|l]; [done|apply H2|apply H3|]. apply H4.
  induction l as [|[k v] l IHl]; constructor; [apply IH|exact IHl].
Qed.

Fixpoint json_depth (j : Json) : nat :=
  match j with
  | JObject l => S (length l + foldr (λ '(_, v) n, json_depth v + n)%nat O l)%nat
  | _ => 1%nat
  end.

Lemma enc_length (j : Json) : len (enc j) ≤ json_size j.
Proof.
  induction j as [|z|s|l IH] using json_ind_nested; cbn [enc json_size].
  - done.
  - unfold len. destruct (0 <=? z)%Z; cbn [length]; rewrite length_app; simpl; unfold len; lia.
  - unfold len in *. cbn [length]. pose proof (len_enc_str s) as H. unfold len in H. lia.
  - unfold len in *. cbn [length].
    induction IH as [|[k v] l Hv _ IHl]; [simpl; lia|]. cbn [foldr length] in *. rewrite !length_app in *.
    pose proof (len_enc_str k) as Hk. unfold len in Hk. simpl in Hv. lia.
Qed.

Lemma dec_enc (j : Json) (fuel : nat) (r : bytes) : (json_depth j ≤ fuel)%nat → dec fuel (enc j ++ r) = Some (j, r).
Proof.
  revert fuel r. induction j as [|z|s|l IH] using json_ind_nested; intros fuel r Hf;
    (destruct fuel as [|fuel]; [simpl in Hf; lia|]); cbn [enc].
  - done.
  - destruct (decimal_spec (Z.abs_N z)) as (Hd & Hv & _).
    destruct (Z.leb_spec 0 z) as [Hz|Hz]; cbn -[digits_value decimal until_zero Z.abs_N];
      rewrite <- (assoc_L (++)); cbn [Datatypes.app]; rewrite (until_zero_digits _ _ Hd), Hv; cbn; do 3 f_equal; lia.
  - cbn -[enc_str dec_str]. by rewrite dec_enc_str.
  - cbn [json_depth] in Hf. cbn [dec Datatypes.app].
    enough (Hm : ∀ n, (length l < n)%nat → ∀ r, dec_members (dec fuel) n
        (foldr (λ '(k, v) r, x01 :: enc_str k ++ enc v ++ r) [x00] l ++ r) = Some (l, r))
      by (rewrite Hm; [done|lia]).
    clear r. assert (Hf' : (foldr (λ '(_, v) n, json_depth v + n) 0 l ≤ fuel)%nat) by lia. clear Hf.
    induction IH as [|[k v] l Hv _ IHl]; intros n Hn r; (destruct n as [|n]; [simpl in Hn; lia|]); [done|].
    cbn [foldr] in *. cbn [dec_members Datatypes.app].
    rewrite <- !(assoc_L (++)), dec_enc_str. cbn [mbind option_bind]. simpl in Hv.
    rewrite Hv by lia. cbn [mbind option_bind]. rewrite IHl; [done|lia|simpl in Hn; lia].
Qed.

Lemma depth_length (j : Json) : (json_depth j ≤ length (enc j))%nat.
Proof.
  induction j as [|z|s|l IH] using json_ind_nested; cbn [enc json_depth].
  - done.
  - destruct (0 <=? z)%Z; simpl; lia.
  - destruct s; simpl; lia.
  - cbn [length]. apply le_n_S.
    induction IH as [|[k v] l Hv _ IHl]; [simpl; lia|]. cbn [foldr length] in *. rewrite !length_app. simpl in Hv.
    pose proof (len_enc_str k) as Hk. unfold len in Hk. lia.
Qed.

#[export] Instance ToyJson : JsonText := {|
  json_to_vec := enc;
  json_from_slice := λ l, match dec (length l) l with Some (j, []) => Some j | _ => None end;
|}.

#[export] Instance ToyJsonLaws : JsonLaws ToyJson.
Proof.
  split; simpl.
  - intros j. pose proof (dec_enc j (length (enc j)) [] (depth_length j)) as H. rewrite app_nil_r in H. by rewrite H.
  - apply enc_length.
Qed.

(** ** Timestamps *)

#[export] Instance ToyRfc3339 : Rfc3339 := {|
  to_rfc3339 := λ t, decimal (Z.to_N t);
  parse_from_rfc3339 := digits_value 0;
|}.

#[export] Instance ToyRfc3339Laws : Rfc3339Laws ToyRfc3339.
Proof.
  split; simpl; intros t Ht; destruct (decimal_spec (Z.to_N t)) as (_ & Hv & Hl & Hb).
  - rewrite Hv. f_equal. lia.
  - unfold YEAR_10000, NANOS in Ht. destruct (decide (Z.to_N t = 0)) as [->|]; [done|].
    specialize (Hb ltac:(lia)). destruct (decide (35 < len (decimal (Z.to_N t)))) as [H|]; [|lia].
    exfalso. assert (10 ^ 36 ≤ 10 ^ len (decimal (Z.to_N t))) by (apply N.pow_le_mono_r; lia).
    change (10 ^ 36) with 1000000000000000000000000000000000000 in *. lia.
Qed.
