(* ===== verification/Discovery.v ===== *)
(** * The private contact discovery service ([pqmsg-discovery/src/main.rs])

    The service evaluates a keyed function on blinded handles, keeps for every
    user the tokens of their handles next to a bootstrap invite, and answers
    which of a list of tokens are registered. Every request carries a ticket
    the messaging server signed. The registry is behind one lock, so requests
    are executed one after the other, each at one instant of the clock; what a
    request wrote before an error stays written. *)

From Stdlib Require Import Strings.Byte.
From S2P Require Import Prelude Bytes Errors Crypto Toy ServerError Validation Caches Oprf.
Local Open Scope N_scope.

(** ** Constants *)

Definition DEFAULT_ATTESTATION_MODE : bytes := lit "attested_enclave_v1".
Definition CONTACT_DISCOVERY_TICKET_MAX_TTL_SECONDS : Z := 300.
Definition CONTACT_DISCOVERY_TICKET_MAX_USES : N := 6.
Definition CONTACT_DISCOVERY_TICKET_UPLOAD_MAX_USES : N := 3.
Definition CONTACT_DISCOVERY_TICKET_MATCH_MAX_USES : N := 2.
Definition CONTACT_DISCOVERY_MANIFEST_MAX_TTL_SECONDS : Z := 3600.
Definition MAX_DISCOVERY_HASHES_PER_REQUEST : N := 2048.
Definition CONTACT_DISCOVERY_LOOKUP_PROTOCOL : bytes := lit "attested_enclave_voprf_directory_v1".
Definition CONTACT_DISCOVERY_PRIVACY_MODE : bytes := lit "enclave_backed_private_discovery_v1".
Definition CONTACT_DISCOVERY_MATCH_RESULT_FORMAT : bytes := lit "contact_invite_token".
Definition CONTACT_DISCOVERY_OPRF_SUITE : bytes := lit "ristretto255-sha512-v1".
Definition CONTACT_DISCOVERY_EVALUATION_PROOF_MODE : bytes := lit "dleq_per_element_v1".
Definition CONTACT_DISCOVERY_ATTESTATION_DOCUMENT_FORMAT : bytes := lit "opaque_b64_v1".
Definition CONTACT_DISCOVERY_ATTESTATION_CHALLENGE_MODE : bytes := lit "nonce_b64_required_v1".
Definition CONTACT_DISCOVERY_DIRECTORY_BACKEND : bytes := lit "attested_enclave_directory_v1".
Definition CONTACT_DISCOVERY_HOST_ENCLAVE_PROTOCOL_VERSION : N := 1.

(** ** Documents *)

Record HealthResponse := mkHealth {
  hr_status : bytes;
  hr_attestation_mode : bytes;
  hr_ticket_verifier_ready : bool;
  hr_directory_backend : bytes;
  hr_host_enclave_protocol_version : N;
}.

Record ManifestPayload := mkManifest {
  mp_service : bytes;
  mp_protocol_version : N;
  mp_attestation_mode : bytes;
  mp_attestation_verifier : option bytes;
  mp_enclave_measurement_hex : option bytes;
  mp_attestation_pcrs_sha384 : option (gmap bytes bytes);
  mp_attestation_document_format : option bytes;
  mp_attestation_document_sha256 : option bytes;
  mp_attestation_challenge_mode : option bytes;
  mp_ticket_format : bytes;
  mp_ticket_issuer_ed25519_pub : bytes;
  mp_ticket_max_ttl_seconds : Z;
  mp_lookup_protocol : bytes;
  mp_privacy_mode : bytes;
  mp_directory_backend : bytes;
  mp_host_enclave_protocol_version : N;
  mp_host_release_id : bytes;
  mp_enclave_release_id : bytes;
  mp_match_result_format : bytes;
  mp_oprf_suite : bytes;
  mp_evaluation_proof_mode : bytes;
  mp_oprf_public_key_ristretto255 : bytes;
  mp_signed_at : bytes;
  mp_expires_at : bytes;
}.

Record ManifestResponse := mkManifestResponse {
  mr_payload : ManifestPayload;
  mr_manifest_issuer_ed25519_pub : bytes;
  mr_manifest_signature_ed25519 : bytes;
}.

Record DiscoveryEvaluateProof := mkProof {
  ep_challenge_scalar_base64 : bytes;
  ep_response_scalar_base64 : bytes;
  ep_commitment_base_base64 : bytes;
  ep_commitment_blinded_base64 : bytes;
}.

Record AttestationPayload := mkAttestation {
  ap_attestation_mode : bytes;
  ap_attestation_verifier : bytes;
  ap_enclave_measurement_hex : bytes;
  ap_attested_pcrs_sha384 : option (gmap bytes bytes);
  ap_directory_backend : bytes;
  ap_host_enclave_protocol_version : N;
  ap_host_release_id : bytes;
  ap_enclave_release_id : bytes;
  ap_manifest_contract_sha256 : bytes;
  ap_attested_oprf_public_key_ristretto255 : bytes;
  ap_document_format : bytes;
  ap_document_base64 : bytes;
  ap_document_sha256 : bytes;
  ap_published_at : bytes;
  ap_challenge_nonce_base64 : bytes;
}.

Record AttestationResponse := mkAttestationResponse {
  ar_payload : AttestationPayload;
  ar_attestation_signature_ed25519 : bytes;
}.

Record DiscoveryError := mkDiscoveryError { de_status : StatusCode; de_title : bytes; de_detail : bytes }.

Definition discovery_bad_request (detail : bytes) : DiscoveryError :=
  mkDiscoveryError BAD_REQUEST (lit "Bad Request") detail.

Record ContactDiscoveryTicketClaims := mkClaims {
  cl_v : N;
  cl_user_id : bytes;
  cl_device_id : bytes;
  cl_purpose : bytes;
  cl_manifest_contract_sha256 : bytes;
  cl_contact_invite_token : bytes;
  cl_contact_invite_expires_at : bytes;
  cl_issued_at : bytes;
  cl_expires_at : bytes;
  cl_max_uses : N;
  cl_nonce : bytes;
}.

Record StoredHandle := mkHandle { sh_token_sha256 : bytes; sh_handle_kind : bytes }.

Record StoredUserHandles := mkHandles {
  suh_contact_invite_token : bytes;
  suh_contact_invite_expires_at : bytes;
  suh_handles : list StoredHandle;
}.

Record TicketUsage := mkUsage { tu_expires_at : Z; tu_used : N; tu_max_uses : N }.

Record DiscoveryRegistry := mkRegistry {
  user_handles : gmap bytes StoredUserHandles;
  ticket_usage : gmap bytes TicketUsage;
}.

Definition empty_registry : DiscoveryRegistry := mkRegistry ∅ ∅.

Record DiscoveryMatchItem := mkMatch {
  mi_token_sha256 : bytes;
  mi_contact_invite_token : bytes;
  mi_handle_kind : bytes;
}.

Record DiscoveryEvaluateRequest := mkEvaluateRequest {
  er_ticket : bytes;
  er_blinded_elements_base64 : list bytes;
}.

Record DiscoveryEvaluateResponse := mkEvaluateResponse {
  es_user_id : bytes;
  es_device_id : bytes;
  es_ticket_nonce : bytes;
  es_manifest_contract_sha256 : bytes;
  es_evaluation_proof_mode : bytes;
  es_evaluated_elements_base64 : list bytes;
  es_dleq_proofs : list DiscoveryEvaluateProof;
  es_evaluated_at : bytes;
}.

Record DiscoveryHandlesUploadRequest := mkUploadRequest {
  hu_ticket : bytes;
  hu_phone_tokens_sha256 : list bytes;
  hu_email_tokens_sha256 : list bytes;
}.

Record DiscoveryHandlesUploadResponse := mkUploadResponse {
  ho_user_id : bytes;
  ho_device_id : bytes;
  ho_ticket_nonce : bytes;
  ho_manifest_contract_sha256 : bytes;
  ho_uploaded_phone_tokens : N;
  ho_uploaded_email_tokens : N;
  ho_updated_at : bytes;
}.

Record DiscoveryMatchRequest := mkMatchRequest { mq_ticket : bytes; mq_tokens_sha256 : list bytes }.

Record DiscoveryMatchResponse := mkMatchResponse {
  ms_user_id : bytes;
  ms_ticket_nonce : bytes;
  ms_manifest_contract_sha256 : bytes;
  ms_matches : list DiscoveryMatchItem;
  ms_checked_at : bytes;
}.

#[export] Instance StoredHandle_eq_decision : EqDecision StoredHandle.
Proof. solve_decision. Defined.
#[export] Instance DiscoveryMatchItem_eq_decision : EqDecision DiscoveryMatchItem.
Proof. solve_decision. Defined.

(** ** Serialisation *)

(** [Serialize] of [ManifestPayload]: the members in the order of the fields. *)
Definition manifest_contract_members (p : ManifestPayload) : list (bytes * Json) :=
  [(lit "service", JString (mp_service p));
   (lit "protocol_version", JNumber (Z.of_N (mp_protocol_version p)));
   (lit "attestation_mode", JString (mp_attestation_mode p));
   (lit "attestation_verifier", json_option JString (mp_attestation_verifier p));
   (lit "enclave_measurement_hex", json_option JString (mp_enclave_measurement_hex p));
   (lit "attestation_pcrs_sha384", json_option btree_json (mp_attestation_pcrs_sha384 p));
   (lit "attestation_document_format", json_option JString (mp_attestation_document_format p));
   (lit "attestation_document_sha256", json_option JString (mp_attestation_document_sha256 p));
   (lit "attestation_challenge_mode", json_option JString (mp_attestation_challenge_mode p));
   (lit "ticket_format", JString (mp_ticket_format p));
   (lit "ticket_issuer_ed25519_pub", JString (mp_ticket_issuer_ed25519_pub p));
   (lit "ticket_max_ttl_seconds", JNumber (mp_ticket_max_ttl_seconds p));
   (lit "lookup_protocol", JString (mp_lookup_protocol p));
   (lit "privacy_mode", JString (mp_privacy_mode p));
   (lit "directory_backend", JString (mp_directory_backend p));
   (lit "host_enclave_protocol_version", JNumber (Z.of_N (mp_host_enclave_protocol_version p)));
   (lit "host_release_id", JString (mp_host_release_id p));
   (lit "enclave_release_id", JString (mp_enclave_release_id p));
   (lit "match_result_format", JString (mp_match_result_format p));
   (lit "oprf_suite", JString (mp_oprf_suite p));
   (lit "evaluation_proof_mode", JString (mp_evaluation_proof_mode p));
   (lit "oprf_public_key_ristretto255", JString (mp_oprf_public_key_ristretto255 p))].

Definition manifest_members (p : ManifestPayload) : list (bytes * Json) :=
  manifest_contract_members p
    ++ [(lit "signed_at", JString (mp_signed_at p)); (lit "expires_at", JString (mp_expires_at p))].

(** [ManifestContractPayload]: the payload without its two times. *)
Definition manifest_contract_payload (p : ManifestPayload) : Json := JObject (manifest_contract_members p).

Definition attestation_members (p : AttestationPayload) : list (bytes * Json) :=
  [(lit "attestation_mode", JString (ap_attestation_mode p));
   (lit "attestation_verifier", JString (ap_attestation_verifier p));
   (lit "enclave_measurement_hex", JString (ap_enclave_measurement_hex p));
   (lit "attested_pcrs_sha384", json_option btree_json (ap_attested_pcrs_sha384 p));
   (lit "directory_backend", JString (ap_directory_backend p));
   (lit "host_enclave_protocol_version", JNumber (Z.of_N (ap_host_enclave_protocol_version p)));
   (lit "host_release_id", JString (ap_host_release_id p));
   (lit "enclave_release_id", JString (ap_enclave_release_id p));
   (lit "manifest_contract_sha256", JString (ap_manifest_contract_sha256 p));
   (lit "attested_oprf_public_key_ristretto255", JString (ap_attested_oprf_public_key_ristretto255 p));
   (lit "document_format", JString (ap_document_format p));
   (lit "document_base64", JString (ap_document_base64 p));
   (lit "document_sha256", JString (ap_document_sha256 p));
   (lit "published_at", JString (ap_published_at p));
   (lit "challenge_nonce_base64", JString (ap_challenge_nonce_base64 p))].

(** [Deserialize] of the claims. *)
Definition claims_of_json (j : Json) : option ContactDiscoveryTicketClaims :=
  l ← members_of j;
  v ← u8_member "v" l;
  user_id ← string_member "user_id" l;
  device_id ← string_member "device_id" l;
  purpose ← string_member "purpose" l;
  manifest_contract_sha256 ← string_member "manifest_contract_sha256" l;
  contact_invite_token ← string_member "contact_invite_token" l;
  contact_invite_expires_at ← string_member "contact_invite_expires_at" l;
  issued_at ← string_member "issued_at" l;
  expires_at ← string_member "expires_at" l;
  max_uses ← u8_member "max_uses" l;
  nonce ← string_member "nonce" l;
  Some (mkClaims v user_id device_id purpose manifest_contract_sha256 contact_invite_token
          contact_invite_expires_at issued_at expires_at max_uses nonce).

(** [str::split('.')]. *)
Fixpoint split_dot (l : bytes) : list bytes :=
  match l with
  | [] => [[]]
  | b :: l =>
      if bool_decide (b = x2e) then [] :: split_dot l
      else match split_dot l with p :: ps => (b :: p) :: ps | [] => [[b]] end
  end.

(** ** The registry ([DiscoveryRegistry]) *)

Section Registry.
Context `{T : Rfc3339} `{I : HashIter}.

(** [parse_from_rfc3339(..).map(|value| value > now).unwrap_or(false)]. *)
Definition invite_live (now : Z) (h : StoredUserHandles) : bool :=
  match parse_from_rfc3339 (suh_contact_invite_expires_at h) with
  | Some value => (now <? value)%Z
  | None => false
  end.

Definition purge_expired_handles (now : Z) (r : DiscoveryRegistry) : DiscoveryRegistry :=
  mkRegistry (filter (λ '(_, h), invite_live now h = true) (user_handles r)) (ticket_usage r).

Definition consume_ticket_use (claims : ContactDiscoveryTicketClaims) (now : Z) (r : DiscoveryRegistry)
    : DiscoveryRegistry * result DiscoveryError unit :=
  let usage := filter (λ '(_, u), (now < tu_expires_at u)%Z) (ticket_usage r) in
  match parse_from_rfc3339 (cl_expires_at claims) with
  | None => (mkRegistry (user_handles r) usage,
             Err (discovery_bad_request (lit "contact discovery ticket expires_at is invalid")))
  | Some expires_at =>
      let entry := default (mkUsage expires_at 0 (cl_max_uses claims)) (usage !! cl_nonce claims) in
      let write entry := mkRegistry (user_handles r) (<[cl_nonce claims := entry]> usage) in
      if negb (bool_decide (tu_expires_at entry = expires_at)) || negb (tu_max_uses entry =? cl_max_uses claims)
      then (write entry,
            Err (discovery_bad_request (lit "contact discovery ticket nonce reuse detected with conflicting contract")))
      else if tu_max_uses entry <=? tu_used entry
      then (write entry, Err (discovery_bad_request (lit "contact discovery ticket exceeded max uses")))
      else (write (mkUsage (tu_expires_at entry) (tu_used entry + 1) (tu_max_uses entry)), Ok tt)
  end.

Definition replace_tokens (user_id contact_invite_token contact_invite_expires_at : bytes)
    (phone_tokens email_tokens : list bytes) (r : DiscoveryRegistry) : DiscoveryRegistry :=
  let handles := map (λ token, mkHandle token (lit "phone")) phone_tokens
                   ++ map (λ token, mkHandle token (lit "email")) email_tokens in
  mkRegistry (<[user_id := mkHandles contact_invite_token contact_invite_expires_at handles]> (user_handles r))
    (ticket_usage r).

(** The order of [sort_by]: by token, then by invite, then by kind. *)
Definition match_leb : DiscoveryMatchItem → DiscoveryMatchItem → bool :=
  then_with mi_token_sha256 str_leb
    (then_with mi_contact_invite_token str_leb (λ a b, str_leb (mi_handle_kind a) (mi_handle_kind b))).

Definition user_matches (requester_user_id : bytes) (query_tokens : list bytes) (now : Z)
    (entry : bytes * StoredUserHandles) : list DiscoveryMatchItem :=
  let '(user_id, stored_handles) := entry in
  if bool_decide (user_id = requester_user_id) then []
  else match parse_from_rfc3339 (suh_contact_invite_expires_at stored_handles) with
  | None => []
  | Some invite_expires_at =>
      if (invite_expires_at <=? now)%Z then []
      else omap (λ handle,
          if bool_decide (sh_token_sha256 handle ∈ query_tokens)
          then Some (mkMatch (sh_token_sha256 handle) (suh_contact_invite_token stored_handles) (sh_handle_kind handle))
          else None) (suh_handles stored_handles)
  end.

Definition match_tokens (requester_user_id : bytes) (query_tokens : list bytes) (now : Z) (r : DiscoveryRegistry)
    : list DiscoveryMatchItem :=
  sort_unstable match_leb (concat (map (user_matches requester_user_id query_tokens now) (hm_iter (user_handles r)))).
End Registry.

(** ** Normalisation of what a request carries *)

Fixpoint traverse_discovery {E A C} (f : A → result E C) (l : list A) : result E (list C) :=
  match l with
  | [] => Ok []
  | x :: l => let? y := f x in let? r := traverse_discovery f l in Ok (y :: r)
  end.

Definition at_most (field : bytes) : DiscoveryError :=
  discovery_bad_request (field ++ lit " must contain at most " ++ decimal MAX_DISCOVERY_HASHES_PER_REQUEST ++ lit " values").

Definition normalize_sha256_hex_value (field value : bytes) : result DiscoveryError bytes :=
  let trimmed := to_ascii_lowercase (str_trim value) in
  if negb (len trimmed =? 64) || negb (forallb is_ascii_hexdigit trimmed)
  then Err (discovery_bad_request (field ++ lit " entries must be 64-character SHA-256 hex strings"))
  else Ok trimmed.

Definition normalize_sha256_hex_values (field : bytes) (values : list bytes) : result DiscoveryError (list bytes) :=
  if MAX_DISCOVERY_HASHES_PER_REQUEST <? N.of_nat (length values) then Err (at_most field)
  else
    let? normalized := traverse_discovery (normalize_sha256_hex_value field) values in
    Ok (dedup (sort_unstable str_leb normalized)).

(** ** Configuration and state *)

Record DiscoveryState `{P : Primitives} `{V : Ed25519} `{R : Ristretto} := mkDiscoveryState {
  ds_ticket_issuer_verifying_key : ed_key;
  (** [VerifyingKey::as_bytes]: the octets the key was read from. *)
  ds_ticket_issuer_bytes : bytes;
  ds_manifest_signing_key : bytes;
  ds_attestation_mode : bytes;
  ds_attestation_verifier : option bytes;
  ds_enclave_measurement_hex : option bytes;
  ds_attestation_pcrs_sha384 : option (gmap bytes bytes);
  ds_attestation_document_base64 : option bytes;
  ds_attestation_document_sha256 : option bytes;
  ds_registry : DiscoveryRegistry;
  ds_oprf_secret_scalar : scalar;
  ds_oprf_public_key_ristretto255_b64 : bytes;
  ds_host_release_id : bytes;
  ds_enclave_release_id : bytes;
  (** [Utc::now()] and [OsRng]. *)
  ds_utc : Z;
  ds_rng : rng;
}.

Section Service.
Context `{P : Primitives} `{V : Ed25519} `{B : Base64} `{R : Ristretto} `{J : JsonText} `{T : Rfc3339} `{I : HashIter}.

Definition set_registry (r : DiscoveryRegistry) (s : DiscoveryState) : DiscoveryState :=
  mkDiscoveryState _ _ _ (ds_ticket_issuer_verifying_key s) (ds_ticket_issuer_bytes s) (ds_manifest_signing_key s)
    (ds_attestation_mode s) (ds_attestation_verifier s) (ds_enclave_measurement_hex s) (ds_attestation_pcrs_sha384 s)
    (ds_attestation_document_base64 s) (ds_attestation_document_sha256 s) r (ds_oprf_secret_scalar s)
    (ds_oprf_public_key_ristretto255_b64 s) (ds_host_release_id s) (ds_enclave_release_id s) (ds_utc s) (ds_rng s).

Definition set_discovery_rng (g : rng) (s : DiscoveryState) : DiscoveryState :=
  mkDiscoveryState _ _ _ (ds_ticket_issuer_verifying_key s) (ds_ticket_issuer_bytes s) (ds_manifest_signing_key s)
    (ds_attestation_mode s) (ds_attestation_verifier s) (ds_enclave_measurement_hex s) (ds_attestation_pcrs_sha384 s)
    (ds_attestation_document_base64 s) (ds_attestation_document_sha256 s) (ds_registry s) (ds_oprf_secret_scalar s)
    (ds_oprf_public_key_ristretto255_b64 s) (ds_host_release_id s) (ds_enclave_release_id s) (ds_utc s) g.

Definition set_discovery_clock (now : Z) (s : DiscoveryState) : DiscoveryState :=
  mkDiscoveryState _ _ _ (ds_ticket_issuer_verifying_key s) (ds_ticket_issuer_bytes s) (ds_manifest_signing_key s)
    (ds_attestation_mode s) (ds_attestation_verifier s) (ds_enclave_measurement_hex s) (ds_attestation_pcrs_sha384 s)
    (ds_attestation_document_base64 s) (ds_attestation_document_sha256 s) (ds_registry s) (ds_oprf_secret_scalar s)
    (ds_oprf_public_key_ristretto255_b64 s) (ds_host_release_id s) (ds_enclave_release_id s) now (ds_rng s).

Definition Service (A : Type) : Type := SM DiscoveryState DiscoveryError A.
Local Open Scope sm_scope.

Definition ask {A} (f : DiscoveryState → A) : Service A := λ s, (s, Ok (f s)).

(** An operation of the registry, under its lock. *)
Definition registry_op {A} (f : DiscoveryRegistry → DiscoveryRegistry * result DiscoveryError A) : Service A :=
  λ s, let '(r, a) := f (ds_registry s) in (set_registry r s, a).

(** ** Blinded elements *)

Definition normalize_blinded_element (field value : bytes) : result DiscoveryError bytes :=
  let? decoded := ok_or (b64_decode (str_trim value))
    (discovery_bad_request (field ++ lit " entries must be base64-encoded 32-byte compressed ristretto points")) in
  if negb (len decoded =? 32)
  then Err (discovery_bad_request (field ++ lit " entries must decode to 32 bytes"))
  else match decompress decoded with
  | None => Err (discovery_bad_request (field ++ lit " entries must decode to valid compressed ristretto points"))
  | Some _ => Ok decoded
  end.

Definition normalize_blinded_elements (field : bytes) (values : list bytes) : result DiscoveryError (list bytes) :=
  if MAX_DISCOVERY_HASHES_PER_REQUEST <? N.of_nat (length values) then Err (at_most field)
  else traverse_discovery (normalize_blinded_element field) values.

Definition encode_scalar_b64 (s : scalar) : bytes := b64_encode (scalar_to_bytes s).

Definition generate_discovery_evaluate_proof (fuel : nat) (secret_scalar : scalar)
    (public_key blinded_point evaluated_point : point) (g : rng) : option (DiscoveryEvaluateProof * rng) :=
  match random_nonzero_scalar fuel g with
  | None => None
  | Some (nonce, g) =>
      let commitment_base := point_mul RISTRETTO_BASEPOINT_POINT nonce in
      let commitment_blinded := point_mul blinded_point nonce in
      let challenge := discovery_evaluation_challenge public_key blinded_point evaluated_point
                         commitment_base commitment_blinded in
      let response := scalar_add nonce (scalar_mul challenge secret_scalar) in
      Some (mkProof (encode_scalar_b64 challenge) (encode_scalar_b64 response)
              (b64_encode (compress commitment_base)) (b64_encode (compress commitment_blinded)), g)
  end.

(** ** The manifest *)

Definition ticket_issuer_public_key_b64 (s : DiscoveryState) : bytes := b64_encode (ds_ticket_issuer_bytes s).

Definition manifest_issuer_public_key_b64 (s : DiscoveryState) : bytes :=
  b64_encode (ed_public (ds_manifest_signing_key s)).

Definition current_manifest (s : DiscoveryState) : ManifestPayload :=
  let signed_at := ds_utc s in
  let expires_at := (signed_at + CONTACT_DISCOVERY_MANIFEST_MAX_TTL_SECONDS * NANOS)%Z in
  mkManifest (lit "pqmsg-discovery") 1 (ds_attestation_mode s) (ds_attestation_verifier s)
    (ds_enclave_measurement_hex s) (ds_attestation_pcrs_sha384 s)
    ((λ _, CONTACT_DISCOVERY_ATTESTATION_DOCUMENT_FORMAT) <$> ds_attestation_document_sha256 s)
    (ds_attestation_document_sha256 s)
    ((λ _, CONTACT_DISCOVERY_ATTESTATION_CHALLENGE_MODE) <$> ds_attestation_document_sha256 s)
    (lit "base64(json-payload).base64(ed25519-signature)") (ticket_issuer_public_key_b64 s)
    CONTACT_DISCOVERY_TICKET_MAX_TTL_SECONDS CONTACT_DISCOVERY_LOOKUP_PROTOCOL CONTACT_DISCOVERY_PRIVACY_MODE
    CONTACT_DISCOVERY_DIRECTORY_BACKEND CONTACT_DISCOVERY_HOST_ENCLAVE_PROTOCOL_VERSION
    (ds_host_release_id s) (ds_enclave_release_id s) CONTACT_DISCOVERY_MATCH_RESULT_FORMAT
    CONTACT_DISCOVERY_OPRF_SUITE CONTACT_DISCOVERY_EVALUATION_PROOF_MODE (ds_oprf_public_key_ristretto255_b64 s)
    (to_rfc3339 signed_at) (to_rfc3339 expires_at).

Definition health (s : DiscoveryState) : HealthResponse :=
  mkHealth (lit "ok") (ds_attestation_mode s) true CONTACT_DISCOVERY_DIRECTORY_BACKEND
    CONTACT_DISCOVERY_HOST_ENCLAVE_PROTOCOL_VERSION.

Definition manifest (s : DiscoveryState) : ManifestResponse :=
  let payload := current_manifest s in
  let payload_bytes := json_to_vec (JObject (manifest_members payload)) in
  let signature := ed_sign (ds_manifest_signing_key s) payload_bytes in
  mkManifestResponse payload (manifest_issuer_public_key_b64 s) (b64_encode signature).

Definition manifest_contract_sha256_hex (payload : ManifestPayload) : bytes :=
  bytes_to_hex (sha256 (json_to_vec (manifest_contract_payload payload))).

Definition current_manifest_contract_sha256 (s : DiscoveryState) : bytes :=
  manifest_contract_sha256_hex (current_manifest s).

(** ** Attestation *)

Definition normalize_attestation_nonce (name value : bytes) : result DiscoveryError bytes :=
  let trimmed := str_trim value in
  if (len trimmed =? 0) || (256 <? len trimmed)
  then Err (discovery_bad_request (name ++ lit " must be 1..=256 base64 characters"))
  else
    let? decoded := ok_or (b64_decode trimmed)
      (discovery_bad_request (name ++ lit " must be valid base64-encoded bytes")) in
    if negb ((16 <=? len decoded) && (len decoded <=? 64))
    then Err (discovery_bad_request (name ++ lit " must decode to 16..=64 bytes"))
    else Ok trimmed.

Definition attestation (nonce_b64 : bytes) (s : DiscoveryState) : result DiscoveryError AttestationResponse :=
  let not_configured := discovery_bad_request (lit "discovery attestation is not configured") in
  let? verifier := ok_or (ds_attestation_verifier s) not_configured in
  let? measurement := ok_or (ds_enclave_measurement_hex s) not_configured in
  let? document_base64 := ok_or (ds_attestation_document_base64 s) not_configured in
  let? document_sha256 := ok_or (ds_attestation_document_sha256 s) not_configured in
  let? challenge_nonce_base64 := normalize_attestation_nonce (lit "nonce_b64") nonce_b64 in
  let payload := mkAttestation (ds_attestation_mode s) verifier measurement (ds_attestation_pcrs_sha384 s)
    CONTACT_DISCOVERY_DIRECTORY_BACKEND CONTACT_DISCOVERY_HOST_ENCLAVE_PROTOCOL_VERSION (ds_host_release_id s)
    (ds_enclave_release_id s) (current_manifest_contract_sha256 s) (ds_oprf_public_key_ristretto255_b64 s)
    CONTACT_DISCOVERY_ATTESTATION_DOCUMENT_FORMAT document_base64 document_sha256 (to_rfc3339 (ds_utc s))
    challenge_nonce_base64 in
  let signature := ed_sign (ds_manifest_signing_key s) (json_to_vec (JObject (attestation_members payload))) in
  Ok (mkAttestationResponse payload (b64_encode signature)).

(** ** Tickets

    The errors of [anyhow] are their messages. *)

Definition validate_hex (expected : N) (kind : bytes) (name value : bytes) : result bytes bytes :=
  let normalized := to_ascii_lowercase (str_trim value) in
  if negb (len normalized =? expected) || negb (forallb is_ascii_hexdigit normalized)
  then Err (name ++ lit " must be a " ++ decimal expected ++ lit "-character " ++ kind ++ lit " hex string")
  else Ok normalized.

Definition validate_sha384_hex : bytes → bytes → result bytes bytes := validate_hex 96 (lit "SHA-384").
Definition validate_sha256_hex : bytes → bytes → result bytes bytes := validate_hex 64 (lit "SHA-256").

(** [if c { bail!(m) }]. *)
Definition bail_if (c : bool) (m : bytes) : result bytes unit := if c then Err m else Ok tt.

Definition is_empty_trimmed (l : bytes) : bool := len (str_trim l) =? 0.

Definition invite_char (b : byte) : bool := is_ascii_alphanumeric b || is_char x2d b || is_char x5f b.

Definition check_purpose (claims : ContactDiscoveryTicketClaims) : result bytes unit :=
  if bool_decide (cl_purpose claims = lit "upload") then
    bail_if (negb (cl_max_uses claims =? CONTACT_DISCOVERY_TICKET_UPLOAD_MAX_USES))
      (lit "contact discovery ticket max_uses is invalid for upload purpose")
  else if bool_decide (cl_purpose claims = lit "match") then
    bail_if (negb (cl_max_uses claims =? CONTACT_DISCOVERY_TICKET_MATCH_MAX_USES))
      (lit "contact discovery ticket max_uses is invalid for match purpose")
  else Err (lit "contact discovery ticket purpose is invalid").

(** The checks on the claims of a ticket whose signature verified. *)
Definition check_claims (claims : ContactDiscoveryTicketClaims) (now : Z) : result bytes unit :=
  let? _ := bail_if (negb (cl_v claims =? 1)) (lit "unsupported contact discovery ticket version") in
  let? _ := bail_if (is_empty_trimmed (cl_user_id claims) || is_empty_trimmed (cl_device_id claims))
    (lit "contact discovery ticket is missing user or device identity") in
  let? _ := check_purpose claims in
  let? _ := bail_if (is_empty_trimmed (cl_contact_invite_token claims)
                     || (128 <? len (cl_contact_invite_token claims))
                     || negb (forallb invite_char (cl_contact_invite_token claims)))
    (lit "contact discovery ticket is missing a valid bootstrap invite token") in
  let? _ := bail_if (is_empty_trimmed (cl_nonce claims) || (128 <? len (cl_nonce claims)))
    (lit "contact discovery ticket nonce is invalid") in
  let? issued_at := ok_or (parse_from_rfc3339 (cl_issued_at claims))
    (lit "parse contact discovery ticket issued_at") in
  let? expires_at := ok_or (parse_from_rfc3339 (cl_expires_at claims))
    (lit "parse contact discovery ticket expires_at") in
  let? contact_invite_expires_at := ok_or (parse_from_rfc3339 (cl_contact_invite_expires_at claims))
    (lit "parse contact discovery ticket bootstrap invite expires_at") in
  let? _ := bail_if (expires_at <=? issued_at)%Z
    (lit "contact discovery ticket expires_at must be after issued_at") in
  let? _ := bail_if (contact_invite_expires_at <=? issued_at)%Z
    (lit "contact discovery ticket bootstrap invite expires_at must be after issued_at") in
  let? _ := bail_if ((cl_max_uses claims =? 0) || (CONTACT_DISCOVERY_TICKET_MAX_USES <? cl_max_uses claims))
    (lit "contact discovery ticket max_uses is invalid") in
  let? _ := validate_sha256_hex (lit "contact discovery ticket manifest_contract_sha256")
    (cl_manifest_contract_sha256 claims) in
  let? _ := bail_if (CONTACT_DISCOVERY_TICKET_MAX_TTL_SECONDS <? num_seconds (expires_at - issued_at))%Z
    (lit "contact discovery ticket exceeds max ttl") in
  bail_if (expires_at <=? now)%Z (lit "contact discovery ticket expired").

Definition verify_contact_discovery_ticket (verifying_key : ed_key) (ticket : bytes) (now : Z)
    : result bytes ContactDiscoveryTicketClaims :=
  let trimmed := str_trim ticket in
  let? _ := bail_if ((len trimmed =? 0) || (4096 <? len trimmed)) (lit "ticket must be 1..=4096 characters") in
  let parts := split_dot trimmed in
  let? payload_part := ok_or (parts !! 0%nat) (lit "ticket payload missing") in
  let? signature_part := ok_or (parts !! 1%nat) (lit "ticket signature missing") in
  let? _ := bail_if (negb (bool_decide (parts !! 2%nat = None))) (lit "ticket must contain exactly one separator") in
  let? payload_bytes := ok_or (b64_decode payload_part) (lit "decode contact discovery ticket payload") in
  let? signature_bytes := ok_or (b64_decode signature_part) (lit "decode contact discovery ticket signature") in
  let? _ := bail_if (negb (len signature_bytes =? 64)) (lit "contact discovery ticket signature must be 64 bytes") in
  let? _ := bail_if (match ed_sig_from_slice signature_bytes with
                     | Some signature => negb (ed_verify verifying_key payload_bytes signature)
                     | None => true
                     end) (lit "verify contact discovery ticket signature") in
  let? claims := ok_or (json_from_slice payload_bytes ≫= claims_of_json)
    (lit "parse contact discovery ticket payload") in
  let? _ := check_claims claims now in
  Ok claims.

Definition ensure_ticket_purpose_allowed (claims : ContactDiscoveryTicketClaims) (allowed_purposes : list bytes)
    : result DiscoveryError unit :=
  if bool_decide (cl_purpose claims ∈ allowed_purposes) then Ok tt
  else Err (discovery_bad_request (lit "contact discovery ticket purpose '" ++ cl_purpose claims
                                   ++ lit "' is not valid for this operation")).

Definition ensure_ticket_manifest_contract_matches (claims : ContactDiscoveryTicketClaims)
    (expected_manifest_contract_sha256 : bytes) : result DiscoveryError unit :=
  if negb (bool_decide (cl_manifest_contract_sha256 claims = expected_manifest_contract_sha256))
  then Err (discovery_bad_request
    (lit "contact discovery ticket manifest contract does not match the current service contract"))
  else Ok tt.

(** ** The handlers *)

(** What the three operations do first: the ticket is checked and one use of it
    consumed. *)
Definition admit_ticket (ticket : bytes) (allowed_purposes : list bytes) : Service ContactDiscoveryTicketClaims :=
  now <- ask ds_utc;;
  key <- ask ds_ticket_issuer_verifying_key;;
  claims <- sm_lift (match verify_contact_discovery_ticket key ticket now with
                     | Ok claims => Ok claims
                     | Err e => Err (discovery_bad_request e)
                     end);;
  contract <- ask current_manifest_contract_sha256;;
  sm_lift (ensure_ticket_manifest_contract_matches claims contract);;;
  sm_lift (ensure_ticket_purpose_allowed claims allowed_purposes);;;
  registry_op (consume_ticket_use claims now);;;
  sm_ret claims.

(** The loop over the blinded elements; [None] when a scalar was not found
    within [fuel] draws. *)
Fixpoint evaluate_elements (fuel : nat) (secret_scalar : scalar) (public_key : point) (elements : list bytes)
    (g : rng) : option (rng * result DiscoveryError (list bytes * list DiscoveryEvaluateProof)) :=
  match elements with
  | [] => Some (g, Ok ([], []))
  | compressed :: elements =>
      match decompress compressed with
      | None => Some (g, Err (discovery_bad_request
          (lit "blinded_elements_base64 entries must decode to valid compressed ristretto points")))
      | Some point =>
          let evaluated_point := point_mul point secret_scalar in
          match generate_discovery_evaluate_proof fuel secret_scalar public_key point evaluated_point g with
          | None => None
          | Some (proof, g) =>
              match evaluate_elements fuel secret_scalar public_key elements g with
              | Some (g, Ok (evaluated, proofs)) =>
                  Some (g, Ok (b64_encode (compress evaluated_point) :: evaluated, proof :: proofs))
              | other => other
              end
          end
      end
  end.

(** [Ok None]: the loop did not return within [fuel]. *)
Definition evaluate_blinded_elements (fuel : nat) (request : DiscoveryEvaluateRequest)
    : Service (option DiscoveryEvaluateResponse) :=
  claims <- admit_ticket (er_ticket request) [lit "upload"; lit "match"];;
  blinded_elements <- sm_lift (normalize_blinded_elements (lit "blinded_elements_base64")
                                 (er_blinded_elements_base64 request));;
  secret <- ask ds_oprf_secret_scalar;;
  let public_key := point_mul RISTRETTO_BASEPOINT_POINT secret in
  g <- ask ds_rng;;
  match evaluate_elements fuel secret public_key blinded_elements g with
  | None => sm_ret None
  | Some (g, r) =>
      sm_modify (set_discovery_rng g);;;
      r <- sm_lift r;;
      contract <- ask current_manifest_contract_sha256;;
      now <- ask ds_utc;;
      sm_ret (Some (mkEvaluateResponse (cl_user_id claims) (cl_device_id claims) (cl_nonce claims) contract
                      CONTACT_DISCOVERY_EVALUATION_PROOF_MODE r.1 r.2 (to_rfc3339 now)))
  end.

Definition upload_handles (request : DiscoveryHandlesUploadRequest) : Service DiscoveryHandlesUploadResponse :=
  claims <- admit_ticket (hu_ticket request) [lit "upload"];;
  phone_tokens <- sm_lift (normalize_sha256_hex_values (lit "phone_tokens_sha256") (hu_phone_tokens_sha256 request));;
  email_tokens <- sm_lift (normalize_sha256_hex_values (lit "email_tokens_sha256") (hu_email_tokens_sha256 request));;
  now <- ask ds_utc;;
  registry_op (λ r, (purge_expired_handles now r, Ok tt));;;
  registry_op (λ r, (replace_tokens (cl_user_id claims) (cl_contact_invite_token claims)
                       (cl_contact_invite_expires_at claims) phone_tokens email_tokens r, Ok tt));;;
  contract <- ask current_manifest_contract_sha256;;
  sm_ret (mkUploadResponse (cl_user_id claims) (cl_device_id claims) (cl_nonce claims) contract
            (N.of_nat (length phone_tokens)) (N.of_nat (length email_tokens)) (to_rfc3339 now)).

Definition match_handles (request : DiscoveryMatchRequest) : Service DiscoveryMatchResponse :=
  claims <- admit_ticket (mq_ticket request) [lit "match"];;
  now <- ask ds_utc;;
  registry_op (λ r, (purge_expired_handles now r, Ok tt));;;
  query_tokens <- sm_lift (normalize_sha256_hex_values (lit "tokens_sha256") (mq_tokens_sha256 request));;
  matches <- ask (λ s, match_tokens (cl_user_id claims) query_tokens now (ds_registry s));;
  contract <- ask current_manifest_contract_sha256;;
  sm_ret (mkMatchResponse (cl_user_id claims) (cl_nonce claims) contract matches (to_rfc3339 now)).

(** ** Configuration from the environment ([main])

    [env name] is [env::var(name).ok()]. *)
Section Environment.
Context (env : bytes → option bytes).

Definition parse_key_32 (name : string) (what : bytes) : result bytes bytes :=
  let? raw := ok_or (env (lit name)) (lit name ++ lit " is required") in
  let? decoded := ok_or (b64_decode (str_trim raw)) (lit "invalid " ++ lit name ++ lit ": expected base64-encoded 32-byte " ++ what) in
  if negb (len decoded =? 32) then Err (lit "invalid " ++ lit name ++ lit ": expected 32 decoded bytes") else Ok decoded.

Definition parse_ticket_issuer_verifying_key : result bytes (ed_key * bytes) :=
  let? key_bytes := parse_key_32 "PQMSG_CONTACT_DISCOVERY_TICKET_ISSUER_ED25519_PUB" (lit "Ed25519 public key") in
  let? key := ok_or (ed_key_from_bytes key_bytes)
    (lit "invalid PQMSG_CONTACT_DISCOVERY_TICKET_ISSUER_ED25519_PUB: invalid Ed25519 public key") in
  Ok (key, key_bytes).

Definition parse_manifest_signing_key : result bytes bytes :=
  parse_key_32 "PQMSG_CONTACT_DISCOVERY_MANIFEST_ED25519_SECRET_B64" (lit "Ed25519 secret key").

Definition parse_oprf_secret_scalar : result bytes (scalar * bytes) :=
  let? secret_bytes := parse_key_32 "PQMSG_CONTACT_DISCOVERY_OPRF_RISTRETTO255_SECRET_B64" (lit "scalar seed") in
  let secret := from_bytes_mod_order secret_bytes in
  if bool_decide (secret = scalar_zero)
  then Err (lit "invalid PQMSG_CONTACT_DISCOVERY_OPRF_RISTRETTO255_SECRET_B64: scalar must not map to zero")
  else Ok (secret, b64_encode (compress (point_mul RISTRETTO_BASEPOINT_POINT secret))).

Definition parse_optional_env_nonempty (name : bytes) : option bytes :=
  raw ← env name;
  let value := str_trim raw in
  if len value =? 0 then None else Some value.

Definition normalize_attestation_pcr_key (name key : bytes) : result bytes bytes :=
  let normalized := to_ascii_lowercase (str_trim key) in
  if bool_decide (normalized ∈ [lit "pcr0"; lit "pcr1"; lit "pcr2"; lit "pcr3"; lit "pcr4"; lit "pcr8"])
  then Ok normalized
  else Err (name ++ lit " contains unsupported PCR key '" ++ key
            ++ lit "' (expected one of pcr0, pcr1, pcr2, pcr3, pcr4, pcr8)").

Fixpoint normalize_pcrs (name : bytes) (parsed : list (bytes * bytes)) (normalized : gmap bytes bytes)
    : result bytes (gmap bytes bytes) :=
  match parsed with
  | [] => Ok normalized
  | (key, value) :: parsed =>
      let? normalized_key := normalize_attestation_pcr_key name key in
      let? normalized_value := validate_sha384_hex name value in
      if bool_decide (is_Some (normalized !! normalized_key))
      then Err (name ++ lit " contains duplicate PCR key '" ++ normalized_key ++ lit "'")
      else normalize_pcrs name parsed (<[normalized_key := normalized_value]> normalized)
  end.

Definition parse_optional_attestation_pcrs_sha384_env (name : bytes) : result bytes (option (gmap bytes bytes)) :=
  match parse_optional_env_nonempty name with
  | None => Ok None
  | Some raw =>
      let? parsed := ok_or (json_from_slice raw ≫= json_btree)
        (lit "invalid " ++ name ++ lit ": expected JSON object of PCR->SHA384 hex") in
      if bool_decide (parsed = ∅) then Err (name ++ lit " must contain at least one PCR entry")
      else let? normalized := normalize_pcrs name (btree_iter parsed) ∅ in Ok (Some normalized)
  end.

Definition parse_optional_base64 (name : bytes) : result bytes (option bytes) :=
  match parse_optional_env_nonempty name with
  | None => Ok None
  | Some value =>
      let? decoded := ok_or (b64_decode value)
        (lit "invalid " ++ name ++ lit ": expected base64-encoded attestation document bytes") in
      if len decoded =? 0 then Err (name ++ lit " must not decode to empty bytes") else Ok (Some decoded)
  end.

(** The state the service starts with, at the given instant. *)
Definition initial_discovery_state (now : Z) (g : rng) : result bytes DiscoveryState :=
  let attestation_mode := default DEFAULT_ATTESTATION_MODE
    (parse_optional_env_nonempty (lit "PQMSG_CONTACT_DISCOVERY_ATTESTATION_MODE")) in
  let attestation_verifier := parse_optional_env_nonempty (lit "PQMSG_CONTACT_DISCOVERY_ATTESTATION_VERIFIER") in
  let? enclave_measurement_hex := res_transpose (validate_sha256_hex (lit "PQMSG_CONTACT_DISCOVERY_ENCLAVE_MEASUREMENT_HEX")
    <$> parse_optional_env_nonempty (lit "PQMSG_CONTACT_DISCOVERY_ENCLAVE_MEASUREMENT_HEX")) in
  let? attestation_pcrs_sha384 := parse_optional_attestation_pcrs_sha384_env
    (lit "PQMSG_CONTACT_DISCOVERY_ATTESTATION_PCRS_SHA384_JSON") in
  let? document := parse_optional_base64 (lit "PQMSG_CONTACT_DISCOVERY_ATTESTATION_DOCUMENT_B64") in
  let document_sha256 := (λ d, bytes_to_hex (sha256 d)) <$> document in
  let? _ := bail_if (negb (bool_decide (is_Some attestation_verifier))
                     || negb (bool_decide (is_Some enclave_measurement_hex))
                     || negb (bool_decide (is_Some document_sha256)))
    (lit "PQMSG_CONTACT_DISCOVERY_ATTESTATION_VERIFIER, PQMSG_CONTACT_DISCOVERY_ENCLAVE_MEASUREMENT_HEX, and PQMSG_CONTACT_DISCOVERY_ATTESTATION_DOCUMENT_B64 are required for the attested private discovery service") in
  let? issuer := parse_ticket_issuer_verifying_key in
  let? manifest_signing_key := parse_manifest_signing_key in
  let? oprf := parse_oprf_secret_scalar in
  let? host_release_id := ok_or (parse_optional_env_nonempty (lit "PQMSG_CONTACT_DISCOVERY_HOST_RELEASE_ID"))
    (lit "PQMSG_CONTACT_DISCOVERY_HOST_RELEASE_ID is required") in
  let? enclave_release_id := ok_or (parse_optional_env_nonempty (lit "PQMSG_CONTACT_DISCOVERY_ENCLAVE_RELEASE_ID"))
    (lit "PQMSG_CONTACT_DISCOVERY_ENCLAVE_RELEASE_ID is required") in
  Ok (mkDiscoveryState _ _ _ issuer.1 issuer.2 manifest_signing_key attestation_mode attestation_verifier
        enclave_measurement_hex attestation_pcrs_sha384 (b64_encode <$> document) document_sha256 empty_registry
        oprf.1 oprf.2 host_release_id enclave_release_id now g).
End Environment.
End Service.
