(* ===== verification/DiscoveryFacts.v ===== *)
(** * What the discovery service guarantees ([pqmsg-discovery/src/main.rs])

    A ticket admits no more operations than it says, over any sequence of
    requests; and a match returns exactly the live handles of the other users
    among the tokens of the query, in one order whatever the order in which the
    registry is iterated. *)

From Stdlib Require Import Strings.Byte.
From stdpp Require Import sorting.
From S2P Require Import Prelude Bytes Errors Crypto Toy ServerError Validation Caches Oprf Discovery.
Local Open Scope N_scope.

(** ** The order of the matches *)

Lemma match_leb_total (a b : DiscoveryMatchItem) : match_leb a b = false → match_leb b a = true.
Proof.
  apply then_with_total; [exact str_leb_total|]. apply then_with_total; [exact str_leb_total|].
  intros x y. apply str_leb_total.
Qed.

Lemma match_leb_antisym (a b : DiscoveryMatchItem) : match_leb a b = true → match_leb b a = true → a = b.
Proof.
  intros H1 H2. destruct (then_with_antisym _ _ _ str_leb_antisym a b H1 H2) as (E1 & H3 & H4).
  destruct (then_with_antisym _ _ _ str_leb_antisym a b H3 H4) as (E2 & H5 & H6).
  pose proof (str_leb_antisym _ _ H5 H6). destruct a, b. simpl in *. congruence.
Qed.

Lemma match_leb_trans (a b c : DiscoveryMatchItem) :
  match_leb a b = true → match_leb b c = true → match_leb a c = true.
Proof.
  apply then_with_trans; [exact str_leb_antisym|exact str_leb_trans|].
  apply then_with_trans; [exact str_leb_antisym|exact str_leb_trans|]. intros x y z. apply str_leb_trans.
Qed.

#[local] Instance match_le_antisymm : AntiSymm (=) (le_of match_leb).
Proof. exact match_leb_antisym. Qed.

(** ** Matching *)

Section Matching.
Context `{T : Rfc3339}.

(** [item] is a handle of another user than [requester], under an invite that
    is live at [now], and its token is among [query]. *)
Definition live_match (r : DiscoveryRegistry) (now : Z) (requester : bytes) (query : list bytes)
    (item : DiscoveryMatchItem) : Prop :=
  ∃ user h, user_handles r !! user = Some h ∧ user ≠ requester ∧ invite_live now h = true ∧
    mi_contact_invite_token item = suh_contact_invite_token h ∧
    mkHandle (mi_token_sha256 item) (mi_handle_kind item) ∈ suh_handles h ∧ mi_token_sha256 item ∈ query.

Lemma elem_of_user_matches (requester : bytes) (query : list bytes) (now : Z) (user : bytes) (h : StoredUserHandles)
    (item : DiscoveryMatchItem) :
  item ∈ user_matches requester query now (user, h) ↔
  user ≠ requester ∧ invite_live now h = true ∧ mi_contact_invite_token item = suh_contact_invite_token h ∧
  mkHandle (mi_token_sha256 item) (mi_handle_kind item) ∈ suh_handles h ∧ mi_token_sha256 item ∈ query.
Proof.
  unfold user_matches, invite_live. case_bool_decide as Hu; [set_solver|].
  destruct (parse_from_rfc3339 _) as [e|]; [|set_solver]. rewrite Z.ltb_antisym.
  destruct (e <=? now)%Z; [set_solver|]. rewrite list_elem_of_omap. split.
  - intros ([t k] & Hin & Hm). cbn [sh_token_sha256 sh_handle_kind] in Hm. case_bool_decide; [|done].
    injection Hm as <-. simpl. done.
  - intros (_ & _ & Hi & Hin & Hq). eexists. split; [exact Hin|]. simpl. rewrite bool_decide_eq_true_2 by done.
    rewrite <- Hi. by destruct item.
Qed.

Lemma match_tokens_sorted `{I : HashIter} requester query now r :
  StronglySorted (le_of match_leb) (match_tokens requester query now r).
Proof. apply sort_unstable_sorted; [exact match_leb_total|exact match_leb_trans]. Qed.

Lemma match_tokens_perm `{I : HashIter} `{!HashIterLaws I} requester query now r :
  match_tokens requester query now r
    ≡ₚ concat (map (user_matches requester query now) (map_to_list (user_handles r))).
Proof.
  unfold match_tokens. rewrite sort_unstable_perm, <- !flat_map_concat_map.
  apply Permutation_flat_map, hm_iter_perm.
Qed.

Lemma elem_of_match_tokens `{I : HashIter} `{!HashIterLaws I} requester query now r item :
  item ∈ match_tokens requester query now r ↔ live_match r now requester query item.
Proof.
  rewrite match_tokens_perm, list_elem_of_In, in_concat. split.
  - intros (l & Hl & Hi). apply in_map_iff in Hl as ([user h] & <- & Hin).
    apply list_elem_of_In, elem_of_user_matches in Hi. apply list_elem_of_In, elem_of_map_to_list in Hin. by exists user, h.
  - intros (user & h & Hl & Hm). exists (user_matches requester query now (user, h)).
    split; [|by apply list_elem_of_In, elem_of_user_matches].
    apply in_map, list_elem_of_In. by apply elem_of_map_to_list.
Qed.

Lemma match_tokens_order (I I' : HashIter) `{!HashIterLaws I} `{!HashIterLaws I'} requester query now r :
  match_tokens (I := I) requester query now r = match_tokens (I := I') requester query now r.
Proof. apply (StronglySorted_unique (le_of match_leb)); [apply match_tokens_sorted..|]. by rewrite !match_tokens_perm. Qed.

(** Expired entries contribute no match, so dropping them changes none. *)
Lemma live_match_purge r now requester query item :
  live_match (purge_expired_handles now r) now requester query item ↔ live_match r now requester query item.
Proof.
  unfold live_match, purge_expired_handles. simpl.
  split; intros (user & h & Hl & Hm); exists user, h.
  - by apply map_lookup_filter_Some in Hl as [Hl _].
  - split; [|done]. apply map_lookup_filter_Some. by destruct Hm as (_ & Hm & _).
Qed.

(** The tokens a request is normalised to. *)
Lemma traverse_discovery_ok {E A C} (f : A → result E C) (l : list A) (r : list C) :
  traverse_discovery f l = Ok r ↔ Forall2 (λ x y, f x = Ok y) l r.
Proof.
  revert r. induction l as [|x l IH]; intros r; cbn [traverse_discovery].
  - split; [by intros [= <-]|]. by inversion 1.
  - split.
    + destruct (f x) eqn:Ex; [|done]. destruct (traverse_discovery f l) eqn:El; [|done].
      intros [= <-]. constructor; [done|]. by apply IH.
    + inversion 1 as [|? y ? k Hy Hk]; subst. apply IH in Hk. by rewrite Hy, Hk.
Qed.

Lemma normalize_sha256_hex_values_spec (field : bytes) (values tokens : list bytes) :
  normalize_sha256_hex_values field values = Ok tokens →
  ∀ t, t ∈ tokens ↔ ∃ v, v ∈ values ∧ t = to_ascii_lowercase (str_trim v).
Proof.
  unfold normalize_sha256_hex_values. destruct (_ <? _); [done|].
  destruct (traverse_discovery _ _) as [l|] eqn:E; [|done]. intros [= <-] t.
  rewrite elem_of_dedup, elem_of_sort_unstable. apply traverse_discovery_ok in E.
  assert (Hv : Forall2 (λ v y, y = to_ascii_lowercase (str_trim v)) values l).
  { eapply list.Forall2_impl; [exact E|]. intros v y. unfold normalize_sha256_hex_value. destruct (_ || _); by intros [= <-]. }
  clear E. induction Hv as [|v y values l Hy _ IH]; [set_solver|].
  rewrite elem_of_cons, IH. setoid_rewrite elem_of_cons. naive_solver.
Qed.
End Matching.

(** ** Tickets over a run of the service *)

Section Runs.
Context `{P : Primitives} `{V : Ed25519} `{B : Base64} `{R : Ristretto} `{J : JsonText} `{T : Rfc3339} `{I : HashIter}.

(** A request of the three that carry a ticket. *)
Inductive DiscoveryRequest : Type :=
| EvaluateRequest (request : DiscoveryEvaluateRequest)
| UploadRequest (request : DiscoveryHandlesUploadRequest)
| MatchRequest (request : DiscoveryMatchRequest).

Definition request_ticket (q : DiscoveryRequest) : bytes :=
  match q with
  | EvaluateRequest q => er_ticket q
  | UploadRequest q => hu_ticket q
  | MatchRequest q => mq_ticket q
  end.

Definition request_purposes (q : DiscoveryRequest) : list bytes :=
  match q with
  | EvaluateRequest _ => [lit "upload"; lit "match"]
  | UploadRequest _ => [lit "upload"]
  | MatchRequest _ => [lit "match"]
  end.

Definition serve_request (fuel : nat) (q : DiscoveryRequest) (s : DiscoveryState) : DiscoveryState :=
  match q with
  | EvaluateRequest q => (evaluate_blinded_elements fuel q s).1
  | UploadRequest q => (upload_handles q s).1
  | MatchRequest q => (match_handles q s).1
  end.

(** The claims of the tickets that were admitted, over a sequence of requests
    with the instants at which they arrive. *)
Fixpoint admitted (fuel : nat) (run : list (Z * DiscoveryRequest)) (s : DiscoveryState)
    : list ContactDiscoveryTicketClaims :=
  match run with
  | [] => []
  | (now, q) :: run =>
      let s := set_discovery_clock now s in
      let rest := admitted fuel run (serve_request fuel q s) in
      match (admit_ticket (request_ticket q) (request_purposes q) s).2 with
      | Ok claims => claims :: rest
      | Err _ => rest
      end
  end.

(** The clock does not go back. *)
Fixpoint clock_forward (now : Z) (run : list (Z * DiscoveryRequest)) : Prop :=
  match run with
  | [] => True
  | (t, _) :: run => (now ≤ t)%Z ∧ clock_forward t run
  end.

Definition same_ticket (nonce : bytes) (expires_at : Z) (claims : ContactDiscoveryTicketClaims) : Prop :=
  cl_nonce claims = nonce ∧ parse_from_rfc3339 (cl_expires_at claims) = Some expires_at.

#[local] Instance same_ticket_dec nonce e claims : Decision (same_ticket nonce e claims).
Proof. unfold same_ticket. apply _. Defined.

(** What is known of the uses of the tickets with a nonce and an expiry, when
    [granted] of them were admitted. *)
Record usage_inv (nonce : bytes) (e : Z) (granted : list ContactDiscoveryTicketClaims) (usage : gmap bytes TicketUsage)
    (now : Z) : Prop := {
  ui_entry : ∀ u, usage !! nonce = Some u → tu_expires_at u = e →
    tu_used u = N.of_nat (length granted) ∧ Forall (λ c, cl_max_uses c = tu_max_uses u) granted;
  ui_alive : granted ≠ [] → (now < e)%Z → ∃ u, usage !! nonce = Some u ∧ tu_expires_at u = e;
  ui_bound : Forall (λ c, N.of_nat (length granted) ≤ cl_max_uses c) granted;
}.

Lemma usage_inv_empty (nonce : bytes) (e now : Z) : usage_inv nonce e [] ∅ now.
Proof. split; [by intros u; rewrite lookup_empty|done|constructor]. Qed.

Lemma usage_inv_later nonce e granted usage now now' :
  (now ≤ now')%Z → usage_inv nonce e granted usage now → usage_inv nonce e granted usage now'.
Proof. intros Hn [H1 H2 H3]. split; [done| |done]. intros Hg He. apply H2; [done|lia]. Qed.

Lemma usage_inv_retain nonce e granted usage now :
  usage_inv nonce e granted usage now →
  usage_inv nonce e granted (filter (λ '(_, u), (now < tu_expires_at u)%Z) usage) now.
Proof.
  intros [H1 H2 H3]. split; [| |done].
  - intros u [Hu _]%map_lookup_filter_Some. by apply H1.
  - intros Hg He. destruct (H2 Hg He) as (u & Hu & Heu). exists u. split; [|done].
    apply map_lookup_filter_Some. split; [done|]. by rewrite Heu.
Qed.

(** What the entry of a nonce is: the one found, or a new one. *)
Lemma usage_inv_entry nonce e granted usage now e' max :
  usage_inv nonce e granted usage now → (now < e')%Z →
  usage_inv nonce e granted (<[nonce := default (mkUsage e' 0 max) (usage !! nonce)]> usage) now.
Proof.
  intros Hinv Hlive. destruct (usage !! nonce) as [u|] eqn:Eu; cbn [default].
  { by rewrite insert_id. }
  destruct Hinv as [H1 H2 H3].
  assert (Hnil : (now < e)%Z → granted = []).
  { intros He. destruct granted; [done|]. destruct (H2 ltac:(done) He) as (u & Hu & _). congruence. }
  split; [| |done].
  - intros u. rewrite lookup_insert_eq. intros [= <-] He. simpl in He. subst e'. by rewrite (Hnil Hlive).
  - intros Hg He. by specialize (Hnil He).
Qed.

Lemma usage_inv_other nonce n' e granted usage u now :
  nonce ≠ n' → usage_inv nonce e granted usage now → usage_inv nonce e granted (<[n' := u]> usage) now.
Proof. intros Hn [H1 H2 H3]. split; [| |done]; rewrite lookup_insert_ne by done; done. Qed.

(** Counting one more use on the entry. *)
Lemma usage_inv_use nonce e granted usage now u claims :
  usage_inv nonce e granted (<[nonce := u]> usage) now → cl_nonce claims = nonce →
  parse_from_rfc3339 (cl_expires_at claims) = Some (tu_expires_at u) → tu_max_uses u = cl_max_uses claims →
  tu_used u < tu_max_uses u →
  usage_inv nonce e (if decide (same_ticket nonce e claims) then claims :: granted else granted)
    (<[nonce := mkUsage (tu_expires_at u) (tu_used u + 1) (tu_max_uses u)]> usage) now.
Proof.
  intros [H1 H2 H3] Hn He Hm Hu. setoid_rewrite lookup_insert_eq in H1. rewrite lookup_insert_eq in H2.
  case_decide as Hs.
  - destruct Hs as [_ Hs]. rewrite He in Hs. injection Hs as Hs. destruct (H1 u eq_refl Hs) as [Hused Hmax].
    split; [| |].
    + intros u'. rewrite lookup_insert_eq. intros [= <-] _. simpl. split; [lia|]. by constructor.
    + intros _ _. rewrite lookup_insert_eq. by eexists.
    + cbn [length]. constructor; [lia|]. eapply list.Forall_impl; [exact Hmax|]. simpl. intros c Hc. lia.
  - assert (Hne : tu_expires_at u ≠ e) by (intros <-; by apply Hs).
    split; [| |done].
    + intros u'. rewrite lookup_insert_eq. by intros [= <-].
    + intros Hg Hlive. destruct (H2 Hg Hlive) as (u' & [= <-] & ?). done.
Qed.

(** One use: admitted or not, the invariant is kept. *)
Lemma consume_usage nonce e granted r now claims r' a :
  usage_inv nonce e granted (ticket_usage r) now →
  (∀ e', parse_from_rfc3339 (cl_expires_at claims) = Some e' → (now < e')%Z) →
  consume_ticket_use claims now r = (r', a) →
  usage_inv nonce e
    (match a with
     | Ok _ => if decide (same_ticket nonce e claims) then claims :: granted else granted
     | Err _ => granted
     end) (ticket_usage r') now.
Proof.
  intros Hinv%usage_inv_retain Hlive. unfold consume_ticket_use.
  set (usage := filter _ _) in *. destruct (parse_from_rfc3339 (cl_expires_at claims)) as [e'|] eqn:Ee;
    [|by intros [= <- <-]]. specialize (Hlive e' eq_refl).
  destruct (decide (nonce = cl_nonce claims)) as [->|Hn].
  - apply (usage_inv_entry _ _ _ _ _ e' (cl_max_uses claims)) in Hinv; [|done]. set (entry := default _ _) in *.
    destruct (negb _ || negb _) eqn:E1; [by intros [= <- <-]|]. destruct (_ <=? _) eqn:E2; [by intros [= <- <-]|].
    intros [= <- <-]. apply orb_false_iff in E1 as [E1 E3]. apply negb_false_iff, bool_decide_eq_true in E1.
    apply negb_false_iff, N.eqb_eq in E3. apply N.leb_gt in E2. cbn [ticket_usage].
    apply usage_inv_use; try done. by rewrite E1.
  - assert (Hs : ¬ same_ticket nonce e claims) by (intros [? _]; congruence).
    destruct (_ || _); [intros [= <- <-]; by apply usage_inv_other|].
    destruct (_ <=? _); intros [= <- <-]; [by apply usage_inv_other|].
    rewrite decide_False by done. by apply usage_inv_other.
Qed.

(** An accepted ticket has not expired. *)
Lemma bail_ok (c : bool) (m : bytes) : bail_if c m = Ok tt → c = false.
Proof. unfold bail_if. by destruct c. Qed.

Lemma check_claims_live claims now e :
  check_claims claims now = Ok tt → parse_from_rfc3339 (cl_expires_at claims) = Some e → (now < e)%Z.
Proof.
  unfold check_claims. intros H He. rewrite He in H. cbn [ok_or] in H. repeat (case_match; try done).
  by apply bail_ok, Z.leb_gt in H.
Qed.

Lemma verify_ticket_ok key ticket now claims :
  verify_contact_discovery_ticket key ticket now = Ok claims → check_claims claims now = Ok tt.
Proof.
  unfold verify_contact_discovery_ticket. intros H. inv_ok H. subst. by repeat match goal with u : unit |- _ => destruct u end.
Qed.

Lemma admit_ticket_usage nonce e granted ticket purposes s s' a :
  usage_inv nonce e granted (ticket_usage (ds_registry s)) (ds_utc s) →
  admit_ticket ticket purposes s = (s', a) →
  ds_utc s' = ds_utc s ∧
  usage_inv nonce e
    (match a with
     | Ok claims => if decide (same_ticket nonce e claims) then claims :: granted else granted
     | Err _ => granted
     end) (ticket_usage (ds_registry s')) (ds_utc s).
Proof.
  intros Hinv. unfold admit_ticket, sm_bind, ask, sm_lift, registry_op, sm_ret.
  destruct (verify_contact_discovery_ticket _ _ _) as [claims|] eqn:Ev; [|by intros [= <- <-]].
  destruct (ensure_ticket_manifest_contract_matches _ _); [|by intros [= <- <-]].
  destruct (ensure_ticket_purpose_allowed _ _); [|by intros [= <- <-]].
  destruct (consume_ticket_use claims (ds_utc s) (ds_registry s)) as [r' [[]|err]] eqn:Ec;
    intros [= <- <-]; (split; [done|]);
    apply (consume_usage _ _ _ _ _ _ _ _ Hinv) in Ec; try done;
    intros e'; by apply check_claims_live, (verify_ticket_ok _ _ _ _ Ev).
Qed.

(** Beyond the admission of its ticket, a request leaves the uses alone. *)
Lemma serve_usage fuel q s :
  ticket_usage (ds_registry (serve_request fuel q s))
    = ticket_usage (ds_registry (admit_ticket (request_ticket q) (request_purposes q) s).1) ∧
  ds_utc (serve_request fuel q s) = ds_utc (admit_ticket (request_ticket q) (request_purposes q) s).1.
Proof.
  destruct q as [q|q|q]; cbn [serve_request request_ticket request_purposes];
    unfold evaluate_blinded_elements, upload_handles, match_handles, sm_bind, ask, sm_lift, registry_op, sm_ret, sm_modify;
    destruct (admit_ticket _ _ s) as [s' [claims|err]]; try done; simpl;
    repeat (case_match; simplify_eq; try done).
Qed.

Lemma admitted_usage nonce e fuel run s granted :
  usage_inv nonce e granted (ticket_usage (ds_registry s)) (ds_utc s) → clock_forward (ds_utc s) run →
  ∃ usage now, usage_inv nonce e (rev (filter (same_ticket nonce e) (admitted fuel run s)) ++ granted) usage now.
Proof.
  revert s granted. induction run as [|[now q] run IH]; intros s granted Hinv Hrun; [by eexists _, _|].
  destruct Hrun as [Hnow Hrun]. cbn [admitted].
  set (s1 := set_discovery_clock now s). apply (usage_inv_later _ _ _ _ _ now) in Hinv; [|done].
  destruct (admit_ticket (request_ticket q) (request_purposes q) s1) as [s2 a] eqn:Ea.
  destruct (admit_ticket_usage nonce e granted _ _ s1 s2 a Hinv Ea) as [Hutc Hinv2].
  destruct (serve_usage fuel q s1) as [Hu1 Hu2]. rewrite Ea in Hu1, Hu2. simpl in Hu1, Hu2.
  change (ds_utc s1) with now in *. rewrite Hutc in Hu2. rewrite <- Hu1 in Hinv2. rewrite <- Hu2 in Hinv2.
  apply (IH (serve_request fuel q s1)) in Hinv2; [|by rewrite Hu2].
  destruct Hinv2 as (usage & now' & Hinv2). exists usage, now'. destruct a as [claims|err]; [|done].
  simpl. rewrite filter_cons. case_decide; [|done]. cbn [rev]. by rewrite <- (assoc_L (++)).
Qed.

Lemma admit_ticket_ok ticket purposes s s' claims :
  admit_ticket ticket purposes s = (s', Ok claims) →
  verify_contact_discovery_ticket (ds_ticket_issuer_verifying_key s) ticket (ds_utc s) = Ok claims ∧
  cl_manifest_contract_sha256 claims = current_manifest_contract_sha256 s ∧ cl_purpose claims ∈ purposes ∧
  ∃ r, consume_ticket_use claims (ds_utc s) (ds_registry s) = (r, Ok tt) ∧ s' = set_registry r s.
Proof.
  unfold admit_ticket, sm_bind, ask, sm_lift, registry_op, sm_ret.
  destruct (verify_contact_discovery_ticket _ _ _) as [claims'|] eqn:Ev; [|done].
  unfold ensure_ticket_manifest_contract_matches, ensure_ticket_purpose_allowed.
  case_bool_decide as Hm; simpl; [|done]. case_bool_decide as Hp; [|done].
  destruct (consume_ticket_use claims' (ds_utc s) (ds_registry s)) as [r [[]|]] eqn:Ec; [|done].
  intros [= <- <-]. split_and!; [done..|]. by exists r.
Qed.

Lemma admitted_checked fuel run s c : c ∈ admitted fuel run s → ∃ now, check_claims c now = Ok tt.
Proof.
  revert s. induction run as [|[now q] run IH]; intros s; cbn [admitted]; [by intros ?%not_elem_of_nil|].
  destruct (admit_ticket _ _ _) as [s' [claims|err]] eqn:Ea; simpl; [|by apply IH].
  intros [->|Hc]%elem_of_cons; [|by apply IH in Hc].
  apply admit_ticket_ok in Ea as (Ha & _). apply verify_ticket_ok in Ha. by eexists.
Qed.

Lemma check_claims_uses c now : check_claims c now = Ok tt →
  cl_max_uses c ≤ 3 ∧ is_Some (parse_from_rfc3339 (cl_expires_at c)).
Proof.
  unfold check_claims. intros H. split.
  - destruct (bail_if (negb (cl_v c =? 1)) _); [|done]. destruct (bail_if (_ || _) _); [|done].
    destruct (check_purpose c) as [[]|] eqn:Ec; [|done]. unfold check_purpose in Ec.
    repeat case_bool_decide; try done; apply bail_ok, negb_false_iff, N.eqb_eq in Ec; rewrite Ec; done.
  - destruct (parse_from_rfc3339 (cl_expires_at c)); [done|]. exfalso. cbn [ok_or] in H. inv_ok H.
Qed.

(** C32: Over any sequence of evaluate, upload and match requests served from an
    empty registry with a clock that does not go back, a ticket (a nonce with
    an expiry) is admitted at most as often as its claims allow, and that is at
    most three times. *)
Theorem ticket_uses_bounded (fuel : nat) (run : list (Z * DiscoveryRequest)) (s : DiscoveryState)
    (c : ContactDiscoveryTicketClaims) :
  ds_registry s = empty_registry → clock_forward (ds_utc s) run → c ∈ admitted fuel run s →
  ∃ e, parse_from_rfc3339 (cl_expires_at c) = Some e ∧
    N.of_nat (length (filter (same_ticket (cl_nonce c) e) (admitted fuel run s))) ≤ cl_max_uses c ∧
    cl_max_uses c ≤ 3.
Proof.
  intros Hr Hrun Hc. destruct (admitted_checked _ _ _ _ Hc) as [now Hck].
  destruct (check_claims_uses _ _ Hck) as [Hmax [e He]]. exists e. split; [done|]. split; [|done].
  assert (Hinv : usage_inv (cl_nonce c) e [] (ticket_usage (ds_registry s)) (ds_utc s))
    by (rewrite Hr; apply usage_inv_empty).
  destruct (admitted_usage _ _ fuel run s [] Hinv Hrun) as (usage & now' & [_ _ Hb]).
  rewrite (right_id_L [] (++)), length_rev in Hb. rewrite list.Forall_forall in Hb. apply Hb.
  rewrite list_elem_of_In, <- in_rev, <- list_elem_of_In. apply list.list_elem_of_filter. by split.
Qed.

Lemma consume_user_handles claims now r : user_handles (consume_ticket_use claims now r).1 = user_handles r.
Proof. unfold consume_ticket_use. repeat (case_match; try done). Qed.

(** A match answers exactly the handles of other users, under invites that
    are live at the time of the request, whose tokens are among those of the
    query up to surrounding blanks and case, sorted by token, invite and kind;
    the answer does not depend on the order in which the registry is
    iterated. *)
Theorem match_handles_exact `{!HashIterLaws I} (q : DiscoveryMatchRequest) (s s' : DiscoveryState)
    (resp : DiscoveryMatchResponse) :
  match_handles q s = (s', Ok resp) →
  StronglySorted (le_of match_leb) (ms_matches resp) ∧
  (∀ item, item ∈ ms_matches resp ↔
     live_match (ds_registry s) (ds_utc s) (ms_user_id resp)
       (map (λ v, to_ascii_lowercase (str_trim v)) (mq_tokens_sha256 q)) item) ∧
  ∀ (I' : HashIter) (_ : HashIterLaws I'), match_handles (I := I') q s = (s', Ok resp).
Proof.
  unfold match_handles. intros H. unfold sm_bind, ask, sm_lift, registry_op, sm_ret in H |- *.
  destruct (admit_ticket _ _ s) as [s1 [claims|err]] eqn:Ea; [|done].
  apply admit_ticket_ok in Ea as (_ & _ & _ & r & Hr & ->). cbn [ds_registry set_registry ds_utc] in *.
  destruct (normalize_sha256_hex_values _ _) as [tokens|] eqn:Et; [|done]. injection H as <- <-.
  cbn [ms_matches ms_user_id]. split; [apply match_tokens_sorted|]. split.
  - intros item. rewrite elem_of_match_tokens, live_match_purge.
    pose proof (normalize_sha256_hex_values_spec _ _ _ Et) as Ht.
    pose proof (consume_user_handles claims (ds_utc s) (ds_registry s)) as Hu. rewrite Hr in Hu. simpl in Hu.
    unfold live_match. rewrite Hu. setoid_rewrite Ht. setoid_rewrite list_elem_of_fmap. naive_solver.
  - intros I' HI'. do 3 f_equal. by apply match_tokens_order.
Qed.
End Runs.
