(* ===== verification/Contacts.v ===== *)
(** * Contacts, contact invites and discovery tickets ([handlers/discovery.rs], [handlers/invites.rs])

    The server keeps for every user a list of contacts and, per purpose, an
    invite token by which others find the account; for the private discovery
    service it signs tickets that carry such an invite. Raw-hash discovery on
    the server itself is switched off. *)

From Stdlib Require Import Strings.Byte.
From S2P Require Import Prelude Bytes Errors Tlv Crypto Toy Alg PqSig ServerError Validation RequestAuth Caches Realtime ServerState ToyServer ServerFrame ServerAuth Messaging PrekeyServer Oprf.
Local Open Scope N_scope.

Definition CONTACT_INVITE_TTL_DAYS : Z := 14.

Inductive ContactInvitePurpose : Type := Manual | DiscoveryBootstrap.

Definition as_db_str (p : ContactInvitePurpose) : bytes :=
  match p with Manual => lit "manual" | DiscoveryBootstrap => lit "discovery_bootstrap" end.

(** [Duration::days]. *)
Definition ttl (p : ContactInvitePurpose) : Z :=
  match p with Manual | DiscoveryBootstrap => CONTACT_INVITE_TTL_DAYS * 86400 * NANOS end.

Inductive ContactDiscoveryTicketPurpose : Type := Upload | Match.

Definition ContactDiscoveryTicketPurpose_parse (raw : bytes) : app ContactDiscoveryTicketPurpose :=
  let p := to_ascii_lowercase (str_trim raw) in
  if bool_decide (p = lit "upload") then Ok Upload
  else if bool_decide (p = lit "match") then Ok Match
  else Err (bad_request (lit "contact discovery ticket purpose must be 'upload' or 'match'")).

Definition ContactDiscoveryTicketPurpose_as_str (p : ContactDiscoveryTicketPurpose) : bytes :=
  match p with Upload => lit "upload" | Match => lit "match" end.

Definition max_uses (p : ContactDiscoveryTicketPurpose) : N := match p with Upload => 3 | Match => 2 end.

Record ContactInviteRecord := mkInviteRecord {
  ci_invite_token : bytes;
  ci_user_id : bytes;
  ci_expires_at : Z;
}.

Record ContactDiscoveryTicketPayload := mkTicketPayload {
  tp_v : N;
  tp_user_id : bytes;
  tp_device_id : bytes;
  tp_purpose : bytes;
  tp_manifest_contract_sha256 : bytes;
  tp_contact_invite_token : bytes;
  tp_contact_invite_expires_at : bytes;
  tp_issued_at : bytes;
  tp_expires_at : bytes;
  tp_max_uses : N;
  tp_nonce : bytes;
}.

Record ContactDiscoveryTicketResponse := mkTicketResponse {
  ts_user_id : bytes;
  ts_device_id : bytes;
  ts_service_origin : bytes;
  ts_ticket : bytes;
  ts_ticket_nonce : bytes;
  ts_expires_at : bytes;
}.

Record ContactListItem := mkContactItem {
  li_contact_user_id : bytes;
  li_username : option bytes;
  li_alias : option bytes;
  li_verified_by_qr : bool;
  li_verified_fingerprint_sha256 : option bytes;
  li_created_at : Z;
  li_updated_at : Z;
}.

Record UpsertContactRequest := mkUpsert {
  uq_contact_user_id : bytes;
  uq_alias : option bytes;
  uq_verified_by_qr : option bool;
  uq_verified_fingerprint_sha256 : option bytes;
}.

Record UpsertContactResponse := mkUpserted {
  ur_user_id : bytes;
  ur_contact_user_id : bytes;
  ur_alias : option bytes;
  ur_verified_by_qr : bool;
  ur_verified_fingerprint_sha256 : option bytes;
  ur_updated_at : Z;
}.

Record RemoveContactResponse := mkRemoved {
  rr_user_id : bytes;
  rr_removed_contact_user_id : bytes;
  rr_removed : bool;
  rr_removed_at : Z;
}.

(** [Serialize] of the ticket's payload. *)
Definition ticket_payload_json (p : ContactDiscoveryTicketPayload) : Json :=
  JObject
    [(lit "v", JNumber (Z.of_N (tp_v p)));
     (lit "user_id", JString (tp_user_id p));
     (lit "device_id", JString (tp_device_id p));
     (lit "purpose", JString (tp_purpose p));
     (lit "manifest_contract_sha256", JString (tp_manifest_contract_sha256 p));
     (lit "contact_invite_token", JString (tp_contact_invite_token p));
     (lit "contact_invite_expires_at", JString (tp_contact_invite_expires_at p));
     (lit "issued_at", JString (tp_issued_at p));
     (lit "expires_at", JString (tp_expires_at p));
     (lit "max_uses", JNumber (Z.of_N (tp_max_uses p)));
     (lit "nonce", JString (tp_nonce p))].

Definition validate_contact_invite_token (invite_token : bytes) : app bytes :=
  let trimmed := str_trim invite_token in
  if (len trimmed =? 0) || (128 <? len trimmed)
  then Err (bad_request (lit "invite token must be 1..=128 characters"))
  else if negb (forallb (λ b, is_ascii_alphanumeric b || is_char x2d b || is_char x5f b) trimmed)
  then Err (bad_request (lit "invite token contains invalid characters"))
  else Ok trimmed.

(** [Uuid::simple]: the text without its hyphens. *)
Definition uuid_simple (u : bytes) : bytes := filter (λ b, b ≠ x2d) u.

(** [ORDER BY created_at DESC]. *)
Definition newest_invite_leb (a b : bytes * InviteRow) : bool := (iv_created_at b.2 <=? iv_created_at a.2)%Z.

(** [ORDER BY contacts.updated_at DESC, contacts.contact_user_id ASC]. *)
Definition contact_leb : bytes * ContactRow → bytes * ContactRow → bool :=
  then_with (λ c, ct_updated_at c.2) (λ a b, (b <=? a)%Z) (λ a b, str_leb a.1 b.1).

(** ** The configuration of the discovery service *)

(** The fields of [AppState] that concern contact discovery. *)
Record ContactDiscoveryConfig := mkDiscoveryConfig {
  dc_service_origin : option bytes;
  dc_manifest_issuer_ed25519_pub : option bytes;
  dc_directory_backend : option bytes;
  dc_host_enclave_protocol_version : option N;
  dc_host_release_id : option bytes;
  dc_enclave_release_id : option bytes;
  dc_expected_manifest_contract_sha256 : option bytes;
  dc_attestation_verifier : option bytes;
  dc_expected_measurement_hex : option bytes;
  dc_expected_pcrs_sha384 : option (gmap bytes bytes);
  dc_attestation_document_sha256 : option bytes;
  dc_attestation_max_age_seconds : option N;
}.

Definition contact_discovery_private_service_allowed (c : ContactDiscoveryConfig) : bool :=
  bool_decide (is_Some (dc_service_origin c)) && bool_decide (is_Some (dc_manifest_issuer_ed25519_pub c))
  && bool_decide (is_Some (dc_directory_backend c)) && bool_decide (is_Some (dc_host_enclave_protocol_version c))
  && bool_decide (is_Some (dc_host_release_id c)) && bool_decide (is_Some (dc_enclave_release_id c))
  && bool_decide (is_Some (dc_expected_manifest_contract_sha256 c)) && bool_decide (is_Some (dc_attestation_verifier c))
  && bool_decide (is_Some (dc_expected_measurement_hex c)) && bool_decide (is_Some (dc_attestation_document_sha256 c))
  && bool_decide (is_Some (dc_attestation_max_age_seconds c)).

Definition contact_discovery_service_origin (c : ContactDiscoveryConfig) : option bytes :=
  if contact_discovery_private_service_allowed c then dc_service_origin c else None.

Definition contact_discovery_expected_manifest_contract_sha256 (c : ContactDiscoveryConfig) : option bytes :=
  if contact_discovery_private_service_allowed c then dc_expected_manifest_contract_sha256 c else None.

Section Contacts.
Context `{P : Primitives} `{V : Ed25519} `{B : Base64} `{X : Hex} `{I : HashIter} `{U : !Uuid} `{J : JsonText} `{T : Rfc3339}.
Context (MlDsa65_new : option PqSignatureProvider).
Context (cfg : ContactDiscoveryConfig).
Local Open Scope sm_scope.

(** ** Invites *)

Definition purge_expired_contact_invites : Handler unit :=
  now <- gets st_utc;;
  execute (λ d, set_contact_invites (filter (λ '(_, i), (now < iv_expires_at i)%Z) (contact_invites d)) d).

Definition load_contact_invite_record (invite_token : bytes) : Handler ContactInviteRecord :=
  now <- gets st_utc;;
  row <- query (λ d, i ← contact_invites d !! invite_token; if (now <? iv_expires_at i)%Z then Some i else None);;
  row <- lift (ok_or row (not_found (lit "contact invite not found or expired")));;
  ensure_user_exists (iv_user_id row);;;
  sm_ret (mkInviteRecord invite_token (iv_user_id row) (iv_expires_at row)).

(** The rows of the query, in its order; rows created at the same instant are
    in no particular one. *)
Definition active_invites (user_id : bytes) (purpose : ContactInvitePurpose) (now : Z) (d : Db)
    : list (bytes * InviteRow) :=
  sort_unstable newest_invite_leb (map_to_list (filter
    (λ '(_, i), iv_user_id i = user_id ∧ iv_purpose i = as_db_str purpose ∧ (now < iv_expires_at i)%Z)
    (contact_invites d))).

Definition load_active_contact_invite_for_purpose (user_id : bytes) (purpose : ContactInvitePurpose)
    : Handler (option ContactInviteRecord) :=
  now <- gets st_utc;;
  row <- query (λ d, head (active_invites user_id purpose now d));;
  sm_ret ((λ '(token, i), mkInviteRecord token (iv_user_id i) (iv_expires_at i)) <$> row).

Definition create_invite_row (user_id : bytes) (purpose : ContactInvitePurpose) : Handler ContactInviteRecord :=
  now <- gets st_utc;;
  let expires_at := (now + ttl purpose)%Z in
  u <- new_uuid;;
  let invite_token := uuid_simple u in
  execute (λ d, set_contact_invites
    (filter (λ '(_, i), ¬ (iv_user_id i = user_id ∧ iv_purpose i = as_db_str purpose)) (contact_invites d)) d);;;
  taken <- query (λ d, contact_invites d !! invite_token);;
  reject_if (bool_decide (is_Some taken)) database_error;;;
  execute (λ d, set_contact_invites
    (<[invite_token := mkInvite user_id (as_db_str purpose) now expires_at]> (contact_invites d)) d);;;
  sm_ret (mkInviteRecord invite_token user_id expires_at).

Definition ensure_contact_invite_for_purpose (user_id : bytes) (purpose : ContactInvitePurpose)
    (rotate_existing : bool) : Handler ContactInviteRecord :=
  purge_expired_contact_invites;;;
  existing <- (if negb rotate_existing then load_active_contact_invite_for_purpose user_id purpose else sm_ret None);;
  match existing with
  | Some existing => sm_ret existing
  | None => create_invite_row user_id purpose
  end.

Definition create_contact_invite (user_id : bytes) (headers : HeaderMap) : Handler ContactInviteRecord :=
  check_rate_limit (lit "contact-invite-create:" ++ user_id);;;
  lift (validate_id (lit "user_id") user_id);;;
  auth <- lift (parse_request_auth headers);;
  reject_if (negb (bool_decide (ra_user_id auth = user_id))) (bad_request (lit "auth user_id mismatch"));;;
  auth_message <- lift (contact_invite_create_auth_message auth user_id);;
  verify_request_auth auth auth_message;;;
  ensure_user_exists user_id;;;
  invite <- ensure_contact_invite_for_purpose user_id Manual true;;
  sm_ret (mkInviteRecord (ci_invite_token invite) user_id (ci_expires_at invite)).

Definition resolve_contact_invite (invite_token : bytes) : Handler ContactInviteRecord :=
  check_rate_limit (lit "contact-invite-resolve");;;
  purge_expired_contact_invites;;;
  invite_token <- lift (validate_contact_invite_token invite_token);;
  invite <- load_contact_invite_record invite_token;;
  sm_ret (mkInviteRecord invite_token (ci_user_id invite) (ci_expires_at invite)).

Definition get_contact_invite_bundle (invite_token : bytes) : Handler BundleResponse :=
  check_rate_limit (lit "contact-invite-bundle");;;
  purge_expired_contact_invites;;;
  invite_token <- lift (validate_contact_invite_token invite_token);;
  invite <- load_contact_invite_record invite_token;;
  load_bundle_response (ci_user_id invite) None.

(** ** Tickets for the discovery service *)

Definition ensure_contact_discovery_supported : app unit :=
  Err (forbidden (lit "raw-hash contact discovery on the app server is disabled; use the configured private discovery service ticket flow")).

Definition ensure_contact_discovery_ticket_supported : app bytes :=
  ok_or (contact_discovery_service_origin cfg)
    (forbidden (lit "private contact discovery service is not configured; use manual contacts or invite links")).

Definition create_contact_discovery_ticket (user_id : bytes) (headers : HeaderMap) (purpose : bytes)
    : Handler ContactDiscoveryTicketResponse :=
  service_origin <- lift ensure_contact_discovery_ticket_supported;;
  check_rate_limit (lit "contact-discovery-ticket:" ++ user_id);;;
  lift (validate_id (lit "user_id") user_id);;;
  ensure_user_exists user_id;;;
  purpose <- lift (ContactDiscoveryTicketPurpose_parse purpose);;
  auth <- lift (parse_request_auth headers);;
  reject_if (negb (bool_decide (ra_user_id auth = user_id))) (bad_request (lit "auth user_id mismatch"));;;
  auth_message <- lift (contact_discovery_ticket_auth_message auth user_id (ContactDiscoveryTicketPurpose_as_str purpose));;
  verify_request_auth auth auth_message;;;
  bootstrap_invite <- ensure_contact_invite_for_purpose user_id DiscoveryBootstrap false;;
  issued_at <- gets st_utc;;
  let expires_at := (issued_at + 5 * 60 * NANOS)%Z in
  manifest_contract_sha256 <- lift (ok_or (contact_discovery_expected_manifest_contract_sha256 cfg)
    (forbidden (lit "private contact discovery manifest contract hash is not configured; use manual contacts or invite links")));;
  nonce <- new_uuid;;
  let payload := mkTicketPayload 1 user_id (ra_device_id auth) (ContactDiscoveryTicketPurpose_as_str purpose)
    manifest_contract_sha256 (ci_invite_token bootstrap_invite) (to_rfc3339 (ci_expires_at bootstrap_invite))
    (to_rfc3339 issued_at) (to_rfc3339 expires_at) (max_uses purpose) nonce in
  let payload_bytes := json_to_vec (ticket_payload_json payload) in
  signing_key <- gets st_sender_certificate_signing_key;;
  let signature := ed_sign signing_key payload_bytes in
  let ticket := b64_encode payload_bytes ++ lit "." ++ b64_encode signature in
  sm_ret (mkTicketResponse user_id (ra_device_id auth) service_origin ticket nonce (to_rfc3339 expires_at)).

(** ** Contacts *)

Definition list_contacts (user_id : bytes) (headers : HeaderMap) : Handler (list ContactListItem) :=
  check_rate_limit (lit "contacts-list:" ++ user_id);;;
  lift (validate_id (lit "user_id") user_id);;;
  auth <- lift (parse_request_auth headers);;
  reject_if (negb (bool_decide (ra_user_id auth = user_id))) (bad_request (lit "auth user_id mismatch"));;;
  auth_message <- lift (contacts_list_auth_message auth user_id);;
  inbox_compat_auth_message <- lift (inbox_auth_message auth user_id 0);;
  verify_request_auth_any auth [auth_message; inbox_compat_auth_message];;;
  ensure_user_exists user_id;;;
  query (λ d, map (λ '(contact, row),
      mkContactItem contact (user_profiles d !! contact ≫= pf_username) (ct_alias row) (ct_verified_by_qr row)
        (ct_verified_fingerprint_sha256 row) (ct_created_at row) (ct_updated_at row))
    (sort_unstable contact_leb (omap (λ '((u, contact), row),
       if bool_decide (u = user_id) then Some (contact, row) else None) (map_to_list (contacts d))))).

Definition upsert_contact (user_id : bytes) (headers : HeaderMap) (request : UpsertContactRequest)
    : Handler UpsertContactResponse :=
  check_rate_limit (lit "contacts-upsert:" ++ user_id);;;
  lift (validate_id (lit "user_id") user_id);;;
  lift (validate_id (lit "contact_user_id") (uq_contact_user_id request));;;
  reject_if (bool_decide (user_id = uq_contact_user_id request)) (bad_request (lit "cannot add self as contact"));;;
  alias <- lift (validate_optional_contact_alias (uq_alias request));;
  let verified_by_qr := default false (uq_verified_by_qr request) in
  fingerprint <- lift (validate_optional_fingerprint_sha256 (uq_verified_fingerprint_sha256 request));;
  reject_if (verified_by_qr && bool_decide (fingerprint = None))
    (bad_request (lit "verified_fingerprint_sha256 is required when verified_by_qr is true"));;;
  auth <- lift (parse_request_auth headers);;
  reject_if (negb (bool_decide (ra_user_id auth = user_id))) (bad_request (lit "auth user_id mismatch"));;;
  auth_message <- lift (contacts_upsert_auth_message auth user_id (uq_contact_user_id request) alias verified_by_qr
                          fingerprint);;
  inbox_compat_auth_message <- lift (inbox_auth_message auth user_id 0);;
  verify_request_auth_any auth [auth_message; inbox_compat_auth_message];;;
  ensure_user_exists user_id;;;
  ensure_user_exists (uq_contact_user_id request);;;
  now <- gets st_utc;;
  execute (λ d,
    let key := (user_id, uq_contact_user_id request) in
    let created_at := match contacts d !! key with Some row => ct_created_at row | None => now end in
    set_contacts (<[key := mkContact alias verified_by_qr fingerprint created_at now]> (contacts d)) d);;;
  sm_ret (mkUpserted user_id (uq_contact_user_id request) alias verified_by_qr fingerprint now).

Definition remove_contact (user_id : bytes) (headers : HeaderMap) (contact_user_id : bytes)
    : Handler RemoveContactResponse :=
  check_rate_limit (lit "contacts-remove:" ++ user_id);;;
  lift (validate_id (lit "user_id") user_id);;;
  lift (validate_id (lit "contact_user_id") contact_user_id);;;
  auth <- lift (parse_request_auth headers);;
  reject_if (negb (bool_decide (ra_user_id auth = user_id))) (bad_request (lit "auth user_id mismatch"));;;
  auth_message <- lift (contacts_remove_auth_message auth user_id contact_user_id);;
  inbox_compat_auth_message <- lift (inbox_auth_message auth user_id 0);;
  verify_request_auth_any auth [auth_message; inbox_compat_auth_message];;;
  ensure_user_exists user_id;;;
  removed_at <- gets st_utc;;
  deleted <- query (λ d, bool_decide (is_Some (contacts d !! (user_id, contact_user_id))));;
  execute (λ d, set_contacts (delete (user_id, contact_user_id) (contacts d)) d);;;
  sm_ret (mkRemoved user_id contact_user_id deleted removed_at).
End Contacts.
