(* ===== verification/DiscoveryTickets.v ===== *)
(** * Tickets between the messaging server and the discovery service

    The server signs the tickets, the discovery service checks them: what
    [create_contact_discovery_ticket] issues is accepted by
    [verify_contact_discovery_ticket] until it expires, and the invite it
    carries resolves to the user it was issued to. *)

From Stdlib Require Import Strings.Byte.
From S2P Require Import Prelude Bytes Errors Tlv Crypto Toy Alg PqSig ServerError Validation RequestAuth Caches Realtime ServerState ToyServer ServerFrame ServerAuth Messaging PrekeyServer Oprf ToyDiscovery Contacts Discovery DiscoveryFacts.
Local Open Scope N_scope.

(** The text of a UUID: 32 hexadecimal digits and four hyphens. *)
Definition uuid_shape (u : bytes) : Prop :=
  len u = 36 ∧ forallb (λ b, is_ascii_hexdigit b || is_char x2d b) u = true ∧ len (uuid_simple u) = 32.

Class UuidLaws `{P : Primitives} (U : Uuid) := { uuid_text : ∀ g, uuid_shape (uuid_v4 g).1 }.

(** ** Invites *)

Definition token_ok (token : bytes) : Prop := 0 < len token ≤ 128 ∧ forallb invite_char token = true.

(** Every invite has a token of the right form and a year of four digits. *)
Definition invites_wf (d : Db) : Prop :=
  ∀ token i, contact_invites d !! token = Some i → token_ok token ∧ (iv_expires_at i < YEAR_10000)%Z.

Lemma uuid_simple_ok (u : bytes) : uuid_shape u → token_ok (uuid_simple u).
Proof.
  intros (_ & Hc & Hl). split; [lia|]. apply forallb_forall. intros b Hb.
  apply list_elem_of_In, list_elem_of_filter in Hb as [_ Hb]. rewrite forallb_forall in Hc.
  apply list_elem_of_In, Hc in Hb. revert Hb. clear. by destruct b.
Qed.

Section Invites.
Context `{P : Primitives} `{V : Ed25519} `{B : Base64} `{X : Hex} `{I : HashIter} `{U : !Uuid} `{!UuidLaws U}.

(** What a handler that works on the invites of a user leaves alone. *)
Record invites_only (user_id : bytes) (s s' : AppState) : Prop := {
  io_utc : st_utc s' = st_utc s;
  io_key : st_sender_certificate_signing_key s' = st_sender_certificate_signing_key s;
  io_users : users (st_db s') = users (st_db s);
  io_wf : invites_wf (st_db s) → invites_wf (st_db s');
  io_others : ∀ token i, contact_invites (st_db s) !! token = Some i → iv_user_id i ≠ user_id →
    (st_utc s < iv_expires_at i)%Z → contact_invites (st_db s') !! token = Some i;
}.

#[export] Instance invites_only_preorder user_id : PreOrder (invites_only user_id).
Proof.
  split; [by intros s; split|]. intros s1 s2 s3 [H1 H2 H3 H4 H5] [H6 H7 H8 H9 H10].
  split; [congruence..|auto|]. intros token i Hi Hu Hl. apply H10; [by apply H5|done|]. by rewrite H1.
Qed.

Lemma quiet_invites_only user_id s s' : quiet s s' → invites_only user_id s s'.
Proof. intros (g & l & c & ->). by split. Qed.

Lemma filter_invites_wf user_id (Q : bytes * InviteRow → Prop) `{∀ x, Decision (Q x)} (s : AppState) :
  (∀ token i, iv_user_id i ≠ user_id → (st_utc s < iv_expires_at i)%Z → Q (token, i)) →
  invites_only user_id s (set_db (set_contact_invites (filter Q (contact_invites (st_db s))) (st_db s)) s).
Proof.
  intros HQ. split; [done..| |].
  - intros Hwf token i. simpl. intros [Hi _]%map_lookup_filter_Some. by apply Hwf.
  - intros token i Hi Hu Hl. simpl. apply map_lookup_filter_Some. split; [done|]. by apply HQ.
Qed.

(** The result of looking for an invite, or creating one. *)
Definition invite_granted (user_id : bytes) (s' : AppState) (r : ContactInviteRecord) : Prop :=
  ∃ i, contact_invites (st_db s') !! ci_invite_token r = Some i ∧ iv_user_id i = user_id ∧
    iv_expires_at i = ci_expires_at r ∧ (st_utc s' < ci_expires_at r)%Z.

Lemma create_invite_row_spec (user_id : bytes) (purpose : ContactInvitePurpose) (s s' : AppState) r :
  (st_utc s + ttl purpose < YEAR_10000)%Z → create_invite_row user_id purpose s = (s', Ok r) →
  invites_only user_id s s' ∧ invite_granted user_id s' r.
Proof.
  intros Hy H. unfold create_invite_row in H. run1 H Ha. run_ok H s1 u Hu.
  assert (Hq : quiet s s1) by exact (steps_run _ _ _ _ _ quiet_new_uuid Hu).
  assert (Hs : uuid_shape u).
  { unfold new_uuid in Hu. pose proof (uuid_text (st_rng s)) as Ht. destruct (uuid_v4 (st_rng s)). simpl in Ht.
    injection Hu as <- <-. exact Ht. }
  run1 H H1. run1 H H2. run1 H H3. run1 H H4. injection H as <- <-.
  assert (Hpos : (0 < ttl purpose)%Z) by by destruct purpose.
  split.
  - etrans; [by apply quiet_invites_only|].
    etrans; [apply (filter_invites_wf user_id (λ '(_, i), ¬ (iv_user_id i = user_id ∧ iv_purpose i = as_db_str purpose)));
             by intros ? ? Hne _ [? _]|].
    split; [done..| |].
    + intros Hwf token i Hi. simpl in Hi.
      apply lookup_insert_Some in Hi as [[<- <-]|[_ Hi]]; [|by apply Hwf]. cbn [iv_expires_at].
      split; [by apply uuid_simple_ok|done].
    + intros token i Hi _ _. simpl. apply lookup_insert_Some. right. split; [|exact Hi]. intros <-. simpl in Hi.
      apply bool_decide_eq_false in H3. apply H3. by eexists.
  - eexists. simpl. rewrite lookup_insert_eq. split_and!; [done..|]. rewrite (quiet_utc _ _ Hq). lia.
Qed.

Lemma ensure_contact_invite_spec (user_id : bytes) (purpose : ContactInvitePurpose) (rotate : bool) (s s' : AppState) r :
  (st_utc s + ttl purpose < YEAR_10000)%Z →
  ensure_contact_invite_for_purpose user_id purpose rotate s = (s', Ok r) →
  invites_only user_id s s' ∧ invite_granted user_id s' r.
Proof.
  intros Hy H. unfold ensure_contact_invite_for_purpose, purge_expired_contact_invites in H. run1 H Ha. run1 Ha Hb.
  apply execute_inv in Ha as [-> _].
  assert (Hf := filter_invites_wf user_id (λ '(_, i), (st_utc s < iv_expires_at i)%Z) s ltac:(done)). revert H Hf.
  set (s1 := set_db _ s). intros H Hf. run_ok H s2 existing He.
  assert (Hex : s2 = s1 ∧ ∀ r, existing = Some r → invite_granted user_id s1 r).
  { destruct rotate; simpl in He; [by injection He as <- <-|].
    unfold load_active_contact_invite_for_purpose in He. run1 He Hx. run1 He Hz. injection He as <- <-.
    split; [done|]. intros r0. destruct (head _) as [[token i]|] eqn:Eh; [|done]. intros [= <-].
    apply head_Some_elem_of in Eh. unfold active_invites in Eh.
    apply elem_of_sort_unstable, elem_of_map_to_list, map_lookup_filter_Some in Eh as (Hi & Hu & _ & Hlive).
    by exists i. }
  destruct Hex as [-> Hex]. destruct existing as [r0|].
  - injection H as <- <-. split; [done|]. by apply Hex.
  - apply create_invite_row_spec in H as [H1 H2]; [|done]. split; [by etrans|done].
Qed.
End Invites.

(** ** Text *)

Lemma b64_char_plain (b : byte) : b64_char b = true → plain b = true ∧ b ≠ x2e.
Proof. by destruct b. Qed.

Lemma b64_plain `{!Base64Laws B} (l : bytes) : forallb plain (b64_encode l) = true ∧ x2e ∉ b64_encode l.
Proof.
  pose proof (b64_encode_letters l) as H. rewrite forallb_forall in H. split.
  - apply forallb_forall. intros b Hb. by apply b64_char_plain, H.
  - intros Hb%list_elem_of_In%H. by apply b64_char_plain in Hb as [_ ?].
Qed.

Lemma split_dot_none (l : bytes) : x2e ∉ l → split_dot l = [l].
Proof.
  induction l as [|b l IH]; [done|]. intros [Hb Hl]%not_elem_of_cons. cbn [split_dot].
  rewrite bool_decide_eq_false_2 by done. by rewrite (IH Hl).
Qed.

Lemma split_dot_two (a b : bytes) : x2e ∉ a → x2e ∉ b → split_dot (a ++ x2e :: b) = [a; b].
Proof.
  intros Ha Hb. induction a as [|c a IH]; cbn [Datatypes.app split_dot].
  - rewrite bool_decide_eq_true_2 by done. by rewrite split_dot_none.
  - apply not_elem_of_cons in Ha as [Hc Ha]. rewrite bool_decide_eq_false_2 by done. by rewrite (IH Ha).
Qed.

(** A bound on the size of a document's strings. *)
Lemma text_size_bound (s : bytes) : text_size s ≤ 2 + 6 * len s.
Proof.
  induction s as [|b s IH]; [done|]. cbn [text_size foldr]. fold (text_size s). unfold char_size, len in *. cbn [length].
  destruct (_ || _ || _); lia.
Qed.

Lemma text_size_plain (s : bytes) :
  forallb (λ b, invite_char b || is_ascii_hexdigit b) s = true → text_size s = 2 + len s.
Proof.
  induction s as [|b s IH]; [done|]. cbn [forallb]. intros [Hb Hs]%andb_true_iff. cbn [text_size foldr]. fold (text_size s).
  rewrite (IH Hs). unfold len. cbn [length]. assert (char_size b = 1) as -> by (revert Hb; by destruct b). lia.
Qed.

(** ** Claims *)

Definition claims_of (p : ContactDiscoveryTicketPayload) : ContactDiscoveryTicketClaims :=
  mkClaims (tp_v p) (tp_user_id p) (tp_device_id p) (tp_purpose p) (tp_manifest_contract_sha256 p)
    (tp_contact_invite_token p) (tp_contact_invite_expires_at p) (tp_issued_at p) (tp_expires_at p) (tp_max_uses p)
    (tp_nonce p).

(** What the service reads is what the server wrote. *)
Lemma claims_roundtrip (p : ContactDiscoveryTicketPayload) :
  tp_v p ≤ 255 → tp_max_uses p ≤ 255 → claims_of_json (ticket_payload_json p) = Some (claims_of p).
Proof.
  assert (Hu : ∀ n, n ≤ 255 → json_u8 (JNumber (Z.of_N n)) = Some n).
  { intros n Hn. unfold json_u8. rewrite (proj2 (Z.leb_le _ _)), (proj2 (Z.leb_le _ _)) by lia. simpl. f_equal. lia. }
  intros Ev%Hu Em%Hu. clear Hu. destruct p as [v u d pu mc it ie ia ea m n].
  cbn [tp_v tp_max_uses] in *. cbv -[json_u8 Z.of_N]. by rewrite Ev, Em.
Qed.

Section Issued.
Context `{P : Primitives} `{V : Ed25519} `{!Ed25519Laws V} `{B : Base64} `{!Base64Laws B} `{J : JsonText} `{!JsonLaws J}
  `{T : Rfc3339} `{!Rfc3339Laws T}.

(** The payloads the server signs. *)
Record payload_wf (p : ContactDiscoveryTicketPayload) (issued_at invite_expires_at : Z) : Prop := {
  pw_v : tp_v p = 1;
  pw_user : is_empty_trimmed (tp_user_id p) = false ∧ len (tp_user_id p) ≤ 128;
  pw_device : is_empty_trimmed (tp_device_id p) = false ∧ len (tp_device_id p) ≤ 128;
  pw_purpose : ∃ purpose, tp_purpose p = ContactDiscoveryTicketPurpose_as_str purpose ∧ tp_max_uses p = max_uses purpose;
  pw_contract : len (tp_manifest_contract_sha256 p) = 64 ∧ forallb is_ascii_hexdigit (tp_manifest_contract_sha256 p) = true;
  pw_token : token_ok (tp_contact_invite_token p);
  pw_invite : tp_contact_invite_expires_at p = to_rfc3339 invite_expires_at ∧
    (issued_at < invite_expires_at < YEAR_10000)%Z;
  pw_issued : tp_issued_at p = to_rfc3339 issued_at ∧ (0 ≤ issued_at)%Z;
  pw_expires : tp_expires_at p = to_rfc3339 (issued_at + 300 * NANOS)%Z ∧ (issued_at + 300 * NANOS < YEAR_10000)%Z;
  pw_nonce : uuid_shape (tp_nonce p);
}.

Definition expired_error : bytes := lit "contact discovery ticket expired".

Lemma hexdigit_plain (b : byte) : is_ascii_hexdigit b = true → plain b = true.
Proof. by destruct b. Qed.

Lemma forallb_impl {A} (f g : A → bool) (l : list A) : (∀ x, f x = true → g x = true) → forallb f l = true → forallb g l = true.
Proof. rewrite !forallb_forall. eauto. Qed.

Lemma nonempty_plain (l : bytes) : 0 < len l → forallb plain l = true → is_empty_trimmed l = false.
Proof. intros Hl Hp. unfold is_empty_trimmed. rewrite str_trim_all_plain by done. apply N.eqb_neq. lia. Qed.

Lemma lower_hexdigit (b : byte) : is_ascii_hexdigit b = true → is_ascii_hexdigit (ascii_lower b) = true.
Proof. by destruct b. Qed.

Lemma validate_hex_ok (name value : bytes) : len value = 64 → forallb is_ascii_hexdigit value = true →
  ∃ v, Discovery.validate_sha256_hex name value = Ok v.
Proof.
  intros Hl Hh. unfold Discovery.validate_sha256_hex, validate_hex.
  rewrite str_trim_all_plain by (by eapply forallb_impl; [apply hexdigit_plain|]).
  assert (Hl' : (len (to_ascii_lowercase value) =? 64) = true).
  { unfold len, to_ascii_lowercase in *. rewrite length_map. by apply N.eqb_eq. }
  assert (Hh' : forallb is_ascii_hexdigit (to_ascii_lowercase value) = true).
  { apply forallb_forall. intros b (c & <- & Hc)%in_map_iff. rewrite forallb_forall in Hh. by apply lower_hexdigit, Hh. }
  rewrite Hl', Hh'. by eexists.
Qed.

(** The claims of such a payload pass every check but that of the clock. *)
Lemma check_claims_issued p issued_at invite_expires_at now :
  payload_wf p issued_at invite_expires_at →
  check_claims (claims_of p) now = bail_if (issued_at + 300 * NANOS <=? now)%Z expired_error.
Proof.
  intros [Hv [Hu _] [Hd _] (pu & Hp & Hm) [Hc1 Hc2] [Ht1 Ht2] [Hi1 Hi2] [Hs1 Hs2] [He1 He2] (Hn1 & Hn2 & _)].
  assert (Hcp : check_purpose (claims_of p) = Ok tt).
  { unfold check_purpose, claims_of. cbn [cl_purpose cl_max_uses]. rewrite Hp, Hm. by destruct pu. }
  unfold check_claims. rewrite Hcp. unfold claims_of.
  cbn [cl_v cl_user_id cl_device_id cl_purpose cl_manifest_contract_sha256 cl_contact_invite_token
       cl_contact_invite_expires_at cl_issued_at cl_expires_at cl_max_uses cl_nonce].
  rewrite Hv, Hu, Hd. cbn [bail_if negb orb N.eqb Pos.eqb].
  assert (Htp : forallb plain (tp_contact_invite_token p) = true) by (eapply forallb_impl, Ht2; by intros []).
  rewrite (nonempty_plain _ (proj1 Ht1) Htp), Ht2, (proj2 (N.ltb_ge 128 _) (proj2 Ht1)). cbn [bail_if negb orb].
  assert (Hnp : forallb plain (tp_nonce p) = true) by (eapply forallb_impl, Hn2; by intros []).
  rewrite (nonempty_plain (tp_nonce p)), Hn1 by (done || lia). cbn [bail_if orb].
  change (128 <? 36) with false. cbn [bail_if].
  rewrite Hs1, He1, Hi1, !rfc3339_roundtrip by (unfold NANOS in *; lia). cbn [ok_or].
  rewrite !(proj2 (Z.leb_gt _ _)) by (unfold NANOS in *; lia). cbn [bail_if].
  assert (Hmu : (tp_max_uses p =? 0) || (CONTACT_DISCOVERY_TICKET_MAX_USES <? tp_max_uses p) = false)
    by (rewrite Hm; by destruct pu).
  rewrite Hmu. cbn [bail_if]. destruct (validate_hex_ok (lit "contact discovery ticket manifest_contract_sha256") _ Hc1 Hc2) as [v ->].
  replace (issued_at + 300 * NANOS - issued_at)%Z with (300 * NANOS)%Z by lia.
  change (CONTACT_DISCOVERY_TICKET_MAX_TTL_SECONDS <? num_seconds (300 * NANOS))%Z with false. done.
Qed.

Lemma payload_size p issued_at invite_expires_at :
  payload_wf p issued_at invite_expires_at → len (json_to_vec (ticket_payload_json p)) ≤ 2700.
Proof.
  intros [Hv [_ Hu] [_ Hd] (pu & Hp & Hm) [Hc1 Hc2] [Ht1 Ht2] [Hi1 Hi2] [Hs1 Hs2] [He1 He2] (Hn1 & Hn2 & _)].
  etrans; [apply json_text_size|]. unfold ticket_payload_json. cbn [json_size foldr].
  repeat match goal with |- context [text_size (lit ?k)] =>
    let n := eval vm_compute in (text_size (lit k)) in change (text_size (lit k)) with n end.
  pose proof (text_size_bound (tp_user_id p)). pose proof (text_size_bound (tp_device_id p)).
  rewrite (text_size_plain (tp_manifest_contract_sha256 p))
    by (eapply forallb_impl, Hc2; intros b ->; apply orb_true_r).
  rewrite (text_size_plain (tp_contact_invite_token p)) by (eapply forallb_impl, Ht2; by intros b ->).
  rewrite (text_size_plain (tp_nonce p)) by (eapply forallb_impl, Hn2; by intros []).
  rewrite Hi1, Hs1, He1.
  assert (Ht : ∀ t, (0 ≤ t < YEAR_10000)%Z → text_size (to_rfc3339 t) ≤ 212).
  { intros t Hr%rfc3339_length. pose proof (text_size_bound (to_rfc3339 t)). lia. }
  pose proof (Ht invite_expires_at ltac:(lia)). pose proof (Ht issued_at ltac:(unfold NANOS in *; lia)).
  pose proof (Ht (issued_at + 300 * NANOS)%Z ltac:(unfold NANOS in *; lia)).
  rewrite Hv, Hm, Hp. destruct pu; cbn [max_uses ContactDiscoveryTicketPurpose_as_str];
  repeat match goal with
    | |- context [text_size (lit ?k)] => let n := eval vm_compute in (text_size (lit k)) in change (text_size (lit k)) with n
    | |- context [len (decimal (Z.abs_N (Z.of_N ?z)))] =>
        let n := eval vm_compute in (len (decimal (Z.abs_N (Z.of_N z)))) in change (len (decimal (Z.abs_N (Z.of_N z)))) with n
    end; lia.
Qed.

Lemma b64_len (l : bytes) : len l ≤ 2700 → 0 < len (b64_encode l) + 1 ∧ len (b64_encode l) ≤ 3600.
Proof.
  intros Hl. unfold len in *. rewrite b64_encode_length.
  pose proof (Nat.Div0.div_le_mono (length l + 2) 2702 3 ltac:(lia)). change (2702 / 3)%nat with 900%nat in *. lia.
Qed.

Lemma verify_issued p issued_at invite_expires_at pk sk key now :
  payload_wf p issued_at invite_expires_at → ed_pair pk sk → ed_key_from_bytes pk = Some key →
  verify_contact_discovery_ticket key
    (b64_encode (json_to_vec (ticket_payload_json p)) ++ lit "."
       ++ b64_encode (ed_sign sk (json_to_vec (ticket_payload_json p)))) now
  = if (issued_at + 300 * NANOS <=? now)%Z then Err expired_error else Ok (claims_of p).
Proof.
  intros Hwf Hpair Hkey. pose proof (payload_size _ _ _ Hwf) as Hsize.
  set (pb := json_to_vec (ticket_payload_json p)) in *. change (lit ".") with [x2e]. cbn [Datatypes.app].
  destruct (b64_plain pb) as [Hp1 Hp2]. destruct (b64_plain (ed_sign sk pb)) as [Hs1 Hs2].
  pose proof (ed_sign_length sk pb) as Hl. unfold verify_contact_discovery_ticket.
  rewrite str_trim_all_plain by (rewrite forallb_app, Hp1; simpl; by rewrite Hs1).
  assert (Hlen : len (b64_encode pb ++ x2e :: b64_encode (ed_sign sk pb)) = len (b64_encode pb) + 89).
  { unfold len. rewrite length_app. cbn [length]. rewrite (b64_encode_length (ed_sign sk pb)), Hl.
    change (4 * ((64 + 2) / 3))%nat with 88%nat. lia. }
  destruct (b64_len pb Hsize) as [_ Hb].
  rewrite Hlen, (proj2 (N.eqb_neq _ _)), (proj2 (N.ltb_ge _ _)) by lia. cbn [bail_if orb].
  rewrite split_dot_two by done. cbn [lookup list_lookup ok_or bail_if]. rewrite bool_decide_eq_true_2 by done.
  cbn [negb bail_if]. rewrite !b64_roundtrip. cbn [ok_or]. unfold len at 1. rewrite Hl. cbn [negb bail_if N.eqb N.of_nat Pos.of_succ_nat Pos.succ Pos.eqb].
  destruct (ed_correct pk sk pb Hpair) as (k & sg & Hk & Hsg & Hok). rewrite Hkey in Hk. injection Hk as <-.
  rewrite Hsg, Hok. cbn [negb bail_if]. unfold pb. rewrite json_roundtrip. cbn [mbind option_bind].
  rewrite claims_roundtrip.
  2: { by rewrite (pw_v _ _ _ Hwf). }
  2: { destruct (pw_purpose _ _ _ Hwf) as (pu & _ & ->). by destruct pu. }
  cbn [ok_or]. rewrite (check_claims_issued _ _ _ _ Hwf). by destruct (_ <=? now)%Z.
Qed.
End Issued.

(** ** Issuing a ticket *)

Lemma require_header_value_ok headers name n v :
  require_header_value headers name n = Ok v → len v ≤ n ∧ 0 < len v.
Proof.
  unfold require_header_value. destruct (headers !! name); [|done]. simpl. destruct (header_to_str _); [|done]. simpl.
  destruct (_ || _) eqn:E; [done|]. intros [= <-]. apply orb_false_iff in E as [E1 E2].
  apply N.eqb_neq in E1. apply N.ltb_ge in E2. lia.
Qed.

Lemma parse_request_auth_ids `{B : Base64} headers auth :
  parse_request_auth headers = Ok auth →
  (len (ra_user_id auth) ≤ 128 ∧ is_empty_trimmed (ra_user_id auth) = false) ∧
  (len (ra_device_id auth) ≤ 128 ∧ is_empty_trimmed (ra_device_id auth) = false).
Proof.
  assert (Hid : ∀ f v, validate_id f v = Ok tt → is_empty_trimmed v = false).
  { intros f v. unfold validate_id, is_empty_trimmed. by destruct (len (str_trim v) =? 0). }
  unfold parse_request_auth. intros H. inv_ok H. subst. cbn [ra_user_id ra_device_id].
  repeat match goal with u : unit |- _ => destruct u end.
  repeat match goal with E : require_header_value _ _ _ = Ok _ |- _ => apply require_header_value_ok in E as [? _] end.
  repeat match goal with E : validate_id _ _ = Ok _ |- _ => apply Hid in E end. done.
Qed.

Section Issue.
Context `{P : Primitives} `{V : Ed25519} `{!Ed25519Laws V} `{B : Base64} `{!Base64Laws B} `{X : Hex} `{I : HashIter}
  `{U : !Uuid} `{!UuidLaws U} `{J : JsonText} `{!JsonLaws J} `{T : Rfc3339} `{!Rfc3339Laws T}.
Context (cfg : ContactDiscoveryConfig).
#[local] Abbreviation contract := (contact_discovery_expected_manifest_contract_sha256 cfg).

(** A hash the server may be configured with. *)
Definition contract_ok : Prop := ∀ c, contract = Some c → len c = 64 ∧ forallb is_ascii_hexdigit c = true.

(** What issuing a ticket establishes. *)
Record ticket_issued (user_id purpose : bytes) (s s' : AppState) (resp : ContactDiscoveryTicketResponse)
    (p : ContactDiscoveryTicketPayload) (i : InviteRow) : Prop := {
  ti_wf : payload_wf p (st_utc s) (iv_expires_at i);
  ti_ticket : ts_ticket resp = b64_encode (json_to_vec (ticket_payload_json p)) ++ lit "."
    ++ b64_encode (ed_sign (st_sender_certificate_signing_key s) (json_to_vec (ticket_payload_json p)));
  ti_user : tp_user_id p = user_id;
  ti_purpose : tp_purpose p = to_ascii_lowercase (str_trim purpose);
  ti_nonce : tp_nonce p = ts_ticket_nonce resp;
  ti_contract : contract = Some (tp_manifest_contract_sha256 p);
  ti_invite : contact_invites (st_db s') !! tp_contact_invite_token p = Some i ∧ iv_user_id i = user_id;
  ti_state : invites_only user_id s s';
  ti_exists : is_Some (users (st_db s) !! user_id);
}.

Lemma create_ticket_issues (user_id : bytes) (headers : HeaderMap) (purpose : bytes) (s s' : AppState) resp :
  contract_ok → invites_wf (st_db s) → (0 ≤ st_utc s)%Z → (st_utc s + ttl DiscoveryBootstrap < YEAR_10000)%Z →
  create_contact_discovery_ticket cfg user_id headers purpose s = (s', Ok resp) →
  ∃ p i, ticket_issued user_id purpose s s' resp p i.
Proof.
  intros Hc Hwf H0 Hy H. unfold create_contact_discovery_ticket in H.
  run1 H H1. run1 H Hq1. run1 H H2. run1 H H3. run1 H H4. run1 H H5. run1 H H6. run1 H H7. run1 H Hq2.
  apply (steps_run _ _ _ _ _ (quiet_verify_request_auth _ _)) in Hq2.
  pose proof (proj1 H3 eq_refl) as Hex. rewrite (quiet_db _ _ Hq1) in Hex.
  pose proof (transitivity Hq1 Hq2) as Hq. clear Hq1 Hq2.
  run_ok H s3 inv Hinv. apply ensure_contact_invite_spec in Hinv as [Hio Hg]; [|by rewrite (quiet_utc _ _ Hq)].
  pose proof (transitivity (quiet_invites_only user_id _ _ Hq) Hio) as Hio'. clear Hio.
  run1 H H8. run1 H H9. run_ok H s4 nonce Hn.
  pose proof (steps_run _ _ _ _ _ quiet_new_uuid Hn) as Hq3.
  assert (Hshape : uuid_shape nonce).
  { unfold new_uuid in Hn. pose proof (uuid_text (st_rng s3)) as Ht. destruct (uuid_v4 (st_rng s3)).
    by injection Hn as <- <-. }
  run1 H H10. injection H as <- <-. pose proof (transitivity Hio' (quiet_invites_only user_id _ _ Hq3)) as Hio.
  destruct Hg as (i & Hi & Hiu & Hie & Hlive). destruct Hio' as [Hutc Hsk _ Hwf3 _].
  destruct (Hwf3 Hwf _ _ Hi) as [Htok Hyear]. destruct (parse_request_auth_ids _ _ H5) as [[Hu1 Hu2] [Hd1 Hd2]].
  rewrite H6 in Hu1, Hu2. rewrite Hutc in *.
  assert (Hcon : contract = Some a3).
  { destruct contract; [|done]. by injection H9 as ->. }
  eexists (mkTicketPayload _ _ _ _ _ _ _ _ _ _ _), i. split.
  1: split; cbn [tp_v tp_user_id tp_device_id tp_purpose tp_manifest_contract_sha256 tp_contact_invite_token
       tp_contact_invite_expires_at tp_issued_at tp_expires_at tp_max_uses tp_nonce].
  11: { cbn [ts_ticket]. rewrite (io_key _ _ _ Hio). done. }
  all: try done.
  - by exists a0.
  - by apply Hc.
  - rewrite Hie. split; [done|]. lia.
  - split; [done|]. unfold ttl, CONTACT_INVITE_TTL_DAYS, NANOS in *. lia.
  - simpl. unfold ContactDiscoveryTicketPurpose_parse in H4.
    repeat case_bool_decide; try done; injection H4 as <-; done.
  - split; [|done]. simpl. by rewrite (quiet_db _ _ Hq3).
Qed.

(** A ticket the server issues is accepted by the discovery service that
    knows the server's key at every instant before its expiry, five minutes
    after it was issued, and refused as expired from then on. Its claims name
    the authenticated user, the requested purpose, the configured manifest
    contract, and an invite that the server stores for that very user and that
    outlives the moment of issue. *)
Theorem issued_ticket_accepted (user_id : bytes) (headers : HeaderMap) (purpose : bytes) (s s' : AppState)
    (resp : ContactDiscoveryTicketResponse) (key : ed_key) :
  length (st_sender_certificate_signing_key s) = 32%nat →
  ed_key_from_bytes (ed_public (st_sender_certificate_signing_key s)) = Some key →
  contract_ok → invites_wf (st_db s) → (0 ≤ st_utc s)%Z → (st_utc s + ttl DiscoveryBootstrap < YEAR_10000)%Z →
  create_contact_discovery_ticket cfg user_id headers purpose s = (s', Ok resp) →
  ∃ claims i,
    (∀ now, verify_contact_discovery_ticket key (ts_ticket resp) now
       = if (st_utc s + 300 * NANOS <=? now)%Z then Err expired_error else Ok claims) ∧
    cl_user_id claims = user_id ∧ cl_purpose claims = to_ascii_lowercase (str_trim purpose) ∧
    Some (cl_manifest_contract_sha256 claims) = contract ∧ cl_nonce claims = ts_ticket_nonce resp ∧
    contact_invites (st_db s') !! cl_contact_invite_token claims = Some i ∧ iv_user_id i = user_id ∧
    (st_utc s < iv_expires_at i)%Z ∧ invites_wf (st_db s').
Proof.
  intros Hsk Hkey Hc Hwf H0 Hy H. destruct (create_ticket_issues _ _ _ _ _ _ Hc Hwf H0 Hy H) as (p & i & Hi).
  exists (claims_of p), i. split.
  - intros now. rewrite (ti_ticket _ _ _ _ _ _ _ Hi). apply (verify_issued _ _ _ _ _ _ _ (ti_wf _ _ _ _ _ _ _ Hi)
      (ed_public_pair _ Hsk) Hkey).
  - destruct Hi as [Hpw _ Hu Hp Hn Hcon [Hi1 Hi2] [_ _ _ Hw _] _]. destruct (pw_invite _ _ _ Hpw) as [_ Hlive].
    split_and!; try done; [lia|by apply Hw].
Qed.
End Issue.

(** ** A concrete ticket *)

#[export] Instance ToyUuid4 : @Uuid Toy :=
  {| uuid_v4 := λ g : @rng Toy, (lit "00000000-0000-4000-8000-" ++ bytes_to_hex (toy_stream 6 (g * 101 + 3)), g + 1) |}.

Lemma uuid_simple_hex (l : bytes) : forallb is_ascii_hexdigit l = true → uuid_simple l = l.
Proof.
  induction l as [|b l IH]; [done|]. cbn [forallb]. intros [Hb Hl]%andb_true_iff. unfold uuid_simple in *.
  rewrite filter_cons_True by (by intros ->). by rewrite (IH Hl).
Qed.

#[export] Instance ToyUuid4Laws : UuidLaws ToyUuid4.
Proof.
  split. intros g. cbn [uuid_v4 ToyUuid4 fst]. set (l := toy_stream 6 _).
  assert (Hlen : length (bytes_to_hex l) = 12%nat) by (rewrite length_bytes_to_hex; unfold l; rewrite length_toy_stream; lia).
  pose proof (hex_is_digits l) as Hd. revert Hlen Hd. generalize (bytes_to_hex l). clear l. intros h Hlen Hd.
  unfold uuid_shape, len. rewrite length_app, Hlen. split; [done|]. split.
  - rewrite forallb_app. simpl. eapply forallb_impl, Hd. by intros b ->.
  - unfold uuid_simple. rewrite list.filter_app. fold (uuid_simple h). rewrite (uuid_simple_hex h Hd).
    by rewrite length_app, Hlen.
Qed.

Definition toy_contract : bytes := replicate 64 x61.

(** A server configured for a service with the given contract. *)
Definition toy_config (contract : bytes) : ContactDiscoveryConfig :=
  mkDiscoveryConfig (Some (lit "https://discovery")) (Some (lit "issuer")) (Some (lit "backend")) (Some 1) (Some (lit "host"))
    (Some (lit "enclave")) (Some contract) (Some (lit "verifier")) (Some (replicate 64 x62)) None (Some (replicate 64 x63)) (Some 300).

(** The key of the toy server's sender certificates. *)
Definition toy_issuer : @ed_key ToyEd := toy_sum 4 (toy_key 7).

Definition toy_ticket_headers (user : bytes) (seed : N) (purpose nonce : bytes) : HeaderMap :=
  toy_headers user (lit "d1") seed 1000 nonce (λ auth, contact_discovery_ticket_auth_message auth user purpose).

Definition toy_ticket (user : bytes) (seed : N) (purpose nonce : bytes) (s : @AppState Toy)
    : @AppState Toy * app ContactDiscoveryTicketResponse :=
  create_contact_discovery_ticket (U := ToyUuid4) (toy_config toy_contract) user
    (toy_ticket_headers user seed purpose nonce) purpose s.

Lemma toy_ticket_run :
  is_ok (toy_ticket (lit "alice") 101 (lit "upload") (lit "n1") (toy_state (1000 * NANOS) 0 toy_db)).2 = true.
Proof. vm_compute. reflexivity. Qed.

Lemma toy_ticket_created : ∃ s' resp,
  toy_ticket (lit "alice") 101 (lit "upload") (lit "n1") (toy_state (1000 * NANOS) 0 toy_db) = (s', Ok resp).
Proof. pose proof toy_ticket_run as H. destruct (toy_ticket _ _ _ _ _) as [s' [resp|]]; [by eexists _, _|done]. Qed.

Lemma issued_ticket_accepted_witness : ∃ s' resp claims,
  toy_ticket (lit "alice") 101 (lit "upload") (lit "n1") (toy_state (1000 * NANOS) 0 toy_db) = (s', Ok resp) ∧
  verify_contact_discovery_ticket (V := ToyEd) toy_issuer (ts_ticket resp) (1299 * NANOS) = Ok claims ∧
  verify_contact_discovery_ticket (V := ToyEd) toy_issuer (ts_ticket resp) (1300 * NANOS) = Err expired_error ∧
  cl_user_id claims = lit "alice".
Proof.
  destruct toy_ticket_created as (s' & resp & E). exists s', resp.
  destruct (@issued_ticket_accepted Toy ToyEd ToyEdLaws ToyBase64 ToyBase64Laws MapOrder ToyUuid4 ToyUuid4Laws
    ToyJson ToyJsonLaws ToyRfc3339 ToyRfc3339Laws (toy_config toy_contract) (lit "alice")
    (toy_ticket_headers (lit "alice") 101 (lit "upload") (lit "n1")) (lit "upload") (toy_state (1000 * NANOS) 0 toy_db)
    s' resp toy_issuer) as (claims & i & Hv & Hu & _).
  - vm_compute. reflexivity.
  - vm_compute. reflexivity.
  - intros c [= <-]. split; reflexivity.
  - intros token i. change (contact_invites _) with (∅ : gmap bytes InviteRow). by rewrite lookup_empty.
  - change (0 ≤ 1000 * NANOS)%Z. unfold NANOS. lia.
  - change (1000 * NANOS + ttl DiscoveryBootstrap < YEAR_10000)%Z. by vm_compute.
  - exact E.
  - exists claims. pose proof (Hv (1299 * NANOS)%Z) as H1. pose proof (Hv (1300 * NANOS)%Z) as H2. clear Hv.
    change (st_utc _) with (1000 * NANOS)%Z in H1, H2.
    replace (1000 * NANOS + 300 * NANOS <=? 1299 * NANOS)%Z with false in H1 by reflexivity.
    replace (1000 * NANOS + 300 * NANOS <=? 1300 * NANOS)%Z with true in H2 by reflexivity.
    split_and!; assumption.
Defined.
