(* ===== verification/AndroidDiscovery.v ===== *)
(** * Contact discovery in the Android client library ([pqmsg-android/src/lib.rs])

    The client's half of the discovery protocol: checking the manifest and the
    attestation of the service, blinding the hashes of its handles, checking
    the proof that comes with every evaluated element and unblinding it to a
    token. Lists the application passes as JSON text are the lists themselves. *)

From Stdlib Require Import Strings.Byte.
From S2P Require Import Prelude Bytes Errors Crypto Toy ServerError Validation RequestAuth Caches ClientAuth Android Oprf Discovery.
Local Open Scope N_scope.

(** ** Records *)

(** [ContactDiscoveryManifestPayloadRecord] has the fields of the service's
    [ManifestPayload], in the same order. *)
Record ContactDiscoveryManifestRecord := mkManifestRecord {
  mf_payload : ManifestPayload;
  mf_manifest_issuer_ed25519_pub : bytes;
  mf_manifest_signature_ed25519 : bytes;
}.

Record ContactDiscoveryAttestationResponseRecord := mkAttestationRecord {
  af_payload : AttestationPayload;
  af_attestation_signature_ed25519 : bytes;
}.

Record ContactDiscoveryBlindRequestRecord := mkBlindRequest {
  br_blinded_elements_base64 : list bytes;
  br_blinding_scalars_base64 : list bytes;
}.

Record ContactDiscoveryEvaluateResponseRecord := mkEvaluateRecord {
  ev_manifest_contract_sha256 : bytes;
  ev_evaluation_proof_mode : bytes;
  ev_evaluated_elements_base64 : list bytes;
  ev_dleq_proofs : list DiscoveryEvaluateProof;
}.

(** ** Reading the documents *)

(** [Deserialize] of the manifest, with its flattened payload. *)
Definition manifest_of_json (j : Json) : option ContactDiscoveryManifestRecord :=
  l ← members_of j;
  service ← string_member "service" l;
  protocol_version ← u8_member "protocol_version" l;
  attestation_mode ← string_member "attestation_mode" l;
  attestation_verifier ← optional_member json_string "attestation_verifier" l;
  enclave_measurement_hex ← optional_member json_string "enclave_measurement_hex" l;
  attestation_pcrs_sha384 ← optional_member json_btree "attestation_pcrs_sha384" l;
  attestation_document_format ← optional_member json_string "attestation_document_format" l;
  attestation_document_sha256 ← optional_member json_string "attestation_document_sha256" l;
  attestation_challenge_mode ← optional_member json_string "attestation_challenge_mode" l;
  ticket_format ← string_member "ticket_format" l;
  ticket_issuer_ed25519_pub ← string_member "ticket_issuer_ed25519_pub" l;
  ticket_max_ttl_seconds ← i64_member "ticket_max_ttl_seconds" l;
  lookup_protocol ← string_member "lookup_protocol" l;
  privacy_mode ← string_member "privacy_mode" l;
  directory_backend ← string_member "directory_backend" l;
  host_enclave_protocol_version ← u8_member "host_enclave_protocol_version" l;
  host_release_id ← string_member "host_release_id" l;
  enclave_release_id ← string_member "enclave_release_id" l;
  match_result_format ← string_member "match_result_format" l;
  oprf_suite ← string_member "oprf_suite" l;
  evaluation_proof_mode ← string_member "evaluation_proof_mode" l;
  oprf_public_key_ristretto255 ← string_member "oprf_public_key_ristretto255" l;
  signed_at ← string_member "signed_at" l;
  expires_at ← string_member "expires_at" l;
  manifest_issuer_ed25519_pub ← string_member "manifest_issuer_ed25519_pub" l;
  manifest_signature_ed25519 ← string_member "manifest_signature_ed25519" l;
  Some (mkManifestRecord (mkManifest service protocol_version attestation_mode attestation_verifier
          enclave_measurement_hex attestation_pcrs_sha384 attestation_document_format attestation_document_sha256
          attestation_challenge_mode ticket_format ticket_issuer_ed25519_pub ticket_max_ttl_seconds lookup_protocol
          privacy_mode directory_backend host_enclave_protocol_version host_release_id enclave_release_id
          match_result_format oprf_suite evaluation_proof_mode oprf_public_key_ristretto255 signed_at expires_at)
          manifest_issuer_ed25519_pub manifest_signature_ed25519).

Definition attestation_of_json (j : Json) : option ContactDiscoveryAttestationResponseRecord :=
  l ← members_of j;
  attestation_mode ← string_member "attestation_mode" l;
  attestation_verifier ← string_member "attestation_verifier" l;
  enclave_measurement_hex ← string_member "enclave_measurement_hex" l;
  attested_pcrs_sha384 ← optional_member json_btree "attested_pcrs_sha384" l;
  directory_backend ← string_member "directory_backend" l;
  host_enclave_protocol_version ← u8_member "host_enclave_protocol_version" l;
  host_release_id ← string_member "host_release_id" l;
  enclave_release_id ← string_member "enclave_release_id" l;
  manifest_contract_sha256 ← string_member "manifest_contract_sha256" l;
  attested_oprf_public_key_ristretto255 ← string_member "attested_oprf_public_key_ristretto255" l;
  document_format ← string_member "document_format" l;
  document_base64 ← string_member "document_base64" l;
  document_sha256 ← string_member "document_sha256" l;
  published_at ← string_member "published_at" l;
  challenge_nonce_base64 ← string_member "challenge_nonce_base64" l;
  attestation_signature_ed25519 ← string_member "attestation_signature_ed25519" l;
  Some (mkAttestationRecord (mkAttestation attestation_mode attestation_verifier enclave_measurement_hex
          attested_pcrs_sha384 directory_backend host_enclave_protocol_version host_release_id enclave_release_id
          manifest_contract_sha256 attested_oprf_public_key_ristretto255 document_format document_base64
          document_sha256 published_at challenge_nonce_base64) attestation_signature_ed25519).

(** [serde_json::json!] builds a [Map], which is a [BTreeMap]: its members are
    written in the order of their keys. *)
Definition json_key_leb (a b : bytes * Json) : bool := str_leb a.1 b.1.

Definition json_macro (members : list (bytes * Json)) : Json := JObject (sort_unstable json_key_leb members).

(** [HEX[(byte >> 4)]] and [HEX[(byte & 0x0f)]]. *)
Definition HEX : bytes := lit "0123456789abcdef".

Definition hex_string (l : bytes) : bytes :=
  concat (map (λ b, [default x00 (HEX !! N.to_nat (N.shiftr (Byte.to_N b) 4));
                     default x00 (HEX !! N.to_nat (N.land (Byte.to_N b) 0x0f))]) l).

Section AndroidDiscovery.
Context `{P : Primitives} `{V : Ed25519} `{B : Base64} `{R : Ristretto} `{J : JsonText} `{T : Rfc3339}.

(** The [Display] of a [serde_json] error. *)
Context (json_error : bytes → bytes).

Definition from_str {A} (f : Json → option A) (text : bytes) : droid A :=
  ok_or (json_from_slice text ≫= f) (invalid_input (json_error text)).

Definition fail_if (c : bool) (e : PqmsgAndroidError) : droid unit := if c then Err e else Ok tt.

(** [!expected.is_empty() && actual.as_deref() != Some(expected)], on the
    trimmed expectation. *)
Definition pin_differs (expected : bytes) (actual : option bytes) : bool :=
  let expected := str_trim expected in
  negb (len expected =? 0) && negb (bool_decide (actual = Some expected)).

(** The check both signature functions end with. *)
Definition verify_issuer_signature (payload_bytes signature_b64 issuer_b64 : bytes) (signature_field issuer_field : string)
    (bad_length bad_signature : bytes) : droid bool :=
  let? signature_bytes := decode_b64 signature_field signature_b64 in
  let? _ := fail_if (negb (len signature_bytes =? 64)) (operation_failed bad_length) in
  let? key_bytes := decode_b64_32 issuer_field issuer_b64 in
  let? key := ok_or (ed_key_from_bytes key_bytes)
    (operation_failed (lit "invalid contact discovery manifest issuer public key")) in
  let? _ := fail_if (match ed_sig_from_slice signature_bytes with
                     | Some signature => negb (ed_verify key payload_bytes signature)
                     | None => true
                     end) (operation_failed bad_signature) in
  Ok true.

Definition is_none {A} (o : option A) : bool := match o with None => true | Some _ => false end.

(** [now] is [Utc::now()]. *)
Definition verify_contact_discovery_manifest (now : Z) (manifest_json expected_ticket_issuer_ed25519_pub
    expected_manifest_issuer_ed25519_pub expected_attestation_verifier expected_enclave_measurement_hex
    expected_attestation_pcrs_sha384_json expected_attestation_document_sha256 : bytes) : droid bool :=
  let? manifest := from_str manifest_of_json manifest_json in
  let p := mf_payload manifest in
  let? _ := fail_if (negb (bool_decide (mp_ticket_issuer_ed25519_pub p = expected_ticket_issuer_ed25519_pub)))
    (operation_failed (lit "contact discovery manifest ticket issuer mismatch")) in
  let? _ := fail_if (negb (bool_decide (mf_manifest_issuer_ed25519_pub manifest = expected_manifest_issuer_ed25519_pub)))
    (operation_failed (lit "contact discovery manifest issuer mismatch")) in
  let? signed_at := ok_or (parse_from_rfc3339 (mp_signed_at p))
    (operation_failed (lit "invalid contact discovery manifest signed_at")) in
  let? expires_at := ok_or (parse_from_rfc3339 (mp_expires_at p))
    (operation_failed (lit "invalid contact discovery manifest expires_at")) in
  let? _ := fail_if (expires_at <=? signed_at)%Z
    (operation_failed (lit "contact discovery manifest timing is invalid")) in
  let? _ := fail_if (expires_at <=? now)%Z (operation_failed (lit "contact discovery manifest expired")) in
  let? _ := fail_if (pin_differs expected_attestation_verifier (mp_attestation_verifier p))
    (operation_failed (lit "contact discovery manifest attestation verifier mismatch")) in
  let? _ := fail_if (pin_differs expected_enclave_measurement_hex (mp_enclave_measurement_hex p))
    (operation_failed (lit "contact discovery manifest enclave measurement mismatch")) in
  let? expected_pcrs := ok_or (j ← json_from_slice expected_attestation_pcrs_sha384_json;
                               match j with JNull => Some None | _ => Some <$> json_btree j end)
    (invalid_input (lit "expected_attestation_pcrs_sha384_json must be valid JSON")) in
  let? _ := fail_if (negb (bool_decide (mp_attestation_pcrs_sha384 p = expected_pcrs)))
    (operation_failed (lit "contact discovery manifest attestation PCR set mismatch")) in
  let? _ := fail_if (pin_differs expected_attestation_document_sha256 (mp_attestation_document_sha256 p))
    (operation_failed (lit "contact discovery manifest attestation document hash mismatch")) in
  let? _ := fail_if (negb (bool_decide (mp_attestation_mode p = lit "attested_enclave_v1"))
                     || is_none (mp_attestation_verifier p) || is_none (mp_enclave_measurement_hex p)
                     || is_none (mp_attestation_document_format p) || is_none (mp_attestation_document_sha256 p)
                     || is_none (mp_attestation_challenge_mode p))
    (operation_failed (lit "contact discovery manifest attestation contract is incomplete")) in
  verify_issuer_signature (json_to_vec (JObject (manifest_members p))) (mf_manifest_signature_ed25519 manifest)
    expected_manifest_issuer_ed25519_pub "contact_discovery_manifest.manifest_signature_ed25519"
    "contact_discovery_manifest.manifest_issuer_ed25519_pub"
    (lit "contact discovery manifest signature must decode to 64 bytes")
    (lit "contact discovery manifest signature verification failed").

Definition contact_discovery_manifest_contract_sha256 (manifest_json : bytes) : droid bytes :=
  let? manifest := from_str manifest_of_json manifest_json in
  Ok (hex_string (sha256 (json_to_vec (json_macro (manifest_contract_members (mf_payload manifest)))))).

Definition verify_contact_discovery_attestation_response_signature (attestation_json
    expected_manifest_issuer_ed25519_pub expected_challenge_nonce_base64 : bytes) : droid bool :=
  let? response := from_str attestation_of_json attestation_json in
  let expected := str_trim expected_challenge_nonce_base64 in
  let? _ := fail_if (len expected =? 0) (invalid_input (lit "expected_challenge_nonce_base64 must not be empty")) in
  let? _ := fail_if (negb (bool_decide (ap_challenge_nonce_base64 (af_payload response) = expected)))
    (operation_failed (lit "contact discovery attestation challenge nonce mismatch")) in
  verify_issuer_signature (json_to_vec (JObject (attestation_members (af_payload response))))
    (af_attestation_signature_ed25519 response) expected_manifest_issuer_ed25519_pub
    "contact_discovery_attestation.attestation_signature_ed25519"
    "contact_discovery_attestation.manifest_issuer_ed25519_pub"
    (lit "contact discovery attestation signature must decode to 64 bytes")
    (lit "contact discovery attestation signature verification failed").

(** ** Handles and tokens *)

(** The loop over [chunks_exact(2)]. *)
Fixpoint decode_hex_pairs (field : bytes) (l : bytes) : droid bytes :=
  match l with
  | a :: b :: l =>
      let? upper := ok_or (to_digit_16 a) (invalid_input (field ++ lit " must be valid hex")) in
      let? lower := ok_or (to_digit_16 b) (invalid_input (field ++ lit " must be valid hex")) in
      let? rest := decode_hex_pairs field l in
      Ok (byte_of_N (N.lor (N.shiftl upper 4) lower) :: rest)
  | _ => Ok []
  end.

Definition decode_hex_32 (field value : bytes) : droid bytes :=
  let trimmed := str_trim value in
  if negb (len trimmed =? 64) || negb (forallb is_ascii_hexdigit trimmed)
  then Err (invalid_input (field ++ lit " must be a 64-character SHA-256 hex string"))
  else decode_hex_pairs field trimmed.

Definition derive_contact_discovery_handle_point (handle_hash_sha256 : bytes) : droid point :=
  let? handle_hash_bytes := decode_hex_32 (lit "handle_hash_sha256") handle_hash_sha256 in
  Ok (from_uniform_bytes (sha512 (lit "pqmsg-discovery-handle-v1" ++ handle_hash_bytes))).

Definition finalize_contact_discovery_token_hex (p : point) : bytes :=
  bytes_to_hex (sha256 (lit "pqmsg-discovery-finalize-v1" ++ compress p)).

(** The loop over the handles; [None] when a scalar was not found within
    [fuel] draws. *)
Fixpoint blind_handles (fuel : nat) (handle_hashes : list bytes) (g : rng)
    : option (rng * droid (list bytes * list bytes)) :=
  match handle_hashes with
  | [] => Some (g, Ok ([], []))
  | handle_hash :: handle_hashes =>
      match derive_contact_discovery_handle_point handle_hash with
      | Err e => Some (g, Err e)
      | Ok point =>
          match random_nonzero_scalar fuel g with
          | None => None
          | Some (blind_scalar, g) =>
              let blinded_point := point_mul point blind_scalar in
              match blind_handles fuel handle_hashes g with
              | Some (g, Ok (elements, scalars)) =>
                  Some (g, Ok (b64_encode (compress blinded_point) :: elements,
                               b64_encode (scalar_to_bytes blind_scalar) :: scalars))
              | other => other
              end
          end
      end
  end.

Definition contact_discovery_prepare_blind_request (fuel : nat) (handle_hashes : list bytes) (g : rng)
    : option (rng * droid ContactDiscoveryBlindRequestRecord) :=
  if 2048 <? N.of_nat (length handle_hashes)
  then Some (g, Err (invalid_input (lit "contact discovery blind request supports at most 2048 handles")))
  else match blind_handles fuel handle_hashes g with
  | Some (g, Ok (elements, scalars)) => Some (g, Ok (mkBlindRequest elements scalars))
  | Some (g, Err e) => Some (g, Err e)
  | None => None
  end.

(** Decoding a compressed point or a scalar of a document. *)
Definition decode_point (field : string) (value message : bytes) : droid point :=
  let? b := decode_b64_32 field value in
  ok_or (decompress b) (invalid_input message).

Definition decode_scalar (field : string) (value : bytes) : droid scalar :=
  let? b := decode_b64_32 field value in
  Ok (from_bytes_mod_order b).

Definition decode_blind_scalar (value : bytes) : droid scalar :=
  let? blind_scalar := decode_scalar "contact_discovery_blind_scalar" value in
  if bool_decide (blind_scalar = scalar_zero)
  then Err (invalid_input (lit "contact discovery blinding scalar must not decode to zero"))
  else Ok blind_scalar.

Definition finalize_token (blind_scalar_b64 evaluated_element_b64 : bytes) : droid bytes :=
  let? blind_scalar := decode_blind_scalar blind_scalar_b64 in
  let? evaluated_point := decode_point "contact_discovery_evaluated_element" evaluated_element_b64
    (lit "contact discovery evaluated element must decode to a valid compressed ristretto point") in
  Ok (finalize_contact_discovery_token_hex (point_mul evaluated_point (scalar_invert blind_scalar))).

Definition contact_discovery_finalize_tokens (blinding_scalars_base64 evaluated_elements_base64 : list bytes)
    : droid (list bytes) :=
  if negb (length blinding_scalars_base64 =? length evaluated_elements_base64)%nat
  then Err (invalid_input (lit "contact discovery evaluation result count mismatch"))
  else traverse_droid (λ '(s, e), finalize_token s e) (zip blinding_scalars_base64 evaluated_elements_base64).

(** One round of the loop of [contact_discovery_verify_and_finalize_tokens]. *)
Definition verify_and_finalize_token (public_key : point) (blinded_b64 blind_scalar_b64 evaluated_b64 : bytes)
    (proof : DiscoveryEvaluateProof) : droid bytes :=
  let? blinded_point := decode_point "contact_discovery_blinded_element" blinded_b64
    (lit "contact discovery blinded element is invalid") in
  let? evaluated_point := decode_point "contact_discovery_evaluated_element" evaluated_b64
    (lit "contact discovery evaluated element is invalid") in
  let? challenge := decode_scalar "contact_discovery_proof_challenge_scalar" (ep_challenge_scalar_base64 proof) in
  let? response_scalar := decode_scalar "contact_discovery_proof_response_scalar" (ep_response_scalar_base64 proof) in
  let? commitment_base := decode_point "contact_discovery_proof_commitment_base" (ep_commitment_base_base64 proof)
    (lit "contact discovery proof commitment base is invalid") in
  let? commitment_blinded := decode_point "contact_discovery_proof_commitment_blinded"
    (ep_commitment_blinded_base64 proof) (lit "contact discovery proof commitment blinded is invalid") in
  let expected_challenge := discovery_evaluation_challenge public_key blinded_point evaluated_point
                              commitment_base commitment_blinded in
  let? _ := fail_if (negb (bool_decide (challenge = expected_challenge)))
    (invalid_input (lit "contact discovery DLEQ challenge mismatch")) in
  let? _ := fail_if (negb (bool_decide (point_mul RISTRETTO_BASEPOINT_POINT response_scalar
                                        = point_add commitment_base (point_mul public_key challenge))))
    (invalid_input (lit "contact discovery DLEQ base equation failed")) in
  let? _ := fail_if (negb (bool_decide (point_mul blinded_point response_scalar
                                        = point_add commitment_blinded (point_mul evaluated_point challenge))))
    (invalid_input (lit "contact discovery DLEQ blinded equation failed")) in
  let? blind_scalar := decode_blind_scalar blind_scalar_b64 in
  Ok (finalize_contact_discovery_token_hex (point_mul evaluated_point (scalar_invert blind_scalar))).

Fixpoint verify_and_finalize_loop (public_key : point) (blinded scalars evaluated : list bytes)
    (proofs : list DiscoveryEvaluateProof) : droid (list bytes) :=
  match blinded, scalars, evaluated, proofs with
  | b :: blinded, s :: scalars, e :: evaluated, p :: proofs =>
      let? token := verify_and_finalize_token public_key b s e p in
      let? tokens := verify_and_finalize_loop public_key blinded scalars evaluated proofs in
      Ok (token :: tokens)
  | _, _, _, _ => Ok []
  end.

Definition contact_discovery_verify_and_finalize_tokens (blinded_elements_base64 blinding_scalars_base64 : list bytes)
    (response : ContactDiscoveryEvaluateResponseRecord) (expected_oprf_public_key_ristretto255_b64 : bytes)
    : droid (list bytes) :=
  let? _ := fail_if (negb (bool_decide (ev_evaluation_proof_mode response = lit "dleq_per_element_v1")))
    (invalid_input (lit "unsupported contact discovery evaluation proof mode")) in
  let n := length blinded_elements_base64 in
  let? _ := fail_if (negb (n =? length (ev_evaluated_elements_base64 response))%nat
                     || negb (n =? length (ev_dleq_proofs response))%nat
                     || negb (n =? length blinding_scalars_base64)%nat)
    (invalid_input (lit "contact discovery evaluation proof count mismatch")) in
  let? public_key := decode_point "contact_discovery_oprf_public_key_ristretto255"
    expected_oprf_public_key_ristretto255_b64 (lit "contact discovery OPRF public key is invalid") in
  verify_and_finalize_loop public_key blinded_elements_base64 blinding_scalars_base64
    (ev_evaluated_elements_base64 response) (ev_dleq_proofs response).
End AndroidDiscovery.
