(* ===== verification/DiscoveryRun.v ===== *)
(** * Contact discovery from end to end

    Two Android clients, the discovery service and the messaging server
    together: the proofs the service sends pass the client's checks, the tokens
    the clients compute depend on the handle and the service's key alone, and a
    user who uploads the token of a handle is found by whoever looks for that
    handle, through an invite the server resolves to that user. *)

From Stdlib Require Import Strings.Byte.
From S2P Require Import Prelude Bytes Errors Tlv Crypto Toy Alg PqSig ServerError Validation RequestAuth Caches Realtime ServerState ToyServer ServerFrame ServerAuth Messaging PrekeyServer ClientAuth Android Oprf ToyDiscovery Contacts Discovery DiscoveryFacts DiscoveryTickets AndroidDiscovery.
Local Open Scope N_scope.

(** ** The oblivious evaluation *)

Section Evaluation.
Context `{P : Primitives} `{!PrimitiveLaws P} `{V : Ed25519} `{B : Base64} `{!Base64Laws B} `{R : Ristretto}
  `{!RistrettoLaws R}.

Lemma decode_b64_32_ok (field : string) (b : bytes) : length b = 32%nat → decode_b64_32 field (b64_encode b) = Ok b.
Proof. intros H. unfold decode_b64_32, decode_b64. rewrite b64_roundtrip. cbn [ok_or]. unfold len. by rewrite H. Qed.

Lemma decode_point_ok (field : string) (p : point) (m : bytes) : decode_point field (b64_encode (compress p)) m = Ok p.
Proof.
  unfold decode_point. rewrite decode_b64_32_ok by apply compress_length. by rewrite decompress_compress.
Qed.

Lemma decode_scalar_ok (field : string) (a : scalar) : decode_scalar field (b64_encode (scalar_to_bytes a)) = Ok a.
Proof.
  unfold decode_scalar. rewrite decode_b64_32_ok by apply scalar_to_bytes_length. by rewrite scalar_from_to.
Qed.

Lemma decode_blind_scalar_ok (a : scalar) : a ≠ scalar_zero → decode_blind_scalar (b64_encode (scalar_to_bytes a)) = Ok a.
Proof. intros H. unfold decode_blind_scalar. rewrite decode_scalar_ok. by rewrite bool_decide_eq_false_2. Qed.

(** The next [n] scalars are found within [fuel] draws each. *)
Fixpoint draws_ok (fuel n : nat) (g : rng) : Prop :=
  match n with
  | O => True
  | S n => match random_nonzero_scalar fuel g with Some (_, g) => draws_ok fuel n g | None => False end
  end.

Definition blinded_b64 (x : point * scalar) : bytes := b64_encode (compress (point_mul x.1 x.2)).
Definition scalar_b64 (x : point * scalar) : bytes := b64_encode (scalar_to_bytes x.2).

Definition blinds (h : bytes) (x : point * scalar) : Prop :=
  derive_contact_discovery_handle_point h = Ok x.1 ∧ x.2 ≠ scalar_zero.

Lemma blind_handles_spec (fuel : nat) (hashes : list bytes) (g : rng) :
  Forall (λ h, ∃ p, derive_contact_discovery_handle_point h = Ok p) hashes → draws_ok fuel (length hashes) g →
  ∃ g' xs, blind_handles fuel hashes g = Some (g', Ok (map blinded_b64 xs, map scalar_b64 xs)) ∧ Forall2 blinds hashes xs.
Proof.
  intros Hh. revert g. induction Hh as [|h hashes [p Hp] _ IH]; intros g Hd; [by exists g, []|].
  cbn [length draws_ok] in Hd. cbn [blind_handles]. rewrite Hp.
  destruct (random_nonzero_scalar fuel g) as [[a g1]|] eqn:Ea; [|done].
  destruct (IH g1 Hd) as (g' & xs & -> & Hxs). exists g', ((p, a) :: xs). split; [done|].
  constructor; [|done]. split; [done|]. by eapply random_nonzero_scalar_nonzero.
Qed.

(** A proof as the service makes it for a blinded point [q] and its key [k]. *)
Definition honest_proof (k : scalar) (q : point) (pf : DiscoveryEvaluateProof) : Prop :=
  ∃ n, let A := point_mul RISTRETTO_BASEPOINT_POINT n in
    let A' := point_mul q n in
    let c := discovery_evaluation_challenge (point_mul RISTRETTO_BASEPOINT_POINT k) q (point_mul q k) A A' in
    pf = mkProof (encode_scalar_b64 c) (encode_scalar_b64 (scalar_add n (scalar_mul c k)))
           (b64_encode (compress A)) (b64_encode (compress A')).

Lemma evaluate_elements_spec (fuel m : nat) (k : scalar) (qs : list point) (g : rng) :
  draws_ok fuel (length qs + m) g →
  ∃ g' proofs, evaluate_elements fuel k (point_mul RISTRETTO_BASEPOINT_POINT k) (map compress qs) g
      = Some (g', Ok (map (λ q, b64_encode (compress (point_mul q k))) qs, proofs)) ∧
    Forall2 (honest_proof k) qs proofs ∧ draws_ok fuel m g'.
Proof.
  revert g. induction qs as [|q qs IH]; intros g Hd; [by exists g, []|].
  cbn [length draws_ok Nat.add] in Hd. cbn [map evaluate_elements]. rewrite decompress_compress.
  unfold generate_discovery_evaluate_proof. destruct (random_nonzero_scalar fuel g) as [[n g1]|]; [|done].
  destruct (IH g1 Hd) as (g' & proofs & -> & Hp & Hm). eexists g', (_ :: proofs). split; [done|]. split; [|done].
  constructor; [|done]. by exists n.
Qed.

Lemma unblind (p : point) (a k : scalar) :
  a ≠ scalar_zero → point_mul (point_mul (point_mul p a) k) (scalar_invert a) = point_mul p k.
Proof.
  intros Ha. rewrite (mul_mul p a k), scalar_mul_comm, <- (mul_mul p k a). by apply mul_invert.
Qed.

(** The two equations of the proof hold for what the service computes. *)
Lemma dleq_complete (q : point) (n c k : scalar) :
  point_mul q (scalar_add n (scalar_mul c k)) = point_add (point_mul q n) (point_mul (point_mul q k) c).
Proof. by rewrite mul_add, mul_mul. Qed.

Lemma verify_and_finalize_token_ok (k : scalar) (p : point) (a : scalar) (pf : DiscoveryEvaluateProof) :
  a ≠ scalar_zero → honest_proof k (point_mul p a) pf →
  verify_and_finalize_token (point_mul RISTRETTO_BASEPOINT_POINT k) (blinded_b64 (p, a)) (scalar_b64 (p, a))
    (b64_encode (compress (point_mul (point_mul p a) k))) pf
  = Ok (finalize_contact_discovery_token_hex (point_mul p k)).
Proof.
  intros Ha (n & ->). unfold verify_and_finalize_token, blinded_b64, scalar_b64, encode_scalar_b64.
  cbn [fst snd ep_challenge_scalar_base64 ep_response_scalar_base64 ep_commitment_base_base64 ep_commitment_blinded_base64].
  rewrite !decode_point_ok, !decode_scalar_ok, decode_blind_scalar_ok by done.
  rewrite !bool_decide_eq_true_2 by (done || apply dleq_complete). cbn [negb fail_if]. by rewrite unblind.
Qed.

Lemma verify_and_finalize_loop_ok (k : scalar) (xs : list (point * scalar)) (proofs : list DiscoveryEvaluateProof) :
  Forall (λ x, x.2 ≠ scalar_zero) xs → Forall2 (honest_proof k) (map (λ x, point_mul x.1 x.2) xs) proofs →
  verify_and_finalize_loop (point_mul RISTRETTO_BASEPOINT_POINT k) (map blinded_b64 xs) (map scalar_b64 xs)
    (map (λ q, b64_encode (compress (point_mul q k))) (map (λ x, point_mul x.1 x.2) xs)) proofs
  = Ok (map (λ x, finalize_contact_discovery_token_hex (point_mul x.1 k)) xs).
Proof.
  intros Hx. revert proofs. induction Hx as [|[p a] xs Ha _ IH]; intros proofs Hp; inversion Hp as [|? pf ? pfs Hpf Hpfs]; subst; [done|].
  cbn [map verify_and_finalize_loop fst snd]. simpl in Ha, Hpf. rewrite verify_and_finalize_token_ok by done.
  by rewrite (IH _ Hpfs).
Qed.
End Evaluation.

(** ** One client's exchange with the service *)

Section Exchange.
Context `{P : Primitives} `{!PrimitiveLaws P} `{V : Ed25519} `{B : Base64} `{!Base64Laws B} `{R : Ristretto}
  `{!RistrettoLaws R} `{J : JsonText} `{T : Rfc3339} `{I : HashIter}.

Definition evaluate_record (r : DiscoveryEvaluateResponse) : ContactDiscoveryEvaluateResponseRecord :=
  mkEvaluateRecord (es_manifest_contract_sha256 r) (es_evaluation_proof_mode r) (es_evaluated_elements_base64 r)
    (es_dleq_proofs r).

(** The client blinds its handles, has them evaluated and finalises the tokens,
    trusting the key the manifest announces. *)
Definition discovery_tokens (fuel : nat) (hashes : list bytes) (ticket : bytes) (g : rng) (s : DiscoveryState)
    : option (DiscoveryState * list bytes) :=
  match contact_discovery_prepare_blind_request fuel hashes g with
  | Some (_, Ok blind) =>
      match evaluate_blinded_elements fuel (mkEvaluateRequest ticket (br_blinded_elements_base64 blind)) s with
      | (s', Ok (Some response)) =>
          match contact_discovery_verify_and_finalize_tokens (br_blinded_elements_base64 blind)
                  (br_blinding_scalars_base64 blind) (evaluate_record response)
                  (mp_oprf_public_key_ristretto255 (mr_payload (manifest s))) with
          | Ok tokens => Some (s', tokens)
          | Err _ => None
          end
      | _ => None
      end
  | _ => None
  end.

(** The token of a handle: the hash of its point times the service's key. *)
Definition handle_token (k : scalar) (h : bytes) : option bytes :=
  match derive_contact_discovery_handle_point h with
  | Ok p => Some (finalize_contact_discovery_token_hex (point_mul p k))
  | Err _ => None
  end.

Lemma str_trim_b64 (l : bytes) : str_trim (b64_encode l) = b64_encode l.
Proof. apply str_trim_all_plain, b64_plain. Qed.

Lemma normalize_blinded (field : bytes) (qs : list point) :
  (length qs ≤ 2048)%nat →
  normalize_blinded_elements field (map (λ q, b64_encode (compress q)) qs) = Ok (map compress qs).
Proof.
  intros Hl. unfold normalize_blinded_elements. rewrite length_map, (proj2 (N.ltb_ge _ _)) by (unfold MAX_DISCOVERY_HASHES_PER_REQUEST; lia).
  clear Hl. induction qs as [|q qs IH]; [done|]. cbn [map traverse_discovery]. unfold normalize_blinded_element at 1.
  rewrite str_trim_b64, b64_roundtrip. cbn [ok_or]. unfold len. rewrite compress_length. cbn [N.of_nat Pos.of_succ_nat Pos.succ N.eqb Pos.eqb negb].
  rewrite decompress_compress. by rewrite IH.
Qed.

(** [s'] is [s] after an operation whose ticket was admitted, with the registry
    [r]: only the registry and the random source differ. *)
Definition only_registry (r : DiscoveryRegistry) (s s' : DiscoveryState) : Prop :=
  ∃ g, s' = set_discovery_rng g (set_registry r s).

(** The service evaluates the blinded points it is sent. *)
Lemma evaluate_blinded_ok (fuel m : nat) (qs : list point) (ticket : bytes) (s : DiscoveryState)
    (claims : ContactDiscoveryTicketClaims) (r : DiscoveryRegistry) :
  let k := ds_oprf_secret_scalar s in
  (length qs ≤ 2048)%nat → draws_ok fuel (length qs + m) (ds_rng s) →
  admit_ticket ticket [lit "upload"; lit "match"] s = (set_registry r s, Ok claims) →
  ∃ s' response,
    evaluate_blinded_elements fuel (mkEvaluateRequest ticket (map (λ q, b64_encode (compress q)) qs)) s = (s', Ok (Some response)) ∧
    es_evaluation_proof_mode response = CONTACT_DISCOVERY_EVALUATION_PROOF_MODE ∧
    es_evaluated_elements_base64 response = map (λ q, b64_encode (compress (point_mul q k))) qs ∧
    Forall2 (honest_proof k) qs (es_dleq_proofs response) ∧ only_registry r s s' ∧ draws_ok fuel m (ds_rng s').
Proof.
  intros k Hl Hd Hadm. destruct (evaluate_elements_spec fuel m k qs (ds_rng s) Hd) as (g & proofs & Heval & Hproofs & Hm).
  unfold evaluate_blinded_elements, sm_bind, sm_lift, ask, sm_modify, sm_ret. cbn [er_ticket er_blinded_elements_base64].
  rewrite Hadm, normalize_blinded by done. cbn [ds_oprf_secret_scalar ds_rng set_registry]. fold k. rewrite Heval.
  eexists _, _. split; [reflexivity|]. split_and!; [done..|by eexists|done].
Qed.

Lemma discovery_tokens_ok (fuel m : nat) (hashes : list bytes) (ticket : bytes) (g : rng) (s : DiscoveryState)
    (claims : ContactDiscoveryTicketClaims) (r : DiscoveryRegistry) :
  Forall (λ h, is_Some (handle_token (ds_oprf_secret_scalar s) h)) hashes → (length hashes ≤ 2048)%nat →
  draws_ok fuel (length hashes) g → draws_ok fuel (length hashes + m) (ds_rng s) →
  ds_oprf_public_key_ristretto255_b64 s
    = b64_encode (compress (point_mul RISTRETTO_BASEPOINT_POINT (ds_oprf_secret_scalar s))) →
  admit_ticket ticket [lit "upload"; lit "match"] s = (set_registry r s, Ok claims) →
  ∃ s' tokens, discovery_tokens fuel hashes ticket g s = Some (s', tokens) ∧ only_registry r s s' ∧
    draws_ok fuel m (ds_rng s') ∧ Forall2 (λ h t, handle_token (ds_oprf_secret_scalar s) h = Some t) hashes tokens.
Proof.
  intros Hh Hn Hd1 Hd2 Hpk Hadm. set (k := ds_oprf_secret_scalar s) in *.
  assert (Hh' : Forall (λ h, ∃ p, derive_contact_discovery_handle_point h = Ok p) hashes).
  { eapply list.Forall_impl; [exact Hh|]. intros h [t Ht]. unfold handle_token in Ht.
    destruct (derive_contact_discovery_handle_point h) as [p|]; [by exists p|done]. }
  destruct (blind_handles_spec fuel hashes g Hh' Hd1) as (g1 & xs & Hblind & Hxs).
  pose proof (list.Forall2_length _ _ _ Hxs) as Hlen.
  set (qs := map (λ x, point_mul x.1 x.2) xs).
  assert (Hq : map blinded_b64 xs = map (λ q, b64_encode (compress q)) qs) by (unfold qs; by rewrite map_map).
  assert (Hql : length qs = length hashes) by (unfold qs; by rewrite length_map).
  destruct (evaluate_blinded_ok fuel m qs ticket s claims r) as (s' & response & Heval & Hmode & Hev & Hproofs & Hreg & Hm);
    [lia|by rewrite Hql|done|].
  unfold discovery_tokens, contact_discovery_prepare_blind_request.
  rewrite (proj2 (N.ltb_ge _ _)) by lia. rewrite Hblind. cbn [br_blinded_elements_base64 br_blinding_scalars_base64].
  rewrite Hq, Heval. unfold contact_discovery_verify_and_finalize_tokens, evaluate_record.
  cbn [ev_evaluation_proof_mode ev_evaluated_elements_base64 ev_dleq_proofs mr_payload manifest current_manifest
       mp_oprf_public_key_ristretto255].
  rewrite Hmode, Hev, bool_decide_eq_true_2 by done. cbn [negb fail_if].
  rewrite !length_map, <- (list.Forall2_length _ _ _ Hproofs), Hql, <- Hlen, Nat.eqb_refl. cbn [negb orb fail_if].
  rewrite Hpk, decode_point_ok, <- Hq. unfold qs.
  rewrite verify_and_finalize_loop_ok; [| |done].
  2: { clear -Hxs. induction Hxs as [|h x ? ? [_ Hx]]; by constructor. }
  eexists _, _. split; [reflexivity|]. split; [done|]. split; [done|].
  clear -Hxs. induction Hxs as [|h x hashes xs [Hp _] _ IH]; constructor; [|done]. unfold handle_token. by rewrite Hp.
Qed.
End Exchange.

(** ** Two users *)

Section TwoUsers.
Context `{P : Primitives} `{!PrimitiveLaws P} `{V : Ed25519} `{B : Base64} `{!Base64Laws B} `{R : Ristretto}
  `{!RistrettoLaws R} `{J : JsonText} `{T : Rfc3339} `{I : HashIter} `{!HashIterLaws I}.

(** The ticket of [claims] was used [j] times. *)
Definition used_times (r : DiscoveryRegistry) (claims : ContactDiscoveryTicketClaims) (e : Z) (j : N) : Prop :=
  ticket_usage r !! cl_nonce claims = if j =? 0 then None else Some (mkUsage e j (cl_max_uses claims)).

(** A ticket the service of [s] accepts until [e]. *)
Record valid_ticket (s : DiscoveryState) (ticket : bytes) (claims : ContactDiscoveryTicketClaims) (e : Z) : Prop := {
  vt_verify : ∀ now, (now < e)%Z →
    verify_contact_discovery_ticket (ds_ticket_issuer_verifying_key s) ticket now = Ok claims;
  vt_contract : cl_manifest_contract_sha256 claims = current_manifest_contract_sha256 s;
  vt_expires : parse_from_rfc3339 (cl_expires_at claims) = Some e;
}.

(** [s'] is [s] but for its registry, its random source and its clock. *)
Definition same_service (s s' : DiscoveryState) : Prop :=
  ∃ r g t, s' = set_discovery_clock t (set_discovery_rng g (set_registry r s)).

Lemma same_service_ticket s s' ticket claims e : same_service s s' → valid_ticket s ticket claims e → valid_ticket s' ticket claims e.
Proof. intros (r & g & t & ->) [H1 H2 H3]. by split. Qed.

Lemma admit_use (s : DiscoveryState) ticket claims e purposes j :
  valid_ticket s ticket claims e → (ds_utc s < e)%Z → cl_purpose claims ∈ purposes →
  used_times (ds_registry s) claims e j → j < cl_max_uses claims →
  ∃ r, admit_ticket ticket purposes s = (set_registry r s, Ok claims) ∧ user_handles r = user_handles (ds_registry s) ∧
    used_times r claims e (j + 1) ∧
    ∀ c' e', cl_nonce c' ≠ cl_nonce claims → used_times (ds_registry s) c' e' 0 → used_times r c' e' 0.
Proof.
  intros [Hv Hc He] Hnow Hp Hu Hj.
  unfold admit_ticket, sm_bind, ask, sm_lift, registry_op, sm_ret. rewrite Hv by done.
  unfold ensure_ticket_manifest_contract_matches, ensure_ticket_purpose_allowed.
  rewrite bool_decide_eq_true_2 by done. simpl. rewrite bool_decide_eq_true_2 by done.
  unfold consume_ticket_use. rewrite He. set (usage := filter _ _).
  assert (Hentry : default (mkUsage e 0 (cl_max_uses claims)) (usage !! cl_nonce claims) = mkUsage e j (cl_max_uses claims)).
  { unfold usage, used_times in *. destruct (N.eqb_spec j 0) as [->|Hj0].
    - rewrite (proj2 (map_lookup_filter_None _ _ _)); [done|]. by left.
    - rewrite (proj2 (map_lookup_filter_Some _ _ _ _) (conj Hu Hnow)). done. }
  rewrite Hentry. cbn [tu_expires_at tu_max_uses tu_used]. rewrite bool_decide_eq_true_2, N.eqb_refl by done.
  cbn [negb orb]. rewrite (proj2 (N.leb_gt _ _)) by done. eexists. split; [reflexivity|]. split; [done|].
  unfold used_times. cbn [ticket_usage]. split.
  - rewrite lookup_insert_eq, (proj2 (N.eqb_neq _ _)) by lia. done.
  - intros c' e' Hn H0. rewrite lookup_insert_ne by done. cbn [N.eqb] in *. unfold usage.
    apply map_lookup_filter_None. by left.
Qed.

(** The tokens of handles pass the service's normalisation. *)
Lemma token_normal (p : point) :
  normalize_sha256_hex_value (lit "phone_tokens_sha256") (finalize_contact_discovery_token_hex p)
    = Ok (finalize_contact_discovery_token_hex p) ∧
  normalize_sha256_hex_value (lit "tokens_sha256") (finalize_contact_discovery_token_hex p)
    = Ok (finalize_contact_discovery_token_hex p).
Proof.
  unfold normalize_sha256_hex_value, finalize_contact_discovery_token_hex.
  rewrite str_trim_hex, bytes_to_hex_lower, hex_is_digits. unfold len. by rewrite length_bytes_to_hex, sha256_length.
Qed.

Lemma normalize_tokens (field : bytes) (k : scalar) (hashes tokens : list bytes) :
  field = lit "phone_tokens_sha256" ∨ field = lit "tokens_sha256" → (length hashes ≤ 2048)%nat →
  Forall2 (λ h t, handle_token k h = Some t) hashes tokens →
  ∃ l, normalize_sha256_hex_values field tokens = Ok l ∧ ∀ t, t ∈ l ↔ t ∈ tokens.
Proof.
  intros Hf Hl H. pose proof (list.Forall2_length _ _ _ H) as Hlen. unfold normalize_sha256_hex_values.
  rewrite (proj2 (N.ltb_ge _ _)) by (unfold MAX_DISCOVERY_HASHES_PER_REQUEST; lia).
  assert (Ht : traverse_discovery (normalize_sha256_hex_value field) tokens = Ok tokens).
  { apply traverse_discovery_ok. clear Hl Hlen. induction H as [|h t hashes tokens Ht _ IH]; constructor; [|done].
    unfold handle_token in Ht. destruct (derive_contact_discovery_handle_point h) as [p|]; [|done]. injection Ht as <-.
    destruct (token_normal (point_mul p k)) as [H1 H2]. destruct Hf as [->| ->]; [exact H1|exact H2]. }
  rewrite Ht. eexists. split; [done|]. intros t. by rewrite elem_of_dedup, elem_of_sort_unstable.
Qed.

(** What the service must be configured with, and where its random source is. *)
Record service_ok (s : DiscoveryState) (fuel draws : nat) : Prop := {
  so_key : ds_oprf_public_key_ristretto255_b64 s
    = b64_encode (compress (point_mul RISTRETTO_BASEPOINT_POINT (ds_oprf_secret_scalar s)));
  so_draws : draws_ok fuel draws (ds_rng s);
}.

(** What a client asks: handles, and a random source. *)
Record client_ok (k : scalar) (fuel : nat) (hashes : list bytes) (g : rng) : Prop := {
  co_hashes : Forall (λ h, is_Some (handle_token k h)) hashes;
  co_length : (length hashes ≤ 2048)%nat;
  co_draws : draws_ok fuel (length hashes) g;
}.

(** One exchange at the instant [t], by the holder of a ticket that was used
    [j] times. *)
Lemma exchange (fuel m : nat) hashes ticket g s t claims e j :
  client_ok (ds_oprf_secret_scalar s) fuel hashes g → service_ok s fuel (length hashes + m) →
  valid_ticket s ticket claims e → (t < e)%Z → cl_purpose claims ∈ [lit "upload"; lit "match"] →
  used_times (ds_registry s) claims e j → j < cl_max_uses claims →
  ∃ s' tokens, discovery_tokens fuel hashes ticket g (set_discovery_clock t s) = Some (s', tokens) ∧
    same_service s s' ∧ service_ok s' fuel m ∧ user_handles (ds_registry s') = user_handles (ds_registry s) ∧
    used_times (ds_registry s') claims e (j + 1) ∧
    (∀ c' e', cl_nonce c' ≠ cl_nonce claims → used_times (ds_registry s) c' e' 0 → used_times (ds_registry s') c' e' 0) ∧
    Forall2 (λ h t, handle_token (ds_oprf_secret_scalar s) h = Some t) hashes tokens.
Proof.
  intros [Hh Hl Hd] [Hk Hd2] Hv Ht Hp Hu Hj.
  destruct (admit_use (set_discovery_clock t s) ticket claims e [lit "upload"; lit "match"] j) as (r & Ha & Hr & Hu' & Ho);
    try done.
  { by apply (same_service_ticket s); [exists (ds_registry s), (ds_rng s), t; by destruct s|]. }
  destruct (discovery_tokens_ok fuel m hashes ticket g (set_discovery_clock t s) claims r) as (s' & tokens & Hrun & [g' ->] & Hm & Htok);
    try done.
  eexists _, tokens. split; [exact Hrun|]. split; [by exists r, g', t|]. done.
Qed.

Lemma at_clock s t : same_service s (set_discovery_clock t s).
Proof. exists (ds_registry s), (ds_rng s), t. by destruct s. Qed.

Lemma upload_ok k hashes tokens ticket s t claims e j :
  Forall2 (λ h t, handle_token k h = Some t) hashes tokens → (length hashes ≤ 2048)%nat →
  valid_ticket s ticket claims e → (t < e)%Z → cl_purpose claims = lit "upload" →
  used_times (ds_registry s) claims e j → j < cl_max_uses claims →
  ∃ s' resp phones, upload_handles (mkUploadRequest ticket tokens []) (set_discovery_clock t s) = (s', Ok resp) ∧
    same_service s s' ∧ ds_rng s' = ds_rng s ∧
    user_handles (ds_registry s') !! cl_user_id claims = Some (mkHandles (cl_contact_invite_token claims)
      (cl_contact_invite_expires_at claims) (map (λ token, mkHandle token (lit "phone")) phones)) ∧
    (∀ t, t ∈ phones ↔ t ∈ tokens) ∧
    (∀ c' e', cl_nonce c' ≠ cl_nonce claims → used_times (ds_registry s) c' e' 0 → used_times (ds_registry s') c' e' 0).
Proof.
  intros Ht Hl Hv Hlt Hp Hu Hj.
  destruct (admit_use (set_discovery_clock t s) ticket claims e [lit "upload"] j) as (r & Ha & Hr & Hu' & Ho); try done.
  { apply (same_service_ticket s); [apply at_clock|done]. }
  { rewrite Hp. left. }
  destruct (normalize_tokens (lit "phone_tokens_sha256") k hashes tokens) as (phones & Hn & Hph); [by left|done|done|].
  unfold upload_handles, sm_bind, sm_lift, ask, registry_op, sm_ret. cbn [hu_ticket hu_phone_tokens_sha256 hu_email_tokens_sha256].
  rewrite Ha, Hn. eexists _, _, phones. split; [reflexivity|]. split; [by eexists _, _, t|]. split; [done|].
  split; [|done]. cbn [ds_registry set_registry user_handles replace_tokens]. rewrite lookup_insert_eq. simpl.
  by rewrite app_nil_r.
Qed.

Lemma match_ok k hashes tokens ticket s t claims e j :
  Forall2 (λ h t, handle_token k h = Some t) hashes tokens → (length hashes ≤ 2048)%nat →
  valid_ticket s ticket claims e → (t < e)%Z → cl_purpose claims = lit "match" →
  used_times (ds_registry s) claims e j → j < cl_max_uses claims →
  ∃ s' resp, match_handles (mkMatchRequest ticket tokens) (set_discovery_clock t s) = (s', Ok resp) ∧
    ∀ item, live_match (ds_registry s) t (cl_user_id claims) tokens item → item ∈ ms_matches resp.
Proof.
  intros Ht Hl Hv Hlt Hp Hu Hj.
  destruct (admit_use (set_discovery_clock t s) ticket claims e [lit "match"] j) as (r & Ha & Hr & Hu' & Ho); try done.
  { apply (same_service_ticket s); [apply at_clock|done]. }
  { rewrite Hp. left. }
  destruct (normalize_tokens (lit "tokens_sha256") k hashes tokens) as (l & Hn & Hq); [by right|done|done|].
  unfold match_handles, sm_bind, sm_lift, ask, registry_op, sm_ret. cbn [mq_ticket mq_tokens_sha256].
  rewrite Ha, Hn. eexists _, _. split; [reflexivity|]. cbn [ms_matches]. intros item Hi.
  apply elem_of_match_tokens. cbn [ds_registry set_registry ds_utc set_discovery_clock]. apply live_match_purge.
  destruct Hi as (user & h & Hh & Hi). exists user, h. rewrite Hr. split; [exact Hh|]. by rewrite Hq.
Qed.

(** What the run of the two users needs of the service and of the clock. *)
Record discovery_scene (s : DiscoveryState) (fuel : nat) (ta tb : bytes) (ca cb : ContactDiscoveryTicketClaims)
    (ea eb : Z) (ha hb : list bytes) (ga gb : rng) : Prop := {
  sc_service : service_ok s fuel (length ha + length hb);
  sc_alice : client_ok (ds_oprf_secret_scalar s) fuel ha ga;
  sc_bob : client_ok (ds_oprf_secret_scalar s) fuel hb gb;
  sc_ticket_a : valid_ticket s ta ca ea;
  sc_ticket_b : valid_ticket s tb cb eb;
  sc_upload : cl_purpose ca = lit "upload" ∧ 2 ≤ cl_max_uses ca;
  sc_match : cl_purpose cb = lit "match" ∧ 2 ≤ cl_max_uses cb;
  sc_fresh : used_times (ds_registry s) ca ea 0 ∧ used_times (ds_registry s) cb eb 0 ∧ cl_nonce ca ≠ cl_nonce cb;
  sc_users : cl_user_id ca ≠ cl_user_id cb;
}.

Lemma two_users s fuel ta tb ca cb ea eb ia ha hb ga gb t1 t2 t3 t4 :
  discovery_scene s fuel ta tb ca cb ea eb ha hb ga gb →
  (t1 < ea)%Z → (t2 < ea)%Z → (t3 < eb)%Z → (t4 < eb)%Z →
  parse_from_rfc3339 (cl_contact_invite_expires_at ca) = Some ia → (t4 < ia)%Z →
  ∃ s1 tokens_a s2 up s3 tokens_b s4 found,
    discovery_tokens fuel ha ta ga (set_discovery_clock t1 s) = Some (s1, tokens_a) ∧
    upload_handles (mkUploadRequest ta tokens_a []) (set_discovery_clock t2 s1) = (s2, Ok up) ∧
    discovery_tokens fuel hb tb gb (set_discovery_clock t3 s2) = Some (s3, tokens_b) ∧
    match_handles (mkMatchRequest tb tokens_b) (set_discovery_clock t4 s3) = (s4, Ok found) ∧
    ∀ h, h ∈ ha → h ∈ hb → ∃ token, handle_token (ds_oprf_secret_scalar s) h = Some token ∧
      mkMatch token (cl_contact_invite_token ca) (lit "phone") ∈ ms_matches found.
Proof.
  intros [Hs Ha Hb Hta Htb [Hpa Hma] [Hpb Hmb] (Hua & Hub & Hnn) Huser] H1 H2 H3 H4 Hia Hlive.
  destruct (exchange fuel (length hb) ha ta ga s t1 ca ea 0) as (s1 & toa & R1 & Hss1 & Hs1 & Huh1 & Hua1 & Ho1 & Hka);
    try done; [rewrite Hpa; left|lia|].
  assert (Hk1 : ds_oprf_secret_scalar s1 = ds_oprf_secret_scalar s) by (by destruct Hss1 as (r & g & t & ->)).
  destruct (upload_ok _ ha toa ta s1 t2 ca ea 1 Hka (co_length _ _ _ _ Ha)) as (s2 & up & phones & R2 & Hss2 & Hrng & Huh2 & Hph & Ho2);
    try done; [by eapply same_service_ticket|lia|].
  assert (Hk2 : ds_oprf_secret_scalar s2 = ds_oprf_secret_scalar s) by (by destruct Hss2 as (r & g & t & ->)).
  assert (Hs2 : service_ok s2 fuel (length hb + 0)).
  { destruct Hs1 as [Hk Hd]. rewrite Nat.add_0_r. split; [|by rewrite Hrng]. by destruct Hss2 as (r & g & t & ->). }
  assert (Htb2 : valid_ticket s2 tb cb eb) by (by do 2 (eapply same_service_ticket; [done|])).
  destruct (exchange fuel 0 hb tb gb s2 t3 cb eb 0) as (s3 & tob & R3 & Hss3 & _ & Huh3 & Hub3 & _ & Hkb);
    try done; [by rewrite Hk2|rewrite Hpb; right; left|by apply Ho2, Ho1|lia|].
  rewrite Hk2 in Hkb.
  destruct (match_ok _ hb tob tb s3 t4 cb eb 1 Hkb (co_length _ _ _ _ Hb)) as (s4 & found & R4 & Hm); try done;
    [by eapply same_service_ticket|lia|].
  exists s1, toa, s2, up, s3, tob, s4, found. split_and!; try done.
  intros h Hha Hhb. apply list_elem_of_lookup in Hha as [i Hi]. apply list_elem_of_lookup in Hhb as [j Hj].
  destruct (list.Forall2_lookup_l _ _ _ _ _ Hka Hi) as (token & Hti & Htok). exists token. split; [done|].
  destruct (list.Forall2_lookup_l _ _ _ _ _ Hkb Hj) as (token' & Htj & Htok'). assert (token' = token) as -> by congruence.
  apply Hm. eexists _, _. rewrite Huh3. split; [exact Huh2|]. split; [done|]. unfold invite_live. cbn.
  rewrite Hia, (proj2 (Z.ltb_lt _ _)) by done. split_and!; try done.
  - apply list_elem_of_In, in_map_iff. exists token. split; [done|]. apply list_elem_of_In, Hph. by eapply list_elem_of_lookup_2.
  - by eapply list_elem_of_lookup_2.
Qed.
End TwoUsers.

(** ** With the server *)

Section EndToEnd.
Context `{P : Primitives} `{!PrimitiveLaws P} `{V : Ed25519} `{!Ed25519Laws V} `{B : Base64} `{!Base64Laws B} `{X : Hex}
  `{I : HashIter} `{!HashIterLaws I} `{U : !Uuid} `{!UuidLaws U} `{R : Ristretto} `{!RistrettoLaws R} `{J : JsonText}
  `{!JsonLaws J} `{T : Rfc3339} `{!Rfc3339Laws T}.

(** An invite in the table resolves to its user, unless the request is
    throttled. *)
Lemma resolve_live_invite (s : AppState) (token : bytes) (i : InviteRow) :
  contact_invites (st_db s) !! token = Some i → token_ok token → (st_utc s < iv_expires_at i)%Z →
  is_Some (users (st_db s) !! iv_user_id i) →
  (resolve_contact_invite token s).2 = Err (rate_limited (lit "rate limit exceeded")) ∨
  (resolve_contact_invite token s).2 = Ok (mkInviteRecord token (iv_user_id i) (iv_expires_at i)).
Proof.
  intros Hi [[Hl1 Hl2] Hc] Hlive [row Hrow]. unfold resolve_contact_invite, check_rate_limit, sm_bind.
  destruct (allow_in_memory _ _ _) as [l [|]]; [right|by left].
  assert (Hv : validate_contact_invite_token token = Ok token).
  { unfold validate_contact_invite_token. rewrite str_trim_all_plain by (eapply forallb_impl, Hc; by intros []).
    rewrite (proj2 (N.eqb_neq _ _)), (proj2 (N.ltb_ge _ _)) by lia. cbn [orb].
    change (λ b, is_ascii_alphanumeric b || is_char x2d b || is_char x5f b) with invite_char. by rewrite Hc. }
  unfold purge_expired_contact_invites, load_contact_invite_record, ensure_user_exists, query, gets, execute, sm_modify, lift,
    sm_lift, sm_bind, sm_ret. rewrite Hv.
  cbn [st_utc set_rate_limiter st_db set_db contact_invites set_contact_invites users].
  assert (Hf : filter (λ '(_, i), (st_utc s < iv_expires_at i)%Z) (contact_invites (st_db s)) !! token = Some i)
    by (by apply map_lookup_filter_Some).
  rewrite Hf. cbn [mbind option_bind].
  rewrite (proj2 (Z.ltb_lt _ _)) by done. cbn [ok_or]. by rewrite Hrow.
Qed.

(** The ticket of a payload, as the service sees it. *)
Lemma issued_valid (s : DiscoveryState) sv p issued_at invite_expires_at ticket :
  payload_wf p issued_at invite_expires_at → length (st_sender_certificate_signing_key sv) = 32%nat →
  ed_key_from_bytes (ed_public (st_sender_certificate_signing_key sv)) = Some (ds_ticket_issuer_verifying_key s) →
  ticket = b64_encode (json_to_vec (ticket_payload_json p)) ++ lit "."
    ++ b64_encode (ed_sign (st_sender_certificate_signing_key sv) (json_to_vec (ticket_payload_json p))) →
  tp_manifest_contract_sha256 p = current_manifest_contract_sha256 s →
  valid_ticket s ticket (claims_of p) (issued_at + 300 * NANOS)%Z.
Proof.
  intros Hwf Hsk Hkey -> Hc. split; [| done|].
  - intros now Hnow. rewrite (verify_issued _ _ _ _ _ _ _ Hwf (ed_public_pair _ Hsk) Hkey).
    by rewrite (proj2 (Z.leb_gt _ _)).
  - destruct (pw_expires _ _ _ Hwf) as [He Hy]. destruct (pw_issued _ _ _ Hwf) as [_ H0]. simpl. rewrite He.
    apply rfc3339_roundtrip. unfold NANOS in *. lia.
Qed.

(** The service, the clients and their random sources, when nobody has used the
    two tickets yet. *)
Record ready (s : DiscoveryState) (fuel : nat) (ra rb : ContactDiscoveryTicketResponse) (ha hb : list bytes)
    (ga gb : rng) : Prop := {
  rd_service : service_ok s fuel (length ha + length hb);
  rd_alice : client_ok (ds_oprf_secret_scalar s) fuel ha ga;
  rd_bob : client_ok (ds_oprf_secret_scalar s) fuel hb gb;
  rd_fresh : ticket_usage (ds_registry s) !! ts_ticket_nonce ra = None ∧
    ticket_usage (ds_registry s) !! ts_ticket_nonce rb = None ∧ ts_ticket_nonce ra ≠ ts_ticket_nonce rb;
}.

Lemma ready_scene s fuel ra rb ha hb ga gb sv sv1 sv2 sw p q i j alice bob pa pb cfg :
  ready s fuel ra rb ha hb ga gb → alice ≠ bob → length (st_sender_certificate_signing_key sv) = 32%nat →
  st_sender_certificate_signing_key sw = st_sender_certificate_signing_key sv →
  ed_key_from_bytes (ed_public (st_sender_certificate_signing_key sv)) = Some (ds_ticket_issuer_verifying_key s) →
  contact_discovery_expected_manifest_contract_sha256 cfg = Some (current_manifest_contract_sha256 s) →
  to_ascii_lowercase (str_trim pa) = lit "upload" → to_ascii_lowercase (str_trim pb) = lit "match" →
  ticket_issued cfg alice pa sv sv1 ra p i → ticket_issued cfg bob pb sw sv2 rb q j →
  discovery_scene s fuel (ts_ticket ra) (ts_ticket rb) (claims_of p) (claims_of q) (st_utc sv + 300 * NANOS)%Z
    (st_utc sw + 300 * NANOS)%Z ha hb ga gb.
Proof.
  intros [Hs Ha Hb (Hf1 & Hf2 & Hf3)] Hab Hsk Hsw Hkey Hc Hpa Hpb Hi Hj.
  destruct Hi as [Hwa Hta Hua Hpua Hna Hca _ _ _], Hj as [Hwb Htb Hub Hpub Hnb Hcb _ _ _].
  assert (Huses : ∀ p0 t0 i0, payload_wf p0 t0 i0 → 2 ≤ tp_max_uses p0).
  { intros p0 t0 i0 Hw. destruct (pw_purpose _ _ _ Hw) as (pu & _ & ->). by destruct pu. }
  split; try done.
  - eapply (issued_valid s sv); [exact Hwa|done|done|done|congruence].
  - eapply (issued_valid s sw); [exact Hwb|by rewrite Hsw|by rewrite Hsw|done|congruence].
  - split; [simpl; congruence|]. by eapply Huses.
  - split; [simpl; congruence|]. by eapply Huses.
  - unfold used_times. simpl. rewrite Hna, Hnb. done.
  - simpl. congruence.
Qed.

End EndToEnd.

(** ** A concrete run *)

(** A service that trusts the toy server. *)
Definition toy_service : @DiscoveryState Toy ToyEd ToyRistretto :=
  mkDiscoveryState Toy ToyEd ToyRistretto toy_issuer (toy_key 7) (toy_key 9) DEFAULT_ATTESTATION_MODE (Some (lit "verifier"))
    (Some (replicate 64 x62)) None (Some (lit "ZG9j")) (Some (replicate 64 x63)) empty_registry (e5 : @scalar ToyRistretto)
    (b64_encode (compress (point_mul RISTRETTO_BASEPOINT_POINT (e5 : @scalar ToyRistretto)))) (lit "host") (lit "enclave") 0 3.

Definition toy_run_config : ContactDiscoveryConfig := toy_config (current_manifest_contract_sha256 toy_service).

Definition toy_issue (user : bytes) (seed : N) (purpose nonce : bytes) (s : @AppState Toy)
    : @AppState Toy * app ContactDiscoveryTicketResponse :=
  create_contact_discovery_ticket (U := ToyUuid4) toy_run_config user
    (toy_ticket_headers user seed purpose nonce) purpose s.

Definition toy_server_start : @AppState Toy := toy_state (1000 * NANOS) 0 toy_db.

Definition toy_alice := toy_issue (lit "alice") 101 (lit "upload") (lit "n1") toy_server_start.
Definition toy_bob := toy_issue (lit "bob") 202 (lit "match") (lit "n2") (set_clock (1010 * NANOS) 0 toy_alice.1).

Definition toy_hashes_a : list bytes := [replicate 64 x31; replicate 64 x32].
Definition toy_hashes_b : list bytes := [replicate 64 x32; replicate 64 x33].

Definition issued_nonce (r : app ContactDiscoveryTicketResponse) : bytes :=
  match r with Ok r => ts_ticket_nonce r | Err _ => [] end.

Lemma toy_issued :
  is_ok toy_alice.2 && is_ok toy_bob.2 && negb (bool_decide (issued_nonce toy_alice.2 = issued_nonce toy_bob.2)) = true.
Proof. vm_compute. reflexivity. Qed.

Lemma toy_client (hashes : list bytes) (g : @rng Toy) :
  forallb (λ h, bool_decide (is_Some (handle_token (ds_oprf_secret_scalar toy_service) h))) hashes = true →
  (length hashes ≤ 2048)%nat → draws_ok 10 (length hashes) g →
  client_ok (ds_oprf_secret_scalar toy_service) 10 hashes g.
Proof.
  intros Hh Hl Hd. split; [|done|done]. apply list.Forall_forall. intros h Hh'. rewrite forallb_forall in Hh.
  by apply list_elem_of_In, Hh, bool_decide_eq_true in Hh'.
Qed.

Lemma toy_client_a : client_ok (ds_oprf_secret_scalar toy_service) 10 toy_hashes_a (5 : @rng Toy).
Proof. apply toy_client; [vm_compute; reflexivity|simpl; lia|vm_compute; exact Logic.I]. Qed.

Lemma toy_client_b : client_ok (ds_oprf_secret_scalar toy_service) 10 toy_hashes_b (50 : @rng Toy).
Proof. apply toy_client; [vm_compute; reflexivity|simpl; lia|vm_compute; exact Logic.I]. Qed.

Lemma toy_service_ok : service_ok toy_service 10 4.
Proof. split; [reflexivity|vm_compute; exact Logic.I]. Qed.

Lemma toy_contract_ok : contract_ok toy_run_config.
Proof. intros c [= <-]. split; vm_compute; reflexivity. Qed.

Lemma toy_tickets : ∃ sv1 ra sv2 rb, toy_alice = (sv1, Ok ra) ∧
  toy_issue (lit "bob") 202 (lit "match") (lit "n2") (set_clock (1010 * NANOS) 0 sv1) = (sv2, Ok rb) ∧
  ts_ticket_nonce ra ≠ ts_ticket_nonce rb.
Proof.
  pose proof toy_issued as H. apply andb_true_iff in H as [[Ha Hb]%andb_true_iff Hn].
  unfold toy_bob in *. destruct toy_alice as [sv1 [ra|]]; [|done]. cbn [fst snd] in *.
  destruct (toy_issue _ _ _ _ _) as [sv2 [rb|]] eqn:E; [|done]. exists sv1, ra, sv2, rb. split; [done|]. split; [done|].
  by apply negb_true_iff, bool_decide_eq_false in Hn.
Qed.

Lemma toy_ready (ra rb : ContactDiscoveryTicketResponse) :
  ts_ticket_nonce ra ≠ ts_ticket_nonce rb →
  ready toy_service 10 ra rb toy_hashes_a toy_hashes_b (5 : @rng Toy) (50 : @rng Toy).
Proof. intros Hn. split; [apply toy_service_ok|apply toy_client_a|apply toy_client_b|].
  change (ticket_usage _) with (∅ : gmap bytes TicketUsage). rewrite !lookup_empty. done.
Qed.


(** Four evaluations with one upload ticket: three are admitted. *)
Definition issued_ticket (r : app ContactDiscoveryTicketResponse) : bytes :=
  match r with Ok r => ts_ticket r | Err _ => [] end.

Definition toy_requests : list (Z * DiscoveryRequest) :=
  map (λ t, (t * NANOS, EvaluateRequest (mkEvaluateRequest (issued_ticket toy_alice.2) [])))%Z [1001; 1002; 1003; 1004]%Z.

Lemma toy_admitted : length (admitted 10 toy_requests toy_service) = 3%nat.
Proof. vm_compute. reflexivity. Qed.

Lemma ticket_uses_bounded_witness : ∃ c e,
  c ∈ admitted 10 toy_requests toy_service ∧ parse_from_rfc3339 (cl_expires_at c) = Some e ∧
  N.of_nat (length (filter (same_ticket (cl_nonce c) e) (admitted 10 toy_requests toy_service))) ≤ cl_max_uses c.
Proof.
  assert (Hc : ∃ c, c ∈ admitted 10 toy_requests toy_service).
  { pose proof toy_admitted as H. destruct (admitted 10 toy_requests toy_service) as [|c l]; [discriminate H|]. exists c. left. }
  destruct Hc as [c Hc]. exists c.
  destruct (ticket_uses_bounded 10 toy_requests toy_service c) as (e & He & Hl & _).
  - reflexivity.
  - change (ds_utc toy_service) with 0%Z. cbn [toy_requests map clock_forward]. unfold NANOS. lia.
  - exact Hc.
  - exists e. split; [exact Hc|]. split; [exact He|exact Hl].
Defined.

Definition toy_match_request : DiscoveryMatchRequest := mkMatchRequest (issued_ticket toy_bob.2) [replicate 64 x41].

Lemma toy_match_run : is_ok (match_handles toy_match_request (set_discovery_clock (1015 * NANOS) toy_service)).2 = true.
Proof. vm_compute. reflexivity. Qed.

Lemma match_handles_exact_witness : ∃ s' resp,
  match_handles toy_match_request (set_discovery_clock (1015 * NANOS) toy_service) = (s', Ok resp) ∧
  ∀ item, item ∈ ms_matches resp → live_match empty_registry (1015 * NANOS) (ms_user_id resp) [replicate 64 x61] item.
Proof.
  pose proof toy_match_run as H.
  destruct (match_handles toy_match_request (set_discovery_clock (1015 * NANOS) toy_service)) as [s' [resp|]] eqn:E; [|discriminate H].
  exists s', resp. destruct (match_handles_exact toy_match_request _ s' resp E) as (_ & Hm & _).
  split; [reflexivity|]. intros item Hi. exact (proj1 (Hm item) Hi).
Defined.
