(* ===== verification/DiscoveryManifest.v ===== *)
(** * The manifest of the discovery service and its Android client

    A manifest the service signs passes the client's verification for an hour,
    with the pins of the configuration the service was started with. The hash
    of the manifest's contract, on the other hand, is computed over different
    texts on the two sides. *)

From Stdlib Require Import Strings.Byte.
From S2P Require Import Prelude Bytes Errors Crypto Toy ServerError Validation RequestAuth Caches ServerState ToyServer ClientAuth Android Oprf ToyDiscovery Discovery AndroidKeys AndroidDiscovery.
Local Open Scope N_scope.

(** ** Maps as objects *)

Lemma btree_members_spec (l : list (bytes * bytes)) (acc : gmap bytes bytes) :
  btree_members (map (λ '(k, v), (k, JString v)) l) acc = Some (foldl (λ m '(k, v), <[k := v]> m) acc l).
Proof. revert acc. induction l as [|[k v] l IH]; intros acc; [done|]. cbn [map btree_members foldl]. apply IH. Qed.

Lemma foldl_insert_lookup (l : list (bytes * bytes)) (acc : gmap bytes bytes) (k : bytes) :
  NoDup l.*1 →
  foldl (λ m '(k, v), <[k := v]> m) acc l !! k
    = match (list_to_map l : gmap bytes bytes) !! k with Some v => Some v | None => acc !! k end.
Proof.
  revert acc. induction l as [|[k' v'] l IH]; intros acc; [intros _; cbn [foldl list_to_map foldr]; by rewrite lookup_empty|]. cbn [fmap list_fmap fst].
  intros [Hk Hl]%list.NoDup_cons. cbn [foldl]. rewrite (IH _ Hl). cbn [list_to_map foldr uncurry fst snd].
  destruct (decide (k' = k)) as [->|Hne].
  - rewrite lookup_insert_eq. rewrite (not_elem_of_list_to_map_1 l k) by done. by rewrite lookup_insert_eq.
  - by rewrite !lookup_insert_ne.
Qed.

Lemma btree_roundtrip (m : gmap bytes bytes) : json_btree (btree_json m) = Some m.
Proof.
  unfold json_btree, btree_json. cbn [members_of mbind option_bind]. rewrite btree_members_spec. f_equal.
  assert (Hp : btree_iter m ≡ₚ map_to_list m) by apply sort_unstable_perm.
  assert (Hn : NoDup (btree_iter m).*1) by (rewrite Hp; apply NoDup_fst_map_to_list).
  apply map_eq. intros k. rewrite foldl_insert_lookup by done.
  rewrite (list_to_map_proper (btree_iter m) (map_to_list m)) by done. rewrite list_to_map_to_list, lookup_empty.
  by destruct (m !! k).
Qed.

(** ** Reading back what was written *)

Definition manifest_json_members (r : ManifestResponse) : list (bytes * Json) :=
  manifest_members (mr_payload r)
    ++ [(lit "manifest_issuer_ed25519_pub", JString (mr_manifest_issuer_ed25519_pub r));
        (lit "manifest_signature_ed25519", JString (mr_manifest_signature_ed25519 r))].

Definition record_of (r : ManifestResponse) : ContactDiscoveryManifestRecord :=
  mkManifestRecord (mr_payload r) (mr_manifest_issuer_ed25519_pub r) (mr_manifest_signature_ed25519 r).

Lemma optional_string (name : string) l o :
  filter (λ '(k, _), k = lit name) l = [(lit name, json_option JString o)] → optional_member json_string name l = Some o.
Proof. unfold optional_member. intros ->. by destruct o. Qed.

Lemma optional_btree (name : string) l o :
  filter (λ '(k, _), k = lit name) l = [(lit name, json_option btree_json o)] → optional_member json_btree name l = Some o.
Proof. unfold optional_member. intros ->. destruct o as [m|]; [|done]. cbn [json_option]. rewrite btree_roundtrip. by unfold btree_json. Qed.

Lemma string_field (name : string) l s :
  filter (λ '(k, _), k = lit name) l = [(lit name, JString s)] → string_member name l = Some s.
Proof. unfold string_member, member. by intros ->. Qed.

Lemma u8_field (name : string) l n :
  filter (λ '(k, _), k = lit name) l = [(lit name, JNumber (Z.of_N n))] → n ≤ 255 → u8_member name l = Some n.
Proof.
  unfold u8_member, member. intros -> Hn. cbn [mbind option_bind json_u8].
  rewrite (proj2 (Z.leb_le _ _)), (proj2 (Z.leb_le _ _)) by lia. simpl. f_equal. lia.
Qed.

Lemma i64_field (name : string) l z : is_i64 z →
  filter (λ '(k, _), k = lit name) l = [(lit name, JNumber z)] → i64_member name l = Some z.
Proof.
  unfold i64_member, member, is_i64. intros Hn ->. cbn [mbind option_bind json_i64].
  by rewrite (proj2 (Z.leb_le _ _)), (proj2 (Z.leb_le _ _)) by lia.
Qed.

(** Reading the members of a document with known keys. *)
Ltac read_members :=
  repeat (first
    [ match goal with |- context [string_member ?n ?l] => erewrite (string_field n l) by reflexivity end
    | match goal with |- context [u8_member ?n ?l] => erewrite (u8_field n l) by (reflexivity || eassumption) end
    | match goal with |- context [i64_member ?n ?l] => erewrite (i64_field n l) by (reflexivity || done) end
    | match goal with |- context [optional_member json_string ?n ?l] => erewrite (optional_string n l) by reflexivity end
    | match goal with |- context [optional_member json_btree ?n ?l] => erewrite (optional_btree n l) by reflexivity end ];
    cbn [mbind option_bind]).

Lemma manifest_reads (r : ManifestResponse) :
  mp_protocol_version (mr_payload r) ≤ 255 → mp_host_enclave_protocol_version (mr_payload r) ≤ 255 →
  is_i64 (mp_ticket_max_ttl_seconds (mr_payload r)) →
  manifest_of_json (JObject (manifest_json_members r)) = Some (record_of r).
Proof.
  intros H1 H2 H3. unfold manifest_of_json. cbn [members_of mbind option_bind].
  read_members.
  by destruct r as [[]].
Qed.

Section Manifest.
Context `{P : Primitives} `{V : Ed25519} `{!Ed25519Laws V} `{B : Base64} `{!Base64Laws B} `{R : Ristretto} `{J : JsonText}
  `{!JsonLaws J} `{T : Rfc3339} `{!Rfc3339Laws T}.

(** ** What a service that started is configured with *)

Definition pcr_names : list bytes := [lit "pcr0"; lit "pcr1"; lit "pcr2"; lit "pcr3"; lit "pcr4"; lit "pcr8"].

Record configured (s : DiscoveryState) (v m d : bytes) : Prop := {
  cf_key : length (ds_manifest_signing_key s) = 32%nat;
  cf_verifier : ds_attestation_verifier s = Some v ∧ str_trim v = v;
  cf_measurement : ds_enclave_measurement_hex s = Some m ∧ str_trim m = m;
  cf_document : ds_attestation_document_sha256 s = Some d ∧ str_trim d = d;
  cf_oprf : ds_oprf_public_key_ristretto255_b64 s
    = b64_encode (compress (point_mul RISTRETTO_BASEPOINT_POINT (ds_oprf_secret_scalar s))) ∧
    ds_oprf_secret_scalar s ≠ scalar_zero;
  cf_registry : ds_registry s = empty_registry;
  cf_present : v ≠ [] ∧ m ≠ [];
  cf_octets : ∃ doc, ds_attestation_document_base64 s = Some (b64_encode doc) ∧ d = bytes_to_hex (sha256 doc);
  cf_pcrs : ∀ pcrs, ds_attestation_pcrs_sha384 s = Some pcrs → pcrs ≠ ∅ ∧ ∀ k v, pcrs !! k = Some v → k ∈ pcr_names;
}.

Lemma env_trimmed (env : bytes → option bytes) name v :
  parse_optional_env_nonempty env name = Some v → str_trim v = v ∧ v ≠ [].
Proof.
  unfold parse_optional_env_nonempty. destruct (env name) as [raw|]; [|done]. cbn [mbind option_bind].
  destruct (N.eqb_spec (len (str_trim raw)) 0) as [|Hl]; [done|]. intros [= <-]. split; [apply str_trim_idem|].
  intros He. by rewrite He in Hl.
Qed.

Lemma validate_hex_trimmed n kind name value v : n ≠ 0 → validate_hex n kind name value = Ok v → str_trim v = v ∧ v ≠ [].
Proof.
  unfold validate_hex. intros Hn. destruct (_ || _) eqn:E; [done|]. intros [= <-]. apply orb_false_iff in E as [El E].
  apply negb_false_iff in E, El. split.
  - apply str_trim_all_plain. rewrite forallb_forall in *. intros b Hb%E. revert Hb. by destruct b.
  - intros He. rewrite He in El. apply N.eqb_eq in El. by subst.
Qed.

Lemma normalize_pcrs_names name parsed acc pcrs :
  normalize_pcrs name parsed acc = Ok pcrs → (∀ k v, acc !! k = Some v → k ∈ pcr_names) →
  (parsed = [] → acc ≠ ∅) → pcrs ≠ ∅ ∧ ∀ k v, pcrs !! k = Some v → k ∈ pcr_names.
Proof.
  revert acc. induction parsed as [|[key value] parsed IH]; intros acc; [intros [= <-]; naive_solver|].
  cbn [normalize_pcrs]. intros H Hacc _. unfold normalize_attestation_pcr_key in H.
  case_bool_decide as Hk; [|done]. destruct (validate_sha384_hex name value) as [value'|]; [|done].
  destruct (bool_decide _); [done|]. apply (IH _ H).
  - intros k v [[<- _]|[_ Hl]]%lookup_insert_Some; [exact Hk|by eapply Hacc].
  - intros _. apply insert_non_empty.
Qed.

Lemma env_pcrs (env : bytes → option bytes) name pcrs :
  parse_optional_attestation_pcrs_sha384_env env name = Ok (Some pcrs) →
  pcrs ≠ ∅ ∧ ∀ k v, pcrs !! k = Some v → k ∈ pcr_names.
Proof.
  unfold parse_optional_attestation_pcrs_sha384_env. destruct (parse_optional_env_nonempty env name); [|done].
  destruct (ok_or _ _) as [parsed|]; [|done]. case_bool_decide as Hne; [done|].
  destruct (normalize_pcrs _ _ _) as [normalized|] eqn:En; [|done]. intros [= <-]. eapply normalize_pcrs_names; [exact En|done|].
  intros Hi. destruct Hne. apply map_to_list_empty_iff, Permutation_nil_r. rewrite <- Hi. symmetry. apply sort_unstable_perm.
Qed.

Lemma transposed_trimmed name o m :
  res_transpose (Discovery.validate_sha256_hex name <$> o) = Ok (Some m) → str_trim m = m ∧ m ≠ [].
Proof.
  destruct o as [raw|]; cbn [fmap option_fmap option_map res_transpose]; [|done].
  destruct (Discovery.validate_sha256_hex name raw) as [m'|] eqn:Ev; [|done]. intros [= ->]. by eapply (validate_hex_trimmed 64).
Qed.

Lemma parse_key_32_length env name what k : parse_key_32 env name what = Ok k → length k = 32%nat.
Proof.
  unfold parse_key_32. intros H. inv_ok H. subst. apply negb_false_iff, N.eqb_eq in E1. unfold len in E1. lia.
Qed.

Lemma started_configured env now g s : initial_discovery_state env now g = Ok s → ∃ v m d, configured s v m d.
Proof.
  unfold initial_discovery_state. intros H. set (ver := parse_optional_env_nonempty env (lit "PQMSG_CONTACT_DISCOVERY_ATTESTATION_VERIFIER")) in *.
  destruct (res_transpose _) as [mea|] eqn:Em; [|done]. destruct (parse_optional_attestation_pcrs_sha384_env _ _) as [pcrs|] eqn:Ep; [|done].
  destruct (parse_optional_base64 _ _) as [doc|]; [|done].
  destruct (bail_if _ _) as [[]|] eqn:Eb; [|done].
  destruct (parse_ticket_issuer_verifying_key env) as [issuer|]; [|done].
  destruct (parse_manifest_signing_key env) as [sk|] eqn:Ek; [|done].
  destruct (parse_oprf_secret_scalar env) as [[k pk]|] eqn:Eo; [|done].
  destruct (ok_or _ _) as [host|]; [|done]. destruct (ok_or _ _) as [enclave|]; [|done]. injection H as <-.
  unfold bail_if in Eb. destruct (_ || _) eqn:E; [done|]. apply orb_false_iff in E as [[E1 E2]%orb_false_iff E3].
  apply negb_false_iff, bool_decide_eq_true in E1 as [v Hv], E2 as [m Hm], E3 as [d Hd].
  rewrite Hm in Em. apply transposed_trimmed in Em as [Em1 Em2]. pose proof (env_trimmed _ _ _ Hv) as [Hv1 Hv2].
  exists v, m, d. split; simpl.
  - by eapply parse_key_32_length.
  - by split.
  - by split.
  - split; [done|]. destruct doc; [|done]. injection Hd as <-. apply str_trim_hex.
  - unfold parse_oprf_secret_scalar in Eo. destruct (parse_key_32 _ _ _); [|done]. case_bool_decide; [done|]. by injection Eo as <- <-.
  - done.
  - by split.
  - destruct doc as [doc|]; [|done]. exists doc. split; [done|]. by injection Hd as <-.
  - intros p ->. by eapply env_pcrs.
Qed.

(** The signature both documents end with. *)
Lemma issuer_signature_ok sk payload f1 f2 m1 m2 : length sk = 32%nat →
  verify_issuer_signature payload (b64_encode (ed_sign sk payload)) (b64_encode (ed_public sk)) f1 f2 m1 m2 = Ok true.
Proof.
  intros Hsk. destruct (ed_correct _ _ payload (ed_public_pair sk Hsk)) as (k & sg & Hk & Hsg & Hok).
  unfold verify_issuer_signature, decode_b64_32, decode_b64. rewrite !b64_roundtrip. cbn [ok_or].
  unfold len. rewrite ed_sign_length, (proj1 (ed_pair_length _ _ (ed_public_pair sk Hsk))). 
  change (N.of_nat 64 =? 64) with true. change (N.of_nat 32 =? 32) with true. cbn [negb fail_if]. rewrite Hk. cbn [ok_or]. by rewrite Hsg, Hok.
Qed.

Lemma pin_ok (v : bytes) (o : option bytes) : o = Some v → str_trim v = v → pin_differs v o = false.
Proof. unfold pin_differs. intros -> ->. by rewrite bool_decide_eq_true_2, andb_false_r. Qed.

Context (json_error : bytes → bytes).

(** The manifest of a service that started from its environment, with the
    default attestation mode, is accepted by the Android client that pins the
    service's keys, verifier, measurement, PCR set and document hash, at every
    instant before its expiry one hour after it was signed; afterwards it is
    refused as expired. *)
Theorem manifest_accepted (env : bytes → option bytes) (t0 t now : Z) (g : rng) (s : DiscoveryState) (pcrs_json : bytes) :
  initial_discovery_state env t0 g = Ok s →
  ds_attestation_mode s = DEFAULT_ATTESTATION_MODE →
  (0 ≤ t)%Z → (t + 3600 * NANOS < YEAR_10000)%Z →
  json_from_slice pcrs_json = Some (json_option btree_json (ds_attestation_pcrs_sha384 s)) →
  verify_contact_discovery_manifest json_error now
    (json_to_vec (JObject (manifest_json_members (manifest (set_discovery_clock t s)))))
    (ticket_issuer_public_key_b64 s) (manifest_issuer_public_key_b64 s)
    (default [] (ds_attestation_verifier s)) (default [] (ds_enclave_measurement_hex s)) pcrs_json
    (default [] (ds_attestation_document_sha256 s))
  = if (t + 3600 * NANOS <=? now)%Z then Err (operation_failed (lit "contact discovery manifest expired")) else Ok true.
Proof.
  intros Hs Hmode H0 Hy Hpcr. destruct (started_configured _ _ _ _ Hs) as (v & m & d & [Hk [Hv1 Hv2] [Hm1 Hm2] [Hd1 Hd2] _ _ _ _ _]).
  unfold verify_contact_discovery_manifest, from_str. rewrite json_roundtrip. cbn [mbind option_bind].
  rewrite manifest_reads by done. cbn [ok_or record_of mf_payload mf_manifest_issuer_ed25519_pub mf_manifest_signature_ed25519].
  set (st := set_discovery_clock t s).
  change (mp_ticket_issuer_ed25519_pub (mr_payload (manifest st))) with (ticket_issuer_public_key_b64 s).
  change (mr_manifest_issuer_ed25519_pub (manifest st)) with (manifest_issuer_public_key_b64 s).
  rewrite !(bool_decide_eq_true_2 (_ = _)) by done. cbn [negb fail_if].
  change (mp_signed_at (mr_payload (manifest st))) with (to_rfc3339 t).
  change (mp_expires_at (mr_payload (manifest st))) with (to_rfc3339 (t + 3600 * NANOS)%Z).
  rewrite !rfc3339_roundtrip by (unfold NANOS in *; lia). cbn [ok_or].
  rewrite (proj2 (Z.leb_gt (t + 3600 * NANOS) t)) by (unfold NANOS; lia). cbn [fail_if].
  destruct (t + 3600 * NANOS <=? now)%Z; [done|]. cbn [fail_if].
  change (mp_attestation_verifier (mr_payload (manifest st))) with (ds_attestation_verifier s).
  change (mp_enclave_measurement_hex (mr_payload (manifest st))) with (ds_enclave_measurement_hex s).
  change (mp_attestation_pcrs_sha384 (mr_payload (manifest st))) with (ds_attestation_pcrs_sha384 s).
  change (mp_attestation_document_sha256 (mr_payload (manifest st))) with (ds_attestation_document_sha256 s).
  change (mp_attestation_mode (mr_payload (manifest st))) with (ds_attestation_mode s).
  change (mp_attestation_document_format (mr_payload (manifest st)))
    with ((λ _ : bytes, CONTACT_DISCOVERY_ATTESTATION_DOCUMENT_FORMAT) <$> ds_attestation_document_sha256 s).
  change (mp_attestation_challenge_mode (mr_payload (manifest st)))
    with ((λ _ : bytes, CONTACT_DISCOVERY_ATTESTATION_CHALLENGE_MODE) <$> ds_attestation_document_sha256 s).
  rewrite Hv1, Hm1, Hd1. cbn [default]. rewrite !pin_ok by done. cbn [fail_if]. rewrite Hpcr. cbn [mbind option_bind].
  replace (match json_option btree_json (ds_attestation_pcrs_sha384 s) with JNull => Some None | _ => _ end)
    with (Some (ds_attestation_pcrs_sha384 s)).
  2: { destruct (ds_attestation_pcrs_sha384 s) as [pcrs|]; [|done]. cbn [json_option]. by rewrite btree_roundtrip. }
  cbn [ok_or]. rewrite bool_decide_eq_true_2 by done.
  cbn [negb orb is_none fmap option_fmap option_map fail_if]. by apply issuer_signature_ok.
Qed.

(** ** The contract hash *)

Lemma hex_string_format (l : bytes) : hex_string l = bytes_to_hex l.
Proof.
  unfold hex_string, bytes_to_hex. f_equal. apply map_ext. intros b. by destruct b.
Qed.

(** The first member of the client's text is another than that of the
    service's. *)
Lemma contract_texts_differ (p : ManifestPayload) :
  json_to_vec (json_macro (manifest_contract_members p)) ≠ json_to_vec (manifest_contract_payload p).
Proof.
  intros H. apply (f_equal json_from_slice) in H. rewrite !json_roundtrip in H. discriminate H.
Qed.

(** The client hashes the contract of a manifest over a text in which the
    members are sorted by name, the service over one in which they come in the
    order of the structure: for every manifest the two texts differ, so the
    hash the client computes is that of another text than the hash the service
    compares tickets with. *)
Theorem contract_hashes_differ (s : DiscoveryState) :
  ∃ text_client text_service, text_client ≠ text_service ∧
    contact_discovery_manifest_contract_sha256 json_error
      (json_to_vec (JObject (manifest_json_members (manifest s)))) = Ok (bytes_to_hex (sha256 text_client)) ∧
    current_manifest_contract_sha256 s = bytes_to_hex (sha256 text_service).
Proof.
  eexists (json_to_vec (json_macro (manifest_contract_members (current_manifest s)))),
    (json_to_vec (manifest_contract_payload (current_manifest s))).
  split; [apply contract_texts_differ|]. split; [|done].
  unfold contact_discovery_manifest_contract_sha256, from_str. rewrite json_roundtrip. cbn [mbind option_bind].
  rewrite manifest_reads by done. cbn [ok_or record_of mf_payload]. by rewrite hex_string_format.
Qed.
End Manifest.

(** ** A concrete service *)

Definition toy_env (name : bytes) : option bytes :=
  list_to_map (M := gmap bytes bytes)
    [(lit "PQMSG_CONTACT_DISCOVERY_ATTESTATION_VERIFIER", lit " verifier ");
     (lit "PQMSG_CONTACT_DISCOVERY_ENCLAVE_MEASUREMENT_HEX", replicate 64 x41);
     (lit "PQMSG_CONTACT_DISCOVERY_ATTESTATION_PCRS_SHA384_JSON",
       json_to_vec (JObject [(lit "PCR0", JString (replicate 96 x31))]));
     (lit "PQMSG_CONTACT_DISCOVERY_ATTESTATION_DOCUMENT_B64", b64_encode (lit "document"));
     (lit "PQMSG_CONTACT_DISCOVERY_TICKET_ISSUER_ED25519_PUB", b64_encode (ed_public (toy_key 7)));
     (lit "PQMSG_CONTACT_DISCOVERY_MANIFEST_ED25519_SECRET_B64", b64_encode (toy_key 9));
     (lit "PQMSG_CONTACT_DISCOVERY_OPRF_RISTRETTO255_SECRET_B64", b64_encode (replicate 32 x05));
     (lit "PQMSG_CONTACT_DISCOVERY_HOST_RELEASE_ID", lit "host-1");
     (lit "PQMSG_CONTACT_DISCOVERY_ENCLAVE_RELEASE_ID", lit "enclave-1")] !! name.

Definition toy_started : result bytes (@DiscoveryState Toy ToyEd ToyRistretto) :=
  initial_discovery_state toy_env 0 (3 : @rng Toy).

Lemma toy_starts : match toy_started with
  | Ok s => bool_decide (ds_attestation_mode s = DEFAULT_ATTESTATION_MODE) && bool_decide (is_Some (ds_attestation_pcrs_sha384 s))
  | Err _ => false end = true.
Proof. vm_compute. reflexivity. Qed.

Lemma manifest_accepted_witness : ∃ s : @DiscoveryState Toy ToyEd ToyRistretto, toy_started = Ok s ∧ is_Some (ds_attestation_pcrs_sha384 s) ∧
  verify_contact_discovery_manifest id (1010 * NANOS)%Z
    (json_to_vec (JObject (manifest_json_members (manifest (set_discovery_clock (1000 * NANOS) s)))))
    (ticket_issuer_public_key_b64 s) (manifest_issuer_public_key_b64 s)
    (default [] (ds_attestation_verifier s)) (default [] (ds_enclave_measurement_hex s))
    (json_to_vec (json_option btree_json (ds_attestation_pcrs_sha384 s)))
    (default [] (ds_attestation_document_sha256 s)) = Ok true.
Proof.
  pose proof toy_starts as H. destruct toy_started as [s|] eqn:Es; [|discriminate H].
  apply andb_true_iff in H as [Hm%bool_decide_eq_true Hp%bool_decide_eq_true]. exists s. split; [reflexivity|]. split; [exact Hp|].
  apply (@manifest_accepted Toy ToyEd ToyEdLaws ToyBase64 ToyBase64Laws ToyRistretto ToyJson ToyJsonLaws ToyRfc3339 ToyRfc3339Laws
    id toy_env 0%Z (1000 * NANOS)%Z (1010 * NANOS)%Z (3 : @rng Toy) s _ Es Hm).
  - unfold NANOS. lia.
  - reflexivity.
  - apply json_roundtrip.
Defined.

Lemma contract_hashes_differ_witness : ∃ s : @DiscoveryState Toy ToyEd ToyRistretto, toy_started = Ok s ∧
  ∃ text_client text_service, text_client ≠ text_service ∧
    contact_discovery_manifest_contract_sha256 id
      (json_to_vec (JObject (manifest_json_members (manifest s)))) = Ok (bytes_to_hex (sha256 text_client)) ∧
    current_manifest_contract_sha256 s = bytes_to_hex (sha256 text_service).
Proof.
  pose proof toy_starts as H. destruct toy_started as [s|] eqn:Es; [|discriminate H]. exists s. split; [reflexivity|].
  exact (@contract_hashes_differ Toy ToyEd ToyBase64 ToyRistretto ToyJson ToyJsonLaws ToyRfc3339 id s).
Defined.
