(* ===== verification/PrivateGroups.v ===== *)
(** * Private groups at the server ([pqmsg-server/src/handlers/private_groups.rs])

    The server keeps, for every group, the encrypted states by epoch, the
    hashes of the members' credentials, share-link invites and messages. It
    knows no user of a group: a request is authorised by a membership handle
    and the preimage of the fetch or publish key stored with it. *)

From Stdlib Require Import Strings.Byte.
From S2P Require Import Prelude Bytes Errors Tlv Crypto Alg ServerError Validation RequestAuth Caches Realtime ServerState Contacts.
Local Open Scope N_scope.

Definition PRIVATE_GROUP_CIPHERTEXT_NONCE_LEN : N := 12.
Definition PRIVATE_GROUP_AUTH_KEY_LEN : N := 32.
Definition PRIVATE_GROUP_MAX_CIPHERTEXT_BYTES : N := 512 * 1024.
Definition PRIVATE_GROUP_MAX_AAD_BYTES : N := 4096.
Definition PRIVATE_GROUP_HYBRID_SIGNATURE_MAX_BYTES : N := 4096.
Definition PRIVATE_GROUP_INVITE_DEFAULT_TTL_SECS : Z := 7 * 24 * 60 * 60.
Definition PRIVATE_GROUP_INVITE_MAX_TTL_SECS : Z := 30 * 24 * 60 * 60.

(** ** Requests and responses ([types.rs]) *)

Record PrivateGroupMemberCredentialRecord := mkMemberRecord {
  mc_membership_handle_sha256 : bytes;
  mc_member_commitment_sha256 : bytes;
  mc_fetch_key_sha256 : bytes;
  mc_publish_key_sha256 : option bytes;
}.

Record PublishPrivateGroupStateRequest := mkPublishState {
  ps_group_id : bytes;
  ps_epoch : N;
  ps_state_commitment_sha256 : bytes;
  ps_ciphertext_nonce_base64 : bytes;
  ps_ciphertext_base64 : bytes;
  ps_ciphertext_aad_base64 : bytes;
  ps_authorizing_membership_handle_sha256 : bytes;
  ps_authorizing_publish_key_base64 : bytes;
  ps_members : list PrivateGroupMemberCredentialRecord;
}.

Record PublishPrivateGroupStateResponse := mkPublishedState {
  pr_group_id : bytes;
  pr_epoch : N;
  pr_stored_member_count : N;
  pr_published_at : Z;
}.

Record FetchPrivateGroupStateRequest := mkFetchState {
  fs_membership_handle_sha256 : bytes;
  fs_fetch_key_base64 : bytes;
}.

Record FetchPrivateGroupStateResponse := mkFetchedState {
  fr_group_id : bytes;
  fr_epoch : N;
  fr_state_commitment_sha256 : bytes;
  fr_ciphertext_nonce_base64 : bytes;
  fr_ciphertext_base64 : bytes;
  fr_ciphertext_aad_base64 : bytes;
  fr_published_at : Z;
}.

Record CreatePrivateGroupInviteRequest := mkCreateInvite {
  cp_group_id : bytes;
  cp_epoch : N;
  cp_invite_commitment_sha256 : bytes;
  cp_invite_ciphertext_nonce_base64 : bytes;
  cp_invite_ciphertext_base64 : bytes;
  cp_invite_ciphertext_aad_base64 : bytes;
  cp_authorizing_membership_handle_sha256 : bytes;
  cp_authorizing_publish_key_base64 : bytes;
  cp_expires_in_seconds : option N;
}.

Record CreatePrivateGroupInviteResponse := mkCreatedInvite {
  cr_invite_token : bytes;
  cr_group_id : bytes;
  cr_epoch : N;
  cr_expires_at : Z;
  cr_created_at : Z;
}.

Record ResolvePrivateGroupInviteResponse := mkResolvedInvite {
  ri_invite_token : bytes;
  ri_group_id : bytes;
  ri_epoch : N;
  ri_invite_commitment_sha256 : bytes;
  ri_invite_ciphertext_nonce_base64 : bytes;
  ri_invite_ciphertext_base64 : bytes;
  ri_invite_ciphertext_aad_base64 : bytes;
  ri_created_at : Z;
  ri_expires_at : Z;
}.

Record ConsumePrivateGroupInviteResponse := mkConsumedInvite {
  co_invite_token : bytes;
  co_consumed : bool;
  co_revoked_at : Z;
}.

Record PublishPrivateGroupMessageRequest := mkPublishMessage {
  pm_group_id : bytes;
  pm_epoch : N;
  pm_sent_at_unix_ms : N;
  pm_ciphertext_nonce_base64 : bytes;
  pm_ciphertext_base64 : bytes;
  pm_ciphertext_aad_base64 : bytes;
  pm_sender_hybrid_signature_base64 : bytes;
  pm_authorizing_membership_handle_sha256 : bytes;
  pm_authorizing_fetch_key_base64 : bytes;
}.

Record PublishPrivateGroupMessageResponse := mkPublishedMessage {
  po_message_id : Z;
  po_group_id : bytes;
  po_epoch : N;
  po_received_at : Z;
}.

Record FetchPrivateGroupMessagesRequest := mkFetchMessages {
  fm_membership_handle_sha256 : bytes;
  fm_fetch_key_base64 : bytes;
  fm_since_message_id : option Z;
}.

Record PrivateGroupMessageItem := mkGroupItem {
  pi_message_id : Z;
  pi_group_id : bytes;
  pi_epoch : N;
  pi_sent_at_unix_ms : N;
  pi_ciphertext_nonce_base64 : bytes;
  pi_ciphertext_base64 : bytes;
  pi_ciphertext_aad_base64 : bytes;
  pi_sender_hybrid_signature_base64 : bytes;
  pi_received_at : Z;
}.

Record FetchPrivateGroupMessagesResponse := mkFetchedMessages {
  fg_group_id : bytes;
  fg_epoch : N;
  fg_messages : list PrivateGroupMessageItem;
  fg_fetched_at : Z;
}.

(** ** Checks of the inputs *)

(** The loop over the members. *)
Fixpoint normalize_members_loop (raw : list PrivateGroupMemberCredentialRecord) (seen_handles : gset bytes)
    : app (list PrivateGroupMemberCredentialRecord) :=
  match raw with
  | [] => Ok []
  | member :: raw =>
      let? handle := validate_sha256_hex (lit "members[].membership_handle_sha256") (mc_membership_handle_sha256 member) in
      let? commitment := validate_sha256_hex (lit "members[].member_commitment_sha256") (mc_member_commitment_sha256 member) in
      let? fetch_key := validate_sha256_hex (lit "members[].fetch_key_sha256") (mc_fetch_key_sha256 member) in
      let? publish_key := res_transpose (validate_sha256_hex (lit "members[].publish_key_sha256") <$> mc_publish_key_sha256 member) in
      if bool_decide (handle ∈ seen_handles)
      then Err (bad_request (lit "private group membership handles must be unique"))
      else
        let? members := normalize_members_loop raw ({[handle]} ∪ seen_handles) in
        Ok (mkMemberRecord handle commitment fetch_key publish_key :: members)
  end.

Definition normalize_private_group_members (raw_members : list PrivateGroupMemberCredentialRecord)
    : app (list PrivateGroupMemberCredentialRecord) :=
  if N.of_nat (length raw_members) =? 0 then Err (bad_request (lit "private group members cannot be empty"))
  else if MAX_GROUP_MEMBERS <? N.of_nat (length raw_members)
  then Err (bad_request (lit "private group members cannot exceed " ++ decimal MAX_GROUP_MEMBERS))
  else normalize_members_loop raw_members ∅.

(** [i64::try_from] of a [u64]. *)
Definition i64_try_from (n : N) (e : AppError) : app Z :=
  if 2 ^ 63 <=? n then Err e else Ok (Z.of_N n).

Definition validate_private_group_epoch (epoch : N) : app Z :=
  if epoch =? 0 then Err (bad_request (lit "private group epoch must be >= 1"))
  else i64_try_from epoch (bad_request (lit "private group epoch is too large")).

Definition validate_private_group_invite_ttl (expires_in_seconds : N) : app Z :=
  if negb ((60 <=? Z.of_N expires_in_seconds) && (Z.of_N expires_in_seconds <=? PRIVATE_GROUP_INVITE_MAX_TTL_SECS))%Z
  then Err (bad_request (lit "private group invite expiry must be between 60 and "
                           ++ decimal (Z.to_N PRIVATE_GROUP_INVITE_MAX_TTL_SECS) ++ lit " seconds"))
  else Ok (Z.of_N expires_in_seconds).

Definition validate_private_group_invite_token (invite_token : bytes) : app bytes :=
  let trimmed := str_trim invite_token in
  if (len trimmed =? 0) || (128 <? len trimmed)
  then Err (bad_request (lit "private group invite token must be 1..=128 characters"))
  else if negb (forallb (λ b, is_ascii_alphanumeric b || is_char x2d b || is_char x5f b) trimmed)
  then Err (bad_request (lit "private group invite token contains invalid characters"))
  else Ok trimmed.

(** ** Tables *)

(** [SELECT MAX(epoch) ... WHERE group_id = $1]. *)
Definition latest_epoch (group_id : bytes) (t : PrivateGroupTables) : option Z :=
  foldr (λ '((g, e), _) acc,
           if bool_decide (g = group_id) then Some (match acc with Some m => Z.max e m | None => e end) else acc)
    None (map_to_list (private_group_states t)).

(** Replacing one of the tables. *)
Definition on_states (f : gmap (bytes * Z) GroupStateRow → gmap (bytes * Z) GroupStateRow) (t : PrivateGroupTables)
    : PrivateGroupTables :=
  mkPrivateGroups (f (private_group_states t)) (private_group_member_credentials t) (private_group_invites t)
    (private_group_messages t).
Definition on_credentials (f : gmap bytes GroupCredentialRow → gmap bytes GroupCredentialRow) (t : PrivateGroupTables)
    : PrivateGroupTables :=
  mkPrivateGroups (private_group_states t) (f (private_group_member_credentials t)) (private_group_invites t)
    (private_group_messages t).
Definition on_invites (f : gmap bytes GroupInviteRow → gmap bytes GroupInviteRow) (t : PrivateGroupTables)
    : PrivateGroupTables :=
  mkPrivateGroups (private_group_states t) (private_group_member_credentials t) (f (private_group_invites t))
    (private_group_messages t).

Definition revoke_credential (now : Z) (c : GroupCredentialRow) : GroupCredentialRow :=
  mkGroupCredential (gc_group_id c) (gc_epoch c) (gc_member_commitment_sha256 c) (gc_fetch_key_sha256 c)
    (gc_publish_key_sha256 c) (gc_created_at c) (Some now).

Definition revoke_invite (now : Z) (i : GroupInviteRow) : GroupInviteRow :=
  mkGroupInvite (gi_group_id i) (gi_epoch i) (gi_invite_commitment_sha256 i) (gi_invite_ciphertext_nonce_base64 i)
    (gi_invite_ciphertext_base64 i) (gi_invite_ciphertext_aad_base64 i) (gi_created_by_membership_handle_sha256 i)
    (gi_created_at i) (gi_expires_at i) (Some now).

(** [UPDATE private_group_member_credentials SET revoked_at = $1 WHERE group_id
    = $2 AND epoch = $3 AND revoked_at IS NULL]. *)
Definition revoke_epoch (group_id : bytes) (epoch now : Z) (c : GroupCredentialRow) : GroupCredentialRow :=
  if bool_decide (gc_group_id c = group_id ∧ gc_epoch c = epoch ∧ gc_revoked_at c = None) then revoke_credential now c else c.

(** [UPDATE private_group_invites SET revoked_at = $1 WHERE group_id = $2 AND
    epoch < $3 AND revoked_at IS NULL]. *)
Definition revoke_older_invites (group_id : bytes) (epoch now : Z) (i : GroupInviteRow) : GroupInviteRow :=
  if bool_decide (gi_group_id i = group_id ∧ (gi_epoch i < epoch)%Z ∧ gi_revoked_at i = None) then revoke_invite now i else i.

Section PrivateGroups.
Context `{P : Primitives} `{V : Ed25519} `{B : Base64} `{X : Hex} `{I : HashIter} `{U : !Uuid}.
Local Open Scope sm_scope.

Definition execute_groups (f : PrivateGroupTables → PrivateGroupTables) : Handler unit :=
  execute (λ d, set_private_groups (f (private_groups d)) d).

Definition query_groups {A} (f : PrivateGroupTables → A) : Handler A := query (λ d, f (private_groups d)).

Definition purge_expired_private_group_invites : Handler unit :=
  now <- gets st_utc;;
  execute_groups (on_invites (filter (λ '(_, i), ¬ ((gi_expires_at i ≤ now)%Z ∨ gi_revoked_at i ≠ None)))).

Definition load_private_group_invite_record (invite_token : bytes) : Handler GroupInviteRow :=
  now <- gets st_utc;;
  row <- query_groups (λ t, i ← private_group_invites t !! invite_token;
    if bool_decide ((now < gi_expires_at i)%Z ∧ gi_revoked_at i = None) then Some i else None);;
  lift (ok_or row (not_found (lit "private group invite not found or expired"))).

Definition load_latest_private_group_epoch (group_id : bytes) : Handler Z :=
  latest <- query_groups (latest_epoch group_id);;
  lift (ok_or latest (not_found (lit "private group state not found"))).

(** The credential of a handle that is active for the group and the epoch. *)
Definition active_credential (membership_handle group_id : bytes) (epoch : Z) (t : PrivateGroupTables)
    : option GroupCredentialRow :=
  c ← private_group_member_credentials t !! membership_handle;
  if bool_decide (gc_group_id c = group_id ∧ gc_epoch c = epoch ∧ gc_revoked_at c = None) then Some c else None.

Definition authorize_current_private_group_publish_capability (group_id : bytes) (epoch : Z)
    (membership_handle_sha256 publish_key_sha256 : bytes) : Handler unit :=
  latest <- load_latest_private_group_epoch group_id;;
  reject_if (negb (bool_decide (epoch = latest)))
    (conflict (lit "private group invite epoch is stale; refresh state first"));;;
  row <- query_groups (active_credential membership_handle_sha256 group_id latest);;
  row <- lift (ok_or row
    (forbidden (lit "authorizing private group membership handle is not active for the latest epoch")));;
  reject_if (negb (bool_decide (gc_publish_key_sha256 row = Some publish_key_sha256)))
    (forbidden (lit "authorizing private group publish key is invalid")).

Definition authorize_private_group_fetch_capability_for_group (group_id : bytes) (epoch : Z)
    (membership_handle_sha256 fetch_key_sha256 : bytes) : Handler unit :=
  latest <- load_latest_private_group_epoch group_id;;
  reject_if (negb (bool_decide (epoch = latest))) (conflict (lit "private group epoch is stale; refresh state first"));;;
  row <- query_groups (active_credential membership_handle_sha256 group_id latest);;
  row <- lift (ok_or row
    (forbidden (lit "authorizing private group membership handle is not active for the latest epoch")));;
  reject_if (negb (bool_decide (gc_fetch_key_sha256 row = fetch_key_sha256)))
    (forbidden (lit "private group fetch credential is invalid")).

Definition resolve_private_group_fetch_credential (membership_handle_sha256 fetch_key_sha256 : bytes)
    : Handler (bytes * Z) :=
  row <- query_groups (λ t, c ← private_group_member_credentials t !! membership_handle_sha256;
    if bool_decide (gc_revoked_at c = None) then Some c else None);;
  row <- lift (ok_or row (not_found (lit "private group state not found")));;
  reject_if (negb (bool_decide (gc_fetch_key_sha256 row = fetch_key_sha256)))
    (forbidden (lit "private group fetch credential is invalid"));;;
  sm_ret (gc_group_id row, gc_epoch row).

(** ** Publishing a state *)

(** Who may publish: the founding member at epoch one, afterwards a member of
    the latest epoch with a publish key. *)
Definition authorize_publish (group_id : bytes) (epoch : Z) (latest : option Z) (handle publish_key_sha256 : bytes)
    (members : list PrivateGroupMemberCredentialRecord) : Handler unit :=
  match latest with
  | None =>
      reject_if (negb (bool_decide (epoch = 1%Z)))
        (bad_request (lit "private group bootstrap publish must start at epoch 1"));;;
      bootstrap_record <- lift (ok_or (list_find (λ m, mc_membership_handle_sha256 m = handle) members)
        (forbidden (lit "bootstrap private group publish requires the authorizing membership handle in the member set")));;
      reject_if (negb (bool_decide (mc_publish_key_sha256 bootstrap_record.2 = Some publish_key_sha256)))
        (forbidden (lit "bootstrap private group publish key does not match the authorizing member credential"))
  | Some latest_epoch =>
      reject_if (negb (bool_decide (epoch = i64_wrap (latest_epoch + 1))))
        (bad_request (lit "private group epoch must advance exactly by one"));;;
      row <- query_groups (active_credential handle group_id latest_epoch);;
      row <- lift (ok_or row
        (forbidden (lit "authorizing private group membership handle is not active for the latest epoch")));;
      reject_if (negb (bool_decide (gc_publish_key_sha256 row = Some publish_key_sha256)))
        (forbidden (lit "authorizing private group publish key is invalid"))
  end.

Fixpoint insert_credentials (group_id : bytes) (epoch now : Z) (members : list PrivateGroupMemberCredentialRecord)
    : Handler unit :=
  match members with
  | [] => sm_ret tt
  | m :: members =>
      taken <- query_groups (λ t, private_group_member_credentials t !! mc_membership_handle_sha256 m);;
      reject_if (bool_decide (is_Some taken)) (conflict (lit "private group membership handle already exists"));;;
      execute_groups (on_credentials (insert (mc_membership_handle_sha256 m)
        (mkGroupCredential group_id epoch (mc_member_commitment_sha256 m) (mc_fetch_key_sha256 m)
           (mc_publish_key_sha256 m) now None)));;;
      insert_credentials group_id epoch now members
  end.

(** The transaction. *)
Definition store_epoch (group_id : bytes) (epoch : Z) (latest : option Z) (row : GroupStateRow)
    (members : list PrivateGroupMemberCredentialRecord) (now : Z) : Handler unit :=
  transaction (
    match latest with
    | Some latest_epoch => execute_groups (on_credentials (fmap (revoke_epoch group_id latest_epoch now)))
    | None => sm_ret tt
    end;;;
    taken <- query_groups (λ t, private_group_states t !! (group_id, epoch));;
    reject_if (bool_decide (is_Some taken)) (conflict (lit "private group state for this epoch already exists"));;;
    execute_groups (on_states (insert (group_id, epoch) row));;;
    execute_groups (on_invites (fmap (revoke_older_invites group_id epoch now)));;;
    insert_credentials group_id epoch now members).

Definition publish_private_group_state (request : PublishPrivateGroupStateRequest)
    : Handler PublishPrivateGroupStateResponse :=
  let group_id := str_trim (ps_group_id request) in
  check_rate_limit (lit "private-groups-publish:" ++ group_id);;;
  lift (validate_id (lit "group_id") (ps_group_id request));;;
  epoch <- lift (validate_private_group_epoch (ps_epoch request));;
  state_commitment_sha256 <- lift (validate_sha256_hex (lit "state_commitment_sha256") (ps_state_commitment_sha256 request));;
  handle <- lift (validate_sha256_hex (lit "authorizing_membership_handle_sha256") (ps_authorizing_membership_handle_sha256 request));;
  lift (decode_base64_exact (lit "ciphertext_nonce_base64") (ps_ciphertext_nonce_base64 request) PRIVATE_GROUP_CIPHERTEXT_NONCE_LEN);;;
  lift (decode_base64_max (lit "ciphertext_base64") (ps_ciphertext_base64 request) PRIVATE_GROUP_MAX_CIPHERTEXT_BYTES);;;
  lift (decode_base64_max (lit "ciphertext_aad_base64") (ps_ciphertext_aad_base64 request) PRIVATE_GROUP_MAX_AAD_BYTES);;;
  publish_key <- lift (decode_base64_exact (lit "authorizing_publish_key_base64") (ps_authorizing_publish_key_base64 request)
    PRIVATE_GROUP_AUTH_KEY_LEN);;
  members <- lift (normalize_private_group_members (ps_members request));;
  now <- gets st_utc;;
  latest <- query_groups (latest_epoch group_id);;
  authorize_publish group_id epoch latest handle (hex_lower (sha256 publish_key)) members;;;
  store_epoch group_id epoch latest
    (mkGroupState state_commitment_sha256 (str_trim (ps_ciphertext_nonce_base64 request))
       (str_trim (ps_ciphertext_base64 request)) (str_trim (ps_ciphertext_aad_base64 request)) handle now) members now;;;
  sm_ret (mkPublishedState group_id (Z.to_N epoch) (N.of_nat (length members)) now).

(** ** Fetching a state *)

Definition fetch_private_group_state (request : FetchPrivateGroupStateRequest) : Handler FetchPrivateGroupStateResponse :=
  handle <- lift (validate_sha256_hex (lit "membership_handle_sha256") (fs_membership_handle_sha256 request));;
  check_rate_limit (lit "private-groups-fetch:" ++ handle);;;
  fetch_key <- lift (decode_base64_exact (lit "fetch_key_base64") (fs_fetch_key_base64 request) PRIVATE_GROUP_AUTH_KEY_LEN);;
  place <- resolve_private_group_fetch_credential handle (hex_lower (sha256 fetch_key));;
  row <- query_groups (λ t, private_group_states t !! place);;
  row <- lift (ok_or row (not_found (lit "private group state not found")));;
  sm_ret (mkFetchedState place.1 (Z.to_N place.2) (gs_state_commitment_sha256 row) (gs_ciphertext_nonce_base64 row)
    (gs_ciphertext_base64 row) (gs_ciphertext_aad_base64 row) (gs_published_at row)).

(** ** Invites *)

Definition create_private_group_invite (request : CreatePrivateGroupInviteRequest)
    : Handler CreatePrivateGroupInviteResponse :=
  let group_id := str_trim (cp_group_id request) in
  check_rate_limit (lit "private-groups-invite-create:" ++ group_id);;;
  lift (validate_id (lit "group_id") (cp_group_id request));;;
  epoch <- lift (validate_private_group_epoch (cp_epoch request));;
  invite_commitment_sha256 <- lift (validate_sha256_hex (lit "invite_commitment_sha256") (cp_invite_commitment_sha256 request));;
  handle <- lift (validate_sha256_hex (lit "authorizing_membership_handle_sha256") (cp_authorizing_membership_handle_sha256 request));;
  lift (decode_base64_exact (lit "invite_ciphertext_nonce_base64") (cp_invite_ciphertext_nonce_base64 request)
    PRIVATE_GROUP_CIPHERTEXT_NONCE_LEN);;;
  lift (decode_base64_max (lit "invite_ciphertext_base64") (cp_invite_ciphertext_base64 request)
    PRIVATE_GROUP_MAX_CIPHERTEXT_BYTES);;;
  lift (decode_base64_max (lit "invite_ciphertext_aad_base64") (cp_invite_ciphertext_aad_base64 request)
    PRIVATE_GROUP_MAX_AAD_BYTES);;;
  publish_key <- lift (decode_base64_exact (lit "authorizing_publish_key_base64") (cp_authorizing_publish_key_base64 request)
    PRIVATE_GROUP_AUTH_KEY_LEN);;
  expires_in_seconds <- lift (validate_private_group_invite_ttl
    (default (Z.to_N PRIVATE_GROUP_INVITE_DEFAULT_TTL_SECS) (cp_expires_in_seconds request)));;
  purge_expired_private_group_invites;;;
  authorize_current_private_group_publish_capability group_id epoch handle (hex_lower (sha256 publish_key));;;
  created_at <- gets st_utc;;
  let expires_at := (created_at + expires_in_seconds * NANOS)%Z in
  u <- new_uuid;;
  let invite_token := uuid_simple u in
  taken <- query_groups (λ t, private_group_invites t !! invite_token);;
  reject_if (bool_decide (is_Some taken)) (conflict (lit "private group invite token already exists"));;;
  execute_groups (on_invites (insert invite_token
    (mkGroupInvite group_id epoch invite_commitment_sha256 (str_trim (cp_invite_ciphertext_nonce_base64 request))
       (str_trim (cp_invite_ciphertext_base64 request)) (str_trim (cp_invite_ciphertext_aad_base64 request)) handle
       created_at expires_at None)));;;
  sm_ret (mkCreatedInvite invite_token group_id (Z.to_N epoch) expires_at created_at).

Definition resolve_private_group_invite (invite_token : bytes) : Handler ResolvePrivateGroupInviteResponse :=
  check_rate_limit (lit "private-groups-invite-resolve");;;
  purge_expired_private_group_invites;;;
  invite_token <- lift (validate_private_group_invite_token invite_token);;
  invite <- load_private_group_invite_record invite_token;;
  latest <- load_latest_private_group_epoch (gi_group_id invite);;
  reject_if (negb (bool_decide (gi_epoch invite = latest)))
    (conflict (lit "private group invite is stale; fetch a newer invite package"));;;
  sm_ret (mkResolvedInvite invite_token (gi_group_id invite) (Z.to_N (gi_epoch invite)) (gi_invite_commitment_sha256 invite)
    (gi_invite_ciphertext_nonce_base64 invite) (gi_invite_ciphertext_base64 invite) (gi_invite_ciphertext_aad_base64 invite)
    (gi_created_at invite) (gi_expires_at invite)).

Definition consume_private_group_invite (invite_token : bytes) : Handler ConsumePrivateGroupInviteResponse :=
  check_rate_limit (lit "private-groups-invite-consume");;;
  purge_expired_private_group_invites;;;
  invite_token <- lift (validate_private_group_invite_token invite_token);;
  load_private_group_invite_record invite_token;;;
  revoked_at <- gets st_utc;;
  execute_groups (on_invites (alter
    (λ i, if bool_decide (gi_revoked_at i = None) then revoke_invite revoked_at i else i) invite_token));;;
  sm_ret (mkConsumedInvite invite_token true revoked_at).

(** ** Messages *)

Definition publish_private_group_message (request : PublishPrivateGroupMessageRequest)
    : Handler PublishPrivateGroupMessageResponse :=
  let group_id := str_trim (pm_group_id request) in
  check_rate_limit (lit "private-groups-message-publish:" ++ group_id);;;
  lift (validate_id (lit "group_id") (pm_group_id request));;;
  epoch <- lift (validate_private_group_epoch (pm_epoch request));;
  handle <- lift (validate_sha256_hex (lit "authorizing_membership_handle_sha256") (pm_authorizing_membership_handle_sha256 request));;
  lift (decode_base64_exact (lit "ciphertext_nonce_base64") (pm_ciphertext_nonce_base64 request) PRIVATE_GROUP_CIPHERTEXT_NONCE_LEN);;;
  lift (decode_base64_max (lit "ciphertext_base64") (pm_ciphertext_base64 request) PRIVATE_GROUP_MAX_CIPHERTEXT_BYTES);;;
  lift (decode_base64_max (lit "ciphertext_aad_base64") (pm_ciphertext_aad_base64 request) PRIVATE_GROUP_MAX_AAD_BYTES);;;
  lift (decode_base64_range (lit "sender_hybrid_signature_base64") (pm_sender_hybrid_signature_base64 request) 65
    PRIVATE_GROUP_HYBRID_SIGNATURE_MAX_BYTES);;;
  fetch_key <- lift (decode_base64_exact (lit "authorizing_fetch_key_base64") (pm_authorizing_fetch_key_base64 request)
    PRIVATE_GROUP_AUTH_KEY_LEN);;
  authorize_private_group_fetch_capability_for_group group_id epoch handle (hex_lower (sha256 fetch_key));;;
  received_at <- gets st_utc;;
  sent_at <- lift (i64_try_from (pm_sent_at_unix_ms request) (bad_request (lit "sent_at_unix_ms is too large")));;
  message_id <- query_groups (λ t, next_id (private_group_messages t));;
  execute_groups (λ t, mkPrivateGroups (private_group_states t) (private_group_member_credentials t) (private_group_invites t)
    (insert_row (λ id, mkGroupMessage id group_id epoch sent_at (str_trim (pm_ciphertext_nonce_base64 request))
       (str_trim (pm_ciphertext_base64 request)) (str_trim (pm_ciphertext_aad_base64 request))
       (str_trim (pm_sender_hybrid_signature_base64 request)) received_at) (private_group_messages t)).1);;;
  sm_ret (mkPublishedMessage message_id group_id (Z.to_N epoch) received_at).

(** One row as an item of the response. *)
Definition message_item (group_id : bytes) (epoch : Z) (r : GroupMessageRow) : app PrivateGroupMessageItem :=
  if (gr_sent_at_unix_ms r <? 0)%Z then Err (bad_request (lit "stored private group message timestamp is invalid"))
  else Ok (mkGroupItem (gr_message_id r) group_id (Z.to_N epoch) (Z.to_N (gr_sent_at_unix_ms r))
             (gr_ciphertext_nonce_base64 r) (gr_ciphertext_base64 r) (gr_ciphertext_aad_base64 r)
             (gr_sender_hybrid_signature_base64 r) (gr_received_at r)).

Fixpoint message_items (group_id : bytes) (epoch : Z) (rows : list GroupMessageRow) : app (list PrivateGroupMessageItem) :=
  match rows with
  | [] => Ok []
  | r :: rows =>
      let? item := message_item group_id epoch r in
      let? items := message_items group_id epoch rows in
      Ok (item :: items)
  end.

(** The rows of the query; the table is in the order of the identifiers. *)
Definition group_message_rows (place : bytes * Z) (since : Z) (t : PrivateGroupTables) : list GroupMessageRow :=
  filter (λ r, gr_group_id r = place.1 ∧ gr_epoch r = place.2 ∧ (since < gr_message_id r)%Z) (rows (private_group_messages t)).

Definition fetch_private_group_messages (request : FetchPrivateGroupMessagesRequest)
    : Handler FetchPrivateGroupMessagesResponse :=
  handle <- lift (validate_sha256_hex (lit "membership_handle_sha256") (fm_membership_handle_sha256 request));;
  check_rate_limit (lit "private-groups-message-fetch:" ++ handle);;;
  fetch_key <- lift (decode_base64_exact (lit "fetch_key_base64") (fm_fetch_key_base64 request) PRIVATE_GROUP_AUTH_KEY_LEN);;
  let since_message_id := default 0%Z (fm_since_message_id request) in
  reject_if (since_message_id <? 0)%Z (bad_request (lit "since_message_id must be >= 0"));;;
  place <- resolve_private_group_fetch_credential handle (hex_lower (sha256 fetch_key));;
  rows <- query_groups (group_message_rows place since_message_id);;
  fetched_at <- gets st_utc;;
  messages <- lift (message_items place.1 place.2 rows);;
  sm_ret (mkFetchedMessages place.1 (Z.to_N place.2) messages fetched_at).
End PrivateGroups.
