(* ===== verification/PrivateGroupFacts.v ===== *)
(** * What the server guarantees for private groups

    Over every sequence of requests the published epochs of a group form an
    unbroken, append-only history, each published by a member of the one before
    with a publish key, and the credentials of the latest epoch are the only
    active ones. A member reads what was published; a credential of an earlier
    epoch opens nothing any more, and neither do the messages of that epoch. *)

From Stdlib Require Import Strings.Byte.
From stdpp Require Import sorting.
From S2P Require Import Prelude Bytes Errors Tlv Crypto Toy Alg ServerError Validation RequestAuth Caches Realtime ServerState ToyServer ServerFrame Contacts PrivateGroups.
Local Open Scope N_scope.

(** ** The latest epoch *)

Definition published_epoch (t : PrivateGroupTables) (g : bytes) (e : Z) : Prop := is_Some (private_group_states t !! (g, e)).

Lemma latest_foldr (g : bytes) (l : list (bytes * Z * GroupStateRow)) :
  match foldr (λ '((g', e), _) acc,
           if bool_decide (g' = g) then Some (match acc with Some m => Z.max e m | None => e end) else acc) None l with
  | None => ∀ e s, ((g, e), s) ∉ l
  | Some m => (∃ s, ((g, m), s) ∈ l) ∧ ∀ e s, ((g, e), s) ∈ l → (e ≤ m)%Z
  end.
Proof.
  induction l as [|[[g' e'] s'] l IH]; cbn [foldr]; [set_solver|].
  case_bool_decide as Hg; [subst g'|].
  2: { destruct (foldr _ _ l); [|set_solver]. destruct IH as [[s Hs] Hm]. split; [exists s; by right|].
       intros e s2 [?|?]%elem_of_cons; [congruence|by eapply Hm]. }
  destruct (foldr _ _ l) as [m|].
  - destruct IH as [[s Hs] Hm]. split.
    + destruct (Z.max_spec e' m) as [[_ ->]|[_ ->]]; [exists s; by right|exists s'; by left].
    + intros e s2 [[= -> ->]|Hin]%elem_of_cons; [lia|]. specialize (Hm _ _ Hin). lia.
  - split; [exists s'; by left|]. intros e s2 [[= -> ->]|Hin]%elem_of_cons; [lia|]. by destruct (IH e s2).
Qed.

Lemma latest_none (t : PrivateGroupTables) (g : bytes) : latest_epoch g t = None ↔ ∀ e, ¬ published_epoch t g e.
Proof.
  unfold latest_epoch, published_epoch. pose proof (latest_foldr g (map_to_list (private_group_states t))) as H.
  destruct (foldr _ _ _) as [m|]; split; try done.
  - intros Hn. destruct H as [[s Hs%elem_of_map_to_list] _]. destruct (Hn m). by eexists.
  - intros _ e [s Hs]. apply (H e s). by apply elem_of_map_to_list.
Qed.

Lemma latest_some (t : PrivateGroupTables) (g : bytes) (m : Z) :
  latest_epoch g t = Some m ↔ published_epoch t g m ∧ ∀ e, published_epoch t g e → (e ≤ m)%Z.
Proof.
  unfold latest_epoch, published_epoch. pose proof (latest_foldr g (map_to_list (private_group_states t))) as H.
  destruct (foldr _ _ _) as [m'|].
  - destruct H as [[s Hs%elem_of_map_to_list] Hm].
    assert (Hm' : ∀ e, is_Some (private_group_states t !! (g, e)) → (e ≤ m')%Z)
      by (intros e [r Hr]; apply (Hm e r); by apply elem_of_map_to_list).
    split; [intros [= <-]; eauto|]. intros [Hp Hmax]. f_equal. apply Z.le_antisymm; eauto.
  - split; [done|]. intros [[s Hs%elem_of_map_to_list] _]. by destruct (H m s).
Qed.

(** ** Well-formed tables *)

Record groups_wf (t : PrivateGroupTables) : Prop := {
  gw_epochs : ∀ g e, published_epoch t g e → (1 ≤ e < 2 ^ 63)%Z ∧ (e ≠ 1%Z → published_epoch t g (e - 1));
  gw_credentials : ∀ h c, private_group_member_credentials t !! h = Some c →
    published_epoch t (gc_group_id c) (gc_epoch c) ∧
    (gc_revoked_at c = None ↔ latest_epoch (gc_group_id c) t = Some (gc_epoch c));
  gw_authority : ∀ g e s, private_group_states t !! (g, e) = Some s →
    ∃ c, private_group_member_credentials t !! gs_published_by_membership_handle_sha256 s = Some c ∧
      gc_group_id c = g ∧ gc_epoch c = Z.max 1 (e - 1) ∧ is_Some (gc_publish_key_sha256 c);
  gw_invites : ∀ k i, private_group_invites t !! k = Some i →
    published_epoch t (gi_group_id i) (gi_epoch i) ∧
    (gi_revoked_at i = None → latest_epoch (gi_group_id i) t = Some (gi_epoch i));
  gw_messages : ∀ r, r ∈ rows (private_group_messages t) →
    published_epoch t (gr_group_id r) (gr_epoch r) ∧ (0 ≤ gr_sent_at_unix_ms r)%Z ∧
    (gr_message_id r < next_id (private_group_messages t))%Z;
  gw_order : StronglySorted Z.lt (map gr_message_id (rows (private_group_messages t)));
}.

Lemma empty_groups_wf : groups_wf empty_private_groups.
Proof. split; unfold published_epoch; simpl; intros *; rewrite ?lookup_empty; try (by intros [? ?]); try done; [set_solver|constructor]. Qed.

(** Nothing published is ever changed or lost, and no credential returns. *)
Record groups_extend (t t' : PrivateGroupTables) : Prop := {
  ge_states : private_group_states t ⊆ private_group_states t';
  ge_credentials : ∀ h c, private_group_member_credentials t !! h = Some c →
    ∃ c', private_group_member_credentials t' !! h = Some c' ∧ gc_group_id c' = gc_group_id c ∧ gc_epoch c' = gc_epoch c ∧
      gc_fetch_key_sha256 c' = gc_fetch_key_sha256 c ∧ gc_publish_key_sha256 c' = gc_publish_key_sha256 c ∧
      (gc_revoked_at c' = None → gc_revoked_at c = None);
  ge_messages : ∃ l, rows (private_group_messages t') = rows (private_group_messages t) ++ l ∧
    Forall (λ r, next_id (private_group_messages t) ≤ gr_message_id r)%Z l ∧
    (next_id (private_group_messages t) ≤ next_id (private_group_messages t'))%Z;
}.

#[export] Instance groups_extend_preorder : PreOrder groups_extend.
Proof.
  split.
  - intros t. split; [done|naive_solver|]. exists []. by rewrite app_nil_r.
  - intros t1 t2 t3 [S1 C1 (l1 & E1 & F1 & N1)] [S2 C2 (l2 & E2 & F2 & N2)]. split; [by etrans|..].
    + intros h c Hc. destruct (C1 _ _ Hc) as (c1 & Hc1 & ? & ? & ? & ? & Hr1).
      destruct (C2 _ _ Hc1) as (c2 & Hc2 & ? & ? & ? & ? & Hr2). exists c2. split_and!; [congruence..|eauto].
    + exists (l1 ++ l2). split_and!; [by rewrite E2, E1, app_assoc| |lia]. apply list.Forall_app. split; [done|].
      eapply list.Forall_impl; [exact F2|]. intros r Hr. simpl in *. lia.
Qed.

(** What a request may do to the tables. *)
Definition grows (t t' : PrivateGroupTables) : Prop := groups_wf t → groups_wf t' ∧ groups_extend t t'.

#[export] Instance grows_preorder : PreOrder grows.
Proof.
  split; [intros t Ht; split; [done|reflexivity]|]. intros t1 t2 t3 H1 H2 Hw.
  destruct (H1 Hw) as [Hw2 E1]. destruct (H2 Hw2) as [Hw3 E2]. split; [done|by etrans].
Qed.

Definition groups_of `{P : Primitives} (s : AppState) : PrivateGroupTables := private_groups (st_db s).

Definition grows_s `{P : Primitives} : relation AppState := on_db (λ d d', grows (private_groups d) (private_groups d')).

#[export] Instance grows_s_preorder `{P : Primitives} : PreOrder grows_s.
Proof. apply on_db_preorder. split; [intros d; reflexivity|]. intros d1 d2 d3. apply transitivity. Qed.

#[export] Instance grows_s_coarse `{P : Primitives} : Coarse grows_s.
Proof. apply on_db_coarse. intros d. reflexivity. Qed.

#[export] Instance grows_s_rollback `{P : Primitives} : Rollback grows_s.
Proof. apply on_db_rollback. intros d. reflexivity. Qed.

(** ** Single updates *)

(** Invites that are dropped or revoked. *)
Lemma grows_on_invites (f : gmap bytes GroupInviteRow → gmap bytes GroupInviteRow) (t : PrivateGroupTables) :
  (∀ k i, f (private_group_invites t) !! k = Some i → ∃ i0, private_group_invites t !! k = Some i0 ∧
     gi_group_id i = gi_group_id i0 ∧ gi_epoch i = gi_epoch i0 ∧ (gi_revoked_at i = None → gi_revoked_at i0 = None)) →
  grows t (on_invites f t).
Proof.
  intros Hf [W1 W2 W3 W4 W5 W6]. split; [split; try assumption|split; [done|naive_solver|]].
  - intros k i Hi. destruct (Hf _ _ Hi) as (i0 & H0 & Eg & Ee & Hr). destruct (W4 _ _ H0) as [Hp Hl].
    change (latest_epoch ?g (on_invites f t)) with (latest_epoch g t).
    change (published_epoch (on_invites f t) ?g ?e) with (published_epoch t g e). rewrite Eg, Ee. eauto.
  - exists []. by rewrite app_nil_r.
Qed.

Lemma grows_insert_invite (k : bytes) (i : GroupInviteRow) (t : PrivateGroupTables) :
  latest_epoch (gi_group_id i) t = Some (gi_epoch i) → grows t (on_invites (insert k i) t).
Proof.
  intros Hl [W1 W2 W3 W4 W5 W6]. split; [split; try assumption|split; [done|naive_solver|]].
  - intros k' i' Hi. change (private_group_invites (on_invites (insert k i) t)) with (<[k := i]> (private_group_invites t)) in Hi.
    apply lookup_insert_Some in Hi as [[<- <-]|[_ Hi]]; [|by eapply W4].
    split; [|done]. by apply latest_some in Hl as [? _].
  - exists []. by rewrite app_nil_r.
Qed.

Definition with_messages (m : Table GroupMessageRow) (t : PrivateGroupTables) : PrivateGroupTables :=
  mkPrivateGroups (private_group_states t) (private_group_member_credentials t) (private_group_invites t) m.

Lemma sorted_snoc (l : list Z) (n : Z) : StronglySorted Z.lt l → Forall (λ m, m < n)%Z l → StronglySorted Z.lt (l ++ [n]).
Proof.
  induction 1 as [|m l Hl IH Hm]; intros HF; [by repeat constructor|]. apply list.Forall_cons in HF as [Hn HF].
  constructor; [by apply IH|]. apply list.Forall_app. split; [done|]. by repeat constructor.
Qed.

Lemma grows_insert_message (mk : Z → GroupMessageRow) (g : bytes) (e : Z) (t : PrivateGroupTables) :
  (∀ n, gr_message_id (mk n) = n ∧ gr_group_id (mk n) = g ∧ gr_epoch (mk n) = e ∧ (0 ≤ gr_sent_at_unix_ms (mk n))%Z) →
  published_epoch t g e → grows t (with_messages (insert_row mk (private_group_messages t)).1 t).
Proof.
  intros Hmk Hp [W1 W2 W3 W4 W5 W6]. split; [split; try assumption|split; [done|naive_solver|]].
  - cbn [with_messages private_group_messages insert_row fst rows next_id]. intros r [Hr|Hr]%elem_of_app; [|apply list_elem_of_singleton in Hr as ->].
    + destruct (W5 _ Hr) as (? & ? & ?). split_and!; [done|done|lia].
    + destruct (Hmk (next_id (private_group_messages t))) as (-> & -> & -> & ?). split_and!; [done|done|lia].
  - cbn [with_messages private_group_messages insert_row fst rows]. rewrite map_app. cbn [map]. rewrite (proj1 (Hmk _)).
    apply sorted_snoc; [done|]. apply list.Forall_forall. intros n Hn. apply list_elem_of_In, in_map_iff in Hn as (r & <- & Hr%list_elem_of_In).
    by apply W5 in Hr as (_ & _ & ?).
  - eexists. split; [reflexivity|]. cbn [with_messages private_group_messages insert_row fst next_id]. split; [|lia].
    constructor; [|constructor]. rewrite (proj1 (Hmk _)). lia.
Qed.

(** ** A new epoch *)

Definition find_handle (h : bytes) (members : list PrivateGroupMemberCredentialRecord)
    : option PrivateGroupMemberCredentialRecord :=
  snd <$> list_find (λ m, mc_membership_handle_sha256 m = h) members.

Definition stored_credential (g : bytes) (e now : Z) (m : PrivateGroupMemberCredentialRecord) : GroupCredentialRow :=
  mkGroupCredential g e (mc_member_commitment_sha256 m) (mc_fetch_key_sha256 m) (mc_publish_key_sha256 m) now None.

(** The tables after the transaction of a publication. *)
Record epoch_stored (g : bytes) (e : Z) (row : GroupStateRow) (members : list PrivateGroupMemberCredentialRecord) (now : Z)
    (t t' : PrivateGroupTables) : Prop := {
  es_next : latest_epoch g t = None ∧ e = 1%Z ∨ latest_epoch g t = Some (e - 1)%Z;
  es_states : private_group_states t' = <[(g, e) := row]> (private_group_states t);
  es_fresh : ∀ h m, find_handle h members = Some m → private_group_member_credentials t !! h = None;
  es_credentials : ∀ h, private_group_member_credentials t' !! h =
    match find_handle h members with
    | Some m => Some (stored_credential g e now m)
    | None => revoke_epoch g (e - 1) now <$> private_group_member_credentials t !! h
    end;
  es_invites : private_group_invites t' = revoke_older_invites g e now <$> private_group_invites t;
  es_messages : private_group_messages t' = private_group_messages t;
  es_authority : e = 1%Z ∧ (∃ m, find_handle (gs_published_by_membership_handle_sha256 row) members = Some m ∧
                                is_Some (mc_publish_key_sha256 m)) ∨
    ∃ c, active_credential (gs_published_by_membership_handle_sha256 row) g (e - 1) t = Some c ∧ is_Some (gc_publish_key_sha256 c);
}.

Lemma active_credential_inv (h g : bytes) (e : Z) (t : PrivateGroupTables) (c : GroupCredentialRow) :
  active_credential h g e t = Some c →
  private_group_member_credentials t !! h = Some c ∧ gc_group_id c = g ∧ gc_epoch c = e ∧ gc_revoked_at c = None.
Proof.
  unfold active_credential. destruct (_ !! h) as [c'|]; [|done]. cbn [mbind option_bind].
  case_bool_decide; [|done]. intros [= <-]. naive_solver.
Qed.

Lemma revoke_epoch_fields g e now c : let c' := revoke_epoch g (e - 1) now c in
  gc_group_id c' = gc_group_id c ∧ gc_epoch c' = gc_epoch c ∧ gc_fetch_key_sha256 c' = gc_fetch_key_sha256 c ∧
  gc_publish_key_sha256 c' = gc_publish_key_sha256 c ∧
  (gc_revoked_at c' = None ↔ gc_revoked_at c = None ∧ ¬ (gc_group_id c = g ∧ gc_epoch c = (e - 1)%Z)).
Proof. unfold revoke_epoch. case_bool_decide; simpl; naive_solver. Qed.

Lemma revoke_older_fields g e now i : let i' := revoke_older_invites g e now i in
  gi_group_id i' = gi_group_id i ∧ gi_epoch i' = gi_epoch i ∧
  (gi_revoked_at i' = None → gi_revoked_at i = None ∧ ¬ (gi_group_id i = g ∧ (gi_epoch i < e)%Z)).
Proof. unfold revoke_older_invites. case_bool_decide; simpl; naive_solver. Qed.

Section NewEpoch.
Context (g : bytes) (e : Z) (row : GroupStateRow) (members : list PrivateGroupMemberCredentialRecord) (now : Z).
Context (t t' : PrivateGroupTables) (Hs : epoch_stored g e row members now t t').

Lemma stored_published g' e' : published_epoch t' g' e' ↔ (g' = g ∧ e' = e) ∨ published_epoch t g' e'.
Proof.
  unfold published_epoch. rewrite (es_states _ _ _ _ _ _ _ Hs). split.
  - intros [r [[[= <- <-] _]|[_ Hr]]%lookup_insert_Some]; [by left|right; by eexists].
  - intros [[-> ->]|[r Hr]]; [rewrite lookup_insert_eq; by eexists|].
    destruct (decide ((g, e) = (g', e'))) as [E|E]; [rewrite E, lookup_insert_eq; by eexists|].
    rewrite lookup_insert_ne by done. by eexists.
Qed.

Lemma stored_unpublished : ¬ published_epoch t g e.
Proof.
  intros Hp. destruct (es_next _ _ _ _ _ _ _ Hs) as [[Hn _]|Hl]; [by apply (proj1 (latest_none _ _) Hn e)|].
  apply latest_some in Hl as [_ Hm]. specialize (Hm _ Hp). lia.
Qed.

Lemma stored_latest g' : latest_epoch g' t' = if bool_decide (g' = g) then Some e else latest_epoch g' t.
Proof.
  case_bool_decide as Hg; [subst g'|].
  - apply latest_some. split; [apply stored_published; by left|]. intros e' [[_ ->]|Hp]%stored_published; [lia|].
    destruct (es_next _ _ _ _ _ _ _ Hs) as [[Hn _]|Hl]; [by destruct (proj1 (latest_none _ _) Hn e')|].
    apply latest_some in Hl as [_ Hm]. specialize (Hm _ Hp). lia.
  - destruct (latest_epoch g' t) as [m|] eqn:El.
    + apply latest_some in El as [Hp Hm]. apply latest_some. split; [apply stored_published; by right|].
      intros e' [[-> _]|Hp']%stored_published; [done|by apply Hm].
    + apply latest_none. intros e' [[-> _]|Hp]%stored_published; [done|]. by apply (proj1 (latest_none _ _) El e').
Qed.

Lemma stored_credential_inv h c : private_group_member_credentials t' !! h = Some c →
  (∃ m, find_handle h members = Some m ∧ c = stored_credential g e now m) ∨
  ∃ c0, private_group_member_credentials t !! h = Some c0 ∧ c = revoke_epoch g (e - 1) now c0.
Proof.
  rewrite (es_credentials _ _ _ _ _ _ _ Hs). destruct (find_handle h members) as [m|] eqn:Ef.
  - intros [= <-]. left. eauto.
  - intros (c0 & H0 & ->)%fmap_Some. right. eauto.
Qed.

End NewEpoch.

Lemma epoch_stored_credentials g e row members now t t' : groups_wf t → epoch_stored g e row members now t t' →
  ∀ h c, private_group_member_credentials t' !! h = Some c →
  published_epoch t' (gc_group_id c) (gc_epoch c) ∧
  (gc_revoked_at c = None ↔ latest_epoch (gc_group_id c) t' = Some (gc_epoch c)).
Proof.
  intros [W1 W2 _ _ _ _] Hs h c Hc. rewrite (stored_latest _ _ _ _ _ _ _ Hs).
  destruct (stored_credential_inv _ _ _ _ _ _ _ Hs _ _ Hc) as [(m & _ & ->)|(c0 & H0 & ->)].
  - split; [apply (stored_published _ _ _ _ _ _ _ Hs); by left|]. simpl. by rewrite bool_decide_eq_true_2.
  - destruct (revoke_epoch_fields g e now c0) as (-> & -> & _ & _ & Hr). destruct (W2 _ _ H0) as [Hp Hl].
    split; [apply (stored_published _ _ _ _ _ _ _ Hs); by right|]. rewrite Hr, Hl. case_bool_decide as Eg.
    2: { split; [by intros [? _]|]. intros ?. split; [done|]. by intros [? _]. }
    subst g. assert (Hlt : gc_epoch c0 ≠ e) by (intros <-; by apply (stored_unpublished _ _ _ _ _ _ _ Hs)).
    destruct (es_next _ _ _ _ _ _ _ Hs) as [[Hn _]|Hl']; [by destruct (proj1 (latest_none _ _) Hn (gc_epoch c0))|].
    rewrite Hl'. split; [intros [[= E] Hn]; destruct Hn; done|]. intros [= E]. by destruct Hlt.
Qed.

Lemma epoch_stored_authority g e row members now t t' : groups_wf t → epoch_stored g e row members now t t' →
  ∀ g' e' s, private_group_states t' !! (g', e') = Some s →
  ∃ c, private_group_member_credentials t' !! gs_published_by_membership_handle_sha256 s = Some c ∧
    gc_group_id c = g' ∧ gc_epoch c = Z.max 1 (e' - 1) ∧ is_Some (gc_publish_key_sha256 c).
Proof.
  intros [W1 W2 W3 _ _ _] Hs.
  (* a credential of before is still there *)
  assert (Hold : ∀ h c, private_group_member_credentials t !! h = Some c →
    private_group_member_credentials t' !! h = Some (revoke_epoch g (e - 1) now c)).
  { intros h c Hc. rewrite (es_credentials _ _ _ _ _ _ _ Hs). destruct (find_handle h members) eqn:Ef; [|by rewrite Hc].
    by rewrite (es_fresh _ _ _ _ _ _ _ Hs _ _ Ef) in Hc. }
  intros g' e' s. rewrite (es_states _ _ _ _ _ _ _ Hs). intros [[[= <- <-] <-]|[_ Hr]]%lookup_insert_Some.
  - destruct (es_authority _ _ _ _ _ _ _ Hs) as [(-> & m & Hm & Hk)|(c & Hc & Hk)].
    + exists (stored_credential g 1 now m). rewrite (es_credentials _ _ _ _ _ _ _ Hs), Hm. done.
    + apply active_credential_inv in Hc as (Hc & Eg & Ee & _). eexists. split; [by apply Hold|].
      destruct (revoke_epoch_fields g e now c) as (-> & -> & _ & -> & _). split_and!; [done| |done].
      destruct (W2 _ _ Hc) as [Hp _]. apply W1 in Hp as [Hp _]. lia.
  - destruct (W3 _ _ _ Hr) as (c & Hc & Eg & Ee & Hk). eexists. split; [by apply Hold|].
    destruct (revoke_epoch_fields g e now c) as (-> & -> & _ & -> & _). done.
Qed.

Lemma grows_epoch_stored g e row members now t t' : (1 ≤ e < 2 ^ 63)%Z → epoch_stored g e row members now t t' → grows t t'.
Proof.
  intros He Hs Hw. pose proof Hw as [W1 W2 W3 W4 W5 W6]. pose proof (stored_published _ _ _ _ _ _ _ Hs) as Hp. split; [split|split].
  - intros g' e' [[-> ->]|Hp']%Hp.
    + split; [done|]. intros Hne. apply Hp. right.
      destruct (es_next _ _ _ _ _ _ _ Hs) as [[_ ->]|Hl]; [done|]. by apply latest_some in Hl as [? _].
    + destruct (W1 _ _ Hp') as [? Hq]. split; [done|]. intros Hne. apply Hp. right. by apply Hq.
  - by eapply epoch_stored_credentials.
  - by eapply epoch_stored_authority.
  - intros k i. rewrite (es_invites _ _ _ _ _ _ _ Hs), (stored_latest _ _ _ _ _ _ _ Hs).
    intros (i0 & <- & H0)%lookup_fmap_Some. destruct (W4 _ _ H0) as [Hp0 Hl0].
    destruct (revoke_older_fields g e now i0) as (-> & -> & Hr). split; [apply Hp; by right|]. intros Hn.
    destruct (Hr Hn) as [Hn0 Hge]. case_bool_decide as Eg; [|by apply Hl0]. f_equal. subst g.
    pose proof (Hl0 Hn0) as Hl. destruct (es_next _ _ _ _ _ _ _ Hs) as [[E _]|E]; [congruence|].
    rewrite E in Hl. injection Hl as Hl. destruct Hge. split; [done|lia].
  - intros r. rewrite (es_messages _ _ _ _ _ _ _ Hs). intros Hr. destruct (W5 _ Hr) as (Hp0 & ? & ?).
    split_and!; [apply Hp; by right|done|done].
  - by rewrite (es_messages _ _ _ _ _ _ _ Hs).
  - rewrite (es_states _ _ _ _ _ _ _ Hs). apply insert_subseteq. destruct (private_group_states t !! (g, e)) eqn:E; [|done].
    destruct (stored_unpublished _ _ _ _ _ _ _ Hs). by eexists.
  - intros h c Hc. eexists. rewrite (es_credentials _ _ _ _ _ _ _ Hs).
    destruct (find_handle h members) eqn:Ef; [by rewrite (es_fresh _ _ _ _ _ _ _ Hs _ _ Ef) in Hc|].
    rewrite Hc. split; [done|]. destruct (revoke_epoch_fields g e now c) as (-> & -> & -> & -> & Hr). naive_solver.
  - rewrite (es_messages _ _ _ _ _ _ _ Hs). exists []. by rewrite app_nil_r.
Qed.

(** ** Publishing *)

Lemma find_handle_cons h m ms :
  find_handle h (m :: ms) = if decide (mc_membership_handle_sha256 m = h) then Some m else find_handle h ms.
Proof.
  unfold find_handle. cbn [list_find]. destruct (decide _); [done|]. by destruct (list_find _ ms) as [[]|].
Qed.

Section Handlers.
Context `{P : Primitives} `{V : Ed25519} `{B : Base64} `{X : Hex} `{I : HashIter} `{U : !Uuid}.

Lemma insert_credentials_ok g e now ms (s s' : AppState) : insert_credentials g e now ms s = (s', Ok tt) →
  private_group_states (groups_of s') = private_group_states (groups_of s) ∧
  private_group_invites (groups_of s') = private_group_invites (groups_of s) ∧
  private_group_messages (groups_of s') = private_group_messages (groups_of s) ∧
  (∀ h, private_group_member_credentials (groups_of s') !! h =
     match find_handle h ms with
     | Some m => Some (stored_credential g e now m)
     | None => private_group_member_credentials (groups_of s) !! h
     end) ∧
  (∀ h m, find_handle h ms = Some m → private_group_member_credentials (groups_of s) !! h = None).
Proof.
  revert s. induction ms as [|m ms IH]; intros s H; cbn [insert_credentials] in H.
  { injection H as <-. done. }
  unfold query_groups, execute_groups in H. run1 H Hq. run1 H Ht. run1 H Hx. apply bool_decide_eq_false in Ht.
  destruct (IH _ H) as (H1 & H2 & H3 & H4 & H5). clear IH H.
  rewrite H1, H2, H3. split_and!; try done.
  - intros h. rewrite H4, find_handle_cons. destruct (find_handle h ms) as [m'|] eqn:Ef.
    + specialize (H5 _ _ Ef). destruct (decide _) as [<-|]; [|done]. cbn in H5. by rewrite lookup_insert_eq in H5.
    + cbn [groups_of st_db set_db private_groups set_private_groups on_credentials private_group_member_credentials].
      destruct (decide _) as [<-|]; [by rewrite lookup_insert_eq|by rewrite lookup_insert_ne].
  - intros h m'. rewrite find_handle_cons. destruct (decide _) as [<-|Hne].
    + intros _. apply eq_None_not_Some. exact Ht.
    + intros Hf. specialize (H5 _ _ Hf). cbn in H5. by rewrite lookup_insert_ne in H5.
Qed.

(** The epoch a publication may store. *)
Definition next_epoch (g : bytes) (e : Z) (t : PrivateGroupTables) : Prop :=
  latest_epoch g t = None ∧ e = 1%Z ∨ latest_epoch g t = Some (e - 1)%Z.

Lemma i64_wrap_next (e m : Z) : (1 ≤ e < 2 ^ 63)%Z → (1 ≤ m < 2 ^ 63)%Z → e = i64_wrap (m + 1) → m = (e - 1)%Z.
Proof. unfold i64_wrap. intros He Hm ->. Z.to_euclidean_division_equations. lia. Qed.

(** What a publication must show. *)
Lemma authorize_publish_ok g e h k members (s s' : AppState) :
  groups_wf (groups_of s) → (1 ≤ e < 2 ^ 63)%Z →
  authorize_publish g e (latest_epoch g (groups_of s)) h k members s = (s', Ok tt) →
  s' = s ∧ next_epoch g e (groups_of s) ∧
  (e = 1%Z ∧ (∃ m, find_handle h members = Some m ∧ mc_publish_key_sha256 m = Some k) ∧ latest_epoch g (groups_of s) = None ∨
   ∃ c, active_credential h g (e - 1) (groups_of s) = Some c ∧ gc_publish_key_sha256 c = Some k).
Proof.
  intros Hw He H. unfold authorize_publish, query_groups in H.
  destruct (latest_epoch g (groups_of s)) as [m|] eqn:El.
  - run1 H H1. run1 H H2. run1 H H3. apply reject_if_ok in H as [-> H]. apply negb_bool_decide_false in H.
    pose proof El as El2. apply latest_some in El2 as [Hp _]. apply (gw_epochs _ Hw) in Hp as [Hp _].
    apply i64_wrap_next in H1; [|done|done]. subst m. apply ok_or_ok in H3.
    split; [done|]. split; [right; congruence|]. right. eauto.
  - run1 H H1. run1 H H2. apply reject_if_ok in H as [-> H]. apply negb_bool_decide_false in H. apply ok_or_ok in H2.
    split; [done|]. split; [left; split; congruence|]. left. split; [done|]. split; [|done]. eexists.
    unfold find_handle. rewrite H2. split; [reflexivity|done].
Qed.

(** The transaction of a publication that is authorised. *)
Lemma store_epoch_ok g e row members now (s s' : AppState) : groups_wf (groups_of s) → next_epoch g e (groups_of s) →
  (e = 1%Z ∧ (∃ m, find_handle (gs_published_by_membership_handle_sha256 row) members = Some m ∧ is_Some (mc_publish_key_sha256 m)) ∨
   ∃ c, active_credential (gs_published_by_membership_handle_sha256 row) g (e - 1) (groups_of s) = Some c ∧
     is_Some (gc_publish_key_sha256 c)) →
  store_epoch g e (latest_epoch g (groups_of s)) row members now s = (s', Ok tt) →
  epoch_stored g e row members now (groups_of s) (groups_of s').
Proof.
  intros Hw Hnext Hauth H. apply transaction_ok in H. unfold query_groups, execute_groups in H.
  apply sm_bind_ok_inv in H as (s1 & [] & H1 & H). run1 H Hq. run1 H Ht. run1 H Hx. run1 H Hy.
  destruct (insert_credentials_ok _ _ _ _ _ _ H) as (E1 & E2 & E3 & E4 & E5). clear H.
  assert (Hs1 : ∃ f, groups_of s1 = on_credentials f (groups_of s) ∧
    f (private_group_member_credentials (groups_of s)) = revoke_epoch g (e - 1) now <$> private_group_member_credentials (groups_of s)).
  { destruct Hnext as [[El ->]|El]; rewrite El in H1.
    - injection H1 as <-. exists (λ m, m). split; [unfold on_credentials; by destruct (groups_of s)|]. symmetry. apply map_eq. intros h. rewrite lookup_fmap.
      destruct (_ !! h) as [c|] eqn:Ec; [|done]. simpl. f_equal. unfold revoke_epoch. rewrite bool_decide_eq_false_2; [done|].
      intros (<- & He & _). destruct (gw_credentials _ Hw _ _ Ec) as [Hp _]. apply (gw_epochs _ Hw) in Hp as [Hp _]. lia.
    - apply execute_inv in H1 as [-> _]. eexists. split; [reflexivity|done]. }
  destruct Hs1 as (f & Ef & Ec). cbn [groups_of st_db set_db private_groups set_private_groups on_states on_invites
    private_group_states private_group_member_credentials private_group_invites private_group_messages] in *.
  change (private_groups (st_db s1)) with (groups_of s1) in *. rewrite Ef in *. cbn [on_credentials
    private_group_states private_group_member_credentials private_group_invites private_group_messages] in *.
  split; try done.
  - intros h m Hm. specialize (E5 _ _ Hm). rewrite Ec, lookup_fmap in E5. by apply fmap_None in E5.
  - intros h. rewrite E4, Ec, lookup_fmap. done.
Qed.
(** What a successful publication stored, and under which authority. *)
Record publication (request : PublishPrivateGroupStateRequest) (s s' : AppState) (e : Z) (h commitment key : bytes)
    (members : list PrivateGroupMemberCredentialRecord) : Prop := {
  pu_epoch : validate_private_group_epoch (ps_epoch request) = Ok e;
  pu_handle : validate_sha256_hex (lit "authorizing_membership_handle_sha256") (ps_authorizing_membership_handle_sha256 request) = Ok h;
  pu_commitment : validate_sha256_hex (lit "state_commitment_sha256") (ps_state_commitment_sha256 request) = Ok commitment;
  pu_key : decode_base64_exact (lit "authorizing_publish_key_base64") (ps_authorizing_publish_key_base64 request)
    PRIVATE_GROUP_AUTH_KEY_LEN = Ok key;
  pu_members : normalize_private_group_members (ps_members request) = Ok members;
  pu_stored : epoch_stored (str_trim (ps_group_id request)) e
    (mkGroupState commitment (str_trim (ps_ciphertext_nonce_base64 request)) (str_trim (ps_ciphertext_base64 request))
       (str_trim (ps_ciphertext_aad_base64 request)) h (st_utc s)) members (st_utc s) (groups_of s) (groups_of s');
  pu_authority : e = 1%Z ∧ (∃ m, find_handle h members = Some m ∧ mc_publish_key_sha256 m = Some (hex_lower (sha256 key))) ∨
    ∃ c, active_credential h (str_trim (ps_group_id request)) (e - 1) (groups_of s) = Some c ∧
      gc_publish_key_sha256 c = Some (hex_lower (sha256 key));
}.

Lemma validate_epoch_range (n : N) (e : Z) : validate_private_group_epoch n = Ok e → (1 ≤ e < 2 ^ 63)%Z ∧ e = Z.of_N n.
Proof.
  unfold validate_private_group_epoch, i64_try_from. destruct (n =? 0) eqn:E0; [done|].
  destruct (2 ^ 63 <=? n) eqn:E1; [done|]. intros [= <-]. bool_to_prop. split; [|done].
  change (2 ^ 63)%Z with (Z.of_N (2 ^ 63)). lia.
Qed.

Lemma publish_state_ok request (s s' : AppState) r : groups_wf (groups_of s) →
  publish_private_group_state request s = (s', Ok r) → ∃ e h commitment key members, publication request s s' e h commitment key members.
Proof.
  intros Hw H. unfold publish_private_group_state in H. run1 H Hq. pose proof (quiet_db _ _ Hq) as Ed. pose proof (quiet_utc _ _ Hq) as Eu.
  run1 H H1. run1 H H2. run1 H H3. run1 H H4. run1 H H5. run1 H H6. run1 H H7. run1 H H8. run1 H H9. run1 H H10.
  unfold query_groups in H at 1. run1 H H11. run1 H Ha. run1 H Hs. injection H as <- <-.
  change (private_groups (st_db s0)) with (groups_of s0) in *.
  assert (Eg : groups_of s0 = groups_of s) by (unfold groups_of; by rewrite Ed). rewrite <- Eg in Hw.
  destruct (validate_epoch_range _ _ H2) as [He _].
  destruct (authorize_publish_ok _ _ _ _ _ _ _ Hw He Ha) as (-> & Hn & Hau).
  eexists _, _, _, _, _. split; try eassumption.
  - rewrite <- Eg, <- Eu. apply (store_epoch_ok _ _ _ _ _ _ _ Hw Hn); [|exact Hs]. simpl.
    destruct Hau as [(-> & (m & Hm & Hk) & _)|(c & Hc & Hk)]; [left; split; [done|]|right]; eexists; (split; [eassumption|]); by eexists.
  - rewrite <- Eg. destruct Hau as [(-> & Hm & _)|Hc]; [by left|by right].
Qed.

Lemma authorize_publish_quiet g e latest h k members : steps quiet (authorize_publish g e latest h k members).
Proof. unfold authorize_publish, query_groups. steps. Qed.

(** A run that does not succeed leaves the tables as they were. *)
Definition same_db : relation AppState := λ s s', st_db s' = st_db s.

#[local] Instance same_db_preorder : PreOrder same_db.
Proof. split; [done|]. intros s1 s2 s3. unfold same_db. congruence. Qed.

#[local] Instance same_db_coarse : Coarse same_db.
Proof. intros s s'. apply quiet_db. Qed.

Lemma publish_state_err request (s s' : AppState) e :
  publish_private_group_state request s = (s', Err e) → st_db s' = st_db s.
Proof.
  revert s s' e. change (fails_within same_db (publish_private_group_state request)). unfold publish_private_group_state.
  do 12 (apply fails_within_bind; [apply _|solve [unfold query_groups; steps]|intros ?]).
  apply fails_within_bind; [apply _|apply steps_quiet; [apply _|apply authorize_publish_quiet]|intros _].
  intros s s' e H. apply sm_bind_inv in H as [(s1 & u & _ & H)|(e' & H & _)]; [done|].
  by apply transaction_err in H.
Qed.

Lemma publish_state_grows request : steps grows_s (publish_private_group_state request).
Proof.
  intros s. destruct (publish_private_group_state request s) as [s' [r|e]] eqn:H; simpl; unfold grows_s, on_db.
  - intros Hw. destruct (publish_state_ok _ _ _ _ Hw H) as (e & h & co & key & ms & [He _ _ _ _ Hs _]).
    apply (grows_epoch_stored _ _ _ _ _ _ _ (proj1 (validate_epoch_range _ _ He)) Hs Hw).
  - by rewrite (publish_state_err _ _ _ _ H).
Qed.
(** ** Invites and messages *)

Lemma purge_invites_grows : steps grows_s purge_expired_private_group_invites.
Proof.
  unfold purge_expired_private_group_invites, execute_groups. steps. apply grows_on_invites.
  intros k i [Hi _]%map_lookup_filter_Some. eauto.
Qed.

Lemma load_latest_ok g (s s' : AppState) e :
  load_latest_private_group_epoch g s = (s', Ok e) → s' = s ∧ latest_epoch g (groups_of s) = Some e.
Proof.
  unfold load_latest_private_group_epoch, query_groups. intros H. run1 H Hq. apply lift_inv in H as [-> H].
  split; [done|]. by apply ok_or_ok in H.
Qed.

Lemma load_latest_quiet g : steps quiet (load_latest_private_group_epoch g).
Proof. unfold load_latest_private_group_epoch, query_groups. steps. Qed.

Lemma load_invite_quiet k : steps quiet (load_private_group_invite_record k).
Proof. unfold load_private_group_invite_record, query_groups. steps. Qed.

Lemma resolve_fetch_quiet h k : steps quiet (resolve_private_group_fetch_credential h k).
Proof. unfold resolve_private_group_fetch_credential, query_groups. steps. Qed.

Lemma authorize_capability_ok g e h k (s s' : AppState) :
  authorize_current_private_group_publish_capability g e h k s = (s', Ok tt) →
  s' = s ∧ latest_epoch g (groups_of s) = Some e ∧ ∃ c, active_credential h g e (groups_of s) = Some c ∧ gc_publish_key_sha256 c = Some k.
Proof.
  unfold authorize_current_private_group_publish_capability, query_groups. intros H. run1 H Hl. apply load_latest_ok in Hl as [-> Hl].
  run1 H He. subst. run1 H Hq. run1 H Hc. apply ok_or_ok in Hc. apply reject_if_ok in H as [-> H]. apply negb_bool_decide_false in H. eauto.
Qed.

Lemma authorize_fetch_ok g e h k (s s' : AppState) :
  authorize_private_group_fetch_capability_for_group g e h k s = (s', Ok tt) →
  s' = s ∧ latest_epoch g (groups_of s) = Some e ∧ ∃ c, active_credential h g e (groups_of s) = Some c ∧ gc_fetch_key_sha256 c = k.
Proof.
  unfold authorize_private_group_fetch_capability_for_group, query_groups. intros H. run1 H Hl. apply load_latest_ok in Hl as [-> Hl].
  run1 H He. subst. run1 H Hq. run1 H Hc. apply ok_or_ok in Hc. apply reject_if_ok in H as [-> H]. apply negb_bool_decide_false in H. eauto.
Qed.

Lemma authorize_capability_quiet g e h k : steps quiet (authorize_current_private_group_publish_capability g e h k).
Proof.
  unfold authorize_current_private_group_publish_capability, query_groups.
  apply steps_bind; [apply _|apply load_latest_quiet|intros ?]. steps.
Qed.

Lemma authorize_fetch_quiet g e h k : steps quiet (authorize_private_group_fetch_capability_for_group g e h k).
Proof.
  unfold authorize_private_group_fetch_capability_for_group, query_groups.
  apply steps_bind; [apply _|apply load_latest_quiet|intros ?]. steps.
Qed.

(** A check that changes nothing, and what follows it when it passes. *)
Lemma steps_guarded {A} (R : relation AppState) `{!PreOrder R} `{!Coarse R} (c : Handler unit) (k : Handler A) :
  steps quiet c → (∀ s, (∃ s0, c s0 = (s, Ok tt)) → R s (k s).1) → steps R (sm_bind c (λ _, k)).
Proof.
  intros Hc Hk s. unfold sm_bind. pose proof (Hc s) as Hq. destruct (c s) as [s1 [[]|e]] eqn:E; simpl in *; [|by apply coarse].
  etrans; [by apply coarse|]. apply Hk. by exists s.
Qed.

Lemma create_invite_grows request : steps grows_s (create_private_group_invite request).
Proof.
  unfold create_private_group_invite. do 10 (apply steps_bind; [apply _|solve [steps]|intros ?]).
  apply steps_bind; [apply _|apply purge_invites_grows|intros _].
  apply steps_guarded; [apply _|apply _|apply authorize_capability_quiet|].
  intros s [s0 Hs0]. apply authorize_capability_ok in Hs0 as (-> & Hl & _).
  unfold gets, new_uuid, query_groups, query, gets, execute_groups, execute, sm_modify, reject_if, fail, sm_err, sm_ret, sm_bind.
  destruct (uuid_v4 _) as [u gen]. case_bool_decide; [by unfold grows_s, on_db|]. unfold grows_s, on_db. simpl.
  by apply grows_insert_invite.
Qed.

Lemma consume_invite_grows k : steps grows_s (consume_private_group_invite k).
Proof.
  unfold consume_private_group_invite. apply steps_bind; [apply _|steps|intros _].
  apply steps_bind; [apply _|apply purge_invites_grows|intros _]. apply steps_bind; [apply _|steps|intros k'].
  apply steps_bind; [apply _|apply steps_quiet; [apply _|apply load_invite_quiet]|intros _].
  unfold execute_groups. steps. apply grows_on_invites. intros k1 i Hi.
  destruct (decide (k' = k1)) as [<-|Hne]; [|rewrite lookup_alter_ne in Hi by done; eauto].
  rewrite lookup_alter_eq in Hi. apply fmap_Some in Hi as (i0 & H0 & ->). exists i0.
  split; [done|]. by case_bool_decide.
Qed.

Lemma resolve_invite_grows k : steps grows_s (resolve_private_group_invite k).
Proof.
  unfold resolve_private_group_invite. apply steps_bind; [apply _|steps|intros _].
  apply steps_bind; [apply _|apply purge_invites_grows|intros _]. apply steps_bind; [apply _|steps|intros k'].
  apply steps_bind; [apply _|apply steps_quiet; [apply _|apply load_invite_quiet]|intros i].
  apply steps_bind; [apply _|apply steps_quiet; [apply _|apply load_latest_quiet]|intros e]. steps.
Qed.

Lemma publish_message_grows request : steps grows_s (publish_private_group_message request).
Proof.
  unfold publish_private_group_message. do 9 (apply steps_bind; [apply _|solve [steps]|intros ?]).
  apply steps_guarded; [apply _|apply _|apply authorize_fetch_quiet|].
  intros s [s0 Hs0]. apply authorize_fetch_ok in Hs0 as (-> & Hl & _).
  unfold sm_bind at 1, gets at 1. cbv beta iota.
  unfold sm_bind at 1, lift at 1, sm_lift at 1. destruct (i64_try_from _ _) as [sent|] eqn:Et; [|done].
  unfold query_groups, query, gets, execute_groups, execute, sm_modify, sm_ret, sm_bind, grows_s, on_db. simpl.
  refine (grows_insert_message (λ n, mkGroupMessage n _ _ sent _ _ _ _ _) _ _ _ _ (proj1 (proj1 (latest_some _ _ _) Hl))).
  intros n. split_and!; try reflexivity. simpl. unfold i64_try_from in Et. destruct (_ <=? _); [done|]. injection Et as <-. lia.
Qed.

Lemma fetch_state_quiet request : steps quiet (fetch_private_group_state request).
Proof.
  unfold fetch_private_group_state, query_groups. do 3 (apply steps_bind; [apply _|solve [steps]|intros ?]).
  apply steps_bind; [apply _|apply resolve_fetch_quiet|intros ?]. steps.
Qed.

Lemma fetch_messages_quiet request : steps quiet (fetch_private_group_messages request).
Proof.
  unfold fetch_private_group_messages, query_groups. do 4 (apply steps_bind; [apply _|solve [steps]|intros ?]).
  apply steps_bind; [apply _|apply resolve_fetch_quiet|intros ?]. steps.
Qed.
(** ** Sequences of requests *)

Inductive GroupRequest : Type :=
| PublishState (r : PublishPrivateGroupStateRequest)
| FetchState (r : FetchPrivateGroupStateRequest)
| CreateInvite (r : CreatePrivateGroupInviteRequest)
| ResolveInvite (token : bytes)
| ConsumeInvite (token : bytes)
| PublishMessage (r : PublishPrivateGroupMessageRequest)
| FetchMessages (r : FetchPrivateGroupMessagesRequest).

Definition serve_group (q : GroupRequest) (s : AppState) : AppState :=
  match q with
  | PublishState r => (publish_private_group_state r s).1
  | FetchState r => (fetch_private_group_state r s).1
  | CreateInvite r => (create_private_group_invite r s).1
  | ResolveInvite token => (resolve_private_group_invite token s).1
  | ConsumeInvite token => (consume_private_group_invite token s).1
  | PublishMessage r => (publish_private_group_message r s).1
  | FetchMessages r => (fetch_private_group_messages r s).1
  end.

(** The requests at the instants they arrive. *)
Fixpoint group_requests (l : list (Z * N * GroupRequest)) (s : AppState) : AppState :=
  match l with
  | [] => s
  | (utc, instant, q) :: l => group_requests l (serve_group q (set_clock utc instant s))
  end.

Lemma serve_group_grows q (s : AppState) : grows_s s (serve_group q s).
Proof.
  destruct q as [r|r|r|k|k|r|r]; simpl.
  - apply publish_state_grows.
  - apply coarse, fetch_state_quiet.
  - apply create_invite_grows.
  - apply resolve_invite_grows.
  - apply consume_invite_grows.
  - apply publish_message_grows.
  - apply coarse, fetch_messages_quiet.
Qed.

Lemma group_requests_grows l (s : AppState) : grows (groups_of s) (groups_of (group_requests l s)).
Proof.
  revert s. induction l as [|[[utc instant] q] l IH]; intros s; cbn [group_requests]; [reflexivity|].
  etrans; [|apply IH]. exact (serve_group_grows q (set_clock utc instant s)).
Qed.

(** ** What a credential opens *)

Lemma resolve_fetch_ok h k (s s' : AppState) place : resolve_private_group_fetch_credential h k s = (s', Ok place) →
  s' = s ∧ ∃ c, private_group_member_credentials (groups_of s) !! h = Some c ∧ gc_revoked_at c = None ∧
    gc_fetch_key_sha256 c = k ∧ place = (gc_group_id c, gc_epoch c).
Proof.
  unfold resolve_private_group_fetch_credential, query_groups. intros H. run1 H Hq. run1 H Hc. run1 H Hk.
  injection H as <- <-. apply ok_or_ok in Hc. split; [done|].
  destruct (private_group_member_credentials _ !! h) as [c|] eqn:E; [|done]. cbn [mbind option_bind] in Hc.
  case_bool_decide; [|done]. injection Hc as <-. by exists c.
Qed.

Lemma resolve_fetch_run h k (s : AppState) c : private_group_member_credentials (groups_of s) !! h = Some c →
  gc_revoked_at c = None → gc_fetch_key_sha256 c = k →
  resolve_private_group_fetch_credential h k s = (s, Ok (gc_group_id c, gc_epoch c)).
Proof.
  intros Hc Hr <-. unfold resolve_private_group_fetch_credential, query_groups, query, gets, reject_if, lift, sm_lift, sm_ret, sm_bind.
  change (private_groups (st_db s)) with (groups_of s). rewrite Hc. cbn [mbind option_bind].
  rewrite bool_decide_eq_true_2 by done. cbn [ok_or]. by rewrite bool_decide_eq_true_2.
Qed.

(** The credential of a request, and what a successful one shows of it. *)
Definition fetch_uses (r : FetchPrivateGroupStateRequest) (h k : bytes) : Prop :=
  validate_sha256_hex (lit "membership_handle_sha256") (fs_membership_handle_sha256 r) = Ok h ∧
  decode_base64_exact (lit "fetch_key_base64") (fs_fetch_key_base64 r) PRIVATE_GROUP_AUTH_KEY_LEN = Ok k.

Lemma fetch_state_ok r (s s' : AppState) resp : fetch_private_group_state r s = (s', Ok resp) →
  ∃ h k c row, fetch_uses r h k ∧ private_group_member_credentials (groups_of s) !! h = Some c ∧ gc_revoked_at c = None ∧
    gc_fetch_key_sha256 c = hex_lower (sha256 k) ∧
    private_group_states (groups_of s) !! (gc_group_id c, gc_epoch c) = Some row ∧
    resp = mkFetchedState (gc_group_id c) (Z.to_N (gc_epoch c)) (gs_state_commitment_sha256 row) (gs_ciphertext_nonce_base64 row)
      (gs_ciphertext_base64 row) (gs_ciphertext_aad_base64 row) (gs_published_at row).
Proof.
  unfold fetch_private_group_state, query_groups. intros H. run1 H H1. run1 H Hq. run1 H H2. run1 H H3.
  apply resolve_fetch_ok in H3 as (-> & c & Hc & Hr & Hk & ->). run1 H H4. run1 H H5. injection H as <- <-. apply ok_or_ok in H5.
  unfold groups_of in *. rewrite (quiet_db _ _ Hq) in *. eexists _, _, _, _. split; [split; eassumption|]. eauto 10.
Qed.

Lemma rate_limit_cases (key : bytes) (s : AppState) :
  (∃ s1, check_rate_limit key s = (s1, Ok tt) ∧ groups_of s1 = groups_of s) ∨
  ∃ s1, check_rate_limit key s = (s1, Err (rate_limited (lit "rate limit exceeded"))).
Proof.
  unfold check_rate_limit. destruct (allow_in_memory _ _ _) as [l [|]]; [left|right]; by eexists.
Qed.

Lemma fetch_state_run r (s : AppState) h k c row : fetch_uses r h k →
  private_group_member_credentials (groups_of s) !! h = Some c → gc_revoked_at c = None →
  gc_fetch_key_sha256 c = hex_lower (sha256 k) → private_group_states (groups_of s) !! (gc_group_id c, gc_epoch c) = Some row →
  (fetch_private_group_state r s).2 = Ok (mkFetchedState (gc_group_id c) (Z.to_N (gc_epoch c)) (gs_state_commitment_sha256 row)
      (gs_ciphertext_nonce_base64 row) (gs_ciphertext_base64 row) (gs_ciphertext_aad_base64 row) (gs_published_at row))
  ∨ (fetch_private_group_state r s).2 = Err (rate_limited (lit "rate limit exceeded")).
Proof.
  intros [H1 H2] Hc Hr Hk Hrow. unfold fetch_private_group_state.
  rewrite (sm_bind_ok _ _ s s h) by (unfold lift, sm_lift; by rewrite H1).
  destruct (rate_limit_cases (lit "private-groups-fetch:" ++ h) s) as [(s1 & Er & Eg)|(s1 & Er)].
  2: { right. by rewrite (sm_bind_err _ _ _ _ _ Er). }
  left. rewrite (sm_bind_ok _ _ _ _ _ Er).
  rewrite (sm_bind_ok _ _ s1 s1 k) by (unfold lift, sm_lift; by rewrite H2). rewrite <- Eg in Hc, Hrow.
  rewrite (sm_bind_ok _ _ s1 s1 _) by by apply resolve_fetch_run.
  unfold query_groups, query, gets, lift, sm_lift, sm_ret, sm_bind. change (private_groups (st_db s1)) with (groups_of s1).
  by rewrite Hrow.
Qed.
(** ** Messages *)

Definition fetch_messages_uses (r : FetchPrivateGroupMessagesRequest) (h k : bytes) : Prop :=
  validate_sha256_hex (lit "membership_handle_sha256") (fm_membership_handle_sha256 r) = Ok h ∧
  decode_base64_exact (lit "fetch_key_base64") (fm_fetch_key_base64 r) PRIVATE_GROUP_AUTH_KEY_LEN = Ok k.

Definition item_of (place : bytes * Z) (r : GroupMessageRow) : PrivateGroupMessageItem :=
  mkGroupItem (gr_message_id r) place.1 (Z.to_N place.2) (Z.to_N (gr_sent_at_unix_ms r)) (gr_ciphertext_nonce_base64 r)
    (gr_ciphertext_base64 r) (gr_ciphertext_aad_base64 r) (gr_sender_hybrid_signature_base64 r) (gr_received_at r).

Lemma message_items_ok g e rs items : message_items g e rs = Ok items → items = map (item_of (g, e)) rs.
Proof.
  revert items. induction rs as [|r rs IH]; intros items; cbn [message_items]; [by intros [= <-]|].
  unfold message_item. destruct (_ <? 0)%Z; [done|]. destruct (message_items g e rs) as [l|]; [|done].
  intros [= <-]. cbn [map]. f_equal. by apply IH.
Qed.

Lemma message_items_run g e rs : Forall (λ r, 0 ≤ gr_sent_at_unix_ms r)%Z rs → message_items g e rs = Ok (map (item_of (g, e)) rs).
Proof.
  induction 1 as [|r rs Hr _ IH]; [done|]. cbn [message_items map]. unfold message_item.
  rewrite (proj2 (Z.ltb_ge _ _)) by done. by rewrite IH.
Qed.

Lemma fetch_messages_ok r (s s' : AppState) resp : fetch_private_group_messages r s = (s', Ok resp) →
  ∃ h k c, fetch_messages_uses r h k ∧ private_group_member_credentials (groups_of s) !! h = Some c ∧ gc_revoked_at c = None ∧
    gc_fetch_key_sha256 c = hex_lower (sha256 k) ∧ fg_group_id resp = gc_group_id c ∧ fg_epoch resp = Z.to_N (gc_epoch c) ∧
    fg_messages resp = map (item_of (gc_group_id c, gc_epoch c))
      (group_message_rows (gc_group_id c, gc_epoch c) (default 0%Z (fm_since_message_id r)) (groups_of s)).
Proof.
  unfold fetch_private_group_messages, query_groups. intros H. run1 H H1. run1 H Hq. run1 H H2. run1 H H0. run1 H H3.
  apply resolve_fetch_ok in H3 as (-> & c & Hc & Hr & Hk & ->). run1 H H4. run1 H H5. run1 H H6. injection H as <- <-.
  apply message_items_ok in H6. subst. unfold groups_of in *. rewrite (quiet_db _ _ Hq) in *.
  eexists _, _, _. split; [split; eassumption|]. eauto 10.
Qed.

Lemma fetch_messages_run r (s : AppState) h k c : groups_wf (groups_of s) → fetch_messages_uses r h k →
  private_group_member_credentials (groups_of s) !! h = Some c → gc_revoked_at c = None →
  gc_fetch_key_sha256 c = hex_lower (sha256 k) → (0 ≤ default 0 (fm_since_message_id r))%Z →
  (∃ resp, (fetch_private_group_messages r s).2 = Ok resp ∧ fg_group_id resp = gc_group_id c ∧ fg_epoch resp = Z.to_N (gc_epoch c) ∧
     fg_messages resp = map (item_of (gc_group_id c, gc_epoch c))
       (group_message_rows (gc_group_id c, gc_epoch c) (default 0%Z (fm_since_message_id r)) (groups_of s)))
  ∨ (fetch_private_group_messages r s).2 = Err (rate_limited (lit "rate limit exceeded")).
Proof.
  intros Hw [H1 H2] Hc Hr Hk Hs. unfold fetch_private_group_messages.
  rewrite (sm_bind_ok _ _ s s h) by (unfold lift, sm_lift; by rewrite H1).
  destruct (rate_limit_cases (lit "private-groups-message-fetch:" ++ h) s) as [(s1 & Er & Eg)|(s1 & Er)].
  2: { right. by rewrite (sm_bind_err _ _ _ _ _ Er). }
  left. rewrite (sm_bind_ok _ _ _ _ _ Er). rewrite (sm_bind_ok _ _ s1 s1 k) by (unfold lift, sm_lift; by rewrite H2).
  rewrite (sm_bind_ok _ _ s1 s1 tt) by (unfold reject_if; by rewrite (proj2 (Z.ltb_ge _ _))). rewrite <- Eg in Hc.
  rewrite (sm_bind_ok _ _ s1 s1 _) by by apply resolve_fetch_run.
  unfold query_groups, query, gets, lift, sm_lift, sm_ret, sm_bind. change (private_groups (st_db s1)) with (groups_of s1).
  rewrite Eg. cbn [fst snd]. rewrite message_items_run; [by eexists|]. apply list.Forall_forall. intros m [_ Hm]%list_elem_of_filter.
  by apply (gw_messages _ Hw) in Hm as (_ & ? & _).
Qed.

(** What an accepted message stored. *)
Lemma publish_message_ok request (s s' : AppState) resp : publish_private_group_message request s = (s', Ok resp) →
  ∃ e h k sent c, validate_private_group_epoch (pm_epoch request) = Ok e ∧
    validate_sha256_hex (lit "authorizing_membership_handle_sha256") (pm_authorizing_membership_handle_sha256 request) = Ok h ∧
    decode_base64_exact (lit "authorizing_fetch_key_base64") (pm_authorizing_fetch_key_base64 request) PRIVATE_GROUP_AUTH_KEY_LEN = Ok k ∧
    active_credential h (str_trim (pm_group_id request)) e (groups_of s) = Some c ∧ gc_fetch_key_sha256 c = hex_lower (sha256 k) ∧
    latest_epoch (str_trim (pm_group_id request)) (groups_of s) = Some e ∧ sent = Z.of_N (pm_sent_at_unix_ms request) ∧
    po_message_id resp = next_id (private_group_messages (groups_of s)) ∧
    groups_of s' = with_messages (insert_row (λ id, mkGroupMessage id (str_trim (pm_group_id request)) e sent
      (str_trim (pm_ciphertext_nonce_base64 request)) (str_trim (pm_ciphertext_base64 request))
      (str_trim (pm_ciphertext_aad_base64 request)) (str_trim (pm_sender_hybrid_signature_base64 request)) (st_utc s))
      (private_group_messages (groups_of s))).1 (groups_of s).
Proof.
  unfold publish_private_group_message, query_groups, execute_groups. intros H. run1 H Hq. run1 H H1. run1 H H2. run1 H H3.
  run1 H H4. run1 H H5. run1 H H6. run1 H H7. run1 H H8. run1 H H9. apply authorize_fetch_ok in H9 as (-> & Hl & c & Hc & Hk).
  run1 H H10. run1 H H11. run1 H H12. run1 H H13. injection H as <- <-.
  unfold groups_of in *. cbn [st_db set_db private_groups set_private_groups] in *. rewrite <- (quiet_utc _ _ Hq).
  rewrite (quiet_db _ _ Hq) in *.
  unfold i64_try_from in H11. destruct (_ <=? _); [done|]. injection H11 as <-.
  eexists _, _, _, _, _. split_and!; try eassumption; reflexivity.
Qed.
End Handlers.
