(* ===== verification/PrivateGroupRun.v ===== *)
(** * Private groups over sequences of requests

    The properties of the server's private-group storage, for every sequence
    of requests at every sequence of instants, and a concrete run. *)

From Stdlib Require Import Strings.Byte.
From stdpp Require Import sorting.
From S2P Require Import Prelude Bytes Errors Tlv Crypto Toy Alg ServerError Validation RequestAuth Caches Realtime ServerState ToyServer ServerFrame Contacts PrivateGroups PrivateGroupFacts.
Local Open Scope N_scope.

Lemma validate_sha256_hex_ok (field value v : bytes) :
  validate_sha256_hex field value = Ok v → v = to_ascii_lowercase (str_trim value).
Proof. unfold validate_sha256_hex. repeat case_match; try done. by intros [= <-]. Qed.

(** The handles of a normalised list are distinct. *)
Lemma normalized_handles raw seen ms : normalize_members_loop raw seen = Ok ms →
  NoDup (map mc_membership_handle_sha256 ms) ∧ ∀ m, m ∈ ms → mc_membership_handle_sha256 m ∉ seen.
Proof.
  revert seen ms. induction raw as [|r raw IH]; intros seen ms; cbn [normalize_members_loop].
  { intros [= <-]. split; [constructor|set_solver]. }
  intros H. inv_ok H. subst ms. destruct (IH _ _ E3) as [Hn Hs]. bool_to_prop. split.
  - cbn [map]. constructor; [|done]. intros (m & Em & Hm)%list_elem_of_fmap. apply (Hs _ Hm). cbn in Em. set_solver.
  - intros m [->|Hm]%elem_of_cons; [done|]. specialize (Hs _ Hm). set_solver.
Qed.

Lemma find_handle_elem ms m : NoDup (map mc_membership_handle_sha256 ms) → m ∈ ms →
  find_handle (mc_membership_handle_sha256 m) ms = Some m.
Proof.
  induction ms as [|x ms IH]; [set_solver|]. cbn [map]. intros [Hx Hn]%list.NoDup_cons Hm. rewrite find_handle_cons.
  apply elem_of_cons in Hm as [->|Hm]; [by rewrite decide_True|]. rewrite decide_False; [by apply IH|].
  intros E. apply Hx. rewrite E. apply list_elem_of_fmap. eauto.
Qed.

Lemma find_normalized raw ms m : normalize_private_group_members raw = Ok ms → m ∈ ms →
  find_handle (mc_membership_handle_sha256 m) ms = Some m.
Proof.
  unfold normalize_private_group_members. destruct (_ =? 0); [done|]. destruct (_ <? _); [done|].
  intros [Hn _]%normalized_handles. by apply find_handle_elem.
Qed.

Section Runs.
Context `{P : Primitives} `{V : Ed25519} `{B : Base64} `{X : Hex} `{I : HashIter} `{U : !Uuid}.

Lemma published_below (t : PrivateGroupTables) (g : bytes) (e : Z) : groups_wf t → published_epoch t g e →
  ∀ e', (1 ≤ e' ≤ e)%Z → published_epoch t g e'.
Proof.
  intros Hw Hp e' He'. remember (Z.to_nat (e - e')) as n eqn:Hn. revert e Hp He' Hn.
  induction n as [|n IH]; intros e Hp He' Hn; [by replace e' with e by lia|].
  apply (IH (e - 1)%Z); [|lia|lia]. apply (gw_epochs _ Hw); [done|lia].
Qed.

Lemma grows_wf (s s' : AppState) : grows_s s s' → groups_wf (groups_of s) → groups_wf (groups_of s').
Proof. intros Hg Hw. apply (Hg Hw). Qed.

(** C17: Over every sequence of requests the storage of private groups stays
    well formed: states once published are never changed or removed, the
    epochs of a group are consecutive from one, every state after the first was
    published by a credential of the epoch before that carried a publish key,
    and exactly the credentials of a group's latest epoch are active. *)
Theorem private_groups_invariant (l : list (Z * N * GroupRequest)) (s : AppState) : groups_wf (groups_of s) →
  let t' := groups_of (group_requests l s) in
  groups_wf t' ∧ private_group_states (groups_of s) ⊆ private_group_states t' ∧
  (∀ g e e', published_epoch t' g e → (1 ≤ e' ≤ e)%Z → published_epoch t' g e') ∧
  (∀ g e row, private_group_states t' !! (g, e) = Some row → (1 < e)%Z →
     ∃ c, private_group_member_credentials t' !! gs_published_by_membership_handle_sha256 row = Some c ∧
       gc_group_id c = g ∧ gc_epoch c = (e - 1)%Z ∧ is_Some (gc_publish_key_sha256 c)) ∧
  (∀ h c, private_group_member_credentials t' !! h = Some c →
     (gc_revoked_at c = None ↔ latest_epoch (gc_group_id c) t' = Some (gc_epoch c))).
Proof.
  intros Hw t'. destruct (group_requests_grows l s Hw) as [Hw' He]. fold t' in Hw', He. split_and!; [done|apply He|..].
  - intros g e e' Hp. by apply published_below.
  - intros g e row Hrow H1. destruct (gw_authority _ Hw' _ _ _ Hrow) as (c & Hc & Hg & Hep & Hk). exists c. split_and!; [done|done|lia|done].
  - intros h c Hc. apply (gw_credentials _ Hw' _ _ Hc).
Qed.

(** What a member publishes is what the other members read. After an
    accepted publication, and after any further requests that publish no newer
    epoch of the group, a member of the published list who presents its handle
    and the preimage of its fetch key obtains the group, the epoch and exactly
    the published commitment, nonce, ciphertext and associated data; only the
    rate limit can refuse it. *)
Theorem group_state_served (request : PublishPrivateGroupStateRequest) (s s1 : AppState) (r : PublishPrivateGroupStateResponse)
    (members : list PrivateGroupMemberCredentialRecord) (l : list (Z * N * GroupRequest)) (h k : bytes)
    (m : PrivateGroupMemberCredentialRecord) (fetch : FetchPrivateGroupStateRequest) :
  groups_wf (groups_of s) → publish_private_group_state request s = (s1, Ok r) →
  normalize_private_group_members (ps_members request) = Ok members →
  let g := str_trim (ps_group_id request) in let s2 := group_requests l s1 in
  latest_epoch g (groups_of s2) = Some (Z.of_N (ps_epoch request)) →
  m ∈ members → mc_membership_handle_sha256 m = h → fetch_uses fetch h k → mc_fetch_key_sha256 m = hex_lower (sha256 k) →
  (fetch_private_group_state fetch s2).2 = Ok (mkFetchedState g (ps_epoch request)
     (to_ascii_lowercase (str_trim (ps_state_commitment_sha256 request))) (str_trim (ps_ciphertext_nonce_base64 request))
     (str_trim (ps_ciphertext_base64 request)) (str_trim (ps_ciphertext_aad_base64 request)) (st_utc s)) ∨
  (fetch_private_group_state fetch s2).2 = Err (rate_limited (lit "rate limit exceeded")).
Proof.
  intros Hw Hpub Hms g s2 Hl Hm Hh Hf Hk. destruct (publish_state_ok _ _ _ _ Hw Hpub) as (e & h' & co & key & ms & [He _ Hco _ Hn Hs _]).
  rewrite Hms in Hn. injection Hn as <-. destruct (validate_epoch_range _ _ He) as [He1 Ee]. fold g in Hs.
  pose proof (grows_epoch_stored _ _ _ _ _ _ _ He1 Hs Hw) as [Hw1 _].
  destruct (group_requests_grows l s1 Hw1) as [Hw2 [E1 E2 _]]. fold s2 in Hw2, E1, E2.
  assert (Hfind : find_handle h members = Some m) by (subst h; by eapply find_normalized).
  assert (Hc1 : private_group_member_credentials (groups_of s1) !! h = Some (stored_credential g e (st_utc s) m))
    by (by rewrite (es_credentials _ _ _ _ _ _ _ Hs), Hfind).
  destruct (E2 _ _ Hc1) as (c & Hc & Eg & Eep & Ef & _ & _). cbn [stored_credential gc_group_id gc_epoch gc_fetch_key_sha256] in Eg, Eep, Ef.
  destruct (gw_credentials _ Hw2 _ _ Hc) as [_ Hr]. rewrite Eg, Eep, Hl in Hr.
  assert (Hrow : private_group_states (groups_of s2) !! (gc_group_id c, gc_epoch c) = Some
    (mkGroupState co (str_trim (ps_ciphertext_nonce_base64 request)) (str_trim (ps_ciphertext_base64 request))
       (str_trim (ps_ciphertext_aad_base64 request)) h' (st_utc s))).
  { rewrite Eg, Eep. eapply lookup_weaken; [|exact E1]. rewrite (es_states _ _ _ _ _ _ _ Hs). apply lookup_insert_eq. }
  destruct (fetch_state_run _ _ _ _ _ _ Hf Hc (proj2 Hr ltac:(by rewrite Ee)) ltac:(congruence) Hrow) as [H|H]; [left|by right].
  rewrite H, Eg, Eep, Ee. cbn. rewrite N2Z.id. by rewrite (validate_sha256_hex_ok _ _ _ Hco).
Qed.
(** ** Retired credentials *)

(** A credential whose group has moved on to another epoch. *)
Definition retired (h g : bytes) (e : Z) (t : PrivateGroupTables) : Prop :=
  ∃ c, private_group_member_credentials t !! h = Some c ∧ gc_group_id c = g ∧ gc_epoch c = e ∧ gc_revoked_at c ≠ None.

Lemma retired_inactive h g e t g' e' : retired h g e t → active_credential h g' e' t = None.
Proof.
  intros (c & Hc & _ & _ & Hr). unfold active_credential. rewrite Hc. cbn [mbind option_bind]. rewrite bool_decide_eq_false_2; [done|].
  by intros (_ & _ & ?).
Qed.

Lemma create_invite_ok request (s s' : AppState) resp : create_private_group_invite request s = (s', Ok resp) →
  ∃ e h c, validate_sha256_hex (lit "authorizing_membership_handle_sha256") (cp_authorizing_membership_handle_sha256 request) = Ok h ∧
    active_credential h (str_trim (cp_group_id request)) e (groups_of s) = Some c.
Proof.
  unfold create_private_group_invite. intros H. run1 H Hq. run1 H H1. run1 H H2. run1 H H3. run1 H H4. run1 H H5. run1 H H6.
  run1 H H7. run1 H H8. run1 H H9. run1 H H10. run1 H H11. apply authorize_capability_ok in H11 as (-> & _ & c & Hc & _).
  unfold purge_expired_private_group_invites, execute_groups in H10. run1 H10 Hn. apply execute_inv in H10 as [-> _].
  unfold groups_of, active_credential in *. cbn [st_db set_db private_groups set_private_groups on_invites private_group_member_credentials] in Hc.
  rewrite (quiet_db _ _ Hq) in Hc. eauto.
Qed.

(** C18: Publishing an epoch retires the credentials of the one before, for
    good. Once a group has reached another epoch than that of a stored
    credential, then after any further requests every operation that presents
    the credential's handle is refused: reading the state, reading messages,
    sending a message, creating an invite and publishing a state. *)
Theorem retired_credentials_refused (s : AppState) (h : bytes) (c : GroupCredentialRow) (l : list (Z * N * GroupRequest)) :
  groups_wf (groups_of s) → private_group_member_credentials (groups_of s) !! h = Some c →
  latest_epoch (gc_group_id c) (groups_of s) ≠ Some (gc_epoch c) →
  let s2 := group_requests l s in
  (∀ r k, fetch_uses r h k → is_ok (fetch_private_group_state r s2).2 = false) ∧
  (∀ r k, fetch_messages_uses r h k → is_ok (fetch_private_group_messages r s2).2 = false) ∧
  (∀ r, validate_sha256_hex (lit "authorizing_membership_handle_sha256") (pm_authorizing_membership_handle_sha256 r) = Ok h →
     is_ok (publish_private_group_message r s2).2 = false) ∧
  (∀ r, validate_sha256_hex (lit "authorizing_membership_handle_sha256") (cp_authorizing_membership_handle_sha256 r) = Ok h →
     is_ok (create_private_group_invite r s2).2 = false) ∧
  (∀ r, validate_sha256_hex (lit "authorizing_membership_handle_sha256") (ps_authorizing_membership_handle_sha256 r) = Ok h →
     is_ok (publish_private_group_state r s2).2 = false).
Proof.
  intros Hw Hc Hl s2. destruct (group_requests_grows l s Hw) as [Hw2 [_ E2 _]]. fold s2 in Hw2, E2.
  assert (Hret : retired h (gc_group_id c) (gc_epoch c) (groups_of s2)).
  { destruct (E2 _ _ Hc) as (c2 & Hc2 & Eg & Ee & _ & _ & Hr). exists c2. split_and!; [done..|]. intros Hn%Hr.
    apply (gw_credentials _ Hw _ _ Hc) in Hn. done. }
  pose proof Hret as (c2 & Hc2 & _ & _ & Hr2). split_and!.
  - intros r k [Hv _]. destruct (fetch_private_group_state r s2) as [s3 [resp|]] eqn:E; [|done].
    apply fetch_state_ok in E as (h' & k' & c' & row & [Hv' _] & Hc' & Hr' & _). congruence.
  - intros r k [Hv _]. destruct (fetch_private_group_messages r s2) as [s3 [resp|]] eqn:E; [|done].
    apply fetch_messages_ok in E as (h' & k' & c' & [Hv' _] & Hc' & Hr' & _). congruence.
  - intros r Hv. destruct (publish_private_group_message r s2) as [s3 [resp|]] eqn:E; [|done].
    apply publish_message_ok in E as (e & h' & k' & sent & c' & _ & Hv' & _ & Ha & _).
    rewrite Hv in Hv'. injection Hv' as <-. by rewrite (retired_inactive _ _ _ _ _ _ Hret) in Ha.
  - intros r Hv. destruct (create_private_group_invite r s2) as [s3 [resp|]] eqn:E; [|done].
    apply create_invite_ok in E as (e & h' & c' & Hv' & Ha).
    rewrite Hv in Hv'. injection Hv' as <-. by rewrite (retired_inactive _ _ _ _ _ _ Hret) in Ha.
  - intros r Hv. destruct (publish_private_group_state r s2) as [s3 [resp|]] eqn:E; [|done].
    apply publish_state_ok in E as (e & h' & co & key & ms & [_ Hv' _ _ _ Hs Hau]); [|done].
    rewrite Hv in Hv'. injection Hv' as <-. destruct Hau as [(_ & m & Hm & _)|(c' & Ha & _)].
    + by rewrite (es_fresh _ _ _ _ _ _ _ Hs _ _ Hm) in Hc2.
    + by rewrite (retired_inactive _ _ _ _ _ _ Hret) in Ha.
Qed.

(** ** Messages *)

Lemma elem_of_group_rows place since t r : r ∈ group_message_rows place since t ↔
  r ∈ rows (private_group_messages t) ∧ gr_group_id r = place.1 ∧ gr_epoch r = place.2 ∧ (since < gr_message_id r)%Z.
Proof. unfold group_message_rows. rewrite list_elem_of_filter. naive_solver. Qed.

Lemma filter_sorted_ids (p : GroupMessageRow → Prop) `{!∀ r, Decision (p r)} rs :
  StronglySorted Z.lt (map gr_message_id rs) → StronglySorted Z.lt (map gr_message_id (filter p rs)).
Proof.
  induction rs as [|r rs IH]; [done|]. cbn [map]. intros [Hs Hr]%StronglySorted_inv. rewrite filter_cons.
  destruct (decide (p r)); [|by apply IH]. cbn [map]. constructor; [by apply IH|].
  rewrite list.Forall_forall in *. intros n (r' & -> & [_ Hr']%list_elem_of_filter)%list_elem_of_fmap.
  apply Hr, list_elem_of_fmap. eauto.
Qed.

(** A message sent to a group reaches its members while the epoch lasts.
    After the server accepts a message, and after any further requests that
    publish no newer epoch, every member of the epoch that asks for what
    follows an earlier identifier obtains, in the order of the identifiers,
    this message with exactly the fields that were sent, together with nothing
    but messages of the group and the epoch; only the rate limit can refuse
    it. *)
Theorem group_messages_delivered (request : PublishPrivateGroupMessageRequest) (s s1 : AppState)
    (r : PublishPrivateGroupMessageResponse) (l : list (Z * N * GroupRequest)) (fetch : FetchPrivateGroupMessagesRequest)
    (h k : bytes) (c : GroupCredentialRow) :
  groups_wf (groups_of s) → publish_private_group_message request s = (s1, Ok r) →
  let g := str_trim (pm_group_id request) in let s2 := group_requests l s1 in
  active_credential h g (Z.of_N (pm_epoch request)) (groups_of s2) = Some c → fetch_messages_uses fetch h k →
  gc_fetch_key_sha256 c = hex_lower (sha256 k) →
  (0 ≤ default 0 (fm_since_message_id fetch) < po_message_id r)%Z →
  (∃ resp, (fetch_private_group_messages fetch s2).2 = Ok resp ∧
     StronglySorted Z.lt (map pi_message_id (fg_messages resp)) ∧
     (∀ item, item ∈ fg_messages resp → pi_group_id item = g ∧ pi_epoch item = pm_epoch request) ∧
     mkGroupItem (po_message_id r) g (pm_epoch request) (pm_sent_at_unix_ms request) (str_trim (pm_ciphertext_nonce_base64 request))
       (str_trim (pm_ciphertext_base64 request)) (str_trim (pm_ciphertext_aad_base64 request))
       (str_trim (pm_sender_hybrid_signature_base64 request)) (st_utc s) ∈ fg_messages resp) ∨
  (fetch_private_group_messages fetch s2).2 = Err (rate_limited (lit "rate limit exceeded")).
Proof.
  intros Hw Hpub g s2 Ha Hf Hk Hsince.
  destruct (publish_message_ok _ _ _ _ Hpub) as (e & h' & k' & sent & c' & He & _ & _ & _ & _ & Hl1 & -> & Hid & Et).
  destruct (validate_epoch_range _ _ He) as [He1 Ee]. fold g in Hl1, Et.
  pose proof (publish_message_grows request s) as Hg. rewrite Hpub in Hg. destruct (Hg Hw) as [Hw1 _].
  destruct (group_requests_grows l s1 Hw1) as [Hw2 [_ _ (new & Enew & _)]]. fold s2 in Hw2, Enew.
  apply active_credential_inv in Ha as (Hc & Eg & Eep & Hr).
  destruct (fetch_messages_run _ _ _ _ _ Hw2 Hf Hc Hr Hk (proj1 Hsince)) as [(resp & Hresp & _ & _ & Em)|H]; [left|by right].
  exists resp. split; [done|]. rewrite Em. split_and!.
  - rewrite map_map. change (map _ ?x) with (map gr_message_id x). apply filter_sorted_ids, (gw_order _ Hw2).
  - intros item (row & -> & _)%list_elem_of_fmap. rewrite Eg, Eep. simpl. by rewrite N2Z.id.
  - apply list_elem_of_fmap. eexists. split; [|apply elem_of_group_rows; split_and!].
    2: { rewrite Enew, Et. cbn [with_messages private_group_messages insert_row fst rows]. rewrite !elem_of_app. left. right. by apply list_elem_of_singleton. }
    + rewrite Eg, Eep, Hid, Ee. unfold item_of. simpl. by rewrite !N2Z.id.
    + by rewrite Eg.
    + simpl. congruence.
    + simpl. rewrite <- Hid. lia.
Qed.

(** What is unread when an epoch ends stays unread. A message that was
    stored for a group before a new epoch of it is published is in no answer to
    any later request for messages, whoever asks and with whatever
    credential. *)
Theorem group_messages_lost (request : PublishPrivateGroupStateRequest) (s s1 s3 : AppState) (r : PublishPrivateGroupStateResponse)
    (row : GroupMessageRow) (l : list (Z * N * GroupRequest)) (fetch : FetchPrivateGroupMessagesRequest)
    (resp : FetchPrivateGroupMessagesResponse) (item : PrivateGroupMessageItem) :
  groups_wf (groups_of s) → row ∈ rows (private_group_messages (groups_of s)) →
  gr_group_id row = str_trim (ps_group_id request) → publish_private_group_state request s = (s1, Ok r) →
  fetch_private_group_messages fetch (group_requests l s1) = (s3, Ok resp) → item ∈ fg_messages resp →
  pi_message_id item ≠ gr_message_id row.
Proof.
  intros Hw Hrow Hg Hpub Hf Hi Eid. destruct (publish_state_ok _ _ _ _ Hw Hpub) as (e & h' & co & key & ms & [He _ _ _ _ Hs _]).
  destruct (validate_epoch_range _ _ He) as [He1 _]. pose proof (grows_epoch_stored _ _ _ _ _ _ _ He1 Hs Hw) as [Hw1 _].
  destruct (group_requests_grows l s1 Hw1) as [Hw2 [E1 _ (new & Enew & Fnew & _)]].
  apply fetch_messages_ok in Hf as (h & k & c & _ & Hc & Hr & _ & _ & _ & Em). rewrite Em in Hi.
  apply list_elem_of_fmap in Hi as (row2 & -> & (Hrow2 & G2 & P2 & _)%elem_of_group_rows). cbn in Eid, G2, P2.
  (* the two rows are one *)
  assert (Hold : row ∈ rows (private_group_messages (groups_of s1))) by (by rewrite (es_messages _ _ _ _ _ _ _ Hs)).
  assert (row2 = row) as ->.
  { eapply (sorted_ids_inj gr_message_id (rows (private_group_messages (groups_of (group_requests l s1)))));
      [apply (gw_order _ Hw2)|done|rewrite Enew; apply elem_of_app; by left|done]. }
  (* its epoch is the latest one, which is later than the one it was stored in *)
  apply (gw_credentials _ Hw2 _ _ Hc) in Hr. rewrite <- G2, <- P2 in Hr. apply latest_some in Hr as [_ Hmax].
  assert (Hp : published_epoch (groups_of (group_requests l s1)) (gr_group_id row) e).
  { rewrite Hg. unfold published_epoch. eexists. eapply lookup_weaken; [|exact E1]. rewrite (es_states _ _ _ _ _ _ _ Hs). apply lookup_insert_eq. }
  apply Hmax in Hp. apply (gw_messages _ Hw) in Hrow as (Hp0 & _ & _). rewrite Hg in Hp0.
  destruct (es_next _ _ _ _ _ _ _ Hs) as [[Hn _]|Hn]; [by apply (proj1 (latest_none _ _) Hn (gr_epoch row))|].
  apply latest_some in Hn as [_ Hn]. apply Hn in Hp0. lia.
Qed.
End Runs.

(** ** A concrete group *)

Definition toy_member (n : N) (publishes : bool) : PrivateGroupMemberCredentialRecord :=
  mkMemberRecord (hex_lower (sha256 (toy_key n))) (hex_lower (sha256 (toy_key (n + 100)))) (hex_lower (sha256 (toy_key (n + 200))))
    (if publishes then Some (hex_lower (sha256 (toy_key (n + 300)))) else None).

Definition toy_publish (epoch : N) (author : N) (members : list PrivateGroupMemberCredentialRecord) : PublishPrivateGroupStateRequest :=
  mkPublishState (lit "group") epoch (replicate 64 x61) (b64_encode (replicate 12 x01)) (b64_encode (lit "state"))
    (b64_encode (lit "aad")) (hex_lower (sha256 (toy_key author))) (b64_encode (toy_key (author + 300))) members.

Definition toy_message (epoch : N) (author : N) : PublishPrivateGroupMessageRequest :=
  mkPublishMessage (lit "group") epoch 77 (b64_encode (replicate 12 x02)) (b64_encode (lit "hello")) (b64_encode (lit "aad"))
    (b64_encode (replicate 70 x03)) (hex_lower (sha256 (toy_key author))) (b64_encode (toy_key (author + 200))).

Definition toy_group_start : @AppState Toy := toy_state (1000 * NANOS) 0 toy_db.

(** The founder publishes the first epoch with one more member, who sends a
    message and is not part of the second epoch. *)
Definition toy_founding := publish_private_group_state (toy_publish 1 1 [toy_member 1 true; toy_member 2 false]) toy_group_start.
Definition toy_sending := publish_private_group_message (toy_message 1 2) toy_founding.1.
Definition toy_removal := publish_private_group_state (toy_publish 2 1 [toy_member 3 true]) toy_sending.1.

Definition toy_fetch (n : N) : FetchPrivateGroupStateRequest :=
  mkFetchState (hex_lower (sha256 (toy_key n))) (b64_encode (toy_key (n + 200))).
Definition toy_fetch_messages (n : N) : FetchPrivateGroupMessagesRequest :=
  mkFetchMessages (hex_lower (sha256 (toy_key n))) (b64_encode (toy_key (n + 200))) None.

Lemma toy_group_accepted : is_ok toy_founding.2 && is_ok toy_sending.2 && is_ok toy_removal.2 = true.
Proof. vm_compute. reflexivity. Qed.

Lemma toy_founding_ok : is_ok toy_founding.2 = true.
Proof. pose proof toy_group_accepted as H. by apply andb_true_iff in H as [[? _]%andb_true_iff _]. Qed.
Lemma toy_sending_ok : is_ok toy_sending.2 = true.
Proof. pose proof toy_group_accepted as H. by apply andb_true_iff in H as [[_ ?]%andb_true_iff _]. Qed.
Lemma toy_removal_ok : is_ok toy_removal.2 = true.
Proof. pose proof toy_group_accepted as H. by apply andb_true_iff in H as [_ ?]. Qed.

Lemma toy_start_wf : groups_wf (groups_of toy_group_start).
Proof. exact empty_groups_wf. Qed.
Lemma toy_founding_wf : groups_wf (groups_of toy_founding.1).
Proof. exact (grows_wf _ _ (publish_state_grows _ toy_group_start) toy_start_wf). Qed.
Lemma toy_sending_wf : groups_wf (groups_of toy_sending.1).
Proof. exact (grows_wf _ _ (publish_message_grows _ toy_founding.1) toy_founding_wf). Qed.
Lemma toy_removal_wf : groups_wf (groups_of toy_removal.1).
Proof. exact (grows_wf _ _ (publish_state_grows _ toy_sending.1) toy_sending_wf). Qed.

Definition toy_group_requests : list (Z * N * GroupRequest) :=
  [((1001 * NANOS)%Z, 1, PublishState (toy_publish 1 1 [toy_member 1 true; toy_member 2 false]));
   ((1002 * NANOS)%Z, 2, PublishMessage (toy_message 1 2));
   ((1003 * NANOS)%Z, 3, PublishState (toy_publish 2 1 [toy_member 3 true]))].

Lemma private_groups_invariant_witness :
  latest_epoch (lit "group") (groups_of (group_requests toy_group_requests toy_group_start)) = Some 2%Z ∧
  published_epoch (groups_of (group_requests toy_group_requests toy_group_start)) (lit "group") 1.
Proof.
  assert (Hl : latest_epoch (lit "group") (groups_of (group_requests toy_group_requests toy_group_start)) = Some 2%Z)
    by (vm_compute; reflexivity).
  split; [exact Hl|]. destruct (private_groups_invariant toy_group_requests toy_group_start toy_start_wf) as (_ & _ & H & _).
  apply (H (lit "group") 2%Z 1%Z); [apply latest_some in Hl as [Hp _]; exact Hp|lia].
Defined.

Lemma group_state_served_witness :
  let s2 := group_requests [((1001 * NANOS)%Z, 1, PublishMessage (toy_message 1 2))] toy_founding.1 in
  (fetch_private_group_state (toy_fetch 2) s2).2 = Ok (mkFetchedState (lit "group") 1 (replicate 64 x61)
    (b64_encode (replicate 12 x01)) (b64_encode (lit "state")) (b64_encode (lit "aad")) (1000 * NANOS)) ∨
  (fetch_private_group_state (toy_fetch 2) s2).2 = Err (rate_limited (lit "rate limit exceeded")).
Proof.
  apply (group_state_served (toy_publish 1 1 [toy_member 1 true; toy_member 2 false]) toy_group_start toy_founding.1
    (ok_val _ toy_founding_ok) [toy_member 1 true; toy_member 2 false] [((1001 * NANOS)%Z, 1, PublishMessage (toy_message 1 2))]
    (hex_lower (sha256 (toy_key 2))) (toy_key 202) (toy_member 2 false) (toy_fetch 2)).
  - exact toy_start_wf.
  - apply pair_ok, ok_val_spec.
  - vm_compute. reflexivity.
  - vm_compute. reflexivity.
  - right. left.
  - reflexivity.
  - split; vm_compute; reflexivity.
  - reflexivity.
Defined.

Lemma retired_credentials_refused_witness :
  is_ok (fetch_private_group_state (toy_fetch 2) toy_removal.1).2 = false ∧
  is_ok (fetch_private_group_messages (toy_fetch_messages 1) toy_removal.1).2 = false.
Proof.
  assert (Hc : ∀ n, n = 1 ∨ n = 2 → ∃ c, private_group_member_credentials (groups_of toy_removal.1) !! hex_lower (sha256 (toy_key n)) = Some c ∧
    latest_epoch (gc_group_id c) (groups_of toy_removal.1) ≠ Some (gc_epoch c)).
  { intros n [->| ->]; destruct (private_group_member_credentials (groups_of toy_removal.1) !! _) as [c|] eqn:E;
      vm_compute in E; try discriminate E; injection E as <-; eexists; (split; [reflexivity|]); vm_compute; discriminate. }
  destruct (Hc 2 (or_intror eq_refl)) as (c2 & H2 & L2). destruct (Hc 1 (or_introl eq_refl)) as (c1 & H1 & L1). split.
  - destruct (retired_credentials_refused toy_removal.1 _ c2 [] toy_removal_wf H2 L2) as (H & _).
    apply (H (toy_fetch 2) (toy_key 202)). split; vm_compute; reflexivity.
  - destruct (retired_credentials_refused toy_removal.1 _ c1 [] toy_removal_wf H1 L1) as (_ & H & _).
    apply (H (toy_fetch_messages 1) (toy_key 201)). split; vm_compute; reflexivity.
Defined.

Lemma group_messages_delivered_witness :
  (∃ resp, (fetch_private_group_messages (toy_fetch_messages 1) toy_sending.1).2 = Ok resp ∧
     mkGroupItem (po_message_id (ok_val _ toy_sending_ok)) (lit "group") 1 77 (b64_encode (replicate 12 x02)) (b64_encode (lit "hello"))
       (b64_encode (lit "aad")) (b64_encode (replicate 70 x03)) (1000 * NANOS) ∈ fg_messages resp) ∨
  (fetch_private_group_messages (toy_fetch_messages 1) toy_sending.1).2 = Err (rate_limited (lit "rate limit exceeded")).
Proof.
  destruct (active_credential (hex_lower (sha256 (toy_key 1))) (lit "group") 1 (groups_of toy_sending.1)) as [c|] eqn:Hc.
  2: { vm_compute in Hc. discriminate Hc. }
  assert (Hk : gc_fetch_key_sha256 c = hex_lower (sha256 (toy_key 201))) by (vm_compute in Hc; injection Hc as <-; vm_compute; reflexivity).
  destruct (group_messages_delivered (toy_message 1 2) toy_founding.1 toy_sending.1 (ok_val _ toy_sending_ok) [] (toy_fetch_messages 1)
    (hex_lower (sha256 (toy_key 1))) (toy_key 201) c toy_founding_wf (pair_ok _ _ (ok_val_spec _ _)) Hc
    ltac:(split; vm_compute; reflexivity) Hk ltac:(vm_compute; split; [discriminate|reflexivity])) as [(resp & H1 & _ & _ & H2)|H].
  - left. exists resp. split; [exact H1|exact H2].
  - right. exact H.
Defined.

(** The message of the removed member is stored, and the remaining member does
    not find it. *)
Lemma group_messages_lost_witness : ∃ row s3 resp,
  row ∈ rows (private_group_messages (groups_of toy_sending.1)) ∧
  fetch_private_group_messages (toy_fetch_messages 3) toy_removal.1 = (s3, Ok resp) ∧
  ∀ item, item ∈ fg_messages resp → pi_message_id item ≠ gr_message_id row.
Proof.
  destruct (rows (private_group_messages (groups_of toy_sending.1))) as [|row rs] eqn:Er; [vm_compute in Er; discriminate Er|].
  assert (Hg : gr_group_id row = lit "group") by (vm_compute in Er; injection Er as <- _; vm_compute; reflexivity).
  destruct (fetch_private_group_messages (toy_fetch_messages 3) toy_removal.1) as [s3 [resp|e]] eqn:Ef.
  2: { exfalso. apply (f_equal (λ p, is_ok p.2)) in Ef. vm_compute in Ef. discriminate Ef. }
  exists row, s3, resp. split; [left|]. split; [reflexivity|]. intros item Hi.
  apply (group_messages_lost (toy_publish 2 1 [toy_member 3 true]) toy_sending.1 toy_removal.1 s3 (ok_val _ toy_removal_ok) row []
    (toy_fetch_messages 3) resp item toy_sending_wf).
  - rewrite Er. left.
  - exact Hg.
  - apply pair_ok, ok_val_spec.
  - exact Ef.
  - exact Hi.
Defined.
