(* ===== verification/Objects.v ===== *)
(** * Profiles, files and backups ([handlers/profile.rs], [handlers/backups.rs], [blob_store.rs])

    What users leave at the server outside of the message queues: a profile
    with an optional avatar and username, encrypted files for another user, one
    encrypted backup, push tokens. Octets lie in the blob store under a key a
    row points to. Presence and typing indicators are switched off in the server
    and not modelled. *)

From Stdlib Require Import Strings.Byte.
From S2P Require Import ClientAuth Prelude Bytes Errors Tlv Crypto Toy Alg PqSig ServerError Validation RequestAuth Caches Realtime ServerState ToyServer ServerFrame ServerAuth Messaging PrekeyServer Contacts PrivateGroups.
Local Open Scope N_scope.

Definition MAX_FILE_BLOB_BYTES : N := 900000.
Definition MAX_BACKUP_BLOB_BYTES : N := 5000000.
Definition MAX_AVATAR_BLOB_BYTES : N := 262144.

(** ** Requests and responses ([types.rs]) *)

Record RegisterPushTokenResponse := mkPushRegistered {
  pt_user_id : bytes;
  pt_device_id : bytes;
  pt_provider : bytes;
  pt_registered_at : Z;
}.

Record FileUploadRequest := mkFileUpload {
  fu_recipient_user_id : bytes;
  fu_device_id : bytes;
  fu_mime_type : bytes;
  fu_file_bytes_base64 : bytes;
}.

Record FileUploadResponse := mkFileUploaded {
  fr_file_id : bytes;
  fr_owner_user_id : bytes;
  fr_recipient_user_id : bytes;
  fr_mime_type : bytes;
  fr_byte_len : N;
  fr_uploaded_at : Z;
}.

Record FileDownloadResponse := mkFileDownload {
  fd_file_id : bytes;
  fd_owner_user_id : bytes;
  fd_recipient_user_id : bytes;
  fd_mime_type : bytes;
  fd_file_bytes_base64 : bytes;
  fd_uploaded_at : Z;
}.

Record UpsertProfileRequest := mkProfileUpsert {
  po_display_name : option bytes;
  po_username : option bytes;
  po_username_lookup_enabled : option bool;
  po_avatar_mime : option bytes;
  po_avatar_bytes_base64 : option bytes;
}.

Record BackupUploadRequest := mkBackupUpload {
  bu_device_id : bytes;
  bu_backup_version : Z;
  bu_recovery_hint : option bytes;
  bu_encrypted_backup_bytes_base64 : bytes;
}.

Record BackupUploadResponse := mkBackupUploaded {
  br_backup_id : bytes;
  br_user_id : bytes;
  br_device_id : bytes;
  br_backup_version : Z;
  br_byte_len : N;
  br_uploaded_at : Z;
}.

Record BackupDownloadResponse := mkBackupDownload {
  bd_backup_id : bytes;
  bd_user_id : bytes;
  bd_device_id : bytes;
  bd_backup_version : Z;
  bd_recovery_hint : option bytes;
  bd_encrypted_backup_bytes_base64 : bytes;
  bd_uploaded_at : Z;
}.

Record UserProfileResponse := mkUserProfile {
  pr_user_id : bytes;
  pr_display_name : option bytes;
  pr_username : option bytes;
  pr_username_lookup_enabled : bool;
  pr_avatar_mime : option bytes;
  pr_avatar_bytes_base64 : option bytes;
  pr_sealed_delivery_token : option bytes;
  pr_updated_at : option Z;
}.

Record UsernameResolveResponse := mkUsernameResolved { ur_username : bytes; ur_user_id : bytes }.

Section Objects.
Context `{P : Primitives} `{V : Ed25519} `{B : Base64} `{X : Hex} `{I : HashIter} `{U : !Uuid}.
Local Open Scope sm_scope.

(** ** The blob store in memory *)

Definition blob_put (object_key bytes : bytes) : Handler unit :=
  sm_modify (λ s, set_blob_store (<[object_key := bytes]> (st_blob_store s)) s).

Definition blob_get (object_key : bytes) : Handler (option bytes) := gets (λ s, st_blob_store s !! object_key).

Definition blob_delete (object_key : bytes) : Handler unit :=
  sm_modify (λ s, set_blob_store (delete object_key (st_blob_store s)) s).

Definition execute_objects (f : ObjectTables → ObjectTables) : Handler unit :=
  execute (λ d, set_stored_objects (f (stored_objects d)) d).

Definition query_objects {A} (f : ObjectTables → A) : Handler A := query (λ d, f (stored_objects d)).

(** ** Push tokens *)

Definition register_push_token (user_id : bytes) (headers : HeaderMap) (request : RegisterPushTokenRequest)
    : Handler RegisterPushTokenResponse :=
  check_rate_limit (lit "push-token:" ++ user_id);;;
  lift (validate_id (lit "user_id") user_id);;;
  lift (validate_id (lit "device_id") (rpt_device_id request));;;
  payload <- lift (resolve_push_token_payload request);;
  let '(provider, token) := payload in
  token <- lift (validate_push_token provider token);;
  auth <- lift (parse_request_auth headers);;
  reject_if (negb (bool_decide (ra_user_id auth = user_id))) (bad_request (lit "auth user_id mismatch"));;;
  reject_if (negb (bool_decide (ra_device_id auth = rpt_device_id request)))
    (bad_request (lit "auth device_id must match request device_id"));;;
  auth_message <- lift (push_token_auth_message auth (rpt_device_id request) token);;
  verify_request_auth auth auth_message;;;
  ensure_user_exists user_id;;;
  now <- gets st_utc;;
  execute (λ d, set_push_tokens (<[(user_id, rpt_device_id request, PushProvider_as_str provider) := (token, now)]>
                                   (push_tokens d)) d);;;
  sm_ret (mkPushRegistered user_id (rpt_device_id request) (PushProvider_as_str provider) now).

(** ** Files *)

Definition file_object_key (file_id : bytes) : bytes := lit "files/" ++ file_id.

(** [INSERT INTO encrypted_files]; the identifier is the primary key. *)
Definition insert_file (file_id : bytes) (row : FileRow) : Handler unit :=
  existing <- query_objects (λ t, encrypted_files t !! file_id);;
  reject_if (bool_decide (is_Some existing)) database_error;;;
  execute_objects (λ t, mkObjects (<[file_id := row]> (encrypted_files t)) (encrypted_backups t)).

Definition upload_file (headers : HeaderMap) (request : FileUploadRequest) : Handler FileUploadResponse :=
  check_rate_limit (lit "files-upload:" ++ fu_recipient_user_id request);;;
  lift (validate_id (lit "recipient_user_id") (fu_recipient_user_id request));;;
  lift (validate_id (lit "device_id") (fu_device_id request));;;
  mime_type <- lift (validate_mime_type (lit "mime_type") (fu_mime_type request));;
  file_blob <- lift (decode_base64_range (lit "file_bytes_base64") (fu_file_bytes_base64 request) 1 MAX_FILE_BLOB_BYTES);;
  auth <- lift (parse_request_auth headers);;
  reject_if (negb (bool_decide (ra_device_id auth = fu_device_id request)))
    (bad_request (lit "auth device_id must match request device_id"));;;
  auth_message <- lift (file_upload_auth_message auth (fu_recipient_user_id request) file_blob mime_type);;
  verify_request_auth auth auth_message;;;
  ensure_user_exists (ra_user_id auth);;;
  ensure_user_exists (fu_recipient_user_id request);;;
  now <- gets st_utc;;
  u <- new_uuid;;
  let file_id := uuid_simple u in
  let object_key := file_object_key file_id in
  byte_len <- lift (i64_try_from (len file_blob) (internal (lit "file byte_len overflow")));;
  blob_put object_key file_blob;;;
  insert_file file_id (mkFile (ra_user_id auth) (fu_device_id request) (fu_recipient_user_id request) mime_type
    (Some object_key) [] byte_len now);;;
  sm_ret (mkFileUploaded file_id (ra_user_id auth) (fu_recipient_user_id request) mime_type (Z.to_N byte_len) now).

Definition download_file (file_id : bytes) (headers : HeaderMap) : Handler FileDownloadResponse :=
  check_rate_limit (lit "files-download:" ++ file_id);;;
  lift (validate_file_id file_id);;;
  auth <- lift (parse_request_auth headers);;
  auth_message <- lift (file_download_auth_message auth file_id);;
  verify_request_auth auth auth_message;;;
  ensure_user_exists (ra_user_id auth);;;
  row <- query_objects (λ t, encrypted_files t !! file_id);;
  row <- lift (ok_or row (not_found (lit "file not found")));;
  reject_if (negb (bool_decide (ra_user_id auth = fi_owner_user_id row))
             && negb (bool_decide (ra_user_id auth = fi_recipient_user_id row))) (not_found (lit "file not found"));;;
  file_blob <-
    match fi_object_key row with
    | Some object_key =>
        blob <- blob_get object_key;;
        lift (ok_or blob (not_found (lit "file not found")))
    | None => sm_ret (fi_file_blob row)
    end;;
  sm_ret (mkFileDownload file_id (fi_owner_user_id row) (fi_recipient_user_id row) (fi_mime_type row)
            (b64_encode file_blob) (fi_created_at row)).

(** ** Backups *)

Definition backup_object_key (user_id backup_id : bytes) : bytes :=
  lit "backups/" ++ user_id ++ lit "/" ++ backup_id ++ lit ".bin".

Definition backups_upload_message (auth : RequestAuth) (request : BackupUploadRequest) (blob_hash : bytes) : bytes :=
  lit "backups-upload:" ++ ra_user_id auth ++ lit ":" ++ ra_device_id auth ++ lit ":"
    ++ i64_to_string (ra_timestamp auth) ++ lit ":" ++ ra_nonce auth ++ lit ":"
    ++ i64_to_string (bu_backup_version request) ++ lit ":" ++ blob_hash.

(** [INSERT ... ON CONFLICT (user_id) DO UPDATE], which keeps [created_at]; the
    identifier is the primary key. *)
Definition upsert_backup (user_id : bytes) (row : BackupRow) : Handler unit :=
  taken <- query_objects (λ t, existsb (λ '(u, other), negb (bool_decide (u = user_id))
             && bool_decide (bk_backup_id other = bk_backup_id row)) (map_to_list (encrypted_backups t)));;
  reject_if taken database_error;;;
  execute_objects (λ t, mkObjects (encrypted_files t)
    (<[user_id := match encrypted_backups t !! user_id with
                  | Some old => mkBackup (bk_backup_id row) (bk_device_id row) (bk_backup_version row)
                                  (bk_blob_object_key row) (bk_byte_len row) (bk_recovery_hint row)
                                  (bk_created_at old) (bk_updated_at row)
                  | None => row
                  end]> (encrypted_backups t))).

Definition upload_backup (user_id : bytes) (headers : HeaderMap) (request : BackupUploadRequest)
    : Handler BackupUploadResponse :=
  check_rate_limit (lit "backup-upload:" ++ user_id);;;
  lift (validate_id (lit "user_id") user_id);;;
  lift (validate_id (lit "device_id") (bu_device_id request));;;
  reject_if (bu_backup_version request <=? 0)%Z (bad_request (lit "backup_version must be positive"));;;
  backup_blob <- lift (decode_base64_range (lit "encrypted_backup_bytes_base64")
    (bu_encrypted_backup_bytes_base64 request) 1 MAX_BACKUP_BLOB_BYTES);;
  auth <- lift (parse_request_auth headers);;
  reject_if (negb (bool_decide (ra_user_id auth = user_id))) (bad_request (lit "auth user_id mismatch"));;;
  reject_if (negb (bool_decide (ra_device_id auth = bu_device_id request)))
    (bad_request (lit "auth device_id must match request device_id"));;;
  let blob_hash := hex_lower (sha256 backup_blob) in
  verify_request_auth auth (backups_upload_message auth request blob_hash);;;
  ensure_user_exists user_id;;;
  now <- gets st_utc;;
  u <- new_uuid;;
  let backup_id := uuid_simple u in
  let object_key := backup_object_key user_id backup_id in
  byte_len <- lift (i64_try_from (len backup_blob) (internal (lit "backup byte_len overflow")));;
  blob_put object_key backup_blob;;;
  previous <- query_objects (λ t, encrypted_backups t !! user_id);;
  upsert_backup user_id (mkBackup backup_id (bu_device_id request) (bu_backup_version request) object_key byte_len
    (bu_recovery_hint request) now now);;;
  match previous with
  | Some previous =>
      if negb (bool_decide (bk_blob_object_key previous = object_key))
         || negb (bool_decide (bk_backup_id previous = backup_id))
      then blob_delete (bk_blob_object_key previous) else sm_ret tt
  | None => sm_ret tt
  end;;;
  sm_ret (mkBackupUploaded backup_id user_id (bu_device_id request) (bu_backup_version request) (Z.to_N byte_len) now).

Definition load_backup_response (user_id : bytes) : Handler BackupDownloadResponse :=
  row <- query_objects (λ t, encrypted_backups t !! user_id);;
  row <- lift (ok_or row (not_found (lit "backup not found")));;
  blob <- blob_get (bk_blob_object_key row);;
  blob <- lift (ok_or blob (not_found (lit "backup not found")));;
  sm_ret (mkBackupDownload (bk_backup_id row) user_id (bk_device_id row) (bk_backup_version row) (bk_recovery_hint row)
            (b64_encode blob) (bk_updated_at row)).

Definition backups_download_message (auth : RequestAuth) (user_id : bytes) : bytes :=
  lit "backups-download:" ++ ra_user_id auth ++ lit ":" ++ ra_device_id auth ++ lit ":"
    ++ i64_to_string (ra_timestamp auth) ++ lit ":" ++ ra_nonce auth ++ lit ":" ++ user_id.

Definition download_latest_backup (user_id : bytes) (headers : HeaderMap) : Handler BackupDownloadResponse :=
  check_rate_limit (lit "backup-download:" ++ user_id);;;
  lift (validate_id (lit "user_id") user_id);;;
  auth <- lift (parse_request_auth headers);;
  reject_if (negb (bool_decide (ra_user_id auth = user_id))) (bad_request (lit "auth user_id mismatch"));;;
  verify_request_auth auth (backups_download_message auth user_id);;;
  ensure_user_exists user_id;;;
  load_backup_response user_id.

Definition download_recovery_backup (user_id : bytes) : Handler BackupDownloadResponse :=
  check_rate_limit (lit "backup-recovery:" ++ user_id);;;
  lift (validate_id (lit "user_id") user_id);;;
  ensure_user_exists user_id;;;
  load_backup_response user_id.

(** ** Profiles *)

Definition avatar_object_key (user_id u : bytes) : bytes := lit "avatars/" ++ user_id ++ lit "/" ++ uuid_simple u.

Definition may_read_shared_profile (requester_user_id target_user_id : bytes) : Handler bool :=
  if bool_decide (requester_user_id = target_user_id) then sm_ret true
  else query (λ d, bool_decide (is_Some (contacts d !! (requester_user_id, target_user_id)))).

(** The unique index on [username_normalized] where it is not null. *)
Definition username_taken (user_id : bytes) (username : option bytes) (d : Db) : bool :=
  match username with
  | None => false
  | Some name => existsb (λ '(u, row), negb (bool_decide (u = user_id))
                   && bool_decide (pf_username_normalized row = Some name)) (map_to_list (user_profiles d))
  end.

Definition upsert_profile_row (user_id : bytes) (row : ProfileRow) : Handler unit :=
  taken <- query (username_taken user_id (pf_username_normalized row));;
  reject_if taken (conflict (lit "username is already claimed on this server"));;;
  execute (λ d, set_user_profiles (<[user_id := row]> (user_profiles d)) d).

(** The decoded avatar, which needs its media type and the other way round. *)
Definition profile_avatar (request : UpsertProfileRequest) : app (option bytes * option bytes) :=
  let? avatar_mime := validate_optional_mime_type (lit "avatar_mime") (po_avatar_mime request) in
  let? avatar_blob :=
    match po_avatar_bytes_base64 request with
    | Some value => let? b := decode_base64_range (lit "avatar_bytes_base64") value 1 MAX_AVATAR_BLOB_BYTES in Ok (Some b)
    | None => Ok None
    end in
  match avatar_blob, avatar_mime with
  | Some _, None => Err (bad_request (lit "avatar_mime is required when avatar_bytes_base64 is present"))
  | None, Some _ => Err (bad_request (lit "avatar_bytes_base64 is required when avatar_mime is present"))
  | _, _ => Ok (avatar_mime, avatar_blob)
  end.

Definition upsert_user_profile (user_id : bytes) (headers : HeaderMap) (request : UpsertProfileRequest)
    : Handler UserProfileResponse :=
  check_rate_limit (lit "profile-upsert:" ++ user_id);;;
  lift (validate_id (lit "user_id") user_id);;;
  display_name <- lift (validate_optional_profile_display_name (po_display_name request));;
  username <- lift (validate_optional_username (po_username request));;
  let username_lookup_enabled := bool_decide (is_Some username) && default true (po_username_lookup_enabled request) in
  avatar <- lift (profile_avatar request);;
  let '(avatar_mime, avatar_blob) := avatar in
  auth <- lift (parse_request_auth headers);;
  reject_if (negb (bool_decide (ra_user_id auth = user_id))) (bad_request (lit "auth user_id mismatch"));;;
  auth_message <- lift (profile_upsert_auth_message auth user_id display_name username username_lookup_enabled
                          avatar_mime avatar_blob);;
  verify_request_auth auth auth_message;;;
  ensure_user_exists user_id;;;
  now <- gets st_utc;;
  avatar_object_key <-
    match avatar_blob with
    | Some blob =>
        u <- new_uuid;;
        blob_put (avatar_object_key user_id u) blob;;;
        sm_ret (Some (avatar_object_key user_id u))
    | None => sm_ret None
    end;;
  previous_avatar_object_key <- query (λ d, user_profiles d !! user_id ≫= pf_avatar_object_key);;
  upsert_profile_row user_id (mkProfile display_name username username username_lookup_enabled avatar_mime None
    avatar_object_key now);;;
  match previous_avatar_object_key with
  | Some previous_key =>
      if bool_decide (avatar_object_key = Some previous_key) then sm_ret tt else blob_delete previous_key
  | None => sm_ret tt
  end;;;
  sealed_delivery_token <- ensure_sealed_delivery_token user_id;;
  sm_ret (mkUserProfile user_id display_name username username_lookup_enabled avatar_mime (b64_encode <$> avatar_blob)
            (Some (b64_encode sealed_delivery_token)) (Some now)).

(** The token, for those who may read the profile. *)
Definition shared_delivery_token (include : bool) (user_id : bytes) : Handler (option bytes) :=
  if include then token <- ensure_sealed_delivery_token user_id;; sm_ret (Some (b64_encode token)) else sm_ret None.

Definition get_user_profile (user_id : bytes) (headers : HeaderMap) : Handler UserProfileResponse :=
  check_rate_limit (lit "profile-get:" ++ user_id);;;
  lift (validate_id (lit "user_id") user_id);;;
  auth <- lift (parse_request_auth headers);;
  auth_message <- lift (profile_get_auth_message auth user_id);;
  verify_request_auth auth auth_message;;;
  ensure_user_exists (ra_user_id auth);;;
  ensure_user_exists user_id;;;
  include_shared_profile <- may_read_shared_profile (ra_user_id auth) user_id;;
  row <- query (λ d, user_profiles d !! user_id);;
  match row with
  | None =>
      sealed_delivery_token <- shared_delivery_token include_shared_profile user_id;;
      sm_ret (mkUserProfile user_id None None false None None sealed_delivery_token None)
  | Some row =>
      avatar_blob <-
        match pf_avatar_object_key row with
        | Some object_key =>
            blob <- blob_get object_key;;
            blob <- lift (ok_or blob (not_found (lit "profile avatar not found")));;
            sm_ret (Some blob)
        | None => sm_ret (pf_avatar_blob row)
        end;;
      sealed_delivery_token <- shared_delivery_token include_shared_profile user_id;;
      let shared {A} (o : option A) : option A := if include_shared_profile : bool then o else None in
      sm_ret (mkUserProfile user_id (shared (pf_display_name row)) (shared (pf_username row))
                (include_shared_profile && pf_username_lookup_enabled row && bool_decide (is_Some (pf_username row)))
                (shared (pf_avatar_mime row)) (shared (b64_encode <$> avatar_blob)) sealed_delivery_token
                (Some (pf_updated_at row)))
  end.

(** [WHERE username_normalized = $1 AND username_lookup_enabled = TRUE LIMIT 1]. *)
Definition username_rows (username : bytes) (d : Db) : list (bytes * ProfileRow) :=
  List.filter (λ '(_, row), bool_decide (pf_username_normalized row = Some username) && pf_username_lookup_enabled row)
    (map_to_list (user_profiles d)).

Definition resolve_username (username : bytes) : Handler UsernameResolveResponse :=
  check_rate_limit (lit "username-resolve");;;
  username <- lift (validate_username username);;
  row <- query (λ d, head (username_rows username d));;
  row <- lift (ok_or row (not_found (lit "username not found")));;
  name <- lift (ok_or (pf_username row.2) database_error);;
  sm_ret (mkUsernameResolved name row.1).

Definition get_username_bundle (username : bytes) : Handler BundleResponse :=
  check_rate_limit (lit "username-bundle");;;
  username <- lift (validate_username username);;
  row <- query (λ d, head (username_rows username d));;
  row <- lift (ok_or row (not_found (lit "username not found")));;
  load_bundle_response row.1 None.
End Objects.
