(* ===== verification/ObjectFacts.v ===== *)
(** * Facts on profiles, files and backups

    The part of the server the requests of [Objects] work on, what each request
    does to it, and the invariant: every key a row points to is in the blob
    store, no key is pointed to twice, and no username is claimed twice. *)

From Stdlib Require Import Strings.Byte.
From S2P Require Import ClientAuth Prelude Bytes Errors Tlv Crypto Toy Alg PqSig ServerError Validation RequestAuth Caches Realtime ServerState ToyServer ServerFrame ServerAuth Messaging PrekeyServer Contacts PrivateGroups Objects.
Local Open Scope N_scope.

(** ** The part of the state concerned *)

Record ObjectView := mkView {
  ov_users : gset bytes;
  ov_files : gmap bytes FileRow;
  ov_backups : gmap bytes BackupRow;
  ov_profiles : gmap bytes ProfileRow;
  ov_blobs : gmap bytes bytes;
}.

Definition view `{P : Primitives} (s : AppState) : ObjectView :=
  mkView (dom (users (st_db s))) (encrypted_files (stored_objects (st_db s))) (encrypted_backups (stored_objects (st_db s)))
    (user_profiles (st_db s)) (st_blob_store s).

Inductive Object : Type :=
| FileObject (file_id : bytes)
| BackupObject (user_id : bytes)
| AvatarObject (user_id : bytes).

Definition key_of (v : ObjectView) (o : Object) : option bytes :=
  match o with
  | FileObject f => ov_files v !! f ≫= fi_object_key
  | BackupObject u => bk_blob_object_key <$> ov_backups v !! u
  | AvatarObject u => ov_profiles v !! u ≫= pf_avatar_object_key
  end.

Record objects_wf (v : ObjectView) : Prop := {
  ow_stored : ∀ o k, key_of v o = Some k → is_Some (ov_blobs v !! k);
  ow_distinct : ∀ o o' k, key_of v o = Some k → key_of v o' = Some k → o = o';
  ow_usernames : ∀ u u' row row' name, ov_profiles v !! u = Some row → ov_profiles v !! u' = Some row' →
    pf_username_normalized row = Some name → pf_username_normalized row' = Some name → u = u';
  ow_normalized : ∀ u row, ov_profiles v !! u = Some row → pf_username row = pf_username_normalized row;
}.

Lemma empty_wf `{P : Primitives} (users : gset bytes) : objects_wf (mkView users ∅ ∅ ∅ ∅).
Proof.
  split.
  - by intros [f|u|u] k H.
  - by intros [f|u|u] o' k H.
  - by intros u u' row row' name H.
  - by intros u row H.
Qed.

(** ** Requests *)

Inductive ObjectRequest : Type :=
| PushToken (user_id : bytes) (headers : HeaderMap) (r : RegisterPushTokenRequest)
| UploadFile (headers : HeaderMap) (r : FileUploadRequest)
| DownloadFile (file_id : bytes) (headers : HeaderMap)
| UploadBackup (user_id : bytes) (headers : HeaderMap) (r : BackupUploadRequest)
| DownloadBackup (user_id : bytes) (headers : HeaderMap)
| RecoverBackup (user_id : bytes)
| UpsertProfile (user_id : bytes) (headers : HeaderMap) (r : UpsertProfileRequest)
| GetProfile (user_id : bytes) (headers : HeaderMap)
| ResolveUsername (username : bytes)
| UsernameBundle (username : bytes).

Definition drop_old (o : option bytes) (m : gmap bytes bytes) : gmap bytes bytes :=
  match o with Some k => delete k m | None => m end.

Definition put_new (new : option (bytes * bytes)) (m : gmap bytes bytes) : gmap bytes bytes :=
  match new with Some (k, b) => <[k := b]> m | None => m end.

(** What a request does to the view; the keys it writes are new. *)
Inductive object_step (q : ObjectRequest) (v : ObjectView) : ObjectView → Prop :=
| step_still : object_step q v v
| step_blob k b : ov_blobs v !! k = None →
    object_step q v (mkView (ov_users v) (ov_files v) (ov_backups v) (ov_profiles v) (<[k := b]> (ov_blobs v)))
| step_file id row k b : ov_files v !! id = None → fi_object_key row = Some k → ov_blobs v !! k = None →
    object_step q v (mkView (ov_users v) (<[id := row]> (ov_files v)) (ov_backups v) (ov_profiles v) (<[k := b]> (ov_blobs v)))
| step_backup u h r row b : q = UploadBackup u h r → ov_blobs v !! bk_blob_object_key row = None →
    object_step q v (mkView (ov_users v) (ov_files v) (<[u := row]> (ov_backups v)) (ov_profiles v)
      (drop_old (key_of v (BackupObject u)) (<[bk_blob_object_key row := b]> (ov_blobs v))))
| step_profile u h r row new : q = UpsertProfile u h r →
    pf_avatar_object_key row = fst <$> new → pf_username row = pf_username_normalized row →
    (∀ k b, new = Some (k, b) → ov_blobs v !! k = None) →
    (∀ u' row' name, u' ≠ u → ov_profiles v !! u' = Some row' → pf_username_normalized row = Some name →
       pf_username_normalized row' ≠ Some name) →
    object_step q v (mkView (ov_users v) (ov_files v) (ov_backups v) (<[u := row]> (ov_profiles v))
      (drop_old (key_of v (AvatarObject u)) (put_new new (ov_blobs v)))).

(** ** The invariant *)

(** The effect of a step on the keys, and on what they point to. *)
Record keys_step (v v' : ObjectView) (o : option Object) : Prop := {
  ks_other : ∀ o', o ≠ Some o' → key_of v' o' = key_of v o';
  ks_new : ∀ x k, o = Some x → key_of v' x = Some k → ov_blobs v !! k = None ∧ is_Some (ov_blobs v' !! k);
  ks_blobs : ∀ o' k, o ≠ Some o' → key_of v o' = Some k → ov_blobs v' !! k = ov_blobs v !! k;
}.

Lemma keys_step_wf (v v' : ObjectView) (o : option Object) : objects_wf v → keys_step v v' o →
  (∀ o k, key_of v' o = Some k → is_Some (ov_blobs v' !! k)) ∧
  (∀ o o' k, key_of v' o = Some k → key_of v' o' = Some k → o = o').
Proof.
  intros Hw [H1 H2 H3].
  assert (Hsplit : ∀ x, o = Some x ∨ o ≠ Some x).
  { intros x. destruct o as [y|]; [|by right]. assert (Hd : Decision (y = x)) by solve_decision. destruct Hd as [->|]; [by left|right; congruence]. }
  split.
  - intros x k Hk. destruct (Hsplit x) as [->|Hne]; [by apply (H2 x k)|].
    rewrite H1 in Hk by done. rewrite (H3 x k) by done. by apply (ow_stored v Hw x).
  - assert (Hfresh : ∀ x y k, o = Some x → o ≠ Some y → key_of v' x = Some k → key_of v' y = Some k → False).
    { intros x y k Hx Hy Hkx Hky. destruct (H2 x k Hx Hkx) as [Hnone _]. rewrite H1 in Hky by done.
      destruct (ow_stored v Hw y k Hky) as [b Hb]. congruence. }
    intros x y k Hx Hy. destruct (Hsplit x) as [Ex|Ex], (Hsplit y) as [Ey|Ey]; [congruence|exfalso; eauto..|].
    rewrite H1 in Hx, Hy by done. by apply (ow_distinct v Hw x y k).
Qed.

Ltac view_cbn := cbn [key_of ov_users ov_files ov_backups ov_profiles ov_blobs drop_old put_new mbind option_bind fmap option_fmap option_map fst snd].

(** The object a step writes. *)
Lemma step_keys (q : ObjectRequest) (v v' : ObjectView) : objects_wf v → object_step q v v' →
  ∃ o, keys_step v v' o ∧ (∀ u, o = Some (BackupObject u) → ∃ h r, q = UploadBackup u h r) ∧
    (∀ f, o = Some (FileObject f) → ov_files v !! f = None).
Proof.
  intros Hw Hs. assert (Hkeep : ∀ k k' b, ov_blobs v !! k = None → (∃ o, key_of v o = Some k') → <[k := b]> (ov_blobs v) !! k' = ov_blobs v !! k').
  { intros k k' b Hk [o Ho]. apply lookup_insert_ne. intros ->. destruct (ow_stored v Hw o k' Ho). congruence. }
  destruct Hs as [|k b Hk|id row k b Hid Hrow Hk|u h r row b -> Hk|u h r row new -> Hrow Hn Hnew Htaken].
  - exists None. split; [by split|]. by split; intros ? [=].
  - exists None. split; [|by split; intros ? [=]]. split; [done|done|]. intros o k' _ Ho. view_cbn. by apply Hkeep; [|exists o].
  - exists (Some (FileObject id)). split; [|split; [by intros ? [=]|by intros f [= <-]]]. split.
    + intros [f|u|u] Hne; try done. view_cbn. rewrite lookup_insert_ne by congruence. done.
    + intros x k' [= <-]. view_cbn. rewrite lookup_insert_eq. view_cbn. rewrite Hrow. intros [= <-]. by rewrite lookup_insert_eq.
    + intros o k' _ Ho. view_cbn. by apply Hkeep; [|exists o].
  - exists (Some (BackupObject u)). split; [|split; [intros ? [= <-]; by eexists _, _|by intros ? [=]]]. split.
    + intros [f|u'|u'] Hne; try done. view_cbn. rewrite lookup_insert_ne by congruence. done.
    + intros x k' [= <-]. view_cbn. rewrite lookup_insert_eq. intros [= <-]. split; [done|].
      destruct (ov_backups v !! u) as [old|] eqn:Eo; view_cbn; [|by rewrite lookup_insert_eq].
      rewrite lookup_delete_ne, lookup_insert_eq; [done|]. intros E.
      destruct (ow_stored v Hw (BackupObject u) (bk_blob_object_key old)) as [b' Hb']; [view_cbn; by rewrite Eo|]. congruence.
    + intros o k' Hne Ho. view_cbn. destruct (ov_backups v !! u) as [old|] eqn:Eo; view_cbn; [rewrite lookup_delete_ne|]; [by apply Hkeep; [|exists o]| |by apply Hkeep; [|exists o]].
      intros <-. apply Hne. f_equal. apply (ow_distinct v Hw _ _ (bk_blob_object_key old)); [view_cbn; by rewrite Eo|done].
  - exists (Some (AvatarObject u)). split; [|by split; intros ? [=]]. split.
    + intros [f|u'|u'] Hne; try done. view_cbn. rewrite lookup_insert_ne by congruence. done.
    + intros x k' [= <-]. view_cbn. rewrite lookup_insert_eq. view_cbn. rewrite Hrow. destruct new as [[k b]|]; [|done]. intros [= <-].
      specialize (Hnew k b eq_refl). split; [done|].
      destruct (ov_profiles v !! u ≫= pf_avatar_object_key) as [old|] eqn:Eo; view_cbn; [|by rewrite lookup_insert_eq].
      rewrite lookup_delete_ne, lookup_insert_eq; [done|]. intros ->.
      destruct (ow_stored v Hw (AvatarObject u) k Eo) as [b' Hb']. congruence.
    + intros o k' Hne Ho. view_cbn.
      assert (Hput : put_new new (ov_blobs v) !! k' = ov_blobs v !! k').
      { destruct new as [[k b]|]; [|done]. apply Hkeep; [by apply (Hnew k b)|by exists o]. }
      destruct (ov_profiles v !! u ≫= pf_avatar_object_key) as [old|] eqn:Eo; view_cbn; [|done].
      rewrite lookup_delete_ne; [done|]. intros <-. apply Hne. f_equal. by apply (ow_distinct v Hw _ _ old).
Qed.

Lemma object_step_wf (q : ObjectRequest) (v v' : ObjectView) : objects_wf v → object_step q v v' → objects_wf v'.
Proof.
  intros Hw Hs. destruct (step_keys q v v' Hw Hs) as (o & Hk & _). destruct (keys_step_wf v v' o Hw Hk) as [H1 H2].
  split; [done..| |]; destruct Hs as [| | | |u h r row new -> Hrow Hn Hnew Htaken]; try first [apply (ow_usernames v Hw)|apply (ow_normalized v Hw)]; view_cbn.
  - intros a a' ra ra' name Ha Ha' Hna Hna'. destruct (decide (u = a)) as [<-|Ea], (decide (u = a')) as [<-|Ea']; [done|..].
    + rewrite lookup_insert_eq in Ha. rewrite lookup_insert_ne in Ha' by done. injection Ha as <-. exfalso. by apply (Htaken a' ra' name).
    + rewrite lookup_insert_eq in Ha'. rewrite lookup_insert_ne in Ha by done. injection Ha' as <-. exfalso. by apply (Htaken a ra name).
    + rewrite lookup_insert_ne in Ha, Ha' by done. by apply (ow_usernames v Hw a a' ra ra' name).
  - intros a ra Ha. destruct (decide (u = a)) as [->|Ea].
    + rewrite lookup_insert_eq in Ha. by injection Ha as <-.
    + rewrite lookup_insert_ne in Ha by done. by apply (ow_normalized v Hw a).
Qed.

(** ** What the handlers do *)

Section Handlers.
Context `{P : Primitives} `{V : Ed25519} `{B : Base64} `{X : Hex} `{I : HashIter} `{U : !Uuid}.

Definition serve_object (q : ObjectRequest) (s : AppState) : AppState :=
  match q with
  | PushToken u h r => (register_push_token u h r s).1
  | UploadFile h r => (upload_file h r s).1
  | DownloadFile f h => (download_file f h s).1
  | UploadBackup u h r => (upload_backup u h r s).1
  | DownloadBackup u h => (download_latest_backup u h s).1
  | RecoverBackup u => (download_recovery_backup u s).1
  | UpsertProfile u h r => (upsert_user_profile u h r s).1
  | GetProfile u h => (get_user_profile u h s).1
  | ResolveUsername n => (resolve_username n s).1
  | UsernameBundle n => (get_username_bundle n s).1
  end.

(** The key a request would write. *)
Definition next_uuid (s : AppState) : bytes := (uuid_v4 (st_rng s)).1.

Definition next_key (q : ObjectRequest) (s : AppState) : option bytes :=
  match q with
  | UploadFile _ _ => Some (file_object_key (uuid_simple (next_uuid s)))
  | UploadBackup u _ _ => Some (backup_object_key u (uuid_simple (next_uuid s)))
  | UpsertProfile u _ _ => Some (avatar_object_key u (next_uuid s))
  | _ => None
  end.

(** The identifier drawn is new: no object lies under the key. *)
Definition draws_fresh (q : ObjectRequest) (s : AppState) : Prop :=
  match next_key q s with Some k => st_blob_store s !! k = None | None => True end.

(** Nothing but the rate limiter and the replay cache changed. *)
Definition calm : relation AppState := λ s s', ∃ l c, s' = set_rate_limiter l (set_auth_replay c s).

#[export] Instance calm_preorder : PreOrder calm.
Proof.
  split.
  - intros []. by eexists _, _.
  - intros ? ? ? (l1 & c1 & ->) (l2 & c2 & ->). by eexists l2, c2.
Qed.

Lemma calm_check_rate_limit (key : bytes) : steps calm (check_rate_limit key).
Proof.
  intros s. unfold check_rate_limit. destruct (allow_in_memory _ _ _) as [l ok]. exists l, (st_auth_replay s). by destruct s.
Qed.

Lemma calm_observe_nonce (user_id nonce : bytes) : steps calm (observe_nonce user_id nonce).
Proof.
  intros s. unfold observe_nonce. destruct (observe _ _ _ _) as [c ok]. exists (st_rate_limiter s), c. by destruct s.
Qed.

Lemma calm_verify_request_auth (auth : RequestAuth) (message : bytes) : steps calm (verify_request_auth auth message).
Proof.
  unfold verify_request_auth, verify_request_auth_any.
  repeat first
    [ apply steps_bind; [apply _| |intros ?]
    | apply steps_gets, _ | apply steps_query, _ | apply steps_reject_if, _ | apply steps_fail, _
    | apply calm_observe_nonce | case_match ].
Qed.

(** The view is unchanged. *)
Definition still : relation AppState := λ s s', view s' = view s.

#[export] Instance still_preorder : PreOrder still.
Proof. split; [by intros s|]. intros s1 s2 s3 H1 H2. unfold still in *. congruence. Qed.

#[export] Instance still_coarse : Coarse still.
Proof. by intros s s' (g & l & c & ->). Qed.

#[export] Instance still_rollback : Rollback still.
Proof. intros s s' H. unfold still, view in *. cbn. by injection H as _ _ _ _ ->. Qed.

Lemma calm_still s s' : calm s s' → still s s'.
Proof. by intros (l & c & ->). Qed.

Lemma still_ensure_sealed_delivery_token (user_id : bytes) : steps still (ensure_sealed_delivery_token user_id).
Proof.
  unfold ensure_sealed_delivery_token, generate_sealed_delivery_token. steps. unfold still, view. cbn. by rewrite dom_alter_L.
Qed.

Lemma still_load_bundle_response (user_id : bytes) (device_id : option bytes) : steps still (load_bundle_response user_id device_id).
Proof. unfold load_bundle_response, select_one_time_key, select_available, mark_consumed. steps; try done. Qed.

Lemma still_blob_get (k : bytes) : steps still (blob_get k).
Proof. apply steps_gets, _. Qed.

Lemma still_load_backup_response (user_id : bytes) : steps still (load_backup_response user_id).
Proof. unfold load_backup_response, blob_get, query_objects. steps. Qed.

Hint Resolve still_ensure_sealed_delivery_token still_load_bundle_response still_blob_get still_load_backup_response : steps.

(** A calm part of a handler before the rest. *)
Lemma calm_bind {A C} (Q : AppState → Prop) (s0 s : AppState) (c : Handler A) (k : A → Handler C) :
  calm s0 s → steps calm c → (∀ s', calm s0 s' → Q s') →
  (∀ s1 a, calm s0 s1 → c s = (s1, Ok a) → Q (k a s1).1) → Q (sm_bind c k s).1.
Proof.
  intros H0 Hc HQ Hk. unfold sm_bind. specialize (Hc s). destruct (c s) as [s1 [a|e]]; simpl in *.
  - apply Hk; [|done]. by etrans.
  - apply HQ. by etrans.
Qed.

Lemma calm_object_step (q : ObjectRequest) (s s' : AppState) : calm s s' → object_step q (view s) (view s').
Proof. intros H. rewrite (calm_still _ _ H). constructor. Qed.

Lemma still_object_step (q : ObjectRequest) (v : ObjectView) (s s' : AppState) :
  still s s' → object_step q v (view s) → object_step q v (view s').
Proof. by intros ->. Qed.

Ltac calm_part :=
  first [apply calm_check_rate_limit|apply calm_verify_request_auth|apply steps_lift, _|apply steps_reject_if, _
        |apply steps_ensure_user_exists, _|apply steps_gets, _|apply steps_query, _].

(** The calm parts of a handler, up to the first that is not. *)
Ltac calm1 q s :=
  apply (calm_bind (λ s', object_step q (view s) (view s')) s);
  [solve [assumption|reflexivity]|calm_part|intros ? ?; by apply calm_object_step|
   let s1 := fresh "s" in let a := fresh "a" in let Hc := fresh "Hc" in let Ha := fresh "Ha" in intros s1 a Hc Ha].

Lemma upload_file_step (h : HeaderMap) (r : FileUploadRequest) (s : AppState) : draws_fresh (UploadFile h r) s →
  object_step (UploadFile h r) (view s) (view (upload_file h r s).1).
Proof.
  intros Hf. unfold upload_file. repeat calm1 (UploadFile h r) s.
  match goal with H : calm s ?s1 |- context [sm_bind new_uuid _ ?s1] => destruct H as (l & c & ->) end.
  unfold draws_fresh, next_key, next_uuid in Hf. unfold sm_bind at 1, new_uuid. cbn [st_rng set_rate_limiter set_auth_replay].
  destruct (uuid_v4 (st_rng s)) as [u g]. cbn [fst] in Hf.
  unfold sm_bind at 1, lift, sm_lift, i64_try_from. destruct (_ <=? _); [apply still_object_step with s; [done|constructor]|].
  unfold insert_file, blob_put, query_objects, query, gets, reject_if, execute_objects, execute, sm_modify, sm_bind, fail, sm_err, sm_ret.
  cbn [st_db set_db set_rate_limiter set_auth_replay set_rng set_blob_store st_blob_store].
  destruct (bool_decide (is_Some (encrypted_files _ !! _))) eqn:Hid.
  - exact (step_blob _ (view s) _ _ Hf).
  - apply bool_decide_eq_false, eq_None_not_Some in Hid. by refine (step_file _ (view s) _ _ _ _ Hid _ Hf).
Qed.

Ltac state_cbn :=
  cbn [st_db set_db set_rate_limiter set_auth_replay set_rng set_blob_store st_blob_store bk_backup_id bk_blob_object_key
       stored_objects set_stored_objects encrypted_files encrypted_backups user_profiles set_user_profiles users fst snd
       pf_username_normalized].

Lemma fresh_differs (v : ObjectView) (o : Object) (k k' : bytes) :
  objects_wf v → key_of v o = Some k → ov_blobs v !! k' = None → k ≠ k'.
Proof. intros Hw Ho Hk ->. destruct (ow_stored v Hw o k' Ho). congruence. Qed.

Lemma upload_backup_step (u : bytes) (h : HeaderMap) (r : BackupUploadRequest) (s : AppState) :
  objects_wf (view s) → draws_fresh (UploadBackup u h r) s →
  object_step (UploadBackup u h r) (view s) (view (upload_backup u h r s).1).
Proof.
  intros Hw Hf. unfold upload_backup. repeat calm1 (UploadBackup u h r) s.
  match goal with H : calm s ?s1 |- context [sm_bind new_uuid _ ?s1] => destruct H as (l & c & ->) end.
  unfold draws_fresh, next_key, next_uuid in Hf. unfold sm_bind at 1, new_uuid. cbn [st_rng set_rate_limiter set_auth_replay].
  destruct (uuid_v4 (st_rng s)) as [id g]. cbn [fst] in Hf. set (key := backup_object_key u (uuid_simple id)) in *.
  unfold sm_bind at 1, lift, sm_lift, i64_try_from. destruct (_ <=? _); [apply still_object_step with s; [done|constructor]|].
  unfold upsert_backup, blob_put, blob_delete, query_objects, query, gets, reject_if, execute_objects, execute, sm_modify, sm_bind, fail, sm_err, sm_ret.
  state_cbn. destruct (existsb _ _); [exact (step_blob _ (view s) _ _ Hf)|]. state_cbn.
  assert (Hold : ∀ old, encrypted_backups (stored_objects (st_db s)) !! u = Some old → bk_blob_object_key old ≠ key).
  { intros old Eo. apply (fresh_differs (view s) (BackupObject u)); [done|cbn [key_of view ov_backups]; by rewrite Eo|done]. }
  pose proof (λ row b, step_backup (UploadBackup u h r) (view s) u h r row b eq_refl) as Hstep.
  cbn [key_of view ov_backups] in Hstep.
  destruct (encrypted_backups (stored_objects (st_db s)) !! u) as [old|].
  - rewrite bool_decide_eq_false_2 by by apply Hold. cbn [negb orb]. by refine (Hstep (mkBackup _ _ _ key _ _ _ _) _ Hf).
  - by refine (Hstep (mkBackup _ _ _ key _ _ _ _) _ Hf).
Qed.

Lemma username_free (u : bytes) (name : option bytes) (d : Db) : username_taken u name d = false →
  ∀ u' row' n, u' ≠ u → user_profiles d !! u' = Some row' → name = Some n → pf_username_normalized row' ≠ Some n.
Proof.
  intros H u' row' n Hne Hrow -> Hn. unfold username_taken in H.
  apply not_true_iff_false in H. apply H, existsb_exists. exists (u', row').
  split; [by apply list_elem_of_In, elem_of_map_to_list|]. by rewrite bool_decide_eq_false_2, bool_decide_eq_true_2.
Qed.

(** The part of the upsert from the old key on, after the new avatar was put. *)
Lemma store_profile_step {A : Type} (u : bytes) (h : HeaderMap) (r : UpsertProfileRequest) (row : ProfileRow) (new : option (bytes * bytes))
    (rest : Handler A) (s s1 : AppState) : let q := UpsertProfile u h r in
  objects_wf (view s) → st_db s1 = st_db s → st_blob_store s1 = put_new new (st_blob_store s) →
  (∀ k b, new = Some (k, b) → st_blob_store s !! k = None) →
  pf_avatar_object_key row = fst <$> new → pf_username row = pf_username_normalized row → steps still rest →
  object_step q (view s) (view ((previous_avatar_object_key <- query (λ d, user_profiles d !! u ≫= pf_avatar_object_key);;
    upsert_profile_row u row;;;
    match previous_avatar_object_key with
    | Some previous_key =>
        if bool_decide (pf_avatar_object_key row = Some previous_key) then sm_ret tt else blob_delete previous_key
    | None => sm_ret tt
    end;;; rest) s1)%sm.1).
Proof.
  intros q Hw Hdb Hb Hnew Hkey Hname Hrest. unfold upsert_profile_row, blob_delete, query, gets, reject_if, execute, sm_modify, sm_bind, fail, sm_err, sm_ret.
  rewrite Hdb. destruct (username_taken _ _ _) eqn:Et.
  - assert (Hv : view s1 = mkView (ov_users (view s)) (ov_files (view s)) (ov_backups (view s)) (ov_profiles (view s))
                      (put_new new (ov_blobs (view s)))) by (unfold view; by rewrite Hdb, Hb).
    cbn [fst]. rewrite Hv. destruct new as [[k b]|]; [|constructor]. constructor. by apply (Hnew k b).
  - pose proof (step_profile q (view s) u h r row new eq_refl Hkey Hname Hnew (username_free u _ _ Et)) as Hstep.
    cbn [key_of view ov_profiles ov_users ov_files ov_backups ov_blobs] in Hstep.
    assert (Hold : ∀ k, user_profiles (st_db s) !! u ≫= pf_avatar_object_key = Some k → pf_avatar_object_key row ≠ Some k).
    { intros k Hk E. rewrite Hkey in E. destruct new as [[k' b]|]; [|done]. injection E as ->.
      by apply (fresh_differs (view s) (AvatarObject u) k k Hw Hk (Hnew k b eq_refl)). }
    destruct (user_profiles (st_db s) !! u ≫= pf_avatar_object_key) as [k|]; [rewrite bool_decide_eq_false_2 by by apply Hold|];
      (eapply still_object_step; [apply Hrest|]); unfold view; state_cbn; by rewrite Hb, ?Hdb.
Qed.

Lemma upsert_profile_step (u : bytes) (h : HeaderMap) (r : UpsertProfileRequest) (s : AppState) :
  objects_wf (view s) → draws_fresh (UpsertProfile u h r) s →
  object_step (UpsertProfile u h r) (view s) (view (upsert_user_profile u h r s).1).
Proof.
  intros Hw Hf. unfold upsert_user_profile. set (q := UpsertProfile u h r). repeat calm1 q s.
  destruct a3 as [mime blob]. repeat calm1 q s. destruct Hc9 as (l & c & ->). clear - Hw Hf.
  unfold draws_fresh, next_key, next_uuid, q in Hf. destruct blob as [b|].
  - unfold sm_bind at 1 2, new_uuid. cbn [st_rng set_rate_limiter set_auth_replay].
    destruct (uuid_v4 (st_rng s)) as [id g]. cbn [fst] in Hf. unfold blob_put, sm_modify, sm_bind at 1, sm_ret at 1.
    refine (store_profile_step u h r (mkProfile a1 a2 a2 _ mime None (Some (avatar_object_key u id)) a8)
              (Some (avatar_object_key u id, b)) _ s _ Hw _ _ _ _ _ _); [done..|by intros k b' [= <- <-]|done|done|].
    apply steps_bind; [apply _|apply still_ensure_sealed_delivery_token|intros ?; apply steps_ret, _].
  - refine (store_profile_step u h r (mkProfile a1 a2 a2 _ mime None None a8) None _ s _ Hw _ _ _ _ _ _); [done..|].
    apply steps_bind; [apply _|apply still_ensure_sealed_delivery_token|intros ?; apply steps_ret, _].
Qed.

(** The other requests leave the view as it is. *)
Lemma still_may_read (a b : bytes) : steps still (may_read_shared_profile a b).
Proof. unfold may_read_shared_profile. steps. Qed.

Lemma still_shared_delivery_token (include : bool) (u : bytes) : steps still (shared_delivery_token include u).
Proof.
  unfold shared_delivery_token. destruct include; [|apply steps_ret, _].
  apply steps_bind; [apply _|apply still_ensure_sealed_delivery_token|intros ?; apply steps_ret, _].
Qed.

Ltac still1 :=
  first
    [ apply still_ensure_sealed_delivery_token | apply still_load_bundle_response | apply still_blob_get
    | apply still_load_backup_response | apply still_shared_delivery_token | apply still_may_read
    | apply steps_quiet; [apply _|first [apply quiet_check_rate_limit|apply quiet_verify_request_auth]]
    | apply steps_ret, _ | apply steps_fail, _ | apply steps_lift, _ | apply steps_gets, _ | apply steps_query, _
    | apply steps_reject_if, _ | apply steps_ensure_user_exists, _
    | apply steps_bind; [apply _| |intros ?]
    | case_match ].

Lemma other_requests_still (q : ObjectRequest) (s : AppState) :
  next_key q s = None → still s (serve_object q s).
Proof.
  intros Hq. destruct q as [u h r|h r|f h|u h r|u h|u|u h r|u h|n|n]; try discriminate Hq; cbn [serve_object];
    match goal with |- still _ (?h s).1 => enough (steps still h) as Hs by apply Hs end.
  - unfold register_push_token. repeat still1. by apply steps_execute.
  - unfold download_file, query_objects. repeat still1.
  - unfold download_latest_backup. repeat still1.
  - unfold download_recovery_backup. repeat still1.
  - unfold get_user_profile. repeat still1.
  - unfold resolve_username. repeat still1.
  - unfold get_username_bundle. repeat still1.
Qed.

Lemma serve_object_step (q : ObjectRequest) (s : AppState) :
  objects_wf (view s) → draws_fresh q s → object_step q (view s) (view (serve_object q s)).
Proof.
  intros Hw Hf. destruct (next_key q s) as [k|] eqn:Ek.
  - destruct q; try discriminate Ek; [by apply upload_file_step|by apply upload_backup_step|by apply upsert_profile_step].
  - rewrite (other_requests_still q s Ek). constructor.
Qed.

(** ** Runs of requests *)

Fixpoint object_requests (l : list (Z * N * ObjectRequest)) (s : AppState) : AppState :=
  match l with
  | [] => s
  | (utc, instant, q) :: l => object_requests l (serve_object q (set_clock utc instant s))
  end.

(** Every identifier drawn along the run is new. *)
Fixpoint draws_fresh_all (l : list (Z * N * ObjectRequest)) (s : AppState) : Prop :=
  match l with
  | [] => True
  | (utc, instant, q) :: l =>
      draws_fresh q (set_clock utc instant s) ∧ draws_fresh_all l (serve_object q (set_clock utc instant s))
  end.

Lemma object_requests_ind (Q : ObjectView → ObjectView → Prop) `{!PreOrder Q} (p : ObjectRequest → Prop) :
  (∀ q v v', p q → objects_wf v → object_step q v v' → Q v v') →
  ∀ l s, Forall (λ x, p x.2) l → objects_wf (view s) → draws_fresh_all l s →
    objects_wf (view (object_requests l s)) ∧ Q (view s) (view (object_requests l s)).
Proof.
  intros Hstep l. induction l as [|[[utc instant] q] l IH]; intros s Hp Hw Hf; [done|].
  apply list.Forall_cons in Hp as [Hq Hp]. destruct Hf as [Hf1 Hf2]. cbn [object_requests].
  assert (Hs : object_step q (view s) (view (serve_object q (set_clock utc instant s))))
    by exact (serve_object_step q (set_clock utc instant s) Hw Hf1).
  destruct (IH _ Hp (object_step_wf _ _ _ Hw Hs) Hf2) as [H1 H2]. split; [done|]. etrans; [by eapply Hstep|done].
Qed.
End Handlers.
