(* ===== verification/ObjectRun.v ===== *)
(** * What users find again at the server: backups, files, usernames

    The theorems on the requests of [Objects], over any later run of such
    requests in which no identifier is drawn twice. *)

From Stdlib Require Import Strings.Byte.
From S2P Require Import ClientAuth Prelude Bytes Errors Tlv Crypto Toy Alg PqSig ServerError Validation RequestAuth Caches Realtime ServerState ToyServer ServerFrame ServerAuth Messaging PrekeyServer Contacts PrivateGroups Objects ObjectFacts Oprf ToyDiscovery DiscoveryTickets.
Local Open Scope N_scope.

(** ** Frames *)

(** An object that is not written keeps its key and its octets. *)
Definition object_kept (o : Object) (v v' : ObjectView) : Prop :=
  key_of v' o = key_of v o ∧ ∀ k, key_of v o = Some k → ov_blobs v' !! k = ov_blobs v !! k.

Definition backup_kept (u : bytes) (v v' : ObjectView) : Prop :=
  object_kept (BackupObject u) v v' ∧ ov_backups v' !! u = ov_backups v !! u ∧ ov_users v' = ov_users v.

Definition file_kept (f : bytes) (v v' : ObjectView) : Prop :=
  is_Some (ov_files v !! f) →
  object_kept (FileObject f) v v' ∧ ov_files v' !! f = ov_files v !! f.

Definition profile_kept (u : bytes) (v v' : ObjectView) : Prop := ov_profiles v' !! u = ov_profiles v !! u.

#[export] Instance object_kept_preorder (o : Object) : PreOrder (object_kept o).
Proof.
  split; [by intros v|]. intros v1 v2 v3 [H1 H2] [H3 H4]. split; [congruence|].
  intros k Hk. rewrite H4 by congruence. by apply H2.
Qed.

#[export] Instance backup_kept_preorder (u : bytes) : PreOrder (backup_kept u).
Proof.
  split; [intros v; by split; [reflexivity|]|]. intros v1 v2 v3 (H1 & H2 & H3) (H4 & H5 & H6).
  split; [by etrans|]. split; congruence.
Qed.

#[export] Instance file_kept_preorder (f : bytes) : PreOrder (file_kept f).
Proof.
  split; [by intros v; split; [reflexivity|]|]. intros v1 v2 v3 H1 H2 Hs. destruct (H1 Hs) as [Ho E].
  destruct H2 as [Ho' E']; [by rewrite E|]. split; [by etrans|congruence].
Qed.

#[export] Instance profile_kept_preorder (u : bytes) : PreOrder (profile_kept u).
Proof. split; [by intros v|]. intros v1 v2 v3. unfold profile_kept. congruence. Qed.

Lemma unwritten_kept (v v' : ObjectView) (o : option Object) (x : Object) :
  keys_step v v' o → o ≠ Some x → object_kept x v v'.
Proof. intros [H1 _ H3] Hne. split; [by apply H1|]. intros k. by apply H3. Qed.

Lemma step_backup_kept (u : bytes) (q : ObjectRequest) (v v' : ObjectView) :
  (∀ h r, q ≠ UploadBackup u h r) → objects_wf v → object_step q v v' → backup_kept u v v'.
Proof.
  intros Hq Hw Hs. destruct (step_keys q v v' Hw Hs) as (o & Hk & Hb & _). split; [|split].
  - apply (unwritten_kept v v' o); [done|]. intros E. destruct (Hb u E) as (h & r & ->). by apply (Hq h r).
  - destruct Hs; try done. subst q. cbn. rewrite lookup_insert_ne; [done|]. intros ->. by apply (Hq h r).
  - by destruct Hs.
Qed.

Lemma step_file_kept (f : bytes) (q : ObjectRequest) (v v' : ObjectView) :
  objects_wf v → object_step q v v' → file_kept f v v'.
Proof.
  intros Hw Hs [row Hrow]. destruct (step_keys q v v' Hw Hs) as (o & Hk & _ & Hf). split.
  - apply (unwritten_kept v v' o); [done|]. intros E. specialize (Hf f E). congruence.
  - destruct Hs; try done. cbn. rewrite lookup_insert_ne; [done|]. congruence.
Qed.

Lemma step_profile_kept (u : bytes) (q : ObjectRequest) (v v' : ObjectView) :
  (∀ h r, q ≠ UpsertProfile u h r) → object_step q v v' → profile_kept u v v'.
Proof.
  intros Hq Hs. destruct Hs; try done. subst q. unfold profile_kept. cbn. rewrite lookup_insert_ne; [done|].
  intros ->. by apply (Hq h r).
Qed.

Section Runs.
Context `{P : Primitives} `{V : Ed25519} `{B : Base64} `{X : Hex} `{I : HashIter} `{U : !Uuid}.

(** ** Single requests *)

Lemma rate_limit_calm (key : bytes) (s : AppState) :
  (∃ l, check_rate_limit key s = (set_rate_limiter l s, Ok tt)) ∨
  ∃ s1, check_rate_limit key s = (s1, Err (rate_limited (lit "rate limit exceeded"))).
Proof. unfold check_rate_limit. destruct (allow_in_memory _ _ _) as [l [|]]; [left; by exists l|right; by exists (set_rate_limiter l s)]. Qed.

(** The verdict on a signature does not depend on the rate limiter. *)
Lemma verify_any_limiter (auth : RequestAuth) (m : bytes) (l : RateLimiter) (s : AppState) :
  (verify_request_auth auth m (set_rate_limiter l s)).2 = (verify_request_auth auth m s).2.
Proof.
  unfold verify_request_auth, verify_request_auth_any, gets, observe_nonce, query, gets, reject_if, fail, sm_err, sm_ret, sm_bind.
  cbn [st_utc st_auth_replay st_instant st_db set_rate_limiter set_auth_replay].
  destruct (_ <? _)%Z; [done|]. destruct (observe _ _ _ _) as [c fresh]. destruct (negb fresh); [done|].
  cbn [st_db set_auth_replay set_rate_limiter]. destruct (users (st_db s) !! _) as [row|]; [|done].
  cbn [st_db set_auth_replay set_rate_limiter].
  match goal with |- context [if negb ?b then _ else _] => destruct b end; [|done]. cbn [negb].
  by match goal with |- context [if negb ?b then _ else _] => destruct b end.
Qed.

Context `{BL : !Base64Laws B}.

(** What an accepted backup stored. *)
Lemma upload_backup_ok (u : bytes) (h : HeaderMap) (r : BackupUploadRequest) (s s1 : AppState) (resp : BackupUploadResponse) :
  objects_wf (view s) → draws_fresh (UploadBackup u h r) s → upload_backup u h r s = (s1, Ok resp) →
  ∃ row blob, ov_backups (view s1) !! u = Some row ∧ ov_blobs (view s1) !! bk_blob_object_key row = Some blob ∧
    b64_encode blob = bu_encrypted_backup_bytes_base64 r ∧ u ∈ ov_users (view s1) ∧
    Validation.validate_id (lit "user_id") u = Ok tt ∧
    mkBackupDownload (bk_backup_id row) u (bk_device_id row) (bk_backup_version row) (bk_recovery_hint row)
      (b64_encode blob) (bk_updated_at row) =
    mkBackupDownload (br_backup_id resp) u (bu_device_id r) (bu_backup_version r) (bu_recovery_hint r)
      (bu_encrypted_backup_bytes_base64 r) (br_uploaded_at resp).
Proof.
  intros Hw Hf H. pose proof (upload_backup_step u h r s Hw Hf) as Hstep. rewrite H in Hstep. cbn [fst] in Hstep.
  unfold upload_backup in H. run1 H H0. run1 H Hid. run1 H Hdev. run1 H Hver. run1 H Hblob. run1 H Hauth. run1 H Hu. run1 H Hd.
  run_ok H sv tv Hv. run1 H Huser. run1 H Hnow. run_ok H su uid Huu. run1 H Hlen. run_ok H sp tp Hp.
  apply decode_base64_range_iff in Hblob as [Hb64 _]; [|lia].
  assert (Hdb : st_db sp = st_db sv).
  { unfold blob_put, sm_modify in Hp. injection Hp as <- _. exact (quiet_db _ _ (steps_run _ _ _ _ _ quiet_new_uuid Huu)). }
  assert (Hsp : st_blob_store sp = <[backup_object_key u (uuid_simple uid) := a]> (st_blob_store su)) by
    (unfold blob_put, sm_modify in Hp; by injection Hp as <- _).
  pose proof (ow_stored _ (object_step_wf _ _ _ Hw Hstep) (BackupObject u)) as Hst.
  unfold upsert_backup, blob_delete, query_objects, query, gets, reject_if, execute_objects, execute, sm_modify, sm_bind, fail, sm_err, sm_ret in H.
  destruct (existsb _ _); [done|].
  destruct (encrypted_backups (stored_objects (st_db sp)) !! u) as [old|] eqn:Eo;
    [destruct (_ || _)|]; injection H as <- <-; revert Hst; unfold view; cbn; rewrite !lookup_insert_eq, ?Eo, ?Hsp; cbn;
    intros Hst; specialize (Hst _ eq_refl); (eexists _, a; split; [reflexivity|]); cbn;
    (split; [|split_and!; [done|rewrite Hdb; by apply elem_of_dom, Huser|done|by rewrite <- Hb64]]).
  - destruct (decide (bk_blob_object_key old = backup_object_key u (uuid_simple uid))) as [E|E].
    + rewrite E, lookup_delete_eq in Hst. by destruct Hst.
    + by rewrite lookup_delete_ne, lookup_insert_eq.
  - by rewrite lookup_insert_eq.
  - by rewrite lookup_insert_eq.
Qed.

(** What an accepted file stored. *)
Lemma upload_file_ok (h : HeaderMap) (r : FileUploadRequest) (s s1 : AppState) (resp : FileUploadResponse) :
  upload_file h r s = (s1, Ok resp) →
  ∃ row k blob, ov_files (view s1) !! fr_file_id resp = Some row ∧ fi_object_key row = Some k ∧
    ov_blobs (view s1) !! k = Some blob ∧ (∃ g, fr_file_id resp = uuid_simple (uuid_v4 g).1) ∧
    fi_owner_user_id row = fr_owner_user_id resp ∧ fi_recipient_user_id row = fu_recipient_user_id r ∧
    mkFileDownload (fr_file_id resp) (fi_owner_user_id row) (fi_recipient_user_id row) (fi_mime_type row) (b64_encode blob)
      (fi_created_at row) =
    mkFileDownload (fr_file_id resp) (fr_owner_user_id resp) (fu_recipient_user_id r) (fr_mime_type resp)
      (fu_file_bytes_base64 r) (fr_uploaded_at resp).
Proof.
  intros H. unfold upload_file in H. run1 H H0. run1 H Hid. run1 H Hdev. run1 H Hmime. run1 H Hblob. run1 H Hauth. run1 H Hd. run1 H Hm.
  run_ok H sv tv Hv. run1 H Hu1. run1 H Hu2. run1 H Hnow. run_ok H su uid Huu. run1 H Hlen. run_ok H sp tp Hp.
  apply decode_base64_range_iff in Hblob as [Hb64 _]; [|lia].
  unfold insert_file, query_objects, query, gets, reject_if, execute_objects, execute, sm_modify, sm_bind, fail, sm_err, sm_ret in H.
  unfold blob_put, sm_modify in Hp. injection Hp as <- _. destruct (bool_decide (is_Some _)); [done|]. injection H as <- <-.
  unfold new_uuid in Huu. destruct (uuid_v4 (st_rng sv)) as [x g] eqn:Ex. injection Huu as _ <-.
  eexists _, _, a0. unfold view. cbn -[file_object_key]. rewrite !lookup_insert_eq.
  split_and!; [done..|exists (st_rng sv); by rewrite Ex|done|done|by rewrite <- Hb64].
Qed.

(** What an accepted profile claims. *)
Lemma upsert_profile_ok (u : bytes) (h : HeaderMap) (r : UpsertProfileRequest) (s s1 : AppState) (resp : UserProfileResponse) :
  upsert_user_profile u h r s = (s1, Ok resp) →
  ∃ row, user_profiles (st_db s1) !! u = Some row ∧ pf_username_normalized row = pr_username resp ∧
    validate_optional_username (po_username r) = Ok (pr_username resp) ∧
    pf_username_lookup_enabled row = pr_username_lookup_enabled resp ∧
    username_taken u (pr_username resp) (st_db s) = false.
Proof.
  intros H. unfold upsert_user_profile in H. run1 H H0. run1 H Hid. run1 H Hname. run1 H Huser. run1 H Hav. destruct a1 as [mime blob].
  run1 H Hauth. run1 H Hu. run1 H Hm. run_ok H sv tv Hv. run1 H Hex1. run1 H Hnow. run_ok H sp key Hkey. run1 H Hprev.
  run_ok H sw tw Hw. run_ok H sd td Hd. run_ok H st token Ht. injection H as <- <-. cbn [pr_username pr_username_lookup_enabled].
  assert (Hdb : st_db sp = st_db s).
  { assert (Hq : st_db sv = st_db s).
    { rewrite (quiet_db _ _ (steps_run _ _ _ _ _ (quiet_verify_request_auth _ _) Hv)). by apply quiet_db. }
    rewrite <- Hq. destruct blob; [|by injection Hkey as <- _]. unfold new_uuid, blob_put, sm_modify, sm_bind, sm_ret in Hkey.
    destruct (uuid_v4 _). by injection Hkey as <- _. }
  unfold upsert_profile_row in Hw. run1 Hw Htaken. run1 Hw Hfree. unfold execute, sm_modify in Hw. injection Hw as <- _.
  assert (Hprof : user_profiles (st_db st) = user_profiles (st_db sd)).
  { pose proof (steps_run _ _ _ _ _ (still_ensure_sealed_delivery_token u) Ht) as Hs.
    exact (f_equal ov_profiles Hs). }
  assert (Hsd : st_db sd = set_user_profiles (<[u := mkProfile a a0 a0
      (bool_decide (is_Some a0) && default true (po_username_lookup_enabled r)) mime None key (st_utc sv)]>
      (user_profiles (st_db sp))) (st_db sp)).
  { destruct (user_profiles (st_db sp) !! u ≫= pf_avatar_object_key) as [pk|]; [destruct (bool_decide (key = Some pk))|]; unfold blob_delete, sm_modify, sm_ret in Hd; by injection Hd as <- _. }
  eexists. rewrite Hprof, Hsd. cbn [user_profiles set_user_profiles]. rewrite lookup_insert_eq. split; [done|].
  rewrite Hdb in Hfree. by split_and!.
Qed.

(** ** The requests that read *)

Lemma recovery_run (u : bytes) (row : BackupRow) (blob : bytes) (s : AppState) :
  Validation.validate_id (lit "user_id") u = Ok tt → u ∈ ov_users (view s) → ov_backups (view s) !! u = Some row →
  ov_blobs (view s) !! bk_blob_object_key row = Some blob →
  (download_recovery_backup u s).2 = Ok (mkBackupDownload (bk_backup_id row) u (bk_device_id row) (bk_backup_version row)
     (bk_recovery_hint row) (b64_encode blob) (bk_updated_at row)) ∨
  (download_recovery_backup u s).2 = Err (rate_limited (lit "rate limit exceeded")).
Proof.
  intros Hid Hu Hrow Hblob. unfold view in Hu. cbn [ov_users] in Hu. apply elem_of_dom in Hu as [x Hx]. unfold download_recovery_backup.
  destruct (rate_limit_calm (lit "backup-recovery:" ++ u) s) as [(l & Er)|(s1 & Er)];
    [|right; by rewrite (sm_bind_err _ _ _ _ _ Er)]. left. rewrite (sm_bind_ok _ _ _ _ _ Er).
  unfold lift, sm_lift. rewrite Hid. unfold ensure_user_exists, load_backup_response, blob_get, query_objects, query, gets, lift, sm_lift, sm_ret, sm_bind.
  cbn [st_db set_rate_limiter st_blob_store]. rewrite Hx. cbn [st_db set_rate_limiter st_blob_store]. unfold view in Hrow, Hblob. cbn [ov_backups ov_blobs] in Hrow, Hblob.
  rewrite Hrow. cbn [ok_or st_db set_rate_limiter st_blob_store]. by rewrite Hblob.
Qed.

Lemma file_id_valid (x : bytes) : uuid_shape x → validate_file_id (uuid_simple x) = Ok tt.
Proof.
  intros Hx. destruct (uuid_simple_ok x Hx) as [Hl Hc].
  assert (Hp : str_trim (uuid_simple x) = uuid_simple x).
  { apply str_trim_all_plain. rewrite forallb_forall in *. intros b Hb%Hc. revert Hb. by destruct b. }
  unfold validate_file_id. rewrite Hp. unfold MAX_FILE_ID_LEN.
  rewrite (proj2 (N.eqb_neq _ _)), (proj2 (N.ltb_ge _ _)) by lia. cbn [orb].
  change (λ b, is_ascii_alphanumeric b || is_char x2d b || is_char x5f b) with Discovery.invite_char. by rewrite Hc.
Qed.

Lemma download_file_run (f m : bytes) (hd : HeaderMap) (auth : RequestAuth) (row : FileRow) (k blob : bytes) (s : AppState) :
  validate_file_id f = Ok tt → parse_request_auth hd = Ok auth → file_download_auth_message auth f = Ok m →
  (verify_request_auth auth m s).2 = Ok tt → ov_files (view s) !! f = Some row → fi_object_key row = Some k →
  ov_blobs (view s) !! k = Some blob →
  (download_file f hd s).2 =
    (if bool_decide (ra_user_id auth = fi_owner_user_id row) || bool_decide (ra_user_id auth = fi_recipient_user_id row)
     then Ok (mkFileDownload f (fi_owner_user_id row) (fi_recipient_user_id row) (fi_mime_type row) (b64_encode blob)
                (fi_created_at row))
     else Err (not_found (lit "file not found"))) ∨
  (download_file f hd s).2 = Err (rate_limited (lit "rate limit exceeded")).
Proof.
  intros Hid Ha Hm Hv Hrow Hk Hblob. unfold download_file.
  destruct (rate_limit_calm (lit "files-download:" ++ f) s) as [(l & Er)|(s1 & Er)];
    [|right; by rewrite (sm_bind_err _ _ _ _ _ Er)]. left. rewrite (sm_bind_ok _ _ _ _ _ Er).
  rewrite (sm_bind_ok _ _ (set_rate_limiter l s) (set_rate_limiter l s) tt) by (unfold lift, sm_lift; by rewrite Hid).
  rewrite (sm_bind_ok _ _ (set_rate_limiter l s) (set_rate_limiter l s) auth) by (unfold lift, sm_lift; by rewrite Ha).
  rewrite (sm_bind_ok _ _ (set_rate_limiter l s) (set_rate_limiter l s) m) by (unfold lift, sm_lift; by rewrite Hm).
  rewrite <- (verify_any_limiter auth m l s) in Hv. apply pair_ok in Hv.
  set (s1 := (verify_request_auth auth m (set_rate_limiter l s)).1) in *. rewrite (sm_bind_ok _ _ _ _ _ Hv).
  assert (Hq : quiet s s1).
  { etrans; [apply (quiet_set_rate_limiter l)|]. apply quiet_verify_request_auth. }
  assert (Hvw : view s1 = view s) by by apply still_coarse.
  assert (Hex : users (st_db s1) !! ra_user_id auth ≠ None).
  { intros Hn. rewrite (quiet_db _ _ Hq) in Hn. unfold verify_request_auth, verify_request_auth_any in Hv.
    run1 Hv Hnow. run1 Hv Hskew. run_ok Hv sv fr Hno. run1 Hv Hfresh. run_ok Hv sr ur Hur. apply query_inv in Hur as [-> [= ->]].
    apply (steps_run _ _ _ _ _ (quiet_observe_nonce _ _)) in Hno. rewrite (quiet_db _ _ Hno) in Hv. cbn [st_db set_rate_limiter] in Hv.
    by rewrite Hn in Hv. }
  rewrite <- Hvw in Hrow, Hblob. unfold view in Hrow, Hblob. cbn [ov_files ov_blobs] in Hrow, Hblob.
  unfold ensure_user_exists, query_objects, query, blob_get, gets, lift, sm_lift, reject_if, fail, sm_err, sm_ret, sm_bind.
  destruct (users (st_db s1) !! ra_user_id auth); [|done]. rewrite Hrow. cbn [ok_or].
  destruct (bool_decide (ra_user_id auth = fi_owner_user_id row)), (bool_decide (ra_user_id auth = fi_recipient_user_id row));
    cbn [negb andb orb]; try done; rewrite Hk, Hblob; done.
Qed.

Lemma resolve_run (text name u : bytes) (row : ProfileRow) (s : AppState) :
  objects_wf (view s) → validate_username text = Ok name → ov_profiles (view s) !! u = Some row →
  pf_username_normalized row = Some name → pf_username_lookup_enabled row = true →
  (resolve_username text s).2 = Ok (mkUsernameResolved name u) ∨
  (resolve_username text s).2 = Err (rate_limited (lit "rate limit exceeded")).
Proof.
  intros Hw Hn Hrow Hname Hl. unfold resolve_username.
  destruct (rate_limit_calm (lit "username-resolve") s) as [(l & Er)|(s1 & Er)];
    [|right; by rewrite (sm_bind_err _ _ _ _ _ Er)]. left. rewrite (sm_bind_ok _ _ _ _ _ Er).
  unfold query, gets, lift, sm_lift, sm_ret, sm_bind. rewrite Hn. cbn [st_db set_rate_limiter].
  assert (Hin : ∀ u' row', (u', row') ∈ username_rows name (st_db s) ↔
            ov_profiles (view s) !! u' = Some row' ∧ pf_username_normalized row' = Some name ∧ pf_username_lookup_enabled row' = true).
  { intros u' row'. unfold username_rows. rewrite list_elem_of_In, filter_In, <- list_elem_of_In, elem_of_map_to_list, andb_true_iff.
    by rewrite bool_decide_eq_true. }
  destruct (username_rows name (st_db s)) as [|[u' row'] rest].
  { exfalso. apply (not_elem_of_nil (u, row)), Hin. done. }
  destruct (proj1 (Hin u' row') (list_elem_of_here _ _)) as (H1 & H2 & H3).
  assert (u' = u) as -> by by apply (ow_usernames _ Hw u' u row' row name).
  assert (row' = row) as -> by congruence. cbn [head ok_or snd fst].
  by rewrite (ow_normalized _ Hw u row Hrow), Hname.
Qed.

(** ** Properties *)

(** C30: Along every run of push-token, file, backup and profile requests in
    which the drawn identifiers are new, every stored row keeps its octets: each
    file, backup and avatar row of the database points to an object that is in
    the blob store, no two of them point to the same one, no two users hold the
    same username, and the users stay the same. *)
Theorem objects_invariant (l : list (Z * N * ObjectRequest)) (s : AppState) :
  objects_wf (view s) → draws_fresh_all l s →
  objects_wf (view (object_requests l s)) ∧ ov_users (view (object_requests l s)) = ov_users (view s).
Proof.
  intros Hw Hf. pose (Q := λ v v' : ObjectView, ov_users v' = ov_users v).
  assert (PreOrder Q) by (split; [by intros v|intros v1 v2 v3; unfold Q; congruence]).
  apply (object_requests_ind Q (λ _, True)); [by intros q v v' _ _ []|by apply list.Forall_true|done..].
Qed.

(** A backup comes back: after the server accepted an upload, and whatever
    files, profiles and other users' backups are stored in between, the recovery
    download of that user returns the identifier the upload returned, the
    version, the hint and exactly the octets that were uploaded, or the request
    is rate limited. *)
Theorem backup_recovered (u : bytes) (h : HeaderMap) (r : BackupUploadRequest) (s s1 : AppState) (resp : BackupUploadResponse)
    (l : list (Z * N * ObjectRequest)) :
  objects_wf (view s) → draws_fresh (UploadBackup u h r) s → upload_backup u h r s = (s1, Ok resp) →
  Forall (λ x, ∀ h r, x.2 ≠ UploadBackup u h r) l → draws_fresh_all l s1 →
  (download_recovery_backup u (object_requests l s1)).2 =
    Ok (mkBackupDownload (br_backup_id resp) u (bu_device_id r) (bu_backup_version r) (bu_recovery_hint r)
          (bu_encrypted_backup_bytes_base64 r) (br_uploaded_at resp)) ∨
  (download_recovery_backup u (object_requests l s1)).2 = Err (rate_limited (lit "rate limit exceeded")).
Proof.
  intros Hw Hf H Hl Hfl.
  destruct (upload_backup_ok u h r s s1 resp Hw Hf H) as (row & blob & Hrow & Hblob & _ & Hu & Hid & <-).
  assert (Hw1 : objects_wf (view s1)).
  { apply (object_step_wf (UploadBackup u h r) (view s)); [done|].
    pose proof (upload_backup_step u h r s Hw Hf) as Hs. by rewrite H in Hs. }
  destruct (object_requests_ind (backup_kept u) (λ q, ∀ h r, q ≠ UploadBackup u h r)
              (λ q v v' Hq, step_backup_kept u q v v' Hq) l s1 Hl Hw1 Hfl) as (_ & [_ Hk] & Hb & Hus).
  apply recovery_run; [done|by rewrite Hus|by rewrite Hb|]. rewrite (Hk (bk_blob_object_key row)); [done|].
  cbn [key_of]. by rewrite Hrow.
Qed.

(** A name belongs to one user: once the server accepted a profile with a
    username that may be looked up, and until that user stores another profile,
    every spelling of the name resolves to that user, or the request is rate
    limited, and no other user's profile with that name is accepted. *)
Theorem username_exclusive (u : bytes) (h : HeaderMap) (r : UpsertProfileRequest) (s s1 : AppState) (resp : UserProfileResponse)
    (name : bytes) (l : list (Z * N * ObjectRequest)) :
  objects_wf (view s) → draws_fresh (UpsertProfile u h r) s → upsert_user_profile u h r s = (s1, Ok resp) →
  pr_username resp = Some name → pr_username_lookup_enabled resp = true →
  Forall (λ x, ∀ h r, x.2 ≠ UpsertProfile u h r) l → draws_fresh_all l s1 →
  let s2 := object_requests l s1 in
  (∀ text, validate_username text = Ok name →
     (resolve_username text s2).2 = Ok (mkUsernameResolved name u) ∨
     (resolve_username text s2).2 = Err (rate_limited (lit "rate limit exceeded"))) ∧
  (∀ u' h' r', u' ≠ u → validate_optional_username (po_username r') = Ok (Some name) →
     is_ok (upsert_user_profile u' h' r' s2).2 = false).
Proof.
  intros Hw Hf H Hname Hlook Hl Hfl s2.
  destruct (upsert_profile_ok u h r s s1 resp H) as (row & Hrow & Hn & _ & Hlk & _).
  assert (Hw1 : objects_wf (view s1)).
  { apply (object_step_wf (UpsertProfile u h r) (view s)); [done|].
    pose proof (upsert_profile_step u h r s Hw Hf) as Hs. by rewrite H in Hs. }
  destruct (object_requests_ind (profile_kept u) (λ q, ∀ h r, q ≠ UpsertProfile u h r)
              (λ q v v' Hq _, step_profile_kept u q v v' Hq) l s1 Hl Hw1 Hfl) as [Hw2 Hk].
  fold s2 in Hw2, Hk. unfold profile_kept in Hk. change (ov_profiles (view s1)) with (user_profiles (st_db s1)) in Hk. rewrite Hrow in Hk.
  split.
  - intros text Ht. apply (resolve_run text name u row); [done..|congruence|congruence].
  - intros u' h' r' Hne Hv. destruct (upsert_user_profile u' h' r' s2) as [s3 [resp'|e]] eqn:E; [exfalso|done].
    destruct (upsert_profile_ok u' h' r' s2 s3 resp' E) as (_ & _ & _ & Hv' & _ & Htaken). rewrite Hv in Hv'. injection Hv' as Hv'.
    apply (username_free u' (pr_username resp') (st_db s2) Htaken u row name); [done..|congruence].
Qed.

Context `{UL : !UuidLaws U}.

(** A file reaches its recipient and nobody else: after the server accepted
    an upload, and whatever is stored in between, an authenticated download
    under the returned identifier gives the owner and the recipient exactly the
    octets and the media type that were uploaded, answers file not found to
    every other user, or is rate limited. *)
Theorem file_delivered (h hd : HeaderMap) (r : FileUploadRequest) (s s1 : AppState) (resp : FileUploadResponse)
    (l : list (Z * N * ObjectRequest)) (auth : RequestAuth) (m : bytes) :
  objects_wf (view s) → draws_fresh (UploadFile h r) s → upload_file h r s = (s1, Ok resp) → draws_fresh_all l s1 →
  let s2 := object_requests l s1 in
  parse_request_auth hd = Ok auth → file_download_auth_message auth (fr_file_id resp) = Ok m →
  (verify_request_auth auth m s2).2 = Ok tt →
  (download_file (fr_file_id resp) hd s2).2 =
    (if bool_decide (ra_user_id auth = fr_owner_user_id resp) || bool_decide (ra_user_id auth = fu_recipient_user_id r)
     then Ok (mkFileDownload (fr_file_id resp) (fr_owner_user_id resp) (fu_recipient_user_id r) (fr_mime_type resp)
                (fu_file_bytes_base64 r) (fr_uploaded_at resp))
     else Err (not_found (lit "file not found"))) ∨
  (download_file (fr_file_id resp) hd s2).2 = Err (rate_limited (lit "rate limit exceeded")).
Proof.
  intros Hw Hf H Hfl s2 Ha Hm Hv.
  destruct (upload_file_ok h r s s1 resp H) as (row & k & blob & Hrow & Hkey & Hblob & [g Hid] & Ho & Hr & Hd).
  assert (Hw1 : objects_wf (view s1)).
  { apply (object_step_wf (UploadFile h r) (view s)); [done|]. pose proof (upload_file_step h r s Hf) as Hs. by rewrite H in Hs. }
  destruct (object_requests_ind (file_kept (fr_file_id resp)) (λ _, True)
              (λ q v v' _, step_file_kept (fr_file_id resp) q v v') l s1) as [_ Hk]; [by apply list.Forall_true|done..|].
  destruct Hk as [[_ Hb] Hrow2]; [by eexists|]. rewrite Hrow in Hrow2.
  rewrite <- Ho, <- Hr, <- Hd in *. apply (download_file_run _ m hd auth row k blob); [|done..|].
  - rewrite Hid. apply file_id_valid, uuid_text.
  - fold s2 in Hb. rewrite Hb; [done|]. cbn [key_of]. by rewrite Hrow.
Qed.
End Runs.

(** ** Instances *)

Definition toy_object_start : @AppState Toy := toy_state (1000 * NANOS) 0 toy_db.

Definition toy_object_headers (user : bytes) (seed : N) (nonce : string) (message : RequestAuth → app bytes) : HeaderMap :=
  toy_headers user (lit "d1") seed 1000 (lit nonce) message.

Definition toy_backup : BackupUploadRequest := mkBackupUpload (lit "d1") 3 (Some (lit "hint")) (b64_encode (lit "the backup")).
Definition toy_backup_headers : HeaderMap :=
  toy_object_headers (lit "alice") 101 "nonce-0001" (λ auth,
    Ok (backups_upload_message auth toy_backup (hex_lower (sha256 (lit "the backup"))))).
Definition toy_backup_stored := upload_backup (U := ToyUuid4) (lit "alice") toy_backup_headers toy_backup toy_object_start.

Definition toy_file : FileUploadRequest := mkFileUpload (lit "bob") (lit "d1") (lit "image/png") (b64_encode (lit "the file")).
Definition toy_file_headers : HeaderMap :=
  toy_object_headers (lit "alice") 101 "nonce-0002" (λ auth, file_upload_auth_message auth (lit "bob") (lit "the file") (lit "image/png")).
Definition toy_file_stored := upload_file (U := ToyUuid4) toy_file_headers toy_file toy_backup_stored.1.

Definition toy_profile : UpsertProfileRequest := mkProfileUpsert None (Some (lit "Alice.Smith")) None None None.
Definition toy_profile_headers : HeaderMap :=
  toy_object_headers (lit "alice") 101 "nonce-0003" (λ auth,
    profile_upsert_auth_message auth (lit "alice") None (Some (lit "alice.smith")) true None None).
Definition toy_profile_stored := upsert_user_profile (U := ToyUuid4) (lit "alice") toy_profile_headers toy_profile toy_file_stored.1.

Lemma toy_objects_accepted : is_ok toy_backup_stored.2 && is_ok toy_file_stored.2 && is_ok toy_profile_stored.2 = true.
Proof. vm_compute. reflexivity. Qed.

Lemma toy_backup_ok : is_ok toy_backup_stored.2 = true.
Proof. pose proof toy_objects_accepted as H. by apply andb_true_iff in H as [[? _]%andb_true_iff _]. Qed.
Lemma toy_file_ok : is_ok toy_file_stored.2 = true.
Proof. pose proof toy_objects_accepted as H. by apply andb_true_iff in H as [[_ ?]%andb_true_iff _]. Qed.
Lemma toy_profile_ok : is_ok toy_profile_stored.2 = true.
Proof. pose proof toy_objects_accepted as H. by apply andb_true_iff in H as [_ ?]. Qed.

Lemma toy_object_start_wf : objects_wf (view toy_object_start).
Proof. apply empty_wf. Qed.
Lemma toy_backup_wf : objects_wf (view toy_backup_stored.1).
Proof. exact (object_step_wf _ _ _ toy_object_start_wf (upload_backup_step _ _ _ _ toy_object_start_wf eq_refl)). Qed.

Definition toy_object_requests : list (Z * N * ObjectRequest) :=
  [((1001 * NANOS)%Z, 1, UploadFile toy_file_headers toy_file);
   ((1002 * NANOS)%Z, 2, UpsertProfile (lit "alice") toy_profile_headers toy_profile);
   ((1003 * NANOS)%Z, 3, RecoverBackup (lit "alice"))].

Lemma toy_object_requests_fresh : draws_fresh_all (U := ToyUuid4) toy_object_requests toy_backup_stored.1.
Proof. split; [vm_compute; reflexivity|]. split; [vm_compute; reflexivity|]. by split. Qed.

Lemma objects_invariant_witness :
  objects_wf (view (object_requests (U := ToyUuid4) toy_object_requests toy_backup_stored.1)) ∧
  size (ov_blobs (view (object_requests (U := ToyUuid4) toy_object_requests toy_backup_stored.1))) = 2%nat.
Proof.
  split; [|vm_compute; reflexivity].
  exact (proj1 (objects_invariant (U := ToyUuid4) toy_object_requests toy_backup_stored.1 toy_backup_wf toy_object_requests_fresh)).
Defined.

Lemma backup_recovered_witness :
  let s2 := object_requests (U := ToyUuid4) toy_object_requests toy_backup_stored.1 in
  (download_recovery_backup (lit "alice") s2).2 = Ok (mkBackupDownload (br_backup_id (ok_val _ toy_backup_ok)) (lit "alice") (lit "d1") 3
    (Some (lit "hint")) (b64_encode (lit "the backup")) (br_uploaded_at (ok_val _ toy_backup_ok))) ∨
  (download_recovery_backup (lit "alice") s2).2 = Err (rate_limited (lit "rate limit exceeded")).
Proof.
  apply (backup_recovered (U := ToyUuid4) (lit "alice") toy_backup_headers toy_backup toy_object_start toy_backup_stored.1
    (ok_val _ toy_backup_ok) toy_object_requests toy_object_start_wf).
  - reflexivity.
  - apply pair_ok, ok_val_spec.
  - repeat constructor; discriminate.
  - exact toy_object_requests_fresh.
Defined.

Lemma guard_true {A : Type} (b : bool) (x y z : A) : z = (if b then x else y) → b = true → z = x.
Proof. by intros -> ->. Qed.

(** Bob reads the file; the name of Alice is found, and Bob cannot take it. *)
Lemma file_delivered_witness : ∃ hd, let s2 := object_requests (U := ToyUuid4) [] toy_file_stored.1 in
  let resp := ok_val _ toy_file_ok in
  (download_file (fr_file_id resp) hd s2).2 =
    Ok (mkFileDownload (fr_file_id resp) (fr_owner_user_id resp) (fu_recipient_user_id toy_file) (fr_mime_type resp)
          (fu_file_bytes_base64 toy_file) (fr_uploaded_at resp)) ∨
  (download_file (fr_file_id resp) hd s2).2 = Err (rate_limited (lit "rate limit exceeded")).
Proof.
  pose (message := λ auth, file_download_auth_message auth (fr_file_id (ok_val _ toy_file_ok))).
  exists (toy_object_headers (lit "bob") 202 "nonce-0004" message).
  destruct (message (mkAuth (lit "bob") (lit "d1") 1000 (lit "nonce-0004") [])) as [m|e] eqn:Em; [|vm_compute in Em; discriminate Em].
  assert (Hu : ra_user_id (toy_auth (lit "bob") (lit "d1") 202 1000 (lit "nonce-0004") message) = lit "bob") by
    (unfold toy_auth; rewrite Em; reflexivity).
  destruct (file_delivered (U := ToyUuid4) toy_file_headers (toy_object_headers (lit "bob") 202 "nonce-0004" message) toy_file
    toy_backup_stored.1 toy_file_stored.1 (ok_val _ toy_file_ok) [] (toy_auth (lit "bob") (lit "d1") 202 1000 (lit "nonce-0004") message) m)
    as [H|H].
  - exact toy_backup_wf.
  - vm_compute. reflexivity.
  - apply pair_ok, ok_val_spec.
  - exact Logic.I.
  - vm_compute. reflexivity.
  - unfold toy_auth. rewrite Em. exact Em.
  - unfold toy_auth. rewrite Em. vm_compute in Em. injection Em as <-. vm_compute. reflexivity.
  - left. match type of H with ?z = (if ?b then ?x else ?y) => apply (guard_true b x y z H) end.
    apply orb_true_iff. right. apply bool_decide_eq_true_2. exact Hu.
  - right. exact H.
Defined.

Lemma username_exclusive_witness :
  (resolve_username (lit "ALICE.smith") toy_profile_stored.1).2 = Ok (mkUsernameResolved (lit "alice.smith") (lit "alice")) ∨
  (resolve_username (lit "ALICE.smith") toy_profile_stored.1).2 = Err (rate_limited (lit "rate limit exceeded")).
Proof.
  destruct (username_exclusive (U := ToyUuid4) (lit "alice") toy_profile_headers toy_profile toy_file_stored.1 toy_profile_stored.1
    (ok_val _ toy_profile_ok) (lit "alice.smith") []) as [H _].
  - refine (object_step_wf _ _ _ toy_backup_wf (upload_file_step toy_file_headers toy_file toy_backup_stored.1 _)). vm_compute. reflexivity.
  - vm_compute. reflexivity.
  - apply pair_ok, ok_val_spec.
  - vm_compute. reflexivity.
  - vm_compute. reflexivity.
  - constructor.
  - exact Logic.I.
  - apply H. vm_compute. reflexivity.
Defined.
