(* ===== verification/DisabledFeatures.v ===== *)
(** * Features that are switched off ([handlers/receipts.rs], [calls.rs], [stories.rs], [channels.rs], [groups.rs],
    [ephemeral.rs] and parts of [profile.rs])

    The methods of [AppState] that say whether these features are supported
    return [false], and every handler of theirs asks before it does anything
    else than count the request. The handlers are modelled up to that refusal;
    what follows it in the body is a parameter. *)

From Stdlib Require Import Strings.Byte.
From S2P Require Import Prelude Bytes Errors Crypto Toy ServerError Validation RequestAuth Caches Realtime ServerState ToyServer ServerFrame.
Local Open Scope N_scope.

Section Disabled.
Context `{P : Primitives}.
Local Open Scope sm_scope.

Definition presence_supported : Handler bool := sm_ret false.
Definition typing_indicators_supported : Handler bool := sm_ret false.
Definition read_receipts_supported : Handler bool := sm_ret false.
Definition calling_supported : Handler bool := sm_ret false.
Definition stories_supported : Handler bool := sm_ret false.
Definition channels_supported : Handler bool := sm_ret false.
Definition group_messaging_supported : Handler bool := sm_ret false.
Definition ephemeral_messaging_supported : Handler bool := sm_ret false.

Definition ensure_presence_supported : Handler unit :=
  supported <- presence_supported;;
  reject_if (negb supported) (forbidden (lit "presence is disabled pending a privacy-preserving metadata design")).

Definition ensure_typing_supported : Handler unit :=
  supported <- typing_indicators_supported;;
  reject_if (negb supported) (forbidden (lit "typing indicators are disabled pending a privacy-preserving metadata design")).

Definition ensure_read_receipts_supported : Handler unit :=
  supported <- read_receipts_supported;;
  reject_if (negb supported) (forbidden (lit "read receipts are disabled pending a privacy-preserving metadata design")).

Definition ensure_calling_supported : Handler unit :=
  supported <- calling_supported;;
  reject_if (negb supported) (forbidden (lit "calling is disabled in the private-messaging-only profile")).

Definition ensure_stories_supported : Handler unit :=
  supported <- stories_supported;;
  reject_if (negb supported) (forbidden (lit "stories are disabled in the private-messaging-only profile")).

Definition ensure_channels_supported : Handler unit :=
  supported <- channels_supported;;
  reject_if (negb supported) (forbidden (lit "channels are disabled in the private-messaging-only profile")).

Definition ensure_group_messaging_supported : Handler unit :=
  supported <- group_messaging_supported;;
  if supported : bool then sm_ret tt
  else fail (forbidden (lit "group messaging is disabled pending a private group design")).

Definition ensure_ephemeral_messaging_supported : Handler unit :=
  supported <- ephemeral_messaging_supported;;
  if supported : bool then sm_ret tt
  else fail (forbidden (lit "ephemeral direct messaging is disabled pending a metadata-safe design")).

(** ** The handlers

    [rest] is the body after the refusal. *)

Section Handlers.
Context {A : Type} (rest : Handler A).

Definition update_presence (user_id : bytes) : Handler A :=
  check_rate_limit (lit "presence-update:" ++ user_id);;; ensure_presence_supported;;; rest.
Definition get_presence (user_id : bytes) : Handler A :=
  check_rate_limit (lit "presence-get:" ++ user_id);;; ensure_presence_supported;;; rest.
Definition update_typing (peer_user_id : bytes) : Handler A :=
  check_rate_limit (lit "typing-update:" ++ peer_user_id);;; ensure_typing_supported;;; rest.
Definition get_typing (user_id : bytes) : Handler A :=
  check_rate_limit (lit "typing-get:" ++ user_id);;; ensure_typing_supported;;; rest.

Definition send_receipt (user_id : bytes) : Handler A :=
  check_rate_limit (lit "receipt:" ++ user_id);;; ensure_read_receipts_supported;;; rest.
Definition get_receipts (user_id : bytes) : Handler A :=
  check_rate_limit (lit "get-receipts:" ++ user_id);;; ensure_read_receipts_supported;;; rest.

Definition call_offer (callee_user_id : bytes) : Handler A :=
  check_rate_limit (lit "call-offer:" ++ callee_user_id);;; ensure_calling_supported;;; rest.
Definition call_answer (call_id : bytes) : Handler A :=
  check_rate_limit (lit "call-answer:" ++ call_id);;; ensure_calling_supported;;; rest.
Definition call_ice_candidate (call_id : bytes) : Handler A :=
  check_rate_limit (lit "call-ice:" ++ call_id);;; ensure_calling_supported;;; rest.
Definition call_hangup (call_id : bytes) : Handler A :=
  check_rate_limit (lit "call-hangup:" ++ call_id);;; ensure_calling_supported;;; rest.
Definition poll_call_signals (call_id : bytes) : Handler A :=
  check_rate_limit (lit "call-signals:" ++ call_id);;; ensure_calling_supported;;; rest.

Definition create_story (author_user_id : bytes) : Handler A :=
  check_rate_limit (lit "story-create:" ++ author_user_id);;; ensure_stories_supported;;; rest.
Definition get_stories_feed : Handler A := ensure_stories_supported;;; rest.
Definition view_story : Handler A := ensure_stories_supported;;; rest.

Definition create_channel (owner_user_id : bytes) : Handler A :=
  check_rate_limit (lit "channel-create:" ++ owner_user_id);;; ensure_channels_supported;;; rest.
Definition get_channel_messages : Handler A := ensure_channels_supported;;; rest.
Definition post_channel_message (channel_id : bytes) : Handler A :=
  check_rate_limit (lit "channel-msg:" ++ channel_id);;; ensure_channels_supported;;; rest.
Definition subscribe_channel : Handler A := ensure_channels_supported;;; rest.
Definition list_channels : Handler A := ensure_channels_supported;;; rest.

Definition list_user_groups (user_id : bytes) : Handler A :=
  ensure_group_messaging_supported;;; check_rate_limit (lit "groups-list:" ++ user_id);;; rest.
Definition create_group : Handler A :=
  ensure_group_messaging_supported;;; check_rate_limit (lit "groups-create");;; rest.
Definition list_group_members (group_id : bytes) : Handler A :=
  ensure_group_messaging_supported;;; check_rate_limit (lit "groups-members-list:" ++ group_id);;; rest.
Definition add_group_member (group_id : bytes) : Handler A :=
  ensure_group_messaging_supported;;; check_rate_limit (lit "groups-members-add:" ++ group_id);;; rest.
Definition remove_group_member (group_id : bytes) : Handler A :=
  ensure_group_messaging_supported;;; check_rate_limit (lit "groups-members-remove:" ++ group_id);;; rest.
Definition relay_group_message (group_id : bytes) : Handler A :=
  ensure_group_messaging_supported;;; check_rate_limit (lit "groups-relay:" ++ group_id);;; rest.

Definition relay_ephemeral_message (recipient_user_id : bytes) : Handler A :=
  ensure_ephemeral_messaging_supported;;; check_rate_limit (lit "ephemeral-relay:" ++ recipient_user_id);;; rest.

(** The handlers by their route; the argument is the part of the request the
    limit counts under. *)
Definition disabled_handlers : list (bytes → Handler A) :=
  [update_presence; get_presence; update_typing; get_typing; send_receipt; get_receipts;
   call_offer; call_answer; call_ice_candidate; call_hangup; poll_call_signals;
   create_story; λ _, get_stories_feed; λ _, view_story;
   create_channel; λ _, get_channel_messages; post_channel_message; λ _, subscribe_channel; λ _, list_channels;
   list_user_groups; λ _, create_group; list_group_members; add_group_member; remove_group_member; relay_group_message;
   relay_ephemeral_message].
End Handlers.
End Disabled.

Section Inert.
Context `{P : Primitives} {A : Type} (rest : Handler A).
Local Open Scope sm_scope.

(** The request was counted, if that, and refused. *)
Definition refused (s : AppState) (r : AppState * app A) : Prop :=
  ∃ l e, r = (set_rate_limiter l s, Err e) ∧ (e = rate_limited (lit "rate limit exceeded") ∨ ∃ text, e = forbidden text).

Lemma refused_limited key (c : Handler A) s : (∀ s, ∃ text, c s = (s, Err (forbidden text))) → refused s ((check_rate_limit key;;; c) s).
Proof.
  intros Hc. unfold sm_bind, check_rate_limit. destruct (allow_in_memory key (st_instant s) (st_rate_limiter s)) as [l []].
  - destruct (Hc (set_rate_limiter l s)) as [text ->]. exists l, (forbidden text). eauto.
  - exists l, (rate_limited (lit "rate limit exceeded")). eauto.
Qed.

Lemma refused_now (c : Handler A) s : (∀ s, ∃ text, c s = (s, Err (forbidden text))) → refused s (c s).
Proof.
  intros Hc. destruct (Hc s) as [text ->]. exists (st_rate_limiter s), (forbidden text). split; [by destruct s|eauto].
Qed.

(** A request to a feature that is switched off is inert. Whatever the
    rest of its handler would do, it ends in a refusal, and the only thing it
    can have changed is the count of the rate limiter: no table of the
    database, no cache of nonces, no live connection and no random source. *)
Theorem disabled_features_inert : Forall (λ h : bytes → Handler A, ∀ arg s, refused s (h arg s)) (disabled_handlers rest).
Proof.
  repeat first [apply list.Forall_nil_2|apply list.Forall_cons_2]; intros arg s;
    first [apply refused_limited|apply refused_now]; intros; eexists; reflexivity.
Qed.
End Inert.
