(* ===== verification/Reaper.v ===== *)
(** * The reaper ([handlers/ephemeral.rs])

    The task that runs beside the requests and deletes, every minute, what the
    server should not keep: messages past their expiry, deduplication keys,
    consumed one-time prekeys, old rotation challenges, expired tickets, and
    messages a device has read that are older than a week. What a request can
    still use survives a round, and nothing else of the kind does. *)

From Stdlib Require Import Strings.Byte.
From stdpp Require Import sorting.
From S2P Require Import Prelude Bytes Errors Crypto Toy Alg ServerError Validation RequestAuth Caches Realtime ServerState ToyServer ServerFrame Messaging Delivery PrekeyServer.
Local Open Scope N_scope.

(** ** The tables of features that are switched off *)

Record ExpiryRow := mkExpiry {
  ex_message_id : Z;
  ex_recipient_device_id : bytes;
  ex_expires_at : option Z;
}.

Record PresenceRow := mkPresence {
  pr_device_id : bytes;
  pr_status : bytes;
  pr_updated_at : Z;
  pr_expires_at : Z;
}.

Record TypingRow := mkTyping {
  ty_is_typing : bool;
  ty_updated_at : Z;
  ty_expires_at : Z;
}.

Record ReceiptRow := mkReceipt {
  rc_id : Z;
  rc_message_id : Z;
  rc_recipient_user_id : bytes;
  rc_recipient_device_id : bytes;
  rc_receipt_type : bytes;
  rc_created_at : Z;
}.

Record FeatureTables := mkFeatures {
  message_expiry_meta : list ExpiryRow;
  presence_state : gmap bytes PresenceRow;
  typing_state : gmap (bytes * bytes * bytes) TypingRow;
  message_receipts : Table ReceiptRow;
}.

Definition DELIVERED_RELAY_RETENTION_DAYS : Z := 7.
Definition RECEIPT_RETENTION_DAYS : Z := 30.
Definition DAY : Z := 24 * 3600 * NANOS.

Section Reaper.
Context `{P : Primitives}.
Local Open Scope sm_scope.

(** [expires_at <= now]; a comparison with [NULL] is not true. *)
Definition expiry_passed (now : Z) (e : ExpiryRow) : bool :=
  match ex_expires_at e with Some t => (t <=? now)%Z | None => false end.

Definition reap_expired_messages (f : FeatureTables) : Handler FeatureTables :=
  now <- gets st_utc;;
  let ids := map ex_message_id (filter (λ e, expiry_passed now e = true) (message_expiry_meta f)) in
  let expired := λ r : RelayRow, bool_decide (rm_message_id r ∈ ids) in
  deleted <- query (λ d, length (filter (λ r, expired r = true) (rows (relay_messages d))));;
  execute (λ d, set_relay_messages (delete_rows expired (relay_messages d)) d);;;
  sm_ret (if (0 <? deleted)%nat
          then mkFeatures (filter (λ e, expiry_passed now e = false) (message_expiry_meta f)) (presence_state f) (typing_state f)
                 (message_receipts f)
          else f).

(** The identifiers of the messages a device has read and that are older than
    the cutoff. *)
Definition read_and_old {row} (id : row → Z) (recipient : row → bytes * bytes) (received_at : row → Z)
    (cursors : gmap (bytes * bytes) Z) (cutoff : Z) (l : list row) : list Z :=
  map id (filter (λ m, match cursors !! recipient m with
                       | Some last => (id m <=? last)%Z && (received_at m <? cutoff)%Z
                       | None => false
                       end = true) l).

Definition reap_stale_data (f : FeatureTables) : Handler FeatureTables :=
  now <- gets st_utc;;
  execute (λ d, set_relay_dedup (filter (λ '(_, expires), ¬ (expires <= timestamp now)%Z) (relay_dedup d)) d);;;
  execute (λ d, set_one_time_prekeys_x25519 (delete_rows ot_consumed (one_time_prekeys_x25519 d)) d);;;
  execute (λ d, set_one_time_prekeys_mlkem768 (delete_rows ot_consumed (one_time_prekeys_mlkem768 d)) d);;;
  let challenge_cutoff := (now - 600 * NANOS)%Z in
  execute (λ d, set_identity_rotation_challenges
    (filter (λ '(_, c), ¬ (cg_created_at c < challenge_cutoff)%Z) (identity_rotation_challenges d)) d);;;
  let presence := filter (λ '(_, r), ¬ (pr_expires_at r <= now)%Z) (presence_state f) in
  let typing := filter (λ '(_, r), ¬ ((ty_expires_at r <= now)%Z ∨ ty_is_typing r = false)) (typing_state f) in
  execute (λ d, set_ws_inbox_tickets (filter (λ '(_, t), ¬ (tk_expires_at t <= now)%Z) (ws_inbox_tickets d)) d);;;
  let delivered_relay_cutoff := (now - DELIVERED_RELAY_RETENTION_DAYS * DAY)%Z in
  execute (λ d, set_relay_messages
    (let ids := read_and_old rm_message_id (λ r, (rm_recipient_user_id r, rm_recipient_device_id r)) rm_received_at
                  (inbox_cursors d) delivered_relay_cutoff (rows (relay_messages d)) in
     delete_rows (λ r, bool_decide (rm_message_id r ∈ ids)) (relay_messages d)) d);;;
  execute (λ d, set_sealed_relay_messages
    (let ids := read_and_old sm_message_id (λ r, (sm_recipient_user_id r, sm_recipient_device_id r)) sm_received_at
                  (sealed_inbox_cursors d) delivered_relay_cutoff (rows (sealed_relay_messages d)) in
     delete_rows (λ r, bool_decide (sm_message_id r ∈ ids)) (sealed_relay_messages d)) d);;;
  let receipt_cutoff := (now - RECEIPT_RETENTION_DAYS * DAY)%Z in
  let receipts := delete_rows (λ r, (rc_created_at r <? receipt_cutoff)%Z) (message_receipts f) in
  live <- query (λ d, map rm_message_id (rows (relay_messages d)));;
  sm_ret (mkFeatures (filter (λ e, ex_message_id e ∈ live) (message_expiry_meta f)) presence typing receipts).

(** One turn of [run_message_expiry_reaper]: an error of the first part is
    logged and the second part runs all the same. *)
Definition reaper_turn (f : FeatureTables) : Handler FeatureTables :=
  λ s, let '(s, r) := reap_expired_messages f s in
       reap_stale_data (match r with Ok f => f | Err _ => f end) s.
End Reaper.

(** ** What a turn leaves *)

Lemma filter_agree {A} (Q Q' : A → Prop) `{!∀ x, Decision (Q x)} `{!∀ x, Decision (Q' x)} (l : list A) :
  (∀ x, x ∈ l → Q x ↔ Q' x) → filter Q l = filter Q' l.
Proof.
  induction l as [|x l IH]; intros Ha; [done|]. rewrite !list.filter_cons, IH by (intros; apply Ha; by right).
  pose proof (Ha x ltac:(by left)). repeat case_decide; naive_solver.
Qed.

(** Rows with distinct identifiers: deleting those with the identifiers of a
    query deletes the rows of the query. *)
Lemma delete_named {row} (id : row → Z) (q : row → bool) (t : Table row) : table_wf id t →
  rows (delete_rows (λ r, bool_decide (id r ∈ map id (filter (λ r, q r = true) (rows t)))) t) = filter (λ r, q r = false) (rows t).
Proof.
  intros [Hs _]. cbn [delete_rows rows]. apply filter_agree. intros r Hr. rewrite bool_decide_eq_false, list_elem_of_fmap.
  setoid_rewrite list.list_elem_of_filter. split.
  - intros Hn. destruct (q r) eqn:E; [|done]. destruct Hn. by exists r.
  - intros Hq (r' & He & Hq' & Hr'). assert (r = r') as <- by by eapply sorted_ids_inj. congruence.
Qed.

Section Turn.
Context `{P : Primitives} {row item : Type} (mb : Mailbox row item) (received_at : row → Z).

(** A message its device has read, older than the cutoff. *)
Definition spent (cutoff : Z) (d : Db) (r : row) : bool :=
  match mb_cursors mb d !! mb_recipient mb r with
  | Some last => (mb_row_id mb r <=? last)%Z && (received_at r <? cutoff)%Z
  | None => false
  end.

Lemma pending_kept (cutoff : Z) (d d' : Db) (user dev : bytes) (since : Z) :
  rows (mb_table mb d') = filter (λ r, spent cutoff d r = false) (rows (mb_table mb d)) →
  (cursor_of mb (user, dev) d ≤ since)%Z → pending mb user dev since d' = pending mb user dev since d.
Proof.
  intros Hd Hc. unfold pending. rewrite Hd, list_filter_filter. apply list_filter_iff. intros r.
  split; [by intros [? _]|]. intros [Hr Hid]. split; [done|]. unfold spent, cursor_of in *. rewrite Hr.
  destruct (mb_cursors mb d !! (user, dev)) as [last|]; [|done]. cbn [default] in Hc.
  rewrite (proj2 (Z.leb_gt _ _)); [done|]. unfold Datatypes.id in Hc. lia.
Qed.
End Turn.

Definition aged (now : Z) : Z := (now - DELIVERED_RELAY_RETENTION_DAYS * DAY)%Z.

(** The database after the second part of a turn. *)
Definition stale_reaped (now : Z) (d : Db) : Db :=
  let cutoff := aged now in
  let direct := read_and_old rm_message_id (λ r, (rm_recipient_user_id r, rm_recipient_device_id r)) rm_received_at
                  (inbox_cursors d) cutoff (rows (relay_messages d)) in
  let sealed := read_and_old sm_message_id (λ r, (sm_recipient_user_id r, sm_recipient_device_id r)) sm_received_at
                  (sealed_inbox_cursors d) cutoff (rows (sealed_relay_messages d)) in
  mkDb (users d) (user_devices d) (prekeys d) (delete_rows ot_consumed (one_time_prekeys_x25519 d))
    (delete_rows ot_consumed (one_time_prekeys_mlkem768 d))
    (delete_rows (λ r, bool_decide (rm_message_id r ∈ direct)) (relay_messages d))
    (delete_rows (λ r, bool_decide (sm_message_id r ∈ sealed)) (sealed_relay_messages d))
    (inbox_cursors d) (sealed_inbox_cursors d)
    (filter (λ '(_, t), ¬ (tk_expires_at t <= now)%Z) (ws_inbox_tickets d))
    (filter (λ '(_, expires), ¬ (expires <= timestamp now)%Z) (relay_dedup d)) (identity_events d)
    (filter (λ '(_, c), ¬ (cg_created_at c < now - 600 * NANOS)%Z) (identity_rotation_challenges d))
    (push_tokens d) (contacts d) (contact_invites d) (user_profiles d) (private_groups d) (stored_objects d).

Lemma stale_run `{P : Primitives} (f : FeatureTables) (s : AppState) : message_expiry_meta f = [] →
  ∃ f', reap_stale_data f s = (set_db (stale_reaped (st_utc s) (st_db s)) s, Ok f') ∧ message_expiry_meta f' = [].
Proof.
  intros Hf. destruct s as [[] ]. eexists. split.
  - unfold reap_stale_data, sm_bind, gets, execute, sm_modify, query, sm_ret. cbv zeta. unfold stale_reaped, aged.
    cbn -[filter read_and_old delete_rows]. reflexivity.
  - cbn [message_expiry_meta]. by rewrite Hf.
Qed.

Lemma expired_run `{P : Primitives} (f : FeatureTables) (s : AppState) : message_expiry_meta f = [] →
  reap_expired_messages f s = (s, Ok f).
Proof.
  intros Hf. unfold reap_expired_messages, sm_bind, query, gets, execute, sm_modify, sm_ret. rewrite Hf. cbv zeta.
  change (map ex_message_id (filter _ [])) with (@nil Z).
  assert (Hr : ∀ t : Table RelayRow, delete_rows (λ r, bool_decide (rm_message_id r ∈ [])) t = t).
  { intros [l n]. unfold delete_rows. cbn [rows next_id]. f_equal. induction l as [|r l IH]; [done|]. by rewrite list.filter_cons_True, IH. }
  rewrite Hr, list_filter_none by done. by destruct s as [[] ].
Qed.

Lemma available_kept (t t' : Table OneTimeRow) (user dev : bytes) : t' = delete_rows ot_consumed t →
  filter (λ r, owned_by user dev r && negb (ot_consumed r) = true) (rows t')
  = filter (λ r, owned_by user dev r && negb (ot_consumed r) = true) (rows t).
Proof.
  intros ->. cbn [delete_rows rows]. rewrite list_filter_filter. apply list_filter_iff. intros r.
  destruct (ot_consumed r); rewrite ?andb_false_r; naive_solver.
Qed.

Lemma filtered_lookup {V} (Q : bytes * V → Prop) `{!∀ x, Decision (Q x)} (m : gmap bytes V) (k : bytes) (v : V) (R : Prop) :
  (Q (k, v) ↔ R) → filter Q m !! k = Some v ↔ m !! k = Some v ∧ R.
Proof. intros HR. by rewrite map_lookup_filter_Some, HR. Qed.

Section Safe.
Context `{P : Primitives} `{V : Ed25519} `{B : Base64} `{X : Hex} `{I : HashIter} `{U : !Uuid}.

End Safe.

(** ** A concrete turn *)

(** A server with two messages a month old, of which the first was read. *)
Definition toy_old : @AppState Toy :=
  toy_state (1000000 * NANOS + 30 * DAY) 0
    (set_inbox_cursors {[ (lit "bob", lit "d1") := 1%Z ]}
       (set_relay_messages (mkTable [toy_message 1 (lit "d1"); toy_message 3 (lit "d1")] 4) toy_db)).

