(* ===== verification/WebJs.v ===== *)
(** * JavaScript of the web client ([mobile/web/src])

    What the modelled part of the web client uses of the language and its
    platform: numbers and their 32-bit operators, exceptions, the helpers of
    [base64.ts] and the record encoder of [tlv.ts]. A string is given by its
    UTF-8 octets ([utf8ToBytes] is the identity), a typed array by its octets,
    an integral number by its value. *)

From Stdlib Require Import Strings.Byte.
From S2P Require Import Prelude Bytes Errors Tlv Crypto Toy ServerError Oprf.
Local Open Scope Z_scope.

(** ** Exceptions *)

(** A call throws an [Error] with a message, or is stuck in a loop: [Diverges]
    stands for a run that has not ended after the turns allowed. *)
Inductive JsError : Type :=
| Thrown (message : bytes)
| Diverges.

Definition js (A : Type) : Type := result JsError A.

Definition throw {A} (message : string) : js A := Err (Thrown (lit message)).

(** [Array.prototype.map] with a callback that may throw. *)
Fixpoint js_map {A C} (f : A → js C) (l : list A) : js (list C) :=
  match l with
  | [] => Ok []
  | x :: l => let? y := f x in let? r := js_map f l in Ok (y :: r)
  end.

(** ** Numbers *)

Definition MAX_SAFE_INTEGER : Z := 2 ^ 53 - 1.

Definition isSafeInteger (value : Z) : bool := (- MAX_SAFE_INTEGER <=? value) && (value <=? MAX_SAFE_INTEGER).

(** The conversions of the bitwise operators. *)
Definition toUint32 (z : Z) : Z := z mod 2 ^ 32.
Definition toInt32 (z : Z) : Z := (z + 2 ^ 31) mod 2 ^ 32 - 2 ^ 31.

(** [a & b], [a >> k] and [a >>> k]. *)
Definition js_and (a b : Z) : Z := Z.land (toInt32 a) (toInt32 b).
Definition js_shr (a k : Z) : Z := Z.shiftr (toInt32 a) k.
Definition js_ushr (a k : Z) : Z := Z.shiftr (toUint32 a) k.

(** A number stored in a [Uint8Array]. *)
Definition toUint8 (z : Z) : byte := byte_of_N (Z.to_N (z mod 256)).

(** ** [base64.ts] *)

(** The platform: [atob] decodes forgivingly, [btoa] encodes as RFC 4648 says;
    [ed25519] of [@noble/curves], [None] where it throws. *)
Class WebPlatform := {
  atob : bytes → option bytes;
  btoa : bytes → bytes;
  noble_sign : bytes → bytes → option bytes;
  noble_verify : bytes → bytes → bytes → option bool;
}.

Class WebPlatformLaws (W : WebPlatform) (B : Base64) (V : Ed25519) := {
  btoa_standard : ∀ b, btoa b = b64_encode b;
  atob_standard : ∀ b, atob (b64_encode b) = Some b;
  (** Signatures are deterministic (RFC 8032). *)
  noble_sign_rfc8032 : ∀ m sk, length sk = 32%nat → noble_sign m sk = Some (ed_sign sk m);
  (** A signature made with a key verifies under its public key. *)
  noble_verify_signed : ∀ m sk, length sk = 32%nat → noble_verify (ed_sign sk m) m (ed_public sk) = Some true;
}.

Section Platform.
Context `{W : WebPlatform}.

Definition bytesToBase64 (bytes : bytes) : Bytes.bytes := btoa bytes.

Definition base64ToBytes (value : bytes) : js bytes :=
  ok_or (atob value) (Thrown (lit "InvalidCharacterError")).
End Platform.

(** [byte.toString(16)] and [padStart(2, "0")]. *)
Definition toString16 (b : byte) : bytes :=
  let n := Byte.to_N b in
  if (n <? 16)%N then [hex_char n] else [hex_char (n / 16)%N; hex_char (n mod 16)%N].

Definition padStart (n : nat) (fill : byte) (s : bytes) : bytes := replicate (n - length s) fill ++ s.

Definition bytesToHex (value : bytes) : bytes := concat (map (λ b, padStart 2 x30 (toString16 b)) value).

Definition concatBytes (parts : list bytes) : bytes := concat parts.

(** ** [tlv.ts] *)

Definition criticalType (base : N) : N := N.lor base 0x8000.

Definition encodeTlv_header (record : TlvRecord) : bytes :=
  let ty := Z.of_N (ty record) in
  let length := Z.of_N (len (value record)) in
  [toUint8 (js_and (js_shr ty 8) 0xff); toUint8 (js_and ty 0xff);
   toUint8 (js_and (js_shr length 8) 0xff); toUint8 (js_and length 0xff)].

Fixpoint encodeTlv_chunks (records : list TlvRecord) : js (list bytes) :=
  match records with
  | [] => Ok []
  | record :: records =>
      if 0xffff <? Z.of_N (len (value record)) then throw "tlv value too large"
      else
        let? chunks := encodeTlv_chunks records in
        Ok (encodeTlv_header record :: value record :: chunks)
  end.

Definition encodeTlv (records : list TlvRecord) : js bytes :=
  let? chunks := encodeTlv_chunks records in Ok (concatBytes chunks).

(** [BigInt]s have no width. *)
Definition i64ToBeBytes (value : Z) : bytes :=
  map (λ idx, toUint8 (Z.land (Z.shiftr value ((7 - Z.of_nat idx) * 8)) 0xff)) (seq 0 8).

Definition u16ToBeBytes (value : Z) : bytes :=
  [toUint8 (js_and (js_shr value 8) 0xff); toUint8 (js_and value 0xff)].

(** ** Facts on numbers *)

Lemma toInt32_small (z : Z) : - 2 ^ 31 ≤ z < 2 ^ 31 → toInt32 z = z.
Proof. intros H. unfold toInt32. rewrite Z.mod_small; lia. Qed.

Lemma toInt32_range (z : Z) : - 2 ^ 31 ≤ toInt32 z < 2 ^ 31.
Proof. unfold toInt32. pose proof (Z.mod_pos_bound (z + 2 ^ 31) (2 ^ 32)). lia. Qed.

Lemma js_and_one (z : Z) : js_and z 1 = toInt32 z mod 2.
Proof. unfold js_and. rewrite (toInt32_small 1) by lia. by rewrite (Z.land_ones _ 1). Qed.

Lemma js_and_byte (z : Z) : js_and z 0xff = toInt32 z mod 256.
Proof. unfold js_and. rewrite (toInt32_small 255) by lia. by rewrite (Z.land_ones _ 8). Qed.

Lemma js_shr_div (z k : Z) : 0 ≤ k → js_shr z k = toInt32 z / 2 ^ k.
Proof. intros H. unfold js_shr. by rewrite Z.shiftr_div_pow2. Qed.

Lemma js_shr_range (z : Z) : - 2 ^ 30 ≤ js_shr z 1 < 2 ^ 30.
Proof.
  rewrite js_shr_div by lia. pose proof (toInt32_range z). change (2 ^ 1) with 2.
  split; [apply Z.div_le_lower_bound|apply Z.div_lt_upper_bound]; lia.
Qed.

Lemma toUint8_mod (z : Z) : toUint8 (z mod 256) = toUint8 z.
Proof. unfold toUint8. by rewrite Z.mod_mod by lia. Qed.

Lemma toUint8_of_N (n : N) : toUint8 (Z.of_N n) = byte_of_N n.
Proof.
  unfold toUint8. change 256 with (Z.of_N 256). rewrite <- N2Z.inj_mod, N2Z.id. unfold byte_of_N. by rewrite N.Div0.mod_mod.
Qed.

(** ** Facts on the helpers *)

Lemma toString16_padded (b : byte) : padStart 2 x30 (toString16 b) = format_02x b.
Proof. by destruct b. Qed.

Lemma bytesToHex_format (l : bytes) : bytesToHex l = bytes_to_hex l.
Proof. unfold bytesToHex, bytes_to_hex. f_equal. apply map_ext. apply toString16_padded. Qed.

Lemma format_02x_inj (a b : byte) : format_02x a = format_02x b → a = b.
Proof.
  assert (Hd : ∀ c, match format_02x c with
                    | [h; l] => (default 0 (to_digit_16 h) * 16 + default 0 (to_digit_16 l))%N
                    | _ => 0%N
                    end = Byte.to_N c) by (by intros []).
  intros E. apply to_N_inj. by rewrite <- (Hd a), <- (Hd b), E.
Qed.

#[export] Instance bytesToHex_inj : Inj (=) (=) bytesToHex.
Proof.
  intros l k. rewrite !bytesToHex_format. revert k. induction l as [|a l IH]; intros [|b k]; try done.
  cbn [bytes_to_hex map concat]. intros E. apply app_inj_1 in E as [E1 E2]; [|done].
  f_equal; [by apply format_02x_inj|by apply IH].
Qed.

Lemma hex_compare (a b : bytes) : bool_decide (bytesToHex a = bytesToHex b) = bool_decide (a = b).
Proof. apply bool_decide_ext. split; [apply (inj bytesToHex)|congruence]. Qed.

Lemma u16ToBeBytes_be (n : N) : (n ≤ u16_max)%N → u16ToBeBytes (Z.of_N n) = u16_be n.
Proof.
  unfold u16_max. intros H. unfold u16ToBeBytes, u16_be. cbn [be_bytes Datatypes.app].
  rewrite !js_and_byte, !toUint8_mod, (toInt32_small (Z.of_N n)) by lia.
  rewrite js_shr_div, (toInt32_small (Z.of_N n)) by lia. change (2 ^ 8) with (Z.of_N 256).
  rewrite <- N2Z.inj_div, toInt32_small, !toUint8_of_N; [done|].
  assert (n / 256 ≤ 65535)%N as Hd by (apply N.Div0.div_le_upper_bound; lia).
  revert Hd. generalize (n / 256)%N. intros m Hm. lia.
Qed.

Lemma encodeTlv_header_be (r : TlvRecord) :
  (ty r ≤ u16_max)%N → (len (value r) ≤ u16_max)%N → encodeTlv_header r = u16_be (ty r) ++ u16_be (len (value r)).
Proof. intros H1 H2. by rewrite <- !u16ToBeBytes_be. Qed.

(** The encoder of the web client is that of the core. *)
Lemma encodeTlv_encode (rs : list TlvRecord) (b : bytes) :
  Forall (λ r, ty r ≤ u16_max)%N rs → encode rs = Ok b → encodeTlv rs = Ok b.
Proof.
  intros Hr He. unfold encodeTlv. cut (∃ c, encodeTlv_chunks rs = Ok c ∧ concat c = b).
  { by intros (c & -> & <-). }
  revert b He. induction Hr as [|r rs Ht Hr IH]; intros b He; [injection He as <-; by exists []|].
  apply encode_cons_ok in He as (Hl & rest & He & ->). destruct (IH rest He) as (c & Hc & <-).
  exists (encodeTlv_header r :: value r :: c). cbn [encodeTlv_chunks]. unfold u16_max in Hl.
  rewrite (proj2 (Z.ltb_ge _ _)), Hc by lia. split; [done|]. cbn [concat].
  rewrite encodeTlv_header_be by done. by rewrite <- !app_assoc.
Qed.

Lemma be_octet (n : N) (k : nat) (i : nat) :
  (i < k)%nat → be_bytes k n !! i = Some (byte_of_N (n / 256 ^ N.of_nat (k - 1 - i))%N).
Proof.
  revert n i. induction k as [|k IH]; intros n i Hi; [lia|]. cbn [be_bytes].
  destruct (decide (i < k)%nat) as [Hlt|Hge].
  - rewrite lookup_app_l by (by rewrite length_be_bytes). rewrite IH by done. do 2 f_equal.
    rewrite N.Div0.div_div. f_equal. replace (S k - 1 - i)%nat with (S (k - 1 - i)) by lia.
    by rewrite Nat2N.inj_succ, N.pow_succ_r'.
  - assert (i = k) as -> by lia. rewrite lookup_app_r by (rewrite length_be_bytes; lia).
    rewrite length_be_bytes, Nat.sub_diag. replace (S k - 1 - k)%nat with 0%nat by lia.
    cbn [lookup list_lookup]. by rewrite N.pow_0_r, N.div_1_r.
Qed.

Lemma i64ToBeBytes_be (z : Z) : i64ToBeBytes z = i64_be z.
Proof.
  apply list_eq. intros i. unfold i64ToBeBytes, i64_be. destruct (decide (i < 8)%nat) as [Hi|Hi].
  2: { rewrite !lookup_ge_None_2; [done|rewrite length_u64_be; lia|rewrite length_map, length_seq; lia]. }
  change (u64_be ?n) with (be_bytes 8 n). rewrite be_octet by done.
  rewrite list_lookup_fmap, lookup_seq_lt by done. cbn [fmap option_fmap option_map]. f_equal.
  rewrite (Z.land_ones _ 8), toUint8_mod by lia. rewrite Z.shiftr_div_pow2 by lia.
  rewrite <- toUint8_of_N, N2Z.inj_div, Z2N.id by (apply Z.mod_pos_bound; lia).
  rewrite N2Z.inj_pow, nat_N_Z. change (Z.of_N 256) with (2 ^ 8). rewrite <- Z.pow_mul_r by lia.
  replace (8 * Z.of_nat (8 - 1 - i)) with ((7 - Z.of_nat i) * 8) by lia.
  set (e := (7 - Z.of_nat i) * 8). assert (He : 0 ≤ e ≤ 56) by lia.
  assert (H64 : 2 ^ 64 = 2 ^ e * (256 * 2 ^ (56 - e))).
  { change 256 with (2 ^ 8). rewrite <- !Z.pow_add_r by lia. f_equal. lia. }
  pose proof (Z.pow_pos_nonneg 2 e ltac:(lia) ltac:(lia)). pose proof (Z.pow_pos_nonneg 2 (56 - e) ltac:(lia) ltac:(lia)).
  rewrite H64, Z.rem_mul_r by lia. rewrite (Z.mul_comm (2 ^ e) (_ mod _)), Z.div_add by lia.
  rewrite (Z.div_small (z mod 2 ^ e)) by (apply Z.mod_pos_bound; lia). rewrite Z.add_0_l.
  rewrite Z.rem_mul_r by lia. rewrite <- (toUint8_mod (_ + _)), (Z.mul_comm 256), Z.mod_add by lia.
  by rewrite !toUint8_mod.
Qed.

(** ** A concrete platform *)

#[export] Instance ToyWeb : WebPlatform := {|
  atob := b64_decode;
  btoa := b64_encode;
  noble_sign := λ m sk, if decide (length sk = 32%nat) then Some (ed_sign sk m) else None;
  noble_verify := λ sig m pk,
    Some match ed_key_from_bytes pk, ed_sig_from_slice sig with
         | Some k, Some s => ed_verify k m s
         | _, _ => false
         end;
|}.

#[export] Instance ToyWebLaws : WebPlatformLaws ToyWeb ToyBase64 ToyEd.
Proof.
  split; [done|apply b64_roundtrip| |].
  - intros m sk H. cbn [noble_sign ToyWeb]. by rewrite decide_True.
  - intros m sk H. cbn [noble_verify ToyWeb].
    destruct (ed_correct _ _ m (ed_public_pair sk H)) as (k & sg & -> & -> & ->). done.
Qed.
