(* ===== verification/WebTransparency.v ===== *)
(** * Transparency proofs in the web client ([mobile/web/src/crypto.ts])

    The verifier the web client runs in JavaScript where the compiled one is not
    available. It works on numbers: the tree sizes of a consistency proof pass
    through 32-bit operators. The theorems compare it with the core's verifier on
    the sizes these operators can hold, and say what happens beyond. *)

From Stdlib Require Import Strings.Byte.
From S2P Require Import Prelude Bytes Errors Tlv Crypto Toy Transparency Consistency ServerError Oprf ToyServer Android WebJs.
Local Open Scope Z_scope.

Definition TRANSPARENCY_LEAF_PREFIX : byte := x00.
Definition TRANSPARENCY_NODE_PREFIX : byte := x01.

Definition u32ToBeBytes (value : Z) : js bytes :=
  if negb (isSafeInteger value) || (value <? 0) || (0xffff_ffff <? value)
  then throw "Transparency field length overflow"
  else Ok [toUint8 (js_and (js_ushr value 24) 0xff); toUint8 (js_and (js_ushr value 16) 0xff);
           toUint8 (js_and (js_ushr value 8) 0xff); toUint8 (js_and value 0xff)].

(** The loop over [index], from the last octet to the first. *)
Fixpoint u64_octets (index : nat) (remaining : Z) (out : bytes) : bytes :=
  match index with
  | O => out
  | S index => u64_octets index (Z.shiftr remaining 8) (toUint8 (Z.land remaining 0xff) :: out)
  end.

Definition u64ToBeBytes (value : Z) : js bytes :=
  if negb (isSafeInteger value) || (value <? 0) then throw "Transparency integer overflow"
  else Ok (u64_octets 8 value []).

(** [while ((fn & 1) === 1)]. *)
Fixpoint while_odd (fuel : nat) (fn sn : Z) : js (Z * Z) :=
  if js_and fn 1 =? 1 then
    match fuel with
    | O => Err Diverges
    | S fuel => while_odd fuel (js_shr fn 1) (js_shr sn 1)
    end
  else Ok (fn, sn).

(** [while (fn !== 0 && (fn & 1) === 0)]. *)
Fixpoint while_even (fuel : nat) (fn sn : Z) : js (Z * Z) :=
  if negb (fn =? 0) && (js_and fn 1 =? 0) then
    match fuel with
    | O => Err Diverges
    | S fuel => while_even fuel (js_shr fn 1) (js_shr sn 1)
    end
  else Ok (fn, sn).

Section Fallback.
Context `{P : Primitives} `{W : WebPlatform}.

Definition decodeFixedLengthBase64 (field : string) (value : bytes) (expectedLength : nat) : js bytes :=
  let? bytes := base64ToBytes value in
  if negb (length bytes =? expectedLength)%nat
  then Err (Thrown (lit field ++ lit " must be " ++ decimal (N.of_nat expectedLength) ++ lit " bytes"))
  else Ok bytes.

(** The two parts pushed. *)
Definition updateLenPrefixed (bytes : bytes) : js (list Bytes.bytes) :=
  let? length := u32ToBeBytes (Z.of_N (len bytes)) in Ok [length; bytes].

(** An absent key, [null] and the empty string are all falsy. *)
Definition hashTransparencyLeaf (leaf : TransparencyLeafRecord) : js bytes :=
  let? identityX25519Pub := decodeFixedLengthBase64 "transparency.leaf.identity_x25519_pub"
                              (lr_identity_x25519_pub leaf) 32 in
  let? identitySigPub := base64ToBytes (lr_identity_sig_pub leaf) in
  let? user := updateLenPrefixed (lr_user_id leaf) in
  let? version := u64ToBeBytes (Z.of_N (lr_version leaf)) in
  let? sig := updateLenPrefixed identitySigPub in
  let? pq :=
    match lr_identity_pq_sig_pub leaf with
    | Some ((_ :: _) as identity_pq_sig_pub) =>
        let? key := base64ToBytes identity_pq_sig_pub in
        let? parts := updateLenPrefixed key in
        Ok ([x01] :: parts)
    | _ => Ok [[x00]]
    end in
  let? timestamp := u64ToBeBytes (Z.of_N (lr_timestamp leaf)) in
  Ok (sha256 (concatBytes ([[TRANSPARENCY_LEAF_PREFIX]] ++ user ++ [version; identityX25519Pub] ++ sig ++ pq
                             ++ [timestamp]))).

Definition hashTransparencyNode (left right : bytes) : bytes :=
  sha256 (concatBytes [[TRANSPARENCY_NODE_PREFIX]; left; right]).

Definition verifyTransparencySignedTreeHead (sth : TransparencySignedTreeHeadRecord) (serverPubKeyB64 : bytes)
    : js unit :=
  let? rootHash := decodeFixedLengthBase64 "transparency.signed_tree_head.root_hash" (sr_root_hash sth) 32 in
  let? signature := base64ToBytes (sr_signature sth) in
  let? publicKey := decodeFixedLengthBase64 "transparency.server_pub_key" serverPubKeyB64 32 in
  let? epoch := u64ToBeBytes (Z.of_N (sr_epoch sth)) in
  let? tree_size := u64ToBeBytes (Z.of_N (sr_tree_size sth)) in
  let body := concatBytes [epoch; tree_size; rootHash] in
  match noble_verify signature body publicKey with
  | Some true => Ok tt
  | Some false => throw "Transparency signed tree head signature verification failed"
  | None => throw "ed25519"
  end.

Fixpoint walkInclusionPath (current : bytes) (path : list TransparencyPathItem) : js bytes :=
  match path with
  | [] => Ok current
  | item :: path =>
      let? sibling := decodeFixedLengthBase64 "transparency.inclusion_proof.path.hash" (pi_hash item) 32 in
      walkInclusionPath (if pi_is_left item then hashTransparencyNode sibling current
                         else hashTransparencyNode current sibling) path
  end.

Definition verifyTransparencyInclusionProof (proof : TransparencyProofDocument) (serverPubKeyB64 : bytes)
    : js unit :=
  let? _ := verifyTransparencySignedTreeHead (pd_signed_tree_head proof) serverPubKeyB64 in
  let? leaf := hashTransparencyLeaf (pd_leaf proof) in
  let? current := walkInclusionPath leaf (ir_path (pd_inclusion_proof proof)) in
  let? rootHash := decodeFixedLengthBase64 "transparency.signed_tree_head.root_hash"
                     (sr_root_hash (pd_signed_tree_head proof)) 32 in
  if negb (bool_decide (bytesToHex current = bytesToHex rootHash))
  then throw "Transparency inclusion proof is invalid"
  else Ok tt.

Definition consistencyParametersInvalid {A} : js A := throw "Transparency consistency proof parameters are invalid".

(** The loops run on [fuel] turns each. *)
Section Loops.
Context (fuel : nat).

(** One turn of the loop over the proof hashes. *)
Definition consistencyStep (fn sn : Z) (oldNode newNode hash : bytes) : js (Z * Z * bytes * bytes) :=
  if sn =? 0 then consistencyParametersInvalid
  else
    if (js_and fn 1 =? 1) || (fn =? sn) then
      let oldNode := hashTransparencyNode hash oldNode in
      let newNode := hashTransparencyNode hash newNode in
      let? (fn, sn) := while_even fuel fn sn in
      Ok (js_shr fn 1, js_shr sn 1, oldNode, newNode)
    else
      let newNode := hashTransparencyNode newNode hash in
      Ok (js_shr fn 1, js_shr sn 1, oldNode, newNode).

Fixpoint consistencyLoop (fn sn : Z) (oldNode newNode : bytes) (hashes : list bytes)
    : js (Z * Z * bytes * bytes) :=
  match hashes with
  | [] => Ok (fn, sn, oldNode, newNode)
  | hash :: hashes =>
      let? (fn, sn, oldNode, newNode) := consistencyStep fn sn oldNode newNode hash in
      consistencyLoop fn sn oldNode newNode hashes
  end.

Definition evaluateTransparencyConsistencyProof (oldSize newSize : Z) (oldRootHash : bytes)
    (proofHashes : list bytes) : js (bytes * bytes) :=
  match proofHashes with
  | [] => consistencyParametersInvalid
  | first :: rest =>
      if (oldSize =? 0) || (newSize <? oldSize) then consistencyParametersInvalid
      else if oldSize =? newSize then consistencyParametersInvalid
      else
        let? (fn, sn) := while_odd fuel (oldSize - 1) (newSize - 1) in
        let '(node, hashes) :=
          if js_and oldSize (oldSize - 1) =? 0 then (oldRootHash, proofHashes) else (first, rest) in
        let? (fn, sn, oldNode, newNode) := consistencyLoop fn sn node node hashes in
        if negb (sn =? 0) then consistencyParametersInvalid else Ok (oldNode, newNode)
  end.

Definition verifyTransparencyConsistencyProof (proof : TransparencyProofDocument) (serverPubKeyB64 : bytes)
    (previousSth : TransparencySignedTreeHeadRecord) : js bool :=
  let sth := pd_signed_tree_head proof in
  let? _ := verifyTransparencySignedTreeHead previousSth serverPubKeyB64 in
  let? _ := verifyTransparencySignedTreeHead sth serverPubKeyB64 in
  if (sr_epoch sth <? sr_epoch previousSth)%N then throw "Transparency epoch regressed"
  else if (sr_tree_size sth <? sr_tree_size previousSth)%N then throw "Transparency tree shrank"
  else match pd_consistency_proof proof with
  | None => Ok false
  | Some consistency =>
      if negb (cr_old_size consistency =? sr_tree_size previousSth)%N
         || negb (cr_new_size consistency =? sr_tree_size sth)%N
      then throw "Transparency consistency proof size mismatch"
      else
        let? oldRootHash := decodeFixedLengthBase64 "transparency.previous_sth.root_hash"
                              (sr_root_hash previousSth) 32 in
        let? newRootHash := decodeFixedLengthBase64 "transparency.signed_tree_head.root_hash"
                              (sr_root_hash sth) 32 in
        if (sr_tree_size previousSth =? sr_tree_size sth)%N then
          if negb (bool_decide (bytesToHex oldRootHash = bytesToHex newRootHash))
          then throw "Transparency root hash mismatch"
          else Ok true
        else
          let? proofHashes := js_map (λ hash, decodeFixedLengthBase64 "transparency.consistency_proof.hash" hash 32)
                                (cr_proof_hashes consistency) in
          let? (oldRoot, newRoot) := evaluateTransparencyConsistencyProof (Z.of_N (sr_tree_size previousSth))
                                       (Z.of_N (sr_tree_size sth)) oldRootHash proofHashes in
          if negb (bool_decide (bytesToHex oldRoot = bytesToHex oldRootHash))
          then throw "Transparency old root mismatch"
          else if negb (bool_decide (bytesToHex newRoot = bytesToHex newRootHash))
          then throw "Transparency new root mismatch"
          else Ok true
  end.

Definition verifyTransparencyProofFallback (proof : TransparencyProofDocument) (serverPubKeyB64 : bytes)
    (previousSth : option TransparencySignedTreeHeadRecord) : js TransparencyVerificationResult :=
  let? _ := verifyTransparencyInclusionProof proof serverPubKeyB64 in
  let? consistencyVerified :=
    match previousSth with
    | Some previousSth => verifyTransparencyConsistencyProof proof serverPubKeyB64 previousSth
    | None => Ok false
    end in
  Ok (mkVerification true consistencyVerified (lr_user_id (pd_leaf proof)) (lr_version (pd_leaf proof))
        (sr_tree_size (pd_signed_tree_head proof)) (sr_epoch (pd_signed_tree_head proof))).
End Loops.
End Fallback.

(** ** Octets *)

Lemma toUint8_and (z : Z) : toUint8 (js_and z 0xff) = toUint8 z.
Proof.
  rewrite js_and_byte, toUint8_mod, <- toUint8_mod. unfold toInt32.
  rewrite <- Zminus_mod_idemp_l, Z.mod_mod_divide by (by exists (2 ^ 24)).
  rewrite Zminus_mod_idemp_l. replace (z + 2 ^ 31 - 2 ^ 31) with z by lia. apply toUint8_mod.
Qed.

Lemma safe_of_N (n : N) : (n ≤ 2 ^ 53 - 1)%N → negb (isSafeInteger (Z.of_N n)) || (Z.of_N n <? 0) = false.
Proof.
  intros H. unfold isSafeInteger, MAX_SAFE_INTEGER. apply orb_false_iff. split; [|lia].
  apply negb_false_iff, andb_true_iff. split; lia.
Qed.

Lemma toUint8_shift (n k : N) : (n ≤ u32_max)%N → toUint8 (js_ushr (Z.of_N n) (Z.of_N k)) = byte_of_N (n / 2 ^ k)%N.
Proof.
  unfold u32_max. intros H. unfold js_ushr, toUint32. rewrite Z.mod_small by lia.
  rewrite Z.shiftr_div_pow2 by lia. change 2 with (Z.of_N 2) at 1. rewrite <- N2Z.inj_pow, <- N2Z.inj_div. apply toUint8_of_N.
Qed.

Lemma u32ToBeBytes_be (n : N) : (n ≤ u32_max)%N → u32ToBeBytes (Z.of_N n) = Ok (u32_be n).
Proof.
  unfold u32ToBeBytes. intros H. rewrite safe_of_N by (unfold u32_max in H; lia).
  rewrite (proj2 (Z.ltb_ge _ _)) by (unfold u32_max in H; lia). cbn [orb]. f_equal.
  pose proof (toUint8_shift n 24 H) as H24. pose proof (toUint8_shift n 16 H) as H16. pose proof (toUint8_shift n 8 H) as H8.
  cbn [Z.of_N] in H24, H16, H8. rewrite !toUint8_and, H24, H16, H8, toUint8_of_N.
  unfold u32_be. cbn [be_bytes Datatypes.app]. by rewrite !N.Div0.div_div.
Qed.

Lemma u64_octets_be (k : nat) (n : N) (out : bytes) : u64_octets k (Z.of_N n) out = be_bytes k n ++ out.
Proof.
  revert n out. induction k as [|k IH]; intros n out; [done|]. cbn [u64_octets be_bytes].
  rewrite Z.shiftr_div_pow2, (Z.land_ones _ 8), toUint8_mod, toUint8_of_N by lia.
  change (2 ^ 8) with (Z.of_N 256). by rewrite <- N2Z.inj_div, IH, <- app_assoc.
Qed.

Lemma u64ToBeBytes_be (n : N) : (n ≤ 2 ^ 53 - 1)%N → u64ToBeBytes (Z.of_N n) = Ok (u64_be n).
Proof. intros H. unfold u64ToBeBytes. rewrite safe_of_N by done. by rewrite u64_octets_be, app_nil_r. Qed.

(** ** The loops on 32-bit sizes *)

Lemma of_N_eqb (a b : N) : (Z.of_N a =? Z.of_N b) = (a =? b)%N.
Proof. apply eq_true_iff_eq. rewrite Z.eqb_eq, N.eqb_eq. lia. Qed.

Lemma of_N_zero (a : N) : (Z.of_N a =? 0) = (a =? 0)%N.
Proof. exact (of_N_eqb a 0). Qed.

Lemma land_one (n : N) : N.land n 1 = (n mod 2)%N.
Proof. exact (N.land_ones n 1). Qed.

Lemma js_and_one_N (n : N) : (n < 2 ^ 31)%N → js_and (Z.of_N n) 1 = Z.of_N (N.land n 1).
Proof.
  intros H. rewrite js_and_one, toInt32_small by lia. by rewrite land_one, N2Z.inj_mod.
Qed.

Lemma js_odd (n : N) : (n < 2 ^ 31)%N → (js_and (Z.of_N n) 1 =? 1) = is_odd n.
Proof. intros H. rewrite js_and_one_N by done. unfold is_odd. apply eq_true_iff_eq. rewrite Z.eqb_eq, N.eqb_eq. lia. Qed.

Lemma js_even (n : N) : (n < 2 ^ 31)%N → (js_and (Z.of_N n) 1 =? 0) = negb (is_odd n).
Proof.
  intros H. rewrite js_and_one_N by done. unfold is_odd. rewrite land_one.
  pose proof (N.mod_lt n 2 ltac:(lia)) as Hm. revert Hm. generalize (n mod 2)%N. intros m Hm.
  apply eq_true_iff_eq. rewrite Z.eqb_eq, negb_true_iff, N.eqb_neq. lia.
Qed.

Lemma js_half (n : N) : (n < 2 ^ 31)%N → js_shr (Z.of_N n) 1 = Z.of_N (N.shiftr n 1).
Proof.
  intros H. rewrite js_shr_div, toInt32_small by lia. rewrite N.shiftr_div_pow2. by rewrite N2Z.inj_div.
Qed.

Lemma half_lt (n : N) (k : nat) : (n < 2 ^ N.of_nat (S k) → N.shiftr n 1 < 2 ^ N.of_nat k)%N.
Proof.
  intros H. rewrite pow2_S in H. rewrite N.shiftr_div_pow2. change (2 ^ 1)%N with 2%N.
  apply N.Div0.div_lt_upper_bound. lia.
Qed.

Lemma half_lt_31 (n : N) : (n < 2 ^ 31 → N.shiftr n 1 < 2 ^ 31)%N.
Proof. intros H. pose proof (half_lt n 30 H) as H'. change (N.of_nat 30) with 30%N in H'. lia. Qed.

Lemma below_bits (n : N) : (n < 2 ^ N.of_nat (bits n))%N.
Proof. unfold bits. rewrite N2Nat.id. apply N.size_gt. Qed.

Definition numbers (p : N * N) : Z * Z := (Z.of_N p.1, Z.of_N p.2).

Lemma while_odd_strip (fuel f : nat) (fn sn : N) :
  (fn < 2 ^ 31)%N → (sn < 2 ^ 31)%N → (fn < 2 ^ N.of_nat fuel)%N → (fn < 2 ^ N.of_nat f)%N →
  while_odd fuel (Z.of_N fn) (Z.of_N sn) = Ok (numbers (strip_ones f fn sn)).
Proof.
  revert f fn sn. induction fuel as [|fuel IH]; intros f fn sn H1 H2 Hf H.
  - assert (fn = 0)%N as -> by (simpl in Hf; lia). by destruct f.
  - cbn [while_odd]. rewrite js_odd by done. destruct (is_odd fn) eqn:Eo; [|destruct f; cbn [strip_ones]; by rewrite ?Eo].
    destruct f as [|f]; [assert (fn = 0)%N as -> by (simpl in H; lia); done|]. cbn [strip_ones]. rewrite Eo, !js_half by done.
    apply IH; [by apply half_lt_31..|by apply half_lt|by apply half_lt].
Qed.

Lemma while_even_strip (fuel f : nat) (fn sn : N) :
  (fn < 2 ^ 31)%N → (sn < 2 ^ 31)%N → (fn < 2 ^ N.of_nat fuel)%N → (fn < 2 ^ N.of_nat f)%N →
  while_even fuel (Z.of_N fn) (Z.of_N sn) = Ok (numbers (strip_zeros f fn sn)).
Proof.
  revert f fn sn. induction fuel as [|fuel IH]; intros f fn sn H1 H2 Hf H.
  - assert (fn = 0)%N as -> by (simpl in Hf; lia). by destruct f.
  - cbn [while_even]. rewrite of_N_zero, js_even by done.
    destruct (negb (fn =? 0)%N && negb (is_odd fn)) eqn:Eo; [|destruct f; cbn [strip_zeros]; by rewrite ?Eo].
    destruct f as [|f]; [assert (fn = 0)%N as -> by (simpl in H; lia); done|]. cbn [strip_zeros]. rewrite Eo, !js_half by done.
    apply IH; [by apply half_lt_31..|by apply half_lt|by apply half_lt].
Qed.

Lemma strip_zeros_lt (f : nat) (fn sn m : N) :
  (fn < m → sn < m → (strip_zeros f fn sn).1 < m ∧ (strip_zeros f fn sn).2 < m)%N.
Proof.
  assert (Hh : ∀ n, (N.shiftr n 1 ≤ n)%N) by (intros n; rewrite N.shiftr_div_pow2; by apply N.Div0.div_le_upper_bound; lia).
  revert fn sn. induction f as [|f IH]; intros fn sn H1 H2; [done|]. cbn [strip_zeros].
  destruct (_ && _); [|done]. pose proof (Hh fn). pose proof (Hh sn). apply IH; lia.
Qed.

Lemma strip_ones_lt (f : nat) (fn sn m : N) :
  (fn < m → sn < m → (strip_ones f fn sn).1 < m ∧ (strip_ones f fn sn).2 < m)%N.
Proof.
  assert (Hh : ∀ n, (N.shiftr n 1 ≤ n)%N) by (intros n; rewrite N.shiftr_div_pow2; by apply N.Div0.div_le_upper_bound; lia).
  revert fn sn. induction f as [|f IH]; intros fn sn H1 H2; [done|]. cbn [strip_ones].
  destruct (is_odd fn); [|done]. pose proof (Hh fn). pose proof (Hh sn). apply IH; lia.
Qed.

(** [n & (n - 1)] clears the lowest bit. *)
Lemma land_pred_power (n : N) : (0 < n)%N → (N.land n (n - 1) =? 0)%N = is_power_of_two n.
Proof.
  intros Hn. unfold is_power_of_two. rewrite (proj2 (N.ltb_lt 0 n) Hn). cbn [andb].
  destruct (N.log2_spec n Hn) as [Hlo Hhi]. rewrite N.pow_succ_r' in Hhi. apply eq_true_iff_eq. rewrite !N.eqb_eq. split.
  - intros H. destruct (decide (n = 2 ^ N.log2 n)%N) as [E|E]; [done|]. exfalso.
    assert (Hp : N.log2 (n - 1) = N.log2 n) by (apply N.log2_unique; [lia|rewrite N.pow_succ_r'; lia]).
    apply (f_equal (λ m, N.testbit m (N.log2 n))) in H. rewrite N.land_spec, N.bit_log2 in H by lia.
    rewrite <- Hp in H at 1. rewrite N.bit_log2 in H by lia. by rewrite N.bits_0 in H.
  - intros E. rewrite E at 1 2. rewrite <- N.pred_sub, <- N.ones_equiv, N.land_ones. apply N.Div0.mod_same.
Qed.

(** Both verifiers return the same, or both refuse. *)
Definition agree {E A} (x : js A) (y : result E A) : Prop :=
  match x, y with
  | Ok a, Ok b => a = b
  | Err (Thrown _), Err _ => True
  | _, _ => False
  end.

Section Equivalence.
Context `{P : Primitives} `{W : WebPlatform}.

Lemma hashTransparencyNode_node (l r : bytes) : hashTransparencyNode l r = hash_node l r.
Proof. unfold hashTransparencyNode, hash_node, node_preimage, concatBytes. cbn [concat]. by rewrite app_nil_r. Qed.

Context (fuel : nat) (Hfuel : (31 ≤ fuel)%nat).

Lemma fuel_enough (n : N) : (n < 2 ^ 31 → n < 2 ^ N.of_nat fuel)%N.
Proof. intros H. eapply N.lt_le_trans; [exact H|]. apply N.pow_le_mono_r; lia. Qed.

Lemma consistencyLoop_eval (fn sn : N) (o w : bytes) (hashes : list bytes) :
  (fn < 2 ^ 31)%N → (sn < 2 ^ 31)%N →
  match eval_loop fn sn o w hashes with
  | Ok (fn', sn', o', w') => consistencyLoop fuel (Z.of_N fn) (Z.of_N sn) o w hashes = Ok (Z.of_N fn', Z.of_N sn', o', w')
  | Err _ => consistencyLoop fuel (Z.of_N fn) (Z.of_N sn) o w hashes = consistencyParametersInvalid
  end.
Proof.
  revert fn sn o w. induction hashes as [|hash hashes IH]; intros fn sn o w H1 H2; [done|].
  cbn [eval_loop consistencyLoop]. unfold eval_step, consistencyStep. rewrite of_N_zero.
  destruct (sn =? 0)%N; [done|]. rewrite js_odd, of_N_eqb by done. destruct (is_odd fn || (fn =? sn)%N).
  - rewrite (while_even_strip fuel (bits fn)) by (first [done|by apply fuel_enough|apply below_bits]).
    destruct (strip_zeros_lt (bits fn) fn sn _ H1 H2) as [H3 H4].
    destruct (strip_zeros (bits fn) fn sn) as [fn' sn']. cbn [numbers fst snd] in *.
    rewrite !js_half, !hashTransparencyNode_node by done. apply IH; by apply half_lt_31.
  - rewrite !js_half, !hashTransparencyNode_node by done. apply IH; by apply half_lt_31.
Qed.

(** The evaluators agree as long as the sizes stay below [2 ^ 31]. *)
Lemma evaluate_agrees (old new : N) (root : bytes) (hashes : list bytes) :
  (new ≤ 2 ^ 31)%N →
  agree (evaluateTransparencyConsistencyProof fuel (Z.of_N old) (Z.of_N new) root hashes)
    (evaluate_consistency_proof old new root hashes).
Proof.
  intros Hn. unfold evaluateTransparencyConsistencyProof, evaluate_consistency_proof.
  rewrite of_N_zero, of_N_eqb. replace (Z.of_N new <? Z.of_N old) with (new <? old)%N
    by (apply eq_true_iff_eq; rewrite Z.ltb_lt, N.ltb_lt; lia).
  destruct (old =? 0)%N eqn:Ez; [by destruct hashes|]. destruct (new <? old)%N eqn:El; [by destruct hashes|].
  destruct (old =? new)%N eqn:Ee; [by destruct hashes|]. cbn [orb]. destruct hashes as [|first rest]; [done|].
  apply N.eqb_neq in Ez, Ee. apply N.ltb_ge in El.
  replace (Z.of_N old - 1) with (Z.of_N (old - 1)) by lia. replace (Z.of_N new - 1) with (Z.of_N (new - 1)) by lia.
  assert (H1 : (old - 1 < 2 ^ 31)%N) by lia. assert (H2 : (new - 1 < 2 ^ 31)%N) by lia.
  rewrite (while_odd_strip fuel (bits (old - 1))) by (first [done|by apply fuel_enough|apply below_bits]).
  destruct (strip_ones_lt (bits (old - 1)) _ _ _ H1 H2) as [H3 H4].
  destruct (strip_ones _ _ _) as [fn sn]. cbn [numbers fst snd] in *.
  replace (js_and _ _ =? 0) with (is_power_of_two old).
  2: { rewrite <- land_pred_power by lia. unfold js_and. rewrite !toInt32_small by lia.
       by rewrite <- N2Z.inj_land, of_N_zero. }
  destruct (if is_power_of_two old then _ else _) as [node l].
  pose proof (consistencyLoop_eval fn sn node node l H3 H4) as H.
  destruct (eval_loop fn sn node node l) as [[[[fn' sn'] o'] w']|]; rewrite H; [|done].
  rewrite of_N_zero. by destruct (sn' =? 0)%N.
Qed.
End Equivalence.

(** ** Beyond 32 bits *)

Lemma while_odd_ends (k fuel : nat) (fn sn : Z) :
  - 2 ^ Z.of_nat k ≤ toInt32 fn < 2 ^ Z.of_nat k → toInt32 fn ≠ -1 → (k ≤ fuel)%nat →
  while_odd fuel fn sn ≠ Err Diverges.
Proof.
  revert fuel fn sn. induction k as [|k IH]; intros fuel fn sn H Hne Hf.
  - assert (E : toInt32 fn = 0) by (simpl in H; lia).
    destruct fuel; cbn [while_odd]; by rewrite js_and_one, E.
  - destruct fuel as [|fuel]; [lia|]. cbn [while_odd]. rewrite js_and_one.
    destruct (toInt32 fn mod 2 =? 1) eqn:Eo; [|done]. apply Z.eqb_eq in Eo.
    rewrite Nat2Z.inj_succ, Z.pow_succ_r in H by lia. pose proof (Z.div_mod (toInt32 fn) 2 ltac:(lia)) as Hd.
    assert (Hi : toInt32 (js_shr fn 1) = toInt32 fn / 2).
    { pose proof (js_shr_range fn). rewrite toInt32_small by lia. by rewrite js_shr_div. }
    apply IH; [rewrite Hi; lia..|lia].
Qed.

Lemma while_even_ends (k fuel : nat) (fn sn : Z) :
  - 2 ^ Z.of_nat k ≤ toInt32 fn < 2 ^ Z.of_nat k → (k < fuel)%nat → while_even fuel fn sn ≠ Err Diverges.
Proof.
  revert fuel fn sn. induction k as [|k IH]; intros fuel fn sn H Hf; (destruct fuel as [|fuel]; [lia|]);
    cbn [while_even]; rewrite js_and_one; (destruct (negb (fn =? 0) && _) eqn:Ec; [|done]);
    apply andb_true_iff in Ec as [_ Eo%Z.eqb_eq].
  - assert (E : toInt32 fn = 0) by (destruct (decide (toInt32 fn = -1)) as [E|E]; [by rewrite E in Eo|simpl in H; lia]).
    rewrite js_shr_div, E by lia. by destruct fuel.
  - rewrite Nat2Z.inj_succ, Z.pow_succ_r in H by lia. pose proof (Z.div_mod (toInt32 fn) 2 ltac:(lia)) as Hd.
    apply IH; [|lia]. pose proof (js_shr_range fn). rewrite toInt32_small, js_shr_div by lia. change (2 ^ 1) with 2. lia.
Qed.

(** An index of ones only: the shift keeps the sign. *)
Lemma while_odd_stuck (fuel : nat) (fn sn : Z) : toInt32 fn = -1 → while_odd fuel fn sn = Err Diverges.
Proof.
  revert fn sn. induction fuel as [|fuel IH]; intros fn sn H; cbn [while_odd]; rewrite js_and_one, H; [done|].
  apply IH. by rewrite js_shr_div, H.
Qed.

Lemma toInt32_ones (z : Z) : toInt32 (z - 1) = -1 ↔ z mod 2 ^ 32 = 0.
Proof.
  unfold toInt32. split; intros H.
  - pose proof (Z.div_mod (z - 1 + 2 ^ 31) (2 ^ 32) ltac:(lia)) as Hd.
    apply Z.mod_divide; [lia|]. exists ((z - 1 + 2 ^ 31) / 2 ^ 32). lia.
  - apply Z.mod_divide in H as [q ->]; [|lia].
    replace (q * 2 ^ 32 - 1 + 2 ^ 31) with (2 ^ 31 - 1 + q * 2 ^ 32) by lia. by rewrite Z.mod_add.
Qed.

Section Sizes.
Context `{P : Primitives}.

Lemma consistencyLoop_ends (fuel : nat) (fn sn : Z) (o w : bytes) (hashes : list bytes) :
  (32 ≤ fuel)%nat → consistencyLoop fuel fn sn o w hashes ≠ Err Diverges.
Proof.
  intros Hf. revert fn sn o w. induction hashes as [|hash hashes IH]; intros fn sn o w; [done|].
  cbn [consistencyLoop]. unfold consistencyStep. destruct (sn =? 0); [done|]. destruct (_ || _); [|apply IH].
  pose proof (while_even_ends 31 fuel fn sn (toInt32_range fn) ltac:(lia)).
  destruct (while_even fuel fn sn) as [[fn' sn']|[]]; [apply IH|done..].
Qed.

(** The evaluation of a consistency proof in the web client ends for all
    sizes and hashes (in 32 turns of each inner loop at most) except for one
    kind: an old size that is a positive multiple of [2 ^ 32], with a larger
    new size and a hash. There the first loop never ends, whatever the number
    of turns: the index [oldSize - 1] is the 32-bit integer [-1], which the
    arithmetic shift reproduces. *)
Theorem web_evaluation_terminates (oldSize newSize : Z) (root : bytes) (hashes : list bytes) :
  let evaluate fuel := evaluateTransparencyConsistencyProof fuel oldSize newSize root hashes in
  if decide (0 ≠ oldSize ∧ oldSize < newSize ∧ hashes ≠ [] ∧ oldSize mod 2 ^ 32 = 0)
  then ∀ fuel, evaluate fuel = Err Diverges
  else ∀ fuel, (32 ≤ fuel)%nat → evaluate fuel ≠ Err Diverges.
Proof.
  intros evaluate. unfold evaluate, evaluateTransparencyConsistencyProof.
  case_decide as Hd; intros fuel; [destruct Hd as (H0 & H1 & Hh & Hm)|intros Hf].
  - destruct hashes as [|h hashes]; [done|]. rewrite (proj2 (Z.eqb_neq oldSize 0)) by lia.
    rewrite (proj2 (Z.ltb_ge newSize oldSize)), (proj2 (Z.eqb_neq oldSize newSize)) by lia. cbn [orb].
    by rewrite while_odd_stuck by (by apply toInt32_ones).
  - destruct hashes as [|h hashes]; [done|]. destruct (oldSize =? 0) eqn:E0; [done|]. destruct (newSize <? oldSize) eqn:E1; [done|].
    destruct (oldSize =? newSize) eqn:E2; [done|]. cbn [orb]. apply Z.eqb_neq in E0, E2. apply Z.ltb_ge in E1.
    assert (Hne : toInt32 (oldSize - 1) ≠ -1) by (rewrite toInt32_ones; intros Hm; apply Hd; repeat split; [lia..|done|done]).
    pose proof (while_odd_ends 31 fuel (oldSize - 1) (newSize - 1) (toInt32_range _) Hne ltac:(lia)).
    destruct (while_odd _ _ _) as [[fn sn]|[]]; [|done..].
    assert (Hl : ∀ node l, consistencyLoop fuel fn sn node node l ≠ Err Diverges) by (intros; by apply consistencyLoop_ends).
    destruct (js_and _ _ =? 0);
      match goal with |- context [consistencyLoop _ _ _ ?node _ ?l] => specialize (Hl node l) end;
      (destruct (consistencyLoop _ _ _ _ _ _) as [[[[fn' sn'] o] w]|[]]; [by destruct (sn' =? 0)|done..]).
Qed.

(** Beyond 32 bits the web client takes proofs for what they are not. From a
    log of one entry to a log of [2 ^ 32 + 1] entries, one hash of anyone's
    choice passes as a proof: the index of the new size is cut to zero by the
    first shift. The new root that is accepted is the hash of the old root with
    that hash, though a proof for these sizes has 33 hashes; the core's evaluation
    refuses it. *)
Theorem web_short_proof_accepted (fuel : nat) (root hash : bytes) :
  evaluateTransparencyConsistencyProof fuel 1 (2 ^ 32 + 1) root [hash] = Ok (root, hash_node root hash) ∧
  evaluate_consistency_proof 1 (2 ^ 32 + 1) root [hash] = invalid_params.
Proof.
  split; [|reflexivity]. rewrite <- hashTransparencyNode_node. unfold evaluateTransparencyConsistencyProof.
  by destruct fuel.
Qed.
End Sizes.

(** ** The whole verification *)

Section Documents.
Context `{P : Primitives} `{V : Ed25519} `{B : Base64} `{W : WebPlatform}.

(** The texts of the document are base64 of the lengths required. *)
Definition well_encoded (document : TransparencyProofDocument) (server_pub_key_b64 : bytes)
    (previous_sth : option TransparencySignedTreeHeadRecord) : bool :=
  is_ok (parse_transparency_leaf (pd_leaf document)) &&
  is_ok (traverse_droid (λ item, decode_b64_32 "transparency.inclusion_proof.path.hash" (pi_hash item))
           (ir_path (pd_inclusion_proof document))) &&
  is_ok (parse_transparency_sth (pd_signed_tree_head document)) &&
  is_ok (decode_b64_32 "transparency.server_pub_key" server_pub_key_b64) &&
  match previous_sth with Some sth => is_ok (parse_transparency_sth sth) | None => true end &&
  match pd_consistency_proof document with
  | Some c => is_ok (traverse_droid (decode_b64_32 "transparency.consistency_proof.hash") (cr_proof_hashes c))
  | None => true
  end.

(** Numbers a [number] can hold, a log of [2 ^ 31] entries at most, texts
    shorter than 4 GiB, and no empty post-quantum key. *)
Definition web_sized (document : TransparencyProofDocument)
    (previous_sth : option TransparencySignedTreeHeadRecord) : Prop :=
  let leaf := pd_leaf document in
  let sth := pd_signed_tree_head document in
  (lr_version leaf ≤ 2 ^ 53 - 1 ∧ lr_timestamp leaf ≤ 2 ^ 53 - 1 ∧ len (lr_user_id leaf) ≤ u32_max ∧
   (∀ sig, b64_decode (lr_identity_sig_pub leaf) = Some sig → len sig ≤ u32_max) ∧
   (∀ text pq, lr_identity_pq_sig_pub leaf = Some text → b64_decode text = Some pq → text ≠ [] ∧ len pq ≤ u32_max) ∧
   sr_epoch sth ≤ 2 ^ 53 - 1 ∧ sr_tree_size sth ≤ 2 ^ 31 ∧
   ∀ p, previous_sth = Some p → sr_epoch p ≤ 2 ^ 53 - 1 ∧ sr_tree_size p ≤ 2 ^ 53 - 1)%N.

(** The two Ed25519 libraries judge the signature of a head alike. *)
Definition judged_alike (server_pub_key_b64 : bytes) (record : TransparencySignedTreeHeadRecord) : Prop :=
  ∀ pk sth, b64_decode server_pub_key_b64 = Some pk → parse_transparency_sth record = Ok sth →
    noble_verify (sth_signature sth) (signing_body sth) pk = Some true ↔
    ∃ k, ed_key_from_bytes pk = Some k ∧ SignedTreeHead_verify sth k = Ok tt.

Context `{BL : !Base64Laws B} `{WL : !WebPlatformLaws W B V}.

Lemma decodes_alike (value b : bytes) : b64_decode value = Some b → base64ToBytes value = Ok b.
Proof. intros ->%b64_canonical. unfold base64ToBytes. by rewrite (atob_standard (B := B)). Qed.

Lemma decode_b64_alike (field : string) (value b : bytes) : decode_b64 field value = Ok b → base64ToBytes value = Ok b.
Proof. unfold decode_b64. intros H. apply decodes_alike. by destruct (b64_decode value); [injection H as ->|]. Qed.

Lemma decode_32_alike (field field' : string) (value b : bytes) :
  decode_b64_32 field value = Ok b → decodeFixedLengthBase64 field' value 32 = Ok b.
Proof.
  unfold decode_b64_32, decodeFixedLengthBase64. intros H.
  destruct (decode_b64 field value) as [b'|] eqn:Hb; [|done]. destruct (len b' =? 32)%N eqn:El; [|done].
  injection H as <-. rewrite (decode_b64_alike _ _ _ Hb). by rewrite (proj2 (Nat.eqb_eq _ _)) by (apply N.eqb_eq in El; unfold len in El; lia).
Qed.

Lemma path_alike (items : list TransparencyPathItem) (hashes : list bytes) (current : bytes) :
  traverse_droid (λ item, decode_b64_32 "transparency.inclusion_proof.path.hash" (pi_hash item)) items = Ok hashes →
  walkInclusionPath current items = Ok (walk_path current (zip hashes (map pi_is_left items))) ∧
  traverse_droid (λ item, let? hash := decode_b64_32 "transparency.inclusion_proof.path.hash" (pi_hash item) in
                          Ok (hash, pi_is_left item)) items = Ok (zip hashes (map pi_is_left items)).
Proof.
  revert hashes current. induction items as [|item items IH]; intros hashes current H; [injection H as <-; done|].
  cbn [traverse_droid] in H. destruct (decode_b64_32 _ _) as [h|] eqn:Hh; [|done].
  destruct (traverse_droid _ _) as [r|] eqn:Hr; [|done]. injection H as <-.
  cbn [walkInclusionPath traverse_droid map zip zip_with walk_path]. rewrite Hh, (decode_32_alike _ _ _ _ Hh).
  rewrite !hashTransparencyNode_node. destruct (IH r (if pi_is_left item then hash_node h current else hash_node current h) eq_refl) as [-> ->].
  done.
Qed.

Lemma hashes_alike (texts hashes : list bytes) :
  traverse_droid (decode_b64_32 "transparency.consistency_proof.hash") texts = Ok hashes →
  js_map (λ hash, decodeFixedLengthBase64 "transparency.consistency_proof.hash" hash 32) texts = Ok hashes.
Proof.
  revert hashes. induction texts as [|t texts IH]; intros hashes H; [by injection H as <-|].
  cbn [traverse_droid] in H. destruct (decode_b64_32 _ _) as [h|] eqn:Hh; [|done].
  destruct (traverse_droid _ _) as [r|] eqn:Hr; [|done]. injection H as <-.
  cbn [js_map]. by rewrite (decode_32_alike _ _ _ _ Hh), (IH r eq_refl).
Qed.

Lemma len_prefixed_alike (b : bytes) : (len b ≤ u32_max)%N → updateLenPrefixed b = Ok [u32_be (len b); b].
Proof. intros H. unfold updateLenPrefixed. by rewrite u32ToBeBytes_be. Qed.

Lemma leaf_alike (document : TransparencyProofDocument) (previous : option TransparencySignedTreeHeadRecord)
    (leaf : TransparencyLeaf) :
  web_sized document previous → parse_transparency_leaf (pd_leaf document) = Ok leaf →
  hashTransparencyLeaf (pd_leaf document) = Ok (TransparencyLeaf_hash leaf).
Proof.
  destruct document as [[user version x sig pq ts] ip sth cons]. unfold web_sized. cbn.
  intros (Hv & Ht & Hu & Hs & Hp & _) H. unfold parse_transparency_leaf in H. cbn in H.
  destruct (decode_b64_32 _ x) as [x'|] eqn:Ex; [|done]. destruct (decode_b64 _ sig) as [sig'|] eqn:Es; [|done].
  assert (Hsl : (len sig' ≤ u32_max)%N) by (apply Hs; unfold decode_b64 in Es; destruct (b64_decode sig); [by injection Es as ->|done]).
  unfold hashTransparencyLeaf, TransparencyLeaf_hash, leaf_preimage.
  cbn -[base64ToBytes decodeFixedLengthBase64 updateLenPrefixed u64ToBeBytes].
  rewrite (decode_32_alike _ _ _ _ Ex), (decode_b64_alike _ _ _ Es), len_prefixed_alike, u64ToBeBytes_be, len_prefixed_alike by done.
  destruct pq as [text|]; cbn [opt_droid] in H.
  - destruct (decode_b64 _ text) as [key|] eqn:Ek; [|done]. injection H as <-.
    destruct (Hp text key eq_refl) as [Hne Hkl].
    { unfold decode_b64 in Ek. destruct (b64_decode text); [by injection Ek as ->|done]. }
    destruct text as [|c text]; [done|].
    rewrite (decode_b64_alike _ _ _ Ek), len_prefixed_alike, u64ToBeBytes_be by done.
    unfold update_len_prefixed, concatBytes. cbn. by rewrite <- !app_assoc, ?app_nil_r.
  - injection H as <-. rewrite u64ToBeBytes_be by done. unfold update_len_prefixed, concatBytes. cbn.
    by rewrite <- !app_assoc, ?app_nil_r.
Qed.

(** A head passes in the browser when the core accepts it, and throws otherwise. *)
Lemma head_alike (record : TransparencySignedTreeHeadRecord) (key pk : bytes) (sth : SignedTreeHead) :
  (sr_epoch record ≤ 2 ^ 53 - 1)%N → (sr_tree_size record ≤ 2 ^ 53 - 1)%N →
  decode_b64_32 "transparency.server_pub_key" key = Ok pk → parse_transparency_sth record = Ok sth →
  judged_alike key record →
  (∃ k, ed_key_from_bytes pk = Some k ∧ SignedTreeHead_verify sth k = Ok tt ∧
        verifyTransparencySignedTreeHead record key = Ok tt) ∨
  ((∀ k, ed_key_from_bytes pk = Some k → SignedTreeHead_verify sth k ≠ Ok tt) ∧
   ∃ m, verifyTransparencySignedTreeHead record key = Err (Thrown m)).
Proof.
  intros He Hs Hk Hp Hj. assert (Hd : b64_decode key = Some pk).
  { revert Hk. unfold decode_b64_32, decode_b64. destruct (b64_decode key); [|done]. cbn [ok_or].
    destruct (negb _); [done|]. by intros [= ->]. }
  specialize (Hj pk sth Hd Hp). unfold parse_transparency_sth in Hp.
  destruct (decode_b64_32 _ (sr_root_hash record)) as [root|] eqn:Er; [|done].
  destruct (decode_b64 _ _) as [sig|] eqn:Eg; [|done]. injection Hp as <-.
  unfold verifyTransparencySignedTreeHead. rewrite (decode_32_alike _ _ _ _ Er), (decode_b64_alike _ _ _ Eg).
  rewrite (decode_32_alike _ _ _ _ Hk), !u64ToBeBytes_be by done.
  unfold signing_body, concatBytes in *. cbn [concat sth_signature sth_epoch sth_tree_size sth_root_hash] in *. rewrite app_nil_r.
  destruct (noble_verify _ _ _) as [[]|].
  - left. destruct (proj1 Hj eq_refl) as (k & H1 & H2). eauto.
  - right. split; [|by eexists]. intros k H1 H2. by discriminate (proj2 Hj (ex_intro _ k (conj H1 H2))).
  - right. split; [|by eexists]. intros k H1 H2. by discriminate (proj2 Hj (ex_intro _ k (conj H1 H2))).
Qed.

Lemma inclusion_alike (document : TransparencyProofDocument) (previous : option TransparencySignedTreeHeadRecord)
    (key pk : bytes) (leaf : TransparencyLeaf) (hashes : list bytes) (sth : SignedTreeHead) (i : N) :
  web_sized document previous → decode_b64_32 "transparency.server_pub_key" key = Ok pk →
  parse_transparency_leaf (pd_leaf document) = Ok leaf →
  traverse_droid (λ item, decode_b64_32 "transparency.inclusion_proof.path.hash" (pi_hash item))
    (ir_path (pd_inclusion_proof document)) = Ok hashes →
  parse_transparency_sth (pd_signed_tree_head document) = Ok sth →
  judged_alike key (pd_signed_tree_head document) →
  let inclusion := mkInclusion i (zip hashes (map pi_is_left (ir_path (pd_inclusion_proof document)))) in
  (∃ k, ed_key_from_bytes pk = Some k ∧ SignedTreeHead_verify sth k = Ok tt ∧
     verify_inclusion_proof (TransparencyLeaf_hash leaf) inclusion sth k = Ok tt ∧
     verifyTransparencyInclusionProof document key = Ok tt) ∨
  ((∀ k, ed_key_from_bytes pk = Some k → verify_inclusion_proof (TransparencyLeaf_hash leaf) inclusion sth k ≠ Ok tt) ∧
   ∃ m, verifyTransparencyInclusionProof document key = Err (Thrown m)).
Proof.
  intros Hw Hk Hl Hh Hs Hj inclusion. pose proof Hw as (_ & _ & _ & _ & _ & He & Ht & _).
  unfold verifyTransparencyInclusionProof, verify_inclusion_proof.
  destruct (head_alike (pd_signed_tree_head document) key pk sth) as [(k & H1 & H2 & ->)|[Hno [m ->]]]; [lia|lia|done..| |].
  2: { right. split; [|by exists m]. intros k H1. specialize (Hno k H1).
       destruct (SignedTreeHead_verify sth k) as [[]|]; [done|by intros [=]]. }
  rewrite (leaf_alike document previous leaf Hw Hl).
  destruct (path_alike _ hashes (TransparencyLeaf_hash leaf) Hh) as [-> _].
  unfold parse_transparency_sth in Hs. destruct (decode_b64_32 _ (sr_root_hash _)) as [root|] eqn:Er; [|done].
  rewrite (decode_32_alike _ _ _ _ Er), hex_compare. destruct (decode_b64 _ _) as [sig|]; [|done]. injection Hs as <-.
  cbn [ip_path sth_root_hash inclusion] in *. case_bool_decide as Hroot; cbn [negb].
  - left. exists k. by rewrite H2.
  - right. split; [|by eexists]. intros k' H'. by destruct (SignedTreeHead_verify _ k').
Qed.

Lemma consistency_alike (fuel : nat) (document : TransparencyProofDocument)
    (previous : TransparencySignedTreeHeadRecord) (c : TransparencyConsistencyProofRecord)
    (key pk : bytes) (k : ed_key) (hashes : list bytes) (sth psth : SignedTreeHead) :
  (31 ≤ fuel)%nat → web_sized document (Some previous) → pd_consistency_proof document = Some c →
  decode_b64_32 "transparency.server_pub_key" key = Ok pk → ed_key_from_bytes pk = Some k →
  parse_transparency_sth (pd_signed_tree_head document) = Ok sth → parse_transparency_sth previous = Ok psth →
  traverse_droid (decode_b64_32 "transparency.consistency_proof.hash") (cr_proof_hashes c) = Ok hashes →
  judged_alike key (pd_signed_tree_head document) → judged_alike key previous →
  agree (verifyTransparencyConsistencyProof fuel document key previous)
    (let? _ := verify_consistency_proof psth sth (mkConsistency (cr_old_size c) (cr_new_size c) hashes) k in Ok true).
Proof.
  intros Hf Hw Hc Hk Hek Hs Hp Hh Hj Hjp. pose proof Hw as (_ & _ & _ & _ & _ & He & Ht & Hprev).
  destruct (Hprev previous eq_refl) as [Hpe Hpt]. unfold verifyTransparencyConsistencyProof, verify_consistency_proof.
  destruct (head_alike previous key pk psth) as [(k1 & H1 & H2 & ->)|[Hno [m ->]]]; [lia|lia|done..| |].
  2: { specialize (Hno k Hek). by destruct (SignedTreeHead_verify psth k) as [[]|]. }
  destruct (head_alike (pd_signed_tree_head document) key pk sth) as [(k2 & H3 & H4 & ->)|[Hno [m ->]]]; [lia|lia|done..| |].
  2: { specialize (Hno k Hek). assert (k1 = k) as -> by congruence. rewrite H2. by destruct (SignedTreeHead_verify sth k) as [[]|]. }
  assert (k1 = k) as -> by congruence. assert (k2 = k) as -> by congruence. rewrite H2, H4. clear H1 H2 H3 H4.
  unfold parse_transparency_sth in Hs, Hp.
  destruct (decode_b64_32 _ (sr_root_hash (pd_signed_tree_head document))) as [root|] eqn:Er; [|done].
  destruct (decode_b64 _ (sr_signature (pd_signed_tree_head document))) as [sig|]; [|done]. injection Hs as <-.
  destruct (decode_b64_32 _ (sr_root_hash previous)) as [proot|] eqn:Ep; [|done].
  destruct (decode_b64 _ (sr_signature previous)) as [psig|]; [|done]. injection Hp as <-.
  cbn [sth_epoch sth_tree_size sth_root_hash cp_old_size cp_new_size cp_proof_hashes]. rewrite Hc.
  destruct (_ <? _)%N; [done|]. destruct (_ <? _)%N; [done|]. destruct (negb _ || negb _); [done|].
  rewrite (decode_32_alike _ _ _ _ Er), (decode_32_alike _ _ _ _ Ep), (hashes_alike _ _ Hh).
  destruct (sr_tree_size previous =? _)%N; [rewrite hex_compare; by destruct (bool_decide _)|].
  pose proof (evaluate_agrees fuel Hf (sr_tree_size previous) (sr_tree_size (pd_signed_tree_head document)) proot hashes Ht) as Ha.
  destruct (evaluateTransparencyConsistencyProof _ _ _ _ _) as [[o w]|[]], (evaluate_consistency_proof _ _ _ _) as [[o' w']|]; try done.
  injection Ha as -> ->. rewrite !hex_compare. destruct (bool_decide _); [|done]. by destruct (bool_decide _).
Qed.
End Documents.


(** ** A concrete document *)

Lemma toy_judged_alike (key : bytes) (record : TransparencySignedTreeHeadRecord) : judged_alike key record.
Proof.
  intros pk sth _ _. unfold SignedTreeHead_verify. cbn [noble_verify ToyWeb].
  destruct (ed_key_from_bytes pk) as [k|]; [|split; [done|by intros (? & ? & _)]].
  destruct (ed_sig_from_slice (sth_signature sth)) as [s|]; cbn [ok_or].
  - destruct (ed_verify k (signing_body sth) s) eqn:E.
    + split; [|done]. intros _. exists k. by rewrite E.
    + split; [done|]. intros (k' & [= <-] & H). by rewrite E in H.
  - split; [done|]. by intros (k' & _ & H).
Qed.

Definition toy_leaf_record (version : N) : TransparencyLeafRecord :=
  mkLeafRecord (lit "alice") version (b64_encode (toy_key 3)) (b64_encode (toy_key 4)) (Some (b64_encode (lit "pq"))) 77.

Definition toy_leaf_hash (version : N) : bytes :=
  TransparencyLeaf_hash (mkLeaf (lit "alice") version (toy_key 3) (toy_key 4) (Some (lit "pq")) 77).

Definition toy_head (epoch size : N) (root : bytes) : TransparencySignedTreeHeadRecord :=
  mkSthRecord epoch size (b64_encode root) (b64_encode (ed_sign (toy_key 7) (signing_body (mkSth epoch size root [])))).

Definition toy_document : TransparencyProofDocument :=
  mkDocument (toy_leaf_record 1) (mkInclusionRecord 0 [mkPathItem (b64_encode (toy_leaf_hash 2)) false])
    (toy_head 5 2 (hash_node (toy_leaf_hash 1) (toy_leaf_hash 2)))
    (Some (mkConsistencyRecord 1 2 [b64_encode (toy_leaf_hash 2)])).

