(* ===== verification/WebAuth.v ===== *)
(** * Signed requests of the web client ([mobile/web/src/crypto.ts])

    One function per endpoint builds the authentication headers of a request.
    At 32 endpoints the transcript is the one the server rebuilds, and a request
    of a registered device passes. Creating a group is an exception: client and
    server hash different octets. *)

From Stdlib Require Import Strings.Byte.
From S2P Require Import Prelude Bytes Errors Tlv Crypto Toy ServerError Validation RequestAuth Caches Realtime ServerState ToyServer ServerFrame ServerAuth ClientAuth Android AndroidAuth Oprf Objects WebJs.
Local Open Scope N_scope.

(** ** Record types *)

Definition WEB_AUTH_TAG_ENDPOINT : N := criticalType 0x3201.
Definition WEB_AUTH_TAG_USER_ID : N := criticalType 0x3202.
Definition WEB_AUTH_TAG_DEVICE_ID : N := criticalType 0x3203.
Definition WEB_AUTH_TAG_TIMESTAMP : N := criticalType 0x3204.
Definition WEB_AUTH_TAG_NONCE : N := criticalType 0x3205.
Definition WEB_AUTH_TAG_RECIPIENT_ID : N := criticalType 0x3206.
Definition WEB_AUTH_TAG_SINCE : N := criticalType 0x3207.
Definition WEB_AUTH_TAG_MESSAGE_BLOB : N := criticalType 0x3208.
Definition WEB_AUTH_TAG_PREKEY_SPK_HASH : N := criticalType 0x3209.
Definition WEB_AUTH_TAG_PREKEY_PQSPK_HASH : N := criticalType 0x320a.
Definition WEB_AUTH_TAG_LINK_DEVICE_ID : N := criticalType 0x3212.
Definition WEB_AUTH_TAG_REVOKE_DEVICE_ID : N := criticalType 0x3213.
Definition WEB_AUTH_TAG_DISCOVERY_PHONE_HASHES_HASH : N := criticalType 0x3216.
Definition WEB_AUTH_TAG_DISCOVERY_EMAIL_HASHES_HASH : N := criticalType 0x3217.
Definition WEB_AUTH_TAG_DISCOVERY_QUERY_HASHES_HASH : N := criticalType 0x3218.
Definition WEB_AUTH_TAG_CONTACT_USER_ID : N := criticalType 0x3219.
Definition WEB_AUTH_TAG_CONTACT_ALIAS_HASH : N := criticalType 0x321a.
Definition WEB_AUTH_TAG_CONTACT_VERIFIED_FLAG : N := criticalType 0x321b.
Definition WEB_AUTH_TAG_CONTACT_FINGERPRINT : N := criticalType 0x321c.
Definition WEB_AUTH_TAG_PROFILE_DISPLAY_NAME_HASH : N := criticalType 0x3226.
Definition WEB_AUTH_TAG_PROFILE_AVATAR_HASH : N := criticalType 0x3227.
Definition WEB_AUTH_TAG_PROFILE_AVATAR_MIME_HASH : N := criticalType 0x3228.
Definition WEB_AUTH_TAG_PROFILE_USERNAME_HASH : N := criticalType 0x322d.
Definition WEB_AUTH_TAG_PROFILE_USERNAME_LOOKUP_ENABLED : N := criticalType 0x322e.
Definition WEB_AUTH_TAG_PRESENCE_STATUS : N := criticalType 0x3229.
Definition WEB_AUTH_TAG_TYPING_PEER_ID : N := criticalType 0x322a.
Definition WEB_AUTH_TAG_TYPING_STATE_FLAG : N := criticalType 0x322b.
Definition WEB_AUTH_TAG_DELETE_IDS_HASH : N := criticalType 0x3214.
Definition WEB_AUTH_TAG_DELETE_BEFORE_ID : N := criticalType 0x3215.
Definition WEB_AUTH_TAG_GROUP_ID : N := criticalType 0x321d.
Definition WEB_AUTH_TAG_GROUP_MEMBER_USER_ID : N := criticalType 0x321e.
Definition WEB_AUTH_TAG_GROUP_MEMBERS_HASH : N := criticalType 0x321f.
Definition WEB_AUTH_TAG_GROUP_SENDER_USER_ID : N := criticalType 0x3220.
Definition WEB_AUTH_TAG_GROUP_MESSAGE_BLOB_HASH : N := criticalType 0x3221.
Definition WEB_AUTH_TAG_FILE_ID : N := criticalType 0x3222.
Definition WEB_AUTH_TAG_FILE_RECIPIENT_ID : N := criticalType 0x3223.
Definition WEB_AUTH_TAG_FILE_BLOB_HASH : N := criticalType 0x3224.
Definition WEB_AUTH_TAG_FILE_MIME_HASH : N := criticalType 0x3225.
Definition WEB_AUTH_TAG_PUSH_DEVICE_ID : N := criticalType 0x3210.
Definition WEB_AUTH_TAG_PUSH_TOKEN_HASH : N := criticalType 0x3211.
Definition WEB_AUTH_TAG_ROTATE_NEW_X25519_HASH : N := criticalType 0x320b.
Definition WEB_AUTH_TAG_ROTATE_NEW_SIG_HASH : N := criticalType 0x320c.
Definition WEB_AUTH_TAG_ROTATE_CHALLENGE_ID : N := criticalType 0x320d.
Definition WEB_AUTH_TAG_ROTATE_SIG_CURRENT_HASH : N := criticalType 0x320e.
Definition WEB_AUTH_TAG_ROTATE_SIG_NEW_HASH : N := criticalType 0x320f.
Definition WEB_AUTH_TAG_ROTATE_NEW_PQ_SIG_HASH : N := criticalType 0x3230.
Definition WEB_AUTH_TAG_ROTATE_PQ_SIG_CURRENT_HASH : N := criticalType 0x3231.
Definition WEB_AUTH_TAG_ROTATE_PQ_SIG_NEW_HASH : N := criticalType 0x3232.
Definition WEB_AUTH_TAG_DISCOVERY_PURPOSE : N := criticalType 0x3233.
Definition WEB_SIG_TAG_PROTOCOL_VERSION : N := criticalType 0x0201.
Definition WEB_SIG_TAG_LABEL : N := criticalType 0x0202.
Definition WEB_SIG_TAG_KEY_MATERIAL : N := criticalType 0x0203.
Definition WEB_ROTATE_SIG_TAG_USER_ID : N := criticalType 0x3101.
Definition WEB_ROTATE_SIG_TAG_CHALLENGE_ID : N := criticalType 0x3102.
Definition WEB_ROTATE_SIG_TAG_CHALLENGE_NONCE : N := criticalType 0x3103.
Definition WEB_ROTATE_SIG_TAG_NEW_IDENTITY_X25519 : N := criticalType 0x3104.
Definition WEB_ROTATE_SIG_TAG_NEW_IDENTITY_SIG : N := criticalType 0x3105.
Definition WEB_ROTATE_SIG_TAG_NEW_DEVICE_ID : N := criticalType 0x3106.
Definition WEB_ROTATE_SIG_TAG_NEW_IDENTITY_PQ_SIG : N := criticalType 0x3107.

Record GeneratedKeys := mkGenerated {
  gk_userId : bytes;
  gk_deviceId : bytes;
  gk_suite : bytes;
  gk_identityX25519Pub : bytes;
  gk_identityX25519Secret : bytes;
  gk_identitySigPub : bytes;
  gk_identitySigSecret : bytes;
  gk_identityPqSigPub : bytes;
  gk_identityPqSigSecret : bytes;
  gk_signedPrekeyX25519Pub : bytes;
  gk_signedPrekeyX25519Secret : bytes;
  gk_pqSignedPrekeyPubMlkem768 : bytes;
  gk_pqSignedPrekeySecretMlkem768 : bytes;
  gk_oneTimePrekeysX25519 : list bytes;
  gk_oneTimePrekeysX25519Secret : list bytes;
  gk_oneTimePrekeysMlkem768 : list bytes;
  gk_oneTimePrekeysMlkem768Secret : list bytes;
}.

(** ** Strings *)

(** [String.prototype.trim] and [toLowerCase] work on Unicode; on ASCII they are
    what the server does. *)
Class WebText := {
  js_trim : bytes → bytes;
  toLowerCase : bytes → bytes;
}.

Definition ascii_text (s : bytes) : bool := forallb (in_range 0x00 0x7F) s.

Class WebTextLaws (X : WebText) := {
  js_trim_ascii : ∀ s, ascii_text s = true → js_trim s = str_trim s;
  toLowerCase_ascii : ∀ s, ascii_text s = true → toLowerCase s = to_ascii_lowercase s;
}.

(** The code units of UTF-16, by which [Array.prototype.sort] compares strings. *)
Fixpoint utf16_units (s : bytes) : list N :=
  match s with
  | [] => []
  | a :: s1 =>
      let n := Byte.to_N a in
      if n <? 0x80 then n :: utf16_units s1
      else match s1 with
      | [] => []
      | b :: s2 =>
          let b := Byte.to_N b mod 64 in
          if n <? 0xE0 then (n mod 32 * 64 + b) :: utf16_units s2
          else match s2 with
          | [] => []
          | c :: s3 =>
              let c := Byte.to_N c mod 64 in
              if n <? 0xF0 then (n mod 16 * 4096 + b * 64 + c) :: utf16_units s3
              else match s3 with
              | [] => []
              | d :: s4 =>
                  let v := n mod 8 * 262144 + b * 4096 + c * 64 + Byte.to_N d mod 64 - 0x10000 in
                  (0xD800 + v / 1024) :: (0xDC00 + v mod 1024) :: utf16_units s4
              end
          end
      end
  end.

Fixpoint units_leb (a b : list N) : bool :=
  match a, b with
  | [], _ => true
  | _ :: _, [] => false
  | x :: a, y :: b => (x <? y) || ((x =? y) && units_leb a b)
  end.

Definition js_string_leb (a b : bytes) : bool := units_leb (utf16_units a) (utf16_units b).

(** [[...new Set(items)]]: the first occurrence of each item stays. *)
Fixpoint js_unique {A} `{EqDecision A} (l : list A) : list A :=
  match l with
  | [] => []
  | x :: l => x :: filter (λ y, y ≠ x) (js_unique l)
  end.

Definition js_join (separator : bytes) (l : list bytes) : bytes :=
  match l with
  | [] => []
  | x :: l => x ++ concat (map (λ y, separator ++ y) l)
  end.

Section WebHeaders.
Context `{P : Primitives} `{W : WebPlatform} `{X : WebText}.

(** [Date.now()], in milliseconds. *)
Context (date_now : Z).
Local Open Scope sm_scope.

Definition Web (A : Type) : Type := SM rng JsError A.

Definition unixTimestampSeconds : Z := (date_now / 1000)%Z.

(** [bytesToBase64(randomBytes(16))]. *)
Definition web_nonce : Web bytes := λ g, let '(b, g) := rng_fill 16 g in (g, Ok (bytesToBase64 b)).

Definition authCommonRecords (endpoint userId deviceId : bytes) (timestamp : Z) (nonce : bytes) : list TlvRecord :=
  [mkTlv WEB_AUTH_TAG_ENDPOINT endpoint;
   mkTlv WEB_AUTH_TAG_USER_ID userId;
   mkTlv WEB_AUTH_TAG_DEVICE_ID deviceId;
   mkTlv WEB_AUTH_TAG_TIMESTAMP (i64ToBeBytes timestamp);
   mkTlv WEB_AUTH_TAG_NONCE nonce].

(** [ed25519.sign] with the key of the user. *)
Definition signWithIdentity (keys : GeneratedKeys) (message : bytes) : js bytes :=
  let? signingKey := base64ToBytes (gk_identitySigSecret keys) in
  ok_or (noble_sign message signingKey) (Thrown (lit "ed25519")).

Definition headersOf (keys : GeneratedKeys) (timestamp : Z) (nonce signature : bytes) : RequestAuthHeaders :=
  mkAuthHeaders (gk_userId keys) (gk_deviceId keys) (i64_to_string timestamp) nonce (bytesToBase64 signature).

Definition signAuthHeaders (keys : GeneratedKeys) (timestamp : Z) (nonce : bytes) (records : list TlvRecord)
    : js RequestAuthHeaders :=
  let? transcript := encodeTlv records in
  let? signature := signWithIdentity keys transcript in
  Ok (headersOf keys timestamp nonce signature).

(** The frame of the functions below: the time and a nonce, the common records and
    those of the endpoint, the signature. *)
Definition web_signed (endpoint : bytes) (keys : GeneratedKeys) (records : js (list TlvRecord)) : Web RequestAuthHeaders :=
  let timestamp := unixTimestampSeconds in
  nonce <- web_nonce;;
  records <- sm_lift records;;
  sm_lift (signAuthHeaders keys timestamp nonce
             (authCommonRecords endpoint (gk_userId keys) (gk_deviceId keys) timestamp nonce ++ records)).

Definition flagByte (b : bool) : bytes := [if b then x01 else x00].

Definition buildPrekeysAuthHeaders (keys : GeneratedKeys) (payload : PublishPrekeysRequest) : Web RequestAuthHeaders :=
  web_signed (lit "prekeys") keys
    (Ok [mkTlv WEB_AUTH_TAG_PREKEY_SPK_HASH (sha256 (pp_signed_prekey_x25519_pub payload));
         mkTlv WEB_AUTH_TAG_PREKEY_PQSPK_HASH (sha256 (pp_pq_signed_prekey_pub_mlkem768 payload))]).

Definition buildRelayAuthHeaders (keys : GeneratedKeys) (recipientUserId messageBytesBase64 : bytes)
    : Web RequestAuthHeaders :=
  web_signed (lit "relay") keys
    (let? blob := base64ToBytes messageBytesBase64 in
     Ok [mkTlv WEB_AUTH_TAG_RECIPIENT_ID recipientUserId; mkTlv WEB_AUTH_TAG_MESSAGE_BLOB blob]).

Definition buildInboxAuthHeaders (keys : GeneratedKeys) (since : Z) : Web RequestAuthHeaders :=
  web_signed (lit "inbox") keys
    (Ok [mkTlv WEB_AUTH_TAG_RECIPIENT_ID (gk_userId keys); mkTlv WEB_AUTH_TAG_SINCE (i64ToBeBytes since)]).

Definition buildListDevicesAuthHeaders (keys : GeneratedKeys) : Web RequestAuthHeaders :=
  web_signed (lit "devices-list") keys (Ok [mkTlv WEB_AUTH_TAG_RECIPIENT_ID (gk_userId keys)]).

Definition buildLinkDeviceAuthHeaders (keys : GeneratedKeys) (newDeviceId : bytes) : Web RequestAuthHeaders :=
  web_signed (lit "devices-link") keys
    (Ok [mkTlv WEB_AUTH_TAG_RECIPIENT_ID (gk_userId keys); mkTlv WEB_AUTH_TAG_LINK_DEVICE_ID newDeviceId]).

Definition buildRevokeDeviceAuthHeaders (keys : GeneratedKeys) (targetDeviceId : bytes) : Web RequestAuthHeaders :=
  web_signed (lit "devices-revoke") keys
    (Ok [mkTlv WEB_AUTH_TAG_RECIPIENT_ID (gk_userId keys); mkTlv WEB_AUTH_TAG_REVOKE_DEVICE_ID targetDeviceId]).

Definition buildRetireDeviceAuthHeaders (keys : GeneratedKeys) : Web RequestAuthHeaders :=
  web_signed (lit "devices-retire") keys
    (Ok [mkTlv WEB_AUTH_TAG_RECIPIENT_ID (gk_userId keys); mkTlv WEB_AUTH_TAG_REVOKE_DEVICE_ID (gk_deviceId keys)]).

(** A text signed as it is, with the headers of a request. *)
Definition web_signed_text (keys : GeneratedKeys) (message : Z → bytes → js bytes) : Web RequestAuthHeaders :=
  let timestamp := unixTimestampSeconds in
  nonce <- web_nonce;;
  message <- sm_lift (message timestamp nonce);;
  signature <- sm_lift (signWithIdentity keys message);;
  sm_ret (headersOf keys timestamp nonce signature).

Definition buildBackupUploadAuthHeaders (keys : GeneratedKeys) (backupVersion : Z) (encryptedBackupBytesBase64 : bytes)
    : Web RequestAuthHeaders :=
  web_signed_text keys (λ timestamp nonce,
    let? blob := base64ToBytes encryptedBackupBytesBase64 in
    let blobHash := bytesToHex (sha256 blob) in
    Ok (lit "backups-upload:" ++ gk_userId keys ++ lit ":" ++ gk_deviceId keys ++ lit ":" ++ i64_to_string timestamp
        ++ lit ":" ++ nonce ++ lit ":" ++ i64_to_string backupVersion ++ lit ":" ++ blobHash)).

Definition buildProfileGetAuthHeaders (keys : GeneratedKeys) (targetUserId : bytes) : Web RequestAuthHeaders :=
  web_signed (lit "profile-get") keys (Ok [mkTlv WEB_AUTH_TAG_RECIPIENT_ID targetUserId]).

(** [username.trim().replace(/^@/, "").toLowerCase()]. *)
Definition web_username (username : bytes) : bytes :=
  let trimmed := js_trim username in
  toLowerCase (match trimmed with x40 :: rest => rest | _ => trimmed end).

Definition buildProfileUpsertAuthHeaders (keys : GeneratedKeys) (displayName username : bytes)
    (usernameLookupEnabled : bool) (avatarMime avatarBlob : bytes) : Web RequestAuthHeaders :=
  web_signed (lit "profile-upsert") keys
    (Ok [mkTlv WEB_AUTH_TAG_RECIPIENT_ID (gk_userId keys);
         mkTlv WEB_AUTH_TAG_PROFILE_DISPLAY_NAME_HASH (sha256 displayName);
         mkTlv WEB_AUTH_TAG_PROFILE_USERNAME_HASH (sha256 (web_username username));
         mkTlv WEB_AUTH_TAG_PROFILE_USERNAME_LOOKUP_ENABLED (flagByte usernameLookupEnabled);
         mkTlv WEB_AUTH_TAG_PROFILE_AVATAR_HASH (sha256 avatarBlob);
         mkTlv WEB_AUTH_TAG_PROFILE_AVATAR_MIME_HASH (sha256 avatarMime)]).

Definition buildPresenceGetAuthHeaders (keys : GeneratedKeys) : Web RequestAuthHeaders :=
  web_signed (lit "presence-get") keys (Ok [mkTlv WEB_AUTH_TAG_RECIPIENT_ID (gk_userId keys)]).

Definition buildPresenceUpdateAuthHeaders (keys : GeneratedKeys) (status : bytes) : Web RequestAuthHeaders :=
  web_signed (lit "presence-update") keys
    (Ok [mkTlv WEB_AUTH_TAG_RECIPIENT_ID (gk_userId keys); mkTlv WEB_AUTH_TAG_PRESENCE_STATUS status]).

Definition buildTypingGetAuthHeaders (keys : GeneratedKeys) : Web RequestAuthHeaders :=
  web_signed (lit "typing-get") keys (Ok [mkTlv WEB_AUTH_TAG_RECIPIENT_ID (gk_userId keys)]).

Definition buildTypingUpdateAuthHeaders (keys : GeneratedKeys) (peerUserId : bytes) (isTyping : bool)
    : Web RequestAuthHeaders :=
  web_signed (lit "typing-update") keys
    (Ok [mkTlv WEB_AUTH_TAG_TYPING_PEER_ID peerUserId; mkTlv WEB_AUTH_TAG_TYPING_STATE_FLAG (flagByte isTyping)]).

Definition buildSendReceiptAuthHeaders (keys : GeneratedKeys) (messageId : Z) (receiptType : bytes)
    : Web RequestAuthHeaders :=
  web_signed_text keys (λ _ _,
    Ok (lit "receipt:" ++ gk_userId keys ++ lit ":" ++ gk_deviceId keys ++ lit ":" ++ i64_to_string messageId
        ++ lit ":" ++ receiptType)).

Definition buildGetReceiptsAuthHeaders (keys : GeneratedKeys) (sinceId : Z) : Web RequestAuthHeaders :=
  web_signed_text keys (λ _ _,
    Ok (lit "get-receipts:" ++ gk_userId keys ++ lit ":" ++ gk_deviceId keys ++ lit ":" ++ i64_to_string sinceId)).

Definition buildContactsListAuthHeaders (keys : GeneratedKeys) : Web RequestAuthHeaders :=
  web_signed (lit "contacts-list") keys (Ok [mkTlv WEB_AUTH_TAG_RECIPIENT_ID (gk_userId keys)]).

Definition buildContactInviteCreateAuthHeaders (keys : GeneratedKeys) : Web RequestAuthHeaders :=
  web_signed (lit "contact-invite-create") keys (Ok [mkTlv WEB_AUTH_TAG_RECIPIENT_ID (gk_userId keys)]).

(** An empty fingerprint is falsy. *)
Definition buildContactsUpsertAuthHeaders (keys : GeneratedKeys) (contactUserId alias : bytes) (verifiedByQr : bool)
    (fingerprint : bytes) : Web RequestAuthHeaders :=
  web_signed (lit "contacts-upsert") keys
    (Ok ([mkTlv WEB_AUTH_TAG_RECIPIENT_ID (gk_userId keys);
          mkTlv WEB_AUTH_TAG_CONTACT_USER_ID contactUserId;
          mkTlv WEB_AUTH_TAG_CONTACT_ALIAS_HASH (sha256 alias);
          mkTlv WEB_AUTH_TAG_CONTACT_VERIFIED_FLAG (flagByte verifiedByQr)]
         ++ match fingerprint with
            | [] => []
            | _ => [mkTlv WEB_AUTH_TAG_CONTACT_FINGERPRINT fingerprint]
            end)).

Definition buildContactsRemoveAuthHeaders (keys : GeneratedKeys) (contactUserId : bytes) : Web RequestAuthHeaders :=
  web_signed (lit "contacts-remove") keys
    (Ok [mkTlv WEB_AUTH_TAG_RECIPIENT_ID (gk_userId keys); mkTlv WEB_AUTH_TAG_CONTACT_USER_ID contactUserId]).

Definition hashStringListSha256 (items : list bytes) : bytes :=
  let sorted := sort_unstable js_string_leb (js_unique items) in
  sha256 (js_join (lit ",") sorted).

Definition buildGroupCreateAuthHeaders (keys : GeneratedKeys) (groupId : bytes) (memberUserIds : list bytes)
    : Web RequestAuthHeaders :=
  web_signed (lit "groups-create") keys
    (Ok [mkTlv WEB_AUTH_TAG_GROUP_ID groupId;
         mkTlv WEB_AUTH_TAG_GROUP_MEMBERS_HASH (hashStringListSha256 memberUserIds)]).

Definition buildUserGroupsListAuthHeaders (keys : GeneratedKeys) (userId : bytes) : Web RequestAuthHeaders :=
  web_signed (lit "groups-list") keys (Ok [mkTlv WEB_AUTH_TAG_RECIPIENT_ID userId]).

Definition buildGroupMembersListAuthHeaders (keys : GeneratedKeys) (groupId : bytes) : Web RequestAuthHeaders :=
  web_signed (lit "groups-members-list") keys (Ok [mkTlv WEB_AUTH_TAG_GROUP_ID groupId]).

Definition buildGroupMembersAddAuthHeaders (keys : GeneratedKeys) (groupId memberUserId : bytes)
    : Web RequestAuthHeaders :=
  web_signed (lit "groups-members-add") keys
    (Ok [mkTlv WEB_AUTH_TAG_GROUP_ID groupId; mkTlv WEB_AUTH_TAG_GROUP_MEMBER_USER_ID memberUserId]).

Definition buildGroupMembersRemoveAuthHeaders (keys : GeneratedKeys) (groupId memberUserId : bytes)
    : Web RequestAuthHeaders :=
  web_signed (lit "groups-members-remove") keys
    (Ok [mkTlv WEB_AUTH_TAG_GROUP_ID groupId; mkTlv WEB_AUTH_TAG_GROUP_MEMBER_USER_ID memberUserId]).

Definition buildGroupRelayAuthHeaders (keys : GeneratedKeys) (groupId messageBytesBase64 : bytes)
    : Web RequestAuthHeaders :=
  web_signed (lit "groups-relay") keys
    (let? blob := base64ToBytes messageBytesBase64 in
     Ok [mkTlv WEB_AUTH_TAG_GROUP_ID groupId;
         mkTlv WEB_AUTH_TAG_GROUP_SENDER_USER_ID (gk_userId keys);
         mkTlv WEB_AUTH_TAG_GROUP_MESSAGE_BLOB_HASH (sha256 blob)]).

Definition buildFileUploadAuthHeaders (keys : GeneratedKeys) (recipientUserId mimeType fileBytesBase64 : bytes)
    : Web RequestAuthHeaders :=
  web_signed (lit "files-upload") keys
    (let? blob := base64ToBytes fileBytesBase64 in
     Ok [mkTlv WEB_AUTH_TAG_FILE_RECIPIENT_ID recipientUserId;
         mkTlv WEB_AUTH_TAG_FILE_BLOB_HASH (sha256 blob);
         mkTlv WEB_AUTH_TAG_FILE_MIME_HASH (sha256 mimeType)]).

Definition buildFileDownloadAuthHeaders (keys : GeneratedKeys) (fileId : bytes) : Web RequestAuthHeaders :=
  web_signed (lit "files-download") keys (Ok [mkTlv WEB_AUTH_TAG_FILE_ID fileId]).

Definition buildInboxDeleteAuthHeaders (keys : GeneratedKeys) (messageIds : list Z) (deleteBeforeId : option Z)
    : Web RequestAuthHeaders :=
  web_signed (lit "inbox-delete") keys
    (let sorted := sort_unstable Z.leb (js_unique messageIds) in
     let idBytes := concatBytes (map i64ToBeBytes sorted) in
     Ok ([mkTlv WEB_AUTH_TAG_RECIPIENT_ID (gk_userId keys); mkTlv WEB_AUTH_TAG_DELETE_IDS_HASH (sha256 idBytes)]
         ++ match deleteBeforeId with
            | Some deleteBeforeId => [mkTlv WEB_AUTH_TAG_DELETE_BEFORE_ID (i64ToBeBytes deleteBeforeId)]
            | None => []
            end)).

Definition buildPrekeysStatusAuthHeaders (keys : GeneratedKeys) : Web RequestAuthHeaders :=
  web_signed (lit "prekeys-status") keys (Ok [mkTlv WEB_AUTH_TAG_RECIPIENT_ID (gk_userId keys)]).

Definition buildRotateInitAuthHeaders (keys : GeneratedKeys)
    (newIdentityX25519Pub newIdentitySigPub newIdentityPqSigPub : bytes) : Web RequestAuthHeaders :=
  web_signed (lit "rotate-init") keys
    (Ok [mkTlv WEB_AUTH_TAG_ROTATE_NEW_X25519_HASH (sha256 newIdentityX25519Pub);
         mkTlv WEB_AUTH_TAG_ROTATE_NEW_SIG_HASH (sha256 newIdentitySigPub);
         mkTlv WEB_AUTH_TAG_ROTATE_NEW_PQ_SIG_HASH (sha256 newIdentityPqSigPub)]).

Definition buildRotateConfirmAuthHeaders (keys : GeneratedKeys) (challengeId sigByCurrentIdentity sigByNewIdentity
    pqSigByCurrentIdentity pqSigByNewIdentity : bytes) : Web RequestAuthHeaders :=
  web_signed (lit "rotate-confirm") keys
    (Ok [mkTlv WEB_AUTH_TAG_ROTATE_CHALLENGE_ID challengeId;
         mkTlv WEB_AUTH_TAG_ROTATE_SIG_CURRENT_HASH (sha256 sigByCurrentIdentity);
         mkTlv WEB_AUTH_TAG_ROTATE_SIG_NEW_HASH (sha256 sigByNewIdentity);
         mkTlv WEB_AUTH_TAG_ROTATE_PQ_SIG_CURRENT_HASH (sha256 pqSigByCurrentIdentity);
         mkTlv WEB_AUTH_TAG_ROTATE_PQ_SIG_NEW_HASH (sha256 pqSigByNewIdentity)]).

Definition buildIdentityLogAuthHeaders (keys : GeneratedKeys) : Web RequestAuthHeaders :=
  web_signed (lit "identity-log") keys (Ok [mkTlv WEB_AUTH_TAG_RECIPIENT_ID (gk_userId keys)]).

Definition buildSealedInboxAuthHeaders (keys : GeneratedKeys) (since : Z) : Web RequestAuthHeaders :=
  web_signed (lit "sealed-inbox") keys
    (Ok [mkTlv WEB_AUTH_TAG_RECIPIENT_ID (gk_userId keys); mkTlv WEB_AUTH_TAG_SINCE (i64ToBeBytes since)]).

Definition buildSenderCertificateAuthHeaders (keys : GeneratedKeys) : Web RequestAuthHeaders :=
  web_signed (lit "sender-certificate") keys (Ok [mkTlv WEB_AUTH_TAG_RECIPIENT_ID (gk_userId keys)]).

Definition buildContactDiscoveryTicketAuthHeaders (keys : GeneratedKeys) (purpose : bytes) : Web RequestAuthHeaders :=
  web_signed (lit "contact-discovery-ticket") keys
    (Ok [mkTlv WEB_AUTH_TAG_RECIPIENT_ID (gk_userId keys); mkTlv WEB_AUTH_TAG_DISCOVERY_PURPOSE purpose]).

Definition buildEphemeralRelayAuthHeaders (keys : GeneratedKeys) (recipientUserId : bytes) (ttlSeconds : Z)
    : Web RequestAuthHeaders :=
  web_signed_text keys (λ _ _,
    Ok (lit "ephemeral-relay:" ++ gk_userId keys ++ lit ":" ++ gk_deviceId keys ++ lit ":" ++ recipientUserId
        ++ lit ":" ++ i64_to_string ttlSeconds)).

Definition buildDiscoveryHandlesAuthHeaders (keys : GeneratedKeys) (phoneHashes emailHashes : list bytes)
    : Web RequestAuthHeaders :=
  let sortedPhones := js_join (lit ",") (sort_unstable js_string_leb phoneHashes) in
  let sortedEmails := js_join (lit ",") (sort_unstable js_string_leb emailHashes) in
  web_signed (lit "discovery-handles") keys
    (Ok [mkTlv WEB_AUTH_TAG_RECIPIENT_ID (gk_userId keys);
         mkTlv WEB_AUTH_TAG_DISCOVERY_PHONE_HASHES_HASH (sha256 sortedPhones);
         mkTlv WEB_AUTH_TAG_DISCOVERY_EMAIL_HASHES_HASH (sha256 sortedEmails)]).

Definition buildDiscoveryMatchAuthHeaders (keys : GeneratedKeys) (queryHashes : list bytes) : Web RequestAuthHeaders :=
  let sorted := js_join (lit ",") (sort_unstable js_string_leb queryHashes) in
  web_signed (lit "discovery-match") keys
    (Ok [mkTlv WEB_AUTH_TAG_RECIPIENT_ID (gk_userId keys);
         mkTlv WEB_AUTH_TAG_DISCOVERY_QUERY_HASHES_HASH (sha256 sorted)]).

Definition buildPushTokenAuthHeaders (keys : GeneratedKeys) (token : bytes) : Web RequestAuthHeaders :=
  web_signed (lit "push-token") keys
    (Ok [mkTlv WEB_AUTH_TAG_RECIPIENT_ID (gk_userId keys);
         mkTlv WEB_AUTH_TAG_PUSH_DEVICE_ID (gk_deviceId keys);
         mkTlv WEB_AUTH_TAG_PUSH_TOKEN_HASH (sha256 token)]).
End WebHeaders.

(** ** The requests of the client *)

(** Those whose transcript the server knows. A profile is uploaded without an
    avatar; the groups listed are the user's own. *)
Inductive WebCall : Type :=
| WebPrekeys (payload : PublishPrekeysRequest)
| WebRelay (recipientUserId messageBytesBase64 : bytes)
| WebInbox (since : Z)
| WebListDevices
| WebLinkDevice (newDeviceId : bytes)
| WebRevokeDevice (targetDeviceId : bytes)
| WebRetireDevice
| WebProfileGet (targetUserId : bytes)
| WebProfileUpsert (displayName username : bytes) (usernameLookupEnabled : bool)
| WebPresenceGet
| WebPresenceUpdate (status : bytes)
| WebTypingGet
| WebTypingUpdate (peerUserId : bytes) (isTyping : bool)
| WebContactsList
| WebContactInvite
| WebContactsUpsert (contactUserId alias : bytes) (verifiedByQr : bool) (fingerprint : bytes)
| WebContactsRemove (contactUserId : bytes)
| WebUserGroups
| WebGroupMembers (groupId : bytes)
| WebGroupAdd (groupId memberUserId : bytes)
| WebGroupRemove (groupId memberUserId : bytes)
| WebFileUpload (recipientUserId mimeType fileBytesBase64 : bytes)
| WebFileDownload (fileId : bytes)
| WebInboxDelete (messageIds : list Z) (deleteBeforeId : option Z)
| WebPrekeysStatus
| WebRotateInit (request : RotateInitRequest)
| WebRotateConfirm (request : RotateConfirmRequest)
| WebIdentityLog
| WebSealedInbox (since : Z)
| WebSenderCertificate
| WebDiscoveryTicket (purpose : bytes)
| WebPushToken (provider : PushProvider) (token : bytes).

Section WebRequests.
Context `{P : Primitives} `{B : Base64} `{W : WebPlatform} `{X : WebText}.

Definition web_headers (date_now : Z) (keys : GeneratedKeys) (call : WebCall) : Web RequestAuthHeaders :=
  match call with
  | WebPrekeys payload => buildPrekeysAuthHeaders date_now keys payload
  | WebRelay recipient b64 => buildRelayAuthHeaders date_now keys recipient b64
  | WebInbox since => buildInboxAuthHeaders date_now keys since
  | WebListDevices => buildListDevicesAuthHeaders date_now keys
  | WebLinkDevice dev => buildLinkDeviceAuthHeaders date_now keys dev
  | WebRevokeDevice dev => buildRevokeDeviceAuthHeaders date_now keys dev
  | WebRetireDevice => buildRetireDeviceAuthHeaders date_now keys
  | WebProfileGet u => buildProfileGetAuthHeaders date_now keys u
  | WebProfileUpsert name username lookup => buildProfileUpsertAuthHeaders date_now keys name username lookup [] []
  | WebPresenceGet => buildPresenceGetAuthHeaders date_now keys
  | WebPresenceUpdate status => buildPresenceUpdateAuthHeaders date_now keys status
  | WebTypingGet => buildTypingGetAuthHeaders date_now keys
  | WebTypingUpdate peer typing => buildTypingUpdateAuthHeaders date_now keys peer typing
  | WebContactsList => buildContactsListAuthHeaders date_now keys
  | WebContactInvite => buildContactInviteCreateAuthHeaders date_now keys
  | WebContactsUpsert contact alias verified fp =>
      buildContactsUpsertAuthHeaders date_now keys contact alias verified fp
  | WebContactsRemove contact => buildContactsRemoveAuthHeaders date_now keys contact
  | WebUserGroups => buildUserGroupsListAuthHeaders date_now keys (gk_userId keys)
  | WebGroupMembers gid => buildGroupMembersListAuthHeaders date_now keys gid
  | WebGroupAdd gid member => buildGroupMembersAddAuthHeaders date_now keys gid member
  | WebGroupRemove gid member => buildGroupMembersRemoveAuthHeaders date_now keys gid member
  | WebFileUpload recipient mime b64 => buildFileUploadAuthHeaders date_now keys recipient mime b64
  | WebFileDownload fid => buildFileDownloadAuthHeaders date_now keys fid
  | WebInboxDelete ids before => buildInboxDeleteAuthHeaders date_now keys ids before
  | WebPrekeysStatus => buildPrekeysStatusAuthHeaders date_now keys
  | WebRotateInit q => buildRotateInitAuthHeaders date_now keys (ri_new_identity_x25519_pub q)
      (ri_new_identity_sig_pub q) (ri_new_identity_pq_sig_pub q)
  | WebRotateConfirm q => buildRotateConfirmAuthHeaders date_now keys (rc_challenge_id q)
      (rc_sig_by_current_identity q) (rc_sig_by_new_identity q) (rc_pq_sig_by_current_identity q)
      (rc_pq_sig_by_new_identity q)
  | WebIdentityLog => buildIdentityLogAuthHeaders date_now keys
  | WebSealedInbox since => buildSealedInboxAuthHeaders date_now keys since
  | WebSenderCertificate => buildSenderCertificateAuthHeaders date_now keys
  | WebDiscoveryTicket purpose => buildContactDiscoveryTicketAuthHeaders date_now keys purpose
  | WebPushToken _ token => buildPushTokenAuthHeaders date_now keys token
  end.

(** What the handler of the endpoint passes to its transcript function, after it
    has decoded and normalised what the client sent. *)
Definition web_request (keys : GeneratedKeys) (call : WebCall) : option AuthRequest :=
  let user := gk_userId keys in
  match call with
  | WebPrekeys payload => Some (ReqPrekeys payload)
  | WebRelay recipient b64 =>
      blob ← res_ok (decode_base64_range (lit "message_bytes_base64") b64 1 MAX_MESSAGE_BYTES);
      Some (ReqRelay recipient blob)
  | WebInbox since => Some (ReqInbox user since)
  | WebListDevices => Some (ReqListDevices user)
  | WebLinkDevice dev => Some (ReqLinkDevice user dev)
  | WebRevokeDevice dev => Some (ReqRevokeDevice user dev)
  | WebRetireDevice => Some (ReqRetireDevice user)
  | WebProfileGet u => Some (ReqProfileGet u)
  | WebProfileUpsert name username lookup =>
      name ← res_ok (validate_optional_profile_display_name (Some name));
      username ← res_ok (validate_optional_username (Some username));
      Some (ReqProfileUpsert user name username (bool_decide (is_Some username) && lookup) None None)
  | WebPresenceGet => Some (ReqPresenceGet user)
  | WebPresenceUpdate status => status ← res_ok (validate_presence_status status); Some (ReqPresenceUpdate user status)
  | WebTypingGet => Some (ReqTypingGet user)
  | WebTypingUpdate peer typing => Some (ReqTypingUpdate peer typing)
  | WebContactsList => Some (ReqContactsList user)
  | WebContactInvite => Some (ReqContactInvite user)
  | WebContactsUpsert contact alias verified fp =>
      alias ← res_ok (validate_optional_contact_alias (Some alias));
      fp ← res_ok (validate_optional_fingerprint_sha256 (match fp with [] => None | _ => Some fp end));
      Some (ReqContactsUpsert user contact alias verified fp)
  | WebContactsRemove contact => Some (ReqContactsRemove user contact)
  | WebUserGroups => Some (ReqUserGroups user)
  | WebGroupMembers gid => Some (ReqGroupMembers gid)
  | WebGroupAdd gid member => Some (ReqGroupAdd gid member)
  | WebGroupRemove gid member => Some (ReqGroupRemove gid member)
  | WebFileUpload recipient mime b64 =>
      mime ← res_ok (validate_mime_type (lit "mime_type") mime);
      blob ← res_ok (decode_base64_range (lit "file_bytes_base64") b64 1 MAX_FILE_BLOB_BYTES);
      Some (ReqFileUpload recipient blob mime)
  | WebFileDownload fid => Some (ReqFileDownload fid)
  | WebInboxDelete ids before =>
      Some (ReqInboxDelete user {| di_message_ids := ids; di_delete_before_id := before |})
  | WebPrekeysStatus => Some (ReqPrekeysStatus user)
  | WebRotateInit q => Some (ReqRotateInit q)
  | WebRotateConfirm q => Some (ReqRotateConfirm q)
  | WebIdentityLog => Some (ReqIdentityLog user)
  | WebSealedInbox since => Some (ReqSealedInbox user since)
  | WebSenderCertificate => Some (ReqSenderCertificate user)
  | WebDiscoveryTicket purpose =>
      purpose ← res_ok (ContactDiscoveryTicketPurpose_parse purpose); Some (ReqDiscoveryTicket user purpose)
  | WebPushToken provider token =>
      token ← res_ok (validate_push_token provider token); Some (ReqPushToken (gk_deviceId keys) token)
  end.

(** What the client signs as it is where the server normalises: names, an alias, a
    status, a media type, a purpose and a token in normal form, a fingerprint in
    lower case, a username in ASCII with at most one at sign in front, no lookup without a
    username. *)
Definition web_plain (call : WebCall) : Prop :=
  match call with
  | WebProfileUpsert name username lookup =>
      str_trim name = name ∧ str_trim username = username ∧ ascii_text username = true ∧
      take 2 username ≠ [x40; x40] ∧ (lookup && (len username =? 0)) = false
  | WebPresenceUpdate status => validate_presence_status status = Ok status
  | WebContactsUpsert _ alias _ fp =>
      str_trim alias = alias ∧ (fp ≠ [] → validate_optional_fingerprint_sha256 (Some fp) = Ok (Some fp))
  | WebFileUpload _ mime _ => validate_mime_type (lit "mime_type") mime = Ok mime
  | WebDiscoveryTicket purpose => ContactDiscoveryTicketPurpose_parse purpose = Ok purpose
  | WebPushToken _ token => str_trim token = token
  | _ => True
  end.
End WebRequests.

(** ** Client and server agree *)

Section Unique.
Context {A : Type} `{EqDecision A}.

Lemma elem_of_js_unique (x : A) (l : list A) : x ∈ js_unique l ↔ x ∈ l.
Proof.
  induction l as [|y l IH]; [done|]. cbn [js_unique]. rewrite !elem_of_cons, list_elem_of_filter, IH.
  destruct (decide (x = y)); naive_solver.
Qed.

Lemma NoDup_js_unique (l : list A) : NoDup (js_unique l).
Proof.
  induction l as [|y l IH]; [constructor|]. cbn [js_unique]. constructor; [|by apply list.NoDup_filter].
  rewrite list_elem_of_filter. naive_solver.
Qed.

Lemma dedup_NoDup (l : list A) : NoDup l → dedup l = l.
Proof.
  induction l as [|x [|y l] IH]; [done..|]. intros H. rewrite dedup_cons2.
  apply list.NoDup_cons in H as [Hx H]. rewrite decide_False by (intros ->; apply Hx; left). by rewrite IH.
Qed.
End Unique.

(** Duplicates removed before or after sorting. *)
Lemma sort_unique_normalize (ids : list Z) : sort_unstable Z.leb (js_unique ids) = Validation.normalize_message_ids ids.
Proof.
  destruct (normalize_message_ids_spec (js_unique ids)) as [S1 E1]. destruct (normalize_message_ids_spec ids) as [S2 E2].
  rewrite <- (dedup_NoDup (sort_unstable Z.leb (js_unique ids))).
  - apply (lt_sorted_ext Z.leb); [lia|done..|]. intros x. by rewrite E1, E2, elem_of_js_unique.
  - rewrite sort_unstable_perm. apply NoDup_js_unique.
Qed.

Section WebAgreement.
Context `{P : Primitives} `{V : Ed25519} `{B : Base64} `{W : WebPlatform} `{X : WebText}.
Context `{BL : !Base64Laws B} `{WL : !WebPlatformLaws W B V} `{XL : !WebTextLaws X}.

(** The keys of a device: the signing key is there. *)
Definition web_keys_sign (keys : GeneratedKeys) (sk : bytes) : Prop :=
  gk_identitySigSecret keys = b64_encode sk ∧ length sk = 32%nat.

(** The function of an endpoint signs [records] under [endpoint], and these are the
    records of the server's transcript. *)
Definition web_signs (date_now : Z) (keys : GeneratedKeys) (call : WebCall) (r : AuthRequest) : Prop :=
  ∃ endpoint records,
    web_headers date_now keys call = web_signed date_now endpoint keys (Ok records) ∧
    Forall (λ r, ty r ≤ u16_max) records ∧
    ∀ auth, ra_user_id auth = gk_userId keys → ra_device_id auth = gk_deviceId keys →
      request_transcript auth r = auth_transcript auth endpoint records.

Lemma base64ToBytes_range (field value blob : bytes) (lo hi : N) : 1 ≤ lo →
  decode_base64_range field value lo hi = Ok blob → base64ToBytes value = Ok blob.
Proof. intros Hlo [-> _]%decode_base64_range_iff; [|done]. unfold base64ToBytes. by rewrite atob_standard. Qed.

Lemma web_username_plain (username : bytes) : str_trim username = username → ascii_text username = true →
  take 2 username ≠ [x40; x40] → web_username username = to_ascii_lowercase (trim_start_char x40 (str_trim username)).
Proof.
  intros Ht Ha Hh. unfold web_username. rewrite js_trim_ascii, Ht by done.
  assert (Hc : ∀ b l, b ≠ x40 → trim_start_char x40 (b :: l) = b :: l).
  { intros b l Hb. cbn [trim_start_char]. unfold is_char. by rewrite bool_decide_eq_false_2. }
  destruct username as [|b l]; [by rewrite toLowerCase_ascii|]. destruct (decide (b = x40)) as [->|Hb].
  - rewrite toLowerCase_ascii by (by apply andb_true_iff in Ha as [_ Ha]). f_equal.
    change (trim_start_char x40 (x40 :: l)) with (trim_start_char x40 l). destruct l as [|c l]; [done|].
    rewrite Hc; [done|]. intros ->. by apply Hh.
  - rewrite Hc by done. replace (match b :: l with x40 :: rest => rest | _ => b :: l end) with (b :: l) by (by destruct b).
    by rewrite toLowerCase_ascii.
Qed.

(** The cases that need no argument: the definition of the function shows its
    endpoint and its records. *)
Ltac web_types := repeat (apply list.Forall_cons; split; [cbn [ty]; by vm_compute|]); apply list.Forall_nil; exact Logic.I.

Ltac web_same := let auth := fresh in let Hu := fresh in let Hd := fresh in
  intros auth Hu Hd; cbn [request_transcript]; rewrite <- ?Hu, <- ?Hd, ?i64ToBeBytes_be; reflexivity.

Ltac head_of t := lazymatch t with ?f _ => head_of f | _ => t end.

Ltac web_case date_now keys :=
  lazymatch goal with
  | |- web_signs _ _ ?call ?r =>
      let h := eval cbn [web_headers] in (web_headers date_now keys call) in
      let f := head_of h in
      let b := eval cbv beta zeta delta [f] in h in
      lazymatch b with
      | web_signed _ ?endpoint _ (Ok ?records) =>
          exists endpoint, records; split; [reflexivity|split; [web_types|web_same]]
      end
  end.

(** Every function signs the records the server's transcript has. *)
Lemma web_signs_all (date_now : Z) (keys : GeneratedKeys) (call : WebCall) (r : AuthRequest) :
  web_request keys call = Some r → web_plain call → web_signs date_now keys call r.
Proof.
  assert (Hok : ∀ E A (x : result E A) a, res_ok x = Some a → x = Ok a) by (intros E A [x|x] a; simpl; congruence).
  intros Hr Hp. destruct call; cbn [web_request web_plain] in Hr, Hp;
    repeat match type of Hr with
           | context [res_ok ?x ≫= _] => let E := fresh "E" in destruct (res_ok x) eqn:E; cbn [mbind option_bind] in Hr; [|done]; apply Hok in E
           end;
    injection Hr as <-.
  all: try (web_case date_now keys).
  - exists (lit "relay"). eexists. split; [|split; [|intros auth Hu Hd; reflexivity]].
    + cbn [web_headers]. unfold buildRelayAuthHeaders. by rewrite (base64ToBytes_range _ _ _ _ _ ltac:(done) E).
    + web_types.
  - destruct Hp as (Hn & Ht & Ha & Hh & Hl). destruct (username_agrees _ _ Ht E0) as [Hname Hs].
    eexists _, _. split; [reflexivity|split; [web_types|]]. intros auth Hu Hd. cbn [request_transcript].
    unfold profile_upsert_auth_message. rewrite (display_name_agrees _ _ E), Hname, Hs, Hn, (web_username_plain username) by done.
    replace (negb (len username =? 0) && usernameLookupEnabled) with usernameLookupEnabled
      by (by destruct usernameLookupEnabled, (len username =? 0)). done.
  - assert (l = status) as -> by congruence. web_case date_now keys.
  - destruct Hp as [Ha Hf]. exists (lit "contacts-upsert"). eexists. split; [reflexivity|].
    assert (Hfp : o0 = match fingerprint with [] => None | _ => Some fingerprint end).
    { destruct fingerprint as [|b fp]; [by injection E0 as <-|]. rewrite Hf in E0 by done. congruence. }
    split; [destruct fingerprint; web_types|]. intros auth Hu Hd. cbn [request_transcript]. unfold contacts_upsert_auth_message.
    rewrite (alias_agrees _ _ E), Hfp, <- ?Hu. unfold normalize_contact_alias_for_auth. rewrite Ha. by destruct fingerprint.
  - assert (l = mimeType) as -> by congruence. exists (lit "files-upload"). eexists.
    split; [|split; [|intros auth Hu Hd; reflexivity]].
    + cbn [web_headers]. unfold buildFileUploadAuthHeaders. by rewrite (base64ToBytes_range _ _ _ _ _ ltac:(done) E0).
    + web_types.
  - exists (lit "inbox-delete"). eexists. split; [reflexivity|]. split; [destruct deleteBeforeId; web_types|].
    intros auth Hu Hd. cbn [request_transcript]. unfold inbox_delete_auth_message. cbn [di_message_ids di_delete_before_id].
    rewrite sort_unique_normalize, (map_ext _ _ i64ToBeBytes_be), <- ?Hu. destruct deleteBeforeId; [rewrite i64ToBeBytes_be|]; reflexivity.
  - assert (l = purpose) as -> by congruence. web_case date_now keys.
  - assert (l = token) as ->.
    { unfold validate_push_token in E. rewrite Hp in E. destruct (_ || _); [done|]. destruct provider; [congruence|].
      destruct (negb _); [done|]. destruct (_ || _); congruence. }
    web_case date_now keys.
Qed.

Lemma web_signed_run (date_now : Z) (secs : N) (endpoint sk nonce m : bytes) (keys : GeneratedKeys) (records : list TlvRecord) (g g' : rng) :
  unixTimestampSeconds date_now = Z.of_N secs → web_keys_sign keys sk → rng_fill 16 g = (nonce, g') →
  Forall (λ r, ty r ≤ u16_max) records →
  auth_transcript (mkAuth (gk_userId keys) (gk_deviceId keys) (Z.of_N secs) (b64_encode nonce) []) endpoint records = Ok m →
  web_signed date_now endpoint keys (Ok records) g =
    (g', Ok (mkAuthHeaders (gk_userId keys) (gk_deviceId keys) (i64_to_string (Z.of_N secs)) (b64_encode nonce)
               (b64_encode (ed_sign sk m)))).
Proof.
  intros Hs [Hk Hl] Hg Hr Hm. unfold web_signed, web_nonce, sm_bind, sm_lift. rewrite Hg, Hs.
  unfold auth_transcript in Hm. destruct (encode _) as [m'|] eqn:Em; [|done]. injection Hm as <-.
  unfold signAuthHeaders, signWithIdentity, headersOf, bytesToBase64, base64ToBytes. rewrite btoa_standard.
  rewrite (encodeTlv_encode _ m'), Hk, atob_standard; [|..].
  1: { cbn [ok_or]. rewrite noble_sign_rfc8032 by done. cbn. by rewrite btoa_standard. }
  - repeat (apply list.Forall_cons; split; [cbn [ty]; by vm_compute|]). exact Hr.
  - unfold authCommonRecords. by rewrite i64ToBeBytes_be.
Qed.
End WebAgreement.

(** C33: What the web client signs, the server verifies, at 32 of its
    authenticated endpoints. Take the keys of an active device whose clock agrees
    with the server's up to the tolerated skew. If the server, after its own
    decoding and normalisation, would read the request as [r], the values the
    client does not normalise are in normal form and the transcript of [r] fits
    its encoding, then the client builds headers, the server parses them,
    rebuilds the very transcript that was signed and accepts the signature,
    provided the nonce is fresh. *)
Theorem web_request_verified (P : Primitives) (PL : PrimitiveLaws P) (V : Ed25519) (VL : Ed25519Laws V)
    (B : Base64) (BL : Base64Laws B) (W : WebPlatform) (WL : WebPlatformLaws W B V) (X : WebText) (XL : WebTextLaws X)
    (I : HashIter) (s : AppState) (row : UserRow) (device : DeviceRow)
    (keys : GeneratedKeys) (sk m : bytes) (date_now : Z) (call : WebCall) (r : AuthRequest) (g : rng) :
  let user := gk_userId keys in
  let dev := gk_deviceId keys in
  let secs := unixTimestampSeconds date_now in
  let auth0 := mkAuth user dev secs (b64_encode (rng_fill 16 g).1) [] in
  users (st_db s) !! user = Some row → web_keys_sign keys sk → ed_pair (u_identity_sig_pub row) sk →
  user_devices (st_db s) !! (user, dev) = Some device → d_active device = true →
  header_text user → header_text dev → (0 ≤ secs ≤ i64_max)%Z → skew_ok (st_utc s) secs = true →
  (observe user (ra_nonce auth0) (st_instant s) (st_auth_replay s)).2 = true →
  web_request keys call = Some r → web_plain call → request_transcript auth0 r = Ok m →
  ∃ headers auth, web_headers date_now keys call g = ((rng_fill 16 g).2, Ok headers) ∧
    parse_request_auth (header_map headers) = Ok auth ∧ ra_user_id auth = user ∧ ra_device_id auth = dev ∧
    request_transcript auth r = Ok m ∧ (verify_request_auth auth m s).2 = Ok tt.
Proof.
  intros user dev secs auth0 Hrow Hks Hpair Hdev Hact Hu Hd Hs Hskew Hfresh Hr Hp Hm.
  destruct (web_signs_all date_now keys call r Hr Hp) as (ep & recs & -> & Hty & Ht).
  assert (∃ n, secs = Z.of_N n) as [n Hn] by (exists (Z.to_N secs); lia). rewrite Ht in Hm by done.
  destruct (rng_fill 16 g) as [nonce g'] eqn:Eg. simpl in auth0, Hfresh |- *.
  set (auth := mkAuth user dev secs (b64_encode nonce) (ed_sign sk m)).
  eexists _, auth. split; [apply (web_signed_run date_now n ep sk nonce m keys recs g g'); [done..|by rewrite <- Hn]|].
  split; [|split_and!; [done..|by rewrite Ht by done|by apply (signature_accepted s row device)]].
  unfold auth. rewrite Hn. apply parse_signed_headers; [done..|lia| |apply ed_sign_length].
  pose proof (rng_fill_length 16 g) as Hl. by rewrite Eg in Hl.
Qed.

Lemma length_js_join (separator : bytes) (l : list bytes) : l ≠ [] →
  length (js_join separator l) = (length (concat l) + (length l - 1) * length separator)%nat.
Proof.
  destruct l as [|x l]; [done|]. intros _. cbn [js_join concat length]. rewrite !length_app, Nat.sub_succ, Nat.sub_0_r.
  rewrite <- Nat.add_assoc. f_equal. induction l as [|y l IH]; [done|]. cbn [map concat length]. rewrite !length_app. lia.
Qed.

Lemma length_concat_perm (l k : list bytes) : l ≡ₚ k → length (concat l) = length (concat k).
Proof. induction 1; cbn [concat]; rewrite ?length_app; lia. Qed.

(** Creating a group is refused: the client joins the members with commas before
    it hashes them, the server concatenates them, so that for two members or more
    the digests are those of texts of different lengths. *)
Lemma web_group_create_differs `{P : Primitives} (members l : list bytes) :
  map str_trim members = members → normalize_group_members members = Ok l → (2 ≤ length l)%nat →
  ∃ a b, hashStringListSha256 members = sha256 a ∧ Validation.hash_string_list_sha256 l = sha256 b ∧ length a ≠ length b.
Proof.
  intros Ht Hn Hl. eexists _, _. split; [reflexivity|]. split; [reflexivity|].
  unfold normalize_group_members in Hn. destruct (trimmed_members members) as [m|] eqn:Em; [|done].
  apply trimmed_members_map in Em as ->. rewrite Ht in Hn. destruct (_ <? _); [done|]. apply Ok_inj in Hn as <-.
  destruct (normalize_strings_spec members) as [Hs He]. set (k := dedup (sort_unstable str_leb members)) in *.
  assert (Hp : sort_unstable js_string_leb (js_unique members) ≡ₚ k).
  { rewrite sort_unstable_perm. apply list.NoDup_Permutation; [apply NoDup_js_unique| |].
    - clear -Hs. induction Hs as [|x k Hk IH Hx]; constructor; [|done]. intros Hin. rewrite list.Forall_forall in Hx.
      by destruct (Hx x Hin).
    - intros x. by rewrite elem_of_js_unique, He. }
  rewrite length_js_join; [|intros E; rewrite E in Hp; apply Permutation_length in Hp; cbn in Hp; lia].
  rewrite (length_concat_perm _ _ Hp), (Permutation_length Hp). change (length (lit ",")) with 1%nat. lia.
Qed.

(** ** An instance *)

#[export] Instance ToyWebText : WebText := {| js_trim := str_trim; toLowerCase := to_ascii_lowercase |}.

#[export] Instance ToyWebTextLaws : WebTextLaws ToyWebText.
Proof. by split. Qed.

Definition toy_web_keys : GeneratedKeys :=
  mkGenerated (lit "alice") (lit "d1") [] (b64_encode (toy_key 102)) (b64_encode (toy_key 102)) (b64_encode (toy_key 101))
    (b64_encode (toy_key 101)) [] [] [] [] [] [] [] [] [] [].

Definition toy_web_call : WebCall := WebProfileUpsert (lit "Alice S.") (lit "@Alice.Smith") true.

Definition toy_web_request : AuthRequest :=
  ReqProfileUpsert (lit "alice") (Some (lit "Alice S.")) (Some (lit "alice.smith")) true None None.

Definition toy_web_transcript : app bytes :=
  request_transcript (mkAuth (lit "alice") (lit "d1") 1000 (b64_encode (@rng_fill Toy 16 5).1) []) toy_web_request.

Lemma web_request_verified_witness :
  ∃ m headers auth, web_headers 1000999 toy_web_keys toy_web_call 5 = ((@rng_fill Toy 16 5).2, Ok headers) ∧
    parse_request_auth (header_map headers) = Ok auth ∧ ra_user_id auth = lit "alice" ∧ ra_device_id auth = lit "d1" ∧
    request_transcript auth toy_web_request = Ok m ∧
    (verify_request_auth auth m (toy_state (1000 * NANOS) 0 toy_db)).2 = Ok tt.
Proof.
  assert (Hok : is_ok toy_web_transcript = true) by (vm_compute; reflexivity).
  exists (ok_val toy_web_transcript Hok).
  apply (web_request_verified Toy ToyLaws ToyEd ToyEdLaws ToyBase64 ToyBase64Laws ToyWeb ToyWebLaws ToyWebText ToyWebTextLaws
           MapOrder (toy_state (1000 * NANOS) 0 toy_db) (toy_user 101) (mkDevice true 10 None) toy_web_keys
           (toy_key 101) _ 1000999 toy_web_call toy_web_request 5).
  - vm_compute. reflexivity.
  - split; vm_compute; reflexivity.
  - split; vm_compute; reflexivity.
  - vm_compute. reflexivity.
  - reflexivity.
  - split; [|split; [|split]]; vm_compute; first [reflexivity|discriminate].
  - split; [|split; [|split]]; vm_compute; first [reflexivity|discriminate].
  - split; vm_compute; discriminate.
  - vm_compute. reflexivity.
  - vm_compute. reflexivity.
  - vm_compute. reflexivity.
  - split_and!; vm_compute; first [reflexivity|discriminate].
  - exact (ok_val_spec toy_web_transcript Hok).
Defined.
