(* ===== verification/Wasm.v ===== *)
(** * The compiled library of the web client ([pqmsg-core/src/wasm_bindings.rs])

    The functions the browser calls: primitives, keys, sessions, sealed messages,
    private groups and transparency proofs. Values cross the boundary as the
    records they are serialised from, texts as octets. *)

From Stdlib Require Import Strings.Byte.
From S2P Require Import Prelude Bytes Errors Tlv Crypto Toy Alg Aead Ad Wire Ratchet PqRatchet Session SessionRun Conversation Keys Handshake EndToEnd Transparency Consistency SafetyNumber PqSig Storage Sealed Groups GroupMessages ServerError Validation RequestAuth ClientAuth PrekeyServer Android TransparencyService AndroidAuth AndroidKeys AndroidSession WebJs WebAuth.
Local Open Scope N_scope.

(** [map_err(|e| JsValue::from_str(&e.to_string()))]. *)
Definition js_core {A} (r : res A) : js A :=
  match r with Ok a => Ok a | Err e => Err (Thrown (CoreError_to_string e)) end.

Definition opt_js {A C} (f : A → js C) (o : option A) : js (option C) :=
  match o with Some a => let? c := f a in Ok (Some c) | None => Ok None end.

Definition throw_if (c : bool) (message : bytes) : js unit := if c then Err (Thrown message) else Ok tt.

(** ** Records *)

Record WasmIdentityKeys := mkWasmIdentity {
  wi_user_id : bytes;
  wi_device_id : bytes;
  wi_identity_key_id : bytes;
  wi_identity_pub : bytes;
  wi_identity_secret : bytes;
  wi_signed_prekey_id : bytes;
  wi_signed_prekey_pub : bytes;
  wi_signed_prekey_secret : bytes;
}.

(** [WasmGeneratedKeysFile] has the fields of [GeneratedKeys]. *)
Definition WasmGeneratedKeysFile : Type := GeneratedKeys.

Record WasmServerBundle := mkWasmBundle {
  wb_user_id : bytes;
  wb_identity_x25519_pub : bytes;
  wb_identity_sig_pub : bytes;
  wb_identity_pq_sig_pub : bytes;
  wb_signed_prekey_x25519_pub : bytes;
  wb_sig_over_spk : bytes;
  wb_pq_signed_prekey_pub_mlkem768 : bytes;
  wb_sig_over_pqspk : bytes;
  wb_pq_sig_over_spk : bytes;
  wb_pq_sig_over_pqspk : bytes;
  wb_one_time_prekey_x25519 : option bytes;
  wb_one_time_prekey_mlkem768 : option bytes;
}.

Record WasmSessionFile := mkWasmSession {
  wf_version : N;
  wf_user_id : bytes;
  wf_peer_user_id : bytes;
  wf_suite : bytes;
  wf_snapshot : SessionSnapshot;
}.

Record WasmSendResult := mkWasmSend {
  ws_message_bytes_base64 : bytes;
  ws_session : WasmSessionFile;
  ws_used_handshake : bool;
}.

Record WasmDecryptResult := mkWasmDecrypt {
  wd_plaintext_utf8 : bytes;
  wd_plaintext_base64 : bytes;
  wd_session : WasmSessionFile;
  wd_used_handshake : bool;
  wd_updated_keys : WasmGeneratedKeysFile;
}.

Record WasmPrivateGroupCredentialMaterial := mkWasmMaterial {
  wm_membership_handle_sha256 : bytes;
  wm_member_commitment_sha256 : bytes;
  wm_fetch_key_base64 : bytes;
  wm_fetch_key_sha256 : bytes;
  wm_publish_key_base64 : option bytes;
  wm_publish_key_sha256 : option bytes;
}.

Record WasmPrivateGroupBootstrapMaterial := mkWasmBootstrap {
  wp_snapshot : PrivateGroupEncryptedSnapshot;
  wp_authorizing_member_credential : PrivateGroupMemberCredential;
  wp_member_credentials : list PrivateGroupMemberCredential;
  wp_member_join_packages : list (bytes * PrivateGroupJoinPackage);
}.

(** ** Suites *)

Definition suite_label (suite : bytes) : bytes := to_ascii_lowercase (str_trim suite).

Definition unsupported_suite (suite : bytes) : JsError := Thrown (lit "unsupported suite '" ++ suite ++ lit "'").

Definition suite_to_kem_algorithm (suite : bytes) : js KemAlgorithm :=
  let label := suite_label suite in
  if bool_decide (label = lit "ml-kem-768") then Ok MlKem768
  else if bool_decide (label = lit "kyber768") then Ok Kyber768Alias
  else Err (unsupported_suite label).

Definition suite_id_to_label (suite_id : N) : js bytes :=
  if suite_id =? SUITE_ID_MLKEM768_X25519_HKDF_SHA256_CHACHA20POLY1305 then Ok (lit "ml-kem-768")
  else if suite_id =? SUITE_ID_KYBER768_X25519_HKDF_SHA256_CHACHA20POLY1305 then Ok (lit "kyber768")
  else Err (Thrown (lit "unsupported suite id '" ++ decimal suite_id ++ lit "'")).

Definition suite_label_to_id (suite : bytes) : js N :=
  let label := suite_label suite in
  if bool_decide (label = lit "ml-kem-768") then Ok SUITE_ID_MLKEM768_X25519_HKDF_SHA256_CHACHA20POLY1305
  else if bool_decide (label = lit "kyber768") then Ok SUITE_ID_KYBER768_X25519_HKDF_SHA256_CHACHA20POLY1305
  else Err (unsupported_suite label).

Section Wasm.
Context `{P : Primitives} `{V : Ed25519} `{B : Base64}.
Context (MlKem768_new : KemAlgorithm → res KemProvider) (MlDsa65_new : res PqSignatureProvider).

(** [Date::now()], in milliseconds, and the text of the error of [ed25519_dalek]
    for octets that are no key. *)
Context (date_now : Z) (key_error : bytes).
Local Open Scope sm_scope.

Definition web_core {A} (c : rng → res A * rng) : Web A := λ g, let '(r, g) := c g in (g, js_core r).
Definition web_rng {A} (c : rng → A * rng) : Web A := λ g, let '(a, g) := c g in (g, Ok a).

(** ** Primitives *)

Definition wasm_generate_identity_keys (user_id device_id : bytes) : Web WasmIdentityKeys :=
  identity <- web_rng (IdentityKeyPair_generate (lit "ik-0"));;
  signed_prekey <- web_rng (IdentityKeyPair_generate (lit "spk-0"));;
  sm_ret (mkWasmIdentity user_id device_id (lit "ik-0") (ik_public_key identity) (ik_secret_key identity)
            (lit "spk-0") (ik_public_key signed_prekey) (ik_secret_key signed_prekey)).

Definition wasm_generate_one_time_prekey (key_id : bytes) : Web (bytes * bytes * bytes) :=
  otpk <- web_rng (OneTimePreKey_generate key_id);;
  sm_ret (key_id, otpk_public_key otpk, otpk_secret_key otpk).

(** The nonce goes in front of the ciphertext. *)
Definition wasm_encrypt (key plaintext ad : bytes) : Web bytes :=
  sm_lift (throw_if (negb (len key =? 32)) (lit "key must be 32 bytes"));;;
  nonce <- web_rng (rng_fill 12);;
  envelope <- sm_lift (js_core (encrypt key plaintext ad nonce));;
  sm_ret (Aead.nonce envelope ++ ciphertext envelope).

Definition wasm_decrypt (key ciphertext_with_nonce ad : bytes) : js bytes :=
  let? _ := throw_if (negb (len key =? 32)) (lit "key must be 32 bytes") in
  let? _ := throw_if (len ciphertext_with_nonce <? 12) (lit "ciphertext too short") in
  js_core (decrypt key {| nonce := take 12 ciphertext_with_nonce; ciphertext := drop 12 ciphertext_with_nonce; aad := ad |}).

Definition wasm_hkdf_sha256 (ikm salt info : bytes) (out_len : nat) : js bytes :=
  js_core (hkdf_sha256 ikm (match salt with [] => None | _ => Some salt end) info out_len).

Definition wasm_x25519_dh (secret_key public_key : bytes) : js bytes :=
  let? _ := throw_if (negb (len secret_key =? 32) || negb (len public_key =? 32)) (lit "keys must be 32 bytes") in
  Ok (diffie_hellman secret_key public_key).

Definition wasm_x25519_keypair : Web bytes :=
  kp <- web_rng generate_keypair;;
  sm_ret (secret kp ++ public kp).

Definition wasm_conversation_ad (sender recipient : bytes) : js bytes := js_core (conversation_associated_data sender recipient).

Definition wasm_kem_keypair : Web KemKeyPair :=
  kem <- sm_lift (js_core (MlKem768_new MlKem768));;
  web_core (kem_keypair kem).

Definition wasm_kem_encapsulate (recipient_public_key : bytes) : Web KemEncapsulation :=
  kem <- sm_lift (js_core (MlKem768_new MlKem768));;
  web_core (kem_encapsulate kem recipient_public_key).

Definition wasm_kem_decapsulate (secret_key ciphertext : bytes) : js bytes :=
  let? kem := js_core (MlKem768_new MlKem768) in
  js_core (kem_decapsulate kem secret_key ciphertext).

Definition wasm_ml_dsa_keypair : Web PqSigKeyPair :=
  provider <- sm_lift (js_core MlDsa65_new);;
  web_core (pqs_keypair provider).

Definition wasm_ml_dsa_sign (secret_key message : bytes) : Web bytes :=
  provider <- sm_lift (js_core MlDsa65_new);;
  web_core (pqs_sign provider secret_key message).

Definition wasm_ml_dsa_verify (public_key message signature : bytes) : js unit :=
  let? provider := js_core MlDsa65_new in
  js_core (pqs_verify provider public_key message signature).

(** ** Encodings *)

Definition decode_b64 (field : string) (value : bytes) : js bytes :=
  ok_or (b64_decode value) (Thrown (lit "invalid base64 for field '" ++ lit field ++ lit "'")).

Definition decode_b64_32 (field : string) (value : bytes) : js bytes :=
  let? bytes := decode_b64 field value in
  let? _ := throw_if (negb (len bytes =? 32))
    (lit "field '" ++ lit field ++ lit "' must decode to 32 bytes (got " ++ decimal (len bytes) ++ lit ")") in
  Ok bytes.

Definition wasm_compute_safety_number (local_user_id local_identity_x25519_pub_b64 local_identity_pq_sig_pub_b64
    peer_user_id peer_identity_x25519_pub_b64 peer_identity_pq_sig_pub_b64 : bytes) : js bytes :=
  let? local_identity_x25519 := decode_b64_32 "local_identity_x25519_pub_b64" local_identity_x25519_pub_b64 in
  let? peer_identity_x25519 := decode_b64_32 "peer_identity_x25519_pub_b64" peer_identity_x25519_pub_b64 in
  let? local_identity_pq_sig := decode_b64 "local_identity_pq_sig_pub_b64" local_identity_pq_sig_pub_b64 in
  let? peer_identity_pq_sig := decode_b64 "peer_identity_pq_sig_pub_b64" peer_identity_pq_sig_pub_b64 in
  Ok (compute_safety_number (mkParty local_user_id local_identity_x25519 local_identity_pq_sig)
        (mkParty peer_user_id peer_identity_x25519 peer_identity_pq_sig)).

(** ** Transparency proofs *)

Definition parse_transparency_leaf (value : TransparencyLeafRecord) : js TransparencyLeaf :=
  let? x := decode_b64_32 "transparency.leaf.identity_x25519_pub" (lr_identity_x25519_pub value) in
  let? sig := decode_b64 "transparency.leaf.identity_sig_pub" (lr_identity_sig_pub value) in
  let? pq := opt_js (decode_b64 "transparency.leaf.identity_pq_sig_pub") (lr_identity_pq_sig_pub value) in
  Ok (mkLeaf (lr_user_id value) (lr_version value) x sig pq (lr_timestamp value)).

Definition parse_transparency_sth (value : TransparencySignedTreeHeadRecord) : js SignedTreeHead :=
  let? root := decode_b64_32 "transparency.signed_tree_head.root_hash" (sr_root_hash value) in
  let? signature := decode_b64 "transparency.signed_tree_head.signature" (sr_signature value) in
  Ok (mkSth (sr_epoch value) (sr_tree_size value) root signature).

Definition wasm_verify_transparency_proof (document : TransparencyProofDocument) (server_pub_key_b64 : bytes)
    (previous_sth : option TransparencySignedTreeHeadRecord) : js TransparencyVerificationResult :=
  let? leaf := parse_transparency_leaf (pd_leaf document) in
  let? path := js_map (λ item,
      let? hash := decode_b64_32 "transparency.inclusion_proof.path.hash" (pi_hash item) in
      Ok (hash, pi_is_left item)) (ir_path (pd_inclusion_proof document)) in
  let inclusion_proof := mkInclusion (ir_leaf_index (pd_inclusion_proof document)) path in
  let? sth := parse_transparency_sth (pd_signed_tree_head document) in
  let? server_pub_key_bytes := decode_b64_32 "transparency.server_pub_key" server_pub_key_b64 in
  let? server_pub_key := ok_or (ed_key_from_bytes server_pub_key_bytes)
    (Thrown (lit "invalid transparency server public key")) in
  let? _ := js_core (verify_inclusion_proof (TransparencyLeaf_hash leaf) inclusion_proof sth server_pub_key) in
  let? consistency_verified :=
    match previous_sth with
    | None => Ok false
    | Some previous_sth_value =>
        let? previous_sth := parse_transparency_sth previous_sth_value in
        match pd_consistency_proof document with
        | None => Ok false
        | Some consistency =>
            let? hashes := js_map (decode_b64_32 "transparency.consistency_proof.hash") (cr_proof_hashes consistency) in
            let proof := mkConsistency (cr_old_size consistency) (cr_new_size consistency) hashes in
            let? _ := js_core (verify_consistency_proof previous_sth sth proof server_pub_key) in
            Ok true
        end
    end in
  Ok (mkVerification true consistency_verified (tl_user_id leaf) (tl_version leaf) (sth_tree_size sth) (sth_epoch sth)).

(** ** Keys for the core *)

(** The verifier of Ed25519 signatures is that of the Android library. *)
Definition WasmEd25519SignatureVerifier : Verifier := Ed25519SignatureVerifier.

Definition build_kem_for_suite (suite : bytes) : js KemProvider :=
  let? algorithm := suite_to_kem_algorithm suite in
  js_core (MlKem768_new algorithm).

Definition to_identity_keypair (keys : WasmGeneratedKeysFile) : js IdentityKeyPair :=
  let? pub := decode_b64_32 "identityX25519Pub" (gk_identityX25519Pub keys) in
  let? sec := decode_b64 "identityX25519Secret" (gk_identityX25519Secret keys) in
  let? pq_pub := decode_b64 "identityPqSigPub" (gk_identityPqSigPub keys) in
  let? pq_sec := decode_b64 "identityPqSigSecret" (gk_identityPqSigSecret keys) in
  Ok {| ik_key_id := gk_userId keys ++ lit "-ik"; ik_public_key := pub; ik_secret_key := sec;
        ik_pq_sig_public_key := Some pq_pub; ik_pq_sig_secret_key := Some pq_sec |}.

Definition to_signed_prekey (keys : WasmGeneratedKeysFile) : js OneTimePreKey :=
  let? pub := decode_b64_32 "signedPrekeyX25519Pub" (gk_signedPrekeyX25519Pub keys) in
  let? sec := decode_b64 "signedPrekeyX25519Secret" (gk_signedPrekeyX25519Secret keys) in
  Ok {| otpk_key_id := gk_userId keys ++ lit "-spk"; otpk_public_key := pub; otpk_secret_key := sec |}.

Definition to_pq_signed_prekey (keys : WasmGeneratedKeysFile) : js KEMPreKey :=
  let? pub := decode_b64 "pqSignedPrekeyPubMlkem768" (gk_pqSignedPrekeyPubMlkem768 keys) in
  let? sec := decode_b64 "pqSignedPrekeySecretMlkem768" (gk_pqSignedPrekeySecretMlkem768 keys) in
  Ok {| kpk_key_id := gk_userId keys ++ lit "-pqspk"; kpk_public_key := pub; kpk_secret_key := sec |}.

Definition candidate_one_time_prekey (keys : WasmGeneratedKeysFile) (index : nat) : js (option OneTimePreKey) :=
  match gk_oneTimePrekeysX25519 keys !! index, gk_oneTimePrekeysX25519Secret keys !! index with
  | Some pub, Some sec =>
      let? pub := decode_b64_32 "oneTimePrekeysX25519[]" pub in
      let? sec := decode_b64 "oneTimePrekeysX25519Secret[]" sec in
      Ok (Some {| otpk_key_id := gk_userId keys ++ lit "-otk-x-" ++ decimal (N.of_nat index);
                  otpk_public_key := pub; otpk_secret_key := sec |})
  | _, _ => Ok None
  end.

Definition bundle_to_core (bundle : WasmServerBundle) (suite : bytes) : js PreKeyBundle :=
  let? identity := decode_b64_32 "identity_x25519_pub" (wb_identity_x25519_pub bundle) in
  let? spk := decode_b64_32 "signed_prekey_x25519_pub" (wb_signed_prekey_x25519_pub bundle) in
  let? pqspk := decode_b64 "pq_signed_prekey_pub_mlkem768" (wb_pq_signed_prekey_pub_mlkem768 bundle) in
  let? sig_spk := decode_b64 "sig_over_spk" (wb_sig_over_spk bundle) in
  let? sig_pqspk := decode_b64 "sig_over_pqspk" (wb_sig_over_pqspk bundle) in
  let? sig_pub := decode_b64 "identity_sig_pub" (wb_identity_sig_pub bundle) in
  let? kem := suite_to_kem_algorithm suite in
  let? pq_pub := decode_b64 "identity_pq_sig_pub" (wb_identity_pq_sig_pub bundle) in
  let? pq_sig_spk := decode_b64 "pq_sig_over_spk" (wb_pq_sig_over_spk bundle) in
  let? pq_sig_pqspk := decode_b64 "pq_sig_over_pqspk" (wb_pq_sig_over_pqspk bundle) in
  let? otk := opt_js (decode_b64_32 "one_time_prekey_x25519") (wb_one_time_prekey_x25519 bundle) in
  let? pq_otk := opt_js (decode_b64 "one_time_prekey_mlkem768") (wb_one_time_prekey_mlkem768 bundle) in
  Ok {| pb_protocol_version := PROTOCOL_VERSION_V1;
        pb_suite := {| suite_kem := kem;
                       suite_dh := suite_dh AlgorithmSuite_default;
                       suite_kdf := suite_kdf AlgorithmSuite_default;
                       suite_aead := suite_aead AlgorithmSuite_default;
                       suite_signature := suite_signature AlgorithmSuite_default |};
        pb_owner_id := wb_user_id bundle;
        pb_identity_key := identity;
        pb_signed_prekey := spk;
        pb_pq_signed_prekey := pqspk;
        pb_spk_signature := sig_spk;
        pb_pqspk_signature := sig_pqspk;
        pb_signature_public_key := sig_pub;
        pb_one_time_prekey := otk;
        pb_one_time_pq_prekey := pq_otk;
        pb_pq_sig_public_key := Some pq_pub;
        pb_pq_spk_signature := Some pq_sig_spk;
        pb_pq_pqspk_signature := Some pq_sig_pqspk |}.

(** ** Sessions *)

Definition wasm_mismatch (what value whose owner : bytes) : bytes :=
  what ++ lit " '" ++ value ++ lit "' does not match " ++ whose ++ lit " '" ++ owner ++ lit "'".

Definition same_user (x y what whose : bytes) : js unit :=
  throw_if (negb (bool_decide (x = y))) (wasm_mismatch what y whose x).

Definition restore_session (session_file : WasmSessionFile) : js SessionState :=
  let? kem := build_kem_for_suite (wf_suite session_file) in
  Ok (from_snapshot_with_kem (wf_snapshot session_file) (Some kem)).

(** An operation on a session that was restored, with the session afterwards. *)
Definition web_session_op {A} (s : SessionState) (c : Op A) : Web (A * SessionState) :=
  λ g, let '((s', g'), r) := c (s, g) in (g', let? a := js_core r in Ok (a, s')).

Definition wasm_initiate_session_and_encrypt (keys : WasmGeneratedKeysFile) (from_user_id peer_user_id : bytes)
    (peer_bundle : WasmServerBundle) (plaintext_utf8 : bytes) : Web WasmSendResult :=
  sm_lift (same_user (gk_userId keys) from_user_id (lit "from_user_id") (lit "keys user"));;;
  prekey_bundle <- sm_lift (bundle_to_core peer_bundle (gk_suite keys));;
  identity <- sm_lift (to_identity_keypair keys);;
  local_pq_signed_prekey <- sm_lift (to_pq_signed_prekey keys);;
  kem <- sm_lift (build_kem_for_suite (gk_suite keys));;
  pq_verifier <- sm_lift (js_core MlDsa65_new);;
  sm_lift (js_core (validate_hybrid_prekey_bundle_signatures prekey_bundle WasmEd25519SignatureVerifier
                      (pqs_verify pq_verifier)));;;
  initiator <- web_core (alice_initiate WasmEd25519SignatureVerifier kem from_user_id peer_user_id identity
                           (kpk_public_key local_pq_signed_prekey) prekey_bundle plaintext_utf8);;
  initial_encoded <- sm_lift (js_core (InitialMessage_encode (io_initial_message initiator)));;
  session <- sm_lift (js_core (initiator_session (io_session_key initiator) identity local_pq_signed_prekey
                                 prekey_bundle kem));;
  sm_ret (mkWasmSend (b64_encode initial_encoded)
            (mkWasmSession 1 from_user_id peer_user_id (gk_suite keys) (snapshot session)) true).

Definition wasm_encrypt_with_session (session_file : WasmSessionFile) (sender_user_id peer_user_id plaintext_utf8 : bytes)
    : Web WasmSendResult :=
  sm_lift (same_user (wf_user_id session_file) sender_user_id (lit "sender_user_id") (lit "session user"));;;
  sm_lift (same_user (wf_peer_user_id session_file) peer_user_id (lit "peer_user_id") (lit "session peer"));;;
  session <- sm_lift (restore_session session_file);;
  ad <- sm_lift (js_core (conversation_associated_data sender_user_id peer_user_id));;
  sent <- web_session_op session (SessionState_encrypt plaintext_utf8 ad);;
  sm_ret (mkWasmSend (b64_encode sent.1)
            (mkWasmSession (wf_version session_file) (wf_user_id session_file) (wf_peer_user_id session_file)
               (wf_suite session_file) (snapshot sent.2)) false).

(** The index of the first candidate, from [index] on, that opens the message. *)
Fixpoint try_one_time_prekeys (keys : WasmGeneratedKeysFile) (receive : OneTimePreKey → res ResponderOutput)
    (index count : nat) : js (option (ResponderOutput * nat)) :=
  match count with
  | O => Ok None
  | S count =>
      let? candidate := candidate_one_time_prekey keys index in
      match candidate with
      | None => try_one_time_prekeys keys receive (S index) count
      | Some candidate =>
          match receive candidate with
          | Ok next => Ok (Some (next, index))
          | Err _ => try_one_time_prekeys keys receive (S index) count
          end
      end
  end.

(** [Vec::remove], where the index is in range. *)
Definition remove_at {A} (index : nat) (l : list A) : list A := take index l ++ drop (S index) l.

Definition remove_consumed_one_time_keys (keys : WasmGeneratedKeysFile) (index : nat) : WasmGeneratedKeysFile :=
  mkGenerated (gk_userId keys) (gk_deviceId keys) (gk_suite keys) (gk_identityX25519Pub keys)
    (gk_identityX25519Secret keys) (gk_identitySigPub keys) (gk_identitySigSecret keys) (gk_identityPqSigPub keys)
    (gk_identityPqSigSecret keys) (gk_signedPrekeyX25519Pub keys) (gk_signedPrekeyX25519Secret keys)
    (gk_pqSignedPrekeyPubMlkem768 keys) (gk_pqSignedPrekeySecretMlkem768 keys)
    (remove_at index (gk_oneTimePrekeysX25519 keys)) (remove_at index (gk_oneTimePrekeysX25519Secret keys))
    (remove_at index (gk_oneTimePrekeysMlkem768 keys)) (remove_at index (gk_oneTimePrekeysMlkem768Secret keys)).

(** The keys of the device against an initial message: first without a one-time
    prekey, then with each of them. *)
Definition receive_initial (keys : WasmGeneratedKeysFile) (receive : option OneTimePreKey → res ResponderOutput)
    : js (ResponderOutput * WasmGeneratedKeysFile) :=
  match receive None with
  | Ok responder => Ok (responder, keys)
  | Err e =>
      let candidate_count := Nat.min (length (gk_oneTimePrekeysX25519 keys)) (length (gk_oneTimePrekeysX25519Secret keys)) in
      let? found := try_one_time_prekeys keys (λ candidate, receive (Some candidate)) 0 candidate_count in
      match found with
      | Some (responder, index) => Ok (responder, remove_consumed_one_time_keys keys index)
      | None => js_core (Err e)
      end
  end.

(** The two parts of [wasm_decrypt_message]. *)
Definition wasm_decrypt_initial (keys : WasmGeneratedKeysFile) (recipient_user_id sender_user_id : bytes)
    (initial : InitialMessage) : js WasmDecryptResult :=
  let? _ := same_user (im_sender_id initial) sender_user_id (lit "sender_user_id") (lit "handshake sender") in
  let? _ := same_user (im_recipient_id initial) recipient_user_id (lit "recipient_user_id") (lit "handshake recipient") in
  let? suite_label := suite_id_to_label (im_suite_id initial) in
  let? kem := build_kem_for_suite suite_label in
  let? identity := to_identity_keypair keys in
  let? signed_prekey := to_signed_prekey keys in
  let? pq_signed_prekey := to_pq_signed_prekey keys in
  let? (responder, keys) :=
    receive_initial keys (λ one_time, bob_receive kem identity signed_prekey pq_signed_prekey one_time initial) in
  let? session := js_core (responder_start kem signed_prekey pq_signed_prekey initial responder) in
  Ok (mkWasmDecrypt (from_utf8_lossy (ro_plaintext responder)) (b64_encode (ro_plaintext responder))
        (mkWasmSession 1 recipient_user_id sender_user_id suite_label (snapshot session)) true keys).

Definition wasm_decrypt_in_session (keys : WasmGeneratedKeysFile) (session_file : WasmSessionFile)
    (recipient_user_id sender_user_id message_bytes : bytes) : Web WasmDecryptResult :=
  sm_lift (same_user (wf_user_id session_file) recipient_user_id (lit "recipient_user_id") (lit "session user"));;;
  sm_lift (same_user (wf_peer_user_id session_file) sender_user_id (lit "sender_user_id") (lit "session peer"));;;
  session <- sm_lift (restore_session session_file);;
  ad <- sm_lift (js_core (conversation_associated_data sender_user_id recipient_user_id));;
  received <- web_session_op session (SessionState_decrypt message_bytes ad);;
  sm_ret (mkWasmDecrypt (from_utf8_lossy received.1) (b64_encode received.1)
            (mkWasmSession (wf_version session_file) (wf_user_id session_file) (wf_peer_user_id session_file)
               (wf_suite session_file) (snapshot received.2)) false keys).

Definition wasm_decrypt_message (keys : WasmGeneratedKeysFile) (recipient_user_id sender_user_id message_bytes_base64 : bytes)
    (existing_session : option WasmSessionFile) : Web WasmDecryptResult :=
  sm_lift (same_user (gk_userId keys) recipient_user_id (lit "recipient_user_id") (lit "keys user"));;;
  message_bytes <- sm_lift (decode_b64 "message_bytes_base64" message_bytes_base64);;
  match InitialMessage_decode message_bytes with
  | Ok initial => sm_lift (wasm_decrypt_initial keys recipient_user_id sender_user_id initial)
  | Err _ =>
      session_file <- sm_lift (ok_or existing_session
        (Thrown (lit "existing_session_json is required for non-handshake messages")));;
      wasm_decrypt_in_session keys session_file recipient_user_id sender_user_id message_bytes
  end.

(** ** Sealed messages *)

Definition wasm_seal_message_with_sender_cert (keys : WasmGeneratedKeysFile) (recipient_user_id recipient_identity_x25519_pub
    payload_message_bytes_base64 sender_certificate_base64 : bytes) : Web bytes :=
  identity <- sm_lift (to_identity_keypair keys);;
  local_secret <- sm_lift (js_core (IdentityKeyPair_require_secret_key identity));;
  recipient_identity_pub <- sm_lift (decode_b64_32 "recipient_identity_x25519_pub" recipient_identity_x25519_pub);;
  suite_id <- sm_lift (suite_label_to_id (gk_suite keys));;
  payload <- sm_lift (decode_b64 "payload_message_bytes_base64" payload_message_bytes_base64);;
  certificate <- sm_lift (decode_b64 "sender_certificate_base64" sender_certificate_base64);;
  sender_certificate <- sm_lift (js_core (SenderCertificate_decode certificate));;
  sealed <- web_core (seal_message_with_cert local_secret recipient_identity_pub suite_id recipient_user_id
              (gk_userId keys) (gk_deviceId keys) payload sender_certificate);;
  sm_ret (b64_encode sealed).

Definition wasm_open_sealed_message_with_sender_cert (keys : WasmGeneratedKeysFile) (sender_identity_x25519_pub : option bytes)
    (sealed_message_bytes_base64 server_issuer_ed25519_pub : bytes) : js (bytes * bytes * bytes) :=
  let? identity := to_identity_keypair keys in
  let? local_secret := js_core (IdentityKeyPair_require_secret_key identity) in
  let? suite_id := suite_label_to_id (gk_suite keys) in
  let? legacy_sender_identity_pub := opt_js (decode_b64_32 "sender_identity_x25519_pub") sender_identity_x25519_pub in
  let? server_pub := decode_b64_32 "server_issuer_ed25519_pub" server_issuer_ed25519_pub in
  let? server_pub_key := ok_or (ed_key_from_bytes server_pub) (Thrown key_error) in
  let now_unix_secs := Z.to_N (date_now / 1000) in
  let? sealed := decode_b64 "sealed_message_bytes_base64" sealed_message_bytes_base64 in
  let? opened := js_core (open_message_with_cert local_secret sealed suite_id (gk_userId keys) (Some server_pub_key)
                            now_unix_secs legacy_sender_identity_pub) in
  let? _ := throw_if (bool_decide (oc_sender_cert opened = None))
    (lit "sealed sender certificate missing from transport envelope") in
  Ok (oc_sender_user_id opened, oc_sender_device_id opened, b64_encode (oc_payload opened)).
End Wasm.

(** ** Secrets at rest *)

Section WasmStorage.
Context `{P : Primitives} `{C : !StorageCrypto} `{B : Base64}.

Definition wasm_wrap_secret (passphrase plaintext : bytes) : Web WrappedSecret := web_core (wrap_bytes passphrase plaintext).

Definition wasm_unwrap_secret (passphrase : bytes) (wrapped : WrappedSecret) : js bytes :=
  js_core (unwrap_bytes passphrase wrapped).
End WasmStorage.

(** ** Private groups *)

Definition parse_private_group_role (role : bytes) : js PrivateGroupRole :=
  let role := to_ascii_lowercase (str_trim role) in
  if bool_decide (role = lit "owner") then Ok Owner
  else if bool_decide (role = lit "admin") then Ok Admin
  else if bool_decide (role = lit "member") then Ok Member
  else throw "invalid private group role".

Section WasmGroups.
Context `{P : Primitives} `{V : Ed25519} `{B : Base64} `{J : JoinJson}.
Context (MlDsa65_new : res PqSignatureProvider).
Local Open Scope sm_scope.

(** [hex_string] is [hex_encode] of the core. *)
Definition private_group_credential_material (credential : PrivateGroupMemberCredential)
    : js WasmPrivateGroupCredentialMaterial :=
  let? fetch_key := js_core (state_fetch_key credential) in
  let? publish_key := js_core (state_publish_key credential) in
  Ok (mkWasmMaterial (hex_encode (membership_handle_sha256 credential)) (hex_encode (member_commitment_sha256 credential))
        (b64_encode fetch_key) (hex_encode (sha256 fetch_key)) (b64_encode <$> publish_key)
        ((λ value, hex_encode (sha256 value)) <$> publish_key)).

Definition wasm_private_group_create_state (owner_user_id : bytes) (attributes : PrivateGroupAttributes)
    (initial_members : list PrivateGroupMember) (created_at_unix_seconds : N) : Web PrivateGroupState :=
  web_core (new_with_rng owner_user_id attributes initial_members created_at_unix_seconds).

Definition wasm_private_group_encrypt_snapshot (state : PrivateGroupState) : Web PrivateGroupEncryptedSnapshot :=
  web_core (encrypted_snapshot_with_rng state).

Definition wasm_private_group_export_invite_package (state : PrivateGroupState) : Web PrivateGroupInvitePackage :=
  web_core (export_invite_package_with_rng state).

Definition wasm_private_group_export_join_package_for_member (state : PrivateGroupState) (member_user_id : bytes)
    : Web PrivateGroupJoinPackage :=
  web_core (export_join_package_for_member_with_rng state member_user_id).

Definition wasm_private_group_restore_join_package (join_package : PrivateGroupJoinPackage)
    : js (PrivateGroupState * PrivateGroupMemberCredential) :=
  js_core (restore_state_and_credential join_package).

Definition wasm_private_group_issue_member_credentials (state : PrivateGroupState)
    : Web (list PrivateGroupMemberCredential) :=
  web_core (issue_member_credentials_for_all_members_with_rng state).

(** The join packages of all members. *)
Fixpoint member_join_packages (state : PrivateGroupState) (credentials : list PrivateGroupMemberCredential)
    : Web (list (bytes * PrivateGroupJoinPackage)) :=
  match credentials with
  | [] => sm_ret []
  | credential :: credentials =>
      join_package <- web_core (export_join_package_for_member_credential_with_rng state credential);;
      rest <- member_join_packages state credentials;;
      sm_ret ((mc_member_user_id credential, join_package) :: rest)
  end.

Definition wasm_private_group_prepare_bootstrap_material (state : PrivateGroupState) (authorizing_user_id : bytes)
    : Web WasmPrivateGroupBootstrapMaterial :=
  snapshot <- web_core (encrypted_snapshot_with_rng state);;
  credentials <- web_core (issue_member_credentials_for_all_members_with_rng state);;
  authorizing <- sm_lift (ok_or (find_credential authorizing_user_id credentials)
    (Thrown (lit "authorizing private group member missing from state")));;
  packages <- member_join_packages state credentials;;
  sm_ret (mkWasmBootstrap snapshot authorizing credentials packages).

Definition wasm_private_group_encrypt_join_package_for_share_link (join_package : PrivateGroupJoinPackage)
    : Web PrivateGroupLinkInviteMaterial :=
  web_core (encrypt_for_share_link_with_rng join_package).

Definition wasm_private_group_describe_member_credential (credential : PrivateGroupMemberCredential)
    : js WasmPrivateGroupCredentialMaterial := private_group_credential_material credential.

(** [base64_error] is the text of the decoder's error. *)
Definition wasm_private_group_open_share_link_invite (base64_error : bytes) (envelope : PrivateGroupLinkInviteEnvelope)
    (invite_secret_base64 : bytes) : js PrivateGroupJoinPackage :=
  let? invite_secret := ok_or (b64_decode invite_secret_base64) (Thrown base64_error) in
  let? _ := throw_if (negb (len invite_secret =? 32)) (lit "private group invite secret must decode to 32 bytes") in
  js_core (open_join_package envelope invite_secret).

Definition wasm_private_group_prepare_add_member_transition (state : PrivateGroupState) (member_user_id role : bytes)
    (updated_at_unix_seconds : N) : Web PrivateGroupEpochTransition :=
  next_role <- sm_lift (parse_private_group_role role);;
  web_core (prepare_add_member_transition_with_rng state member_user_id next_role updated_at_unix_seconds).

Definition wasm_private_group_prepare_remove_member_transition (state : PrivateGroupState) (member_user_id : bytes)
    (updated_at_unix_seconds : N) : Web PrivateGroupEpochTransition :=
  web_core (prepare_remove_member_transition_with_rng state member_user_id updated_at_unix_seconds).

Definition wasm_private_group_encrypt_message (state : PrivateGroupState) (sender_user_id sender_identity_sig_secret_base64
    sender_identity_pq_sig_secret_base64 body : bytes) (sent_at_unix_ms : N) : Web PrivateGroupEncryptedMessage :=
  sig_secret <- sm_lift (decode_b64 "private_group.sender_identity_sig_secret_base64" sender_identity_sig_secret_base64);;
  pq_secret <- sm_lift (decode_b64 "private_group.sender_identity_pq_sig_secret_base64" sender_identity_pq_sig_secret_base64);;
  pq_provider <- sm_lift (js_core MlDsa65_new);;
  web_core (encrypt_message_with_rng state sender_user_id sig_secret pq_secret body sent_at_unix_ms pq_provider).

Definition wasm_private_group_open_message (state : PrivateGroupState) (message : PrivateGroupEncryptedMessage)
    (sender_identity_sig_pub_base64 sender_identity_pq_sig_pub_base64 : bytes) : js PrivateGroupDecryptedMessage :=
  let? sig_pub := decode_b64 "private_group.sender_identity_sig_pub_base64" sender_identity_sig_pub_base64 in
  let? pq_pub := decode_b64 "private_group.sender_identity_pq_sig_pub_base64" sender_identity_pq_sig_pub_base64 in
  let? pq_provider := js_core MlDsa65_new in
  js_core (GroupMessages.decrypt_message state message sig_pub pq_pub pq_provider).
End WasmGroups.
