(* ===== verification/WebKeys.v ===== *)
(** * Keys of the web client ([mobile/web/src/crypto.ts], [crypto-wasm.ts])

    Generation of the key file, the signed upload of prekeys, confirmation of a
    rotation, fresh prekeys, and a second device. The post-quantum keys come from
    the compiled library, the others from [@noble/curves]. *)

From Stdlib Require Import Strings.Byte.
From S2P Require Import Prelude Bytes Errors Tlv Crypto Toy Alg Keys PqSig Storage ServerError Validation RequestAuth PrekeyServer ClientAuth Android AndroidAuth AndroidKeys WebJs WebAuth Wasm.
Local Open Scope N_scope.

(** Public keys of [x25519] and [ed25519] of [@noble/curves]. *)
Class NobleKeys := {
  x25519_getPublicKey : bytes → bytes;
  ed25519_getPublicKey : bytes → bytes;
}.

Class NobleKeysLaws (N : NobleKeys) (P : Primitives) (V : Ed25519) := {
  (** RFC 7748 and RFC 8032. *)
  x25519_getPublicKey_rfc7748 : ∀ sk, length sk = 32%nat → x25519_getPublicKey sk = x25519_base sk;
  ed25519_getPublicKey_rfc8032 : ∀ sk, length sk = 32%nat → ed25519_getPublicKey sk = ed_public sk;
}.

(** What a build of the compiled library exports. *)
Record WasmModule := mkWasmModule {
  has_kem : bool;
  has_ml_dsa : bool;
}.

Record WebOnboardingPayload := mkWebOnboarding {
  wo_version : Z;
  wo_server_url : bytes;
  wo_keys_json : bytes;
  wo_exported_at_unix : Z;
}.

Record WebOnboardingPackage := mkWebPackage {
  wop_serverUrl : bytes;
  wop_userId : bytes;
  wop_deviceId : bytes;
  wop_suite : bytes;
  wop_exportedAtUnix : Z;
  wop_keys : GeneratedKeys;
}.

Definition WEB_SECONDARY_DEVICE_PACKAGE_VERSION : Z := 1.

Section WebKeys.
Context `{P : Primitives} `{W : WebPlatform} `{N : NobleKeys} `{X : WebText}.
Context (MlKem768_new : KemAlgorithm → res KemProvider) (MlDsa65_new : res PqSignatureProvider).
Context (wasmModule : option WasmModule) (date_now : Z).
Local Open Scope sm_scope.

(** ** [crypto-wasm.ts] *)

Definition kemAvailable : bool := match wasmModule with Some m => has_kem m | None => false end.
Definition pqSigAvailable : bool := match wasmModule with Some m => has_ml_dsa m | None => false end.

Definition require_export (has : WasmModule → bool) (message : string) : js unit :=
  match wasmModule with
  | None => throw "WASM not initialized"
  | Some m => throw_if (negb (has m)) (lit message)
  end.

Definition kemKeypair : Web KemKeyPair :=
  sm_lift (require_export has_kem "KEM not available - WASM built without post-quantum support");;;
  wasm_kem_keypair MlKem768_new.

Definition kemEncapsulate (recipientPublicKey : bytes) : Web KemEncapsulation :=
  sm_lift (require_export has_kem "KEM not available - WASM built without post-quantum support");;;
  wasm_kem_encapsulate MlKem768_new recipientPublicKey.

Definition kemDecapsulate (secretKey ciphertext : bytes) : js bytes :=
  let? _ := require_export has_kem "KEM not available - WASM built without post-quantum support" in
  wasm_kem_decapsulate MlKem768_new secretKey ciphertext.

Definition mlDsaKeypair : Web PqSigKeyPair :=
  sm_lift (require_export has_ml_dsa "ML-DSA not available - WASM built without post-quantum support");;;
  wasm_ml_dsa_keypair MlDsa65_new.

Definition mlDsaSign (secretKey message : bytes) : Web bytes :=
  sm_lift (require_export has_ml_dsa "ML-DSA not available - WASM built without post-quantum support");;;
  wasm_ml_dsa_sign MlDsa65_new secretKey message.

Definition mlDsaVerify (publicKey message signature : bytes) : js unit :=
  let? _ := require_export has_ml_dsa "ML-DSA not available - WASM built without post-quantum support" in
  wasm_ml_dsa_verify MlDsa65_new publicKey message signature.

(** ** Generation *)

Definition no_pq_runtime : bytes := lit "Web post-quantum runtime unavailable in this build.".

(** [utils.randomPrivateKey()] of either curve: 32 random octets. *)
Definition randomPrivateKey : Web bytes := web_rng (rng_fill 32).

(** The one-time keys of the loops, in the encoding of the file. *)
Record OneTimeKeys := mkOneTime {
  ot_x_pub : list bytes;
  ot_x_secret : list bytes;
  ot_pq_pub : list bytes;
  ot_pq_secret : list bytes;
}.

Fixpoint oneTimeLoop (count : nat) : Web OneTimeKeys :=
  match count with
  | O => sm_ret (mkOneTime [] [] [] [])
  | S count =>
      xSecret <- randomPrivateKey;;
      let xPub := x25519_getPublicKey xSecret in
      pqOtpk <- kemKeypair;;
      rest <- oneTimeLoop count;;
      sm_ret (mkOneTime (bytesToBase64 xPub :: ot_x_pub rest) (bytesToBase64 xSecret :: ot_x_secret rest)
                (bytesToBase64 (kem_public_key pqOtpk) :: ot_pq_pub rest)
                (bytesToBase64 (kem_secret_key pqOtpk) :: ot_pq_secret rest))
  end.

Definition countCheck (oneTimeCount : Z) : js unit :=
  throw_if ((oneTimeCount <? 1)%Z || (64 <? oneTimeCount)%Z) (lit "one-time prekey count must be in 1..64").

Definition generateIdentityKeys (userId deviceId suite : bytes) (oneTimeCount : Z) : Web GeneratedKeys :=
  sm_lift (countCheck oneTimeCount);;;
  sm_lift (throw_if (negb kemAvailable || negb pqSigAvailable) no_pq_runtime);;;
  identityXSecret <- randomPrivateKey;;
  let identityXPub := x25519_getPublicKey identityXSecret in
  identitySigSecret <- randomPrivateKey;;
  let identitySigPub := ed25519_getPublicKey identitySigSecret in
  identityPqSig <- mlDsaKeypair;;
  signedPrekeySecret <- randomPrivateKey;;
  let signedPrekeyPub := x25519_getPublicKey signedPrekeySecret in
  pqSignedPrekey <- kemKeypair;;
  oneTime <- oneTimeLoop (Z.to_nat oneTimeCount);;
  sm_ret (mkGenerated userId deviceId suite (bytesToBase64 identityXPub) (bytesToBase64 identityXSecret)
    (bytesToBase64 identitySigPub) (bytesToBase64 identitySigSecret)
    (bytesToBase64 (pqs_public_key identityPqSig)) (bytesToBase64 (pqs_secret_key identityPqSig))
    (bytesToBase64 signedPrekeyPub) (bytesToBase64 signedPrekeySecret)
    (bytesToBase64 (kem_public_key pqSignedPrekey)) (bytesToBase64 (kem_secret_key pqSignedPrekey))
    (ot_x_pub oneTime) (ot_x_secret oneTime) (ot_pq_pub oneTime) (ot_pq_secret oneTime)).

(** ** Payloads *)

Definition identityFingerprint (identityX25519PubB64 identityPqSigPubB64 : bytes) : js bytes :=
  let? fingerprintInput :=
    match identityPqSigPubB64 with
    | [] => base64ToBytes identityX25519PubB64
    | _ => let? x := base64ToBytes identityX25519PubB64 in
           let? pq := base64ToBytes identityPqSigPubB64 in
           Ok (concatBytes [x; pq])
    end in
  Ok (bytesToHex (sha256 fingerprintInput)).

Definition signatureMessage (protocolVersion : Z) (label keyMaterial : bytes) : js bytes :=
  encodeTlv [mkTlv WEB_SIG_TAG_PROTOCOL_VERSION (u16ToBeBytes protocolVersion);
             mkTlv WEB_SIG_TAG_LABEL label;
             mkTlv WEB_SIG_TAG_KEY_MATERIAL keyMaterial].

Definition rotationSignatureMessage (userId challengeId challengeNonce newIdentityX25519 newIdentitySig
    newIdentityPqSig newDeviceId : bytes) : js bytes :=
  encodeTlv [mkTlv WEB_ROTATE_SIG_TAG_USER_ID userId;
             mkTlv WEB_ROTATE_SIG_TAG_CHALLENGE_ID challengeId;
             mkTlv WEB_ROTATE_SIG_TAG_CHALLENGE_NONCE challengeNonce;
             mkTlv WEB_ROTATE_SIG_TAG_NEW_IDENTITY_X25519 newIdentityX25519;
             mkTlv WEB_ROTATE_SIG_TAG_NEW_IDENTITY_SIG newIdentitySig;
             mkTlv WEB_ROTATE_SIG_TAG_NEW_IDENTITY_PQ_SIG newIdentityPqSig;
             mkTlv WEB_ROTATE_SIG_TAG_NEW_DEVICE_ID newDeviceId].

(** [ed25519.sign]. *)
Definition nobleSign (message secretKey : bytes) : js bytes :=
  ok_or (noble_sign message secretKey) (Thrown (lit "ed25519")).

Definition buildPublishPrekeysPayload (keys : GeneratedKeys) : Web PublishPrekeysRequest :=
  spkPub <- sm_lift (base64ToBytes (gk_signedPrekeyX25519Pub keys));;
  pqSpkPub <- sm_lift (base64ToBytes (gk_pqSignedPrekeyPubMlkem768 keys));;
  identitySigSecret <- sm_lift (base64ToBytes (gk_identitySigSecret keys));;
  identityPqSigSecret <- sm_lift (base64ToBytes (gk_identityPqSigSecret keys));;
  spkMsg <- sm_lift (signatureMessage 1 (lit "SPK") spkPub);;
  pqMsg <- sm_lift (signatureMessage 1 (lit "PQSPK") pqSpkPub);;
  sigOverSpk <- sm_lift (nobleSign spkMsg identitySigSecret);;
  sigOverPq <- sm_lift (nobleSign pqMsg identitySigSecret);;
  pqSigOverSpk <- mlDsaSign identityPqSigSecret spkMsg;;
  pqSigOverPq <- mlDsaSign identityPqSigSecret pqMsg;;
  sm_ret {| pp_signed_prekey_x25519_pub := gk_signedPrekeyX25519Pub keys;
            pp_sig_over_spk := bytesToBase64 sigOverSpk;
            pp_pq_signed_prekey_pub_mlkem768 := gk_pqSignedPrekeyPubMlkem768 keys;
            pp_sig_over_pqspk := bytesToBase64 sigOverPq;
            pp_pq_sig_over_spk := bytesToBase64 pqSigOverSpk;
            pp_pq_sig_over_pqspk := bytesToBase64 pqSigOverPq;
            pp_one_time_prekeys_x25519 := gk_oneTimePrekeysX25519 keys;
            pp_one_time_prekeys_mlkem768 := gk_oneTimePrekeysMlkem768 keys |}.

Definition buildRotateConfirmPayload (currentKeys newKeys : GeneratedKeys) (challengeId challengeNonceBase64 : bytes)
    : Web RotateConfirmRequest :=
  sm_lift (throw_if (negb pqSigAvailable) no_pq_runtime);;;
  sm_lift (throw_if (negb (bool_decide (gk_userId currentKeys = gk_userId newKeys)))
             (lit "rotation requires current and new keys for the same user"));;;
  challengeNonce <- sm_lift (base64ToBytes challengeNonceBase64);;
  newX <- sm_lift (base64ToBytes (gk_identityX25519Pub newKeys));;
  newSig <- sm_lift (base64ToBytes (gk_identitySigPub newKeys));;
  newPq <- sm_lift (base64ToBytes (gk_identityPqSigPub newKeys));;
  message <- sm_lift (rotationSignatureMessage (gk_userId currentKeys) challengeId challengeNonce newX newSig newPq
                        (gk_deviceId newKeys));;
  currentSecret <- sm_lift (base64ToBytes (gk_identitySigSecret currentKeys));;
  byCurrent <- sm_lift (nobleSign message currentSecret);;
  newSecret <- sm_lift (base64ToBytes (gk_identitySigSecret newKeys));;
  byNew <- sm_lift (nobleSign message newSecret);;
  currentPqSecret <- sm_lift (base64ToBytes (gk_identityPqSigSecret currentKeys));;
  pqByCurrent <- mlDsaSign currentPqSecret message;;
  newPqSecret <- sm_lift (base64ToBytes (gk_identityPqSigSecret newKeys));;
  pqByNew <- mlDsaSign newPqSecret message;;
  sm_ret {| rc_challenge_id := challengeId;
            rc_sig_by_current_identity := bytesToBase64 byCurrent;
            rc_sig_by_new_identity := bytesToBase64 byNew;
            rc_pq_sig_by_current_identity := bytesToBase64 pqByCurrent;
            rc_pq_sig_by_new_identity := bytesToBase64 pqByNew |}.

(** ** Fresh prekeys *)

(** [Math.max(keys.oneTimePrekeysX25519.length, 16)]. *)
Definition defaultCount (keys : GeneratedKeys) : Z := Z.max (Z.of_nat (length (gk_oneTimePrekeysX25519 keys))) 16.

Definition regeneratePublishedPrekeys (keys : GeneratedKeys) (oneTimeCount : option Z) : Web GeneratedKeys :=
  let oneTimeCount := default (defaultCount keys) oneTimeCount in
  sm_lift (throw_if (negb kemAvailable) no_pq_runtime);;;
  sm_lift (countCheck oneTimeCount);;;
  oneTime <- oneTimeLoop (Z.to_nat oneTimeCount);;
  pqSignedPrekey <- kemKeypair;;
  sm_ret (mkGenerated (gk_userId keys) (gk_deviceId keys) (gk_suite keys) (gk_identityX25519Pub keys)
    (gk_identityX25519Secret keys) (gk_identitySigPub keys) (gk_identitySigSecret keys) (gk_identityPqSigPub keys)
    (gk_identityPqSigSecret keys) (gk_signedPrekeyX25519Pub keys) (gk_signedPrekeyX25519Secret keys)
    (bytesToBase64 (kem_public_key pqSignedPrekey)) (bytesToBase64 (kem_secret_key pqSignedPrekey))
    (ot_x_pub oneTime) (ot_x_secret oneTime) (ot_pq_pub oneTime) (ot_pq_secret oneTime)).

Definition rebindKeysToNewDevice (keys : GeneratedKeys) (newDeviceId : bytes) (oneTimeCount : option Z)
    : Web GeneratedKeys :=
  let oneTimeCount := default (defaultCount keys) oneTimeCount in
  let normalizedDeviceId := js_trim newDeviceId in
  sm_lift (throw_if (len normalizedDeviceId =? 0) (lit "newDeviceId must not be empty"));;;
  sm_lift (throw_if (bool_decide (normalizedDeviceId = gk_deviceId keys))
             (lit "newDeviceId must differ from the current device ID"));;;
  sm_lift (throw_if (negb kemAvailable) no_pq_runtime);;;
  sm_lift (countCheck oneTimeCount);;;
  signedPrekeySecret <- randomPrivateKey;;
  let signedPrekeyPub := x25519_getPublicKey signedPrekeySecret in
  pqSignedPrekey <- kemKeypair;;
  oneTime <- oneTimeLoop (Z.to_nat oneTimeCount);;
  sm_ret (mkGenerated (gk_userId keys) normalizedDeviceId (gk_suite keys) (gk_identityX25519Pub keys)
    (gk_identityX25519Secret keys) (gk_identitySigPub keys) (gk_identitySigSecret keys) (gk_identityPqSigPub keys)
    (gk_identityPqSigSecret keys) (bytesToBase64 signedPrekeyPub) (bytesToBase64 signedPrekeySecret)
    (bytesToBase64 (kem_public_key pqSignedPrekey)) (bytesToBase64 (kem_secret_key pqSignedPrekey))
    (ot_x_pub oneTime) (ot_x_secret oneTime) (ot_pq_pub oneTime) (ot_pq_secret oneTime)).

(** ** A second device *)

Context `{B : Base64} `{C : !StorageCrypto}.

(** [JSON.stringify] and [JSON.parse] on the two documents; parsing throws. The
    wrapped secret crosses the boundary as the record its text stands for. *)
Context (keys_to_json : GeneratedKeys → bytes) (keys_from_json : bytes → js GeneratedKeys).
Context (payload_to_json : WebOnboardingPayload → bytes) (payload_from_json : bytes → js WebOnboardingPayload).

(** [wrapSecret] and [unwrapSecret] of [crypto-wasm.ts]. *)
Definition wrapSecret (passphrase plaintext : bytes) : Web WrappedSecret :=
  match wasmModule with
  | None => sm_err (Thrown (lit "WASM not initialized"))
  | Some _ => wasm_wrap_secret passphrase plaintext
  end.

Definition unwrapSecret (passphrase : bytes) (wrapped : WrappedSecret) : js bytes :=
  match wasmModule with
  | None => throw "WASM not initialized"
  | Some _ => wasm_unwrap_secret passphrase wrapped
  end.

Definition prepareSecondaryDevicePackage (keys : GeneratedKeys) (newDeviceId serverUrl packagePassphrase : bytes)
    (oneTimeCount : option Z) : Web WrappedSecret :=
  let normalizedServerUrl := js_trim serverUrl in
  sm_lift (throw_if (len normalizedServerUrl =? 0) (lit "serverUrl must not be empty"));;;
  sm_lift (throw_if (len (js_trim packagePassphrase) =? 0) (lit "packagePassphrase must not be empty"));;;
  reboundKeys <- rebindKeysToNewDevice keys newDeviceId (Some (default (defaultCount keys) oneTimeCount));;
  let payload := mkWebOnboarding WEB_SECONDARY_DEVICE_PACKAGE_VERSION normalizedServerUrl (keys_to_json reboundKeys)
                   (unixTimestampSeconds date_now) in
  wrapSecret packagePassphrase (payload_to_json payload).

Definition openSecondaryDevicePackage (wrapped : WrappedSecret) (packagePassphrase : bytes) : js WebOnboardingPackage :=
  let? _ := throw_if (len (js_trim packagePassphrase) =? 0) (lit "packagePassphrase must not be empty") in
  let? plaintext := unwrapSecret packagePassphrase wrapped in
  let? payload := payload_from_json plaintext in
  let? _ := throw_if (negb (wo_version payload =? WEB_SECONDARY_DEVICE_PACKAGE_VERSION)%Z)
    (lit "unsupported onboarding package version '" ++ i64_to_string (wo_version payload) ++ lit "'") in
  let normalizedServerUrl := js_trim (wo_server_url payload) in
  let? _ := throw_if (len normalizedServerUrl =? 0) (lit "onboarding package server_url must not be empty") in
  let? keys := keys_from_json (wo_keys_json payload) in
  Ok (mkWebPackage normalizedServerUrl (gk_userId keys) (gk_deviceId keys) (gk_suite keys)
        (wo_exported_at_unix payload) keys).
End WebKeys.
