(* ===== verification/WebChat.v ===== *)
(** * First contact and conversations of the web client

    The web client works as the Android client does, on files of another shape:
    its functions on sessions agree with those of [AndroidSession] call by call.
    Its first contact adds what the Android client does not do, the search for the
    one-time prekey an initial message was made with. *)

From Stdlib Require Import Strings.Byte.
From S2P Require Import Prelude Bytes Errors Tlv Crypto Toy Alg Aead Ad Wire Ratchet PqRatchet Session SessionRun Conversation SessionFacts Keys Handshake EndToEnd PqSig Sealed ServerFrame RequestAuth PrekeyServer Android TransparencyService AndroidAuth AndroidKeys BundleFacts AndroidSession AndroidChat WebJs WebAuth Wasm WebKeys.
Local Open Scope N_scope.

(** ** The files of the two clients *)

Definition as_android_session (su : Suite) (f : WasmSessionFile) : SessionFile :=
  mkSessionFile (wf_version f) (wf_user_id f) (wf_peer_user_id f) su (wf_snapshot f).

Definition as_web_session (suite : bytes) (f : SessionFile) : WasmSessionFile :=
  mkWasmSession (sf_version f) (sf_user_id f) (sf_peer_user_id f) suite (sf_snapshot f).

Definition as_web_send (suite : bytes) (r : SendResult) : WasmSendResult :=
  mkWasmSend (sr_message_bytes_base64 r) (as_web_session suite (sr_session r)) (sr_used_handshake r).

Definition as_web_decrypt (suite : bytes) (keys : GeneratedKeys) (r : DecryptResult) : WasmDecryptResult :=
  mkWasmDecrypt (dr_plaintext_utf8 r) (dr_plaintext_base64 r) (as_web_session suite (dr_session r)) (dr_used_handshake r) keys.

Definition android_reason (e : PqmsgAndroidError) : bytes :=
  match e with InvalidInput reason => reason | OperationFailed reason => reason end.

(** A run of the Android library as a run of the web library. *)
Definition as_web_run {S A C} (f : A → C) (r : S * droid A) : S * js C :=
  (r.1, match r.2 with Ok a => Ok (f a) | Err e => Err (Thrown (android_reason e)) end).

Definition as_android_keys (su : Suite) (k : GeneratedKeys) : UserKeysFile :=
  mkKeys 1 (gk_userId k) (gk_deviceId k) su (gk_identityX25519Pub k) (gk_identityX25519Secret k) (gk_identitySigPub k)
    (gk_identitySigSecret k) (gk_identityPqSigPub k) (gk_identityPqSigSecret k) (gk_signedPrekeyX25519Pub k)
    (gk_signedPrekeyX25519Secret k) (gk_pqSignedPrekeyPubMlkem768 k) (gk_pqSignedPrekeySecretMlkem768 k)
    (zip_with (mkOneTimeKey []) (gk_oneTimePrekeysX25519 k) (gk_oneTimePrekeysX25519Secret k))
    (zip_with (mkOneTimeKey []) (gk_oneTimePrekeysMlkem768 k) (gk_oneTimePrekeysMlkem768Secret k)).

Definition alg_suite (alg : KemAlgorithm) : Suite :=
  match alg with MlKem768 => SuiteMlKem768 | Kyber768Alias => SuiteKyber768 end.

Lemma alg_suite_kem (alg : KemAlgorithm) : AndroidKeys.suite_to_kem_algorithm (alg_suite alg) = alg.
Proof. by destruct alg. Qed.

(** ** Sessions *)

Section Equivalent.
Context `{P : Primitives} `{V : Ed25519} `{B : Base64}.
Context (MlKem768_new : KemAlgorithm → res KemProvider).

Definition android_kem (alg : KemAlgorithm) : option KemProvider := res_ok (MlKem768_new alg).

Context (suite : bytes) (alg : KemAlgorithm) (K : KemProvider).
Context (Hsuite : suite_to_kem_algorithm suite = Ok alg) (HK : MlKem768_new alg = Ok K).

Lemma web_restored (f : WasmSessionFile) : wf_suite f = suite →
  restore_session MlKem768_new f = Ok (from_snapshot_with_kem (wf_snapshot f) (Some K)) ∧
  AndroidSession.restore_session android_kem (as_android_session (alg_suite alg) f)
    = Ok (from_snapshot_with_kem (wf_snapshot f) (Some K)).
Proof.
  intros Hf. unfold restore_session, AndroidSession.restore_session, build_kem_for_suite, AndroidKeys.build_kem_for_suite.
  rewrite Hf, Hsuite. cbn [as_android_session sf_suite sf_snapshot]. rewrite alg_suite_kem. unfold android_kem.
  by rewrite HK.
Qed.

Lemma web_encrypt_same (f : WasmSessionFile) (sender peer text : bytes) (g : rng) : wf_suite f = suite →
  wasm_encrypt_with_session MlKem768_new f sender peer text g =
  as_web_run (as_web_send suite)
    (encrypt_with_session android_kem (as_android_session (alg_suite alg) f) sender peer text g).
Proof.
  intros Hf. destruct (web_restored f Hf) as [E1 E2].
  unfold wasm_encrypt_with_session, encrypt_with_session, sm_bind, sm_lift, same_user, same_or, throw_if, make_ad.
  rewrite E1, E2. cbn [as_android_session sf_user_id sf_peer_user_id].
  do 2 (case_bool_decide; [cbn [negb]|done]). destruct (conversation_associated_data sender peer) as [ad|e]; [|done].
  cbn [js_core core]. unfold web_session_op, session_op.
  destruct (SessionState_encrypt text ad _) as [[s' g'] [w|e]]; [|done]. cbn. unfold as_web_run. cbn.
  unfold as_web_send, as_web_session. cbn. by rewrite Hf.
Qed.

Lemma web_decrypt_same (keys : GeneratedKeys) (f : WasmSessionFile) (recipient sender wire : bytes) (g : rng) :
  wf_suite f = suite → (∀ w, b64_decode wire = Some w → ¬ is_ok (InitialMessage_decode w)) →
  wasm_decrypt_message MlKem768_new keys recipient sender wire (Some f) g =
  as_web_run (as_web_decrypt suite keys)
    (decrypt_message android_kem (as_android_keys (alg_suite alg) keys) recipient sender wire
       (Some (as_android_session (alg_suite alg) f)) g).
Proof.
  intros Hf Hw. destruct (web_restored f Hf) as [E1 E2].
  unfold wasm_decrypt_message, decrypt_message, sm_bind, sm_lift, same_user, same_or, throw_if, decode_b64, Android.decode_b64.
  cbn [as_android_keys uk_user_id]. case_bool_decide; [cbn [negb]|done].
  destruct (b64_decode wire) as [w|]; [|done]. cbn [ok_or]. specialize (Hw w eq_refl).
  destruct (InitialMessage_decode w) as [m|e]; [by destruct Hw|]. cbn [ok_or].
  unfold wasm_decrypt_in_session, decrypt_in_session, sm_bind, sm_lift, same_user, same_or, throw_if, make_ad.
  rewrite E1, E2. cbn [as_android_session sf_user_id sf_peer_user_id].
  do 2 (case_bool_decide; [cbn [negb]|done]). destruct (conversation_associated_data sender recipient) as [ad|e']; [|done].
  cbn [js_core core]. unfold web_session_op, session_op.
  destruct (SessionState_decrypt w ad _) as [[s' g'] [m|e']]; [|done]. cbn. unfold as_web_run. cbn.
  unfold as_web_decrypt, as_web_session. cbn. by rewrite Hf.
Qed.
End Equivalent.

(** ** Transparency proofs *)

(** A result of the Android library as one of the web library. *)
Definition as_js {A} (r : droid A) : js A :=
  match r with Ok a => Ok a | Err e => Err (Thrown (android_reason e)) end.

Lemma as_js_bind {A C} (r : droid A) (w : js A) (k : A → droid C) (kw : A → js C) :
  w = as_js r → (∀ a, kw a = as_js (k a)) → (let? a := w in kw a) = as_js (let? a := r in k a).
Proof. intros -> Hk. destruct r; [apply Hk|done]. Qed.

Lemma js_map_as_js {A C} (f : A → droid C) (w : A → js C) (l : list A) :
  (∀ a, w a = as_js (f a)) → js_map w l = as_js (traverse_droid f l).
Proof.
  intros H. induction l as [|a l IH]; [done|]. cbn [js_map traverse_droid]. apply as_js_bind; [done|]. intros c.
  by apply as_js_bind.
Qed.

Section Transparent.
Context `{P : Primitives} `{V : Ed25519} `{B : Base64}.

Lemma decode_b64_same (field : string) (v : bytes) : decode_b64 field v = as_js (Android.decode_b64 field v).
Proof. unfold decode_b64, Android.decode_b64. by destruct (b64_decode v). Qed.

Lemma decode_b64_32_same (field : string) (v : bytes) : decode_b64_32 field v = as_js (Android.decode_b64_32 field v).
Proof.
  apply as_js_bind; [apply decode_b64_same|]. intros b. unfold throw_if. by destruct (negb (len b =? 32)).
Qed.

Lemma js_core_same {A} (r : res A) : js_core r = as_js (core r).
Proof. by destruct r. Qed.

Lemma parse_sth_same (r : TransparencySignedTreeHeadRecord) : parse_transparency_sth r = as_js (Android.parse_transparency_sth r).
Proof. apply as_js_bind; [apply decode_b64_32_same|]. intros x. by apply as_js_bind; [apply decode_b64_same|]. Qed.

Lemma parse_leaf_same (r : TransparencyLeafRecord) : parse_transparency_leaf r = as_js (Android.parse_transparency_leaf r).
Proof.
  apply as_js_bind; [apply decode_b64_32_same|]. intros x. apply as_js_bind; [apply decode_b64_same|]. intros y.
  apply as_js_bind; [|done]. destruct (lr_identity_pq_sig_pub r) as [k|]; [|done]. by apply as_js_bind; [apply decode_b64_same|].
Qed.

Lemma web_transparency_same (d : TransparencyProofDocument) (key : bytes) (previous : option TransparencySignedTreeHeadRecord) :
  wasm_verify_transparency_proof d key previous = as_js (verify_transparency_proof d key previous).
Proof.
  apply as_js_bind; [apply parse_leaf_same|]. intros leaf. apply as_js_bind.
  { apply js_map_as_js. intros item. by apply as_js_bind; [apply decode_b64_32_same|]. }
  intros path. cbv zeta. apply as_js_bind; [apply parse_sth_same|]. intros sth.
  apply as_js_bind; [apply decode_b64_32_same|]. intros k. apply as_js_bind; [by destruct (ed_key_from_bytes k)|]. intros vk.
  apply as_js_bind; [apply js_core_same|]. intros []. apply as_js_bind; [|done].
  destruct previous as [previous|]; [|done]. apply as_js_bind; [apply parse_sth_same|]. intros p.
  destruct (pd_consistency_proof d) as [c|]; [|done]. apply as_js_bind; [apply js_map_as_js; intros h; apply decode_b64_32_same|].
  intros hashes. cbv zeta. by apply as_js_bind; [apply js_core_same|].
Qed.
End Transparent.

(** ** Keys the web client generates *)

Lemma web_rng_ok `{P : Primitives} {A} (c : rng → A * rng) (g g' : rng) (a : A) : web_rng c g = (g', Ok a) → c g = (a, g').
Proof. unfold web_rng. destruct (c g). by intros [= <- <-]. Qed.

Lemma web_core_ok `{P : Primitives} {A} (c : rng → res A * rng) (g g' : rng) (a : A) :
  web_core c g = (g', Ok a) → c g = (Ok a, g').
Proof. unfold web_core. destruct (c g) as [[x|e] g1]; [|done]. by intros [= <- <-]. Qed.

(** Takes the first step off a run of the web client that ends in a value. *)
Ltac wrun H Ha :=
  let g1 := fresh "g" in let a := fresh "a" in
  apply sm_bind_ok_inv in H; destruct H as (g1 & a & Ha & H);
  lazymatch type of a with unit => destruct a | _ => idtac end;
  lazymatch type of Ha with
  | sm_lift _ _ = _ => apply sm_lift_ok in Ha; destruct Ha as [-> Ha]
  | web_rng _ _ = _ => apply web_rng_ok in Ha
  | randomPrivateKey _ = _ => apply web_rng_ok in Ha
  | web_core _ _ = _ => apply web_core_ok in Ha
  | _ => idtac
  end.

Section WebMaterial.
Context `{P : Primitives} `{L : !PrimitiveLaws P} `{V : Ed25519} `{VL : !Ed25519Laws V} `{B : Base64} `{BL : !Base64Laws B}.
Context `{W : WebPlatform} `{WL : !WebPlatformLaws W B V} `{NK : NobleKeys} `{NL : !NobleKeysLaws NK P V}.
Context (MlKem768_new : KemAlgorithm → res KemProvider) (K : KemProvider) (KL : KemLaws K).
Context (HK : MlKem768_new MlKem768 = Ok K).
Context (MlDsa65_new : res PqSignatureProvider) (Q : PqSignatureProvider) (QL : PqSigLaws Q) (HQ : MlDsa65_new = Ok Q).
Context (wm : option WasmModule).

Lemma kemKeypair_ok (kp : KemKeyPair) (g g' : rng) :
  kemKeypair MlKem768_new wm g = (g', Ok kp) → kem_keypair K g = (Ok kp, g').
Proof. intros H. unfold kemKeypair, wasm_kem_keypair in H. wrun H H1. wrun H H2. rewrite HK in H2. injection H2 as <-. by apply web_core_ok in H. Qed.

Lemma mlDsaKeypair_ok (kp : PqSigKeyPair) (g g' : rng) :
  mlDsaKeypair MlDsa65_new wm g = (g', Ok kp) → pqs_keypair Q g = (Ok kp, g').
Proof. intros H. unfold mlDsaKeypair, wasm_ml_dsa_keypair in H. wrun H H1. wrun H H2. rewrite HQ in H2. injection H2 as <-. by apply web_core_ok in H. Qed.

Lemma mlDsaSign_ok (sk m sig : bytes) (g g' : rng) :
  mlDsaSign MlDsa65_new wm sk m g = (g', Ok sig) → pqs_sign Q sk m g = (Ok sig, g').
Proof. intros H. unfold mlDsaSign, wasm_ml_dsa_sign in H. wrun H H1. wrun H H2. rewrite HQ in H2. injection H2 as <-. by apply web_core_ok in H. Qed.

(** A secret key of the curve and its public key. *)
Definition noble_pair (sk : bytes) : DhKeyPair := {| public := x25519_getPublicKey sk; secret := sk |}.

Lemma noble_pair_wf (sk : bytes) (g g' : rng) : rng_fill 32 g = (sk, g') → dh_keypair_wf (noble_pair sk).
Proof.
  intros H. pose proof (rng_fill_length 32 g) as Hl. rewrite H in Hl. split; [done|]. by apply x25519_getPublicKey_rfc7748.
Qed.

Lemma oneTimeLoop_ok (n : nat) : ∀ (r : OneTimeKeys) (g g' : rng),
  oneTimeLoop MlKem768_new wm n g = (g', Ok r) →
  ∃ ots, length ots = n ∧ Forall dh_keypair_wf ots ∧ ot_x_pub r = map (b64_encode ∘ public) ots ∧
    ot_x_secret r = map (b64_encode ∘ secret) ots ∧ length (ot_pq_pub r) = n ∧ length (ot_pq_secret r) = n.
Proof.
  induction n as [|n IH]; intros r g g' H; cbn [oneTimeLoop] in H; [injection H as _ <-; by exists []|].
  wrun H Hx. wrun H Hk. wrun H Hr. injection H as _ <-. destruct (IH _ _ _ Hr) as (ots & Hn & Hw & Hp & Hs & H1 & H2).
  exists (noble_pair a :: ots). cbn. unfold bytesToBase64. rewrite !btoa_standard, Hn, H1, H2, Hp, Hs. split_and!; try done.
  constructor; [by eapply noble_pair_wf|done].
Qed.

(** The keys in a file the client generated. *)
Record web_holds (keys : GeneratedKeys) (k : KeyMaterial) (ots : list DhKeyPair) : Prop := {
  wh_keys : ∀ su, holds_keys K KL Q QL (as_android_keys su keys) k;
  wh_kem : ∃ g g', kem_keypair K g = (Ok (km_kem k), g');
  wh_pq : ∃ g g', pqs_keypair Q g = (Ok (km_pq_signing k), g');
  wh_one_time_wf : Forall dh_keypair_wf ots;
  wh_one_time_pub : gk_oneTimePrekeysX25519 keys = map (b64_encode ∘ public) ots;
  wh_one_time_secret : gk_oneTimePrekeysX25519Secret keys = map (b64_encode ∘ secret) ots;
  wh_one_time_pq : length (gk_oneTimePrekeysMlkem768 keys) = length (gk_oneTimePrekeysMlkem768Secret keys);
}.

Lemma web_generated (user device suite : bytes) (count : Z) (keys : GeneratedKeys) (g g' : rng) :
  generateIdentityKeys MlKem768_new MlDsa65_new wm user device suite count g = (g', Ok keys) →
  gk_userId keys = user ∧ gk_deviceId keys = device ∧ gk_suite keys = suite ∧ ∃ k ots, web_holds keys k ots.
Proof.
  intros H. unfold generateIdentityKeys in H. wrun H H1. wrun H H2. wrun H Hix. wrun H His. wrun H Hpq. wrun H Hspk.
  wrun H Hkem. wrun H Hot. injection H as _ <-. split_and!; [done..|].
  apply mlDsaKeypair_ok in Hpq. apply kemKeypair_ok in Hkem. apply oneTimeLoop_ok in Hot as (ots & Hn & Hw & Hp & Hs & H3 & H4).
  pose proof (rng_fill_length 32 g0) as Hl. rewrite His in Hl. cbn in Hl.
  exists (mkMaterial (noble_pair a) (noble_pair a2) a0 a1 a3), ots. split; cbn; try done; [|by eexists _, _|by eexists _, _|by rewrite H3, H4].
  intros su. split; cbn; unfold bytesToBase64; rewrite ?btoa_standard, ?ed25519_getPublicKey_rfc8032; try done.
  - by eapply noble_pair_wf.
  - by eapply noble_pair_wf.
  - by eapply pqs_keypair_pair.
  - by eapply kem_keypair_pair.
Qed.

(** ** The upload *)

Lemma encodeTlv_fits (rs : list TlvRecord) (m : bytes) : encodeTlv rs = Ok m → forallb (λ r, fits (value r)) rs = true.
Proof.
  unfold encodeTlv. destruct (encodeTlv_chunks rs) as [c|] eqn:E; [|done]. intros _. revert c E.
  induction rs as [|r rs IH]; intros c E; [done|]. cbn [encodeTlv_chunks] in E. cbn [forallb].
  destruct (Z.ltb_spec 65535 (Z.of_N (len (value r)))) as [|Hl]; [done|].
  destruct (encodeTlv_chunks rs) as [c'|]; [|done]. rewrite (IH c' eq_refl), andb_true_r. unfold fits. apply N.leb_le. unfold u16_max. lia.
Qed.

Lemma encodeTlv_core (rs : list TlvRecord) (m : bytes) :
  Forall (λ r, ty r ≤ u16_max) rs → encodeTlv rs = Ok m → encode rs = Ok m.
Proof.
  intros Hr Hm. destruct (encode_fits rs (encodeTlv_fits rs m Hm)) as [b Hb]. pose proof (encodeTlv_encode rs b Hr Hb). congruence.
Qed.

Lemma signatureMessage_core (label key m : bytes) : signatureMessage 1 label key = Ok m → signature_message 1 label key = Ok m.
Proof.
  intros H. apply encodeTlv_core in H; [exact H|].
  repeat (apply list.Forall_cons; split; [by vm_compute|]). by apply list.Forall_nil.
Qed.

Lemma map_public_zip (names : bytes) (l k : list bytes) :
  length l = length k → map ok_public_b64 (zip_with (mkOneTimeKey names) l k) = l.
Proof. revert k. induction l as [|x l IH]; intros [|y k]; try done. cbn. intros [= H]. by rewrite IH. Qed.

(** The client uploads what the Android client would upload. *)
Lemma web_upload (su : Suite) (keys : GeneratedKeys) (k : KeyMaterial) (ots : list DhKeyPair)
    (pub : PublishPrekeysRequest) (g g' : rng) :
  web_holds keys k ots → buildPublishPrekeysPayload MlDsa65_new wm keys g = (g', Ok pub) →
  build_publish_prekeys_payload (Some Q) (as_android_keys su keys) g = (g', Ok pub).
Proof.
  intros [Hk _ _ _ Hp Hs Hl] H. specialize (Hk su).
  pose proof Hk as [_ [S1 _] [G1 G2] [_ Q2] [K1 _] _ WS WG _ _]. cbn in S1, G1, G2, Q2, K1.
  unfold buildPublishPrekeysPayload, base64ToBytes in H. rewrite S1, K1, G2, Q2, !atob_standard in H. cbn [ok_or] in H.
  do 4 (wrun H E; injection E as <-). wrun H M1. wrun H M2. wrun H N1. wrun H N2. wrun H D1. wrun H D2.
  apply signatureMessage_core in M1, M2. unfold nobleSign in N1, N2. rewrite noble_sign_rfc8032 in N1, N2 by done.
  injection N1 as <-. injection N2 as <-. apply mlDsaSign_ok in D1, D2. injection H as <- <-.
  unfold build_publish_prekeys_payload, build_pq_signature_payload, sm_bind, sm_lift, droid_core.
  cbn [as_android_keys uk_signed_prekey_x25519_pub_b64 uk_pq_signed_prekey_pub_b64 uk_identity_sig_secret_b64
    uk_identity_pq_sig_secret_b64 uk_one_time_prekeys_x25519 uk_one_time_prekeys_mlkem768].
  rewrite S1, K1, G2, Q2, decode_b64_32_encode by (by apply dh_keypair_public_length).
  unfold decode_signing_key_b64. rewrite !decode_b64_encode, WG. cbn [Nat.eqb].
  unfold require_sig_pair. cbn [as_android_keys uk_identity_sig_pub_b64]. rewrite G1, bool_decide_eq_true_2 by done.
  unfold signed_prekey_signature_message, pq_signed_prekey_signature_message. rewrite M1, M2.
  cbn [negb core build_pq_signature_provider ok_or sm_ret]. rewrite D1. cbn [core]. unfold sm_ret at 1. rewrite D2. cbn. unfold bytesToBase64, build_signature_payload.
  rewrite !btoa_standard. rewrite !map_public_zip by (done || by rewrite Hp, Hs, !length_map). done.
Qed.

(** ** The keys as the core sees them *)

Lemma web_decode_b64_encode (field : string) (b : bytes) : decode_b64 field (b64_encode b) = Ok b.
Proof. unfold decode_b64. by rewrite b64_roundtrip. Qed.

Lemma web_decode_b64_32_encode (field : string) (b : bytes) : length b = 32%nat → decode_b64_32 field (b64_encode b) = Ok b.
Proof. intros Hb. unfold decode_b64_32. rewrite web_decode_b64_encode. unfold throw_if, len. by rewrite Hb. Qed.

Lemma web_core_keys (su : Suite) (keys : GeneratedKeys) (k : KeyMaterial) (ots : list DhKeyPair) :
  web_holds keys k ots →
  to_identity_keypair keys = Ok (core_identity (as_android_keys su keys) k) ∧
  to_signed_prekey keys = Ok (core_spk (as_android_keys su keys) k) ∧
  to_pq_signed_prekey keys = Ok (core_pqspk (as_android_keys su keys) k).
Proof.
  intros [Hk _ _ _ _ _ _]. destruct (Hk su) as [[I1 I2] [S1 S2] _ [Q1 Q2] [K1 K2] WI WS _ _ _]. cbn in *.
  unfold to_identity_keypair, to_signed_prekey, to_pq_signed_prekey. rewrite I1, I2, S1, S2, Q1, Q2, K1, K2.
  rewrite !web_decode_b64_32_encode, !web_decode_b64_encode by (by apply dh_keypair_public_length). done.
Qed.

(** A one-time prekey of the file. *)
Definition one_time_prekey (keys : GeneratedKeys) (j : nat) (kp : DhKeyPair) : OneTimePreKey :=
  {| otpk_key_id := gk_userId keys ++ lit "-otk-x-" ++ decimal (N.of_nat j);
     otpk_public_key := public kp; otpk_secret_key := secret kp |}.

Lemma web_candidate (keys : GeneratedKeys) (k : KeyMaterial) (ots : list DhKeyPair) (j : nat) (kp : DhKeyPair) :
  web_holds keys k ots → ots !! j = Some kp →
  candidate_one_time_prekey keys j = Ok (Some (one_time_prekey keys j kp)).
Proof.
  intros [_ _ _ Hw Hp Hs _] Hj. unfold candidate_one_time_prekey.
  rewrite Hp, Hs, !list_lookup_fmap, Hj. cbn. rewrite web_decode_b64_32_encode, web_decode_b64_encode; [done|].
  apply dh_keypair_public_length. by eapply list.Forall_lookup_1 in Hj.
Qed.
End WebMaterial.

(** ** The bundle of an upload *)

Definition web_bundle (keys : GeneratedKeys) (pub : PublishPrekeysRequest) (otk pq_otk : option bytes) : WasmServerBundle :=
  mkWasmBundle (gk_userId keys) (gk_identityX25519Pub keys) (gk_identitySigPub keys) (gk_identityPqSigPub keys)
    (pp_signed_prekey_x25519_pub pub) (pp_sig_over_spk pub) (pp_pq_signed_prekey_pub_mlkem768 pub)
    (pp_sig_over_pqspk pub) (pp_pq_sig_over_spk pub) (pp_pq_sig_over_pqspk pub) otk pq_otk.

Lemma web_bundle_core `{B : Base64} (su : Suite) (alg : KemAlgorithm) (suite : bytes) (keys : GeneratedKeys)
    (pub : PublishPrekeysRequest) (otk pq_otk : option bytes) (bundle : PreKeyBundle) :
  suite_to_kem_algorithm suite = Ok alg →
  AndroidKeys.bundle_to_core (published_bundle_with (as_android_keys su keys) pub otk pq_otk) (alg_suite alg) = Ok bundle →
  bundle_to_core (web_bundle keys pub otk pq_otk) suite = Ok bundle.
Proof.
  intros Hs. unfold AndroidKeys.bundle_to_core, bundle_to_core, published_bundle_with, web_bundle, core_suite. rewrite Hs, alg_suite_kem.
  cbn [sb_user_id sb_identity_x25519_pub sb_identity_sig_pub sb_identity_pq_sig_pub sb_signed_prekey_x25519_pub
    sb_sig_over_spk sb_pq_signed_prekey_pub_mlkem768 sb_sig_over_pqspk sb_pq_sig_over_spk sb_pq_sig_over_pqspk
    sb_one_time_prekey_x25519 sb_one_time_prekey_mlkem768 as_android_keys uk_user_id uk_identity_x25519_pub_b64
    uk_identity_sig_pub_b64 uk_identity_pq_sig_pub_b64 wb_user_id wb_identity_x25519_pub wb_identity_sig_pub
    wb_identity_pq_sig_pub wb_signed_prekey_x25519_pub wb_sig_over_spk wb_pq_signed_prekey_pub_mlkem768 wb_sig_over_pqspk
    wb_pq_sig_over_spk wb_pq_sig_over_pqspk wb_one_time_prekey_x25519 wb_one_time_prekey_mlkem768].
  unfold decode_b64_32, Android.decode_b64_32, decode_b64, Android.decode_b64, throw_if.
  destruct otk as [otk|], pq_otk as [pq_otk|]; cbn [opt_js opt_droid];
  repeat (lazymatch goal with
          | |- context [len ?x =? 32] => destruct (len x =? 32); cbn [negb]; [|done]
          | |- context [b64_decode ?x] => destruct (b64_decode x); cbn [ok_or]; [|done]
          end); by intros [= <-].
Qed.

(** ** The search for the one-time prekey *)

Section Search.
Context `{P : Primitives} `{B : Base64}.

Lemma try_found (keys : GeneratedKeys) (receive : OneTimePreKey → res ResponderOutput) (cand : nat → OneTimePreKey)
    (r : ResponderOutput) (i count index : nat) :
  (index ≤ i < index + count)%nat →
  (∀ j, index ≤ j ≤ i → candidate_one_time_prekey keys j = Ok (Some (cand j)))%nat →
  (∀ j, (index ≤ j < i)%nat → is_ok (receive (cand j)) = false) → receive (cand i) = Ok r →
  try_one_time_prekeys keys receive index count = Ok (Some (r, i)).
Proof.
  revert index. induction count as [|count IH]; intros index Hi Hc Hn Hr; [lia|]. cbn [try_one_time_prekeys].
  rewrite (Hc index) by lia. destruct (decide (index = i)) as [->|Hne]; [by rewrite Hr|].
  specialize (Hn index ltac:(lia)) as Hf. destruct (receive (cand index)); [done|].
  apply IH; [lia| | |done]; intros j Hj; [apply Hc|apply Hn]; lia.
Qed.

(** Whether an initial message opens with the keys of the file and [one_time]. *)
Definition opens (kem : KemProvider) (keys : GeneratedKeys) (initial : InitialMessage) (one_time : option OneTimePreKey) : bool :=
  match to_identity_keypair keys, to_signed_prekey keys, to_pq_signed_prekey keys with
  | Ok identity, Ok spk, Ok pqspk => is_ok (bob_receive kem identity spk pqspk one_time initial)
  | _, _, _ => false
  end.

(** No attempt before the one with the key at [i] opens the message: two different
    keys do not open the same ciphertext. *)
Definition opens_first (kem : KemProvider) (keys : GeneratedKeys) (initial : InitialMessage) (i : option nat) : Prop :=
  match i with
  | None => True
  | Some i => opens kem keys initial None = false ∧
      ∀ j o, (j < i)%nat → candidate_one_time_prekey keys j = Ok (Some o) → opens kem keys initial (Some o) = false
  end.

(** The file without the key that was used. *)
Definition consumed (keys : GeneratedKeys) (i : option nat) : GeneratedKeys :=
  match i with None => keys | Some i => remove_consumed_one_time_keys keys i end.
End Search.

(** ** First contact *)

Lemma suite_has_label (alg : KemAlgorithm) (i : N) :
  suite_id (core_suite (alg_suite alg)) = Ok i → ∃ label, suite_id_to_label i = Ok label ∧ suite_to_kem_algorithm label = Ok alg.
Proof.
  assert (Hid : ∀ alg, suite_id (core_suite (alg_suite alg)) = Ok (match alg with
    | MlKem768 => SUITE_ID_MLKEM768_X25519_HKDF_SHA256_CHACHA20POLY1305
    | Kyber768Alias => SUITE_ID_KYBER768_X25519_HKDF_SHA256_CHACHA20POLY1305 end)) by (by intros []).
  rewrite Hid. intros [= <-]. destruct alg; [exists (lit "ml-kem-768")|exists (lit "kyber768")]; split; vm_compute; reflexivity.
Qed.

(** What first contact gives the two applications: the message opens with the
    one-time prekey at [i], or without one, the text arrives, the key is gone
    from the file, and the session files carry a conversation. *)
Record web_contact_made `{P : Primitives} `{V : Ed25519} `{B : Base64} (MlKem768_new : KemAlgorithm → res KemProvider)
    (K : KemProvider) (alg : KemAlgorithm) (kb : GeneratedKeys) (na nb text : bytes) (i : option nat)
    (initial : InitialMessage) (send : WasmSendResult) (received : WasmDecryptResult) : Prop := {
  wc_wire : ∃ wire, ws_message_bytes_base64 send = b64_encode wire ∧ InitialMessage_decode wire = Ok initial;
  wc_received : opens_first K kb initial i →
    ∀ g, wasm_decrypt_message MlKem768_new kb nb na (ws_message_bytes_base64 send) None g = (g, Ok received);
  wc_text : wd_plaintext_utf8 received = from_utf8_lossy text;
  wc_keys : wd_updated_keys received = consumed kb i;
  wc_linked : ∀ gen ad_ab ad_ba, ∃ lab lba a b,
    chat_inv (android_kem MlKem768_new) na nb lab lba CLI_MAX_SKIPPED ad_ab ad_ba
      (chat_start (as_android_session (alg_suite alg) (ws_session send))
         (as_android_session (alg_suite alg) (wd_session received)) gen) a b [] [];
}.

Section WebContact.
Context `{P : Primitives} `{L : !PrimitiveLaws P} `{V : Ed25519} `{VL : !Ed25519Laws V} `{B : Base64} `{BL : !Base64Laws B}.
Context `{W : WebPlatform} `{WL : !WebPlatformLaws W B V}.
Context (MlKem768_new : KemAlgorithm → res KemProvider) (K : KemProvider) (KL : KemLaws K).
Context (MlDsa65_new : res PqSignatureProvider) (Q : PqSignatureProvider) (QL : PqSigLaws Q) (HQ : MlDsa65_new = Ok Q).

(** The one-time prekey at [i] of the file. *)
Definition handed_key (kb : GeneratedKeys) (ots : list DhKeyPair) (i : option nat) : option OneTimePreKey :=
  n ← i; kp ← ots !! n; Some (one_time_prekey kb n kp).

Lemma handed_key_spec (kb : GeneratedKeys) (b : KeyMaterial) (ots : list DhKeyPair) (i : option nat) :
  web_holds K KL Q QL kb b ots → (∀ n, i = Some n → (n < length ots)%nat) →
  (n ← i; gk_oneTimePrekeysX25519 kb !! n) = b64_encode <$> (otpk_public_key <$> handed_key kb ots i) ∧
  (i = None ∨ is_Some (handed_key kb ots i)) ∧
  ∀ o, handed_key kb ots i = Some o → dh_keypair_wf (otpk_pair o).
Proof.
  intros [_ _ _ Hw Hp _ _] Hi. destruct i as [n|]; [|split_and!; [done|by left|done]].
  destruct (lookup_lt_is_Some_2 ots n (Hi n eq_refl)) as [kp En]. unfold handed_key. cbn. rewrite Hp, list_lookup_fmap, En.
  split_and!; [done|right; by eexists|]. intros o [= <-]. eapply list.Forall_lookup_1 in Hw; [|exact En]. by destruct kp.
Qed.

(** The attempts of [receive_initial] end at the key the sender used. *)
Lemma receive_found (kb : GeneratedKeys) (b : KeyMaterial) (ots : list DhKeyPair) (su : Suite) (i : option nat)
    (initial : InitialMessage) (r : ResponderOutput) :
  let receive o := bob_receive K (core_identity (as_android_keys su kb) b) (core_spk (as_android_keys su kb) b)
                     (core_pqspk (as_android_keys su kb) b) o initial in
  web_holds K KL Q QL kb b ots →
  (i = None ∨ is_Some (handed_key kb ots i)) → receive (handed_key kb ots i) = Ok r → opens_first K kb initial i → receive_initial kb receive = Ok (r, consumed kb i).
Proof.
  intros receive Hb Hi Hr Hf. destruct (web_core_keys _ _ _ _ su kb b ots Hb) as (E1 & E2 & E3).
  assert (Hop : ∀ o, opens K kb initial o = is_ok (receive o)) by (intros o; unfold opens; by rewrite E1, E2, E3).
  unfold receive_initial. destruct i as [n|]; [|cbn in Hr; by rewrite Hr].
  destruct Hi as [|Hs]; [done|]. destruct Hf as [Hf0 Hfj]. rewrite Hop in Hf0.
  destruct (receive None) as [r0|e]; [done|]. unfold handed_key in Hs, Hr. cbn in Hs, Hr.
  destruct (ots !! n) as [kp|] eqn:En; [|by destruct Hs]. pose proof Hb as [_ _ _ _ Hp Hsec _]. rewrite Hp, Hsec, !length_map, Nat.min_id.
  pose proof (lookup_lt_Some _ _ _ En) as Hlt.
  assert (Hin : ∀ j, (j ≤ n)%nat → ∃ k, ots !! j = Some k) by (intros j Hj; apply lookup_lt_is_Some_2; lia).
  set (cand j := one_time_prekey kb j (default kp (ots !! j))).
  assert (Hc : ∀ j, (j ≤ n)%nat → candidate_one_time_prekey kb j = Ok (Some (cand j))).
  { intros j Hj. destruct (Hin j Hj) as [k Hk]. unfold cand. rewrite Hk. by apply (web_candidate _ _ _ _ _ _ _ _ _ Hb). }
  rewrite (try_found kb _ cand r n); [done|lia|intros j Hj; apply Hc; lia| |by unfold cand; rewrite En].
  intros j Hj. rewrite <- Hop. apply (Hfj j); [lia|]. apply Hc. lia.
Qed.

Lemma same_user_refl (x y what whose : bytes) : x = y → same_user x y what whose = Ok tt.
Proof. intros ->. unfold same_user. by rewrite bool_decide_eq_true_2. Qed.

Lemma web_contact (suite : bytes) (alg : KemAlgorithm) (ka kb : GeneratedKeys) (a b : KeyMaterial) (otsa ots : list DhKeyPair)
    (pub : PublishPrekeysRequest) (na nb text : bytes) (i : option nat) (opq : option bytes) (wm : option WasmModule)
    (gp gp' g : rng) :
  suite_to_kem_algorithm suite = Ok alg → MlKem768_new alg = Ok K →
  (∀ pk sk g, kem_pair pk sk → ∃ e g', kem_encapsulate K pk g = (Ok e, g') ∧ fits (kem_ciphertext e) = true) →
  fits (kem_public_key (km_kem a)) = true →
  gk_userId ka = na → gk_userId kb = nb → gk_suite ka = suite →
  web_holds K KL Q QL ka a otsa → web_holds K KL Q QL kb b ots →
  buildPublishPrekeysPayload MlDsa65_new wm kb gp = (gp', Ok pub) →
  (∀ n, i = Some n → (n < length ots)%nat) →
  utf8_valid na && utf8_valid nb = true → fits na && fits nb = true → len text + 16 ≤ u16_max →
  ∃ g' initial send received,
    wasm_initiate_session_and_encrypt MlKem768_new MlDsa65_new ka na nb
      (web_bundle kb pub (n ← i; gk_oneTimePrekeysX25519 kb !! n) (b64_encode <$> opq)) text g = (g', Ok send) ∧
    web_contact_made MlKem768_new K alg kb na nb text i initial send received.
Proof.
  intros Hsu HK Hkem Fa Hna Hnb Hska Ha Hb Hpub Hi Hutf Hfits Htext.
  apply andb_true_iff in Hutf as [U1 U2]. apply andb_true_iff in Hfits as [F1 F2]. set (su := alg_suite alg).
  destruct (handed_key_spec kb b ots i Hb Hi) as (Hotk & Hsome & Hwf). set (otpk := handed_key kb ots i) in *.
  pose proof (wh_keys _ _ _ _ _ _ _ Ha su) as Hka. pose proof (wh_keys _ _ _ _ _ _ _ Hb su) as Hkb.
  destruct (published_accepted_with K KL Q QL otpk opq _ b pub gp gp' su Hwf Hkb
    (web_upload K KL MlDsa65_new Q QL HQ wm su kb b ots pub gp gp' Hb Hpub)) as (bundle & Hbun & Hof & Hown & Hbs & Hval).
  rewrite <- Hotk in Hbun. apply (web_bundle_core _ alg suite) in Hbun; [|done].
  destruct (web_core_keys _ _ _ _ su ka a otsa Ha) as (Ia & Sa & Ka). destruct (web_core_keys _ _ _ _ su kb b ots Hb) as (Ib & Sb & Kb).
  pose proof Hka as [_ _ _ _ _ WIa WSa _ _ WKa]. pose proof Hkb as [_ _ _ _ _ WIb WSb _ _ WKb].
  destruct (Hkem _ _ (generate_keypair g).2 WKb) as (e & g2 & He & Fe).
  assert (Hval1 : validate_prekey_bundle_signatures bundle Ed25519SignatureVerifier = Ok tt).
  { unfold validate_hybrid_prekey_bundle_signatures in Hval. by destruct (validate_prekey_bundle_signatures _ _) as [[]|]. }
  destruct (contact_with otpk K KL Ed25519SignatureVerifier na nb text (core_identity (as_android_keys su ka) a)
    (core_identity (as_android_keys su kb) b) (core_spk (as_android_keys su kb) b) (core_pqspk (as_android_keys su ka) a)
    (core_pqspk (as_android_keys su kb) b) bundle g g2 e)
    as (out & g' & wire & sa & sb & resp & Hal & Hen & Hde & Hs & Hr & Hsid & Hia & Hrb & Hpl & Hst & Hlink); try done.
  { rewrite U1, U2, Hown. cbn [as_android_keys uk_user_id]. by rewrite Hnb, U2. }
  { rewrite F1, F2, Hown. cbn [as_android_keys uk_user_id core_pqspk kpk_public_key]. by rewrite Hnb, F2, Fe, Fa. }
  rewrite Hbs in Hsid. destruct (suite_has_label alg _ Hsid) as (label & Hlab & Hlk).
  assert (HKa : build_kem_for_suite MlKem768_new suite = Ok K) by (unfold build_kem_for_suite; by rewrite Hsu, HK).
  assert (HKb : build_kem_for_suite MlKem768_new label = Ok K) by (unfold build_kem_for_suite; by rewrite Hlk, HK).
  eexists g', (io_initial_message out), _, _. split; [|split].
  - unfold wasm_initiate_session_and_encrypt, sm_bind, sm_lift, web_core. rewrite same_user_refl, Hska, Hbun, Ia, Ka, HKa, HQ by done.
    cbn [js_core]. unfold WasmEd25519SignatureVerifier. rewrite Hval. cbn [js_core]. rewrite Hal. cbn [js_core]. rewrite Hen. cbn [js_core].
    rewrite Hia. reflexivity.
  - exists wire. by split.
  - intros Hf g0. cbn [ws_message_bytes_base64]. unfold wasm_decrypt_message, sm_bind, sm_lift.
    rewrite same_user_refl, web_decode_b64_encode, Hde by done. unfold wasm_decrypt_initial.
    rewrite !same_user_refl, Hlab, HKb, Ib, Sb, Kb by done.
    rewrite (receive_found kb b ots su i (io_initial_message out) resp Hb Hsome Hrb Hf). rewrite Hst, Hpl. cbn [js_core]. reflexivity.
  - done.
  - done.
  - intros gen ad_ab ad_ba. destruct (Hlink gen) as (lab & lba & [Hab Hba _]).
    exists lab, lba, sa, sb. split; try done; try constructor; try done; cbn; exists K;
      unfold AndroidKeys.build_kem_for_suite, android_kem; by rewrite alg_suite_kem, HK.
Qed.
End WebContact.


(** C25: The web library and the Android library are the same session code. On a
    session file and its twin of the other shape, with the KEM of the file's
    suite available, sending gives the same message, and receiving a message that
    is no initial message gives the same text; the files returned are twins again,
    the random source is left in the same state, and where one library fails the
    other fails with the same text. A transparency proof gets the same verdict. *)
Theorem web_session_equivalent (P : Primitives) (V : Ed25519) (B : Base64)
    (MlKem768_new : KemAlgorithm → res KemProvider) (suite : bytes) (alg : KemAlgorithm) (K : KemProvider)
    (f : WasmSessionFile) (keys : GeneratedKeys) (user peer text wire : bytes) (g : rng)
    (d : TransparencyProofDocument) (key : bytes) (previous : option TransparencySignedTreeHeadRecord) :
  suite_to_kem_algorithm suite = Ok alg → MlKem768_new alg = Ok K → wf_suite f = suite →
  (∀ w, b64_decode wire = Some w → ¬ is_ok (InitialMessage_decode w)) →
  let su := alg_suite alg in
  let twin := as_android_session su f in
  wasm_encrypt_with_session MlKem768_new f user peer text g =
    as_web_run (as_web_send suite) (encrypt_with_session (android_kem MlKem768_new) twin user peer text g) ∧
  wasm_decrypt_message MlKem768_new keys user peer wire (Some f) g =
    as_web_run (as_web_decrypt suite keys)
      (decrypt_message (android_kem MlKem768_new) (as_android_keys su keys) user peer wire (Some twin) g) ∧
  wasm_verify_transparency_proof d key previous = as_js (verify_transparency_proof d key previous).
Proof.
  intros Hs HK Hf Hw. split; [by eapply web_encrypt_same|]. split; [by eapply web_decrypt_same|apply web_transparency_same].
Qed.

(** ** An instance *)

#[export] Instance ToyNoble : NobleKeys := {| x25519_getPublicKey := @x25519_base Toy; ed25519_getPublicKey := @ed_public ToyEd |}.

#[export] Instance ToyNobleLaws : NobleKeysLaws ToyNoble Toy ToyEd.
Proof. by split. Qed.

Definition toy_web_module : option WasmModule := Some (mkWasmModule true true).

Definition toy_web_gen (user device : bytes) (g : @rng Toy) : @rng Toy * js GeneratedKeys :=
  generateIdentityKeys (λ _, Ok ToyKem) (Ok ToyPqSig) toy_web_module user device (lit "ml-kem-768") 2 g.

Definition toy_web_upload (keys : GeneratedKeys) : @rng Toy * js PublishPrekeysRequest :=
  buildPublishPrekeysPayload (P := Toy) (Ok ToyPqSig) toy_web_module keys (60 : @rng Toy).

(** Alice gets the second of Bob's one-time prekeys. *)
Definition toy_web_initiate (ka kb : GeneratedKeys) (pub : PublishPrekeysRequest) : @rng Toy * js WasmSendResult :=
  wasm_initiate_session_and_encrypt (P := Toy) (λ _, Ok ToyKem) (Ok ToyPqSig) ka (lit "alice") (lit "bob")
    (web_bundle kb pub (n ← Some 1%nat; gk_oneTimePrekeysX25519 kb !! n) (b64_encode <$> None)) (lit "hello") (70 : @rng Toy).

(** No other attempt opens the message. *)
Definition toy_first (kb : GeneratedKeys) (m : InitialMessage) : bool :=
  negb (opens (P := Toy) ToyKem kb m None) &&
  match candidate_one_time_prekey kb 0 with Ok (Some o) => negb (opens (P := Toy) ToyKem kb m (Some o)) | _ => true end.

Lemma toy_first_spec (kb : GeneratedKeys) (m : InitialMessage) :
  toy_first kb m = true → opens_first (P := Toy) ToyKem kb m (Some 1%nat).
Proof.
  unfold toy_first. intros [H1 H2]%andb_true_iff. split; [by apply negb_true_iff|]. intros [|j] o Hj Ho; [|lia].
  rewrite Ho in H2. by apply negb_true_iff.
Qed.

(** A run of the two clients up to the message, and what it shows when it succeeds. *)
Definition contact_run {S} (ra rb : S * js GeneratedKeys) (upload : GeneratedKeys → S * js PublishPrekeysRequest)
    (initiate : GeneratedKeys → GeneratedKeys → PublishPrekeysRequest → S * js WasmSendResult) : bool :=
  match ra.2, rb.2 with
  | Ok ka, Ok kb =>
      (length (gk_oneTimePrekeysX25519 kb) =? 2)%nat &&
      match (upload kb).2 with
      | Ok pub => match (initiate ka kb pub).2 with
                  | Ok send => match b64_decode (ws_message_bytes_base64 send) with
                               | Some w => match InitialMessage_decode w with Ok m => toy_first kb m | Err _ => false end
                               | None => false
                               end
                  | Err _ => false
                  end
      | Err _ => false
      end
  | _, _ => false
  end.

Lemma contact_run_inv {S} (ra rb : S * js GeneratedKeys) (upload : GeneratedKeys → S * js PublishPrekeysRequest)
    (initiate : GeneratedKeys → GeneratedKeys → PublishPrekeysRequest → S * js WasmSendResult) :
  contact_run ra rb upload initiate = true →
  ∃ ga gb gp ka kb pub, ra = (ga, Ok ka) ∧ rb = (gb, Ok kb) ∧ upload kb = (gp, Ok pub) ∧
    length (gk_oneTimePrekeysX25519 kb) = 2%nat ∧
    ∀ g send w m, initiate ka kb pub = (g, Ok send) → ws_message_bytes_base64 send = b64_encode w →
      InitialMessage_decode w = Ok m → toy_first kb m = true.
Proof.
  unfold contact_run. destruct ra as [ga [ka|]], rb as [gb [kb|]]; try done. cbn [snd]. intros [Hn H]%andb_true_iff.
  destruct (upload kb) as [gp [pub|]] eqn:Ep; [|done]. cbn [snd] in H. exists ga, gb, gp, ka, kb, pub.
  split_and!; [done..|by apply Nat.eqb_eq|]. intros g send w m H1 H2 H3. rewrite H1 in H. cbn [snd] in H.
  by rewrite H2, b64_roundtrip, H3 in H.
Qed.

Lemma toy_contact_run : contact_run (toy_web_gen (lit "alice") (lit "d1") 0) (toy_web_gen (lit "bob") (lit "d2") 50)
  toy_web_upload toy_web_initiate = true.
Proof. vm_compute. reflexivity. Qed.


(** A session file of Alice; the message she receives has no content. *)
Definition toy_web_file (s : @SessionState Toy) : WasmSessionFile :=
  mkWasmSession 1 (lit "alice") (lit "bob") (lit "ml-kem-768") (snapshot s).

Definition toy_web_send (s : @SessionState Toy) : @rng Toy * js WasmSendResult :=
  wasm_encrypt_with_session (P := Toy) (λ _, Ok ToyKem) (toy_web_file s) (lit "alice") (lit "bob") (lit "hi") (5 : @rng Toy).

Definition toy_web_proof : TransparencyProofDocument :=
  mkDocument (mkLeafRecord (lit "alice") 1 [] [] None 0) (mkInclusionRecord 0 []) (mkSthRecord 0 1 [] []) None.

Lemma toy_web_session : ∃ s, toy_pq_a = Ok s ∧ is_ok (toy_web_send s).2 = true.
Proof.
  assert (H : match toy_pq_a with Ok s => is_ok (toy_web_send s).2 | Err _ => false end = true) by (vm_compute; reflexivity).
  destruct toy_pq_a as [s|e]; [|done]. by exists s.
Qed.

Lemma web_session_equivalent_witness :
  ∃ s, is_ok (toy_web_send s).2 = true ∧
    toy_web_send s = as_web_run (as_web_send (lit "ml-kem-768"))
      (encrypt_with_session (android_kem (λ _, Ok ToyKem)) (as_android_session SuiteMlKem768 (toy_web_file s)) (lit "alice")
         (lit "bob") (lit "hi") (5 : @rng Toy)) ∧
    wasm_decrypt_message (λ _, Ok ToyKem) toy_web_keys (lit "alice") (lit "bob") (b64_encode [x00]) (Some (toy_web_file s))
      (5 : @rng Toy) = as_web_run (as_web_decrypt (lit "ml-kem-768") toy_web_keys)
      (decrypt_message (android_kem (λ _, Ok ToyKem)) (as_android_keys SuiteMlKem768 toy_web_keys) (lit "alice") (lit "bob")
         (b64_encode [x00]) (Some (as_android_session SuiteMlKem768 (toy_web_file s))) (5 : @rng Toy)) ∧
    wasm_verify_transparency_proof (P := Toy) toy_web_proof [] None = as_js (verify_transparency_proof toy_web_proof [] None).
Proof.
  destruct toy_web_session as (s & _ & Hs). exists s. split; [exact Hs|].
  apply (web_session_equivalent Toy ToyEd ToyBase64 (λ _, Ok ToyKem) (lit "ml-kem-768") MlKem768 ToyKem (toy_web_file s)
           toy_web_keys (lit "alice") (lit "bob") (lit "hi") (b64_encode [x00]) (5 : @rng Toy) toy_web_proof [] None).
  - vm_compute. reflexivity.
  - reflexivity.
  - reflexivity.
  - intros w E. rewrite b64_roundtrip in E. injection E as <-. vm_compute. intros [].
Defined.
