(* ===== verification/WebUploads.v ===== *)
(** * What the web client signs for the server: prekeys and rotations

    The signatures of [buildPublishPrekeysPayload] and [buildRotateConfirmPayload]
    pass the checks of the server's handlers. *)

From Stdlib Require Import Strings.Byte.
From S2P Require Import Prelude Bytes Errors Tlv Crypto Toy Alg Keys Handshake PqSig ServerError ToyServer Validation RequestAuth PrekeyServer PrekeyFacts Android AndroidAuth AndroidKeys AndroidChat WebJs WebAuth Wasm WebKeys WebChat.
Local Open Scope N_scope.

(** The sizes of FIPS 204 for ML-DSA-65. *)
Record ml_dsa_65 `{P : Primitives} (Q : PqSignatureProvider) : Prop := {
  ml_dsa_public : ∀ g kp g', pqs_keypair Q g = (Ok kp, g') → len (pqs_public_key kp) = PQ_SIG_PUB_KEY_LEN;
  ml_dsa_signature : ∀ sk m g s g', pqs_sign Q sk m g = (Ok s, g') → len s = PQ_SIG_LEN;
}.

Section Uploads.
Context `{P : Primitives} `{L : !PrimitiveLaws P} `{V : Ed25519} `{VL : !Ed25519Laws V} `{B : Base64} `{BL : !Base64Laws B}.
Context `{W : WebPlatform} `{WL : !WebPlatformLaws W B V} `{NK : NobleKeys} `{NL : !NobleKeysLaws NK P V}.
Context (K : KemProvider) (KL : KemLaws K) (Q : PqSignatureProvider) (QL : PqSigLaws Q) (QS : ml_dsa_65 Q).
Context (wm : option WasmModule).

Lemma ed_check (sk m field : bytes) :
  length sk = 32%nat → verify_ed25519_signature (ed_public sk) (ed_sign sk m) m field = Ok tt.
Proof.
  intros Hl. pose proof (ed_public_pair sk Hl) as Hp. destruct (ed_correct _ _ m Hp) as (vk & s & Hk & Hs & Hv).
  unfold verify_ed25519_signature, len. rewrite (proj1 (ed_pair_length _ _ Hp)), ed_sign_length.
  change (N.of_nat 32 =? SIG_PUB_KEY_LEN) with true. change (N.of_nat 64 =? SIG_LEN) with true. cbn [negb].
  rewrite Hk. cbn [ok_or]. rewrite Hs. cbn [ok_or]. by rewrite Hv.
Qed.

Lemma pq_check (kp : PqSigKeyPair) (m s field : bytes) (g0 g0' g g' : rng) :
  pqs_keypair Q g0 = (Ok kp, g0') → pqs_sign Q (pqs_secret_key kp) m g = (Ok s, g') →
  verify_ml_dsa_signature (Some Q) (pqs_public_key kp) s m field = Ok tt.
Proof.
  intros Hkp Hs. destruct (pqs_correct _ _ _ _ _ _ (pqs_keypair_pair _ _ _ Hkp) Hs) as [Hv _].
  unfold verify_ml_dsa_signature, validate_ml_dsa_public_key.
  rewrite (ml_dsa_public Q QS _ _ _ Hkp), (ml_dsa_signature Q QS _ _ _ _ _ Hs), !N.eqb_refl. cbn. by rewrite Hv.
Qed.

(** The checks of [publish_prekeys] on an upload. *)
Lemma web_upload_checked (keys : GeneratedKeys) (k : KeyMaterial) (ots : list DhKeyPair) (pub : PublishPrekeysRequest) (g g' : rng) :
  web_holds K KL Q QL keys k ots → buildPublishPrekeysPayload (Ok Q) wm keys g = (g', Ok pub) →
  ∃ spk s1 pqspk s2 q1 q2,
    pp_signed_prekey_x25519_pub pub = b64_encode spk ∧ pp_sig_over_spk pub = b64_encode s1 ∧
    pp_pq_signed_prekey_pub_mlkem768 pub = b64_encode pqspk ∧ pp_sig_over_pqspk pub = b64_encode s2 ∧
    pp_pq_sig_over_spk pub = b64_encode q1 ∧ pp_pq_sig_over_pqspk pub = b64_encode q2 ∧
    verify_hybrid_prekey_signatures (Some Q) (ed_public (km_signing k)) (pqs_public_key (km_pq_signing k)) spk s1 pqspk s2 q1 q2
      = Ok tt.
Proof.
  intros [Hk _ (gq & gq' & Hq) _ _ _ _] H. pose proof (Hk SuiteMlKem768) as [_ [S1 _] [G1 G2] [_ Q2] [K1 _] _ WS WG _ _]. cbn in S1, G1, G2, Q2, K1.
  unfold buildPublishPrekeysPayload, base64ToBytes in H. rewrite S1, K1, G2, Q2, !atob_standard in H. cbn [ok_or] in H.
  do 4 (wrun H E; injection E as <-). wrun H M1. wrun H M2. wrun H N1. wrun H N2. wrun H D1. wrun H D2. injection H as _ <-.
  apply signatureMessage_core in M1, M2. unfold nobleSign in N1, N2. rewrite noble_sign_rfc8032 in N1, N2 by done.
  injection N1 as <-. injection N2 as <-. apply (mlDsaSign_ok _ Q eq_refl) in D1, D2.
  eexists _, _, _, _, _, _. cbn. unfold bytesToBase64. rewrite !btoa_standard. do 6 (split; [done|]).
  pose proof (pqs_keypair_pair _ _ _ Hq) as Hpq. destruct (pqs_correct _ _ _ _ _ _ Hpq D1) as [C1 _].
  destruct (pqs_correct _ _ _ _ _ _ Hpq D2) as [C2 _].
  pose proof (ed_public_pair _ WG) as Hp. destruct (ed_correct _ _ a Hp) as (vk & t1 & Ek & E1 & V1).
  destruct (ed_correct _ _ a0 Hp) as (vk' & t2 & Ek' & E2 & V2). rewrite Ek in Ek'. injection Ek' as <-.
  assert (Lk : len (ed_public (km_signing k)) = SIG_PUB_KEY_LEN) by (unfold len; by rewrite (proj1 (ed_pair_length _ _ Hp))).
  assert (Ls : len (public (km_signed_prekey k)) = X25519_KEY_LEN) by (unfold len; by rewrite (dh_keypair_public_length _ WS)).
  assert (Lg : ∀ m, len (ed_sign (km_signing k) m) = SIG_LEN) by (intros m; unfold len; by rewrite ed_sign_length).
  change (signature_message 1) with (signature_message PROTOCOL_VERSION_V1) in M1, M2.
  unfold verify_hybrid_prekey_signatures, signed_prekey_signature_message, pq_signed_prekey_signature_message.
  rewrite Lk, Ls, !Lg, !N.eqb_refl, Ek, E1, E2. cbn [negb ok_or]. rewrite M1, M2. cbn [map_err]. rewrite V1, V2. cbn [negb].
  unfold validate_ml_dsa_public_key. rewrite (ml_dsa_public Q QS _ _ _ Hq), (ml_dsa_signature Q QS _ _ _ _ _ D1),
    (ml_dsa_signature Q QS _ _ _ _ _ D2), !N.eqb_refl. cbn [negb ok_or]. by rewrite C1, C2.
Qed.

Lemma rotationSignatureMessage_server (user cid nonce x sig pq dev m : bytes) :
  rotationSignatureMessage user cid nonce x sig pq dev = Ok m →
  rotation_signature_message user cid nonce x sig pq dev = Ok m.
Proof.
  intros H. apply encodeTlv_core in H.
  { unfold rotation_signature_message. match goal with |- map_err ?e _ = _ => assert (e = Ok m) as -> by exact H end. done. }
  repeat (apply list.Forall_cons; split; [by vm_compute|]). by apply list.Forall_nil.
Qed.

(** The checks of [rotate_confirm] on a confirmation. *)
Lemma web_rotation_checked (cur new : GeneratedKeys) (kc kn : KeyMaterial) (oc on : list DhKeyPair) (cid nonce : bytes)
    (q : RotateConfirmRequest) (g g' : rng) :
  web_holds K KL Q QL cur kc oc → web_holds K KL Q QL new kn on →
  buildRotateConfirmPayload (Ok Q) wm cur new cid (b64_encode nonce) g = (g', Ok q) →
  gk_userId cur = gk_userId new ∧ rc_challenge_id q = cid ∧ ∃ m s1 s2 s3 s4,
    rotation_signature_message (gk_userId cur) cid nonce (public (km_identity kn)) (ed_public (km_signing kn))
      (pqs_public_key (km_pq_signing kn)) (gk_deviceId new) = Ok m ∧
    rc_sig_by_current_identity q = b64_encode s1 ∧ rc_sig_by_new_identity q = b64_encode s2 ∧
    rc_pq_sig_by_current_identity q = b64_encode s3 ∧ rc_pq_sig_by_new_identity q = b64_encode s4 ∧
    verify_ed25519_signature (ed_public (km_signing kc)) s1 m (lit "sig_by_current_identity") = Ok tt ∧
    verify_ed25519_signature (ed_public (km_signing kn)) s2 m (lit "sig_by_new_identity") = Ok tt ∧
    verify_ml_dsa_signature (Some Q) (pqs_public_key (km_pq_signing kc)) s3 m (lit "pq_sig_by_current_identity") = Ok tt ∧
    verify_ml_dsa_signature (Some Q) (pqs_public_key (km_pq_signing kn)) s4 m (lit "pq_sig_by_new_identity") = Ok tt.
Proof.
  intros [Hc _ (gc & gc' & Hqc) _ _ _ _] [Hn _ (gn & gn' & Hqn) _ _ _ _] H.
  pose proof (Hc SuiteMlKem768) as [_ _ [_ G1] [_ Q1] _ _ _ W1 _ _].
  pose proof (Hn SuiteMlKem768) as [[I _] _ [G2 G2'] [Q2 Q2'] _ _ _ W2 _ _]. cbn in G1, Q1, I, G2, G2', Q2, Q2'.
  unfold buildRotateConfirmPayload, base64ToBytes in H. rewrite I, G1, Q1, G2, G2', Q2, Q2', !atob_standard in H. cbn [ok_or] in H.
  wrun H A. wrun H U. do 4 (wrun H E; injection E as <-). wrun H M. wrun H E; injection E as <-. wrun H S1.
  wrun H E; injection E as <-. wrun H S2. wrun H E; injection E as <-. wrun H D1. wrun H E; injection E as <-. wrun H D2.
  injection H as _ <-. unfold nobleSign in S1, S2. rewrite noble_sign_rfc8032 in S1, S2 by done. injection S1 as <-. injection S2 as <-.
  apply (mlDsaSign_ok _ Q eq_refl) in D1, D2. apply rotationSignatureMessage_server in M.
  split; [unfold throw_if in U; by case_bool_decide|]. split; [done|]. eexists _, _, _, _, _. split; [exact M|]. cbn.
  unfold bytesToBase64. rewrite !btoa_standard. do 4 (split; [done|]). split_and!; [by apply ed_check..| |].
  - by eapply pq_check.
  - by eapply pq_check.
Qed.
End Uploads.

(** A rotation of the web client passes the checks of the server. Let a client
    hold the keys it generated and generate new ones for the same user, and let
    the backend have the sizes of ML-DSA-65. Then the confirmation it builds for a
    challenge carries four signatures, and with the message the server's handler
    rebuilds from the challenge each of them verifies: the two Ed25519 signatures
    and the two ML-DSA signatures, by the current and by the new identity. The
    upload of prekeys under the new identity passes the server's check too. *)
Theorem web_rotation_verified (P : Primitives) (L : PrimitiveLaws P) (V : Ed25519) (VL : Ed25519Laws V) (B : Base64)
    (BL : Base64Laws B) (W : WebPlatform) (WL : WebPlatformLaws W B V) (NK : NobleKeys) (NL : NobleKeysLaws NK P V)
    (MlKem768_new : KemAlgorithm → res KemProvider) (K : KemProvider) (KL : KemLaws K)
    (Q : PqSignatureProvider) (QL : PqSigLaws Q) (QS : ml_dsa_65 Q) (wm : option WasmModule)
    (user dc dn sc sn cid nonce : bytes) (cc cn : Z) (cur new : GeneratedKeys) (q : RotateConfirmRequest)
    (pub : PublishPrekeysRequest) (gc gc' gn gn' g g' gp gp' : rng) :
  MlKem768_new MlKem768 = Ok K →
  generateIdentityKeys MlKem768_new (Ok Q) wm user dc sc cc gc = (gc', Ok cur) →
  generateIdentityKeys MlKem768_new (Ok Q) wm user dn sn cn gn = (gn', Ok new) →
  buildRotateConfirmPayload (Ok Q) wm cur new cid (b64_encode nonce) g = (g', Ok q) →
  buildPublishPrekeysPayload (Ok Q) wm new gp = (gp', Ok pub) →
  ∃ cur_sig cur_pq new_x new_sig new_pq m s1 s2 s3 s4 spk t1 pqspk t2 t3 t4,
    gk_identitySigPub cur = b64_encode cur_sig ∧ gk_identityPqSigPub cur = b64_encode cur_pq ∧
    gk_identityX25519Pub new = b64_encode new_x ∧ gk_identitySigPub new = b64_encode new_sig ∧
    gk_identityPqSigPub new = b64_encode new_pq ∧
    rotation_signature_message user (rc_challenge_id q) nonce new_x new_sig new_pq dn = Ok m ∧
    q = {| rc_challenge_id := cid; rc_sig_by_current_identity := b64_encode s1; rc_sig_by_new_identity := b64_encode s2;
           rc_pq_sig_by_current_identity := b64_encode s3; rc_pq_sig_by_new_identity := b64_encode s4 |} ∧
    verify_ed25519_signature cur_sig s1 m (lit "sig_by_current_identity") = Ok tt ∧
    verify_ed25519_signature new_sig s2 m (lit "sig_by_new_identity") = Ok tt ∧
    verify_ml_dsa_signature (Some Q) cur_pq s3 m (lit "pq_sig_by_current_identity") = Ok tt ∧
    verify_ml_dsa_signature (Some Q) new_pq s4 m (lit "pq_sig_by_new_identity") = Ok tt ∧
    pp_signed_prekey_x25519_pub pub = b64_encode spk ∧ pp_sig_over_spk pub = b64_encode t1 ∧
    pp_pq_signed_prekey_pub_mlkem768 pub = b64_encode pqspk ∧ pp_sig_over_pqspk pub = b64_encode t2 ∧
    pp_pq_sig_over_spk pub = b64_encode t3 ∧ pp_pq_sig_over_pqspk pub = b64_encode t4 ∧
    verify_hybrid_prekey_signatures (Some Q) new_sig new_pq spk t1 pqspk t2 t3 t4 = Ok tt.
Proof.
  intros HK Hc Hn Hq Hp.
  destruct (web_generated _ K KL HK _ Q QL eq_refl wm _ _ _ _ _ _ _ Hc) as (Uc & _ & _ & kc & oc & Wc).
  destruct (web_generated _ K KL HK _ Q QL eq_refl wm _ _ _ _ _ _ _ Hn) as (_ & Dn & _ & kn & on & Wn).
  destruct (web_rotation_checked K KL Q QL QS wm cur new kc kn oc on cid nonce q g g' Wc Wn Hq)
    as (_ & Hcid & m & s1 & s2 & s3 & s4 & Hm & E1 & E2 & E3 & E4 & Hv1 & Hv2 & Hv3 & Hv4).
  destruct (web_upload_checked K KL Q QL QS wm new kn on pub gp gp' Wn Hp)
    as (spk & t1 & pqspk & t2 & t3 & t4 & F1 & F2 & F3 & F4 & F5 & F6 & Hu).
  pose proof (wh_keys _ _ _ _ _ _ _ Wc SuiteMlKem768) as [_ _ [G1 _] [Q1 _] _ _ _ _ _ _].
  pose proof (wh_keys _ _ _ _ _ _ _ Wn SuiteMlKem768) as [[I _] _ [G2 _] [Q2 _] _ _ _ _ _ _].
  rewrite Uc, Dn, <- Hcid in Hm. eexists _, _, _, _, _, m, s1, s2, s3, s4, spk, t1, pqspk, t2, t3, t4.
  split_and!; [exact G1|exact Q1|exact I|exact G2|exact Q2|exact Hm| |done..].
  destruct q. cbn in *. congruence.
Qed.

(** ** An instance *)

Lemma length_toy_3309 (n : N) : len (toy_stream 3309 n) = PQ_SIG_LEN.
Proof. unfold len. by rewrite length_toy_stream. Qed.

#[export] Instance ToyMlDsaLaws : PqSigLaws ToyMlDsa.
Proof.
  apply (Build_PqSigLaws _ ToyMlDsa eq).
  - intros. cbv [pqs_sign ToyMlDsa]. by eexists _, _.
  - intros pk sk m s g g' <- H. cbv [pqs_sign ToyMlDsa] in H. apply pair_equal_spec in H as [H _]. apply Ok_inj in H as <-.
    split; [|intros E; apply (f_equal len) in E; by rewrite length_toy_3309 in E].
    cbv [pqs_verify ToyMlDsa]. by rewrite bool_decide_eq_true_2.
  - intros g kp g' H. cbv [pqs_keypair ToyMlDsa] in H. apply pair_equal_spec in H as [H _]. by apply Ok_inj in H as <-.
Defined.

Lemma ToyMlDsa_65 : ml_dsa_65 ToyMlDsa.
Proof.
  split.
  - intros g kp g' H. cbv [pqs_keypair ToyMlDsa] in H. apply pair_equal_spec in H as [H _]. apply Ok_inj in H as <-.
    cbn [pqs_public_key]. unfold len. by rewrite length_toy_stream.
  - intros sk m g s g' H. cbv [pqs_sign ToyMlDsa] in H. apply pair_equal_spec in H as [H _]. apply Ok_inj in H as <-.
    apply length_toy_3309.
Qed.

Definition toy_rotation_gen (device : bytes) (g : @rng Toy) : @rng Toy * js GeneratedKeys :=
  generateIdentityKeys (λ _, Ok ToyKem) (Ok ToyMlDsa) toy_web_module (lit "alice") device (lit "ml-kem-768") 1 g.

Definition toy_rotation_confirm (cur new : GeneratedKeys) : @rng Toy * js RotateConfirmRequest :=
  buildRotateConfirmPayload (P := Toy) (Ok ToyMlDsa) toy_web_module cur new (lit "c1") (b64_encode (lit "nonce")) (9 : @rng Toy).

Definition toy_rotation_upload (new : GeneratedKeys) : @rng Toy * js PublishPrekeysRequest :=
  buildPublishPrekeysPayload (P := Toy) (Ok ToyMlDsa) toy_web_module new (8 : @rng Toy).

Definition rotation_run {S} (rc rn : S * js GeneratedKeys) (confirm : GeneratedKeys → GeneratedKeys → S * js RotateConfirmRequest)
    (upload : GeneratedKeys → S * js PublishPrekeysRequest) : bool :=
  match rc.2, rn.2 with Ok cur, Ok new => is_ok (confirm cur new).2 && is_ok (upload new).2 | _, _ => false end.

Lemma rotation_run_inv {S} (rc rn : S * js GeneratedKeys) (confirm : GeneratedKeys → GeneratedKeys → S * js RotateConfirmRequest)
    (upload : GeneratedKeys → S * js PublishPrekeysRequest) :
  rotation_run rc rn confirm upload = true →
  ∃ gc gn g gp cur new q pub, rc = (gc, Ok cur) ∧ rn = (gn, Ok new) ∧ confirm cur new = (g, Ok q) ∧ upload new = (gp, Ok pub).
Proof.
  unfold rotation_run. destruct rc as [gc [cur|]], rn as [gn [new|]]; try done. cbn [snd]. intros [H1 H2]%andb_true_iff.
  destruct (confirm cur new) as [g [q|]] eqn:Eq; [|done]. destruct (upload new) as [gp [pub|]] eqn:Ep; [|done].
  exists gc, gn, g, gp, cur, new, q, pub. done.
Qed.

Lemma toy_rotation_run :
  rotation_run (toy_rotation_gen (lit "d1") 0) (toy_rotation_gen (lit "d2") 50) toy_rotation_confirm toy_rotation_upload = true.
Proof. vm_compute. reflexivity. Qed.

Lemma web_rotation_verified_witness :
  ∃ cur new q m s1 cur_sig new_x new_sig new_pq,
    toy_rotation_gen (lit "d1") 0 = ((toy_rotation_gen (lit "d1") 0).1, Ok cur) ∧
    toy_rotation_gen (lit "d2") 50 = ((toy_rotation_gen (lit "d2") 50).1, Ok new) ∧
    gk_identitySigPub cur = b64_encode cur_sig ∧ rc_sig_by_current_identity q = b64_encode s1 ∧
    rotation_signature_message (lit "alice") (lit "c1") (lit "nonce") new_x new_sig new_pq (lit "d2") = Ok m ∧
    verify_ed25519_signature cur_sig s1 m (lit "sig_by_current_identity") = Ok tt.
Proof.
  destruct (rotation_run_inv _ _ _ _ toy_rotation_run) as (gc & gn & g & gp & cur & new & q & pub & Ec & En & Eq & Ep).
  destruct (web_rotation_verified Toy ToyLaws ToyEd ToyEdLaws ToyBase64 ToyBase64Laws ToyWeb ToyWebLaws ToyNoble ToyNobleLaws
    (λ _, Ok ToyKem) ToyKem ToyKemLaws ToyMlDsa ToyMlDsaLaws ToyMlDsa_65 toy_web_module (lit "alice") (lit "d1") (lit "d2")
    (lit "ml-kem-768") (lit "ml-kem-768") (lit "c1") (lit "nonce") 1 1 cur new q pub 0 gc 50 gn 9 g 8 gp eq_refl Ec En Eq Ep)
    as (cur_sig & cur_pq & new_x & new_sig & new_pq & m & s1 & s2 & s3 & s4 & spk & t1 & pqspk & t2 & t3 & t4
        & H1 & _ & _ & _ & _ & Hm & Hq & Hv & _).
  exists cur, new, q, m, s1, cur_sig, new_x, new_sig, new_pq. rewrite Ec, En. split; [reflexivity|]. split; [reflexivity|].
  split; [exact H1|]. rewrite Hq in Hm |- *. split; [reflexivity|]. split; [exact Hm|exact Hv].
Defined.
