(* ===== verification/WebDiscovery.v ===== *)
(** * Contact discovery in the web client ([mobile/web/src/crypto.ts])

    The verification of the service's manifest and attestation, the blinding of
    handles, the check of the evaluation proofs and the tokens. What they achieve
    against the service is in [WebDiscoveryRun]. *)

From Stdlib Require Import Strings.Byte.
From S2P Require Import Prelude Bytes Errors Tlv Crypto Toy ServerError Validation RequestAuth Caches Realtime ServerState ToyServer ServerFrame ClientAuth Android Oprf ToyDiscovery Discovery DiscoveryFacts DiscoveryTickets AndroidDiscovery DiscoveryRun WebJs WebAuth Wasm.
Local Open Scope N_scope.

(** ** The platform *)

(** [JSON.stringify], [Date.parse] in milliseconds ([None] is [NaN]), and the
    order of [localeCompare]. *)
Class WebJson := {
  js_stringify : Json → bytes;
  date_parse : bytes → option Z;
  locale_leb : bytes → bytes → bool;
}.

(** [ristretto255] of [@noble/curves]: [fromBytes] of points and scalars throws,
    [Fn.create] reduces a number. *)
Class NobleRistretto (R : Ristretto) := {
  hashToCurve : bytes → point;
  hashToScalar : bytes → bytes → scalar;
  fn_fromBytes : bytes → option scalar;
  fn_create : N → scalar;
}.

(** The number of octets read from the last to the first. *)
Definition le_value (l : bytes) : N := foldr (λ b n, N.shiftl n 8 + Byte.to_N b) 0 l.

Class WebJsonLaws (WJ : WebJson) (J : JsonText) (T : Rfc3339) := {
  (** Both write the compact text of RFC 8259. *)
  js_stringify_compact : ∀ j, js_stringify j = json_to_vec j;
  (** A time is read to the millisecond. *)
  date_parse_rfc3339 : ∀ t, (0 ≤ t < YEAR_10000)%Z → date_parse (to_rfc3339 t) = Some (t / 1000000)%Z;
  (** Names that differ in a last digit are in the order of that digit. *)
  locale_digit : ∀ p a b, is_ascii_digit a = true → is_ascii_digit b = true →
    locale_leb (p ++ [a]) (p ++ [b]) = str_leb (p ++ [a]) (p ++ [b]);
}.

Class NobleRistrettoLaws (R : Ristretto) (NR : NobleRistretto R) := {
  (** RFC 9496. *)
  hashToCurve_uniform : ∀ b, hashToCurve (sha512 b) = from_uniform_bytes (sha512 b);
  fn_fromBytes_canonical : ∀ s, fn_fromBytes (scalar_to_bytes s) = Some s;
  fn_create_mod_order : ∀ b, length b = 32%nat → fn_create (le_value b) = from_bytes_mod_order b;
  (** The scalars are a field. *)
  invert_nonzero : ∀ a, a ≠ scalar_zero → scalar_invert a ≠ scalar_zero;
}.

Record WebEvaluateResponse := mkWebEvaluate {
  we_evaluation_proof_mode : bytes;
  we_evaluated_elements_base64 : list bytes;
  we_dleq_proofs : list DiscoveryEvaluateProof;
}.

(** ** Objects *)

(** A property name that is an array index: a decimal number below 2^32 - 1. *)
Definition index_key (k : bytes) : option N :=
  match k with
  | [] => None
  | _ => if forallb is_ascii_digit k && ((len k =? 1) || negb (bool_decide (head k = Some x30)))
         then let n := foldl (λ n b, n * 10 + (Byte.to_N b - 0x30)) 0 k in
              if n <? 4294967295 then Some n else None
         else None
  end.

Definition index_leb (a b : bytes * bytes) : bool := default 0 (index_key a.1) <=? default 0 (index_key b.1).

(** [Object.fromEntries], as its properties are enumerated: array indices first and
    in ascending order, other names in the order of the entries. *)
Definition object_from_entries (entries : list (bytes * bytes)) : list (bytes * bytes) :=
  sort_unstable index_leb (filter (λ e, is_Some (index_key e.1)) entries)
  ++ filter (λ e, ¬ is_Some (index_key e.1)) entries.

Section WebDiscovery.
Context `{P : Primitives} `{V : Ed25519} `{B : Base64} `{R : Ristretto} `{W : WebPlatform} `{X : WebText} `{WJ : WebJson} `{NR : !NobleRistretto R}.

(** [Date.now()], in milliseconds. *)
Context (date_now : Z).
Local Open Scope sm_scope.

Definition normalizeContactDiscoveryPcrsSha384 (pcrs : option (gmap bytes bytes)) : Json :=
  match pcrs with
  | None => JNull
  | Some pcrs =>
      match sort_unstable (λ a b : bytes * bytes, locale_leb a.1 b.1) (map_to_list pcrs) with
      | [] => JNull
      | entries => JObject (map (λ '(k, v), (k, JString v)) (object_from_entries entries))
      end
  end.

Definition contactDiscoveryPcrMapsEqual (lhs rhs : option (gmap bytes bytes)) : bool :=
  bool_decide (js_stringify (normalizeContactDiscoveryPcrsSha384 lhs) = js_stringify (normalizeContactDiscoveryPcrsSha384 rhs)).

(** ** The manifest *)

(** A pin that is [null] or blank is not checked; a field of the manifest that is
    absent is [undefined]. *)
Definition pin_mismatch (expected actual : option bytes) : bool :=
  negb (len (js_trim (default [] expected)) =? 0) && negb (bool_decide (actual = expected)).

(** [!field]. *)
Definition falsy (field : option bytes) : bool := match field with None | Some [] => true | Some _ => false end.

Definition web_contract_members (m : ManifestPayload) : list (bytes * Json) :=
  [(lit "service", JString (mp_service m));
   (lit "protocol_version", JNumber (Z.of_N (mp_protocol_version m)));
   (lit "attestation_mode", JString (mp_attestation_mode m));
   (lit "attestation_verifier", json_option JString (mp_attestation_verifier m));
   (lit "enclave_measurement_hex", json_option JString (mp_enclave_measurement_hex m));
   (lit "attestation_pcrs_sha384", normalizeContactDiscoveryPcrsSha384 (mp_attestation_pcrs_sha384 m));
   (lit "attestation_document_format", json_option JString (mp_attestation_document_format m));
   (lit "attestation_document_sha256", json_option JString (mp_attestation_document_sha256 m));
   (lit "attestation_challenge_mode", json_option JString (mp_attestation_challenge_mode m));
   (lit "ticket_format", JString (mp_ticket_format m));
   (lit "ticket_issuer_ed25519_pub", JString (mp_ticket_issuer_ed25519_pub m));
   (lit "ticket_max_ttl_seconds", JNumber (mp_ticket_max_ttl_seconds m));
   (lit "lookup_protocol", JString (mp_lookup_protocol m));
   (lit "privacy_mode", JString (mp_privacy_mode m));
   (lit "directory_backend", JString (mp_directory_backend m));
   (lit "host_enclave_protocol_version", JNumber (Z.of_N (mp_host_enclave_protocol_version m)));
   (lit "host_release_id", JString (mp_host_release_id m));
   (lit "enclave_release_id", JString (mp_enclave_release_id m));
   (lit "match_result_format", JString (mp_match_result_format m));
   (lit "oprf_suite", JString (mp_oprf_suite m));
   (lit "evaluation_proof_mode", JString (mp_evaluation_proof_mode m));
   (lit "oprf_public_key_ristretto255", JString (mp_oprf_public_key_ristretto255 m))].

(** [ed25519.verify] throws on a malformed key or signature. *)
Definition nobleVerify (signature message publicKey : bytes) (refusal : string) : js unit :=
  let? ok := ok_or (noble_verify signature message publicKey) (Thrown (lit "ed25519")) in
  throw_if (negb ok) (lit refusal).

Definition verifyContactDiscoveryManifest (manifest : ManifestResponse)
    (expectedTicketIssuerPubB64 expectedManifestIssuerPubB64 : bytes)
    (expectedAttestationVerifier expectedEnclaveMeasurementHex : option bytes)
    (expectedAttestationPcrsSha384 : option (gmap bytes bytes)) (expectedAttestationDocumentSha256 : option bytes) : js unit :=
  let m := mr_payload manifest in
  let? _ := throw_if (negb (bool_decide (mp_ticket_issuer_ed25519_pub m = expectedTicketIssuerPubB64)))
    (lit "Contact discovery manifest ticket issuer mismatch") in
  let? _ := throw_if (negb (bool_decide (mr_manifest_issuer_ed25519_pub manifest = expectedManifestIssuerPubB64)))
    (lit "Contact discovery manifest issuer mismatch") in
  let? expiresAt :=
    match date_parse (mp_signed_at m), date_parse (mp_expires_at m) with
    | Some signedAt, Some expiresAt =>
        if (expiresAt <=? signedAt)%Z then throw "Contact discovery manifest timing is invalid" else Ok expiresAt
    | _, _ => throw "Contact discovery manifest timing is invalid"
    end in
  let? _ := throw_if (expiresAt <=? date_now)%Z (lit "Contact discovery manifest expired") in
  let? _ := throw_if (pin_mismatch expectedAttestationVerifier (mp_attestation_verifier m))
    (lit "Contact discovery manifest attestation verifier mismatch") in
  let? _ := throw_if (pin_mismatch expectedEnclaveMeasurementHex (mp_enclave_measurement_hex m))
    (lit "Contact discovery manifest enclave measurement mismatch") in
  let? _ := throw_if (match expectedAttestationPcrsSha384 with
                      | None => false
                      | Some _ => negb (contactDiscoveryPcrMapsEqual (mp_attestation_pcrs_sha384 m) expectedAttestationPcrsSha384)
                      end) (lit "Contact discovery manifest attestation PCR set mismatch") in
  let? _ := throw_if (pin_mismatch expectedAttestationDocumentSha256 (mp_attestation_document_sha256 m))
    (lit "Contact discovery manifest attestation document hash mismatch") in
  let? _ := throw_if (negb (bool_decide (mp_attestation_mode m = lit "attested_enclave_v1"))
                      || falsy (mp_attestation_verifier m) || falsy (mp_enclave_measurement_hex m)
                      || falsy (mp_attestation_document_format m) || falsy (mp_attestation_document_sha256 m)
                      || falsy (mp_attestation_challenge_mode m))
    (lit "Contact discovery manifest attestation contract is incomplete") in
  let payloadBytes := js_stringify (JObject (web_contract_members m
    ++ [(lit "signed_at", JString (mp_signed_at m)); (lit "expires_at", JString (mp_expires_at m))])) in
  let? signatureBytes := base64ToBytes (mr_manifest_signature_ed25519 manifest) in
  let? publicKeyBytes := base64ToBytes expectedManifestIssuerPubB64 in
  nobleVerify signatureBytes payloadBytes publicKeyBytes "Contact discovery manifest signature verification failed".

Definition contactDiscoveryManifestContractSha256 (manifest : ManifestResponse) : bytes :=
  bytesToHex (sha256 (js_stringify (JObject (web_contract_members (mr_payload manifest))))).

(** ** The attestation *)

Definition web_attestation_members (p : AttestationPayload) : list (bytes * Json) :=
  [(lit "attestation_mode", JString (ap_attestation_mode p));
   (lit "attestation_verifier", JString (ap_attestation_verifier p));
   (lit "enclave_measurement_hex", JString (ap_enclave_measurement_hex p));
   (lit "attested_pcrs_sha384", normalizeContactDiscoveryPcrsSha384 (ap_attested_pcrs_sha384 p));
   (lit "directory_backend", JString (ap_directory_backend p));
   (lit "host_enclave_protocol_version", JNumber (Z.of_N (ap_host_enclave_protocol_version p)));
   (lit "host_release_id", JString (ap_host_release_id p));
   (lit "enclave_release_id", JString (ap_enclave_release_id p));
   (lit "manifest_contract_sha256", JString (ap_manifest_contract_sha256 p));
   (lit "attested_oprf_public_key_ristretto255", JString (ap_attested_oprf_public_key_ristretto255 p));
   (lit "document_format", JString (ap_document_format p));
   (lit "document_base64", JString (ap_document_base64 p));
   (lit "document_sha256", JString (ap_document_sha256 p));
   (lit "published_at", JString (ap_published_at p));
   (lit "challenge_nonce_base64", JString (ap_challenge_nonce_base64 p))].

Definition differ (actual expected : bytes) (message : string) : js unit :=
  throw_if (negb (bool_decide (actual = expected))) (lit message).

Definition verifyContactDiscoveryAttestationDocument (response : AttestationResponse)
    (expectedAttestationMode expectedVerifier expectedMeasurementHex : bytes)
    (expectedPcrsSha384 : option (gmap bytes bytes))
    (expectedManifestIssuerEd25519PubB64 expectedChallengeNonceBase64 expectedManifestContractSha256
     expectedHostReleaseId expectedEnclaveReleaseId expectedOprfPublicKeyRistretto255B64 expectedDocumentSha256 : bytes)
    (expectedMaxAgeSeconds : Z) : js unit :=
  let p := ar_payload response in
  let? _ := differ (ap_challenge_nonce_base64 p) expectedChallengeNonceBase64
    "Contact discovery attestation challenge nonce mismatch" in
  let payloadBytes := js_stringify (JObject (web_attestation_members p)) in
  let? signatureBytes := base64ToBytes (ar_attestation_signature_ed25519 response) in
  let? publicKeyBytes := base64ToBytes expectedManifestIssuerEd25519PubB64 in
  let? _ := nobleVerify signatureBytes payloadBytes publicKeyBytes
    "Contact discovery attestation signature verification failed" in
  let? _ := differ (ap_attestation_mode p) expectedAttestationMode "Contact discovery attestation mode mismatch" in
  let? _ := differ (ap_attestation_verifier p) expectedVerifier "Contact discovery attestation verifier mismatch" in
  let? _ := differ (ap_enclave_measurement_hex p) expectedMeasurementHex
    "Contact discovery attestation measurement mismatch" in
  let? _ := throw_if (match expectedPcrsSha384 with
                      | None => false
                      | Some _ => negb (contactDiscoveryPcrMapsEqual (ap_attested_pcrs_sha384 p) expectedPcrsSha384)
                      end) (lit "Contact discovery attestation PCR set mismatch") in
  let? _ := differ (ap_host_release_id p) expectedHostReleaseId "Contact discovery attestation host release mismatch" in
  let? _ := differ (ap_manifest_contract_sha256 p) expectedManifestContractSha256
    "Contact discovery attestation manifest contract mismatch" in
  let? _ := differ (ap_enclave_release_id p) expectedEnclaveReleaseId
    "Contact discovery attestation enclave release mismatch" in
  let? _ := differ (ap_attested_oprf_public_key_ristretto255 p) expectedOprfPublicKeyRistretto255B64
    "Contact discovery attestation OPRF public key mismatch" in
  let? _ := differ (ap_directory_backend p) (lit "attested_enclave_directory_v1") "Unsupported contact discovery backend" in
  let? _ := throw_if (negb (ap_host_enclave_protocol_version p =? 1))
    (lit "Unsupported contact discovery host/enclave protocol version") in
  let? _ := differ (ap_document_format p) (lit "opaque_b64_v1")
    "Unsupported contact discovery attestation document format" in
  let? _ := differ (ap_document_sha256 p) expectedDocumentSha256
    "Contact discovery attestation document hash mismatch" in
  let? documentBytes := base64ToBytes (ap_document_base64 p) in
  let computedSha256 := bytesToHex (sha256 documentBytes) in
  let? _ := differ computedSha256 (toLowerCase expectedDocumentSha256)
    "Contact discovery attestation document integrity check failed" in
  let? _ := throw_if (expectedMaxAgeSeconds <=? 0)%Z (lit "Contact discovery attestation max age is invalid") in
  let? publishedAtMs := ok_or (date_parse (ap_published_at p))
    (Thrown (lit "Contact discovery attestation published_at is invalid")) in
  let? _ := throw_if (date_now + 5 * 60 * 1000 <? publishedAtMs)%Z
    (lit "Contact discovery attestation published_at is in the future") in
  throw_if (expectedMaxAgeSeconds * 1000 <? date_now - publishedAtMs)%Z
    (lit "Contact discovery attestation document is stale").

Definition buildContactDiscoveryAttestationChallengeNonce : Web bytes := web_nonce.

(** ** Handles and tokens *)

(** [Number.parseInt] of two digits, over the pairs. *)
Fixpoint parse_hex_pairs (l : bytes) : bytes :=
  match l with
  | a :: b :: l => byte_of_N (default 0 (to_digit_16 a) * 16 + default 0 (to_digit_16 b)) :: parse_hex_pairs l
  | _ => []
  end.

(** [/^[0-9a-f]+$/]. *)
Definition lower_hex_char (b : byte) : bool := is_ascii_digit b || in_range 0x61 0x66 b.

Definition decodeDiscoveryHashHex (value : bytes) : js bytes :=
  let normalized := toLowerCase (js_trim value) in
  let? _ := throw_if (negb (len normalized =? 64) || negb (forallb lower_hex_char normalized))
    (lit "Discovery values must be 64-character SHA-256 hex strings") in
  Ok (parse_hex_pairs normalized).

Definition discoveryHandlePoint (handleHashSha256 : bytes) : js point :=
  let? hash := decodeDiscoveryHashHex handleHashSha256 in
  Ok (hashToCurve (sha512 (concatBytes [lit "pqmsg-discovery-handle-v1"; hash]))).

Definition discoveryProofScalarFromBytes (bytes : Bytes.bytes) : scalar := fn_create (le_value bytes).

Definition discoveryDleqChallenge (publicKey blindedPoint evaluatedPoint commitmentBase commitmentBlinded : point) : scalar :=
  discoveryProofScalarFromBytes (sha256 (concatBytes
    [lit "pqmsg-discovery-dleq-proof-v1"; compress RISTRETTO_BASEPOINT_POINT; compress publicKey; compress blindedPoint;
     compress evaluatedPoint; compress commitmentBase; compress commitmentBlinded])).

(** [point.multiply] refuses the scalar zero. *)
Definition multiply (p : point) (s : scalar) : js point :=
  let? _ := throw_if (bool_decide (s = scalar_zero)) (lit "invalid scalar: out of range") in
  Ok (point_mul p s).

Definition pointFromBase64 (value : bytes) : js point :=
  let? bytes := base64ToBytes value in
  ok_or (decompress bytes) (Thrown (lit "ristretto255")).

Fixpoint prepareContactDiscoveryBlindRequest (handleHashesSha256 : list bytes) : Web (list bytes * list bytes) :=
  match handleHashesSha256 with
  | [] => sm_ret ([], [])
  | handleHashSha256 :: handleHashesSha256 =>
      point <- sm_lift (discoveryHandlePoint handleHashSha256);;
      random <- web_rng (rng_fill 32);;
      let blindScalar := hashToScalar random (lit "pqmsg-discovery-blind-scalar-v1") in
      blindedPoint <- sm_lift (multiply point blindScalar);;
      rest <- prepareContactDiscoveryBlindRequest handleHashesSha256;;
      sm_ret (bytesToBase64 (compress blindedPoint) :: rest.1, bytesToBase64 (scalar_to_bytes blindScalar) :: rest.2)
  end.

(** [Fn.inv] refuses zero. *)
Definition web_finalize_token (blindingScalarBase64 evaluatedElementBase64 : bytes) : js bytes :=
  let? evaluatedPoint := pointFromBase64 evaluatedElementBase64 in
  let? scalarBytes := base64ToBytes blindingScalarBase64 in
  let? blindScalar := ok_or (fn_fromBytes scalarBytes) (Thrown (lit "ristretto255")) in
  let? _ := throw_if (bool_decide (blindScalar = scalar_zero)) (lit "invert: expected non-zero number") in
  let? unblindedPoint := multiply evaluatedPoint (scalar_invert blindScalar) in
  Ok (bytesToHex (sha256 (concatBytes [lit "pqmsg-discovery-finalize-v1"; compress unblindedPoint]))).

Definition finalizeContactDiscoveryTokens (blindingScalarsBase64 evaluatedElementsBase64 : list bytes) : js (list bytes) :=
  let? _ := throw_if (negb (length blindingScalarsBase64 =? length evaluatedElementsBase64)%nat)
    (lit "Discovery evaluation result count mismatch") in
  js_map (λ '(s, e), web_finalize_token s e) (zip blindingScalarsBase64 evaluatedElementsBase64).

(** One round of the loop below. *)
Definition web_verify_proof (publicKey : point) (blindedBase64 evaluatedBase64 : bytes) (proof : DiscoveryEvaluateProof)
    : js unit :=
  let? blindedPoint := pointFromBase64 blindedBase64 in
  let? evaluatedPoint := pointFromBase64 evaluatedBase64 in
  let? challengeBytes := base64ToBytes (ep_challenge_scalar_base64 proof) in
  let challenge := discoveryProofScalarFromBytes challengeBytes in
  let? responseBytes := base64ToBytes (ep_response_scalar_base64 proof) in
  let responseScalar := discoveryProofScalarFromBytes responseBytes in
  let? commitmentBase := pointFromBase64 (ep_commitment_base_base64 proof) in
  let? commitmentBlinded := pointFromBase64 (ep_commitment_blinded_base64 proof) in
  let expectedChallenge := discoveryDleqChallenge publicKey blindedPoint evaluatedPoint commitmentBase commitmentBlinded in
  let? _ := differ (bytesToBase64 (scalar_to_bytes challenge)) (bytesToBase64 (scalar_to_bytes expectedChallenge))
    "Contact discovery DLEQ challenge mismatch" in
  let? lhsBase := multiply RISTRETTO_BASEPOINT_POINT responseScalar in
  let? keyChallenge := multiply publicKey challenge in
  let rhsBase := point_add commitmentBase keyChallenge in
  let? lhsBlinded := multiply blindedPoint responseScalar in
  let? evaluatedChallenge := multiply evaluatedPoint challenge in
  let rhsBlinded := point_add commitmentBlinded evaluatedChallenge in
  let? _ := differ (bytesToBase64 (compress lhsBase)) (bytesToBase64 (compress rhsBase))
    "Contact discovery DLEQ base equation failed" in
  differ (bytesToBase64 (compress lhsBlinded)) (bytesToBase64 (compress rhsBlinded))
    "Contact discovery DLEQ blinded equation failed".

Fixpoint web_verify_proofs (publicKey : point) (blinded evaluated : list bytes) (proofs : list DiscoveryEvaluateProof) : js unit :=
  match blinded, evaluated, proofs with
  | b :: blinded, e :: evaluated, p :: proofs =>
      let? _ := web_verify_proof publicKey b e p in
      web_verify_proofs publicKey blinded evaluated proofs
  | _, _, _ => Ok tt
  end.

Definition verifyContactDiscoveryEvaluationProofs (blindedElementsBase64 : list bytes) (response : WebEvaluateResponse)
    (expectedOprfPublicKeyRistretto255B64 : bytes) : js unit :=
  let? _ := differ (we_evaluation_proof_mode response) (lit "dleq_per_element_v1")
    "Unsupported contact discovery evaluation proof mode" in
  let n := length blindedElementsBase64 in
  let? _ := throw_if (negb (n =? length (we_evaluated_elements_base64 response))%nat
                      || negb (n =? length (we_dleq_proofs response))%nat)
    (lit "Contact discovery evaluation proof count mismatch") in
  let? publicKey := pointFromBase64 expectedOprfPublicKeyRistretto255B64 in
  web_verify_proofs publicKey blindedElementsBase64 (we_evaluated_elements_base64 response) (we_dleq_proofs response).
End WebDiscovery.
