(* ===== verification/WebDiscoveryRun.v ===== *)
(** * The web client and the discovery service

    The web client accepts the manifest and the attestation the service signs,
    computes over the manifest the very hash the service computes (the Android
    client does not, see [DiscoveryManifest]), accepts the service's evaluation
    proofs, and gets for a handle the token every client gets. *)

From Stdlib Require Import Strings.Byte.
From S2P Require Import Prelude Bytes Errors Tlv Crypto Toy ServerError Validation RequestAuth Caches Realtime ServerState ToyServer ServerFrame ClientAuth Android Oprf ToyDiscovery Discovery DiscoveryFacts DiscoveryTickets AndroidKeys AndroidDiscovery DiscoveryRun DiscoveryManifest WebJs WebAuth Wasm WebDiscovery.
Local Open Scope N_scope.

(** ** The PCR set *)

Lemma sort_unstable_ext {A} (f g : A → A → bool) (l : list A) :
  (∀ a b, a ∈ l → b ∈ l → f a b = g a b) → sort_unstable f l = sort_unstable g l.
Proof.
  induction l as [|x l IH]; intros H; [done|]. cbn [sort_unstable foldr].
  change (foldr (insert_sorted f) [] l) with (sort_unstable f l). change (foldr (insert_sorted g) [] l) with (sort_unstable g l).
  rewrite IH by (intros; apply H; by right).
  assert (Hs : ∀ y, y ∈ sort_unstable g l → f x y = g x y).
  { intros y Hy%elem_of_sort_unstable. apply H; [by left|by right]. }
  clear -Hs. induction (sort_unstable g l) as [|y k IH]; [done|]. cbn [insert_sorted].
  rewrite Hs by by left. destruct (g x y); [done|]. f_equal. apply IH. intros z Hz. apply Hs. by right.
Qed.

Section Objects.
Context `{WJ : WebJson} `{J : JsonText} `{T : Rfc3339} `{!WebJsonLaws WJ J T}.

Lemma pcr_name_split (k : bytes) : k ∈ pcr_names → ∃ a, k = lit "pcr" ++ [a] ∧ is_ascii_digit a = true ∧ index_key k = None.
Proof.
  unfold pcr_names. intros H.
  repeat (apply elem_of_cons in H; destruct H as [->|H]; [by eexists|]). by apply elem_of_nil in H.
Qed.

Lemma pcr_order (a b : bytes) : a ∈ pcr_names → b ∈ pcr_names → locale_leb a b = str_leb a b.
Proof.
  intros (x & -> & Hx & _)%pcr_name_split (y & -> & Hy & _)%pcr_name_split. by apply locale_digit.
Qed.

(** No PCR name is an array index, so that an object lists them in the order they
    were entered in. *)
Lemma pcr_entries (l : list (bytes * bytes)) : (∀ e, e ∈ l → e.1 ∈ pcr_names) → object_from_entries l = l.
Proof.
  intros H. assert (Hf : filter (λ e, is_Some (index_key e.1)) l = [] ∧ filter (λ e, ¬ is_Some (index_key e.1)) l = l).
  { induction l as [|e l IH]; [done|]. destruct IH as [IH1 IH2]; [intros ? ?; apply H; by right|].
    destruct (pcr_name_split e.1) as (? & _ & _ & He); [apply H; by left|].
    assert (Hn : ¬ is_Some (index_key e.1)) by (rewrite He; by intros []).
    by rewrite filter_cons_False, filter_cons_True, IH1, IH2. }
  unfold object_from_entries. by destruct Hf as [-> ->].
Qed.

Lemma pcrs_written (pcrs : option (gmap bytes bytes)) :
  (∀ m, pcrs = Some m → m ≠ ∅ ∧ ∀ k v, m !! k = Some v → k ∈ pcr_names) →
  normalizeContactDiscoveryPcrsSha384 pcrs = json_option btree_json pcrs.
Proof.
  destruct pcrs as [m|]; [|done]. intros H. destruct (H m eq_refl) as [Hne Hk]. clear H.
  assert (Hn : ∀ e, e ∈ map_to_list m → e.1 ∈ pcr_names) by (intros [k v] Hin%elem_of_map_to_list; by eapply Hk).
  cbn [normalizeContactDiscoveryPcrsSha384 json_option].
  rewrite (sort_unstable_ext _ key_leb) by (intros a b Ha Hb; apply pcr_order; by apply Hn). fold (btree_iter m).
  unfold btree_json. rewrite <- (pcr_entries (btree_iter m)) at 2.
  2: { intros e He. unfold btree_iter in He. rewrite elem_of_sort_unstable in He. by apply Hn. }
  destruct (btree_iter m) eqn:E; [|done]. exfalso. apply Hne, map_to_list_empty_iff, Permutation_nil_r.
  rewrite <- E. symmetry. apply sort_unstable_perm.
Qed.
End Objects.

(** ** The manifest and the attestation *)

Section Signed.
Context `{P : Primitives} `{PL : !PrimitiveLaws P} `{V : Ed25519} `{VL : !Ed25519Laws V} `{B : Base64} `{BL : !Base64Laws B} `{R : Ristretto}.
Context `{W : WebPlatform} `{WL : !WebPlatformLaws W B V} `{X : WebText} `{XL : !WebTextLaws X}.
Context `{J : JsonText} `{T : Rfc3339} `{WJ : WebJson} `{JL : !WebJsonLaws WJ J T}.

(** What both documents end with. *)
Lemma noble_verifies sk payload refusal : length sk = 32%nat →
  (let? sig := base64ToBytes (b64_encode (ed_sign sk payload)) in
   let? key := base64ToBytes (b64_encode (ed_public sk)) in nobleVerify sig payload key refusal) = Ok tt.
Proof.
  intros Hsk. unfold base64ToBytes. rewrite !atob_standard. cbn [ok_or]. unfold nobleVerify.
  by rewrite noble_verify_signed.
Qed.

Lemma pin_met (o : option bytes) : pin_mismatch o o = false.
Proof. unfold pin_mismatch. by rewrite bool_decide_eq_true_2, andb_false_r. Qed.

Lemma pcr_maps_met (o : option (gmap bytes bytes)) : contactDiscoveryPcrMapsEqual o o = true.
Proof. unfold contactDiscoveryPcrMapsEqual. by rewrite bool_decide_eq_true_2. Qed.

Lemma pcr_pin_met (o : option (gmap bytes bytes)) :
  match o with None => false | Some _ => negb (contactDiscoveryPcrMapsEqual o o) end = false.
Proof. destruct o; [|done]. by rewrite pcr_maps_met. Qed.

Lemma not_falsy (o : option bytes) (v : bytes) : o = Some v → v ≠ [] → falsy o = false.
Proof. intros -> Hv. by destruct v. Qed.

Lemma hash_not_empty (d : bytes) : bytes_to_hex (sha256 d) ≠ [].
Proof. intros H%(f_equal length). by rewrite length_bytes_to_hex, sha256_length in H. Qed.

Definition pcrs_named (s : DiscoveryState) : Prop :=
  ∀ pcrs, ds_attestation_pcrs_sha384 s = Some pcrs → pcrs ≠ ∅ ∧ ∀ k v, pcrs !! k = Some v → k ∈ pcr_names.

(** The two sides write the same text. *)
Lemma web_contract_text (s : DiscoveryState) : pcrs_named s →
  web_contract_members (current_manifest s) = manifest_contract_members (current_manifest s).
Proof. intros H. unfold web_contract_members. by rewrite (pcrs_written _ H). Qed.

Lemma web_attestation_text (s : DiscoveryState) (a : AttestationPayload) : pcrs_named s →
  ap_attested_pcrs_sha384 a = ds_attestation_pcrs_sha384 s → web_attestation_members a = attestation_members a.
Proof. intros H Ha. unfold web_attestation_members. by rewrite Ha, (pcrs_written _ H), <- Ha. Qed.

Lemma web_contract_hash (s : DiscoveryState) : pcrs_named s →
  contactDiscoveryManifestContractSha256 (manifest s) = current_manifest_contract_sha256 s.
Proof.
  intros H. unfold contactDiscoveryManifestContractSha256. rewrite js_stringify_compact, bytesToHex_format.
  change (mr_payload (manifest s)) with (current_manifest s). by rewrite web_contract_text.
Qed.

(** The instants of the manifest, in milliseconds. *)
Definition millis (t : Z) : Z := (t / 1000000)%Z.

Lemma millis_hour (t : Z) : millis (t + 3600 * NANOS) = (millis t + 3600000)%Z.
Proof.
  unfold millis. replace (t + 3600 * NANOS)%Z with (t + 3600000 * 1000000)%Z by (unfold NANOS; lia).
  by rewrite Z.div_add by lia.
Qed.

Lemma web_manifest_accepted (date_now t : Z) (s : DiscoveryState) (v m d : bytes) :
  configured s v m d → ds_attestation_mode s = DEFAULT_ATTESTATION_MODE →
  (0 ≤ t)%Z → (t + 3600 * NANOS < YEAR_10000)%Z →
  verifyContactDiscoveryManifest date_now (manifest (set_discovery_clock t s))
    (ticket_issuer_public_key_b64 s) (manifest_issuer_public_key_b64 s)
    (ds_attestation_verifier s) (ds_enclave_measurement_hex s) (ds_attestation_pcrs_sha384 s)
    (ds_attestation_document_sha256 s)
  = if (millis t + 3600000 <=? date_now)%Z then throw "Contact discovery manifest expired" else Ok tt.
Proof.
  intros [Hk [Hv _] [Hm _] [Hd _] _ _ [Hv0 Hm0] (doc & _ & Hdoc) Hp] Hmode H0 Hy. set (st := set_discovery_clock t s).
  unfold verifyContactDiscoveryManifest.
  change (mr_payload (manifest st)) with (current_manifest st).
  change (mp_ticket_issuer_ed25519_pub (current_manifest st)) with (ticket_issuer_public_key_b64 s).
  change (mr_manifest_issuer_ed25519_pub (manifest st)) with (manifest_issuer_public_key_b64 s).
  rewrite !(bool_decide_eq_true_2 (_ = _)) by done. cbn [negb throw_if].
  change (mp_signed_at (current_manifest st)) with (to_rfc3339 t).
  change (mp_expires_at (current_manifest st)) with (to_rfc3339 (t + 3600 * NANOS)%Z).
  rewrite !date_parse_rfc3339 by (unfold NANOS in *; lia). fold (millis t) (millis (t + 3600 * NANOS)).
  rewrite millis_hour, (proj2 (Z.leb_gt (millis t + 3600000) (millis t))) by lia.
  destruct (millis t + 3600000 <=? date_now)%Z; [done|]. cbn [throw_if].
  change (mp_attestation_verifier (current_manifest st)) with (ds_attestation_verifier s).
  change (mp_enclave_measurement_hex (current_manifest st)) with (ds_enclave_measurement_hex s).
  change (mp_attestation_pcrs_sha384 (current_manifest st)) with (ds_attestation_pcrs_sha384 s).
  change (mp_attestation_document_sha256 (current_manifest st)) with (ds_attestation_document_sha256 s).
  rewrite !pin_met, pcr_pin_met. cbn [throw_if].
  rewrite (not_falsy _ v), (not_falsy _ m), (not_falsy (ds_attestation_document_sha256 s) d) by (done || (subst; apply hash_not_empty)).
  rewrite (not_falsy (mp_attestation_document_format _) CONTACT_DISCOVERY_ATTESTATION_DOCUMENT_FORMAT)
    by (cbn [current_manifest mp_attestation_document_format st set_discovery_clock ds_attestation_document_sha256]; by rewrite ?Hd).
  rewrite (not_falsy (mp_attestation_challenge_mode _) CONTACT_DISCOVERY_ATTESTATION_CHALLENGE_MODE)
    by (cbn [current_manifest mp_attestation_challenge_mode st set_discovery_clock ds_attestation_document_sha256]; by rewrite ?Hd).
  cbn [negb orb throw_if]. rewrite js_stringify_compact, (web_contract_text st) by exact Hp.
  by apply noble_verifies.
Qed.

Lemma hex_is_ascii (l : bytes) : ascii_text (bytes_to_hex l) = true.
Proof.
  pose proof (hex_is_digits l) as H. unfold ascii_text. rewrite forallb_forall in *. intros b Hb%H. by destruct b.
Qed.

Lemma same_text (a : bytes) (message : string) : differ a a message = Ok tt.
Proof. unfold differ. by rewrite bool_decide_eq_true_2. Qed.

(** The nonce the client draws is one the service takes. *)
Lemma challenge_nonce (g g' : rng) (nonce : bytes) :
  buildContactDiscoveryAttestationChallengeNonce g = (g', Ok nonce) →
  normalize_attestation_nonce (lit "nonce_b64") nonce = Ok nonce.
Proof.
  unfold buildContactDiscoveryAttestationChallengeNonce, web_nonce. destruct (rng_fill 16 g) as [n g1] eqn:En. intros [= _ <-].
  assert (Hl : length n = 16%nat) by (rewrite <- (rng_fill_length 16 g); by rewrite En).
  unfold normalize_attestation_nonce, bytesToBase64. rewrite btoa_standard, str_trim_b64, b64_roundtrip. unfold len at 1 2.
  by rewrite b64_encode_length, Hl; unfold len; cbn [ok_or]; rewrite Hl.
Qed.

(** The check of the attestation with the expectations the manifest states. *)
Definition check_attestation (date_now max_age : Z) (nonce : bytes) (m : ManifestResponse) (a : AttestationResponse) : js unit :=
  let p := mr_payload m in
  verifyContactDiscoveryAttestationDocument date_now a (mp_attestation_mode p) (default [] (mp_attestation_verifier p))
    (default [] (mp_enclave_measurement_hex p)) (mp_attestation_pcrs_sha384 p) (mr_manifest_issuer_ed25519_pub m) nonce
    (contactDiscoveryManifestContractSha256 m) (mp_host_release_id p) (mp_enclave_release_id p)
    (mp_oprf_public_key_ristretto255 p) (default [] (mp_attestation_document_sha256 p)) max_age.

Lemma web_attestation_accepted (date_now max_age t : Z) (nonce : bytes) (s : DiscoveryState) (v m d : bytes) :
  configured s v m d → (0 ≤ t < YEAR_10000)%Z → (0 < max_age)%Z →
  (millis t - 300000 ≤ date_now ≤ millis t + max_age * 1000)%Z → normalize_attestation_nonce (lit "nonce_b64") nonce = Ok nonce →
  ∃ a, attestation nonce (set_discovery_clock t s) = Ok a ∧
    check_attestation date_now max_age nonce (manifest (set_discovery_clock t s)) a = Ok tt.
Proof.
  intros [Hk [Hv _] [Hm _] [Hd _] _ _ _ (doc & Hb & Hdoc) Hp] Ht Hage Hnow Hn. set (st := set_discovery_clock t s) in *.
  unfold attestation. rewrite (Hv : ds_attestation_verifier st = _), (Hm : ds_enclave_measurement_hex st = _),
    (Hb : ds_attestation_document_base64 st = _), (Hd : ds_attestation_document_sha256 st = _). cbn [ok_or]. rewrite Hn.
  eexists. split; [reflexivity|]. unfold check_attestation, verifyContactDiscoveryAttestationDocument. rewrite web_contract_hash by exact Hp.
  change (mr_payload (manifest st)) with (current_manifest st).
  cbn -[differ base64ToBytes nobleVerify web_attestation_members attestation_members js_stringify throw_if contactDiscoveryPcrMapsEqual
    bytesToHex sha256 date_parse current_manifest_contract_sha256 ds_attestation_mode ds_attestation_pcrs_sha384 st
    ds_attestation_verifier ds_enclave_measurement_hex ds_attestation_document_sha256 manifest_issuer_public_key_b64 lit].
  change (ds_attestation_mode st) with (ds_attestation_mode s). change (ds_attestation_verifier st) with (ds_attestation_verifier s).
  change (ds_enclave_measurement_hex st) with (ds_enclave_measurement_hex s).
  change (ds_attestation_pcrs_sha384 st) with (ds_attestation_pcrs_sha384 s).
  change (ds_attestation_document_sha256 st) with (ds_attestation_document_sha256 s).
  change (manifest_issuer_public_key_b64 st) with (manifest_issuer_public_key_b64 s).
  rewrite Hv, Hm, Hd, pcr_pin_met. cbn [default]. repeat (rewrite same_text; cbn [throw_if]).
  unfold manifest_issuer_public_key_b64. rewrite js_stringify_compact, (web_attestation_text s) by done.
  unfold base64ToBytes. rewrite !atob_standard. cbn [ok_or]. unfold nobleVerify.
  rewrite noble_verify_signed by done. cbn [ok_or negb throw_if]. repeat (rewrite same_text; cbn [throw_if]).
  rewrite Hdoc, bytesToHex_format. unfold id. rewrite toLowerCase_ascii, bytes_to_hex_lower, same_text by apply hex_is_ascii.
  rewrite (proj2 (Z.leb_gt _ _) Hage), date_parse_rfc3339 by done. cbn [throw_if ok_or]. change (ds_utc st) with t. fold (millis t).
  rewrite (proj2 (Z.ltb_ge _ _)) by lia. cbn [throw_if]. by rewrite (proj2 (Z.ltb_ge _ _)) by lia.
Qed.

End Signed.

(** ** Tokens *)

(** A digit has the same value in both cases of its letter. *)
Lemma digit_lower (b : byte) : to_digit_16 (ascii_lower b) = to_digit_16 b.
Proof. by destruct b. Qed.

Lemma digit_bound (b : byte) (n : N) : to_digit_16 b = Some n → n < 16.
Proof. by destruct b; intros [= <-]. Qed.

Lemma nibbles_join (u l : N) : l < 16 → N.lor (N.shiftl u 4) l = u * 16 + l.
Proof.
  intros Hl. assert (Hz : N.land (N.shiftl u 4) l = 0); [|by rewrite <- N.lxor_lor, <- N.add_nocarry_lxor, N.shiftl_mul_pow2].
  apply N.bits_inj. intros i. rewrite N.land_spec, N.bits_0.
  destruct (N.lt_ge_cases i 4) as [Hi|Hi]; [by rewrite N.shiftl_spec_low|].
  rewrite (N.bits_above_log2 l i), andb_false_r; [done|]. destruct (decide (l = 0)) as [->|]; [simpl; lia|].
  apply N.lt_le_trans with 4; [|done]. apply N.log2_lt_pow2; [lia|exact Hl].
Qed.

Lemma hex_pairs_agree (field l b : bytes) :
  decode_hex_pairs field l = Ok b → parse_hex_pairs (to_ascii_lowercase l) = b.
Proof.
  revert b. induction l as [l IH] using (induction_ltof1 _ (@length byte)). destruct l as [|x [|y l]]; [by intros b [= <-]..|].
  intros b. cbn [decode_hex_pairs]. destruct (to_digit_16 x) as [u|] eqn:Ex; [|done]. destruct (to_digit_16 y) as [w|] eqn:Ey; [|done].
  cbn [ok_or]. destruct (decode_hex_pairs field l) as [r|] eqn:Er; [|done]. intros [= <-].
  cbn [to_ascii_lowercase map parse_hex_pairs]. rewrite !digit_lower, Ex, Ey. cbn [default]. f_equal.
  - unfold id. by rewrite nibbles_join by by eapply digit_bound.
  - apply (IH l); [unfold ltof; simpl; lia|done].
Qed.

Section Tokens.
Context `{P : Primitives} `{PL : !PrimitiveLaws P} `{V : Ed25519} `{B : Base64} `{BL : !Base64Laws B} `{R : Ristretto} `{RL : !RistrettoLaws R}.
Context `{W : WebPlatform} `{WL : !WebPlatformLaws W B V} `{X : WebText} `{XL : !WebTextLaws X}.
Context `{NR : !NobleRistretto R} `{NL : !NobleRistrettoLaws R NR} `{J : JsonText} `{T : Rfc3339} `{I : HashIter}.

(** The clients place a handle on the same point. *)
Lemma handle_point_agrees (h : bytes) (p : point) :
  ascii_text h = true → derive_contact_discovery_handle_point h = Ok p → discoveryHandlePoint h = Ok p.
Proof.
  intros Ha. unfold derive_contact_discovery_handle_point, decode_hex_32. destruct (_ || _) eqn:E; [done|].
  apply orb_false_iff in E as [El%negb_false_iff Eh%negb_false_iff].
  destruct (decode_hex_pairs _ (str_trim h)) as [b|] eqn:Eb; [|done]. intros [= <-].
  unfold discoveryHandlePoint, decodeDiscoveryHashHex. rewrite js_trim_ascii by done. set (l := str_trim h) in *.
  assert (Hl : ascii_text l = true) by (unfold ascii_text; rewrite forallb_forall in *; intros x Hx%Eh; by destruct x).
  rewrite toLowerCase_ascii by done. unfold len in *. unfold to_ascii_lowercase at 1. rewrite length_map, El.
  replace (forallb lower_hex_char (to_ascii_lowercase l)) with true.
  2: { symmetry. rewrite forallb_forall in *. intros x (y & <- & Hy%Eh)%in_map_iff. revert Hy. by destruct y. }
  cbn [negb orb throw_if]. rewrite (hex_pairs_agree _ _ _ Eb), hashToCurve_uniform.
  unfold concatBytes. cbn [concat]. by rewrite app_nil_r.
Qed.

(** The next [n] scalars the client draws are not zero. *)
Fixpoint web_draws_ok (n : nat) (g : rng) : Prop :=
  match n with
  | O => True
  | S n => hashToScalar (rng_fill 32 g).1 (lit "pqmsg-discovery-blind-scalar-v1") ≠ scalar_zero ∧ web_draws_ok n (rng_fill 32 g).2
  end.

Lemma multiply_ok (p : point) (a : scalar) : a ≠ scalar_zero → multiply p a = Ok (point_mul p a).
Proof. intros H. unfold multiply. by rewrite bool_decide_eq_false_2. Qed.

Lemma point_from_b64 (p : point) : pointFromBase64 (b64_encode (compress p)) = Ok p.
Proof. unfold pointFromBase64, base64ToBytes. rewrite atob_standard. cbn [ok_or]. by rewrite decompress_compress. Qed.

Lemma scalar_from_bytes (a : scalar) : discoveryProofScalarFromBytes (scalar_to_bytes a) = a.
Proof. unfold discoveryProofScalarFromBytes. by rewrite fn_create_mod_order, scalar_from_to by apply scalar_to_bytes_length. Qed.

Lemma challenge_agrees (pk q e c1 c2 : point) :
  discoveryDleqChallenge pk q e c1 c2 = discovery_evaluation_challenge pk q e c1 c2.
Proof.
  unfold discoveryDleqChallenge, discoveryProofScalarFromBytes. rewrite fn_create_mod_order by apply sha256_length.
  unfold discovery_evaluation_challenge, concatBytes. cbn [concat]. by rewrite app_nil_r.
Qed.

Lemma web_blind_spec (hashes : list bytes) (g : rng) :
  Forall (λ h, ascii_text h = true ∧ ∃ p, derive_contact_discovery_handle_point h = Ok p) hashes → web_draws_ok (length hashes) g →
  ∃ g' xs, prepareContactDiscoveryBlindRequest hashes g = (g', Ok (map blinded_b64 xs, map scalar_b64 xs)) ∧ Forall2 blinds hashes xs.
Proof.
  intros Hh. revert g. induction Hh as [|h hashes [Ha [p Hp]] _ IH]; intros g Hd; [by exists g, []|].
  cbn [length web_draws_ok] in Hd. destruct Hd as [Hz Hd]. cbn [prepareContactDiscoveryBlindRequest].
  unfold sm_bind at 1 2 3 4, sm_lift at 1 2, web_rng. rewrite (handle_point_agrees _ _ Ha Hp).
  destruct (rng_fill 32 g) as [random g1]. cbn [fst snd] in *. rewrite multiply_ok by done.
  destruct (IH g1 Hd) as (g' & xs & -> & Hxs). eexists g', ((p, _) :: xs). unfold sm_ret, bytesToBase64. cbn [fst snd].
  rewrite !btoa_standard. split; [reflexivity|]. by constructor.
Qed.

(** Neither scalar of a proof is zero; the client could not multiply by it. *)
Definition proof_nonzero (pf : DiscoveryEvaluateProof) : Prop :=
  ∀ b, b64_decode (ep_challenge_scalar_base64 pf) = Some b ∨ b64_decode (ep_response_scalar_base64 pf) = Some b →
    from_bytes_mod_order b ≠ scalar_zero.

Lemma web_verify_proof_ok (k : scalar) (q : point) (pf : DiscoveryEvaluateProof) :
  honest_proof k q pf → proof_nonzero pf →
  web_verify_proof (point_mul RISTRETTO_BASEPOINT_POINT k) (b64_encode (compress q)) (b64_encode (compress (point_mul q k))) pf = Ok tt.
Proof.
  intros (n & ->) Hz. set (c := discovery_evaluation_challenge _ _ _ _ _) in *. unfold encode_scalar_b64 in *.
  assert (Hc : c ≠ scalar_zero) by (rewrite <- (scalar_from_to c); apply Hz; left; apply b64_roundtrip).
  assert (Hr : scalar_add n (scalar_mul c k) ≠ scalar_zero) by (rewrite <- (scalar_from_to (scalar_add _ _)); apply Hz; right; apply b64_roundtrip).
  unfold web_verify_proof. cbn [ep_challenge_scalar_base64 ep_response_scalar_base64 ep_commitment_base_base64 ep_commitment_blinded_base64].
  rewrite !point_from_b64. unfold base64ToBytes. rewrite !atob_standard. cbn [ok_or]. rewrite !scalar_from_bytes, challenge_agrees. fold c.
  rewrite same_text, !multiply_ok by done. by rewrite <- !dleq_complete, !same_text.
Qed.

Lemma web_verify_proofs_ok (k : scalar) (qs : list point) (proofs : list DiscoveryEvaluateProof) :
  Forall2 (honest_proof k) qs proofs → Forall proof_nonzero proofs →
  web_verify_proofs (point_mul RISTRETTO_BASEPOINT_POINT k) (map (λ q, b64_encode (compress q)) qs)
    (map (λ q, b64_encode (compress (point_mul q k))) qs) proofs = Ok tt.
Proof.
  induction 1 as [|q pf qs proofs Hp _ IH]; [done|]. intros [Hz Hzs]%list.Forall_cons. cbn [map web_verify_proofs].
  rewrite web_verify_proof_ok by done. by apply IH.
Qed.

Lemma web_finalize_ok (k : scalar) (x : point * scalar) : x.2 ≠ scalar_zero →
  web_finalize_token (scalar_b64 x) (b64_encode (compress (point_mul (point_mul x.1 x.2) k)))
  = Ok (finalize_contact_discovery_token_hex (point_mul x.1 k)).
Proof.
  intros Hz. unfold web_finalize_token, scalar_b64. rewrite point_from_b64. unfold base64ToBytes. rewrite atob_standard. cbn [ok_or].
  rewrite fn_fromBytes_canonical. cbn [ok_or]. rewrite bool_decide_eq_false_2 by done. cbn [throw_if].
  rewrite multiply_ok, unblind by (done || by apply invert_nonzero). rewrite bytesToHex_format.
  unfold finalize_contact_discovery_token_hex, concatBytes. cbn [concat]. by rewrite app_nil_r.
Qed.

Lemma web_finalize_all (k : scalar) (hashes : list bytes) (xs : list (point * scalar)) : Forall2 blinds hashes xs →
  finalizeContactDiscoveryTokens (map scalar_b64 xs)
    (map (λ q, b64_encode (compress (point_mul q k))) (map (λ x, point_mul x.1 x.2) xs))
  = Ok (map (λ x, finalize_contact_discovery_token_hex (point_mul x.1 k)) xs).
Proof.
  intros H. unfold finalizeContactDiscoveryTokens. rewrite !length_map, Nat.eqb_refl. cbn [negb throw_if].
  induction H as [|h x hashes xs [_ Hx] _ IH]; [done|]. cbn [map zip_with js_map]. rewrite web_finalize_ok by done.
  by rewrite IH.
Qed.

(** The response as the client parses it. *)
Definition web_response (r : DiscoveryEvaluateResponse) : WebEvaluateResponse :=
  mkWebEvaluate (es_evaluation_proof_mode r) (es_evaluated_elements_base64 r) (es_dleq_proofs r).

End Tokens.

(** ** A concrete service *)

#[export] Instance ToyWebJson : WebJson := {|
  js_stringify := json_to_vec;
  date_parse := λ l, (λ t, t / 1000000)%Z <$> parse_from_rfc3339 l;
  locale_leb := str_leb;
|}.

#[export] Instance ToyWebJsonLaws : WebJsonLaws ToyWebJson ToyJson ToyRfc3339.
Proof.
  split; [done| |done]. intros t Ht. cbn [date_parse ToyWebJson]. by rewrite rfc3339_roundtrip.
Qed.


#[export] Instance ToyNobleRistretto : NobleRistretto ToyRistretto := {|
  hashToCurve := from_uniform_bytes;
  hashToScalar := λ b _, z7 (1 + toy_sum 1 b mod 6);
  fn_fromBytes := z7_of_bytes;
  fn_create := λ n, z7 (n mod 256);
|}.

#[export] Instance ToyNobleRistrettoLaws : NobleRistrettoLaws ToyRistretto ToyNobleRistretto.
Proof.
  split.
  - reflexivity.
  - by intros [].
  - intros [|b l] H; [discriminate H|]. cbn [fn_create ToyNobleRistretto from_bytes_mod_order ToyRistretto le_value foldr head default].
    f_equal. pose proof (Byte.to_N_bounded b). rewrite N.shiftl_mul_pow2. change (2 ^ 8) with 256.
    rewrite N.add_comm, N.Div0.mod_add, N.mod_small by lia. done.
  - intros a Ha. by destruct a.
Qed.

Definition toy_admission := admit_ticket (issued_ticket toy_alice.2) [lit "upload"; lit "match"]
  (set_discovery_clock (1005 * NANOS) toy_service).

Lemma toy_admits : is_ok toy_admission.2 = true.
Proof. vm_compute. reflexivity. Qed.

Lemma toy_handles : Forall (λ h, ascii_text h = true ∧ is_Some (handle_token (ds_oprf_secret_scalar toy_service) h)) toy_hashes_a.
Proof.
  repeat (constructor; [split; [vm_compute; reflexivity|apply (bool_decide_eq_true_1 _); vm_compute; reflexivity]|]). constructor.
Qed.

Lemma toy_web_draws : web_draws_ok 2 (5 : @rng Toy).
Proof. cbn [web_draws_ok]. split_and!; try exact Logic.I; vm_compute; discriminate. Qed.

